(* ===== verification/_CoqProject ===== *)
-Q . S2P
Prelude.v
Base64.v
MD5.v
CLib.v
EvBuffer.v
HttpAuth.v
World.v
Parser.v
HttprBuffer.v
Redsocks.v
Ownership.v
ClientLogic.v
Flow.v
Splice.v
Socks5.v
Socks4.v
HttpConnect.v
HttpRelay.v
Accept.v
EventLoop.v
Lifecycle.v
Settings.v
Pump.v
SplicePump.v
Pressure.v
Config.v
Typing.v
Startup.v
Memory.v
PacketProto.v
ChunkBuffer.v
BSocks.v
Tun2socks.v
UdpProto.v
BAVL.v
UdpRelay.v
UdpTable.v
RedUdp.v
UdpConfig.v
Dnstc.v
KList.v
Ipaddr6.v
TunOptions.v
Ancillary.v
TunMain.v
Jobs.v
LinkedList1.v
