(* ===== verification/Prelude.v ===== *)
(** * Verification of redsocks, the transparent proxy of the application: overview

    The native part of the repository (src/core/src/main/jni) runs redsocks, a
    single-threaded daemon on libevent. Connections that the system redirects to it are
    accepted, a dialogue with an upstream proxy (SOCKS4, SOCKS5, HTTP CONNECT, or plain HTTP)
    is carried out, and then bytes are relayed in both directions until both have ended.
    Beside it runs tun2socks of badvpn, which turns the packets of the tunnel into
    connections: TCP through lwIP and a SOCKS5 client each, UDP packet by packet through a
    socket per local address. This library translates this C code into Rocq functions and
    proves what it does.
    File names below are relative to src/core/src/main/jni/redsocks unless they say otherwise.

    ** The program and the files

    - Prelude: machine integers (a w-bit integer is a [Z] with its wrap-around written out),
      byte strings, lists, the hint databases and tactics all files share.
    - CLib: what the sources use of the C library (ctype, string.h, strtoul, inet_aton,
      printf conversions), on byte strings without their terminator.
    - Base64 (base64.c), MD5 (md5.c), HttpAuth (http-auth.c): the codecs and the Basic and
      Digest schemes.
    - EvBuffer (libevent/buffer.c, utils.c): lines read from evbuffers, for the line style
      the build selects and the one it was written for; the class [LineReader] is what the
      HTTP clients rely on.
    - World (redsocks.h, http-auth.h, utils.c, libevent/bufferevent_sock.c): the state of the
      process as records (clients, instances, bufferevents, pump, descriptors), the state and
      error monad [M] whose outcomes are a value, a failed assertion, or a use of freed or
      NULL memory, and the weakest preconditions [wp] of its programs. System calls that can
      fail take their answers from [w_answers]; an empty list means they succeed.
    - Parser (parser.c), Config (the sections of redsocks.c and base.c), Typing: the
      configuration file, what it sets, and the types of what it can set.
    - HttprBuffer, Redsocks (redsocks.c, base.c, utils.c): the growing buffers of http-relay;
      release of clients, half-close, the buffer pump, start of the relay, connection
      accounting, back-off and dropping of idle clients.
    - Splice (redsocks.c): the pump that relays through kernel pipes.
    - Socks5, Socks4, HttpConnect, HttpRelay (the files of these names): the dialogues with
      the proxy, each as the callbacks the source installs.
    - Accept (redsocks.c, libevent): [redsocks_accept_client], the dispatch of callbacks, and
      [handle], one turn of the event loop. An [input_event] is what libevent can report
      (readable, end, error, writable, connection established, timer, splice results), and
      [enabled] says when it can.
    - Ownership, ClientLogic, Flow, EventLoop: the invariant of the process and the rules
      with which each callback is shown to keep it.
    - Lifecycle (redsocks.c): [redsocks_init] and [redsocks_fini], and the reachable states.
    - Settings: no event changes the configuration.
    - Pump, SplicePump: abstract specifications of one direction of a connection, and the
      refinement theorems of the two pumps.
    - Pressure: back-off delays and runs in which dropping idle clients goes wrong.
    - Startup (main.c, base.c, log.c): the process from its command line to its exit code,
      with its privileges, limits and log destinations.
    - Memory: loading from and storing to a block of memory, for the objects of badvpn.
    - PacketProto (badvpn/flow/PacketProtoEncoder.c, PacketStreamSender.c,
      PacketProtoDecoder.c): packets over a stream.
    - ChunkBuffer (badvpn/structure/ChunkBuffer2.h, flow/PacketBuffer.c): the packet queue, a
      ring of blocks modelled byte by byte.
    - BSocks (badvpn/socksclient/BSocksClient.c): the SOCKS5 client of tun2socks, with the
      objects it owns.
    - Tun2socks (badvpn/tun2socks/tun2socks.c, misc/dead.h): the callbacks of a TCP connection
      between lwIP and the SOCKS5 client, on a heap of clients.
    - UdpProto (badvpn/tun2socks/tun2socks.c, misc/ipv4_proto.h, ipv6_proto.h, udp_proto.h): UDP
      packets read from the device and built for it, with their checksums.
    - BAVL (badvpn/structure/BAVL.h): the AVL tree, pointer by pointer.
    - UdpRelay (badvpn/tun2socks/SocksUdpGwClient.c, system/BDatagram_unix.c, flow): one UDP
      connection, a chain of objects that call each other through jobs.
    - UdpTable (badvpn/tun2socks/SocksUdpGwClient.c, base/BPending.c): all UDP connections, the
      tree and the list they are in, and the event loop with its stack of jobs.
    - RedUdp (redudp.c), Dnstc (dnstc.c), UdpConfig (their sections): UDP through the
      association of a SOCKS5 proxy, with the queue of a client, its timers and the sockets
      bound to foreign addresses; DNS queries answered as truncated.
    - KList (list.h), LinkedList1 (badvpn/structure/LinkedList1.h), Jobs (badvpn/base/BPending.c,
      structure/SLinkedList_impl.h): linked lists and the stack of jobs, pointer by pointer; the
      other files have them as Rocq lists.
    - Ipaddr6 (badvpn/misc/ipaddr6.h, parse_number.h): IPv6 addresses, prefixes and masks as text.
    - TunOptions (badvpn/tun2socks/tun2socks.c, system/BAddr.h, misc/loglevel.h, read_file.h): the
      command line of tun2socks and what it sets.
    - Ancillary (libancillary): descriptors sent from one process to another.
    - TunMain (badvpn/tun2socks/tun2socks.c): [main] of tun2socks, the handing over of the device,
      the start of lwIP, its timer, and the way out through the labels of [main].

    Each file's header says more; C names are kept. A C pointer to a client is its identity
    in a finite map, so a use after [free] is a lookup that fails; a descriptor is a number
    in the set of open ones, and closing a closed one is recorded. An object of badvpn is a
    record; a handler is a function from the object to an [option], [None] being a failed
    assertion or an access outside its buffer (the build compiles the assertions out). The
    operation an object has asked its interface for is part of its state, and a run is a list
    of what the interfaces report.

    ** What the theorems show

    - Safety: from every accepted configuration file within the bounds below, every event in
      every reachable state runs to completion, without failed assertion, use of freed
      memory or NULL pointer ([main_loop_safe], [event_loop_safe]).
    - Invariants: a descriptor has one owner and is closed once ([descriptors_owned_once]);
      clients are counted and limited ([connections_counted]); the process accepts or a
      timer will make it ([accepts_or_backs_off]); clients leave a quarter of the
      descriptors to the rest ([clients_leave_a_quarter]).
    - Relaying: both pumps refine an abstract FIFO per direction ([pump_refines],
      [splice_refines]); from this, bytes arrive in order and none is lost or repeated, the
      end follows the last byte, and no direction is forgotten by the loop.
    - Start and end: how [main] can start or fail, in which order privileges are given up,
      and that everything is released at the end.
    - Configuration: the piecewise reading of the file equals reading the whole text, always
      returns, reads back what is printed, and only accepts well-typed settings.
    - Protocols: each SOCKS or HTTP dialogue follows a pure machine or request and reply
      format; messages parse back to what they were built from.
    - tun2socks: frames are decoded into the packets they were made from, however the stream
      is cut; the packet queue is a FIFO of the promised capacity; the SOCKS5 client follows
      its protocol and releases what it owns exactly once. TCP clients are relayed in order,
      lose nothing and never use what was freed ([tun_clients_safe], [tun_relays_in_order],
      [tun_loses_nothing], [tun_never_stalls]). UDP packets are parsed safely and answers read
      back ([udp_packets_parsed], [udp_answers_read_back]); the UDP relay is safe, sends in
      order, delivers answers, and its table is a cache that drops the least recently used
      address ([udp_relay_safe], [udp_relay_in_order], [udp_answer_delivered],
      [udp_table_is_lru]). The command line is accepted exactly when it follows a grammar, and a
      setup that is written as one is what the program then works with ([command_line_grammar],
      [setup_configures]); [main] releases what it has made, whatever fails ([tun_main_safe]).
    - UDP and DNS of redsocks: the relay is safe, keeps the order of packets within its queue,
      flushes it at the association, checks whose answers it forwards, and gives everything back
      ([redudp_safe], [redudp_in_order], [association_flushes], [redudp_answers],
      [redudp_stops]); queries as RFC 1035 encodes them, and only those, are answered
      ([dnstc_answers]); the sections of
      the file are read back and started ([udp_file_starts]).
    - Data structures: the AVL tree refines an ascending list ([bavl_refines]), the linked lists
      refine lists ([lists_refine], [linked_list_refines]), and the jobs of the event loop a stack
      of distinct jobs ([jobs_refine]), which is how UdpTable and Tun2socks have them.
    - Addresses: what is printed of an IPv6 address fits its buffer and is read back, and any text
      is read safely ([ipv6_text_roundtrip], [ipv6_parse_safe]); masks and prefixes are inverse,
      and networks are what a mask leaves ([ipv6_networks]).
    - Codecs: Base64 and MD5 equal their RFC definitions; streaming MD5 equals hashing the
      concatenation; the digest answers the challenge.
    - Defects: where the code does not do what it means to, a theorem runs into it on a
      concrete input (early end of a client's data, spurious wake-ups of splice, idle
      dropping, replies split over two segments, the line reader of the build, packets too long
      for a slot of the UDP relay, a DNS connection used for other packets, clients of redudp.c
      used after a failed timer, a second reply to the association, short packets of the proxy,
      answers of the other family, the timer of the back-off that was not added, descriptors of redudp.c and dnstc.c closed twice, the descriptor
      of the device left uninitialised, the name of tun2socks overwritten).

    ** Bounds and fuel

    [event_loop_safe] and what follows from it cover SOCKS4, SOCKS5, and http-connect without
    credentials, with either pump, and [connpres_idle_timeout = 0]: with idle dropping the
    statement is false (Pressure). A connection limit of 0 is excluded, since the first
    client then aborts ([small_limit_aborts]); so is a limit of 0 for the back-off, by which
    [conn_pressure] divides. Calls of libevent and of the system may fail where the code looks
    at what they return; on the timer of the back-off the failure is modelled too, and then no
    client is accepted any more ([backoff_timer_lost]). The refinements of the pumps and what
    follows from them are about runs in which no call fails, and the end of a direction is
    behind its last byte only when it does not come first, or before the relay starts, while bytes
    are already waiting ([primed], [closes], [early_end_loses_data]).
    [main_start_outcome] covers files with the supported protocols and no idle dropping, and
    counts descriptors of sockets and of the log file, not the one the C library has for syslog.
    Pieces of MD5 are shorter than 2^28 bytes: beyond, [nbytes << 3] overflows its [int].
    [parser_run] gets 6 * length + 2 passes, which
    [parser_run_reads_text] shows to be enough for every file; its inner loops get one unit
    per byte and one more. The doubling loops of http-relay are proved to end for sizes up
    to 1 GiB, after which the C code overflows. A pipe holds up to 1048576 bytes,
    what redsocks.c asks [splice] for at most. Rings of badvpn have at most 2^29 blocks (2 GiB),
    beyond which the C code overflows ([large_ring_overflows]). The loops of the AVL tree get
    2 log2 (n + 1) + 1 passes after n operations, which [bavl_refines] shows to be enough; the
    table of UDP connections has at most 65536 nodes, so 33. [udp_relay_safe] covers packets that
    leave room for the header ([has_room]) and sockets that do not fail; without either the
    statement is false. An answer of the other family than the local address fails an assertion,
    and the theorem says so ([fitting], [other_family_fails_assertion]). [redudp_safe] covers runs in which [event_add] succeeds, packets of the proxy that
    have a header, and a proxy that says nothing behind its reply to the association; without
    these the statement is false. Reading a file takes one pass per byte and two more
    ([read_loop_ends]). [tun_main_safe] wants a program name with room for the one [--fake-proc]
    writes, and a descriptor that is -1 or not negative. The resolver, the width of [long] and
    [size_t], the names of the logging channels and the answers of lwIP and of the system are
    arguments there. The width of [unsigned long] and name
    resolution are parameters of the parser ([Platform]); user and group database, [fork] and
    files are parameters of the process ([Os]).

    ** Not modelled

    - reddns.c stops the compiler with an error; debug.c is an HTTP server for debugging, made on
      demand.
    - The text of log messages and of the debug dump; failures of [malloc] in redsocks.
    - libevent beyond evbuffers and socket bufferevents: dispatching is the relation
      [enabled]; DNS, HTTP, RPC and SSL are not used by redsocks.
    - badvpn beyond the components above: the waiting of the reactor for descriptors and timers,
      the device (two system calls), the UDP gateway client that the Android build replaces by
      SocksUdpGwClient.c itself, and the other programs of badvpn; lwIP, of which TunMain has the
      connections on its lists. The tree of ports at the top of tun2socks.c is never filled, and
      only [free_connections] of it is called.
    - The Kotlin application; the command line its VPN service builds is the witness of
      [setup_configures].

    ** What is left

    http-connect with credentials and http-relay are modelled and specified on their own, and not
    inside the event-loop theorems; idle dropping is covered by its defects and not under a moving
    clock. *)

From Stdlib Require Import ZArith Lia Bool Ascii.
From Stdlib Require String.
From stdpp Require Export prelude strings list gmap.
#[export] Set Default Goal Selector "!".
Open Scope Z_scope.

(** ** Notation scope and hint databases of the development *)

Declare Scope word_scope.
Delimit Scope word_scope with word.

Create HintDb words.
Create HintDb lists.
Create Rewrite HintDb words.
Create Rewrite HintDb lists.

(** ** Machine integers

    A w-bit C integer is a [Z]; these functions write out its wrap-around. *)

Definition u8 (z : Z) : Z := z mod 2 ^ 8.
Definition u16 (z : Z) : Z := z mod 2 ^ 16.
Definition u32 (z : Z) : Z := z mod 2 ^ 32.
Definition u64 (z : Z) : Z := z mod 2 ^ 64.
(** Two's complement [int]. *)
Definition i32 (z : Z) : Z := (z + 2 ^ 31) mod 2 ^ 32 - 2 ^ 31.

Notation "x '+32' y" := (u32 (x + y)) (at level 50, left associativity) : word_scope.
Notation "x '-32' y" := (u32 (x - y)) (at level 50, left associativity) : word_scope.

Definition is_byte (z : Z) : bool := (0 <=? z) && (z <? 256).
Definition is_u32 (z : Z) : bool := (0 <=? z) && (z <? 2 ^ 32).

Lemma is_byte_spec z : is_byte z = true <-> 0 <= z < 256.
Proof. unfold is_byte. rewrite andb_true_iff, Z.leb_le, Z.ltb_lt. lia. Qed.

Lemma is_u32_spec z : is_u32 z = true <-> 0 <= z < 2 ^ 32.
Proof. unfold is_u32. rewrite andb_true_iff, Z.leb_le, Z.ltb_lt. lia. Qed.

Lemma u8_range z : 0 <= u8 z < 256.
Proof. unfold u8. change 256 with (2 ^ 8). apply Z.mod_pos_bound; lia. Qed.
Lemma u16_range z : 0 <= u16 z < 65536.
Proof. unfold u16. change 65536 with (2 ^ 16). apply Z.mod_pos_bound; lia. Qed.
Lemma u32_range z : 0 <= u32 z < 2 ^ 32.
Proof. apply Z.mod_pos_bound; lia. Qed.
Lemma u64_range z : 0 <= u64 z < 2 ^ 64.
Proof. apply Z.mod_pos_bound; lia. Qed.

Lemma u8_id z : 0 <= z < 256 -> u8 z = z.
Proof. intros. apply Z.mod_small. lia. Qed.
Lemma u16_id z : 0 <= z < 65536 -> u16 z = z.
Proof. intros. apply Z.mod_small. lia. Qed.
Lemma u32_id z : 0 <= z < 2 ^ 32 -> u32 z = z.
Proof. apply Z.mod_small. Qed.
Lemma i32_id z : - 2 ^ 31 <= z < 2 ^ 31 -> i32 z = z.
Proof. intros. unfold i32. rewrite Z.mod_small; lia. Qed.

Lemma u32_u32 z : u32 (u32 z) = u32 z.
Proof. apply u32_id, u32_range. Qed.
Lemma u32_add_l x y : u32 (u32 x + y) = u32 (x + y).
Proof. apply Zplus_mod_idemp_l. Qed.
Lemma u32_add_r x y : u32 (x + u32 y) = u32 (x + y).
Proof. apply Zplus_mod_idemp_r. Qed.

#[export] Hint Resolve u8_range u16_range u32_range u64_range : words.
#[export] Hint Rewrite u32_u32 u32_add_l u32_add_r : words.

(** ** Bytes and C strings

    A byte is a [Z] between 0 and 255, a buffer a [list Z]; a C string is the
    list of its bytes without the terminating zero. *)

Abbreviation bytes := (list Z).

Definition byte_of_ascii (a : ascii) : Z := Z.of_N (N_of_ascii a).

(** The bytes of a string literal of the source. *)
Definition lit (s : string) : bytes := byte_of_ascii <$> String.list_ascii_of_string s.

Definition is_bytes (l : bytes) : Prop := Forall (fun b => 0 <= b < 256) l.
Definition is_cstr (l : bytes) : Prop := Forall (fun b => 0 < b < 256) l.

#[export] Instance is_bytes_dec l : Decision (is_bytes l).
Proof. unfold is_bytes. apply _. Defined.
#[export] Instance is_cstr_dec l : Decision (is_cstr l).
Proof. unfold is_cstr. apply _. Defined.

Lemma is_cstr_bytes l : is_cstr l -> is_bytes l.
Proof. intros H. eapply Forall_impl; [exact H|]. cbn. lia. Qed.
Lemma is_bytes_app l k : is_bytes (l ++ k) <-> is_bytes l /\ is_bytes k.
Proof. apply Forall_app. Qed.
Lemma is_cstr_app l k : is_cstr (l ++ k) <-> is_cstr l /\ is_cstr k.
Proof. apply Forall_app. Qed.
Lemma is_bytes_take n l : is_bytes l -> is_bytes (take n l).
Proof. apply Forall_take. Qed.
Lemma is_bytes_drop n l : is_bytes l -> is_bytes (drop n l).
Proof. apply Forall_drop. Qed.
#[export] Hint Resolve is_cstr_bytes is_bytes_take is_bytes_drop : lists.

(** Length as a [Z], the type the source's sizes have. *)
Definition zlen {A} (l : list A) : Z := Z.of_nat (length l).

Lemma zlen_nonneg {A} (l : list A) : 0 <= zlen l.
Proof. unfold zlen. lia. Qed.
Lemma zlen_app {A} (l k : list A) : zlen (l ++ k) = zlen l + zlen k.
Proof. unfold zlen. rewrite length_app. lia. Qed.
Lemma zlen_cons {A} (x : A) l : zlen (x :: l) = 1 + zlen l.
Proof. unfold zlen. cbn [length]. lia. Qed.
Lemma zlen_nil {A} : zlen (@nil A) = 0.
Proof. reflexivity. Qed.
#[export] Hint Rewrite @zlen_app @zlen_cons @zlen_nil : lists.

(** ** Little-endian and big-endian byte lists *)

Fixpoint le_bytes (n : nat) (z : Z) : bytes :=
  match n with
  | O => []
  | S n => u8 z :: le_bytes n (Z.shiftr z 8)
  end.

Fixpoint le_value (l : bytes) : Z :=
  match l with
  | [] => 0
  | b :: l => b + 256 * le_value l
  end.

(** Network byte order. *)
Definition be_bytes (n : nat) (z : Z) : bytes := rev (le_bytes n z).
Definition be_value (l : bytes) : Z := le_value (rev l).

Lemma length_le_bytes n z : length (le_bytes n z) = n.
Proof. revert z. induction n; intros; cbn; auto. Qed.

Lemma le_bytes_are_bytes n z : is_bytes (le_bytes n z).
Proof.
  revert z. induction n as [|n IH]; intros z; cbn; [constructor|].
  constructor; [apply u8_range | apply IH].
Qed.

Lemma le_value_bytes n z : 0 <= z < 256 ^ Z.of_nat n -> le_value (le_bytes n z) = z.
Proof.
  revert z. induction n as [|n IH]; intros z Hz; cbn [le_bytes le_value].
  { change (256 ^ Z.of_nat 0) with 1 in Hz. lia. }
  rewrite Nat2Z.inj_succ, Z.pow_succ_r in Hz by lia.
  rewrite Z.shiftr_div_pow2 by lia. change (2 ^ 8) with 256.
  rewrite IH.
  - unfold u8. change (2 ^ 8) with 256. pose proof (Z.div_mod z 256). lia.
  - split; [apply Z.div_pos; lia|]. apply Z.div_lt_upper_bound; lia.
Qed.

Lemma le_bytes_value l : is_bytes l -> le_bytes (length l) (le_value l) = l.
Proof.
  induction 1 as [|b l Hb Hl IH]; [done|]. cbn [length le_bytes le_value].
  rewrite Z.shiftr_div_pow2 by lia. unfold u8. change (2 ^ 8) with 256.
  rewrite (Z.mul_comm 256), Z.mod_add, Z.div_add by lia.
  rewrite Z.mod_small, Z.div_small by lia. f_equal. exact IH.
Qed.

Lemma le_value_range l : is_bytes l -> 0 <= le_value l < 256 ^ zlen l.
Proof.
  unfold zlen. induction 1 as [|b l Hb Hl IH]; cbn [le_value length]; [lia|].
  rewrite Nat2Z.inj_succ, Z.pow_succ_r by lia. lia.
Qed.

Lemma le_value_app l k : le_value (l ++ k) = le_value l + 256 ^ zlen l * le_value k.
Proof.
  unfold zlen. induction l as [|b l IH]; cbn [le_value length app]; [lia|].
  rewrite IH, Nat2Z.inj_succ, Z.pow_succ_r by lia. ring.
Qed.

(** ** Generic list lemmas *)

Lemma last_of_cons {A} (a x : A) c : List.last (x :: c) a = List.last c x.
Proof. revert a x. induction c as [|y c IH]; intros a x; [done|]. change (List.last (x :: y :: c) a) with (List.last (y :: c) a). by rewrite !IH. Qed.

(** The first element leaves a list it is in once. *)
Lemma filter_first {A} `{EqDecision A} (x : A) l : x ∉ l -> filter (fun y => y <> x) (x :: l) = l.
Proof.
  intros Hx. rewrite filter_cons, decide_False by (by intros []). induction l as [|y l IH]; [done|]. apply not_elem_of_cons in Hx as [Hy Hx]. rewrite filter_cons, decide_True by congruence. by rewrite IH.
Qed.

(** Induction that takes [n] elements at a time. *)
Lemma chunk_ind {A} (n : nat) (P : list A -> Prop) :
  (0 < n)%nat ->
  (forall l, (length l < n)%nat -> P l) ->
  (forall c l, length c = n -> P l -> P (c ++ l)) ->
  forall l, P l.
Proof.
  intros Hn Hshort Hstep l. remember (length l) as k eqn:Hk.
  revert l Hk. induction k as [k IH] using lt_wf_ind. intros l ->.
  destruct (decide (length l < n)%nat) as [Hlt|Hge]; [auto|].
  rewrite <- (take_drop n l). apply Hstep.
  - rewrite length_take. lia.
  - eapply IH; [|done]. rewrite length_drop. lia.
Qed.

(** ** Tactics *)

(** Induction on the universally quantified list of the goal, [n] elements at a time. *)
Ltac chunk_induction n :=
  match goal with
  | |- forall l, @?P l => refine (chunk_ind n P _ _ _); cbv beta; [lia| |]
  end.

(** Splits the first boolean test or match of the goal. *)
Ltac cases :=
  match goal with
  | |- context [if ?b then _ else _] => destruct b eqn:?
  | |- context [match ?x with _ => _ end] => destruct x eqn:?
  end.

(** The same in a hypothesis. *)
Ltac cases_in H :=
  match type of H with
  | context [if ?b then _ else _] => destruct b eqn:?
  | context [match ?x with _ => _ end] => destruct x eqn:?
  end.

(** Reflects boolean comparisons of [Z] in the context into propositions. *)
Ltac zbool :=
  repeat match goal with
  | H : (_ && _) = true |- _ => apply andb_true_iff in H; destruct H
  | H : (_ || _) = false |- _ => apply orb_false_iff in H; destruct H
  | H : negb _ = true |- _ => apply negb_true_iff in H
  | H : negb _ = false |- _ => apply negb_false_iff in H
  | H : (_ =? _) = true |- _ => apply Z.eqb_eq in H
  | H : (_ =? _) = false |- _ => apply Z.eqb_neq in H
  | H : (_ <? _) = true |- _ => apply Z.ltb_lt in H
  | H : (_ <? _) = false |- _ => apply Z.ltb_ge in H
  | H : (_ <=? _) = true |- _ => apply Z.leb_le in H
  | H : (_ <=? _) = false |- _ => apply Z.leb_gt in H
  end.

(** Right-nests the appends of the goal. *)
Ltac norm_app :=
  repeat first [rewrite <- app_assoc | rewrite <- app_comm_cons | rewrite app_nil_r
               | rewrite app_nil_l].

Ltac zlens := unfold zlen in *; rewrite ?length_app, ?length_take, ?length_drop in *; cbn [length] in *.
