(* ===== verification/Base64.v ===== *)
(** * Base64 (redsocks/base64.c)

    [base64_encode] and [base64_decode] as the source writes them, with their
    32-bit accumulators, and the three-byte-group encoding of RFC 4648 they are
    compared with. *)

From S2P Require Import Prelude.
Open Scope Z_scope.

Module Base64.

(** ** The code *)

Definition b64 : bytes :=
  lit "ABCDEFGHIJKLMNOPQRSTUVWXYZabcdefghijklmnopqrstuvwxyz0123456789+/".

Definition map2 : list Z :=
  [0x3e; 0xff; 0xff; 0xff; 0x3f; 0x34; 0x35; 0x36;
   0x37; 0x38; 0x39; 0x3a; 0x3b; 0x3c; 0x3d; 0xff;
   0xff; 0xff; 0xff; 0xff; 0xff; 0xff; 0x00; 0x01;
   0x02; 0x03; 0x04; 0x05; 0x06; 0x07; 0x08; 0x09;
   0x0a; 0x0b; 0x0c; 0x0d; 0x0e; 0x0f; 0x10; 0x11;
   0x12; 0x13; 0x14; 0x15; 0x16; 0x17; 0x18; 0x19;
   0xff; 0xff; 0xff; 0xff; 0xff; 0xff; 0x1a; 0x1b;
   0x1c; 0x1d; 0x1e; 0x1f; 0x20; 0x21; 0x22; 0x23;
   0x24; 0x25; 0x26; 0x27; 0x28; 0x29; 0x2a; 0x2b;
   0x2c; 0x2d; 0x2e; 0x2f; 0x30; 0x31; 0x32; 0x33].

(** [BASE64_SIZE(x)], the size of the output with its terminating zero. *)
Definition BASE64_SIZE (x : Z) : Z := (x + 2) / 3 * 4 + 1.

(** The loop of [base64_decode] from input index [i]: [v] is the [int]
    accumulator, [out] what was stored so far.  The result is the return value
    and the stored bytes. *)
Fixpoint decode_loop (inp : bytes) (i v : Z) (out : bytes) (out_size : Z) : Z * bytes :=
  match inp with
  | [] => (zlen out, out)
  | c :: rest =>
      if (c =? 0) || (c =? 61) then (zlen out, out)
      else
        let index := u32 (c - 43) in
        if zlen map2 <=? index then (-1, out)
        else
          let m := map2 !!! Z.to_nat index in
          if m =? 0xff then (-1, out)
          else
            let v := i32 (Z.shiftl v 6 + m) in
            let out :=
              if negb (Z.land i 3 =? 0) && (zlen out <? out_size)
              then out ++ [u8 (Z.shiftr v (6 - 2 * Z.land i 3))]
              else out in
            decode_loop rest (i + 1) v out out_size
  end.

Definition base64_decode (inp : bytes) (out_size : Z) : Z * bytes :=
  decode_loop inp 0 0 [] out_size.

(** [b64[(i_bits << 6 >> i_shift) & 0x3f]] on [unsigned i_bits]. *)
Definition emit (i_bits i_shift : Z) : Z :=
  b64 !!! Z.to_nat (Z.land (Z.shiftr (u32 (Z.shiftl i_bits 6)) i_shift) 0x3f).

(** The inner do-while.  Each turn takes 6 from [i_shift], so [fuel] of 3 turns
    is enough for the shifts of at most 14 that occur. *)
Fixpoint emit_loop (fuel : nat) (i_bits i_shift bytes_remaining : Z) : bytes * Z :=
  match fuel with
  | O => ([], i_shift)
  | S fuel =>
      let ch := emit i_bits i_shift in
      let i_shift := i_shift - 6 in
      if (6 <? i_shift) || ((bytes_remaining =? 0) && (0 <? i_shift)) then
        let '(chs, i_shift) := emit_loop fuel i_bits i_shift bytes_remaining in
        (ch :: chs, i_shift)
      else ([ch], i_shift)
  end.

(** The outer loop over the input bytes. *)
Fixpoint encode_loop (inp : bytes) (i_bits i_shift : Z) : bytes :=
  match inp with
  | [] => []
  | b :: rest =>
      let i_bits := u32 (u32 (Z.shiftl i_bits 8) + b) in
      let '(chs, i_shift) := emit_loop 3 i_bits (i_shift + 8) (zlen rest) in
      chs ++ encode_loop rest i_bits i_shift
  end.

(** [while ((dst - ret) & 3) *dst++ = '=']: at most three turns. *)
Fixpoint pad_loop (fuel : nat) (dst : bytes) : bytes :=
  match fuel with
  | O => dst
  | S fuel => if Z.land (zlen dst) 3 =? 0 then dst else pad_loop fuel (dst ++ [61])
  end.

(** [None] is the NULL result.  [in_size] is the length of [inp], an [int]
    compared as unsigned with [UINT_MAX / 4]. *)
Definition base64_encode (out_size : Z) (inp : bytes) : option bytes :=
  if ((2 ^ 32 - 1) / 4 <=? u32 (zlen inp)) || (out_size <? BASE64_SIZE (zlen inp))
  then None
  else Some (pad_loop 3 (encode_loop inp 0 0)).

(** ** The reference encoding *)

Definition sextet (n : Z) : Z := b64 !!! Z.to_nat n.

Fixpoint encode_ref (l : bytes) : bytes :=
  match l with
  | a :: b :: c :: l =>
      sextet (a / 4) :: sextet (a mod 4 * 16 + b / 16)
      :: sextet (b mod 16 * 4 + c / 64) :: sextet (c mod 64) :: encode_ref l
  | [a; b] => [sextet (a / 4); sextet (a mod 4 * 16 + b / 16); sextet (b mod 16 * 4); 61]
  | [a] => [sextet (a / 4); sextet (a mod 4 * 16); 61; 61]
  | [] => []
  end.

(** The same without the padding. *)
Fixpoint encode_bare (l : bytes) : bytes :=
  match l with
  | a :: b :: c :: l =>
      sextet (a / 4) :: sextet (a mod 4 * 16 + b / 16)
      :: sextet (b mod 16 * 4 + c / 64) :: sextet (c mod 64) :: encode_bare l
  | [a; b] => [sextet (a / 4); sextet (a mod 4 * 16 + b / 16); sextet (b mod 16 * 4)]
  | [a] => [sextet (a / 4); sextet (a mod 4 * 16)]
  | [] => []
  end.

(** ** The accumulator of the encoder *)

(** The accumulator after one more byte, as a number. *)
Definition push (i_bits b : Z) : Z := 256 * (i_bits mod 2 ^ 24) + b.

Lemma push_spec i_bits b :
  0 <= b < 256 -> u32 (u32 (Z.shiftl i_bits 8) + b) = push i_bits b.
Proof.
  intros Hb. rewrite u32_add_l. rewrite Z.shiftl_mul_pow2 by lia.
  unfold u32, push. change (2 ^ 8) with 256.
  change (2 ^ 32) with (256 * 2 ^ 24). change (2 ^ 24) with 16777216.
  Z.div_mod_to_equations. lia.
Qed.

Lemma emit_high i_bits s :
  s = 6 \/ s = 8 \/ s = 10 \/ s = 12 \/ s = 14 ->
  emit i_bits s = sextet (i_bits / 2 ^ (s - 6) mod 64).
Proof.
  intros Hs. unfold emit, sextet. do 2 f_equal.
  change 0x3f with (Z.ones 6). rewrite Z.land_ones by lia.
  rewrite Z.shiftl_mul_pow2, Z.shiftr_div_pow2 by lia.
  unfold u32. change (2 ^ 6) with 64. change (2 ^ 32) with 4294967296.
  destruct Hs as [->|[->|[->|[->| ->]]]];
    [change (2 ^ 6) with 64; change (2 ^ (6 - 6)) with 1
    |change (2 ^ 8) with 256; change (2 ^ (8 - 6)) with 4
    |change (2 ^ 10) with 1024; change (2 ^ (10 - 6)) with 16
    |change (2 ^ 12) with 4096; change (2 ^ (12 - 6)) with 64
    |change (2 ^ 14) with 16384; change (2 ^ (14 - 6)) with 256];
    Z.div_mod_to_equations; lia.
Qed.

Lemma emit_low i_bits s :
  s = 2 \/ s = 4 -> emit i_bits s = sextet (i_bits mod 2 ^ s * 2 ^ (6 - s)).
Proof.
  intros Hs. unfold emit, sextet. do 2 f_equal.
  change 0x3f with (Z.ones 6). rewrite Z.land_ones by lia.
  rewrite Z.shiftl_mul_pow2, Z.shiftr_div_pow2 by lia.
  unfold u32. change (2 ^ 6) with 64. change (2 ^ 32) with 4294967296.
  destruct Hs as [->| ->];
    [change (2 ^ 2) with 4; change (2 ^ (6 - 2)) with 16
    |change (2 ^ 4) with 16; change (2 ^ (6 - 4)) with 4];
    Z.div_mod_to_equations; lia.
Qed.

(** One byte from each value of [i_shift] the loop reaches: 0, 2, 4 and 6. *)
Lemma encode_loop_0 b l i_bits :
  0 <= b < 256 ->
  encode_loop (b :: l) i_bits 0 =
  emit (push i_bits b) 8 ::
    (if zlen l =? 0 then [emit (push i_bits b) 2] else encode_loop l (push i_bits b) 2).
Proof.
  intros Hb. cbn [encode_loop]. rewrite push_spec by done.
  unfold emit_loop. change (0 + 8) with 8. change (8 - 6) with 2. cbn [orb andb].
  destruct (zlen l =? 0) eqn:E; [|done].
  change (2 - 6) with (-4). destruct l; [done|]. zbool. zlens. lia.
Qed.

Lemma encode_loop_2 b l i_bits :
  0 <= b < 256 ->
  encode_loop (b :: l) i_bits 2 =
  emit (push i_bits b) 10 ::
    (if zlen l =? 0 then [emit (push i_bits b) 4] else encode_loop l (push i_bits b) 4).
Proof.
  intros Hb. cbn [encode_loop]. rewrite push_spec by done.
  unfold emit_loop. change (2 + 8) with 10. change (10 - 6) with 4. cbn [orb andb].
  destruct (zlen l =? 0) eqn:E; [|done].
  change (4 - 6) with (-2). destruct l; [done|]. zbool. zlens. lia.
Qed.

Lemma encode_loop_4 b l i_bits :
  0 <= b < 256 ->
  encode_loop (b :: l) i_bits 4 =
  emit (push i_bits b) 12 ::
    (if zlen l =? 0 then [emit (push i_bits b) 6] else encode_loop l (push i_bits b) 6).
Proof.
  intros Hb. cbn [encode_loop]. rewrite push_spec by done.
  unfold emit_loop. change (4 + 8) with 12. change (12 - 6) with 6. cbn [orb andb].
  destruct (zlen l =? 0) eqn:E; [|done].
  change (6 - 6) with 0. destruct l; [done|]. zbool. zlens. lia.
Qed.

(** From 6 the loop first emits the sextet left over from the last group. *)
Lemma encode_loop_6 b l i_bits :
  0 <= b < 256 ->
  encode_loop (b :: l) i_bits 6 =
  emit (push i_bits b) 14 :: encode_loop (b :: l) i_bits 0.
Proof.
  intros Hb. rewrite encode_loop_0 by done. cbn [encode_loop]. rewrite push_spec by done.
  unfold emit_loop. change (6 + 8) with 14. change (14 - 6) with 8.
  change (8 - 6) with 2. cbn [orb andb].
  destruct (zlen l =? 0) eqn:E; [|done].
  change (2 - 6) with (-4). destruct l; [done|]. zbool. zlens. lia.
Qed.

Ltac emit_arith :=
  rewrite ?emit_high, ?emit_low by lia; unfold push;
  repeat match goal with |- context [2 ^ (?a - ?b)] =>
    let v := eval cbv in (2 ^ (a - b)) in change (2 ^ (a - b)) with v end;
  change (2 ^ 24) with 16777216; change (2 ^ 2) with 4; change (2 ^ 4) with 16;
  f_equal; Z.div_mod_to_equations; lia.

Lemma emit_group a b c i_bits :
  0 <= a < 256 -> 0 <= b < 256 -> 0 <= c < 256 ->
  let A := push i_bits a in let B := push A b in let C := push B c in
  emit A 8 = sextet (a / 4) /\ emit A 2 = sextet (a mod 4 * 16) /\
  emit B 10 = sextet (a mod 4 * 16 + b / 16) /\ emit B 4 = sextet (b mod 16 * 4) /\
  emit C 12 = sextet (b mod 16 * 4 + c / 64) /\ emit C 6 = sextet (c mod 64) /\
  (forall d, 0 <= d < 256 -> emit (push C d) 14 = sextet (c mod 64)).
Proof. intros Ha Hb Hc A B C. subst A B C. repeat split; intros; emit_arith. Qed.

Lemma encode_loop_ref l :
  is_bytes l -> forall i_bits, encode_loop l i_bits 0 = encode_bare l.
Proof.
  revert l. chunk_induction 3%nat.
  - intros [|a [|b [|c l]]] Hlen Hl i_bits; cbn in Hlen; try lia; [done| |].
    + inversion_clear Hl. rewrite encode_loop_0 by done.
      change (zlen [] =? 0) with true. cbn iota.
      destruct (emit_group a 0 0 i_bits) as (-> & -> & _); [lia..|done].
    + inversion_clear Hl as [|? ? Ha Hl']. inversion_clear Hl' as [|? ? Hb _].
      rewrite encode_loop_0 by done. change (zlen [b] =? 0) with false. cbn iota.
      rewrite encode_loop_2 by done. change (zlen [] =? 0) with true. cbn iota.
      destruct (emit_group a b 0 i_bits) as (-> & _ & -> & -> & _); [lia..|done].
  - intros ch l Hlen IH Hl i_bits.
    destruct ch as [|a [|b [|c [|]]]]; cbn in Hlen; try lia. cbn [app] in *.
    inversion_clear Hl as [|? ? Ha Hl']. inversion_clear Hl' as [|? ? Hb Hl''].
    inversion_clear Hl'' as [|? ? Hc Hl].
    rewrite encode_loop_0 by done.
    replace (zlen (b :: c :: l) =? 0) with false by (symmetry; apply Z.eqb_neq; zlens; lia).
    rewrite encode_loop_2 by done.
    replace (zlen (c :: l) =? 0) with false by (symmetry; apply Z.eqb_neq; zlens; lia).
    rewrite encode_loop_4 by done. cbn [encode_bare].
    destruct (emit_group a b c i_bits) as (-> & _ & -> & _ & -> & -> & H14); [lia..|].
    do 3 f_equal. destruct l as [|d l]; [done|].
    replace (zlen (d :: l) =? 0) with false by (symmetry; apply Z.eqb_neq; zlens; lia).
    inversion_clear Hl as [|? ? Hd Hl']. rewrite encode_loop_6 by done.
    rewrite H14 by done. f_equal. apply IH. by constructor.
Qed.

(** ** Padding *)

Lemma length_encode_bare_mod l :
  (length (encode_bare l) mod 4 = length l mod 3 + (if length l mod 3 =? 0 then 0 else 1))%nat.
Proof.
  revert l. chunk_induction 3%nat.
  - intros [|a [|b [|]]] Hl; cbn in *; try lia; done.
  - intros ch l Hlen IH. destruct ch as [|a [|b [|c [|]]]]; cbn in Hlen; try lia.
    cbn [app encode_bare length].
    replace (S (S (S (S (length (encode_bare l)))))) with (length (encode_bare l) + 1 * 4)%nat by lia.
    replace (S (S (S (length l)))) with (length l + 1 * 3)%nat by lia.
    rewrite !Nat.Div0.mod_add. exact IH.
Qed.

Lemma pad_loop_ref l : pad_loop 3 (encode_bare l) = encode_ref l.
Proof.
  assert (H : forall n d, zlen d mod 4 = 0 -> pad_loop n d = d).
  { intros [|n] d Hd; [done|]. cbn. change 3 with (Z.ones 2). rewrite Z.land_ones by lia.
    change (2 ^ 2) with 4. by rewrite Hd. }
  assert (Hp : forall d k l, zlen d mod 4 = 0 -> (pad_loop k (d ++ l) = d ++ pad_loop k l)).
  { intros d k. induction k as [|k IH]; intros l' Hd; [done|]. cbn.
    change 3 with (Z.ones 2). rewrite !Z.land_ones by lia. change (2 ^ 2) with 4.
    rewrite zlen_app, Zplus_mod, Hd, Z.add_0_l, Zmod_mod.
    destruct (zlen l' mod 4 =? 0); [done|]. rewrite <- app_assoc. by apply IH. }
  revert l. chunk_induction 3%nat.
  - intros [|a [|b [|]]] Hl; cbn in Hl; try lia; done.
  - intros ch l Hlen IH. destruct ch as [|a [|b [|c [|]]]]; cbn in Hlen; try lia.
    cbn [app encode_bare encode_ref].
    etransitivity; [apply (Hp [_; _; _; _] 3%nat (encode_bare l) eq_refl)|]. by rewrite IH.
Qed.

Lemma length_encode_ref l : zlen (encode_ref l) = (zlen l + 2) / 3 * 4.
Proof.
  revert l. chunk_induction 3%nat.
  - intros [|a [|b [|]]] Hl; cbn in Hl; try lia; done.
  - intros ch l Hlen IH. destruct ch as [|a [|b [|c [|]]]]; cbn in Hlen; try lia.
    cbn [app encode_ref]. autorewrite with lists. rewrite IH.
    replace (1 + (1 + (1 + zlen l)) + 2) with (zlen l + 2 + 1 * 3) by lia.
    rewrite Z.div_add by lia. lia.
Qed.

(** ** Decoding *)

(** The decoding table inverts the encoding alphabet. *)
Lemma sextet_decode n :
  0 <= n < 64 ->
  let c := sextet n in
  0 < c < 128 /\ c <> 61 /\ u32 (c - 43) < zlen map2 /\ map2 !!! Z.to_nat (u32 (c - 43)) = n.
Proof.
  intros Hn.
  assert (Hall : forallb (fun k => let n := Z.of_nat k in let c := sextet n in
            (0 <? c) && (c <? 128) && negb (c =? 61) && (u32 (c - 43) <? zlen map2)
            && (map2 !!! Z.to_nat (u32 (c - 43)) =? n)) (seq 0 64) = true) by reflexivity.
  rewrite forallb_forall in Hall. specialize (Hall (Z.to_nat n)).
  rewrite in_seq in Hall. specialize (Hall ltac:(lia)). cbv zeta in Hall.
  rewrite Z2Nat.id in Hall by lia. zbool. cbv zeta. lia.
Qed.

Lemma decode_loop_sextet n rest i v out out_size :
  0 <= n < 64 ->
  decode_loop (sextet n :: rest) i v out out_size =
  let v := i32 (Z.shiftl v 6 + n) in
  decode_loop rest (i + 1) v
    (if negb (Z.land i 3 =? 0) && (zlen out <? out_size)
     then out ++ [u8 (Z.shiftr v (6 - 2 * Z.land i 3))] else out) out_size.
Proof.
  intros Hn. destruct (sextet_decode n Hn) as (Hc & H61 & Hlt & Hm). cbn [decode_loop].
  replace (sextet n =? 0) with false by lia. replace (sextet n =? 61) with false by lia.
  replace (zlen map2 <=? u32 (sextet n - 43)) with false by lia.
  cbn [orb]. rewrite Hm. replace (n =? 255) with false by lia. done.
Qed.

(** The accumulator may wrap: only its low 14 bits are ever used. *)
Lemma acc_push x n : i32 (Z.shiftl (i32 x) 6 + n) = i32 (x * 64 + n).
Proof.
  rewrite Z.shiftl_mul_pow2 by lia. unfold i32.
  change (2 ^ 6) with 64. change (2 ^ 31) with 2147483648. change (2 ^ 32) with 4294967296.
  Z.div_mod_to_equations. lia.
Qed.

Lemma acc_byte x k :
  k = 0 \/ k = 2 \/ k = 4 -> u8 (Z.shiftr (i32 x) k) = x / 2 ^ k mod 256.
Proof.
  intros Hk. rewrite Z.shiftr_div_pow2 by lia. unfold u8, i32.
  change (2 ^ 8) with 256. change (2 ^ 31) with 2147483648. change (2 ^ 32) with 4294967296.
  destruct Hk as [->|[->| ->]]; [change (2 ^ 0) with 1|change (2 ^ 2) with 4|change (2 ^ 4) with 16];
    Z.div_mod_to_equations; lia.
Qed.

Lemma land3 q r : 0 <= r < 4 -> Z.land (4 * q + r) 3 = r.
Proof.
  intros. change 3 with (Z.ones 2). rewrite Z.land_ones by lia. change (2 ^ 2) with 4.
  Z.div_mod_to_equations. lia.
Qed.

(** One sextet at position [r] of its group. *)
Lemma decode_step n rest q r x out out_size :
  0 <= n < 64 -> 0 <= r < 4 -> zlen out < out_size ->
  decode_loop (sextet n :: rest) (4 * q + r) (i32 x) out out_size =
  decode_loop rest (4 * q + (r + 1)) (i32 (x * 64 + n))
    (if r =? 0 then out else out ++ [(x * 64 + n) / 2 ^ (6 - 2 * r) mod 256]) out_size.
Proof.
  intros Hn Hr Hout. rewrite decode_loop_sextet by done. cbv zeta.
  rewrite land3, acc_push by done. rewrite (proj2 (Z.ltb_lt _ _) Hout), andb_true_r.
  rewrite <- Z.add_assoc. destruct (r =? 0) eqn:E; zbool; cbn [negb]; [done|].
  rewrite acc_byte by lia. done.
Qed.

Ltac decode_bytes :=
  change (2 ^ (6 - 2 * 1)) with 16; change (2 ^ (6 - 2 * 2)) with 4;
  change (2 ^ (6 - 2 * 3)) with 1; repeat f_equal; Z.div_mod_to_equations; lia.

Lemma decode_group a b c rest q x out out_size :
  0 <= a < 256 -> 0 <= b < 256 -> 0 <= c < 256 -> zlen out + 3 <= out_size ->
  exists y,
  decode_loop (sextet (a / 4) :: sextet (a mod 4 * 16 + b / 16)
               :: sextet (b mod 16 * 4 + c / 64) :: sextet (c mod 64) :: rest)
    (4 * q + 0) (i32 x) out out_size =
  decode_loop rest (4 * (q + 1) + 0) (i32 y) (out ++ [a; b; c]) out_size.
Proof.
  intros Ha Hb Hc Hout. eexists.
  rewrite decode_step by (Z.div_mod_to_equations; lia). change (0 =? 0) with true.
  change (0 + 1) with 1. cbn iota.
  rewrite decode_step by (Z.div_mod_to_equations; lia). change (1 =? 0) with false.
  change (1 + 1) with 2. cbn iota.
  rewrite decode_step by (autorewrite with lists; Z.div_mod_to_equations; lia).
  change (2 =? 0) with false. change (2 + 1) with 3. cbn iota.
  rewrite decode_step by (autorewrite with lists; Z.div_mod_to_equations; lia).
  change (3 =? 0) with false. change (3 + 1) with 4. cbn iota.
  replace (4 * q + 4) with (4 * (q + 1) + 0) by lia. rewrite <- !app_assoc. cbn [app].
  assert (E : forall i y u v w, u = a -> v = b -> w = c ->
            decode_loop rest i y (out ++ [u; v; w]) out_size =
            decode_loop rest i y (out ++ [a; b; c]) out_size) by (by intros ? ? ? ? ? -> -> ->).
  apply E; decode_bytes.
Qed.

Lemma decode_encode_ref l :
  is_bytes l -> forall q x out out_size, zlen out + zlen l <= out_size ->
  decode_loop (encode_ref l) (4 * q + 0) (i32 x) out out_size = (zlen (out ++ l), out ++ l).
Proof.
  revert l. chunk_induction 3%nat.
  - intros [|a [|b [|c l]]] Hlen Hl q x out out_size Hout; cbn in Hlen; try lia.
    + cbn [encode_ref decode_loop]. by rewrite app_nil_r.
    + inversion_clear Hl. cbn [encode_ref]. autorewrite with lists in Hout.
      rewrite decode_step by (Z.div_mod_to_equations; lia). change (0 =? 0) with true. cbn iota.
      change (0 + 1) with 1.
      rewrite decode_step by (Z.div_mod_to_equations; lia). change (1 =? 0) with false. cbn iota.
      cbn [decode_loop]. change ((61 =? 0) || (61 =? 61)) with true. cbn iota.
      replace ((_ * 64 + _) / 2 ^ (6 - 2 * 1) mod 256) with a; [done|symmetry; decode_bytes].
    + inversion_clear Hl as [|? ? Ha Hl']. inversion_clear Hl' as [|? ? Hb _].
      cbn [encode_ref]. autorewrite with lists in Hout.
      rewrite decode_step by (Z.div_mod_to_equations; lia). change (0 =? 0) with true. cbn iota.
      change (0 + 1) with 1.
      rewrite decode_step by (Z.div_mod_to_equations; lia). change (1 =? 0) with false. cbn iota.
      change (1 + 1) with 2.
      rewrite decode_step by (autorewrite with lists; Z.div_mod_to_equations; lia).
      change (2 =? 0) with false. cbn iota.
      cbn [decode_loop]. change ((61 =? 0) || (61 =? 61)) with true. cbn iota.
      rewrite <- app_assoc. cbn [app].
      assert (E : forall u v, u = a -> v = b ->
                (zlen (out ++ [u; v]), out ++ [u; v]) = (zlen (out ++ [a; b]), out ++ [a; b]))
        by (by intros ? ? -> ->).
      apply E; decode_bytes.
  - intros ch l Hlen IH Hl q x out out_size Hout.
    destruct ch as [|a [|b [|c [|]]]]; cbn in Hlen; try lia. cbn [app] in *.
    inversion_clear Hl as [|? ? Ha Hl']. inversion_clear Hl' as [|? ? Hb Hl''].
    inversion_clear Hl'' as [|? ? Hc Hl]. cbn [encode_ref].
    pose proof (zlen_nonneg l). autorewrite with lists in Hout.
    destruct (decode_group a b c (encode_ref l) q x out out_size) as [y ->]; [lia..|].
    rewrite IH by (autorewrite with lists; lia || done). by rewrite <- app_assoc.
Qed.

(** ** Theorems *)

Lemma base64_encode_ref out_size l :
  is_bytes l -> zlen l < (2 ^ 32 - 1) / 4 -> BASE64_SIZE (zlen l) <= out_size ->
  base64_encode out_size l = Some (encode_ref l).
Proof.
  intros Hl Hlen Hout. unfold base64_encode.
  change ((2 ^ 32 - 1) / 4) with 1073741823 in *. pose proof (zlen_nonneg l).
  rewrite u32_id by lia. replace (1073741823 <=? zlen l) with false by lia.
  replace (out_size <? BASE64_SIZE (zlen l)) with false by lia. cbn [orb].
  by rewrite encode_loop_ref, pad_loop_ref.
Qed.

(** [base64_encode] computes the RFC 4648 encoding of its input, and with
    the terminating zero it exactly fills the [BASE64_SIZE] bytes its caller
    provides. *)
Theorem base64_encode_correct (out_size : Z) (l : bytes) :
  is_bytes l -> zlen l < (2 ^ 32 - 1) / 4 -> BASE64_SIZE (zlen l) <= out_size ->
  base64_encode out_size l = Some (encode_ref l) /\
  zlen (encode_ref l) + 1 = BASE64_SIZE (zlen l).
Proof.
  intros Hl Hlen Hout. split; [by apply base64_encode_ref|].
  rewrite length_encode_ref. done.
Qed.

Lemma base64_encode_correct_witness :
  base64_encode 9 (lit "foob") = Some (lit "Zm9vYg==") /\ zlen (encode_ref (lit "foob")) + 1 = 9.
Proof.
  apply (base64_encode_correct 9 (lit "foob")); [|reflexivity|by vm_compute].
  by apply (bool_decide_unpack _).
Defined.

(** Decoding what [base64_encode] produced gives the input back, whatever
    its length modulo three, when the output buffer is large enough. *)
Theorem base64_roundtrip (out_size dec_size : Z) (l s : bytes) :
  is_bytes l -> zlen l <= dec_size ->
  base64_encode out_size l = Some s -> base64_decode s dec_size = (zlen l, l).
Proof.
  intros Hl Hdec Henc.
  assert (Hs : s = encode_ref l).
  { unfold base64_encode in Henc. cases_in Henc; [done|]. simplify_eq.
    by rewrite encode_loop_ref, pad_loop_ref. }
  subst s. unfold base64_decode.
  apply (decode_encode_ref l Hl 0 0 [] dec_size). rewrite zlen_nil. lia.
Qed.

Lemma base64_roundtrip_witness :
  base64_decode (lit "dXNlcjpwYXNz") 9 = (9, lit "user:pass").
Proof.
  apply (base64_roundtrip 13 9 (lit "user:pass") (lit "dXNlcjpwYXNz"));
    [by apply (bool_decide_unpack _)|by vm_compute|by vm_compute].
Defined.

End Base64.
