(* ===== verification/MD5.v ===== *)
(** * MD5 (redsocks/md5.c, md5.h)

    The streaming implementation used for HTTP digest authentication: the
    compression function as the table of [SET] operations the source unrolls, the
    bit counters at their 32-bit width, the 64-byte buffer, and the one-shot
    definition of RFC 1321 it is compared with. *)

From S2P Require Import Prelude.
Open Scope Z_scope.

Module MD5.

(** ** The code *)

Definition T_MASK : Z := 0xffffffff.

(** [T1] to [T64]; [T i] is [Ti]. *)
Definition T_table : list Z :=
  [
   Z.lxor T_MASK 0x28955b87; Z.lxor T_MASK 0x173848a9; 0x242070db;
   Z.lxor T_MASK 0x3e423111; Z.lxor T_MASK 0x0a83f050; 0x4787c62a;
   Z.lxor T_MASK 0x57cfb9ec; Z.lxor T_MASK 0x02b96afe; 0x698098d8;
   Z.lxor T_MASK 0x74bb0850; Z.lxor T_MASK 0x0000a44e; Z.lxor T_MASK 0x76a32841;
   0x6b901122; Z.lxor T_MASK 0x02678e6c; Z.lxor T_MASK 0x5986bc71;
   0x49b40821; Z.lxor T_MASK 0x09e1da9d; Z.lxor T_MASK 0x3fbf4cbf;
   0x265e5a51; Z.lxor T_MASK 0x16493855; Z.lxor T_MASK 0x29d0efa2;
   0x02441453; Z.lxor T_MASK 0x275e197e; Z.lxor T_MASK 0x182c0437;
   0x21e1cde6; Z.lxor T_MASK 0x3cc8f829; Z.lxor T_MASK 0x0b2af278;
   0x455a14ed; Z.lxor T_MASK 0x561c16fa; Z.lxor T_MASK 0x03105c07;
   0x676f02d9; Z.lxor T_MASK 0x72d5b375; Z.lxor T_MASK 0x0005c6bd;
   Z.lxor T_MASK 0x788e097e; 0x6d9d6122; Z.lxor T_MASK 0x021ac7f3;
   Z.lxor T_MASK 0x5b4115bb; 0x4bdecfa9; Z.lxor T_MASK 0x0944b49f;
   Z.lxor T_MASK 0x4140438f; 0x289b7ec6; Z.lxor T_MASK 0x155ed805;
   Z.lxor T_MASK 0x2b10cf7a; 0x04881d05; Z.lxor T_MASK 0x262b2fc6;
   Z.lxor T_MASK 0x1924661a; 0x1fa27cf8; Z.lxor T_MASK 0x3b53a99a;
   Z.lxor T_MASK 0x0bd6ddbb; 0x432aff97; Z.lxor T_MASK 0x546bdc58;
   Z.lxor T_MASK 0x036c5fc6; 0x655b59c3; Z.lxor T_MASK 0x70f3336d;
   Z.lxor T_MASK 0x00100b82; Z.lxor T_MASK 0x7a7ba22e; 0x6fa87e4f;
   Z.lxor T_MASK 0x01d3191f; Z.lxor T_MASK 0x5cfebceb; 0x4e0811a1;
   Z.lxor T_MASK 0x08ac817d; Z.lxor T_MASK 0x42c50dca; 0x2ad7d2bb;
   Z.lxor T_MASK 0x14792c6e].

Definition T (i : nat) : Z := T_table !!! (i - 1)%nat.

(** [md5_state_t]: [count] is the message length in bits, low word first. *)
Record md5_state := mk_md5_state {
  count0 : Z; count1 : Z;
  abcd : Z * Z * Z * Z;
  buf : bytes
}.

Definition ROTATE_LEFT (x n : Z) : Z :=
  Z.lor (u32 (Z.shiftl x n)) (Z.shiftr x (32 - n)).

(** [~x] on a 32-bit word. *)
Definition not32 (x : Z) : Z := Z.lxor x T_MASK.

Definition F (x y z : Z) : Z := Z.lor (Z.land x y) (Z.land (not32 x) z).
Definition G (x y z : Z) : Z := Z.lor (Z.land x z) (Z.land y (not32 z)).
Definition H (x y z : Z) : Z := Z.lxor (Z.lxor x y) z.
Definition I (x y z : Z) : Z := Z.lxor y (Z.lor x (not32 z)).

(** The four orders in which the source passes the registers to [SET]. *)
Inductive regs := abcd_ | dabc_ | cdab_ | bcda_.

(** [SET(a, b, c, d, k, s, Ti)]: [t = a + f(b,c,d) + X[k] + Ti; a = ROTATE_LEFT(t, s) + b]. *)
Definition SET1 (f : Z -> Z -> Z -> Z) (a b c d x s ti : Z) : Z :=
  u32 (ROTATE_LEFT (u32 (u32 (u32 (a + f b c d) + x) + ti)) s + b).

Definition SET (f : Z -> Z -> Z -> Z) (X : list Z) (st : Z * Z * Z * Z)
    (op : regs * nat * Z * nat) : Z * Z * Z * Z :=
  let '(a, b, c, d) := st in
  let '(r, k, s, i) := op in
  let x := X !!! k in
  match r with
  | abcd_ => (SET1 f a b c d x s (T i), b, c, d)
  | dabc_ => (a, b, c, SET1 f d a b c x s (T i))
  | cdab_ => (a, b, SET1 f c d a b x s (T i), d)
  | bcda_ => (a, SET1 f b c d a x s (T i), c, d)
  end.

Definition round1 : list (regs * nat * Z * nat) :=
  [
   (abcd_, 0%nat, 7, 1%nat); (dabc_, 1%nat, 12, 2%nat); (cdab_, 2%nat, 17, 3%nat); (bcda_, 3%nat, 22, 4%nat);
   (abcd_, 4%nat, 7, 5%nat); (dabc_, 5%nat, 12, 6%nat); (cdab_, 6%nat, 17, 7%nat); (bcda_, 7%nat, 22, 8%nat);
   (abcd_, 8%nat, 7, 9%nat); (dabc_, 9%nat, 12, 10%nat); (cdab_, 10%nat, 17, 11%nat); (bcda_, 11%nat, 22, 12%nat);
   (abcd_, 12%nat, 7, 13%nat); (dabc_, 13%nat, 12, 14%nat); (cdab_, 14%nat, 17, 15%nat); (bcda_, 15%nat, 22, 16%nat)].

Definition round2 : list (regs * nat * Z * nat) :=
  [
   (abcd_, 1%nat, 5, 17%nat); (dabc_, 6%nat, 9, 18%nat); (cdab_, 11%nat, 14, 19%nat); (bcda_, 0%nat, 20, 20%nat);
   (abcd_, 5%nat, 5, 21%nat); (dabc_, 10%nat, 9, 22%nat); (cdab_, 15%nat, 14, 23%nat); (bcda_, 4%nat, 20, 24%nat);
   (abcd_, 9%nat, 5, 25%nat); (dabc_, 14%nat, 9, 26%nat); (cdab_, 3%nat, 14, 27%nat); (bcda_, 8%nat, 20, 28%nat);
   (abcd_, 13%nat, 5, 29%nat); (dabc_, 2%nat, 9, 30%nat); (cdab_, 7%nat, 14, 31%nat); (bcda_, 12%nat, 20, 32%nat)].

Definition round3 : list (regs * nat * Z * nat) :=
  [
   (abcd_, 5%nat, 4, 33%nat); (dabc_, 8%nat, 11, 34%nat); (cdab_, 11%nat, 16, 35%nat); (bcda_, 14%nat, 23, 36%nat);
   (abcd_, 1%nat, 4, 37%nat); (dabc_, 4%nat, 11, 38%nat); (cdab_, 7%nat, 16, 39%nat); (bcda_, 10%nat, 23, 40%nat);
   (abcd_, 13%nat, 4, 41%nat); (dabc_, 0%nat, 11, 42%nat); (cdab_, 3%nat, 16, 43%nat); (bcda_, 6%nat, 23, 44%nat);
   (abcd_, 9%nat, 4, 45%nat); (dabc_, 12%nat, 11, 46%nat); (cdab_, 15%nat, 16, 47%nat); (bcda_, 2%nat, 23, 48%nat)].

Definition round4 : list (regs * nat * Z * nat) :=
  [
   (abcd_, 0%nat, 6, 49%nat); (dabc_, 7%nat, 10, 50%nat); (cdab_, 14%nat, 15, 51%nat); (bcda_, 5%nat, 21, 52%nat);
   (abcd_, 12%nat, 6, 53%nat); (dabc_, 3%nat, 10, 54%nat); (cdab_, 10%nat, 15, 55%nat); (bcda_, 1%nat, 21, 56%nat);
   (abcd_, 8%nat, 6, 57%nat); (dabc_, 15%nat, 10, 58%nat); (cdab_, 6%nat, 15, 59%nat); (bcda_, 13%nat, 21, 60%nat);
   (abcd_, 4%nat, 6, 61%nat); (dabc_, 11%nat, 10, 62%nat); (cdab_, 2%nat, 15, 63%nat); (bcda_, 9%nat, 21, 64%nat)].

(** [xbuf[i] = xp[0] + (xp[1] << 8) + (xp[2] << 16) + (xp[3] << 24)]; on a
    little-endian machine the words are read in place with the same result. *)
Fixpoint words_of (n : nat) (data : bytes) : list Z :=
  match n with
  | O => []
  | S n => le_value (take 4 data) :: words_of n (drop 4 data)
  end.

Definition add4 (p q : Z * Z * Z * Z) : Z * Z * Z * Z :=
  let '(a, b, c, d) := p in
  let '(a', b', c', d') := q in
  (u32 (a + a'), u32 (b + b'), u32 (c + c'), u32 (d + d')).

(** [md5_process] on the digest buffer; it does not touch the other fields. *)
Definition md5_process (st : Z * Z * Z * Z) (data : bytes) : Z * Z * Z * Z :=
  let X := words_of 16 data in
  let s := foldl (SET F X) st round1 in
  let s := foldl (SET G X) s round2 in
  let s := foldl (SET H X) s round3 in
  let s := foldl (SET I X) s round4 in
  add4 st s.

Definition md5_init (pms : md5_state) : md5_state :=
  {| count0 := 0; count1 := 0;
     abcd := (0x67452301, Z.lxor T_MASK 0x10325476, Z.lxor T_MASK 0x67452301, 0x10325476);
     buf := buf pms |}.

(** [memcpy(buf + offset, p, n)] *)
Definition memcpy_at (dst : bytes) (offset : Z) (p : bytes) (n : Z) : bytes :=
  take (Z.to_nat offset) dst ++ take (Z.to_nat n) p ++ drop (Z.to_nat (offset + n)) dst.

(** [for (; left >= 64; p += 64, left -= 64) md5_process(pms, p);]
    [fuel] bounds the number of blocks. *)
Fixpoint full_blocks (fuel : nat) (s : Z * Z * Z * Z) (p : bytes) (left_ : Z)
    : (Z * Z * Z * Z) * bytes * Z :=
  match fuel with
  | O => (s, p, left_)
  | S fuel =>
      if 64 <=? left_ then full_blocks fuel (md5_process s (take 64 p)) (drop 64 p) (left_ - 64)
      else (s, p, left_)
  end.

(** Sums and shifts of [int]s wrap here; in C they are undefined when they overflow, which
    pieces of less than 2^28 bytes keep from happening ([append_no_overflow]). *)
Definition md5_append (pms : md5_state) (data : bytes) (nbytes : Z) : md5_state :=
  let offset := Z.land (Z.shiftr (count0 pms) 3) 63 in
  let nbits := u32 (i32 (Z.shiftl nbytes 3)) in
  if nbytes <=? 0 then pms
  else
    let c1 := u32 (count1 pms + Z.shiftr nbytes 29) in
    let c0 := u32 (count0 pms + nbits) in
    let c1 := if c0 <? nbits then u32 (c1 + 1) else c1 in
    let tail s p left_ bf :=
      let '(s, p, left_) := full_blocks (Z.to_nat left_) s p left_ in
      {| count0 := c0; count1 := c1; abcd := s;
         buf := if left_ =? 0 then bf else memcpy_at bf 0 p left_ |} in
    if negb (offset =? 0) then
      let copy := if 64 <? i32 (offset + nbytes) then 64 - offset else nbytes in
      let bf := memcpy_at (buf pms) offset data copy in
      if i32 (offset + copy) <? 64 then
        {| count0 := c0; count1 := c1; abcd := abcd pms; buf := bf |}
      else
        tail (md5_process (abcd pms) bf) (drop (Z.to_nat copy) data) (nbytes - copy) bf
    else tail (abcd pms) data nbytes (buf pms).

Definition pad : bytes := 0x80 :: replicate 63 0.

(** [digest[i] = (md5_byte_t)(abcd[i >> 2] >> ((i & 3) << 3))] *)
Definition digest_bytes (s : Z * Z * Z * Z) : bytes :=
  let '(a, b, c, d) := s in le_bytes 4 a ++ le_bytes 4 b ++ le_bytes 4 c ++ le_bytes 4 d.

Definition md5_finish (pms : md5_state) : bytes :=
  let data := le_bytes 4 (count0 pms) ++ le_bytes 4 (count1 pms) in
  let pms := md5_append pms pad (Z.land (u32 (55 - Z.shiftr (count0 pms) 3)) 63 + 1) in
  let pms := md5_append pms data 8 in
  digest_bytes (abcd pms).

(** ** RFC 1321 *)

(** The constants of the RFC. *)
Definition K_table : list Z :=
  [
   0xd76aa478; 0xe8c7b756; 0x242070db; 0xc1bdceee; 0xf57c0faf; 0x4787c62a;
   0xa8304613; 0xfd469501; 0x698098d8; 0x8b44f7af; 0xffff5bb1; 0x895cd7be;
   0x6b901122; 0xfd987193; 0xa679438e; 0x49b40821; 0xf61e2562; 0xc040b340;
   0x265e5a51; 0xe9b6c7aa; 0xd62f105d; 0x02441453; 0xd8a1e681; 0xe7d3fbc8;
   0x21e1cde6; 0xc33707d6; 0xf4d50d87; 0x455a14ed; 0xa9e3e905; 0xfcefa3f8;
   0x676f02d9; 0x8d2a4c8a; 0xfffa3942; 0x8771f681; 0x6d9d6122; 0xfde5380c;
   0xa4beea44; 0x4bdecfa9; 0xf6bb4b60; 0xbebfbc70; 0x289b7ec6; 0xeaa127fa;
   0xd4ef3085; 0x04881d05; 0xd9d4d039; 0xe6db99e5; 0x1fa27cf8; 0xc4ac5665;
   0xf4292244; 0x432aff97; 0xab9423a7; 0xfc93a039; 0x655b59c3; 0x8f0ccc92;
   0xffeff47d; 0x85845dd1; 0x6fa87e4f; 0xfe2ce6e0; 0xa3014314; 0x4e0811a1;
   0xf7537e82; 0xbd3af235; 0x2ad7d2bb; 0xeb86d391].

Definition shifts : list Z :=
  mjoin (replicate 4 [7; 12; 17; 22]) ++ mjoin (replicate 4 [5; 9; 14; 20]) ++
  mjoin (replicate 4 [4; 11; 16; 23]) ++ mjoin (replicate 4 [6; 10; 15; 21]).

(** The function and the message word of step [i]. *)
Definition rfc_fun (i : nat) : Z -> Z -> Z -> Z :=
  (if i <? 16 then F else if i <? 32 then G else if i <? 48 then H else I)%nat.

Definition rfc_idx (i : nat) : nat :=
  (if i <? 16 then i
   else if i <? 32 then (5 * i + 1) mod 16
   else if i <? 48 then (3 * i + 5) mod 16
   else (7 * i) mod 16)%nat.

(** Step [i] of the loop over one block [M], on the registers (A, B, C, D). *)
Definition rfc_step (M : list Z) (st : Z * Z * Z * Z) (i : nat) : Z * Z * Z * Z :=
  let '(A, B, C, D) := st in
  let t := u32 (A + rfc_fun i B C D + M !!! rfc_idx i + K_table !!! i) in
  (D, u32 (B + ROTATE_LEFT t (shifts !!! i)), B, C).

Definition rfc_block (st : Z * Z * Z * Z) (block : bytes) : Z * Z * Z * Z :=
  add4 st (foldl (rfc_step (words_of 16 block)) st (seq 0 64)).

Fixpoint rfc_blocks (n : nat) (st : Z * Z * Z * Z) (m : bytes) : Z * Z * Z * Z :=
  match n with
  | O => st
  | S n => rfc_blocks n (rfc_block st (take 64 m)) (drop 64 m)
  end.

Definition rfc_init : Z * Z * Z * Z := (0x67452301, 0xefcdab89, 0x98badcfe, 0x10325476).

Definition rfc_pad (m : bytes) : bytes :=
  m ++ 0x80 :: replicate (Z.to_nat ((55 - zlen m) mod 64)) 0 ++ le_bytes 8 (u64 (8 * zlen m)).

Definition rfc_md5 (m : bytes) : bytes :=
  let p := rfc_pad m in digest_bytes (rfc_blocks (length p / 64) rfc_init p).

(** ** The compression function *)

#[local] Instance regs_eq_dec : EqDecision regs.
Proof. solve_decision. Defined.

(** The registers in the order a [SET] line names them. *)
Definition view (r : regs) (st : Z * Z * Z * Z) : Z * Z * Z * Z :=
  let '(a, b, c, d) := st in
  match r with
  | abcd_ => (a, b, c, d)
  | dabc_ => (d, a, b, c)
  | cdab_ => (c, d, a, b)
  | bcda_ => (b, c, d, a)
  end.

Definition reg_at (i : nat) : regs :=
  match (i mod 4)%nat with 0%nat => abcd_ | 1%nat => dabc_ | 2%nat => cdab_ | _ => bcda_ end.

(** Line [i] of the unrolled code has the operands of step [i] of the RFC. *)
Definition op_ok (i : nat) (op : regs * nat * Z * nat) : bool :=
  let '(r, k, s, t) := op in
  bool_decide (r = reg_at i) && (k =? rfc_idx i)%nat && (s =? shifts !!! i)
  && (T t =? K_table !!! i).

Fixpoint ops_ok (i : nat) (ops : list (regs * nat * Z * nat)) : bool :=
  match ops with
  | [] => true
  | op :: ops => op_ok i op && ops_ok (S i) ops
  end.

Lemma reg_at_succ i : reg_at (S i) =
  match reg_at i with abcd_ => dabc_ | dabc_ => cdab_ | cdab_ => bcda_ | bcda_ => abcd_ end.
Proof.
  unfold reg_at. replace (S i) with (1 + i)%nat by lia.
  rewrite Nat.Div0.add_mod. pose proof (Nat.mod_upper_bound i 4).
  destruct (i mod 4)%nat as [|[|[|[|k]]]]; [done|done|done|done|lia].
Qed.

Lemma u32_sum p x y : u32 (u32 (u32 p + x) + y) = u32 (p + x + y).
Proof. rewrite u32_add_l. replace (u32 p + x + y) with (u32 p + (x + y)) by lia.
  rewrite u32_add_l. f_equal. lia. Qed.

Lemma SET_rfc_step X st i op :
  op_ok i op = true ->
  view (reg_at (S i)) (SET (rfc_fun i) X st op) = rfc_step X (view (reg_at i) st) i.
Proof.
  destruct st as [[[a b] c] d], op as [[[r k] s] t]. unfold op_ok. intros Hok.
  rewrite !andb_true_iff in Hok. destruct Hok as [[[Hr Hk] Hs] Ht].
  apply bool_decide_eq_true in Hr. apply Nat.eqb_eq in Hk. zbool. subst.
  rewrite reg_at_succ. unfold SET, SET1, rfc_step.
  destruct (reg_at i); cbn -[shifts]; rewrite !Ht, u32_sum;
    rewrite (Z.add_comm (ROTATE_LEFT _ _)); done.
Qed.

Lemma round_rfc f X n ops :
  ops_ok n ops = true ->
  (forall i, (n <= i < n + length ops)%nat -> rfc_fun i = f) ->
  forall st,
  view (reg_at (n + length ops)) (foldl (SET f X) st ops) =
  foldl (rfc_step X) (view (reg_at n) st) (seq n (length ops)).
Proof.
  revert n. induction ops as [|op ops IH]; intros n Hok Hf st.
  { cbn. by rewrite Nat.add_0_r. }
  cbn [ops_ok] in Hok. apply andb_true_iff in Hok as [Hop Hok].
  cbn [foldl length seq] in *. replace (n + S (length ops))%nat with (S n + length ops)%nat by lia.
  rewrite IH; [|done|intros; apply Hf; lia].
  rewrite <- (SET_rfc_step X st n op Hop). rewrite Hf by lia. done.
Qed.

Ltac rfc_fun_tac :=
  let i := fresh "i" in
  cbn [length app]; intros i Hi; cbn in Hi; unfold rfc_fun;
  repeat (case Nat.ltb_spec; intros; try lia); done.

Lemma view_0 st : view (reg_at 0) st = st.
Proof. by destruct st as [[[a b] c] d]. Qed.

(** The four unrolled rounds are the 64 steps of the RFC. *)
Lemma md5_process_rfc st data : md5_process st data = rfc_block st data.
Proof.
  unfold md5_process, rfc_block. f_equal. set (X := words_of 16 data).
  change (seq 0 64) with (seq 0 16 ++ seq 16 16 ++ seq 32 16 ++ seq 48 16).
  rewrite !foldl_app.
  rewrite <- (view_0 (foldl (SET I X) _ round4)).
  change (reg_at 0) with (reg_at (48 + length round4)).
  rewrite (round_rfc I X 48 round4) by (reflexivity || rfc_fun_tac).
  change (reg_at 48) with (reg_at (32 + length round3)).
  rewrite (round_rfc H X 32 round3) by (reflexivity || rfc_fun_tac).
  change (reg_at 32) with (reg_at (16 + length round2)).
  rewrite (round_rfc G X 16 round2) by (reflexivity || rfc_fun_tac).
  change (reg_at 16) with (reg_at (0 + length round1)).
  rewrite (round_rfc F X 0 round1) by (reflexivity || rfc_fun_tac).
  by rewrite view_0.
Qed.

(** ** Streaming *)

Lemma rfc_blocks_app n k s m :
  rfc_blocks (n + k) s m = rfc_blocks k (rfc_blocks n s m) (drop (64 * n) m).
Proof.
  revert s m. induction n as [|n IH]; intros s m; [done|].
  cbn [Nat.add rfc_blocks]. rewrite IH, drop_drop. do 2 f_equal. lia.
Qed.

(** [n] blocks only depend on the first [64 * n] bytes. *)
Lemma rfc_blocks_take n k s m :
  (64 * n <= k)%nat -> rfc_blocks n s (take k m) = rfc_blocks n s m.
Proof.
  revert k s m. induction n as [|n IH]; intros k s m Hk; [done|].
  cbn [rfc_blocks]. rewrite take_take, Nat.min_l by lia.
  rewrite skipn_firstn_comm, IH by lia. done.
Qed.

Lemma rfc_blocks_prefix n s m d :
  (64 * n <= length m)%nat -> rfc_blocks n s (m ++ d) = rfc_blocks n s m.
Proof.
  intros Hn. rewrite <- (rfc_blocks_take n (length m)) by lia. by rewrite take_app_length.
Qed.

Lemma full_blocks_spec fuel s p (l : nat) :
  (l <= fuel)%nat ->
  full_blocks fuel s p (Z.of_nat l) =
  (rfc_blocks (l / 64) s p, drop (64 * (l / 64)) p, Z.of_nat (l mod 64)).
Proof.
  revert s p l. induction fuel as [|fuel IH]; intros s p l Hl.
  { replace l with 0%nat by lia. done. }
  cbn [full_blocks]. destruct (Z.leb_spec 64 (Z.of_nat l)) as [H64|H64].
  - replace (Z.of_nat l - 64) with (Z.of_nat (l - 64)) by lia.
    rewrite IH, md5_process_rfc by lia.
    replace (l / 64)%nat with (S ((l - 64) / 64)).
    2: { replace l with (l - 64 + 1 * 64)%nat at 2 by lia. rewrite Nat.div_add by lia. lia. }
    replace (l mod 64)%nat with ((l - 64) mod 64)%nat.
    2: { replace l with (l - 64 + 1 * 64)%nat at 2 by lia. by rewrite Nat.Div0.mod_add. }
    cbn [rfc_blocks]. rewrite drop_drop. repeat f_equal. lia.
  - rewrite Nat.div_small, Nat.mod_small by lia. done.
Qed.

(** What the state holds after the bytes of [m] were appended. *)
Record md5_rep (st : md5_state) (m : bytes) : Prop := {
  rep_count0 : count0 st = u32 (8 * zlen m);
  rep_count1 : count1 st = u32 (8 * zlen m / 2 ^ 32);
  rep_abcd : abcd st = rfc_blocks (length m / 64) rfc_init m;
  rep_buf : take (length m mod 64) (buf st) = drop (64 * (length m / 64)) m;
  rep_len : length (buf st) = 64%nat
}.

Lemma md5_init_rep st : length (buf st) = 64%nat -> md5_rep (md5_init st) [].
Proof. intros H. split; done. Qed.

(** The bit count after [n] more bytes, with its carry. *)
Lemma count_append L n :
  0 <= L -> 0 <= n < 2 ^ 31 ->
  let nbits := u32 (i32 (Z.shiftl n 3)) in
  let c0 := u32 (u32 (8 * L) + nbits) in
  let c1 := u32 (u32 (8 * L / 2 ^ 32) + Z.shiftr n 29) in
  c0 = u32 (8 * (L + n)) /\
  (if c0 <? nbits then u32 (c1 + 1) else c1) = u32 (8 * (L + n) / 2 ^ 32).
Proof.
  intros HL Hn. cbv zeta. rewrite Z.shiftl_mul_pow2, Z.shiftr_div_pow2 by lia.
  unfold u32, i32. change (2 ^ 3) with 8. change (2 ^ 29) with 536870912.
  change (2 ^ 31) with 2147483648 in *. change (2 ^ 32) with 4294967296.
  split; [|case Z.ltb_spec; intros]; Z.div_mod_to_equations; lia.
Qed.

Lemma length_memcpy_at dst o p n :
  0 <= o -> 0 <= n -> o + n <= zlen dst -> n <= zlen p ->
  length (memcpy_at dst o p n) = length dst.
Proof.
  unfold memcpy_at, zlen. intros. rewrite !length_app, !length_take, !length_drop. lia.
Qed.

(** The end of [md5_append]: full blocks from [p], then the rest to the buffer. *)
Lemma append_tail c0 c1 (M p bf : bytes) (k l : nat) :
  (64 * k + l = length M)%nat -> take l p = drop (64 * k) M -> (l <= length p)%nat ->
  length bf = 64%nat -> c0 = u32 (8 * zlen M) -> c1 = u32 (8 * zlen M / 2 ^ 32) ->
  md5_rep
    (let '(s, p, left_) := full_blocks (Z.to_nat (Z.of_nat l)) (rfc_blocks k rfc_init M) p (Z.of_nat l) in
     {| count0 := c0; count1 := c1; abcd := s;
        buf := if left_ =? 0 then bf else memcpy_at bf 0 p left_ |}) M.
Proof.
  intros HM Hp Hlp Hbf H0 H1. rewrite Nat2Z.id, full_blocks_spec by lia.
  assert (Hl : l = (64 * (l / 64) + l mod 64)%nat) by apply Nat.div_mod_eq.
  pose proof (Nat.mod_upper_bound l 64 ltac:(lia)) as Hmod.
  assert (Hq : (length M / 64 = k + l / 64)%nat).
  { rewrite <- HM, Nat.add_comm, Nat.mul_comm, Nat.div_add by lia. lia. }
  assert (Hr : (length M mod 64 = l mod 64)%nat).
  { rewrite <- HM, Nat.add_comm, Nat.mul_comm. apply Nat.Div0.mod_add. }
  split; cbn [count0 count1 abcd buf]; [done|done| | |].
  - rewrite Hq, rfc_blocks_app, <- Hp, rfc_blocks_take; [done|lia].
  - rewrite Hq, Hr, Nat.mul_add_distr_l, <- drop_drop, <- Hp.
    destruct (Z.eqb_spec (Z.of_nat (l mod 64)) 0) as [E|E].
    + replace (l mod 64)%nat with 0%nat by lia. rewrite take_0.
      rewrite drop_ge; [done|]. rewrite length_take. lia.
    + unfold memcpy_at. change (Z.to_nat 0) with 0%nat. rewrite take_0, app_nil_l, Nat2Z.id.
      rewrite take_app_le by (rewrite length_take, length_drop; lia).
      rewrite take_take, Nat.min_id. rewrite skipn_firstn_comm. f_equal. lia.
  - case_match; [done|]. rewrite length_memcpy_at; [done|lia|lia| |]; unfold zlen;
      rewrite ?length_drop; lia.
Qed.

Lemma offset_spec L :
  0 <= L -> Z.land (Z.shiftr (u32 (8 * L)) 3) 63 = L mod 64.
Proof.
  intros HL. rewrite Z.shiftr_div_pow2 by lia. change 63 with (Z.ones 6).
  rewrite Z.land_ones by lia. unfold u32. change (2 ^ 6) with 64. change (2 ^ 3) with 8.
  change (2 ^ 32) with 4294967296. Z.div_mod_to_equations. lia.
Qed.

(** Appending to the buffered part of a message that does not end on a block. *)
Lemma memcpy_rep st m data (o copy : nat) :
  md5_rep st m -> o = (length m mod 64)%nat -> (o + copy <= 64)%nat -> (copy <= length data)%nat ->
  take (o + copy) (memcpy_at (buf st) (Z.of_nat o) data (Z.of_nat copy)) =
  drop (64 * (length m / 64)) m ++ take copy data.
Proof.
  intros R -> Hle Hd. unfold memcpy_at. rewrite <- Nat2Z.inj_add, !Nat2Z.id, (rep_buf st m R).
  rewrite app_assoc, take_app_le.
  - rewrite take_ge; [done|]. rewrite length_app, length_drop, length_take.
    pose proof (Nat.div_mod_eq (length m) 64). lia.
  - rewrite length_app, length_drop, length_take.
    pose proof (Nat.div_mod_eq (length m) 64). lia.
Qed.

(** No [int] of [md5_append] overflows: the bits of a piece, and its end in the buffer. *)
Lemma append_no_overflow offset nbytes : 0 <= offset < 64 -> 0 <= nbytes < 2 ^ 28 ->
  i32 (Z.shiftl nbytes 3) = Z.shiftl nbytes 3 /\ i32 (offset + nbytes) = offset + nbytes.
Proof. intros Ho Hn. rewrite Z.shiftl_mul_pow2 by lia. split; apply i32_id; lia. Qed.

Lemma md5_append_rep st m data (N : nat) :
  md5_rep st m -> Z.of_nat N < 2 ^ 28 -> (N <= length data)%nat ->
  md5_rep (md5_append st data (Z.of_nat N)) (m ++ take N data).
Proof.
  intros R HN Hdata.
  destruct (Z.leb_spec (Z.of_nat N) 0) as [HN0|HN0].
  { replace N with 0%nat by lia. rewrite take_0, app_nil_r. exact R. }
  pose proof (Nat.div_mod_eq (length m) 64) as Hm.
  pose proof (Nat.mod_upper_bound (length m) 64 ltac:(lia)) as Ho.
  assert (HM : length (m ++ take N data) = (length m + N)%nat)
    by (rewrite length_app, length_take; lia).
  destruct (count_append (zlen m) (Z.of_nat N)) as [C0 C1]; [apply zlen_nonneg|lia|].
  assert (Hz : zlen m + Z.of_nat N = zlen (m ++ take N data)) by (unfold zlen; lia).
  rewrite Hz in C0, C1.
  unfold md5_append. rewrite (rep_count0 st m R), (rep_count1 st m R).
  rewrite offset_spec by apply zlen_nonneg.
  replace (zlen m mod 64) with (Z.of_nat (length m mod 64))
    by (unfold zlen; rewrite Nat2Z.inj_mod; done).
  rewrite (proj2 (Z.leb_gt _ _) HN0). cbv zeta in C0, C1 |- *. rewrite C1, C0. clear C0 C1.
  set (o := (length m mod 64)%nat) in *. set (q := (length m / 64)%nat) in *.
  rewrite (i32_id (Z.of_nat o + Z.of_nat N)) by lia.
  assert (Hblk : (64 * q <= length m)%nat) by lia.
  destruct (Z.eqb_spec (Z.of_nat o) 0) as [Ho0|Ho0]; cbn [negb].
  - rewrite (rep_abcd st m R). fold q. rewrite <- (rfc_blocks_prefix q rfc_init m (take N data)) by lia.
    apply append_tail; [lia| |lia|apply (rep_len st m R)|done|done].
    rewrite drop_app_ge by lia. by replace (64 * q - length m)%nat with 0%nat by lia.
  - set (copy := if 64 <? Z.of_nat o + Z.of_nat N then 64 - Z.of_nat o else Z.of_nat N).
    assert (Hc : exists c : nat, copy = Z.of_nat c /\
              ((c = 64 - o /\ 64 < o + N) \/ (c = N /\ o + N <= 64))%nat).
    { subst copy. destruct (Z.ltb_spec 64 (Z.of_nat o + Z.of_nat N)).
      - exists (64 - o)%nat. lia.
      - exists N. lia. }
    destruct Hc as (c & Ec & Hc). rewrite Ec, i32_id by lia. clear copy Ec.
    assert (Hbuf := memcpy_rep st m data o c R eq_refl ltac:(lia) ltac:(lia)). fold q in Hbuf.
    assert (Hlen : length (memcpy_at (buf st) (Z.of_nat o) data (Z.of_nat c)) = 64%nat).
    { rewrite length_memcpy_at; [apply (rep_len st m R)|lia|lia| |];
        unfold zlen; rewrite ?(rep_len st m R); lia. }
    set (bf := memcpy_at _ _ _ _) in *.
    destruct (Z.ltb_spec (Z.of_nat o + Z.of_nat c) 64) as [Hlt|Hge].
    + assert (c = N) by lia. subst c.
      assert (Hq : ((length m + N) / 64 = q)%nat).
      { symmetry. apply Nat.div_unique with (r := (o + N)%nat); lia. }
      assert (Hr : ((length m + N) mod 64 = o + N)%nat).
      { symmetry. apply Nat.mod_unique with (q := q); lia. }
      split; cbn [count0 count1 abcd buf]; [done|done| | |done].
      * rewrite HM, Hq, rfc_blocks_prefix by lia. apply (rep_abcd st m R).
      * rewrite HM, Hq, Hr, Hbuf, drop_app_le by lia. done.
    + assert (Hc64 : (o + c = 64)%nat) by lia.
      rewrite Hc64, take_ge in Hbuf by lia.
      assert (Hs : md5_process (abcd st) bf = rfc_blocks (q + 1) rfc_init (m ++ take N data)).
      { rewrite md5_process_rfc, rfc_blocks_app. cbn [rfc_blocks].
        rewrite rfc_blocks_prefix by lia. pose proof (rep_abcd st m R) as Ha. fold q in Ha.
        rewrite <- Ha. f_equal.
        rewrite drop_app_le, take_app_ge by (rewrite ?length_drop; lia).
        rewrite take_take, length_drop.
        replace (64 - (length m - 64 * q))%nat with c by lia.
        rewrite Nat.min_l by lia. exact Hbuf. }
      rewrite Hs, Nat2Z.id. replace (Z.of_nat N - Z.of_nat c) with (Z.of_nat (N - c)) by lia.
      apply append_tail; [lia| |rewrite length_drop; lia|done|done|done].
      rewrite drop_app_ge by lia.
      replace (64 * (q + 1) - length m)%nat with c by lia.
      rewrite skipn_firstn_comm. done.
Qed.

Lemma length_bytes_split n k z :
  0 <= z -> le_bytes (n + k) z = le_bytes n z ++ le_bytes k (Z.shiftr z (8 * Z.of_nat n)).
Proof.
  revert z. induction n as [|n IH]; intros z Hz; cbn [Nat.add le_bytes app].
  { by rewrite Z.shiftr_0_r. }
  rewrite IH by (apply Z.shiftr_nonneg; lia). rewrite Z.shiftr_shiftr by lia.
  do 4 f_equal. lia.
Qed.

Lemma le_bytes_u32 z : le_bytes 4 (u32 z) = le_bytes 4 z.
Proof.
  cbn [le_bytes]. rewrite !Z.shiftr_div_pow2 by lia. unfold u8, u32.
  change (2 ^ 8) with 256. change (2 ^ 32) with 4294967296.
  repeat (apply (f_equal2 cons); [Z.div_mod_to_equations; lia|]). done.
Qed.

Lemma le_bytes_length L :
  0 <= L -> le_bytes 4 (u32 L) ++ le_bytes 4 (u32 (L / 2 ^ 32)) = le_bytes 8 (u64 L).
Proof.
  intros HL. change 8%nat with (4 + 4)%nat. rewrite length_bytes_split by apply u64_range.
  change (8 * Z.of_nat 4) with 32. rewrite Z.shiftr_div_pow2 by lia.
  f_equal.
  - rewrite <- (le_bytes_u32 (u64 L)). f_equal. unfold u32, u64.
    change (2 ^ 64) with 18446744073709551616. change (2 ^ 32) with 4294967296.
    Z.div_mod_to_equations. lia.
  - f_equal. unfold u32, u64.
    change (2 ^ 64) with 18446744073709551616. change (2 ^ 32) with 4294967296.
    Z.div_mod_to_equations. lia.
Qed.

Lemma pad_length L :
  0 <= L -> Z.land (u32 (55 - Z.shiftr (u32 (8 * L)) 3)) 63 = (55 - L) mod 64.
Proof.
  intros HL. rewrite Z.shiftr_div_pow2 by lia. change 63 with (Z.ones 6).
  rewrite Z.land_ones by lia. unfold u32. change (2 ^ 6) with 64. change (2 ^ 3) with 8.
  change (2 ^ 32) with 4294967296. Z.div_mod_to_equations. lia.
Qed.

Lemma md5_finish_rep st m : md5_rep st m -> md5_finish st = rfc_md5 m.
Proof.
  intros R. unfold md5_finish, rfc_md5. f_equal.
  rewrite (rep_count0 st m R), (rep_count1 st m R).
  rewrite pad_length, le_bytes_length by (pose proof (zlen_nonneg m); lia).
  set (k := Z.to_nat ((55 - zlen m) mod 64)).
  pose proof (Z.mod_pos_bound (55 - zlen m) 64 ltac:(lia)) as Hk.
  replace ((55 - zlen m) mod 64 + 1) with (Z.of_nat (S k)) by lia.
  assert (R1 := md5_append_rep st m pad (S k) R ltac:(lia) ltac:(cbn; lia)).
  assert (R2 := md5_append_rep _ _ (le_bytes 8 (u64 (8 * zlen m))) 8 R1 ltac:(done)
                  ltac:(rewrite length_le_bytes; lia)).
  rewrite (take_ge (le_bytes _ _)) in R2 by (rewrite length_le_bytes; lia).
  assert (Hpad : (m ++ take (S k) pad) ++ le_bytes 8 (u64 (8 * zlen m)) = rfc_pad m).
  { unfold rfc_pad, pad. rewrite firstn_cons, take_replicate, Nat.min_l by lia.
    rewrite <- app_assoc. done. }
  rewrite Hpad in R2. apply (rep_abcd _ _ R2).
Qed.

Lemma md5_appends_rep chunks st m :
  md5_rep st m -> Forall (fun c => zlen c < 2 ^ 28) chunks ->
  md5_rep (foldl (fun s c => md5_append s c (zlen c)) st chunks) (m ++ mjoin chunks).
Proof.
  intros R Hc. revert st m R. induction Hc as [|c chunks Hc _ IH]; intros st m R; cbn.
  { by rewrite app_nil_r. }
  assert (R' := md5_append_rep st m c (length c) R Hc ltac:(lia)).
  rewrite firstn_all in R'. rewrite app_assoc. by apply IH.
Qed.

(** ** Theorems *)

(** the unrolled, word-at-a-time [md5_process] is the 64-step compression
    loop of RFC 1321, for every digest state and every 64-byte block. *)
Theorem md5_process_correct (st : Z * Z * Z * Z) (block : bytes) :
  md5_process st block = rfc_block st block.
Proof. apply md5_process_rfc. Qed.

(** C40: However a message is cut into pieces of less than 2^28 bytes, initialising
    any state, appending the pieces and finishing gives the MD5 digest of their
    concatenation; the bit counters may wrap and the buffer may hold anything
    before. From 2^28 bytes on, the number of bits of a piece overflows an [int]. *)
Theorem md5_streaming (st : md5_state) (chunks : list bytes) :
  length (buf st) = 64%nat -> Forall (fun c => zlen c < 2 ^ 28) chunks ->
  md5_finish (foldl (fun s c => md5_append s c (zlen c)) (md5_init st) chunks) =
  rfc_md5 (mjoin chunks).
Proof.
  intros Hbuf Hc. apply md5_finish_rep.
  apply (md5_appends_rep chunks (md5_init st) []); [by apply md5_init_rep|done].
Qed.

Definition dirty_state : md5_state :=
  {| count0 := 1; count1 := 2; abcd := (3, 4, 5, 6); buf := replicate 64 7 |}.

(** The digest of "message digest", a test vector of the RFC, from two pieces. *)
Lemma md5_streaming_witness :
  rfc_md5 (lit "message digest") =
    [0xf9; 0x6b; 0x69; 0x7d; 0x7c; 0xb7; 0x93; 0x8d; 0x52; 0x5a; 0x2f; 0x31; 0xaa; 0xf1; 0x61; 0xd0] /\
  md5_finish (foldl (fun s c => md5_append s c (zlen c)) (md5_init dirty_state)
                [lit "message "; lit "digest"]) = rfc_md5 (lit "message digest").
Proof.
  split; [by vm_compute|].
  apply (md5_streaming dirty_state [lit "message "; lit "digest"]);
    [done|repeat constructor].
Defined.

End MD5.
