(* ===== verification/CLib.v ===== *)
(** * The C library as the sources use it

    Character classes of the C locale, the string functions, the [printf]
    conversions and the number parsing that the redsocks sources call, on strings
    as lists of bytes without their terminator, with the lemmas the parsers share. *)

From S2P Require Import Prelude.
Open Scope Z_scope.

(** ** Characters (ctype.h, C locale) *)

Definition isspace (c : Z) : bool := (c =? 32) || ((9 <=? c) && (c <=? 13)).
Definition isdigit (c : Z) : bool := (48 <=? c) && (c <=? 57).
Definition isupper (c : Z) : bool := (65 <=? c) && (c <=? 90).
Definition islower (c : Z) : bool := (97 <=? c) && (c <=? 122).
Definition isalpha (c : Z) : bool := isupper c || islower c.
Definition isalnum (c : Z) : bool := isalpha c || isdigit c.
Definition tolower (c : Z) : Z := if isupper c then c + 32 else c.

(** ** Strings (string.h) *)

(** The C string at the start of a buffer: up to the first zero byte. *)
Fixpoint cstr (l : bytes) : bytes :=
  match l with
  | [] => []
  | c :: l => if c =? 0 then [] else c :: cstr l
  end.

Definition strcmp_eq (a b : bytes) : bool := bool_decide (a = b).

(** [strncasecmp(a, b, n) == 0] *)
Fixpoint strncaseeq (n : nat) (a b : bytes) : bool :=
  match n with
  | O => true
  | S n =>
      match a, b with
      | [], [] => true
      | x :: a, y :: b => (tolower x =? tolower y) && strncaseeq n a b
      | _, _ => false
      end
  end.

(** [strchr]: the string before the first [c] and the string from it on. *)
Fixpoint strchr (c : Z) (l : bytes) : option (bytes * bytes) :=
  match l with
  | [] => None
  | x :: l' =>
      if x =? c then Some ([], l)
      else match strchr c l' with
           | Some (pre, suf) => Some (x :: pre, suf)
           | None => None
           end
  end.

(** [while (f ( *p)) ++p]: the string skipped and the string at the new [p]. *)
Fixpoint span (f : Z -> bool) (l : bytes) : bytes * bytes :=
  match l with
  | [] => ([], [])
  | c :: l' => if f c then let '(a, b) := span f l' in (c :: a, b) else ([], l)
  end.

Definition skip (f : Z -> bool) (l : bytes) : bytes := snd (span f l).

(** Without the trailing bytes that satisfy [f]. *)
Definition rtrim (f : Z -> bool) (l : bytes) : bytes := rev (skip f (rev l)).

(** ** printf conversions *)

Definition hex_digit (n : Z) : Z := if n <? 10 then 48 + n else 87 + n.

(** The [n] last hexadecimal digits of [z]. *)
Fixpoint hex_digits (n : nat) (z : Z) : bytes :=
  match n with
  | O => []
  | S n => hex_digits n (z / 16) ++ [hex_digit (z mod 16)]
  end.

(** ["%02x"] of a byte, ["%08x"] of a 32-bit number. *)
Definition fmt_02x (z : Z) : bytes := hex_digits 2 z.
Definition fmt_08x (z : Z) : bytes := hex_digits 8 (u32 z).

(** ["%u"]: [fuel] digits at most, 10 for a 32-bit number. *)
Fixpoint dec_digits (fuel : nat) (z : Z) : bytes :=
  match fuel with
  | O => []
  | S fuel => (if z <? 10 then [] else dec_digits fuel (z / 10)) ++ [48 + z mod 10]
  end.
Definition fmt_u (z : Z) : bytes := dec_digits 10 (u32 z).

(** [inet_ntoa] of an address in network byte order, as its four bytes. *)
Definition inet_ntoa (a : bytes) : bytes :=
  match a with
  | [a; b; c; d] =>
      fmt_u a ++ lit "." ++ fmt_u b ++ lit "." ++ fmt_u c ++ lit "." ++ fmt_u d
  | _ => []
  end.

(** [strstr]: the string from the first occurrence of [pat] on. *)
Fixpoint strstr (pat l : bytes) : option bytes :=
  if bool_decide (pat `prefix_of` l) then Some l
  else match l with [] => None | _ :: l => strstr pat l end.

(** ** Numbers (stdlib.h, arpa/inet.h) *)

(** The value of a digit, -1 for another character. *)
Definition digit_value (c : Z) : Z :=
  if isdigit c then c - 48
  else if islower c then c - 87
  else if isupper c then c - 55 else -1.
Definition is_digit_of (base c : Z) : bool := (0 <=? digit_value c) && (digit_value c <? base).

Definition number_value (base : Z) (l : bytes) : Z := fold_left (fun a c => a * base + digit_value c) l 0.

(** The base [strtoul] takes when it is told 0, and where the digits start. *)
Definition strtoul_base (s : bytes) : Z * bytes :=
  match s with
  | 48 :: x :: d :: s' => if ((x =? 120) || (x =? 88)) && is_digit_of 16 d then (16, d :: s') else (8, s)
  | 48 :: _ => (8, s)
  | _ => (10, s)
  end.

(** [strtoul(s, &end, 0)]: the value, saturated at [ULONG_MAX] and negated behind a minus
    sign as the standard says, and the string at [end]. *)
Definition strtoul (ULONG_MAX : Z) (s : bytes) : Z * bytes :=
  let t := skip isspace s in
  let '(neg, t) := match t with
                   | 45 :: t => (true, t)
                   | 43 :: t => (false, t)
                   | _ => (false, t)
                   end in
  let '(base, t) := strtoul_base t in
  let '(digits, rest) := span (is_digit_of base) t in
  match digits with
  | [] => (0, s)
  | _ =>
      let v := number_value base digits in
      (if v >? ULONG_MAX then ULONG_MAX else if neg then (- v) mod (ULONG_MAX + 1) else v, rest)
  end.

(** The numbers of [inet_aton]: one to four, between dots, each starting with a digit,
    followed by nothing but white space. *)
Fixpoint aton_parts (n : nat) (ULONG_MAX : Z) (s : bytes) : option (list Z) :=
  match n, s with
  | S n, c :: _ =>
      if isdigit c then
        let '(v, rest) := strtoul ULONG_MAX s in
        match rest with
        | [] => Some [v]
        | 46 :: rest => cons v <$> aton_parts n ULONG_MAX rest
        | c :: _ => if isspace c then Some [v] else None
        end
      else None
  | _, _ => None
  end.

(** The last number fills the bytes the others leave. *)
Definition aton_value (parts : list Z) : option Z :=
  match parts with
  | [a] => if a <=? 0xffffffff then Some a else None
  | [a; b] => if (a <=? 0xff) && (b <=? 0xffffff) then Some (a * 2 ^ 24 + b) else None
  | [a; b; c] => if (a <=? 0xff) && (b <=? 0xff) && (c <=? 0xffff) then Some (a * 2 ^ 24 + b * 2 ^ 16 + c) else None
  | [a; b; c; d] =>
      if (a <=? 0xff) && (b <=? 0xff) && (c <=? 0xff) && (d <=? 0xff)
      then Some (a * 2 ^ 24 + b * 2 ^ 16 + c * 2 ^ 8 + d) else None
  | _ => None
  end.

(** [inet_aton]: the address in network byte order. *)
Definition inet_aton (ULONG_MAX : Z) (s : bytes) : option bytes :=
  parts ← aton_parts 4 ULONG_MAX s; v ← aton_value parts; Some (be_bytes 4 v).

(** ** Lemmas *)

Lemma cstr_is_cstr l : is_bytes l -> is_cstr (cstr l).
Proof.
  induction 1 as [|c l Hc _ IH]; cbn; [constructor|].
  destruct (Z.eqb_spec c 0); [constructor|]. constructor; [lia|done].
Qed.

Lemma cstr_id l : is_cstr l -> cstr l = l.
Proof.
  induction 1 as [|c l Hc _ IH]; cbn; [done|].
  destruct (Z.eqb_spec c 0); [lia|]. by rewrite IH.
Qed.

Lemma span_app f l : fst (span f l) ++ snd (span f l) = l.
Proof.
  induction l as [|c l IH]; cbn; [done|]. destruct (f c); [|done].
  destruct (span f l) as [a b]. cbn in *. by rewrite IH.
Qed.

Lemma span_spec f l a b :
  span f l = (a, b) ->
  l = a ++ b /\ Forall (fun c => f c = true) a /\ (forall c k, b = c :: k -> f c = false).
Proof.
  revert a b. induction l as [|c l IH]; intros a b H; cbn in H.
  { simplify_eq. done. }
  destruct (f c) eqn:Hc.
  - destruct (span f l) as [a' b'] eqn:E. simplify_eq.
    destruct (IH a' b eq_refl) as (-> & Ha & Hb). auto.
  - simplify_eq. split; [done|]. split; [constructor|]. intros ? ? ?. by simplify_eq.
Qed.

Lemma span_all f l k :
  Forall (fun c => f c = true) l -> head k = None \/ (exists c, head k = Some c /\ f c = false) ->
  span f (l ++ k) = (l, k).
Proof.
  intros Hl Hk. induction Hl as [|c l Hc _ IH]; cbn.
  - destruct k as [|c k]; [done|]. destruct Hk as [Hk|(x & Hx & Hf)]; [done|].
    cbn in Hx. simplify_eq. cbn. by rewrite Hf.
  - by rewrite Hc, IH.
Qed.

Lemma span_stop f c l : f c = false -> span f (c :: l) = ([], c :: l).
Proof. intros Hc. cbn. by rewrite Hc. Qed.

Lemma skip_stop f c l : f c = false -> skip f (c :: l) = c :: l.
Proof. intros Hc. unfold skip. by rewrite span_stop. Qed.

Lemma skip_suffix f l : exists k, l = k ++ skip f l.
Proof. exists (fst (span f l)). symmetry. apply span_app. Qed.

Lemma skip_cons f c l : skip f (c :: l) = if f c then skip f l else c :: l.
Proof. unfold skip. cbn. destruct (f c); [|done]. by destruct (span f l). Qed.
Lemma skip_app f l k c r : skip f l = c :: r -> skip f (l ++ k) = c :: r ++ k.
Proof.
  induction l as [|x l IH]; [done|]. cbn [app]. rewrite !skip_cons. destruct (f x); [done|]. by intros [= -> ->].
Qed.
Lemma skip_skip_app f l k : skip f (skip f l ++ k) = skip f (l ++ k).
Proof.
  induction l as [|x l IH]; [done|]. cbn [app]. rewrite (skip_cons f x l), (skip_cons f x (l ++ k)).
  destruct (f x) eqn:E; [done|]. by rewrite <-app_comm_cons, skip_cons, E.
Qed.
Lemma length_skip f l : (length (skip f l) <= length l)%nat.
Proof. destruct (skip_suffix f l) as [k Hk]. rewrite Hk at 2. rewrite length_app. lia. Qed.

Lemma strchr_spec c l pre suf :
  strchr c l = Some (pre, suf) -> l = pre ++ suf /\ head suf = Some c /\ c ∉ pre.
Proof.
  revert pre suf. induction l as [|x l IH]; intros pre suf H; cbn in H; [done|].
  destruct (Z.eqb_spec x c) as [->|Hx].
  - simplify_eq. split; [done|]. split; [done|]. apply not_elem_of_nil.
  - destruct (strchr c l) as [[p s]|] eqn:E; [|done]. simplify_eq.
    destruct (IH p suf eq_refl) as (-> & Hh & Hp). split; [done|]. split; [done|].
    rewrite not_elem_of_cons. auto.
Qed.

Lemma strchr_app c pre suf : c ∉ pre -> strchr c (pre ++ c :: suf) = Some (pre, c :: suf).
Proof.
  induction pre as [|x pre IH]; intros Hp; cbn.
  - by rewrite Z.eqb_refl.
  - rewrite not_elem_of_cons in Hp. destruct (Z.eqb_spec x c); [naive_solver|].
    by rewrite IH by naive_solver.
Qed.

Lemma strchr_None c l : strchr c l = None <-> c ∉ l.
Proof.
  induction l as [|x l IH]; cbn.
  - split; [intros _; apply not_elem_of_nil|done].
  - rewrite not_elem_of_cons. destruct (Z.eqb_spec x c); [naive_solver|].
    destruct (strchr c l) as [[p s]|]; naive_solver.
Qed.

Lemma length_hex_digits n z : length (hex_digits n z) = n.
Proof. revert z. induction n; intros; cbn; [done|]. rewrite length_app, IHn. cbn. lia. Qed.

Lemma hex_digit_range n : 0 <= n < 16 -> 48 <= hex_digit n <= 102.
Proof. unfold hex_digit. case Z.ltb_spec; lia. Qed.

Lemma hex_digits_range n z : Forall (fun c => 48 <= c <= 102) (hex_digits n z).
Proof.
  revert z. induction n as [|n IH]; intros z; cbn; [constructor|].
  rewrite Forall_app. split; [apply IH|]. constructor; [|constructor].
  apply hex_digit_range. apply Z.mod_pos_bound. lia.
Qed.

Lemma strncaseeq_refl n l : strncaseeq n l l = true.
Proof. revert l. induction n; intros [|c l]; cbn; auto. by rewrite Z.eqb_refl, IHn. Qed.

Lemma strncaseeq_app n a b k : (n <= length a)%nat -> strncaseeq n (a ++ k) b = strncaseeq n a b.
Proof.
  revert a b. induction n as [|n IH]; intros a b Hn; [done|].
  destruct a as [|x a]; cbn in *; [lia|]. destruct b as [|y b]; [done|].
  by rewrite IH by lia.
Qed.

(** ** Numbers that are printed and read back *)

Lemma number_value_snoc base l c : number_value base (l ++ [c]) = number_value base l * base + digit_value c.
Proof. unfold number_value. by rewrite fold_left_app. Qed.

Lemma digit_of_dec z : 0 <= z -> digit_value (48 + z mod 10) = z mod 10 /\ isdigit (48 + z mod 10) = true.
Proof.
  intros Hz. pose proof (Z.mod_pos_bound z 10 ltac:(lia)). unfold digit_value, isdigit.
  rewrite (proj2 (Z.leb_le 48 _)), (proj2 (Z.leb_le _ 57)) by lia. cbn [andb]. split; [lia|done].
Qed.

Lemma dec_digits_spec fuel z :
  0 <= z < 10 ^ Z.of_nat (S fuel) ->
  number_value 10 (dec_digits (S fuel) z) = z /\ Forall (fun c => isdigit c = true) (dec_digits (S fuel) z) /\
  exists c l, dec_digits (S fuel) z = c :: l /\ (c = 48 -> z = 0 /\ l = []).
Proof.
  revert z. induction fuel as [|fuel IH]; intros z Hz.
  - change (10 ^ Z.of_nat 1) with 10 in Hz. cbn [dec_digits]. rewrite (proj2 (Z.ltb_lt z 10)) by lia. cbn [app].
    destruct (digit_of_dec z) as [Hd Hi]; [lia|]. rewrite Z.mod_small in * by lia. split_and!.
    + unfold number_value. cbn [fold_left]. lia.
    + by constructor.
    + exists (48 + z), []. split; [done|]. intros. split; [lia|done].
  - change (dec_digits (S (S fuel)) z) with ((if z <? 10 then [] else dec_digits (S fuel) (z / 10)) ++ [48 + z mod 10]).
    destruct (digit_of_dec z) as [Hd Hi]; [lia|]. destruct (Z.ltb_spec z 10) as [Hlt|Hge]; cbn [app].
    + rewrite Z.mod_small in * by lia. split_and!; [unfold number_value; cbn [fold_left]; lia|by constructor|].
      exists (48 + z), []. split; [done|]. intros. split; [lia|done].
    + assert (Hq : 0 <= z / 10 < 10 ^ Z.of_nat (S fuel)).
      { rewrite Nat2Z.inj_succ, Z.pow_succ_r in Hz by lia. split; [apply Z.div_pos; lia|]. apply Z.div_lt_upper_bound; lia. }
      destruct (IH _ Hq) as (Hv & Hf & c & l & E & Hc). split_and!.
      * rewrite number_value_snoc, Hv, Hd. pose proof (Z.div_mod z 10). lia.
      * apply Forall_app. split; [done|by constructor].
      * exists c, (l ++ [48 + z mod 10]). split; [by rewrite E|]. intros ->. destruct (Hc eq_refl) as [H0 ->].
        exfalso. assert (z / 10 = 0) by done. pose proof (Z.div_str_pos z 10). lia.
Qed.

Lemma fmt_u_spec z : 0 <= z < 2 ^ 32 ->
  number_value 10 (fmt_u z) = z /\ Forall (fun c => isdigit c = true) (fmt_u z) /\
  exists c l, fmt_u z = c :: l /\ (c = 48 -> z = 0 /\ l = []).
Proof.
  intros Hz. unfold fmt_u. rewrite u32_id by done. apply (dec_digits_spec 9). cbn. lia.
Qed.

Lemma isdigit_of10 c : isdigit c = true -> is_digit_of 10 c = true /\ isspace c = false.
Proof.
  intros H. assert (48 <= c <= 57) by (unfold isdigit in H; lia). split; [|unfold isspace; lia].
  unfold is_digit_of, digit_value. rewrite H. lia.
Qed.

(** What may follow a printed number without being part of it. *)
Definition ends_number (rest : bytes) : Prop := rest = [] \/ exists r, rest = 46 :: r.

Lemma strtoul_fmt M z rest :
  0 <= z < 2 ^ 32 -> z <= M -> ends_number rest -> strtoul M (fmt_u z ++ rest) = (z, rest).
Proof.
  intros Hz HM Hr. destruct (fmt_u_spec z Hz) as (Hv & Hf & c & l & E & Hc). unfold strtoul.
  assert (Hd : isdigit c = true) by (rewrite E in Hf; by inversion Hf). destruct (isdigit_of10 c Hd) as [Hd10 Hsp].
  rewrite E. cbn [app]. rewrite skip_stop by done. assert (Hcr : 48 <= c <= 57) by (unfold isdigit in Hd; lia).
  replace (match c :: l ++ rest with 45 :: t => (true, t) | 43 :: t => (false, t) | _ => (false, c :: l ++ rest) end)
    with (false, c :: l ++ rest).
  2: { assert (Hx : c = 48 \/ c = 49 \/ c = 50 \/ c = 51 \/ c = 52 \/ c = 53 \/ c = 54 \/ c = 55 \/ c = 56 \/ c = 57) by lia.
       by destruct_or! Hx; subst c. }
  destruct (Z.eq_dec c 48) as [->|Hn].
  - destruct (Hc eq_refl) as [-> ->]. destruct M as [|M|M]; [| |lia];
      (destruct Hr as [->|[[|d r] ->]]; reflexivity).
  - assert (Hb : strtoul_base (c :: l ++ rest) = (10, c :: l ++ rest)).
    { assert (Hx : c = 49 \/ c = 50 \/ c = 51 \/ c = 52 \/ c = 53 \/ c = 54 \/ c = 55 \/ c = 56 \/ c = 57) by lia.
      by destruct_or! Hx; subst c. }
    rewrite Hb. assert (Hspan : span (is_digit_of 10) ((c :: l) ++ rest) = (c :: l, rest)).
    { apply span_all.
      - rewrite E in Hf. eapply Forall_impl; [exact Hf|]. intros x Hx. by apply isdigit_of10.
      - destruct Hr as [->|[r ->]]; [by left|right; by exists 46]. }
    cbn [app] in Hspan. rewrite Hspan, <-E, Hv. destruct (Z.gtb_spec z M); [lia|done].
Qed.

Lemma inet_aton_ntoa M a : length a = 4%nat -> is_bytes a -> 255 <= M -> inet_aton M (inet_ntoa a) = Some a.
Proof.
  intros Hl Hb HM. destruct a as [|a [|b [|c [|d [|]]]]]; try done.
  inversion_clear Hb as [|? ? Ha Hb']. inversion_clear Hb' as [|? ? Hb Hc']. inversion_clear Hc' as [|? ? Hc Hd'].
  inversion_clear Hd' as [|? ? Hd _].
  assert (Hp : forall n x r, 0 <= x < 256 -> aton_parts (S n) M (fmt_u x ++ 46 :: r) = cons x <$> aton_parts n M r).
  { intros n x r Hx. destruct (fmt_u_spec x ltac:(lia)) as (_ & Hf & y & l & E & _). cbn [aton_parts].
    pose proof (strtoul_fmt M x (46 :: r) ltac:(lia) ltac:(lia) (or_intror (ex_intro _ r eq_refl))) as S1.
    rewrite E in *. inversion Hf as [|? ? Hy _]; subst. cbn [app] in *. by rewrite Hy, S1. }
  assert (Hq : forall n x, 0 <= x < 256 -> aton_parts (S n) M (fmt_u x) = Some [x]).
  { intros n x Hx. destruct (fmt_u_spec x ltac:(lia)) as (_ & Hf & y & l & E & _). cbn [aton_parts].
    pose proof (strtoul_fmt M x [] ltac:(lia) ltac:(lia) (or_introl eq_refl)) as S1. rewrite app_nil_r in S1.
    rewrite E in *. inversion Hf as [|? ? Hy _]; subst. by rewrite Hy, S1. }
  unfold inet_aton, inet_ntoa. change (lit ".") with [46]. cbn [app]. rewrite !Hp, Hq by done. cbn [fmap option_fmap option_map mbind option_bind].
  unfold aton_value. rewrite !(proj2 (Z.leb_le _ 0xff)) by lia. cbn [andb mbind option_bind]. f_equal.
  set (v := a * 2 ^ 24 + b * 2 ^ 16 + c * 2 ^ 8 + d).
  assert (E : v = le_value (rev [a; b; c; d])) by (cbn; lia). unfold be_bytes. rewrite E.
  change 4%nat with (length (rev [a; b; c; d])). rewrite le_bytes_value, rev_involutive; [done|].
  by repeat (constructor; [lia|]); constructor.
Qed.
