(* ===== verification/EvBuffer.v ===== *)
(** * Line reading (libevent/buffer.c, redsocks/utils.c)

    An [evbuffer] is the list of its bytes.  [evbuffer_search_eol] and
    [evbuffer_readln] are modelled for the two line styles redsocks can be
    compiled for, and the class [LineReader] states what the HTTP subsystems rely
    on, whichever of the two it is. *)

From S2P Require Import Prelude CLib.
Open Scope Z_scope.

Module EvBuffer.

Inductive eol_style := EVBUFFER_EOL_ANY | EVBUFFER_EOL_CRLF.

Definition is_eol (c : Z) : bool := (c =? 13) || (c =? 10).

(** [evbuffer_search_eol(buffer, NULL, &extra_drain, style)]: the position of
    the end of line and the number of bytes to drain after it. *)
Definition evbuffer_search_eol (buf : bytes) (style : eol_style) : option (nat * nat) :=
  match style with
  | EVBUFFER_EOL_ANY =>
      (* first CR or LF, then the run of CR and LF from there *)
      match span (fun c => negb (is_eol c)) buf with
      | (_, []) => None
      | (pre, rest) => Some (length pre, length (fst (span is_eol rest)))
      end
  | EVBUFFER_EOL_CRLF =>
      match strchr 10 buf with
      | None => None
      | Some (pre, _) =>
          match last pre with
          | Some 13 => Some (length pre - 1, 2)%nat
          | _ => Some (length pre, 1)%nat
          end
      end
  end.

(** [evbuffer_readln]: the line and the remaining buffer. *)
Definition evbuffer_readln (buf : bytes) (style : eol_style) : option (bytes * bytes) :=
  match evbuffer_search_eol buf style with
  | None => None
  | Some (n_to_copy, extra_drain) =>
      Some (take n_to_copy buf, drop (n_to_copy + extra_drain) buf)
  end.

Definition evbuffer_readline (buf : bytes) : option (bytes * bytes) :=
  evbuffer_readln buf EVBUFFER_EOL_ANY.

(** The value of [_EVENT_NUMERIC_VERSION] in the preprocessor: no header of the
    bundled libevent defines this name (they define [EVENT__NUMERIC_VERSION]), and
    an undefined name is 0 in [#if]. *)
Definition EVENT_NUMERIC_VERSION : Z := 0.

Definition redsocks_evbuffer_readline (buf : bytes) : option (bytes * bytes) :=
  if 0x02000000 <=? EVENT_NUMERIC_VERSION
  then evbuffer_readln buf EVBUFFER_EOL_CRLF
  else evbuffer_readline buf.

(** ** What the clients rely on *)

(** A line reader takes a prefix of the buffer: the line, without line feeds,
    and at least one more byte. *)
Class LineReader := {
  readline : bytes -> option (bytes * bytes);
  readline_split : forall buf line rest,
    readline buf = Some (line, rest) ->
    exists eol, buf = line ++ eol ++ rest /\ eol <> [] /\ Forall (fun c => is_eol c = true) eol;
  readline_no_lf : forall buf line rest, readline buf = Some (line, rest) -> 10 ∉ line;
}.

Definition line_of (buf line rest : bytes) : Prop :=
  exists eol, buf = line ++ eol ++ rest /\ eol <> [] /\ Forall (fun c => is_eol c = true) eol.

Lemma readln_any_spec buf line rest :
  evbuffer_readln buf EVBUFFER_EOL_ANY = Some (line, rest) ->
  line_of buf line rest /\ Forall (fun c => is_eol c = false) line /\
  (forall c k, rest = c :: k -> is_eol c = false).
Proof.
  unfold evbuffer_readln, evbuffer_search_eol. intros H.
  destruct (span _ buf) as [pre k] eqn:E.
  apply span_spec in E as (-> & Hpre & Hk). destruct k as [|c k]; [done|].
  destruct (span is_eol (c :: k)) as [eol r] eqn:E2. cbn [fst] in H.
  apply span_spec in E2 as (Heq & Heol & Hr). rewrite Heq in H.
  rewrite take_app_length, drop_app_ge, Nat.add_comm, Nat.add_sub, drop_app_length in H by lia.
  simplify_eq. repeat split.
  - exists eol. rewrite Heq. repeat split; [|done]. intros ->. cbn in Heq. subst rest.
    specialize (Hk c k eq_refl). specialize (Hr c k eq_refl). rewrite Hr in Hk. done.
  - eapply Forall_impl; [exact Hpre|]. cbn. intros x Hx. by apply negb_true_iff.
  - exact Hr.
Qed.

Lemma readln_crlf_spec buf line rest :
  evbuffer_readln buf EVBUFFER_EOL_CRLF = Some (line, rest) ->
  (buf = line ++ [10] ++ rest /\ last line <> Some 13 \/ buf = line ++ [13; 10] ++ rest) /\ 10 ∉ line.
Proof.
  unfold evbuffer_readln, evbuffer_search_eol. intros H.
  destruct (strchr 10 buf) as [[pre suf]|] eqn:E; [|done].
  apply strchr_spec in E as (-> & Hh & Hpre). destruct suf as [|c suf]; [done|].
  cbn in Hh. injection Hh as ->.
  assert (Hplain : last pre <> Some 13 -> take (length pre) (pre ++ 10 :: suf) = line ->
            drop (length pre + 1) (pre ++ 10 :: suf) = rest ->
            (pre ++ 10 :: suf = line ++ [10] ++ rest /\ last line <> Some 13 \/
             pre ++ 10 :: suf = line ++ [13; 10] ++ rest) /\ 10 ∉ line).
  { intros Hl <- <-. rewrite take_app_length, drop_app_ge by lia.
    replace (length pre + 1 - length pre)%nat with 1%nat by lia. auto. }
  destruct (last pre) as [x|] eqn:El; [|simplify_eq; by apply Hplain].
  destruct (decide (x = 13)) as [->|Hx].
  2: { assert (Hx' : Some x <> Some 13) by congruence.
       replace (match x with 13 => _ | _ => _ end) with (Some (length pre, 1%nat)) in H.
       - simplify_eq. by apply Hplain.
       - destruct x as [|p|p]; try done. do 4 (destruct p; try done). }
  apply last_Some in El as [pre' ->]. simplify_eq.
  rewrite length_app in *. cbn [length] in *. rewrite <- app_assoc in *.
  replace (length pre' + 1 - 1)%nat with (length pre') by lia.
  rewrite take_app_length, drop_app_ge by lia.
  replace (length pre' + 2 - length pre')%nat with 2%nat by lia.
  split; [right; done|]. rewrite not_elem_of_app in Hpre. naive_solver.
Qed.

Definition crlf_reader : LineReader.
Proof.
  refine {| readline := fun b => evbuffer_readln b EVBUFFER_EOL_CRLF |}.
  - intros buf line rest H. apply readln_crlf_spec in H as [[[-> _]| ->] _].
    + exists [10]. repeat split; try done. by repeat constructor.
    + exists [13; 10]. repeat split; try done. by repeat constructor.
  - intros buf line rest H. by apply readln_crlf_spec in H as [_ H].
Defined.

(** The reader of the build, with the bundled libevent. *)
#[export] Instance redsocks_reader : LineReader.
Proof.
  refine {| readline := redsocks_evbuffer_readline |}.
  - intros buf line rest H. apply readln_any_spec in H as [H _]. exact H.
  - intros buf line rest H. apply readln_any_spec in H as (_ & H & _).
    intros Hin. rewrite Forall_forall in H. by specialize (H _ Hin).
Defined.

Section Reader.
Context {LR : LineReader}.

Lemma readline_length buf line rest :
  readline buf = Some (line, rest) -> (length rest < length buf)%nat.
Proof.
  intros H. apply readline_split in H as ([|e eol] & -> & He & _); [done|].
  rewrite !length_app. cbn. lia.
Qed.

Lemma readline_bytes buf line rest :
  readline buf = Some (line, rest) -> is_bytes buf -> is_bytes line /\ is_bytes rest.
Proof.
  intros H Hb. apply readline_split in H as (eol & -> & _).
  rewrite !is_bytes_app in Hb. naive_solver.
Qed.

End Reader.

(** Reading back a CRLF-terminated line. *)
Lemma readln_crlf_line line rest :
  10 ∉ line -> evbuffer_readln (line ++ [13; 10] ++ rest) EVBUFFER_EOL_CRLF = Some (line, rest).
Proof.
  intros Hl. unfold evbuffer_readln, evbuffer_search_eol.
  change (line ++ [13; 10] ++ rest) with (line ++ [13] ++ 10 :: rest).
  rewrite app_assoc, strchr_app by (rewrite not_elem_of_app; set_solver).
  rewrite last_snoc, length_app. cbn [length].
  replace (length line + 1 - 1)%nat with (length line) by lia. rewrite <- app_assoc.
  rewrite take_app_length, drop_app_ge by lia.
  by replace (length line + 2 - length line)%nat with 2%nat by lia.
Qed.

End EvBuffer.
