(* ===== verification/HttpAuth.v ===== *)
(** * HTTP proxy authentication (redsocks/http-auth.c, http-auth.h)

    The Basic and Digest schemes: the challenge parser [extract_param], the
    digest computation over the streaming MD5, and the search for the challenge in
    the reply headers. *)

From S2P Require Import Prelude CLib EvBuffer Base64 MD5.
Import EvBuffer.
Open Scope Z_scope.

Module HttpAuth.

(** ** Basic *)

(** [base64_encode] cannot fail here below a gigabyte; [None] is NULL. *)
Definition basic_authentication_encode (user passwd : bytes) : option bytes :=
  let pair := user ++ lit ":" ++ passwd in
  Base64.base64_encode (Base64.BASE64_SIZE (zlen pair)) pair.

(** ** Challenge parameters *)

Definition MD5_HASHLEN : Z := 16.

Definition dump_hash (hash : bytes) : bytes := flat_map fmt_02x hash.

(** [extract_param(&source, &name, &value, separator)].  [None] is the return
    value 0; otherwise the two tokens and the advanced [source]. *)
Definition extract_param (source : bytes) (separator : Z) : option (bytes * bytes * bytes) :=
  match skip isspace source with
  | [] => None                                   (* nothing more to extract *)
  | p =>
      let '(name, p) :=
        span (fun c => negb (isspace c) && negb (c =? 61) && negb (c =? separator)) p in
      if bool_decide (name = []) then None       (* empty name: error *)
      else
        match skip isspace p with
        | [] => Some (name, [], [])              (* no value *)
        | c :: p =>
            if c =? separator then Some (name, [], p)
            else if negb (c =? 61) then None     (* error *)
            else
              match skip isspace p with
              | [] => Some (name, [], [])        (* unquoted, empty *)
              | c :: p' =>
                  if c =? 34 then                (* quoted *)
                    match strchr 34 p' with
                    | None => None
                    | Some (value, q) =>
                        let p := skip isspace (drop 1 q) in
                        let p := skip (fun c => negb (c =? separator)) p in
                        Some (name, value, drop 1 p)
                    end
                  else                           (* unquoted *)
                    let '(value, p) := span (fun c => negb (c =? separator)) (c :: p') in
                    Some (name, rtrim isspace value, drop 1 p)
              end
        end
  end.

(** The strings [digest_authentication_encode] collects. *)
Record challenge := mk_challenge {
  realm : option bytes; opaque : option bytes; nonce : option bytes; qop : option bytes }.

Definition no_challenge : challenge := mk_challenge None None None None.

(** One turn of its loop.  The names are compared over the length of the name
    that was read. *)
Definition take_param (c : challenge) (name value : bytes) : challenge :=
  let n := length name in
  if strncaseeq n name (lit "realm") then
    mk_challenge (Some value) (opaque c) (nonce c) (qop c)
  else if strncaseeq n name (lit "opaque") then
    mk_challenge (realm c) (Some value) (nonce c) (qop c)
  else if strncaseeq n name (lit "nonce") then
    mk_challenge (realm c) (opaque c) (Some value) (qop c)
  else if strncaseeq n name (lit "qop") then
    mk_challenge (realm c) (opaque c) (nonce c) (Some value)
  else c.

(** [while (extract_param(&ptr, ...)) ...]: every turn consumes a byte, so the
    length of the line is enough [fuel]. *)
Fixpoint extract_params (fuel : nat) (line : bytes) (c : challenge) : challenge :=
  match fuel with
  | O => c
  | S fuel =>
      match extract_param line 44 with
      | None => c
      | Some (name, value, line) => extract_params fuel line (take_param c name value)
      end
  end.

(** ** Digest *)

Section Digest.

(** The contents of the uninitialised [md5_state_t] on the stack. *)
Variable ctx : MD5.md5_state.

(** [md5_init], one [md5_append] per piece, [md5_finish], [dump_hash]. *)
Definition md5_hex (pieces : list bytes) : bytes :=
  dump_hash (MD5.md5_finish
    (foldl (fun s c => MD5.md5_append s c (zlen c)) (MD5.md5_init ctx) pieces)).

(** The arguments the source tests against NULL are options. *)
Definition digest_authentication_encode
    (line : bytes) (user passwd : option bytes) (method path : option bytes)
    (count : Z) (cnonce : bytes) : option bytes :=
  let nc := fmt_08x count in
  let c := extract_params (length line) line no_challenge in
  match realm c, nonce c, user, passwd, path, method with
  | Some realm, Some nonce, Some user, Some passwd, Some path, Some method =>
      let bad_qop := match qop c with
                     | Some q => negb (strncaseeq 5 q (lit "auth"))
                     | None => false
                     end in
      if bad_qop then None
      else
        let a1buf := md5_hex [user; lit ":"; realm; lit ":"; passwd] in
        let a2buf := md5_hex [method; lit ":"; path] in
        let response :=
          md5_hex ([a1buf; lit ":"; nonce; lit ":"] ++
                   match qop c with
                   | Some q => [nc; lit ":"; cnonce; lit ":"; q; lit ":"]
                   | None => []
                   end ++ [a2buf]) in
        let quote := [34] in
        let res := lit "username=" ++ quote ++ user ++ quote ++ lit ", realm=" ++ quote ++ realm ++
                   quote ++ lit ", nonce=" ++ quote ++ nonce ++ quote ++ lit ", uri=" ++ quote ++
                   path ++ quote ++ lit ", response=" ++ quote ++ response ++ quote in
        let res := match qop c with
                   | None => res
                   | Some q => res ++ lit ", qop=" ++ q ++ lit ", nc=" ++ nc ++
                               lit ", cnonce=" ++ quote ++ cnonce ++ quote
                   end in
        let res := match opaque c with
                   | Some o => res ++ lit ", opaque=" ++ quote ++ o ++ quote
                   | None => res
                   end in
        Some res
  | _, _, _, _, _, _ => None
  end.

(** The [len] the source passes to [malloc] for the result. *)
Definition digest_len (line user path cnonce nc : bytes) : Z :=
  let c := extract_params (length line) line no_challenge in
  let opt o := match o with Some s => zlen s | None => 0 end in
  256 + zlen user + opt (realm c) + opt (nonce c) + zlen path + MD5_HASHLEN * 2 +
  match qop c with Some q => zlen q + zlen nc + zlen cnonce | None => 0 end +
  opt (opaque c).

End Digest.

(** ** Finding the challenge *)

Definition auth_request_header : bytes := lit "Proxy-Authenticate:".
Definition auth_response_header : bytes := lit "Proxy-Authorization:".

(** [http_auth_request_header(src, tee)]: the header line found, what is left of
    [src] and what was copied to [tee]; allocation failures are left out.  Each
    turn takes a line from [src], so its length is enough [fuel]. *)
Fixpoint http_auth_request_header {LR : LineReader} (fuel : nat) (src : bytes) (tee : bytes)
    : option bytes * bytes * bytes :=
  match fuel with
  | O => (None, src, tee)
  | S fuel =>
      match readline src with
      | None => (None, src, tee)
      | Some (line, src) =>
          let line := cstr line in
          let tee := tee ++ line ++ [13; 10] in
          if bool_decide (line = []) || negb (bool_decide (58 ∈ line)) then (None, src, tee)
          else if strncaseeq (length auth_request_header) line auth_request_header
          then (Some line, src, tee)
          else http_auth_request_header fuel src tee
      end
  end.

(** ** Challenges as servers print them *)

(** [name="value"] parameters separated by a comma and a space. *)
Definition print_param (p : bytes * bytes) : bytes := p.1 ++ lit "=" ++ [34] ++ p.2 ++ [34].

Fixpoint print_params (ps : list (bytes * bytes)) : bytes :=
  match ps with
  | [] => []
  | [p] => print_param p
  | p :: ps => print_param p ++ lit ", " ++ print_params ps
  end.

Definition name_char (c : Z) : bool := negb (isspace c) && negb (c =? 61) && negb (c =? 44).

(** A parameter name is a non-empty token, a value has no quote. *)
Definition valid_param (p : bytes * bytes) : Prop :=
  p.1 <> [] /\ Forall (fun c => name_char c = true) p.1 /\ 34 ∉ p.2.

Lemma name_char_not_space c : name_char c = true -> isspace c = false.
Proof. unfold name_char. intros H. zbool. done. Qed.

Lemma extract_print_param p rest :
  valid_param p ->
  (rest = [] \/ exists k, rest = lit ", " ++ k) ->
  extract_param (print_param p ++ rest) 44 =
  Some (p.1, p.2, match rest with [] => [] | _ => drop 1 rest end).
Proof.
  destruct p as [name value]. intros (Hne & Hname & Hval) Hrest. cbn [fst snd] in *.
  unfold print_param. cbn [fst snd]. destruct name as [|c name]; [done|].
  inversion_clear Hname as [|? ? Hc Hname'].
  unfold extract_param. rewrite <- !app_assoc. cbn [app].
  rewrite skip_stop by (by apply name_char_not_space).
  change (c :: name ++ ?k) with ((c :: name) ++ k).
  rewrite span_all; [|by constructor|right; exists 61; done]. cbn [bool_decide].
  rewrite bool_decide_false by done.
  change (lit "=" ++ ?k) with (61 :: k). rewrite skip_stop by done.
  change (61 =? 44) with false. change (61 =? 61) with true. cbn [negb app].
  rewrite skip_stop by done. change (34 =? 34) with true. cbn [app].
  rewrite strchr_app by done. cbn [drop].
  destruct Hrest as [->|[k ->]]; [done|].
  change (lit ", " ++ k) with (44 :: 32 :: k). cbn [drop].
  rewrite skip_stop by done. rewrite skip_stop by done. done.
Qed.

Lemma extract_params_print ps fuel c :
  Forall valid_param ps -> (length ps <= fuel)%nat ->
  extract_params fuel (print_params ps) c = foldl (fun c p => take_param c p.1 p.2) c ps.
Proof.
  intros Hps. revert fuel c.
  assert (Hgen : forall fuel c sp, (length ps <= fuel)%nat -> Forall (fun x => isspace x = true) sp ->
     extract_params fuel (sp ++ print_params ps) c = foldl (fun c p => take_param c p.1 p.2) c ps).
  { induction Hps as [|p ps Hp Hps IH]; intros fuel c sp Hfuel Hsp.
    - cbn. rewrite app_nil_r. destruct fuel as [|fuel]; [done|]. cbn.
      unfold extract_param, skip. rewrite <- (app_nil_r sp), span_all; [done|done|by left].
    - destruct fuel as [|fuel]; cbn in Hfuel; [lia|]. cbn [extract_params foldl].
      assert (Hskip : forall k, extract_param (sp ++ print_param p ++ k) 44 =
                        extract_param (print_param p ++ k) 44).
      { intros k. unfold extract_param. unfold skip at 1. destruct Hp as (Hne & Hname & _).
        unfold print_param. destruct (p.1) as [|x name]; [done|].
        inversion_clear Hname as [|? ? Hx _]. cbn [app].
        rewrite span_all; [|done|right; exists x; split; [done|by apply name_char_not_space]].
        rewrite skip_stop by (by apply name_char_not_space). done. }
      destruct ps as [|p' ps'].
      + cbn [print_params]. rewrite <- (app_nil_r (print_param p)), Hskip.
        rewrite extract_print_param by auto.
        specialize (IH fuel (take_param c p.1 p.2) [] ltac:(cbn; lia) ltac:(constructor)). exact IH.
      + change (print_params (p :: p' :: ps')) with
          (print_param p ++ lit ", " ++ print_params (p' :: ps')).
        rewrite Hskip, extract_print_param by eauto.
        change (lit ", " ++ print_params (p' :: ps')) with ([44] ++ [32] ++ print_params (p' :: ps')).
        cbn [app drop]. change (32 :: print_params (p' :: ps')) with ([32] ++ print_params (p' :: ps')).
        apply IH; [cbn in *; lia|]. by repeat constructor. }
  intros fuel c Hfuel. apply (Hgen fuel c []); [done|constructor].
Qed.

Lemma length_print_params ps :
  Forall valid_param ps -> (length ps <= length (print_params ps))%nat.
Proof.
  induction 1 as [|p ps Hp _ IH]; [done|].
  assert (H1 : (1 <= length (print_param p))%nat).
  { unfold print_param. rewrite !length_app. cbn. lia. }
  destruct ps as [|p' ps]; [exact H1|].
  change (print_params (p :: p' :: ps)) with (print_param p ++ lit ", " ++ print_params (p' :: ps)).
  rewrite !length_app. cbn in *. lia.
Qed.

(** ** RFC 2617 *)

(** [H(data)] as lower-case hexadecimal. *)
Definition rfc_H (m : bytes) : bytes := dump_hash (MD5.rfc_md5 m).

Definition rfc2617_response (user realm passwd method path nonce nc cnonce : bytes)
    (qop : option bytes) : bytes :=
  let A1 := user ++ lit ":" ++ realm ++ lit ":" ++ passwd in
  let A2 := method ++ lit ":" ++ path in
  match qop with
  | Some q => rfc_H (rfc_H A1 ++ lit ":" ++ nonce ++ lit ":" ++ nc ++ lit ":" ++ cnonce ++ lit ":" ++
                     q ++ lit ":" ++ rfc_H A2)
  | None => rfc_H (rfc_H A1 ++ lit ":" ++ nonce ++ lit ":" ++ rfc_H A2)
  end.

(** [key="value"] of the credentials. *)
Definition quoted (key : string) (value : bytes) : bytes := lit key ++ [34] ++ value ++ [34].

Definition rfc2617_credentials (user realm nonce path response nc cnonce : bytes)
    (qop opaque : option bytes) : bytes :=
  quoted "username=" user ++ quoted ", realm=" realm ++ quoted ", nonce=" nonce ++
  quoted ", uri=" path ++ quoted ", response=" response ++
  match qop with
  | Some q => lit ", qop=" ++ q ++ lit ", nc=" ++ nc ++ quoted ", cnonce=" cnonce
  | None => []
  end ++
  match opaque with Some o => quoted ", opaque=" o | None => [] end.

(** The challenge of a server that prints its parameters in the usual order. *)
Definition server_challenge (realm nonce : bytes) (qop opaque : option bytes) : list (bytes * bytes) :=
  [(lit "realm", realm); (lit "nonce", nonce)] ++
  match qop with Some q => [(lit "qop", q)] | None => [] end ++
  match opaque with Some o => [(lit "opaque", o)] | None => [] end.

Lemma md5_hex_rfc ctx pieces :
  length (MD5.buf ctx) = 64%nat -> Forall (fun c => zlen c < 2 ^ 28) pieces ->
  md5_hex ctx pieces = rfc_H (mjoin pieces).
Proof.
  intros Hctx Hp. unfold md5_hex, rfc_H. f_equal. apply MD5.md5_finish_rep.
  apply (MD5.md5_appends_rep pieces (MD5.md5_init ctx) []); [by apply MD5.md5_init_rep|done].
Qed.

Lemma length_dump_hash h : length (dump_hash h) = (2 * length h)%nat.
Proof.
  unfold dump_hash. induction h as [|b h IH]; [done|]. cbn [flat_map].
  rewrite length_app, IH. unfold fmt_02x. rewrite length_hex_digits. cbn [length]. lia.
Qed.

Lemma length_digest s : length (MD5.digest_bytes s) = 16%nat.
Proof.
  destruct s as [[[a b] c] d]. unfold MD5.digest_bytes.
  rewrite !length_app, !length_le_bytes. done.
Qed.

Lemma length_md5_hex ctx pieces : length (md5_hex ctx pieces) = 32%nat.
Proof.
  unfold md5_hex. rewrite length_dump_hash. unfold MD5.md5_finish. by rewrite length_digest.
Qed.

Lemma length_rfc_H m : length (rfc_H m) = 32%nat.
Proof. unfold rfc_H, MD5.rfc_md5. rewrite length_dump_hash. by rewrite length_digest. Qed.

Definition short (s : bytes) : Prop := zlen s < 2 ^ 28.
Definition short_opt (o : option bytes) : Prop := match o with Some s => short s | None => True end.

(** The digest of a parsed challenge. *)
Lemma digest_parsed ctx line user passwd method path count cnonce realm_ nonce_ qop_ opaque_ :
  length (MD5.buf ctx) = 64%nat ->
  extract_params (length line) line no_challenge =
    mk_challenge (Some realm_) opaque_ (Some nonce_) qop_ ->
  (qop_ = None \/ exists q, qop_ = Some q /\ strncaseeq 5 q (lit "auth") = true) ->
  Forall short [user; passwd; method; path; cnonce; realm_; nonce_] -> short_opt qop_ ->
  digest_authentication_encode ctx line (Some user) (Some passwd) (Some method) (Some path)
    count cnonce =
  Some (rfc2617_credentials user realm_ nonce_ path
          (rfc2617_response user realm_ passwd method path nonce_ (fmt_08x count) cnonce qop_)
          (fmt_08x count) cnonce qop_ opaque_).
Proof.
  intros Hctx Hc Hq Hs Hsq. unfold digest_authentication_encode. rewrite Hc.
  cbn [realm opaque nonce qop]. rewrite !Forall_cons in Hs.
  destruct Hs as (Hu & Hp & Hm & Hpa & Hcn & Hr & Hn & _).
  assert (Hh : forall m, short (rfc_H m)).
  { intros m. unfold short, zlen. rewrite length_rfc_H. done. }
  assert (Hnc : short (fmt_08x count)).
  { unfold short, zlen, fmt_08x. rewrite length_hex_digits. done. }
  assert (Hcolon : short (lit ":")) by done.
  rewrite (md5_hex_rfc ctx [user; _; _; _; _]), (md5_hex_rfc ctx [method; _; _])
    by (first [done | repeat constructor; assumption]).
  destruct Hq as [->|(q & -> & Hq)].
  - rewrite md5_hex_rfc by (first [done | repeat constructor; first [assumption | apply Hh]]).
    unfold rfc2617_credentials, rfc2617_response, quoted. cbn [mjoin list_join app].
    destruct opaque_; norm_app; done.
  - rewrite Hq. cbn [negb].
    rewrite md5_hex_rfc by (first [done | repeat constructor; first [assumption | apply Hh]]).
    unfold rfc2617_credentials, rfc2617_response, quoted. cbn [mjoin list_join app].
    destruct opaque_; norm_app; done.
Qed.

(** ** Theorems *)

(** what [basic_authentication_encode] sends decodes to [user:password], for
    all credentials shorter than a gigabyte. *)
Theorem basic_authentication_decodes (user passwd : bytes) :
  is_bytes user -> is_bytes passwd -> zlen user + zlen passwd < 2 ^ 29 ->
  exists s, basic_authentication_encode user passwd = Some s /\
    Base64.base64_decode s (zlen user + 1 + zlen passwd) =
    (zlen user + 1 + zlen passwd, user ++ lit ":" ++ passwd).
Proof.
  intros Hu Hp Hlen. set (pair := user ++ lit ":" ++ passwd).
  assert (Hz : zlen pair = zlen user + 1 + zlen passwd).
  { unfold pair. autorewrite with lists. change (zlen (lit ":")) with 1. lia. }
  assert (Hb : is_bytes pair).
  { unfold pair. rewrite !is_bytes_app. split; [done|]. split; [by apply (bool_decide_unpack _)|done]. }
  exists (Base64.encode_ref pair). split.
  - unfold basic_authentication_encode. fold pair. apply Base64.base64_encode_ref; [done| |lia].
    change ((2 ^ 32 - 1) / 4) with 1073741823. lia.
  - unfold Base64.base64_decode. rewrite <- Hz.
    apply (Base64.decode_encode_ref pair Hb 0 0 [] (zlen pair)). rewrite zlen_nil. lia.
Qed.

Lemma basic_authentication_decodes_witness :
  exists s, basic_authentication_encode (lit "Aladdin") (lit "open sesame") = Some s /\
    Base64.base64_decode s 19 = (19, lit "Aladdin:open sesame").
Proof.
  apply (basic_authentication_decodes (lit "Aladdin") (lit "open sesame"));
    [by apply (bool_decide_unpack _)..|by vm_compute].
Defined.

(** For a challenge printed with quoted parameters the credentials
    [digest_authentication_encode] builds are those of RFC 2617 for the realm, the
    nonce, the quality of protection and the opaque data of the server, whatever
    the uninitialised MD5 context held. *)
Theorem digest_answers_challenge (ctx : MD5.md5_state)
    (user passwd method path cnonce realm nonce : bytes) (qop opaque : option bytes) (count : Z) :
  length (MD5.buf ctx) = 64%nat ->
  34 ∉ realm -> 34 ∉ nonce -> (forall o, opaque = Some o -> 34 ∉ o) ->
  (qop = None \/ qop = Some (lit "auth")) ->
  Forall short [user; passwd; method; path; cnonce; realm; nonce] ->
  digest_authentication_encode ctx (print_params (server_challenge realm nonce qop opaque))
    (Some user) (Some passwd) (Some method) (Some path) count cnonce =
  Some (rfc2617_credentials user realm nonce path
          (rfc2617_response user realm passwd method path nonce (fmt_08x count) cnonce qop)
          (fmt_08x count) cnonce qop opaque).
Proof.
  intros Hctx Hr Hn Ho Hq Hs.
  assert (Hv : Forall valid_param (server_challenge realm nonce qop opaque)).
  { assert (Hqv : 34 ∉ lit "auth") by (by apply (bool_decide_unpack _)).
    unfold server_challenge.
    destruct Hq as [->| ->], opaque as [o|]; repeat constructor; cbn; try done; by apply Ho. }
  apply digest_parsed; [done| | |done|].
  - rewrite extract_params_print by (done || by apply length_print_params).
    unfold server_challenge. destruct Hq as [->| ->], opaque; reflexivity.
  - destruct Hq as [->| ->]; [by left|]. right. by exists (lit "auth").
  - by destruct Hq as [->| ->].
Qed.

(** The example of RFC 2617, section 3.5. *)
Lemma digest_answers_challenge_witness :
  rfc2617_response (lit "Mufasa") (lit "testrealm@host.com") (lit "Circle Of Life") (lit "GET")
    (lit "/dir/index.html") (lit "dcd98b7102dd2f0e8b11d0f600bfb0c093") (lit "00000001")
    (lit "0a4f113b") (Some (lit "auth")) = lit "6629fae49393a05397450978507c4ef1" /\
  digest_authentication_encode MD5.dirty_state
    (print_params (server_challenge (lit "testrealm@host.com")
       (lit "dcd98b7102dd2f0e8b11d0f600bfb0c093") (Some (lit "auth"))
       (Some (lit "5ccc069c403ebaf9f0171e9517f40e41"))))
    (Some (lit "Mufasa")) (Some (lit "Circle Of Life")) (Some (lit "GET"))
    (Some (lit "/dir/index.html")) 1 (lit "0a4f113b") =
  Some (rfc2617_credentials (lit "Mufasa") (lit "testrealm@host.com")
          (lit "dcd98b7102dd2f0e8b11d0f600bfb0c093") (lit "/dir/index.html")
          (lit "6629fae49393a05397450978507c4ef1") (fmt_08x 1) (lit "0a4f113b")
          (Some (lit "auth")) (Some (lit "5ccc069c403ebaf9f0171e9517f40e41"))).
Proof.
  split; [by vm_compute|].
  etransitivity.
  - apply (digest_answers_challenge MD5.dirty_state (lit "Mufasa") (lit "Circle Of Life")
      (lit "GET") (lit "/dir/index.html") (lit "0a4f113b") (lit "testrealm@host.com")
      (lit "dcd98b7102dd2f0e8b11d0f600bfb0c093") (Some (lit "auth"))
      (Some (lit "5ccc069c403ebaf9f0171e9517f40e41")) 1); try done.
    + by apply (bool_decide_unpack _).
    + by apply (bool_decide_unpack _).
    + intros o [= <-]. by apply (bool_decide_unpack _).
    + by right.
    + by repeat constructor.
  - by vm_compute.
Defined.

(** the credentials, with their terminating zero, fit the buffer that
    [digest_authentication_encode] allocates for them, whatever the challenge
    line. *)
Theorem digest_fits (ctx : MD5.md5_state) (line : bytes) (user path : bytes)
    (passwd method : option bytes) (count : Z) (cnonce res : bytes) :
  digest_authentication_encode ctx line (Some user) passwd method (Some path) count cnonce = Some res ->
  zlen res + 1 <= digest_len line user path cnonce (fmt_08x count).
Proof.
  unfold digest_authentication_encode, digest_len, MD5_HASHLEN.
  destruct (extract_params _ _ _) as [realm_ opaque_ nonce_ qop_]. cbn [realm opaque nonce qop].
  destruct realm_ as [r|], nonce_ as [n|], passwd as [pw|], method as [me|]; try done.
  intros H. cases_in H; [done|]. simplify_eq.
  assert (H32 : forall pieces, zlen (md5_hex ctx pieces) = 32).
  { intros pieces. unfold zlen. by rewrite length_md5_hex. }
  destruct qop_ as [q|], opaque_ as [o|];
    autorewrite with lists; rewrite ?H32;
    repeat match goal with |- context [zlen (lit ?s)] =>
      let v := eval vm_compute in (zlen (lit s)) in change (zlen (lit s)) with v end;
    pose proof (zlen_nonneg cnonce); pose proof (zlen_nonneg (fmt_08x count)); lia.
Qed.

Lemma digest_fits_witness :
  exists res,
    digest_authentication_encode MD5.dirty_state (lit "realm=r,nonce=n") (Some (lit "u"))
      (Some (lit "p")) (Some (lit "CONNECT")) (Some (lit "h:80")) 1 (lit "c") = Some res /\
    zlen res + 1 <= digest_len (lit "realm=r,nonce=n") (lit "u") (lit "h:80") (lit "c") (fmt_08x 1).
Proof.
  eexists. split; [by vm_compute|].
  eapply (digest_fits MD5.dirty_state (lit "realm=r,nonce=n") (lit "u") (lit "h:80")
            (Some (lit "p")) (Some (lit "CONNECT")) 1 (lit "c")). by vm_compute.
Defined.

(** ** The search for the challenge *)

Section Search.
Context {LR : LineReader}.

(** [reads src ls rest]: the lines [ls] are read from [src] and leave [rest]. *)
Inductive reads : bytes -> list bytes -> bytes -> Prop :=
| reads_nil src : reads src [] src
| reads_cons src line src' ls rest :
    readline src = Some (line, src') -> reads src' ls rest -> reads src (line :: ls) rest.

(** A header line that is not the challenge. *)
Definition other_header (l : bytes) : Prop :=
  is_cstr l /\ 58 ∈ l /\
  strncaseeq (length auth_request_header) l auth_request_header = false.

Lemma search_reads ls h src rest tee fuel :
  reads src (ls ++ [h]) rest -> Forall other_header ls ->
  is_cstr h -> 58 ∈ h -> strncaseeq (length auth_request_header) h auth_request_header = true ->
  (length src <= fuel)%nat ->
  http_auth_request_header fuel src tee =
  (Some h, rest, tee ++ flat_map (fun l => l ++ [13; 10]) (ls ++ [h])).
Proof.
  intros Hr Hls Hh Hcol Heq. revert src tee fuel Hr.
  induction Hls as [|l ls (Hl & Hlc & Hlne) _ IH]; intros src tee fuel Hr Hfuel.
  - inversion Hr as [|? ? src' ? ? Hread Hr']; subst. inversion Hr'; subst.
    pose proof (readline_length _ _ _ Hread). destruct fuel as [|fuel]; [lia|].
    cbn [http_auth_request_header]. rewrite Hread, cstr_id by done.
    rewrite bool_decide_false by (intros ->; by apply not_elem_of_nil in Hcol).
    rewrite bool_decide_true by done. cbn [orb negb]. rewrite Heq. cbn. norm_app. done.
  - cbn [app] in Hr. inversion Hr as [|? ? src' ? ? Hread Hr']; subst.
    pose proof (readline_length _ _ _ Hread). destruct fuel as [|fuel]; [lia|].
    cbn [http_auth_request_header]. rewrite Hread, cstr_id by done.
    rewrite bool_decide_false by (intros ->; by apply not_elem_of_nil in Hlc).
    rewrite bool_decide_true by done. cbn [orb negb]. rewrite Hlne.
    rewrite (IH src') by (done || lia). cbn [flat_map app]. norm_app. done.
Qed.

(** whichever line style redsocks is compiled for, the search returns the
    first [Proxy-Authenticate] header, leaves the rest of the buffer, and copies
    every line it took to the tee buffer. *)
Theorem challenge_found (src rest tee h : bytes) (ls : list bytes) :
  reads src (ls ++ [h]) rest -> Forall other_header ls ->
  is_cstr h -> 58 ∈ h -> strncaseeq (length auth_request_header) h auth_request_header = true ->
  http_auth_request_header (length src) src tee =
  (Some h, rest, tee ++ flat_map (fun l => l ++ [13; 10]) (ls ++ [h])).
Proof. intros. apply search_reads; done. Qed.

End Search.

Lemma challenge_found_witness :
  http_auth_request_header (LR := redsocks_reader) 39
    (lit "Via: x" ++ [13; 10] ++ lit "proxy-authenticate: Basic" ++ [13; 10] ++ lit "A: b") [] =
  (Some (lit "proxy-authenticate: Basic"), lit "A: b",
   lit "Via: x" ++ [13; 10] ++ lit "proxy-authenticate: Basic" ++ [13; 10]).
Proof.
  etransitivity.
  - apply (challenge_found (LR := redsocks_reader)
      (lit "Via: x" ++ [13; 10] ++ lit "proxy-authenticate: Basic" ++ [13; 10] ++ lit "A: b")
      (lit "A: b") [] (lit "proxy-authenticate: Basic") [lit "Via: x"]).
    + cbn [app]. do 2 (econstructor; [by vm_compute|]). constructor.
    + constructor; [|constructor]. split; [by apply (bool_decide_unpack _)|].
      split; [by apply (bool_decide_unpack _)|by vm_compute].
    + by apply (bool_decide_unpack _).
    + by apply (bool_decide_unpack _).
    + by vm_compute.
  - by vm_compute.
Defined.

End HttpAuth.
