(* ===== verification/World.v ===== *)
(** * The state of the redsocks process

    The structures of redsocks.h and http-auth.h, the libevent objects they hold,
    and the monad in which the callbacks run: a callback threads the whole process
    state, may stop at a failed [assert], and faults when it follows a freed or
    NULL pointer or closes a descriptor that is not open. *)

From S2P Require Import Prelude CLib.
Open Scope Z_scope.

(** ** Constants *)

Definition EV_READ : Z := 0x02.
Definition EV_WRITE : Z := 0x04.
Definition EV_RW : Z := Z.lor EV_READ EV_WRITE.
Definition pump_active : Z := -1.

(** ** Addresses: both fields in network byte order. *)

Record sockaddr_in := mk_sockaddr { sin_addr : bytes; sin_port : bytes }.

(** ** Buffered events (struct bufferevent) *)

(** The functions a [readcb] or [writecb] field can point to. *)
Inductive callback :=
| cb_none
| cb_relay_connected          (* redsocks_relay_connected *)
| cb_subsys_read              (* relay_ss->readcb *)
| cb_subsys_write             (* relay_ss->writecb *)
| cb_pump_read                (* redsocks_relay_{client,relay}readcb *)
| cb_pump_write               (* redsocks_relay_{client,relay}writecb *)
| cb_httpr_client_read.       (* httpr_client_read_cb *)

#[export] Instance callback_eq_dec : EqDecision callback.
Proof. solve_decision. Defined.

Record bufferevent := mk_bufferevent {
  be_fd : Z;                  (* -1 after bufferevent_setfd(-1) *)
  be_input : bytes;
  be_output : bytes;
  be_enabled : Z;             (* EV_READ | EV_WRITE *)
  be_wpending : bool;         (* ev_write is in the event loop *)
  wm_read_low : Z; wm_read_high : Z;
  wm_write_low : Z; wm_write_high : Z;
  be_readcb : callback;
  be_writecb : callback
}.

Definition bufferevent_new (fd : Z) (readcb writecb : callback) : bufferevent :=
  {| be_fd := fd; be_input := []; be_output := []; be_enabled := EV_WRITE; be_wpending := false;
     wm_read_low := 0; wm_read_high := 0; wm_write_low := 0; wm_write_high := 0;
     be_readcb := readcb; be_writecb := writecb |}.

Definition be_set_fd fd b :=
  mk_bufferevent fd (be_input b) (be_output b) (be_enabled b) (be_wpending b) (wm_read_low b)
    (wm_read_high b) (wm_write_low b) (wm_write_high b) (be_readcb b) (be_writecb b).
Definition be_set_input i b :=
  mk_bufferevent (be_fd b) i (be_output b) (be_enabled b) (be_wpending b) (wm_read_low b)
    (wm_read_high b) (wm_write_low b) (wm_write_high b) (be_readcb b) (be_writecb b).
Definition be_set_output o p b :=
  mk_bufferevent (be_fd b) (be_input b) o (be_enabled b) p (wm_read_low b)
    (wm_read_high b) (wm_write_low b) (wm_write_high b) (be_readcb b) (be_writecb b).
Definition be_set_enabled e p b :=
  mk_bufferevent (be_fd b) (be_input b) (be_output b) e p (wm_read_low b)
    (wm_read_high b) (wm_write_low b) (wm_write_high b) (be_readcb b) (be_writecb b).
Definition be_set_wm_read l h b :=
  mk_bufferevent (be_fd b) (be_input b) (be_output b) (be_enabled b) (be_wpending b) l h
    (wm_write_low b) (wm_write_high b) (be_readcb b) (be_writecb b).
Definition be_set_wm_write l h b :=
  mk_bufferevent (be_fd b) (be_input b) (be_output b) (be_enabled b) (be_wpending b)
    (wm_read_low b) (wm_read_high b) l h (be_readcb b) (be_writecb b).
Definition be_set_cbs r w b :=
  mk_bufferevent (be_fd b) (be_input b) (be_output b) (be_enabled b) (be_wpending b)
    (wm_read_low b) (wm_read_high b) (wm_write_low b) (wm_write_high b) r w.

(** [x & mask] as a truth value. *)
Definition has (x mask : Z) : bool := negb (Z.land x mask =? 0).

(** [bufferevent_enable]: [be_socket_enable] adds the write event at once. *)
Definition be_enable (ev : Z) (b : bufferevent) : bufferevent :=
  be_set_enabled (Z.lor (be_enabled b) ev) (be_wpending b || has ev EV_WRITE) b.

Definition be_disable (ev : Z) (b : bufferevent) : bufferevent :=
  be_set_enabled (Z.land (be_enabled b) (Z.lnot ev)) (be_wpending b && negb (has ev EV_WRITE)) b.

(** The same calls when the event loop refuses the change of its events. *)
Definition be_enable_failed (ev : Z) (b : bufferevent) : bufferevent :=
  be_set_enabled (Z.lor (be_enabled b) ev) (be_wpending b) b.
Definition be_disable_failed (ev : Z) (b : bufferevent) : bufferevent :=
  be_set_enabled (Z.land (be_enabled b) (Z.lnot ev)) (be_wpending b) b.

(** [bufferevent_setwatermark] *)
Definition be_setwatermark (events low high : Z) (b : bufferevent) : bufferevent :=
  let b := if has events EV_WRITE then be_set_wm_write low high b else b in
  if has events EV_READ then be_set_wm_read low high b else b.

(** [bufferevent_setfd(-1)] takes both events out of the loop. *)
Definition be_dropfd (b : bufferevent) : bufferevent :=
  be_set_fd (-1) (be_set_enabled (be_enabled b) false b).

(** Data appended to the output schedules the write event when writing is enabled. *)
Definition be_append (data : bytes) (b : bufferevent) : bufferevent :=
  be_set_output (be_output b ++ data)
    (be_wpending b || (negb (bool_decide (data = [])) && has (be_enabled b) EV_WRITE)) b.

(** ** Payloads of the relay subsystems *)

(** [socks5_client] *)
Record socks5_client := mk_socks5_client { do_password : Z; to_skip : Z }.

(** [httpr_buffer]: [hb_buff] is NULL or the [hb_len] bytes stored so far. *)
Record httpr_buffer := mk_httpr_buffer { hb_buff : option bytes; hb_len : Z; hb_max_len : Z }.

(** [httpr_client] *)
Record httpr_client := mk_httpr_client {
  hr_firstline : option bytes; hr_host : option bytes; hr_has_host : bool;
  hr_client_buffer : httpr_buffer; hr_relay_buffer : httpr_buffer }.

Inductive payload :=
| no_payload
| socks5_payload (p : socks5_client)
| httpr_payload (p : httpr_client).

(** ** Clients (redsocks_client, with redsocks_pump around it when splice is used) *)

Record splice_pipe := mk_pipe { sp_read : Z; sp_write : Z; sp_size : Z; sp_data : bytes }.

(** [struct event] of the pump: whether it was assigned, its descriptor, whether
    it is in the loop, whether [event_active] was called on it. *)
Record event := mk_event { e_init : bool; e_fd : Z; e_pending : bool; e_active : bool }.

Definition no_event : event := mk_event false 0 false false.

Record redsocks_pump := mk_pump {
  pump_request : splice_pipe; pump_reply : splice_pipe;
  pump_client_read : event; pump_client_write : event;
  pump_relay_read : event; pump_relay_write : event }.

Definition no_pipe : splice_pipe := mk_pipe (-1) (-1) 0 [].

(** What [redsocks_accept_client] leaves in the pump: calloc and the four -1. *)
Definition new_pump : redsocks_pump :=
  mk_pump no_pipe no_pipe no_event no_event no_event no_event.

Record redsocks_client := mk_client {
  c_instance : nat;
  c_client : option bufferevent;
  c_relay : option bufferevent;
  c_clientaddr : sockaddr_in;
  c_destaddr : sockaddr_in;
  c_state : Z;
  client_evshut : Z;
  relay_evshut : Z;
  first_event : Z;
  last_event : Z;
  c_pump : redsocks_pump;
  c_payload : payload }.

(** The two bufferevents of a client. *)
Inductive side := Client | Relay.

#[export] Instance side_eq_dec : EqDecision side.
Proof. solve_decision. Defined.

Definition other (s : side) : side := match s with Client => Relay | Relay => Client end.

Definition c_buf (s : side) (c : redsocks_client) : option bufferevent :=
  match s with Client => c_client c | Relay => c_relay c end.
Definition c_evshut (s : side) (c : redsocks_client) : Z :=
  match s with Client => client_evshut c | Relay => relay_evshut c end.

Definition c_set_buf (s : side) (b : option bufferevent) (c : redsocks_client) : redsocks_client :=
  match s with
  | Client => mk_client (c_instance c) b (c_relay c) (c_clientaddr c) (c_destaddr c) (c_state c)
                (client_evshut c) (relay_evshut c) (first_event c) (last_event c) (c_pump c) (c_payload c)
  | Relay => mk_client (c_instance c) (c_client c) b (c_clientaddr c) (c_destaddr c) (c_state c)
                (client_evshut c) (relay_evshut c) (first_event c) (last_event c) (c_pump c) (c_payload c)
  end.
Definition c_set_evshut (s : side) (e : Z) (c : redsocks_client) : redsocks_client :=
  match s with
  | Client => mk_client (c_instance c) (c_client c) (c_relay c) (c_clientaddr c) (c_destaddr c)
                (c_state c) e (relay_evshut c) (first_event c) (last_event c) (c_pump c) (c_payload c)
  | Relay => mk_client (c_instance c) (c_client c) (c_relay c) (c_clientaddr c) (c_destaddr c)
                (c_state c) (client_evshut c) e (first_event c) (last_event c) (c_pump c) (c_payload c)
  end.
Definition c_set_state st (c : redsocks_client) :=
  mk_client (c_instance c) (c_client c) (c_relay c) (c_clientaddr c) (c_destaddr c) st
    (client_evshut c) (relay_evshut c) (first_event c) (last_event c) (c_pump c) (c_payload c).
Definition c_set_last t (c : redsocks_client) :=
  mk_client (c_instance c) (c_client c) (c_relay c) (c_clientaddr c) (c_destaddr c) (c_state c)
    (client_evshut c) (relay_evshut c) (first_event c) t (c_pump c) (c_payload c).
Definition c_set_first t (c : redsocks_client) :=
  mk_client (c_instance c) (c_client c) (c_relay c) (c_clientaddr c) (c_destaddr c) (c_state c)
    (client_evshut c) (relay_evshut c) t (last_event c) (c_pump c) (c_payload c).
Definition c_set_pump p (c : redsocks_client) :=
  mk_client (c_instance c) (c_client c) (c_relay c) (c_clientaddr c) (c_destaddr c) (c_state c)
    (client_evshut c) (relay_evshut c) (first_event c) (last_event c) p (c_payload c).
Definition c_set_payload p (c : redsocks_client) :=
  mk_client (c_instance c) (c_client c) (c_relay c) (c_clientaddr c) (c_destaddr c) (c_state c)
    (client_evshut c) (relay_evshut c) (first_event c) (last_event c) (c_pump c) p.

(** ** Instances *)

Inductive disclose_src_e :=
| DISCLOSE_NONE | DISCLOSE_X_FORWARDED_FOR | DISCLOSE_FORWARDED_IP | DISCLOSE_FORWARDED_IPPORT.
Inductive on_proxy_fail_e := ONFAIL_CLOSE | ONFAIL_FORWARD_HTTP_ERR.

#[export] Instance disclose_src_eq_dec : EqDecision disclose_src_e.
Proof. solve_decision. Defined.
#[export] Instance on_proxy_fail_eq_dec : EqDecision on_proxy_fail_e.
Proof. solve_decision. Defined.

Record redsocks_config := mk_config {
  bindaddr : sockaddr_in;
  relayaddr : sockaddr_in;
  cfg_type : option bytes;
  login : option bytes;
  password : option bytes;
  listenq : Z;
  use_splice : bool;
  disclose_src : disclose_src_e;
  on_proxy_fail : on_proxy_fail_e }.

(** The entries of [relay_subsystems]. *)
Inductive relay_subsys := http_connect_subsys | http_relay_subsys | socks4_subsys | socks5_subsys.

#[export] Instance relay_subsys_eq_dec : EqDecision relay_subsys.
Proof. solve_decision. Defined.

(** [http_auth], the payload of the HTTP instances. *)
Record http_auth := mk_http_auth { last_auth_query : option bytes; last_auth_count : Z }.

Record redsocks_instance := mk_instance {
  i_config : redsocks_config;
  i_listener_init : bool;     (* event_initialized(&listener) *)
  i_listener_fd : Z;
  i_listening : bool;         (* listener is in the event loop *)
  i_clients : list Z;         (* the clients list, by client identity *)
  i_relay_ss : relay_subsys;
  i_auth : http_auth }.

Definition i_set_config g i := mk_instance g (i_listener_init i) (i_listener_fd i) (i_listening i)
  (i_clients i) (i_relay_ss i) (i_auth i).
Definition i_set_listener n fd l i := mk_instance (i_config i) n fd l (i_clients i) (i_relay_ss i) (i_auth i).
Definition i_set_listening l i := mk_instance (i_config i) (i_listener_init i) (i_listener_fd i) l
  (i_clients i) (i_relay_ss i) (i_auth i).
Definition i_set_clients cs i := mk_instance (i_config i) (i_listener_init i) (i_listener_fd i)
  (i_listening i) cs (i_relay_ss i) (i_auth i).
Definition i_set_auth a i := mk_instance (i_config i) (i_listener_init i) (i_listener_fd i)
  (i_listening i) (i_clients i) (i_relay_ss i) a.

(** ** The process *)

(** The settings of base.c the relay reads. *)
Record base_config := mk_base {
  redsocks_conn_max : Z;                  (* uint32_t *)
  connpres_idle_timeout : Z;              (* seconds, uint32_t *)
  max_accept_backoff_ms : Z;              (* uint32_t *)
  tcp_keepalive_time : Z; tcp_keepalive_probes : Z; tcp_keepalive_intvl : Z }.

Inductive shut_how := SHUT_RD | SHUT_WR | SHUT_RDWR.

#[export] Instance shut_how_eq_dec : EqDecision shut_how.
Proof. solve_decision. Defined.

(** System calls whose order and arguments matter; [sys_ebadf] is a [close] of a
    descriptor that is not open. *)
Inductive sysev :=
| sys_shutdown (fd : Z) (how : shut_how)
| sys_close (fd : Z)
| sys_ebadf (fd : Z)
| sys_connect (fd : Z) (addr : sockaddr_in).

Record world := mk_world {
  w_clients : gmap Z redsocks_client;     (* allocated clients *)
  w_instances : list redsocks_instance;
  redsocks_conn : Z;                      (* uint32_t *)
  accept_backoff_ms : Z;                  (* uint32_t *)
  accept_backoff_ev : option Z;           (* pending, with its delay in microseconds *)
  w_base : base_config;
  w_open : gset Z;                        (* open descriptors *)
  w_next_client : Z;                      (* identity of the next allocated client *)
  w_clock : Z;                            (* last time read, in microseconds *)
  w_ticks : list Z;                       (* how the clock moves at the next readings *)
  w_answers : list Z;                     (* results of the next fallible calls: 0 or an errno *)
  w_random : list Z;                      (* what the random generator yields next *)
  w_trace : list sysev }.

Definition w_set_clients cs (w : world) : world :=
  mk_world cs (w_instances w) (redsocks_conn w) (accept_backoff_ms w) (accept_backoff_ev w)
    (w_base w) (w_open w) (w_next_client w) (w_clock w) (w_ticks w) (w_answers w) (w_random w)
    (w_trace w).
Definition w_set_instances l (w : world) : world :=
  mk_world (w_clients w) l (redsocks_conn w) (accept_backoff_ms w) (accept_backoff_ev w)
    (w_base w) (w_open w) (w_next_client w) (w_clock w) (w_ticks w) (w_answers w) (w_random w)
    (w_trace w).
Definition w_set_conn n (w : world) : world :=
  mk_world (w_clients w) (w_instances w) n (accept_backoff_ms w) (accept_backoff_ev w) (w_base
    w) (w_open w) (w_next_client w) (w_clock w) (w_ticks w) (w_answers w) (w_random w) (w_trace
    w).
Definition w_set_backoff ms ev (w : world) : world :=
  mk_world (w_clients w) (w_instances w) (redsocks_conn w) ms ev (w_base w) (w_open w)
    (w_next_client w) (w_clock w) (w_ticks w) (w_answers w) (w_random w) (w_trace w).
Definition w_set_open o (w : world) : world :=
  mk_world (w_clients w) (w_instances w) (redsocks_conn w) (accept_backoff_ms w)
    (accept_backoff_ev w) (w_base w) o (w_next_client w) (w_clock w) (w_ticks w) (w_answers w)
    (w_random w) (w_trace w).
Definition w_set_next_client n (w : world) : world :=
  mk_world (w_clients w) (w_instances w) (redsocks_conn w) (accept_backoff_ms w)
    (accept_backoff_ev w) (w_base w) (w_open w) n (w_clock w) (w_ticks w) (w_answers w)
    (w_random w) (w_trace w).
Definition w_set_clock t ts (w : world) : world :=
  mk_world (w_clients w) (w_instances w) (redsocks_conn w) (accept_backoff_ms w)
    (accept_backoff_ev w) (w_base w) (w_open w) (w_next_client w) t ts (w_answers w) (w_random
    w) (w_trace w).
Definition w_set_answers a (w : world) : world :=
  mk_world (w_clients w) (w_instances w) (redsocks_conn w) (accept_backoff_ms w)
    (accept_backoff_ev w) (w_base w) (w_open w) (w_next_client w) (w_clock w) (w_ticks w) a
    (w_random w) (w_trace w).
Definition w_set_random r (w : world) : world :=
  mk_world (w_clients w) (w_instances w) (redsocks_conn w) (accept_backoff_ms w)
    (accept_backoff_ev w) (w_base w) (w_open w) (w_next_client w) (w_clock w) (w_ticks w)
    (w_answers w) r (w_trace w).
Definition w_add_trace e (w : world) : world :=
  mk_world (w_clients w) (w_instances w) (redsocks_conn w) (accept_backoff_ms w)
    (accept_backoff_ev w) (w_base w) (w_open w) (w_next_client w) (w_clock w) (w_ticks w)
    (w_answers w) (w_random w) (w_trace w ++ [e]).

(** ** The monad *)

Inductive outcome (A : Type) :=
| Ok (a : A) (w : world)
| AssertFailed
| Fault.
Arguments Ok {A} a w.
Arguments AssertFailed {A}.
Arguments Fault {A}.

Definition M (A : Type) : Type := world -> outcome A.

#[export] Instance M_ret : MRet M := fun A a w => Ok a w.
#[export] Instance M_bind : MBind M := fun A B f m w =>
  match m w with
  | Ok a w => f a w
  | AssertFailed => AssertFailed
  | Fault => Fault
  end.

Definition fault {A} : M A := fun _ => Fault.
Definition assert (b : bool) : M unit := fun w => if b then Ok tt w else AssertFailed.
Definition get : M world := fun w => Ok w w.
Definition modify (f : world -> world) : M unit := fun w => Ok tt (f w).
Definition when (b : bool) (m : M unit) : M unit := if b then m else mret tt.

(** Runs [m] on each element in order. *)
Fixpoint for_each {A} (l : list A) (m : A -> M unit) : M unit :=
  match l with
  | [] => mret tt
  | x :: l => m x ;; for_each l m
  end.

(** Dereferencing a client or an instance. *)
Definition get_client (id : Z) : M redsocks_client := fun w =>
  match w_clients w !! id with Some c => Ok c w | None => Fault end.
Definition put_client (id : Z) (c : redsocks_client) : M unit := fun w =>
  match w_clients w !! id with
  | Some _ => Ok tt (w_set_clients (<[id := c]> (w_clients w)) w)
  | None => Fault
  end.
Definition mod_client (id : Z) (f : redsocks_client -> redsocks_client) : M unit :=
  c ← get_client id; put_client id (f c).
Definition free_client (id : Z) : M unit := fun w =>
  match w_clients w !! id with
  | Some _ => Ok tt (w_set_clients (delete id (w_clients w)) w)
  | None => Fault
  end.

Definition get_instance (n : nat) : M redsocks_instance := fun w =>
  match w_instances w !! n with Some i => Ok i w | None => Fault end.
Definition mod_instance (n : nat) (f : redsocks_instance -> redsocks_instance) : M unit := fun w =>
  match w_instances w !! n with
  | Some i => Ok tt (w_set_instances (<[n := f i]> (w_instances w)) w)
  | None => Fault
  end.

(** Dereferencing [client->client] or [client->relay]. *)
Definition get_buf (id : Z) (s : side) : M bufferevent :=
  c ← get_client id;
  match c_buf s c with Some b => mret b | None => fault end.
Definition mod_buf (id : Z) (s : side) (f : bufferevent -> bufferevent) : M unit :=
  b ← get_buf id s; mod_client id (c_set_buf s (Some (f b))).

(** The next result of a fallible call; calls succeed when none is prescribed. *)
Definition answer : M Z := fun w =>
  match w_answers w with
  | [] => Ok 0 w
  | a :: l => Ok a (w_set_answers l w)
  end.

(** [gettimeofday]; the clock moves by one microsecond when nothing is prescribed. *)
Definition gettimeofday : M Z := fun w =>
  let '(d, ts) := match w_ticks w with [] => (1, []) | d :: ts => (d, ts) end in
  let t := w_clock w + d in Ok t (w_set_clock t ts w).

(** [red_randui32] *)
Definition red_randui32 : M Z := fun w =>
  match w_random w with
  | [] => Ok 0 w
  | r :: rs => Ok (u32 r) (w_set_random rs w)
  end.

(** The lowest descriptor from [n] on that is not open. *)
Fixpoint lowest_from (fuel : nat) (o : gset Z) (n : Z) : Z :=
  match fuel with
  | O => n
  | S fuel => if bool_decide (n ∈ o) then lowest_from fuel o (n + 1) else n
  end.
Definition lowest_fd (o : gset Z) : Z := lowest_from (size o) o 0.

(** The kernel hands out the lowest descriptor that is not open. *)
Definition new_fd : M Z := fun w =>
  Ok (lowest_fd (w_open w)) (w_set_open ({[lowest_fd (w_open w)]} ∪ w_open w) w).

(** [socket] or [accept]: a descriptor, or the errno of the failure. *)
Definition open_fd : M (Z + Z) :=
  e ← answer;
  if e =? 0 then fd ← new_fd; mret (inl fd) else mret (inr e).

Definition trace (e : sysev) : M unit := modify (w_add_trace e).

(** [close(fd)]: whether it succeeds. *)
Definition close (fd : Z) : M bool := fun w =>
  if bool_decide (fd ∈ w_open w)
  then Ok true (w_add_trace (sys_close fd) (w_set_open (w_open w ∖ {[fd]}) w))
  else Ok false (w_add_trace (sys_ebadf fd) w).

(** ** Reasoning about runs *)

Lemma run_bind {A B} (m : M A) (f : A -> M B) a w w' :
  m w = Ok a w' -> (x ← m; f x) w = f a w'.
Proof. unfold mbind, M_bind. by intros ->. Qed.

Lemma get_client_run id c w : w_clients w !! id = Some c -> get_client id w = Ok c w.
Proof. unfold get_client. by intros ->. Qed.
Lemma mod_client_run id f c w :
  w_clients w !! id = Some c ->
  mod_client id f w = Ok tt (w_set_clients (<[id := f c]> (w_clients w)) w).
Proof.
  intros Hc. unfold mod_client. erewrite run_bind by by apply get_client_run.
  unfold put_client. by rewrite Hc.
Qed.
Lemma get_instance_run n i w : w_instances w !! n = Some i -> get_instance n w = Ok i w.
Proof. unfold get_instance. by intros ->. Qed.

(** [m] from [w] ends normally, and then [Q] holds. *)
Definition wp {A} (m : M A) (Q : A -> world -> Prop) (w : world) : Prop :=
  match m w with Ok a w => Q a w | _ => False end.

Lemma wp_ret {A} (a : A) Q w : Q a w -> wp (mret a) Q w.
Proof. done. Qed.

Lemma wp_bind {A B} (m : M A) (f : A -> M B) Q w :
  wp m (fun a => wp (f a) Q) w -> wp (x ← m; f x) Q w.
Proof. unfold wp, mbind, M_bind. destruct (m w); done. Qed.

Lemma wp_mono {A} (m : M A) (P Q : A -> world -> Prop) w :
  wp m P w -> (forall a w, P a w -> Q a w) -> wp m Q w.
Proof. unfold wp. destruct (m w); auto. Qed.

Lemma wp_and {A} (m : M A) (P Q : A -> world -> Prop) w :
  wp m P w -> wp m Q w -> wp m (fun a w => P a w /\ Q a w) w.
Proof. unfold wp. destruct (m w); auto. Qed.

Lemma wp_Ok {A} (m : M A) Q w a w' : m w = Ok a w' -> wp m Q w -> Q a w'.
Proof. unfold wp. by intros ->. Qed.

Lemma wp_run {A} (m : M A) Q w : wp m Q w <-> exists a w', m w = Ok a w' /\ Q a w'.
Proof.
  unfold wp. destruct (m w) as [a w'| |]; split; try done.
  - eauto.
  - intros (? & ? & ? & ?). by simplify_eq.
  - intros (? & ? & ? & ?). done.
  - intros (? & ? & ? & ?). done.
Qed.

Lemma wp_get Q w : Q w w -> wp get Q w.
Proof. done. Qed.
Lemma wp_modify f Q w : Q tt (f w) -> wp (modify f) Q w.
Proof. done. Qed.
Lemma wp_assert b Q w : b = true -> Q tt w -> wp (assert b) Q w.
Proof. intros ->. done. Qed.
Lemma wp_when b m Q w : (b = true -> wp m Q w) -> (b = false -> Q tt w) -> wp (when b m) Q w.
Proof. unfold when. intros H1 H2. destruct b; [auto|]. apply wp_ret. auto. Qed.

Lemma wp_get_client id c Q w :
  w_clients w !! id = Some c -> Q c w -> wp (get_client id) Q w.
Proof. unfold wp, get_client. by intros ->. Qed.

Lemma wp_put_client id c c' Q w :
  w_clients w !! id = Some c -> Q tt (w_set_clients (<[id := c']> (w_clients w)) w) ->
  wp (put_client id c') Q w.
Proof. unfold wp, put_client. by intros ->. Qed.

Lemma wp_mod_client id f c Q w :
  w_clients w !! id = Some c -> Q tt (w_set_clients (<[id := f c]> (w_clients w)) w) ->
  wp (mod_client id f) Q w.
Proof. intros Hc HQ. apply wp_bind, (wp_get_client _ c); [done|]. by apply (wp_put_client _ c). Qed.

Lemma wp_free_client id c Q w :
  w_clients w !! id = Some c -> Q tt (w_set_clients (delete id (w_clients w)) w) ->
  wp (free_client id) Q w.
Proof. unfold wp, free_client. by intros ->. Qed.

Lemma wp_get_instance n i Q w :
  w_instances w !! n = Some i -> Q i w -> wp (get_instance n) Q w.
Proof. unfold wp, get_instance. by intros ->. Qed.

Lemma wp_mod_instance n f i Q w :
  w_instances w !! n = Some i -> Q tt (w_set_instances (<[n := f i]> (w_instances w)) w) ->
  wp (mod_instance n f) Q w.
Proof. unfold wp, mod_instance. by intros ->. Qed.

Lemma wp_get_buf id s c b Q w :
  w_clients w !! id = Some c -> c_buf s c = Some b -> Q b w -> wp (get_buf id s) Q w.
Proof. intros Hc Hb HQ. apply wp_bind, (wp_get_client _ c); [done|]. by rewrite Hb. Qed.

Lemma wp_mod_buf id s f c b Q w :
  w_clients w !! id = Some c -> c_buf s c = Some b ->
  Q tt (w_set_clients (<[id := c_set_buf s (Some (f b)) c]> (w_clients w)) w) ->
  wp (mod_buf id s f) Q w.
Proof.
  intros Hc Hb HQ. apply wp_bind, (wp_get_buf _ _ c b); [done..|]. by apply (wp_mod_client _ _ c).
Qed.

Lemma wp_answer Q w : (forall e a, Q e (w_set_answers a w)) -> wp answer Q w.
Proof.
  intros H. unfold wp, answer. destruct (w_answers w) eqn:E; [|apply H].
  specialize (H 0 (w_answers w)). by destruct w.
Qed.

Lemma wp_gettimeofday Q w : (forall t ts, Q t (w_set_clock t ts w)) -> wp gettimeofday Q w.
Proof. intros H. unfold wp, gettimeofday. destruct (w_ticks w); apply H. Qed.

Lemma wp_red_randui32 Q w :
  (forall r rs, 0 <= r < 2 ^ 32 -> Q r (w_set_random rs w)) -> wp red_randui32 Q w.
Proof.
  intros H. unfold wp, red_randui32. destruct (w_random w) eqn:E.
  - specialize (H 0 (w_random w) ltac:(lia)). by destruct w.
  - apply H. unfold u32. apply Z.mod_pos_bound. lia.
Qed.

(** The lowest free descriptor is not open. *)
Lemma lowest_from_spec fuel o n :
  lowest_from fuel o n ∉ o \/
  (forall k, n <= k < n + Z.of_nat fuel -> k ∈ o) /\ lowest_from fuel o n = n + Z.of_nat fuel.
Proof.
  revert n. induction fuel as [|fuel IH]; intros n; cbn [lowest_from].
  - right. split; lia.
  - case_bool_decide as Hn; [|by left].
    destruct (IH (n + 1)) as [|[Hall ->]]; [by left|]. right. split; [|lia].
    intros k Hk. destruct (decide (k = n)) as [->|]; [done|]. apply Hall. lia.
Qed.

Lemma lowest_fd_fresh o : lowest_fd o ∉ o.
Proof.
  unfold lowest_fd. destruct (lowest_from_spec (size o) o 0) as [|[Hall ->]]; [done|].
  intros Hin.
  assert (Hsub : list_to_set (seqZ 0 (Z.of_nat (size o) + 1)) ⊆ o).
  { intros k. rewrite elem_of_list_to_set, elem_of_seqZ. intros Hk.
    destruct (decide (k = Z.of_nat (size o))) as [->|]; [done|]. apply Hall. lia. }
  apply subseteq_size in Hsub. rewrite size_list_to_set in Hsub by apply NoDup_seqZ.
  rewrite length_seqZ in Hsub. lia.
Qed.

Lemma lowest_from_ge fuel o n : n <= lowest_from fuel o n.
Proof.
  revert n. induction fuel as [|fuel IH]; intros n; cbn [lowest_from]; [lia|].
  case_bool_decide; [|lia]. specialize (IH (n + 1)). lia.
Qed.

Lemma lowest_fd_nonneg o : 0 <= lowest_fd o.
Proof. apply lowest_from_ge. Qed.

Lemma wp_open_fd Q w :
  (forall e a, Q (inr e) (w_set_answers a w)) ->
  (forall fd a, fd ∉ w_open w -> 0 <= fd ->
     Q (inl fd) (w_set_open ({[fd]} ∪ w_open w) (w_set_answers a w))) ->
  wp open_fd Q w.
Proof.
  intros Hno Hyes. apply wp_bind, wp_answer. intros e a. case_match; [|apply Hno].
  apply (Hyes (lowest_fd (w_open w)) a); [apply lowest_fd_fresh | apply lowest_fd_nonneg].
Qed.

Lemma wp_close fd Q w :
  fd ∈ w_open w -> Q true (w_add_trace (sys_close fd) (w_set_open (w_open w ∖ {[fd]}) w)) ->
  wp (close fd) Q w.
Proof. intros Hin HQ. unfold wp, close. by rewrite bool_decide_eq_true_2. Qed.
