(* ===== verification/Parser.v ===== *)
(** * The configuration file (parser.c)

    Tokens, typed values and the line-buffered loop of [parser_run], which grows its
    buffer until a token is complete and keeps what it could not use for the next
    line. The program's sections are an interface: callbacks on entering and leaving,
    keys with their types, and where a value goes. The theorems show that the loop
    computes what reading the whole text at once would, and that a printed
    configuration is read back.

    A C string in memory is the list of its bytes; [iter], a pointer into the buffer,
    is the pair of the bytes before and from it on. Failures of [malloc], [strdup]
    and [realloc] and read errors of the file are left out. *)

From S2P Require Import Prelude CLib World.
Open Scope Z_scope.

Module Parser.

(** ** Values *)

Inductive parser_type :=
| pt_bool | pt_pchar | pt_uint16 | pt_uint32 | pt_in_addr | pt_in_addr2
| pt_disclose_src | pt_on_proxy_fail | pt_obsolete | pt_redsocks_max_accept_backoff.

(** What a value parser writes to the address of its entry. [v_in_addr2] writes the
    network and the mask, each when it could be read. *)
Inductive value :=
| v_bool (b : bool)
| v_pchar (s : bytes)
| v_uint16 (z : Z)
| v_uint32 (z : Z)
| v_in_addr (a : bytes)
| v_in_addr2 (net mask : option bytes)
| v_disclose_src (d : disclose_src_e)
| v_on_proxy_fail (f : on_proxy_fail_e).

(** The first entry of a table with this name. *)
Fixpoint by_name {A} (name : bytes) (tbl : list (bytes * A)) : option A :=
  match tbl with
  | [] => None
  | (n, a) :: tbl => if strcmp_eq name n then Some a else by_name name tbl
  end.

(** The platform: the largest [unsigned long], and what [getaddrinfo] resolves a name to,
    at least one address when it succeeds. *)
Class Platform := {
  ULONG_MAX : Z;
  getaddrinfo : bytes -> option (bytes * list bytes) }.

Section values.
Context {P : Platform}.

(** A value parser: what it writes, and whether it returned 0. *)
Definition strtrue : list bytes := [lit "ok"; lit "on"; lit "yes"; lit "true"].
Definition strfalse : list bytes := [lit "off"; lit "no"; lit "false"].

Definition vp_pbool (token : bytes) : option value * bool :=
  if bool_decide (token ∈ strtrue) then (Some (v_bool true), true)
  else if bool_decide (token ∈ strfalse) then (Some (v_bool false), true)
  else (None, false).

Definition disclose_names : list (bytes * disclose_src_e) :=
  [(lit "off", DISCLOSE_NONE); (lit "no", DISCLOSE_NONE); (lit "false", DISCLOSE_NONE);
   (lit "X-Forwarded-For", DISCLOSE_X_FORWARDED_FOR); (lit "Forwarded_ip", DISCLOSE_FORWARDED_IP);
   (lit "Forwarded_ipport", DISCLOSE_FORWARDED_IPPORT)].

Definition vp_disclose_src (token : bytes) : option value * bool :=
  match by_name token disclose_names with
  | Some d => (Some (v_disclose_src d), true)
  | None => (None, false)
  end.

Definition on_proxy_fail_names : list (bytes * on_proxy_fail_e) :=
  [(lit "close", ONFAIL_CLOSE); (lit "forward_http_err", ONFAIL_FORWARD_HTTP_ERR)].

Definition vp_on_proxy_fail (token : bytes) : option value * bool :=
  match by_name token on_proxy_fail_names with
  | Some f => (Some (v_on_proxy_fail f), true)
  | None => (None, false)
  end.

Definition vp_pchar (token : bytes) : option value * bool := (Some (v_pchar token), true).

Definition vp_uint16 (token : bytes) : option value * bool :=
  let '(uli, end_) := strtoul ULONG_MAX token in
  if uli >? 0xFFFF then (None, false)
  else match end_ with [] => (Some (v_uint16 uli), true) | _ => (None, false) end.

(** The result of [strtoul] is cut to 32 bits without a check. *)
Definition vp_uint32 (token : bytes) : option value * bool :=
  let '(uli, end_) := strtoul ULONG_MAX token in
  match end_ with [] => (Some (v_uint32 (u32 uli)), true) | _ => (None, false) end.

(** [rnd] is the number [red_randui32] returns where the name has to be resolved. *)
Definition vp_in_addr (rnd : Z) (token : bytes) : option value * bool :=
  match inet_aton ULONG_MAX token with
  | Some ia => (Some (v_in_addr ia), true)
  | None =>
      match getaddrinfo token with
      | Some (a, more) => (Some (v_in_addr (nth (Z.to_nat (rnd mod zlen (a :: more))) (a :: more) a)), true)
      | None => (None, false)
      end
  end.

Definition vp_in_addr2 (token : bytes) : option value * bool :=
  let '(host, mask) := match strchr 47 token with
                       | Some (host, suf) => (host, Some (drop 1 suf))
                       | None => (token, None)
                       end in
  let net := inet_aton ULONG_MAX host in
  let '(pinmask, mask_ok) :=
    match mask with
    | None => (None, true)
    | Some mask =>
        let '(uli, end_) := strtoul ULONG_MAX mask in
        match end_ with
        | 46 :: _ => match inet_aton ULONG_MAX mask with Some m => (Some m, true) | None => (None, false) end
        | _ => if (0 <? uli) && (uli <? 32) then (Some (be_bytes 4 (u32 (Z.shiftl 0xffffffff (32 - uli)))), true)
               else (None, false)
        end
    end in
  (Some (v_in_addr2 net pinmask), match net with Some _ => mask_ok | None => false end).

Definition vp_obsolete (token : bytes) : option value * bool := (None, false).
Definition vp_redsocks_max_accept_backoff (token : bytes) : option value * bool := (None, false).

(** [value_parser_by_type], with the random number for the types that draw one. *)
Definition value_parser_by_type (ty : parser_type) (rnd : Z) (token : bytes) : option value * bool :=
  match ty with
  | pt_bool => vp_pbool token
  | pt_pchar => vp_pchar token
  | pt_uint16 => vp_uint16 token
  | pt_uint32 => vp_uint32 token
  | pt_in_addr => vp_in_addr rnd token
  | pt_in_addr2 => vp_in_addr2 token
  | pt_disclose_src => vp_disclose_src token
  | pt_on_proxy_fail => vp_on_proxy_fail token
  | pt_obsolete => vp_obsolete token
  | pt_redsocks_max_accept_backoff => vp_redsocks_max_accept_backoff token
  end.

End values.

(** ** Tokens *)

Definition unescape (c : Z) : Z :=
  match c with
  | 110 => 10      (* n *)
  | 116 => 9       (* t *)
  | 114 => 13      (* r *)
  | 92 => 92       (* backslash *)
  | 39 => 39       (* ' *)
  | 34 => 34       (* double quote *)
  | _ => 0
  end.

(** The first pass over a quoted string, from behind the quote: the length of its value. *)
Inductive counted := q_len (n : nat) | q_none | q_bad.

Definition q_succ (q : counted) : counted := match q with q_len n => q_len (S n) | q => q end.

Fixpoint count_quoted (p : bytes) : counted :=
  match p with
  | [] => q_none
  | c :: r =>
      if c =? 34 then q_len 0
      else if c =? 92 then
        match r with
        | [] => q_none
        | d :: r => if unescape d =? 0 then q_bad else q_succ (count_quoted r)
        end
      else q_succ (count_quoted r)
  end.

(** The second pass copies the value; [None] if it ran past the end. *)
Fixpoint copy_quoted (iter : bytes) : option (bytes * bytes) :=
  match iter with
  | [] => None
  | c :: r =>
      if c =? 34 then Some ([], r)
      else if c =? 92 then
        match r with
        | [] => None
        | d :: r => '(v, rest) ← copy_quoted r; Some (unescape d :: v, rest)
        end
      else '(v, rest) ← copy_quoted r; Some (c :: v, rest)
  end.

(** Integer, address or address with mask: the token and the rest. *)
Fixpoint scan_number (p : bytes) : option (bytes * bytes) :=
  match p with
  | [] => None
  | c :: r =>
      if isdigit c || (c =? 46) then '(t, rest) ← scan_number r; Some (c :: t, rest)
      else if c =? 47 then
        match r with
        | [] => None
        | d :: _ =>
            if isdigit d then '(t, rest) ← scan_number r; Some (c :: t, rest)
            else if (d =? 47) || (d =? 42) then Some ([], p)
            else None
        end
      else Some ([], p)
  end.

Definition name_char (c : Z) : bool := isalnum c || (c =? 95) || (c =? 46) || (c =? 45).

Fixpoint scan_name (p : bytes) : option (bytes * bytes) :=
  match p with
  | [] => None
  | c :: r => if name_char c then '(t, rest) ← scan_name r; Some (c :: t, rest) else Some ([], p)
  end.

(** What [gettoken] returns: a token with the string at [iter], or NULL with the string at
    [iter], without and with a call of [parser_error]. *)
Inductive got := gt_token (t rest : bytes) | gt_null (rest : bytes) | gt_error (rest : bytes).

Definition is_punct (c : Z) : bool := (c =? 123) || (c =? 125) || (c =? 61) || (c =? 59).

Definition gt_scanned (s : bytes) (r : option (bytes * bytes)) : got :=
  match r with Some (t, rest) => gt_token t rest | None => gt_null s end.

(** From the first character that is no space. *)
Definition token_at (s : bytes) : got :=
  match s with
  | [] => gt_null []
  | c :: r =>
      if c =? 34 then
        match count_quoted r with
        | q_none => gt_null s
        | q_bad => gt_error s
        | q_len _ => gt_scanned s (copy_quoted r)
        end
      else if isdigit c then gt_scanned s (scan_number s)
      else if isalpha c then gt_scanned s (scan_name s)
      else if is_punct c then gt_token [c] r
      else if (c =? 47) && bool_decide (head r = Some 47 \/ head r = Some 42) then gt_token (take 2 s) (drop 2 s)
      else gt_error s
  end.

Definition gettoken (iter : bytes) : got := token_at (skip isspace iter).

(** ** Sections *)

(** A section of the program whose state is [T]: its name, its callbacks ([true] when they
    return 0), its keys, and the effect of writing to the address of a key. *)
Record parser_section (T : Type) := mk_section {
  sec_name : bytes;
  sec_onenter : option (T -> T * bool);
  sec_onexit : option (T -> T * bool);
  sec_entries : list (bytes * parser_type);
  sec_store : bytes -> value -> T -> T }.
Arguments mk_section {T}. Arguments sec_name {T}. Arguments sec_onenter {T}. Arguments sec_onexit {T}.
Arguments sec_entries {T}. Arguments sec_store {T}.

(** The variables of [parser_run] that tokens change, with [context->error], the state of
    the program and the random numbers to come. *)
Record pstate (T : Type) := mk_pstate {
  p_error : bool;
  p_section : option (parser_section T);
  p_section_token : option bytes;
  p_key_token : option bytes;
  p_value_token : option bytes;
  p_in_comment : bool;
  p_app : T;
  p_random : list Z }.
Arguments mk_pstate {T}. Arguments p_error {T}. Arguments p_section {T}. Arguments p_section_token {T}.
Arguments p_key_token {T}. Arguments p_value_token {T}. Arguments p_in_comment {T}. Arguments p_app {T}.
Arguments p_random {T}.

Section run.
Context {P : Platform} {T : Type}.
Implicit Types (p : pstate T) (sections : list (parser_section T)).

Definition parser_error p : pstate T :=
  mk_pstate true (p_section p) (p_section_token p) (p_key_token p) (p_value_token p) (p_in_comment p) (p_app p) (p_random p).
Definition set_section sec p : pstate T :=
  mk_pstate (p_error p) sec (p_section_token p) (p_key_token p) (p_value_token p) (p_in_comment p) (p_app p) (p_random p).
Definition set_section_token t p : pstate T :=
  mk_pstate (p_error p) (p_section p) t (p_key_token p) (p_value_token p) (p_in_comment p) (p_app p) (p_random p).
Definition set_tokens k v p : pstate T :=
  mk_pstate (p_error p) (p_section p) (p_section_token p) k v (p_in_comment p) (p_app p) (p_random p).
Definition set_comment c p : pstate T :=
  mk_pstate (p_error p) (p_section p) (p_section_token p) (p_key_token p) (p_value_token p) c (p_app p) (p_random p).
Definition set_app s p : pstate T :=
  mk_pstate (p_error p) (p_section p) (p_section_token p) (p_key_token p) (p_value_token p) (p_in_comment p) s (p_random p).
Definition set_random r p : pstate T :=
  mk_pstate (p_error p) (p_section p) (p_section_token p) (p_key_token p) (p_value_token p) (p_in_comment p) (p_app p) r.

(** [parser_add_section]: new sections go to the front. *)
Definition parser_add_section sections (sec : parser_section T) : list (parser_section T) := sec :: sections.

Definition find_section sections (name : bytes) : option (parser_section T) :=
  by_name name ((fun sec => (sec_name sec, sec)) <$> sections).

(** A callback, and [parser_error] if it fails. *)
Definition call (f : option (T -> T * bool)) p : pstate T :=
  match f with
  | None => p
  | Some f => let '(s, ok) := f (p_app p) in if ok : bool then set_app s p else parser_error (set_app s p)
  end.

Definition draw (r : list Z) : Z * list Z := match r with [] => (0, []) | x :: r => (u32 x, r) end.

(** Does the value parser draw a random number? *)
Definition draws (ty : parser_type) (token : bytes) : bool :=
  match ty, inet_aton ULONG_MAX token, getaddrinfo token with
  | pt_in_addr, None, Some _ => true
  | _, _, _ => false
  end.

(** [key = value;] in section [sec]. *)
Definition assign (sec : parser_section T) (key v : bytes) p : pstate T :=
  match by_name key (sec_entries sec) with
  | None => parser_error p
  | Some ty =>
      let '(rnd, r) := if draws ty v then draw (p_random p) else (0, p_random p) in
      let p := set_random r p in
      let '(w, ok) := value_parser_by_type ty rnd v in
      let p := match w with Some w => set_app (sec_store sec key w (p_app p)) p | None => p end in
      if ok : bool then p else parser_error p
  end.

Definition on_open sections p : pstate T :=
  match p_section p, p_section_token p with
  | Some _, _ => parser_error p
  | None, None => parser_error p
  | None, Some name =>
      set_section_token None
        (match find_section sections name with
         | Some sec => call (sec_onenter sec) (set_section (Some sec) p)
         | None => parser_error p
         end)
  end.

Definition on_close p : pstate T :=
  match p_section p with
  | Some sec => set_section None (call (sec_onexit sec) p)
  | None => parser_error p
  end.

Definition on_assign p : pstate T :=
  match p_section p, p_key_token p with
  | None, _ => parser_error p
  | Some _, None => parser_error p
  | Some _, Some _ => p
  end.

(** [None]: [assert(false)]. *)
Definition on_semicolon p : option (pstate T) :=
  set_tokens None None <$>
  match p_section p, p_key_token p, p_value_token p with
  | None, _, _ => Some (parser_error p)
  | Some _, Some _, None => Some (parser_error p)
  | Some sec, Some key, Some v => Some (assign sec key v p)
  | Some _, None, _ => None
  end.

Definition on_word (t : bytes) p : pstate T :=
  match p_section p, p_section_token p, p_key_token p, p_value_token p with
  | None, None, _, _ => set_section_token (Some t) p
  | Some _, _, None, v => set_tokens (Some t) v p
  | Some _, _, Some k, None => set_tokens (Some k) (Some t) p
  | _, _, _, _ => parser_error p
  end.

(** A token other than the start of a comment. *)
Definition on_token sections (t : bytes) p : option (pstate T) :=
  if strcmp_eq t (lit "{") then Some (on_open sections p)
  else if strcmp_eq t (lit "}") then Some (on_close p)
  else if strcmp_eq t (lit "=") then Some (on_assign p)
  else if strcmp_eq t (lit ";") then on_semicolon p
  else Some (on_word t p).

(** ** The loop over the tokens of the buffer *)

(** How the loop ends: the buffer from [iter] on and whether [token] is NULL; or an
    assertion or a null pointer stopped the program. *)
Inductive scanned := sc_done (rest : bytes) (null : bool) (p : pstate T) | sc_abort | sc_fuel.

(** [pre] and [rest] are the buffer before [iter] and from it on. *)
Fixpoint scan_tokens sections (fuel : nat) (pre rest : bytes) (null : bool) p : scanned :=
  if p_error p || p_in_comment p then sc_done rest null p else
  match fuel with
  | O => sc_fuel
  | S fuel =>
      match gettoken rest with
      | gt_null rest => sc_done rest true p
      | gt_error rest => sc_done rest true (parser_error p)
      | gt_token t rest' =>
          let pre := pre ++ take (length rest - length rest') rest in
          if strcmp_eq t (lit "//") then
            match strchr 10 rest' with
            | None => sc_abort
            | Some (_, endc) => scan_tokens sections fuel (take (length pre - 2) pre) (drop 1 endc) false p
            end
          else if strcmp_eq t (lit "/*") then scan_tokens sections fuel [] rest' false (set_comment true p)
          else match on_token sections t p with
               | None => sc_abort
               | Some p => scan_tokens sections fuel pre rest' false p
               end
      end
  end.

(** ** Reading the file *)

(** The body of [fgets]: what was read, what is left, and whether the end was seen. *)
Fixpoint fgets_loop (n : nat) (file : bytes) : bytes * bytes * bool :=
  match n, file with
  | O, _ => ([], file, false)
  | S _, [] => ([], [], true)
  | S n, c :: file =>
      if c =? 10 then ([c], file, false)
      else let '(s, file, eof) := fgets_loop n file in (c :: s, file, eof)
  end.

(** [fgets] with room for [n] bytes; [None] at the end of the file. *)
Definition fgets (n : Z) (file : bytes) : option bytes * bytes * bool :=
  let '(s, file, eof) := fgets_loop (Z.to_nat (n - 1)) file in
  (match s with [] => if eof then None else Some [] | _ => Some s end, file, eof).

(** The buffer, the file behind it and the flags of the loop. *)
Record lstate := mk_lstate {
  l_line : Z;
  l_size : Z;
  l_data : bytes;       (* [buffer.data], [buffer.filled] is its length *)
  l_file : bytes;
  l_feof : bool;
  l_more_space : bool;
  l_more_data : bool }.

(** What one pass of the loop does: go on, or stop the program. *)
Inductive pass := goes_on (l : lstate) (p : pstate T) | aborts | no_fuel.

(** The tokens of [data], and what remains of it as the new buffer. *)
Definition scan_buffer sections (l : lstate) (data : bytes) p : pass :=
  match scan_tokens sections (S (length data)) [] data true p with
  | sc_done rest null p =>
      goes_on (mk_lstate (l_line l) (l_size l) rest (l_file l) (l_feof l) (l_more_space l)
                 (if null then true else l_more_data l)) p
  | sc_abort => aborts
  | sc_fuel => no_fuel
  end.

(** From [if (in_comment)] to the end of the body. *)
Definition process sections (l : lstate) p : pass :=
  if p_in_comment p then
    match strstr (lit "*/") (l_data l) with
    | Some endc => scan_buffer sections l (drop 2 endc) (set_comment false p)
    | None => goes_on (mk_lstate (l_line l) (l_size l) [] (l_file l) (l_feof l) (l_more_space l) true) p
    end
  else scan_buffer sections l (l_data l) p.

Definition body sections (l : lstate) p : pass :=
  if negb (zlen (l_data l) <? l_size l) then aborts else
  let size := if l_more_space l then l_size l * 2 else l_size l in
  if l_more_data l then
    match fgets (size - zlen (l_data l)) (l_file l) with
    | (None, file, eof) => goes_on (mk_lstate (l_line l) size (l_data l) file eof false true) p
    | (Some s, file, eof) =>
        let s := cstr s in
        let data := l_data l ++ s in
        if bool_decide (last s = Some 10) then
          process sections (mk_lstate (l_line l + 1) size data file eof false false) p
        else goes_on (mk_lstate (l_line l) size data file eof true true) p
    end
  else process sections (mk_lstate (l_line l) size (l_data l) (l_file l) (l_feof l) false false) p.

(** The end of [parser_run]: anything unfinished is an error. *)
Definition finish p : pstate T :=
  let p := match p_section p with Some _ => parser_error p | None => p end in
  let p := match p_section_token p with Some _ => parser_error p | None => p end in
  let p := match p_key_token p with Some _ => parser_error p | None => p end in
  match p_value_token p with Some _ => parser_error p | None => p end.

(** [Ran ok s]: [parser_run] returned 0 or -1 and left the program in [s]. *)
Inductive ran := Ran (ok : bool) (s : T) | Aborted | OutOfFuel.

Definition returned p : ran := let p := finish p in Ran (negb (p_error p)) (p_app p).

Fixpoint parser_loop sections (fuel : nat) (l : lstate) p : ran :=
  if p_error p || l_feof l then returned p else
  match fuel with
  | O => OutOfFuel
  | S fuel =>
      match body sections l p with
      | goes_on l p => parser_loop sections fuel l p
      | aborts => Aborted
      | no_fuel => OutOfFuel
      end
  end.

(** [parser_start] *)
Definition parser_start (file : bytes) : lstate := mk_lstate 0 128 [] file false false true.

Definition initial (s : T) (rnd : list Z) : pstate T := mk_pstate false None None None None false s rnd.

(** Enough passes for any file of this length. *)
Definition passes (file : bytes) : nat := 6 * length file + 2.

Definition parser_run sections (file : bytes) (s : T) (rnd : list Z) : ran :=
  parser_loop sections (passes file) (parser_start file) (initial s rnd).

(** ** Reading the whole text at once *)

(** The reference: no buffer, no lines. [None] where the program stops at an assertion. *)
Fixpoint read_text sections (fuel : nat) (txt : bytes) p : option (pstate T) :=
  match fuel with
  | O => Some p
  | S fuel =>
      if p_error p then Some p
      else if p_in_comment p then
        match strstr (lit "*/") txt with
        | Some e => read_text sections fuel (drop 2 e) (set_comment false p)
        | None => Some p
        end
      else match gettoken txt with
           | gt_null _ => Some p
           | gt_error _ => Some (parser_error p)
           | gt_token t rest =>
               if strcmp_eq t (lit "//") then
                 match strchr 10 rest with
                 | Some (_, e) => read_text sections fuel (drop 1 e) p
                 | None => None
                 end
               else if strcmp_eq t (lit "/*") then read_text sections fuel rest (set_comment true p)
               else p ← on_token sections t p; read_text sections fuel rest p
           end
  end.

(** Every step takes at least one byte. *)
Definition read_all sections (txt : bytes) p : option (pstate T) := read_text sections (S (length txt)) txt p.

(** The lines of the file that end in a newline. *)
Definition complete (file : bytes) : bytes := rtrim (fun c => negb (c =? 10)) file.

End run.

(** ** Tokens: what is consumed, and independence of what follows *)

(** Induction for functions that look one character ahead. *)
Lemma look_ahead_ind (Q : bytes -> Prop) :
  Q [] -> (forall c r, Q r -> (forall d r', r = d :: r' -> Q r') -> Q (c :: r)) -> forall l, Q l.
Proof.
  intros H0 HS l. assert (H : Q l /\ forall d r', l = d :: r' -> Q r'); [|apply H].
  induction l as [|c l [IH1 IH2]]; [by split|]. split; [auto|]. by intros ? ? [= <- <-].
Qed.

(** The second pass finds what the first one counted: the copy fits its allocation. *)
Lemma count_copy p n :
  count_quoted p = q_len n -> exists v k rest, copy_quoted p = Some (v, rest) /\ length v = n /\ p = k ++ 34 :: rest.
Proof.
  revert n. induction p as [|c r IH IH2] using look_ahead_ind; intros n; cbn [count_quoted copy_quoted]; [done|].
  destruct (Z.eqb_spec c 34) as [->|]; [intros [= <-]; by exists [], [], r|].
  destruct (Z.eqb_spec c 92) as [->|].
  - destruct r as [|d r']; [done|]. destruct (unescape d =? 0); [done|]. specialize (IH2 d r' eq_refl).
    destruct (count_quoted r') as [m| |] eqn:E; [|done..]. intros [= <-].
    destruct (IH2 m eq_refl) as (v & k & rest & -> & <- & ->). by exists (unescape d :: v), (92 :: d :: k), rest.
  - destruct (count_quoted r) as [m| |] eqn:E; [|done..]. intros [= <-].
    destruct (IH m eq_refl) as (v & k & rest & -> & <- & ->). by exists (c :: v), (c :: k), rest.
Qed.

Lemma count_app p F : count_quoted p <> q_none -> count_quoted (p ++ F) = count_quoted p.
Proof.
  induction p as [|c r IH IH2] using look_ahead_ind; cbn [count_quoted app]; [done|].
  destruct (c =? 34); [done|]. destruct (c =? 92).
  - destruct r as [|d r']; [done|]. cbn [app]. destruct (unescape d =? 0); [done|]. specialize (IH2 d r' eq_refl).
    intros H. rewrite IH2; [done|]. intros E. by rewrite E in H.
  - intros H. rewrite IH; [done|]. intros E. by rewrite E in H.
Qed.

Lemma copy_app p F v rest : copy_quoted p = Some (v, rest) -> copy_quoted (p ++ F) = Some (v, rest ++ F).
Proof.
  revert v. induction p as [|c r IH IH2] using look_ahead_ind; cbn [copy_quoted app]; intros v; [done|].
  destruct (c =? 34); [by intros [= <- <-]|]. destruct (c =? 92).
  - destruct r as [|d r']; [done|]. cbn [app]. specialize (IH2 d r' eq_refl).
    destruct (copy_quoted r') as [[v' rest']|] eqn:E; [|done]. cbn. intros [= <- ->]. by rewrite (IH2 v').
  - destruct (copy_quoted r) as [[v' rest']|] eqn:E; [|done]. cbn. intros [= <- ->]. by rewrite (IH v').
Qed.

(** A scanned token is a prefix, followed by a character that is not part of it. *)
Lemma number_spec p t rest :
  scan_number p = Some (t, rest) -> p = t ++ rest /\ Forall (.≠ 10) t /\ rest <> [].
Proof.
  revert t. induction p as [|c r IH]; cbn [scan_number]; intros t; [done|].
  assert (Hrec : c <> 10 -> ('(t, rest) ← scan_number r; Some (c :: t, rest)) = Some (t, rest) ->
    c :: r = t ++ rest /\ Forall (.≠ 10) t /\ rest <> []).
  { intros Hc. destruct (scan_number r) as [[t' rest']|] eqn:E; [|done]. cbn. intros [= <- ->].
    destruct (IH t' eq_refl) as (-> & ? & ?). split_and!; [done|by constructor|done]. }
  destruct (isdigit c || (c =? 46)) eqn:E1; [apply Hrec; intros ->; done|].
  destruct (Z.eqb_spec c 47) as [->|]; [|by intros [= <- <-]].
  destruct r as [|d r']; [done|]. destruct (isdigit d); [by apply Hrec|]. destruct ((d =? 47) || (d =? 42)); [|done].
  by intros [= <- <-].
Qed.

Lemma number_app p F t rest : scan_number p = Some (t, rest) -> scan_number (p ++ F) = Some (t, rest ++ F).
Proof.
  revert t. induction p as [|c r IH]; cbn [scan_number app]; intros t; [done|].
  assert (Hrec : ('(t, rest) ← scan_number r; Some (c :: t, rest)) = Some (t, rest) ->
    ('(t, rest) ← scan_number (r ++ F); Some (c :: t, rest)) = Some (t, rest ++ F)).
  { destruct (scan_number r) as [[t' rest']|] eqn:E; [|done]. cbn. intros [= <- ->]. by rewrite (IH t'). }
  destruct (isdigit c || (c =? 46)); [done|]. destruct (c =? 47); [|by intros [= <- <-]].
  destruct r as [|d r']; [done|]. cbn [app]. destruct (isdigit d); [done|]. destruct ((d =? 47) || (d =? 42)); [|done].
  by intros [= <- <-].
Qed.

Lemma name_spec p t rest : scan_name p = Some (t, rest) -> p = t ++ rest /\ Forall (.≠ 10) t /\ rest <> [].
Proof.
  revert t. induction p as [|c r IH]; cbn [scan_name]; intros t; [done|].
  destruct (name_char c) eqn:Ec; [|by intros [= <- <-]].
  destruct (scan_name r) as [[t' rest']|] eqn:E; [|done]. cbn. intros [= <- ->].
  destruct (IH t' eq_refl) as (-> & ? & ?). split_and!; [done|constructor; [by intros ->|done]|done].
Qed.

Lemma name_app p F t rest : scan_name p = Some (t, rest) -> scan_name (p ++ F) = Some (t, rest ++ F).
Proof.
  revert t. induction p as [|c r IH]; cbn [scan_name app]; intros t; [done|].
  destruct (name_char c); [|by intros [= <- <-]].
  destruct (scan_name r) as [[t' rest']|] eqn:E; [|done]. cbn. intros [= <- ->]. by rewrite (IH t').
Qed.

(** The text of a token ends in something else than a newline, and what follows the text
    does not change the token. *)
Lemma scanned_spec (q : bytes -> option (bytes * bytes)) s t rest :
  (forall t rest, q s = Some (t, rest) -> s = t ++ rest /\ Forall (.≠ 10) t /\ rest <> []) ->
  (forall F t rest, q s = Some (t, rest) -> q (s ++ F) = Some (t, rest ++ F)) ->
  (forall t rest, q s = Some (t, rest) -> t <> []) ->
  gt_scanned s (q s) = gt_token t rest ->
  (exists k x, s = k ++ x :: rest /\ x <> 10) /\
  forall F, gt_scanned (s ++ F) (q (s ++ F)) = gt_token t (rest ++ F).
Proof.
  intros Hq HF Hne. destruct (q s) as [[t' rest']|]; [|done]. cbn. intros [= -> ->].
  destruct (Hq _ _ eq_refl) as (E & Hf & _). destruct (exists_last (Hne _ _ eq_refl)) as (t0 & x & ->).
  apply Forall_app in Hf as [_ Hf]. inversion Hf; subst. split; [|intros F; by rewrite (HF _ _ _ eq_refl)].
  exists t0, x. by rewrite <-app_assoc.
Qed.

Lemma token_at_spec s t rest :
  token_at s = gt_token t rest ->
  (exists k x, s = k ++ x :: rest /\ x <> 10) /\ forall F, token_at (s ++ F) = gt_token t (rest ++ F).
Proof.
  destruct s as [|c r]; [done|]. cbn [token_at app]. destruct (Z.eqb_spec c 34) as [->|Hq].
  { destruct (count_quoted r) as [n| |] eqn:Ec; [|done..].
    destruct (count_copy r n Ec) as (v & k' & rest' & Hc & _ & E). rewrite Hc. cbn. intros [= -> ->]. split.
    - exists (34 :: k'), 34. by rewrite E.
    - intros F. rewrite count_app, Ec by by rewrite Ec. by rewrite (copy_app _ F _ _ Hc). }
  destruct (isdigit c) eqn:Ed.
  { apply (scanned_spec scan_number (c :: r)); [apply number_spec|apply number_app|].
    intros t' rest'. cbn [scan_number]. rewrite Ed. cbn [orb]. destruct (scan_number r) as [[? ?]|]; [|done]. by intros [= <- _]. }
  destruct (isalpha c) eqn:Ea.
  { apply (scanned_spec scan_name (c :: r)); [apply name_spec|apply name_app|].
    intros t' rest'. cbn [scan_name]. unfold name_char, isalnum. rewrite Ea. cbn [orb].
    destruct (scan_name r) as [[? ?]|]; [|done]. by intros [= <- _]. }
  destruct (is_punct c) eqn:Ep.
  { intros [= <- <-]. split; [|done]. exists [], c. split; [done|]. by intros ->. }
  destruct (Z.eqb_spec c 47) as [->|]; [|done]. cbn [andb]. destruct r as [|d r]; [case_bool_decide; naive_solver|].
  cbn [head app]. case_bool_decide as Hd; [|done]. cbn [take drop]. intros [= <- <-]. split; [|done].
  exists [47], d. split; [done|]. destruct Hd as [[= ->]|[= ->]]; done.
Qed.

Lemma token_at_skip s F c r : skip isspace s = c :: r -> gettoken (s ++ F) = token_at ((c :: r) ++ F).
Proof. intros H. unfold gettoken. by rewrite (skip_app _ _ _ _ _ H). Qed.

Lemma token_spec s t rest :
  gettoken s = gt_token t rest ->
  (exists k x, s = k ++ x :: rest /\ x <> 10) /\ forall F, gettoken (s ++ F) = gt_token t (rest ++ F).
Proof.
  intros H. destruct (skip_suffix isspace s) as [k Hk]. destruct (skip isspace s) as [|c r] eqn:Es.
  { unfold gettoken in H. by rewrite Es in H. }
  unfold gettoken in H. rewrite Es in H. destruct (token_at_spec _ _ _ H) as [(k' & x & E & Hx) HF]. split.
  - exists (k ++ k'), x. by rewrite <-app_assoc, <-E.
  - intros F. rewrite (token_at_skip _ _ _ _ Es). apply HF.
Qed.

(** Text that is empty or ends in a newline. *)
Definition ends_nl (s : bytes) : Prop := s = [] \/ last s = Some 10.

Lemma last_app_cons {A} (k : list A) x s : last (k ++ x :: s) = last (x :: s).
Proof. rewrite last_app. destruct (last (x :: s)) eqn:E; [done|]. by apply last_None in E. Qed.

Lemma ends_nl_suffix k x s : ends_nl (k ++ x :: s) -> x <> 10 -> ends_nl s /\ s <> [].
Proof.
  intros [H|H] Hx; [by destruct k|]. rewrite last_app_cons in H.
  destruct s as [|y s]; [cbn in H; congruence|]. split; [|done]. by right.
Qed.

Lemma token_at_null s rest : token_at s = gt_null rest -> rest = s.
Proof.
  destruct s as [|c r]; cbn [token_at]; [congruence|]. unfold gt_scanned. intros H. repeat case_match; congruence.
Qed.

Lemma null_spec s rest : gettoken s = gt_null rest ->
  rest = skip isspace s /\ gettoken rest = gt_null rest /\ forall F, gettoken (s ++ F) = gettoken (rest ++ F).
Proof.
  intros H. pose proof (token_at_null _ _ H) as ->. split_and!; [done| |].
  - unfold gettoken in *. pose proof (skip_skip_app isspace s []) as E. rewrite !app_nil_r in E. by rewrite E.
  - intros F. unfold gettoken. by rewrite skip_skip_app.
Qed.

(** Where the text ends in a newline an error stays an error, whatever follows. *)
Lemma error_spec s rest F : ends_nl s -> gettoken s = gt_error rest -> exists rest', gettoken (s ++ F) = gt_error rest'.
Proof.
  intros Hnl H. destruct (skip_suffix isspace s) as [k Hk]. unfold gettoken in H.
  destruct (skip isspace s) as [|c r] eqn:Es; [done|]. rewrite (token_at_skip _ _ _ _ Es). cbn [token_at app] in *.
  destruct (c =? 34) eqn:Eq.
  { destruct (count_quoted r) as [n| |] eqn:Ec; [|done|rewrite count_app, Ec by (by rewrite Ec); eauto].
    unfold gt_scanned in H. by repeat case_match. }
  destruct (isdigit c); [unfold gt_scanned in H; by repeat case_match|].
  destruct (isalpha c); [unfold gt_scanned in H; by repeat case_match|].
  destruct (is_punct c); [done|]. destruct (Z.eqb_spec c 47) as [->|]; [|cbn [andb]; eauto]. cbn [andb] in *.
  rewrite Hk in Hnl. destruct (ends_nl_suffix _ _ _ Hnl ltac:(done)) as [_ Hr]. destruct r as [|d r]; [done|].
  cbn [head app] in *. case_bool_decide; [done|eauto].
Qed.

(** ** Comments *)

Definition end_comment : bytes := lit "*/".

Lemma strstr_end c l :
  strstr end_comment (c :: l) = if (c =? 42) && bool_decide (head l = Some 47) then Some (c :: l) else strstr end_comment l.
Proof.
  cbn [strstr]. change end_comment with [42; 47]. destruct (Z.eqb_spec c 42) as [->|Hc]; cbn [andb].
  - destruct l as [|d l]; cbn [head].
    + rewrite (bool_decide_eq_false_2 ([42; 47] `prefix_of` [42])), bool_decide_eq_false_2; [done|done|].
      by intros [k ?].
    + case_bool_decide as H1.
      * destruct H1 as [k [= -> ->]]. by rewrite bool_decide_eq_true_2.
      * rewrite bool_decide_eq_false_2; [done|]. intros [= ->]. destruct H1. by exists l.
  - rewrite bool_decide_eq_false_2; [done|]. by intros [k [= ? ?]].
Qed.

Lemma strstr_app b e F : strstr end_comment b = Some e ->
  strstr end_comment (b ++ F) = Some (e ++ F) /\ exists k r, b = k ++ 42 :: 47 :: r /\ e = 42 :: 47 :: r.
Proof.
  induction b as [|c b IH]; [done|]. cbn [app]. rewrite !strstr_end.
  destruct b as [|d b]; [rewrite bool_decide_eq_false_2 by done; by rewrite andb_false_r|]. cbn [app head] in *.
  destruct ((c =? 42) && bool_decide (Some d = Some 47)) eqn:E.
  - intros [= <-]. apply andb_true_iff in E as [->%Z.eqb_eq E]. apply bool_decide_eq_true in E as [= ->].
    split; [done|]. by exists [], b.
  - intros H. destruct (IH H) as (-> & k & r & -> & ->). split; [done|]. by exists (c :: k), r.
Qed.

Lemma strstr_none b F : ends_nl b -> strstr end_comment b = None -> strstr end_comment (b ++ F) = strstr end_comment F.
Proof.
  induction b as [|c b IH]; [done|]. cbn [app]. rewrite !strstr_end. intros Hnl. destruct b as [|d b].
  - destruct Hnl as [?|[= ->]]; [done|]. done.
  - cbn [app head] in *. destruct ((c =? 42) && bool_decide (Some d = Some 47)); [done|]. apply IH. right. by destruct Hnl.
Qed.

(** ** The reference, step by step *)

Section reading.
Context {P : Platform} {T : Type}.
Context (sections : list (parser_section T)).
Implicit Types p : pstate T.

Lemma drop_shorter {A} n (l : list A) : (0 < n)%nat -> l <> [] -> (length (drop n l) < length l)%nat.
Proof. rewrite length_drop. destruct l; cbn; [done|lia]. Qed.

Lemma token_shorter s t rest : gettoken s = gt_token t rest -> (length rest < length s)%nat.
Proof. intros H. destruct (token_spec _ _ _ H) as [(k & x & -> & _) _]. rewrite length_app. cbn. lia. Qed.

Lemma strchr_shorter c l pre suf : strchr c l = Some (pre, suf) -> (length suf <= length l)%nat.
Proof. intros H. apply strchr_spec in H as (-> & _). rewrite length_app. lia. Qed.

Lemma comment_shorter txt e : strstr end_comment txt = Some e -> (length (drop 2 e) < length txt)%nat.
Proof. intros H. destruct (strstr_app _ _ [] H) as (_ & k & r & -> & ->). rewrite length_app, length_drop. cbn. lia. Qed.

Lemma read_enough n m txt p :
  (length txt < n)%nat -> (length txt < m)%nat -> read_text sections n txt p = read_text sections m txt p.
Proof.
  revert m txt p. induction n as [|n IH]; [lia|]. intros [|m] txt p Hn Hm; [lia|]. cbn [read_text].
  destruct (p_error p); [done|]. destruct (p_in_comment p).
  - change (lit "*/") with end_comment. destruct (strstr end_comment txt) as [e|] eqn:E; [|done].
    pose proof (comment_shorter _ _ E). apply IH; lia.
  - destruct (gettoken txt) as [t rest|rest|rest] eqn:E; [|done..]. pose proof (token_shorter _ _ _ E).
    destruct (strcmp_eq t (lit "//")).
    + destruct (strchr 10 rest) as [[pre suf]|] eqn:E2; [|done]. pose proof (strchr_shorter _ _ _ _ E2).
      apply IH; rewrite length_drop; lia.
    + destruct (strcmp_eq t (lit "/*")); [apply IH; lia|]. destruct (on_token sections t p); [|done]. cbn. apply IH; lia.
Qed.

Lemma read_unfold txt p :
  read_all sections txt p =
    if p_error p then Some p
    else if p_in_comment p then
      match strstr end_comment txt with
      | Some e => read_all sections (drop 2 e) (set_comment false p)
      | None => Some p
      end
    else match gettoken txt with
         | gt_null _ => Some p
         | gt_error _ => Some (parser_error p)
         | gt_token t rest =>
             if strcmp_eq t (lit "//") then
               match strchr 10 rest with
               | Some (_, e) => read_all sections (drop 1 e) p
               | None => None
               end
             else if strcmp_eq t (lit "/*") then read_all sections rest (set_comment true p)
             else p ← on_token sections t p; read_all sections rest p
         end.
Proof.
  unfold read_all at 1. cbn [read_text]. destruct (p_error p); [done|]. destruct (p_in_comment p).
  - change (lit "*/") with end_comment. destruct (strstr end_comment txt) as [e|] eqn:E; [|done].
    pose proof (comment_shorter _ _ E). apply read_enough; lia.
  - destruct (gettoken txt) as [t rest|rest|rest] eqn:E; [|done..]. pose proof (token_shorter _ _ _ E).
    destruct (strcmp_eq t (lit "//")).
    + destruct (strchr 10 rest) as [[pre suf]|] eqn:E2; [|done]. pose proof (strchr_shorter _ _ _ _ E2).
      apply read_enough; rewrite ?length_drop; lia.
    + destruct (strcmp_eq t (lit "/*")); [apply read_enough; lia|]. destruct (on_token sections t p); [|done].
      cbn [mbind option_bind]. apply read_enough; lia.
Qed.

(** ** The token loop computes the reference on the buffer *)

(** [scan_tokens] ended with [rest] unread: the reference agrees, whatever follows. *)
Definition scan_ok (rest : bytes) (null : bool) p (r : scanned) : Prop :=
  match r with
  | sc_done rest' null' p' =>
      ends_nl rest' /\ (length rest' <= length rest)%nat /\
      (null' = false -> null = false \/ (length rest' < length rest)%nat) /\
      (null' = true -> p_error p || p_in_comment p = true /\ null = true \/ read_all sections rest' p' = Some p') /\
      forall F, read_all sections (rest ++ F) p = read_all sections (rest' ++ F) p'
  | sc_abort => forall F, read_all sections (rest ++ F) p = None
  | sc_fuel => False
  end.

(** One token further. *)
Lemma scan_ok_step rest rest1 p p1 null r :
  (length rest1 < length rest)%nat ->
  (forall F, read_all sections (rest ++ F) p = read_all sections (rest1 ++ F) p1) ->
  scan_ok rest1 false p1 r -> scan_ok rest null p r.
Proof.
  intros Hlen HF. destruct r as [rest' null' p'| |]; unfold scan_ok; [|intros H F; by rewrite HF|done].
  intros (H1 & H2 & H3 & H4 & H5). split_and!; [done|lia|intros _; right; lia| |intros F; by rewrite HF].
  intros Hn. right. by destruct (H4 Hn) as [(_ & ?)|?].
Qed.

Lemma strchr_nl rest : ends_nl rest -> rest <> [] ->
  exists pre suf, strchr 10 rest = Some (pre, 10 :: suf) /\ ends_nl suf /\ (length suf < length rest)%nat /\
    forall F, strchr 10 (rest ++ F) = Some (pre, 10 :: suf ++ F).
Proof.
  intros [?|Hl] Hne; [done|]. destruct (strchr 10 rest) as [[pre suf]|] eqn:E.
  - apply strchr_spec in E as (-> & Hsuf & Hpre). destruct suf as [|x suf]; [done|]. injection Hsuf as ->.
    exists pre, suf. split_and!; [done| |rewrite length_app; cbn; lia|].
    + rewrite last_app_cons in Hl. destruct suf; [by left|by right].
    + intros F. rewrite <-app_assoc. by apply strchr_app.
  - apply strchr_None in E. apply last_Some in Hl as [l ->]. destruct E. apply elem_of_app. right. by left.
Qed.

Lemma skip_nl rest : ends_nl rest -> ends_nl (skip isspace rest).
Proof.
  destruct (skip_suffix isspace rest) as [k Hk]. intros Hnl. rewrite Hk in Hnl.
  destruct (skip isspace rest) as [|c r]; [by left|]. right. destruct Hnl as [Hnl|Hnl]; [by destruct k|].
  by rewrite last_app_cons in Hnl.
Qed.

Lemma error_rest s rest : gettoken s = gt_error rest -> rest = skip isspace s.
Proof.
  unfold gettoken. destruct (skip isspace s) as [|c r]; [done|]. cbn [token_at]. unfold gt_scanned.
  intros H. repeat case_match; congruence.
Qed.

Lemma scan_correct fuel pre rest null p :
  ends_nl rest -> (length rest < fuel)%nat -> scan_ok rest null p (scan_tokens sections fuel pre rest null p).
Proof.
  revert pre rest null p. induction fuel as [|fuel IH]; [lia|]. intros pre rest null p Hnl Hf. cbn [scan_tokens].
  destruct (p_error p || p_in_comment p) eqn:Estop.
  { unfold scan_ok. split_and!; [done|done|auto|auto|done]. }
  apply orb_false_iff in Estop as [He Hc].
  destruct (gettoken rest) as [t rest1|rest1|rest1] eqn:Et.
  - pose proof (token_shorter _ _ _ Et) as Hlen. destruct (token_spec _ _ _ Et) as [(k & x & Hk & Hx) HF].
    rewrite Hk in Hnl. destruct (ends_nl_suffix _ _ _ Hnl Hx) as [Hnl1 Hne].
    destruct (strcmp_eq t (lit "//")) eqn:E1.
    { destruct (strchr_nl rest1 Hnl1 Hne) as (pre' & suf & -> & Hnl2 & Hlen2 & HF2).
      change (drop 1 (10 :: suf)) with suf.
      eapply scan_ok_step; [|intros F|apply IH; [done|lia]]; [lia|].
      rewrite read_unfold, He, Hc, HF, E1, HF2. done. }
    destruct (strcmp_eq t (lit "/*")) eqn:E2.
    { eapply scan_ok_step; [|intros F|apply IH; [done|lia]]; [lia|]. by rewrite read_unfold, He, Hc, HF, E1, E2. }
    destruct (on_token sections t p) as [p1|] eqn:E3.
    + eapply scan_ok_step; [|intros F|apply IH; [done|lia]]; [lia|]. by rewrite read_unfold, He, Hc, HF, E1, E2, E3.
    + intros F. by rewrite read_unfold, He, Hc, HF, E1, E2, E3.
  - destruct (null_spec _ _ Et) as (E & Hnull & HF). unfold scan_ok. split_and!.
    + rewrite E. by apply skip_nl.
    + rewrite E. apply length_skip.
    + done.
    + intros _. right. by rewrite read_unfold, He, Hc, Hnull.
    + intros F. by rewrite (read_unfold (rest ++ F)), (read_unfold (rest1 ++ F)), He, Hc, HF.
  - pose proof (error_rest _ _ Et) as Hrest.
    unfold scan_ok. split_and!.
    + rewrite Hrest. by apply skip_nl.
    + rewrite Hrest. apply length_skip.
    + done.
    + intros _. right. by rewrite read_unfold.
    + intros F. destruct (error_spec rest rest1 F Hnl Et) as [r' E]. rewrite (read_unfold (rest ++ F)), He, Hc, E.
      by rewrite read_unfold.
Qed.

(** ** The loop over the lines *)

Lemma complete_nl b f : ends_nl b -> complete (b ++ f) = b ++ complete f.
Proof.
  unfold complete, rtrim. rewrite rev_app_distr. intros [->|H].
  - by rewrite !app_nil_r.
  - apply last_Some in H as [l ->]. rewrite rev_app_distr. cbn [rev app].
    set (g := fun c => negb (c =? 10)). destruct (skip g (rev f)) as [|c r] eqn:E.
    + rewrite <-skip_skip_app, E. cbn [app]. rewrite skip_stop by done. cbn [rev]. by rewrite rev_involutive, app_nil_r.
    + rewrite (skip_app _ _ _ _ _ E). change (c :: r ++ 10 :: rev l) with ((c :: r) ++ 10 :: rev l).
      rewrite rev_app_distr. cbn [rev]. by rewrite rev_involutive.
Qed.

Lemma complete_id b : ends_nl b -> complete b = b.
Proof. intros H. rewrite <-(app_nil_r b) at 1. rewrite complete_nl by done. apply app_nil_r. Qed.

Lemma complete_none b s : 10 ∉ s -> complete (b ++ s) = complete b.
Proof.
  intros H. unfold complete, rtrim. rewrite rev_app_distr. set (g := fun c => negb (c =? 10)).
  assert (E : skip g (rev s) = []).
  { assert (Hr : Forall (fun c => g c = true) (rev s)).
    { apply Forall_rev, Forall_forall. intros x Hx. unfold g. apply negb_true_iff, Z.eqb_neq. by intros ->. }
    induction Hr as [|x l Hx _ IH]; [done|]. by rewrite skip_cons, Hx. }
  by rewrite <-skip_skip_app, E.
Qed.

Lemma fgets_loop_spec n file s f' eof :
  fgets_loop n file = (s, f', eof) ->
  file = s ++ f' /\ (length s <= n)%nat /\ (eof = true -> f' = []) /\
  (last s = Some 10 /\ eof = false \/ (10 ∉ s) /\ (eof = true \/ length s = n)).
Proof.
  revert file s. induction n as [|n IH]; intros file s; cbn [fgets_loop].
  { intros [= <- <- <-]. split_and!; [done|done|done|]. right. split; [apply not_elem_of_nil|by right]. }
  destruct file as [|c file]. { intros [= <- <- <-]. split_and!; [done|cbn; lia|done|]. right. split; [apply not_elem_of_nil|by left]. }
  destruct (Z.eqb_spec c 10) as [->|Hc]. { intros [= <- <- <-]. split_and!; [done|cbn; lia|done|by left]. }
  destruct (fgets_loop n file) as [[s' f''] eof'] eqn:E. intros [= <- <- <-].
  destruct (IH _ _ E) as (-> & Hn & He & Hl). split_and!; [done|cbn; lia|done|].
  destruct Hl as [[Hl ?]|[Hl Hd]].
  - left. split; [|done]. by rewrite last_cons, Hl.
  - right. split; [by apply not_elem_of_cons|]. cbn [length]. destruct Hd; [by left|right; lia].
Qed.

(** At the head of the loop: the buffer has room, what waits in it ends a line or is the
    start of one, and the reference can do nothing with the complete lines that wait. *)
Record loop_inv (l : lstate) p : Prop := {
  li_room : zlen (l_data l) < l_size l;
  li_cstr : is_cstr (l_file l);
  li_full : l_more_data l = false -> ends_nl (l_data l) /\ l_more_space l = false;
  li_wait : l_more_data l = true -> read_all sections (complete (l_data l)) p = Some p;
  li_eof : l_feof l = true -> l_file l = [] /\ l_more_data l = true }.

(** What is left to read, and a bound on the passes it takes. *)
Definition left_text (l : lstate) : bytes := complete (l_data l ++ l_file l).
Definition work (l : lstate) : nat :=
  6 * length (l_file l) + 2 * length (l_data l) + (if l_more_space l then 0 else 1) + (if l_more_data l then 0 else 1).

Definition pass_ok (txt : bytes) p (bound : nat) (r : pass) : Prop :=
  match r with
  | goes_on l' p' =>
      loop_inv l' p' /\ (l_feof l' = true \/ (work l' < bound)%nat) /\
      read_all sections txt p = read_all sections (left_text l') p'
  | aborts => read_all sections txt p = None
  | no_fuel => False
  end.

(** A buffer of complete lines is scanned. *)
Lemma scan_pass l data p p1 bound :
  ends_nl data -> zlen data < l_size l -> is_cstr (l_file l) -> l_feof l = false -> l_more_space l = false ->
  l_more_data l = false -> p_error p1 = false -> p_in_comment p1 = false ->
  (6 * length (l_file l) + 2 * length data + 1 < bound)%nat ->
  read_all sections (left_text l) p = read_all sections (data ++ complete (l_file l)) p1 ->
  pass_ok (left_text l) p bound (scan_buffer sections l data p1).
Proof.
  intros Hnl Hsz Hcs Heof Hms Hmd Hpe Hpc Hb Hl. unfold scan_buffer.
  pose proof (scan_correct (S (length data)) [] data true p1 Hnl ltac:(lia)) as H.
  destruct (scan_tokens sections (S (length data)) [] data true p1) as [rest null p'| |]; unfold scan_ok in H; [|unfold pass_ok; by rewrite Hl|done].
  destruct H as (H1 & H2 & H3 & H4 & H5). unfold pass_ok. split_and!.
  - split; cbn [l_data l_size l_file l_more_data l_more_space l_feof]; [unfold zlen in *; lia|done| | |congruence].
    + by destruct null.
    + intros Hn. rewrite complete_id by done. destruct null; [|congruence].
      destruct (H4 eq_refl) as [[E _]|?]; [|done]. by rewrite Hpe, Hpc in E.
  - right. unfold work. cbn [l_file l_data l_more_space l_more_data]. rewrite Hms, Hmd.
    destruct null; [lia|]. destruct (H3 eq_refl); [done|lia].
  - rewrite Hl, H5. unfold left_text. cbn [l_data l_file]. by rewrite complete_nl.
Qed.

Lemma process_ok l p :
  ends_nl (l_data l) -> zlen (l_data l) < l_size l -> is_cstr (l_file l) -> l_feof l = false -> l_more_space l = false ->
  l_more_data l = false -> p_error p = false -> pass_ok (left_text l) p (work l) (process sections l p).
Proof.
  intros Hnl Hsz Hcs Heof Hms Hmd Hpe. unfold process, work. rewrite Hms, Hmd.
  assert (Hl : left_text l = l_data l ++ complete (l_file l)) by by apply complete_nl.
  destruct (p_in_comment p) eqn:Hpc; [|apply scan_pass; try done; [lia|by rewrite Hl]].
  change (lit "*/") with end_comment. destruct (strstr end_comment (l_data l)) as [e|] eqn:E.
  - pose proof (comment_shorter _ _ E) as Hlen. destruct (strstr_app _ _ (complete (l_file l)) E) as (E2 & k & r & Hd & ->).
    change (drop 2 (42 :: 47 :: r)) with r in *. rewrite Hd in Hnl.
    replace (k ++ 42 :: 47 :: r) with ((k ++ [42]) ++ 47 :: r) in Hnl by by rewrite <-app_assoc.
    destruct (ends_nl_suffix _ _ _ Hnl ltac:(done)) as [Hnl' _].
    assert (Hr : read_all sections (left_text l) p = read_all sections (r ++ complete (l_file l)) (set_comment false p)).
    { by rewrite read_unfold, Hpe, Hpc, Hl, E2. }
    apply scan_pass; try done; [unfold zlen in *; lia|lia].
  - unfold pass_ok. split_and!.
    + pose proof (zlen_nonneg (l_data l)).
      split; cbn [l_data l_size l_file l_more_data l_more_space l_feof]; [rewrite zlen_nil; lia|done|done| |congruence].
      intros _. by rewrite read_unfold, Hpe, Hpc.
    + right. unfold work. cbn [l_file l_data l_more_space l_more_data length]. lia.
    + rewrite Hl. unfold left_text. cbn [l_data l_file app]. rewrite (read_unfold (l_data l ++ _)), (read_unfold (complete _)), Hpe, Hpc.
      by rewrite strstr_none.
Qed.

Lemma pass_bound txt p m n r : (m <= n)%nat -> pass_ok txt p m r -> pass_ok txt p n r.
Proof. unfold pass_ok. destruct r; [|done..]. intros ? (? & [?|?] & ?); split_and!; auto. right. lia. Qed.

Lemma body_ok l p :
  loop_inv l p -> p_error p = false -> l_feof l = false -> pass_ok (left_text l) p (work l) (body sections l p).
Proof.
  intros [Hroom Hcs Hfull Hwait _] Hpe Heof. unfold body. rewrite (proj2 (Z.ltb_lt _ _) Hroom). cbn [negb].
  set (size := if l_more_space l then _ else _). pose proof (zlen_nonneg (l_data l)) as Hz.
  assert (Hsize : zlen (l_data l) < size) by (unfold size; destruct (l_more_space l); lia).
  destruct (l_more_data l) eqn:Hmd.
  2: { destruct (Hfull eq_refl) as [Hnl Hms].
       pose proof (process_ok (mk_lstate (l_line l) size (l_data l) (l_file l) (l_feof l) false false) p) as H.
       eapply pass_bound; [|by apply H]. unfold work. rewrite Hms, Hmd. cbn. lia. }
  specialize (Hwait eq_refl). unfold fgets.
  destruct (fgets_loop (Z.to_nat (size - zlen (l_data l) - 1)) (l_file l)) as [[s file] eof] eqn:E.
  destruct (fgets_loop_spec _ _ _ _ _ E) as (Hf & Hlen & He & Hs). rewrite Hf in Hcs. apply is_cstr_app in Hcs as [Hcs Hcf].
  set (r := match s with [] => _ | _ => _ end).
  assert (Hr : r = None /\ s = [] /\ eof = true \/ r = Some s /\ (s = [] -> eof = false)).
  { unfold r. destruct s as [|c s]; [destruct eof; auto|right; done]. }
  clearbody r. destruct Hr as [(-> & -> & ->)|[-> Hne]].
  - rewrite (He eq_refl) in *. unfold pass_ok, left_text. cbn [l_data l_file l_feof]. rewrite Hf.
    split_and!; [|by left|done]. by split.
  - rewrite cstr_id by done. destruct Hs as [[Hl ->]|[Hs Hend]].
    + rewrite bool_decide_eq_true_2 by done.
      set (l1 := mk_lstate (l_line l + 1) size (l_data l ++ s) file false false false).
      assert (Hs : (0 < length s)%nat) by (destruct s; [done|cbn; lia]).
      replace (left_text l) with (left_text l1) by (unfold left_text; cbn [l1 l_data l_file]; by rewrite Hf, <-app_assoc).
      eapply pass_bound; [|apply process_ok; try done].
      * unfold work. cbn [l1 l_file l_data l_more_space l_more_data]. rewrite Hf, Hmd, !length_app. destruct (l_more_space l); lia.
      * right. cbn [l1 l_data]. destruct s as [|c s]; [done|]. by rewrite last_app_cons.
      * cbn [l1 l_data l_size]. unfold zlen in *. rewrite length_app. lia.
    + rewrite bool_decide_eq_false_2.
      2: { intros Hl. apply last_Some in Hl as [k ->]. apply Hs, elem_of_app. right. by left. }
      unfold pass_ok. split_and!.
      * split; cbn [l_data l_size l_file l_more_data l_more_space l_feof]; [unfold zlen in *; rewrite length_app; lia|done|done| |].
        -- intros _. by rewrite complete_none.
        -- intros Heq. split; [by apply He|done].
      * destruct eof; [by left|]. right. destruct Hend as [?|Hend]; [done|]. unfold work.
        cbn [l_file l_data l_more_space l_more_data]. rewrite Hf, Hmd, !length_app. unfold zlen in *.
        destruct (length s) as [|k] eqn:Hk; [|lia]. unfold size in *. destruct (l_more_space l); lia.
      * unfold left_text. cbn [l_data l_file]. by rewrite Hf, <-app_assoc.
Qed.

Lemma parser_loop_correct fuel l p :
  loop_inv l p -> (l_feof l = true \/ (work l < fuel)%nat) ->
  parser_loop sections fuel l p = match read_all sections (left_text l) p with Some p' => returned p' | None => Aborted end.
Proof.
  revert l p. induction fuel as [|fuel IH]; intros l p Hinv Hf; cbn [parser_loop].
  all: destruct (p_error p) eqn:Hpe; [by rewrite read_unfold, Hpe|]; destruct (l_feof l) eqn:Heof; cbn [orb].
  1,3: destruct (li_eof _ _ Hinv Heof) as [Hfile Hmd]; unfold left_text; by rewrite Hfile, app_nil_r, (li_wait _ _ Hinv Hmd).
  - destruct Hf; [done|lia].
  - pose proof (body_ok l p Hinv Hpe Heof) as H. destruct (body sections l p) as [l' p'| |]; unfold pass_ok in H; [|by rewrite H|done].
    destruct H as (Hinv' & Hw & ->). apply IH; [done|]. destruct Hf as [?|Hf]; [done|]. destruct Hw; [by left|right; lia].
Qed.

(** ** Printed configurations *)

(** Reading of a token that is no comment. *)
Lemma read_token txt t rest p :
  p_error p = false -> p_in_comment p = false -> gettoken txt = gt_token t rest -> t <> lit "//" -> t <> lit "/*" ->
  read_all sections txt p = (p ← on_token sections t p; read_all sections rest p).
Proof.
  intros He Hc Ht H1 H2. rewrite read_unfold, He, Hc, Ht. unfold strcmp_eq.
  by rewrite (bool_decide_eq_false_2 (t = lit "//")), (bool_decide_eq_false_2 (t = lit "/*")).
Qed.

End reading.

(** Printing a value: always in quotes. *)
Definition escape (c : Z) : bytes :=
  match c with
  | 10 => [92; 110]
  | 9 => [92; 116]
  | 13 => [92; 114]
  | 92 => [92; 92]
  | 34 => [92; 34]
  | _ => [c]
  end.
Definition quote (v : bytes) : bytes := 34 :: concat (escape <$> v) ++ [34].

Lemma escape_cases c :
  (exists d, escape c = [92; d] /\ unescape d = c /\ c <> 0 /\ 0 < d < 256) \/ (escape c = [c] /\ c <> 34 /\ c <> 92).
Proof.
  destruct (Z.eq_dec c 10) as [->|]; [left; by exists 110|]. destruct (Z.eq_dec c 9) as [->|]; [left; by exists 116|].
  destruct (Z.eq_dec c 13) as [->|]; [left; by exists 114|]. destruct (Z.eq_dec c 92) as [->|]; [left; by exists 92|].
  destruct (Z.eq_dec c 34) as [->|]; [left; by exists 34|]. right. split; [|done].
  unfold escape. destruct c as [|c|c]; [done| |done]. do 7 (destruct c as [c|c|]; try done).
Qed.

Lemma quote_scan v F :
  count_quoted (concat (escape <$> v) ++ 34 :: F) = q_len (length v) /\
  copy_quoted (concat (escape <$> v) ++ 34 :: F) = Some (v, F).
Proof.
  induction v as [|c v [IH1 IH2]]; [done|]. cbn [fmap list_fmap concat]. rewrite <-app_assoc.
  destruct (escape_cases c) as [(d & -> & Hd & Hc & _)|(-> & H1 & H2)]; cbn [app count_quoted copy_quoted].
  - cbn [Z.eqb Pos.eqb]. rewrite Hd, (proj2 (Z.eqb_neq c 0) Hc), IH1, IH2. done.
  - rewrite (proj2 (Z.eqb_neq c 34) H1), (proj2 (Z.eqb_neq c 92) H2), IH1, IH2. done.
Qed.

Lemma quote_token v F : gettoken (quote v ++ F) = gt_token v F.
Proof.
  unfold quote. rewrite <-app_comm_cons, <-app_assoc. unfold gettoken. rewrite skip_stop by done.
  cbn [token_at app]. destruct (quote_scan v F) as [-> ->]. done.
Qed.

(** Names of sections and keys. *)
Definition is_name (n : bytes) : bool :=
  match n with [] => false | c :: _ => isalpha c && forallb name_char n end.

Lemma name_scan n c F : forallb name_char n = true -> name_char c = false -> scan_name (n ++ c :: F) = Some (n, c :: F).
Proof.
  intros Hn Hc. induction n as [|x n IH]; cbn [app scan_name forallb] in *; [by rewrite Hc|].
  apply andb_true_iff in Hn as [-> Hn]. by rewrite (IH Hn).
Qed.

Lemma isalpha_plain c : isalpha c = true -> isspace c = false /\ c <> 34 /\ isdigit c = false /\ c <> 47 /\ is_punct c = false.
Proof. unfold isalpha, isupper, islower, isspace, isdigit, is_punct. lia. Qed.

Lemma name_token n c F : is_name n = true -> name_char c = false -> gettoken (n ++ c :: F) = gt_token n (c :: F).
Proof.
  destruct n as [|x n]; [done|]. cbn [is_name]. intros [Ha Hn]%andb_true_iff Hc.
  destruct (isalpha_plain x Ha) as (H1 & H2 & H3 & _). unfold gettoken. cbn [app]. rewrite skip_stop by done.
  pose proof (name_scan (x :: n) c F Hn Hc) as E. cbn [token_at]. rewrite (proj2 (Z.eqb_neq x 34) H2), H3, Ha.
  by rewrite <-app_comm_cons in E; rewrite E.
Qed.

Lemma space_token c F : isspace c = true -> gettoken (c :: F) = gettoken F.
Proof. intros H. unfold gettoken. by rewrite skip_cons, H. Qed.

Lemma punct_token c F : is_punct c = true -> gettoken (c :: F) = gt_token [c] F.
Proof.
  unfold is_punct. intros H. assert (Hc : c = 123 \/ c = 125 \/ c = 61 \/ c = 59) by lia.
  destruct Hc as [->|[->|[->| ->]]]; reflexivity.
Qed.

(** The tokens with a meaning of their own, also between quotes. *)
Definition reserved : list bytes := [lit "{"; lit "}"; lit "="; lit ";"; lit "//"; lit "/*"].

Lemma name_not_reserved n : is_name n = true -> n ∉ reserved.
Proof.
  intros H Hin. destruct n as [|c n]; [done|]. cbn [is_name] in H. apply andb_true_iff in H as [Ha _].
  apply isalpha_plain in Ha as (_ & _ & _ & H47 & Hp). unfold reserved in Hin.
  rewrite !elem_of_cons, elem_of_nil in Hin. destruct_or? Hin; injection Hin as -> _; done.
Qed.

(** Words: tokens that are neither punctuation nor comments. *)
Lemma on_word_token {P : Platform} {T} (sections : list (parser_section T)) t p :
  t ∉ reserved -> on_token sections t p = Some (on_word t p) /\ t <> lit "//" /\ t <> lit "/*".
Proof.
  unfold reserved. rewrite !not_elem_of_cons. intros (H1 & H2 & H3 & H4 & H5 & H6 & _). split; [|done].
  unfold on_token, strcmp_eq. by rewrite !bool_decide_eq_false_2.
Qed.

(** A configuration file, as its sections with their assignments. *)
Abbreviation config := (list (bytes * list (bytes * bytes))).

Definition print_entry (e : bytes * bytes) : bytes := 9 :: e.1 ++ lit " = " ++ quote e.2 ++ lit ";" ++ [10].
Definition print_section (x : bytes * list (bytes * bytes)) : bytes :=
  x.1 ++ lit " {" ++ [10] ++ concat (print_entry <$> x.2) ++ lit "}" ++ [10].
Definition print_config (cfg : config) : bytes := concat (print_section <$> cfg).

(** Names, and values that are C strings without a meaning of their own. *)
Definition entry_ok (e : bytes * bytes) : Prop := is_name e.1 = true /\ is_cstr e.2 /\ (e.2 ∉ reserved).
Definition config_ok (cfg : config) : Prop :=
  Forall (fun x => is_name x.1 = true /\ Forall entry_ok x.2) cfg.

Section configuring.
Context {P : Platform} {T : Type}.
Context (sections : list (parser_section T)).

(** What a configuration means: each section is entered, its values are written in order,
    and it is left; the first failure ends it. *)
Definition run_callback (f : option (T -> T * bool)) (s : T) : T * bool :=
  match f with Some f => f s | None => (s, true) end.

Fixpoint settle (sec : parser_section T) (kvs : list (bytes * bytes)) (s : T) (r : list Z) : T * list Z * bool :=
  match kvs with
  | [] => (s, r, true)
  | (k, v) :: kvs =>
      match by_name k (sec_entries sec) with
      | None => (s, r, false)
      | Some ty =>
          let '(rnd, r) := if draws ty v then draw r else (0, r) in
          let '(w, ok) := value_parser_by_type ty rnd v in
          let s := match w with Some w => sec_store sec k w s | None => s end in
          if ok : bool then settle sec kvs s r else (s, r, false)
      end
  end.

Fixpoint configure (cfg : config) (s : T) (r : list Z) : T * list Z * bool :=
  match cfg with
  | [] => (s, r, true)
  | (name, kvs) :: cfg =>
      match find_section sections name with
      | None => (s, r, false)
      | Some sec =>
          let '(s, ok) := run_callback (sec_onenter sec) s in
          if negb ok then (s, r, false) else
          let '(s, r, ok) := settle sec kvs s r in
          if negb ok then (s, r, false) else
          let '(s, ok) := run_callback (sec_onexit sec) s in
          if negb ok then (s, r, false) else configure cfg s r
      end
  end.

Definition within (sec : parser_section T) (s : T) (r : list Z) : pstate T :=
  mk_pstate false (Some sec) None None None false s r.

(** The reading of [txt] from [p] reaches [p'], or fails with the program in [s]. *)
Definition reads (txt F : bytes) (p p' : pstate T) (s : T) (ok : bool) : Prop :=
  if ok then read_all sections (txt ++ F) p = read_all sections F p'
  else exists p1, read_all sections (txt ++ F) p = Some p1 /\ p_error p1 = true /\ p_app p1 = s.

Lemma read_error txt p : p_error p = true -> read_all sections txt p = Some p.
Proof. intros H. by rewrite read_unfold, H. Qed.

Lemma call_spec f p : p_error p = false ->
  call f p = (if (run_callback f (p_app p)).2 then set_app (run_callback f (p_app p)).1 p
              else parser_error (set_app (run_callback f (p_app p)).1 p)).
Proof. intros He. unfold call, run_callback. destruct f as [f|]; [by destruct (f (p_app p))|by destruct p]. Qed.

(** One word, and one character of punctuation. *)
Lemma read_word w c F p :
  is_name w = true -> name_char c = false -> p_error p = false -> p_in_comment p = false ->
  read_all sections (w ++ c :: F) p = read_all sections (c :: F) (on_word w p).
Proof.
  intros Hn Hc He Hi. destruct (on_word_token sections w p (name_not_reserved w Hn)) as (E & H1 & H2).
  rewrite (read_token sections _ _ _ _ He Hi (name_token w c F Hn Hc) H1 H2), E. done.
Qed.

Lemma read_value v F p :
  v ∉ reserved -> p_error p = false -> p_in_comment p = false ->
  read_all sections (quote v ++ F) p = read_all sections F (on_word v p).
Proof.
  intros Hv He Hi. destruct (on_word_token sections v p Hv) as (E & H1 & H2).
  rewrite (read_token sections _ _ _ _ He Hi (quote_token v F) H1 H2), E. done.
Qed.

Lemma read_space c F p :
  isspace c = true -> p_in_comment p = false -> read_all sections (c :: F) p = read_all sections F p.
Proof. intros Hc Hi. rewrite (read_unfold sections (c :: F)), (read_unfold sections F), Hi. by rewrite space_token. Qed.

Lemma read_punct c F p :
  is_punct c = true -> p_error p = false -> p_in_comment p = false ->
  read_all sections (c :: F) p = (p ← on_token sections [c] p; read_all sections F p).
Proof.
  intros Hc He Hi. apply read_token; [done|done|by apply punct_token|..]; by intros ?.
Qed.

Lemma lit_eq F : lit " = " ++ F = 32 :: 61 :: 32 :: F. Proof. done. Qed.
Lemma lit_semi F : lit ";" ++ [10] ++ F = 59 :: 10 :: F. Proof. done. Qed.
Lemma lit_open F : lit " {" ++ [10] ++ F = 32 :: 123 :: 10 :: F. Proof. done. Qed.
Lemma lit_close F : lit "}" ++ [10] ++ F = 125 :: 10 :: F. Proof. done. Qed.

Lemma read_entry sec k v F s r :
  entry_ok (k, v) ->
  read_all sections (print_entry (k, v) ++ F) (within sec s r) =
    read_all sections (10 :: F)
      (set_tokens None None (assign sec k v (mk_pstate false (Some sec) None (Some k) (Some v) false s r))).
Proof.
  intros (Hk & _ & Hv). cbn [fst snd] in *. unfold print_entry. cbn [fst snd].
  rewrite <-app_comm_cons, read_space by done. rewrite <-!app_assoc, lit_eq, read_word by done.
  rewrite read_space by done. rewrite read_punct by done.
  change (on_token sections [61] _) with (Some (on_word k (within sec s r))). cbn [mbind option_bind].
  rewrite read_space by done. rewrite read_value by done. rewrite lit_semi, read_punct by done. done.
Qed.

Lemma read_entries sec kvs F s r :
  Forall entry_ok kvs ->
  let '(s', r', ok) := settle sec kvs s r in reads (concat (print_entry <$> kvs)) F (within sec s r) (within sec s' r') s' ok.
Proof.
  intros Hok. revert s r. induction Hok as [|[k v] kvs He _ IH]; intros s r; cbn [settle fmap list_fmap concat]; [done|].
  pose proof (read_entry sec k v (concat (print_entry <$> kvs) ++ F) s r He) as E. unfold reads. rewrite <-app_assoc. rewrite E.
  unfold assign. cbn [p_random]. destruct (by_name k (sec_entries sec)) as [ty|].
  2: { eexists. split; [by apply read_error|]. done. }
  destruct (if draws ty v then draw r else (0, r)) as [rnd r1]. destruct (value_parser_by_type ty rnd v) as [w ok].
  set (s1 := match w with Some w => sec_store sec k w s | None => s end).
  destruct ok.
  - specialize (IH s1 r1). destruct (settle sec kvs s1 r1) as [[s2 r2] ok2]. unfold reads in IH.
    rewrite read_space by (by destruct w). by destruct w.
  - eexists. split; [apply read_error; by destruct w|]. by destruct w.
Qed.

Lemma read_section name kvs sec F s r :
  is_name name = true -> Forall entry_ok kvs -> find_section sections name = Some sec ->
  let '(s1, ok1) := run_callback (sec_onenter sec) s in
  let '(s2, r2, ok2) := settle sec kvs s1 r in
  let '(s3, ok3) := run_callback (sec_onexit sec) s2 in
  reads (print_section (name, kvs)) F (initial s r) (initial s3 r2)
    (if negb ok1 then s1 else if negb ok2 then s2 else s3) (ok1 && ok2 && ok3).
Proof.
  intros Hn Hk Hsec. unfold print_section. cbn [fst snd]. unfold reads. rewrite <-!app_assoc, lit_open, read_word by done.
  rewrite read_space by done. rewrite read_punct by done.
  change (on_token sections [123] _) with (Some (on_open sections (on_word name (initial s r)))). cbn [mbind option_bind].
  unfold on_open. cbn [on_word initial p_section p_section_token set_section_token]. rewrite Hsec, call_spec by done.
  change (p_app (set_section _ _)) with s. destruct (run_callback (sec_onenter sec) s) as [s1 ok1]. cbn [fst snd].
  destruct ok1; cbn [negb andb].
  2: { destruct (settle sec kvs s1 r) as [[s2 r2] ok2]. destruct (run_callback (sec_onexit sec) s2) as [s3 ok3].
       eexists. split; [by apply read_error|]. done. }
  rewrite read_space by done. pose proof (read_entries sec kvs (lit "}" ++ [10] ++ F) s1 r Hk) as He.
  change (set_section_token None _) with (within sec s1 r).
  destruct (settle sec kvs s1 r) as [[s2 r2] ok2]. destruct (run_callback (sec_onexit sec) s2) as [s3 ok3] eqn:Ex.
  unfold reads in He. destruct ok2; cbn [negb andb]; [|done]. rewrite He, lit_close, read_punct by done.
  change (on_token sections [125] (within sec s2 r2)) with (Some (on_close (within sec s2 r2))). cbn [mbind option_bind].
  unfold on_close. change (p_section (within sec s2 r2)) with (Some sec). cbv iota. rewrite call_spec by done.
  change (p_app (within sec s2 r2)) with s2. rewrite Ex. cbn [fst snd].
  destruct ok3; [by rewrite read_space|]. eexists. split; [by apply read_error|]. done.
Qed.

Lemma read_config cfg s r :
  config_ok cfg ->
  let '(s', r', ok) := configure cfg s r in reads (print_config cfg) [] (initial s r) (initial s' r') s' ok.
Proof.
  intros Hok. revert s r. induction Hok as [|[name kvs] cfg [Hn Hk] _ IH]; intros s r; [done|]. cbn [fst snd] in *.
  unfold print_config. cbn [configure fmap list_fmap concat]. unfold reads. rewrite <-app_assoc.
  destruct (find_section sections name) as [sec|] eqn:Hsec.
  2: { unfold print_section. cbn [fst snd]. rewrite <-!app_assoc, lit_open, read_word by done.
       rewrite read_space by done. rewrite read_punct by done.
       change (on_token sections [123] _) with (Some (on_open sections (on_word name (initial s r)))). cbn [mbind option_bind].
       unfold on_open. cbn [on_word initial p_section p_section_token set_section_token]. rewrite Hsec.
       eexists. split; [by apply read_error|]. done. }
  pose proof (read_section name kvs sec (print_config cfg ++ []) s r Hn Hk Hsec) as H.
  destruct (run_callback (sec_onenter sec) s) as [s1 ok1]. destruct ok1; cbn [negb].
  2: { destruct (settle sec kvs s1 r) as [[s2 r2] ok2]. destruct (run_callback (sec_onexit sec) s2) as [s3 ok3]. exact H. }
  destruct (settle sec kvs s1 r) as [[s2 r2] ok2]. destruct (run_callback (sec_onexit sec) s2) as [s3 ok3].
  destruct ok2, ok3; cbn [negb andb] in *; try exact H. unfold reads in H. unfold print_config in H.
  specialize (IH s3 r2). destruct (configure cfg s3 r2) as [[s4 r4] ok4]. unfold reads, print_config in IH. by rewrite H.
Qed.

End configuring.

(** ** The printed text *)

Lemma escape_cstr c : 0 < c < 256 -> is_cstr (escape c).
Proof.
  intros Hc. unfold is_cstr. destruct (escape_cases c) as [(d & -> & _ & _ & Hd)|(-> & _)].
  - constructor; [lia|]. by constructor; [lia|constructor].
  - by constructor; [lia|constructor].
Qed.

Lemma quote_cstr v : is_cstr v -> is_cstr (quote v).
Proof.
  intros Hv. unfold quote. constructor; [lia|]. apply is_cstr_app. split; [|by repeat constructor].
  induction Hv as [|c v Hc _ IH]; [constructor|]. cbn [fmap list_fmap concat]. apply is_cstr_app. split; [by apply escape_cstr|done].
Qed.

Lemma name_cstr n : is_name n = true -> is_cstr n.
Proof.
  destruct n as [|c n]; [done|]. cbn [is_name]. intros [_ H]%andb_true_iff. apply Forall_forall. intros x Hx.
  rewrite forallb_forall in H. specialize (H x). rewrite <-list_elem_of_In in H. specialize (H Hx).
  unfold name_char, isalnum, isalpha, isupper, islower, isdigit in H. lia.
Qed.

Lemma print_section_text name kvs : is_name name = true -> Forall entry_ok kvs ->
  is_cstr (print_section (name, kvs)) /\ last (print_section (name, kvs)) = Some 10.
Proof.
  intros Hn Hk. unfold print_section. cbn [fst snd]. split.
  - rewrite !is_cstr_app. split_and!; [by apply name_cstr|by repeat constructor..| |by repeat constructor|by repeat constructor].
    induction Hk as [|[k v] kvs (H1 & H2 & _) _ IH]; [constructor|]. cbn [fmap list_fmap concat]. apply is_cstr_app. split; [|done].
    unfold print_entry. constructor; [lia|]. rewrite !is_cstr_app. cbn [fst snd] in *.
    split_and!; [by apply name_cstr|by repeat constructor|by apply quote_cstr|by repeat constructor..].
  - rewrite !app_assoc, last_snoc. done.
Qed.

Lemma print_config_text cfg : config_ok cfg -> is_cstr (print_config cfg) /\ ends_nl (print_config cfg).
Proof.
  induction 1 as [|[name kvs] cfg [Hn Hk] _ [IH1 IH2]]; [split; [constructor|by left]|].
  destruct (print_section_text name kvs Hn Hk) as [H1 H2]. unfold print_config in *. cbn [fmap list_fmap concat]. split.
  - by apply is_cstr_app.
  - right. destruct IH2 as [->|IH2]; [by rewrite app_nil_r|]. rewrite last_app, IH2. done.
Qed.

Lemma returned_error {T} (p : pstate T) : p_error p = true -> returned p = Ran false (p_app p).
Proof.
  intros H. assert (E : p_error (finish p) = true /\ p_app (finish p) = p_app p).
  { unfold finish. destruct p as [e sec st k v c a r]. cbn in H. subst e. destruct sec, st, k, v; done. }
  unfold returned. cbv zeta. by destruct E as [-> ->].
Qed.

Lemma run_text {P : Platform} {T} (sections : list (parser_section T)) file s rnd :
  is_cstr file ->
  parser_run sections file s rnd =
    match read_all sections (complete file) (initial s rnd) with Some p => returned p | None => Aborted end.
Proof.
  intros Hf. unfold parser_run. rewrite parser_loop_correct; [done|by split|].
  right. unfold work, passes. cbn. lia.
Qed.

(** A printed configuration means what [configure] says. *)
Lemma run_config {P : Platform} {T} (sections : list (parser_section T)) cfg s rnd :
  config_ok cfg ->
  parser_run sections (print_config cfg) s rnd = let '(s', _, ok) := configure sections cfg s rnd in Ran ok s'.
Proof.
  intros Hok. destruct (print_config_text cfg Hok) as [Hc Hn]. rewrite run_text, complete_id by done.
  pose proof (read_config sections cfg s rnd Hok) as H. destruct (configure sections cfg s rnd) as [[s' r'] ok].
  unfold reads in H. rewrite app_nil_r in H. destruct ok.
  - by rewrite H, read_unfold.
  - destruct H as (p1 & -> & He & <-). by apply returned_error.
Qed.

(** ** Theorems *)

(** C38: The line-buffered loop of [parser_run] always ends, and does what reading the
    complete lines of the file at once would do: the same callbacks, values and errors in
    the same order, whatever the line lengths, the growth of the buffer, comments and
    strings over several lines. *)
Theorem parser_run_reads_text {P : Platform} {T} (sections : list (parser_section T)) file s rnd :
  is_cstr file ->
  parser_run sections file s rnd =
    match read_all sections (complete file) (initial s rnd) with Some p => returned p | None => Aborted end.
Proof. apply run_text. Qed.

(** A configuration that is printed and read back configures the program: each section
    is entered, its values are written in the order of the file and it is left, and
    [parser_run] returns 0; where a section or key is unknown, a value does not parse or a
    callback fails, it returns -1 with the program as it was there. *)
Theorem config_read_back {P : Platform} {T} (sections : list (parser_section T)) cfg s rnd :
  config_ok cfg ->
  parser_run sections (print_config cfg) s rnd = let '(s', _, ok) := configure sections cfg s rnd in Ran ok s'.
Proof. apply run_config. Qed.

(** A last line without a newline is not read. *)
Theorem unterminated_line_ignored {P : Platform} {T} (sections : list (parser_section T)) file line s rnd :
  is_cstr file -> is_cstr line -> (10 ∉ line) ->
  parser_run sections (file ++ line) s rnd = parser_run sections file s rnd.
Proof. intros Hf Hl Hn. rewrite !run_text, complete_none; [done|done|done|by apply is_cstr_app]. Qed.

Lemma ends_nl_snoc l : ends_nl (l ++ [10]).
Proof. right. apply last_snoc. Qed.

(** A text put together from C strings. *)
Local Ltac cstr := rewrite ?is_cstr_app; split_and!; first [done | by apply (bool_decide_unpack _)].

Lemma read_opened {P : Platform} {T} (sections : list (parser_section T)) name sec F s s1 rnd :
  is_name name = true -> find_section sections name = Some sec -> run_callback (sec_onenter sec) s = (s1, true) ->
  read_all sections (name ++ lit " {" ++ [10] ++ F) (initial s rnd) = read_all sections F (within sec s1 rnd).
Proof.
  intros Hn Hsec Hent. rewrite lit_open, read_word by done. rewrite read_space by done. rewrite read_punct by done.
  change (on_token sections [123] _) with (Some (on_open sections (on_word name (initial s rnd)))). cbn [mbind option_bind].
  unfold on_open. cbn [on_word initial p_section p_section_token set_section_token]. rewrite Hsec, call_spec by done.
  change (p_app (set_section _ _)) with s. rewrite Hent. cbn [fst snd].
  change (set_section_token None _) with (within sec s1 rnd). by rewrite read_space.
Qed.

(** A number followed by a slash and something else is neither a token nor an error: the
    rest of the file is not read, and outside of a section [parser_run] returns 0. *)
Theorem bad_number_hides_rest {P : Platform} {T} (sections : list (parser_section T)) d c rest s rnd :
  isdigit d = true -> isdigit c = false -> c <> 47 -> c <> 42 -> is_cstr (d :: 47 :: c :: rest) ->
  parser_run sections ((d :: 47 :: c :: rest) ++ [10]) s rnd = Ran true s.
Proof.
  intros Hd Hc H1 H2 Hs. rewrite run_text, complete_id; [|apply ends_nl_snoc|cstr].
  rewrite read_unfold. cbn [initial p_error p_in_comment]. unfold gettoken. cbn [app].
  assert (Hsp : isspace d = false /\ d <> 34) by (unfold isdigit, isspace in *; lia). destruct Hsp as [Hsp Hq].
  rewrite skip_stop by done. cbn [token_at scan_number]. rewrite (proj2 (Z.eqb_neq d 34) Hq), Hd. cbn [orb].
  change (isdigit 47 || (47 =? 46)) with false. change (47 =? 47) with true. cbv iota. rewrite Hc.
  rewrite (proj2 (Z.eqb_neq c 47) H1), (proj2 (Z.eqb_neq c 42) H2). done.
Qed.

(** An empty statement in a section fails an assertion. *)
Theorem stray_semicolon_aborts {P : Platform} {T} (sections : list (parser_section T)) name sec rest s s1 rnd :
  is_name name = true -> find_section sections name = Some sec -> run_callback (sec_onenter sec) s = (s1, true) ->
  is_cstr rest -> parser_run sections ((name ++ lit " {" ++ [10] ++ lit ";" ++ rest) ++ [10]) s rnd = Aborted.
Proof.
  intros Hn Hsec Hent Hr. pose proof (name_cstr _ Hn).
  rewrite run_text, complete_id; [|apply ends_nl_snoc|cstr].
  rewrite <-!app_assoc, (read_opened sections name sec _ s s1) by done.
  change (lit ";" ++ rest ++ [10]) with (59 :: rest ++ [10]). by rewrite read_punct.
Qed.

(** A quoted semicolon is no value: the assignment is refused. *)
Theorem quoted_semicolon_refused {P : Platform} {T} (sections : list (parser_section T)) name sec k rest s s1 rnd :
  is_name name = true -> find_section sections name = Some sec -> run_callback (sec_onenter sec) s = (s1, true) ->
  is_name k = true -> is_cstr rest ->
  parser_run sections ((name ++ lit " {" ++ [10] ++ k ++ lit " = " ++ quote (lit ";") ++ rest) ++ [10]) s rnd = Ran false s1.
Proof.
  intros Hn Hsec Hent Hk Hr. pose proof (name_cstr _ Hn). pose proof (name_cstr _ Hk).
  rewrite run_text, complete_id; [|apply ends_nl_snoc|cstr].
  rewrite <-!app_assoc, (read_opened sections name sec _ s s1) by done.
  rewrite lit_eq, read_word by done. rewrite read_space by done. rewrite read_punct by done.
  change (on_token sections [61] _) with (Some (on_word k (within sec s1 rnd))). cbn [mbind option_bind].
  rewrite read_space by done. rewrite (read_token sections _ (lit ";") (rest ++ [10])) by (done || apply quote_token).
  change (on_token sections (lit ";") _) with (Some (set_tokens None None (parser_error (on_word k (within sec s1 rnd))))).
  cbn [mbind option_bind]. by rewrite read_error.
Qed.

(** ** A small program to run the theorems on *)

#[local] Instance some_platform : Platform := {| ULONG_MAX := 2 ^ 32 - 1; getaddrinfo := fun _ => None |}.
(** It keeps the values it is given. *)
Definition log_section : parser_section (list (bytes * value)) :=
  mk_section (lit "log") None None [(lit "name", pt_pchar); (lit "port", pt_uint16)] (fun k v s => s ++ [(k, v)]).

(** A comment, and a string over two lines. *)
Definition some_file : bytes :=
  lit "log /* a" ++ [10] ++ lit "b */ { name = " ++ [34] ++ lit "x" ++ [10] ++ lit "y" ++ [34] ++ lit "; // c" ++ [10] ++
  lit "port = 80; }" ++ [10] ++ lit "log {".

Lemma parser_run_reads_text_witness :
  parser_run [log_section] some_file [] [] =
    match read_all [log_section] (complete some_file) (initial [] []) with Some p => returned p | None => Aborted end /\
  parser_run [log_section] some_file [] [] =
    Ran true [(lit "name", v_pchar (lit "x" ++ [10] ++ lit "y")); (lit "port", v_uint16 80)].
Proof.
  split; [apply parser_run_reads_text; by apply (bool_decide_unpack _)|]. vm_compute. reflexivity.
Defined.

Definition some_cfg : config := [(lit "log", [(lit "name", lit "a b"); (lit "port", lit "8080")])].

Lemma config_read_back_witness :
  parser_run [log_section] (print_config some_cfg) [] [] =
    Ran true [(lit "name", v_pchar (lit "a b")); (lit "port", v_uint16 8080)].
Proof.
  assert (Hok : config_ok some_cfg).
  { constructor; [|constructor]. split; [done|].
    repeat apply Forall_cons_2; try apply Forall_nil_2; (split_and!; [done|by apply (bool_decide_unpack _)..]). }
  rewrite (config_read_back [log_section] some_cfg [] [] Hok). vm_compute. reflexivity.
Defined.

End Parser.
