(* ===== verification/HttprBuffer.v ===== *)
(** * Growing buffers of http-relay.c

    [httpr_buffer_init], [httpr_buffer_fini], [httpr_buffer_append], and the
    initialisation and release of the http-relay payload of a client. The request
    headers and the request body of a relayed client accumulate in such buffers. *)

From S2P Require Import Prelude CLib World.
Open Scope Z_scope.

Module HttprBuffer.

Definition httpr_buffer_init : httpr_buffer := mk_httpr_buffer (Some []) 0 4096.

Definition httpr_buffer_fini (b : httpr_buffer) : httpr_buffer :=
  mk_httpr_buffer None (hb_len b) (hb_max_len b).

(** The doubling loop on an [int]: [None] when it does not end. Each turn doubles
    [max_len], which is 0 for good after 32 turns, so the fuel is enough. *)
Fixpoint grow (fuel : nat) (need max_len : Z) : option Z :=
  if need >? max_len then
    match fuel with O => None | S fuel => grow fuel need (i32 (max_len * 2)) end
  else Some max_len.

(** [None]: [memcpy] from NULL, or a loop that does not end. *)
Definition httpr_buffer_append (b : httpr_buffer) (data : bytes) : option httpr_buffer :=
  m ← grow 33 (hb_len b + zlen data + 1) (hb_max_len b);
  old ← match hb_buff b with
        | Some old => Some old
        | None => if hb_len b =? 0 then Some [] else None
        end;
  Some (mk_httpr_buffer (Some (old ++ data)) (hb_len b + zlen data) m).

Definition httpr_client_init : httpr_client :=
  mk_httpr_client None None false httpr_buffer_init httpr_buffer_init.

Definition httpr_client_fini (h : httpr_client) : httpr_client :=
  mk_httpr_client None None (hr_has_host h)
    (httpr_buffer_fini (hr_client_buffer h)) (httpr_buffer_fini (hr_relay_buffer h)).

(** ** Well-formed buffers *)

(** The contents and their terminating NUL fit, and the capacity, a power of two,
    is at most twice what is needed beyond the initial 4096 bytes. *)
Definition holds (b : httpr_buffer) (data : bytes) : Prop :=
  hb_buff b = Some data /\ hb_len b = zlen data /\
  zlen data + 1 <= hb_max_len b /\ hb_max_len b <= Z.max 4096 (2 * zlen data) /\
  exists k, 12 <= k <= 30 /\ hb_max_len b = 2 ^ k.

Lemma init_holds : holds httpr_buffer_init [].
Proof. repeat split; try done. exists 12. done. Qed.

Lemma i32_double k : 0 <= k <= 29 -> i32 (2 ^ k * 2) = 2 ^ (k + 1).
Proof.
  intros Hk. rewrite Z.pow_add_r by lia. change (2 ^ 1) with 2.
  assert (2 ^ k <= 2 ^ 29) by (apply Z.pow_le_mono_r; lia).
  pose proof (Z.pow_pos_nonneg 2 k). apply i32_id. lia.
Qed.

Lemma grow_spec fuel need k :
  0 <= k <= 30 -> need <= 2 ^ 30 -> 30 - k <= Z.of_nat fuel ->
  exists k', k <= k' <= 30 /\ grow fuel need (2 ^ k) = Some (2 ^ k') /\ need <= 2 ^ k' /\
    (k' = k \/ 2 ^ k' <= 2 * (need - 1)).
Proof.
  revert k. induction fuel as [|fuel IH]; intros k Hk Hneed Hfuel; cbn [grow].
  - replace k with 30 in * by lia. exists 30.
    destruct (Z.gtb_spec need (2 ^ 30)); [lia|]. auto with lia.
  - destruct (Z.gtb_spec need (2 ^ k)); [|exists k; auto with lia].
    assert (k <> 30) by (intros ->; lia).
    rewrite i32_double by lia. destruct (IH (k + 1)) as (k' & ? & -> & ? & Hk'); [lia..|].
    exists k'. split; [lia|]. split; [done|]. split; [done|]. right.
    destruct Hk' as [->|]; [|done]. rewrite Z.pow_add_r by lia. lia.
Qed.

(** Appending keeps a buffer well formed; every amount below 1 GiB fits. *)
Lemma append_holds b old data :
  holds b old -> zlen old + zlen data + 1 <= 2 ^ 30 ->
  exists b', httpr_buffer_append b data = Some b' /\ holds b' (old ++ data).
Proof.
  intros (Hb & Hl & Hfit & Hcap & k & Hk & Hm) Hlen. unfold httpr_buffer_append.
  rewrite Hl, Hm, Hb in *. pose proof (zlen_nonneg data). pose proof (zlen_nonneg old).
  destruct (grow_spec 33 (zlen old + zlen data + 1) k) as (k' & ? & -> & ? & Hk'); [lia..|].
  eexists. split; [done|]. unfold holds. cbn. rewrite zlen_app.
  split_and!; [done|done|lia| |exists k'; lia]. destruct Hk' as [->|]; lia.
Qed.

(** Appending keeps the contents of a buffer, leaves room for the terminating NUL and at
    most doubles the capacity; the doubling loop on an [int] ends for every size up to
    one gibibyte. *)
Theorem httpr_buffer_append_fits b old data :
  holds b old -> zlen old + zlen data + 1 <= 2 ^ 30 ->
  exists b', httpr_buffer_append b data = Some b' /\ hb_buff b' = Some (old ++ data) /\
    hb_len b' = zlen old + zlen data /\ hb_len b' + 1 <= hb_max_len b' <= Z.max 4096 (2 * hb_len b').
Proof.
  intros Hb Hlen. destruct (append_holds b old data Hb Hlen) as (b' & E & H1 & H2 & H3 & H4 & _).
  exists b'. rewrite H2, zlen_app in *. split_and!; done || lia.
Qed.

Lemma httpr_buffer_append_witness :
  exists b', httpr_buffer_append httpr_buffer_init [71; 69; 84] = Some b' /\ hb_buff b' = Some [71; 69; 84].
Proof.
  destruct (httpr_buffer_append_fits httpr_buffer_init [] [71; 69; 84]) as (b' & H1 & H2 & _);
    [repeat split; try done; exists 12; done|vm_compute; discriminate|]. by exists b'.
Defined.

End HttprBuffer.
