(* ===== verification/Redsocks.v ===== *)
(** * The core of redsocks: redsocks.c

    Life of a client (release, half-close, errors), the buffer pump that relays
    data between the two sockets, the helpers the proxy protocols use, and the
    accounting of connections that stops and restarts the listeners. *)

From S2P Require Import Prelude CLib World HttprBuffer.
Import HttprBuffer.
Open Scope Z_scope.

Module Redsocks.

Definition REDSOCKS_RELAY_HALFBUFF : Z := 4096.
Definition EINPROGRESS : Z := 115.
Definition EMFILE : Z := 24.
Definition ENFILE : Z := 23.
Definition ENOBUFS : Z := 105.
Definition ENOMEM : Z := 12.

(** Bits of the error callback of libevent. *)
Definition BEV_READING : Z := 0x01.
Definition BEV_WRITING : Z := 0x02.
Definition BEV_EOF : Z := 0x10.
Definition BEV_ERROR : Z := 0x20.

(** ** libevent calls on a buffer of a client: [true] on success *)

Definition bufferevent_enable (id : Z) (s : side) (ev : Z) : M bool :=
  if ev =? 0 then mret true else
  e ← answer;
  if e =? 0 then mod_buf id s (be_enable ev) ;; mret true
  else mod_buf id s (be_enable_failed ev) ;; mret false.

Definition bufferevent_disable (id : Z) (s : side) (ev : Z) : M bool :=
  e ← answer;
  if e =? 0 then mod_buf id s (be_disable ev) ;; mret true
  else mod_buf id s (be_disable_failed ev) ;; mret false.

(** [bufferevent_write_buffer(to, from->input)]: all the input moves. *)
Definition write_input_to (id : Z) (from to : side) : M unit :=
  f ← get_buf id from;
  mod_buf id to (be_append (be_input f)) ;;
  mod_buf id from (be_set_input []).

(** ** Connection pressure *)

Definition accept_enable : M unit :=
  modify (fun w => w_set_instances (i_set_listening true <$> w_instances w) w).

Definition conn_pressure_lowered : M unit :=
  w ← get;
  if redsocks_conn w >=? redsocks_conn_max (w_base w) then mret tt else
  match accept_backoff_ev w with
  | Some _ => modify (w_set_backoff (accept_backoff_ms w) None) ;; accept_enable
  | None => mret tt
  end.

Definition redsocks_close (fd : Z) : M unit :=
  ok ← close fd;
  when ok conn_pressure_lowered.

(** [redsocks_bufferevent_free] on a buffer the caller forgets. *)
Definition redsocks_bufferevent_free (b : bufferevent) : M unit :=
  when (negb (be_fd b =? -1)) (redsocks_close (be_fd b)).

Definition redsocks_conn_list_del (id : Z) : M unit :=
  c ← get_client id;
  i ← get_instance (c_instance c);
  when (bool_decide (id ∈ i_clients i))
    (modify (fun w => w_set_conn (u32 (redsocks_conn w - 1)) w) ;;
     mod_instance (c_instance c) (i_set_clients (filter (.≠ id) (i_clients i)))) ;;
  conn_pressure_lowered.

(** ** Release of a client *)

Definition shut_both (c : redsocks_client) : bool :=
  (relay_evshut c =? EV_RW) && (client_evshut c =? EV_RW).

(** [relay_ss->fini], where the subsystem has one. *)
Definition relay_ss_fini (ss : relay_subsys) (p : payload) : payload :=
  match ss, p with
  | http_relay_subsys, httpr_payload h => httpr_payload (httpr_client_fini h)
  | _, _ => p
  end.

Definition close_if_set (fd : Z) : M unit := when (negb (fd =? -1)) (redsocks_close fd).

(** The descriptors of the splice pump: the pipes, then the two sockets. *)
Definition drop_pump (p : redsocks_pump) : M unit :=
  close_if_set (sp_read (pump_request p)) ;;
  close_if_set (sp_write (pump_request p)) ;;
  close_if_set (sp_read (pump_reply p)) ;;
  close_if_set (sp_write (pump_reply p)) ;;
  close_if_set (if e_init (pump_client_read p) then e_fd (pump_client_read p) else -1) ;;
  close_if_set (if e_init (pump_relay_read p) then e_fd (pump_relay_read p) else -1).

Definition free_buf (b : option bufferevent) : M unit :=
  match b with Some b => redsocks_bufferevent_free b | None => mret tt end.

Definition redsocks_drop_client (id : Z) : M unit :=
  c ← get_client id;
  i ← get_instance (c_instance c);
  mod_client id (fun c => c_set_payload (relay_ss_fini (i_relay_ss i) (c_payload c)) c) ;;
  free_buf (c_client c) ;;
  free_buf (c_relay c) ;;
  when (use_splice (i_config i)) (drop_pump (c_pump c)) ;;
  redsocks_conn_list_del id ;;
  free_client id.

Definition redsocks_touch_client (id : Z) : M unit :=
  t ← gettimeofday; mod_client id (c_set_last t).

Definition evhow (how : shut_how) : Z :=
  match how with SHUT_RD => EV_READ | SHUT_WR => EV_WRITE | SHUT_RDWR => EV_RW end.

Definition redsocks_shutdown (id : Z) (s : side) (how : shut_how) : M unit :=
  b ← get_buf id s;
  c ← get_client id;
  when (negb (bool_decide (how = SHUT_RD) && has (c_evshut s c) EV_WRITE))
    (trace (sys_shutdown (be_fd b) how)) ;;
  bufferevent_disable id s (evhow how) ;;
  mod_client id (fun c => c_set_evshut s (Z.lor (c_evshut s c) (evhow how)) c) ;;
  c ← get_client id;
  when (shut_both c) (redsocks_drop_client id).

(** The socket error that is only logged is not read here. *)
Definition redsocks_event_error (id : Z) (s : side) (what : Z) : M unit :=
  redsocks_touch_client id ;;
  c ← get_client id;
  if what =? Z.lor BEV_READING BEV_EOF then
    let antiev := c_buf (other s) c in
    redsocks_shutdown id s SHUT_RD ;;
    c ← get_client id;
    match antiev with
    | Some b => when ((c_state c =? pump_active) && bool_decide (be_output b = []))
                  (redsocks_shutdown id (other s) SHUT_WR)
    | None => mret tt
    end
  else redsocks_drop_client id.

(** ** The buffer pump *)

Definition redsocks_relay_readcb (id : Z) (from to : side) : M unit :=
  t ← get_buf id to;
  if zlen (be_output t) <? wm_write_high t then write_input_to id from to
  else
    f ← get_buf id from;
    when (has (be_enabled f) EV_READ) (bufferevent_disable id from EV_READ ;; mret tt).

Definition redsocks_relay_writecb (id : Z) (from to : side) : M unit :=
  c ← get_client id;
  f ← get_buf id from;
  let from_eof := has (c_evshut from c) EV_READ in
  if bool_decide (be_input f = []) && from_eof then redsocks_shutdown id to SHUT_WR
  else
    t ← get_buf id to;
    when (zlen (be_output t) <? wm_write_high t)
      (write_input_to id from to ;;
       when (negb from_eof && negb (has (be_enabled f) EV_READ))
         (bufferevent_enable id from EV_READ ;; mret tt)).

(** [redsocks_relay_clientreadcb] and [redsocks_relay_relayreadcb] *)
Definition pump_readcb (id : Z) (from : side) : M unit :=
  redsocks_touch_client id ;; redsocks_relay_readcb id from (other from).

(** [redsocks_relay_clientwritecb] and [redsocks_relay_relaywritecb] *)
Definition pump_writecb (id : Z) (to : side) : M unit :=
  redsocks_touch_client id ;; redsocks_relay_writecb id (other to) to.

Definition redsocks_start_bufferpump (id : Z) : M bool :=
  mod_buf id Client (be_setwatermark EV_RW 0 REDSOCKS_RELAY_HALFBUFF) ;;
  mod_buf id Relay (be_setwatermark EV_RW 0 REDSOCKS_RELAY_HALFBUFF) ;;
  mod_buf id Client (be_set_cbs cb_pump_read cb_pump_write) ;;
  mod_buf id Relay (be_set_cbs cb_pump_read cb_pump_write) ;;
  c ← get_client id;
  ok ← bufferevent_enable id Client (Z.land EV_RW (Z.lnot (client_evshut c)));
  if ok : bool then bufferevent_enable id Relay (Z.land EV_RW (Z.lnot (relay_evshut c)))
  else mret false.

(** [pipe2]: two descriptors, or a failure. *)
Definition pipe2 : M (option (Z * Z)) :=
  e ← answer;
  if e =? 0 then r ← new_fd; w ← new_fd; mret (Some (r, w)) else mret None.

(** The pipe that carries what side [s] sends. *)
Definition pump_pipe (s : side) (p : redsocks_pump) : splice_pipe :=
  match s with Client => pump_request p | Relay => pump_reply p end.
Definition p_set_pipe (s : side) q p :=
  match s with
  | Client => mk_pump q (pump_reply p) (pump_client_read p) (pump_client_write p) (pump_relay_read p) (pump_relay_write p)
  | Relay => mk_pump (pump_request p) q (pump_client_read p) (pump_client_write p) (pump_relay_read p) (pump_relay_write p)
  end.

(** The events of the pump: [client_read] and [relay_read], [client_write] and [relay_write]. *)
Inductive pump_event := ReadOf (s : side) | WriteOf (s : side).

#[export] Instance pump_event_eq_dec : EqDecision pump_event.
Proof. solve_decision. Defined.

Definition p_event (k : pump_event) (p : redsocks_pump) : event :=
  match k with
  | ReadOf Client => pump_client_read p
  | WriteOf Client => pump_client_write p
  | ReadOf Relay => pump_relay_read p
  | WriteOf Relay => pump_relay_write p
  end.
Definition p_set_event (k : pump_event) e p :=
  match k with
  | ReadOf Client => mk_pump (pump_request p) (pump_reply p) e (pump_client_write p) (pump_relay_read p) (pump_relay_write p)
  | WriteOf Client => mk_pump (pump_request p) (pump_reply p) (pump_client_read p) e (pump_relay_read p) (pump_relay_write p)
  | ReadOf Relay => mk_pump (pump_request p) (pump_reply p) (pump_client_read p) (pump_client_write p) e (pump_relay_write p)
  | WriteOf Relay => mk_pump (pump_request p) (pump_reply p) (pump_client_read p) (pump_client_write p) (pump_relay_read p) e
  end.

Definition mod_pump (id : Z) (f : redsocks_pump -> redsocks_pump) : M unit :=
  mod_client id (fun c => c_set_pump (f (c_pump c)) c).
Definition mod_event (id : Z) (k : pump_event) (f : event -> event) : M unit :=
  mod_pump id (fun p => p_set_event k (f (p_event k p)) p).

(** [event_add], which may fail; [event_del], which also takes the event out of the
    active queue; [event_active]. *)
Definition e_added (e : event) : event := mk_event (e_init e) (e_fd e) true (e_active e).
Definition e_deleted (e : event) : event := mk_event (e_init e) (e_fd e) false false.
Definition e_activated (e : event) : event := mk_event (e_init e) (e_fd e) (e_pending e) true.

Definition redsocks_event_add (id : Z) (k : pump_event) : M unit :=
  e ← answer; when (e =? 0) (mod_event id k e_added).
Definition redsocks_event_del (id : Z) (k : pump_event) : M unit := mod_event id k e_deleted.
Definition event_active (id : Z) (k : pump_event) : M unit := mod_event id k e_activated.

(** [event_assign] does not fail for I/O events without signals. *)
Definition event_assign (id : Z) (k : pump_event) (fd : Z) : M unit :=
  mod_event id k (fun _ => mk_event true fd false false).

Definition redsocks_start_splicepump (id : Z) : M bool :=
  ok ← bufferevent_disable id Client EV_RW;
  if negb ok then mret false else
  ok ← bufferevent_disable id Relay EV_RW;
  if negb ok then mret false else
  q ← pipe2;
  match q with
  | None => mret false
  | Some (qr, qw) =>
    mod_pump id (p_set_pipe Client (mk_pipe qr qw 0 [])) ;;
    p ← pipe2;
    match p with
    | None => mret false
    | Some (pr, pw) =>
      mod_pump id (p_set_pipe Relay (mk_pipe pr pw 0 [])) ;;
      r ← get_buf id Relay;
      c ← get_buf id Client;
      event_assign id (ReadOf Client) (be_fd c) ;;
      event_assign id (WriteOf Client) (be_fd c) ;;
      event_assign id (ReadOf Relay) (be_fd r) ;;
      event_assign id (WriteOf Relay) (be_fd r) ;;
      mod_buf id Relay be_dropfd ;;
      mod_buf id Client be_dropfd ;;
      event_active id (WriteOf Client) ;;
      event_active id (WriteOf Relay) ;;
      redsocks_event_add id (ReadOf Client) ;;
      redsocks_event_add id (ReadOf Relay) ;;
      mret true
    end
  end.

Definition redsocks_start_relay (id : Z) : M unit :=
  c ← get_client id;
  i ← get_instance (c_instance c);
  mod_client id (fun c => c_set_payload (relay_ss_fini (i_relay_ss i) (c_payload c)) c) ;;
  mod_client id (c_set_state pump_active) ;;
  ok ← (if use_splice (i_config i) then redsocks_start_splicepump id
        else redsocks_start_bufferpump id);
  if ok : bool then mret tt else redsocks_drop_client id.

(** ** Helpers of the proxy protocols *)

Definition sizes_equal (a b : Z) : bool := a =? b.
Definition sizes_greater_equal (a b : Z) : bool := a >=? b.

(** [None]: the input does not have the expected size, the client is gone. *)
Definition redsocks_read_expected (id : Z) (s : side) (comparator : Z -> Z -> bool) (expected : Z)
  : M (option bytes) :=
  b ← get_buf id s;
  if comparator (zlen (be_input b)) expected then
    mod_buf id s (be_set_input (drop (Z.to_nat expected) (be_input b))) ;;
    let data := take (Z.to_nat expected) (be_input b) in
    assert (zlen data =? expected) ;;
    mret (Some data)
  else redsocks_drop_client id ;; mret None.

(** [None] when the memory for the buffer is missing. *)
Definition mkevbuffer (data : bytes) : M (option bytes) :=
  e ← answer;
  if e =? 0 then
    e ← answer; mret (if e =? 0 then Some data else None)
  else mret None.

Definition redsocks_write_helper_ex (id : Z) (s : side) (mkmessage : option (Z -> M (option bytes)))
  (state wm_low wm_high : Z) : M Z :=
  let finish :=
    mod_client id (c_set_state state) ;;
    mod_buf id s (be_setwatermark EV_READ wm_low wm_high) ;;
    bufferevent_enable id s EV_READ ;;
    mret 0 in
  match mkmessage with
  | Some mk =>
      buff ← mk id;
      match buff with
      | Some data =>
          assert (bool_decide (s = Relay)) ;;
          mod_buf id s (be_append data) ;;
          finish
      | None => redsocks_drop_client id ;; mret (-1)
      end
  | None => finish
  end.

Definition redsocks_write_helper (id : Z) (s : side) (mkmessage : option (Z -> M (option bytes)))
  (state wm_only : Z) : M Z :=
  redsocks_write_helper_ex id s mkmessage state wm_only wm_only.

(** ** The connection to the proxy *)

(** A call that only succeeds or fails. *)
Definition try_call : M bool := e ← answer; mret (e =? 0).

Definition fcntl_nonblock : M bool :=
  ok ← try_call; if ok : bool then try_call else mret false.

(** One [setsockopt] per option with a value, until one fails. *)
Fixpoint setsockopts (values : list Z) : M bool :=
  match values with
  | [] => mret true
  | v :: values =>
      if v =? 0 then setsockopts values
      else ok ← try_call; if ok : bool then setsockopts values else mret false
  end.
Definition apply_tcp_keepalive : M bool :=
  w ← get;
  let g := w_base w in
  setsockopts [1; tcp_keepalive_time g; tcp_keepalive_probes g; tcp_keepalive_intvl g].

Definition red_connect_relay (addr : sockaddr_in) : M (option bufferevent) :=
  r ← open_fd;
  match r with
  | inr _ => mret None
  | inl fd =>
      let fail := redsocks_close fd ;; mret None in
      ok ← fcntl_nonblock;
      if negb ok then fail else
      ok ← apply_tcp_keepalive;
      if negb ok then fail else
      trace (sys_connect fd addr) ;;
      e ← answer;
      if negb (e =? 0) && negb (e =? EINPROGRESS) then fail else
      ok ← try_call;
      if negb ok then fail else
      let b := bufferevent_new fd cb_none cb_relay_connected in
      ok ← try_call;
      if negb ok then redsocks_bufferevent_free b ;; mret None
      else mret (Some (be_enable EV_WRITE b))
  end.

Definition redsocks_connect_relay (id : Z) : M unit :=
  c ← get_client id;
  i ← get_instance (c_instance c);
  r ← red_connect_relay (relayaddr (i_config i));
  mod_client id (c_set_buf Relay r) ;;
  match r with Some _ => mret tt | None => redsocks_drop_client id end.

Definition red_socket_geterrno : M Z :=
  e ← answer; if e =? 0 then answer else mret (-1).

Definition red_is_socket_connected_ok : M bool :=
  e ← red_socket_geterrno;
  mret (if e =? -1 then false else if e =? 0 then true else false).

(** ** Dropping idle clients and backing off *)

(** Microseconds in a number of seconds. *)
Definition sec (n : Z) : Z := n * 1000000.

(** The body of the loop of [drop_idle_connections]. *)
Definition drop_if_idle (now max_idle best_next id : Z) : M Z :=
  c ← get_client id;
  let idle := now - last_event c in
  if (idle <=? 0) || (max_idle <=? idle) then redsocks_drop_client id ;; mret 0
  else mret (Z.min (max_idle - idle) best_next).

Fixpoint fold_m {A} (f : A -> Z -> M A) (a : A) (l : list Z) : M A :=
  match l with
  | [] => mret a
  | x :: l => a ← f a x; fold_m f a l
  end.

Definition drop_idle_connections : M Z :=
  w ← get;
  let max_idle := sec (connpres_idle_timeout (w_base w)) in
  assert (connpres_idle_timeout (w_base w) >? 0) ;;
  now ← gettimeofday;
  fold_m (fun best id => drop_if_idle now max_idle best id) max_idle
    (concat (i_clients <$> w_instances w)).

Definition conn_pressure_ongoing : M bool :=
  w ← get;
  if redsocks_conn w >=? redsocks_conn_max (w_base w) then mret true else
  r ← open_fd;
  match r with
  | inr _ => mret true
  | inl fd => close fd ;; mret false
  end.

(** [clamp_value] *)
Definition clamp_value (v lo hi : Z) : Z :=
  let v := if v <? lo then lo else v in if v >? hi then hi else v.

Definition next_backoff (ms hi : Z) : Z := clamp_value (u32 (u32 (ms * 2) + 1)) 1 hi.

Definition conn_pressure : M unit :=
  w ← get;
  next ← (if connpres_idle_timeout (w_base w) =? 0 then mret None
          else next ← drop_idle_connections; mret (Some next));
  if bool_decide (next = Some 0) then mret tt else
  w ← get;
  let ms := next_backoff (accept_backoff_ms w) (max_accept_backoff_ms (w_base w)) in
  when (ms =? 0) fault ;;                                           (* division by zero *)
  r ← red_randui32;
  let delay := r mod ms + 1 in
  let tvdelay := match next with Some n => Z.min n (delay * 1000) | None => delay * 1000 end in
  e ← answer;                                                       (* event_add *)
  modify (fun w => w_set_backoff ms (if e =? 0 then Some tvdelay else accept_backoff_ev w) w) ;;
  modify (fun w => w_set_instances (i_set_listening false <$> w_instances w) w).

(** The timer callback: [accept_backoff_ev] is not pending any more. *)
Definition redsocks_accept_backoff : M unit :=
  modify (fun w => w_set_backoff (accept_backoff_ms w) None w) ;;
  ongoing ← conn_pressure_ongoing;
  if ongoing : bool then conn_pressure else accept_enable.

Definition redsocks_conn_list_add (n : nat) (id : Z) : M unit :=
  i ← get_instance n;
  w ← get;
  assert (bool_decide (id ∉ i_clients i)) ;;
  assert (redsocks_conn w <? redsocks_conn_max (w_base w)) ;;
  mod_instance n (i_set_clients (id :: i_clients i)) ;;
  modify (fun w => w_set_conn (u32 (redsocks_conn w + 1)) w) ;;
  w ← get;
  when (redsocks_conn w >=? redsocks_conn_max (w_base w)) conn_pressure.

(** ** What releasing a client does *)

(** [conn_pressure_lowered] as a function. *)
Definition lowered (w : world) : world :=
  if redsocks_conn w >=? redsocks_conn_max (w_base w) then w else
  match accept_backoff_ev w with
  | Some _ => w_set_instances (i_set_listening true <$> w_instances w)
                (w_set_backoff (accept_backoff_ms w) None w)
  | None => w
  end.

Lemma conn_pressure_lowered_run w : conn_pressure_lowered w = Ok tt (lowered w).
Proof.
  unfold conn_pressure_lowered, lowered, mbind, M_bind, get.
  case_match; [done|]. by destruct (accept_backoff_ev w).
Qed.

Definition closed (l : list Z) (w : world) : world :=
  mk_world (w_clients w) (w_instances w) (redsocks_conn w) (accept_backoff_ms w) (accept_backoff_ev w)
    (w_base w) (w_open w ∖ list_to_set l) (w_next_client w) (w_clock w) (w_ticks w) (w_answers w)
    (w_random w) (w_trace w ++ (sys_close <$> l)).

Definition fd_list (fd : Z) : list Z := if fd =? -1 then [] else [fd].
Definition buf_fds (b : option bufferevent) : list Z :=
  match b with Some b => fd_list (be_fd b) | None => [] end.
Definition pump_fds (p : redsocks_pump) : list Z :=
  fd_list (sp_read (pump_request p)) ++ fd_list (sp_write (pump_request p)) ++
  fd_list (sp_read (pump_reply p)) ++ fd_list (sp_write (pump_reply p)) ++
  fd_list (if e_init (pump_client_read p) then e_fd (pump_client_read p) else -1) ++
  fd_list (if e_init (pump_relay_read p) then e_fd (pump_relay_read p) else -1).

(** The descriptors a client owns, in the order they are closed. *)
Definition client_fds (splice : bool) (c : redsocks_client) : list Z :=
  buf_fds (c_client c) ++ buf_fds (c_relay c) ++ if splice then pump_fds (c_pump c) else [].

(** The client leaves the list of its instance, if it is there. *)
Definition unlisted (n : nat) (id : Z) (w : world) : world :=
  match w_instances w !! n with
  | Some i => if bool_decide (id ∈ i_clients i)
              then w_set_conn (u32 (redsocks_conn w - 1))
                     (w_set_instances (<[n := i_set_clients (filter (.≠ id) (i_clients i)) i]>
                        (w_instances w)) w)
              else w
  | None => w
  end.

Definition dropped (id : Z) (n : nat) (fds : list Z) (w : world) : world :=
  lowered (w_set_clients (delete id (w_clients w)) (unlisted n id (closed fds w))).

(** Closing a list of open descriptors, one [redsocks_close] each. *)
Lemma lowered_closed l w : lowered (closed l w) = closed l (lowered w).
Proof.
  unfold lowered. cbn. case_match; [done|]. by destruct (accept_backoff_ev w).
Qed.

Lemma lowered_idemp w : lowered (lowered w) = lowered w.
Proof.
  unfold lowered at 2 3. destruct (_ >=? _) eqn:E; [unfold lowered; by rewrite E|].
  destruct (accept_backoff_ev w) eqn:Ev; unfold lowered; cbn; rewrite E; [done|]. by rewrite Ev.
Qed.

Lemma closed_nil w : closed [] w = w.
Proof. destruct w. unfold closed. cbn. f_equal; [set_solver|apply app_nil_r]. Qed.

Lemma closed_app l k w : closed (l ++ k) w = closed k (closed l w).
Proof.
  unfold closed. cbn. f_equal; [|by rewrite fmap_app, app_assoc].
  rewrite list_to_set_app_L. set_solver.
Qed.

Lemma redsocks_close_run fd w :
  fd ∈ w_open w -> redsocks_close fd w = Ok tt (lowered (closed [fd] w)).
Proof.
  intros Hfd. unfold redsocks_close, close, mbind, M_bind.
  rewrite bool_decide_eq_true_2 by done. cbn [when]. rewrite conn_pressure_lowered_run.
  do 2 f_equal. unfold closed, w_add_trace, w_set_open. cbn. f_equal. set_solver.
Qed.

Definition close_all (l : list Z) : M unit := for_each l redsocks_close.

(** [lowered] when something was closed. *)
Definition lowered_if (l : list Z) (w : world) : world :=
  match l with [] => w | _ => lowered w end.

Lemma close_all_run l w :
  NoDup l -> (forall fd, fd ∈ l -> fd ∈ w_open w) ->
  close_all l w = Ok tt (lowered_if l (closed l w)).
Proof.
  revert w. induction l as [|fd l IH]; intros w Hnd Hopen.
  - cbn. by rewrite closed_nil.
  - apply NoDup_cons in Hnd as [Hnin Hnd]. unfold close_all. cbn [for_each].
    unfold mbind, M_bind. rewrite redsocks_close_run by set_solver.
    fold (close_all l). rewrite IH; [|done|].
    + f_equal. change (fd :: l) with ([fd] ++ l). rewrite closed_app. cbn [lowered_if app].
      destruct l as [|fd' l]; cbn [lowered_if]; [by rewrite !closed_nil|].
      by rewrite <-!lowered_closed, lowered_idemp.
    + intros fd' Hin. rewrite lowered_closed. cbn.
      unfold lowered. repeat case_match; cbn; set_solver.
Qed.

Lemma for_each_app {A} (l k : list A) m w :
  for_each (l ++ k) m w = (for_each l m ;; for_each k m) w.
Proof.
  revert w. induction l as [|x l IH]; intros w; [done|]. cbn.
  unfold mbind, M_bind. destruct (m x w); [|done..]. apply IH.
Qed.

Lemma when_close fd w : close_if_set fd w = close_all (fd_list fd) w.
Proof.
  unfold close_if_set, fd_list. destruct (fd =? -1); [done|]. cbn.
  unfold mbind, M_bind. by destruct (redsocks_close fd w) as [[]| |].
Qed.

Lemma free_buf_close b w : free_buf b w = close_all (buf_fds b) w.
Proof. destruct b as [b|]; [apply when_close|done]. Qed.

Lemma seq_ext {A} (m m' : M unit) (k k' : M A) w :
  (forall w, m w = m' w) -> (forall w, k w = k' w) -> (m ;; k) w = (m' ;; k') w.
Proof. intros Hm Hk. unfold mbind, M_bind. rewrite Hm. by destruct (m' w). Qed.

Lemma close_all_app l k w : close_all (l ++ k) w = (close_all l ;; close_all k) w.
Proof. apply for_each_app. Qed.

Lemma drop_pump_close p w : drop_pump p w = close_all (pump_fds p) w.
Proof.
  revert w. unfold drop_pump, pump_fds.
  assert (Hstep : forall fd l m, (forall w, m w = close_all l w) ->
    forall w, (close_if_set fd ;; m) w = close_all (fd_list fd ++ l) w).
  { intros fd l m Hm w. rewrite close_all_app. apply seq_ext; [apply when_close | done]. }
  do 5 apply Hstep. apply when_close.
Qed.

Lemma unlisted_lowered n id w :
  (forall i, w_instances w !! n = Some i -> id ∈ i_clients i -> 1 <= redsocks_conn w < 2 ^ 32) ->
  lowered (unlisted n id (lowered w)) = lowered (unlisted n id w).
Proof.
  intros Hconn. unfold lowered at 2. destruct (_ >=? _) eqn:E; [done|].
  destruct (accept_backoff_ev w) as [d|] eqn:Ev; [|done].
  unfold unlisted. cbn. rewrite list_lookup_fmap.
  destruct (w_instances w !! n) as [i|] eqn:Hi; cbn.
  2:{ unfold lowered. cbn. by rewrite E, Ev. }
  case_bool_decide as Hin.
  2:{ unfold lowered. cbn. by rewrite E, Ev. }
  specialize (Hconn i eq_refl Hin). unfold lowered. cbn. rewrite Ev.
  rewrite u32_id by lia. destruct (Z.geb_spec (redsocks_conn w - 1) (redsocks_conn_max (w_base w))).
  - destruct (Z.geb_spec (redsocks_conn w) (redsocks_conn_max (w_base w))); [done|lia].
  - unfold w_set_instances, w_set_conn, w_set_backoff. cbn. f_equal.
    by rewrite list_fmap_insert.
Qed.

Lemma lowered_set_clients f w :
  lowered (w_set_clients (f (w_clients w)) w) = w_set_clients (f (w_clients (lowered w))) (lowered w).
Proof. unfold lowered. cbn. case_match; [done|]. by destruct (accept_backoff_ev w). Qed.

Lemma w_clients_lowered w : w_clients (lowered w) = w_clients w.
Proof. unfold lowered. by repeat case_match. Qed.
Lemma w_open_lowered w : w_open (lowered w) = w_open w.
Proof. unfold lowered. by repeat case_match. Qed.
Lemma w_conn_lowered w : redsocks_conn (lowered w) = redsocks_conn w.
Proof. unfold lowered. by repeat case_match. Qed.
Lemma w_clients_unlisted n id w : w_clients (unlisted n id w) = w_clients w.
Proof. unfold unlisted. by repeat case_match. Qed.

Lemma conn_list_del_run id c w i :
  w_clients w !! id = Some c -> w_instances w !! c_instance c = Some i ->
  redsocks_conn_list_del id w = Ok tt (lowered (unlisted (c_instance c) id w)).
Proof.
  intros Hc Hi. unfold redsocks_conn_list_del, mbind, M_bind, get_client, get_instance, when.
  rewrite Hc, Hi. unfold unlisted. rewrite Hi. case_bool_decide.
  - unfold mbind, M_bind, modify, mod_instance. cbn. rewrite Hi. apply conn_pressure_lowered_run.
  - apply conn_pressure_lowered_run.
Qed.

Lemma drop_client_run id c i w :
  w_clients w !! id = Some c -> w_instances w !! c_instance c = Some i ->
  (id ∈ i_clients i -> 1 <= redsocks_conn w < 2 ^ 32) ->
  NoDup (client_fds (use_splice (i_config i)) c) ->
  (forall fd, fd ∈ client_fds (use_splice (i_config i)) c -> fd ∈ w_open w) ->
  redsocks_drop_client id w =
    Ok tt (dropped id (c_instance c) (client_fds (use_splice (i_config i)) c) w).
Proof.
  intros Hc Hi Hconn Hnd Hopen. set (fds := client_fds _ c) in *.
  set (w1 := w_set_clients (<[id := c_set_payload (relay_ss_fini (i_relay_ss i) (c_payload c)) c]>
               (w_clients w)) w).
  transitivity ((close_all fds ;; redsocks_conn_list_del id ;; free_client id) w1).
  { unfold redsocks_drop_client. erewrite run_bind by by apply get_client_run.
    erewrite run_bind by by apply get_instance_run. erewrite run_bind by by apply mod_client_run.
    fold w1.
    transitivity ((close_all (buf_fds (c_client c)) ;; close_all (buf_fds (c_relay c)) ;;
      close_all (if use_splice (i_config i) then pump_fds (c_pump c) else []) ;;
      redsocks_conn_list_del id ;; free_client id) w1).
    - apply seq_ext; [apply free_buf_close|intros w2]. apply seq_ext; [apply free_buf_close|].
      intros w3. apply seq_ext; [|done].
      intros w4. destruct (use_splice (i_config i)); [apply drop_pump_close|done].
    - unfold fds, client_fds, mbind, M_bind. rewrite close_all_app. unfold mbind, M_bind.
      destruct (close_all (buf_fds (c_client c)) w1) as [? w2| |]; [|done..].
      rewrite close_all_app. unfold mbind, M_bind.
      by destruct (close_all (buf_fds (c_relay c)) w2). }
  unfold mbind, M_bind. rewrite close_all_run by done.
  assert (Hrun : redsocks_conn_list_del id (lowered_if fds (closed fds w1)) =
    Ok tt (lowered (unlisted (c_instance c) id (closed fds w1)))).
  { assert (Hinst : exists i', w_instances (lowered_if fds (closed fds w1)) !! c_instance c = Some i').
    { destruct fds; cbn; [eauto|]. unfold lowered. repeat case_match; cbn; eauto.
      rewrite list_lookup_fmap, Hi. cbn. eauto. }
    destruct Hinst as [i' Hi'].
    rewrite (conn_list_del_run id (c_set_payload (relay_ss_fini (i_relay_ss i) (c_payload c)) c) _ i').
    - destruct fds; [done|]. cbn [lowered_if]. f_equal. apply unlisted_lowered.
      cbn. intros j Hj. rewrite Hi in Hj. by simplify_eq.
    - destruct fds; cbn [lowered_if]; rewrite ?w_clients_lowered; cbn; by rewrite lookup_insert_eq.
    - exact Hi'. }
  rewrite Hrun. unfold free_client. rewrite w_clients_lowered, w_clients_unlisted. cbn.
  rewrite lookup_insert_eq, delete_insert_eq. f_equal. unfold dropped, w1.
  set (cs := delete id (w_clients w)). unfold lowered, unlisted. cbn. rewrite Hi.
  case_bool_decide; cbn; by repeat (case_match; cbn).
Qed.

End Redsocks.
