(* ===== verification/Ownership.v ===== *)
(** * Ownership of descriptors and accounting of clients

    The invariant every callback of redsocks keeps: each open socket has one owner
    (a client or a listener) and is closed once; the lists of clients hold live
    clients; [redsocks_conn] counts them and stays below the limit; and the process
    accepts, or a timer is pending that makes it accept again. *)

From S2P Require Import Prelude CLib World HttprBuffer Redsocks.
Import Redsocks.
Open Scope Z_scope.

Module Ownership.

Inductive owner := ByClient (id : Z) | ByListener (n : nat).

#[export] Instance owner_eq_dec : EqDecision owner.
Proof. solve_decision. Defined.

Definition fds_of (w : world) (o : owner) : list Z :=
  match o with
  | ByClient id =>
      match w_clients w !! id with
      | Some c => match w_instances w !! c_instance c with
                  | Some i => client_fds (use_splice (i_config i)) c
                  | None => []
                  end
      | None => []
      end
  | ByListener n =>
      match w_instances w !! n with
      | Some i => if i_listener_init i then [i_listener_fd i] else []
      | None => []
      end
  end.

Definition all_listed (w : world) : list Z := concat (i_clients <$> w_instances w).

(** A challenge is remembered only for an instance that can answer it. *)
Definition auth_ok (i : redsocks_instance) : Prop :=
  login (i_config i) = None \/ password (i_config i) = None -> last_auth_query (i_auth i) = None.

(** The configurations the invariant is about: the SOCKS protocols, or http-connect
    without credentials; with either pump. *)
Definition supported (g : redsocks_config) (ss : relay_subsys) : Prop :=
  ss <> http_relay_subsys /\
  (ss = http_connect_subsys -> login g = None \/ password g = None).

Record world_ok (w : world) : Prop := {
  wk_own : forall o, NoDup (fds_of w o);
  wk_open : forall o fd, fd ∈ fds_of w o -> fd ∈ w_open w;
  wk_disj : forall o o' fd, fd ∈ fds_of w o -> fd ∈ fds_of w o' -> o = o';
  wk_inst : forall id c, w_clients w !! id = Some c -> is_Some (w_instances w !! c_instance c);
  wk_listed : forall n i, w_instances w !! n = Some i -> NoDup (i_clients i) /\
    forall id, id ∈ i_clients i -> exists c, w_clients w !! id = Some c /\ c_instance c = n;
  wk_conn : redsocks_conn w = zlen (all_listed w);
  wk_max : redsocks_conn w < 2 ^ 32;
  wk_next : forall id c, w_clients w !! id = Some c -> id < w_next_client w;
  wk_trace : forall fd, sys_ebadf fd ∉ w_trace w;
  wk_auth : forall n i, w_instances w !! n = Some i -> auth_ok i;
  wk_supported : forall n i, w_instances w !! n = Some i -> supported (i_config i) (i_relay_ss i);
  wk_idle : connpres_idle_timeout (w_base w) = 0 }.

(** The number of clients is within the limit. *)
Definition within (w : world) : Prop :=
  redsocks_conn w <= redsocks_conn_max (w_base w) < 2 ^ 32 /\ 0 < max_accept_backoff_ms (w_base w).

(** Full: nobody listens. Once the timer is gone everybody listens, or nobody (when it could
    not be added). *)
Record pressure_ok (w : world) : Prop := {
  pr_max : within w;
  pr_full : redsocks_conn_max (w_base w) <= redsocks_conn w ->
    forall n i, w_instances w !! n = Some i -> i_listening i = false;
  pr_alive : accept_backoff_ev w = None -> exists b, forall n i, w_instances w !! n = Some i -> i_listening i = b }.

Lemma pressure_frame w w' :
  w_instances w' = w_instances w -> redsocks_conn w' = redsocks_conn w ->
  accept_backoff_ev w' = accept_backoff_ev w -> w_base w' = w_base w -> pressure_ok w -> pressure_ok w'.
Proof.
  intros Ei En Ev Eb [Hm Hf Ha]. split; [unfold within; by rewrite En, Eb|by rewrite En, Eb, Ei|by rewrite Ev, Ei].
Qed.

(** ** Two worlds alike for the invariant *)

(** Instances that differ only in their listening state and in the number of
    requests since the last authentication challenge. *)
Definition same_instance (i j : redsocks_instance) : Prop :=
  i_config i = i_config j /\ i_relay_ss i = i_relay_ss j /\ i_clients i = i_clients j /\
  i_listener_init i = i_listener_init j /\ i_listener_fd i = i_listener_fd j /\
  last_auth_query (i_auth i) = last_auth_query (i_auth j).

#[export] Instance same_instance_equiv : Equivalence same_instance.
Proof.
  split; unfold same_instance.
  - intros i. done.
  - intros i j H. naive_solver.
  - intros i j k H1 H2. naive_solver congruence.
Qed.

Definition same_instances (w w' : world) : Prop :=
  Forall2 same_instance (w_instances w) (w_instances w').

Record alike (w w' : world) : Prop := {
  al_clients : w_clients w' = w_clients w;
  al_instances : same_instances w w';
  al_conn : redsocks_conn w' = redsocks_conn w;
  al_base : w_base w' = w_base w;
  al_open : w_open w' = w_open w;
  al_next : w_next_client w' = w_next_client w;
  al_trace : forall fd, sys_ebadf fd ∈ w_trace w' -> sys_ebadf fd ∈ w_trace w }.

Lemma same_instances_refl w : same_instances w w.
Proof. unfold same_instances. apply Forall_Forall2_diag, Forall_forall. done. Qed.

Lemma same_instances_lookup w w' n i :
  same_instances w w' -> w_instances w !! n = Some i ->
  exists i', w_instances w' !! n = Some i' /\ same_instance i i'.
Proof. intros H Hi. by eapply Forall2_lookup_l. Qed.

Lemma same_instances_lookup_r w w' n i :
  same_instances w w' -> w_instances w' !! n = Some i ->
  exists i', w_instances w !! n = Some i' /\ same_instance i' i.
Proof. intros H Hi. by eapply Forall2_lookup_r. Qed.

Lemma same_listed w w' : same_instances w w' -> all_listed w' = all_listed w.
Proof.
  unfold same_instances, all_listed. induction 1 as [|i j l k (? & ? & E & ?) _ IH]; [done|].
  cbn. by rewrite E, IH.
Qed.

Lemma alike_fds w w' o : alike w w' -> fds_of w' o = fds_of w o.
Proof.
  intros H. destruct o as [id|n]; cbn.
  - rewrite (al_clients _ _ H). destruct (w_clients w !! id) as [c|]; [|done].
    destruct (w_instances w !! c_instance c) as [i|] eqn:Hi.
    + destruct (same_instances_lookup _ _ _ _ (al_instances _ _ H) Hi) as (i' & -> & <- & _). done.
    + destruct (w_instances w' !! c_instance c) as [i|] eqn:Hi'; [|done].
      destruct (same_instances_lookup_r _ _ _ _ (al_instances _ _ H) Hi') as (? & ? & _). congruence.
  - destruct (w_instances w !! n) as [i|] eqn:Hi.
    + destruct (same_instances_lookup _ _ _ _ (al_instances _ _ H) Hi) as (i' & -> & ? & ? & ? & <- & <- & _).
      done.
    + destruct (w_instances w' !! n) as [i|] eqn:Hi'; [|done].
      destruct (same_instances_lookup_r _ _ _ _ (al_instances _ _ H) Hi') as (? & ? & _). congruence.
Qed.

Lemma world_ok_alike w w' : alike w w' -> world_ok w -> world_ok w'.
Proof.
  intros H [? ? ? Hinst Hlist Hconn ? ? Htr Hauth Hsup ?]. pose proof (alike_fds w w') as Hf. destruct H as [Hc Hi ? ? Ho ? Ht].
  assert (Hal : alike w w') by done.
  split.
  - intros o. by rewrite Hf.
  - intros o fd. rewrite Hf, Ho by done. eauto.
  - intros o o' fd. rewrite !Hf by done. eauto.
  - intros id c. rewrite Hc. intros Hid. destruct (Hinst _ _ Hid) as [i Hi'].
    destruct (same_instances_lookup _ _ _ _ Hi Hi') as (? & -> & _). eauto.
  - intros n i Hn. destruct (same_instances_lookup_r _ _ _ _ Hi Hn) as (i' & Hi' & Hs).
    destruct (Hlist _ _ Hi') as [? ?]. destruct Hs as (? & ? & <- & _). by rewrite Hc.
  - rewrite (same_listed _ _ Hi). congruence.
  - by replace (redsocks_conn w') with (redsocks_conn w) by done.
  - intros id c. rewrite Hc. replace (w_next_client w') with (w_next_client w) by done. eauto.
  - intros fd Hfd. by apply (Htr fd), Ht.
  - intros n i Hn. destruct (same_instances_lookup_r _ _ _ _ Hi Hn) as (i' & Hi' & Hs).
    destruct Hs as (Eg & _ & _ & _ & _ & Ea). unfold auth_ok. rewrite <-Eg, <-Ea. by eapply Hauth.
  - intros n i Hn. destruct (same_instances_lookup_r _ _ _ _ Hi Hn) as (i' & Hi' & Eg & Es & _).
    rewrite <-Eg, <-Es. by eapply Hsup.
  - by replace (w_base w') with (w_base w).
Qed.

Lemma alike_intro w w' :
  w_clients w' = w_clients w -> w_instances w' = w_instances w -> redsocks_conn w' = redsocks_conn w ->
  w_base w' = w_base w -> w_open w' = w_open w -> w_next_client w' = w_next_client w ->
  (forall fd, sys_ebadf fd ∈ w_trace w' -> sys_ebadf fd ∈ w_trace w) -> alike w w'.
Proof.
  intros ? Hi. intros. split; try done. unfold same_instances. rewrite Hi. apply same_instances_refl.
Qed.

Lemma alike_instances f w :
  (forall i, same_instance i (f i)) -> alike w (w_set_instances (f <$> w_instances w) w).
Proof.
  intros Hf. split; try done. unfold same_instances. cbn. apply Forall2_fmap_r.
  apply Forall_Forall2_diag, Forall_forall. auto.
Qed.

Lemma alike_trans w1 w2 w3 : alike w1 w2 -> alike w2 w3 -> alike w1 w3.
Proof.
  intros [? H1 ? ? ? ? ?] [? H2 ? ? ? ? ?]. split; try congruence; [|auto].
  unfold same_instances in *. etrans; eauto.
Qed.

Lemma alike_lowered w : alike w (lowered w).
Proof.
  unfold lowered. case_match; [by apply alike_intro|].
  destruct (accept_backoff_ev w) as [d|]; [|by apply alike_intro].
  apply (alike_trans _ (w_set_backoff (accept_backoff_ms w) None w)); [by apply alike_intro|].
  by apply (alike_instances (i_set_listening true) (w_set_backoff _ _ _)).
Qed.

(** ** Replacing a client *)

Definition same_client (c c' : redsocks_client) : Prop :=
  c_instance c' = c_instance c /\ forall splice, client_fds splice c' = client_fds splice c.

Lemma fds_upd id c c' w o :
  w_clients w !! id = Some c -> same_client c c' ->
  fds_of (w_set_clients (<[id := c']> (w_clients w)) w) o = fds_of w o.
Proof.
  intros Hc [Hi Hf]. destruct o as [id'|n]; [|done]. cbn. destruct (decide (id = id')) as [<-|].
  - rewrite lookup_insert_eq, Hc, Hi. by destruct (w_instances w !! c_instance c).
  - by rewrite lookup_insert_ne.
Qed.

Lemma world_ok_upd id c c' w :
  w_clients w !! id = Some c -> same_client c c' -> world_ok w ->
  world_ok (w_set_clients (<[id := c']> (w_clients w)) w).
Proof.
  intros Hc Hsame [? ? ? Hinst Hlist ? ? Hnext ?].
  pose proof (fun o => fds_upd id c c' w o Hc Hsame) as Hfds. destruct Hsame as [Hi Hf].
  split; try done.
  - intros o. by rewrite Hfds.
  - intros o fd. rewrite Hfds. eauto.
  - intros o o' fd. rewrite !Hfds. eauto.
  - intros id' d. cbn. intros [[<- <-]|[? Hd]]%lookup_insert_Some; [rewrite Hi; eauto | eauto].
  - cbn. intros n i Hn. destruct (Hlist n i Hn) as [? Hl]. split; [done|]. intros id' Hin.
    destruct (Hl id' Hin) as (d & Hd & ?). destruct (decide (id = id')) as [<-|].
    + rewrite lookup_insert_eq. exists c'. split; congruence.
    + rewrite lookup_insert_ne by done. eauto.
  - cbn. intros id' d [[<- <-]|[? Hd]]%lookup_insert_Some; eauto.
Qed.

(** ** Releasing a client *)

Lemma filter_ne_id (id : Z) (l : list Z) : id ∉ l -> filter (.≠ id) l = l.
Proof.
  induction l as [|x l IH]; [done|]. intros [Hx Hl]%not_elem_of_cons.
  rewrite filter_cons_True by congruence. by rewrite IH.
Qed.

Lemma length_filter_ne (id : Z) (l : list Z) :
  NoDup l -> id ∈ l -> S (length (filter (.≠ id) l)) = length l.
Proof.
  induction l as [|x l IH]; [set_solver|]. intros [Hx Hl]%NoDup_cons Hin.
  rewrite filter_cons. case_decide as E.
  - cbn. f_equal. apply IH; [done|]. set_solver.
  - assert (x = id) as -> by (by destruct (decide (x = id))). cbn. f_equal.
    by rewrite filter_ne_id.
Qed.

Lemma length_concat_insert {A} (ls : list (list A)) n l l' :
  ls !! n = Some l ->
  (length (concat (<[n := l']> ls)) + length l = length (concat ls) + length l')%nat.
Proof.
  revert n. induction ls as [|k ls IH]; intros [|n] Hl; try done; cbn in *; simplify_eq;
    rewrite !length_app.
  - lia.
  - rewrite <-!Nat.add_assoc. f_equal. by apply IH.
Qed.

(** What [unlisted] leaves of a released client. *)
Definition released (id : Z) (n : nat) (fds : list Z) (w : world) : world :=
  w_set_clients (delete id (w_clients w)) (unlisted n id (closed fds w)).

Section released.
Context (w : world) (id : Z) (c : redsocks_client) (i : redsocks_instance).
Context (Hok : world_ok w) (Hc : w_clients w !! id = Some c)
        (Hi : w_instances w !! c_instance c = Some i).
Let fds := client_fds (use_splice (i_config i)) c.
Let w' := released id (c_instance c) fds w.

Lemma fds_client : fds_of w (ByClient id) = fds.
Proof. cbn. by rewrite Hc, Hi. Qed.

Lemma released_instances :
  w_instances w' = <[c_instance c := i_set_clients (filter (.≠ id) (i_clients i)) i]> (w_instances w).
Proof.
  unfold w', released, unlisted. cbn. rewrite Hi. case_bool_decide as Hin; [done|].
  cbn. symmetry. apply list_insert_id. rewrite Hi. f_equal. destruct i; unfold i_set_clients; cbn in *.
  f_equal. by rewrite filter_ne_id.
Qed.

Lemma released_clients : w_clients w' = delete id (w_clients w).
Proof. unfold w', released. done. Qed.

Lemma released_open : w_open w' = w_open w ∖ list_to_set fds.
Proof. unfold w', released, unlisted. cbn. rewrite Hi. by case_bool_decide. Qed.

Lemma released_instance_lookup n :
  exists f, w_instances w' !! n = f <$> w_instances w !! n /\
    (forall j, i_config (f j) = i_config j /\ i_listener_init (f j) = i_listener_init j /\
       i_listener_fd (f j) = i_listener_fd j).
Proof.
  rewrite released_instances. destruct (decide (n = c_instance c)) as [->|Hn].
  - exists (i_set_clients (filter (.≠ id) (i_clients i))). split; [|done].
    rewrite list_lookup_insert_eq by by eapply lookup_lt_Some. by rewrite Hi.
  - exists (fun j => j). split; [|done]. rewrite list_lookup_insert_ne by done.
    by destruct (w_instances w !! n).
Qed.

Lemma released_fds o : fds_of w' o = if decide (o = ByClient id) then [] else fds_of w o.
Proof.
  case_decide as Ho.
  - subst o. cbn -[w']. by rewrite released_clients, lookup_delete_eq.
  - destruct o as [id'|n]; cbn -[w'].
    + rewrite released_clients, lookup_delete_ne by congruence.
      destruct (w_clients w !! id') as [d|]; [|done].
      destruct (released_instance_lookup (c_instance d)) as (f & -> & Hf).
      destruct (w_instances w !! c_instance d) as [j|]; [|done]. cbn. by destruct (Hf j) as (-> & _).
    + destruct (released_instance_lookup n) as (f & -> & Hf).
      destruct (w_instances w !! n) as [j|]; [|done]. cbn. by destruct (Hf j) as (_ & -> & ->).
Qed.

Lemma released_conn :
  redsocks_conn w' = redsocks_conn w - (if bool_decide (id ∈ i_clients i) then 1 else 0) /\
  redsocks_conn w' = zlen (all_listed w').
Proof.
  destruct (wk_listed _ Hok _ _ Hi) as [Hnd _].
  pose proof (length_concat_insert (i_clients <$> w_instances w) (c_instance c) (i_clients i)
                (filter (.≠ id) (i_clients i))) as Hlen.
  rewrite list_lookup_fmap, Hi in Hlen. specialize (Hlen eq_refl).
  unfold all_listed. rewrite released_instances, list_fmap_insert. cbn [i_clients i_set_clients].
  pose proof (wk_conn _ Hok) as Hn. pose proof (wk_max _ Hok). unfold all_listed, zlen in *.
  unfold w', released, unlisted. cbn. rewrite Hi. case_bool_decide as Hin; cbn.
  - pose proof (length_filter_ne id (i_clients i) Hnd Hin).
    rewrite u32_id; lia.
  - rewrite filter_ne_id in Hlen |- * by done. lia.
Qed.

Lemma released_ok : world_ok w'.
Proof.
  pose proof Hok as [Hown Hopen Hdisj Hinst Hlist ? ? Hnext Htr Hauth Hsup ?].
  destruct released_conn as [Hn1 Hn2].
  split.
  - intros o. rewrite released_fds. destruct (decide _); [constructor | done].
  - intros o fd. rewrite released_fds, released_open. destruct (decide _) as [|Ho]; [by intros ?%not_elem_of_nil|].
    intros Hin.
    apply elem_of_difference. split; [eauto|]. rewrite elem_of_list_to_set. intros Hfd.
    apply Ho. apply (Hdisj _ _ fd); [done|]. by rewrite fds_client.
  - intros o o' fd. rewrite !released_fds.
    destruct (decide _), (decide _); try by intros ?%not_elem_of_nil. { by intros ? ?%not_elem_of_nil. } eauto.
  - intros id' d. rewrite released_clients. intros [? Hd]%lookup_delete_Some.
    destruct (released_instance_lookup (c_instance d)) as (f & -> & _).
    destruct (Hinst _ _ Hd) as [? ->]. eauto.
  - intros n j. rewrite released_instances, released_clients.
    intros [(<- & <- & _)|[Hne Hj]]%list_lookup_insert_Some.
    + cbn. destruct (Hlist _ _ Hi) as [? Hl]. split; [by apply NoDup_filter|].
      intros id' [? Hin]%list_elem_of_filter. destruct (Hl _ Hin) as (d & ? & ?). exists d.
      by rewrite lookup_delete_ne.
    + destruct (Hlist _ _ Hj) as [? Hl]. split; [done|]. intros id' Hin.
      destruct (Hl _ Hin) as (d & Hd & <-). exists d. rewrite lookup_delete_ne; [done|].
      intros <-. simplify_eq.
  - done.
  - case_bool_decide; lia.
  - intros id' d. rewrite released_clients. intros [? Hd]%lookup_delete_Some.
    replace (w_next_client w') with (w_next_client w); [eauto|].
    unfold w', released, unlisted. cbn. rewrite Hi. by case_bool_decide.
  - intros fd. replace (w_trace w') with (w_trace w ++ (sys_close <$> fds)).
    + rewrite elem_of_app, list_elem_of_fmap. intros [?|(? & ? & _)]; [by eapply Htr|done].
    + unfold w', released, unlisted. cbn. rewrite Hi. by case_bool_decide.
  - intros n j. rewrite released_instances.
    intros [(<- & <- & _)|[Hne Hj]]%list_lookup_insert_Some; [apply (Hauth _ _ Hi)|by eapply Hauth].
  - intros n j. rewrite released_instances.
    intros [(<- & <- & _)|[Hne Hj]]%list_lookup_insert_Some; [apply (Hsup _ _ Hi)|by eapply Hsup].
  - replace (w_base w') with (w_base w); [done|].
    unfold w', released, unlisted. cbn. rewrite Hi. by case_bool_decide.
Qed.
End released.

End Ownership.
