(* ===== verification/ClientLogic.v ===== *)
(** * Reasoning about one client

    The callbacks of redsocks work on one client at a time. [held] says that
    the process is sound and the client [id] is exactly [c], whatever invariant the
    other clients satisfy; [gone] says that the client was released. One rule per
    primitive and per operation of redsocks.c lets a callback be run symbolically. *)

From S2P Require Import Prelude CLib World HttprBuffer Redsocks Ownership.
Import Redsocks Ownership.
Open Scope Z_scope.

(** What is promised about a client between two callbacks. *)
Class ClientInv := client_inv : redsocks_config -> relay_subsys -> redsocks_client -> Prop.

Section logic.
Context `{CI : !ClientInv}.

Definition settled (w : world) (id : Z) : Prop :=
  forall c i, w_clients w !! id = Some c -> w_instances w !! c_instance c = Some i ->
  id ∈ i_clients i /\ client_inv (i_config i) (i_relay_ss i) c.

(** The state of the process between two callbacks. *)
Definition sound (w : world) : Prop :=
  world_ok w /\ pressure_ok w /\ forall id, settled w id.

(** [l]: the client is in the list of its instance. *)
Definition held (l : bool) (id : Z) (g : redsocks_config) (ss : relay_subsys) (c : redsocks_client)
  (w : world) : Prop :=
  world_ok w /\ pressure_ok w /\ (forall id', id' <> id -> settled w id') /\
  w_clients w !! id = Some c /\
  exists i, w_instances w !! c_instance c = Some i /\ (id ∈ i_clients i <-> l = true) /\
    i_config i = g /\ i_relay_ss i = ss.

Definition gone (id : Z) (w : world) : Prop := sound w /\ w_clients w !! id = None.

Lemma sound_at w id c :
  sound w -> w_clients w !! id = Some c ->
  exists g ss, held true id g ss c w /\ client_inv g ss c.
Proof.
  intros (Hok & Hp & Hs) Hc. destruct (wk_inst _ Hok _ _ Hc) as [i Hi].
  destruct (Hs id c i Hc Hi). exists (i_config i), (i_relay_ss i).
  split; [|done]. split_and!; [done..| |done|]; [auto|]. exists i. by split_and!.
Qed.

Lemma at_sound w id g ss c : held true id g ss c w -> client_inv g ss c -> sound w.
Proof.
  intros (? & ? & Hs & Hc & i & Hi & ? & <- & <-) Hinv. split_and!; [done..|].
  intros id'. destruct (decide (id' = id)) as [->|]; [|auto].
  intros c' i' Hc' Hi'. assert (c' = c) as -> by congruence. assert (i' = i) as -> by congruence. naive_solver.
Qed.

Context {listed : bool}.

(** ** Changes that keep the clients *)

Lemma settled_alike w w' id : alike w w' -> settled w id -> settled w' id.
Proof.
  intros H Hs c i. rewrite (al_clients _ _ H). intros Hc Hi.
  destruct (same_instances_lookup_r _ _ _ _ (al_instances _ _ H) Hi) as (j & Hj & <- & <- & E & _).
  rewrite <-E. eauto.
Qed.

Lemma at_alike w w' id g ss c :
  alike w w' -> pressure_ok w' -> held listed id g ss c w -> held listed id g ss c w'.
Proof.
  intros H Hp (? & _ & Hs & Hc & i & Hi & ? & Hg & Hss). split_and!.
  - by eapply world_ok_alike.
  - done.
  - intros id' Hne. eapply settled_alike; eauto.
  - by rewrite (al_clients _ _ H).
  - destruct (same_instances_lookup _ _ _ _ (al_instances _ _ H) Hi) as (j & Hj & E1 & E2 & E3 & _).
    exists j. rewrite <-E3. split_and!; congruence.
Qed.

(** Changes outside clients, instances, accounting and open descriptors. *)
Definition aside (w w' : world) : Prop :=
  w_clients w' = w_clients w /\ w_instances w' = w_instances w /\
  redsocks_conn w' = redsocks_conn w /\ accept_backoff_ev w' = accept_backoff_ev w /\
  w_base w' = w_base w /\ w_open w' = w_open w /\ w_next_client w' = w_next_client w /\
  (forall fd, sys_ebadf fd ∈ w_trace w' -> sys_ebadf fd ∈ w_trace w).

Lemma at_aside w w' id g ss c : aside w w' -> held listed id g ss c w -> held listed id g ss c w'.
Proof.
  intros (E1 & Ei & En & Ev & Eb & E2 & E3 & E4) H. eapply at_alike; [by apply alike_intro| |done].
  apply (pressure_frame w); [done..|]. apply H.
Qed.

Lemma at_answer id g ss c Q w :
  held listed id g ss c w -> (forall e w, held listed id g ss c w -> Q e w) -> wp answer Q w.
Proof. intros H HQ. apply wp_answer. intros e a. apply HQ. eapply at_aside; [|done]. done. Qed.

Lemma at_gettimeofday id g ss c Q w :
  held listed id g ss c w -> (forall t w, held listed id g ss c w -> Q t w) -> wp gettimeofday Q w.
Proof. intros H HQ. apply wp_gettimeofday. intros t ts. apply HQ. eapply at_aside; [|done]. done. Qed.

Lemma at_red_randui32 id g ss c Q w :
  held listed id g ss c w ->
  (forall r w, 0 <= r < 2 ^ 32 -> held listed id g ss c w -> Q r w) -> wp red_randui32 Q w.
Proof. intros H HQ. apply wp_red_randui32. intros r rs Hr. apply HQ; [done|]. eapply at_aside; [|done]. done. Qed.

Lemma at_trace id g ss c Q w e :
  held listed id g ss c w -> (forall fd, e <> sys_ebadf fd) ->
  (forall w, held listed id g ss c w -> Q tt w) -> wp (trace e) Q w.
Proof.
  intros H He HQ. apply wp_modify, HQ. eapply at_aside; [|done]. split_and!; try done.
  intros fd. cbn. rewrite elem_of_app, list_elem_of_singleton. intros [?|E]; [done|].
  by destruct (He fd).
Qed.

Lemma at_get id g ss c Q w : held listed id g ss c w -> Q c w -> wp (get_client id) Q w.
Proof. intros (_ & _ & _ & Hc & _) HQ. by eapply wp_get_client. Qed.

Lemma at_instance id g ss c Q w :
  held listed id g ss c w ->
  (forall i, w_instances w !! c_instance c = Some i -> i_config i = g -> i_relay_ss i = ss -> Q i w) ->
  wp (get_instance (c_instance c)) Q w.
Proof. intros (_ & _ & _ & _ & i & Hi & _ & Hg & Hs) HQ. eapply wp_get_instance; eauto. Qed.

Lemma at_buf id g ss c s b Q w :
  held listed id g ss c w -> c_buf s c = Some b -> Q b w -> wp (get_buf id s) Q w.
Proof. intros (_ & _ & _ & Hc & _) Hb HQ. by eapply wp_get_buf. Qed.

(** A change of the client's instance that leaves its listening state. *)
Lemma at_mod_instance id g ss c i f Q w :
  held listed id g ss c w -> w_instances w !! c_instance c = Some i -> same_instance i (f i) ->
  i_listening (f i) = i_listening i -> (forall w, held listed id g ss c w -> Q tt w) ->
  wp (mod_instance (c_instance c) f) Q w.
Proof.
  intros H Hi Hsame Hl HQ. eapply wp_mod_instance; [done|]. apply HQ.
  eapply at_alike; [| |done].
  - split; try done. unfold same_instances. cbn.
    apply Forall2_same_length_lookup_2; [by rewrite length_insert|].
    intros n x y Hx [(<- & <- & _)|[_ Hy]]%list_lookup_insert_Some; by simplify_eq.
  - destruct H as (_ & [Hm Hf Ha] & _). split; cbn; [done|..].
    + intros Hfull n j [(<- & <- & _)|[_ Hj]]%list_lookup_insert_Some; [rewrite Hl|]; eauto.
    + intros [x Hx]%Ha. exists x. intros n j [(<- & <- & _)|[_ Hj]]%list_lookup_insert_Some; [rewrite Hl|]; eauto.
Qed.

Lemma at_auth_ok id g ss c i w :
  held listed id g ss c w -> w_instances w !! c_instance c = Some i -> auth_ok i.
Proof. intros (Hok & _) Hi. by eapply (wk_auth _ Hok). Qed.

(** ** Changes of the client *)

Lemma at_upd id g ss c c' w :
  held listed id g ss c w -> same_client c c' ->
  held listed id g ss c' (w_set_clients (<[id := c']> (w_clients w)) w).
Proof.
  intros (? & [Hm Hf Ha] & Hs & Hc & i & Hi & Hin & Hg & Hss) Hsame. split_and!.
  - by eapply world_ok_upd.
  - by split.
  - intros id' Hne d j. cbn. rewrite lookup_insert_ne by done. apply Hs. done.
  - cbn. apply lookup_insert_eq.
  - exists i. destruct Hsame as [-> _]. done.
Qed.

Lemma at_mod id g ss c f Q w :
  held listed id g ss c w -> same_client c (f c) ->
  (forall w, held listed id g ss (f c) w -> Q tt w) -> wp (mod_client id f) Q w.
Proof.
  intros H Hsame HQ. destruct (H) as (_ & _ & _ & Hc & _). eapply wp_mod_client; [done|].
  apply HQ. by eapply at_upd.
Qed.

Lemma same_client_buf s b b' c :
  c_buf s c = Some b -> be_fd b' = be_fd b -> same_client c (c_set_buf s (Some b') c).
Proof.
  intros Hb Hfd. destruct c, s; cbn in *; subst; unfold same_client, client_fds; cbn; by rewrite Hfd.
Qed.

Lemma at_mod_buf id g ss c s b f Q w :
  held listed id g ss c w -> c_buf s c = Some b -> be_fd (f b) = be_fd b ->
  (forall w, held listed id g ss (c_set_buf s (Some (f b)) c) w -> Q tt w) -> wp (mod_buf id s f) Q w.
Proof.
  intros H Hb Hfd HQ. destruct (H) as (_ & _ & _ & Hc & _). eapply wp_mod_buf; [done..|].
  apply HQ. eapply at_upd; [done|]. by eapply same_client_buf.
Qed.

Lemma at_touch id g ss c Q w :
  held listed id g ss c w ->
  (forall t w, held listed id g ss (c_set_last t c) w -> Q tt w) ->
  wp (redsocks_touch_client id) Q w.
Proof.
  intros H HQ. apply wp_bind. eapply at_gettimeofday; [done|]. intros t w' H'.
  by eapply at_mod; [done| |apply HQ].
Qed.

(** ** Release *)

Lemma pressure_released id c i w :
  w_instances w !! c_instance c = Some i -> world_ok w -> pressure_ok w -> w_clients w !! id = Some c ->
  pressure_ok (dropped id (c_instance c) (client_fds (use_splice (i_config i)) c) w).
Proof.
  intros Hi Hok [Hm Hf Ha] Hc.
  change (dropped id (c_instance c) (client_fds (use_splice (i_config i)) c) w) with
    (lowered (released id (c_instance c) (client_fds (use_splice (i_config i)) c) w)).
  destruct (released_conn w id c i Hok Hi) as [Hn _].
  pose proof (released_instances w id c i Hi) as Hins.
  set (w' := released _ _ _ w) in *.
  assert (Hb : w_base w' = w_base w /\ accept_backoff_ev w' = accept_backoff_ev w).
  { unfold w', released, unlisted. cbn. rewrite Hi. by case_bool_decide. }
  destruct Hb as [Hb He].
  assert (Hl : forall n j, w_instances w' !! n = Some j ->
            exists j', w_instances w !! n = Some j' /\ i_listening j' = i_listening j).
  { intros n j. rewrite Hins. intros [(<- & <- & _)|[_ ?]]%list_lookup_insert_Some; eauto. }
  assert (Hm' : within w') by (unfold within in *; rewrite Hb, Hn; case_bool_decide; lia).
  clearbody w'. unfold lowered. destruct (Z.geb_spec (redsocks_conn w') (redsocks_conn_max (w_base w'))) as [Hge|Hlt].
  - split; [done| |].
    + intros _ n j Hj. destruct (Hl n j Hj) as (j' & Hj' & <-). eapply Hf; [|done].
      rewrite <-Hb. case_bool_decide; lia.
    + rewrite He. intros [x Hx]%Ha. exists x. intros n j Hj. destruct (Hl n j Hj) as (j' & Hj' & <-). eauto.
  - destruct (accept_backoff_ev w') eqn:Ev.
    + split; cbn; [done|intros ?; exfalso; lia|]. intros _. exists true. intros n j. rewrite list_lookup_fmap, fmap_Some. by intros (? & _ & ->).
    + split; [done|intros ?; exfalso; lia|]. intros _. destruct Ha as [x Hx]; [congruence|]. exists x. intros n j Hj. destruct (Hl n j Hj) as (j' & Hj' & <-). eauto.
Qed.

Lemma conn_positive w n i id :
  world_ok w -> w_instances w !! n = Some i -> id ∈ i_clients i -> 1 <= redsocks_conn w.
Proof.
  intros Hok Hi Hin. rewrite (wk_conn _ Hok). unfold all_listed.
  destruct (concat (i_clients <$> w_instances w)) eqn:E; [|unfold zlen; cbn; lia].
  exfalso. apply (not_elem_of_nil id). rewrite <-E. apply list_elem_of_In, in_concat.
  exists (i_clients i). rewrite <-!list_elem_of_In. split; [|done].
  apply list_elem_of_fmap. exists i. split; [done|]. by eapply list_elem_of_lookup_2.
Qed.

Lemma drop_run id c i w :
  world_ok w -> w_clients w !! id = Some c -> w_instances w !! c_instance c = Some i ->
  redsocks_drop_client id w =
    Ok tt (dropped id (c_instance c) (client_fds (use_splice (i_config i)) c) w).
Proof.
  intros Hok Hc Hi. pose proof (fds_client w id c i Hc Hi) as Hfds. apply drop_client_run; [done..| | |].
  - intros Hin. pose proof (wk_max _ Hok). pose proof (conn_positive w _ _ id Hok Hi Hin). lia.
  - rewrite <-Hfds. apply Hok.
  - intros fd. rewrite <-Hfds. apply (wk_open _ Hok).
Qed.

Lemma dropped_ok id c i w :
  world_ok w -> (forall id', id' <> id -> settled w id') ->
  w_clients w !! id = Some c -> w_instances w !! c_instance c = Some i ->
  let w' := dropped id (c_instance c) (client_fds (use_splice (i_config i)) c) w in
  world_ok w' /\ (forall id', settled w' id') /\ w_clients w' = delete id (w_clients w).
Proof.
  intros Hok Hs Hc Hi. split_and!.
  - eapply world_ok_alike; [apply alike_lowered|]. by apply released_ok.
  - intros id' d j Hd Hj. unfold dropped in Hd, Hj.
    rewrite w_clients_lowered in Hd. cbn in Hd. apply lookup_delete_Some in Hd as [Hne Hd].
    destruct (same_instances_lookup_r _ _ _ _ (al_instances _ _ (alike_lowered _)) Hj)
      as (j' & Hj' & <- & <- & <- & _).
    change (w_instances (released id (c_instance c) (client_fds (use_splice (i_config i)) c) w)
              !! c_instance d = Some j') in Hj'.
    rewrite (released_instances w id c i Hi) in Hj'.
    apply list_lookup_insert_Some in Hj' as [(E & <- & _)|[? Hj']].
    + cbn. rewrite E in Hi. destruct (Hs id' ltac:(done) d i Hd Hi) as [? ?].
      split; [by apply list_elem_of_filter|done].
    + eapply Hs; eauto.
  - unfold dropped. by rewrite w_clients_lowered.
Qed.

Lemma at_drop id g ss c Q w :
  held listed id g ss c w -> (forall w, gone id w -> Q tt w) -> wp (redsocks_drop_client id) Q w.
Proof.
  intros (Hok & Hp & Hs & Hc & i & Hi & _ & <- & <-) HQ.
  destruct (dropped_ok id c i w Hok Hs Hc Hi) as (H1 & H2 & H3).
  unfold wp. rewrite (drop_run id c i w Hok Hc Hi). apply HQ. split; [split_and!; [done| |done]|].
  - by apply pressure_released.
  - rewrite H3. apply lookup_delete_eq.
Qed.

(** ** Calls of libevent on the buffers of the client *)

Lemma at_enable id g ss c s b ev Q w :
  held listed id g ss c w -> c_buf s c = Some b ->
  (ev = 0 -> forall w, held listed id g ss c w -> Q true w) ->
  (ev <> 0 -> forall w, held listed id g ss (c_set_buf s (Some (be_enable ev b)) c) w -> Q true w) ->
  (ev <> 0 -> forall w, held listed id g ss (c_set_buf s (Some (be_enable_failed ev b)) c) w -> Q false w) ->
  wp (bufferevent_enable id s ev) Q w.
Proof.
  intros H Hb H0 H1 H2. unfold bufferevent_enable. destruct (Z.eqb_spec ev 0); [by apply H0|].
  apply wp_bind. eapply at_answer; [done|]. clear w H. intros e w H.
  case_match; apply wp_bind; (eapply at_mod_buf; [done..|]); intros ? ?; apply wp_ret; auto.
Qed.

Lemma at_disable id g ss c s b ev Q w :
  held listed id g ss c w -> c_buf s c = Some b ->
  (forall w, held listed id g ss (c_set_buf s (Some (be_disable ev b)) c) w -> Q true w) ->
  (forall w, held listed id g ss (c_set_buf s (Some (be_disable_failed ev b)) c) w -> Q false w) ->
  wp (bufferevent_disable id s ev) Q w.
Proof.
  intros H Hb H1 H2. apply wp_bind. eapply at_answer; [done|]. clear w H. intros e w H.
  case_match; apply wp_bind; (eapply at_mod_buf; [done..|]); intros ? ?; apply wp_ret; auto.
Qed.

(** The client after [redsocks_shutdown], when its buffer ends up as [b]. *)
Definition after_shutdown (s : side) (how : shut_how) (b : bufferevent) (c : redsocks_client) :=
  let c := c_set_buf s (Some b) c in c_set_evshut s (Z.lor (c_evshut s c) (evhow how)) c.

Lemma at_shutdown id g ss c s how b Q w :
  held listed id g ss c w -> c_buf s c = Some b ->
  (forall b' w, b' = be_disable (evhow how) b \/ b' = be_disable_failed (evhow how) b ->
     let c' := after_shutdown s how b' c in
     if shut_both c' then gone id w -> Q tt w else held listed id g ss c' w -> Q tt w) ->
  wp (redsocks_shutdown id s how) Q w.
Proof.
  intros H Hb HQ.
  assert (Hrest : forall b' w, b' = be_disable (evhow how) b \/ b' = be_disable_failed (evhow how) b ->
    held listed id g ss (c_set_buf s (Some b') c) w ->
    wp (mod_client id (fun c => c_set_evshut s (Z.lor (c_evshut s c) (evhow how)) c) ;;
        c ← get_client id; when (shut_both c) (redsocks_drop_client id)) Q w).
  { clear w H. intros b' w Hb' H. apply wp_bind. eapply at_mod; [done|by destruct c, s|].
    clear w H. intros w H. fold (after_shutdown s how b' c) in H.
    apply wp_bind. eapply at_get; [done|]. specialize (fun w => HQ b' w Hb').
    apply wp_when; intros Hs; cbn in HQ; rewrite Hs in HQ; [|auto].
    eapply at_drop; [done|]. auto. }
  assert (Hstep : forall w, held listed id g ss c w ->
    wp (bufferevent_disable id s (evhow how) ;;
        mod_client id (fun c => c_set_evshut s (Z.lor (c_evshut s c) (evhow how)) c) ;;
        c ← get_client id; when (shut_both c) (redsocks_drop_client id)) Q w).
  { clear w H. intros w H. apply wp_bind. eapply at_disable; [done..| |]; (intros ? ?; eapply Hrest; [|eassumption]; auto). }
  apply wp_bind. eapply at_buf; [done..|]. apply wp_bind. eapply at_get; [done|].
  apply wp_bind, wp_when; intros _; [|auto]. by eapply at_trace.
Qed.

(** ** Descriptors on their way to or from the client *)

(** Open, and nobody's yet. *)
Definition spare (fd : Z) (w : world) : Prop :=
  fd ∈ w_open w /\ 0 <= fd /\ forall o, fd ∉ fds_of w o.

Lemma aside_alike w w' : aside w w' -> alike w w'.
Proof. intros (? & ? & ? & ? & ? & ? & ? & ?). by apply alike_intro. Qed.

Lemma spare_alike fd w w' : alike w w' -> spare fd w -> spare fd w'.
Proof.
  intros H (? & ? & Hn). split; [by rewrite (al_open _ _ H)|]. split; [done|].
  intros o. by rewrite (alike_fds _ _ _ H).
Qed.

Lemma at_frame id g ss c w w' :
  w_clients w' = w_clients w -> w_instances w' = w_instances w ->
  redsocks_conn w' = redsocks_conn w -> accept_backoff_ev w' = accept_backoff_ev w ->
  w_base w' = w_base w -> world_ok w' -> held listed id g ss c w -> held listed id g ss c w'.
Proof.
  intros Ec Ei En Ev Eb Hok (_ & Hp & Hs & Hc & Hex). pose proof (pressure_frame w w' Ei En Ev Eb Hp).
  unfold held, settled in *. rewrite Ec, Ei. by split_and!.
Qed.

(** Statements about the process that calls which open or close spare descriptors,
    or enable the listeners, do not disturb. *)
Class Stable (P : world -> Prop) : Prop := {
  stable_ok : forall w, P w -> world_ok w /\ pressure_ok w;
  stable_alike : forall w w', alike w w' -> pressure_ok w' -> P w -> P w';
  stable_frame : forall w w',
    w_clients w' = w_clients w -> w_instances w' = w_instances w ->
    redsocks_conn w' = redsocks_conn w -> accept_backoff_ev w' = accept_backoff_ev w ->
    w_base w' = w_base w -> world_ok w' -> P w -> P w' }.

#[export] Instance held_stable id g ss c : Stable (held listed id g ss c).
Proof.
  split.
  - intros w (? & ? & _). done.
  - intros w w'. apply at_alike.
  - intros w w'. apply at_frame.
Qed.

#[export] Instance sound_stable : Stable sound.
Proof.
  split.
  - intros w (? & ? & _). done.
  - intros w w' H Hp (Hok & _ & Hs). split_and!; [by eapply world_ok_alike|done|].
    intros id. by eapply settled_alike.
  - intros w w' Ec Ei En Ev Eb Hok (_ & Hp & Hs). pose proof (pressure_frame w w' Ei En Ev Eb Hp).
    unfold sound, settled in *. rewrite Ec, Ei. by split_and!.
Qed.

Section stable.
Context (P : world -> Prop) `{!Stable P}.

Lemma stable_aside w w' : aside w w' -> P w -> P w'.
Proof.
  intros Ha HP. eapply stable_alike; [by apply aside_alike| |done].
  destruct Ha as (_ & Ei & En & Ev & Eb & _). apply (pressure_frame w); [done..|]. apply (stable_ok _ HP).
Qed.

Lemma stable_open_fd Q w :
  P w -> (forall e w, P w -> Q (inr e) w) ->
  (forall fd w, P w -> spare fd w -> Q (inl fd) w) -> wp open_fd Q w.
Proof.
  intros H Hno Hyes. destruct (stable_ok _ H) as [[? Ho ? ? ? ? ? ? ?] _]. apply wp_open_fd.
  - intros e a. apply Hno. by apply (stable_aside w).
  - intros fd a Hfresh Hpos. apply Hyes.
    + eapply stable_frame; [..|done]; [done..|]. split; try done. cbn. intros o fd' Hin.
      apply elem_of_union_r. eauto.
    + split_and!; [cbn; set_solver|done|]. intros o Hin. by apply Hfresh, (Ho o).
Qed.

Lemma stable_closed fd w : P w -> spare fd w -> P (closed [fd] w).
Proof.
  intros H (Hopen & _ & Hn). destruct (stable_ok _ H) as [[? Ho ? ? ? ? ? ? Htr] _].
  eapply stable_frame; [..|done]; [done..|]. split; try done.
  - intros o fd' Hin. cbn. pose proof (Ho o fd' Hin). assert (fd' <> fd) by (intros ->; by eapply Hn).
    set_solver.
  - intros fd'. cbn. rewrite elem_of_app, list_elem_of_singleton. intros [?|?]; [by eapply Htr|done].
Qed.

Lemma pressure_lowered w : pressure_ok w -> pressure_ok (lowered w).
Proof.
  intros Hp. unfold lowered. destruct (Z.geb_spec (redsocks_conn w) (redsocks_conn_max (w_base w))); [done|].
  destruct (accept_backoff_ev w) eqn:Ev; [|done].
  split; cbn; [apply (pr_max _ Hp)|intros ?; exfalso; lia|]. intros _. exists true. intros n j. rewrite list_lookup_fmap, fmap_Some.
  by intros (? & _ & ->).
Qed.

Lemma stable_lowered w : P w -> P (lowered w).
Proof.
  intros H. eapply stable_alike; [apply alike_lowered| |done].
  apply pressure_lowered. apply (stable_ok _ H).
Qed.

Lemma stable_close_spare fd Q w :
  P w -> spare fd w -> (forall w, P w -> Q tt w) -> wp (redsocks_close fd) Q w.
Proof.
  intros H Hsp HQ. unfold wp. rewrite redsocks_close_run by apply Hsp. apply HQ.
  apply stable_lowered. by apply stable_closed.
Qed.
End stable.

Lemma at_open_fd id g ss c Q w :
  held listed id g ss c w ->
  (forall e w, held listed id g ss c w -> Q (inr e) w) ->
  (forall fd w, held listed id g ss c w -> spare fd w -> Q (inl fd) w) ->
  wp open_fd Q w.
Proof. apply stable_open_fd. apply _. Qed.

Lemma at_close_spare id g ss c fd Q w :
  held listed id g ss c w -> spare fd w ->
  (forall w, held listed id g ss c w -> Q tt w) -> wp (redsocks_close fd) Q w.
Proof. apply stable_close_spare. apply _. Qed.

Lemma client_fds_attach sp s b c :
  c_buf s c = None -> 0 <= be_fd b ->
  client_fds sp (c_set_buf s (Some b) c) ≡ₚ be_fd b :: client_fds sp c.
Proof.
  intros Hs Hpos. unfold client_fds.
  assert (E : fd_list (be_fd b) = [be_fd b]) by (unfold fd_list; by destruct (Z.eqb_spec (be_fd b) (-1)); [lia|]).
  destruct s; cbn [c_client c_relay c_pump c_set_buf c_buf buf_fds] in *; rewrite Hs, E; cbn [buf_fds app].
  - done.
  - by rewrite <-Permutation_middle.
Qed.

(** A release leaves the spare descriptors. *)
Lemma at_drop_spare id g ss c fd Q w :
  held listed id g ss c w -> spare fd w ->
  (forall w, gone id w -> spare fd w -> Q tt w) -> wp (redsocks_drop_client id) Q w.
Proof.
  intros H (Hopen & Hpos & Hn) HQ. destruct (H) as (Hok & _ & _ & Hc & i & Hi & _).
  assert (Hrun : wp (redsocks_drop_client id) (fun _ w' => gone id w' /\
     w' = dropped id (c_instance c) (client_fds (use_splice (i_config i)) c) w) w).
  { pose proof (at_drop id g ss c (fun _ w' => gone id w') w H ltac:(auto)) as Hd.
    unfold wp in *. by rewrite (drop_run id c i w Hok Hc Hi) in *. }
  eapply wp_mono; [done|]. intros [] w' [Hg ->]. apply HQ; [done|].
  eapply spare_alike; [apply alike_lowered|].
  change (w_set_clients _ _) with (released id (c_instance c) (client_fds (use_splice (i_config i)) c) w).
  split_and!; [|done|].
  - rewrite (released_open w id c i Hi). apply elem_of_difference. split; [done|].
    rewrite elem_of_list_to_set. intros Hin. apply (Hn (ByClient id)). by rewrite (fds_client w id c i Hc Hi).
  - intros o. rewrite (released_fds w id c i Hi). case_decide; [apply not_elem_of_nil|apply Hn].
Qed.

(** The client takes spare descriptors and lets go of some of its own. *)
Lemma at_fds id g ss c c' w :
  held listed id g ss c w -> c_instance c' = c_instance c -> NoDup (client_fds (use_splice g) c') ->
  (forall fd, fd ∈ client_fds (use_splice g) c' -> fd ∈ client_fds (use_splice g) c \/ spare fd w) ->
  let w' := w_set_clients (<[id := c']> (w_clients w)) w in
  held listed id g ss c' w' /\
  forall fd, 0 <= fd -> fd ∈ client_fds (use_splice g) c \/ spare fd w ->
    fd ∉ client_fds (use_splice g) c' -> spare fd w'.
Proof.
  intros H Hinst Hnd Hsub. destruct (H) as (Hok & [Hm Hf Ha] & Hs & Hc & i & Hi & Hin & Hg & Hss).
  intros w'.
  assert (Hmine : fds_of w (ByClient id) = client_fds (use_splice g) c) by (cbn; by rewrite Hc, Hi, Hg).
  assert (Hfds : fds_of w' (ByClient id) = client_fds (use_splice g) c').
  { unfold w'. cbn [fds_of w_clients w_instances w_set_clients]. by rewrite lookup_insert_eq, Hinst, Hi, Hg. }
  assert (Hother : forall o, o <> ByClient id -> fds_of w' o = fds_of w o).
  { intros [id'|n] Hne; [|done]. unfold w'. cbn [fds_of w_clients w_instances w_set_clients].
    rewrite lookup_insert_ne by congruence. done. }
  assert (Hfrom : forall o fd, fd ∈ fds_of w' o -> fd ∈ fds_of w o \/ spare fd w /\ o = ByClient id).
  { intros o fd. destruct (decide (o = ByClient id)) as [->|Hne]; [|rewrite Hother by done; by left].
    rewrite Hfds, Hmine. intros [?|?]%Hsub; auto. }
  split.
  - split_and!.
    + destruct Hok as [Hown Ho Hd Hex Hl ? ? Hnext ?]. split; try done.
      * intros o. destruct (decide (o = ByClient id)) as [->|Hne]; [by rewrite Hfds|by rewrite Hother].
      * intros o fd Hfd. cbn. destruct (Hfrom o fd Hfd) as [?|[[? _] _]]; [by eapply Ho|done].
      * intros o o' fd H1 H2. destruct (Hfrom _ _ H1) as [?|[(_ & _ & Hn) ->]], (Hfrom _ _ H2) as [?|[(_ & _ & Hn') ->]];
          eauto; [by destruct (Hn' o)|by destruct (Hn o')].
      * cbn. intros id' d [[<- <-]|[? Hd']]%lookup_insert_Some; [rewrite Hinst; by exists i|eauto].
      * cbn. intros n j Hj. destruct (Hl n j Hj) as [? Hl']. split; [done|]. intros id' Hin'.
        destruct (Hl' id' Hin') as (d & Hd' & ?). destruct (decide (id = id')) as [<-|].
        -- rewrite lookup_insert_eq. eexists. split; [done|]. congruence.
        -- rewrite lookup_insert_ne by done. eauto.
      * cbn. intros id' d [[<- <-]|[? Hd']]%lookup_insert_Some; eauto.
    + by split.
    + intros id' Hne d j. cbn. rewrite lookup_insert_ne by done. by apply Hs.
    + cbn. apply lookup_insert_eq.
    + rewrite Hinst. by exists i.
  - intros fd Hpos Hfd Hnot. assert (Hno : fd ∉ fds_of w' (ByClient id)) by by rewrite Hfds.
    destruct Hfd as [Hfd|(Hopen & _ & Hn)].
    + rewrite <-Hmine in Hfd. split_and!; [by apply (wk_open _ Hok) in Hfd|done|]. intros o Ho.
      destruct (decide (o = ByClient id)) as [->|Hne]; [done|]. rewrite Hother in Ho by done.
      apply Hne. by eapply (wk_disj _ Hok).
    + split_and!; [done..|]. intros o. destruct (decide (o = ByClient id)) as [->|Hne]; [done|].
      rewrite Hother by done. apply Hn.
Qed.

Lemma fds_nodup id g ss c w : held listed id g ss c w -> NoDup (client_fds (use_splice g) c).
Proof.
  intros (Hok & _ & _ & Hc & i & Hi & _ & <- & _). pose proof (wk_own _ Hok (ByClient id)) as H.
  cbn in H. by rewrite Hc, Hi in H.
Qed.

Lemma spare_not_mine id g ss c w fd :
  held listed id g ss c w -> spare fd w -> fd ∉ client_fds (use_splice g) c.
Proof.
  intros (Hok & _ & _ & Hc & i & Hi & _ & <- & _) (_ & _ & Hn) Hin. apply (Hn (ByClient id)).
  cbn. by rewrite Hc, Hi.
Qed.

(** Giving a spare descriptor to the client. *)
Lemma at_attach id g ss c s b Q w :
  held listed id g ss c w -> c_buf s c = None -> spare (be_fd b) w ->
  (forall w, held listed id g ss (c_set_buf s (Some b) c) w -> Q tt w) ->
  wp (mod_client id (c_set_buf s (Some b))) Q w.
Proof.
  intros H Hr Hsp HQ. destruct (H) as (_ & _ & _ & Hc & _). eapply wp_mod_client; [done|]. apply HQ.
  pose proof (client_fds_attach (use_splice g) s b c Hr (proj1 (proj2 Hsp))) as Hp.
  eapply at_fds; [done|by destruct s|..].
  - rewrite Hp. apply NoDup_cons. split; [by eapply spare_not_mine|by eapply fds_nodup].
  - intros fd. rewrite Hp, elem_of_cons. intros [->|?]; auto.
Qed.

Lemma sublist_elem_of {A} (x : A) l k : sublist l k -> x ∈ l -> x ∈ k.
Proof. intros Hs Hx. eapply elem_of_submseteq; [done|]. by apply sublist_submseteq. Qed.

(** The descriptor of the relay becomes spare when the client forgets it. *)
Lemma at_detach id g ss c b Q w :
  held listed id g ss c w -> c_relay c = Some b -> 0 <= be_fd b ->
  (forall w, held listed id g ss (c_set_buf Relay None c) w -> spare (be_fd b) w -> Q tt w) ->
  wp (mod_client id (c_set_buf Relay None)) Q w.
Proof.
  intros H Hr Hpos HQ. destruct (H) as (_ & _ & _ & Hc & _). eapply wp_mod_client; [done|].
  pose proof (client_fds_attach (use_splice g) Relay b (c_set_buf Relay None c) eq_refl Hpos) as Hp.
  replace (c_set_buf Relay (Some b) (c_set_buf Relay None c)) with c in Hp by (destruct c; cbn in *; by subst).
  pose proof (fds_nodup _ _ _ _ _ H) as Hnd. rewrite Hp in Hnd. apply NoDup_cons in Hnd as [Hnin Hnd].
  destruct (at_fds id g ss c (c_set_buf Relay None c) w H) as [Hheld Hspare]; [done|done| |].
  - intros fd Hin. left. rewrite Hp. by right.
  - apply HQ; [done|]. apply Hspare; [done| |done]. left. rewrite Hp. by left.
Qed.

(** The buffer of a connection to the proxy that was just started. *)
Definition new_relay (fd : Z) : bufferevent :=
  be_enable EV_WRITE (bufferevent_new fd cb_none cb_relay_connected).

(** A call that leaves the client and a spare descriptor as they are. *)
Definition quiet {A} (m : M A) : Prop :=
  forall w Q, (forall a w', aside w w' -> Q a w') -> wp m Q w.

Lemma aside_refl w : aside w w.
Proof. done. Qed.
Lemma aside_trans w1 w2 w3 : aside w1 w2 -> aside w2 w3 -> aside w1 w3.
Proof. unfold aside. intros; destruct_and!. split_and!; try congruence. auto. Qed.

Lemma quiet_ret {A} (a : A) : quiet (mret a).
Proof. intros w Q HQ. apply wp_ret, HQ, aside_refl. Qed.
Lemma quiet_bind {A B} (m : M A) (f : A -> M B) :
  quiet m -> (forall a, quiet (f a)) -> quiet (x ← m; f x).
Proof.
  intros Hm Hf w Q HQ. apply wp_bind, Hm. intros a w1 H1. apply Hf. intros b w2 H2.
  apply HQ. by eapply aside_trans.
Qed.
Lemma quiet_answer : quiet answer.
Proof. intros w Q HQ. apply wp_answer. intros e a. by apply HQ. Qed.
Lemma quiet_get : quiet get.
Proof. intros w Q HQ. apply wp_get, HQ, aside_refl. Qed.
Lemma quiet_try_call : quiet try_call.
Proof. apply quiet_bind; [apply quiet_answer|intros; apply quiet_ret]. Qed.
Lemma quiet_fcntl : quiet fcntl_nonblock.
Proof. apply quiet_bind; [apply quiet_try_call|]. intros [|]; [apply quiet_try_call|apply quiet_ret]. Qed.
Lemma quiet_setsockopts l : quiet (setsockopts l).
Proof.
  induction l as [|v l IH]; cbn; [apply quiet_ret|]. case_match; [done|].
  apply quiet_bind; [apply quiet_try_call|]. intros [|]; [done|apply quiet_ret].
Qed.
Lemma quiet_keepalive : quiet apply_tcp_keepalive.
Proof. apply quiet_bind; [apply quiet_get|]. intros. apply quiet_setsockopts. Qed.

Lemma stable_quiet {A} P `{!Stable P} (m : M A) Q w :
  quiet m -> P w -> (forall a w, P w -> Q a w) -> wp m Q w.
Proof. intros Hm H HQ. apply Hm. intros a w' Ha. apply HQ. by eapply stable_aside. Qed.

Lemma stable_spare_quiet {A} P `{!Stable P} fd (m : M A) Q w :
  quiet m -> P w -> spare fd w -> (forall a w, P w -> spare fd w -> Q a w) -> wp m Q w.
Proof.
  intros Hm H Hsp HQ. apply Hm. intros a w' Ha. apply HQ; [by eapply stable_aside|].
  eapply spare_alike; [by apply aside_alike|done].
Qed.

Lemma at_quiet {A} id g ss c (m : M A) Q w :
  quiet m -> held listed id g ss c w -> (forall a w, held listed id g ss c w -> Q a w) -> wp m Q w.
Proof. intros Hm H HQ. apply Hm. intros a w' Ha. apply HQ. by eapply at_aside. Qed.

Lemma at_spare_quiet {A} id g ss c fd (m : M A) Q w :
  quiet m -> held listed id g ss c w -> spare fd w ->
  (forall a w, held listed id g ss c w -> spare fd w -> Q a w) -> wp m Q w.
Proof.
  intros Hm H Hsp HQ. apply Hm. intros a w' Ha. apply HQ; [by eapply at_aside|].
  eapply spare_alike; [by apply aside_alike|done].
Qed.

Lemma quiet_trace e : (forall fd, e <> sys_ebadf fd) -> quiet (trace e).
Proof.
  intros He w Q HQ. apply wp_modify, HQ. split_and!; try done.
  intros fd. cbn. rewrite elem_of_app, list_elem_of_singleton. intros [?|E]; [done|]. by destruct (He fd).
Qed.

Lemma at_red_connect_relay id g ss c addr Q w :
  held listed id g ss c w ->
  (forall w, held listed id g ss c w -> Q None w) ->
  (forall fd w, held listed id g ss c w -> spare fd w -> Q (Some (new_relay fd)) w) ->
  wp (red_connect_relay addr) Q w.
Proof.
  intros H Hno Hyes.
  apply wp_bind. eapply at_open_fd; [done| |]; clear w H.
  { intros e w H. apply wp_ret. auto. }
  intros fd w H Hsp.
  assert (Hfail : forall w, held listed id g ss c w -> spare fd w ->
    wp (redsocks_close fd ;; mret (M := M) None) Q w).
  { intros w' H' Hsp'. apply wp_bind. eapply at_close_spare; [done..|]. intros. apply wp_ret. auto. }
  apply wp_bind. eapply at_spare_quiet; [apply quiet_fcntl|done..|]. clear w H Hsp.
  intros [|] w H Hsp; cbn [negb]; [|auto].
  apply wp_bind. eapply at_spare_quiet; [apply quiet_keepalive|done..|]. clear w H Hsp.
  intros [|] w H Hsp; cbn [negb]; [|auto].
  apply wp_bind. eapply at_spare_quiet; [by apply quiet_trace|done..|]. clear w H Hsp. intros _ w H Hsp.
  apply wp_bind. eapply at_spare_quiet; [apply quiet_answer|done..|]. clear w H Hsp. intros e w H Hsp.
  case_match; [auto|].
  apply wp_bind. eapply at_spare_quiet; [apply quiet_try_call|done..|]. clear w H Hsp.
  intros [|] w H Hsp; cbn [negb]; [|auto].
  apply wp_bind. eapply at_spare_quiet; [apply quiet_try_call|done..|]. clear w H Hsp.
  intros [|] w H Hsp; cbn [negb]; [by apply wp_ret, Hyes|].
  apply wp_bind. unfold redsocks_bufferevent_free. cbn. apply wp_when; intros _.
  - eapply at_close_spare; [done..|]. intros. apply wp_ret. auto.
  - apply wp_ret. auto.
Qed.

Lemma at_connect_relay id g ss c Q w :
  held listed id g ss c w -> c_relay c = None ->
  (forall w, gone id w -> Q tt w) ->
  (forall fd w, 0 <= fd -> held listed id g ss (c_set_buf Relay (Some (new_relay fd)) c) w -> Q tt w) ->
  wp (redsocks_connect_relay id) Q w.
Proof.
  intros H Hr Hgone Hyes.
  apply wp_bind. eapply at_get; [done|]. apply wp_bind. eapply at_instance; [done|]. intros i _ _ _.
  apply wp_bind. eapply at_red_connect_relay; [done| |]; clear w H.
  - intros w H. apply wp_bind. eapply at_mod; [done|by destruct c; cbn in *; subst|]. clear w H.
    intros w H. eapply at_drop; [done|]. auto.
  - intros fd w H Hsp. apply wp_bind. eapply (at_attach _ _ _ _ Relay (new_relay fd)); [done..|].
    intros w' H'. apply wp_ret. eapply Hyes; [apply Hsp|done].
Qed.

(** ** Helpers of the protocols *)

Lemma at_write_input id g ss c from f t Q w :
  held listed id g ss c w -> c_buf from c = Some f -> c_buf (other from) c = Some t ->
  (forall w, held listed id g ss (c_set_buf from (Some (be_set_input [] f))
     (c_set_buf (other from) (Some (be_append (be_input f) t)) c)) w -> Q tt w) ->
  wp (write_input_to id from (other from)) Q w.
Proof.
  intros H Hf Ht HQ. apply wp_bind. eapply at_buf; [done..|].
  apply wp_bind. eapply at_mod_buf; [done..|]. clear w H. intros w H.
  eapply at_mod_buf; [done| |done|done]. by destruct c, from.
Qed.

Lemma sizes_equal_fits len n : 0 <= n -> sizes_equal len n = true -> 0 <= n <= len.
Proof. unfold sizes_equal. intros ? ->%Z.eqb_eq. lia. Qed.
Lemma sizes_greater_equal_fits len n : 0 <= n -> sizes_greater_equal len n = true -> 0 <= n <= len.
Proof. unfold sizes_greater_equal. rewrite Z.geb_le. lia. Qed.

Lemma at_read_expected id g ss c s b comparator expected Q w :
  held listed id g ss c w -> c_buf s c = Some b ->
  (comparator (zlen (be_input b)) expected = true -> 0 <= expected <= zlen (be_input b)) ->
  (comparator (zlen (be_input b)) expected = true -> forall w,
     held listed id g ss (c_set_buf s (Some (be_set_input (drop (Z.to_nat expected) (be_input b)) b)) c) w ->
     Q (Some (take (Z.to_nat expected) (be_input b))) w) ->
  (comparator (zlen (be_input b)) expected = false -> forall w, gone id w -> Q None w) ->
  wp (redsocks_read_expected id s comparator expected) Q w.
Proof.
  intros H Hb Hcmp Hyes Hno. apply wp_bind. eapply at_buf; [done..|].
  destruct (comparator _ _).
  - apply wp_bind. eapply at_mod_buf; [done..|]. clear w H. intros w H.
    apply wp_bind, wp_assert; [|apply wp_ret; auto].
    apply Z.eqb_eq. unfold zlen in *. rewrite length_take. specialize (Hcmp eq_refl). lia.
  - apply wp_bind. eapply at_drop; [done|]. intros. apply wp_ret. auto.
Qed.

(** A message maker yields some acceptable message or nothing. *)
Definition makes id g ss c (mk : Z -> M (option bytes)) (ok : bytes -> Prop) : Prop :=
  forall Q w, held listed id g ss c w ->
  (forall w, held listed id g ss c w -> Q None w) ->
  (forall d w, ok d -> held listed id g ss c w -> Q (Some d) w) -> wp (mk id) Q w.

Lemma makes_quiet id g ss c mk (ok : bytes -> Prop) :
  (forall Q w, (forall w', aside w w' -> Q None w') ->
     (forall d w', ok d -> aside w w' -> Q (Some d) w') -> wp (mk id) Q w) ->
  makes id g ss c mk ok.
Proof.
  intros Hmk Q w H Hno Hyes. apply Hmk.
  - intros w' Ha. apply Hno. by eapply at_aside.
  - intros d w' Hd Ha. apply Hyes; [done|]. by eapply at_aside.
Qed.

Lemma mkevbuffer_makes data Q w :
  (forall w', aside w w' -> Q None w') -> (forall w', aside w w' -> Q (Some data) w') ->
  wp (mkevbuffer data) Q w.
Proof.
  intros Hno Hyes. apply wp_bind, quiet_answer. intros e w1 H1. case_match; [|apply wp_ret; auto].
  apply wp_bind, quiet_answer. intros e2 w2 H2. apply wp_ret.
  case_match; [apply Hyes|apply Hno]; by eapply aside_trans.
Qed.

(** The relay buffer after a write helper: [true] when the event loop took it. *)
Definition after_helper (ok : bool) (low high : Z) (b : bufferevent) : bufferevent :=
  (if ok then be_enable else be_enable_failed) EV_READ (be_setwatermark EV_READ low high b).

Lemma be_fd_setwatermark ev low high b : be_fd (be_setwatermark ev low high b) = be_fd b.
Proof. unfold be_setwatermark. by repeat case_match. Qed.

Lemma at_write_helper_none id g ss c s b state low high Q w :
  held listed id g ss c w -> c_buf s c = Some b ->
  (forall ok w, held listed id g ss (c_set_buf s (Some (after_helper ok low high b)) (c_set_state state c)) w ->
     Q 0 w) ->
  wp (redsocks_write_helper_ex id s None state low high) Q w.
Proof.
  intros H Hb HQ. unfold redsocks_write_helper_ex.
  apply wp_bind. eapply at_mod; [done|done|]. clear w H. intros w H.
  assert (Hset : forall b1 b2, c_set_buf s (Some b2) (c_set_buf s (Some b1) (c_set_state state c)) =
            c_set_buf s (Some b2) (c_set_state state c)) by by destruct c, s.
  apply wp_bind. eapply at_mod_buf; [done|by destruct c, s|apply be_fd_setwatermark|]. clear w H. intros w H.
  apply wp_bind. eapply at_enable; [done|by destruct c, s|done|..]; clear w H; intros _ w H;
    rewrite Hset in H; apply wp_ret.
  - by apply (HQ true).
  - by apply (HQ false).
Qed.

Lemma at_write_helper id g ss c b mk msg state low high Q w :
  held listed id g ss c w -> c_relay c = Some b -> makes id g ss c mk msg ->
  (forall w, gone id w -> Q (-1) w) ->
  (forall d ok w, msg d -> held listed id g ss (c_set_buf Relay
       (Some (after_helper ok low high (be_append d b))) (c_set_state state c)) w -> Q 0 w) ->
  wp (redsocks_write_helper_ex id Relay (Some mk) state low high) Q w.
Proof.
  intros H Hb Hmk Hno HQ. unfold redsocks_write_helper_ex. apply wp_bind, Hmk; [done| |]; clear w H.
  - intros w H. apply wp_bind. eapply at_drop; [done|]. intros. apply wp_ret. auto.
  - intros d w Hd H. apply wp_bind, wp_assert; [by apply bool_decide_eq_true|].
    apply wp_bind. eapply at_mod_buf; [done|done|done|]. clear w H. intros w H.
    apply (at_write_helper_none id g ss _ Relay (be_append d b) state low high Q w H); [done|]. intros ok w' H'. eapply (HQ d ok); [done|]. by destruct c.
Qed.

(** A client whose two buffers are ready to relay, before their events are enabled. *)
Definition pump_ready (b : bufferevent) : bufferevent :=
  be_set_cbs cb_pump_read cb_pump_write (be_setwatermark EV_RW 0 REDSOCKS_RELAY_HALFBUFF b).

Definition enable_rest (ok : bool) (shut : Z) (b : bufferevent) : bufferevent :=
  let ev := Z.land EV_RW (Z.lnot shut) in
  if ev =? 0 then b else (if ok then be_enable else be_enable_failed) ev b.

(** The client when relaying starts; [ok] says whether the second enable worked. *)
Definition pump_started (ok : bool) (bc br : bufferevent) (p : payload) (c : redsocks_client) :=
  c_set_buf Relay (Some (enable_rest ok (relay_evshut c) (pump_ready br)))
    (c_set_buf Client (Some (enable_rest true (client_evshut c) (pump_ready bc)))
      (c_set_state pump_active (c_set_payload p c))).

Lemma at_start_relay id g ss c bc br Q w :
  held listed id g ss c w -> use_splice g = false -> c_client c = Some bc -> c_relay c = Some br ->
  (forall w, gone id w -> Q tt w) ->
  (forall w, held listed id g ss (pump_started true bc br (relay_ss_fini ss (c_payload c)) c) w -> Q tt w) ->
  wp (redsocks_start_relay id) Q w.
Proof.
  intros H Hsp Hbc Hbr Hno HQ. set (p := relay_ss_fini ss (c_payload c)) in *.
  set (c1 := c_set_state pump_active (c_set_payload p c)).
  apply wp_bind. eapply at_get; [done|]. apply wp_bind. eapply at_instance; [done|].
  intros i _ -> ->. rewrite Hsp.
  apply wp_bind. eapply at_mod; [done|done|]. clear w H. intros w H.
  apply wp_bind. eapply at_mod; [done|done|]. clear w H. intros w H. fold p in H. fold c1 in H.
  apply wp_bind. unfold redsocks_start_bufferpump.
  do 2 (apply wp_bind; eapply at_mod_buf; [done|done|apply be_fd_setwatermark|]; clear w H; intros w H).
  do 2 (apply wp_bind; eapply at_mod_buf; [done|done|done|]; clear w H; intros w H).
  apply wp_bind. eapply at_get; [done|].
  assert (Hrelay : forall w,
    held listed id g ss (c_set_buf Relay (Some (pump_ready br))
      (c_set_buf Client (Some (enable_rest true (client_evshut c) (pump_ready bc))) c1)) w ->
    wp (bufferevent_enable id Relay (Z.land EV_RW (Z.lnot (relay_evshut c))))
      (fun a => wp (if a : bool then mret tt else redsocks_drop_client id) Q) w).
  { clear w H. intros w H. unfold pump_started, enable_rest at 1 in HQ.
    eapply at_enable; [done|done|..].
    - intros Hz w' H'. apply wp_ret, HQ. by rewrite Hz.
    - intros Hz%Z.eqb_neq w' H'. apply wp_ret, HQ. by rewrite Hz.
    - intros _ w' H'. eapply at_drop; [done|]. auto. }
  apply wp_bind. eapply at_enable; [done|done|..]; clear w H.
  - intros Hz w H. apply Hrelay. unfold enable_rest.
    change (Z.land EV_RW (Z.lnot (client_evshut c)) = 0) in Hz. rewrite Hz. done.
  - intros Hz%Z.eqb_neq w H. apply Hrelay. unfold enable_rest.
    change ((Z.land EV_RW (Z.lnot (client_evshut c)) =? 0) = false) in Hz. rewrite Hz. done.
  - intros _ w H. apply wp_ret. eapply at_drop; [done|]. auto.
Qed.

End logic.

Abbreviation at_client := (held true).

Section example.
Context `{CI : !ClientInv}.

(** ** A process with one client, on descriptors 4 and 5 *)

Definition one_client (g : redsocks_config) (ss : relay_subsys) (c : redsocks_client) : world :=
  mk_world {[1 := c]} [mk_instance g true 3 true [1] ss (mk_http_auth None 0)] 1 0 None
    (mk_base 100 0 60000 0 0 0) {[3; 4; 5]} 2 0 [] [] [] [].

Lemma one_client_fds g ss c o fd :
  c_instance c = 0%nat -> client_fds (use_splice g) c = [4; 5] ->
  fd ∈ fds_of (one_client g ss c) o ->
  (o = ByClient 1 /\ (fd = 4 \/ fd = 5)) \/ (o = ByListener 0 /\ fd = 3).
Proof.
  intros Hn Hfds. destruct o as [id|n]; cbn.
  - destruct (decide (id = 1)) as [->|].
    + rewrite lookup_singleton_eq, Hn. cbn. rewrite Hfds. set_solver.
    + rewrite lookup_singleton_ne by done. set_solver.
  - destruct n as [|n]; cbn; set_solver.
Qed.

Lemma one_client_at g ss c :
  supported g ss -> c_instance c = 0%nat -> client_fds (use_splice g) c = [4; 5] ->
  held true 1 g ss c (one_client g ss c).
Proof.
  intros Hsup Hn Hfds. pose proof (fun o fd => one_client_fds g ss c o fd Hn Hfds) as Hown.
  assert (Hc : forall id d, (w_clients (one_client g ss c)) !! id = Some d -> id = 1 /\ d = c).
  { intros id d. cbn. by intros [<- <-]%lookup_singleton_Some. }
  assert (Hi : forall n i, w_instances (one_client g ss c) !! n = Some i ->
             n = 0%nat /\ i = mk_instance g true 3 true [1] ss (mk_http_auth None 0)).
  { intros [|n] i; cbn; [by intros [= <-]|done]. }
  split_and!.
  - split.
    + intros [id|n]; cbn.
      * destruct (decide (id = 1)) as [->|].
        -- rewrite lookup_singleton_eq, Hn. cbn. rewrite Hfds. apply (bool_decide_unpack _). done.
        -- rewrite lookup_singleton_ne by done. constructor.
      * destruct n as [|n]; cbn; [apply NoDup_singleton|constructor].
    + intros o fd [[_ [-> | ->]]|[_ ->]]%Hown; cbn; set_solver.
    + intros o o' fd H1%Hown H2%Hown. destruct H1 as [[-> ?]|[-> ?]], H2 as [[-> ?]|[-> ?]]; try done; lia.
    + intros id d [-> ->]%Hc. rewrite Hn. eauto.
    + intros n i [-> ->]%Hi. cbn. split; [apply NoDup_singleton|]. intros id ->%list_elem_of_singleton.
      exists c. by rewrite lookup_singleton_eq.
    + done.
    + cbn. lia.
    + intros id d [-> ->]%Hc. cbn. lia.
    + cbn. intros fd. apply not_elem_of_nil.
    + intros n i [-> ->]%Hi. done.
    + intros n i [-> ->]%Hi. done.
    + done.
  - split; [split; cbn; lia|cbn; lia|]. intros _. exists true. intros n i [-> ->]%Hi. done.
  - intros id Hne d i [-> ->]%Hc. done.
  - cbn. apply lookup_singleton_eq.
  - exists (mk_instance g true 3 true [1] ss (mk_http_auth None 0)). rewrite Hn. split_and!; try done.
    split; [done|]. intros _. cbn. set_solver.
Qed.

End example.

(** ** Running a callback when no call fails *)

(** The next calls all succeed. *)
Definition all_succeed (w : world) : Prop := Forall (eq 0) (w_answers w).
(** One of the next calls fails. *)
Definition call_fails (w : world) : Prop := Exists (fun e => e <> 0) (w_answers w).

#[export] Instance all_succeed_dec w : Decision (all_succeed w).
Proof. unfold all_succeed. apply _. Defined.

Lemma not_all_succeed w : ~ all_succeed w -> call_fails w.
Proof.
  unfold all_succeed, call_fails. intros H. destruct (Exists_dec (fun e => e <> 0) (w_answers w)) as [?|Hn]; [done|].
  destruct H. apply Forall_Exists_neg in Hn. eapply Forall_impl; [exact Hn|]. cbn. intros e He. destruct (decide (0 = e)); [done|]. by destruct He.
Qed.

Section sure.
Context (id : Z) (g : redsocks_config) (ss : relay_subsys).

(** The client is [c], its instance has these settings, and no call fails. *)
Definition sure (c : redsocks_client) (w : world) : Prop :=
  w_clients w !! id = Some c /\
  (exists i, w_instances w !! c_instance c = Some i /\ i_config i = g /\ i_relay_ss i = ss) /\ all_succeed w.

Lemma sure_get c Q w : sure c w -> Q c w -> wp (get_client id) Q w.
Proof. intros [Hc _]. by apply wp_get_client. Qed.
Lemma sure_instance c (Q : redsocks_instance -> world -> Prop) w :
  sure c w -> (forall i, i_config i = g -> i_relay_ss i = ss -> Q i w) -> wp (get_instance (c_instance c)) Q w.
Proof. intros (_ & (i & Hi & E1 & E2) & _) HQ. by apply (wp_get_instance _ i); [|apply HQ]. Qed.
Lemma sure_buf c s b Q w : sure c w -> c_buf s c = Some b -> Q b w -> wp (get_buf id s) Q w.
Proof. intros [Hc _] Hb. by eapply wp_get_buf. Qed.
Lemma sure_mod c f Q w :
  sure c w -> c_instance (f c) = c_instance c -> (forall w, sure (f c) w -> Q tt w) -> wp (mod_client id f) Q w.
Proof.
  intros (Hc & Hi & Ha) Hn HQ. eapply wp_mod_client; [done|]. apply HQ. split; [cbn; apply lookup_insert_eq|]. by rewrite Hn.
Qed.
Lemma sure_mod_buf c s b f Q w :
  sure c w -> c_buf s c = Some b -> (forall w, sure (c_set_buf s (Some (f b)) c) w -> Q tt w) -> wp (mod_buf id s f) Q w.
Proof.
  intros (Hc & Hi & Ha) Hb HQ. eapply wp_mod_buf; [done..|]. apply HQ. split; [cbn; apply lookup_insert_eq|]. by destruct s.
Qed.
Lemma sure_touch c Q w : sure c w -> (forall t w, sure (c_set_last t c) w -> Q tt w) -> wp (redsocks_touch_client id) Q w.
Proof.
  intros (Hc & Hi & Ha) HQ. apply wp_bind, wp_gettimeofday. intros t ts. by eapply sure_mod; [by split| |apply HQ].
Qed.
Lemma sure_answer c Q w : sure c w -> (forall w, sure c w -> Q 0 w) -> wp answer Q w.
Proof.
  intros (Hc & Hi & Ha) HQ. unfold wp, answer, all_succeed in *. destruct (w_answers w) as [|e l] eqn:E; [apply HQ; unfold sure, all_succeed; by rewrite E|].
  apply Forall_cons in Ha as [<- Ha]. by apply HQ.
Qed.
Lemma sure_enable c s b ev Q w :
  sure c w -> c_buf s c = Some b -> (forall w, sure (c_set_buf s (Some (if ev =? 0 then b else be_enable ev b)) c) w -> Q true w) ->
  wp (bufferevent_enable id s ev) Q w.
Proof.
  intros H Hb HQ. unfold bufferevent_enable. destruct (ev =? 0).
  - apply wp_ret, HQ. destruct c, s; cbn in *; by subst.
  - apply wp_bind. eapply sure_answer; [done|]. clear w H. intros w H. cbn. apply wp_bind. eapply sure_mod_buf; [done..|].
    intros w' H'. by apply wp_ret, HQ.
Qed.
Lemma sure_disable c s b ev Q w :
  sure c w -> c_buf s c = Some b -> (forall w, sure (c_set_buf s (Some (be_disable ev b)) c) w -> Q true w) ->
  wp (bufferevent_disable id s ev) Q w.
Proof.
  intros H Hb HQ. apply wp_bind. eapply sure_answer; [done|]. clear w H. intros w H. cbn.
  apply wp_bind. eapply sure_mod_buf; [done..|]. intros w' H'. by apply wp_ret, HQ.
Qed.
Lemma sure_mkevbuffer c data Q w : sure c w -> (forall w, sure c w -> Q (Some data) w) -> wp (mkevbuffer data) Q w.
Proof.
  intros H HQ. do 2 (apply wp_bind; eapply sure_answer; [done|]; clear w H; intros w H; cbn). by apply wp_ret, HQ.
Qed.

Lemma sure_read c s b cmp n Q w :
  sure c w -> c_buf s c = Some b -> cmp (zlen (be_input b)) n = true -> 0 <= n <= zlen (be_input b) ->
  (forall w, sure (c_set_buf s (Some (be_set_input (drop (Z.to_nat n) (be_input b)) b)) c) w ->
     Q (Some (take (Z.to_nat n) (be_input b))) w) ->
  wp (redsocks_read_expected id s cmp n) Q w.
Proof.
  intros H Hb Hcmp Hn HQ. apply wp_bind. eapply sure_buf; [done..|]. rewrite Hcmp. apply wp_bind. eapply sure_mod_buf; [done..|].
  intros w' H'. apply wp_bind, wp_assert; [|by apply wp_ret, HQ]. apply Z.eqb_eq. unfold zlen in *. rewrite length_take. lia.
Qed.

(** The message the helper is given is made, or there is none. *)
Definition makes_sure (mk : option (Z -> M (option bytes))) (c : redsocks_client) (msg : bytes) : Prop :=
  match mk with
  | Some mk => forall Q w, sure c w -> (forall w, sure c w -> Q (Some msg) w) -> wp (mk id) Q w
  | None => True
  end.

Lemma sure_write_helper c b mk msg state wm (Q : Z -> world -> Prop) w :
  sure c w -> c_relay c = Some b -> makes_sure mk c msg ->
  (forall w, sure (c_set_buf Relay (Some (after_helper true wm wm (match mk with Some _ => be_append msg b | None => b end))) (c_set_state state c)) w -> Q 0 w) ->
  wp (redsocks_write_helper id Relay mk state wm) Q w.
Proof.
  intros H Hb Hmk HQ.
  assert (Hfin : forall c b w, sure c w -> c_relay c = Some b ->
    (forall w, sure (c_set_buf Relay (Some (after_helper true wm wm b)) (c_set_state state c)) w -> Q 0 w) ->
    wp (mod_client id (c_set_state state) ;; mod_buf id Relay (be_setwatermark EV_READ wm wm) ;;
        bufferevent_enable id Relay EV_READ ;; mret 0) Q w).
  { clear c b w H Hb Hmk HQ. intros c b w H Hb HQ. apply wp_bind. eapply sure_mod; [done|done|]. clear w H. intros w H.
    apply wp_bind. eapply sure_mod_buf; [done|done|]. clear w H. intros w H.
    apply wp_bind. eapply sure_enable; [done|done|]. intros w' H'. by apply wp_ret, HQ. }
  destruct mk as [mk|]; cbn [makes_sure] in Hmk.
  - apply wp_bind. eapply Hmk; [done|]. clear w H. intros w H. apply wp_bind, wp_assert; [done|].
    apply wp_bind. eapply sure_mod_buf; [done|done|]. clear w H. intros w H. eapply Hfin; [done|done|]. intros w' H'. apply HQ. by destruct c.
  - by eapply Hfin.
Qed.

Lemma sure_buffer_pump c bc br (Q : unit -> world -> Prop) w :
  sure c w -> use_splice g = false -> c_client c = Some bc -> c_relay c = Some br ->
  (forall w, sure (pump_started true bc br (relay_ss_fini ss (c_payload c)) c) w -> Q tt w) -> wp (redsocks_start_relay id) Q w.
Proof.
  intros H Hsp Hbc Hbr HQ. apply wp_bind. eapply sure_get; [done|]. apply wp_bind. eapply sure_instance; [done|]. intros i -> ->. rewrite Hsp.
  do 2 (apply wp_bind; eapply sure_mod; [done|done|]; clear w H; intros w H). apply wp_bind. unfold redsocks_start_bufferpump.
  do 4 (apply wp_bind; eapply sure_mod_buf; [done|done|]; clear w H; intros w H). apply wp_bind. eapply sure_get; [done|].
  do 1 (apply wp_bind; eapply sure_enable; [done|done|]; clear w H; intros w H).
  eapply sure_enable; [done|done|]. clear w H. intros w H. apply wp_ret, HQ. unfold pump_started, enable_rest. destruct c. exact H.
Qed.

End sure.
