(* ===== verification/Flow.v ===== *)
(** * What holds of a client between two callbacks

    The states a client goes through (connecting to the proxy, talking to it,
    relaying), the half-close flags that go with them, and the invariant that makes
    the callbacks of redsocks.c safe: a side is shut for writing only after the
    other side was shut for reading, so the end of one direction never releases a
    client that the error callback still uses. *)

From S2P Require Import Prelude CLib World HttprBuffer Redsocks Ownership ClientLogic.
Import Redsocks Ownership.
Open Scope Z_scope.

Module Flow.

(** ** States of the protocols *)

Definition socks4_new : Z := 0.
Definition socks4_request_sent : Z := 1.
Definition socks4_reply_came : Z := 2.

Definition socks5_new : Z := 0.
Definition socks5_method_sent : Z := 1.
Definition socks5_auth_sent : Z := 2.
Definition socks5_request_sent : Z := 3.
Definition socks5_skip_domain : Z := 4.
Definition socks5_skip_address : Z := 5.

Definition httpc_new : Z := 0.
Definition httpc_request_sent : Z := 1.
Definition httpc_reply_came : Z := 2.
Definition httpc_headers_skipped : Z := 3.
Definition httpc_no_way : Z := 4.

(** ** Half-close flags *)

(** A set of [EV_READ] and [EV_WRITE]. *)
Definition rw (x : Z) : Prop := x = 0 \/ x = 2 \/ x = 4 \/ x = 6.

Definition shut (s : side) (ev : Z) (c : redsocks_client) : bool := has (c_evshut s c) ev.
Definition reads (s : side) (c : redsocks_client) : bool :=
  match c_buf s c with Some b => has (be_enabled b) EV_READ | None => false end.

Record flow_ok (c : redsocks_client) : Prop := {
  fl_rw : forall s, rw (c_evshut s c);
  fl_order : forall s, shut s EV_WRITE c = true -> shut (other s) EV_READ c = true;
  fl_open : shut_both c = false;
  fl_enabled : forall s b, c_buf s c = Some b -> rw (be_enabled b) /\ 0 <= be_fd b /\ is_bytes (be_input b);
  fl_reads : forall s, shut s EV_READ c = true -> reads s c = false }.

(** ** Stages *)

Definition cbs (b : option bufferevent) : option (callback * callback) :=
  (fun b => (be_readcb b, be_writecb b)) <$> b.

(** States in which the connection to the proxy is being opened. *)
Definition starts (ss : relay_subsys) (g : redsocks_config) (st : Z) (p : payload) : Prop :=
  match ss with
  | socks4_subsys => st = socks4_new
  | socks5_subsys => st = socks5_new /\ exists h, p = socks5_payload h /\
      do_password h = if bool_decide (is_Some (login g) /\ is_Some (password g)) then 1 else 0
  | http_connect_subsys => st = httpc_new /\ (login g = None \/ password g = None)
  | http_relay_subsys => False
  end.

(** States in which an answer of the proxy is awaited. *)
Definition talks (ss : relay_subsys) (g : redsocks_config) (st : Z) (p : payload) : Prop :=
  match ss with
  | socks4_subsys => st = socks4_request_sent
  | socks5_subsys => socks5_method_sent <= st <= socks5_skip_address /\ exists h, p = socks5_payload h /\
      do_password h = (if bool_decide (is_Some (login g) /\ is_Some (password g)) then 1 else 0) /\
      (st = socks5_skip_address -> 0 <= to_skip h)
  | http_connect_subsys => (st = httpc_request_sent \/ st = httpc_reply_came) /\
      (login g = None \/ password g = None)
  | http_relay_subsys => False
  end.

Definition relaying (c : redsocks_client) : Prop :=
  c_state c = pump_active /\
  cbs (c_client c) = Some (cb_pump_read, cb_pump_write) /\
  cbs (c_relay c) = Some (cb_pump_read, cb_pump_write).

(** Nothing is shut for writing before relaying starts. *)
Definition before_pump (c : redsocks_client) : Prop :=
  c_state c <> pump_active /\ (forall s, shut s EV_WRITE c = false) /\
  cbs (c_client c) = Some (cb_none, cb_none).

Definition connecting ss g (c : redsocks_client) : Prop :=
  before_pump c /\ cbs (c_relay c) = Some (cb_none, cb_relay_connected) /\
  reads Relay c = false /\ shut Relay EV_READ c = false /\ starts ss g (c_state c) (c_payload c).

Definition talking ss g (c : redsocks_client) : Prop :=
  before_pump c /\ cbs (c_relay c) = Some (cb_subsys_read, cb_subsys_write) /\
  talks ss g (c_state c) (c_payload c).

Definition stage ss g c : Prop := relaying c \/ connecting ss g c \/ talking ss g c.

(** A client whose sockets are in the hands of its two buffers. *)
Definition buffered (g : redsocks_config) (ss : relay_subsys) (c : redsocks_client) : Prop :=
  c_pump c = new_pump /\ flow_ok c /\ stage ss g c.

(** The direction from [s] is closed (its pipe is gone, its events are out of the loop), or
    it has a pipe that counts its bytes. *)
Definition pipe_ok (s : side) (c : redsocks_client) : Prop :=
  let q := pump_pipe s (c_pump c) in
  let src := p_event (ReadOf s) (c_pump c) in
  let dst := p_event (WriteOf (other s)) (c_pump c) in
  sp_size q = zlen (sp_data q) /\
  (sp_read q = -1 /\ sp_write q = -1 /\ shut (other s) EV_WRITE c = true /\ sp_data q = [] /\
     src = e_deleted src /\ dst = e_deleted dst \/
   0 <= sp_read q /\ 0 <= sp_write q).

(** A client whose sockets are in the hands of the splice pump. *)
Record splicing (c : redsocks_client) : Prop := {
  sp_state : c_state c = pump_active;
  sp_rw : forall s, rw (c_evshut s c);
  sp_order : forall s, shut s EV_WRITE c = true -> shut (other s) EV_READ c = true;
  sp_open : shut_both c = false;
  sp_bufs : forall s b, c_buf s c = Some b -> be_fd b = -1 /\ be_enabled b = 0 /\ be_wpending b = false;
  sp_events : forall s, e_init (p_event (ReadOf s) (c_pump c)) = true /\ 0 <= e_fd (p_event (ReadOf s) (c_pump c));
  sp_pipes : forall s, pipe_ok s c }.

#[export] Instance relay_inv : ClientInv := fun g ss c =>
  buffered g ss c \/ use_splice g = true /\ splicing c.

Lemma at_buffered w id g ss c : at_client id g ss c w -> buffered g ss c -> sound w.
Proof. intros H Hb. eapply at_sound; [done|]. by left. Qed.

(** A client that does not relay yet has not handed its sockets over. *)
Lemma idle_buffered g ss c : client_inv g ss c -> c_state c <> pump_active -> buffered g ss c.
Proof. intros [?|[_ Hs]] Hne; [done|]. by destruct Hne, Hs. Qed.
Lemma talking_buffered g ss c : client_inv g ss c -> talking ss g c -> buffered g ss c.
Proof. intros Hinv ((Hne & _) & _). by apply idle_buffered. Qed.

(** Updates outside the pump leave it. *)
Lemma c_pump_buf s b c : c_pump (c_set_buf s b c) = c_pump c.
Proof. by destruct s. Qed.
Lemma c_pump_evshut s e c : c_pump (c_set_evshut s e c) = c_pump c.
Proof. by destruct s. Qed.

Ltac same_pump :=
  unfold after_shutdown, pump_started;
  repeat first [rewrite c_pump_buf | rewrite c_pump_evshut | progress cbn [c_pump c_set_last c_set_state c_set_payload]];
  assumption.
#[export] Hint Extern 0 (c_pump _ = new_pump) => same_pump : core.

(** ** Arithmetic of the flags *)

Ltac rw_cases H := destruct H as [H|[H|[H|H]]]; rewrite H in *.

Lemma rw_lor x ev : rw x -> rw ev -> rw (Z.lor x ev).
Proof. unfold rw. intros Hx He. rw_cases Hx; rw_cases He; cbv; tauto. Qed.
Lemma rw_ldiff x ev : rw x -> rw ev -> rw (Z.land x (Z.lnot ev)).
Proof. unfold rw. intros Hx He. rw_cases Hx; rw_cases He; cbv; tauto. Qed.
Lemma rw_evhow how : rw (evhow how).
Proof. destruct how; cbv; tauto. Qed.
Lemma rw_rest x : rw x -> rw (Z.land EV_RW (Z.lnot x)).
Proof. unfold rw. intros Hx. rw_cases Hx; cbv; tauto. Qed.

Lemma has_lor x y m : has (Z.lor x y) m = has x m || has y m.
Proof.
  unfold has. rewrite Z.land_lor_distr_l.
  destruct (Z.eqb_spec (Z.land x m) 0) as [->|Hx], (Z.eqb_spec (Z.land y m) 0) as [->|Hy]; try done;
    cbn; apply negb_true_iff, Z.eqb_neq; rewrite Z.lor_eq_0_iff; tauto.
Qed.

(** One of the two flags. *)
Definition flag (m : Z) : Prop := m = EV_READ \/ m = EV_WRITE.

Lemma has_ldiff x ev m : rw x -> rw ev -> flag m ->
  has (Z.land x (Z.lnot ev)) m = has x m && negb (has ev m).
Proof. unfold rw, flag. intros Hx He [->| ->]; rw_cases Hx; rw_cases He; done. Qed.

Lemma rw_full x : rw x -> (x =? EV_RW) = has x EV_READ && has x EV_WRITE.
Proof. unfold rw. intros Hx. by rw_cases Hx. Qed.

Lemma shut_both_flags c :
  (forall s, rw (c_evshut s c)) ->
  shut_both c = shut Relay EV_READ c && shut Relay EV_WRITE c && (shut Client EV_READ c && shut Client EV_WRITE c).
Proof.
  intros Hrw. pose proof (rw_full _ (Hrw Relay)) as H1. pose proof (rw_full _ (Hrw Client)) as H2.
  unfold shut_both, shut. cbn in *. by rewrite H1, H2.
Qed.

Lemma other_other s : other (other s) = s.
Proof. by destruct s. Qed.

(** ** Half-closing keeps the invariant *)

Lemma disabled_buf ev b b' :
  b' = be_disable ev b \/ b' = be_disable_failed ev b ->
  be_enabled b' = Z.land (be_enabled b) (Z.lnot ev) /\ be_fd b' = be_fd b /\
  be_input b' = be_input b /\ be_output b' = be_output b /\
  be_readcb b' = be_readcb b /\ be_writecb b' = be_writecb b.
Proof. intros [->| ->]; done. Qed.

Lemma shut_after s s' how b c ev :
  flag ev ->
  shut s' ev (after_shutdown s how b c) = shut s' ev c || (bool_decide (s' = s) && has (evhow how) ev).
Proof.
  intros Hev. unfold shut, after_shutdown. destruct s, s'; cbn; rewrite ?has_lor; cbn;
    rewrite ?orb_false_r; done.
Qed.

Lemma rw_after s s' how b c :
  (forall s, rw (c_evshut s c)) -> rw (c_evshut s' (after_shutdown s how b c)).
Proof.
  intros H. pose proof (H Client) as H1. pose proof (H Relay) as H2. pose proof (rw_evhow how).
  destruct s, s'; cbn in *; auto using rw_lor.
Qed.

Lemma flow_shutdown s how b b' c :
  flow_ok c -> c_buf s c = Some b ->
  b' = be_disable (evhow how) b \/ b' = be_disable_failed (evhow how) b ->
  (has (evhow how) EV_WRITE = true -> shut (other s) EV_READ c = true) ->
  shut_both (after_shutdown s how b' c) = false -> flow_ok (after_shutdown s how b' c).
Proof.
  intros [Hrw Hord Hopen Hen Hrd] Hb Hb' Hw Hnot.
  apply disabled_buf in Hb' as (He & Hf & Hin & _). destruct (Hen s b Hb) as (Hrwb & Hfd & Hby).
  assert (Hflag : flag EV_READ /\ flag EV_WRITE) by (unfold flag; tauto). destruct Hflag as [FR FW].
  split.
  - intros s'. by apply rw_after.
  - intros s'. rewrite !shut_after by done. intros [H|[->%bool_decide_eq_true H]%andb_true_iff]%orb_true_iff.
    + apply orb_true_iff. left. auto.
    + apply orb_true_iff. left. auto.
  - done.
  - intros s' d. destruct (decide (s' = s)) as [->|Hne].
    + replace (c_buf s (after_shutdown s how b' c)) with (Some b') by by destruct s.
      intros [= <-]. rewrite He, Hf, Hin. split; [apply rw_ldiff; auto using rw_evhow|done].
    + replace (c_buf s' (after_shutdown s how b' c)) with (c_buf s' c) by by destruct s, s'. apply Hen.
  - intros s'. rewrite shut_after by done. destruct (decide (s' = s)) as [->|Hne].
    + rewrite bool_decide_eq_true_2 by done. cbn [andb]. intros H.
      unfold reads. replace (c_buf s (after_shutdown s how b' c)) with (Some b') by by destruct s.
      rewrite He, has_ldiff by auto using rw_evhow.
      apply orb_true_iff in H as [H| ->]; [|apply andb_false_r].
      specialize (Hrd s H). unfold reads in Hrd. rewrite Hb in Hrd. by rewrite Hrd.
    + rewrite bool_decide_eq_false_2, orb_false_r by done. intros H. specialize (Hrd s' H).
      unfold reads in *. by replace (c_buf s' (after_shutdown s how b' c)) with (c_buf s' c)
        by by destruct s, s'.
Qed.

Lemma cbs_after s s' how b b' c :
  c_buf s c = Some b -> b' = be_disable (evhow how) b \/ b' = be_disable_failed (evhow how) b ->
  cbs (c_buf s' (after_shutdown s how b' c)) = cbs (c_buf s' c).
Proof.
  intros Hb Hb'. apply disabled_buf in Hb' as (_ & _ & _ & _ & Hr & Hw).
  destruct s, s'; cbn in *; rewrite ?Hb; cbn; by rewrite ?Hr, ?Hw.
Qed.

Lemma reads_after s s' how b b' c :
  flow_ok c -> c_buf s c = Some b -> b' = be_disable (evhow how) b \/ b' = be_disable_failed (evhow how) b ->
  reads s' c = false -> reads s' (after_shutdown s how b' c) = false.
Proof.
  intros [_ _ _ Hen _] Hb Hb'. apply disabled_buf in Hb' as (He & _). destruct (Hen s b Hb) as [Hrwb _].
  unfold reads. destruct s, s'; cbn in *; rewrite ?Hb, ?He; try done;
    rewrite has_ldiff by (auto using rw_evhow; unfold flag; tauto); by intros ->.
Qed.

Lemma stage_shutdown_rd ss g s b b' c :
  flow_ok c -> stage ss g c -> (connecting ss g c -> s = Client) -> c_buf s c = Some b ->
  b' = be_disable (evhow SHUT_RD) b \/ b' = be_disable_failed (evhow SHUT_RD) b ->
  stage ss g (after_shutdown s SHUT_RD b' c).
Proof.
  intros Hf Hst Hs Hb Hb'.
  pose proof (fun s' => cbs_after s s' SHUT_RD b b' c Hb Hb') as Hcbs.
  pose proof (Hcbs Client) as H1. pose proof (Hcbs Relay) as H2. cbn [c_buf] in H1, H2.
  assert (Hbp : before_pump c -> before_pump (after_shutdown s SHUT_RD b' c)).
  { intros (? & Hw & ?). split_and!; [by destruct s| |by rewrite H1]. intros s'.
    rewrite shut_after, Hw by (unfold flag; tauto). by rewrite andb_false_r. }
  destruct Hst as [(? & ? & ?)|[Hc|(? & ? & ?)]].
  - left. unfold relaying. rewrite H1, H2. split_and!; [by destruct s|done..].
  - right; left. rewrite (Hs Hc) in *. destruct Hc as (? & ? & ? & ? & ?).
    unfold connecting. rewrite H2. split_and!; auto.
  - right; right. unfold talking. rewrite H2. split_and!; [auto|done|by destruct s].
Qed.

Lemma relaying_shutdown s how b b' c :
  relaying c -> c_buf s c = Some b -> b' = be_disable (evhow how) b \/ b' = be_disable_failed (evhow how) b ->
  relaying (after_shutdown s how b' c).
Proof.
  intros (Hp & Hc & Hr) Hb Hb'. pose proof (fun s' => cbs_after s s' how b b' c Hb Hb') as Hcbs.
  pose proof (Hcbs Client) as H1. pose proof (Hcbs Relay) as H2. cbn [c_buf] in H1, H2.
  unfold relaying. rewrite H1, H2. split_and!; [by destruct s|done..].
Qed.

(** ** The error callback *)

Lemma stage_last ss g t c : stage ss g c -> stage ss g (c_set_last t c).
Proof. done. Qed.
Lemma flow_ext c c' :
  (forall s, c_evshut s c' = c_evshut s c) -> (forall s, c_buf s c' = c_buf s c) -> flow_ok c -> flow_ok c'.
Proof.
  intros Hs Hb [H1 H2 H3 H4 H5]. split; unfold shut, reads, shut_both in *.
  - intros s. rewrite Hs. apply H1.
  - intros s. rewrite !Hs. apply H2.
  - pose proof (Hs Client) as E1. pose proof (Hs Relay) as E2. cbn in E1, E2. by rewrite E1, E2.
  - intros s b. rewrite Hb. apply H4.
  - intros s. rewrite Hs, Hb. apply H5.
Qed.

Lemma flow_last t c : flow_ok c -> flow_ok (c_set_last t c).
Proof. apply flow_ext; by intros []. Qed.

Lemma relay_inv_last g ss t c : buffered g ss c -> buffered g ss (c_set_last t c).
Proof. intros (? & ? & ?). split_and!; auto using flow_last, stage_last. Qed.

(** End of input on [s]: the rest of the handler still has a client to work on. *)
Lemma not_shut_both s b c :
  flow_ok c -> shut s EV_READ c = false -> shut_both (after_shutdown s SHUT_RD b c) = false.
Proof.
  intros [Hrw Hord _ _ _] Hs. rewrite shut_both_flags by (intros; by apply rw_after).
  rewrite !shut_after by (unfold flag; tauto). cbn [evhow].
  assert (Hw : shut (other s) EV_WRITE c = false).
  { apply not_true_is_false. intros Hw%Hord. rewrite other_other in Hw. congruence. }
  destruct s; cbn in Hw; rewrite Hw; cbn; by rewrite ?andb_false_r.
Qed.

Lemma event_error_ok id g ss c s b what w :
  at_client id g ss c w -> buffered g ss c -> c_buf s c = Some b ->
  shut s EV_READ c = false -> (connecting ss g c -> s = Client) ->
  wp (redsocks_event_error id s what) (fun _ => sound) w.
Proof.
  intros H Hinv Hb Hs Hconn. apply wp_bind. eapply at_touch; [done|]. clear w H. intros t w H.
  apply (relay_inv_last _ _ t) in Hinv.
  apply wp_bind. eapply at_get; [done|]. set (c1 := c_set_last t c) in *.
  assert (Hb1 : c_buf s c1 = Some b) by by destruct s.
  assert (Hs1 : shut s EV_READ c1 = false) by by destruct s.
  assert (Hconn1 : connecting ss g c1 -> s = Client) by done.
  clearbody c1. clear Hb Hs Hconn. case_match; [|eapply at_drop; [done|by intros ? [? _]]].
  destruct Hinv as (Hsp & Hf & Hst).
  apply wp_bind. eapply at_shutdown; [done..|]. clear w H. intros b' w Hb'. cbv zeta.
  rewrite (not_shut_both s b' c1) by done. intros H.
  pose proof (not_shut_both s b' c1 Hf Hs1) as Hnot.
  pose proof (flow_shutdown s SHUT_RD b b' c1 Hf Hb1 Hb' ltac:(done) Hnot) as Hf2.
  pose proof (stage_shutdown_rd ss g s b b' c1 Hf Hst Hconn1 Hb1 Hb') as Hst2.
  assert (Hinv2 : buffered g ss (after_shutdown s SHUT_RD b' c1)) by done.
  apply wp_bind. eapply at_get; [done|].
  assert (Hso : c_buf (other s) (after_shutdown s SHUT_RD b' c1) = c_buf (other s) c1) by by destruct s.
  assert (HR : shut s EV_READ (after_shutdown s SHUT_RD b' c1) = true).
  { rewrite shut_after by (unfold flag; tauto). rewrite bool_decide_eq_true_2 by done. apply orb_true_r. }
  set (c2 := after_shutdown s SHUT_RD b' c1) in *. clearbody c2.
  destruct (c_buf (other s) c1) as [a|] eqn:Ha; [|apply wp_ret; by eapply at_buffered].
  apply wp_when; [|intros _; by eapply at_buffered].
  intros [Hp%Z.eqb_eq _]%andb_true_iff. eapply at_shutdown; [done|done|]. clear w H. intros a' w Ha'.
  cbv zeta. destruct (shut_both (after_shutdown (other s) SHUT_WR a' c2)) eqn:Hboth; [by intros [? _]|]. intros H.
  destruct Hinv2 as [Hsp2 _]. eapply at_buffered; [done|]. split_and!; [done| |].
  - eapply flow_shutdown; try done. intros _. by rewrite other_other.
  - left. eapply relaying_shutdown; [|done..].
    destruct Hst2 as [?|[((Hne & _) & _)|((Hne & _) & _)]]; [done|by destruct Hne..].
Qed.

(** ** Changes of a buffer *)

Lemma flow_set_buf s b' c :
  flow_ok c -> rw (be_enabled b') -> 0 <= be_fd b' -> is_bytes (be_input b') ->
  (shut s EV_READ c = true -> has (be_enabled b') EV_READ = false) ->
  flow_ok (c_set_buf s (Some b') c).
Proof.
  intros [Hrw Hord Hopen Hen Hrd] He Hf Hby Hr.
  assert (Hshut : forall s' ev, shut s' ev (c_set_buf s (Some b') c) = shut s' ev c) by by destruct s, s'.
  assert (Hbuf : forall s', c_buf s' (c_set_buf s (Some b') c) = if decide (s' = s) then Some b' else c_buf s' c)
    by by destruct s, s'.
  split.
  - intros s'. specialize (Hrw s'). by destruct s, s'.
  - intros s'. rewrite !Hshut. auto.
  - by destruct s.
  - intros s' d. rewrite Hbuf. case_decide; [by intros [= <-]|apply Hen].
  - intros s'. rewrite Hshut. unfold reads. rewrite Hbuf. intros H. case_decide; [subst; auto|].
    by apply Hrd.
Qed.

(** A change that keeps what is enabled and the descriptor. *)
Lemma flow_keep s b b' c :
  flow_ok c -> c_buf s c = Some b -> be_enabled b' = be_enabled b -> be_fd b' = be_fd b ->
  is_bytes (be_input b') -> flow_ok (c_set_buf s (Some b') c).
Proof.
  intros Hf Hb He Hfd Hby. destruct (fl_enabled _ Hf s b Hb) as (? & ? & ?).
  apply flow_set_buf; try congruence. intros Hsh%(fl_reads _ Hf). unfold reads in Hsh.
  rewrite Hb in Hsh. congruence.
Qed.

Lemma flow_enable_read ok s b c :
  flow_ok c -> c_buf s c = Some b -> shut s EV_READ c = false ->
  flow_ok (c_set_buf s (Some ((if ok : bool then be_enable else be_enable_failed) EV_READ b)) c).
Proof.
  intros Hf Hb Hs. destruct (fl_enabled _ Hf s b Hb) as (? & ? & ?).
  apply flow_set_buf; [done|destruct ok|destruct ok|destruct ok|congruence]; try done; cbn;
    (apply rw_lor; [done|cbv; tauto]).
Qed.

Lemma relaying_keep s b b' c :
  relaying c -> c_buf s c = Some b -> be_readcb b' = be_readcb b -> be_writecb b' = be_writecb b ->
  relaying (c_set_buf s (Some b') c).
Proof.
  intros (? & Hc & Hr) Hb H1 H2. destruct s; cbn in Hb; rewrite Hb in *; unfold relaying, cbs in *; cbn in *;
    by rewrite H1, H2.
Qed.

(** ** The relay callbacks *)

Lemma relaying_bufs c : relaying c -> exists bc br, c_client c = Some bc /\ c_relay c = Some br.
Proof.
  intros (_ & Hc & Hr). destruct (c_client c), (c_relay c); try done. eauto.
Qed.

Lemma relaying_buf c s : relaying c -> exists b, c_buf s c = Some b.
Proof. intros (bc & br & H1 & H2)%relaying_bufs. destruct s; eauto. Qed.

Lemma moved_ok g ss from f t c :
  buffered g ss c -> relaying c -> c_buf from c = Some f -> c_buf (other from) c = Some t ->
  let c' := c_set_buf from (Some (be_set_input [] f))
              (c_set_buf (other from) (Some (be_append (be_input f) t)) c) in
  buffered g ss c' /\ relaying c'.
Proof.
  intros (Hsp & Hf & _) Hr Hbf Hbt.
  assert (Hbf' : c_buf from (c_set_buf (other from) (Some (be_append (be_input f) t)) c) = Some f)
    by by destruct from.
  assert (relaying (c_set_buf from (Some (be_set_input [] f))
              (c_set_buf (other from) (Some (be_append (be_input f) t)) c))).
  { eapply relaying_keep; [|done..]. by eapply relaying_keep. }
  split; [|done]. split_and!; [done| |by left].
  destruct (fl_enabled _ Hf _ _ Hbt) as (_ & _ & Hby).
  eapply flow_keep; [|done..|by apply Forall_nil]. by eapply flow_keep.
Qed.

Lemma pump_readcb_ok id g ss c s w :
  at_client id g ss c w -> buffered g ss c -> relaying c ->
  wp (pump_readcb id s) (fun _ => sound) w.
Proof.
  intros H Hinv Hr. apply wp_bind. eapply at_touch; [done|]. clear w H. intros t w H.
  apply (relay_inv_last _ _ t) in Hinv. assert (Hr1 : relaying (c_set_last t c)) by done.
  set (c1 := c_set_last t c) in *. clearbody c1. clear Hr.
  destruct (relaying_buf c1 s Hr1) as [f Hbf], (relaying_buf c1 (other s) Hr1) as [u Hbu].
  apply wp_bind. eapply at_buf; [done..|]. case_match.
  - eapply at_write_input; [done..|]. intros w' H'. eapply at_buffered; [done|]. by apply moved_ok.
  - apply wp_bind. eapply at_buf; [done..|]. apply wp_when; [|intros; by eapply at_buffered]. intros _.
    destruct Hinv as (Hsp & Hf & Hst). destruct (fl_enabled _ Hf s f Hbf) as (? & ? & ?).
    assert (Hdis : forall b', b' = be_disable EV_READ f \/ b' = be_disable_failed EV_READ f ->
      buffered g ss (c_set_buf s (Some b') c1)).
    { intros b' (He & Hfd & Hi & _ & Hc1 & Hc2)%disabled_buf. split_and!; [done| |left; by eapply relaying_keep].
      apply flow_set_buf; [done|rewrite He; apply rw_ldiff; [done|cbv; tauto]|by rewrite Hfd|by rewrite Hi|].
      intros _. rewrite He, has_ldiff; [apply andb_false_r|done|cbv; tauto|by left]. }
    apply wp_bind. eapply at_disable; [done..| |]; intros w' H'; apply wp_ret; (eapply at_buffered; [done|]); auto.
Qed.

Lemma pump_writecb_ok id g ss c s w :
  at_client id g ss c w -> buffered g ss c -> relaying c ->
  wp (pump_writecb id s) (fun _ => sound) w.
Proof.
  intros H Hinv Hr. apply wp_bind. eapply at_touch; [done|]. clear w H. intros t w H.
  apply (relay_inv_last _ _ t) in Hinv. assert (Hr1 : relaying (c_set_last t c)) by done.
  set (c1 := c_set_last t c) in *. clearbody c1. clear Hr.
  destruct (relaying_buf c1 s Hr1) as [u Hbu], (relaying_buf c1 (other s) Hr1) as [f Hbf].
  apply wp_bind. eapply at_get; [done|]. apply wp_bind. eapply at_buf; [done..|]. cbv zeta.
  destruct (bool_decide (be_input f = []) && has (c_evshut (other s) c1) EV_READ) eqn:Heof.
  - apply andb_true_iff in Heof as [_ Heof]. eapply at_shutdown; [done..|]. clear w H.
    intros b' w Hb'. cbv zeta. destruct (shut_both (after_shutdown s SHUT_WR b' c1)) eqn:Hboth;
      [by intros [? _]|]. intros H. eapply at_buffered; [done|]. destruct Hinv as (? & Hf & _).
    split_and!; [done| |left; by eapply relaying_shutdown]. by eapply flow_shutdown.
  - apply wp_bind. eapply at_buf; [done..|]. apply wp_when; [|intros; by eapply at_buffered]. intros _.
    replace (write_input_to id (other s) s) with (write_input_to id (other s) (other (other s)))
      by by rewrite other_other.
    apply wp_bind. eapply at_write_input; [done|done|by rewrite other_other|]. clear w H. intros w H.
    destruct (moved_ok g ss (other s) f u c1 Hinv Hr1 Hbf) as [Hinv2 Hr2]; [by rewrite other_other|].
    apply wp_when; [|intros; by eapply at_buffered]. intros [Hne%negb_true_iff _]%andb_true_iff.
    set (c2 := c_set_buf (other s) _ _) in *.
    assert (Hb2 : c_buf (other s) c2 = Some (be_set_input [] f)) by by destruct s.
    assert (Hs2 : shut (other s) EV_READ c2 = false) by by destruct s. clearbody c2.
    assert (Hen : forall ok : bool, buffered g ss (c_set_buf (other s) (Some
       ((if ok then be_enable else be_enable_failed) EV_READ (be_set_input [] f))) c2)).
    { intros ok. destruct Hinv2 as (? & Hf2 & _). split_and!; [done|by apply flow_enable_read|].
      left. eapply relaying_keep; [done..| |]; by destruct ok. }
    apply wp_bind. eapply at_enable; [done|done|done|..]; intros _ w' H'; apply wp_ret; (eapply at_buffered; [done|]).
    + apply (Hen true).
    + apply (Hen false).
Qed.

(** ** Talking to the proxy *)

Lemma after_helper_shape ok low high b :
  be_enabled (after_helper ok low high b) = Z.lor (be_enabled b) EV_READ /\
  be_fd (after_helper ok low high b) = be_fd b /\
  cbs (Some (after_helper ok low high b)) = cbs (Some b) /\
  be_input (after_helper ok low high b) = be_input b.
Proof. by destruct ok. Qed.

(** The next message of a protocol was queued and its answer is awaited. *)
Lemma talking_inv g ss st p t ok low high b b' c :
  c_pump c = new_pump -> flow_ok c -> before_pump c -> shut Relay EV_READ c = false ->
  c_relay c = Some b -> cbs (c_relay c) = Some (cb_subsys_read, cb_subsys_write) ->
  be_enabled b' = be_enabled b -> be_fd b' = be_fd b -> cbs (Some b') = cbs (Some b) ->
  is_bytes (be_input b') -> st <> pump_active -> talks ss g st p ->
  buffered g ss (c_set_buf Relay (Some (after_helper ok low high b'))
    (c_set_state st (c_set_payload p (c_set_last t c)))).
Proof.
  intros Hsp Hf (Hne & Hw & Hc) Hs Hb Hcb He Hfd Hcbs Hby Hst Ht.
  destruct (after_helper_shape ok low high b') as (E1 & E2 & E3 & E4).
  destruct (fl_enabled _ Hf Relay b Hb) as (? & ? & ?). split_and!; [done| |].
  - apply flow_set_buf.
    + revert Hf. apply flow_ext; by intros [].
    + rewrite E1, He. apply rw_lor; [done|cbv; tauto].
    + by rewrite E2, Hfd.
    + by rewrite E4.
    + intros H'. exfalso. unfold shut in *. cbn in H'. unfold c_evshut in Hs. congruence.
  - right; right. split_and!.
    + split_and!; [done|by intros []; [apply (Hw Client)|apply (Hw Relay)]|done].
    + cbn [c_relay c_set_buf]. by rewrite E3, Hcbs, <-Hb.
    + done.
Qed.

(** The same when the payload stays. *)
Lemma talking_inv_keep g ss st t ok low high b b' c :
  c_pump c = new_pump -> flow_ok c -> before_pump c -> shut Relay EV_READ c = false ->
  c_relay c = Some b -> cbs (c_relay c) = Some (cb_subsys_read, cb_subsys_write) ->
  be_enabled b' = be_enabled b -> be_fd b' = be_fd b -> cbs (Some b') = cbs (Some b) ->
  is_bytes (be_input b') -> st <> pump_active -> talks ss g st (c_payload c) ->
  buffered g ss (c_set_buf Relay (Some (after_helper ok low high b'))
    (c_set_state st (c_set_last t c))).
Proof.
  intros. replace (c_set_state st (c_set_last t c)) with
    (c_set_state st (c_set_payload (c_payload c) (c_set_last t c))) by by destruct c.
  by eapply talking_inv.
Qed.

(** Writing is disabled once the request is on its way. *)
Lemma disable_write_ok id g ss c b w :
  at_client id g ss c w -> buffered g ss c -> talking ss g c -> c_relay c = Some b ->
  wp (bufferevent_disable id Relay EV_WRITE ;; mret tt) (fun _ => sound) w.
Proof.
  intros H (Hsp & Hf & _) (Hbp & Hcb & Ht) Hb. destruct (fl_enabled _ Hf Relay b Hb) as (? & ? & ?).
  assert (Hinv : forall b', b' = be_disable EV_WRITE b \/ b' = be_disable_failed EV_WRITE b ->
            buffered g ss (c_set_buf Relay (Some b') c)).
  { intros b' (He & Hfd & Hi & _ & Hc1 & Hc2)%disabled_buf. split_and!; [done| |].
    - apply flow_set_buf; [done|rewrite He; apply rw_ldiff; [done|cbv; tauto]|by rewrite Hfd|by rewrite Hi|].
      intros Hs%(fl_reads _ Hf). unfold reads in Hs. cbn in Hs. rewrite Hb in Hs.
      rewrite He, has_ldiff; [by rewrite Hs|done|cbv; tauto|by left].
    - right; right. split_and!; [|rewrite <-Hcb, Hb; cbn; by rewrite Hc1, Hc2|done].
      destruct Hbp as (? & Hw & ?). split_and!; [done|by intros []; [apply (Hw Client)|apply (Hw Relay)]|done]. }
  apply wp_bind. eapply at_disable; [done..| |]; intros w' H'; apply wp_ret; (eapply at_buffered; [done|]); auto.
Qed.

Lemma enable_rest_enabled x b :
  rw x -> rw (be_enabled b) ->
  let b' := enable_rest true x (pump_ready b) in
  rw (be_enabled b') /\ be_fd b' = be_fd b /\ cbs (Some b') = Some (cb_pump_read, cb_pump_write) /\
  be_input b' = be_input b /\
  has (be_enabled b') EV_READ = has (be_enabled b) EV_READ || negb (has x EV_READ).
Proof.
  intros Hx Hb. cbv zeta. unfold enable_rest.
  destruct (Z.eqb_spec (Z.land EV_RW (Z.lnot x)) 0) as [E|E]; cbn.
  - split_and!; try done. unfold rw in Hx. rw_cases Hx; cbv in E; try done. by rewrite orb_false_r.
  - split_and!; try done; [apply rw_lor; [done|by apply rw_rest]|]. rewrite has_lor. f_equal.
    unfold rw in Hx. by rw_cases Hx.
Qed.

(** Relaying starts, whatever was shut before. *)
Lemma pump_started_inv g ss bc br p c :
  c_pump c = new_pump -> flow_ok c -> c_client c = Some bc -> c_relay c = Some br ->
  buffered g ss (pump_started true bc br p c).
Proof.
  intros Hsp Hf Hc Hr.
  destruct (fl_enabled _ Hf Client bc Hc) as (Hec & Hfc & Hic), (fl_enabled _ Hf Relay br Hr) as (Her & Hfr & Hir).
  destruct (enable_rest_enabled _ _ (fl_rw _ Hf Client) Hec) as (H1 & H2 & H3 & H5 & H4).
  destruct (enable_rest_enabled _ _ (fl_rw _ Hf Relay) Her) as (K1 & K2 & K3 & K5 & K4).
  pose proof (fl_reads _ Hf Client) as Rc. pose proof (fl_reads _ Hf Relay) as Rr.
  unfold reads, shut in Rc, Rr. cbn [c_buf c_evshut] in *. rewrite Hc in Rc. rewrite Hr in Rr.
  split_and!; [done| |].
  - unfold pump_started. apply flow_set_buf; [apply flow_set_buf| |..]; rewrite ?H2, ?K2, ?H5, ?K5; try done.
    + revert Hf. apply flow_ext; by intros [].
    + intros Hs. unfold shut in Hs. cbn in Hs. rewrite H4, (Rc Hs), Hs. done.
    + intros Hs. unfold shut in Hs. cbn in Hs. rewrite K4, (Rr Hs), Hs. done.
  - left. split_and!; [done|exact H3|exact K3].
Qed.

(** A change of a buffer by the event loop that does not enable reading. *)
Lemma inv_change g ss s b b' c :
  buffered g ss c -> c_buf s c = Some b -> rw (be_enabled b') ->
  (has (be_enabled b') EV_READ = true -> has (be_enabled b) EV_READ = true) -> be_fd b' = be_fd b ->
  cbs (Some b') = cbs (Some b) -> is_bytes (be_input b') -> buffered g ss (c_set_buf s (Some b') c).
Proof.
  intros (Hsp & Hf & Hst) Hb He Hr Hfd Hcbs Hby. destruct (fl_enabled _ Hf s b Hb) as (? & ? & ?).
  assert (Hcb : forall s', cbs (c_buf s' (c_set_buf s (Some b') c)) = cbs (c_buf s' c)).
  { intros s'. destruct s, s'; cbn [c_buf c_set_buf c_client c_relay] in *; by rewrite ?Hb, ?Hcbs. }
  pose proof (Hcb Client) as Hc1. pose proof (Hcb Relay) as Hc2. cbn [c_buf] in Hc1, Hc2.
  assert (Hshut : forall s' ev, shut s' ev (c_set_buf s (Some b') c) = shut s' ev c) by by destruct s, s'.
  assert (Hstate : c_state (c_set_buf s (Some b') c) = c_state c) by by destruct s.
  assert (Hpay : c_payload (c_set_buf s (Some b') c) = c_payload c) by by destruct s.
  assert (Hbp : before_pump c -> before_pump (c_set_buf s (Some b') c)).
  { intros (? & ? & ?). unfold before_pump. rewrite Hstate, Hc1. split_and!; [done| |done].
    intros s'. by rewrite Hshut. }
  split_and!; [done| |].
  - apply flow_set_buf; [done..|congruence|done|]. intros Hs%(fl_reads _ Hf). unfold reads in Hs.
    rewrite Hb in Hs. destruct (has (be_enabled b') EV_READ); [|done]. rewrite Hr in Hs; done.
  - destruct Hst as [(? & ? & ?)|[(? & ? & Hrd & ? & ?)|(? & ? & ?)]].
    + left. unfold relaying. by rewrite Hstate, Hc1, Hc2.
    + right; left. unfold connecting. rewrite Hstate, Hpay, Hc2, Hshut. split_and!; auto.
      unfold reads in *. destruct s; cbn [c_buf c_set_buf c_relay] in *; [done|]. rewrite Hb in Hrd.
      destruct (has (be_enabled b') EV_READ); [|done]. rewrite Hr in Hrd; done.
    + right; right. unfold talking. rewrite Hstate, Hpay, Hc2. split_and!; auto.
Qed.

End Flow.
