(* ===== verification/Splice.v ===== *)
(** * The splice pump (redsocks.c)

    With [splice] an instance relays through two kernel pipes: [splice(2)] moves what a
    socket received into a pipe, and from the pipe to the other socket. What the buffers
    held when relaying started is written first. The callbacks are translated with the
    results of the system calls as arguments; the lemmas show that they leave the process
    sound: a pipe is closed once, after its last byte, and no assertion fails. *)

From S2P Require Import Prelude CLib World HttprBuffer Redsocks Ownership ClientLogic Flow.
Import Redsocks Ownership Flow.
Open Scope Z_scope.

Module Splice.

(** What [splice] from a socket to a pipe did. *)
Inductive spliced :=
| sp_moved (data : bytes)     (* the bytes moved, at least one *)
| sp_eof                      (* 0 *)
| sp_again                    (* -1, EAGAIN or EWOULDBLOCK *)
| sp_error.                   (* -1, another errno *)

(** What [evbuffer_write], or [splice] from a pipe to a socket, did. *)
Inductive written :=
| wr_sent (n : nat)
| wr_again
| wr_error.

(** ** Callbacks of the sockets *)

Definition bufferevent_free_unused (id : Z) (s : side) : M unit :=
  c ← get_client id;
  match c_buf s c with
  | Some b => when (bool_decide (be_input b = []) && bool_decide (be_output b = []))
                (mod_client id (c_set_buf s None))
  | None => mret tt
  end.

Definition redsocks_touch_pump (id : Z) : M unit :=
  redsocks_touch_client id ;;
  bufferevent_free_unused id Client ;;
  bufferevent_free_unused id Relay.

Definition mod_pipe (id : Z) (s : side) (f : splice_pipe -> splice_pipe) : M unit :=
  mod_pump id (fun p => p_set_pipe s (f (pump_pipe s p)) p).

(** [|=] on [client_evshut] or [relay_evshut] *)
Definition add_evshut (id : Z) (s : side) (ev : Z) : M unit :=
  mod_client id (fun c => c_set_evshut s (Z.lor (c_evshut s c) ev) c).

Definition pipe_add (data : bytes) (q : splice_pipe) : splice_pipe :=
  mk_pipe (sp_read q) (sp_write q) (sp_size q + zlen data) (sp_data q ++ data).
Definition pipe_drain (n : nat) (q : splice_pipe) : splice_pipe :=
  mk_pipe (sp_read q) (sp_write q) (sp_size q - Z.of_nat n) (drop n (sp_data q)).
Definition pipe_no_read (q : splice_pipe) : splice_pipe := mk_pipe (-1) (sp_write q) (sp_size q) (sp_data q).
Definition pipe_no_write (q : splice_pipe) : splice_pipe := mk_pipe (sp_read q) (-1) (sp_size q) (sp_data q).

(** Side [s] is the source. *)
Definition redsplice_read_cb (id : Z) (s : side) (got : spliced) : M unit :=
  match got with
  | sp_again => redsocks_event_del id (ReadOf s)
  | sp_error => redsocks_drop_client id
  | sp_eof =>
      c ← get_client id;
      trace (sys_shutdown (e_fd (p_event (ReadOf s) (c_pump c))) SHUT_RD) ;;
      add_evshut id s EV_READ ;;
      redsocks_event_del id (ReadOf s) ;;
      event_active id (WriteOf (other s))
  | sp_moved data =>
      mod_pipe id s (pipe_add data) ;;
      event_active id (WriteOf (other s))
  end.

(** How writing one source ends: nothing is left of it, something is, or the client is
    gone. *)
Inductive flush := all_sent | short_write | client_gone.

Definition write_source (id : Z) (avail : nat) (r : written) (drain : nat -> M unit) : M flush :=
  if Nat.eqb avail 0 then mret all_sent else
  match r with
  | wr_again => mret short_write
  | wr_error => redsocks_drop_client id ;; mret client_gone
  | wr_sent n => drain n ;; mret (if Nat.eqb avail n then all_sent else short_write)
  end.

Definition output_of (s : side) (c : redsocks_client) : bytes :=
  match c_buf s c with Some b => be_output b | None => [] end.
Definition input_of (s : side) (c : redsocks_client) : bytes :=
  match c_buf s c with Some b => be_input b | None => [] end.

(** [evbuffer_write] removes what it sent from the front. *)
Definition drain_output (id : Z) (s : side) (n : nat) : M unit :=
  mod_buf id s (fun b => be_set_output (drop n (be_output b)) (be_wpending b) b).
Definition drain_input (id : Z) (s : side) (n : nat) : M unit :=
  mod_buf id s (fun b => be_set_input (drop n (be_input b)) b).

(** After the label [decide]; [s] is the source. *)
Definition redsplice_decide (id : Z) (s : side) (has_data can_write : bool) : M unit :=
  let evsrc := ReadOf s in
  let evdst := WriteOf (other s) in
  c ← get_client id;
  go ← (if negb has_data && has (c_evshut s c) EV_READ && negb (has (c_evshut (other s) c) EV_WRITE) then
          trace (sys_shutdown (e_fd (p_event evdst (c_pump c))) SHUT_WR) ;;
          add_evshut id (other s) EV_WRITE ;;
          assert (sp_size (pump_pipe s (c_pump c)) =? 0) ;;
          redsocks_close (sp_read (pump_pipe s (c_pump c))) ;;
          mod_pipe id s pipe_no_read ;;
          redsocks_close (sp_write (pump_pipe s (c_pump c))) ;;
          mod_pipe id s pipe_no_write ;;
          c ← get_client id;
          if shut_both c then redsocks_drop_client id ;; mret None else mret (Some false)
        else mret (Some can_write));
  match go with
  | None => mret tt
  | Some can_write =>
      assert (negb (can_write && has_data)) ;;
      if negb can_write && has_data then redsocks_event_del id evsrc ;; redsocks_event_add id evdst
      else if can_write && negb has_data then redsocks_event_add id evsrc ;; redsocks_event_del id evdst
      else when (negb can_write && negb has_data) (redsocks_event_del id evsrc ;; redsocks_event_del id evdst)
  end.

(** Writes the output of the receiving side, the input of the source [s], its pipe; the
    results of the three calls are [r0], [r1], [r2]. *)
Definition redsplice_write_cb (id : Z) (s : side) (r0 r1 r2 : written) : M unit :=
  c ← get_client id;
  x ← write_source id (length (output_of (other s) c)) r0 (drain_output id (other s));
  match x with
  | client_gone => mret tt
  | short_write => redsplice_decide id s true false
  | all_sent =>
      x ← write_source id (length (input_of s c)) r1 (drain_input id s);
      match x with
      | client_gone => mret tt
      | short_write => redsplice_decide id s true false
      | all_sent =>
          x ← write_source id (Z.to_nat (sp_size (pump_pipe s (c_pump c)))) r2 (fun n => mod_pipe id s (pipe_drain n));
          match x with
          | client_gone => mret tt
          | short_write => redsplice_decide id s true false
          | all_sent => redsplice_decide id s false true
          end
      end
  end.

(** libevent takes the event out of its active queue and calls the callback, with the
    descriptor and the kind the callback asserts. *)
Definition e_called (e : event) : event := mk_event (e_init e) (e_fd e) (e_pending e) false.

(** [redsplice_client_read] and [redsplice_relay_read] *)
Definition redsplice_read (id : Z) (s : side) (got : spliced) : M unit :=
  mod_event id (ReadOf s) e_called ;;
  redsocks_touch_pump id ;;
  redsplice_read_cb id s got.

(** [redsplice_client_write] and [redsplice_relay_write] *)
Definition redsplice_write (id : Z) (s : side) (r0 r1 r2 : written) : M unit :=
  mod_event id (WriteOf s) e_called ;;
  redsocks_touch_pump id ;;
  redsplice_write_cb id (other s) r0 r1 r2.

(** ** Changes of the pump *)

Definition c_event (k : pump_event) (f : event -> event) (c : redsocks_client) : redsocks_client :=
  c_set_pump (p_set_event k (f (p_event k (c_pump c))) (c_pump c)) c.
Definition c_pipe (s : side) (f : splice_pipe -> splice_pipe) (c : redsocks_client) : redsocks_client :=
  c_set_pump (p_set_pipe s (f (pump_pipe s (c_pump c))) (c_pump c)) c.

(** The event stays on its descriptor. *)
Definition same_event (f : event -> event) : Prop := forall e, e_init (f e) = e_init e /\ e_fd (f e) = e_fd e.
Definition same_pipe (f : splice_pipe -> splice_pipe) : Prop :=
  forall q, sp_read (f q) = sp_read q /\ sp_write (f q) = sp_write q.

Lemma same_client_event k f c : same_event f -> same_client c (c_event k f c).
Proof.
  intros Hf. destruct (Hf (p_event k (c_pump c))) as [E1 E2]. split; [done|]. intros sp.
  unfold client_fds, pump_fds, c_event. destruct k as [[]|[]]; cbn in *; by rewrite ?E1, ?E2.
Qed.
Lemma same_client_pipe s f c : same_pipe f -> same_client c (c_pipe s f c).
Proof.
  intros Hf. destruct (Hf (pump_pipe s (c_pump c))) as [E1 E2]. split; [done|]. intros sp.
  unfold client_fds, pump_fds, c_pipe. destruct s; cbn in *; by rewrite E1, E2.
Qed.

Section rules.
Context (id : Z) (g : redsocks_config) (ss : relay_subsys).
Abbreviation at_c := (at_client id g ss).

Lemma at_event k f c Q w :
  at_c c w -> same_event f -> (forall w, at_c (c_event k f c) w -> Q tt w) -> wp (mod_event id k f) Q w.
Proof. intros H Hf HQ. eapply at_mod; [done|by apply same_client_event|]. done. Qed.

Lemma at_pipe s f c Q w :
  at_c c w -> same_pipe f -> (forall w, at_c (c_pipe s f c) w -> Q tt w) -> wp (mod_pipe id s f) Q w.
Proof. intros H Hf HQ. eapply at_mod; [done|by apply same_client_pipe|]. done. Qed.

Lemma at_event_add k c (Q : unit -> world -> Prop) w :
  at_c c w -> (forall w, at_c (c_event k e_added c) w -> Q tt w) -> (forall w, at_c c w -> Q tt w) ->
  wp (redsocks_event_add id k) Q w.
Proof.
  intros H H1 H2. apply wp_bind. eapply at_answer; [done|]. clear w H. intros e w H.
  apply wp_when; intros _; [|auto]. by eapply at_event.
Qed.

(** Closing a descriptor of the client and forgetting it. *)
Lemma at_close_mine {A} (k : M A) fd f c Q w :
  at_c c w -> c_instance (f c) = c_instance c -> 0 <= fd ->
  client_fds (use_splice g) c ≡ₚ fd :: client_fds (use_splice g) (f c) ->
  (forall w, at_c (f c) w -> wp k Q w) -> wp (redsocks_close fd ;; mod_client id f ;; k) Q w.
Proof.
  intros H Hi Hpos Hp HQ. pose proof (fds_nodup _ _ _ _ _ H) as Hnd. rewrite Hp in Hnd.
  apply NoDup_cons in Hnd as [Hnin Hnd]. destruct (H) as (Hok & _ & _ & Hc & i & Hi' & _ & Hg & _).
  assert (Hopen : fd ∈ w_open w).
  { apply (wk_open _ Hok (ByClient id)). cbn. rewrite Hc, Hi', Hg, Hp. by left. }
  destruct (at_fds id g ss c (f c) w H Hi Hnd) as [Hheld Hspare].
  { intros fd' Hin. left. rewrite Hp. by right. }
  assert (Hsp : spare fd (w_set_clients (<[id := f c]> (w_clients w)) w)).
  { apply Hspare; [done| |done]. left. rewrite Hp. by left. }
  apply wp_bind. unfold wp at 1. rewrite redsocks_close_run by done. apply wp_bind.
  eapply wp_mod_client; [by rewrite w_clients_lowered|]. apply HQ.
  pose proof (lowered_set_clients (fun m => <[id := f c]> m) (closed [fd] w)) as E. cbn beta in E. rewrite <-E.
  apply (stable_lowered (held true id g ss (f c))).
  change (w_set_clients (<[id := f c]> (w_clients (closed [fd] w))) (closed [fd] w)) with
    (closed [fd] (w_set_clients (<[id := f c]> (w_clients w)) w)).
  by apply stable_closed; [apply _| |].
Qed.

(** ** The start of the pump *)

Lemma at_new_fd c (P : Z -> Prop) Q w :
  at_c c w -> (forall fd, P fd -> spare fd w) ->
  (forall fd w, at_c c w -> spare fd w -> (forall fd', P fd' -> spare fd' w /\ fd' <> fd) -> Q fd w) ->
  wp new_fd Q w.
Proof.
  intros H HP HQ. pose proof (lowest_fd_fresh (w_open w)) as Hfresh.
  change (Q (lowest_fd (w_open w)) (w_set_open ({[lowest_fd (w_open w)]} ∪ w_open w) w)).
  set (fd := lowest_fd (w_open w)) in *. destruct (H) as (Hok & _). apply HQ.
  - eapply at_frame; [..|done]; [done..|]. destruct Hok as [? Ho ? ? ? ? ? ? ?]. split; try done. cbn.
    intros o fd' Hin. apply elem_of_union_r. eauto.
  - split_and!; [cbn; set_solver|apply lowest_fd_nonneg|]. intros o Hin. by apply Hfresh, (wk_open _ Hok o).
  - intros fd' Hfd'. destruct (HP fd' Hfd') as (Hopen & ? & Hn). split; [|intros ->; done].
    split_and!; [cbn; set_solver|done|done].
Qed.

Lemma at_pipe2 c (Q : option (Z * Z) -> world -> Prop) w :
  at_c c w -> (forall w, at_c c w -> Q None w) ->
  (forall r x w, at_c c w -> spare r w -> spare x w -> r <> x -> Q (Some (r, x)) w) -> wp pipe2 Q w.
Proof.
  intros H Hno Hyes. apply wp_bind. eapply at_answer; [done|]. clear w H. intros e w H.
  case_match; [|by apply wp_ret, Hno].
  apply wp_bind. eapply (at_new_fd _ (fun _ => False)); [done|done|]. clear w H. intros r w H Hr _.
  apply wp_bind. eapply (at_new_fd _ (eq r)); [done|by intros ? <-|]. clear w H Hr. intros x w H Hx Hr.
  destruct (Hr r eq_refl) as [Hr1 Hr2]. apply wp_ret. by apply Hyes.
Qed.

(** Two spare descriptors become a pipe of the client. *)
Lemma at_new_pipe s r x c Q w :
  at_c c w -> use_splice g = true -> pump_pipe s (c_pump c) = no_pipe -> spare r w -> spare x w -> r <> x ->
  (forall w, at_c (c_set_pump (p_set_pipe s (mk_pipe r x 0 []) (c_pump c)) c) w -> Q tt w) ->
  wp (mod_pump id (p_set_pipe s (mk_pipe r x 0 []))) Q w.
Proof.
  intros H Hg Hq Hr Hx Hne HQ. destruct (H) as (_ & _ & _ & Hc & _). eapply wp_mod_client; [done|]. apply HQ.
  assert (Hp : client_fds (use_splice g) (c_set_pump (p_set_pipe s (mk_pipe r x 0 []) (c_pump c)) c) ≡ₚ
               r :: x :: client_fds (use_splice g) c).
  { assert (E : forall fd, 0 <= fd -> fd_list fd = [fd]).
    { intros fd ?. unfold fd_list. destruct (Z.eqb_spec fd (-1)); [lia|done]. }
    rewrite Hg. unfold client_fds, pump_fds. destruct s; cbn in Hq |- *; rewrite Hq; cbn [no_pipe sp_read sp_write];
      rewrite (E r), (E x) by (apply Hr || apply Hx); cbn; solve_Permutation. }
  eapply at_fds; [done|done|..].
  - rewrite Hp, !NoDup_cons, elem_of_cons. split_and!; [|by eapply spare_not_mine|by eapply fds_nodup].
    intros [?|?]; [done|]. by eapply (spare_not_mine id g ss c w r).
  - intros fd. rewrite Hp, !elem_of_cons. intros [->|[->|?]]; auto.
Qed.

(** A run of updates of the client. *)
Definition put_at (c : redsocks_client) (w : world) : world := w_set_clients (<[id := c]> (w_clients w)) w.

Lemma put_at_here c w : w_clients w !! id = Some c -> put_at c w = w.
Proof. intros Hc. destruct w; unfold put_at, w_set_clients; cbn in *. by rewrite insert_id. Qed.
Lemma put_mod f c Q w : Q tt (put_at (f c) w) -> wp (mod_client id f) Q (put_at c w).
Proof.
  intros HQ. eapply wp_mod_client; [apply lookup_insert_eq|]. unfold put_at in *. cbn. by rewrite insert_insert_eq.
Qed.
Lemma put_mod_buf s f b c Q w :
  c_buf s c = Some b -> Q tt (put_at (c_set_buf s (Some (f b)) c) w) -> wp (mod_buf id s f) Q (put_at c w).
Proof.
  intros Hb HQ. eapply wp_mod_buf; [apply lookup_insert_eq|done|]. unfold put_at in *. cbn. by rewrite insert_insert_eq.
Qed.

(** The buffers and the pump of a client when relaying starts. *)
Definition splice_buf (b : bufferevent) : bufferevent := be_dropfd (be_disable EV_RW b).
Definition splice_pump (q p : Z * Z) (client_fd relay_fd : Z) (ok1 ok2 : bool) : redsocks_pump :=
  mk_pump (mk_pipe q.1 q.2 0 []) (mk_pipe p.1 p.2 0 [])
    (mk_event true client_fd ok1 false) (mk_event true client_fd false true)
    (mk_event true relay_fd ok2 false) (mk_event true relay_fd false true).
Definition splice_started (q p : Z * Z) (ok1 ok2 : bool) (bc br : bufferevent) (pl : payload) (c : redsocks_client) :=
  c_set_buf Client (Some (splice_buf bc)) (c_set_buf Relay (Some (splice_buf br))
    (c_set_pump (splice_pump q p (be_fd bc) (be_fd br) ok1 ok2) (c_set_state pump_active (c_set_payload pl c)))).

(** The events are assigned, the buffers give up their descriptors. *)
Lemma at_hand_over {A} (k : M A) q p bc br pl c Q w :
  let c0 := c_set_pump (mk_pump (mk_pipe q.1 q.2 0 []) (mk_pipe p.1 p.2 0 []) no_event no_event no_event no_event)
              (c_set_buf Relay (Some (be_disable EV_RW br)) (c_set_buf Client (Some (be_disable EV_RW bc))
                (c_set_state pump_active (c_set_payload pl c)))) in
  at_c c0 w -> use_splice g = true -> 0 <= be_fd bc -> 0 <= be_fd br ->
  (forall w, at_c (splice_started q p false false bc br pl c) w -> wp k Q w) ->
  wp (event_assign id (ReadOf Client) (be_fd bc) ;; event_assign id (WriteOf Client) (be_fd bc) ;;
      event_assign id (ReadOf Relay) (be_fd br) ;; event_assign id (WriteOf Relay) (be_fd br) ;;
      mod_buf id Relay be_dropfd ;; mod_buf id Client be_dropfd ;;
      event_active id (WriteOf Client) ;; event_active id (WriteOf Relay) ;; k) Q w.
Proof.
  intros c0 H Hg Hfc Hfr HQ. destruct (H) as (_ & _ & _ & Hc & _). rewrite <-(put_at_here _ _ Hc).
  do 4 (apply wp_bind, put_mod). apply wp_bind. eapply put_mod_buf; [done|]. apply wp_bind. eapply put_mod_buf; [done|].
  do 2 (apply wp_bind, put_mod). apply HQ.
  change (at_c (splice_started q p false false bc br pl c) (put_at (splice_started q p false false bc br pl c) w)).
  assert (E : forall fd, 0 <= fd -> fd_list fd = [fd]).
  { intros fd ?. unfold fd_list. destruct (Z.eqb_spec fd (-1)); [lia|done]. }
  assert (Hp : client_fds (use_splice g) (splice_started q p false false bc br pl c) ≡ₚ client_fds (use_splice g) c0).
  { rewrite Hg. unfold client_fds, pump_fds. cbn -[fd_list]. rewrite (E (be_fd bc)), (E (be_fd br)) by done. cbn.
    solve_Permutation. }
  eapply at_fds; [done|done|..].
  - rewrite Hp. by eapply fds_nodup.
  - intros fd. rewrite Hp. by left.
Qed.

Lemma at_start_splice c bc br Q w :
  at_c c w -> use_splice g = true -> c_pump c = new_pump -> c_client c = Some bc -> c_relay c = Some br ->
  0 <= be_fd bc -> 0 <= be_fd br -> (forall w, gone id w -> Q tt w) ->
  (forall q p ok1 ok2 w, 0 <= q.1 /\ 0 <= q.2 /\ 0 <= p.1 /\ 0 <= p.2 ->
     at_c (splice_started q p ok1 ok2 bc br (relay_ss_fini ss (c_payload c)) c) w -> Q tt w) ->
  wp (redsocks_start_relay id) Q w.
Proof.
  intros H Hg Hp Hbc Hbr Hfc Hfr Hno HQ. set (pl := relay_ss_fini ss (c_payload c)) in *.
  assert (Hdrop : forall d w, at_c d w -> wp (if false then mret tt else redsocks_drop_client id) Q w).
  { intros d w' H'. eapply at_drop; [done|]. auto. }
  apply wp_bind. eapply at_get; [done|]. apply wp_bind. eapply at_instance; [done|].
  intros i _ -> ->. rewrite Hg.
  do 2 (apply wp_bind; eapply at_mod; [done|done|]; clear w H; intros w H). fold pl in H.
  apply wp_bind. unfold redsocks_start_splicepump.
  apply wp_bind. eapply at_disable; [done|done| |]; clear w H; intros w H; cbn [negb]; [|apply wp_ret; eauto].
  apply wp_bind. eapply at_disable; [done|done| |]; clear w H; intros w H; cbn [negb]; [|apply wp_ret; eauto].
  apply wp_bind. eapply at_pipe2; [done| |]; clear w H; [intros w H; apply wp_ret; eauto|]. intros q1 q2 w H Hq1 Hq2 Hq.
  apply wp_bind. assert (Hq12 : 0 <= q1 /\ 0 <= q2) by (split; [apply Hq1|apply Hq2]).
  eapply at_new_pipe; [done|done|cbn; by rewrite Hp|done|done|done|]. clear w H Hq1 Hq2 Hq. intros w H.
  apply wp_bind. eapply at_pipe2; [done| |]; clear w H; [intros w H; apply wp_ret; eauto|]. intros p1 p2 w H Hp1 Hp2 Hpp.
  apply wp_bind. assert (Hp12 : 0 <= p1 /\ 0 <= p2) by (split; [apply Hp1|apply Hp2]).
  eapply at_new_pipe; [done|done|cbn; by rewrite Hp|done|done|done|]. clear w H Hp1 Hp2 Hpp. intros w H.
  apply wp_bind. eapply at_buf; [done|done|]. apply wp_bind. eapply at_buf; [done|done|].
  eapply (at_hand_over _ (q1, q2) (p1, p2) bc br pl c); [|done|done|done|].
  { destruct c; cbn in *; subst. exact H. }
  assert (Hpos : 0 <= q1 /\ 0 <= q2 /\ 0 <= p1 /\ 0 <= p2) by tauto. clear w H. intros w H.
  apply wp_bind. eapply at_event_add; [done| |]; clear w H; intros w H;
    (apply wp_bind; eapply at_event_add; [done| |]; clear w H; intros w H; apply wp_ret, wp_ret).
  - by apply (HQ (q1, q2) (p1, p2) true true).
  - by apply (HQ (q1, q2) (p1, p2) true false).
  - by apply (HQ (q1, q2) (p1, p2) false true).
  - by apply (HQ (q1, q2) (p1, p2) false false).
Qed.

End rules.

(** Relaying starts with either pump, whatever was shut before. *)
Lemma splice_started_inv q p ok1 ok2 bc br pl c :
  flow_ok c -> c_client c = Some bc -> c_relay c = Some br -> 0 <= q.1 /\ 0 <= q.2 /\ 0 <= p.1 /\ 0 <= p.2 ->
  splicing (splice_started q p ok1 ok2 bc br pl c).
Proof.
  intros Hf Hc Hr (? & ? & ? & ?). destruct (fl_enabled _ Hf Client bc Hc) as (Hec & Hfc & _).
  destruct (fl_enabled _ Hf Relay br Hr) as (Her & Hfr & _). split.
  - done.
  - intros s. pose proof (fl_rw _ Hf s). by destruct s.
  - intros s. pose proof (fl_order _ Hf s). by destruct s.
  - apply (fl_open _ Hf).
  - assert (Hz : forall x, rw x -> Z.land x (Z.lnot EV_RW) = 0) by (intros x Hx; unfold rw in Hx; by rw_cases Hx).
    intros [] b [= <-]; cbn; rewrite Hz by done; done.
  - by intros [].
  - by intros []; (split; [done|]); right.
Qed.

(** The client when relaying has started with the pump of its instance. *)
Definition started (g : redsocks_config) (bc br : bufferevent) (pl : payload) (c c' : redsocks_client) : Prop :=
  if use_splice g then exists q p ok1 ok2, (0 <= q.1 /\ 0 <= q.2 /\ 0 <= p.1 /\ 0 <= p.2) /\
                         c' = splice_started q p ok1 ok2 bc br pl c
  else c' = pump_started true bc br pl c.

Lemma at_start id g ss c bc br Q w :
  at_client id g ss c w -> c_pump c = new_pump -> c_client c = Some bc -> c_relay c = Some br ->
  0 <= be_fd bc -> 0 <= be_fd br -> (forall w, gone id w -> Q tt w) ->
  (forall c' w, started g bc br (relay_ss_fini ss (c_payload c)) c c' -> at_client id g ss c' w -> Q tt w) ->
  wp (redsocks_start_relay id) Q w.
Proof.
  intros H Hp Hc Hr Hfc Hfr Hno HQ. unfold started in HQ. destruct (use_splice g) eqn:Hg.
  - eapply at_start_splice; [done..|]. intros. eapply HQ; [|done]. eauto 6.
  - eapply at_start_relay; [done..|]. intros. by eapply HQ.
Qed.

(** Relaying starts with both directions read when no call fails. *)
Definition started_fully (ok : bool) (g : redsocks_config) (bc br : bufferevent) (pl : payload) (c c' : redsocks_client) : Prop :=
  if use_splice g then exists q p ok1 ok2, (0 <= q.1 /\ 0 <= q.2 /\ 0 <= p.1 /\ 0 <= p.2) /\
                         c' = splice_started q p ok1 ok2 bc br pl c /\ (ok = true -> ok1 = true /\ ok2 = true)
  else c' = pump_started true bc br pl c.

Lemma started_some g bc br pl c c' : started g bc br pl c c' -> exists ok, started_fully ok g bc br pl c c'.
Proof.
  unfold started, started_fully. destruct (use_splice g); [|by exists true]. intros (q & p & ok1 & ok2 & Hpos & ->).
  exists (ok1 && ok2), q, p, ok1, ok2. split_and!; try tauto. by intros [? ?]%andb_true_iff.
Qed.
Lemma started_fully_started ok g bc br pl c c' : started_fully ok g bc br pl c c' -> started g bc br pl c c'.
Proof. unfold started, started_fully. destruct (use_splice g); [|done]. intros (q & p & ok1 & ok2 & ? & -> & _). by exists q, p, ok1, ok2. Qed.

Lemma sure_pipe2 id g ss c (Q : option (Z * Z) -> world -> Prop) w :
  sure id g ss c w -> (forall q w, 0 <= q.1 -> 0 <= q.2 -> sure id g ss c w -> Q (Some q) w) -> wp pipe2 Q w.
Proof.
  intros H HQ. apply wp_bind. eapply sure_answer; [done|]. clear w H. intros w H. cbn.
  apply (HQ (_, _)); [apply lowest_fd_nonneg..|exact H].
Qed.

(** Relaying starts when no call fails. *)
Lemma sure_start id g ss c bc br (Q : unit -> world -> Prop) w :
  sure id g ss c w -> c_pump c = new_pump -> c_client c = Some bc -> c_relay c = Some br ->
  (forall c' w, started_fully true g bc br (relay_ss_fini ss (c_payload c)) c c' -> sure id g ss c' w -> Q tt w) ->
  wp (redsocks_start_relay id) Q w.
Proof.
  intros H Hp Hbc Hbr HQ. unfold started_fully in HQ. destruct (use_splice g) eqn:Hg; [|eapply sure_buffer_pump; [done..|]; eauto].
  apply wp_bind. eapply sure_get; [done|]. apply wp_bind. eapply sure_instance; [done|]. intros i -> ->. rewrite Hg.
  do 2 (apply wp_bind; eapply sure_mod; [exact H|reflexivity|]; clear w H; intros w H). apply wp_bind. unfold redsocks_start_splicepump.
  do 2 (apply wp_bind; eapply sure_disable; [done|done|]; clear w H; intros w H; cbn [negb]).
  apply wp_bind. eapply sure_pipe2; [done|]. clear w H. intros q w ? ? H. destruct q as [q1 q2].
  apply wp_bind. eapply sure_mod; [exact H|reflexivity|]. clear w H. intros w H.
  apply wp_bind. eapply sure_pipe2; [done|]. clear w H. intros p w ? ? H. destruct p as [p1 p2].
  apply wp_bind. eapply sure_mod; [exact H|reflexivity|]. clear w H. intros w H.
  do 2 (apply wp_bind; eapply sure_buf; [exact H|done|]).
  set (c0 := c_set_pump _ _) in H.
  assert (Hnow : sure id g ss (c_set_pump (mk_pump (mk_pipe q1 q2 0 []) (mk_pipe p1 p2 0 []) no_event no_event no_event no_event)
    (c_set_buf Relay (Some (be_disable EV_RW br)) (c_set_buf Client (Some (be_disable EV_RW bc))
      (c_set_state pump_active (c_set_payload (relay_ss_fini ss (c_payload c)) c))))) w) by (destruct c; cbn in *; by subst).
  clear H c0. rename Hnow into H. unfold event_assign, event_active, mod_event, mod_pump.
  do 4 (apply wp_bind; eapply sure_mod; [exact H|reflexivity|]; clear w H; intros w H; cbn in H).
  do 2 (apply wp_bind; eapply sure_mod_buf; [exact H|reflexivity|]; clear w H; intros w H; cbn in H).
  do 2 (apply wp_bind; eapply sure_mod; [exact H|reflexivity|]; clear w H; intros w H; cbn in H).
  do 2 (apply wp_bind; unfold redsocks_event_add; apply wp_bind; eapply sure_answer; [exact H|]; clear w H; intros w H; cbn [when Z.eqb];
    eapply sure_mod; [exact H|reflexivity|]; clear w H; intros w H; cbn in H).
  apply wp_ret, wp_ret. eapply HQ; [|exact H]. by exists (q1, q2), (p1, p2), true, true.
Qed.

Lemma started_inv g ss bc br pl c c' :
  started g bc br pl c c' -> c_pump c = new_pump -> flow_ok c -> c_client c = Some bc -> c_relay c = Some br ->
  client_inv g ss c'.
Proof.
  unfold started. intros Hst Hp Hf Hc Hr. destruct (use_splice g) eqn:Hg.
  - destruct Hst as (q & p & ok1 & ok2 & Hpos & ->). right. split; [done|]. by apply splice_started_inv.
  - subst. left. by apply pump_started_inv.
Qed.

Lemma start_relay_sound id g ss c bc br w :
  at_client id g ss c w -> c_pump c = new_pump -> flow_ok c -> c_client c = Some bc -> c_relay c = Some br ->
  wp (redsocks_start_relay id) (fun _ => sound) w.
Proof.
  intros H Hp Hf Hc Hr. destruct (fl_enabled _ Hf Client bc Hc) as (_ & ? & _).
  destruct (fl_enabled _ Hf Relay br Hr) as (_ & ? & _). eapply at_start; [done..|by intros ? [? _]|].
  intros c' w' Hst H'. eapply at_sound; [done|]. by eapply started_inv.
Qed.

(** ** The invariant of the pump *)

(** The direction from [s] has its pipe. *)
Definition open_dir (s : side) (c : redsocks_client) : Prop :=
  0 <= sp_read (pump_pipe s (c_pump c)) /\ 0 <= sp_write (pump_pipe s (c_pump c)).

(** The direction an event serves. *)
Definition served (k : pump_event) : side := match k with ReadOf s => s | WriteOf s => other s end.

Lemma event_opens k c :
  splicing c -> e_pending (p_event k (c_pump c)) || e_active (p_event k (c_pump c)) = true -> open_dir (served k) c.
Proof.
  intros Hs He. destruct (sp_pipes _ Hs (served k)) as [_ [(_ & _ & _ & _ & H1 & H2)|?]]; [|done]. exfalso.
  destruct k as [s|s]; cbn [served] in *; [rewrite H1 in He|rewrite other_other in H2; rewrite H2 in He]; done.
Qed.

Lemma splicing_keep c c' :
  splicing c -> c_state c' = c_state c -> (forall s, c_evshut s c' = c_evshut s c) ->
  (forall s b, c_buf s c' = Some b -> be_fd b = -1 /\ be_enabled b = 0 /\ be_wpending b = false) ->
  (forall s, e_init (p_event (ReadOf s) (c_pump c')) = e_init (p_event (ReadOf s) (c_pump c)) /\
             e_fd (p_event (ReadOf s) (c_pump c')) = e_fd (p_event (ReadOf s) (c_pump c))) ->
  (forall s, pipe_ok s c') -> splicing c'.
Proof.
  intros [H1 H2 H3 H4 H5 H6 H7] E1 E2 Hb He Hp. split; try done.
  - congruence.
  - intros s. rewrite E2. apply H2.
  - intros s. unfold shut. rewrite !E2. apply H3.
  - pose proof (E2 Client) as A. pose proof (E2 Relay) as B. unfold shut_both in *. cbn in A, B. by rewrite A, B.
  - intros s. destruct (He s) as [-> ->]. apply H6.
Qed.

Lemma pipe_ok_pump s c c' :
  pipe_ok s c -> c_pump c' = c_pump c -> (forall s, c_evshut s c' = c_evshut s c) -> pipe_ok s c'.
Proof. unfold pipe_ok, shut. intros H -> E. by rewrite E. Qed.

(** A change of a buffer or of the time of the last event. *)
Lemma splicing_last t c : splicing c -> splicing (c_set_last t c).
Proof.
  intros H. eapply splicing_keep; [done|done|done|intros s b Hb; apply (sp_bufs _ H s b); by destruct s|done|].
  intros s. eapply pipe_ok_pump; [apply (sp_pipes _ H)|done|done].
Qed.

Lemma splicing_buf s o c :
  splicing c -> (forall b, o = Some b -> be_fd b = -1 /\ be_enabled b = 0 /\ be_wpending b = false) ->
  splicing (c_set_buf s o c).
Proof.
  intros H Ho. eapply splicing_keep; [done|by destruct s|by destruct s; intros []| | |].
  - intros s' b Hb. destruct (decide (s' = s)) as [->|Hne]; [apply Ho; by destruct s|].
    apply (sp_bufs _ H s'). by destruct s, s'.
  - by destruct s; intros [].
  - intros s'. eapply pipe_ok_pump; [apply (sp_pipes _ H)|by destruct s|by destruct s; intros []].
Qed.

(** A call that leaves an idle event idle. *)
Definition idle_call (f : event -> event) : Prop := forall e, f (e_deleted e) = e_deleted e.

Lemma idle_keep f e : idle_call f -> e = e_deleted e -> f e = e_deleted (f e).
Proof. intros Hf He. rewrite He, Hf. done. Qed.

Lemma splicing_event k f c :
  splicing c -> same_event f -> idle_call f \/ open_dir (served k) c -> splicing (c_event k f c).
Proof.
  intros H Hf Hk. eapply splicing_keep; [done|done|by intros []|intros s b Hb; apply (sp_bufs _ H s b); by destruct s| |].
  - intros s. destruct (Hf (p_event k (c_pump c))) as [E1 E2]. destruct k as [[]|[]], s; cbn in *; by rewrite ?E1, ?E2.
  - intros s. destruct (sp_pipes _ H s) as [Hz Hd]. split; [by destruct k as [[]|[]], s|].
    destruct Hd as [(Hr & Hw & Hsh & He & Hs1 & Hs2)|Ho]; [|right; by destruct k as [[]|[]], s].
    assert (Hidle : served k = s -> idle_call f).
    { intros <-. destruct Hk as [?|[? _]]; [done|]. exfalso. lia. }
    left. destruct k as [[]|[]], s; cbn in *; split_and!; try done; apply idle_keep; auto.
Qed.

(** A change of an open pipe that counts its bytes. *)
Lemma splicing_pipe s f c :
  splicing c -> open_dir s c -> same_pipe f ->
  sp_size (f (pump_pipe s (c_pump c))) = zlen (sp_data (f (pump_pipe s (c_pump c)))) -> splicing (c_pipe s f c).
Proof.
  intros H [Hr Hw] Hf Hz. destruct (Hf (pump_pipe s (c_pump c))) as [E1 E2].
  eapply splicing_keep; [done|done|by intros []|intros s' b Hb; apply (sp_bufs _ H s' b); by destruct s'|by destruct s; intros []|].
  intros s'. destruct (decide (s' = s)) as [->|Hne].
  - split; [by destruct s|]. right. destruct s; cbn in *; by rewrite E1, E2.
  - pose proof (sp_pipes _ H s') as H'. by destruct s, s'.
Qed.

(** [evshut |= ev] on side [s] *)
Definition c_shut (s : side) (ev : Z) (c : redsocks_client) : redsocks_client :=
  c_set_evshut s (Z.lor (c_evshut s c) ev) c.

Lemma shut_c_shut s s' ev ev' c :
  shut s' ev' (c_shut s ev c) = shut s' ev' c || (bool_decide (s' = s) && has ev ev').
Proof. unfold shut, c_shut. destruct s, s'; cbn; rewrite ?has_lor, ?orb_false_r; done. Qed.

Lemma rw_c_shut s s' ev c : (forall s, rw (c_evshut s c)) -> rw ev -> rw (c_evshut s' (c_shut s ev c)).
Proof. intros H He. pose proof (H Client). pose proof (H Relay). destruct s, s'; cbn in *; auto using rw_lor. Qed.

(** The end of the input of [s]: nothing else was shut because of it yet. *)
Lemma splicing_shut_read s c : splicing c -> splicing (c_shut s EV_READ c).
Proof.
  intros [H1 H2 H3 H4 H5 H6 H7]. assert (Hrw : forall s', rw (c_evshut s' (c_shut s EV_READ c))).
  { intros s'. apply rw_c_shut; [done|cbv; tauto]. }
  split; [by destruct s|done|..].
  - intros s'. rewrite !shut_c_shut. change (has EV_READ EV_WRITE) with false. rewrite andb_false_r, orb_false_r.
    intros ->%H3. done.
  - rewrite shut_both_flags in H4 |- * by done. rewrite !shut_c_shut. change (has EV_READ EV_WRITE) with false.
    change (has EV_READ EV_READ) with true. rewrite !andb_false_r, !orb_false_r, !andb_true_r.
    pose proof (H3 Client) as A. pose proof (H3 Relay) as B. cbn [other] in A, B.
    destruct s, (shut Relay EV_WRITE c), (shut Client EV_WRITE c), (shut Relay EV_READ c), (shut Client EV_READ c);
      cbn in *; try done; try (by specialize (A eq_refl)); by specialize (B eq_refl).
  - intros s' b Hb. apply (H5 s'). by destruct s, s'.
  - intros s'. specialize (H6 s'). by destruct s, s'.
  - intros s'. destruct (H7 s') as [Hz Hd]. unfold pipe_ok. rewrite shut_c_shut. change (has EV_READ EV_WRITE) with false.
    rewrite andb_false_r, orb_false_r. by destruct s.
Qed.

(** ** The callbacks keep the process sound *)

Section sound.
Context (id : Z) (g : redsocks_config) (ss : relay_subsys) (Hg : use_splice g = true).
Abbreviation at_c := (at_client id g ss).

Lemma splicing_sound c w : at_c c w -> splicing c -> sound w.
Proof. intros H Hs. eapply at_sound; [done|]. by right. Qed.

Lemma free_unused_ok s c (Q : unit -> world -> Prop) w :
  at_c c w -> splicing c ->
  (forall c' w, at_c c' w -> splicing c' -> c_pump c' = c_pump c -> Q tt w) ->
  wp (bufferevent_free_unused id s) Q w.
Proof.
  intros H Hs HQ. apply wp_bind. eapply at_get; [done|]. destruct (c_buf s c) as [b|] eqn:Hb; [|by eapply HQ].
  apply wp_when; intros _; [|by eapply HQ]. destruct (sp_bufs _ Hs s b Hb) as (Hfd & _ & _).
  eapply at_mod; [done| |].
  - split; [by destruct s|]. intros sp. unfold client_fds. destruct s; cbn in *; by rewrite Hb; cbn; rewrite Hfd.
  - intros w' H'. eapply HQ; [done|by apply splicing_buf|by destruct s].
Qed.

Lemma touch_pump_ok c (Q : unit -> world -> Prop) w :
  at_c c w -> splicing c ->
  (forall c' w, at_c c' w -> splicing c' -> c_pump c' = c_pump c -> Q tt w) -> wp (redsocks_touch_pump id) Q w.
Proof.
  intros H Hs HQ. apply wp_bind. eapply at_touch; [done|]. clear w H. intros t w H.
  apply wp_bind. eapply free_unused_ok; [done|by apply splicing_last|]. clear w H. intros c1 w H Hs1 E1.
  eapply free_unused_ok; [done..|]. intros c2 w' H' Hs2 E2. eapply HQ; [done..|]. by rewrite E2, E1.
Qed.

Lemma same_event_calls : same_event e_added /\ same_event e_deleted /\ same_event e_activated /\ same_event e_called.
Proof. by split_and!. Qed.

Lemma event_ok k f c w :
  at_c c w -> splicing c -> same_event f -> idle_call f \/ open_dir (served k) c ->
  wp (mod_event id k f) (fun _ w => sound w) w.
Proof.
  intros H Hs Hf Hk. eapply at_event; [done..|]. intros w' H'. eapply splicing_sound; [done|].
  by apply splicing_event.
Qed.

Lemma read_cb_ok s got c w :
  at_c c w -> splicing c -> open_dir s c -> wp (redsplice_read_cb id s got) (fun _ => sound) w.
Proof.
  intros H Hs Ho. destruct got as [data| | |]; cbn [redsplice_read_cb].
  - apply wp_bind. eapply at_pipe; [done|by intros []|]. clear w H. intros w H.
    eapply event_ok; [done| |done|right].
    + apply splicing_pipe; [done|done|by intros []|]. destruct (sp_pipes _ Hs s) as [Hz _]. cbn.
      rewrite Hz. unfold zlen. rewrite length_app. lia.
    + cbn [served]. rewrite other_other. by destruct s.
  - apply wp_bind. eapply at_get; [done|]. apply wp_bind. eapply at_trace; [done|done|]. clear w H. intros w H.
    apply wp_bind. eapply at_mod; [done|by destruct s|]. clear w H. intros w H.
    apply wp_bind. eapply at_event; [done|done|]. clear w H. intros w H.
    eapply event_ok; [done| |done|right].
    + apply splicing_event; [by apply splicing_shut_read|done|left; by intros []].
    + cbn [served]. rewrite other_other. by destruct s.
  - eapply event_ok; [done..|]. left. by intros [].
  - eapply at_drop; [done|]. by intros ? [? _].
Qed.

(** One of the sources of the write callback. *)
Lemma at_write_source avail r drain c Q w :
  at_c c w -> (avail = 0%nat -> Q all_sent w) -> (avail <> 0%nat -> Q short_write w) ->
  (forall w, gone id w -> Q client_gone w) ->
  (forall n, r = wr_sent n -> avail <> 0%nat ->
     wp (drain n) (fun _ => Q (if Nat.eqb avail n then all_sent else short_write)) w) ->
  wp (write_source id avail r drain) Q w.
Proof.
  intros H Hz Hs Hd Hn. unfold write_source. destruct (Nat.eqb_spec avail 0); [by apply wp_ret, Hz|].
  destruct r as [m| |]; [|by apply wp_ret, Hs|].
  - apply wp_bind. eapply wp_mono; [by apply Hn|]. intros [] w' HQ. by apply wp_ret.
  - apply wp_bind. eapply at_drop; [done|]. intros w' Hgone. by apply wp_ret, Hd.
Qed.

(** The pipe is closed and its direction is over. *)
Definition closed_pipe (s : side) (c : redsocks_client) : redsocks_client :=
  c_pipe s pipe_no_write (c_pipe s pipe_no_read c).

Lemma at_close_pipe {A} (k : M A) s q c Q w :
  at_c c w -> open_dir s c -> q = pump_pipe s (c_pump c) ->
  (forall w, at_c (closed_pipe s c) w -> wp k Q w) ->
  wp (redsocks_close (sp_read q) ;; mod_pipe id s pipe_no_read ;;
      redsocks_close (sp_write q) ;; mod_pipe id s pipe_no_write ;; k) Q w.
Proof.
  intros H [Hr Hw] -> HQ.
  assert (E : forall fd, 0 <= fd -> fd_list fd = [fd]).
  { intros fd ?. unfold fd_list. destruct (Z.eqb_spec fd (-1)); [lia|done]. }
  eapply at_close_mine; [done|done|done| |].
  - rewrite Hg. unfold client_fds, pump_fds. destruct s; cbn -[fd_list] in *; rewrite (E _ Hr); cbn; solve_Permutation.
  - clear w H. intros w H. eapply at_close_mine; [done|done|done| |done].
    rewrite Hg. unfold client_fds, pump_fds. destruct s; cbn -[fd_list] in *; rewrite (E _ Hw); cbn; solve_Permutation.
Qed.

(** The client once the end of the input of [s] was forwarded. *)
Definition ended_dir (s : side) (c : redsocks_client) : redsocks_client :=
  c_event (WriteOf (other s)) e_deleted (c_event (ReadOf s) e_deleted (closed_pipe s (c_shut (other s) EV_WRITE c))).

Lemma splicing_ended s c :
  splicing c -> open_dir s c -> shut s EV_READ c = true -> sp_data (pump_pipe s (c_pump c)) = [] ->
  shut_both (ended_dir s c) = false -> splicing (ended_dir s c).
Proof.
  intros [H1 H2 H3 H4 H5 H6 H7] Ho Hsh Hd Hboth.
  assert (Hshut : forall s' ev, shut s' ev (ended_dir s c) = shut s' ev (c_shut (other s) EV_WRITE c))
    by (by intros [] ?; destruct s).
  split.
  - by destruct s.
  - intros s'. replace (c_evshut s' (ended_dir s c)) with (c_evshut s' (c_shut (other s) EV_WRITE c)) by by destruct s, s'.
    apply rw_c_shut; [done|cbv; tauto].
  - intros s'. rewrite !Hshut, !shut_c_shut. change (has EV_WRITE EV_READ) with false. rewrite andb_false_r, orb_false_r.
    intros [?%H3|[->%bool_decide_eq_true _]%andb_true_iff]%orb_true_iff; [done|]. by rewrite other_other.
  - done.
  - intros s' b Hb. apply (H5 s'). by destruct s, s'.
  - intros s'. specialize (H6 s'). by destruct s, s'.
  - intros s'. destruct (H7 s') as [Hz Hp]. unfold pipe_ok. rewrite Hshut, shut_c_shut. destruct (decide (s' = s)) as [->|Hne].
    + split; [by destruct s|]. left. rewrite bool_decide_eq_true_2, orb_true_r by done. by destruct s.
    + rewrite bool_decide_eq_false_2, orb_false_r by (by destruct s, s'). by destruct s, s'.
Qed.

Lemma decide_ok s (has_data can_write : bool) c w :
  at_c c w -> splicing c -> open_dir s c -> negb (can_write && has_data) = true ->
  (has_data = false -> sp_data (pump_pipe s (c_pump c)) = []) ->
  wp (redsplice_decide id s has_data can_write) (fun _ => sound) w.
Proof.
  intros H Hs Ho Hcw Hd. unfold redsplice_decide. apply wp_bind. eapply at_get; [done|]. apply wp_bind.
  destruct (negb has_data && has (c_evshut s c) EV_READ && negb (has (c_evshut (other s) c) EV_WRITE)) eqn:Hend.
  - apply andb_true_iff in Hend as [[->%negb_true_iff Hsh]%andb_true_iff _]. specialize (Hd eq_refl).
    destruct (sp_pipes _ Hs s) as [Hz _]. rewrite Hd in Hz.
    apply wp_bind. eapply at_trace; [done|done|]. clear w H. intros w H.
    apply wp_bind. eapply at_mod; [done|by destruct s|]. clear w H. intros w H.
    apply wp_bind, wp_assert; [by rewrite Hz|]. eapply at_close_pipe; [done|by destruct s|by destruct s|]. clear w H. intros w H.
    apply wp_bind. eapply at_get; [done|].
    change (c_set_evshut (other s) (Z.lor (c_evshut (other s) c) EV_WRITE) c) with (c_shut (other s) EV_WRITE c) in *.
    destruct (shut_both (closed_pipe s (c_shut (other s) EV_WRITE c))) eqn:Hboth.
    + apply wp_bind. eapply at_drop; [done|]. intros w' [Hsound _]. by apply wp_ret, wp_ret.
    + apply wp_ret, wp_bind, wp_assert; [done|]. cbn [negb andb when].
      apply wp_bind. eapply at_event; [done|done|]. clear w H. intros w H.
      eapply at_event; [done|done|]. clear w H. intros w H. eapply splicing_sound; [done|].
      apply splicing_ended; try done.
  - apply wp_ret, wp_bind, wp_assert; [done|].
    assert (Hidle : forall k, idle_call e_deleted \/ open_dir k c) by (left; by intros []).
    assert (Hopen : forall k f, open_dir s (c_event k f c)) by (intros [[]|[]] f; by destruct s).
    assert (Hdst : open_dir (served (WriteOf (other s))) c) by (cbn [served]; by rewrite other_other).
    destruct has_data, can_write; try done; cbn [negb andb when].
    + apply wp_bind. eapply at_event; [done|done|]. clear w H. intros w H.
      eapply at_event_add; [done| |]; intros w' H'; (eapply splicing_sound; [done|]); [apply splicing_event; [|done|right]|].
      * apply splicing_event; [done|done|left; by intros []].
      * cbn [served]. rewrite other_other. apply Hopen.
      * apply splicing_event; [done|done|left; by intros []].
    + apply wp_bind. eapply at_event_add; [done| |]; clear w H; intros w H;
        (eapply event_ok; [done| |done|left; by intros []]); [|done].
      apply splicing_event; [done|done|by right].
    + apply wp_bind. eapply at_event; [done|done|]. clear w H. intros w H.
      eapply event_ok; [done| |done|left; by intros []]. apply splicing_event; [done|done|left; by intros []].
Qed.

(** What the calls can have written: no more than was there. *)
Definition fits (r : written) (avail : nat) : Prop := forall n, r = wr_sent n -> (n <= avail)%nat.

(** The client after some of a buffer was written. *)
Definition drained (output : bool) (c c' : redsocks_client) : Prop :=
  splicing c' /\ c_pump c' = c_pump c /\ (output = true -> forall s, input_of s c' = input_of s c).

Lemma drained_ok (output : bool) s n c b w :
  at_c c w -> splicing c -> c_buf s c = Some b ->
  wp ((if output then drain_output else drain_input) id s n) (fun _ w => exists c', at_c c' w /\ drained output c c') w.
Proof.
  intros H Hs Hb. destruct (sp_bufs _ Hs s b Hb) as (? & ? & ?).
  destruct output; (eapply at_mod_buf; [done|done|done|]); intros w' H'; (eexists; split; [done|]);
    (split; [apply splicing_buf; [done|by intros ? [= <-]]|split; [by destruct s|]]); [|done].
  intros _ s'. unfold input_of. destruct s, s'; cbn in *; by rewrite ?Hb.
Qed.

(** A buffer that is written first, then the rest of the callback. *)
Lemma buffer_source (output : bool) s d avail r k c w :
  at_c c w -> splicing c -> open_dir s c -> avail = length ((if output then output_of else input_of) d c) ->
  (forall c' w, at_c c' w -> drained output c c' -> wp k (fun _ => sound) w) ->
  wp (x ← write_source id avail r ((if output then drain_output else drain_input) id d);
      match x with
      | client_gone => mret tt
      | short_write => redsplice_decide id s true false
      | all_sent => k
      end) (fun _ => sound) w.
Proof.
  intros H Hs Ho -> Hk.
  assert (Hshort : forall c' w, at_c c' w -> drained output c c' ->
            wp (redsplice_decide id s true false) (fun _ => sound) w).
  { intros c' w' H' (Hs' & E & _). eapply decide_ok; [done|done| |done|done]. unfold open_dir. by rewrite E. }
  assert (Hsame : drained output c c) by done.
  apply wp_bind. eapply at_write_source; [done|..].
  - intros _. by eapply Hk.
  - intros _. by eapply Hshort.
  - intros w' [? _]. by apply wp_ret.
  - intros n _ Hne. destruct (c_buf d c) as [b|] eqn:Hb.
    2:{ exfalso. apply Hne. unfold output_of, input_of. destruct output; by rewrite Hb. }
    eapply wp_mono; [by eapply drained_ok|]. intros [] w' (c' & H' & Hd).
    destruct (Nat.eqb _ _); [by eapply Hk|by eapply Hshort].
Qed.

Lemma write_cb_ok s r0 r1 r2 c w :
  at_c c w -> splicing c -> open_dir s c -> fits r2 (length (sp_data (pump_pipe s (c_pump c)))) ->
  wp (redsplice_write_cb id s r0 r1 r2) (fun _ => sound) w.
Proof.
  intros H Hs Ho Hfit. destruct (sp_pipes _ Hs s) as [Hz _]. apply wp_bind. eapply at_get; [done|].
  eapply (buffer_source true); [done|done|done|done|]. clear w H. intros c1 w H (Hs1 & E1 & Hin).
  assert (Ho1 : open_dir s c1) by (unfold open_dir; by rewrite E1).
  eapply (buffer_source false); [done|done|done|by rewrite Hin|]. clear w H. intros c2 w H (Hs2 & E2 & _).
  rewrite <-E1, <-E2 in Hz, Hfit |- *. assert (Ho2 : open_dir s c2) by (unfold open_dir; by rewrite E2).
  rewrite Hz. unfold zlen. rewrite Nat2Z.id. apply wp_bind. eapply at_write_source; [done|..].
  - intros Hnil%nil_length_inv. by eapply decide_ok.
  - intros _. by eapply decide_ok.
  - intros w' [? _]. by apply wp_ret.
  - intros n Hr Hne. specialize (Hfit n Hr). eapply at_pipe; [done|by intros []|]. clear w H. intros w H.
    assert (Hs3 : splicing (c_pipe s (pipe_drain n) c2)).
    { apply splicing_pipe; [done|done|by intros []|]. cbn. rewrite Hz. unfold zlen. rewrite length_drop. lia. }
    assert (Ho3 : open_dir s (c_pipe s (pipe_drain n) c2)) by by destruct s.
    destruct (Nat.eqb_spec (length (sp_data (pump_pipe s (c_pump c2)))) n) as [<-|]; [|by eapply decide_ok].
    eapply decide_ok; [done..|]. intros _. replace (sp_data _) with (drop (length (sp_data (pump_pipe s (c_pump c2))))
      (sp_data (pump_pipe s (c_pump c2)))) by by destruct s. by apply drop_all.
Qed.

(** What the event loop calls. *)
Lemma splice_read_sound s got c w :
  at_c c w -> splicing c -> e_pending (p_event (ReadOf s) (c_pump c)) || e_active (p_event (ReadOf s) (c_pump c)) = true ->
  wp (redsplice_read id s got) (fun _ => sound) w.
Proof.
  intros H Hs He. pose proof (event_opens (ReadOf s) c Hs He) as Ho. cbn [served] in Ho.
  apply wp_bind. eapply at_event; [done|done|]. clear w H. intros w H.
  apply wp_bind. eapply touch_pump_ok; [done|apply splicing_event; [done|done|left; by intros []]|].
  clear w H. intros c' w H Hs' E. eapply read_cb_ok; [done|done|]. unfold open_dir. rewrite E. by destruct s.
Qed.

Lemma splice_write_sound s r0 r1 r2 c w :
  at_c c w -> splicing c -> e_pending (p_event (WriteOf s) (c_pump c)) || e_active (p_event (WriteOf s) (c_pump c)) = true ->
  fits r2 (length (sp_data (pump_pipe (other s) (c_pump c)))) ->
  wp (redsplice_write id s r0 r1 r2) (fun _ => sound) w.
Proof.
  intros H Hs He Hfit. pose proof (event_opens (WriteOf s) c Hs He) as Ho. cbn [served] in Ho.
  apply wp_bind. eapply at_event; [done|done|]. clear w H. intros w H.
  apply wp_bind. eapply touch_pump_ok; [done|apply splicing_event; [done|done|left; by intros []]|].
  clear w H. intros c' w H Hs' E. eapply write_cb_ok; [done|done|unfold open_dir; rewrite E; by destruct s|].
  rewrite E. by destruct s.
Qed.

End sound.

End Splice.
