(* ===== verification/Socks5.v ===== *)
(** * SOCKS5 towards the proxy: socks5.c

    The messages of RFC 1928 and RFC 1929, the callbacks that drive the negotiation
    with the proxy, and their refinement of a pure protocol machine. *)

From S2P Require Import Prelude CLib World HttprBuffer Redsocks Ownership ClientLogic Flow Splice.
Import Redsocks Ownership Flow Splice.
Open Scope Z_scope.

Module Socks5.

Definition socks5_ver : Z := 5.
Definition socks5_auth_none : Z := 0x00.
Definition socks5_auth_password : Z := 0x02.
Definition socks5_auth_invalid : Z := 0xFF.
Definition socks5_password_ver : Z := 0x01.
Definition socks5_password_passed : Z := 0x00.
Definition socks5_addrtype_ipv4 : Z := 1.
Definition socks5_addrtype_domain : Z := 3.
Definition socks5_addrtype_ipv6 : Z := 4.
Definition socks5_status_succeeded : Z := 0.
Definition socks5_cmd_connect : Z := 1.
Definition socks5_cmd_udp_associate : Z := 3.

(** Sizes of the packed structures. *)
Definition sizeof_method_reply : Z := 2.
Definition sizeof_auth_reply : Z := 2.
Definition sizeof_reply : Z := 4.
Definition sizeof_addr_ipv4 : Z := 6.
Definition sizeof_addr_ipv6 : Z := 18.
Definition sizeof_port : Z := 2.

(** ** Configuration *)

Definition socks5_is_valid_cred (login password : option bytes) : bool :=
  match login, password with
  | Some l, Some p => negb (zlen l >? 255) && negb (zlen p >? 255)
  | _, _ => false
  end.

Definition set_creds (l p : option bytes) (g : redsocks_config) : redsocks_config :=
  mk_config (bindaddr g) (relayaddr g) (cfg_type g) l p (listenq g) (use_splice g)
    (disclose_src g) (on_proxy_fail g).

Definition socks5_instance_init (i : redsocks_instance) : redsocks_instance :=
  let g := i_config i in
  match login g, password g with
  | None, None => i
  | Some l, Some p =>
      if negb (socks5_is_valid_cred (Some l) (Some p)) then i_set_config (set_creds None None g) i else i
  | _, _ => i_set_config (set_creds None None g) i
  end.

Definition socks5_client_init (g : redsocks_config) (c : redsocks_client) : redsocks_client :=
  c_set_payload (socks5_payload (mk_socks5_client
    (if bool_decide (is_Some (login g) /\ is_Some (password g)) then 1 else 0) 0))
    (c_set_state socks5_new c).

(** ** Messages *)

Definition methods_msg (do_password : Z) : bytes :=
  [u8 socks5_ver; u8 (1 + do_password); socks5_auth_none] ++
  (if do_password =? 0 then [] else [socks5_auth_password]).

Definition socks5_mkmethods_plain (do_password : Z) : M (option bytes) :=
  assert ((do_password =? 0) || (do_password =? 1)) ;;
  mkevbuffer (methods_msg do_password).

(** [red_payload(client)] *)
Definition get_socks5 (id : Z) : M socks5_client :=
  c ← get_client id;
  match c_payload c with socks5_payload p => mret p | _ => fault end.

Definition socks5_mkmethods (id : Z) : M (option bytes) :=
  p ← get_socks5 id; socks5_mkmethods_plain (do_password p).

Definition password_msg (l p : bytes) : bytes :=
  [socks5_password_ver; u8 (zlen l)] ++ l ++ [u8 (zlen p)] ++ p.

(** [strlen] of a NULL login or password is a fault. *)
Definition socks5_mkpassword_plain (l p : option bytes) : M (option bytes) :=
  match l, p with
  | Some l, Some p => mkevbuffer (password_msg l p)
  | _, _ => fault
  end.

Definition socks5_mkpassword (id : Z) : M (option bytes) :=
  c ← get_client id;
  i ← get_instance (c_instance c);
  socks5_mkpassword_plain (login (i_config i)) (password (i_config i)).

Definition command_msg (cmd : Z) (destaddr : sockaddr_in) : bytes :=
  [u8 socks5_ver; u8 cmd; 0; socks5_addrtype_ipv4] ++ sin_addr destaddr ++ sin_port destaddr.

Definition socks5_mkcommand_plain (cmd : Z) (destaddr : sockaddr_in) : M (option bytes) :=
  mkevbuffer (command_msg cmd destaddr).

Definition socks5_mkconnect (id : Z) : M (option bytes) :=
  c ← get_client id; socks5_mkcommand_plain socks5_cmd_connect (c_destaddr c).

(** ** Callbacks *)

Definition socks5_write_cb (id : Z) : M unit :=
  redsocks_touch_client id ;;
  c ← get_client id;
  when (c_state c =? socks5_new)
    (redsocks_write_helper id Relay (Some socks5_mkmethods) socks5_method_sent sizeof_method_reply ;;
     mret tt).

(** [true]: the method the proxy chose is one that was offered. *)
Definition socks5_is_known_auth_method (ver method do_password : Z) : bool :=
  if negb (ver =? socks5_ver) then false
  else if method =? socks5_auth_invalid then false
  else if negb (method =? socks5_auth_none) &&
          negb ((method =? socks5_auth_password) && negb (do_password =? 0)) then false
  else true.

(** The [n]-th byte of a reply. *)
Definition byte_at (data : bytes) (n : nat) : Z := nth n data 0.

Definition socks5_read_auth_methods (id : Z) (p : socks5_client) : M unit :=
  r ← redsocks_read_expected id Relay sizes_equal sizeof_method_reply;
  match r with
  | None => mret tt
  | Some reply =>
      let method := byte_at reply 1 in
      if negb (socks5_is_known_auth_method (byte_at reply 0) method (do_password p)) then
        redsocks_drop_client id
      else if method =? socks5_auth_none then
        redsocks_write_helper id Relay (Some socks5_mkconnect) socks5_request_sent sizeof_reply ;; mret tt
      else when (method =? socks5_auth_password)
        (redsocks_write_helper id Relay (Some socks5_mkpassword) socks5_auth_sent sizeof_auth_reply ;; mret tt)
  end.

Definition socks5_read_auth_reply (id : Z) : M unit :=
  r ← redsocks_read_expected id Relay sizes_equal sizeof_auth_reply;
  match r with
  | None => mret tt
  | Some reply =>
      if negb (byte_at reply 0 =? socks5_password_ver) then redsocks_drop_client id
      else if byte_at reply 1 =? socks5_password_passed then
        redsocks_write_helper id Relay (Some socks5_mkconnect) socks5_request_sent sizeof_reply ;; mret tt
      else redsocks_drop_client id
  end.

Definition set_to_skip (id n : Z) : M unit :=
  p ← get_socks5 id; mod_client id (c_set_payload (socks5_payload (mk_socks5_client (do_password p) n))).

Definition socks5_read_reply (id : Z) : M unit :=
  r ← redsocks_read_expected id Relay sizes_greater_equal sizeof_reply;
  match r with
  | None => mret tt
  | Some reply =>
      if negb (byte_at reply 0 =? socks5_ver) then redsocks_drop_client id
      else if byte_at reply 1 =? socks5_status_succeeded then
        let addrtype := byte_at reply 3 in
        if addrtype =? socks5_addrtype_ipv4 then
          set_to_skip id sizeof_addr_ipv4 ;;
          redsocks_write_helper id Relay None socks5_skip_address sizeof_addr_ipv4 ;; mret tt
        else if addrtype =? socks5_addrtype_ipv6 then
          set_to_skip id sizeof_addr_ipv6 ;;
          redsocks_write_helper id Relay None socks5_skip_address sizeof_addr_ipv6 ;; mret tt
        else if addrtype =? socks5_addrtype_domain then
          redsocks_write_helper id Relay None socks5_skip_domain 1 ;; mret tt
        else redsocks_drop_client id
      else redsocks_drop_client id
  end.

Definition socks5_read_cb (id : Z) : M unit :=
  p ← get_socks5 id;
  redsocks_touch_client id ;;
  c ← get_client id;
  let st := c_state c in
  if st =? socks5_method_sent then socks5_read_auth_methods id p
  else if st =? socks5_auth_sent then socks5_read_auth_reply id
  else if st =? socks5_request_sent then socks5_read_reply id
  else if st =? socks5_skip_domain then
    r ← redsocks_read_expected id Relay sizes_greater_equal 1;
    match r with
    | None => mret tt
    | Some d =>
        let n := byte_at d 0 + sizeof_port in
        set_to_skip id n ;;
        redsocks_write_helper id Relay None socks5_skip_address n ;; mret tt
    end
  else if st =? socks5_skip_address then
    r ← redsocks_read_expected id Relay sizes_greater_equal (to_skip p);
    match r with
    | None => mret tt
    | Some _ => redsocks_start_relay id
    end
  else redsocks_drop_client id.

(** ** The protocol as a pure machine *)

Inductive reaction :=
| Drop                                              (* the proxy refused or broke the protocol *)
| Send (msg : bytes) (st wm : Z)                    (* all input used, the next message *)
| Await (st wm skip : Z) (rest : bytes)             (* wait for [wm] more bytes *)
| Start (rest : bytes).                             (* relay; [rest] belongs to the client *)

#[export] Instance reaction_eq_dec : EqDecision reaction.
Proof. solve_decision. Defined.

(** What RFC 1928 and RFC 1929 ask for, by state and input. *)
Definition react (g : redsocks_config) (dest : sockaddr_in) (h : socks5_client) (st : Z)
  (input : bytes) : reaction :=
  let connect := Send (command_msg socks5_cmd_connect dest) socks5_request_sent sizeof_reply in
  if st =? socks5_method_sent then
    match input with
    | [v; m] =>
        if (v =? 5) && (m =? 0) then connect
        else if (v =? 5) && (m =? 2) && (do_password h =? 1) then
          Send (password_msg (default [] (login g)) (default [] (password g))) socks5_auth_sent sizeof_auth_reply
        else Drop
    | _ => Drop
    end
  else if st =? socks5_auth_sent then
    match input with
    | [v; status] => if (v =? 1) && (status =? 0) then connect else Drop
    | _ => Drop
    end
  else if st =? socks5_request_sent then
    match input with
    | v :: status :: _ :: addrtype :: rest =>
        if (v =? 5) && (status =? 0) then
          if addrtype =? 1 then Await socks5_skip_address 6 6 rest
          else if addrtype =? 4 then Await socks5_skip_address 18 18 rest
          else if addrtype =? 3 then Await socks5_skip_domain 1 (to_skip h) rest
          else Drop
        else Drop
    | _ => Drop
    end
  else if st =? socks5_skip_domain then
    match input with
    | n :: rest => Await socks5_skip_address (n + 2) (n + 2) rest
    | [] => Drop
    end
  else if (st =? socks5_skip_address) && (to_skip h <=? zlen input) then
    Start (drop (Z.to_nat (to_skip h)) input)
  else Drop.

(** The client after a reaction that keeps it; [ok] says whether every event it waits for was
    added. *)
Definition reacted g (r : reaction) (t : Z) (ok : bool) (h : socks5_client) (bc b : bufferevent)
  (c c' : redsocks_client) : Prop :=
  let c := c_set_last t c in
  match r with
  | Drop => False
  | Send msg st wm =>
      c' = c_set_buf Relay (Some (after_helper ok wm wm (be_append msg (be_set_input [] b)))) (c_set_state st c)
  | Await st wm skip rest =>
      c' = c_set_buf Relay (Some (after_helper ok wm wm (be_set_input rest b)))
             (c_set_state st (c_set_payload (socks5_payload (mk_socks5_client (do_password h) skip)) c))
  | Start rest =>
      started_fully ok g bc (be_set_input rest b) (c_payload c) (c_set_buf Relay (Some (be_set_input rest b)) c) c'
  end.

(** Reactions that need nothing the system may refuse. *)
Definition certain (r : reaction) : Prop :=
  match r with Await _ _ _ _ => True | _ => False end.

Definition outcome_any id g (r : reaction) h bc b c (w : world) : Prop :=
  (gone id w /\ ~ certain r) \/
  (exists t ok c', reacted g r t ok h bc b c c' /\ at_client id g socks5_subsys c' w).

(** From [w0] to [w]: the client is dropped when the machine says so, or because a call
    failed in a reaction that needs one; otherwise it is the client after the reaction,
    which waits for all its events unless a call failed. *)
Definition outcome_of id g (r : reaction) h bc b c (w0 w : world) : Prop :=
  (gone id w /\ (r = Drop \/ call_fails w0 /\ ~ certain r)) \/
  (exists t ok c', reacted g r t ok h bc b c c' /\ at_client id g socks5_subsys c' w /\ (ok = false -> call_fails w0)).

(** ** The callbacks implement the machine *)

Lemma at_get_socks5 id g ss c h Q w :
  at_client id g ss c w -> c_payload c = socks5_payload h -> Q h w -> wp (get_socks5 id) Q w.
Proof. intros H Hp HQ. apply wp_bind. eapply at_get; [done|]. by rewrite Hp. Qed.

Lemma socks5_mkconnect_makes (listed := true) id g c :
  makes (listed := true) id g socks5_subsys c socks5_mkconnect (eq (command_msg socks5_cmd_connect (c_destaddr c))).
Proof.
  intros Q w H Hno Hyes. apply wp_bind. eapply at_get; [done|].
  apply mkevbuffer_makes; intros; [apply Hno|apply Hyes; [done|]]; by eapply at_aside.
Qed.

Lemma mkpassword_makes (listed := true) id g c l p :
  login g = Some l -> password g = Some p ->
  makes (listed := true) id g socks5_subsys c socks5_mkpassword (eq (password_msg l p)).
Proof.
  intros Hl Hp Q w H Hno Hyes. apply wp_bind. eapply at_get; [done|].
  apply wp_bind. eapply at_instance; [done|]. intros i _ -> _. unfold socks5_mkpassword_plain.
  rewrite Hl, Hp. apply mkevbuffer_makes; intros; [apply Hno|apply Hyes; [done|]]; by eapply at_aside.
Qed.

Lemma mkmethods_makes (listed := true) id g c h :
  c_payload c = socks5_payload h -> do_password h = 0 \/ do_password h = 1 ->
  makes (listed := true) id g socks5_subsys c socks5_mkmethods (eq (methods_msg (do_password h))).
Proof.
  intros Hp Hd Q w H Hno Hyes. apply wp_bind. eapply at_get_socks5; [done..|].
  apply wp_bind, wp_assert; [destruct Hd as [-> | ->]; done|].
  apply mkevbuffer_makes; intros; [apply Hno|apply Hyes; [done|]]; by eapply at_aside.
Qed.

Section read.
Context (id : Z) (g : redsocks_config) (c : redsocks_client) (h : socks5_client) (bc b : bufferevent).
Context (Hbc : c_client c = Some bc) (Hb : c_relay c = Some b) (Hp : c_payload c = socks5_payload h).
Context (Hcred : do_password h = if bool_decide (is_Some (login g) /\ is_Some (password g)) then 1 else 0).
Context (Hskip : c_state c = socks5_skip_address -> 0 <= to_skip h).
Context (Hpump : c_pump c = new_pump) (Hflow : flow_ok c).

Let out r w := outcome_any id g r h bc b c w.

Lemma gone_out r w : ~ certain r -> gone id w -> out r w.
Proof. by left. Qed.

Lemma read_n_run cmp n Q t w :
  at_client id g socks5_subsys (c_set_last t c) w ->
  (cmp (zlen (be_input b)) n = true -> 0 <= n <= zlen (be_input b)) ->
  (cmp (zlen (be_input b)) n = true -> forall w,
    at_client id g socks5_subsys (c_set_buf Relay (Some (be_set_input (drop (Z.to_nat n) (be_input b)) b))
       (c_set_last t c)) w -> Q (Some (take (Z.to_nat n) (be_input b))) w) ->
  (cmp (zlen (be_input b)) n = false -> forall w, gone id w -> Q None w) ->
  wp (redsocks_read_expected id Relay cmp n) Q w.
Proof. intros H Hcmp Hyes Hno. by eapply at_read_expected. Qed.

Lemma send_out msg mk st wm t w :
  (forall c', c_destaddr c' = c_destaddr c -> makes (listed := true) id g socks5_subsys c' mk (eq msg)) ->
  at_client id g socks5_subsys (c_set_buf Relay (Some (be_set_input [] b)) (c_set_last t c)) w ->
  wp (redsocks_write_helper id Relay (Some mk) st wm ;; mret tt) (fun _ => out (Send msg st wm)) w.
Proof.
  intros Hmk H. apply wp_bind. eapply at_write_helper; [done|done|by apply Hmk|..].
  - intros w' Hg. apply wp_ret. apply gone_out; [by intros []|done].
  - intros d ok w' <- H'. apply wp_ret. right. eexists t, ok, _. split; [reflexivity|]. exact H'.
Qed.

Lemma await_out st wm skip rest t w :
  at_client id g socks5_subsys (c_set_payload (socks5_payload (mk_socks5_client (do_password h) skip))
    (c_set_buf Relay (Some (be_set_input rest b)) (c_set_last t c))) w ->
  wp (redsocks_write_helper id Relay None st wm ;; mret tt) (fun _ => out (Await st wm skip rest)) w.
Proof.
  intros H. apply wp_bind. eapply at_write_helper_none; [done|done|]. intros ok w' H'.
  apply wp_ret. right. eexists t, ok, _. split; [reflexivity|]. exact H'.
Qed.

Lemma set_skip_out st wm skip rest t w :
  at_client id g socks5_subsys (c_set_buf Relay (Some (be_set_input rest b)) (c_set_last t c)) w ->
  wp (set_to_skip id skip ;; redsocks_write_helper id Relay None st wm ;; mret tt)
    (fun _ => out (Await st wm skip rest)) w.
Proof.
  intros H. apply wp_bind. apply wp_bind. eapply at_get_socks5; [done|done|].
  eapply at_mod; [done|done|]. intros w' H'. by eapply await_out.
Qed.

Lemma drop_out t (f : redsocks_client -> redsocks_client) w :
  at_client id g socks5_subsys (f (c_set_last t c)) w ->
  wp (redsocks_drop_client id) (fun _ => out Drop) w.
Proof. intros H. eapply at_drop; [done|]. intros. apply gone_out; [by intros []|done]. Qed.

Lemma auth_methods_out t w :
  c_state c = socks5_method_sent -> at_client id g socks5_subsys (c_set_last t c) w ->
  wp (socks5_read_auth_methods id h) (fun _ => out (react g (c_destaddr c) h (c_state c) (be_input b))) w.
Proof.
  intros Hst H. apply wp_bind. unfold react. rewrite Hst.
  eapply read_n_run; [done|by apply sizes_equal_fits| |].
  - intros Hlen%Z.eqb_eq w' H'. destruct (be_input b) as [|v [|m [|]]] eqn:Hin; try done.
    2:{ unfold zlen, sizeof_method_reply in Hlen. cbn [length] in Hlen. lia. }
    change (Z.to_nat sizeof_method_reply) with 2%nat in *. cbn [drop take] in *.
    unfold socks5_is_known_auth_method, byte_at. cbn [nth]. rewrite Hcred.
    change (socks5_method_sent =? socks5_method_sent) with true. cbv iota.
    unfold socks5_ver, socks5_auth_invalid, socks5_auth_none, socks5_auth_password.
    destruct (Z.eqb_spec v 5) as [->|]; cbn [negb andb]; [|by eapply (drop_out t (c_set_buf _ _))].
    destruct (Z.eqb_spec m 255) as [->|]; [by eapply (drop_out t (c_set_buf _ _))|].
    destruct (Z.eqb_spec m 0) as [->|]; cbn [negb andb].
    { eapply send_out; [|done]. intros c' <-. apply socks5_mkconnect_makes. }
    destruct (Z.eqb_spec m 2) as [->|]; cbn [negb andb]; [|by eapply (drop_out t (c_set_buf _ _))].
    case_bool_decide as Hcr; cbn [negb]; [|by eapply (drop_out t (c_set_buf _ _))].
    destruct Hcr as [[l Hl] [p Hpw]]. change (2 =? 2) with true. cbn [when].
    rewrite Hl, Hpw. eapply send_out; [|done]. intros c' _. by apply mkpassword_makes.
  - intros Hlen%Z.eqb_neq w' Hg. apply wp_ret.
    destruct (be_input b) as [|v [|m [|]]] eqn:Hin; try (apply gone_out; [by intros []|done]). done.
Qed.

Lemma auth_reply_out t w :
  c_state c = socks5_auth_sent -> at_client id g socks5_subsys (c_set_last t c) w ->
  wp (socks5_read_auth_reply id) (fun _ => out (react g (c_destaddr c) h (c_state c) (be_input b))) w.
Proof.
  intros Hst H. apply wp_bind. unfold react. rewrite Hst.
  change (socks5_auth_sent =? socks5_method_sent) with false.
  change (socks5_auth_sent =? socks5_auth_sent) with true. cbv iota.
  eapply read_n_run; [done|by apply sizes_equal_fits| |].
  - intros Hlen%Z.eqb_eq w' H'. destruct (be_input b) as [|v [|m [|]]] eqn:Hin; try done.
    2:{ unfold zlen, sizeof_auth_reply in Hlen. cbn [length] in Hlen. lia. }
    change (Z.to_nat sizeof_auth_reply) with 2%nat in *. cbn [drop take] in *.
    unfold byte_at. cbn [nth]. unfold socks5_password_ver, socks5_password_passed.
    destruct (Z.eqb_spec v 1) as [->|]; cbn [negb andb]; [|by eapply (drop_out t (c_set_buf _ _))].
    destruct (Z.eqb_spec m 0) as [->|]; cbn [negb andb]; [|by eapply (drop_out t (c_set_buf _ _))].
    eapply send_out; [|done]. intros c' <-. apply socks5_mkconnect_makes.
  - intros Hlen%Z.eqb_neq w' Hg. apply wp_ret.
    destruct (be_input b) as [|v [|m [|]]] eqn:Hin; try (apply gone_out; [by intros []|done]). done.
Qed.

Lemma reply_out t w :
  c_state c = socks5_request_sent -> at_client id g socks5_subsys (c_set_last t c) w ->
  wp (socks5_read_reply id) (fun _ => out (react g (c_destaddr c) h (c_state c) (be_input b))) w.
Proof.
  intros Hst H. apply wp_bind. unfold react. rewrite Hst.
  change (socks5_request_sent =? socks5_method_sent) with false.
  change (socks5_request_sent =? socks5_auth_sent) with false.
  change (socks5_request_sent =? socks5_request_sent) with true. cbv iota.
  eapply read_n_run; [done|by apply sizes_greater_equal_fits| |].
  - intros Hlen w' H'. destruct (be_input b) as [|v [|st [|x [|ty rest]]]] eqn:Hin; try done.
    change (Z.to_nat sizeof_reply) with 4%nat in *. cbn [drop take] in *.
    unfold byte_at. cbn [nth]. unfold socks5_ver, socks5_status_succeeded.
    destruct (Z.eqb_spec v 5) as [->|]; cbn [negb andb]; [|by eapply (drop_out t (c_set_buf _ _))].
    destruct (Z.eqb_spec st 0) as [->|]; cbn [negb andb]; [|by eapply (drop_out t (c_set_buf _ _))].
    unfold socks5_addrtype_ipv4, socks5_addrtype_ipv6, socks5_addrtype_domain.
    destruct (Z.eqb_spec ty 1) as [->|]; [by eapply set_skip_out|].
    destruct (Z.eqb_spec ty 4) as [->|]; [by eapply set_skip_out|].
    destruct (Z.eqb_spec ty 3) as [->|]; [|by eapply (drop_out t (c_set_buf _ _))].
    eapply await_out. destruct c, h; cbn in *; subst. exact H'.
  - intros Hlen w' Hg. apply wp_ret. destruct (be_input b) as [|v [|st [|x [|ty rest]]]] eqn:Hin;
      try (apply gone_out; [by intros []|done]).
    unfold sizes_greater_equal, zlen, sizeof_reply in Hlen. cbn [length] in Hlen.
    destruct (Z.geb_spec (Z.of_nat (S (S (S (S (length rest)))))) 4); [done|lia].
Qed.

Lemma skip_domain_out t w :
  c_state c = socks5_skip_domain -> at_client id g socks5_subsys (c_set_last t c) w ->
  wp (r ← redsocks_read_expected id Relay sizes_greater_equal 1;
      match r with
      | None => mret tt
      | Some d => let n := byte_at d 0 + sizeof_port in
          set_to_skip id n ;; redsocks_write_helper id Relay None socks5_skip_address n ;; mret tt
      end) (fun _ => out (react g (c_destaddr c) h (c_state c) (be_input b))) w.
Proof.
  intros Hst H. apply wp_bind. unfold react. rewrite Hst.
  change (socks5_skip_domain =? socks5_method_sent) with false.
  change (socks5_skip_domain =? socks5_auth_sent) with false.
  change (socks5_skip_domain =? socks5_request_sent) with false.
  change (socks5_skip_domain =? socks5_skip_domain) with true. cbv iota.
  eapply read_n_run; [done|by apply sizes_greater_equal_fits| |].
  - intros Hlen w' H'. destruct (be_input b) as [|n rest] eqn:Hin; [done|].
    change (Z.to_nat 1) with 1%nat in *. cbn [drop take] in *. cbv zeta. unfold byte_at. cbn [nth].
    by eapply set_skip_out.
  - intros Hlen w' Hg. apply wp_ret. destruct (be_input b) as [|n rest] eqn:Hin;
      [apply gone_out; [by intros []|done]|].
    unfold sizes_greater_equal, zlen in Hlen. cbn [length] in Hlen.
    destruct (Z.geb_spec (Z.of_nat (S (length rest))) 1); [done|lia].
Qed.

Lemma skip_address_out t w :
  c_state c = socks5_skip_address -> at_client id g socks5_subsys (c_set_last t c) w ->
  wp (r ← redsocks_read_expected id Relay sizes_greater_equal (to_skip h);
      match r with None => mret tt | Some _ => redsocks_start_relay id end)
    (fun _ => out (react g (c_destaddr c) h (c_state c) (be_input b))) w.
Proof.
  intros Hst H. apply wp_bind. unfold react. rewrite Hst.
  change (socks5_skip_address =? socks5_method_sent) with false.
  change (socks5_skip_address =? socks5_auth_sent) with false.
  change (socks5_skip_address =? socks5_request_sent) with false.
  change (socks5_skip_address =? socks5_skip_domain) with false.
  change (socks5_skip_address =? socks5_skip_address) with true. cbn [andb].
  specialize (Hskip Hst).
  eapply read_n_run; [done|by apply sizes_greater_equal_fits| |].
  - unfold sizes_greater_equal. intros Hlen%Z.geb_le w' H'.
    destruct (Z.leb_spec (to_skip h) (zlen (be_input b))); [|lia].
    pose proof (fl_enabled _ Hflow Relay b Hb) as (_ & Hfr & _). pose proof (fl_enabled _ Hflow Client bc Hbc) as (_ & Hfc & _).
    eapply at_start; [done|done|done|done|done|done|..].
    + intros. apply gone_out; [by intros []|done].
    + intros c' w2 [ok Hst']%started_some H2. right. by exists t, ok, c'.
  - unfold sizes_greater_equal. intros Hlen w' Hg. apply wp_ret.
    destruct (Z.leb_spec (to_skip h) (zlen (be_input b))) as [Hle|].
    + apply Z.geb_le in Hle. congruence.
    + apply gone_out; [by intros []|done].
Qed.

Lemma read_cb_out w :
  socks5_method_sent <= c_state c <= socks5_skip_address ->
  at_client id g socks5_subsys c w ->
  wp (socks5_read_cb id) (fun _ => out (react g (c_destaddr c) h (c_state c) (be_input b))) w.
Proof.
  intros Hrange H. apply wp_bind. eapply at_get_socks5; [done..|].
  apply wp_bind. eapply at_touch; [done|]. clear w H. intros t w H.
  apply wp_bind. eapply at_get; [done|]. cbv zeta. cbn [c_set_last c_state].
  destruct (Z.eqb_spec (c_state c) socks5_method_sent); [by eapply auth_methods_out|].
  destruct (Z.eqb_spec (c_state c) socks5_auth_sent); [by eapply auth_reply_out|].
  destruct (Z.eqb_spec (c_state c) socks5_request_sent); [by eapply reply_out|].
  destruct (Z.eqb_spec (c_state c) socks5_skip_domain); [by eapply skip_domain_out|].
  destruct (Z.eqb_spec (c_state c) socks5_skip_address); [by eapply skip_address_out|].
  unfold socks5_method_sent, socks5_auth_sent, socks5_request_sent, socks5_skip_domain,
    socks5_skip_address in *. lia.
Qed.

(** The same callback when no call fails. *)

Lemma sure_of w : at_client id g socks5_subsys c w -> all_succeed w -> sure id g socks5_subsys c w.
Proof. intros (_ & _ & _ & Hc & i & Hi & _ & E1 & E2) Ha. split_and!; [done|by exists i|done]. Qed.

Let sure_out r (w : world) := exists t c', reacted g r t true h bc b c c' /\ w_clients w !! id = Some c'.

Lemma mkconnect_sure c' : makes_sure id g socks5_subsys (Some socks5_mkconnect) c' (command_msg socks5_cmd_connect (c_destaddr c')).
Proof. intros Q w H HQ. apply wp_bind. eapply sure_get; [done|]. by eapply sure_mkevbuffer. Qed.

Lemma mkpassword_sure c' l p :
  login g = Some l -> password g = Some p -> makes_sure id g socks5_subsys (Some socks5_mkpassword) c' (password_msg l p).
Proof.
  intros Hl Hpw Q w H HQ. apply wp_bind. eapply sure_get; [done|]. apply wp_bind. eapply sure_instance; [done|].
  intros i -> _. unfold socks5_mkpassword_plain. rewrite Hl, Hpw. by eapply sure_mkevbuffer.
Qed.

Lemma send_sure mk msg st wm t w :
  makes_sure id g socks5_subsys (Some mk) (c_set_buf Relay (Some (be_set_input [] b)) (c_set_last t c)) msg ->
  sure id g socks5_subsys (c_set_buf Relay (Some (be_set_input [] b)) (c_set_last t c)) w ->
  wp (redsocks_write_helper id Relay (Some mk) st wm ;; mret tt) (fun _ => sure_out (Send msg st wm)) w.
Proof.
  intros Hmk H. apply wp_bind. eapply sure_write_helper; [exact H|done|exact Hmk|]. intros w' [H' _]. apply wp_ret. eexists t, _.
  split; [reflexivity|]. rewrite H'. by destruct c.
Qed.

Lemma await_sure st wm skip rest t w :
  sure id g socks5_subsys (c_set_payload (socks5_payload (mk_socks5_client (do_password h) skip))
    (c_set_buf Relay (Some (be_set_input rest b)) (c_set_last t c))) w ->
  wp (redsocks_write_helper id Relay None st wm ;; mret tt) (fun _ => sure_out (Await st wm skip rest)) w.
Proof.
  intros H. apply wp_bind. eapply (sure_write_helper _ _ _ _ _ None []); [exact H|done|done|]. intros w' [H' _]. apply wp_ret. eexists t, _.
  split; [reflexivity|]. rewrite H'. by destruct c.
Qed.

Lemma skip_sure st wm skip rest t w :
  sure id g socks5_subsys (c_set_buf Relay (Some (be_set_input rest b)) (c_set_last t c)) w ->
  wp (set_to_skip id skip ;; redsocks_write_helper id Relay None st wm ;; mret tt) (fun _ => sure_out (Await st wm skip rest)) w.
Proof.
  intros H. apply wp_bind. apply wp_bind. apply wp_bind. eapply sure_get; [done|]. cbn [c_payload c_set_buf c_set_last]. rewrite Hp.
  eapply sure_mod; [done|done|]. intros w' H'. by eapply await_sure.
Qed.

Lemma read_cb_sure w :
  react g (c_destaddr c) h (c_state c) (be_input b) <> Drop -> sure id g socks5_subsys c w ->
  wp (socks5_read_cb id) (fun _ => sure_out (react g (c_destaddr c) h (c_state c) (be_input b))) w.
Proof.
  intros Hne H. apply wp_bind, wp_bind. eapply sure_get; [done|]. rewrite Hp. apply wp_ret.
  apply wp_bind. eapply sure_touch; [done|]. clear w H. intros t w H.
  apply wp_bind. eapply sure_get; [done|]. cbv zeta. cbn [c_set_last c_state]. revert Hne. unfold react.
  destruct (c_state c =? socks5_method_sent).
  { destruct (be_input b) as [|v [|m [|]]] eqn:Hin; try done. intros Hne. apply wp_bind.
    eapply (sure_read _ _ _ _ Relay b); [exact H|exact Hb|by rewrite Hin|by rewrite Hin|]. clear w H. intros w H. rewrite Hin in *.
    change (Z.to_nat sizeof_method_reply) with 2%nat in *. cbn [drop take] in *. unfold socks5_is_known_auth_method, byte_at. cbn [nth].
    unfold socks5_ver, socks5_auth_invalid, socks5_auth_none, socks5_auth_password. rewrite Hcred in *.
    destruct (Z.eqb_spec v 5) as [->|]; cbn [negb andb] in *; [|done].
    destruct (Z.eqb_spec m 0) as [->|]; cbn [negb andb Z.eqb] in *.
    { eapply send_sure; [|exact H]. exact (mkconnect_sure (c_set_buf Relay _ (c_set_last t c))). }
    destruct (Z.eqb_spec m 2) as [->|]; cbn [negb andb Z.eqb] in *; [|done].
    case_bool_decide as Hcr; cbn [negb Z.eqb Pos.eqb when] in *; [|done]. destruct Hcr as [[l Hl] [p Hpw]]. rewrite Hl, Hpw.
    eapply send_sure; [|exact H]. by apply mkpassword_sure. }
  destruct (c_state c =? socks5_auth_sent).
  { destruct (be_input b) as [|v [|m [|]]] eqn:Hin; try done. intros Hne. apply wp_bind.
    eapply (sure_read _ _ _ _ Relay b); [exact H|exact Hb|by rewrite Hin|by rewrite Hin|]. clear w H. intros w H. rewrite Hin in *.
    change (Z.to_nat sizeof_auth_reply) with 2%nat in *. cbn [drop take] in *. unfold byte_at. cbn [nth].
    unfold socks5_password_ver, socks5_password_passed.
    destruct (Z.eqb_spec v 1) as [->|]; cbn [negb andb] in *; [|done].
    destruct (Z.eqb_spec m 0) as [->|]; cbn [negb andb Z.eqb] in *; [|done].
    eapply send_sure; [|exact H]. exact (mkconnect_sure (c_set_buf Relay _ (c_set_last t c))). }
  destruct (c_state c =? socks5_request_sent).
  { destruct (be_input b) as [|v [|st [|x [|ty rest]]]] eqn:Hin; try done. intros Hne. apply wp_bind.
    assert (4 <= zlen (v :: st :: x :: ty :: rest)) by (unfold zlen; cbn [length]; lia).
    eapply (sure_read _ _ _ _ Relay b); [exact H|exact Hb|rewrite Hin; by apply Z.geb_le|rewrite Hin; unfold sizeof_reply; lia|].
    clear w H. intros w H. rewrite Hin in *. change (Z.to_nat sizeof_reply) with 4%nat in *. cbn [drop take] in *. unfold byte_at. cbn [nth].
    unfold socks5_ver, socks5_status_succeeded, socks5_addrtype_ipv4, socks5_addrtype_ipv6, socks5_addrtype_domain in *.
    destruct (Z.eqb_spec v 5) as [->|]; cbn [negb andb] in *; [|done].
    destruct (Z.eqb_spec st 0) as [->|]; cbn [negb andb Z.eqb] in *; [|done].
    destruct (ty =? 1); [by eapply skip_sure|]. destruct (ty =? 4); [by eapply skip_sure|]. destruct (ty =? 3); [|done].
    eapply await_sure. destruct c, h; cbn in *; subst. exact H. }
  destruct (c_state c =? socks5_skip_domain).
  { destruct (be_input b) as [|n rest] eqn:Hin; [done|]. intros Hne. apply wp_bind.
    assert (1 <= zlen (n :: rest)) by (unfold zlen; cbn [length]; lia).
    eapply (sure_read _ _ _ _ Relay b); [exact H|exact Hb|rewrite Hin; by apply Z.geb_le|rewrite Hin; lia|].
    clear w H. intros w H. rewrite Hin in *. change (Z.to_nat 1) with 1%nat in *. cbn [drop take] in *. by eapply skip_sure. }
  destruct (c_state c =? socks5_skip_address) eqn:Hst; cbn [andb]; [|done]. apply Z.eqb_eq in Hst. specialize (Hskip Hst).
  destruct (Z.leb_spec (to_skip h) (zlen (be_input b))); [|done]. intros _. apply wp_bind.
  eapply (sure_read _ _ _ _ Relay b); [exact H|exact Hb|by apply Z.geb_le|lia|]. clear w H. intros w H.
  eapply sure_start; [exact H|done|done|done|]. intros c' w' Hs [Hc' _]. by exists t, c'.
Qed.

(** Both together. *)
Lemma read_cb_refines w :
  socks5_method_sent <= c_state c <= socks5_skip_address -> at_client id g socks5_subsys c w ->
  wp (socks5_read_cb id) (fun _ => outcome_of id g (react g (c_destaddr c) h (c_state c) (be_input b)) h bc b c w) w.
Proof.
  intros Hrange H. pose proof (read_cb_out w Hrange H) as Ho. set (r := react _ _ _ _ _) in *.
  destruct (decide (r = Drop)) as [Hd|Hd]; [eapply wp_mono; [exact Ho|]; intros _ w' [[Hg _]|(t & ok & c' & Hr & _)]; [left; auto|by rewrite Hd in Hr]|].
  destruct (decide (all_succeed w)) as [Ha|Ha].
  2:{ apply not_all_succeed in Ha. eapply wp_mono; [exact Ho|]. intros _ w' [[? ?]|(t & ok & c' & ? & ?)]; [left; auto|right; by exists t, ok, c']. }
  pose proof (read_cb_sure w Hd (sure_of w H Ha)) as Hs. unfold wp in *. destruct (socks5_read_cb id w) as [u w'| |]; try done.
  destruct Hs as (t & c' & Hr & Hc'). right. exists t, true, c'. split_and!; try done.
  destruct Ho as [[[_ Hg] _]|(t0 & ok0 & c0 & _ & H0)]; [congruence|]. destruct (H0) as (_ & _ & _ & E & _). rewrite Hc' in E. by injection E as <-.
Qed.
End read.

(** ** The callbacks keep the process sound *)

Lemma talks_socks5 g st p :
  talks socks5_subsys g st p -> st <> pump_active.
Proof. intros [H _]. unfold socks5_method_sent, pump_active in *. lia. Qed.

(** The states the machine moves to. *)
Lemma react_states g dest h st input :
  is_bytes input ->
  match react g dest h st input with
  | Send _ st' _ => st' = socks5_request_sent \/ st' = socks5_auth_sent
  | Await st' _ skip rest =>
      is_bytes rest /\ (st' = socks5_skip_domain \/ st' = socks5_skip_address /\ 0 <= skip)
  | Start rest => is_bytes rest
  | Drop => True
  end.
Proof.
  intros Hb. unfold react. repeat case_match; simplify_eq; auto; try by apply Forall_drop.
  all: unfold is_bytes in *; repeat match goal with H : Forall _ (_ :: _) |- _ => apply Forall_cons in H as [? H] end.
  all: split; [done|]; auto with lia.
Qed.

Lemma reacted_inv g t ok h bc b c c' :
  c_pump c = new_pump -> flow_ok c -> before_pump c -> shut Relay EV_READ c = false ->
  c_client c = Some bc -> c_relay c = Some b -> is_bytes (be_input b) ->
  cbs (c_relay c) = Some (cb_subsys_read, cb_subsys_write) ->
  c_payload c = socks5_payload h ->
  do_password h = (if bool_decide (is_Some (login g) /\ is_Some (password g)) then 1 else 0) ->
  reacted g (react g (c_destaddr c) h (c_state c) (be_input b)) t ok h bc b c c' -> client_inv g socks5_subsys c'.
Proof.
  intros Hsp Hf Hbp Hs Hbc Hb Hbytes Hcb Hp Hcred.
  pose proof (react_states g (c_destaddr c) h (c_state c) (be_input b) Hbytes) as Hr.
  destruct (react _ _ _ _ _) as [|msg st wm|st wm skip rest|rest]; [done|..]; cbn [reacted].
  - intros ->. left. replace (c_set_state st (c_set_last t c)) with
      (c_set_state st (c_set_payload (socks5_payload h) (c_set_last t c))) by (destruct c; cbn in *; by subst).
    eapply talking_inv; [done..|by apply Forall_nil| |].
    + unfold socks5_request_sent, socks5_auth_sent, pump_active in *. lia.
    + split; [unfold socks5_request_sent, socks5_auth_sent, socks5_method_sent, socks5_skip_address in *; lia|].
      exists h. split_and!; [done..|]. intros ->.
      unfold socks5_request_sent, socks5_auth_sent, socks5_skip_address in *. lia.
  - intros ->. left. destruct Hr as [Hrest Hr]. eapply talking_inv; [done..| |].
    + unfold socks5_skip_domain, socks5_skip_address, pump_active in *. lia.
    + split; [unfold socks5_skip_domain, socks5_method_sent, socks5_skip_address in *; lia|].
      eexists. split_and!; [done..|]. cbn. intros ->.
      unfold socks5_skip_domain, socks5_skip_address in *. lia.
  - intros Hst%started_fully_started. eapply started_inv; [exact Hst|done| |done|done].
    eapply flow_keep; [by apply flow_last|done..].
Qed.

Lemma socks5_read_ok id g c w :
  at_client id g socks5_subsys c w -> buffered g socks5_subsys c -> talking socks5_subsys g c ->
  shut Relay EV_READ c = false -> wp (socks5_read_cb id) (fun _ => sound) w.
Proof.
  intros H (Hsp & Hf & _) (Hbp & Hcb & Hr & h & Hp & Hcred & Hskip) Hs.
  destruct (c_relay c) as [b|] eqn:Hb; [|done].
  destruct (Hbp) as (_ & _ & Hcc). destruct (c_client c) as [bc|] eqn:Hbc; [|done].
  destruct (fl_enabled _ Hf Relay b Hb) as (_ & _ & Hby).
  eapply wp_mono; [by eapply (read_cb_out id g c h bc b)|].
  intros _ w' [[[? _] _]|(t & ok & c' & Hre & H')]; [done|]. eapply at_sound; [done|].
  eapply reacted_inv; try done. by rewrite Hb.
Qed.

Lemma socks5_write_ok id g c w :
  at_client id g socks5_subsys c w -> c_pump c = new_pump -> flow_ok c -> before_pump c ->
  cbs (c_relay c) = Some (cb_subsys_read, cb_subsys_write) ->
  (starts socks5_subsys g (c_state c) (c_payload c) /\ shut Relay EV_READ c = false \/
   talks socks5_subsys g (c_state c) (c_payload c)) ->
  wp (socks5_write_cb id) (fun _ => sound) w.
Proof.
  intros H Hsp Hf Hbp Hcb Hst. apply wp_bind. eapply at_touch; [done|]. clear w H. intros t w H.
  apply wp_bind. eapply at_get; [done|]. cbn [c_set_last c_state].
  destruct Hst as [[[Hst (h & Hp & Hcred)] Hs]|Hst].
  - rewrite Hst. cbn [when Z.eqb]. destruct (c_relay c) as [b|] eqn:Hb; [|done].
    destruct (fl_enabled _ Hf Relay b Hb) as (_ & _ & Hby).
    apply wp_bind. eapply at_write_helper; [done|done|eapply (mkmethods_makes _ _ _ h); [done|]|..].
    + rewrite Hcred. case_bool_decide; auto.
    + intros w' [? _]. by apply wp_ret.
    + intros d ok w' _ H'. apply wp_ret. eapply at_buffered; [done|].
      replace (c_set_state socks5_method_sent (c_set_last t c)) with
        (c_set_state socks5_method_sent (c_set_payload (socks5_payload h) (c_set_last t c)))
        by (destruct c; cbn in *; by subst).
      eapply talking_inv; try done; [by rewrite Hb|].
      split; [unfold socks5_method_sent, socks5_skip_address; lia|]. exists h. split_and!; try done.
  - apply wp_when.
    + intros E%Z.eqb_eq. destruct Hst as [Hr _]. unfold socks5_method_sent, socks5_new in *. lia.
    + intros _. eapply at_buffered; [done|]. split_and!; [done|by apply flow_last|]. right; right. done.
Qed.

(** ** The dialogue with a proxy *)

(** With both read watermarks at [wm], libevent hands over exactly [wm] bytes of
    what the proxy sends. The messages sent, and what is left for the client. *)
Fixpoint dialogue (fuel : nat) (g : redsocks_config) (dest : sockaddr_in) (h : socks5_client)
  (st wm : Z) (stream : bytes) : option (list bytes * bytes) :=
  match fuel with
  | O => None
  | S fuel =>
      let input := take (Z.to_nat wm) stream in
      let later := drop (Z.to_nat wm) stream in
      if negb (zlen input =? wm) then None else
      match react g dest h st input with
      | Drop => None
      | Send msg st wm =>
          '(sent, rest) ← dialogue fuel g dest h st wm later; Some (msg :: sent, rest)
      | Await st wm skip rest =>
          dialogue fuel g dest (mk_socks5_client (do_password h) skip) st wm (rest ++ later)
      | Start rest => Some ([], rest ++ later)
      end
  end.

(** An address of a reply: its type and its bytes, port included. *)
Inductive reply_addr : Z -> bytes -> Prop :=
| reply_ipv4 a : length a = 6%nat -> reply_addr socks5_addrtype_ipv4 a
| reply_ipv6 a : length a = 18%nat -> reply_addr socks5_addrtype_ipv6 a
| reply_domain n a : length a = Z.to_nat (n + 2) -> 0 <= n < 256 -> reply_addr socks5_addrtype_domain (n :: a).

Lemma dialogue_step fuel g dest h st wm input later :
  zlen input = wm ->
  dialogue (S fuel) g dest h st wm (input ++ later) =
  match react g dest h st input with
  | Drop => None
  | Send msg st wm => '(sent, rest) ← dialogue fuel g dest h st wm later; Some (msg :: sent, rest)
  | Await st wm skip rest =>
      dialogue fuel g dest (mk_socks5_client (do_password h) skip) st wm (rest ++ later)
  | Start rest => Some ([], rest ++ later)
  end.
Proof.
  intros <-. cbn [dialogue]. unfold zlen. rewrite Nat2Z.id.
  rewrite take_app_length, drop_app_length, Z.eqb_refl. done.
Qed.

Lemma dialogue_skip fuel g dest p n a rest :
  length a = Z.to_nat n -> 0 <= n ->
  dialogue (S fuel) g dest (mk_socks5_client p n) socks5_skip_address n (a ++ rest) = Some ([], rest).
Proof.
  intros Ha Hn. rewrite dialogue_step by (unfold zlen; lia). unfold react. cbn [to_skip].
  repeat match goal with |- context [socks5_skip_address =? ?x] =>
    change (socks5_skip_address =? x) with false || change (socks5_skip_address =? x) with true end.
  cbv iota. cbn [andb]. unfold zlen. destruct (Z.leb_spec n (Z.of_nat (length a))); [|lia].
  rewrite drop_ge by lia. done.
Qed.

Lemma dialogue_reply fuel g dest h rsv ty addr rest :
  reply_addr ty addr -> (3 <= fuel)%nat ->
  dialogue fuel g dest h socks5_request_sent sizeof_reply ([5; 0; rsv; ty] ++ addr ++ rest) = Some ([], rest).
Proof.
  intros Haddr Hf. do 3 (destruct fuel as [|fuel]; [lia|]). rewrite dialogue_step by done.
  destruct Haddr as [a Ha|a Ha|n a Ha Hn].
  - change (react g dest h socks5_request_sent [5; 0; rsv; socks5_addrtype_ipv4])
      with (Await socks5_skip_address 6 6 []). cbv iota. rewrite app_nil_l. by apply dialogue_skip.
  - change (react g dest h socks5_request_sent [5; 0; rsv; socks5_addrtype_ipv6])
      with (Await socks5_skip_address 18 18 []). cbv iota. rewrite app_nil_l. by apply dialogue_skip.
  - change (react g dest h socks5_request_sent [5; 0; rsv; socks5_addrtype_domain])
      with (Await socks5_skip_domain 1 (to_skip h) []).
    cbv iota. change ([] ++ (n :: a) ++ rest) with ([n] ++ a ++ rest). rewrite dialogue_step by done.
    change (react g dest _ socks5_skip_domain [n]) with (Await socks5_skip_address (n + 2) (n + 2) []).
    cbv iota. rewrite app_nil_l. apply dialogue_skip; [done|lia].
Qed.

(** ** Properties *)

(** C39: On a client that waits for the proxy, whatever bytes arrived, [socks5_read_cb] does
    what the pure machine [react] says for the state and the input. It drops the client
    exactly when the machine does, or because one of its calls failed on the way to a
    message or to the relay; with no failing call the client has queued the next message and
    awaits the answer, awaits the next part of the reply, or relays with exactly the bytes
    that follow the reply left in the input, and every event it needs is added. No memory
    fault, failed assertion or descriptor error is possible. *)
Theorem socks5_read_refines id g c h bc b w :
  at_client id g socks5_subsys c w -> client_inv g socks5_subsys c -> talking socks5_subsys g c ->
  c_payload c = socks5_payload h -> c_client c = Some bc -> c_relay c = Some b ->
  wp (socks5_read_cb id)
    (fun _ => outcome_of id g (react g (c_destaddr c) h (c_state c) (be_input b)) h bc b c w) w.
Proof.
  intros H Hinv Ht Hp' Hbc Hb. destruct (talking_buffered _ _ _ Hinv Ht) as (Hsp & Hf & _).
  destruct Ht as (_ & _ & Hr & h' & Hp & Hcred & Hskip).
  rewrite Hp in Hp'. injection Hp' as ->. by eapply read_cb_refines.
Qed.

(** Against a proxy that follows RFC 1928 the negotiation sends the method list,
    the credentials when the proxy asks for them, and the CONNECT request for the
    original destination, skips an address of any type, and leaves every byte after
    the reply for the client. *)
Theorem socks5_dialogue_completes g dest h auth rsv ty addr rest :
  reply_addr ty addr -> (auth = true -> do_password h = 1) ->
  dialogue 5 g dest h socks5_method_sent sizeof_method_reply
    ((if auth : bool then [5; 2] ++ [1; 0] else [5; 0]) ++ [5; 0; rsv; ty] ++ addr ++ rest) =
  Some ((if auth then [password_msg (default [] (login g)) (default [] (password g))] else []) ++
        [command_msg socks5_cmd_connect dest], rest).
Proof.
  intros Haddr Hauth. destruct auth.
  - rewrite <-app_assoc, dialogue_step by done. unfold react at 1.
    change (socks5_method_sent =? socks5_method_sent) with true. rewrite (Hauth eq_refl).
    cbn [Z.eqb Pos.eqb andb]. rewrite (dialogue_step 3 _ _ _ _ _ [1; 0]) by done.
    change (react g dest h socks5_auth_sent [1; 0])
      with (Send (command_msg socks5_cmd_connect dest) socks5_request_sent sizeof_reply).
    cbv iota. rewrite dialogue_reply by done. done.
  - rewrite dialogue_step by done.
    change (react g dest h socks5_method_sent [5; 0])
      with (Send (command_msg socks5_cmd_connect dest) socks5_request_sent sizeof_reply).
    cbv iota. by rewrite dialogue_reply by first [done|lia].
Qed.

(** What a server of RFC 1929 reads: version, then two counted strings. *)
Definition parse_password (m : bytes) : option (bytes * bytes) :=
  match m with
  | v :: ulen :: m =>
      let l := take (Z.to_nat ulen) m in
      match drop (Z.to_nat ulen) m with
      | plen :: m =>
          if (v =? 1) && (zlen l =? ulen) && (zlen m =? plen) then Some (l, m) else None
      | [] => None
      end
  | _ => None
  end.

(** whatever login and password are configured, [socks5_instance_init] keeps them
    both or none, and the message built from what it keeps is read back by an
    RFC 1929 server as that login and that password. *)
Theorem socks5_password_roundtrip i :
  let g := i_config (socks5_instance_init i) in
  match login g, password g with
  | Some l, Some p =>
      login (i_config i) = Some l /\ password (i_config i) = Some p /\
      parse_password (password_msg l p) = Some (l, p)
  | None, None => True
  | _, _ => False
  end.
Proof.
  cbv zeta. unfold socks5_instance_init.
  destruct (login (i_config i)) as [l|] eqn:Hl, (password (i_config i)) as [p|] eqn:Hp; try done.
  - destruct (socks5_is_valid_cred (Some l) (Some p)) eqn:Hv; cbn [negb]; [|done]. rewrite Hl, Hp.
    split_and!; [done..|]. unfold socks5_is_valid_cred in Hv.
    apply andb_true_iff in Hv as [H1%negb_true_iff H2%negb_true_iff].
    assert (0 <= zlen l < 256 /\ 0 <= zlen p < 256).
    { pose proof (zlen_nonneg l). pose proof (zlen_nonneg p).
      destruct (Z.gtb_spec (zlen l) 255), (Z.gtb_spec (zlen p) 255); try done. lia. }
    unfold password_msg, parse_password, u8. rewrite !Z.mod_small by lia. cbn [app].
    unfold zlen. rewrite Nat2Z.id, take_app_length, drop_app_length.
    rewrite !Z.eqb_refl. done.
  - rewrite Hl, Hp. done.
Qed.

(** The machine on a concrete client: a reply with an IPv4 address, then data. *)
Definition ex_config : redsocks_config :=
  mk_config (mk_sockaddr [127; 0; 0; 1] [4; 210]) (mk_sockaddr [10; 0; 0; 1] [4; 56]) (Some (lit "socks5"))
    (Some (lit "user")) (Some (lit "secret")) 128 false DISCLOSE_NONE ONFAIL_CLOSE.

Lemma socks5_dialogue_witness :
  dialogue 5 ex_config (mk_sockaddr [93; 184; 216; 34] [0; 80]) (mk_socks5_client 1 0) socks5_method_sent
    sizeof_method_reply ((([5; 2] ++ [1; 0]) ++ [5; 0; 0; 1] ++ [10; 0; 0; 1; 4; 56] ++ lit "HTTP")) =
  Some ([password_msg (lit "user") (lit "secret")] ++
        [command_msg socks5_cmd_connect (mk_sockaddr [93; 184; 216; 34] [0; 80])], lit "HTTP").
Proof.
  apply (socks5_dialogue_completes ex_config (mk_sockaddr [93; 184; 216; 34] [0; 80]) (mk_socks5_client 1 0)
           true 0 1 [10; 0; 0; 1; 4; 56] (lit "HTTP")); [by apply reply_ipv4|done].
Defined.

(** A client that waits for the reply to CONNECT and has received it with data. *)
Definition ex_client : redsocks_client :=
  mk_client 0 (Some (be_enable EV_READ (bufferevent_new 4 cb_none cb_none)))
    (Some (be_set_input ([5; 0; 0; 1] ++ lit "abcdef") (be_enable EV_READ
       (bufferevent_new 5 cb_subsys_read cb_subsys_write))))
    (mk_sockaddr [192; 168; 0; 2] [200; 0]) (mk_sockaddr [93; 184; 216; 34] [0; 80]) socks5_request_sent
    0 0 0 0 new_pump (socks5_payload (mk_socks5_client 1 0)).

Lemma socks5_ex_client_inv : client_inv ex_config socks5_subsys ex_client /\ talking socks5_subsys ex_config ex_client.
Proof.
  assert (Ht : talking socks5_subsys ex_config ex_client).
  { split_and!; [|done|].
    - split_and!; [done|by intros []|done].
    - split; [done|]. eexists. by split_and!. }
  split; [|done]. left. split_and!; [done| |by right; right].
  split; [by intros []; left|by intros []|done| |by intros []].
  intros [] b [= <-]; (split; [by cbv; tauto|]); (split; [done|]); by apply (bool_decide_unpack _).
Qed.

Lemma socks5_read_witness : exists bc b,
  wp (socks5_read_cb 1)
    (fun _ => outcome_of 1 ex_config (react ex_config (c_destaddr ex_client) (mk_socks5_client 1 0)
       (c_state ex_client) (be_input b)) (mk_socks5_client 1 0) bc b ex_client (one_client ex_config socks5_subsys ex_client))
    (one_client ex_config socks5_subsys ex_client) /\
  react ex_config (c_destaddr ex_client) (mk_socks5_client 1 0) (c_state ex_client) (be_input b) =
    Await socks5_skip_address 6 6 (lit "abcdef").
Proof.
  eexists _, _. split.
  - apply (socks5_read_refines 1 ex_config ex_client (mk_socks5_client 1 0) _ _
             (one_client ex_config socks5_subsys ex_client));
      [apply one_client_at; [by split; [discriminate|auto]|done..]|apply socks5_ex_client_inv|apply socks5_ex_client_inv|reflexivity..].
  - vm_compute. reflexivity.
Defined.

End Socks5.
