(* ===== verification/Socks4.v ===== *)
(** * SOCKS4 towards the proxy: socks4.c *)

From S2P Require Import Prelude CLib World HttprBuffer Redsocks Ownership ClientLogic Flow Splice.
Import Redsocks Ownership Flow Splice.
Open Scope Z_scope.

Module Socks4.

Definition socks4_ver : Z := 4.
Definition socks4_cmd_connect : Z := 1.
Definition socks4_status_ok : Z := 90.

(** Sizes of the packed structures; [socks4_req] ends in one byte of login. *)
Definition sizeof_socks4_req : Z := 9.
Definition sizeof_socks4_reply : Z := 8.

Definition socks4_client_init (c : redsocks_client) : redsocks_client := c_set_state socks4_new c.

Definition byte_at (data : bytes) (n : nat) : Z := nth n data 0.

Definition socks4_read_cb (id : Z) : M unit :=
  c ← get_client id;
  assert (c_state c >=? socks4_request_sent) ;;
  redsocks_touch_client id ;;
  c ← get_client id;
  when (c_state c =? socks4_request_sent)
    (r ← redsocks_read_expected id Relay sizes_greater_equal sizeof_socks4_reply;
     match r with
     | None => mret tt
     | Some reply =>
         mod_client id (c_set_state socks4_reply_came) ;;
         if negb (byte_at reply 0 =? 0) then redsocks_drop_client id
         else if byte_at reply 1 =? socks4_status_ok then redsocks_start_relay id
         else redsocks_drop_client id
     end).

(** The request: [calloc] zeroes it, and the login is copied with its NUL. *)
Definition connect_msg (login : option bytes) (destaddr : sockaddr_in) : bytes :=
  [u8 socks4_ver; u8 socks4_cmd_connect] ++ sin_port destaddr ++ sin_addr destaddr ++
  default [] login ++ [0].

Definition socks4_mkconnect (id : Z) : M (option bytes) :=
  c ← get_client id;
  i ← get_instance (c_instance c);
  mkevbuffer (connect_msg (login (i_config i)) (c_destaddr c)).

Definition socks4_write_cb (id : Z) : M unit :=
  redsocks_touch_client id ;;
  c ← get_client id;
  if c_state c =? socks4_new then
    redsocks_write_helper id Relay (Some socks4_mkconnect) socks4_request_sent sizeof_socks4_reply ;; mret tt
  else when (c_state c >=? socks4_request_sent) (bufferevent_disable id Relay EV_WRITE ;; mret tt).

(** ** The callbacks keep the process sound *)

(** A reply that grants the request. *)
Definition granted (input : bytes) : bool :=
  (zlen input >=? sizeof_socks4_reply) && (byte_at input 0 =? 0) && (byte_at input 1 =? socks4_status_ok).

(** The client that relays, the bytes after the reply still in its input. *)
Definition relayed (g : redsocks_config) (t : Z) (bc b : bufferevent) (c c' : redsocks_client) : Prop :=
  started g bc (be_set_input (drop 8 (be_input b)) b) (c_payload c)
    (c_set_buf Relay (Some (be_set_input (drop 8 (be_input b)) b)) (c_set_last t c)) c'.

Lemma byte_at_take input n : (n < 8)%nat -> byte_at (take 8 input) n = byte_at input n.
Proof.
  intros Hn. unfold byte_at. destruct (decide (n < length input)%nat) as [Hlt|Hge].
  - rewrite <-(take_drop 8 input) at 2. rewrite app_nth1; [done|]. rewrite length_take. lia.
  - rewrite !nth_overflow; [done|lia|]. rewrite length_take. lia.
Qed.

Lemma socks4_read_out id g c bc b w :
  at_client id g socks4_subsys c w -> c_pump c = new_pump -> flow_ok c -> c_client c = Some bc -> c_relay c = Some b ->
  c_state c = socks4_request_sent ->
  wp (socks4_read_cb id) (fun _ w => gone id w \/ granted (be_input b) = true /\
    exists t c', relayed g t bc b c c' /\ at_client id g socks4_subsys c' w) w.
Proof.
  intros H Hsp Hf Hbc Hb Hst. destruct (fl_enabled _ Hf Relay b Hb) as (_ & ? & _).
  destruct (fl_enabled _ Hf Client bc Hbc) as (_ & ? & _).
  apply wp_bind. eapply at_get; [done|]. rewrite Hst. apply wp_bind, wp_assert; [done|].
  apply wp_bind. eapply at_touch; [done|]. clear w H. intros t w H.
  apply wp_bind. eapply at_get; [done|]. cbn [c_set_last c_state]. rewrite Hst.
  change (socks4_request_sent =? socks4_request_sent) with true. cbn [when].
  apply wp_bind. eapply at_read_expected; [done|done|by apply sizes_greater_equal_fits|..].
  - intros Hlen w' H'. apply wp_bind. eapply at_mod; [done|done|]. clear w H w' H'. intros w H.
    change (Z.to_nat sizeof_socks4_reply) with 8%nat in *. rewrite !byte_at_take by lia.
    unfold granted. change ((zlen (be_input b) >=? sizeof_socks4_reply) = true) in Hlen. rewrite Hlen.
    assert (Hdrop : forall P, wp (redsocks_drop_client id) (fun _ w => gone id w \/ P w) w).
    { intros P. eapply at_drop; [done|]. auto. }
    destruct (byte_at (be_input b) 0 =? 0); cbn [negb andb]; [|done].
    destruct (byte_at (be_input b) 1 =? socks4_status_ok); [|done].
    eapply at_start; [done|done|done|done|done|done|by left|]. intros c' w' Hr H'. right. split; [done|].
    exists t, c'. split; [|done]. unfold relayed, started in *. by destruct (use_splice g).
  - intros _ w' ?. apply wp_ret. by left.
Qed.

Lemma relayed_inv g t bc b c c' :
  relayed g t bc b c c' -> c_pump c = new_pump -> flow_ok c -> c_client c = Some bc -> c_relay c = Some b ->
  client_inv g socks4_subsys c'.
Proof.
  intros Hr Hp Hf Hbc Hb. destruct (fl_enabled _ Hf Relay b Hb) as (? & ? & ?).
  eapply started_inv; [exact Hr|done| |done|done].
  eapply flow_keep; [by apply flow_last|done..|]. by apply Forall_drop.
Qed.

Lemma socks4_read_ok id g c w :
  at_client id g socks4_subsys c w -> buffered g socks4_subsys c -> talking socks4_subsys g c ->
  wp (socks4_read_cb id) (fun _ => sound) w.
Proof.
  intros H (Hsp & Hf & _) ((_ & _ & Hcc) & Hcb & Hst).
  destruct (c_relay c) as [b|] eqn:Hb; [|done]. destruct (c_client c) as [bc|] eqn:Hbc; [|done].
  eapply wp_mono; [by eapply socks4_read_out|]. intros _ w' [[? _]|(_ & t & c' & Hr & H')]; [done|].
  eapply at_sound; [done|]. by eapply relayed_inv.
Qed.

Lemma socks4_mkconnect_makes (listed := true) id g c :
  makes (listed := true) id g socks4_subsys c socks4_mkconnect (eq (connect_msg (login g) (c_destaddr c))).
Proof.
  intros Q w H Hno Hyes. apply wp_bind. eapply at_get; [done|].
  apply wp_bind. eapply at_instance; [done|]. intros i _ <- _.
  apply mkevbuffer_makes; intros; [apply Hno|apply Hyes; [done|]]; by eapply at_aside.
Qed.

Lemma socks4_write_ok id g c w :
  at_client id g socks4_subsys c w -> c_pump c = new_pump -> flow_ok c -> before_pump c ->
  cbs (c_relay c) = Some (cb_subsys_read, cb_subsys_write) ->
  (starts socks4_subsys g (c_state c) (c_payload c) /\ shut Relay EV_READ c = false \/
   talks socks4_subsys g (c_state c) (c_payload c)) ->
  wp (socks4_write_cb id) (fun _ => sound) w.
Proof.
  intros H Hsp Hf Hbp Hcb Hst. apply wp_bind. eapply at_touch; [done|]. clear w H. intros t w H.
  destruct (c_relay c) as [b|] eqn:Hb; [|done]. destruct (fl_enabled _ Hf Relay b Hb) as (_ & _ & Hby).
  apply wp_bind. eapply at_get; [done|]. cbn [c_set_last c_state]. destruct Hst as [[Hst Hs]|Hst]; cbn [starts talks] in Hst; rewrite Hst.
  - apply wp_bind. eapply at_write_helper; [done|done|apply socks4_mkconnect_makes|..].
    + intros w' [? _]. by apply wp_ret.
    + intros d ok w' _ H'. apply wp_ret. eapply at_buffered; [done|].
      eapply talking_inv_keep; try done. by rewrite Hb.
  - change (when _ ?m) with m. eapply disable_write_ok; [done| | |done]; [split_and!; [done|by apply flow_last|right; right]|];
      by split_and!; [|rewrite <-Hcb, <-Hb|].
Qed.

(** ** Properties *)

(** What a SOCKS4 server reads: the port, the address and the user. *)
Definition parse_request (m : bytes) : option (sockaddr_in * bytes) :=
  match m with
  | v :: cmd :: p1 :: p2 :: a1 :: a2 :: a3 :: a4 :: m =>
      if (v =? 4) && (cmd =? 1) && bool_decide (0 ∈ m)
      then Some (mk_sockaddr [a1; a2; a3; a4] [p1; p2], cstr m) else None
  | _ => None
  end.

(** the SOCKS4 request is read back by the server as the original destination
    and the configured login, up to the terminating zero byte. *)
Theorem socks4_request_roundtrip login a1 a2 a3 a4 p1 p2 :
  (forall l, login = Some l -> is_cstr l) ->
  parse_request (connect_msg login (mk_sockaddr [a1; a2; a3; a4] [p1; p2])) =
  Some (mk_sockaddr [a1; a2; a3; a4] [p1; p2], default [] login).
Proof.
  intros Hl. assert (Hc : is_cstr (default [] login)).
  { destruct login as [l|]; [by apply Hl|constructor]. }
  unfold connect_msg, parse_request. cbn [app sin_port sin_addr].
  rewrite bool_decide_eq_true_2 by set_solver. cbn [Z.eqb Pos.eqb andb]. do 2 f_equal.
  clear Hl. induction Hc as [|x l Hx _ IH]; [done|]. cbn [app cstr].
  destruct (Z.eqb_spec x 0); [lia|]. by rewrite IH.
Qed.

(** a client that waits for the SOCKS4 reply starts relaying only after a whole
    reply that grants the request, with exactly the bytes that follow the reply left
    for the client; otherwise it is released. *)
Theorem socks4_relays_when_granted id g c bc b w :
  at_client id g socks4_subsys c w -> client_inv g socks4_subsys c -> talking socks4_subsys g c ->
  c_client c = Some bc -> c_relay c = Some b ->
  wp (socks4_read_cb id) (fun _ w => gone id w \/ granted (be_input b) = true /\
    exists t c', relayed g t bc b c c' /\ at_client id g socks4_subsys c' w) w.
Proof.
  intros H Hinv Ht Hbc Hb. destruct (talking_buffered _ _ _ Hinv Ht) as (Hsp & Hf & _).
  destruct Ht as (_ & _ & Hst). by apply socks4_read_out.
Qed.

Definition ex_config : redsocks_config :=
  mk_config (mk_sockaddr [127; 0; 0; 1] [4; 210]) (mk_sockaddr [10; 0; 0; 1] [4; 56]) (Some (lit "socks4"))
    (Some (lit "user")) None 128 false DISCLOSE_NONE ONFAIL_CLOSE.

Definition ex_client : redsocks_client :=
  mk_client 0 (Some (be_enable EV_READ (bufferevent_new 4 cb_none cb_none)))
    (Some (be_set_input ([0; 90; 0; 0; 0; 0; 0; 0] ++ lit "data") (be_enable EV_READ
       (bufferevent_new 5 cb_subsys_read cb_subsys_write))))
    (mk_sockaddr [192; 168; 0; 2] [200; 0]) (mk_sockaddr [93; 184; 216; 34] [0; 80]) socks4_request_sent
    0 0 0 0 new_pump no_payload.

Lemma socks4_ex_client_inv : client_inv ex_config socks4_subsys ex_client /\ talking socks4_subsys ex_config ex_client.
Proof.
  assert (Ht : talking socks4_subsys ex_config ex_client).
  { split_and!; [|done..]. split_and!; [done|by intros []|done]. }
  split; [|done]. left. split_and!; [done| |by right; right].
  split; [by intros []; left|by intros []|done| |by intros []].
  intros [] b [= <-]; (split; [by cbv; tauto|]); (split; [done|]); by apply (bool_decide_unpack _).
Qed.

Lemma socks4_relays_witness : exists bc b, granted (be_input b) = true /\
  wp (socks4_read_cb 1) (fun _ w => gone 1 w \/ granted (be_input b) = true /\
    exists t c', relayed ex_config t bc b ex_client c' /\ at_client 1 ex_config socks4_subsys c' w)
    (one_client ex_config socks4_subsys ex_client).
Proof.
  eexists _, _. split; [|apply (socks4_relays_when_granted 1 ex_config ex_client _ _
             (one_client ex_config socks4_subsys ex_client));
      [apply one_client_at; [by split; [discriminate|auto]|done..]|apply socks4_ex_client_inv|apply socks4_ex_client_inv|reflexivity..]].
  vm_compute. reflexivity.
Defined.

Lemma socks4_request_witness :
  parse_request (connect_msg (Some (lit "user")) (mk_sockaddr [93; 184; 216; 34] [0; 80])) =
  Some (mk_sockaddr [93; 184; 216; 34] [0; 80], lit "user").
Proof.
  apply (socks4_request_roundtrip (Some (lit "user")) 93 184 216 34 0 80).
  intros l [= <-]. by apply (bool_decide_unpack _).
Defined.

End Socks4.
