(* ===== verification/HttpConnect.v ===== *)
(** * HTTP CONNECT towards the proxy: http-connect.c

    The CONNECT request with its optional credentials and disclosure headers, the
    reading of the proxy's reply, and what happens when the proxy refuses. *)

From S2P Require Import Prelude CLib MD5 EvBuffer HttpAuth World HttprBuffer Redsocks Ownership ClientLogic Flow.
From S2P Require Import Splice.
Import EvBuffer HttpAuth Redsocks Ownership Flow Splice.
Open Scope Z_scope.

(** ** [sscanf(line, "HTTP/%*u.%*u %u", &code)] *)

(** ["%u"]: blanks, a sign, digits; [strtoumax] saturates and the result is cut to 32 bits. *)
Definition digits_value (ds : bytes) : Z :=
  Z.min (2 ^ 64 - 1) (foldl (fun v d => v * 10 + (d - 48)) 0 ds).
Definition scan_u (l : bytes) : option (Z * bytes) :=
  let l := skip isspace l in
  let '(neg, l) := match l with
                   | 45 :: k => (true, k)
                   | 43 :: k => (false, k)
                   | _ => (false, l)
                   end in
  match span isdigit l with
  | ([], _) => None
  | (ds, rest) => Some (u32 (if neg then - digits_value ds else digits_value ds), rest)
  end.

(** A literal of the format. *)
Fixpoint scan_lit (p l : bytes) : option bytes :=
  match p, l with
  | [], _ => Some l
  | x :: p, y :: l => if x =? y then scan_lit p l else None
  | _ :: _, [] => None
  end.

Definition scan_status (line : bytes) : option Z :=
  l ← scan_lit (lit "HTTP/") line;
  '(_, l) ← scan_u l;
  l ← scan_lit (lit ".") l;
  '(_, l) ← scan_u l;
  '(code, _) ← scan_u (skip isspace l);
  Some code.

Module HttpConnect.

Definition HTTP_HEAD_WM_HIGH : Z := 4096.

Definition httpc_client_init (c : redsocks_client) : redsocks_client := c_set_state httpc_new c.

Definition httpc_instance_fini (i : redsocks_instance) : redsocks_instance :=
  i_set_auth (mk_http_auth None (last_auth_count (i_auth i))) i.

(** ** The request *)

Section mkconnect.
(** The uninitialised MD5 context the digest starts from. *)
Context (ctx : MD5.md5_state).

(** [None]: [last_auth_query + 7] is past the end of the string. *)
Definition digest_params (query : bytes) : option bytes :=
  if zlen query <? 7 then None else Some (drop 7 query).

(** The scheme and the credentials for the remembered challenge; [strlen] of a
    missing login or password is a fault. *)
Definition httpc_auth_string (g : redsocks_config) (auth : http_auth) (destaddr : sockaddr_in)
  : M (option (bytes * bytes)) :=
  match last_auth_query auth with
  | None => mret None
  | Some query =>
      if strncaseeq 5 query (lit "Basic") then
        match login g, password g with
        | Some l, Some p =>
            mret ((fun s => (lit "Basic", s)) <$> basic_authentication_encode l p)
        | _, _ => fault
        end
      else if strncaseeq 6 query (lit "Digest") then
        let uri := inet_ntoa (sin_addr destaddr) ++ lit ":" ++ fmt_u (be_value (sin_port destaddr)) in
        r1 ← red_randui32;
        r2 ← red_randui32;
        match digest_params query with
        | None => fault
        | Some line =>
            mret ((fun s => (lit "Digest", s)) <$>
              digest_authentication_encode ctx line (login g) (password g) (Some (lit "CONNECT")) (Some uri)
                (last_auth_count auth) (fmt_08x r1 ++ fmt_08x r2))
        end
      else mret None
  end.

Definition disclose_header (d : disclose_src_e) (clientaddr : sockaddr_in) : bytes :=
  let ip := inet_ntoa (sin_addr clientaddr) in
  match d with
  | DISCLOSE_NONE => []
  | DISCLOSE_X_FORWARDED_FOR => lit "X-Forwarded-For: " ++ ip ++ [13; 10]
  | DISCLOSE_FORWARDED_IP => lit "Forwarded: for=" ++ ip ++ [13; 10]
  | DISCLOSE_FORWARDED_IPPORT =>
      lit "Forwarded: for=" ++ [34] ++ ip ++ lit ":" ++ fmt_u (be_value (sin_port clientaddr)) ++ [34; 13; 10]
  end.

Definition connect_request (destaddr : sockaddr_in) (auth : option (bytes * bytes)) (disclosed : bytes) : bytes :=
  lit "CONNECT " ++ inet_ntoa (sin_addr destaddr) ++ lit ":" ++ fmt_u (be_value (sin_port destaddr)) ++
  lit " HTTP/1.0" ++ [13; 10] ++
  match auth with
  | Some (scheme, s) => auth_response_header ++ lit " " ++ scheme ++ lit " " ++ s ++ [13; 10]
  | None => []
  end ++ disclosed ++ [13; 10].

Definition httpc_mkconnect (id : Z) : M (option bytes) :=
  e ← answer;
  if negb (e =? 0) then mret None else
  c ← get_client id;
  i ← get_instance (c_instance c);
  let auth := mk_http_auth (last_auth_query (i_auth i)) (i32 (last_auth_count (i_auth i) + 1)) in
  mod_instance (c_instance c) (i_set_auth auth) ;;
  a ← httpc_auth_string (i_config i) auth (c_destaddr c);
  mret (Some (connect_request (c_destaddr c) a (disclose_header (disclose_src (i_config i)) (c_clientaddr c)))).

Definition httpc_write_cb (id : Z) : M unit :=
  redsocks_touch_client id ;;
  c ← get_client id;
  if c_state c =? httpc_new then
    redsocks_write_helper_ex id Relay (Some httpc_mkconnect) httpc_request_sent 1 HTTP_HEAD_WM_HIGH ;; mret tt
  else when (c_state c >=? httpc_request_sent) (bufferevent_disable id Relay EV_WRITE ;; mret tt).

End mkconnect.

(** ** The reply *)

Section reply.
Context {LR : LineReader}.

Definition set_state (id st : Z) : M unit := mod_client id (c_set_state st).
Definition get_state (id : Z) : M Z := c ← get_client id; mret (c_state c).

(** The challenge without the header name and the blanks after it. *)
Definition challenge_of (auth_request : bytes) : bytes :=
  skip isspace (drop (length auth_request_header) auth_request).

(** [redsocks_bufferevent_free(client->relay)]; the pointer is replaced before it is used again. *)
Definition free_relay (id : Z) : M unit :=
  b ← get_buf id Relay;
  mod_client id (c_set_buf Relay None) ;;
  redsocks_bufferevent_free b.

(** How a step of the callback goes on: it returns, or the headers read so far are
    kept for the client ([tee]). *)
Inductive next := Return | Continue (tee : option bytes).

(** The reply asks for credentials. *)
Definition httpc_auth_required (id : Z) (do_errtee : bool) : M next :=
  c ← get_client id;
  i ← get_instance (c_instance c);
  let auth := i_auth i in
  if bool_decide (is_Some (last_auth_query auth)) && (last_auth_count auth =? 1) then
    set_state id httpc_no_way ;; mret (Continue None)
  else if bool_decide (login (i_config i) = None) || bool_decide (password (i_config i) = None) then
    set_state id httpc_no_way ;; mret (Continue None)
  else
    b ← get_buf id Relay;
    let '(found, rest, tee) := http_auth_request_header (length (be_input b)) (be_input b) [] in
    mod_buf id Relay (be_set_input rest) ;;
    match found with
    | None => set_state id httpc_no_way ;; mret (Continue (if do_errtee then Some tee else None))
    | Some auth_request =>
        mod_instance (c_instance c) (i_set_auth (mk_http_auth (Some (challenge_of auth_request)) 0)) ;;
        ok ← bufferevent_disable id Relay EV_WRITE;
        if negb ok then mret Return else
        free_relay id ;;
        set_state id httpc_new ;;
        redsocks_connect_relay id ;;
        mret Return
    end.

(** The first line of the reply. *)
Definition httpc_first_line (id : Z) (do_errtee : bool) : M next :=
  b ← get_buf id Relay;
  match readline (be_input b) with
  | Some (l, rest) =>
      let line := cstr l in
      mod_buf id Relay (be_set_input rest) ;;
      n ← match scan_status line with
          | Some code =>
              if code =? 407 then httpc_auth_required id do_errtee
              else if (200 <=? code) && (code <=? 299) then set_state id httpc_reply_came ;; mret (Continue None)
              else set_state id httpc_no_way ;; mret (Continue None)
          | None => set_state id httpc_no_way ;; mret (Continue None)
          end;
      match n with
      | Return => mret Return
      | Continue tee =>
          st ← get_state id;
          when (do_errtee && (st =? httpc_no_way)) (mod_buf id Client (be_append (line ++ [13; 10]))) ;;
          mret (Continue tee)
      end
  | None =>
      when (zlen (be_input b) >=? HTTP_HEAD_WM_HIGH) (set_state id httpc_no_way) ;;
      mret (Continue None)
  end.

(** The reply is forwarded to the client, which cannot send any more. *)
Definition httpc_forward_error (id : Z) (tee : option bytes) : M unit :=
  match tee with Some t => mod_buf id Client (be_append t) | None => mret tt end ;;
  redsocks_shutdown id Client SHUT_RD ;;
  mod_buf id Client (be_set_input []) ;;
  redsocks_shutdown id Relay SHUT_WR ;;
  set_state id httpc_headers_skipped.

(** Header lines are dropped up to the empty one; [None] when it is not there yet.
    Every turn takes a line, so the length of the input is enough fuel. *)
Fixpoint skip_headers (fuel : nat) (input : bytes) : bool * bytes :=
  match fuel with
  | O => (false, input)
  | S fuel =>
      match readline input with
      | Some (l, rest) => if bool_decide (cstr l = []) then (true, rest) else skip_headers fuel rest
      | None => (false, input)
      end
  end.

Definition httpc_skip_headers (id : Z) : M unit :=
  st ← get_state id;
  when (st =? httpc_reply_came)
    (b ← get_buf id Relay;
     let '(found, rest) := skip_headers (length (be_input b)) (be_input b) in
     mod_buf id Relay (be_set_input rest) ;;
     when found (set_state id httpc_headers_skipped)).

Definition httpc_read_cb (id : Z) : M unit :=
  st ← get_state id;
  assert ((st =? httpc_request_sent) || (st =? httpc_reply_came)) ;;
  redsocks_touch_client id ;;
  c ← get_client id;
  i ← get_instance (c_instance c);
  let do_errtee := bool_decide (on_proxy_fail (i_config i) = ONFAIL_FORWARD_HTTP_ERR) in
  n ← (if st =? httpc_request_sent then httpc_first_line id do_errtee else mret (Continue None));
  match n with
  | Return => mret tt
  | Continue tee =>
      st ← get_state id;
      when (do_errtee && (st =? httpc_no_way)) (httpc_forward_error id tee) ;;
      st ← get_state id;
      if st =? httpc_no_way then redsocks_drop_client id
      else
        httpc_skip_headers id ;;
        st ← get_state id;
        when (st =? httpc_headers_skipped) (redsocks_start_relay id)
  end.

End reply.

(** ** The callbacks keep the process sound

    For an instance without login or password, which never remembers a challenge. *)

Section sound.
Context {LR : LineReader} (id : Z) (g : redsocks_config).
Context (Hcred : login g = None \/ password g = None).
Abbreviation at_c := (at_client id g http_connect_subsys).

(** A client in the hands of the callback. *)
Record handled (c : redsocks_client) : Prop := {
  h_pump : c_pump c = new_pump;
  h_flow : flow_ok c;
  h_write : forall s, shut s EV_WRITE c = false;
  h_read : shut Relay EV_READ c = false;
  h_client : cbs (c_client c) = Some (cb_none, cb_none);
  h_relay : cbs (c_relay c) = Some (cb_subsys_read, cb_subsys_write) }.

Lemma handled_bufs c : handled c -> exists bc b, c_client c = Some bc /\ c_relay c = Some b.
Proof. intros [_ _ _ _ Hc Hr]. destruct (c_client c), (c_relay c); try done. eauto. Qed.

Lemma handled_state c st : handled c -> handled (c_set_state st c).
Proof.
  intros [Hp H1 H2 H3 H4 H5]. split; try done.
  revert H1. apply flow_ext; by intros [].
Qed.

Lemma handled_last c t : handled c -> handled (c_set_last t c).
Proof.
  intros [Hp H1 H2 H3 H4 H5]. split; try done. by apply flow_last.
Qed.

Lemma handled_buf c s b b' :
  handled c -> c_buf s c = Some b -> be_enabled b' = be_enabled b -> be_fd b' = be_fd b ->
  cbs (Some b') = cbs (Some b) -> is_bytes (be_input b') -> handled (c_set_buf s (Some b') c).
Proof.
  intros [Hp H1 H2 H3 H4 H5] Hb He Hf Hc Hby. split.
  - done.
  - by eapply flow_keep.
  - intros s'. specialize (H2 s'). by destruct s, s'.
  - by destruct s.
  - destruct s; [|done]. cbn [c_buf c_client c_set_buf] in *. rewrite Hc. by rewrite Hb in H4.
  - destruct s; [done|]. cbn [c_buf c_relay c_set_buf] in *. rewrite Hc. by rewrite Hb in H5.
Qed.

(** The states the first line can lead to. *)
Definition after_line (c : redsocks_client) : Prop :=
  c_state c = httpc_request_sent \/ c_state c = httpc_reply_came \/ c_state c = httpc_no_way.

Definition keeps (c : redsocks_client) (n : next) (w : world) : Prop :=
  n <> Return /\ exists c', at_c c' w /\ handled c' /\ after_line c'.

Lemma at_state c Q w : at_c c w -> Q (c_state c) w -> wp (get_state id) Q w.
Proof. intros H HQ. apply wp_bind. eapply at_get; [done|]. by apply wp_ret. Qed.

Lemma at_set_state c st Q w :
  at_c c w -> (forall w, at_c (c_set_state st c) w -> Q tt w) -> wp (set_state id st) Q w.
Proof. intros H HQ. by eapply at_mod. Qed.

Lemma set_state_keeps c c0 st w :
  at_c c w -> handled c -> st = httpc_reply_came \/ st = httpc_no_way ->
  wp (set_state id st ;; mret (Continue None)) (keeps c0) w.
Proof.
  intros H Hh Hst. apply wp_bind. eapply at_set_state; [done|]. intros w' H'. apply wp_ret.
  split; [done|]. eexists. split; [done|]. split; [by apply handled_state|].
  unfold after_line. cbn. tauto.
Qed.

Lemma auth_required_keeps c c0 t w :
  at_c c w -> handled c -> wp (httpc_auth_required id t) (keeps c0) w.
Proof.
  intros H Hh. apply wp_bind. eapply at_get; [done|]. apply wp_bind. eapply at_instance; [done|].
  intros i _ Hg _. rewrite Hg. case_match; [by eapply set_state_keeps; auto|].
  assert (E : bool_decide (login g = None) || bool_decide (password g = None) = true).
  { apply orb_true_iff. destruct Hcred; [left|right]; by apply bool_decide_eq_true. }
  rewrite E. by eapply set_state_keeps; auto.
Qed.

Lemma first_line_keeps c t w :
  at_c c w -> handled c -> c_state c = httpc_request_sent -> wp (httpc_first_line id t) (keeps c) w.
Proof.
  intros H Hh Hst. destruct (handled_bufs c Hh) as (bc & b & Hbc & Hb).
  destruct (fl_enabled _ (h_flow _ Hh) Relay b Hb) as (? & ? & Hby).
  apply wp_bind. eapply at_buf; [done|done|].
  destruct (readline (be_input b)) as [[l rest]|] eqn:Hl.
  - destruct (readline_bytes _ _ _ Hl Hby) as [_ Hrest].
    apply wp_bind. eapply at_mod_buf; [done|done|done|]. clear w H. intros w H.
    assert (Hh1 : handled (c_set_buf Relay (Some (be_set_input rest b)) c)) by (by eapply handled_buf).
    set (c1 := c_set_buf Relay _ c) in *. clearbody c1.
    apply wp_bind. apply (wp_mono _ (keeps c)).
    { destruct (scan_status (cstr l)) as [code|]; [|by eapply set_state_keeps; auto].
      case_match; [by eapply auth_required_keeps|]. case_match; by eapply set_state_keeps; auto. }
    intros [|tee] w' (Hne & c2 & H2 & Hh2 & Hal); [done|].
    apply wp_bind. eapply at_state; [done|].
    destruct (handled_bufs c2 Hh2) as (bc2 & b2 & Hbc2 & Hb2).
    destruct (fl_enabled _ (h_flow _ Hh2) Client bc2 Hbc2) as (? & ? & Hby2).
    apply wp_bind. apply wp_when; intros _.
    + eapply at_mod_buf; [done|done|done|]. intros w3 Hw3. apply wp_ret. split; [done|].
      eexists. split; [done|]. split; [by eapply handled_buf|done].
    + apply wp_ret. split; [done|]. eauto.
  - apply wp_bind, wp_when; intros _.
    + eapply at_set_state; [done|]. intros w' H'. apply wp_ret. split; [done|]. eexists.
      split; [done|]. split; [by apply handled_state|]. unfold after_line. cbn. tauto.
    + apply wp_ret. split; [done|]. exists c. split; [done|]. split; [done|]. by left.
Qed.

Lemma shut_both_false c :
  (forall s, rw (c_evshut s c)) -> shut Client EV_WRITE c = false -> shut_both c = false.
Proof. intros Hrw Hw. rewrite shut_both_flags, Hw by done. by rewrite !andb_false_r. Qed.

Definition forwarded (w : world) : Prop := exists c bc b, at_c c w /\ c_pump c = new_pump /\ flow_ok c /\
  c_client c = Some bc /\ c_relay c = Some b /\ c_state c = httpc_headers_skipped.

Lemma shutdowns_forwarded c w :
  at_c c w -> handled c ->
  wp (redsocks_shutdown id Client SHUT_RD ;; mod_buf id Client (be_set_input []) ;;
      redsocks_shutdown id Relay SHUT_WR ;; set_state id httpc_headers_skipped) (fun _ => forwarded) w.
Proof.
  intros H Hh. destruct (handled_bufs c Hh) as (bc & b & Hbc & Hb). pose proof (h_flow _ Hh) as Hf.
  pose proof (h_pump _ Hh) as Hp.
  apply wp_bind. eapply at_shutdown; [done|done|]. clear w H. intros b1 w Hb1. cbv zeta.
  assert (Hn : shut_both (after_shutdown Client SHUT_RD b1 c) = false).
  { apply shut_both_false; [intros; apply rw_after, Hf|]. rewrite shut_after by (unfold flag; tauto).
    rewrite (h_write _ Hh). by rewrite andb_false_r. }
  rewrite Hn. intros H.
  pose proof (flow_shutdown Client SHUT_RD bc b1 c Hf Hbc Hb1 ltac:(done) Hn) as Hf1.
  assert (HR : shut Client EV_READ (after_shutdown Client SHUT_RD b1 c) = true).
  { rewrite shut_after by (unfold flag; tauto). apply orb_true_r. }
  assert (HW : shut Client EV_WRITE (after_shutdown Client SHUT_RD b1 c) = false).
  { rewrite shut_after by (unfold flag; tauto). by rewrite (h_write _ Hh). }
  assert (Hp1 : c_pump (after_shutdown Client SHUT_RD b1 c) = new_pump) by done.
  assert (Hc1 : c_client (after_shutdown Client SHUT_RD b1 c) = Some b1) by done.
  assert (Hr1 : c_relay (after_shutdown Client SHUT_RD b1 c) = Some b) by done.
  set (c1 := after_shutdown Client SHUT_RD b1 c) in *. clearbody c1.
  apply wp_bind. eapply at_mod_buf; [done|done|done|]. clear w H. intros w H.
  assert (Hf2 : flow_ok (c_set_buf Client (Some (be_set_input [] b1)) c1)).
  { eapply flow_keep; [done..|]. constructor. }
  set (c2 := c_set_buf Client _ c1) in *.
  assert (Hp2 : c_pump c2 = new_pump) by done. assert (Hr2 : c_relay c2 = Some b) by done. assert (HR2 : shut Client EV_READ c2 = true) by done.
  assert (HW2 : shut Client EV_WRITE c2 = false) by done.
  assert (Hc2 : c_client c2 = Some (be_set_input [] b1)) by done. clearbody c2.
  apply wp_bind. eapply at_shutdown; [done|done|]. clear w H. intros b' w Hb'. cbv zeta.
  assert (Hn2 : shut_both (after_shutdown Relay SHUT_WR b' c2) = false).
  { apply shut_both_false; [intros; apply rw_after, Hf2|]. by rewrite shut_after, HW2 by (unfold flag; tauto). }
  rewrite Hn2. intros H. eapply at_set_state; [done|]. clear w H. intros w H.
  eexists _, _, _. split; [done|]. split; [done|]. split; [|done].
  apply (flow_ext (after_shutdown Relay SHUT_WR b' c2)); [by intros []..|]. by eapply flow_shutdown.
Qed.

Lemma forward_error_forwarded c tee w :
  at_c c w -> handled c -> wp (httpc_forward_error id tee) (fun _ => forwarded) w.
Proof.
  intros H Hh. destruct (handled_bufs c Hh) as (bc & b & Hbc & Hb).
  destruct (fl_enabled _ (h_flow _ Hh) Client bc Hbc) as (? & ? & ?).
  apply wp_bind. destruct tee as [t|].
  - eapply at_mod_buf; [done|done|done|]. intros w' H'. eapply shutdowns_forwarded; [done|].
    by eapply handled_buf.
  - apply wp_ret. by eapply shutdowns_forwarded.
Qed.

Lemma skip_headers_bytes fuel input : is_bytes input -> is_bytes (skip_headers fuel input).2.
Proof.
  revert input. induction fuel as [|fuel IH]; intros input Hb; cbn [skip_headers snd]; [done|].
  destruct (readline input) as [[l rest]|] eqn:Hl; [|done].
  destruct (readline_bytes _ _ _ Hl Hb) as [_ Hr]. case_bool_decide; auto.
Qed.

Lemma rest_sound c w :
  at_c c w -> handled c -> c_state c = httpc_request_sent \/ c_state c = httpc_reply_came ->
  wp (httpc_skip_headers id ;; st ← get_state id; when (st =? httpc_headers_skipped) (redsocks_start_relay id))
    (fun _ => sound) w.
Proof.
  intros H Hh Hst.
  assert (Hdone : forall c w, at_c c w -> handled c ->
    c_state c = httpc_request_sent \/ c_state c = httpc_reply_came ->
    wp (st ← get_state id; when (st =? httpc_headers_skipped) (redsocks_start_relay id)) (fun _ => sound) w).
  { intros c' w' H' Hh' Hst'. apply wp_bind. eapply at_state; [done|].
    apply wp_when; [destruct Hst' as [-> | ->]; done|]. intros _. eapply at_buffered; [done|].
    split_and!; [apply Hh'|apply Hh'|]. right; right. destruct Hh' as [? ? Hw ? ? ?].
    split_and!; [|done|by split]. split_and!; [destruct Hst' as [-> | ->]; done|done..]. }
  apply wp_bind. apply wp_bind. eapply at_state; [done|]. apply wp_when; [|intros _; by eapply Hdone].
  intros Hcame%Z.eqb_eq. destruct (handled_bufs c Hh) as (bc & b & Hbc & Hb).
  destruct (fl_enabled _ (h_flow _ Hh) Relay b Hb) as (? & ? & Hby).
  apply wp_bind. eapply at_buf; [done|done|].
  pose proof (skip_headers_bytes (length (be_input b)) _ Hby) as Hrest.
  destruct (skip_headers _ _) as [found rest]. cbn in Hrest.
  apply wp_bind. eapply at_mod_buf; [done|done|done|]. clear w H. intros w H.
  assert (Hh1 : handled (c_set_buf Relay (Some (be_set_input rest b)) c)) by by eapply handled_buf.
  apply wp_when; [|intros _; by eapply Hdone]. intros _. eapply at_set_state; [done|]. clear w H. intros w H.
  apply wp_bind. eapply at_state; [done|]. cbn [c_set_state c_state when Z.eqb].
  eapply start_relay_sound; [done|apply (handled_state _ _ Hh1)|apply (handled_state _ _ Hh1)|done|done].
Qed.

Lemma httpc_read_sound c w :
  at_c c w -> buffered g http_connect_subsys c -> talking http_connect_subsys g c ->
  shut Relay EV_READ c = false -> wp (httpc_read_cb id) (fun _ => sound) w.
Proof.
  intros H (Hp & Hf & _) ((_ & Hw & Hcc) & Hcr & Hst & _) HR.
  assert (Hh : handled c) by by split.
  apply wp_bind. eapply at_state; [done|]. apply wp_bind, wp_assert; [destruct Hst as [-> | ->]; done|].
  apply wp_bind. eapply at_touch; [done|]. clear w H. intros t w H. apply (handled_last _ t) in Hh.
  apply wp_bind. eapply at_get; [done|]. apply wp_bind. eapply at_instance; [done|]. intros i _ Hg _.
  rewrite Hg. cbv zeta. set (tee := bool_decide _). apply wp_bind.
  apply (wp_mono _ (keeps (c_set_last t c))).
  { destruct Hst as [Hst|Hst]; rewrite Hst.
    - by apply first_line_keeps.
    - apply wp_ret. split; [done|]. eexists. split; [done|]. split; [done|]. right; left. done. }
  clear w H. intros [|d] w (Hne & c1 & H & Hh1 & Hal); [done|].
  apply wp_bind. eapply at_state; [done|]. apply wp_bind, wp_when.
  - intros _. apply (wp_mono _ (fun _ => forwarded)); [by eapply forward_error_forwarded|].
    intros _ w' (c2 & bc & b & H2 & Hp2 & Hf2 & Hbc & Hb & Hst2).
    apply wp_bind. eapply at_state; [done|]. rewrite Hst2.
    change (httpc_headers_skipped =? httpc_no_way) with false. cbv iota.
    apply wp_bind. apply wp_bind. eapply at_state; [done|]. rewrite Hst2. apply wp_ret.
    apply wp_bind. eapply at_state; [done|]. rewrite Hst2. by eapply start_relay_sound.
  - intros _. apply wp_bind. eapply at_state; [done|]. destruct Hal as [Ha|[Ha|Ha]]; rewrite Ha.
    + change (httpc_request_sent =? httpc_no_way) with false. eapply rest_sound; eauto.
    + change (httpc_reply_came =? httpc_no_way) with false. eapply rest_sound; eauto.
    + change (httpc_no_way =? httpc_no_way) with true. eapply at_drop; [done|]. by intros ? [? _].
Qed.

Lemma httpc_mkconnect_makes ctx c :
  makes (listed := true) id g http_connect_subsys c (httpc_mkconnect ctx)
    (eq (connect_request (c_destaddr c) None (disclose_header (disclose_src g) (c_clientaddr c)))).
Proof.
  intros Q w H Hno Hyes. apply wp_bind. eapply at_answer; [done|]. clear w H. intros e w H.
  case_match; [apply wp_ret; auto|].
  apply wp_bind. eapply at_get; [done|]. apply wp_bind. eapply at_instance; [done|]. intros i Hi Hg _.
  pose proof (at_auth_ok _ _ _ _ _ _ H Hi) as Ha. unfold auth_ok in Ha. rewrite Hg in Ha.
  specialize (Ha Hcred). cbv zeta. apply wp_bind. eapply at_mod_instance; [done|done|by split_and!|done|].
  clear w H Hi. intros w H. unfold httpc_auth_string. cbn [last_auth_query]. rewrite Ha.
  apply wp_bind, wp_ret, wp_ret. rewrite Hg. by apply Hyes.
Qed.

Lemma httpc_write_sound ctx c w :
  at_c c w -> c_pump c = new_pump -> flow_ok c -> before_pump c ->
  cbs (c_relay c) = Some (cb_subsys_read, cb_subsys_write) ->
  (starts http_connect_subsys g (c_state c) (c_payload c) /\ shut Relay EV_READ c = false \/
   talks http_connect_subsys g (c_state c) (c_payload c)) ->
  wp (httpc_write_cb ctx id) (fun _ => sound) w.
Proof.
  intros H Hp Hf Hbp Hcb Hst. apply wp_bind. eapply at_touch; [done|]. clear w H. intros t w H.
  destruct (c_relay c) as [b|] eqn:Hb; [|done]. destruct (fl_enabled _ Hf Relay b Hb) as (_ & _ & Hby).
  apply wp_bind. eapply at_get; [done|]. cbn [c_set_last c_state]. destruct Hst as [[[Hst _] Hs]|[Hst Hc]].
  - rewrite Hst. apply wp_bind. eapply at_write_helper; [done|done|apply httpc_mkconnect_makes|..].
    + intros w' [? _]. by apply wp_ret.
    + intros d ok w' _ H'. apply wp_ret. eapply at_buffered; [done|].
      eapply talking_inv_keep; try done; [by rewrite Hb|]. split; [by left|done].
  - assert (E : (c_state c =? httpc_new) = false /\ (c_state c >=? httpc_request_sent) = true)
      by (destruct Hst as [-> | ->]; done).
    destruct E as [-> ->]. cbn [when]. eapply disable_write_ok; [done| | |done];
      [split_and!; [done|by apply flow_last|right; right]|]; by split_and!; [|rewrite <-Hcb, <-Hb|split].
Qed.

(** A successful first line, and what the header lines leave. *)
Lemma read_success c bc b line code found rest rest' w :
  at_c c w -> c_pump c = new_pump -> flow_ok c -> c_state c = httpc_request_sent ->
  c_client c = Some bc -> c_relay c = Some b ->
  readline (be_input b) = Some (line, rest) -> scan_status (cstr line) = Some code -> 200 <= code <= 299 ->
  skip_headers (length rest) rest = (found, rest') ->
  wp (httpc_read_cb id) (fun _ w => if found then
      gone id w \/ exists t c', at_c c' w /\ started g bc (be_set_input rest' b) (c_payload c)
        (c_set_buf Relay (Some (be_set_input rest' b)) (c_set_last t c)) c'
    else exists t, at_c (c_set_state httpc_reply_came
      (c_set_buf Relay (Some (be_set_input rest' b)) (c_set_last t c))) w) w.
Proof.
  intros H Hp Hf Hst Hbc Hb Hl Hcode Hr Hskip. pose proof (fl_enabled _ Hf Relay b Hb) as (_ & Hfr & _).
  pose proof (fl_enabled _ Hf Client bc Hbc) as (_ & Hfc & _).
  apply wp_bind. eapply at_state; [done|]. rewrite Hst. apply wp_bind, wp_assert; [done|].
  apply wp_bind. eapply at_touch; [done|]. clear w H. intros t w H.
  apply wp_bind. eapply at_get; [done|]. apply wp_bind. eapply at_instance; [done|]. intros i _ _ _.
  cbv zeta. set (tee := bool_decide _). change (httpc_request_sent =? httpc_request_sent) with true. cbv iota.
  set (c1 := c_set_state httpc_reply_came (c_set_buf Relay (Some (be_set_input rest b)) (c_set_last t c))).
  apply wp_bind. apply (wp_mono _ (fun n w => n = Continue None /\ at_c c1 w)).
  { apply wp_bind. eapply at_buf; [done|done|]. rewrite Hl. apply wp_bind.
    eapply at_mod_buf; [done|done|done|]. clear w H. intros w H. rewrite Hcode.
    destruct (Z.eqb_spec code 407); [lia|].
    replace ((200 <=? code) && (code <=? 299)) with true by (symmetry; apply andb_true_iff; lia).
    apply wp_bind, wp_bind. eapply at_set_state; [done|]. clear w H. intros w H. apply wp_ret.
    apply wp_bind. eapply at_state; [done|]. cbn [c_set_state c_state].
    change (httpc_reply_came =? httpc_no_way) with false. rewrite andb_false_r. cbn [when].
    apply wp_bind, wp_ret, wp_ret. done. }
  clear w H. intros n w [-> H]. apply wp_bind. eapply at_state; [done|].
  change (c_state c1) with httpc_reply_came. change (httpc_reply_came =? httpc_no_way) with false.
  rewrite andb_false_r. cbn [when]. apply wp_bind, wp_ret. apply wp_bind. eapply at_state; [done|].
  change (c_state c1) with httpc_reply_came. change (httpc_reply_came =? httpc_no_way) with false. cbv iota.
  apply wp_bind. apply wp_bind. eapply at_state; [done|].
  change (c_state c1) with httpc_reply_came. change (httpc_reply_came =? httpc_reply_came) with true. cbn [when].
  apply wp_bind. eapply at_buf; [done|done|]. cbn [be_input be_set_input]. rewrite Hskip.
  apply wp_bind. eapply at_mod_buf; [done|done|done|]. clear w H. intros w H.
  destruct found; cbn [when].
  - eapply at_set_state; [done|]. clear w H. intros w H. apply wp_bind. eapply at_state; [done|].
    cbn [c_set_state c_state]. change (httpc_headers_skipped =? httpc_headers_skipped) with true. cbn [when].
    eapply at_start; [done|done|done|done|done|done|by left|]. intros c' w' Hs' H'. right. by exists t, c'.
  - apply wp_ret. apply wp_bind. eapply at_state; [done|].
    change (wp (mret tt) (fun _ w => exists t, at_c (c_set_state httpc_reply_came
      (c_set_buf Relay (Some (be_set_input rest' b)) (c_set_last t c))) w) w).
    apply wp_ret. exists t. exact H.
Qed.
End sound.

(** ** Properties *)

(** Header lines as a proxy sends them. *)
Definition crlf_lines (ls : list bytes) : bytes := concat ((.++ [13; 10]) <$> ls).

Definition header_line (l : bytes) : Prop := cstr l <> [] /\ 10 ∉ l.

Lemma readline_crlf l rest :
  10 ∉ l -> @readline crlf_reader (l ++ [13; 10] ++ rest) = Some (l, rest).
Proof. apply readln_crlf_line. Qed.

Lemma skip_headers_crlf ls rest fuel :
  Forall header_line ls -> (length ls < fuel)%nat ->
  skip_headers (LR := crlf_reader) fuel (crlf_lines ls ++ [13; 10] ++ rest) = (true, rest).
Proof.
  intros Hls. revert fuel. induction Hls as [|l ls [Hne Hlf] _ IH]; intros [|fuel] Hf; cbn [length] in Hf; try lia;
    cbn [skip_headers].
  - change (crlf_lines [] ++ [13; 10] ++ rest) with ([] ++ [13; 10] ++ rest).
    rewrite readline_crlf by set_solver. done.
  - change (crlf_lines (l :: ls)) with ((l ++ [13; 10]) ++ crlf_lines ls). rewrite <-!app_assoc.
    rewrite readline_crlf by done. rewrite bool_decide_eq_false_2 by done. apply IH. lia.
Qed.

(** with a reader of CRLF lines, a 2xx reply of any header lines starts relaying
    (or releases the client when the event loop refuses), and exactly the bytes after
    the empty line are left for the client. *)
Theorem httpc_reply_starts_relay id g c bc b status code hs rest w :
  at_client id g http_connect_subsys c w -> client_inv g http_connect_subsys c ->
  c_state c = httpc_request_sent -> c_client c = Some bc -> c_relay c = Some b ->
  be_input b = status ++ [13; 10] ++ crlf_lines hs ++ [13; 10] ++ rest ->
  10 ∉ status -> scan_status (cstr status) = Some code -> 200 <= code <= 299 -> Forall header_line hs ->
  wp (httpc_read_cb (LR := crlf_reader) id) (fun _ w => gone id w \/ exists t c',
    at_client id g http_connect_subsys c' w /\ started g bc (be_set_input rest b) (c_payload c)
      (c_set_buf Relay (Some (be_set_input rest b)) (c_set_last t c)) c') w.
Proof.
  intros H Hinv Hst Hbc Hb Hin Hlf Hcode Hr Hhs.
  destruct (idle_buffered _ _ _ Hinv ltac:(by rewrite Hst)) as (Hp & Hf & _).
  apply (read_success (LR := crlf_reader) id g c bc b status code true
           (crlf_lines hs ++ [13; 10] ++ rest) rest); try done.
  - rewrite Hin. by apply readln_crlf_line.
  - apply skip_headers_crlf; [done|]. rewrite !length_app. cbn [length].
    assert (length hs <= length (crlf_lines hs))%nat; [|lia].
    clear. induction hs as [|h hs IH]; [done|]. unfold crlf_lines in *. cbn. rewrite !length_app. cbn. lia.
Qed.

(** with the reader the build selects, a 2xx reply that arrives in one segment and
    has no header lines does not start relaying: the status line takes the empty line
    with it, and the client goes on waiting with all input used up. *)
Theorem httpc_build_reader_stalls id g c bc b status code w :
  at_client id g http_connect_subsys c w -> client_inv g http_connect_subsys c ->
  c_state c = httpc_request_sent -> c_client c = Some bc -> c_relay c = Some b ->
  be_input b = status ++ [13; 10; 13; 10] -> Forall (fun x => is_eol x = false) status ->
  scan_status (cstr status) = Some code -> 200 <= code <= 299 ->
  wp (httpc_read_cb id) (fun _ w => exists t, at_client id g http_connect_subsys
      (c_set_state httpc_reply_came (c_set_buf Relay (Some (be_set_input [] b)) (c_set_last t c))) w) w.
Proof.
  intros H Hinv Hst Hbc Hb Hin Heol Hcode Hr.
  destruct (idle_buffered _ _ _ Hinv ltac:(by rewrite Hst)) as (Hp & Hf & _).
  apply (read_success (LR := redsocks_reader) id g c bc b status code false [] []); try done.
  rewrite Hin. cbn [readline redsocks_reader]. change redsocks_evbuffer_readline with evbuffer_readline.
  unfold evbuffer_readline, evbuffer_readln, evbuffer_search_eol.
  rewrite span_all; [|by eapply Forall_impl; [exact Heol|]; intros x ->|by right; exists 13].
  change (fst (span is_eol [13; 10; 13; 10])) with [13; 10; 13; 10].
  rewrite take_app_length, drop_ge by (rewrite length_app; cbn; lia). done.
Qed.

(** A challenge that is the bare word Digest is remembered as such, and the next
    CONNECT request then reads past the end of the remembered string. *)
Theorem bare_digest_challenge_faults ctx g n dest w :
  let challenge := challenge_of (auth_request_header ++ lit " Digest") in
  httpc_auth_string ctx g (mk_http_auth (Some challenge) n) dest w = Fault.
Proof.
  cbv zeta. change (challenge_of _) with (lit "Digest"). unfold httpc_auth_string. cbn [last_auth_query].
  change (strncaseeq 5 (lit "Digest") (lit "Basic")) with false.
  change (strncaseeq 6 (lit "Digest") (lit "Digest")) with true. cbv iota zeta.
  change (digest_params (lit "Digest")) with (@None bytes). unfold mbind, M_bind.
  destruct (red_randui32 w) as [r w'| |] eqn:E; [|by unfold red_randui32 in E; case_match..].
  destruct (red_randui32 w') as [r' w''| |] eqn:E'; [done|by unfold red_randui32 in E'; case_match|done].
Qed.

Definition ex_config : redsocks_config :=
  mk_config (mk_sockaddr [127; 0; 0; 1] [4; 210]) (mk_sockaddr [10; 0; 0; 1] [4; 56])
    (Some (lit "http-connect")) None None 128 false DISCLOSE_NONE ONFAIL_CLOSE.

Definition ex_client (input : bytes) : redsocks_client :=
  mk_client 0 (Some (be_enable EV_READ (bufferevent_new 4 cb_none cb_none)))
    (Some (be_set_input input (be_enable EV_READ (bufferevent_new 5 cb_subsys_read cb_subsys_write))))
    (mk_sockaddr [192; 168; 0; 2] [200; 0]) (mk_sockaddr [93; 184; 216; 34] [0; 80]) httpc_request_sent
    0 0 0 0 new_pump no_payload.

Lemma httpc_ex_client_inv input :
  is_bytes input -> client_inv ex_config http_connect_subsys (ex_client input).
Proof.
  intros Hb. left. split_and!; [done| |].
  - split; [by intros []; left|by intros []|done| |by intros []].
    intros [] b [= <-]; (split; [by cbv; tauto|]); (split; [done|]); [constructor|done].
  - right; right. split_and!; [|done|by split; left].
    split_and!; [done|by intros []|done].
Qed.

Definition ex_reply : bytes :=
  lit "HTTP/1.1 200 OK" ++ [13; 10] ++ crlf_lines [lit "Via: proxy"] ++ [13; 10] ++ lit "SSH-2.0".

Lemma httpc_reply_witness : exists bc b,
  wp (httpc_read_cb (LR := crlf_reader) 1) (fun _ w => gone 1 w \/ exists t c',
    at_client 1 ex_config http_connect_subsys c' w /\ started ex_config bc (be_set_input (lit "SSH-2.0") b)
      (c_payload (ex_client ex_reply)) (c_set_buf Relay (Some (be_set_input (lit "SSH-2.0") b)) (c_set_last t (ex_client ex_reply))) c')
    (one_client ex_config http_connect_subsys (ex_client ex_reply)).
Proof.
  eexists _, _.
  apply (httpc_reply_starts_relay 1 ex_config (ex_client ex_reply) _ _ (lit "HTTP/1.1 200 OK") 200
           [lit "Via: proxy"] (lit "SSH-2.0") (one_client ex_config http_connect_subsys (ex_client ex_reply)));
    [apply one_client_at; [by split; [discriminate|auto]|done..]|by apply httpc_ex_client_inv; apply (bool_decide_unpack _)|reflexivity..| | | |].
  - by apply (bool_decide_unpack _).
  - vm_compute. reflexivity.
  - lia.
  - constructor; [|constructor]. split; [done|]. by apply (bool_decide_unpack _).
Defined.

Definition ex_whole_reply : bytes := lit "HTTP/1.1 200 OK" ++ [13; 10; 13; 10].

Lemma httpc_stall_witness : exists b,
  wp (httpc_read_cb 1) (fun _ w => exists t, at_client 1 ex_config http_connect_subsys
      (c_set_state httpc_reply_came (c_set_buf Relay (Some (be_set_input [] b))
         (c_set_last t (ex_client ex_whole_reply)))) w)
    (one_client ex_config http_connect_subsys (ex_client ex_whole_reply)).
Proof.
  eexists.
  apply (httpc_build_reader_stalls 1 ex_config (ex_client ex_whole_reply)
           (be_enable EV_READ (bufferevent_new 4 cb_none cb_none)) _ (lit "HTTP/1.1 200 OK") 200
           (one_client ex_config http_connect_subsys (ex_client ex_whole_reply)));
    [apply one_client_at; [by split; [discriminate|auto]|done..]|by apply httpc_ex_client_inv; apply (bool_decide_unpack _)|reflexivity..| | |].
  - by apply (bool_decide_unpack _).
  - vm_compute. reflexivity.
  - lia.
Defined.

End HttpConnect.
