(* ===== verification/HttpRelay.v ===== *)
(** * HTTP requests rewritten for the proxy: http-relay.c

    The client's request is read line by line, its first line is turned into an
    absolute URI and hop-by-hop headers are replaced; the result is sent to the proxy
    and its reply headers are copied back before relaying starts. *)

From S2P Require Import Prelude CLib MD5 EvBuffer HttpAuth World HttprBuffer Redsocks Ownership ClientLogic Flow.
From S2P Require Import HttpConnect.
Import EvBuffer HttpAuth HttprBuffer Redsocks.
Open Scope Z_scope.

Module HttpRelay.

Definition HTTP_HEAD_WM_HIGH : Z := 4096.
Definition crlf : bytes := [13; 10].

Definition httpr_new : Z := 0.
Definition httpr_recv_request_headers : Z := 1.
Definition httpr_request_sent : Z := 2.
Definition httpr_reply_came : Z := 3.
Definition httpr_headers_skipped : Z := 4.

(** ** Payload *)

Definition h_set_firstline l h := mk_httpr_client l (hr_host h) (hr_has_host h) (hr_client_buffer h) (hr_relay_buffer h).
Definition h_set_host o b h := mk_httpr_client (hr_firstline h) o b (hr_client_buffer h) (hr_relay_buffer h).
Definition h_set_client_buffer b h := mk_httpr_client (hr_firstline h) (hr_host h) (hr_has_host h) b (hr_relay_buffer h).
Definition h_set_relay_buffer b h := mk_httpr_client (hr_firstline h) (hr_host h) (hr_has_host h) (hr_client_buffer h) b.

(** [red_payload(client)] *)
Definition get_httpr (id : Z) : M httpr_client :=
  c ← get_client id;
  match c_payload c with httpr_payload h => mret h | _ => fault end.
Definition mod_httpr (id : Z) (f : httpr_client -> httpr_client) : M unit :=
  h ← get_httpr id; mod_client id (c_set_payload (httpr_payload (f h))).

Definition httpr_client_init_cb (c : redsocks_client) : redsocks_client :=
  c_set_payload (httpr_payload httpr_client_init) (c_set_state httpr_new c).

Definition httpr_instance_fini (i : redsocks_instance) : redsocks_instance :=
  i_set_auth (mk_http_auth None (last_auth_count (i_auth i))) i.

Definition append_relay (id : Z) (data : bytes) : M unit :=
  h ← get_httpr id;
  match httpr_buffer_append (hr_relay_buffer h) data with
  | Some b => mod_httpr id (h_set_relay_buffer b)
  | None => fault
  end.
Definition append_client (id : Z) (data : bytes) : M unit :=
  h ← get_httpr id;
  match httpr_buffer_append (hr_client_buffer h) data with
  | Some b => mod_httpr id (h_set_client_buffer b)
  | None => fault
  end.

Definition set_state (id st : Z) : M unit := mod_client id (c_set_state st).
Definition get_state (id : Z) : M Z := c ← get_client id; mret (c_state c).

Section relay.
Context {LR : LineReader}.

(** ** The reply of the proxy *)

(** [true]: the callback goes on; [false]: it returns, or the client was dropped. *)
Definition httpr_auth_required (id : Z) : M bool :=
  c ← get_client id;
  i ← get_instance (c_instance c);
  let auth := i_auth i in
  if bool_decide (is_Some (last_auth_query auth)) && (last_auth_count auth =? 1) then
    redsocks_drop_client id ;; mret false
  else if bool_decide (login (i_config i) = None) || bool_decide (password (i_config i) = None) then
    redsocks_drop_client id ;; mret false
  else
    b ← get_buf id Relay;
    let '(found, rest, _) := http_auth_request_header (length (be_input b)) (be_input b) [] in
    mod_buf id Relay (be_set_input rest) ;;
    match found with
    | None =>
        (* the line was freed above; it is logged here and freed again below *)
        redsocks_drop_client id ;; fault
    | Some auth_request =>
        mod_instance (c_instance c)
          (i_set_auth (mk_http_auth (Some (HttpConnect.challenge_of auth_request)) 0)) ;;
        mod_httpr id (fun h => h_set_relay_buffer (httpr_buffer_fini (hr_relay_buffer h)) h) ;;
        ok ← bufferevent_disable id Relay EV_WRITE;
        if negb ok then mret false else
        HttpConnect.free_relay id ;;
        set_state id httpr_recv_request_headers ;;
        redsocks_connect_relay id ;;
        mret false
    end.

Definition httpr_first_line (id : Z) : M bool :=
  b ← get_buf id Relay;
  match readline (be_input b) with
  | Some (l, rest) =>
      let line := cstr l in
      mod_buf id Relay (be_set_input rest) ;;
      append_relay id line ;;
      append_relay id crlf ;;
      match scan_status line with
      | Some code =>
          if code =? 407 then httpr_auth_required id
          else if (100 <=? code) && (code <=? 999) then set_state id httpr_reply_came ;; mret true
          else redsocks_drop_client id ;; mret false
      | None => redsocks_drop_client id ;; mret false
      end
  | None =>
      if zlen (be_input b) >=? HTTP_HEAD_WM_HIGH then redsocks_drop_client id ;; mret false
      else mret true
  end.

(** The [while] loop over header lines; every turn takes a line, so the length of the
    input is enough fuel. *)
Fixpoint httpr_copy_headers (fuel : nat) (id : Z) : M unit :=
  match fuel with
  | O => mret tt
  | S fuel =>
      b ← get_buf id Relay;
      match readline (be_input b) with
      | Some (l, rest) =>
          let line := cstr l in
          mod_buf id Relay (be_set_input rest) ;;
          append_relay id line ;;
          append_relay id crlf ;;
          if bool_decide (line = []) then set_state id httpr_headers_skipped
          else httpr_copy_headers fuel id
      | None => mret tt
      end
  end.

Definition httpr_relay_read_cb (id : Z) : M unit :=
  st ← get_state id;
  assert (st >=? httpr_request_sent) ;;
  redsocks_touch_client id ;;
  mod_httpr id (h_set_relay_buffer httpr_buffer_init) ;;
  go ← (if st =? httpr_request_sent then httpr_first_line id else mret true);
  if negb go then mret tt else
  st ← get_state id;
  b ← get_buf id Relay;
  when (st =? httpr_reply_came) (httpr_copy_headers (length (be_input b)) id) ;;
  st ← get_state id;
  when (st =? httpr_headers_skipped)
    (h ← get_httpr id;
     match hb_buff (hr_relay_buffer h) with
     | Some data => mod_buf id Client (be_append data)
     | None => when (negb (hb_len (hr_relay_buffer h) =? 0)) fault
     end ;;
     redsocks_start_relay id).

(** ** The request to the proxy *)

Section write.
Context (ctx : MD5.md5_state).

(** The method and the path of an absolute first line: [inl] is a NULL that is
    followed, [inr None] a malformed request. *)
Definition method_and_uri (firstline : bytes) : unit + option (bytes * bytes) :=
  match strchr 32 firstline with
  | None => inl tt
  | Some (method, _) =>
      inr (match strchr 47 firstline with
           | Some (_, _ :: 47 :: k) =>
               match strchr 47 k with
               | Some (_, path) =>
                   match strchr 32 path with
                   | Some (uri, _) => Some (method, uri)
                   | None => None
                   end
               | None => None
               end
           | _ => None
           end)
  end.

(** [inl] drops the client, [inr] is the scheme and the credentials, if any. *)
Definition httpr_auth_string (g : redsocks_config) (auth : http_auth) (firstline : option bytes)
  : M (unit + option (bytes * bytes)) :=
  match last_auth_query auth with
  | None => mret (inr None)
  | Some query =>
      if strncaseeq 5 query (lit "Basic") then
        match login g, password g with
        | Some l, Some p => mret (inr ((fun s => (lit "Basic", s)) <$> basic_authentication_encode l p))
        | _, _ => fault
        end
      else if strncaseeq 6 query (lit "Digest") then
        match firstline with
        | None => mret (inr None)
        | Some firstline =>
            match method_and_uri firstline with
            | inl _ => fault
            | inr None => mret (inl tt)
            | inr (Some (method, uri)) =>
                r1 ← red_randui32;
                r2 ← red_randui32;
                match HttpConnect.digest_params query with
                | None => fault
                | Some line =>
                    mret (inr ((fun s => (lit "Digest", s)) <$>
                      digest_authentication_encode ctx line (login g) (password g) (Some method) (Some uri)
                        (last_auth_count auth) (fmt_08x r1 ++ fmt_08x r2)))
                end
            end
        end
      else mret (inr None)
  end.

Definition httpr_relay_write_cb (id : Z) : M unit :=
  st ← get_state id;
  assert (st >=? httpr_recv_request_headers) ;;
  redsocks_touch_client id ;;
  when (st =? httpr_recv_request_headers)
    (h ← get_httpr id;
     match hr_firstline h with
     | Some l => mod_buf id Relay (be_append l)
     | None => mret tt
     end ;;
     c ← get_client id;
     i ← get_instance (c_instance c);
     let auth := mk_http_auth (last_auth_query (i_auth i)) (i32 (last_auth_count (i_auth i) + 1)) in
     mod_instance (c_instance c) (i_set_auth auth) ;;
     a ← httpr_auth_string (i_config i) auth (hr_firstline h);
     match a with
     | inl _ => redsocks_drop_client id
     | inr a =>
         match a with
         | Some (scheme, s) =>
             mod_buf id Relay (be_append (auth_response_header ++ lit " " ++ scheme ++ lit " " ++ s ++ crlf))
         | None => mret tt
         end ;;
         match hb_buff (hr_client_buffer h) with
         | Some data => mod_buf id Relay (be_append data)
         | None => when (negb (hb_len (hr_client_buffer h) =? 0)) fault
         end ;;
         set_state id httpr_request_sent ;;
         mod_buf id Relay (be_setwatermark EV_READ 1 HTTP_HEAD_WM_HIGH) ;;
         bufferevent_enable id Relay EV_READ ;;
         mret tt
     end).

End write.

(** ** The request of the client *)

Definition httpr_append_header (id : Z) (line : bytes) : M unit :=
  append_client id line ;; append_client id crlf.

(** [snprintf] into the 22 bytes of the static buffer. *)
Definition fmt_http_host (addr : sockaddr_in) : bytes :=
  if be_value (sin_port addr) =? 80 then inet_ntoa (sin_addr addr)
  else take 21 (inet_ntoa (sin_addr addr) ++ lit ":" ++ fmt_u (be_value (sin_port addr))).

(** The first line with an absolute URI; [None] for a line without a space. *)
Definition tossed_firstline (host firstline : bytes) : option bytes :=
  match strchr 32 firstline with
  | Some (method, _ :: uri) => Some (method ++ [32] ++ lit "http://" ++ host ++ uri ++ crlf)
  | _ => None
  end.

Definition httpr_toss_http_firstline (id : Z) : M bool :=
  h ← get_httpr id;
  c ← get_client id;
  host ← (if hr_has_host h then match hr_host h with Some o => mret o | None => fault end
          else mret (fmt_http_host (c_destaddr c)));
  match hr_firstline h with
  | None => assert false ;; mret false
  | Some firstline =>
      match tossed_firstline host firstline with
      | Some l => mod_httpr id (h_set_firstline (Some l)) ;; mret true
      | None => mret false
      end
  end.

Definition post_buffer_len : nat := Z.to_nat (64 * 1024).

(** [evbuffer_remove] in pieces of 64 KiB; every turn takes a byte at least. *)
Fixpoint httpr_client_read_content (fuel : nat) (id : Z) : M unit :=
  match fuel with
  | O => mret tt
  | S fuel =>
      b ← get_buf id Client;
      let data := take post_buffer_len (be_input b) in
      if bool_decide (data = []) then mret tt else
      mod_buf id Client (be_set_input (drop post_buffer_len (be_input b))) ;;
      append_client id data ;;
      c ← get_client id;
      match c_relay c with
      | Some _ => when (c_state c >=? httpr_request_sent) (mod_buf id Relay (be_append data))
      | None => mret tt
      end ;;
      httpr_client_read_content fuel id
  end.

(** The last line of the request; [true] if the client is to be dropped. *)
Definition httpr_request_end (id : Z) : M bool :=
  h ← get_httpr id;
  drop ← match hr_firstline h with
         | None => mret true
         | Some _ => ok ← httpr_toss_http_firstline id; mret (negb ok)
         end;
  c ← get_client id;
  when (negb (hr_has_host h))
    (let host := lit "Host: " ++ fmt_http_host (c_destaddr c) in
     assert ((0 <? zlen host) && (zlen host <? 32)) ;;
     httpr_append_header id host) ;;
  httpr_append_header id (lit "Proxy-Connection: close") ;;
  httpr_append_header id (lit "Connection: close") ;;
  mret drop.

(** One header line; [line + 5] of a line of four characters is past its end. *)
Definition httpr_header_line (id : Z) (line : bytes) : M unit :=
  h ← get_httpr id;
  match hr_firstline h with
  | None => mod_httpr id (h_set_firstline (Some line))
  | Some _ =>
      if strncaseeq 4 line (lit "Host") then
        if zlen line <? 5 then fault else
        mod_httpr id (h_set_host (Some (skip isspace (drop 5 line))) true) ;;
        httpr_append_header id line
      else if strncaseeq 16 line (lit "Proxy-Connection") then mret tt
      else if strncaseeq 10 line (lit "Connection") then mret tt
      else httpr_append_header id line
  end.

(** The loop over request lines: [None] if the client was dropped, else whether the
    request is complete. Every turn takes a line from the input. *)
Fixpoint httpr_request_lines (fuel : nat) (id : Z) : M (option bool) :=
  match fuel with
  | O => mret (Some false)
  | S fuel =>
      b ← get_buf id Client;
      match readline (be_input b) with
      | None => mret (Some false)
      | Some (l, rest) =>
          let line := cstr l in
          mod_buf id Client (be_set_input rest) ;;
          if bool_decide (line = []) then
            drop ← httpr_request_end id;
            httpr_append_header id line ;;
            if drop : bool then redsocks_drop_client id ;; mret None else mret (Some true)
          else
            httpr_header_line id line ;;
            httpr_request_lines fuel id
      end
  end.

Definition httpr_client_read_cb (id : Z) : M unit :=
  redsocks_touch_client id ;;
  c ← get_client id;
  b ← get_buf id Client;
  if c_state c >=? httpr_recv_request_headers then
    httpr_client_read_content (length (be_input b)) id
  else
    r ← httpr_request_lines (length (be_input b)) id;
    match r with
    | Some true =>
        set_state id httpr_recv_request_headers ;;
        b ← get_buf id Client;
        httpr_client_read_content (length (be_input b)) id ;;
        redsocks_connect_relay id
    | _ => mret tt
    end.

Definition httpr_connect_relay (id : Z) : M unit :=
  b ← get_buf id Client;
  mod_buf id Client (be_set_cbs cb_httpr_client_read (be_writecb b)) ;;
  ok ← bufferevent_enable id Client EV_READ;
  if ok : bool then mret tt else redsocks_drop_client id.

End relay.

(** ** What a request becomes *)

(** Headers that describe the connection to redsocks, not the request. *)
Definition hop_by_hop (l : bytes) : bool :=
  negb (strncaseeq 4 l (lit "Host")) &&
  (strncaseeq 16 l (lit "Proxy-Connection") || strncaseeq 10 l (lit "Connection")).

(** The value of the last [Host] header. *)
Definition host_value (l : bytes) : bytes := skip isspace (drop 5 l).
Fixpoint host_of (h : option bytes) (ls : list bytes) : option bytes :=
  match ls with
  | [] => h
  | l :: ls => host_of (if strncaseeq 4 l (lit "Host") then Some (host_value l) else h) ls
  end.

Definition kept (ls : list bytes) : list bytes := filter (fun l => hop_by_hop l = false) ls.

(** The header lines the proxy gets. *)
Definition rewritten (dest : sockaddr_in) (ls : list bytes) : list bytes :=
  kept ls ++ (match host_of None ls with None => [lit "Host: " ++ fmt_http_host dest] | Some _ => [] end) ++
  [lit "Proxy-Connection: close"; lit "Connection: close"; []].

(** A line of a request as the loop sees it. *)
Definition request_line (l : bytes) : Prop :=
  l <> [] /\ cstr l = l /\ (10 ∉ l) /\ (strncaseeq 4 l (lit "Host") = true -> 5 <= zlen l).

Local Abbreviation lines := HttpConnect.crlf_lines.

Lemma lines_cons l ls : lines (l :: ls) = l ++ crlf ++ lines ls.
Proof. unfold HttpConnect.crlf_lines. cbn. by rewrite <-app_assoc. Qed.
Lemma lines_app ls ks : lines (ls ++ ks) = lines ls ++ lines ks.
Proof. unfold HttpConnect.crlf_lines. by rewrite fmap_app, concat_app. Qed.
Lemma lines_snoc ls l : lines (ls ++ [l]) = lines ls ++ l ++ crlf.
Proof. rewrite lines_app, lines_cons. by rewrite app_nil_r. Qed.

(** *** The loop on a client with input [i] and payload [h] *)

Section request.
Context (id : Z) (c : redsocks_client) (b : bufferevent).
Existing Instance crlf_reader.

Definition st (i : bytes) (h : httpr_client) : redsocks_client :=
  c_set_payload (httpr_payload h) (c_set_buf Client (Some (be_set_input i b)) c).
Definition req (i : bytes) (h : httpr_client) (w : world) : Prop := w_clients w !! id = Some (st i h).

Lemma req_httpr i h Q w : req i h w -> Q h w -> wp (get_httpr id) Q w.
Proof. intros H HQ. apply wp_bind. by eapply wp_get_client. Qed.
Lemma req_mod i h f Q w : req i h w -> (forall w, req i (f h) w -> Q tt w) -> wp (mod_httpr id f) Q w.
Proof.
  intros H HQ. apply wp_bind. eapply req_httpr; [done|]. eapply wp_mod_client; [done|]. apply HQ.
  unfold req. cbn. by rewrite lookup_insert_eq.
Qed.
Lemma req_buf i h Q w : req i h w -> Q (be_set_input i b) w -> wp (get_buf id Client) Q w.
Proof. intros H HQ. by eapply wp_get_buf. Qed.
Lemma req_set_input i i' h Q w :
  req i h w -> (forall w, req i' h w -> Q tt w) -> wp (mod_buf id Client (be_set_input i')) Q w.
Proof. intros H HQ. eapply wp_mod_buf; [done..|]. apply HQ. unfold req. cbn. by rewrite lookup_insert_eq. Qed.

Lemma req_append i h old data Q w :
  req i h w -> holds (hr_client_buffer h) old -> zlen old + zlen data + 1 <= 2 ^ 30 ->
  (forall b' w, holds b' (old ++ data) -> req i (h_set_client_buffer b' h) w -> Q tt w) ->
  wp (append_client id data) Q w.
Proof.
  intros H Hh Hlen HQ. destruct (append_holds _ _ data Hh Hlen) as (b' & E & Hb').
  apply wp_bind. eapply req_httpr; [done|]. rewrite E. eapply req_mod; [done|]. eauto.
Qed.

Lemma req_header i h ls l Q w :
  req i h w -> holds (hr_client_buffer h) (lines ls) -> zlen (lines (ls ++ [l])) + 1 <= 2 ^ 30 ->
  (forall b' w, holds b' (lines (ls ++ [l])) -> req i (h_set_client_buffer b' h) w -> Q tt w) ->
  wp (httpr_append_header id l) Q w.
Proof.
  intros H Hh Hlen HQ. rewrite lines_snoc in *. rewrite !zlen_app in Hlen. pose proof (zlen_nonneg crlf).
  apply wp_bind. eapply req_append; [done..|lia|]. clear w H Hh. intros b1 w Hh H.
  eapply req_append; [done|exact Hh|rewrite zlen_app; lia|]. intros b2 w2 Hh2 H2. eapply HQ; [|exact H2].
  by rewrite <-app_assoc in Hh2.
Qed.

(** The payload after the headers [ls], with [kept] headers in the buffer. *)
Definition read_upto (fl : bytes) (ls : list bytes) (h : httpr_client) : Prop :=
  hr_firstline h = Some fl /\ hr_host h = host_of None ls /\ hr_has_host h = bool_decide (is_Some (host_of None ls)) /\
  holds (hr_client_buffer h) (lines (kept ls)).

Lemma host_of_snoc o ls l :
  host_of o (ls ++ [l]) = if strncaseeq 4 l (lit "Host") then Some (host_value l) else host_of o ls.
Proof. revert o. induction ls as [|x ls IH]; intros o; [done|]. cbn. apply IH. Qed.
Lemma kept_snoc ls l : kept (ls ++ [l]) = kept ls ++ (if hop_by_hop l then [] else [l]).
Proof. unfold kept. rewrite filter_app. f_equal. rewrite filter_cons. by destruct (hop_by_hop l). Qed.

Lemma lines_kept ls : zlen (lines (kept ls)) <= zlen (lines ls).
Proof.
  induction ls as [|l ls IH]; [done|]. unfold kept in *. rewrite filter_cons, lines_cons, !zlen_app.
  pose proof (zlen_nonneg l). pose proof (zlen_nonneg crlf). case_decide; [rewrite lines_cons, !zlen_app|]; lia.
Qed.

Lemma header_line_run i h fl ls l Q w :
  req i h w -> read_upto fl ls h -> request_line l -> zlen (lines (ls ++ [l])) + 1 <= 2 ^ 30 ->
  (forall h' w, read_upto fl (ls ++ [l]) h' -> req i h' w -> Q tt w) -> wp (httpr_header_line id l) Q w.
Proof.
  intros H (Hf & Ho & Hb & Hh) (_ & _ & _ & Hl5) Hlen HQ.
  assert (Hlen' : zlen (lines (kept ls ++ [l])) + 1 <= 2 ^ 30).
  { pose proof (lines_kept ls). rewrite lines_snoc in *. rewrite zlen_app in *. lia. }
  apply wp_bind. eapply req_httpr; [done|]. rewrite Hf. unfold read_upto in HQ.
  rewrite host_of_snoc, kept_snoc in HQ. unfold hop_by_hop in HQ.
  destruct (strncaseeq 4 l (lit "Host")) eqn:E4; cbn [negb andb] in HQ.
  - destruct (Z.ltb_spec (zlen l) 5) as [Hlt|_]; [specialize (Hl5 eq_refl); lia|].
    apply wp_bind. eapply req_mod; [done|]. clear w H. intros w H.
    eapply req_header; [done|exact Hh|done|]. intros b' w' Hb' H'. eapply HQ; [|done]. done.
  - destruct (strncaseeq 16 l (lit "Proxy-Connection")); cbn [orb] in HQ.
    { apply wp_ret. eapply HQ; [|done]. by rewrite app_nil_r. }
    destruct (strncaseeq 10 l (lit "Connection")).
    { apply wp_ret. eapply HQ; [|done]. by rewrite app_nil_r. }
    eapply req_header; [done|exact Hh|done|]. intros b' w' Hb' H'. eapply HQ; [|done]. done.
Qed.

(** The two header lines that close a request, and the empty line. *)
Lemma closing_run i h ls Q w :
  req i h w -> holds (hr_client_buffer h) (lines ls) ->
  zlen (lines (ls ++ [lit "Proxy-Connection: close"; lit "Connection: close"; []])) + 1 <= 2 ^ 30 ->
  (forall b' w, holds b' (lines (ls ++ [lit "Proxy-Connection: close"; lit "Connection: close"; []])) ->
     req i (h_set_client_buffer b' h) w -> Q tt w) ->
  wp (httpr_append_header id (lit "Proxy-Connection: close") ;; httpr_append_header id (lit "Connection: close") ;;
      httpr_append_header id []) Q w.
Proof.
  intros H Hh Hlen HQ. set (p1 := lit "Proxy-Connection: close") in *. set (p2 := lit "Connection: close") in *.
  assert (E : ls ++ [p1; p2; []] = ((ls ++ [p1]) ++ [p2]) ++ [[]]) by (by rewrite <-!app_assoc).
  assert (Hle : zlen (lines ((ls ++ [p1]) ++ [p2])) + 1 <= 2 ^ 30 /\ zlen (lines (ls ++ [p1])) + 1 <= 2 ^ 30).
  { rewrite E, lines_snoc, zlen_app in Hlen. pose proof (zlen_nonneg ([] ++ crlf)).
    split; [lia|]. rewrite lines_snoc, zlen_app in Hlen. pose proof (zlen_nonneg (p2 ++ crlf)). lia. }
  destruct Hle as [L2 L1]. rewrite E in *.
  apply wp_bind. eapply req_header; [done|exact Hh|exact L1|]. clear w H. intros b1 w H1 H.
  apply wp_bind. eapply req_header; [done|exact H1|exact L2|]. clear w H. intros b2 w H2 H.
  eapply req_header; [done|exact H2|exact Hlen|]. intros b3 w3 H3 H'. eapply HQ; [exact H3|exact H'].
Qed.

Lemma toss_run i h fl host l' Q w :
  req i h w -> hr_firstline h = Some fl ->
  (if hr_has_host h then hr_host h = Some host else host = fmt_http_host (c_destaddr c)) ->
  tossed_firstline host fl = Some l' -> (forall w, req i (h_set_firstline (Some l') h) w -> Q true w) ->
  wp (httpr_toss_http_firstline id) Q w.
Proof.
  intros H Hf Hhost Ht HQ. apply wp_bind. eapply req_httpr; [done|]. apply wp_bind. eapply wp_get_client; [done|].
  apply wp_bind. apply (wp_mono _ (fun o w' => o = host /\ w' = w)).
  { destruct (hr_has_host h); [rewrite Hhost|]; apply wp_ret; [done|]. split; [|done]. by rewrite Hhost. }
  intros _ _ [-> ->]. rewrite Hf, Ht. apply wp_bind. eapply req_mod; [done|]. intros w' H'. by apply wp_ret, HQ.
Qed.

(** The end of a request. *)
Definition rewritten_to (l' : bytes) (ls : list bytes) (h : httpr_client) : Prop :=
  hr_firstline h = Some l' /\ holds (hr_client_buffer h) (lines (rewritten (c_destaddr c) ls)).

Lemma request_end_run i h fl ls l' Q w :
  req i h w -> read_upto fl ls h ->
  tossed_firstline (default (fmt_http_host (c_destaddr c)) (host_of None ls)) fl = Some l' ->
  zlen (lines (rewritten (c_destaddr c) ls)) + 1 <= 2 ^ 30 -> zlen (fmt_http_host (c_destaddr c)) < 26 ->
  (forall h' w, rewritten_to l' ls h' -> req i h' w -> Q false w) ->
  wp (drop ← httpr_request_end id; httpr_append_header id [] ;; mret drop) Q w.
Proof.
  intros H (Hf & Ho & Hb & Hh) Ht Hlen H26 HQ. apply wp_bind, wp_bind. eapply req_httpr; [done|].
  rewrite Hf. apply wp_bind. eapply wp_bind, toss_run; [done|done| |done|].
  { rewrite Ho, Hb. by destruct (host_of None ls). }
  clear w H. intros w H. apply wp_ret. cbn [negb]. apply wp_bind. eapply wp_get_client; [done|].
  unfold rewritten in *. set (tail := [lit "Proxy-Connection: close"; lit "Connection: close"; []]) in *.
  set (h1 := h_set_firstline (Some l') h) in *. assert (Hh1 : holds (hr_client_buffer h1) (lines (kept ls))) by done.
  assert (Hf1 : hr_firstline h1 = Some l') by done. rewrite Hb. clearbody h1. clear h Hf Ho Hb Hh.
  assert (Hrest : forall ks h w, req i h w -> holds (hr_client_buffer h) (lines ks) -> hr_firstline h = Some l' ->
    lines (ks ++ tail) = lines (rewritten (c_destaddr c) ls) ->
    wp (httpr_append_header id (lit "Proxy-Connection: close") ;;
        httpr_append_header id (lit "Connection: close") ;; mret false)
      (fun a => wp (httpr_append_header id [] ;; mret a) Q) w).
  { clear w H h1 Hh1 Hf1. intros ks h w H Hh Hf E. unfold rewritten in E. fold tail in E.
    pose proof (closing_run i h ks (fun _ => Q false) w H Hh) as Hc. fold tail in Hc. rewrite E in Hc.
    specialize (Hc Hlen). unfold wp, mbind, M_bind in *.
    assert (HQ' : forall b' w, holds b' (lines (rewritten (c_destaddr c) ls)) ->
      req i (h_set_client_buffer b' h) w -> Q false w).
    { intros b' w' Hb' H'. eapply HQ; [|exact H']. by split. }
    specialize (Hc HQ'). destruct (httpr_append_header id (lit "Proxy-Connection: close") w) as [? w1| |]; [|done..].
    destruct (httpr_append_header id (lit "Connection: close") w1) as [? w2| |]; [|done..]. cbn in *.
    by destruct (httpr_append_header id [] w2). }
  apply wp_bind. destruct (host_of None ls) as [o|] eqn:Eh; cbn [app] in *.
  - rewrite bool_decide_eq_true_2 by done. apply wp_ret. eapply Hrest; [done|done|done|].
    unfold rewritten. by rewrite Eh.
  - rewrite bool_decide_eq_false_2 by (by intros [? ?]). cbn [negb when].
    set (hl := lit "Host: " ++ fmt_http_host (c_destaddr c)) in *.
    change (c_destaddr (st i h1)) with (c_destaddr c). fold hl.
    assert (Hhl : 0 < zlen hl < 32).
    { unfold hl. rewrite zlen_app. change (zlen (lit "Host: ")) with 6. pose proof (zlen_nonneg (fmt_http_host (c_destaddr c))). lia. }
    apply wp_bind, wp_assert; [lia|]. eapply req_header; [done|exact Hh1| |].
    { change (hl :: tail) with ([hl] ++ tail) in Hlen. rewrite app_assoc, lines_app, zlen_app in Hlen.
      pose proof (zlen_nonneg (lines tail)). lia. }
    clear w H. intros b' w Hb' H. eapply Hrest; [done|done|done|].
    unfold rewritten. rewrite Eh. fold hl. by rewrite <-app_assoc.
Qed.

Lemma end_of_lines (m : M bool) (a : M unit) (x : M (option bool)) (P : world -> Prop) w :
  wp (drop ← m; a ;; mret drop) (fun d w => d = false /\ P w) w ->
  wp (drop ← m; a ;; if drop : bool then x else mret (Some true)) (fun r w => r = Some true /\ P w) w.
Proof.
  unfold wp, mbind, M_bind. destruct (m w) as [d w1| |]; [|done..]. destruct (a w1) as [[] w2| |]; [|done..].
  cbn. by intros [-> ?].
Qed.

(** The loop over the header lines. *)
Lemma request_lines_run fuel h fl done ls l' rest w :
  req (lines ls ++ crlf ++ rest) h w -> read_upto fl done h -> Forall request_line ls ->
  (length ls < fuel)%nat -> zlen (lines (done ++ ls)) + 1 <= 2 ^ 30 ->
  zlen (lines (rewritten (c_destaddr c) (done ++ ls))) + 1 <= 2 ^ 30 -> zlen (fmt_http_host (c_destaddr c)) < 26 ->
  tossed_firstline (default (fmt_http_host (c_destaddr c)) (host_of None (done ++ ls))) fl = Some l' ->
  wp (httpr_request_lines (LR := crlf_reader) fuel id)
    (fun r w => r = Some true /\ exists h', rewritten_to l' (done ++ ls) h' /\ req rest h' w) w.
Proof.
  revert h done ls w. induction fuel as [|fuel IH]; intros h done ls w H Hr Hls Hfuel L1 L2 L3 Ht; [lia|].
  cbn [httpr_request_lines]. apply wp_bind. eapply req_buf; [done|]. cbn [be_set_input be_input].
  destruct ls as [|l ls].
  - change (readline (lines [] ++ crlf ++ rest)) with (evbuffer_readln ([] ++ [13; 10] ++ rest) EVBUFFER_EOL_CRLF).
    rewrite readln_crlf_line by apply not_elem_of_nil. cbv zeta. cbn [cstr].
    apply wp_bind. eapply req_set_input; [done|]. clear w H. intros w H. rewrite bool_decide_eq_true_2 by done.
    rewrite app_nil_r in *. apply end_of_lines. eapply request_end_run; [done|done|done|done|done|].
    intros h' w' Hh' H'. split; [done|]. by exists h'.
  - apply Forall_cons in Hls as [Hl Hls]. pose proof Hl as (Hne & Hc & Hlf & _).
    rewrite lines_cons, <-!app_assoc in H |- *.
    change (readline (l ++ crlf ++ lines ls ++ crlf ++ rest)) with
      (evbuffer_readln (l ++ [13; 10] ++ (lines ls ++ crlf ++ rest)) EVBUFFER_EOL_CRLF).
    rewrite readln_crlf_line by done. cbv zeta. rewrite Hc.
    apply wp_bind. eapply req_set_input; [done|]. clear w H. intros w H. rewrite bool_decide_eq_false_2 by done.
    assert (E : done ++ l :: ls = (done ++ [l]) ++ ls) by (by rewrite <-app_assoc). rewrite E in *.
    apply wp_bind. eapply header_line_run; [done|done|done| |].
    { rewrite lines_app, zlen_app in L1. pose proof (zlen_nonneg (lines ls)). lia. }
    clear w H Hr. intros h' w Hr H. cbn [length] in Hfuel.
    eapply IH; [exact H|exact Hr|done|lia|done..].
Qed.

End request.

Lemma length_lines ls : (length ls <= length (lines ls))%nat.
Proof. induction ls as [|l ls IH]; [done|]. rewrite lines_cons, !length_app. cbn. lia. Qed.

(** With a reader of CRLF lines, a complete request is rewritten for the proxy: the
    first line gets an absolute URI with the last Host given, or the address the client
    wanted; hop-by-hop headers go, all others stay in order, and a Host is added if
    there was none; the body stays in the input. *)
Theorem httpr_request_rewritten id c b fl ls l' rest w :
  w_clients w !! id = Some c -> c_client c = Some b -> c_payload c = httpr_payload httpr_client_init ->
  be_input b = lines (fl :: ls) ++ crlf ++ rest -> request_line fl -> Forall request_line ls ->
  zlen (lines ls) + 1 <= 2 ^ 30 -> zlen (lines (rewritten (c_destaddr c) ls)) + 1 <= 2 ^ 30 ->
  zlen (fmt_http_host (c_destaddr c)) < 26 ->
  tossed_firstline (default (fmt_http_host (c_destaddr c)) (host_of None ls)) fl = Some l' ->
  wp (httpr_request_lines (LR := crlf_reader) (length (be_input b)) id) (fun r w => r = Some true /\
    exists h, hr_firstline h = Some l' /\ holds (hr_client_buffer h) (lines (rewritten (c_destaddr c) ls)) /\
      w_clients w !! id = Some (c_set_payload (httpr_payload h) (c_set_buf Client (Some (be_set_input rest b)) c))) w.
Proof.
  intros Hc Hb Hp Hin (Hne & Hcs & Hlf & _) Hls L1 L2 L3 Ht.
  assert (H : req id c b (lines (fl :: ls) ++ crlf ++ rest) httpr_client_init w).
  { unfold req, st. rewrite <-Hin, Hc, <-Hp. f_equal. destruct c, b; cbn in *; by subst. }
  pose proof (length_lines ls) as Hlen. rewrite Hin. rewrite lines_cons, <-!app_assoc in H |- *.
  rewrite !length_app. destruct (length fl + _)%nat as [|fuel] eqn:Hfuel; [cbn in Hfuel; lia|].
  cbn [httpr_request_lines]. apply wp_bind. eapply req_buf; [done|]. cbn [be_set_input be_input].
  change (readline (fl ++ crlf ++ lines ls ++ crlf ++ rest)) with
    (evbuffer_readln (fl ++ [13; 10] ++ (lines ls ++ crlf ++ rest)) EVBUFFER_EOL_CRLF).
  rewrite readln_crlf_line by done. cbv zeta. rewrite Hcs.
  apply wp_bind. eapply req_set_input; [done|]. clear w H Hc. intros w H. rewrite bool_decide_eq_false_2 by done.
  apply wp_bind, wp_bind. eapply req_httpr; [done|]. cbn [httpr_client_init hr_firstline].
  eapply req_mod; [done|]. clear w H. intros w H.
  eapply wp_mono; [eapply (request_lines_run id c b fuel _ fl [] ls l' rest)|].
  - exact H.
  - split_and!; [done..|]. apply init_holds.
  - done.
  - cbn in Hfuel. lia.
  - done.
  - done.
  - done.
  - exact Ht.
  - intros r w' [-> (h' & [? ?] & ?)]. split; [done|]. by exists h'.
Qed.

(** The method and the path that the digest signs are those of the client's request,
    when they are read back from the first line rewritten for the proxy. *)
Theorem httpr_signs_request host method path version :
  (32 ∉ method) -> (47 ∉ method) -> (47 ∉ host) -> (32 ∉ path) ->
  exists l, tossed_firstline host (method ++ [32] ++ (47 :: path) ++ [32] ++ version) = Some l /\
    method_and_uri l = inr (Some (method, 47 :: path)).
Proof.
  intros Hm Hm' Hh Hp. set (k := (47 :: path) ++ [32] ++ version).
  assert (E : strchr 32 (method ++ [32] ++ k) = Some (method, 32 :: k)) by by apply strchr_app.
  unfold tossed_firstline. rewrite E. eexists. split; [reflexivity|]. set (m := method ++ [32] ++ lit "http:").
  set (r := host ++ k ++ crlf).
  assert (E1 : strchr 32 (method ++ [32] ++ lit "http://" ++ r) = Some (method, 32 :: lit "http://" ++ r))
    by by apply strchr_app.
  assert (E2 : strchr 47 (method ++ [32] ++ lit "http://" ++ r) = Some (m, 47 :: 47 :: r)).
  { replace (method ++ [32] ++ lit "http://" ++ r) with (m ++ 47 :: 47 :: r) by (unfold m; by rewrite <-!app_assoc).
    apply strchr_app. unfold m. rewrite not_elem_of_app. split; [done|]. by apply (bool_decide_unpack _). }
  assert (E3 : strchr 47 r = Some (host, k ++ crlf)) by by apply (strchr_app 47 host).
  assert (E4 : strchr 32 (k ++ crlf) = Some (47 :: path, 32 :: version ++ crlf)).
  { unfold k. rewrite <-!app_assoc. apply (strchr_app 32 (47 :: path)). by apply not_elem_of_cons. }
  unfold method_and_uri. by rewrite E1, E2, E3, E4.
Qed.

(** ** Runs *)

Definition ex_config : redsocks_config :=
  mk_config (mk_sockaddr [127; 0; 0; 1] [4; 210]) (mk_sockaddr [10; 0; 0; 1] [4; 56])
    (Some (lit "http-relay")) (Some (lit "user")) (Some (lit "secret")) 128 false DISCLOSE_NONE ONFAIL_CLOSE.
(** A client with [ci] and [ri] in its input buffers. *)
Definition ex_client (state : Z) (ci ri : bytes) : redsocks_client :=
  mk_client 0 (Some (be_set_input ci (be_enable EV_READ (bufferevent_new 4 cb_httpr_client_read cb_none))))
    (Some (be_set_input ri (be_enable EV_READ (bufferevent_new 5 cb_subsys_read cb_subsys_write))))
    (mk_sockaddr [192; 168; 0; 2] [200; 0]) (mk_sockaddr [93; 184; 216; 34] [0; 80]) state
    0 0 0 0 new_pump (httpr_payload httpr_client_init).
Definition ex_world (c : redsocks_client) : world := one_client ex_config http_relay_subsys c.

Definition ex_headers : list bytes := [lit "Accept: */*"; lit "Connection: keep-alive"; lit "Host: example.com"].
Definition ex_request : bytes := lines (lit "GET /index HTTP/1.1" :: ex_headers) ++ crlf ++ lit "body".

Lemma httpr_request_witness :
  let c := ex_client httpr_new ex_request [] in
  wp (httpr_request_lines (LR := crlf_reader) (length ex_request) 1) (fun r w => r = Some true /\
    exists h, hr_firstline h = Some (lit "GET http://example.com/index HTTP/1.1" ++ crlf) /\
      holds (hr_client_buffer h) (lines [lit "Accept: */*"; lit "Host: example.com"; lit "Proxy-Connection: close";
        lit "Connection: close"; []]) /\
      w_clients w !! 1 = Some (c_set_payload (httpr_payload h)
        (c_set_buf Client (Some (be_set_input (lit "body") (be_enable EV_READ
           (bufferevent_new 4 cb_httpr_client_read cb_none)))) c))) (ex_world c).
Proof.
  intros c.
  apply (httpr_request_rewritten 1 c (be_set_input ex_request (be_enable EV_READ (bufferevent_new 4 cb_httpr_client_read cb_none)))
    (lit "GET /index HTTP/1.1") ex_headers (lit "GET http://example.com/index HTTP/1.1" ++ crlf) (lit "body") (ex_world c));
    try (vm_compute; reflexivity).
  - split_and!; [done|done|by apply (bool_decide_unpack _)|done].
  - repeat constructor; (by apply (bool_decide_unpack _)) || done.
  - vm_compute. discriminate.
  - vm_compute. discriminate.
Defined.

Lemma httpr_signs_witness :
  exists l, tossed_firstline (lit "example.com") (lit "GET /index HTTP/1.1") = Some l /\
    method_and_uri l = inr (Some (lit "GET", lit "/index")).
Proof.
  apply (httpr_signs_request (lit "example.com") (lit "GET") (lit "index") (lit "HTTP/1.1"));
    by apply (bool_decide_unpack _).
Defined.

(** A 407 reply without a Proxy-Authenticate header is fatal: the status line is freed,
    then logged and freed again. *)
Theorem httpr_missing_challenge_faults :
  httpr_relay_read_cb 1 (ex_world (ex_client httpr_request_sent [] (lit "HTTP/1.0 407 Denied" ++ crlf ++ crlf))) = Fault.
Proof. vm_compute. reflexivity. Qed.

(** A header line of just the four letters of Host is fatal: its value is looked for
    behind the end of the line. *)
Theorem httpr_bare_host_faults :
  httpr_client_read_cb 1 (ex_world (ex_client httpr_new (lines [lit "GET / HTTP/1.1"; lit "Host"]) [])) = Fault.
Proof. vm_compute. reflexivity. Qed.

(** When the reply of the proxy comes in two pieces, what was copied of the first is
    thrown away: the client gets the headers of the second piece only, without a
    status line. *)
Theorem httpr_split_reply_loses_headers :
  exists w1 w2 c, httpr_relay_read_cb (LR := crlf_reader) 1 (ex_world (ex_client httpr_request_sent []
      (lines [lit "HTTP/1.0 200 OK"; lit "Server: a"]))) = Ok tt w1 /\
    (mod_buf 1 Relay (be_set_input (lines [lit "Age: 1"; []])) ;; httpr_relay_read_cb (LR := crlf_reader) 1) w1 = Ok tt w2 /\
    w_clients w2 !! 1 = Some c /\ be_output <$> c_client c = Some (lines [lit "Age: 1"; []]).
Proof. eexists _, _, _. split; [vm_compute; reflexivity|]. split; [vm_compute; reflexivity|]. split; reflexivity. Qed.

End HttpRelay.
