(* ===== verification/Accept.v ===== *)
(** * Accepting clients and running callbacks: redsocks.c and libevent

    [redsocks_accept_client] and [redsocks_relay_connected], the dispatch of the
    callbacks of the relay subsystems, and one turn of the event loop: what
    libevent's bufferevents, the listener and the back-off timer can make the
    process do. *)

From S2P Require Import Prelude CLib MD5 EvBuffer HttpAuth World HttprBuffer Redsocks Ownership ClientLogic Flow.
From S2P Require Import Splice Socks5 Socks4 HttpConnect HttpRelay.
Import EvBuffer Redsocks Ownership Flow Splice.
Open Scope Z_scope.

Module Accept.

Section loop.
(** The MD5 context digests start from, and the line reader of the build. *)
Context (ctx : MD5.md5_state) {LR : LineReader}.

(** ** The subsystems *)

Definition relay_ss_init (ss : relay_subsys) (g : redsocks_config) (c : redsocks_client) : redsocks_client :=
  match ss with
  | http_connect_subsys => HttpConnect.httpc_client_init c
  | http_relay_subsys => HttpRelay.httpr_client_init_cb c
  | socks4_subsys => Socks4.socks4_client_init c
  | socks5_subsys => Socks5.socks5_client_init g c
  end.

Definition relay_ss_readcb (ss : relay_subsys) (id : Z) : M unit :=
  match ss with
  | http_connect_subsys => HttpConnect.httpc_read_cb id
  | http_relay_subsys => HttpRelay.httpr_relay_read_cb id
  | socks4_subsys => Socks4.socks4_read_cb id
  | socks5_subsys => Socks5.socks5_read_cb id
  end.

Definition relay_ss_writecb (ss : relay_subsys) (id : Z) : M unit :=
  match ss with
  | http_connect_subsys => HttpConnect.httpc_write_cb ctx id
  | http_relay_subsys => HttpRelay.httpr_relay_write_cb ctx id
  | socks4_subsys => Socks4.socks4_write_cb id
  | socks5_subsys => Socks5.socks5_write_cb id
  end.

(** [connect_relay] of the subsystem, or [redsocks_connect_relay] where it has none. *)
Definition relay_ss_connect_relay (ss : relay_subsys) (id : Z) : M unit :=
  match ss with
  | http_relay_subsys => HttpRelay.httpr_connect_relay id
  | _ => redsocks_connect_relay id
  end.

Definition redsocks_relay_connected (id : Z) : M unit :=
  redsocks_touch_client id ;;
  ok ← red_is_socket_connected_ok;
  if negb ok then redsocks_drop_client id else
  c ← get_client id;
  i ← get_instance (c_instance c);
  mod_buf id Relay (be_set_cbs cb_subsys_read cb_subsys_write) ;;
  relay_ss_writecb (i_relay_ss i) id.

(** ** Accepting *)

(** Errors of [accept] that mean a lack of descriptors or memory. *)
Definition is_pressure (e : Z) : bool :=
  (e =? ENFILE) || (e =? EMFILE) || (e =? ENOBUFS) || (e =? ENOMEM).

(** [calloc] and the fields set before the client is listed. *)
Definition new_client (n : nat) (clientaddr destaddr : sockaddr_in) : redsocks_client :=
  mk_client n None None clientaddr destaddr 0 0 0 0 0 new_pump no_payload.

Definition alloc_client (c : redsocks_client) : M Z := fun w =>
  Ok (w_next_client w) (w_set_next_client (w_next_client w + 1)
    (w_set_clients (<[w_next_client w := c]> (w_clients w)) w)).

(** The client has its memory: the rest of [redsocks_accept_client]. *)
Definition accept_allocated (n : nat) (id fd : Z) : M unit :=
  i ← get_instance n;
  mod_client id (relay_ss_init (i_relay_ss i) (i_config i)) ;;
  t ← gettimeofday;
  ok ← try_call;
  if negb ok then redsocks_drop_client id ;; redsocks_close fd else
  mod_client id (c_set_first t) ;;
  redsocks_touch_client id ;;
  ok ← try_call;
  if negb ok then redsocks_drop_client id ;; redsocks_close fd else
  mod_client id (c_set_buf Client (Some (bufferevent_new fd cb_none cb_none))) ;;
  redsocks_conn_list_add n id ;;
  ok ← bufferevent_enable id Client EV_READ;
  if negb ok then redsocks_drop_client id else
  relay_ss_connect_relay (i_relay_ss i) id.

(** The addresses are what the kernel reports for the accepted socket. *)
Definition redsocks_accept_client (n : nat) (clientaddr destaddr : sockaddr_in) : M unit :=
  w ← get;
  assert (redsocks_conn w <? redsocks_conn_max (w_base w)) ;;
  r ← open_fd;
  match r with
  | inr e => when (is_pressure e) conn_pressure
  | inl fd =>
      modify (fun w => w_set_backoff 0 (accept_backoff_ev w) w) ;;
      ok ← try_call;                                   (* getsockname *)
      if negb ok then redsocks_close fd else
      ok ← try_call;                                   (* getdestaddr *)
      if negb ok then redsocks_close fd else
      ok ← fcntl_nonblock;
      if negb ok then redsocks_close fd else
      ok ← apply_tcp_keepalive;
      if negb ok then redsocks_close fd else
      ok ← try_call;                                   (* calloc *)
      if negb ok then redsocks_close fd else
      id ← alloc_client (new_client n clientaddr destaddr);
      accept_allocated n id fd
  end.

(** ** Callbacks of a buffer *)

Definition run_callback (cb : callback) (id : Z) (s : side) : M unit :=
  match cb with
  | cb_none => mret tt
  | cb_relay_connected => redsocks_relay_connected id
  | cb_subsys_read => c ← get_client id; i ← get_instance (c_instance c); relay_ss_readcb (i_relay_ss i) id
  | cb_subsys_write => c ← get_client id; i ← get_instance (c_instance c); relay_ss_writecb (i_relay_ss i) id
  | cb_pump_read => pump_readcb id s
  | cb_pump_write => pump_writecb id s
  | cb_httpr_client_read => HttpRelay.httpr_client_read_cb id
  end.

(** [bufferevent_readcb] when [evbuffer_read] yields data. *)
Definition bev_readable (id : Z) (s : side) (data : bytes) : M unit :=
  mod_buf id s (fun b => be_set_input (be_input b ++ data) b) ;;
  b ← get_buf id s;
  when (wm_read_low b <=? zlen (be_input b)) (run_callback (be_readcb b) id s).

(** The same at the end of input, or on an error. *)
Definition bev_read_failed (id : Z) (s : side) (what : Z) : M unit :=
  mod_buf id s (be_disable EV_READ) ;;
  redsocks_event_error id s (Z.lor BEV_READING what).

(** [bufferevent_writecb] when the socket takes [n] bytes of the output. *)
Definition bev_writable (id : Z) (s : side) (n : nat) : M unit :=
  mod_buf id s (fun b => let o := drop n (be_output b) in
    be_set_output o (be_wpending b && negb (bool_decide (o = []))) b) ;;
  b ← get_buf id s;
  when (zlen (be_output b) <=? wm_write_low b) (run_callback (be_writecb b) id s).

Definition bev_write_failed (id : Z) (s : side) (what : Z) : M unit :=
  mod_buf id s (be_disable EV_WRITE) ;;
  redsocks_event_error id s (Z.lor BEV_WRITING what).

(** ** One turn of the event loop *)

Inductive input_event :=
| ev_accept (n : nat) (clientaddr destaddr : sockaddr_in)
| ev_backoff
| ev_readable (id : Z) (s : side) (data : bytes)
| ev_read_failed (id : Z) (s : side) (what : Z)
| ev_writable (id : Z) (s : side) (n : nat)
| ev_write_failed (id : Z) (s : side) (what : Z)
| ev_splice_read (id : Z) (s : side) (got : spliced)
| ev_splice_write (id : Z) (s : side) (r0 r1 r2 : written).

Definition handle (e : input_event) : M unit :=
  match e with
  | ev_accept n ca da => redsocks_accept_client n ca da
  | ev_backoff => redsocks_accept_backoff
  | ev_readable id s data => bev_readable id s data
  | ev_read_failed id s what => bev_read_failed id s what
  | ev_writable id s n => bev_writable id s n
  | ev_write_failed id s what => bev_write_failed id s what
  | ev_splice_read id s got => redsplice_read id s got
  | ev_splice_write id s r0 r1 r2 => redsplice_write id s r0 r1 r2
  end.

Definition room (b : bufferevent) : Z :=
  if wm_read_high b =? 0 then 4096 else Z.min 4096 (wm_read_high b - zlen (be_input b)).

(** An event of the splice pump is called when it is in the loop and its socket is ready,
    or when it was made active. *)
Definition called (k : pump_event) (c : redsocks_client) : Prop :=
  e_pending (p_event k (c_pump c)) || e_active (p_event k (c_pump c)) = true.

(** A pipe holds what [fs.pipe-max-size] allows at most. *)
Definition pipe_capacity : Z := 1048576.

Definition can_splice (s : side) (got : spliced) (c : redsocks_client) : Prop :=
  match got with
  | sp_moved data => is_bytes data /\ data <> [] /\ zlen (sp_data (pump_pipe s (c_pump c))) + zlen data <= pipe_capacity
  | _ => True
  end.

(** The events libevent can deliver: the listener is in the loop, the timer is
    pending, reading is enabled and below the high watermark, the write event is in
    the loop; a socket takes at least one byte when there is output. A call moves no more
    bytes than there are. *)
Definition enabled (e : input_event) (w : world) : Prop :=
  match e with
  | ev_accept n _ _ => exists i, w_instances w !! n = Some i /\ i_listening i = true
  | ev_backoff => is_Some (accept_backoff_ev w)
  | ev_readable id s data => exists c b, w_clients w !! id = Some c /\ c_buf s c = Some b /\
      has (be_enabled b) EV_READ = true /\ is_bytes data /\ 0 < zlen data <= room b
  | ev_read_failed id s what => exists c b, w_clients w !! id = Some c /\ c_buf s c = Some b /\
      has (be_enabled b) EV_READ = true /\ 0 < room b /\ (what = BEV_EOF \/ what = BEV_ERROR)
  | ev_writable id s n => exists c b, w_clients w !! id = Some c /\ c_buf s c = Some b /\
      be_wpending b = true /\ (be_output b = [] /\ n = 0%nat \/ (0 < n <= length (be_output b))%nat)
  | ev_write_failed id s what => exists c b, w_clients w !! id = Some c /\ c_buf s c = Some b /\
      be_wpending b = true /\ be_output b <> [] /\ (what = BEV_EOF \/ what = BEV_ERROR)
  | ev_splice_read id s got => exists c, w_clients w !! id = Some c /\ called (ReadOf s) c /\ can_splice s got c
  | ev_splice_write id s r0 r1 r2 => exists c, w_clients w !! id = Some c /\ called (WriteOf s) c /\
      fits r0 (length (output_of s c)) /\ fits r1 (length (input_of (other s) c)) /\
      fits r2 (length (sp_data (pump_pipe (other s) (c_pump c))))
  end.

Inductive step : world -> outcome unit -> Prop :=
| step_event e w : enabled e w -> step w (handle e w).

Inductive reachable (w0 : world) : world -> Prop :=
| reach_refl : reachable w0 w0
| reach_step w a w' : reachable w0 w -> step w (Ok a w') -> reachable w0 w'.

End loop.

End Accept.
