(* ===== verification/EventLoop.v ===== *)
(** * Safety of the event loop

    Every event libevent can deliver to a sound process runs to completion (no fault,
    no failed assertion) and leaves the process sound. *)

From S2P Require Import Prelude CLib MD5 EvBuffer HttpAuth World HttprBuffer Redsocks Ownership ClientLogic Flow.
From S2P Require Import Splice Socks5 Socks4 HttpConnect HttpRelay Accept.
Import EvBuffer Redsocks Ownership Flow Splice Accept.
Open Scope Z_scope.

Module EventLoop.

(** ** Backing off *)

Lemma quiet_randui32 : quiet red_randui32.
Proof. intros w Q HQ. apply wp_red_randui32. intros r rs _. by apply HQ. Qed.

Lemma listening_alike b w :
  alike w (w_set_instances (i_set_listening b <$> w_instances w) w).
Proof. by apply alike_instances. Qed.

Lemma next_backoff_pos ms hi : 0 < hi -> 0 < next_backoff ms hi.
Proof.
  intros Hhi. unfold next_backoff, clamp_value. destruct (Z.ltb_spec (u32 (u32 (ms * 2) + 1)) 1), (Z.gtb_spec 1 hi),
    (Z.gtb_spec (u32 (u32 (ms * 2) + 1)) hi); lia.
Qed.

Lemma conn_pressure_run Q w :
  connpres_idle_timeout (w_base w) = 0 -> within w ->
  (forall w', alike w w' -> pressure_ok w' -> Q tt w') -> wp conn_pressure Q w.
Proof.
  intros Hidle Hm HQ. apply wp_bind, wp_get. rewrite Hidle. apply wp_bind, wp_ret.
  rewrite bool_decide_eq_false_2 by done. apply wp_bind, wp_get. cbv zeta.
  pose proof (next_backoff_pos (accept_backoff_ms w) _ (proj2 Hm)) as Hpos.
  apply wp_bind, wp_when; [intros ?%Z.eqb_eq; lia|]. intros _. apply wp_bind, quiet_randui32. intros r w1 H1%aside_alike.
  apply wp_bind, wp_answer. intros e a. apply wp_bind, wp_modify, wp_modify. cbn beta.
  set (ms := next_backoff _ _) in *. set (ev := if e =? 0 then _ else _). assert (Hoff : forall n i,
    (i_set_listening false <$> w_instances w1) !! n = Some i -> i_listening i = false).
  { intros n i. rewrite list_lookup_fmap, fmap_Some. by intros (? & _ & ->). } apply HQ.
  - eapply alike_trans; [done|]. apply (alike_trans _ (w_set_backoff ms ev (w_set_answers a w1))); [by apply alike_intro|].
    apply listening_alike.
  - split; [|intros _; exact Hoff|intros _; exists false; exact Hoff].
    unfold within. cbn. by rewrite (al_conn _ _ H1), (al_base _ _ H1).
Qed.

(** The process between the expiry of the timer and the decision to go on. *)
Definition waiting (w : world) : Prop := world_ok w /\ forall id, settled w id.

Lemma waiting_alike w w' : alike w w' -> waiting w -> waiting w'.
Proof.
  intros H [Hok Hs]. split; [by eapply world_ok_alike|]. intros id. by eapply settled_alike.
Qed.

Lemma within_alike w w' : alike w w' -> within w -> within w'.
Proof. intros H. unfold within. by rewrite (al_conn _ _ H), (al_base _ _ H). Qed.

Lemma conn_pressure_waiting w : waiting w -> within w -> wp conn_pressure (fun _ => sound) w.
Proof.
  intros H Hm. apply conn_pressure_run; [apply (wk_idle _ (proj1 H))|done|]. intros w' Ha Hp.
  destruct (waiting_alike _ _ Ha H). done.
Qed.

Lemma pressure_ongoing_waiting w :
  waiting w -> within w ->
  wp conn_pressure_ongoing (fun b w => (waiting w /\ within w) /\
    (b = false -> redsocks_conn w < redsocks_conn_max (w_base w))) w.
Proof.
  intros H Hm. apply wp_bind, wp_get.
  destruct (Z.geb_spec (redsocks_conn w) (redsocks_conn_max (w_base w))); [by apply wp_ret|].
  apply wp_bind, wp_open_fd.
  - intros e a. apply wp_ret. split; [|done]. split; [|done]. eapply waiting_alike; [|done]. by apply alike_intro.
  - intros fd a Hfresh _. apply wp_bind, wp_close; [cbn; set_solver|]. apply wp_ret. split; [|done]. split; [|done].
    eapply waiting_alike; [|done]. apply alike_intro; try done; cbn; [set_solver|].
    intros fd'. rewrite elem_of_app, list_elem_of_singleton. by intros [?|?].
Qed.

Lemma accept_backoff_sound w : sound w -> wp redsocks_accept_backoff (fun _ => sound) w.
Proof.
  intros (Hok & Hp & Hs). apply wp_bind, wp_modify. apply wp_bind.
  eapply wp_mono; [apply pressure_ongoing_waiting; [|apply (pr_max _ Hp)]|].
  { eapply waiting_alike; [|by split]. by apply alike_intro. }
  intros [|] w' [[Hw Hm] Hlt]; [by apply conn_pressure_waiting|]. specialize (Hlt eq_refl).
  apply wp_modify. destruct (waiting_alike _ _ (listening_alike true w') Hw). split_and!; [done| |done].
  split; cbn; [done|intros ?; exfalso; lia|]. intros _. exists true. intros n i. rewrite list_lookup_fmap, fmap_Some.
  by intros (? & _ & ->).
Qed.

(** ** Accepting *)

Lemma conn_below w n i :
  sound w -> w_instances w !! n = Some i -> i_listening i = true ->
  redsocks_conn w < redsocks_conn_max (w_base w).
Proof.
  intros (_ & [_ Hf _] & _) Hi Hl. destruct (Z.lt_ge_cases (redsocks_conn w) (redsocks_conn_max (w_base w))); [done|].
  rewrite (Hf ltac:(lia) _ _ Hi) in Hl. done.
Qed.

(** A new client, not listed yet. *)
Lemma alloc_held n i ca da fd Q w :
  sound w -> spare fd w -> w_instances w !! n = Some i ->
  (forall id w, held false id (i_config i) (i_relay_ss i) (new_client n ca da) w -> spare fd w -> Q id w) ->
  wp (alloc_client (new_client n ca da)) Q w.
Proof.
  intros (Hok & [Hm Hf Ha] & Hs) (Hopen & Hpos & Hn) Hi HQ.
  set (id := w_next_client w). set (c := new_client n ca da).
  change (Q id (w_set_next_client (id + 1) (w_set_clients (<[id := c]> (w_clients w)) w))).
  destruct Hok as [Hown Ho Hd Hinst Hl Hconn Hmax Hnext Htr Hauth Hsup Hidle].
  assert (Hnew : w_clients w !! id = None).
  { destruct (w_clients w !! id) as [d|] eqn:E; [|done]. apply Hnext in E. unfold id in E. lia. }
  assert (Hnl : forall m j, w_instances w !! m = Some j -> id ∉ i_clients j).
  { intros m j Hj Hin. destruct (Hl m j Hj) as [_ Hl']. destruct (Hl' id Hin) as (d & ? & _). congruence. }
  set (w' := w_set_next_client _ _).
  assert (Hfds : forall o, fds_of w' o = fds_of w o).
  { intros [id'|m]; [|done]. unfold w'. cbn [fds_of w_clients w_instances w_set_clients w_set_next_client].
    destruct (decide (id = id')) as [<-|]; [|by rewrite lookup_insert_ne].
    rewrite lookup_insert_eq, Hnew. cbn [c c_instance new_client]. rewrite Hi.
    by destruct (use_splice (i_config i)). }
  apply HQ.
  - split_and!.
    + split; try done.
      * intros o. by rewrite Hfds.
      * intros o fd'. rewrite Hfds. apply Ho.
      * intros o o' fd'. rewrite !Hfds. apply Hd.
      * cbn. intros id' d [[<- <-]|[? Hd']]%lookup_insert_Some; [by exists i|eauto].
      * cbn. intros m j Hj. destruct (Hl m j Hj) as [? Hl']. split; [done|]. intros id' Hin'.
        rewrite lookup_insert_ne; [by apply Hl'|]. intros <-. by apply (Hnl m j).
      * cbn. intros id' d [[<- <-]|[? Hd']]%lookup_insert_Some; [lia|].
        apply Hnext in Hd'. unfold id. lia.
    + by split.
    + intros id' Hne d j. cbn. rewrite lookup_insert_ne by done. apply Hs.
    + cbn. apply lookup_insert_eq.
    + exists i. split_and!; try done. split; [intros Hin; by apply Hnl in Hi|done].
  - split_and!; [done|done|]. intros o. by rewrite Hfds.
Qed.

(** The client enters the list of its instance. *)
Definition added (n : nat) (i : redsocks_instance) (id : Z) (w : world) : world :=
  w_set_conn (u32 (redsocks_conn w + 1))
    (w_set_instances (<[n := i_set_clients (id :: i_clients i) i]> (w_instances w)) w).

Section added.
Context (id : Z) (c : redsocks_client) (w : world) (i : redsocks_instance).
Context (Hok : world_ok w) (Hs : forall id', id' <> id -> settled w id')
  (Hc : w_clients w !! id = Some c) (Hi : w_instances w !! c_instance c = Some i)
  (Hnin : id ∉ i_clients i) (Hm : within w) (Hlt : redsocks_conn w < redsocks_conn_max (w_base w)).
Let n := c_instance c.

Lemma added_lookup m j :
  w_instances (added n i id w) !! m = Some j ->
  exists j', w_instances w !! m = Some j' /\ i_config j = i_config j' /\ i_relay_ss j = i_relay_ss j' /\
    i_listener_init j = i_listener_init j' /\ i_listener_fd j = i_listener_fd j' /\ i_auth j = i_auth j' /\
    i_listening j = i_listening j' /\
    i_clients j = if decide (m = n) then id :: i_clients j' else i_clients j'.
Proof.
  cbn. intros [(<- & <- & _)|[Hne Hj]]%list_lookup_insert_Some.
  - exists i. rewrite decide_True by done. done.
  - exists j. rewrite decide_False by done. done.
Qed.

Lemma added_lookup_ex m j : w_instances w !! m = Some j -> is_Some (w_instances (added n i id w) !! m).
Proof. intros Hj. apply lookup_lt_is_Some. cbn. rewrite length_insert. by eapply lookup_lt_Some. Qed.

Lemma added_fds o : fds_of (added n i id w) o = fds_of w o.
Proof.
  destruct o as [id'|m]; cbn [fds_of].
  - change (w_clients (added n i id w)) with (w_clients w). destruct (w_clients w !! id') as [d|]; [|done].
    destruct (w_instances (added n i id w) !! c_instance d) as [j|] eqn:Hj.
    + destruct (added_lookup _ _ Hj) as (j' & -> & -> & _). done.
    + destruct (w_instances w !! c_instance d) as [j|] eqn:Hj'; [|done].
      apply added_lookup_ex in Hj' as [? ?]. congruence.
  - destruct (w_instances (added n i id w) !! m) as [j|] eqn:Hj.
    + destruct (added_lookup _ _ Hj) as (j' & -> & _ & _ & -> & -> & _). done.
    + destruct (w_instances w !! m) as [j|] eqn:Hj'; [|done].
      apply added_lookup_ex in Hj' as [? ?]. congruence.
Qed.

Lemma added_conn : redsocks_conn (added n i id w) = redsocks_conn w + 1 /\
  redsocks_conn w + 1 = zlen (all_listed (added n i id w)).
Proof.
  pose proof (wk_conn _ Hok) as Hn. pose proof Hm as [[_ Hmax] _].
  pose proof (length_concat_insert (i_clients <$> w_instances w) n (i_clients i) (id :: i_clients i)) as Hlen.
  rewrite list_lookup_fmap in Hlen. unfold n in Hlen. rewrite Hi in Hlen. specialize (Hlen eq_refl).
  unfold all_listed, zlen in *. cbn. split.
  - apply u32_id. lia.
  - rewrite list_fmap_insert. cbn [i_clients i_set_clients]. fold n in Hlen. cbn [length] in Hlen. lia.
Qed.

Lemma added_ok : world_ok (added n i id w).
Proof.
  destruct added_conn as [E1 E2]. pose proof added_fds as Hf.
  destruct Hok as [Hown Ho Hd Hinst Hl Hconn Hmax Hnext Htr Hauth Hsup Hidle]. split.
  - intros o. by rewrite Hf.
  - intros o fd. rewrite Hf. apply Ho.
  - intros o o' fd. rewrite !Hf. apply Hd.
  - intros id' d Hd'. destruct (Hinst id' d Hd') as [j Hj]. by apply added_lookup_ex in Hj.
  - intros m j Hj. destruct (added_lookup _ _ Hj) as (j' & Hj' & _ & _ & _ & _ & _ & _ & ->).
    destruct (Hl m j' Hj') as [Hnd Hl']. case_decide as Hmn; [|done]. subst m. unfold n in Hj'.
    assert (j' = i) as -> by congruence. split; [by apply NoDup_cons|].
    intros id' [->|Hin]%elem_of_cons; [by exists c|by apply Hl'].
  - congruence.
  - rewrite E1. destruct Hm as [? _]. lia.
  - apply Hnext.
  - apply Htr.
  - intros m j Hj. destruct (added_lookup _ _ Hj) as (j' & Hj' & E & _ & _ & _ & Ea & _).
    unfold auth_ok. rewrite E, Ea. by eapply Hauth.
  - intros m j Hj. destruct (added_lookup _ _ Hj) as (j' & Hj' & -> & -> & _). by eapply Hsup.
  - done.
Qed.

Lemma added_settled id' : id' <> id -> settled (added n i id w) id'.
Proof.
  intros Hne d j Hd Hj. destruct (added_lookup _ _ Hj) as (j' & Hj' & -> & -> & _ & _ & _ & _ & ->).
  destruct (Hs id' Hne d j' Hd Hj') as [? ?]. split; [|done]. case_decide; [by right|done].
Qed.
End added.

Lemma list_add_held id g ss c n Q w :
  held false id g ss c w -> c_instance c = n -> redsocks_conn w < redsocks_conn_max (w_base w) ->
  (forall w, held true id g ss c w -> Q tt w) -> wp (redsocks_conn_list_add n id) Q w.
Proof.
  intros (Hok & [Hm Hf Ha] & Hs & Hc & i & Hi & Hin & Hg & Hss) <- Hlt HQ.
  assert (Hnin : id ∉ i_clients i) by (intros ?%Hin; done).
  apply wp_bind. eapply wp_get_instance; [done|]. apply wp_bind, wp_get.
  apply wp_bind, wp_assert; [by apply bool_decide_eq_true|].
  apply wp_bind, wp_assert; [by apply Z.ltb_lt|].
  apply wp_bind. eapply wp_mod_instance; [done|]. apply wp_bind, wp_modify. apply wp_bind, wp_get.
  set (w1 := w_set_conn _ _).
  change w1 with (added (c_instance c) i id w). clear w1.
  pose proof (added_ok id c w i Hok Hc Hi Hnin Hm Hlt) as Hok1.
  destruct (added_conn id c w i Hok Hi Hm Hlt) as [E1 _].
  assert (Hheld : forall w', alike (added (c_instance c) i id w) w' -> pressure_ok w' -> held true id g ss c w').
  { intros w' Hal Hp. split_and!.
    - by eapply world_ok_alike.
    - done.
    - intros id' Hne. eapply settled_alike; [done|]. by apply added_settled.
    - by rewrite (al_clients _ _ Hal).
    - destruct (same_instances_lookup _ _ (c_instance c) (i_set_clients (id :: i_clients i) i)
                  (al_instances _ _ Hal)) as (j & Hj & E2 & E3 & E4 & _).
      { cbn. apply list_lookup_insert_eq. by eapply lookup_lt_Some. }
      exists j. rewrite <-E4. cbn in *. split_and!; [done| |congruence..]. split; [done|]. by left. }
  assert (Hm1 : within (added (c_instance c) i id w)).
  { destruct Hm as [? Hbo]. split; [|exact Hbo]. split; [rewrite E1; change (w_base (added (c_instance c) i id w)) with (w_base w); lia|]. cbn. lia. }
  rewrite E1. apply wp_when.
  - intros _. apply conn_pressure_run; [apply (wk_idle _ Hok1)|done|]. auto.
  - intros Hge. change (w_base (added (c_instance c) i id w)) with (w_base w) in Hge.
    destruct (Z.geb_spec (redsocks_conn w + 1) (redsocks_conn_max (w_base w))) as [|Hlt1]; [done|].
    apply HQ, Hheld; [by apply alike_intro|]. split; [done|..].
    + rewrite E1. change (w_base (added (c_instance c) i id w)) with (w_base w). intros ?. exfalso. lia.
    + intros [x Hx]%Ha. exists x. intros m j Hj.
      destruct (added_lookup id c w i Hi m j Hj) as (j' & Hj' & _ & _ & _ & _ & _ & -> & _).
      by eapply Hx.
Qed.

(** ** The whole of [redsocks_accept_client] *)

Section loop.
Context (ctx : MD5.md5_state) {LR : LineReader}.

Lemma drop_then_close id g ss c fd w :
  held false id g ss c w -> spare fd w ->
  wp (redsocks_drop_client id ;; redsocks_close fd) (fun _ => sound) w.
Proof.
  intros H Hsp. apply wp_bind. eapply at_drop_spare; [done..|]. intros w' [Hg _] Hsp'.
  eapply (stable_close_spare sound); [done..|]. auto.
Qed.

Lemma close_sound fd w : sound w -> spare fd w -> wp (redsocks_close fd) (fun _ => sound) w.
Proof. intros H Hsp. eapply (stable_close_spare sound); auto. Qed.

(** A client whose buffer is enabled and whose connection is being opened. *)
Lemma connected_inv g ss n ca da t1 t2 fdc ok fd :
  supported g ss -> 0 <= fdc -> 0 <= fd ->
  buffered g ss (c_set_buf Relay (Some (new_relay fd))
    (c_set_buf Client (Some ((if ok : bool then be_enable else be_enable_failed) EV_READ
         (bufferevent_new fdc cb_none cb_none)))
      (c_set_last t2 (c_set_first t1 (relay_ss_init ss g (new_client n ca da)))))).
Proof.
  intros (Hss & Hcred) Hfdc Hfd. split_and!; [by destruct ss| |].
  - destruct ss, ok; (split; [by intros []; left|by intros []|done| |by intros []]);
      (intros [] b [= <-]; (split; [cbv; tauto|]); (split; [done|]); by apply (bool_decide_unpack _)).
  - right; left. split_and!.
    + destruct ss, ok; (split_and!; [done|by intros []|done]).
    + by destruct ss.
    + by destruct ss.
    + by destruct ss.
    + destruct ss; cbn; try done; [by auto|]. split; [done|]. by eexists.
Qed.

Lemma connect_sound id g ss c ok fdc n ca da t1 t2 w :
  supported g ss -> 0 <= fdc ->
  c = c_set_buf Client (Some ((if ok : bool then be_enable else be_enable_failed) EV_READ
         (bufferevent_new fdc cb_none cb_none)))
      (c_set_last t2 (c_set_first t1 (relay_ss_init ss g (new_client n ca da)))) ->
  held true id g ss c w -> wp (relay_ss_connect_relay ss id) (fun _ => sound) w.
Proof.
  intros Hsup Hfdc -> H.
  assert (E : relay_ss_connect_relay ss id = redsocks_connect_relay id).
  { destruct ss; try done. by destruct Hsup as (? & _). }
  rewrite E. eapply at_connect_relay; [done|by destruct ss|by intros ? [? _]|].
  intros fd w' Hpos H'. eapply at_buffered; [done|]. by apply connected_inv.
Qed.

(** A client that is being accepted, its descriptor, and a free place for it. *)
Definition accepting (id fd : Z) g ss (c : redsocks_client) (w : world) : Prop :=
  held false id g ss c w /\ spare fd w /\ redsocks_conn w < redsocks_conn_max (w_base w).

Lemma accepting_quiet {A} id fd g ss c (m : M A) Q w :
  quiet m -> accepting id fd g ss c w -> (forall a w, accepting id fd g ss c w -> Q a w) -> wp m Q w.
Proof.
  intros Hm (H & Hsp & Hlt) HQ. apply Hm. intros a w' Ha. apply HQ. split_and!.
  - by eapply at_aside.
  - eapply spare_alike; [by apply aside_alike|done].
  - destruct Ha as (_ & _ & -> & _ & -> & _). done.
Qed.

Lemma accepting_mod id fd g ss c f Q w :
  accepting id fd g ss c w -> same_client c (f c) ->
  (forall w, accepting id fd g ss (f c) w -> Q tt w) -> wp (mod_client id f) Q w.
Proof.
  intros (H & (? & ? & Hn) & Hlt) Hsame HQ. destruct (H) as (_ & _ & _ & Hc & _).
  eapply wp_mod_client; [done|]. apply HQ. split_and!; [by eapply at_upd| |done].
  split_and!; [done..|]. intros o. by rewrite (fds_upd id c (f c) w o).
Qed.

Lemma quiet_gettimeofday : quiet gettimeofday.
Proof. intros w Q HQ. apply wp_gettimeofday. intros t ts. by apply HQ. Qed.

Lemma accepting_touch id fd g ss c Q w :
  accepting id fd g ss c w -> (forall t w, accepting id fd g ss (c_set_last t c) w -> Q tt w) ->
  wp (redsocks_touch_client id) Q w.
Proof.
  intros H HQ. apply wp_bind. eapply accepting_quiet; [apply quiet_gettimeofday|done|]. intros t w' H'.
  by eapply accepting_mod; [done| |apply HQ].
Qed.

Lemma accepting_failed id fd g ss c w :
  accepting id fd g ss c w ->
  wp (redsocks_drop_client id ;; redsocks_close fd) (fun _ => sound) w.
Proof. intros (H & Hsp & _). by eapply drop_then_close. Qed.

Lemma same_client_init ss g n ca da :
  same_client (new_client n ca da) (relay_ss_init ss g (new_client n ca da)).
Proof. by destruct ss. Qed.

Lemma accept_allocated_sound n id fd g ss ca da w :
  accepting id fd g ss (new_client n ca da) w ->
  wp (accept_allocated n id fd) (fun _ => sound) w.
Proof.
  intros H.
  assert (Hsup : supported g ss).
  { destruct H as ((Hok & _ & _ & _ & j & Hj & _ & <- & <-) & _). by eapply (wk_supported _ Hok). }
  apply wp_bind. change n with (c_instance (new_client n ca da)) at 1. eapply at_instance; [apply H|].
  intros j _ Hg Hss. rewrite Hg, Hss.
  apply wp_bind. eapply accepting_mod; [done|apply same_client_init|]. clear w H. intros w H.
  apply wp_bind. eapply accepting_quiet; [apply quiet_gettimeofday|done|]. clear w H. intros t w H.
  apply wp_bind. eapply accepting_quiet; [apply quiet_try_call|done|]. clear w H.
  intros [|] w H; cbn [negb]; [|by eapply accepting_failed].
  apply wp_bind. eapply accepting_mod; [done|done|]. clear w H. intros w H.
  apply wp_bind. eapply accepting_touch; [done|]. clear w H. intros t' w H.
  apply wp_bind. eapply accepting_quiet; [apply quiet_try_call|done|]. clear w H.
  intros [|] w H; cbn [negb]; [|by eapply accepting_failed].
  destruct H as (H & Hsp & Hlt). destruct (H) as (_ & _ & _ & Hc & _).
  set (b := bufferevent_new fd cb_none cb_none). set (c := c_set_last t' _) in *.
  apply wp_bind. eapply wp_mono; [apply wp_and|].
  { eapply (at_attach _ _ _ _ Client b (fun _ w => held false id g ss (c_set_buf Client (Some b) c) w));
      [done|by destruct ss|done|auto]. }
  { by eapply (wp_mod_client _ _ _ (fun _ w => redsocks_conn w < redsocks_conn_max (w_base w))). }
  assert (Hfd : 0 <= fd) by apply Hsp. clear Hsp w H Hlt Hc. intros _ w [H Hlt].
  apply wp_bind. eapply list_add_held; [done|by destruct ss|done|]. clear w H Hlt. intros w H.
  apply wp_bind. eapply at_enable; [done|done|done|..]; clear w H; intros _ w H; cbn [negb].
  - eapply (connect_sound _ _ _ _ true fd n ca da t t'); [done|done| |exact H]. reflexivity.
  - eapply at_drop; [done|]. by intros ? [? _].
Qed.

(** What is kept until the client exists. *)
Definition admitting (n : nat) (w : world) : Prop :=
  sound w /\ redsocks_conn w < redsocks_conn_max (w_base w) /\ is_Some (w_instances w !! n).

Instance admitting_stable n : Stable (admitting n).
Proof.
  split.
  - intros w' ((? & ? & _) & _). done.
  - intros w1 w2 Ha Hp (Hs & Hlt' & j & Hj). split_and!; [by eapply (stable_alike (P := sound))| |].
    + rewrite (al_conn _ _ Ha), (al_base _ _ Ha). done.
    + destruct (same_instances_lookup _ _ _ _ (al_instances _ _ Ha) Hj) as (j' & ? & _). eauto.
  - intros w1 w2 E1 E2 E3 E4 E5 Hok (Hs & Hlt' & Hj).
    split_and!; [by eapply (stable_frame (P := sound))|by rewrite E3, E5|by rewrite E2].
Qed.

Lemma admitting_failed n fd w :
  admitting n w -> spare fd w -> wp (redsocks_close fd) (fun _ => sound) w.
Proof. intros (H & _) Hsp. by apply close_sound. Qed.

Lemma alloc_accepting n ca da fd w :
  admitting n w -> spare fd w ->
  wp (alloc_client (new_client n ca da))
    (fun id w => exists g ss, accepting id fd g ss (new_client n ca da) w) w.
Proof.
  intros (H & Hlt & i & Hi) Hsp. eapply wp_mono; [apply wp_and|].
  { eapply (alloc_held n i ca da fd (fun id w => held false id (i_config i) (i_relay_ss i)
      (new_client n ca da) w /\ spare fd w)); auto. }
  { instantiate (1 := fun _ w => redsocks_conn w < redsocks_conn_max (w_base w)). done. }
  intros id w' [[? ?] ?]. exists (i_config i), (i_relay_ss i). done.
Qed.

(** One guarded call of a quiet operation. *)
Local Ltac check q :=
  apply wp_bind; eapply (stable_spare_quiet (admitting _)); [q|eassumption..|];
  match goal with w : world |- _ => clear dependent w end;
  let w := fresh "w" in let H := fresh "H" in let Hsp := fresh "Hsp" in intros [|] w H Hsp; cbn [negb]; [|by eapply admitting_failed].

Lemma accept_sound n ca da i w :
  sound w -> w_instances w !! n = Some i -> i_listening i = true ->
  wp (redsocks_accept_client n ca da) (fun _ => sound) w.
Proof.
  intros H Hi Hl. pose proof (conn_below w n i H Hi Hl) as Hlt.
  apply wp_bind, wp_get. apply wp_bind, wp_assert; [by apply Z.ltb_lt|].
  assert (HP : admitting n w) by (split_and!; eauto). clear H Hi Hl Hlt i.
  apply wp_bind. eapply (stable_open_fd (admitting n)); [done| |]; clear w HP.
  { intros e w (H & _). apply wp_when; [|done]. intros _.
    apply conn_pressure_waiting; [split; apply H|]. destruct H as (_ & Hp & _). apply (pr_max _ Hp). }
  intros fd w H Hsp. apply wp_bind, wp_modify. set (w1 := w_set_backoff _ _ _).
  assert (Ha : aside w w1) by done. apply (stable_aside (admitting n) _ _ Ha) in H.
  apply (spare_alike _ _ _ (aside_alike _ _ Ha)) in Hsp. clear Ha. clearbody w1. clear w. rename w1 into w.
  check ltac:(apply quiet_try_call). check ltac:(apply quiet_try_call). check ltac:(apply quiet_fcntl).
  check ltac:(apply quiet_keepalive). check ltac:(apply quiet_try_call).
  apply wp_bind. eapply wp_mono; [by apply alloc_accepting|].
  clear w H Hsp. intros id w (g & ss & H). by eapply accept_allocated_sound.
Qed.

(** ** Callbacks of the relay subsystems *)

Lemma subsys_supported id g ss c w : held true id g ss c w -> supported g ss.
Proof. intros (Hok & _ & _ & _ & i & Hi & _ & <- & <-). by eapply (wk_supported _ Hok). Qed.

Lemma subsys_read_sound id g ss c w :
  at_client id g ss c w -> buffered g ss c -> talking ss g c -> shut Relay EV_READ c = false ->
  wp (relay_ss_readcb ss id) (fun _ => sound) w.
Proof.
  intros H Hinv Ht Hs. destruct (subsys_supported _ _ _ _ _ H) as (Hss & Hcred).
  destruct ss; cbn [relay_ss_readcb]; [|done|by eapply Socks4.socks4_read_ok|by eapply Socks5.socks5_read_ok].
  eapply HttpConnect.httpc_read_sound; eauto.
Qed.

Lemma subsys_write_sound id g ss c w :
  at_client id g ss c w -> c_pump c = new_pump -> flow_ok c -> before_pump c ->
  cbs (c_relay c) = Some (cb_subsys_read, cb_subsys_write) ->
  (starts ss g (c_state c) (c_payload c) /\ shut Relay EV_READ c = false \/
   talks ss g (c_state c) (c_payload c)) ->
  wp (relay_ss_writecb ctx ss id) (fun _ => sound) w.
Proof.
  intros H Hp Hf Hbp Hcb Hst. destruct (subsys_supported _ _ _ _ _ H) as (Hss & Hcred).
  destruct ss; cbn [relay_ss_writecb]; [|done|by eapply Socks4.socks4_write_ok|by eapply Socks5.socks5_write_ok].
  eapply HttpConnect.httpc_write_sound; eauto.
Qed.

Lemma quiet_connected_ok : quiet red_is_socket_connected_ok.
Proof.
  apply quiet_bind; [|intros; apply quiet_ret].
  apply quiet_bind; [apply quiet_answer|]. intros e. case_match; [apply quiet_answer|apply quiet_ret].
Qed.

Lemma relay_connected_sound id g ss c w :
  at_client id g ss c w -> buffered g ss c -> connecting ss g c ->
  wp (redsocks_relay_connected ctx id) (fun _ => sound) w.
Proof.
  intros H Hinv (Hbp & Hcb & Hrd & Hs & Hst). apply wp_bind. eapply at_touch; [done|]. clear w H. intros t w H.
  apply wp_bind. eapply at_quiet; [apply quiet_connected_ok|done|]. clear w H.
  intros [|] w H; cbn [negb]; [|eapply at_drop; [done|]; by intros ? [? _]].
  destruct (c_relay c) as [b|] eqn:Hb; [|done].
  apply wp_bind. eapply at_get; [done|]. apply wp_bind. eapply at_instance; [done|]. intros i _ _ ->.
  apply wp_bind. eapply at_mod_buf; [done|done|done|]. clear w H. intros w H.
  destruct Hinv as (Hp & Hf & _). destruct (fl_enabled _ Hf Relay b Hb) as (? & ? & ?).
  eapply subsys_write_sound; [done|done| | |done|].
  - eapply flow_keep; [by apply flow_last|done..].
  - destruct Hbp as (? & Hw & ?). split_and!; [done|by intros []; [apply (Hw Client)|apply (Hw Relay)]|done].
  - left. done.
Qed.

(** ** Events of a buffer *)

Lemma run_callback_sound (reading : bool) id g ss c s b w :
  at_client id g ss c w -> buffered g ss c -> c_buf s c = Some b ->
  (reading = true -> shut s EV_READ c = false /\ reads s c = true) ->
  wp (run_callback ctx (if reading then be_readcb b else be_writecb b) id s) (fun _ => sound) w.
Proof.
  intros H Hinv Hb Hr. destruct (Hinv) as (Hsp & Hf & Hst).
  assert (Hnone : wp (run_callback ctx cb_none id s) (fun _ => sound) w) by (apply wp_ret; by eapply at_buffered).
  destruct Hst as [Hrel|[Hc|Ht]].
  - destruct (Hrel) as (_ & H1 & H2).
    assert (E : (be_readcb b, be_writecb b) = (cb_pump_read, cb_pump_write)).
    { destruct s; cbn in Hb; rewrite Hb in *; cbn in *; congruence. }
    injection E as -> ->. destruct reading; [by eapply pump_readcb_ok|by eapply pump_writecb_ok].
  - destruct (Hc) as ((_ & _ & H1) & H2 & H3 & _). destruct s; cbn in Hb.
    + rewrite Hb in H1. injection H1 as -> ->. by destruct reading.
    + rewrite Hb in H2. injection H2 as E1 E2. rewrite E1, E2. destruct reading; [done|].
      by eapply relay_connected_sound.
  - destruct (Ht) as (Hbp & H2 & H3). destruct s; cbn in Hb.
    + destruct Hbp as (_ & _ & H1). rewrite Hb in H1. injection H1 as -> ->. by destruct reading.
    + pose proof H2 as H2'. rewrite Hb in H2. injection H2 as E1 E2. rewrite E1, E2.
      destruct reading; cbn [run_callback]; (apply wp_bind; eapply at_get; [done|]; apply wp_bind;
        eapply at_instance; [done|]; intros i _ _ ->).
      * eapply subsys_read_sound; try done. by apply Hr.
      * eapply subsys_write_sound; try done. by right.
Qed.

Lemma reads_not_shut s c b :
  flow_ok c -> c_buf s c = Some b -> has (be_enabled b) EV_READ = true -> shut s EV_READ c = false.
Proof.
  intros Hf Hb He. apply not_true_is_false. intros Hs%(fl_reads _ Hf). unfold reads in Hs.
  rewrite Hb in Hs. congruence.
Qed.

(** A buffer whose events are in the loop belongs to a client with buffers. *)
Lemma live_buffered w id c s b :
  sound w -> w_clients w !! id = Some c -> c_buf s c = Some b -> has (be_enabled b) EV_READ || be_wpending b = true ->
  exists g ss, at_client id g ss c w /\ buffered g ss c.
Proof.
  intros Hw Hc Hb He. destruct (sound_at w id c Hw Hc) as (g & ss & H & [Hinv|[_ Hs]]); [eauto|].
  destruct (sp_bufs _ Hs s b Hb) as (_ & E1 & E2). by rewrite E1, E2 in He.
Qed.

(** The same for the events of the splice pump. *)
Lemma live_splicing w id c k :
  sound w -> w_clients w !! id = Some c -> called k c ->
  exists g ss, at_client id g ss c w /\ use_splice g = true /\ splicing c.
Proof.
  intros Hw Hc He. destruct (sound_at w id c Hw Hc) as (g & ss & H & [(Hp & _)|[Hg Hs]]); [|eauto].
  unfold called in He. rewrite Hp in He. by destruct k as [[]|[]].
Qed.

Lemma splice_event_sound e w :
  sound w -> enabled e w ->
  match e with ev_splice_read _ _ _ | ev_splice_write _ _ _ _ _ => wp (handle ctx e) (fun _ => sound) w | _ => True end.
Proof.
  intros Hw He. destruct e; try done; destruct He as (c & Hc & Hk & Hfit).
  - destruct (live_splicing w id c _ Hw Hc Hk) as (g & ss & H & Hg & Hs). by eapply splice_read_sound.
  - destruct (live_splicing w id c _ Hw Hc Hk) as (g & ss & H & Hg & Hs). destruct Hfit as (_ & _ & ?).
    by eapply splice_write_sound.
Qed.

Lemma readable_sound id s data w :
  sound w -> enabled (ev_readable id s data) w -> wp (bev_readable ctx id s data) (fun _ => sound) w.
Proof.
  intros Hw (c & b & Hc & Hb & He & Hd & _).
  destruct (live_buffered w id c s b Hw Hc Hb) as (g & ss & H & Hinv); [by rewrite He|].
  destruct (Hinv) as (_ & Hf & _). destruct (fl_enabled _ Hf s b Hb) as (? & ? & ?).
  pose proof (reads_not_shut s c b Hf Hb He) as Hs.
  apply wp_bind. eapply at_mod_buf; [done|done|done|]. clear w H Hw Hc. intros w H.
  set (b1 := be_set_input _ b) in *.
  assert (Hinv1 : buffered g ss (c_set_buf s (Some b1) c)).
  { eapply inv_change; try done. by apply Forall_app. }
  assert (Hb1 : c_buf s (c_set_buf s (Some b1) c) = Some b1) by by destruct s.
  apply wp_bind. eapply at_buf; [done|done|]. apply wp_when; [|intros _; by eapply at_buffered].
  intros _. eapply (run_callback_sound true); [done|done|done|]. intros _. split; [by destruct s|].
  unfold reads. by rewrite Hb1.
Qed.

Lemma writable_sound id s n w :
  sound w -> enabled (ev_writable id s n) w -> wp (bev_writable ctx id s n) (fun _ => sound) w.
Proof.
  intros Hw (c & b & Hc & Hb & He & _).
  destruct (live_buffered w id c s b Hw Hc Hb) as (g & ss & H & Hinv); [by rewrite He, orb_true_r|].
  destruct (Hinv) as (_ & Hf & _). destruct (fl_enabled _ Hf s b Hb) as (? & ? & ?).
  apply wp_bind. eapply at_mod_buf; [done|done|done|]. clear w H Hw Hc. intros w H.
  cbv zeta in H. set (b1 := be_set_output _ _ b) in *.
  assert (Hinv1 : buffered g ss (c_set_buf s (Some b1) c)) by (eapply inv_change; done).
  assert (Hb1 : c_buf s (c_set_buf s (Some b1) c) = Some b1) by by destruct s.
  apply wp_bind. eapply at_buf; [done|done|]. apply wp_when; [|intros _; by eapply at_buffered].
  intros _. eapply (run_callback_sound false); done.
Qed.

Lemma disable_inv g ss s ev b c :
  buffered g ss c -> c_buf s c = Some b -> flag ev ->
  buffered g ss (c_set_buf s (Some (be_disable ev b)) c).
Proof.
  intros Hinv Hb Hev. destruct (Hinv) as (_ & Hf & _). destruct (fl_enabled _ Hf s b Hb) as (? & ? & ?).
  assert (rw ev) by (destruct Hev as [-> | ->]; cbv; tauto).
  eapply inv_change; try done; cbn; [by apply rw_ldiff|].
  rewrite has_ldiff by (unfold flag; tauto). by intros [? _]%andb_true_iff.
Qed.

Lemma read_failed_sound id s what w :
  sound w -> enabled (ev_read_failed id s what) w -> wp (bev_read_failed id s what) (fun _ => sound) w.
Proof.
  intros Hw (c & b & Hc & Hb & He & _).
  destruct (live_buffered w id c s b Hw Hc Hb) as (g & ss & H & Hinv); [by rewrite He|].
  destruct (Hinv) as (_ & Hf & _). pose proof (reads_not_shut s c b Hf Hb He) as Hs.
  pose proof (disable_inv g ss s EV_READ b c Hinv Hb ltac:(by left)) as Hinv1.
  apply wp_bind. eapply at_mod_buf; [done|done|done|]. clear w H Hw Hc. intros w H.
  eapply event_error_ok; [done|done|by destruct s|by destruct s|].
  intros (_ & Hcb & _). destruct s; [done|]. exfalso. cbn in Hcb, Hb. injection Hcb as E1 E2.
  destruct Hinv as (_ & _ & [(_ & _ & H2)|[(_ & _ & Hr & _)|(_ & H2 & _)]]).
  - rewrite Hb in H2. injection H2. congruence.
  - unfold reads in Hr. cbn in Hr. rewrite Hb in Hr. congruence.
  - rewrite Hb in H2. injection H2. congruence.
Qed.

(** A failure that is not the end of the input drops the client. *)
Lemma event_error_drops id g ss c s what w :
  at_client id g ss c w -> what <> Z.lor BEV_READING BEV_EOF ->
  wp (redsocks_event_error id s what) (fun _ => sound) w.
Proof.
  intros H Hne. apply wp_bind. eapply at_touch; [done|]. clear w H. intros t w H.
  apply wp_bind. eapply at_get; [done|]. case_match; [|eapply at_drop; [done|by intros ? [? _]]].
  by match goal with H : _ = true |- _ => apply Z.eqb_eq in H end.
Qed.

Lemma write_failed_sound id s what w :
  sound w -> enabled (ev_write_failed id s what) w -> wp (bev_write_failed id s what) (fun _ => sound) w.
Proof.
  intros Hw (c & b & Hc & Hb & _ & _ & Hwhat). destruct (sound_at w id c Hw Hc) as (g & ss & H & Hinv).
  apply wp_bind. eapply at_mod_buf; [done|done|done|]. clear w H Hw Hc. intros w H.
  eapply event_error_drops; [done|]. by destruct Hwhat as [-> | ->].
Qed.

(** Every event leaves a sound process sound. *)
Lemma handle_sound e w : sound w -> enabled e w -> wp (handle ctx e) (fun _ => sound) w.
Proof.
  intros H He. pose proof (splice_event_sound e w H He). destruct e; try done; cbn [handle].
  - destruct He as (i & ? & ?). by eapply accept_sound.
  - by apply accept_backoff_sound.
  - by apply readable_sound.
  - by apply read_failed_sound.
  - by apply writable_sound.
  - by apply write_failed_sound.
Qed.

Lemma reachable_sound w w' : sound w -> reachable ctx w w' -> sound w'.
Proof.
  intros H. induction 1 as [|w1 [] w2 _ IH Hstep]; [done|]. remember (Ok tt w2) as o eqn:Heq.
  destruct Hstep as [e w1 He]. pose proof (handle_sound e w1 IH He) as Hwp. unfold wp in Hwp.
  by rewrite Heq in Hwp.
Qed.

End loop.

End EventLoop.
