(* ===== verification/Lifecycle.v ===== *)
(** * Start and end of the process: redsocks.c

    [redsocks_init] opens the listeners of the configured instances, and
    [redsocks_fini] releases everything. A process that started is sound, stays
    sound whatever its event loop delivers, and gives back every descriptor it owns
    when it ends. *)

From S2P Require Import Prelude CLib MD5 EvBuffer HttpAuth World HttprBuffer Redsocks Ownership ClientLogic Flow.
From S2P Require Import Splice Socks5 Socks4 HttpConnect HttpRelay Accept EventLoop.
Import EvBuffer Redsocks Ownership Flow Splice Accept EventLoop.
Open Scope Z_scope.

Module Lifecycle.

(** ** The end of an instance *)

Definition relay_ss_instance_fini (ss : relay_subsys) (i : redsocks_instance) : redsocks_instance :=
  match ss with
  | http_connect_subsys => HttpConnect.httpc_instance_fini i
  | http_relay_subsys => HttpRelay.httpr_instance_fini i
  | _ => i
  end.

Definition c_set_instance n (c : redsocks_client) :=
  mk_client n (c_client c) (c_relay c) (c_clientaddr c) (c_destaddr c) (c_state c)
    (client_evshut c) (relay_evshut c) (first_event c) (last_event c) (c_pump c) (c_payload c).

(** Clients name their instance by its place in the list: the places after the freed
    one move, and a client of the freed instance is left with a dangling pointer. *)
Definition renamed (n len k : nat) : nat :=
  if Nat.ltb k n then k else if Nat.eqb k n then len else pred k.

(** [list_del] and [free] *)
Definition free_instance (n : nat) : M unit :=
  modify (fun w =>
    w_set_clients ((fun c => c_set_instance (renamed n (length (w_instances w)) (c_instance c)) c) <$> w_clients w)
      (w_set_instances (delete n (w_instances w)) w)).

Definition redsocks_fini_instance (n : nat) : M unit :=
  i ← get_instance n;
  for_each (i_clients i) redsocks_drop_client ;;
  mod_instance n (fun i => relay_ss_instance_fini (i_relay_ss i) i) ;;
  i ← get_instance n;
  when (i_listener_init i)
    (mod_instance n (i_set_listening false) ;;
     redsocks_close (i_listener_fd i) ;;
     mod_instance n (i_set_listener false 0 false)) ;;
  free_instance n.

(** [list_for_each_entry_safe]: the head of the list is released until none is left. *)
Fixpoint fini_instances (k : nat) : M unit :=
  match k with
  | O => mret tt
  | S k => redsocks_fini_instance 0 ;; fini_instances k
  end.

Definition redsocks_fini : M Z :=
  w ← get;
  fini_instances (length (w_instances w)) ;;
  w ← get;
  assert (redsocks_conn w =? 0) ;;
  mret 0.

(** ** The start *)

(** [socks4_instance_init] and [httpr_instance_init] only log. *)
Definition relay_ss_instance_init (ss : relay_subsys) (i : redsocks_instance) : redsocks_instance :=
  match ss with socks5_subsys => Socks5.socks5_instance_init i | _ => i end.

Definition redsocks_init_instance (n : nat) : M Z :=
  let fail (fd : option Z) :=
    redsocks_fini_instance n ;;
    match fd with Some fd => redsocks_close fd | None => mret tt end ;;
    mret (-1) in
  r ← open_fd;
  match r with
  | inr _ => fail None
  | inl fd =>
      ok ← try_call;                                   (* setsockopt *)
      if negb ok then fail (Some fd) else
      ok ← try_call;                                   (* bind *)
      if negb ok then fail (Some fd) else
      ok ← fcntl_nonblock;
      if negb ok then fail (Some fd) else
      ok ← try_call;                                   (* listen *)
      if negb ok then fail (Some fd) else
      mod_instance n (i_set_listener true fd false) ;;
      ok ← try_call;                                   (* event_add *)
      if negb ok then fail None else
      mod_instance n (i_set_listening true) ;;
      mod_instance n (fun i => relay_ss_instance_init (i_relay_ss i) i) ;;
      mret 0
  end.

(** The instances from [n] on; [k] are left. *)
Fixpoint init_instances (n k : nat) : M bool :=
  match k with
  | O => mret true
  | S k => e ← redsocks_init_instance n;
           if e =? 0 then init_instances (S n) k else mret false
  end.

(** The two signal calls have no state of their own here. *)
Definition redsocks_init : M Z :=
  modify (w_set_conn 0) ;;
  ok ← try_call;                                       (* sigaction *)
  if negb ok then mret (-1) else
  ok ← try_call;                                       (* signal_add *)
  if negb ok then redsocks_fini ;; mret (-1) else
  modify (fun w => w_set_backoff (accept_backoff_ms w) None w) ;;
  w ← get;
  ok ← init_instances 0 (length (w_instances w));
  if ok : bool then mret 0 else redsocks_fini ;; mret (-1).

(** The invariant of a client does not speak of its instance. *)
Lemma inv_moved g ss n c : client_inv g ss c -> client_inv g ss (c_set_instance n c).
Proof.
  intros [(? & Hf & Hst)|[Hg Hs]].
  - left. split_and!; [done| |exact Hst]. revert Hf. apply flow_ext; by intros [].
  - right. split; [done|]. by destruct Hs.
Qed.

(** ** Freeing an instance without clients *)

(** The place in the longer list. *)
Definition skip (n k : nat) : nat := if Nat.ltb k n then k else S k.

Lemma skip_ne n k : skip n k <> n.
Proof. unfold skip. destruct (Nat.ltb_spec k n); lia. Qed.
Lemma skip_inj n k k' : skip n k = skip n k' -> k = k'.
Proof. unfold skip. destruct (Nat.ltb_spec k n), (Nat.ltb_spec k' n); lia. Qed.
Lemma skip_renamed n len k : k <> n -> skip n (renamed n len k) = k.
Proof.
  intros Hne. unfold renamed. destruct (Nat.ltb_spec k n) as [Hlt|].
  - unfold skip. destruct (Nat.ltb_spec k n); lia.
  - destruct (Nat.eqb_spec k n); [done|]. unfold skip. destruct (Nat.ltb_spec (pred k) n); lia.
Qed.

Lemma lookup_skip {A} (l : list A) n k : delete n l !! k = l !! skip n k.
Proof.
  unfold skip. destruct (Nat.ltb_spec k n); [by apply list_lookup_delete_lt|by apply list_lookup_delete_ge].
Qed.

(** Open descriptors that belong to nobody here. *)
Definition foreign (w : world) (fd : Z) : Prop := fd ∈ w_open w /\ forall o, fd ∉ fds_of w o.

(** What is left after [redsocks_fini_instance]: [v] is the state before. *)
Record freed (n : nat) (v w : world) : Prop := {
  fr_clients : w_clients w =
    (fun c => c_set_instance (renamed n (length (w_instances v)) (c_instance c)) c) <$> w_clients v;
  fr_instances : Forall2 same_instance (delete n (w_instances v)) (w_instances w);
  fr_open : w_open w = w_open v ∖ list_to_set (fds_of v (ByListener n));
  fr_conn : redsocks_conn w = redsocks_conn v;
  fr_base : w_base w = w_base v;
  fr_next : w_next_client w = w_next_client v;
  fr_trace : forall fd, sys_ebadf fd ∈ w_trace w -> sys_ebadf fd ∈ w_trace v }.

Section freed.
Context (n : nat) (v w : world) (i : redsocks_instance).
Context (Hv : waiting v) (Hi : w_instances v !! n = Some i)
  (Hno : forall id c, w_clients v !! id = Some c -> c_instance c <> n) (H : freed n v w).

Lemma freed_lookup k j : w_instances w !! k = Some j ->
  exists j', w_instances v !! skip n k = Some j' /\ same_instance j' j.
Proof.
  intros Hj. destruct (Forall2_lookup_r _ _ _ _ _ (fr_instances _ _ _ H) Hj) as (j' & Hj' & ?).
  rewrite lookup_skip in Hj'. eauto.
Qed.

Lemma freed_lookup_ex k j' : w_instances v !! skip n k = Some j' ->
  exists j, w_instances w !! k = Some j /\ same_instance j' j.
Proof.
  rewrite <-lookup_skip. intros Hj.
  destruct (Forall2_lookup_l _ _ _ _ _ (fr_instances _ _ _ H) Hj) as (j & ? & ?). eauto.
Qed.

Lemma freed_client id c : w_clients w !! id = Some c ->
  exists c', w_clients v !! id = Some c' /\ c = c_set_instance (c_instance c) c' /\
    skip n (c_instance c) = c_instance c'.
Proof.
  rewrite (fr_clients _ _ _ H), lookup_fmap. intros (c' & Hc' & ->)%fmap_Some. exists c'. split_and!; [done..|].
  apply skip_renamed. eauto.
Qed.

Lemma freed_fds_client id : fds_of w (ByClient id) = fds_of v (ByClient id).
Proof.
  cbn. destruct (w_clients w !! id) as [c|] eqn:Hc.
  - destruct (freed_client _ _ Hc) as (c' & Hc' & E & Hs). rewrite Hc'.
    assert (Hf : forall b, client_fds b c = client_fds b c') by (intros b; by rewrite E).
    destruct (wk_inst _ (proj1 Hv) _ _ Hc') as [j' Hj']. rewrite Hj'. rewrite <-Hs in Hj'.
    destruct (freed_lookup_ex _ _ Hj') as (j & -> & -> & _). apply Hf.
  - rewrite (fr_clients _ _ _ H), lookup_fmap in Hc. by destruct (w_clients v !! id).
Qed.

Lemma freed_fds_listener k : fds_of w (ByListener k) = fds_of v (ByListener (skip n k)).
Proof.
  cbn. destruct (w_instances w !! k) as [j|] eqn:Hj.
  - destruct (freed_lookup _ _ Hj) as (j' & -> & _ & _ & _ & -> & -> & _). done.
  - destruct (w_instances v !! skip n k) as [j'|] eqn:Hj'; [|done].
    destruct (freed_lookup_ex _ _ Hj') as (? & ? & _). congruence.
Qed.

(** The owner in the longer list. *)
Definition raised (o : owner) : owner :=
  match o with ByClient id => ByClient id | ByListener k => ByListener (skip n k) end.

Lemma raised_inj o o' : raised o = raised o' -> o = o'.
Proof. destruct o, o'; cbn; intros [=]; f_equal; [done|]. by eapply skip_inj. Qed.
Lemma raised_ne o : raised o <> ByListener n.
Proof. destruct o; [done|]. intros [=]. by eapply skip_ne. Qed.
Lemma raised_onto o : o = ByListener n \/ exists o', o = raised o'.
Proof.
  destruct o as [id|k]; [right; by exists (ByClient id)|]. destruct (decide (k = n)) as [->|Hne]; [by left|].
  right. exists (ByListener (renamed n 0 k)). cbn. by rewrite skip_renamed.
Qed.

Lemma freed_fds o : fds_of w o = fds_of v (raised o).
Proof. destruct o; [apply freed_fds_client|apply freed_fds_listener]. Qed.

Lemma freed_clients_nil : i_clients i = [].
Proof.
  destruct (i_clients i) as [|id l] eqn:E; [done|].
  destruct (wk_listed _ (proj1 Hv) _ _ Hi) as [_ Hl]. destruct (Hl id) as (c & Hc & Hn).
  { rewrite E. by left. }
  by destruct (Hno _ _ Hc).
Qed.

Lemma freed_listed : all_listed w = all_listed v.
Proof.
  assert (E : i_clients <$> w_instances w = i_clients <$> delete n (w_instances v)).
  { pose proof (fr_instances _ _ _ H) as HF. induction HF as [|a b l k Hab _ IH]; [done|]. cbn.
    destruct Hab as (_ & _ & -> & _). by rewrite IH. }
  unfold all_listed. rewrite E. rewrite <-(take_drop_middle _ _ _ Hi) at 2. rewrite delete_take_drop.
  rewrite !fmap_app, fmap_cons, freed_clients_nil, !concat_app. done.
Qed.

Lemma freed_ok : world_ok w.
Proof.
  pose proof (proj1 Hv) as [Hown Hopen Hdisj Hinst Hlist ? ? Hnext Htr Hauth Hsup ?].
  pose proof freed_fds as Hf. split.
  - intros o. by rewrite Hf.
  - intros o fd. rewrite Hf, (fr_open _ _ _ H). intros Hin. apply elem_of_difference.
    split; [by eapply Hopen|]. rewrite elem_of_list_to_set. intros Hl.
    by apply (raised_ne o), (Hdisj _ _ fd).
  - intros o o' fd. rewrite !Hf. intros H1 H2. by eapply raised_inj, Hdisj.
  - intros id c Hc. destruct (freed_client _ _ Hc) as (c' & Hc' & _ & Hs).
    destruct (Hinst _ _ Hc') as [j Hj]. rewrite <-Hs in Hj.
    destruct (freed_lookup_ex _ _ Hj) as (? & ? & _). eauto.
  - intros k j Hj. destruct (freed_lookup _ _ Hj) as (j' & Hj' & _ & _ & <- & _).
    destruct (Hlist _ _ Hj') as [? Hl]. split; [done|]. intros id Hin.
    destruct (Hl id Hin) as (c' & Hc' & Hn). rewrite (fr_clients _ _ _ H), lookup_fmap, Hc'.
    eexists. split; [done|]. cbn. apply (skip_inj n). rewrite skip_renamed by eauto. done.
  - rewrite freed_listed, (fr_conn _ _ _ H). done.
  - by rewrite (fr_conn _ _ _ H).
  - intros id c Hc. destruct (freed_client _ _ Hc) as (c' & Hc' & _). rewrite (fr_next _ _ _ H). eauto.
  - intros fd Hfd. by eapply Htr, (fr_trace _ _ _ H).
  - intros k j Hj. destruct (freed_lookup _ _ Hj) as (j' & Hj' & E & _ & _ & _ & _ & Ea).
    unfold auth_ok. rewrite <-E, <-Ea. by eapply Hauth.
  - intros k j Hj. destruct (freed_lookup _ _ Hj) as (j' & Hj' & E & Es & _).
    rewrite <-E, <-Es. by eapply Hsup.
  - by rewrite (fr_base _ _ _ H).
Qed.

Lemma freed_foreign fd : foreign w fd <-> foreign v fd.
Proof.
  unfold foreign. rewrite (fr_open _ _ _ H), elem_of_difference, elem_of_list_to_set. split.
  - intros [[Ho Hl] Hw]. split; [done|]. intros o. destruct (raised_onto o) as [->|[o' ->]]; [done|].
    by rewrite <-freed_fds.
  - intros [Ho Hn]. split; [by split|]. intros o. by rewrite freed_fds.
Qed.
Lemma freed_waiting : waiting w.
Proof.
  split; [by apply freed_ok|]. intros id c j Hc Hj. destruct (freed_client _ _ Hc) as (c' & Hc' & E & Hs).
  destruct (freed_lookup _ _ Hj) as (j' & Hj' & Eg & Ess & El & _). rewrite Hs in Hj'.
  destruct (proj2 Hv id c' j' Hc' Hj') as [Hin Hinv]. rewrite <-Eg, <-Ess, <-El. split; [done|].
  rewrite E. revert Hinv. apply inv_moved.
Qed.
End freed.

(** ** Releasing the clients of an instance *)

(** [w] comes from [v] by giving back descriptors. *)
Definition shrinks (v w : world) : Prop :=
  waiting w /\ (forall fd, foreign w fd <-> foreign v fd) /\ length (w_instances w) = length (w_instances v).

Lemma alike_foreign v w : alike v w -> forall fd, foreign w fd <-> foreign v fd.
Proof.
  intros Ha fd. unfold foreign. rewrite (al_open _ _ Ha).
  split; intros [? Hn]; (split; [done|]); intros o; specialize (Hn o); by rewrite (alike_fds v w o Ha) in *.
Qed.

Lemma alike_length v w : alike v w -> length (w_instances w) = length (w_instances v).
Proof. intros Ha. symmetry. apply (Forall2_length _ _ _ (al_instances _ _ Ha)). Qed.

Lemma released_foreign id c i w :
  world_ok w -> w_clients w !! id = Some c -> w_instances w !! c_instance c = Some i ->
  forall fd, foreign (released id (c_instance c) (client_fds (use_splice (i_config i)) c) w) fd <-> foreign w fd.
Proof.
  intros Hok Hc Hi fd. unfold foreign. rewrite (released_open w id c i Hi), elem_of_difference, elem_of_list_to_set.
  pose proof (fds_client w id c i Hc Hi) as Hf. split.
  - intros [[Ho Hn] Hall]. split; [done|]. intros o. destruct (decide (o = ByClient id)) as [->|Hne].
    + by rewrite Hf.
    + specialize (Hall o). by rewrite (released_fds w id c i Hi), decide_False in Hall.
  - intros [Ho Hall]. split; [split; [done|]|].
    + rewrite <-Hf. apply Hall.
    + intros o. rewrite (released_fds w id c i Hi). case_decide; [apply not_elem_of_nil|apply Hall].
Qed.

Lemma drop_shrinks id c w :
  waiting w -> w_clients w !! id = Some c ->
  wp (redsocks_drop_client id) (fun _ w' => shrinks w w' /\ w_clients w' = delete id (w_clients w)) w.
Proof.
  intros [Hok Hs] Hc. destruct (wk_inst _ Hok _ _ Hc) as [i Hi].
  unfold wp. rewrite (drop_run id c i w Hok Hc Hi).
  destruct (dropped_ok id c i w Hok ltac:(auto) Hc Hi) as (? & ? & ?).
  set (r := released id (c_instance c) (client_fds (use_splice (i_config i)) c) w).
  change (dropped id _ _ w) with (lowered r) in *. split; [split_and!|done].
  - done.
  - intros fd. rewrite (alike_foreign _ _ (alike_lowered r)). by apply released_foreign.
  - rewrite (alike_length _ _ (alike_lowered r)). unfold r. rewrite (released_instances w id c i Hi).
    apply length_insert.
Qed.

Lemma shrinks_trans u v w : shrinks u v -> shrinks v w -> shrinks u w.
Proof. intros (? & H1 & ?) (? & H2 & ?). split_and!; [done| |congruence]. intros fd. by rewrite H2. Qed.

Lemma drop_all_shrinks l w :
  waiting w -> NoDup l -> (forall id, (id ∈ l) -> is_Some (w_clients w !! id)) ->
  wp (for_each l redsocks_drop_client) (fun _ w' => shrinks w w' /\
    (forall id c, w_clients w' !! id = Some c -> (id ∉ l) /\ w_clients w !! id = Some c)) w.
Proof.
  revert w. induction l as [|id l IH]; intros w Hw Hnd Hl; cbn [for_each].
  - apply wp_ret. split; [by split_and!|]. intros id c Hc. split; [apply not_elem_of_nil|done].
  - apply NoDup_cons in Hnd as [Hnin Hnd]. destruct (Hl id ltac:(by left)) as [c Hc].
    apply wp_bind. eapply wp_mono; [by eapply drop_shrinks|]. intros _ w1 [H1 E1].
    eapply wp_mono; [apply IH; [apply H1|done|]|].
    + intros id' Hin. rewrite E1, lookup_delete_ne by (intros ->; done). apply Hl. by right.
    + intros _ w2 [H2 E2]. split; [by eapply shrinks_trans|]. intros id' c' Hc'.
      destruct (E2 _ _ Hc') as [? Hc1]. rewrite E1 in Hc1. apply lookup_delete_Some in Hc1 as [Hne Hc1].
      split; [|done]. by apply not_elem_of_cons.
Qed.

(** ** The rest of [redsocks_fini_instance] *)

(** [u] comes from [v] by closing [fds] and changing the instance [n]. *)
Record closing (n : nat) (fds : list Z) (v u : world) : Prop := {
  cl_clients : w_clients u = w_clients v;
  cl_instances : Forall2 same_instance (delete n (w_instances v)) (delete n (w_instances u));
  cl_length : length (w_instances u) = length (w_instances v);
  cl_open : w_open u = w_open v ∖ list_to_set fds;
  cl_conn : redsocks_conn u = redsocks_conn v;
  cl_base : w_base u = w_base v;
  cl_next : w_next_client u = w_next_client v;
  cl_trace : forall fd, sys_ebadf fd ∈ w_trace u -> sys_ebadf fd ∈ w_trace v }.

Lemma delete_insert_list {A} (n : nat) (x : A) (l : list A) : delete n (<[n := x]> l) = delete n l.
Proof.
  apply list_eq. intros k. rewrite !lookup_skip. apply list_lookup_insert_ne.
  intros E. by apply (skip_ne n k).
Qed.

Lemma closing_refl n w : closing n [] w w.
Proof.
  split; [done| |done| |done..]; [|set_solver]. apply Forall2_delete. apply same_instances_refl.
Qed.

Lemma closing_mod n fds v u f Q :
  closing n fds v u -> (n < length (w_instances v))%nat ->
  (forall i u', w_instances u !! n = Some i -> closing n fds v u' -> w_instances u' !! n = Some (f i) ->
     w_open u' = w_open u -> Q tt u') -> wp (mod_instance n f) Q u.
Proof.
  intros [E1 Hf E2 E3 E4 E5 E6 Ht] Hlt HQ. rewrite <-E2 in Hlt. destruct (lookup_lt_is_Some_2 _ _ Hlt) as [i Hi].
  eapply wp_mod_instance; [done|]. eapply HQ; [done| |cbn; by apply list_lookup_insert_eq|done].
  split; try done; cbn; [by rewrite delete_insert_list|by rewrite length_insert].
Qed.

Lemma closing_close n fd v u Q :
  closing n [] v u -> fd ∈ w_open u -> (forall u', closing n [fd] v u' -> Q tt u') ->
  wp (redsocks_close fd) Q u.
Proof.
  intros [E1 Hf E2 E3 E4 E5 E6 Ht] Hin HQ. unfold wp. rewrite redsocks_close_run by done. apply HQ.
  pose proof (alike_lowered (closed [fd] u)) as Ha. split.
  - by rewrite (al_clients _ _ Ha).
  - etrans; [exact Hf|]. apply Forall2_delete. apply (al_instances _ _ Ha).
  - by rewrite (alike_length _ _ Ha).
  - rewrite (al_open _ _ Ha). cbn. rewrite E3. set_solver.
  - by rewrite (al_conn _ _ Ha).
  - by rewrite (al_base _ _ Ha).
  - by rewrite (al_next _ _ Ha).
  - intros fd' Hfd. apply Ht. apply (al_trace _ _ Ha) in Hfd. cbn in Hfd.
    apply elem_of_app in Hfd as [?|?%list_elem_of_singleton]; done.
Qed.

Lemma closing_free n fds v u Q :
  closing n fds v u -> fds = fds_of v (ByListener n) ->
  (forall u', freed n v u' -> Q tt u') -> wp (free_instance n) Q u.
Proof.
  intros [E1 Hf E2 E3 E4 E5 E6 Ht] -> HQ. apply wp_modify, HQ. split; try done. cbn. by rewrite E1, E2.
Qed.

(** The listener of an instance with nothing left. *)
Lemma close_listener n i w :
  waiting w -> w_instances w !! n = Some i ->
  wp (mod_instance n (fun i => relay_ss_instance_fini (i_relay_ss i) i) ;;
      i ← get_instance n;
      when (i_listener_init i)
        (mod_instance n (i_set_listening false) ;;
         redsocks_close (i_listener_fd i) ;;
         mod_instance n (i_set_listener false 0 false)) ;;
      free_instance n) (fun _ w' => freed n w w') w.
Proof.
  intros [Hok _] Hi. pose proof (lookup_lt_Some _ _ _ Hi) as Hlt.
  assert (Hfds : fds_of w (ByListener n) = if i_listener_init i then [i_listener_fd i] else [])
    by (cbn; by rewrite Hi).
  apply wp_bind. eapply closing_mod; [apply closing_refl|done|]. intros i0 u Hi0 Hu Hui Hopen.
  assert (i0 = i) as -> by congruence. set (i1 := relay_ss_instance_fini (i_relay_ss i) i) in *.
  assert (E : i_listener_init i1 = i_listener_init i /\ i_listener_fd i1 = i_listener_fd i)
    by (unfold i1; by destruct (i_relay_ss i)). destruct E as [E1 E2].
  apply wp_bind. eapply wp_get_instance; [done|]. rewrite E1, E2. clearbody i1.
  apply wp_bind. destruct (i_listener_init i); cbn [when].
  - apply wp_bind. eapply closing_mod; [done..|]. intros i2 u2 _ Hu2 _ Ho2.
    apply wp_bind. eapply closing_close; [done| |].
    { rewrite Ho2, Hopen. apply (wk_open _ Hok (ByListener n)). rewrite Hfds. by left. }
    intros u3 Hu3. eapply closing_mod; [done..|]. intros i4 u4 _ Hu4 _ _.
    eapply closing_free; [done|by rewrite Hfds|auto].
  - apply wp_ret. eapply closing_free; [done|by rewrite Hfds|auto].
Qed.

Lemma fini_instance_run n w :
  waiting w -> (n < length (w_instances w))%nat ->
  wp (redsocks_fini_instance n) (fun _ w' => waiting w' /\ (forall fd, foreign w' fd <-> foreign w fd) /\
    length (w_instances w') = pred (length (w_instances w))) w.
Proof.
  intros Hw Hlt. destruct (lookup_lt_is_Some_2 _ _ Hlt) as [i Hi]. destruct (Hw) as [Hok Hs].
  destruct (wk_listed _ Hok _ _ Hi) as [Hnd Hl].
  apply wp_bind. eapply wp_get_instance; [done|]. apply wp_bind. eapply wp_mono; [apply drop_all_shrinks; try done|].
  { intros id Hin. destruct (Hl id Hin) as (c & ? & _). eauto. }
  intros _ w1 [(Hw1 & Hf1 & Hlen) Hgone]. rewrite <-Hlen in Hlt.
  destruct (lookup_lt_is_Some_2 _ _ Hlt) as [i1 Hi1].
  assert (Hno : forall id c, w_clients w1 !! id = Some c -> c_instance c <> n).
  { intros id c Hc <-. destruct (Hgone _ _ Hc) as [Hnin Hc0]. by destruct (Hs id c i Hc0 Hi). }
  eapply wp_mono; [by eapply close_listener|]. intros [] w2 H2. split_and!.
  - by eapply freed_waiting.
  - intros fd. rewrite <-Hf1. by eapply freed_foreign.
  - rewrite <-(Forall2_length _ _ _ (fr_instances _ _ _ H2)), length_delete by eauto. lia.
Qed.

Lemma fini_instances_run k w :
  waiting w -> length (w_instances w) = k ->
  wp (fini_instances k) (fun _ w' => waiting w' /\ (forall fd, foreign w' fd <-> foreign w fd) /\
    w_instances w' = []) w.
Proof.
  revert w. induction k as [|k IH]; intros w Hw Hk; cbn [fini_instances].
  - apply wp_ret. split_and!; [done..|]. by apply nil_length_inv.
  - apply wp_bind. eapply wp_mono; [apply fini_instance_run; [done|lia]|]. intros _ w1 (Hw1 & Hf1 & Hl).
    eapply wp_mono; [apply IH; [done|lia]|]. intros _ w2 (? & Hf2 & ?). split_and!; [done| |done].
    intros fd. by rewrite Hf2.
Qed.

(** Nothing is left: no client, no instance, only descriptors of others. *)
Definition ended (v w : world) : Prop :=
  w_instances w = [] /\ w_clients w = ∅ /\ redsocks_conn w = 0 /\ (forall fd, fd ∈ w_open w <-> foreign v fd) /\
  (forall fd, sys_ebadf fd ∉ w_trace w).

Lemma fini_run v w :
  waiting w -> (forall fd, foreign w fd <-> foreign v fd) -> wp redsocks_fini (fun r w' => r = 0 /\ ended v w') w.
Proof.
  intros Hw Hf. apply wp_bind, wp_get. apply wp_bind. eapply wp_mono; [by apply fini_instances_run|].
  intros _ w1 ([Hok _] & Hf1 & Hn). apply wp_bind, wp_get.
  assert (Hconn : redsocks_conn w1 = 0) by (rewrite (wk_conn _ Hok); unfold all_listed; by rewrite Hn).
  assert (Hc : w_clients w1 = ∅).
  { apply map_empty. intros id. destruct (w_clients w1 !! id) as [c|] eqn:Hc; [|done].
    destruct (wk_inst _ Hok _ _ Hc) as [? Hi]. by rewrite Hn in Hi. }
  apply wp_bind, wp_assert; [by apply Z.eqb_eq|]. apply wp_ret. split; [done|]. split_and!; try done.
  - intros fd. rewrite <-Hf, <-Hf1. split; [|by intros [? _]]. intros Ho. split; [done|].
    intros [id|n]; cbn; [rewrite Hc, lookup_empty|rewrite Hn, lookup_nil]; apply not_elem_of_nil.
  - apply (wk_trace _ Hok).
Qed.

(** ** Starting *)

(** What the configuration leaves: instances without listener or clients. A limit of 0 is
    replaced later, by [base_init]. *)
Record prepared (w : world) : Prop := {
  cf_clients : w_clients w = ∅;
  cf_fresh : forall n i, w_instances w !! n = Some i -> i_clients i = [] /\ i_listener_init i = false /\
    last_auth_query (i_auth i) = None /\ supported (i_config i) (i_relay_ss i);
  cf_base : connpres_idle_timeout (w_base w) = 0 /\ 0 <= redsocks_conn_max (w_base w) < 2 ^ 32;
  cf_trace : forall fd, sys_ebadf fd ∉ w_trace w }.

(** The limits are given, as [base_onexit] and [base_init] see to. *)
Definition configured (w : world) : Prop :=
  prepared w /\ 0 < redsocks_conn_max (w_base w) /\ 0 < max_accept_backoff_ms (w_base w).

Lemma concat_nil {A} (l : list (list A)) : Forall (.= []) l -> concat l = [].
Proof. induction 1 as [|? ? -> _ IH]; [done|]. by rewrite <-IH at 2. Qed.

Lemma prepared_waiting w : prepared w -> redsocks_conn w = 0 -> waiting w.
Proof.
  intros [Hc Hf [? ?] Ht] Hn.
  assert (Hfds : forall o, fds_of w o = []).
  { intros [id|n]; cbn; [by rewrite Hc, lookup_empty|]. destruct (w_instances w !! n) as [i|] eqn:Hi; [|done].
    by destruct (Hf _ _ Hi) as (_ & -> & _). }
  assert (Hno : forall id c, w_clients w !! id <> Some c) by (intros id c; by rewrite Hc, lookup_empty).
  split; [|intros id c i Hid; by destruct (Hno id c)]. split; try done.
  - intros o. rewrite Hfds. constructor.
  - intros o fd. by rewrite Hfds, elem_of_nil.
  - intros o o' fd. by rewrite Hfds, elem_of_nil.
  - intros id c Hid. by destruct (Hno id c).
  - intros n i Hi. destruct (Hf _ _ Hi) as (-> & _). split; [constructor|]. by intros id ?%not_elem_of_nil.
  - rewrite Hn. unfold all_listed. rewrite concat_nil; [done|]. apply Forall_fmap, Forall_lookup. intros n i Hi.
    apply (Hf _ _ Hi).
  - lia.
  - intros id c Hid. by destruct (Hno id c).
  - intros n i Hi _. apply (Hf _ _ Hi).
  - intros n i Hi. apply (Hf _ _ Hi).
Qed.

(** The first [k] instances listen; [extra] is a descriptor nobody owns yet. *)
Record starting (v : world) (k : nat) (extra : list Z) (w : world) : Prop := {
  st_waiting : waiting w;
  st_clients : w_clients w = ∅;
  st_length : length (w_instances w) = length (w_instances v);
  st_backoff : accept_backoff_ev w = None;
  st_base : w_base w = w_base v;
  st_foreign : forall fd, foreign w fd <-> foreign v fd \/ fd ∈ extra;
  st_done : forall n i, (n < k)%nat -> w_instances w !! n = Some i -> i_listening i = true;
  st_left : forall n i, (k <= n)%nat -> w_instances w !! n = Some i ->
    i_listener_init i = false /\ last_auth_query (i_auth i) = None }.

Lemma starting_aside v k extra w w' : aside w w' -> starting v k extra w -> starting v k extra w'.
Proof.
  intros Ha [? ? ? ? ? Hf ? ?]. pose proof (aside_alike _ _ Ha) as Hal.
  destruct Ha as (Ec & Ei & En & Ev & Eb & _). split; try congruence.
  - by eapply waiting_alike.
  - intros fd. by rewrite (alike_foreign _ _ Hal).
  - by rewrite Ei.
  - by rewrite Ei.
Qed.

Lemma starting_quiet {A} v k extra (m : M A) Q w :
  quiet m -> starting v k extra w -> (forall a w, starting v k extra w -> Q a w) -> wp m Q w.
Proof. intros Hm H HQ. apply Hm. intros a w' Ha. apply HQ. by eapply starting_aside. Qed.

Lemma starting_open v k Q w :
  starting v k [] w -> (forall e w, starting v k [] w -> Q (inr e) w) ->
  (forall fd w, starting v k [fd] w -> 0 <= fd -> fd ∈ w_open w -> (forall o, fd ∉ fds_of w o) ->
     ~ foreign v fd -> Q (inl fd) w) -> wp open_fd Q w.
Proof.
  intros H Hno Hyes. apply wp_open_fd.
  - intros e a. apply Hno. eapply starting_aside; [|done]. done.
  - intros fd a Hfresh Hpos. destruct H as [[[Hown Ho Hd Hin Hl Hc Hm Hn Ht Ha Hs Hi] Hset] ? ? ? ? Hf ? ?].
    assert (Hnot : forall o, fd ∉ fds_of w o) by (intros o Hin'; by apply Hfresh, (Ho o)).
    apply Hyes; [|done|cbn; set_solver|exact Hnot|]; [split; try done|].
    + split; [|exact Hset]. split; try done. cbn. intros o fd' Hin'. apply elem_of_union_r. eauto.
    + intros fd'. specialize (Hf fd'). unfold foreign in *. cbn [w_open w_set_open w_set_answers].
      rewrite elem_of_union, elem_of_singleton, list_elem_of_singleton. rewrite elem_of_nil in Hf. split.
      * intros [[->|Ho'] Hn']; [by right|]. destruct (proj1 Hf (conj Ho' Hn')); [by left|done].
      * intros [Hv| ->]; [|by split; [left|]]. destruct (proj2 Hf (or_introl Hv)). split; [by right|done].
    + intros Hv. by destruct (proj2 (Hf fd) (or_introl Hv)).
Qed.

(** A failed instance is released with its descriptor. *)
Lemma fini_failed v k extra w :
  starting v k extra w -> (k < length (w_instances v))%nat ->
  wp (redsocks_fini_instance k) (fun _ w => waiting w /\ forall fd, foreign w fd <-> foreign v fd \/ fd ∈ extra) w.
Proof.
  intros [Hw _ Hl _ _ Hf _ _] Hlt. eapply wp_mono; [apply fini_instance_run; [done|lia]|].
  intros _ w' (? & Hf' & _). split; [done|]. intros fd. by rewrite Hf'.
Qed.

Lemma close_failed v fd w :
  waiting w -> (forall fd', foreign w fd' <-> foreign v fd' \/ fd' ∈ [fd]) -> ~ foreign v fd ->
  wp (redsocks_close fd) (fun _ w => waiting w /\ forall fd, foreign w fd <-> foreign v fd) w.
Proof.
  intros [Hok Hs] Hf Hnv. destruct (proj2 (Hf fd)) as [Hopen Hn]; [right; by left|].
  unfold wp. rewrite redsocks_close_run by done. pose proof (alike_lowered (closed [fd] w)) as Ha. split.
  - apply (waiting_alike _ _ Ha). destruct Hok. split; [|done]. split; try done.
    + intros o fd' Hin. change (w_open (closed [fd] w)) with (w_open w ∖ list_to_set [fd]).
      apply elem_of_difference. split; [eauto|]. rewrite elem_of_list_to_set, list_elem_of_singleton.
      intros ->. by eapply Hn.
    + intros fd'. cbn. rewrite elem_of_app, list_elem_of_singleton. intros [?|?]; [|done]. by eapply wk_trace.
  - intros fd'. rewrite (alike_foreign _ _ Ha). specialize (Hf fd'). rewrite list_elem_of_singleton in Hf.
    unfold foreign in *. cbn [w_open closed]. rewrite elem_of_difference, elem_of_list_to_set, list_elem_of_singleton.
    change (forall o, fd' ∉ fds_of (closed [fd] w) o) with (forall o, fd' ∉ fds_of w o).
    split; [naive_solver|]. intros Hv. assert (fd' <> fd) by (intros ->; done). naive_solver.
Qed.

(** Instance [k] becomes [j], which listens on the new descriptor. *)
Section listener.
Context (v w : world) (k : nat) (fd : Z) (i j : redsocks_instance).
Context (H : starting v k [fd] w) (Hi : w_instances w !! k = Some i) (Hnv : ~ foreign v fd).
Context (Hj : i_clients j = i_clients i /\ i_listener_init j = true /\ i_listener_fd j = fd /\ auth_ok j /\
  supported (i_config j) (i_relay_ss j)).
Let w' := w_set_instances (<[k := j]> (w_instances w)) w.

Lemma spare_new : fd ∈ w_open w /\ forall o, fd ∉ fds_of w o.
Proof. apply (st_foreign _ _ _ _ H). right. by left. Qed.

Lemma listener_lookup n j' : w_instances w' !! n = Some j' ->
  n = k /\ j' = j \/ n <> k /\ w_instances w !! n = Some j'.
Proof. unfold w'. cbn. intros [(<- & <- & _)|[? ?]]%list_lookup_insert_Some; [by left|by right]. Qed.

Lemma listener_fds : fds_of w' (ByListener k) = [fd] /\ fds_of w (ByListener k) = [].
Proof.
  unfold w'. cbn. rewrite list_lookup_insert_eq by by eapply lookup_lt_Some. rewrite Hi.
  destruct (st_left _ _ _ _ H k i) as [-> _]; [done..|]. by destruct Hj as (_ & -> & -> & _).
Qed.

Lemma listener_fds_ne o : o <> ByListener k -> fds_of w' o = fds_of w o.
Proof.
  destruct o as [id|n]; intros Hne; cbn.
  - by rewrite (st_clients _ _ _ _ H), lookup_empty.
  - by rewrite list_lookup_insert_ne by congruence.
Qed.

Lemma listener_sub o fd' : fd' ∈ fds_of w' o -> fd' ∈ fds_of w o \/ fd' = fd /\ o = ByListener k.
Proof.
  destruct (decide (o = ByListener k)) as [->|Hne]; [|rewrite listener_fds_ne by done; by left].
  rewrite (proj1 listener_fds), list_elem_of_singleton. by right.
Qed.

Lemma listener_ok : world_ok w'.
Proof.
  destruct spare_new as [Hopen Hn]. destruct Hj as (Ec & _ & _ & Ea & Es).
  destruct (proj1 (st_waiting _ _ _ _ H)) as [Hown Ho Hdj Hin Hls Hcn Hmx Hnx Ht Ha Hsp Hid]. split; try done.
  - intros o. destruct (decide (o = ByListener k)) as [->|Hne]; [|rewrite listener_fds_ne by done; auto].
    rewrite (proj1 listener_fds). apply NoDup_singleton.
  - intros o fd' [Hx|[-> _]]%listener_sub; [by eapply Ho|done].
  - intros o o' fd' [Hx|[-> ->]]%listener_sub [Hy|[Hz ->]]%listener_sub; [by eapply Hdj| | |done].
    + subst. by destruct (Hn o).
    + by destruct (Hn o').
  - intros id c Hc. cbn in Hc. by rewrite (st_clients _ _ _ _ H), lookup_empty in Hc.
  - intros n j' [[-> ->]|[_ Hj']]%listener_lookup; [rewrite Ec; by apply (Hls k i)|by apply Hls].
  - change (redsocks_conn w') with (redsocks_conn w). rewrite Hcn. unfold all_listed, w'. cbn.
    rewrite list_fmap_insert, Ec. rewrite list_insert_id; [done|]. by rewrite list_lookup_fmap, Hi.
  - intros n j' [[-> ->]|[_ Hj']]%listener_lookup; [done|by eapply Ha].
  - intros n j' [[-> ->]|[_ Hj']]%listener_lookup; [done|by eapply Hsp].
Qed.

Lemma listener_foreign fd' : foreign w' fd' <-> foreign v fd'.
Proof.
  destruct listener_fds as [Hk Hk0].
  pose proof (st_foreign _ _ _ _ H fd') as Hf. rewrite list_elem_of_singleton in Hf. unfold foreign in *. split.
  - intros [Ho' Hn'].
    assert (Hw : forall o, fd' ∉ fds_of w o).
    { intros o. destruct (decide (o = ByListener k)) as [->|Hne]; [rewrite Hk0; apply not_elem_of_nil|].
      rewrite <-listener_fds_ne by done. apply Hn'. }
    destruct (proj1 Hf (conj Ho' Hw)) as [?| ->]; [done|]. destruct (Hn' (ByListener k)). rewrite Hk. by left.
  - intros Hv. destruct (proj2 Hf (or_introl Hv)) as [Ho' Hn']. split; [done|].
    intros o [Hx|[-> _]]%listener_sub; [by eapply Hn'|done].
Qed.

Lemma listener_waiting : waiting w'.
Proof.
  split; [apply listener_ok|]. intros id c j' Hc. cbn in Hc.
  by rewrite (st_clients _ _ _ _ H), lookup_empty in Hc.
Qed.

Lemma listener_added : i_listening j = true -> starting v (S k) [] w'.
Proof.
  intros Hl. split.
  - apply listener_waiting.
  - apply (st_clients _ _ _ _ H).
  - cbn. rewrite length_insert. apply (st_length _ _ _ _ H).
  - apply (st_backoff _ _ _ _ H).
  - apply (st_base _ _ _ _ H).
  - intros fd'. rewrite listener_foreign, elem_of_nil. tauto.
  - intros n j' Hlt [[-> ->]|[Hne Hj']]%listener_lookup; [done|]. apply (st_done _ _ _ _ H n); [lia|done].
  - intros n j' Hlt [[-> ->]|[_ Hj']]%listener_lookup; [lia|]. apply (st_left _ _ _ _ H n); [lia|done].
Qed.
End listener.

(** What opening a listener leaves of an instance. *)
Lemma instance_init_ok i fd :
  auth_ok i -> supported (i_config i) (i_relay_ss i) -> last_auth_query (i_auth i) = None ->
  let j1 := i_set_listener true fd false i in
  let j2 := relay_ss_instance_init (i_relay_ss (i_set_listening true j1)) (i_set_listening true j1) in
  forall j, j = j1 \/ j = j2 -> i_clients j = i_clients i /\ i_listener_init j = true /\ i_listener_fd j = fd /\ auth_ok j /\
    supported (i_config j) (i_relay_ss j).
Proof.
  intros Ha Hs Hq j1 j2 j [-> | ->]; [done|]. unfold j2, j1, relay_ss_instance_init. cbn [i_relay_ss i_set_listening i_set_listener].
  destruct (i_relay_ss i) eqn:Ess; try (by split_and!; [..|cbn; by rewrite Ess]).
  unfold Socks5.socks5_instance_init. cbn [i_config i_set_listening i_set_listener].
  assert (E : forall l p, supported (Socks5.set_creds l p (i_config i)) socks5_subsys).
  { by intros l p. }
  destruct (login (i_config i)), (password (i_config i)); repeat case_match; (split_and!; [done..| |]); try done;
    first [by intros _ | cbn; rewrite ?Ess in *; first [done | apply E]].
Qed.

(** A state of [redsocks_init_instance]: success, or nothing left of the instance. *)
Definition init_result (v : world) (k : nat) (r : Z) (w : world) : Prop :=
  r = 0 /\ starting v (S k) [] w \/ r = -1 /\ waiting w /\ forall fd, foreign w fd <-> foreign v fd.

(** The end of [redsocks_init_instance], once the socket listens. *)
Lemma init_listening v k fd w :
  starting v k [fd] w -> (k < length (w_instances v))%nat -> ~ foreign v fd ->
  wp (mod_instance k (i_set_listener true fd false) ;;
      ok ← try_call;
      if negb ok then redsocks_fini_instance k ;; mret tt ;; mret (-1) else
      mod_instance k (i_set_listening true) ;;
      mod_instance k (fun i => relay_ss_instance_init (i_relay_ss i) i) ;;
      mret 0) (init_result v k) w.
Proof.
  intros H Hlt Hnv. rewrite <-(st_length _ _ _ _ H) in Hlt. destruct (lookup_lt_is_Some_2 _ _ Hlt) as [i Hi].
  destruct (proj1 (st_waiting _ _ _ _ H)) as [_ _ _ _ _ _ _ _ _ Ha Hs _].
  destruct (st_left _ _ _ _ H k i) as [_ Hq]; [done..|].
  pose proof (instance_init_ok i fd (Ha _ _ Hi) (Hs _ _ Hi) Hq) as Hj. cbv zeta in Hj.
  set (j1 := i_set_listener true fd false i) in *.
  set (j2 := relay_ss_instance_init (i_relay_ss (i_set_listening true j1)) (i_set_listening true j1)) in *.
  pose proof (Hj j1 (or_introl eq_refl)) as Hj1. pose proof (Hj j2 (or_intror eq_refl)) as Hj2.
  pose proof (listener_waiting v w k fd i j1 H Hi Hj1) as Hwait.
  pose proof (listener_foreign v w k fd i j1 H Hi Hnv Hj1) as Hfor.
  assert (Hl2 : i_listening j2 = true).
  { unfold j2, relay_ss_instance_init. cbn. destruct (i_relay_ss i); try done.
    unfold Socks5.socks5_instance_init. cbn. by repeat case_match. }
  pose proof (listener_added v w k fd i j2 H Hi Hnv Hj2 Hl2) as Hadd.
  apply wp_bind. eapply wp_mod_instance; [done|]. fold j1. set (w1 := w_set_instances (<[k := j1]> (w_instances w)) w) in *.
  assert (Hi1 : w_instances w1 !! k = Some j1) by by apply list_lookup_insert_eq.
  apply wp_bind, wp_bind, wp_answer. intros e a. apply wp_ret. destruct (e =? 0); cbn [negb].
  - apply wp_bind. eapply wp_mod_instance; [exact Hi1|].
    apply wp_bind. eapply wp_mod_instance; [cbn; apply list_lookup_insert_eq; by rewrite length_insert|].
    apply wp_ret. left. split; [done|]. eapply starting_aside; [|exact Hadd]. cbn. rewrite !list_insert_insert_eq. done.
  - pose proof (aside_alike w1 (w_set_answers a w1) ltac:(done)) as Hal.
    apply wp_bind. eapply wp_mono; [apply (fini_instance_run k)|]; [by eapply waiting_alike|by eapply lookup_lt_Some|].
    intros _ w3 (? & Hf3 & _). apply wp_bind, wp_ret, wp_ret. right. split_and!; [done..|].
    intros fd'. by rewrite Hf3, (alike_foreign _ _ Hal).
Qed.

(** One guarded call of a quiet operation. *)
Local Ltac next q :=
  apply wp_bind; eapply starting_quiet; [q|eassumption|];
  match goal with H : starting _ _ _ ?x |- _ => clear H; clear x end;
  let w := fresh "w" in let H := fresh "H" in intros [|] w H; cbn [negb]; [|by auto].

Lemma init_instance_run v k w :
  starting v k [] w -> (k < length (w_instances v))%nat -> wp (redsocks_init_instance k) (init_result v k) w.
Proof.
  intros H Hlt. apply wp_bind. eapply starting_open; [done|clear w H; intros e w H|clear w H; intros fd w H Hpos _ _ Hnv].
  { apply wp_bind. eapply wp_mono; [by eapply fini_failed|]. intros _ w' [Hw Hf].
    apply wp_bind, wp_ret, wp_ret. right. split_and!; [done..|]. intros fd. rewrite Hf, elem_of_nil. tauto. }
  assert (Hfail : forall w, starting v k [fd] w ->
    wp (redsocks_fini_instance k ;; redsocks_close fd ;; mret (-1)) (init_result v k) w).
  { clear w H. intros w H. apply wp_bind. eapply wp_mono; [by eapply fini_failed|]. intros _ w' [Hw Hf].
    apply wp_bind. eapply wp_mono; [by eapply close_failed|]. intros _ w'' [? ?]. apply wp_ret. by right. }
  next ltac:(apply quiet_try_call). next ltac:(apply quiet_try_call). next ltac:(apply quiet_fcntl).
  next ltac:(apply quiet_try_call). by apply init_listening.
Qed.

Lemma init_instances_run v k n w :
  starting v n [] w -> (n + k = length (w_instances v))%nat ->
  wp (init_instances n k) (fun ok w' => ok = true /\ starting v (length (w_instances v)) [] w' \/
    ok = false /\ waiting w' /\ forall fd, foreign w' fd <-> foreign v fd) w.
Proof.
  revert n w. induction k as [|k IH]; intros n w H Hk; cbn [init_instances].
  - apply wp_ret. left. split; [done|]. by replace (length (w_instances v)) with n by lia.
  - apply wp_bind. eapply wp_mono; [apply (init_instance_run v); [done|lia]|].
    intros r w' [[-> H']|[-> ?]]; [|by right]. apply IH; [done|lia].
Qed.

(** Every instance listens, and nobody came yet. *)
Record ready (w : world) : Prop := {
  rd_waiting : waiting w;
  rd_conn : redsocks_conn w = 0;
  rd_backoff : accept_backoff_ev w = None;
  rd_listening : forall n i, w_instances w !! n = Some i -> i_listening i = true }.

Lemma ready_sound w :
  ready w -> 0 < redsocks_conn_max (w_base w) < 2 ^ 32 -> 0 < max_accept_backoff_ms (w_base w) -> sound w.
Proof.
  intros [[Hok Hs] Hn Hb Hl] Hm Hbo. split_and!; [done| |done]. split; [|rewrite Hn; intros ?; exfalso; lia|intros _; by exists true].
  unfold within. rewrite Hn. lia.
Qed.

Lemma starting_ready v w :
  starting v (length (w_instances v)) [] w -> ready w /\ w_base w = w_base v /\
    length (w_instances w) = length (w_instances v) /\ forall fd, foreign w fd <-> foreign v fd.
Proof.
  intros [[Hok Hs] Hc Hl Hb Hm Hf Hd Hr]. rewrite <-Hl in Hd.
  assert (Hf' : forall fd, foreign w fd <-> foreign v fd) by (intros fd; rewrite Hf, elem_of_nil; tauto).
  assert (Hlis : forall n i, w_instances w !! n = Some i -> i_listening i = true).
  { intros n i Hi. apply (Hd n); [by eapply lookup_lt_Some|done]. }
  assert (Hn : redsocks_conn w = 0).
  { rewrite (wk_conn _ Hok). unfold all_listed. rewrite concat_nil; [done|].
    apply Forall_fmap, Forall_lookup. intros n i Hi. cbn. destruct (i_clients i) as [|id l] eqn:E; [done|].
    destruct (wk_listed _ Hok _ _ Hi) as [_ Hls]. destruct (Hls id) as (c & Hcl & _); [rewrite E; by left|].
    by rewrite Hc, lookup_empty in Hcl. }
  done.
Qed.

Lemma prepared_foreign w fd : prepared w -> foreign w fd <-> fd ∈ w_open w.
Proof.
  intros H. split; [by intros [? _]|]. intros Hin. split; [done|]. intros [id|n]; cbn.
  - rewrite (cf_clients _ H), lookup_empty. apply not_elem_of_nil.
  - destruct (w_instances w !! n) as [i|] eqn:Hi; [|apply not_elem_of_nil].
    destruct (cf_fresh _ H _ _ Hi) as (_ & -> & _). apply not_elem_of_nil.
Qed.

Lemma prepared_alike w w' :
  prepared w -> w_clients w' = w_clients w -> w_instances w' = w_instances w -> w_base w' = w_base w ->
  w_trace w' = w_trace w -> prepared w'.
Proof. intros [? ? ? ?] E1 E2 E3 E4. split; by rewrite ?E1, ?E2, ?E3, ?E4. Qed.

Lemma init_failed v w :
  prepared v -> waiting w -> (forall fd, foreign w fd <-> foreign v fd) ->
  wp (redsocks_fini ;; mret (-1)) (fun r w' => r = -1 /\ forall fd, fd ∈ w_open w' <-> fd ∈ w_open v) w.
Proof.
  intros Hv Hw Hf. apply wp_bind. eapply wp_mono; [by eapply fini_run|].
  intros _ w' [_ (_ & _ & _ & Ho & _)]. apply wp_ret. split; [done|]. intros fd. rewrite Ho.
  by apply prepared_foreign.
Qed.

Lemma init_run v :
  prepared v ->
  wp redsocks_init (fun r w => r = 0 /\ (ready w /\ w_base w = w_base v /\
      length (w_instances w) = length (w_instances v) /\ forall fd, foreign w fd <-> fd ∈ w_open v) \/
    r = -1 /\ forall fd, fd ∈ w_open w <-> fd ∈ w_open v) v.
Proof.
  intros Hv. apply wp_bind, wp_modify. set (w0 := w_set_conn 0 v).
  apply wp_bind, wp_bind, wp_answer. intros e a. apply wp_ret. destruct (e =? 0); cbn [negb];
    [|apply wp_ret; right; done].
  apply wp_bind, wp_bind, wp_answer. intros e' a'. apply wp_ret.
  set (w1 := w_set_answers a' _). assert (Hc1 : prepared w1) by by eapply prepared_alike.
  assert (Hf1 : forall fd, foreign w1 fd <-> foreign v fd).
  { intros fd. by rewrite !prepared_foreign. }
  assert (Hw1 : waiting w1) by by apply prepared_waiting.
  destruct (e' =? 0); cbn [negb].
  2:{ eapply wp_mono; [by eapply init_failed|]. auto. }
  apply wp_bind, wp_modify, wp_bind, wp_get. set (w2 := w_set_backoff _ _ w1).
  assert (Hst : starting w2 0 [] w2).
  { split; try done.
    - eapply waiting_alike; [|exact Hw1]. by apply alike_intro.
    - apply (cf_clients _ Hc1).
    - intros fd. rewrite elem_of_nil. tauto.
    - intros n i ?. lia.
    - intros n i _ Hi. by destruct (cf_fresh _ Hc1 n i Hi) as (_ & ? & ? & _). }
  apply wp_bind. eapply wp_mono; [by apply (init_instances_run w2)|].
  intros ok w3 [[-> H3]|[-> [H3 Hf3]]].
  - apply wp_ret. left. split; [done|]. destruct (starting_ready w2 w3 H3) as (? & ? & ? & Hf3). split_and!; try done.
    intros fd. rewrite Hf3. change (foreign w2 fd) with (foreign w1 fd). rewrite Hf1. by apply prepared_foreign.
  - eapply wp_mono; [eapply (init_failed v); [done..|]|].
    + intros fd. rewrite Hf3. change (foreign w2 fd) with (foreign w1 fd). apply Hf1.
    + auto.
Qed.

(** ** The process from start to end *)

Section process.
Context (ctx : MD5.md5_state) {LR : LineReader}.

(** [w] is a state of the event loop of a process started from [v]. *)
Definition running (v w : world) : Prop := exists w0, redsocks_init v = Ok 0 w0 /\ reachable ctx w0 w.

Lemma running_sound v w : configured v -> running v w -> sound w.
Proof.
  intros (Hv & Hm & Hbo) (w0 & Hi & Hr). pose proof (init_run v Hv) as Hwp. unfold wp in Hwp. rewrite Hi in Hwp.
  destruct Hwp as [(_ & Hs & Hb & _)|[? _]]; [|done]. eapply reachable_sound; [|done].
  apply ready_sound; rewrite ?Hb; try done. pose proof (cf_base _ Hv). lia.
Qed.

(** C1: A process started from any supported configuration ([configured]: SOCKS or
    http-connect without credentials with either pump, no idle dropping, a connection limit
    and a back-off limit other than 0) handles every event libevent can deliver, in every
    order and whatever system calls fail, without a failed assertion, a use of freed memory,
    a NULL pointer or a division by zero. *)
Theorem event_loop_safe v w e :
  configured v -> running v w -> enabled e w -> exists w', handle ctx e w = Ok tt w'.
Proof.
  intros Hv Hr He. pose proof (handle_sound ctx e w (running_sound v w Hv Hr) He) as H.
  apply wp_run in H as ([] & w' & H & _). eauto.
Qed.

(** C12: While a process with a supported configuration ([configured]) runs, a descriptor of
    a client or of a listener is open, has one owner and occurs once there, and no close of
    a closed descriptor was made. *)
Theorem descriptors_owned_once v w :
  configured v -> running v w ->
  (forall o, NoDup (fds_of w o)) /\ (forall o fd, fd ∈ fds_of w o -> fd ∈ w_open w) /\
  (forall o o' fd, fd ∈ fds_of w o -> fd ∈ fds_of w o' -> o = o') /\ (forall fd, sys_ebadf fd ∉ w_trace w).
Proof. intros Hv Hr. by destruct (running_sound v w Hv Hr) as [[? ? ? ? ? ? ? ? ? ? ? ?] _]. Qed.

(** C24: While a process with a supported configuration ([configured]) runs, the allocated
    clients are exactly the listed ones, each in the list of its instance; [redsocks_conn]
    is their number and never exceeds [redsocks_conn_max]. *)
Theorem connections_counted v w :
  configured v -> running v w ->
  redsocks_conn w = zlen (all_listed w) /\ redsocks_conn w <= redsocks_conn_max (w_base w) /\
  forall id n, (exists c, w_clients w !! id = Some c /\ c_instance c = n) <->
    (exists i, w_instances w !! n = Some i /\ id ∈ i_clients i).
Proof.
  intros Hv Hr. destruct (running_sound v w Hv Hr) as (Hok & Hp & Hs).
  split; [apply (wk_conn _ Hok)|]. split; [apply (pr_max _ Hp)|]. intros id n. split.
  - intros (c & Hc & <-). destruct (wk_inst _ Hok _ _ Hc) as [i Hi]. destruct (Hs id c i Hc Hi). eauto.
  - intros (i & Hi & Hin). destruct (wk_listed _ Hok _ _ Hi) as [_ Hl]. by apply Hl.
Qed.

(** While the process runs it accepts connections on every instance, or the back-off
    timer is pending, or (after the timer could not be added) it accepts on none; it never
    accepts when [redsocks_conn_max] is reached. *)
Theorem accepts_or_backs_off v w :
  configured v -> running v w ->
  (is_Some (accept_backoff_ev w) \/ exists b, forall n i, w_instances w !! n = Some i -> i_listening i = b) /\
  (forall n i, w_instances w !! n = Some i -> i_listening i = true -> redsocks_conn w < redsocks_conn_max (w_base w)).
Proof.
  intros Hv Hr. pose proof (running_sound v w Hv Hr) as Hs. split.
  - destruct (accept_backoff_ev w) as [d|] eqn:E; [left; eauto|right]. by apply (pr_alive w), E; destruct Hs as (_ & ? & _).
  - intros n i. by apply conn_below.
Qed.

(** Shutting the process down in any state of its event loop releases every client
    and every instance, passes the assertion on [redsocks_conn], and closes exactly
    the descriptors the process owned. *)
Theorem shutdown_releases v w :
  configured v -> running v w ->
  exists w', redsocks_fini w = Ok 0 w' /\ w_clients w' = ∅ /\ w_instances w' = [] /\
    (forall fd, fd ∈ w_open w' <-> fd ∈ w_open w /\ forall o, fd ∉ fds_of w o) /\
    forall fd, sys_ebadf fd ∉ w_trace w'.
Proof.
  intros Hv Hr. destruct (running_sound v w Hv Hr) as (Hok & _ & Hs).
  pose proof (fini_run w w (conj Hok Hs) ltac:(done)) as H. apply wp_run in H as (r & w' & Hrun & -> & ? & ? & ? & ? & ?).
  by exists w'.
Qed.

End process.

(** [redsocks_init] never faults: it reports success with every instance listening
    and no connection counted, or failure with every descriptor it opened closed
    again. *)
Theorem init_outcome v :
  prepared v -> exists r w, redsocks_init v = Ok r w /\
    (r = 0 /\ redsocks_conn w = 0 /\ length (w_instances w) = length (w_instances v) /\
       (forall n i, w_instances w !! n = Some i -> i_listening i = true) \/
     r = -1 /\ forall fd, fd ∈ w_open w <-> fd ∈ w_open v).
Proof.
  intros Hv. pose proof (init_run v Hv) as H.
  apply wp_run in H as (r & w & Hrun & [(-> & [_ Hn _ Hl] & _ & Hlen & _)|?]); exists r, w || exists 0, w;
    (split; [done|]); [by left|by right].
Qed.

(** ** A process to run the theorems on *)

Definition loopback (port : bytes) : sockaddr_in := mk_sockaddr [127; 0; 0; 1] port.
Definition some_config (ss : relay_subsys) : redsocks_instance :=
  mk_instance (mk_config (loopback [48; 57]) (loopback [4; 56]) None None None 128 false DISCLOSE_NONE ONFAIL_CLOSE)
    false 0 false [] ss (mk_http_auth None 0).
(** Two instances, at most one client. *)
Definition boot : world :=
  mk_world ∅ [some_config socks5_subsys; some_config http_connect_subsys] 0 0 None
    (mk_base 1 0 60000 0 0 0) {[0; 1; 2]} 1 0 [] [] [] [].

Lemma boot_configured : configured boot.
Proof.
  split; [|done]. split; [done| |done|intros fd; apply not_elem_of_nil].
  intros [|[|n]] i; cbn; intros [= <-]; (split_and!; [done..|]); (split_and!; [done..|by left]).
Qed.

(** The state after [redsocks_init], and after the first client was accepted. *)
Definition run_to {A} (m : M A) (w : world) : world := match m w with Ok _ w' => w' | _ => w end.
Definition booted : world := run_to redsocks_init boot.
Definition first_client : input_event := ev_accept 0 (loopback [200; 1]) (loopback [0; 80]).
Definition some_ctx : MD5.md5_state := MD5.mk_md5_state 0 0 (0, 0, 0, 0) [].
Definition accepted : world := run_to (handle some_ctx first_client) booted.

Lemma boot_runs : running some_ctx boot accepted.
Proof.
  exists booted. split; [vm_compute; reflexivity|]. eapply (reach_step _ _ _ tt); [apply reach_refl|].
  replace (Ok tt accepted) with (handle some_ctx first_client booted) by (vm_compute; reflexivity).
  apply step_event. eexists. split; [vm_compute; reflexivity|done].
Qed.

(** In [accepted] the connection to the proxy becomes writable. *)
Lemma event_loop_safe_witness :
  enabled (ev_writable 1 Relay 0) accepted /\
  exists w', handle some_ctx (ev_writable 1 Relay 0) accepted = Ok tt w'.
Proof.
  assert (H : enabled (ev_writable 1 Relay 0) accepted).
  { eexists _, _. split_and!; [vm_compute; reflexivity|vm_compute; reflexivity|done|by left]. }
  split; [done|]. exact (event_loop_safe some_ctx boot accepted _ boot_configured boot_runs H).
Defined.

Lemma descriptors_owned_once_witness :
  fds_of accepted (ByClient 1) = [5; 6] /\ forall fd, sys_ebadf fd ∉ w_trace accepted.
Proof.
  split; [vm_compute; reflexivity|].
  apply (descriptors_owned_once some_ctx boot accepted boot_configured boot_runs).
Defined.

Lemma connections_counted_witness : redsocks_conn accepted = 1 /\ zlen (all_listed accepted) = 1.
Proof.
  split; [vm_compute; reflexivity|].
  by rewrite <-(proj1 (connections_counted some_ctx boot accepted boot_configured boot_runs)).
Defined.

Lemma accepts_or_backs_off_witness :
  is_Some (accept_backoff_ev accepted) \/ exists b, forall n i, w_instances accepted !! n = Some i -> i_listening i = b.
Proof. exact (proj1 (accepts_or_backs_off some_ctx boot accepted boot_configured boot_runs)). Defined.

Lemma shutdown_releases_witness :
  exists w', redsocks_fini accepted = Ok 0 w' /\ w_clients w' = ∅ /\ w_instances w' = [].
Proof.
  destruct (shutdown_releases some_ctx boot accepted boot_configured boot_runs) as (w' & H1 & H2 & H3 & _).
  exact (ex_intro _ w' (conj H1 (conj H2 H3))).
Defined.

Lemma init_outcome_witness : exists r w, redsocks_init boot = Ok r w.
Proof. destruct (init_outcome boot (proj1 boot_configured)) as (r & w & H & _). exact (ex_intro _ r (ex_intro _ w H)). Defined.

End Lifecycle.
