(* ===== verification/Settings.v ===== *)
(** * The settings do not change while the process runs

    Handling an event changes neither the base settings nor the configuration of an
    instance. A class of computations that leave them alone, closed under the ways the code
    is put together, shows this for every callback at once; the bound on the descriptors
    of the process rests on it. *)

From S2P Require Import Prelude CLib MD5 EvBuffer HttpAuth World HttprBuffer Redsocks Ownership ClientLogic Flow.
From S2P Require Import Splice Socks5 Socks4 HttpConnect HttpRelay Accept EventLoop Lifecycle.
Import EvBuffer Redsocks Ownership Flow Splice Accept EventLoop Lifecycle.
Open Scope Z_scope.

Module Settings.

(** The base settings and the configuration of each instance. *)
Definition settings (w : world) : base_config * list redsocks_config := (w_base w, i_config <$> w_instances w).

Class Keeps {A} (m : M A) : Prop := keeps : forall w a w', m w = Ok a w' -> settings w' = settings w.

#[export] Instance keeps_ret {A} (a : A) : Keeps (mret a).
Proof. by intros w a' w' [= _ <-]. Qed.
#[export] Instance keeps_bind {A B} (m : M A) (f : A -> M B) : Keeps m -> (forall a, Keeps (f a)) -> Keeps (x ← m; f x).
Proof.
  intros Hm Hf w b w'. unfold mbind, M_bind. destruct (m w) as [a w1| |] eqn:E; [|done..].
  intros H. rewrite (Hf a _ _ _ H). by apply (Hm _ _ _ E).
Qed.
#[export] Instance keeps_fault {A} : Keeps (@fault A).
Proof. done. Qed.
#[export] Instance keeps_assert b : Keeps (assert b).
Proof. intros w a w'. unfold assert. destruct b; [|done]. by intros [= _ <-]. Qed.
#[export] Instance keeps_get : Keeps get.
Proof. by intros w a w' [= _ <-]. Qed.
Lemma keeps_modify f : (forall w, settings (f w) = settings w) -> Keeps (modify f).
Proof. intros H w a w' [= _ <-]. apply H. Qed.
#[export] Instance keeps_when b m : Keeps m -> Keeps (when b m).
Proof. destruct b; [done|]. intros _. apply keeps_ret. Qed.
#[export] Instance keeps_for_each {A} (l : list A) m : (forall x, Keeps (m x)) -> Keeps (for_each l m).
Proof. intros H. induction l; cbn; apply _. Qed.
#[export] Instance keeps_fold {A} (f : A -> Z -> M A) l a : (forall a x, Keeps (f a x)) -> Keeps (fold_m f a l).
Proof. intros H. revert a. induction l; intros a'; cbn; apply _. Qed.

(** The primitives on clients, instances and the environment. *)
#[export] Instance keeps_get_client id : Keeps (get_client id).
Proof. intros w a w'. unfold get_client. case_match; [|done]. by intros [= _ <-]. Qed.
#[export] Instance keeps_mod_client id f : Keeps (mod_client id f).
Proof. apply keeps_bind; [apply _|]. intros c w a w'. unfold put_client. case_match; [|done]. by intros [= _ <-]. Qed.
#[export] Instance keeps_free_client id : Keeps (free_client id).
Proof. intros w a w'. unfold free_client. case_match; [|done]. by intros [= _ <-]. Qed.
#[export] Instance keeps_get_instance n : Keeps (get_instance n).
Proof. intros w a w'. unfold get_instance. case_match; [|done]. by intros [= _ <-]. Qed.
Lemma keeps_mod_instance n f : (forall i, i_config (f i) = i_config i) -> Keeps (mod_instance n f).
Proof.
  intros Hf w a w'. unfold mod_instance. destruct (w_instances w !! n) as [i|] eqn:Hi; [|done]. intros [= _ <-].
  unfold settings. cbn. f_equal. rewrite list_fmap_insert, Hf. apply list_insert_id. by rewrite list_lookup_fmap, Hi.
Qed.
#[export] Instance keeps_answer : Keeps answer.
Proof. intros w a w'. unfold answer. case_match; by intros [= _ <-]. Qed.
#[export] Instance keeps_gettimeofday : Keeps gettimeofday.
Proof. intros w a w'. unfold gettimeofday. case_match. by intros [= _ <-]. Qed.
#[export] Instance keeps_randui32 : Keeps red_randui32.
Proof. intros w a w'. unfold red_randui32. case_match; by intros [= _ <-]. Qed.
#[export] Instance keeps_new_fd : Keeps new_fd.
Proof. by intros w a w' [= _ <-]. Qed.
#[export] Instance keeps_close fd : Keeps (close fd).
Proof. intros w a w'. unfold close. case_match; by intros [= _ <-]. Qed.
#[export] Instance keeps_alloc c : Keeps (alloc_client c).
Proof. by intros w a w' [= _ <-]. Qed.

(** Takes a computation apart, down to what is known. *)
Ltac head_of t := lazymatch t with ?f _ => head_of f | _ => t end.
Ltac keep :=
  cbv zeta;
  lazymatch goal with
  | |- Keeps (mbind _ _) => apply keeps_bind; [keep|intros ?; keep]
  | |- Keeps (modify _) =>
      apply keeps_modify; intros ?; unfold settings; cbn; rewrite ?list_fmap_compose; try done;
      f_equal; rewrite <-list_fmap_compose; by apply list_fmap_ext
  | |- Keeps (mod_instance _ _) => apply keeps_mod_instance; by intros []
  | |- Keeps (when _ _) => apply keeps_when; keep
  | |- Keeps (for_each _ _) => apply keeps_for_each; intros ?; keep
  | |- Keeps (fold_m _ _ _) => apply keeps_fold; intros ? ?; keep
  | |- Keeps (match ?x with _ => _ end) => destruct x; keep
  | |- Keeps ?m => first [apply _ | let h := head_of m in unfold h; keep]
  end.

#[export] Instance keeps_drop id : Keeps (redsocks_drop_client id).
Proof. keep. Qed.
#[export] Instance keeps_shutdown id s how : Keeps (redsocks_shutdown id s how).
Proof. keep. Qed.
#[export] Instance keeps_event_error id s what : Keeps (redsocks_event_error id s what).
Proof. keep. Qed.
#[export] Instance keeps_start_relay id : Keeps (redsocks_start_relay id).
Proof. keep. Qed.
#[export] Instance keeps_setsockopts l : Keeps (setsockopts l).
Proof. induction l; cbn [setsockopts]; keep. Qed.
#[export] Instance keeps_connect_relay id : Keeps (redsocks_connect_relay id).
Proof. keep. Qed.
#[export] Instance keeps_pressure : Keeps conn_pressure.
Proof. keep. Qed.
#[export] Instance keeps_splice_read id s got : Keeps (redsplice_read id s got).
Proof. keep. Qed.
#[export] Instance keeps_splice_write id s r0 r1 r2 : Keeps (redsplice_write id s r0 r1 r2).
Proof. keep. Qed.

(** The subsystems. *)
#[export] Instance keeps_socks5_read id : Keeps (Socks5.socks5_read_cb id).
Proof. keep. Qed.
#[export] Instance keeps_socks5_write id : Keeps (Socks5.socks5_write_cb id).
Proof. keep. Qed.
#[export] Instance keeps_socks4_read id : Keeps (Socks4.socks4_read_cb id).
Proof. keep. Qed.
#[export] Instance keeps_socks4_write id : Keeps (Socks4.socks4_write_cb id).
Proof. keep. Qed.

Section callbacks.
Context (ctx : MD5.md5_state) {LR : LineReader}.

#[export] Instance keeps_httpc_read id : Keeps (HttpConnect.httpc_read_cb id).
Proof. keep. Qed.
#[export] Instance keeps_httpc_write id : Keeps (HttpConnect.httpc_write_cb ctx id).
Proof. keep. Qed.
#[export] Instance keeps_httpr_copy fuel id : Keeps (HttpRelay.httpr_copy_headers fuel id).
Proof. induction fuel; cbn [HttpRelay.httpr_copy_headers]; keep. Qed.
#[export] Instance keeps_httpr_content fuel id : Keeps (HttpRelay.httpr_client_read_content fuel id).
Proof. induction fuel; cbn [HttpRelay.httpr_client_read_content]; keep. Qed.
#[export] Instance keeps_httpr_lines fuel id : Keeps (HttpRelay.httpr_request_lines fuel id).
Proof. induction fuel; cbn [HttpRelay.httpr_request_lines]; keep. Qed.
#[export] Instance keeps_httpr_read id : Keeps (HttpRelay.httpr_relay_read_cb id).
Proof. keep. Qed.
#[export] Instance keeps_httpr_write id : Keeps (HttpRelay.httpr_relay_write_cb ctx id).
Proof. keep. Qed.
#[export] Instance keeps_httpr_client_read id : Keeps (HttpRelay.httpr_client_read_cb id).
Proof. keep. Qed.
#[export] Instance keeps_run_callback cb id s : Keeps (run_callback ctx cb id s).
Proof. keep. Qed.
#[export] Instance keeps_accept n ca da : Keeps (redsocks_accept_client n ca da).
Proof. keep. Qed.
#[export] Instance keeps_handle e : Keeps (handle ctx e).
Proof. keep. Qed.

Lemma reachable_settings w w' : reachable ctx w w' -> settings w' = settings w.
Proof.
  induction 1 as [|w1 a w2 _ IH Hs]; [done|]. rewrite <-IH. inversion Hs as [e u He E Hu]. subst.
  by apply (keeps_handle e _ _ _ Hu).
Qed.

End callbacks.

End Settings.
