(* ===== verification/Pump.v ===== *)
(** * What the buffer pump relays

    An abstract machine for one direction of a relayed connection (the bytes in
    transit, the end of the input, back-pressure), the refinement that shows the
    callbacks of redsocks.c implement two copies of it, and its properties: bytes
    come out in the order they went in, none is lost or repeated, a slow receiver
    stops the reading, and the end of the input is forwarded after the last byte. *)

From S2P Require Import Prelude CLib MD5 EvBuffer HttpAuth World HttprBuffer Redsocks Ownership ClientLogic Flow.
From S2P Require Import Splice Socks5 Socks4 HttpConnect HttpRelay Accept EventLoop Lifecycle.
Import EvBuffer Redsocks Ownership Flow Splice Accept EventLoop Lifecycle.
Open Scope Z_scope.

Module Pump.

(** ** One direction *)

Record dir := mk_dir {
  d_out : bytes;        (* output of the receiving side *)
  d_in : bytes;         (* input of the sending side *)
  d_eof : bool;         (* the sending side is shut for reading *)
  d_fin : bool;         (* the receiving side is shut for writing *)
  d_reading : bool;     (* reading is enabled *)
  d_writing : bool;     (* writing is enabled *)
  d_pending : bool }.   (* the write event is in the loop *)

(** The bytes in transit, in the order they leave. *)
Definition queue (d : dir) : bytes := d_out d ++ d_in d.

(** The input moves to the output. *)
Definition flushed (reading : bool) (d : dir) : dir :=
  mk_dir (d_out d ++ d_in d) [] (d_eof d) (d_fin d) reading (d_writing d)
    (d_pending d || (negb (bool_decide (d_in d = [])) && d_writing d)).

Definition finished (d : dir) : dir :=
  mk_dir (d_out d) (d_in d) (d_eof d) true (d_reading d) false false.

(** [data] arrives. *)
Definition arrive (data : bytes) (d : dir) : dir :=
  let d := mk_dir (d_out d) (d_in d ++ data) (d_eof d) (d_fin d) (d_reading d) (d_writing d) (d_pending d) in
  if zlen (d_out d) <? REDSOCKS_RELAY_HALFBUFF then flushed (d_reading d) d
  else mk_dir (d_out d) (d_in d) (d_eof d) (d_fin d) false (d_writing d) (d_pending d).

(** The receiver takes [n] bytes. *)
Definition taken (n : nat) (d : dir) : dir :=
  let o := drop n (d_out d) in
  let d := mk_dir o (d_in d) (d_eof d) (d_fin d) (d_reading d) (d_writing d)
             (d_pending d && negb (bool_decide (o = []))) in
  if bool_decide (o = []) then
    if bool_decide (d_in d = []) && d_eof d then finished d
    else flushed (d_reading d || negb (d_eof d)) d
  else d.

(** The sender ends its output. *)
Definition ended (d : dir) : dir :=
  let d := mk_dir (d_out d) (d_in d) true (d_fin d) false (d_writing d) (d_pending d) in
  if bool_decide (d_out d = []) then finished d else d.

Inductive dir_event := Arrive (data : bytes) | Take (n : nat) | End.

Definition dir_step (e : dir_event) (d : dir) : dir :=
  match e with Arrive data => arrive data d | Take n => taken n d | End => ended d end.

(** ** The direction from side [s] of a client *)

Definition buf (s : side) (c : redsocks_client) : bufferevent :=
  match c_buf s c with Some b => b | None => bufferevent_new (-1) cb_none cb_none end.

Definition view (s : side) (c : redsocks_client) : dir :=
  mk_dir (be_output (buf (other s) c)) (be_input (buf s c)) (shut s EV_READ c) (shut (other s) EV_WRITE c)
    (has (be_enabled (buf s c)) EV_READ) (has (be_enabled (buf (other s) c)) EV_WRITE)
    (be_wpending (buf (other s) c)).

(** What an event of the client [id] means for the direction from [s]. *)
Definition dir_of (id : Z) (e : input_event) (s : side) : option dir_event :=
  match e with
  | ev_readable id' s' data => if bool_decide (id' = id /\ s' = s) then Some (Arrive data) else None
  | ev_writable id' s' n => if bool_decide (id' = id /\ s' = other s) then Some (Take n) else None
  | ev_read_failed id' s' what =>
      if bool_decide (id' = id /\ s' = s /\ what = BEV_EOF) then Some End else None
  | _ => None
  end.

Definition dir_next (id : Z) (e : input_event) (s : side) (d : dir) : dir :=
  match dir_of id e s with Some e => dir_step e d | None => d end.

(** Watermarks of a relaying client. *)
Definition wm_ok (b : bufferevent) : Prop :=
  wm_read_low b = 0 /\ wm_write_low b = 0 /\ wm_write_high b = REDSOCKS_RELAY_HALFBUFF.

(** A client in the care of the buffer pump. *)
Definition pumping (c : redsocks_client) : Prop :=
  relaying c /\ (forall s, wm_ok (buf s c)) /\ c_pump c = new_pump.

(** ** Partial correctness *)

Definition wlp {A} (m : M A) (Q : A -> world -> Prop) (w : world) : Prop :=
  match m w with Ok a w => Q a w | _ => True end.

Lemma wlp_bind {A B} (m : M A) (f : A -> M B) Q w :
  wlp m (fun a => wlp (f a) Q) w -> wlp (x ← m; f x) Q w.
Proof. unfold wlp, mbind, M_bind. destruct (m w); done. Qed.
Lemma wlp_ret {A} (a : A) Q w : Q a w -> wlp (mret a) Q w.
Proof. done. Qed.
Lemma wp_wlp {A} (m : M A) Q w : wp m Q w -> wlp m Q w.
Proof. unfold wp, wlp. by destruct (m w). Qed.
Lemma wlp_skip {A B} (m : M A) (f : A -> M B) Q w :
  (forall a w, wlp (f a) Q w) -> wlp (x ← m; f x) Q w.
Proof. intros H. apply wlp_bind. unfold wlp at 1. destruct (m w); [apply H|done..]. Qed.

Lemma wlp_free id w : wlp (free_client id) (fun _ w => w_clients w !! id = None) w.
Proof. unfold wlp, free_client. destruct (w_clients w !! id); [|done]. cbn. apply lookup_delete_eq. Qed.

Lemma wlp_drop id w : wlp (redsocks_drop_client id) (fun _ w => w_clients w !! id = None) w.
Proof. unfold redsocks_drop_client. repeat (apply wlp_skip; intros ? ?). apply wlp_free. Qed.

(** ** Running a callback on a client when no call fails *)

Definition cli (id : Z) (c : redsocks_client) (w : world) : Prop :=
  w_clients w !! id = Some c /\ w_answers w = [].

Lemma cli_get id c Q w : cli id c w -> Q c w -> wp (get_client id) Q w.
Proof. intros [Hc _]. by apply wp_get_client. Qed.
Lemma cli_buf id c s b Q w : cli id c w -> c_buf s c = Some b -> Q b w -> wp (get_buf id s) Q w.
Proof. intros [Hc _] Hb. by eapply wp_get_buf. Qed.
Lemma cli_mod id c f Q w : cli id c w -> (forall w, cli id (f c) w -> Q tt w) -> wp (mod_client id f) Q w.
Proof.
  intros [Hc Ha] HQ. eapply wp_mod_client; [done|]. apply HQ. split; [cbn; apply lookup_insert_eq|done].
Qed.
Lemma cli_mod_buf id c s b f Q w :
  cli id c w -> c_buf s c = Some b -> (forall w, cli id (c_set_buf s (Some (f b)) c) w -> Q tt w) ->
  wp (mod_buf id s f) Q w.
Proof.
  intros [Hc Ha] Hb HQ. eapply wp_mod_buf; [done..|]. apply HQ. split; [cbn; apply lookup_insert_eq|done].
Qed.
Lemma cli_touch id c Q w : cli id c w -> (forall t w, cli id (c_set_last t c) w -> Q tt w) ->
  wp (redsocks_touch_client id) Q w.
Proof.
  intros [Hc Ha] HQ. apply wp_bind, wp_gettimeofday. intros t ts. eapply cli_mod; [by split|]. apply HQ.
Qed.
Lemma cli_answer id c Q w : cli id c w -> Q 0 w -> wp answer Q w.
Proof. intros [_ Ha] HQ. unfold wp, answer. by rewrite Ha. Qed.
Lemma cli_disable id c s b ev Q w :
  cli id c w -> c_buf s c = Some b -> (forall w, cli id (c_set_buf s (Some (be_disable ev b)) c) w -> Q true w) ->
  wp (bufferevent_disable id s ev) Q w.
Proof.
  intros H Hb HQ. apply wp_bind. eapply cli_answer; [done|]. apply wp_bind. eapply cli_mod_buf; [done..|].
  intros w' H'. by apply wp_ret, HQ.
Qed.
Lemma cli_enable id c s b ev Q w :
  cli id c w -> c_buf s c = Some b -> ev <> 0 ->
  (forall w, cli id (c_set_buf s (Some (be_enable ev b)) c) w -> Q true w) ->
  wp (bufferevent_enable id s ev) Q w.
Proof.
  intros H Hb Hev HQ. unfold bufferevent_enable. destruct (Z.eqb_spec ev 0); [done|].
  apply wp_bind. eapply cli_answer; [done|]. apply wp_bind. eapply cli_mod_buf; [done..|].
  intros w' H'. by apply wp_ret, HQ.
Qed.

(** The client after [redsocks_shutdown], or its release. *)
Definition left_over (c : redsocks_client) : option redsocks_client := if shut_both c then None else Some c.

Lemma cli_shutdown id c s b how (Q : unit -> world -> Prop) w :
  cli id c w -> c_buf s c = Some b ->
  let c' := after_shutdown s how (be_disable (evhow how) b) c in
  (forall w, shut_both c' = false -> cli id c' w -> Q tt w) ->
  (forall w, shut_both c' = true -> w_clients w !! id = None -> Q tt w) ->
  wlp (redsocks_shutdown id s how) Q w.
Proof.
  intros H Hb c' Hyes Hno. apply wlp_bind, wp_wlp. eapply cli_buf; [done..|].
  apply wlp_bind, wp_wlp. eapply cli_get; [done|].
  apply wlp_bind, wp_wlp. eapply (wp_mono _ (fun _ => cli id c)).
  { apply wp_when; [|done]. intros _. by apply wp_modify. }
  clear w H. intros _ w H. apply wlp_bind, wp_wlp. eapply cli_disable; [done..|]. clear w H. intros w H.
  apply wlp_bind, wp_wlp. eapply cli_mod; [done|]. clear w H. intros w H.
  fold (after_shutdown s how (be_disable (evhow how) b) c) in H. fold c' in H.
  apply wlp_bind, wp_wlp. eapply cli_get; [done|].
  destruct (shut_both c') eqn:E; cbn [when]; [|apply wlp_ret; auto].
  pose proof (wlp_drop id w) as Hd. unfold wlp in *. destruct (redsocks_drop_client id w) as [[] w'| |]; auto.
Qed.

(** ** How changes of a client show in its directions *)

Lemma buf_set s b c : buf s (c_set_buf s (Some b) c) = b.
Proof. by destruct s. Qed.
Lemma buf_set_other s b c : buf (other s) (c_set_buf s (Some b) c) = buf (other s) c.
Proof. by destruct s. Qed.
Lemma buf_some s b c : c_buf s c = Some b -> buf s c = b.
Proof. unfold buf. by intros ->. Qed.
Lemma pumping_buf s c : pumping c -> c_buf s c = Some (buf s c).
Proof. intros [Hr _]. destruct (relaying_buf c s Hr) as [b Hb]. by rewrite (buf_some s b c). Qed.
Lemma pumping_cbs s c : pumping c -> be_readcb (buf s c) = cb_pump_read /\ be_writecb (buf s c) = cb_pump_write.
Proof.
  intros Hp. pose proof (pumping_buf s c Hp) as Hb. destruct Hp as [(_ & H1 & H2) _].
  destruct s; cbn in Hb; rewrite Hb in *; [injection H1|injection H2]; done.
Qed.

(** Changes of a buffer that keep callbacks and watermarks. *)
Definition same_wiring (b b' : bufferevent) : Prop :=
  be_readcb b' = be_readcb b /\ be_writecb b' = be_writecb b /\ (wm_ok b -> wm_ok b').

Lemma pumping_upd s b' c :
  pumping c -> same_wiring (buf s c) b' -> pumping (c_set_buf s (Some b') c).
Proof.
  intros Hp (E1 & E2 & E3). pose proof (pumping_buf s c Hp) as Hb. destruct Hp as (Hr & Hw & Hn). split; [by eapply relaying_keep|]. split; [|done].
  intros s'. destruct (decide (s' = s)) as [->|Hne]; [rewrite buf_set; auto|].
  assert (s' = other s) as -> by by destruct s, s'. rewrite buf_set_other. auto.
Qed.

Lemma pumping_evshut s e c : pumping c -> pumping (c_set_evshut s e c).
Proof.
  intros (Hr & Hw & Hn). split; [by destruct s|]. split; [|done]. intros s'. specialize (Hw s'). by destruct s, s'.
Qed.
Lemma pumping_last t c : pumping c -> pumping (c_set_last t c).
Proof. intros (Hr & Hw & Hn). split; [done|]. split; [|done]. intros s. specialize (Hw s). by destruct s. Qed.
Lemma view_last s t c : view s (c_set_last t c) = view s c.
Proof. by destruct s. Qed.

Lemma other_ne s : other s <> s.
Proof. by destruct s. Qed.

(** The fields of a direction that a change of one buffer touches. *)
Lemma view_sender s b' c :
  view s (c_set_buf s (Some b') c) =
    mk_dir (d_out (view s c)) (be_input b') (d_eof (view s c)) (d_fin (view s c)) (has (be_enabled b') EV_READ)
      (d_writing (view s c)) (d_pending (view s c)).
Proof. by destruct s. Qed.
Lemma view_receiver s b' c :
  view s (c_set_buf (other s) (Some b') c) =
    mk_dir (be_output b') (d_in (view s c)) (d_eof (view s c)) (d_fin (view s c)) (d_reading (view s c))
      (has (be_enabled b') EV_WRITE) (be_wpending b').
Proof. by destruct s. Qed.
Lemma view_shut s s' e c :
  view s (c_set_evshut s' e c) =
    mk_dir (d_out (view s c)) (d_in (view s c))
      (if decide (s' = s) then has e EV_READ else d_eof (view s c))
      (if decide (s' = s) then d_fin (view s c) else has e EV_WRITE)
      (d_reading (view s c)) (d_writing (view s c)) (d_pending (view s c)).
Proof. by destruct s, s'. Qed.

Lemma view_other_in s i c :
  view (other s) (c_set_buf s (Some (be_set_input i (buf s c))) c) = view (other s) c.
Proof. by destruct s. Qed.

(** Disabling reading on [s] concerns the direction from [s] only. *)
Lemma disable_read_other s c :
  rw (be_enabled (buf s c)) ->
  view (other s) (c_set_buf s (Some (be_disable EV_READ (buf s c))) c) = view (other s) c.
Proof.
  intros Hrw. assert (E : has (be_enabled (be_disable EV_READ (buf s c))) EV_WRITE = has (be_enabled (buf s c)) EV_WRITE).
  { cbn [be_disable be_set_enabled be_enabled]. rewrite has_ldiff by (done || cbv; tauto). apply andb_true_r. }
  pose proof (view_receiver (other s) (be_disable EV_READ (buf s c)) c) as V. rewrite other_other in V.
  rewrite V, E. cbn [be_disable be_set_enabled be_wpending be_output].
  rewrite andb_true_r. unfold view. by rewrite other_other.
Qed.

(** The input of [s] moves to the other side. *)
Definition moved (s : side) (c : redsocks_client) : redsocks_client :=
  c_set_buf s (Some (be_set_input [] (buf s c)))
    (c_set_buf (other s) (Some (be_append (be_input (buf s c)) (buf (other s) c))) c).

Lemma cli_write_input id c s Q w :
  cli id c w -> pumping c -> (forall w, cli id (moved s c) w -> Q tt w) -> wp (write_input_to id s (other s)) Q w.
Proof.
  intros H Hp HQ. apply wp_bind. eapply cli_buf; [done|by apply pumping_buf|].
  apply wp_bind. eapply cli_mod_buf; [done|by apply pumping_buf|]. clear w H. intros w H.
  eapply cli_mod_buf; [done|replace (c_buf s _) with (c_buf s c) by (by destruct s); by apply pumping_buf|].
  intros w' H'. by apply HQ.
Qed.

Lemma moved_pumping s c : pumping c -> pumping (moved s c).
Proof.
  intros Hp. unfold moved. apply pumping_upd; [apply pumping_upd; [done|]|].
  - split_and!; [done..|]. by intros (? & ? & ?).
  - replace (buf s (c_set_buf (other s) _ c)) with (buf s c) by by destruct s. split_and!; [done..|].
    by intros (? & ? & ?).
Qed.

Lemma moved_view s c : view s (moved s c) = flushed (d_reading (view s c)) (view s c).
Proof. by destruct s. Qed.
Lemma moved_view_other s c : view (other s) (moved s c) = view (other s) c.
Proof. by destruct s. Qed.

Lemma cli_left id c w : cli id c w -> shut_both c = false -> w_clients w !! id = left_over c.
Proof. unfold left_over. intros [? _] ->. done. Qed.

(** The same flags, the same answer to whether both sides are shut. *)
Lemma shut_both_buf s b c : shut_both (c_set_buf s b c) = shut_both c.
Proof. by destruct s. Qed.

Section refinement.
Context (ctx : MD5.md5_state) {LR : LineReader}.

Lemma readable_refines id c s data w :
  cli id c w -> pumping c -> shut_both c = false -> rw (be_enabled (buf s c)) ->
  wlp (bev_readable ctx id s data) (fun _ w' => exists c', pumping c' /\
    view s c' = arrive data (view s c) /\ view (other s) c' = view (other s) c /\
    w_clients w' !! id = left_over c') w.
Proof.
  intros H Hp Hno Hrw. apply wlp_bind, wp_wlp. eapply cli_mod_buf; [done|by apply pumping_buf|]. clear w H.
  set (c1 := c_set_buf s _ c). intros w H.
  assert (Hp1 : pumping c1) by (apply pumping_upd; [done|]; split_and!; [done..|by intros (? & ? & ?)]).
  assert (V1 : view s c1 = mk_dir (d_out (view s c)) (d_in (view s c) ++ data) (d_eof (view s c)) (d_fin (view s c))
                 (d_reading (view s c)) (d_writing (view s c)) (d_pending (view s c))) by by destruct s.
  assert (V2 : view (other s) c1 = view (other s) c) by by destruct s.
  assert (Hno1 : shut_both c1 = false) by (unfold c1; by rewrite shut_both_buf).
  assert (Hrw1 : rw (be_enabled (buf s c1))) by by destruct s. clearbody c1.
  apply wlp_bind, wp_wlp. eapply cli_buf; [done|by apply pumping_buf|].
  destruct (proj1 (proj2 Hp1) s) as (-> & _ & _). destruct (pumping_cbs s c1 Hp1) as [-> _].
  replace (0 <=? zlen (be_input (buf s c1))) with true by (symmetry; apply Z.leb_le; unfold zlen; lia).
  cbn [when run_callback]. apply wlp_bind, wp_wlp. eapply cli_touch; [done|]. clear w H. intros t w H.
  apply (pumping_last t) in Hp1. rewrite <-(view_last s t) in V1. rewrite <-(view_last (other s) t) in V2.
  assert (Hno2 : shut_both (c_set_last t c1) = false) by done.
  assert (Hrw2 : rw (be_enabled (buf s (c_set_last t c1)))) by by destruct s.
  set (c2 := c_set_last t c1) in *. clearbody c2. clear Hrw1 Hno1 c1.
  unfold arrive. rewrite <-V1. change (d_out (view s c)) with (be_output (buf (other s) c)).
  assert (Ho : be_output (buf (other s) c2) = be_output (buf (other s) c)) by (injection V1; done).
  apply wlp_bind, wp_wlp. eapply cli_buf; [done|by apply pumping_buf|].
  destruct (proj1 (proj2 Hp1) (other s)) as (_ & _ & ->). rewrite Ho. cbn [d_out]. cbv zeta.
  change (d_out (view s c2)) with (be_output (buf (other s) c2)). rewrite Ho.
  destruct (zlen (be_output (buf (other s) c)) <? REDSOCKS_RELAY_HALFBUFF).
  - apply wp_wlp. eapply cli_write_input; [done..|]. intros w' H'. exists (moved s c2).
    split_and!; [by apply moved_pumping|apply moved_view|by rewrite moved_view_other|].
    apply cli_left; [done|]. unfold moved. by rewrite !shut_both_buf.
  - apply wlp_bind, wp_wlp. eapply cli_buf; [done|by apply pumping_buf|].
    destruct (has (be_enabled (buf s c2)) EV_READ) eqn:He; cbn [when].
    + apply wlp_bind, wp_wlp. eapply cli_disable; [done|by apply pumping_buf|]. intros w' H'. apply wlp_ret.
      exists (c_set_buf s (Some (be_disable EV_READ (buf s c2))) c2).
      split_and!; [apply pumping_upd; [done|]; split_and!; [done..|by intros (? & ? & ?)]| | |].
      * rewrite view_sender. cbn [be_disable be_set_enabled be_input be_enabled]. rewrite has_ldiff by (done || cbv; tauto).
        by rewrite andb_false_r, <-Ho.
      * rewrite <-V2. by apply disable_read_other.
      * apply cli_left; [done|]. by rewrite shut_both_buf.
    + apply wlp_ret. exists c2. split_and!; [done| |done|by apply cli_left]. by rewrite <-He, <-Ho.
Qed.

(** [redsocks_shutdown] of the receiving side ends a direction. *)
Lemma shutdown_finishes id c s w :
  cli id c w -> pumping c -> rw (be_enabled (buf (other s) c)) ->
  wlp (redsocks_shutdown id (other s) SHUT_WR) (fun _ w' => exists c', pumping c' /\
    view s c' = finished (view s c) /\ view (other s) c' = view (other s) c /\
    w_clients w' !! id = left_over c') w.
Proof.
  intros H Hp Hrw. set (b := be_disable EV_WRITE (buf (other s) c)).
  set (c1 := after_shutdown (other s) SHUT_WR b c).
  assert (Hp1 : pumping c1).
  { apply pumping_evshut, pumping_upd; [done|]. split_and!; [done..|by intros (? & ? & ?)]. }
  assert (V1 : view s c1 = finished (view s c)).
  { unfold c1, after_shutdown. rewrite view_shut, view_receiver, decide_False, decide_False by apply other_ne.
    unfold finished. f_equal; [by rewrite has_lor, orb_true_r| |].
    - cbn [b be_disable be_set_enabled be_enabled d_writing]. rewrite has_ldiff by (done || cbv; tauto). apply andb_false_r.
    - cbn. apply andb_false_r. }
  assert (V2 : view (other s) c1 = view (other s) c).
  { unfold c1, after_shutdown. rewrite view_shut, view_sender, decide_True, decide_True by done. unfold view.
    f_equal; cbn [d_out d_in d_eof d_fin d_reading d_writing d_pending].
    - unfold shut. destruct s; cbn; by rewrite has_lor, orb_false_r.
    - cbn [b be_disable be_set_enabled be_enabled]. rewrite has_ldiff by (done || cbv; tauto). apply andb_true_r. }
  eapply cli_shutdown; [done|by apply pumping_buf|..]; intros w' E H'; exists c1; (split_and!; [done..|]);
    unfold left_over, c1, b; change EV_WRITE with (evhow SHUT_WR); rewrite E; [apply H'|done].
Qed.

Lemma writecb_refines id c s w :
  cli id c w -> pumping c -> shut_both c = false -> rw (be_enabled (buf (other s) c)) -> be_output (buf (other s) c) = [] ->
  wlp (pump_writecb id (other s)) (fun _ w' => exists c', pumping c' /\
    view s c' = (if bool_decide (d_in (view s c) = []) && d_eof (view s c) then finished (view s c)
                 else flushed (d_reading (view s c) || negb (d_eof (view s c))) (view s c)) /\
    view (other s) c' = view (other s) c /\ w_clients w' !! id = left_over c') w.
Proof.
  intros H Hp Hno Hrw Ho. apply wlp_bind, wp_wlp. eapply cli_touch; [done|]. clear w H. intros t w H.
  apply (pumping_last t) in Hp. rewrite <-!(view_last _ t c).
  assert (Hrw1 : rw (be_enabled (buf (other s) (c_set_last t c)))) by by destruct s.
  assert (Ho1 : be_output (buf (other s) (c_set_last t c)) = []) by by destruct s.
  assert (Hno1 : shut_both (c_set_last t c) = false) by done.
  set (c1 := c_set_last t c) in *. clearbody c1. clear Hrw Ho Hno c. unfold redsocks_relay_writecb. rewrite other_other.
  apply wlp_bind, wp_wlp. eapply cli_get; [done|]. apply wlp_bind, wp_wlp. eapply cli_buf; [done|by apply pumping_buf|].
  cbv zeta. change (be_input (buf s c1)) with (d_in (view s c1)). change (has (c_evshut s c1) EV_READ) with (d_eof (view s c1)).
  destruct (bool_decide (d_in (view s c1) = []) && d_eof (view s c1)); [by apply shutdown_finishes|].
  apply wlp_bind, wp_wlp. eapply cli_buf; [done|by apply pumping_buf|].
  destruct (proj1 (proj2 Hp) (other s)) as (_ & _ & ->). rewrite Ho1. cbn [when Z.ltb]. change (zlen [] <? REDSOCKS_RELAY_HALFBUFF) with true.
  cbn [when]. apply wlp_bind, wp_wlp. eapply cli_write_input; [done..|]. clear w H. intros w H.
  pose proof (moved_pumping s c1 Hp) as Hp2. pose proof (moved_view s c1) as V1. pose proof (moved_view_other s c1) as V2.
  assert (Hno2 : shut_both (moved s c1) = false) by (unfold moved; by rewrite !shut_both_buf).
  assert (Hd : has (be_enabled (buf s c1)) EV_READ = d_reading (view s c1)) by done. rewrite Hd.
  destruct (d_eof (view s c1)), (d_reading (view s c1)) eqn:Er; cbn [negb andb orb when] in *.
  1,2,3: by apply wlp_ret; exists (moved s c1); split_and!; [..|by apply cli_left].
  apply wlp_bind, wp_wlp. eapply cli_enable; [done|by apply pumping_buf|done|]. clear w H. intros w H. apply wlp_ret.
  eexists. split_and!; [| | |apply cli_left; [done|by rewrite shut_both_buf]].
  - apply pumping_upd; [done|]. split_and!; [done..|by intros (? & ? & ?)].
  - rewrite view_sender, V1. cbn [flushed be_enable be_set_enabled be_enabled be_input d_out d_in d_eof d_fin d_reading d_writing d_pending].
    unfold flushed. cbn [d_out d_in d_eof d_fin d_writing d_pending]. f_equal; [by destruct s|by rewrite has_lor, orb_true_r].
  - rewrite <-V2. destruct s; unfold view; cbn -[has]; rewrite has_lor, orb_false_r; by rewrite orb_false_r.
Qed.

Lemma writable_refines id c s n w :
  cli id c w -> pumping c -> shut_both c = false -> rw (be_enabled (buf (other s) c)) ->
  wlp (bev_writable ctx id (other s) n) (fun _ w' => exists c', pumping c' /\
    view s c' = taken n (view s c) /\ view (other s) c' = view (other s) c /\
    w_clients w' !! id = left_over c') w.
Proof.
  intros H Hp Hno Hrw. apply wlp_bind, wp_wlp. eapply cli_mod_buf; [done|by apply pumping_buf|]. clear w H.
  cbv zeta. set (c1 := c_set_buf (other s) _ c). intros w H.
  assert (Hp1 : pumping c1) by (apply pumping_upd; [done|]; split_and!; [done..|by intros (? & ? & ?)]).
  assert (V1 : view s c1 = mk_dir (drop n (d_out (view s c))) (d_in (view s c)) (d_eof (view s c)) (d_fin (view s c))
                 (d_reading (view s c)) (d_writing (view s c))
                 (d_pending (view s c) && negb (bool_decide (drop n (d_out (view s c)) = [])))) by by destruct s.
  assert (V2 : view (other s) c1 = view (other s) c) by by destruct s.
  assert (Hno1 : shut_both c1 = false) by (unfold c1; by rewrite shut_both_buf).
  assert (Hrw1 : rw (be_enabled (buf (other s) c1))) by by destruct s. clearbody c1.
  unfold taken. cbv zeta. rewrite <-V1, <-V2.
  assert (Ho : be_output (buf (other s) c1) = drop n (d_out (view s c))) by (injection V1; done).
  apply wlp_bind, wp_wlp. eapply cli_buf; [done|by apply pumping_buf|].
  destruct (proj1 (proj2 Hp1) (other s)) as (_ & -> & _). destruct (pumping_cbs (other s) c1 Hp1) as [_ ->].
  rewrite Ho. destruct (drop n (d_out (view s c))) as [|x l] eqn:E; cbn [when run_callback].
  - rewrite bool_decide_eq_true_2 by done. change (zlen [] <=? 0) with true. cbn [when]. by eapply writecb_refines.
  - rewrite bool_decide_eq_false_2 by done. replace (zlen (x :: l) <=? 0) with false by done. cbn [when].
    apply wlp_ret. exists c1. split_and!; [done..|by apply cli_left].
Qed.

(** The sending side is shut for reading. *)
Lemma shut_read_view s c :
  rw (be_enabled (buf s c)) ->
  let c' := after_shutdown s SHUT_RD (be_disable EV_READ (buf s c)) c in
  view s c' = mk_dir (d_out (view s c)) (d_in (view s c)) true (d_fin (view s c)) false (d_writing (view s c))
                (d_pending (view s c)) /\
  view (other s) c' = view (other s) c.
Proof.
  intros Hrw. cbv zeta. unfold after_shutdown. rewrite !view_shut, view_sender, disable_read_other by done.
  rewrite (decide_True _ _ (eq_refl s)), (decide_True _ _ (eq_refl s)).
  rewrite decide_False, decide_False by (apply not_eq_sym, other_ne). split.
  - cbn [d_out d_in d_fin d_writing d_pending be_disable be_set_enabled be_input be_enabled].
    rewrite has_ldiff by (done || cbv; tauto). rewrite andb_false_r, has_lor, orb_true_r. done.
  - unfold view. rewrite other_other. f_equal. cbn [d_fin]. unfold shut.
    destruct s; cbn; by rewrite has_lor, orb_false_r.
Qed.

Lemma eof_refines id c s w :
  cli id c w -> pumping c -> flow_ok c -> shut s EV_READ c = false ->
  wlp (bev_read_failed id s BEV_EOF) (fun _ w' => exists c', pumping c' /\
    view s c' = ended (view s c) /\ view (other s) c' = view (other s) c /\
    w_clients w' !! id = left_over c') w.
Proof.
  intros H Hp Hf Hs. pose proof (pumping_buf s c Hp) as Hb. pose proof (pumping_buf (other s) c Hp) as Hbo.
  destruct (fl_enabled _ Hf _ _ Hb) as (Hrw & Hfd & Hby). destruct (fl_enabled _ Hf _ _ Hbo) as (Hrwo & _).
  apply wlp_bind, wp_wlp. eapply cli_mod_buf; [done..|]. clear w H. intros w H.
  apply wlp_bind, wp_wlp. eapply cli_touch; [done|]. clear w H. intros t w H.
  set (b1 := be_disable EV_READ (buf s c)) in *. set (c1 := c_set_last t (c_set_buf s (Some b1) c)) in *.
  assert (Hrw1 : rw (be_enabled b1)) by (apply rw_ldiff; [done|cbv; tauto]).
  assert (Hp1 : pumping c1).
  { apply pumping_last, pumping_upd; [done|]. split_and!; [done..|by intros (? & ? & ?)]. }
  assert (Hf1 : flow_ok c1).
  { apply flow_last, flow_set_buf; [done..|]. intros ?. congruence. }
  assert (E1 : shut s EV_READ c1 = false) by by destruct s.
  assert (E2 : buf s c1 = b1 /\ buf (other s) c1 = buf (other s) c) by by destruct s. destruct E2 as [E2 E3].
  assert (V1 : view s c1 = mk_dir (d_out (view s c)) (d_in (view s c)) (d_eof (view s c)) (d_fin (view s c)) false
      (d_writing (view s c)) (d_pending (view s c))).
  { unfold c1. rewrite view_last, view_sender. cbn [b1 be_disable be_set_enabled be_input be_enabled].
    rewrite has_ldiff by (done || cbv; tauto). by rewrite andb_false_r. }
  assert (V2 : view (other s) c1 = view (other s) c) by (unfold c1; rewrite view_last; by apply disable_read_other).
  pose proof (pumping_buf (other s) c1 Hp1) as Hbo1. rewrite E3 in Hbo1.
  pose proof (pumping_buf s c1 Hp1) as Hb1. rewrite E2 in Hb1. clearbody c1.
  apply wlp_bind, wp_wlp. eapply cli_get; [done|].
  cbn [Z.eqb]. change (Z.lor BEV_READING BEV_EOF =? Z.lor BEV_READING BEV_EOF) with true. cbv iota zeta. rewrite Hbo1.
  set (c2 := after_shutdown s SHUT_RD (be_disable EV_READ b1) c1).
  destruct (shut_read_view s c1) as [W1 W2]; [by rewrite E2|]. rewrite E2 in W1, W2. fold c2 in W1, W2.
  assert (Hnot : shut_both c2 = false) by by apply not_shut_both.
  assert (Hp2 : pumping c2).
  { apply pumping_evshut, pumping_upd; [done|]. rewrite E2. split_and!; [done..|by intros (? & ? & ?)]. }
  assert (E4 : buf (other s) c2 = buf (other s) c) by (rewrite <-E3; by destruct s).
  apply wlp_bind. eapply cli_shutdown; [done..| |]; clear w H; intros w E H; [|change (shut_both c2 = true) in E; congruence].
  change (cli id c2 w) in H. clear E. clearbody c2.
  apply wlp_bind, wp_wlp. eapply cli_get; [done|]. destruct Hp2 as [(Hst & Hcc & Hcr) Hwm].
  assert (Hp2 : pumping c2) by by split. rewrite Hst, Z.eqb_refl. cbn [andb].
  unfold ended. cbv zeta. cbn [d_out]. change (be_output (buf (other s) c)) with (d_out (view s c)).
  rewrite V1 in W1. cbn [d_out d_in d_fin d_writing d_pending] in W1. rewrite <-W1.
  case_bool_decide; cbn [when].
  - rewrite <-V2, <-W2. apply shutdown_finishes; [done..|]. by rewrite E4.
  - apply wlp_ret. exists c2. split_and!; [done..|by rewrite W2|by apply cli_left].
Qed.

End refinement.

(** ** Properties of one direction *)

(** What libevent can deliver. *)
Definition dir_enabled (e : dir_event) (d : dir) : Prop :=
  match e with
  | Arrive data => d_reading d = true /\ data <> []
  | Take n => d_pending d = true /\ (d_out d = [] /\ n = 0%nat \/ (0 < n <= length (d_out d))%nat)
  | End => d_reading d = true
  end.

Definition received (e : dir_event) : bytes := match e with Arrive data => data | _ => [] end.
Definition delivered (e : dir_event) (d : dir) : bytes := match e with Take n => take n (d_out d) | _ => [] end.

(** A run of a direction: the events, and the bytes that came in and went out. *)
Inductive dir_run : dir -> list dir_event -> bytes -> bytes -> dir -> Prop :=
| run_nil d : dir_run d [] [] [] d
| run_cons d e es i o d' :
    dir_enabled e d -> dir_run (dir_step e d) es i o d' ->
    dir_run d (e :: es) (received e ++ i) (delivered e d ++ o) d'.

(** Between the start of the pump and its end: the write event is in the loop, or
    nothing waits, the end of the input was forwarded, and reading is enabled. *)
Record dir_started (d : dir) : Prop := {
  ds_live : d_pending d = true \/
    queue d = [] /\ (d_eof d = true -> d_fin d = true) /\ (d_eof d = false -> d_reading d = true);
  ds_fin : d_fin d = true -> d_eof d = true /\ queue d = [] /\ d_pending d = false;
  ds_writing : d_fin d = false -> d_writing d = true;
  ds_reading : d_reading d = true -> d_eof d = false }.

(** Nothing waits behind an empty output. *)
Definition primed (d : dir) : Prop := d_out d = [] -> d_in d = [].

Lemma step_fifo e d :
  dir_enabled e d -> delivered e d ++ queue (dir_step e d) = queue d ++ received e.
Proof.
  unfold queue. intros He. destruct e as [data|n|]; cbn [delivered received dir_step].
  - unfold arrive. cbn. case_match; cbn; by rewrite ?app_nil_r, <-?app_assoc.
  - assert (E : d_out (taken n d) ++ d_in (taken n d) = drop n (d_out d) ++ d_in d).
    { unfold taken. cbv zeta. case_bool_decide; [|done]. cbn [d_in d_eof].
      destruct (bool_decide (d_in d = []) && d_eof d); [done|]. cbn -[drop]. by rewrite app_nil_r. }
    by rewrite E, app_assoc, take_drop, app_nil_r.
  - unfold ended. cbv zeta. case_bool_decide; cbn; by rewrite ?app_nil_r.
Qed.

Lemma run_fifo d es i o d' : dir_run d es i o d' -> o ++ queue d' = queue d ++ i.
Proof.
  induction 1 as [d|d e es i o d' He _ IH]; [by rewrite app_nil_r|].
  by rewrite <-app_assoc, IH, !app_assoc, (step_fifo e d He).
Qed.

Lemma app_ne_nil {A} (l k : list A) : k <> [] -> l ++ k <> [].
Proof. destruct l; [done|]. done. Qed.

(** Closes the four clauses of [dir_started] on explicit directions. *)
Local Ltac started :=
  split; cbn; rewrite ?orb_true_r, ?orb_false_r; intros;
  first [congruence | by left | by split_and!; [congruence..|done] | right; split_and!; congruence | naive_solver].

Lemma not_fin d : dir_started d -> d_eof d = false \/ d_pending d = true -> d_fin d = false.
Proof. intros [_ Hf _ _] H. destruct (d_fin d); [|done]. destruct (Hf eq_refl) as (? & _ & ?). naive_solver congruence. Qed.

Lemma step_arrive_ok data d :
  dir_started d -> dir_enabled (Arrive data) d -> dir_started (arrive data d) /\ primed (arrive data d).
Proof.
  intros Hd [He Hdata]. pose proof (ds_reading _ Hd He) as Heof. pose proof (not_fin d Hd (or_introl Heof)) as Hfin.
  pose proof (ds_writing _ Hd Hfin) as Hw. pose proof (app_ne_nil (d_in d) data Hdata) as Hne.
  unfold arrive. cbv zeta. cbn [d_out]. destruct (Z.ltb_spec (zlen (d_out d)) REDSOCKS_RELAY_HALFBUFF) as [|Hge].
  - unfold flushed. cbn. rewrite bool_decide_eq_false_2, Hw, orb_true_r by done. split.
    + started.
    + intros E. by apply app_eq_nil in E as [_ ?].
  - assert (Ho : d_out d <> []) by (intros E; rewrite E in Hge; by apply Z.leb_le in Hge). split; [|by intros ?%Ho].
    assert (d_pending d = true).
    { destruct (ds_live _ Hd) as [?|(Hq & _)]; [done|]. by apply app_eq_nil in Hq as [? _]. }
    started.
Qed.

Lemma step_take_ok n d :
  dir_started d -> dir_enabled (Take n) d -> dir_started (taken n d) /\ primed (taken n d).
Proof.
  intros Hd [Hp Hn]. pose proof (not_fin d Hd (or_intror Hp)) as Hfin. pose proof (ds_writing _ Hd Hfin) as Hw.
  pose proof (ds_reading _ Hd) as Hr.
  unfold taken. cbv zeta. destruct (decide (drop n (d_out d) = [])) as [E|E].
  - rewrite bool_decide_eq_true_2 by done. cbn [d_in d_eof d_reading]. rewrite E.
    destruct (decide (d_in d = [])) as [Ei|Ei].
    + rewrite bool_decide_eq_true_2 by done. destruct (d_eof d) eqn:Heof; cbn [andb].
      * unfold finished. cbn. rewrite Ei. split; [|done]. started.
      * unfold flushed. cbn. rewrite Ei. split; [|done]. started.
    + rewrite bool_decide_eq_false_2 by done. unfold flushed. cbn. rewrite bool_decide_eq_false_2, Hw, orb_true_r by done.
      split; [|done]. destruct (d_eof d), (d_reading d) eqn:Er; try (specialize (Hr eq_refl); done); started.
  - rewrite bool_decide_eq_false_2 by done. rewrite Hp. split; [|by intros ?%E]. started.
Qed.

Lemma step_end_ok d :
  dir_started d -> dir_enabled End d -> primed d -> dir_started (ended d) /\ primed (ended d).
Proof.
  intros Hd He Hpr. cbn in He. pose proof (ds_reading _ Hd He) as Heof.
  pose proof (not_fin d Hd (or_introl Heof)) as Hfin. pose proof (ds_writing _ Hd Hfin) as Hw.
  unfold ended. cbv zeta. case_bool_decide as Ho; cbn in Ho.
  - unfold finished. cbn. rewrite Ho, (Hpr Ho). split; [|done]. started.
  - split; [|by intros ?%Ho]. assert (d_pending d = true).
    { destruct (ds_live _ Hd) as [?|(Hq & _)]; [done|]. by apply app_eq_nil in Hq as [? _]. }
    started.
Qed.

Lemma step_ok e d :
  dir_started d -> dir_enabled e d -> (e = End -> primed d) -> dir_started (dir_step e d) /\ primed (dir_step e d).
Proof.
  intros Hd He Hp. destruct e; [by apply step_arrive_ok|by apply step_take_ok|]. apply step_end_ok; auto.
Qed.

Lemma run_ok d es i o d' :
  dir_run d es i o d' -> dir_started d -> primed d -> dir_started d' /\ primed d'.
Proof.
  induction 1 as [|d e es i o d' He _ IH]; [done|]. intros Hs Hp. destruct (step_ok e d Hs He ltac:(done)). auto.
Qed.

Lemma run_started d es i o d' :
  dir_run d es i o d' -> dir_started d -> (primed d \/ head es <> Some End) -> dir_started d'.
Proof.
  destruct 1 as [|d e es i o d' He Hrun]; [done|]. intros Hs Hp.
  destruct (step_ok e d Hs He) as [Hs' Hp']; [intros ->; by destruct Hp|]. by destruct (run_ok _ _ _ _ _ Hrun Hs' Hp').
Qed.

(** After the end of the input only the receiver moves, until it is told. *)
Lemma run_after_end d es i o d' :
  dir_run d es i o d' -> dir_started d -> primed d -> d_eof d = true ->
  i = [] /\ (d_fin d = true -> es = []) /\
  (d_fin d' = true -> o = queue d) /\ (d_fin d' = false -> d_pending d' = true /\ (length es <= length o)%nat).
Proof.
  induction 1 as [d|d e es i o d' He Hrun IH]; intros Hs Hp Heof.
  - split_and!; try done.
    + intros Hf. by destruct (ds_fin _ Hs Hf) as (_ & -> & _).
    + intros Hf. split; [|done]. destruct (ds_live _ Hs) as [?|(_ & H & _)]; [done|]. rewrite H in Hf; done.
  - assert (Hr : d_reading d = false).
    { destruct (d_reading d) eqn:E; [|done]. pose proof (ds_reading _ Hs E). congruence. }
    destruct e as [data|n|]; [destruct He; congruence| |cbn in He; congruence].
    destruct (step_ok (Take n) d Hs He ltac:(done)) as [Hs' Hp']. destruct (He) as [Hpend Hn].
    pose proof (not_fin d Hs (or_intror Hpend)) as Hfin. pose proof (step_fifo _ _ He) as Hq.
    cbn [delivered received dir_step] in *. rewrite app_nil_r in Hq.
    assert (Heof' : d_eof (taken n d) = true).
    { unfold taken. cbv zeta. case_bool_decide; [|done]. cbn [d_in d_eof]. rewrite Heof.
      destruct (bool_decide (d_in d = []) && true); done. }
    destruct (IH Hs' Hp' Heof') as (-> & Hstop & H1 & H2). split_and!; [done|congruence| |].
    + intros Hf. rewrite (H1 Hf). done.
    + intros Hf. destruct (H2 Hf) as [? Hlen]. split; [done|]. rewrite length_app, length_take. cbn [length].
      destruct Hn as [[Ho ->]|Hn]; [|lia]. exfalso.
      assert (Hd : d_fin (taken 0 d) = true).
      { unfold taken. cbn. by rewrite Ho, (Hp Ho), Heof. }
      rewrite (Hstop Hd) in Hrun. inversion Hrun; subst. congruence.
Qed.

(** ** The start of the pump *)

Lemma enable_rest_pump x b :
  rw x -> has x EV_WRITE = false -> rw (be_enabled b) -> (has x EV_READ = true -> has (be_enabled b) EV_READ = false) ->
  let b' := enable_rest true x (pump_ready b) in
  cbs (Some b') = Some (cb_pump_read, cb_pump_write) /\ wm_ok b' /\ be_input b' = be_input b /\
  be_output b' = be_output b /\ be_wpending b' = true /\ has (be_enabled b') EV_WRITE = true /\
  has (be_enabled b') EV_READ = negb (has x EV_READ).
Proof.
  intros Hx Hw Hb Hr. assert (Hx' : x = 0 \/ x = EV_READ).
  { unfold rw in Hx. rw_cases Hx; [by left|by right|done|done]. }
  assert (E : be_wpending (enable_rest true x (pump_ready b)) = true).
  { destruct Hx' as [-> | ->]; cbn; apply orb_true_r. }
  destruct Hx' as [-> | ->]; [|specialize (Hr eq_refl)]; (split_and!; [done| |done..|exact E| |]);
    try (by split_and!).
  1,2: change (be_enabled _) with (Z.lor (be_enabled b) 6).
  3,4: change (be_enabled _) with (Z.lor (be_enabled b) 4).
  all: rewrite has_lor; first [apply orb_true_r | by rewrite Hr].
Qed.

Lemma start_view bc br p c :
  c_pump c = new_pump -> flow_ok c -> c_client c = Some bc -> c_relay c = Some br -> (forall s, shut s EV_WRITE c = false) ->
  let c' := pump_started true bc br p c in
  pumping c' /\ forall s, dir_started (view s c') /\ queue (view s c') = be_output (buf (other s) c) ++ be_input (buf s c).
Proof.
  intros Hn Hf Hc Hr Hw.
  destruct (fl_enabled _ Hf Client bc Hc) as (B1 & _). destruct (fl_enabled _ Hf Relay br Hr) as (B2 & _).
  pose proof (fl_reads _ Hf Client) as Q1. pose proof (fl_reads _ Hf Relay) as Q2. unfold shut, reads in Q1, Q2.
  cbn in Q1, Q2. rewrite Hc in Q1. rewrite Hr in Q2.
  destruct (enable_rest_pump _ bc (fl_rw _ Hf Client) (Hw Client) B1 Q1) as (X1 & X2 & X3 & X4 & X5 & X6 & X7).
  destruct (enable_rest_pump _ br (fl_rw _ Hf Relay) (Hw Relay) B2 Q2) as (Y1 & Y2 & Y3 & Y4 & Y5 & Y6 & Y7).
  pose proof (Hw Client) as W1. pose proof (Hw Relay) as W2.
  cbv zeta. unfold pump_started. cbn [c_evshut] in *.
  set (b1 := enable_rest true (client_evshut c) (pump_ready bc)) in *.
  set (b2 := enable_rest true (relay_evshut c) (pump_ready br)) in *. clearbody b1 b2. split.
  - split; [split_and!; done|]. split; [by intros []|done].
  - unfold queue, view, buf. intros []; cbn [other c_buf c_set_buf c_client c_relay]; rewrite Hc, Hr, ?X3, ?X4, ?X5, ?X6, ?X7, ?Y3, ?Y4, ?Y5, ?Y6, ?Y7;
      (split; [|done]); (split; cbn; [by left| |done|]); unfold shut in *; cbn in *; first [congruence|by intros ?%negb_true_iff].
Qed.

(** ** The theorems *)

(** The client an event is about, and whether it ends its connections. *)
Definition target (e : input_event) : option Z :=
  match e with
  | ev_accept _ _ _ | ev_backoff => None
  | ev_readable id _ _ | ev_read_failed id _ _ | ev_writable id _ _ | ev_write_failed id _ _ => Some id
  | ev_splice_read id _ _ | ev_splice_write id _ _ _ _ => Some id
  end.
Definition fatal (e : input_event) : bool :=
  match e with
  | ev_read_failed _ _ what => negb (what =? BEV_EOF)
  | ev_write_failed _ _ _ => true
  | _ => false
  end.

Section theorems.
Context (ctx : MD5.md5_state) {LR : LineReader}.

(** One direction moves, the other stays. *)
Lemma lift_view {A} (m : M A) id e e' s c w :
  dir_of id e s = Some e' -> dir_of id e (other s) = None ->
  wlp m (fun _ w' => exists c', pumping c' /\ view s c' = dir_step e' (view s c) /\
    view (other s) c' = view (other s) c /\ w_clients w' !! id = left_over c') w ->
  wlp m (fun _ w' => exists c', pumping c' /\ (forall s, view s c' = dir_next id e s (view s c)) /\
    w_clients w' !! id = left_over c') w.
Proof.
  intros E1 E2. unfold wlp. destruct (m w) as [a w'| |]; [|done..]. intros (c' & Hp & V1 & V2 & Hl).
  exists c'. split_and!; [done| |done]. intros s'. unfold dir_next. destruct (decide (s' = s)) as [->|Hne].
  - by rewrite E1.
  - assert (s' = other s) as -> by by destruct s, s'. by rewrite E2.
Qed.

(** The events of the splice pump do not concern such a client. *)
Lemma pumping_not_called k c : pumping c -> ~ called k c.
Proof. intros (_ & _ & Hn). unfold called. rewrite Hn. by destruct k as [[]|[]]. Qed.

Lemma pumping_buffered w id c :
  sound w -> w_clients w !! id = Some c -> pumping c -> exists g ss, at_client id g ss c w /\ buffered g ss c.
Proof.
  intros Hw Hc (_ & _ & Hn). destruct (sound_at w id c Hw Hc) as (g & ss & H & [Hinv|[_ Hs]]); [eauto|].
  destruct (sp_events _ Hs Client) as [E _]. by rewrite Hn in E.
Qed.

Lemma event_refines id c e w :
  sound w -> w_clients w !! id = Some c -> pumping c -> w_answers w = [] -> enabled e w -> target e = Some id ->
  fatal e = false ->
  wlp (handle ctx e) (fun _ w' => exists c', pumping c' /\ (forall s, view s c' = dir_next id e s (view s c)) /\
    w_clients w' !! id = left_over c') w.
Proof.
  intros Hw Hc Hp Ha He Ht Hfat. destruct (pumping_buffered w id c Hw Hc Hp) as (g & ss & _ & _ & Hf & _).
  assert (Hcli : cli id c w) by done. assert (Hrw : forall s, rw (be_enabled (buf s c))).
  { intros s. by destruct (fl_enabled _ Hf _ _ (pumping_buf s c Hp)). }
  pose proof (fl_open _ Hf) as Hno.
  destruct e as [| |id' s data|id' s what|id' s n| |id' s got|id' s r0 r1 r2]; try done; cbn in Ht; injection Ht as ->; cbn [handle].
  4,5: destruct He as (c0 & Hc0 & Hk & _); simplify_eq; by apply pumping_not_called in Hk.
  - apply (lift_view _ id _ (Arrive data) s); [cbn; by rewrite bool_decide_eq_true_2|by destruct s; cbn; rewrite bool_decide_eq_false_2 by naive_solver|].
    by apply readable_refines.
  - destruct He as (c0 & b & Hc0 & Hb & He & _). simplify_eq. cbn in Hfat.
    apply negb_false_iff, Z.eqb_eq in Hfat as ->.
    apply (lift_view _ id _ End s); [cbn; by rewrite bool_decide_eq_true_2|by destruct s; cbn; rewrite bool_decide_eq_false_2 by naive_solver|].
    apply eof_refines; try done. by eapply reads_not_shut.
  - apply (lift_view _ id _ (Take n) (other s));
      [cbn; by rewrite other_other, bool_decide_eq_true_2|by destruct s; cbn; rewrite bool_decide_eq_false_2 by naive_solver|].
    pose proof (writable_refines ctx id c (other s) n w Hcli Hp Hno) as H. rewrite other_other in *. by apply H.
Qed.

Lemma fatal_drops id e w :
  enabled e w -> target e = Some id -> fatal e = true ->
  wlp (handle ctx e) (fun _ w' => w_clients w' !! id = None) w.
Proof.
  intros He Ht Hfat. destruct e as [| | |id' s what| |id' s what| |]; try done; cbn in Ht; injection Ht as ->; cbn [handle].
  - destruct He as (? & ? & _ & _ & _ & _ & [-> | ->]); [done|].
    apply wlp_skip. intros _ w1. apply wlp_skip. intros _ w2. apply wlp_skip. intros c w3. apply wlp_drop.
  - destruct He as (? & ? & _ & _ & _ & _ & [-> | ->]);
      apply wlp_skip; intros _ w1; apply wlp_skip; intros _ w2; apply wlp_skip; intros c w3; apply wlp_drop.
Qed.

(** C3: The callbacks of the pump implement the abstract direction: while no call fails, an
    event of a relaying client moves exactly the direction it concerns by one abstract step,
    and the client is released exactly when both directions have ended, or at once on an
    error. *)
Theorem pump_refines id c e w :
  sound w -> w_clients w !! id = Some c -> pumping c -> w_answers w = [] -> enabled e w -> target e = Some id ->
  exists w', handle ctx e w = Ok tt w' /\
    if fatal e then w_clients w' !! id = None
    else exists c', pumping c' /\ (forall s, view s c' = dir_next id e s (view s c)) /\
      w_clients w' !! id = if shut_both c' then None else Some c'.
Proof.
  intros Hw Hc Hp Ha He Ht. pose proof (handle_sound ctx e w Hw He) as H. apply wp_run in H as ([] & w' & Hrun & _).
  exists w'. split; [done|]. destruct (fatal e) eqn:Hfat.
  - pose proof (fatal_drops id e w He Ht Hfat) as H. unfold wlp in H. by rewrite Hrun in H.
  - pose proof (event_refines id c e w Hw Hc Hp Ha He Ht Hfat) as H. unfold wlp in H. by rewrite Hrun in H.
Qed.

(** When relaying starts, both directions are live, and they hold exactly what the
    buffers held: nothing that arrived early is lost. *)
Theorem start_relay_starts_pump id c g ss w :
  at_client id g ss c w -> client_inv g ss c -> talking ss g c -> use_splice g = false ->
  exists w', redsocks_start_relay id w = Ok tt w' /\ forall c', w_clients w' !! id = Some c' ->
    pumping c' /\ forall s, dir_started (view s c') /\
      queue (view s c') = be_output (buf (other s) c) ++ be_input (buf s c).
Proof.
  intros H Hinv Ht Hsp. destruct (talking_buffered _ _ _ Hinv Ht) as (Hn & Hf & _). destruct Ht as ((_ & Hw & Hcc) & Hcr & _).
  destruct (c_client c) as [bc|] eqn:Hc; [|done]. destruct (c_relay c) as [br|] eqn:Hr; [|done].
  assert (Hwp : wp (redsocks_start_relay id) (fun _ w' => forall c', w_clients w' !! id = Some c' ->
    pumping c' /\ forall s, dir_started (view s c') /\
      queue (view s c') = be_output (buf (other s) c) ++ be_input (buf s c)) w).
  { eapply at_start_relay; [done|done|done|done| |].
    - intros w' [_ Hgone] c' Hc'. congruence.
    - intros w' (_ & _ & _ & Hid & _) c' Hc'. rewrite Hid in Hc'. injection Hc' as <-. by apply start_view. }
  apply wp_run in Hwp as ([] & w' & ? & ?). by exists w'.
Qed.

(** ** Runs of a relayed connection *)

(** The bytes an event brings from side [s], and those it hands to the other side. *)
Definition bytes_from (id : Z) (e : input_event) (s : side) : bytes :=
  match dir_of id e s with Some e => received e | None => [] end.
Definition bytes_to (id : Z) (e : input_event) (s : side) (c : redsocks_client) : bytes :=
  match dir_of id e s with Some e => delivered e (view s c) | None => [] end.
(** The events of a run that concern the direction from [s]. *)
Definition moves (id : Z) (es : list input_event) (s : side) : list dir_event := omap (fun e => dir_of id e s) es.

(** Events of the client [id] that the loop delivers one after the other, while no call
    fails, with the bytes that came from each side and those that reached its peer. *)
Inductive conn_run (id : Z) : world -> list input_event -> (side -> bytes) -> (side -> bytes) -> world -> Prop :=
| conn_nil w : conn_run id w [] (fun _ => []) (fun _ => []) w
| conn_cons w c e es i o w1 w2 :
    w_clients w !! id = Some c -> w_answers w = [] -> enabled e w -> target e = Some id -> fatal e = false ->
    handle ctx e w = Ok tt w1 -> conn_run id w1 es i o w2 ->
    conn_run id w (e :: es) (fun s => bytes_from id e s ++ i s) (fun s => bytes_to id e s c ++ o s) w2.

Lemma dir_enabled_of id e w c s e' :
  w_clients w !! id = Some c -> enabled e w -> dir_of id e s = Some e' -> dir_enabled e' (view s c).
Proof.
  intros Hc He Hd. destruct e as [| |id' s' data|id' s' what|id' s' n| | |]; try done; cbn in Hd; case_bool_decide; try done;
    destruct_and?; simplify_eq; destruct He as (c0 & b & Hc0 & Hb & He & Hr); simplify_eq;
    unfold dir_enabled, view, buf; cbn [d_reading d_pending d_out]; rewrite Hb; (split || idtac); try done.
  intros ->. by destruct Hr as (_ & ? & _).
Qed.

(** The run of a connection is a run of each of its directions. *)
Lemma conn_dirs id w es i o w' :
  conn_run id w es i o w' -> forall c, sound w -> w_clients w !! id = Some c -> pumping c ->
  exists c', pumping c' /\ (forall s, dir_run (view s c) (moves id es s) (i s) (o s) (view s c')) /\
    w_clients w' !! id = left_over c'.
Proof.
  induction 1 as [w|w c e es i o w1 w2 Hc0 Ha He Ht Hfat Hrun Hrest IH]; intros c1 Hs Hc Hp.
  - destruct (pumping_buffered w id c1 Hs Hc Hp) as (g & ss & _ & _ & Hf & _). exists c1. split_and!; [done| |].
    + intros s. apply run_nil.
    + unfold left_over. by rewrite (fl_open _ Hf).
  - rewrite Hc0 in Hc. injection Hc as <-. pose proof (event_refines id c e w Hs Hc0 Hp Ha He Ht Hfat) as H1. unfold wlp in H1. rewrite Hrun in H1.
    destruct H1 as (c1 & Hp1 & Hv & Hl). pose proof (handle_sound ctx e w Hs He) as H2. unfold wp in H2. rewrite Hrun in H2.
    assert (Hstep : forall s es i o d', dir_run (view s c1) (moves id es s) i o d' ->
      dir_run (view s c) (moves id (e :: es) s) (bytes_from id e s ++ i) (bytes_to id e s c ++ o) d').
    { intros s es' i' o' d' Hr. rewrite Hv in Hr. unfold dir_next, bytes_from, bytes_to, moves in *. cbn [omap list_omap].
      destruct (dir_of id e s) eqn:E; [|done]. apply run_cons; [by eapply dir_enabled_of|done]. }
    destruct (shut_both c1) eqn:Hb; unfold left_over in Hl; rewrite Hb in Hl.
    + inversion Hrest; simplify_eq. exists c1. split_and!; [done| |].
      * intros s. apply Hstep, run_nil.
      * unfold left_over. by rewrite Hb.
    + destruct (IH c1 H2 Hl Hp1) as (c2 & Hp2 & Hd & Hl2). exists c2. split_and!; [done| |done].
      intros s. by apply Hstep.
Qed.

Lemma left_some id w c c' : w_clients w !! id = left_over c -> w_clients w !! id = Some c' -> c' = c.
Proof. unfold left_over. intros -> H. destruct (shut_both c); congruence. Qed.

(** A direction whose end was forwarded, from a released client. *)
Lemma released_fin c s : shut_both c = true -> d_fin (view s c) = true.
Proof.
  unfold shut_both. intros [H1 H2]%andb_true_iff. apply Z.eqb_eq in H1, H2.
  unfold view, shut. cbn [d_fin]. destruct s; cbn [other c_evshut]; by rewrite ?H1, ?H2.
Qed.

(** C10: Whatever the interleaving of arrivals, writes and ends on the two sides of a
    relayed connection, while no call fails, the bytes a side has received followed by those
    still in transit are the bytes in transit at the start followed by those that came from
    its peer: none lost, repeated or reordered; and when the connection is gone, what was
    received is a prefix of what was sent. *)
Theorem relayed_in_order id c w es i o w' :
  sound w -> w_clients w !! id = Some c -> pumping c -> conn_run id w es i o w' ->
  forall s, exists rest, o s ++ rest = queue (view s c) ++ i s /\
    forall c', w_clients w' !! id = Some c' -> rest = queue (view s c').
Proof.
  intros Hs Hc Hp Hrun s. destruct (conn_dirs _ _ _ _ _ _ Hrun c Hs Hc Hp) as (c' & _ & Hd & Hl).
  exists (queue (view s c')). split; [by eapply run_fifo|]. intros c1 H1. by rewrite (left_some id w' c' c1).
Qed.

(** C16: A direction never stalls: while no call fails, once relaying started
    ([dir_started], which [start_relay_starts_pump] establishes), after any run in which the
    first event of the direction is not the end of its input or nothing waited behind an
    empty output ([early_end_loses_data] is the case left out), either the write event is in
    the loop, or everything that arrived was delivered, the end of the input was forwarded
    if it came, and reading is enabled if it did not. *)
Theorem direction_never_stalls id c w es i o w' s :
  sound w -> w_clients w !! id = Some c -> pumping c -> conn_run id w es i o w' ->
  dir_started (view s c) -> (primed (view s c) \/ head (moves id es s) <> Some End) ->
  forall c', w_clients w' !! id = Some c' ->
    d_pending (view s c') = true \/
    queue (view s c') = [] /\ (d_eof (view s c') = true -> d_fin (view s c') = true) /\
      (d_eof (view s c') = false -> d_reading (view s c') = true).
Proof.
  intros Hs Hc Hp Hrun Hst Hpr c1 H1. destruct (conn_dirs _ _ _ _ _ _ Hrun c Hs Hc Hp) as (c' & _ & Hd & Hl).
  rewrite (left_some id w' c' c1) by done. apply ds_live. by eapply run_started.
Qed.

(** C17: After the end of the input of a side whose direction was started ([dir_started])
    and holds nothing behind an empty output ([primed], which every arrival and every write
    establishes; an end that comes before any of them with bytes already there is
    [early_end_loses_data]), while no call fails, its peer gets exactly the bytes in transit
    and then the end. The end is forwarded, and the client released, only once all of them
    were delivered; until then the write event is in the loop, and every write delivers
    something, so at most as many writes as there are bytes precede it. *)
Theorem end_after_last_byte id c w es i o w' s :
  sound w -> w_clients w !! id = Some c -> pumping c -> conn_run id w es i o w' ->
  dir_started (view s c) -> primed (view s c) -> d_eof (view s c) = true ->
  match w_clients w' !! id with
  | None => o s = queue (view s c)
  | Some c' => if d_fin (view s c') then o s = queue (view s c)
               else d_pending (view s c') = true /\
                    (length (moves id es s) <= length (o s) <= length (queue (view s c)))%nat
  end.
Proof.
  intros Hs Hc Hp Hrun Hst Hpr Heof. destruct (conn_dirs _ _ _ _ _ _ Hrun c Hs Hc Hp) as (c' & _ & Hd & Hl).
  destruct (run_after_end _ _ _ _ _ (Hd s) Hst Hpr Heof) as (Hi & _ & H1 & H2).
  rewrite Hl. unfold left_over. destruct (shut_both c') eqn:Hb; [by apply H1, released_fin|].
  destruct (d_fin (view s c')); [auto|]. destruct (H2 eq_refl) as [? ?].
  pose proof (f_equal length (run_fifo _ _ _ _ _ (Hd s))) as Hq. rewrite Hi, app_nil_r, length_app in Hq.
  split; [done|lia].
Qed.

End theorems.

(** ** A relayed connection *)

(** [enabled], decided. *)
Definition on_buf (id : Z) (s : side) (p : bufferevent -> bool) (w : world) : bool :=
  match w_clients w !! id with
  | Some c => match c_buf s c with Some b => p b | None => false end
  | None => false
  end.
Definition calledb (k : pump_event) (c : redsocks_client) : bool :=
  e_pending (p_event k (c_pump c)) || e_active (p_event k (c_pump c)).
Definition can_spliceb (s : side) (got : spliced) (c : redsocks_client) : bool :=
  match got with
  | sp_moved data => bool_decide (is_bytes data) && negb (bool_decide (data = [])) &&
                     (zlen (sp_data (pump_pipe s (c_pump c))) + zlen data <=? pipe_capacity)
  | _ => true
  end.
Definition fitsb (r : written) (avail : nat) : bool := match r with wr_sent n => Nat.leb n avail | _ => true end.

Definition enabledb (e : input_event) (w : world) : bool :=
  match e with
  | ev_accept n _ _ => match w_instances w !! n with Some i => i_listening i | None => false end
  | ev_backoff => match accept_backoff_ev w with Some _ => true | None => false end
  | ev_readable id s data => on_buf id s (fun b => has (be_enabled b) EV_READ && bool_decide (is_bytes data) &&
      (0 <? zlen data) && (zlen data <=? room b)) w
  | ev_read_failed id s what => on_buf id s (fun b => has (be_enabled b) EV_READ && (0 <? room b) &&
      ((what =? BEV_EOF) || (what =? BEV_ERROR))) w
  | ev_writable id s n => on_buf id s (fun b => be_wpending b &&
      (bool_decide (be_output b = []) && Nat.eqb n 0 || Nat.ltb 0 n && Nat.leb n (length (be_output b)))) w
  | ev_write_failed id s what => on_buf id s (fun b => be_wpending b && negb (bool_decide (be_output b = [])) &&
      ((what =? BEV_EOF) || (what =? BEV_ERROR))) w
  | ev_splice_read id s got => match w_clients w !! id with
      | Some c => calledb (ReadOf s) c && can_spliceb s got c
      | None => false
      end
  | ev_splice_write id s r0 r1 r2 => match w_clients w !! id with
      | Some c => calledb (WriteOf s) c && fitsb r0 (length (output_of s c)) && fitsb r1 (length (input_of (other s) c)) &&
                  fitsb r2 (length (sp_data (pump_pipe (other s) (c_pump c))))
      | None => false
      end
  end.

Lemma on_buf_true id s p w :
  on_buf id s p w = true -> exists c b, w_clients w !! id = Some c /\ c_buf s c = Some b /\ p b = true.
Proof. unfold on_buf. intros H. repeat case_match; try done. eauto. Qed.

Lemma fitsb_true r avail : fitsb r avail = true -> fits r avail.
Proof. intros H n ->. cbn in H. by apply Nat.leb_le in H. Qed.
Lemma can_spliceb_true s got c : can_spliceb s got c = true -> can_splice s got c.
Proof.
  destruct got as [data| | |]; try done. cbn. rewrite !andb_true_iff, negb_true_iff. intros ((H1 & H2) & H3).
  split_and!; [by eapply bool_decide_eq_true|by eapply bool_decide_eq_false|lia].
Qed.

Lemma enabledb_true e w : enabledb e w = true -> enabled e w.
Proof.
  destruct e as [n ca da| |id s data|id s what|id s n|id s what|id s got|id s r0 r1 r2]; cbn [enabledb enabled].
  - destruct (w_instances w !! n); [|done]. eauto.
  - destruct (accept_backoff_ev w); [|done]. eauto.
  - intros (c & b & ? & ? & H)%on_buf_true. exists c, b. rewrite !andb_true_iff in H. destruct_and!.
    split_and!; try done; [by eapply bool_decide_eq_true|lia..].
  - intros (c & b & ? & ? & H)%on_buf_true. exists c, b. rewrite !andb_true_iff, orb_true_iff in H. destruct_and!.
    split_and!; try done; [lia|]. rewrite <-!Z.eqb_eq. done.
  - intros (c & b & ? & ? & H)%on_buf_true. exists c, b. rewrite !andb_true_iff, orb_true_iff, !andb_true_iff in H.
    destruct H as [? H]. split_and!; try done. rewrite bool_decide_eq_true, Nat.eqb_eq, Nat.ltb_lt, Nat.leb_le in H. done.
  - intros (c & b & ? & ? & H)%on_buf_true. exists c, b. rewrite !andb_true_iff, orb_true_iff in H. destruct_and!.
    split_and!; try done; [|rewrite <-!Z.eqb_eq; done].
    intros E. rewrite bool_decide_eq_true_2 in * by done. done.
  - destruct (w_clients w !! id) as [c|]; [|done]. rewrite andb_true_iff. intros [? ?%can_spliceb_true]. by exists c.
  - destruct (w_clients w !! id) as [c|]; [|done]. rewrite !andb_true_iff.
    intros (((? & ?%fitsb_true) & ?%fitsb_true) & ?%fitsb_true). by exists c.
Qed.

(** The state after a list of events, if each can be delivered. *)
Fixpoint run_events (es : list input_event) (w : world) : option world :=
  match es with
  | [] => Some w
  | e :: es => if enabledb e w then
                 match handle some_ctx e w with Ok _ w' => run_events es w' | _ => None end
               else None
  end.

Lemma run_events_running v es w w' :
  running some_ctx v w -> run_events es w = Some w' -> running some_ctx v w'.
Proof.
  revert w. induction es as [|e es IH]; cbn; intros w Hr; [by intros [= <-]|].
  destruct (enabledb e w) eqn:He; [|done]. destruct (handle some_ctx e w) as [[] w1| |] eqn:Hh; [|done..].
  apply IH. destruct Hr as (w0 & Hi & Hr). exists w0. split; [done|].
  eapply (reach_step _ _ _ tt); [done|]. rewrite <-Hh. by apply step_event, enabledb_true.
Qed.

(** The SOCKS5 dialogue, and three bytes of the client that come before its end. *)
Definition dialogue_events : list input_event :=
  [ev_writable 1 Relay 0; ev_writable 1 Relay 3; ev_readable 1 Relay [5; 0]; ev_writable 1 Relay 10;
   ev_readable 1 Client [1; 2; 3]; ev_readable 1 Relay [5; 0; 0; 1]; ev_readable 1 Relay [127; 0; 0; 1; 0; 80]].

Definition w_relayed : world := default accepted (run_events dialogue_events accepted).

Lemma relayed_runs : running some_ctx boot w_relayed.
Proof. apply (run_events_running boot dialogue_events accepted); [apply boot_runs|]. vm_compute. reflexivity. Qed.

Definition relayed_client : redsocks_client :=
  default (new_client 0 (loopback []) (loopback [])) (w_clients w_relayed !! 1).

Lemma relayed_facts :
  w_clients w_relayed !! 1 = Some relayed_client /\ pumping relayed_client /\ w_answers w_relayed = [] /\
  sound w_relayed.
Proof.
  split; [vm_compute; reflexivity|]. split; [|split; [vm_compute; reflexivity|]].
  - split; [split_and!; vm_compute; reflexivity|]. split; [intros []; split_and!; vm_compute; reflexivity|vm_compute; reflexivity].
  - eapply running_sound; [apply boot_configured|apply relayed_runs].
Qed.

Lemma first_take d : dir_next 1 (ev_writable 1 Relay 0) Client d = taken 0 d.
Proof. reflexivity. Qed.

(** The relay takes the three bytes of the client. *)
Lemma pump_refines_witness :
  exists w', handle some_ctx (ev_writable 1 Relay 0) w_relayed = Ok tt w' /\
    exists c', w_clients w' !! 1 = Some c' /\ d_out (view Client c') = [1; 2; 3].
Proof.
  destruct relayed_facts as (Hc & Hp & Ha & Hs).
  assert (He : enabled (ev_writable 1 Relay 0) w_relayed) by (apply enabledb_true; vm_compute; reflexivity).
  destruct (pump_refines some_ctx 1 relayed_client _ w_relayed Hs Hc Hp Ha He eq_refl) as (w' & Hrun & c' & _ & Hv & Hl).
  exists w'. split; [exact Hrun|]. exists c'.
  pose proof (Hv Client) as E. rewrite first_take in E.
  assert (X : d_eof (view Client c') = false) by (rewrite E; vm_compute; reflexivity).
  split; [|rewrite E; vm_compute; reflexivity]. rewrite Hl. replace (shut_both c') with false; [reflexivity|].
  unfold shut_both. symmetry. apply andb_false_iff. right. apply Z.eqb_neq. intros Y.
  unfold view, shut in X. cbn [d_eof c_evshut] in X. rewrite Y in X. discriminate X.
Defined.

(** A run of a connection by evaluation. *)
Fixpoint conn_in (id : Z) (es : list input_event) : side -> bytes :=
  match es with [] => fun _ => [] | e :: es => fun s => bytes_from id e s ++ conn_in id es s end.
Fixpoint conn_out (id : Z) (es : list input_event) (w : world) : side -> bytes :=
  match es, w_clients w !! id with
  | e :: es, Some c => fun s => bytes_to id e s c ++ conn_out id es (run_to (handle some_ctx e) w) s
  | _, _ => fun _ => []
  end.
Fixpoint conn_okb (id : Z) (es : list input_event) (w : world) : bool :=
  match es with
  | [] => true
  | e :: es => bool_decide (is_Some (w_clients w !! id)) && bool_decide (w_answers w = []) && enabledb e w &&
      bool_decide (target e = Some id) && negb (fatal e) &&
      match handle some_ctx e w with Ok _ w' => conn_okb id es w' | _ => false end
  end.
Fixpoint conn_end (es : list input_event) (w : world) : world :=
  match es with [] => w | e :: es => conn_end es (run_to (handle some_ctx e) w) end.

Lemma conn_exec id es w :
  conn_okb id es w = true -> conn_run some_ctx id w es (conn_in id es) (conn_out id es w) (conn_end es w).
Proof.
  revert w. induction es as [|e es IH]; cbn [conn_okb conn_in conn_out conn_end]; intros w H; [apply conn_nil|].
  rewrite !andb_true_iff in H. destruct H as (((((H1 & H2) & H3) & H4) & H5) & H6).
  apply bool_decide_eq_true in H1 as [c Hc]. apply bool_decide_eq_true in H2, H4. apply negb_true_iff in H5.
  rewrite Hc. destruct (handle some_ctx e w) as [[] w1| |] eqn:Hh; [|done..].
  assert (E : run_to (handle some_ctx e) w = w1) by (unfold run_to; by rewrite Hh).
  rewrite E. eapply conn_cons; [exact Hc|exact H2|by apply enabledb_true|exact H4|exact H5|exact Hh|by apply IH].
Qed.

(** The pump starts, the relay gets the bytes of the client, more arrive and are taken in
    part, then the client ends its output. *)
Definition relay_events : list input_event :=
  [ev_writable 1 Relay 0; ev_readable 1 Client [4; 5]; ev_writable 1 Relay 2; ev_readable 1 Relay [9];
   ev_read_failed 1 Client BEV_EOF].

Lemma relay_events_run :
  conn_run some_ctx 1 w_relayed relay_events (conn_in 1 relay_events) (conn_out 1 relay_events w_relayed)
    (conn_end relay_events w_relayed).
Proof. apply conn_exec. vm_compute. reflexivity. Qed.

Lemma relayed_in_order_witness :
  exists rest, [1; 2] ++ rest = [1; 2; 3] ++ [4; 5].
Proof.
  destruct relayed_facts as (Hc & Hp & Ha & Hs).
  destruct (relayed_in_order some_ctx 1 relayed_client w_relayed _ _ _ _ Hs Hc Hp relay_events_run Client) as (rest & E & _).
  exists rest. exact E.
Defined.

Lemma relayed_started s : dir_started (view s relayed_client).
Proof. destruct s; split; vm_compute; auto; discriminate. Qed.

(** The end of the client's output waits behind three bytes, and the write event is in the loop. *)
Lemma direction_never_stalls_witness :
  exists c', w_clients (conn_end relay_events w_relayed) !! 1 = Some c' /\
    (d_pending (view Client c') = true \/
     queue (view Client c') = [] /\ (d_eof (view Client c') = true -> d_fin (view Client c') = true) /\
       (d_eof (view Client c') = false -> d_reading (view Client c') = true)).
Proof.
  destruct relayed_facts as (Hc & Hp & Ha & Hs).
  exists (default relayed_client (w_clients (conn_end relay_events w_relayed) !! 1)). split; [vm_compute; reflexivity|].
  apply (direction_never_stalls some_ctx 1 relayed_client w_relayed relay_events _ _ _ Client Hs Hc Hp relay_events_run).
  - apply relayed_started.
  - right. vm_compute. discriminate.
  - vm_compute. reflexivity.
Defined.

(** The state when the client has ended its output, with three bytes in transit; the relay
    takes them. *)
Definition w_ending : world := conn_end relay_events w_relayed.
Definition ending_client : redsocks_client :=
  default (new_client 0 (loopback []) (loopback [])) (w_clients w_ending !! 1).

Lemma ending_facts :
  w_clients w_ending !! 1 = Some ending_client /\ pumping ending_client /\ sound w_ending.
Proof.
  split; [vm_compute; reflexivity|]. split.
  - split; [split_and!; vm_compute; reflexivity|]. split; [intros []; split_and!; vm_compute; reflexivity|vm_compute; reflexivity].
  - eapply running_sound; [apply boot_configured|].
    apply (run_events_running boot relay_events w_relayed); [apply relayed_runs|]. vm_compute. reflexivity.
Qed.

Lemma end_after_last_byte_witness :
  conn_out 1 [ev_writable 1 Relay 3] w_ending Client = [3; 4; 5].
Proof.
  destruct ending_facts as (Hc & Hp & Hs).
  assert (Hrun := conn_exec 1 [ev_writable 1 Relay 3] w_ending ltac:(vm_compute; reflexivity)).
  assert (H : match w_clients (conn_end [ev_writable 1 Relay 3] w_ending) !! 1 with
              | None => conn_out 1 [ev_writable 1 Relay 3] w_ending Client = queue (view Client ending_client)
              | Some c' => if d_fin (view Client c') then conn_out 1 [ev_writable 1 Relay 3] w_ending Client = queue (view Client ending_client)
                           else d_pending (view Client c') = true /\
                             (length (moves 1 [ev_writable 1 Relay 3] Client) <=
                              length (conn_out 1 [ev_writable 1 Relay 3] w_ending Client) <=
                              length (queue (view Client ending_client)))%nat
              end).
  { apply (end_after_last_byte some_ctx 1 ending_client w_ending [ev_writable 1 Relay 3] (conn_in 1 [ev_writable 1 Relay 3])
      (conn_out 1 [ev_writable 1 Relay 3] w_ending) (conn_end [ev_writable 1 Relay 3] w_ending) Client Hs Hc Hp Hrun).
    - split; vm_compute; auto; discriminate.
    - vm_compute. discriminate.
    - vm_compute. reflexivity. }
  vm_compute in H. vm_compute. exact H.
Defined.

(** Just before the last answer of the proxy. *)
Definition w_granted : world := default accepted (run_events (take 6 dialogue_events) accepted).
Definition granted_client : redsocks_client :=
  default (new_client 0 (loopback []) (loopback [])) (w_clients w_granted !! 1).

Lemma granted_at :
  exists g ss, at_client 1 g ss granted_client w_granted /\ client_inv g ss granted_client /\
    talking ss g granted_client /\ use_splice g = false.
Proof.
  assert (Hr : running some_ctx boot w_granted).
  { apply (run_events_running boot (take 6 dialogue_events) accepted); [apply boot_runs|]. vm_compute. reflexivity. }
  pose proof (running_sound some_ctx boot w_granted boot_configured Hr) as Hs.
  destruct (sound_at w_granted 1 granted_client Hs) as (g & ss & H & Hinv); [vm_compute; reflexivity|].
  exists g, ss. destruct (idle_buffered _ _ _ Hinv) as (_ & _ & Hst); [vm_compute; discriminate|].
  assert (Hsp : use_splice g = false).
  { destruct H as (_ & _ & _ & _ & i & Hi & _ & <- & _). vm_compute in Hi. injection Hi as <-. reflexivity. }
  split_and!; [done..| |done]. destruct Hst as [(Hp & _)|[(_ & Hcb & _)|?]]; [vm_compute in Hp; done|vm_compute in Hcb; done|done].
Qed.

(** The three bytes the client sent early are still there. *)
Lemma start_relay_witness :
  exists w', redsocks_start_relay 1 w_granted = Ok tt w' /\
    forall c', w_clients w' !! 1 = Some c' -> queue (view Client c') = [1; 2; 3].
Proof.
  destruct granted_at as (g & ss & H & Hinv & Ht & Hsp).
  destruct (start_relay_starts_pump 1 granted_client g ss w_granted H Hinv Ht Hsp) as (w' & Hrun & Hw).
  exists w'. split; [exact Hrun|]. intros c' Hc'. destruct (Hw c' Hc') as [_ Hv]. destruct (Hv Client) as [_ Hq].
  rewrite Hq. vm_compute. reflexivity.
Defined.

(** The check that forwards the end of the input looks at the output of the other side
    only. When the end comes between the start of relaying and the first write, what
    the client had sent before is left in its input for ever: the other side is shut
    for writing and its write event is out of the loop. *)
Theorem early_end_loses_data :
  exists c w', w_clients w_relayed !! 1 = Some c /\ queue (view Client c) = [1; 2; 3] /\
    handle some_ctx (ev_read_failed 1 Client BEV_EOF) w_relayed = Ok tt w' /\
    enabled (ev_read_failed 1 Client BEV_EOF) w_relayed /\
    exists c', w_clients w' !! 1 = Some c' /\ queue (view Client c') = [1; 2; 3] /\
      d_fin (view Client c') = true /\ d_writing (view Client c') = false /\ d_pending (view Client c') = false.
Proof.
  exists relayed_client, (run_to (handle some_ctx (ev_read_failed 1 Client BEV_EOF)) w_relayed).
  split; [vm_compute; reflexivity|]. split; [vm_compute; reflexivity|]. split; [vm_compute; reflexivity|].
  split; [apply enabledb_true; vm_compute; reflexivity|].
  eexists. split; [vm_compute; reflexivity|]. repeat split.
Qed.

End Pump.
