(* ===== verification/SplicePump.v ===== *)
(** * What the splice pump relays

    An abstract channel for one direction of a connection that is relayed through a pipe
    (the bytes in transit, the end of the input, which of its two events the loop has), the
    refinement that shows the callbacks of redsocks.c implement two copies of it, and its
    properties: bytes come out in the order they went in, the end is forwarded after the
    last byte, and when a direction can be forgotten by the event loop. *)

From S2P Require Import Prelude CLib MD5 EvBuffer HttpAuth World HttprBuffer Redsocks Ownership ClientLogic Flow.
From S2P Require Import Splice Socks5 Socks4 HttpConnect HttpRelay Accept EventLoop Lifecycle Pump.
Import EvBuffer Redsocks Ownership Flow Splice Accept EventLoop Lifecycle.
Open Scope Z_scope.

Module SplicePump.

#[export] Instance spliced_eq_dec : EqDecision spliced.
Proof. solve_decision. Defined.

(** ** One direction *)

Record channel := mk_channel {
  ch_queue : bytes;      (* the bytes in transit, in the order they leave *)
  ch_eof : bool;         (* the sending side is shut for reading *)
  ch_fin : bool;         (* the receiving side is shut for writing *)
  ch_reading : bool;     (* the read event of the sender is in the loop *)
  ch_writing : bool }.   (* the write event of the receiver is in the loop, or active *)

Inductive ch_event :=
| Arrive (data : bytes)   (* [splice] moved data into the pipe *)
| Blocked                 (* it would block *)
| Finish                  (* the sender ended its output *)
| Wrote (n : nat).        (* the receiver took [n] bytes *)

Definition wrote (n : nat) (d : channel) : channel :=
  let q := drop n (ch_queue d) in
  if bool_decide (q = []) then
    if ch_eof d && negb (ch_fin d) then mk_channel q true true false false
    else mk_channel q (ch_eof d) (ch_fin d) true false
  else mk_channel q (ch_eof d) (ch_fin d) false true.

Definition ch_step (e : ch_event) (d : channel) : channel :=
  match e with
  | Arrive data => mk_channel (ch_queue d ++ data) (ch_eof d) (ch_fin d) (ch_reading d) true
  | Blocked => mk_channel (ch_queue d) (ch_eof d) (ch_fin d) false (ch_writing d)
  | Finish => mk_channel (ch_queue d) true (ch_fin d) false true
  | Wrote n => wrote n d
  end.

(** ** The direction from side [s] of a client *)

Definition chan (s : side) (c : redsocks_client) : channel :=
  mk_channel (output_of (other s) c ++ input_of s c ++ sp_data (pump_pipe s (c_pump c)))
    (shut s EV_READ c) (shut (other s) EV_WRITE c) (e_pending (p_event (ReadOf s) (c_pump c)))
    (e_pending (p_event (WriteOf (other s)) (c_pump c)) || e_active (p_event (WriteOf (other s)) (c_pump c))).

(** How many bytes a run of writes takes from its sources, each with the bytes it holds: a
    source follows when the one before was emptied. [None] when a write failed. *)
Fixpoint total (l : list (nat * written)) : option nat :=
  match l with
  | [] => Some 0%nat
  | (avail, r) :: l =>
      if Nat.eqb avail 0 then total l else
      match r with
      | wr_again => Some 0%nat
      | wr_error => None
      | wr_sent n => if Nat.eqb avail n then (fun m => n + m)%nat <$> total l else Some n
      end
  end.

(** The sources of the direction from [s], as [redsplice_write_cb] goes through them. *)
Definition sources (s : side) (r0 r1 r2 : written) (c : redsocks_client) : list (nat * written) :=
  [(length (output_of (other s) c), r0); (length (input_of s c), r1);
   (length (sp_data (pump_pipe s (c_pump c))), r2)].

(** What an event of the client means for the direction from [s]. *)
Definition ch_of (e : input_event) (c : redsocks_client) (s : side) : option ch_event :=
  match e with
  | ev_splice_read _ s' got =>
      if bool_decide (s' = s) then
        match got with
        | sp_moved data => Some (Arrive data)
        | sp_eof => Some Finish
        | sp_again => Some Blocked
        | sp_error => None
        end
      else None
  | ev_splice_write _ s' r0 r1 r2 =>
      if bool_decide (s' = other s) then Wrote <$> total (sources s r0 r1 r2 c) else None
  | _ => None
  end.

Definition ch_next (e : input_event) (c : redsocks_client) (s : side) : channel :=
  match ch_of e c s with Some e => ch_step e (chan s c) | None => chan s c end.

(** A call failed with an error that ends the connection. *)
Definition breaks (e : input_event) (c : redsocks_client) : bool :=
  match e with
  | ev_splice_read _ _ sp_error => true
  | ev_splice_write _ s r0 r1 r2 => bool_decide (total (sources (other s) r0 r1 r2 c) = None)
  | _ => false
  end.

(** A client in the care of the splice pump: its events are assigned, and the read events
    are never made active by hand. *)
Definition piping (c : redsocks_client) : Prop :=
  forall s, e_init (p_event (ReadOf s) (c_pump c)) = true /\ e_active (p_event (ReadOf s) (c_pump c)) = false.

(** ** Running a callback on a client when no call fails *)

Abbreviation cli := Pump.cli.
Abbreviation wlp := Pump.wlp.

(** The same direction contents; the time of the last event and empty buffers may differ. *)
Record twin (c c' : redsocks_client) : Prop := {
  tw_pump : c_pump c' = c_pump c;
  tw_evshut : forall s, c_evshut s c' = c_evshut s c;
  tw_out : forall s, output_of s c' = output_of s c;
  tw_in : forall s, input_of s c' = input_of s c }.

#[export] Instance twin_pre : PreOrder twin.
Proof.
  split; [by intros c; split|]. intros c1 c2 c3 [A B C D] [A' B' C' D']. split; intros; etrans; eauto.
Qed.

Lemma twin_chan s c c' : twin c c' -> chan s c' = chan s c.
Proof. intros [A B C D]. unfold chan, shut. by rewrite A, !B, C, D. Qed.
Lemma twin_sources s r0 r1 r2 c c' : twin c c' -> sources s r0 r1 r2 c' = sources s r0 r1 r2 c.
Proof. intros [A B C D]. unfold sources. by rewrite A, C, D. Qed.
Lemma twin_shut_both c c' : twin c c' -> shut_both c' = shut_both c.
Proof. intros [_ B _ _]. unfold shut_both. pose proof (B Client). pose proof (B Relay). cbn in *. congruence. Qed.

Lemma cli_free_unused id s c Q w :
  cli id c w -> (forall c' w, cli id c' w -> twin c c' -> Q tt w) -> wp (bufferevent_free_unused id s) Q w.
Proof.
  intros H HQ. apply wp_bind. eapply Pump.cli_get; [done|]. destruct (c_buf s c) as [b|] eqn:Hb; [|by eapply HQ].
  apply wp_when; intros E; [|by eapply HQ]. eapply Pump.cli_mod; [done|]. intros w' H'. eapply HQ; [done|].
  apply andb_true_iff in E as [Hi%bool_decide_eq_true Ho%bool_decide_eq_true].
  split; [by destruct s|by destruct s|..]; intros s'; unfold output_of, input_of;
    destruct s, s'; cbn in *; by rewrite ?Hb.
Qed.

Lemma cli_touch_pump id c Q w :
  cli id c w -> (forall c' w, cli id c' w -> twin c c' -> Q tt w) -> wp (redsocks_touch_pump id) Q w.
Proof.
  intros H HQ. apply wp_bind. eapply Pump.cli_touch; [done|]. clear w H. intros t w H.
  assert (T0 : twin c (c_set_last t c)) by (split; by try intros []).
  apply wp_bind. eapply cli_free_unused; [done|]. clear w H. intros c1 w H T1.
  eapply cli_free_unused; [done|]. intros c2 w' H' T2. eapply HQ; [done|]. by do 2 (etrans; [done|]).
Qed.

Lemma cli_event id k f c Q w :
  cli id c w -> (forall w, cli id (c_event k f c) w -> Q tt w) -> wp (mod_event id k f) Q w.
Proof. intros H HQ. by eapply Pump.cli_mod. Qed.
Lemma cli_pipe id s f c Q w :
  cli id c w -> (forall w, cli id (c_pipe s f c) w -> Q tt w) -> wp (mod_pipe id s f) Q w.
Proof. intros H HQ. by eapply Pump.cli_mod. Qed.
Lemma cli_event_add id k c Q w :
  cli id c w -> (forall w, cli id (c_event k e_added c) w -> Q tt w) -> wp (redsocks_event_add id k) Q w.
Proof.
  intros H HQ. apply wp_bind. eapply Pump.cli_answer; [done|]. by eapply cli_event.
Qed.
Lemma cli_trace id c e Q w : cli id c w -> (forall w, cli id c w -> Q tt w) -> wp (trace e) Q w.
Proof. intros [Hc Ha] HQ. by apply wp_modify, HQ. Qed.
Lemma cli_close id c fd (Q : unit -> world -> Prop) w :
  cli id c w -> (forall w, cli id c w -> Q tt w) -> wlp (redsocks_close fd) Q w.
Proof.
  intros [Hc Ha] HQ. unfold wlp, Pump.wlp, redsocks_close, close, mbind, M_bind.
  assert (HL : forall w, cli id c w -> cli id c (lowered w)).
  { intros u [H1 H2]. unfold cli, Pump.cli, lowered. repeat case_match; done. }
  destruct (bool_decide (fd ∈ w_open w)); cbn [when];
    rewrite ?conn_pressure_lowered_run; apply HQ; try apply HL; done.
Qed.

(** ** The callbacks move one direction *)

(** Changes of the pump, seen in its directions. *)
Lemma chan_read_event s f c :
  chan s (c_event (ReadOf s) f c) =
    mk_channel (ch_queue (chan s c)) (ch_eof (chan s c)) (ch_fin (chan s c))
      (e_pending (f (p_event (ReadOf s) (c_pump c)))) (ch_writing (chan s c)).
Proof. by destruct s. Qed.
Lemma chan_write_event s f c :
  chan s (c_event (WriteOf (other s)) f c) =
    let e := f (p_event (WriteOf (other s)) (c_pump c)) in
    mk_channel (ch_queue (chan s c)) (ch_eof (chan s c)) (ch_fin (chan s c)) (ch_reading (chan s c))
      (e_pending e || e_active e).
Proof. by destruct s. Qed.
Lemma chan_other_event s k f c : served k = s -> chan (other s) (c_event k f c) = chan (other s) c.
Proof. intros <-. by destruct k as [[]|[]]. Qed.
Lemma chan_other_pipe s f c : chan (other s) (c_pipe s f c) = chan (other s) c.
Proof. by destruct s. Qed.
Lemma served_write s : served (WriteOf (other s)) = s.
Proof. by destruct s. Qed.

Lemma piping_event k f c :
  piping c -> (forall e, e_init (f e) = e_init e /\ (e_active e = false -> e_active (f e) = false)) \/ (exists s, k = WriteOf s) ->
  piping (c_event k f c).
Proof.
  intros Hp [Hf|[s ->]] s'; destruct (Hp s') as [E1 E2].
  - destruct (Hf (p_event (ReadOf s') (c_pump c))) as [F1 F2]. destruct k as [[]|[]], s'; cbn in *; split; auto; congruence.
  - by destruct s, s'.
Qed.
Lemma piping_same c c' : c_pump c' = c_pump c -> piping c -> piping c'.
Proof. unfold piping. by intros ->. Qed.
Lemma piping_pipe s f c : piping c -> piping (c_pipe s f c).
Proof. intros Hp s'. specialize (Hp s'). by destruct s, s'. Qed.

(** What a callback for the direction from [s] leaves: the direction moved by [e], the
    other one is as it was, and the client is gone when both are over. *)
Definition moved_by (id : Z) (s : side) (e : ch_event) (c : redsocks_client) (w : world) : Prop :=
  exists c', piping c' /\ chan s c' = ch_step e (chan s c) /\ chan (other s) c' = chan (other s) c /\
    w_clients w !! id = Pump.left_over c'.

Section callbacks.
Context (id : Z).

(** The event is taken out of the active queue, and the buffers that are empty are freed. *)
Definition called_twin (k : pump_event) (c c' : redsocks_client) : Prop := twin (c_event k e_called c) c'.

Lemma cli_called k (m : M unit) c Q w :
  cli id c w -> (forall c' w, cli id c' w -> called_twin k c c' -> wlp m Q w) ->
  wlp (mod_event id k e_called ;; redsocks_touch_pump id ;; m) Q w.
Proof.
  intros H HQ. apply Pump.wlp_bind, Pump.wp_wlp. eapply cli_event; [done|]. clear w H. intros w H.
  apply Pump.wlp_bind, Pump.wp_wlp. by eapply cli_touch_pump.
Qed.

Lemma called_piping k c c' : called_twin k c c' -> piping c -> piping c'.
Proof.
  intros T Hp. eapply piping_same; [apply (tw_pump _ _ T)|]. apply piping_event; [done|left; by intros []].
Qed.
Lemma called_read s c c' : called_twin (ReadOf s) c c' -> forall s', chan s' c' = chan s' c.
Proof. intros T s'. rewrite (twin_chan s' _ _ T). by destruct s, s'. Qed.
Lemma called_shut_both k c c' : called_twin k c c' -> shut_both c' = shut_both c.
Proof. intros T. by rewrite (twin_shut_both _ _ T). Qed.

Lemma shut_both_same c c' : (forall s, c_evshut s c' = c_evshut s c) -> shut_both c' = shut_both c.
Proof. intros B. unfold shut_both. pose proof (B Client). pose proof (B Relay). cbn in *. congruence. Qed.

Lemma moved_intro s e c c' w :
  cli id c' w -> shut_both c' = false -> piping c' -> chan s c' = ch_step e (chan s c) ->
  chan (other s) c' = chan (other s) c -> moved_by id s e c w.
Proof. intros H Hb Hp E1 E2. exists c'. split_and!; [done..|]. by apply Pump.cli_left. Qed.

Lemma read_moves s got e c w :
  cli id c w -> piping c -> splicing c ->
  match got with sp_moved data => e = Arrive data | sp_eof => e = Finish | sp_again => e = Blocked | sp_error => False end ->
  wlp (redsplice_read id s got) (fun _ => moved_by id s e c) w.
Proof.
  intros H Hp Hs He. eapply cli_called; [done|]. clear w H. intros c1 w H T.
  pose proof (called_piping _ _ _ T Hp) as Hp1. pose proof (called_read _ _ _ T) as V.
  assert (Hb : shut_both c1 = false) by (rewrite (called_shut_both _ _ _ T); apply Hs).
  assert (Hb' : shut_both (c_shut s EV_READ c1) = false).
  { rewrite <-(sp_open _ (splicing_shut_read s c Hs)). apply shut_both_same. intros s'.
    pose proof (tw_evshut _ _ T s') as E. pose proof (tw_evshut _ _ T s) as E'. by destruct s, s'; cbn in *; rewrite ?E, ?E'. }
  assert (Hdel : forall e : event, e_init (e_deleted e) = e_init e /\ (e_active e = false -> e_active (e_deleted e) = false))
    by done.
  apply Pump.wp_wlp. destruct got as [data| | |]; subst; [| | |done].
  - apply wp_bind. eapply cli_pipe; [done|]. clear w H. intros w H. eapply cli_event; [done|]. clear w H. intros w H.
    eapply moved_intro; [done|done|apply piping_event; [by apply piping_pipe|eauto]|rewrite <-V|rewrite <-V].
    + rewrite chan_write_event. unfold chan, ch_step. destruct s; cbn; by rewrite ?orb_true_r, <-?app_assoc.
    + by rewrite chan_other_event, chan_other_pipe by apply served_write.
  - apply wp_bind. eapply Pump.cli_get; [done|]. apply wp_bind. eapply cli_trace; [done|]. clear w H. intros w H.
    apply wp_bind. eapply Pump.cli_mod; [done|]. clear w H. intros w H. fold (c_shut s EV_READ c1) in H.
    apply wp_bind. eapply cli_event; [done|]. clear w H. intros w H. eapply cli_event; [done|]. clear w H. intros w H.
    eapply moved_intro; [done|done| |rewrite <-V|rewrite <-V].
    + apply piping_event; [|eauto]. apply piping_event; [|by left]. by eapply piping_same; [|done]; destruct s.
    + rewrite chan_write_event, chan_read_event. cbn [ch_queue ch_eof ch_fin ch_reading ch_writing].
      unfold chan, ch_step. rewrite !shut_c_shut. change (has EV_READ EV_READ) with true. change (has EV_READ EV_WRITE) with false.
      rewrite bool_decide_eq_true_2, andb_false_r, orb_false_r, !orb_true_r by done. by destruct s.
    + rewrite !chan_other_event by (done || apply served_write). unfold chan. rewrite !shut_c_shut.
      change (has EV_READ EV_WRITE) with false. rewrite andb_false_r, bool_decide_eq_false_2, !orb_false_r by by destruct s.
      by destruct s.
  - eapply cli_event; [done|]. clear w H. intros w H.
    eapply moved_intro; [done|done|apply piping_event; [done|by left]|by rewrite chan_read_event, V|].
    by rewrite chan_other_event, V.
Qed.

Lemma piping_deleted k c : piping c -> piping (c_event k e_deleted c).
Proof. intros Hp. apply piping_event; [done|by left]. Qed.
Lemma piping_added k c : piping c -> piping (c_event k e_added c).
Proof. intros Hp. apply piping_event; [done|by left]. Qed.

Lemma chan_ended s c :
  chan s (ended_dir s c) = mk_channel (ch_queue (chan s c)) (ch_eof (chan s c)) true false false.
Proof.
  unfold ended_dir. rewrite chan_write_event, chan_read_event. cbn [ch_queue ch_eof ch_fin ch_reading ch_writing].
  unfold chan, closed_pipe. f_equal.
  - by destruct s.
  - transitivity (shut s EV_READ (c_shut (other s) EV_WRITE c)); [by destruct s|]. rewrite shut_c_shut.
    change (has EV_WRITE EV_READ) with false. by rewrite andb_false_r, orb_false_r.
  - transitivity (shut (other s) EV_WRITE (c_shut (other s) EV_WRITE c)); [by destruct s|]. rewrite shut_c_shut.
    by rewrite bool_decide_eq_true_2, orb_true_r.
Qed.
Lemma chan_other_ended s c : chan (other s) (ended_dir s c) = chan (other s) c.
Proof.
  unfold ended_dir, closed_pipe. rewrite !chan_other_event, !chan_other_pipe by (done || apply served_write).
  unfold chan. rewrite !shut_c_shut, !other_other. change (has EV_WRITE EV_READ) with false.
  rewrite andb_false_r, bool_decide_eq_false_2, !orb_false_r by by destruct s. by destruct s.
Qed.

(** After the writes, with what is left in the direction. *)
Lemma decide_moves s c w :
  let empty := bool_decide (ch_queue (chan s c) = []) in
  cli id c w -> piping c -> shut_both c = false -> sp_size (pump_pipe s (c_pump c)) = zlen (sp_data (pump_pipe s (c_pump c))) ->
  wlp (redsplice_decide id s (negb empty) empty) (fun _ => moved_by id s (Wrote 0) c) w.
Proof.
  intros empty H Hp Hb Hz. unfold redsplice_decide. apply Pump.wlp_bind, Pump.wp_wlp. eapply Pump.cli_get; [done|].
  apply Pump.wlp_bind. rewrite negb_involutive. fold (shut s EV_READ c). fold (shut (other s) EV_WRITE c).
  change (shut s EV_READ c) with (ch_eof (chan s c)). change (shut (other s) EV_WRITE c) with (ch_fin (chan s c)).
  subst empty. case_bool_decide as Hq; cbn [andb negb].
  - destruct (ch_eof (chan s c) && negb (ch_fin (chan s c))) eqn:Hend.
    + assert (Hd : sp_data (pump_pipe s (c_pump c)) = []).
      { unfold chan in Hq. cbn in Hq. by apply app_eq_nil in Hq as [_ [_ ?]%app_eq_nil]. }
      assert (E : chan s (ended_dir s c) = ch_step (Wrote 0) (chan s c)).
      { rewrite chan_ended. cbn [ch_step]. unfold wrote. rewrite drop_0, Hq, bool_decide_eq_true_2, Hend by done.
        by apply andb_true_iff in Hend as [-> _]. }
      apply Pump.wlp_bind, Pump.wp_wlp. eapply cli_trace; [done|]. clear w H. intros w H.
      apply Pump.wlp_bind, Pump.wp_wlp. eapply Pump.cli_mod; [done|]. clear w H. intros w H. fold (c_shut (other s) EV_WRITE c) in H.
      apply Pump.wlp_bind, Pump.wp_wlp, wp_assert; [by rewrite Hz, Hd|].
      apply Pump.wlp_bind. eapply cli_close; [done|]. clear w H. intros w H.
      apply Pump.wlp_bind, Pump.wp_wlp. eapply cli_pipe; [done|]. clear w H. intros w H.
      apply Pump.wlp_bind. eapply cli_close; [done|]. clear w H. intros w H.
      apply Pump.wlp_bind, Pump.wp_wlp. eapply cli_pipe; [done|]. clear w H. intros w H.
      apply Pump.wlp_bind, Pump.wp_wlp. eapply Pump.cli_get; [done|]. fold (closed_pipe s (c_shut (other s) EV_WRITE c)) in *.
      assert (Hp' : piping (ended_dir s c)).
      { do 2 apply piping_deleted. do 2 apply piping_pipe. by eapply piping_same; [|done]; destruct s. }
      destruct (shut_both (closed_pipe s (c_shut (other s) EV_WRITE c))) eqn:Hboth.
      * apply Pump.wlp_bind. pose proof (Pump.wlp_drop id w) as Hd'. unfold wlp, Pump.wlp in *.
        destruct (redsocks_drop_client id w) as [[] w'| |]; [|done..]. cbn. exists (ended_dir s c).
        split_and!; [done|done|apply chan_other_ended|]. rewrite Hd'. unfold Pump.left_over.
        by replace (shut_both (ended_dir s c)) with true.
      * apply Pump.wlp_ret, Pump.wp_wlp, wp_bind, wp_assert; [done|]. cbn [negb andb when].
        apply wp_bind. eapply cli_event; [done|]. clear w H. intros w H. eapply cli_event; [done|]. clear w H. intros w H.
        fold (ended_dir s c) in H. by eapply moved_intro; [done| |done|done|apply chan_other_ended].
    + apply Pump.wlp_ret, Pump.wp_wlp, wp_bind, wp_assert; [done|]. cbn [negb andb when].
      apply wp_bind. eapply cli_event_add; [done|]. clear w H. intros w H. eapply cli_event; [done|]. clear w H. intros w H.
      eapply moved_intro; [done|done|by apply piping_deleted, piping_added| |].
      * rewrite chan_write_event, chan_read_event. cbn [ch_step]. unfold wrote. by rewrite drop_0, Hq, bool_decide_eq_true_2, Hend by done.
      * by rewrite !chan_other_event by (done || apply served_write).
  - apply Pump.wlp_ret, Pump.wp_wlp, wp_bind, wp_assert; [done|]. cbn [negb andb when].
    apply wp_bind. eapply cli_event; [done|]. clear w H. intros w H. eapply cli_event_add; [done|]. clear w H. intros w H.
    eapply moved_intro; [done|done|by apply piping_added, piping_deleted| |].
    + rewrite chan_write_event, chan_read_event. cbn [ch_step]. unfold wrote. by rewrite drop_0, bool_decide_eq_false_2.
    + by rewrite !chan_other_event by (done || apply served_write).
Qed.

(** The client [c] with [o], [i] and [p] left in the output, the input and the pipe of the
    direction from [s]. *)
Record holds (s : side) (o i p : bytes) (c c' : redsocks_client) : Prop := {
  hd_out : output_of (other s) c' = o;
  hd_in : input_of s c' = i;
  hd_pipe : pump_pipe s (c_pump c') = mk_pipe (sp_read (pump_pipe s (c_pump c))) (sp_write (pump_pipe s (c_pump c))) (zlen p) p;
  hd_frame : output_of s c' = output_of s c /\ input_of (other s) c' = input_of (other s) c /\
    pump_pipe (other s) (c_pump c') = pump_pipe (other s) (c_pump c);
  hd_events : forall k, p_event k (c_pump c') = p_event k (c_pump c);
  hd_evshut : forall s, c_evshut s c' = c_evshut s c }.

Lemma holds_self s c :
  sp_size (pump_pipe s (c_pump c)) = zlen (sp_data (pump_pipe s (c_pump c))) ->
  holds s (output_of (other s) c) (input_of s c) (sp_data (pump_pipe s (c_pump c))) c c.
Proof. intros Hz. split; try done. rewrite <-Hz. by destruct (pump_pipe s (c_pump c)). Qed.

Lemma holds_chan s o i p c c' :
  holds s o i p c c' ->
  chan s c' = mk_channel (o ++ i ++ p) (ch_eof (chan s c)) (ch_fin (chan s c)) (ch_reading (chan s c)) (ch_writing (chan s c)) /\
  chan (other s) c' = chan (other s) c.
Proof.
  intros [Ho Hi Hp (F1 & F2 & F3) He Hs]. unfold chan, shut. rewrite !other_other, Ho, Hi, Hp, F1, F2, F3, !He, !Hs. done.
Qed.

Lemma holds_out n s o i p c c' Q w :
  cli id c' w -> holds s o i p c c' -> o <> [] -> (forall c' w, cli id c' w -> holds s (drop n o) i p c c' -> Q tt w) ->
  wp (drain_output id (other s) n) Q w.
Proof.
  intros H [Ho Hi Hp (F1 & F2 & F3) He Hs] Hne HQ. destruct (c_buf (other s) c') as [b|] eqn:Hb.
  2:{ unfold output_of in Ho. by rewrite Hb in Ho. }
  eapply Pump.cli_mod_buf; [done..|]. intros w' H'. eapply HQ; [done|]. unfold output_of, input_of in *.
  split; destruct s; cbn in *; rewrite ?Hb in *; subst; try done; by intros [].
Qed.
Lemma holds_in n s o i p c c' Q w :
  cli id c' w -> holds s o i p c c' -> i <> [] -> (forall c' w, cli id c' w -> holds s o (drop n i) p c c' -> Q tt w) ->
  wp (drain_input id s n) Q w.
Proof.
  intros H [Ho Hi Hp (F1 & F2 & F3) He Hs] Hne HQ. destruct (c_buf s c') as [b|] eqn:Hb.
  2:{ unfold input_of in Hi. by rewrite Hb in Hi. }
  eapply Pump.cli_mod_buf; [done..|]. intros w' H'. eapply HQ; [done|]. unfold output_of, input_of in *.
  split; destruct s; cbn in *; rewrite ?Hb in *; subst; try done; by intros [].
Qed.
Lemma holds_pipe n s o i p c c' Q w :
  cli id c' w -> holds s o i p c c' -> (n <= length p)%nat ->
  (forall c' w, cli id c' w -> holds s o i (drop n p) c c' -> Q tt w) ->
  wp (mod_pipe id s (pipe_drain n)) Q w.
Proof.
  intros H [Ho Hi Hp (F1 & F2 & F3) He Hs] Hn HQ. eapply cli_pipe; [done|]. intros w' H'. eapply HQ; [done|].
  assert (E : zlen p - Z.of_nat n = zlen (drop n p)) by (unfold zlen; rewrite length_drop; lia).
  split; try by destruct s.
  unfold c_pipe. destruct s; cbn in *; unfold pipe_drain; rewrite Hp; cbn; by rewrite E.
Qed.

(** One of the three sources, then the rest. *)
Lemma cli_write_source (m : flush -> M unit) avail r drain c (Q : unit -> world -> Prop) w :
  cli id c w -> (avail = 0%nat -> wlp (m all_sent) Q w) -> (avail <> 0%nat -> r = wr_again -> wlp (m short_write) Q w) ->
  (avail <> 0%nat -> r = wr_error -> forall w, w_clients w !! id = None -> wlp (m client_gone) Q w) ->
  (forall n, r = wr_sent n -> avail <> 0%nat -> wp (drain n) (fun _ => wlp (m (if Nat.eqb avail n then all_sent else short_write)) Q) w) ->
  wlp (x ← write_source id avail r drain; m x) Q w.
Proof.
  intros H Hz Ha He Hn. apply Pump.wlp_bind. unfold write_source. destruct (Nat.eqb_spec avail 0); [by apply Pump.wlp_ret, Hz|].
  destruct r as [k| |]; [|by apply Pump.wlp_ret, Ha|].
  - apply Pump.wlp_bind, Pump.wp_wlp. eapply wp_mono; [by apply Hn|]. intros [] w' HQ. by apply Pump.wlp_ret.
  - apply Pump.wlp_bind. pose proof (Pump.wlp_drop id w) as Hd. unfold wlp, Pump.wlp in *.
    destruct (redsocks_drop_client id w) as [[] w'| |]; [|done..]. by apply He.
Qed.

Lemma decide_after s o i p n c c' (has_data can_write : bool) w :
  cli id c' w -> holds s o i p c c' -> piping c -> shut_both c = false -> o ++ i ++ p = drop n (ch_queue (chan s c)) ->
  can_write = bool_decide (o ++ i ++ p = []) -> has_data = negb can_write ->
  wlp (redsplice_decide id s has_data can_write) (fun _ => moved_by id s (Wrote n) c) w.
Proof.
  intros H Hh Hp Hb Hq -> ->. destruct (holds_chan _ _ _ _ _ _ Hh) as [E1 E2].
  assert (Eq : ch_queue (chan s c') = o ++ i ++ p) by by rewrite E1.
  pose proof (decide_moves s c' w) as Hm. cbv zeta in Hm. rewrite Eq in Hm.
  assert (Hpost : wlp (redsplice_decide id s (negb (bool_decide (o ++ i ++ p = []))) (bool_decide (o ++ i ++ p = [])))
                    (fun _ => moved_by id s (Wrote 0) c') w).
  { apply Hm; [done| | |].
    - intros s'. rewrite (hd_events _ _ _ _ _ _ Hh). apply Hp.
    - rewrite <-Hb. apply shut_both_same, Hh.
    - by rewrite (hd_pipe _ _ _ _ _ _ Hh). }
  revert Hpost. unfold wlp, Pump.wlp. destruct (redsplice_decide _ _ _ _ w) as [[] w'| |]; [|done..].
  intros (c2 & ? & E3 & E4 & ?). exists c2. split_and!; [done| |by rewrite E4|done].
  rewrite E3, E1. cbn [ch_step]. unfold wrote. cbn [ch_queue ch_eof ch_fin]. by rewrite drop_0, Hq.
Qed.

Definition ended_by (s : side) (n : option nat) (c : redsocks_client) (w : world) : Prop :=
  match n with Some n => moved_by id s (Wrote n) c w | None => w_clients w !! id = None end.

(** One source of the write callback: [src] is what it holds, [k] bytes were sent before, and
    [H n] says that [n] of its bytes are gone. *)
Lemma source_moves s (src : bytes) (k : nat) (H : nat -> redsocks_client -> Prop) r l drain m c c0 w :
  cli id c0 w -> H 0%nat c0 -> fits r (length src) ->
  (forall n (Q : unit -> world -> Prop), src <> [] -> (n <= length src)%nat ->
     (forall c' w, cli id c' w -> H n c' -> Q tt w) -> wp (drain n) Q w) ->
  (forall n c' w, cli id c' w -> H n c' -> (n < length src)%nat ->
     wlp (redsplice_decide id s true false) (fun _ => moved_by id s (Wrote (k + n)) c) w) ->
  (forall c' w, cli id c' w -> H (length src) c' ->
     wlp m (fun _ => ended_by s ((fun j => k + length src + j)%nat <$> total l) c) w) ->
  wlp (x ← write_source id (length src) r drain;
       match x with
       | client_gone => mret tt
       | short_write => redsplice_decide id s true false
       | all_sent => m
       end) (fun _ => ended_by s ((fun j => k + j)%nat <$> total ((length src, r) :: l)) c) w.
Proof.
  intros Hc H0 Hfit Hdrain Hshort Hnext. cbn [total]. eapply cli_write_source; [done|..].
  - intros Hz. rewrite Hz in Hnext |- *. cbn [Nat.eqb]. rewrite Nat.add_0_r in Hnext. by eapply Hnext.
  - intros Hne ->. apply Nat.eqb_neq in Hne as Hne'. rewrite Hne'. cbn [fmap option_fmap option_map ended_by]. eapply Hshort; [done..|lia].
  - intros Hne -> w' Hgone. apply Nat.eqb_neq in Hne. by rewrite Hne.
  - intros n -> Hne. specialize (Hfit n eq_refl). apply Nat.eqb_neq in Hne as Hne'. rewrite Hne'.
    eapply Hdrain; [by intros ->|done|]. intros c' w' Hc' Hn. destruct (Nat.eqb_spec (length src) n) as [<-|Hlt].
    + specialize (Hnext c' w' Hc' Hn). destruct (total l) as [j|]; [|done]. cbn in *. by rewrite Nat.add_assoc.
    + cbn. eapply Hshort; [done..|lia].
Qed.

Lemma drop_ne_nil (n : nat) (l k : bytes) : (n < length l)%nat -> drop n l ++ k <> [].
Proof. intros Hn E. apply (f_equal length) in E. rewrite length_app, length_drop in E. cbn in E. lia. Qed.

Lemma write_cb_moves s r0 r1 r2 c w :
  cli id c w -> piping c -> shut_both c = false ->
  sp_size (pump_pipe s (c_pump c)) = zlen (sp_data (pump_pipe s (c_pump c))) ->
  fits r0 (length (output_of (other s) c)) -> fits r1 (length (input_of s c)) -> fits r2 (length (sp_data (pump_pipe s (c_pump c)))) ->
  wlp (redsplice_write_cb id s r0 r1 r2) (fun _ => ended_by s (total (sources s r0 r1 r2 c)) c) w.
Proof.
  intros H Hp Hb Hz F0 F1 F2. apply Pump.wlp_bind, Pump.wp_wlp. eapply Pump.cli_get; [done|].
  pose proof (holds_self s c Hz) as Hh. unfold sources. rewrite Hz. unfold zlen. rewrite Nat2Z.id.
  assert (Hq : ch_queue (chan s c) = output_of (other s) c ++ input_of s c ++ sp_data (pump_pipe s (c_pump c))) by done.
  set (o := output_of (other s) c) in *. set (i := input_of s c) in *. set (p := sp_data (pump_pipe s (c_pump c))) in *.
  assert (Hstop : forall o' i' p' n c' w, cli id c' w -> holds s o' i' p' c c' -> o' ++ i' ++ p' <> [] ->
            o' ++ i' ++ p' = drop n (ch_queue (chan s c)) ->
            wlp (redsplice_decide id s true false) (fun _ => moved_by id s (Wrote n) c) w).
  { intros o' i' p' n c' w' H' Hh' Hne E. eapply decide_after; try done. by rewrite bool_decide_eq_false_2. }
  assert (E : forall x : option nat, x = (fun j => 0 + j)%nat <$> x) by by intros [].
  rewrite (E (total _)). eapply (source_moves s o 0 (fun n c' => holds s (drop n o) i p c c')); [done|done|done|..].
  { intros n Q Hne Hn HQ. eapply (holds_out n); [done|done|done|done]. }
  { intros n c' w' H' Hh' Hn. eapply Hstop; [done|done|by apply drop_ne_nil|]. by rewrite Hq, drop_app_le by lia. }
  clear w H Hh. intros c1 w H Hh. rewrite drop_all in Hh. cbn [Nat.add].
  eapply (source_moves s i (length o) (fun n c' => holds s [] (drop n i) p c c')); [done|done|done|..].
  { intros n Q Hne Hn HQ. eapply (holds_in n); [done|done|done|done]. }
  { intros n c' w' H' Hh' Hn. eapply Hstop; [done|done|by apply drop_ne_nil|].
    by rewrite Hq, drop_app_add', drop_app_le by done || lia. }
  clear w H Hh c1. intros c1 w H Hh. rewrite drop_all in Hh.
  eapply (source_moves s p (length o + length i) (fun n c' => holds s [] [] (drop n p) c c') _ []); [done|done|done|..].
  { intros n Q Hne Hn HQ. eapply (holds_pipe n); [done|done|done|done]. }
  { intros n c' w' H' Hh' Hn. eapply Hstop; [done|done| |].
    - cbn. rewrite <-(app_nil_r (drop n p)). by apply drop_ne_nil.
    - by rewrite Hq, <-Nat.add_assoc, !drop_app_add'. }
  clear w H Hh c1. intros c1 w H Hh. rewrite drop_all in Hh. cbn.
  eapply decide_after; [done|done|done|done| |done|done]. rewrite Hq. cbn. symmetry. apply drop_ge.
  rewrite !length_app. lia.
Qed.

Lemma write_moves s r0 r1 r2 c w :
  cli id c w -> piping c -> splicing c ->
  fits r0 (length (output_of (other s) c)) -> fits r1 (length (input_of s c)) -> fits r2 (length (sp_data (pump_pipe s (c_pump c)))) ->
  wlp (redsplice_write id (other s) r0 r1 r2) (fun _ => ended_by s (total (sources s r0 r1 r2 c)) c) w.
Proof.
  intros H Hp Hs F0 F1 F2. unfold redsplice_write. rewrite other_other. eapply cli_called; [done|].
  clear w H. intros c1 w H T. pose proof (called_piping _ _ _ T Hp) as Hp1. destruct (T) as [T1 T2 T3 T4].
  assert (Hb : shut_both c1 = false) by (rewrite (called_shut_both _ _ _ T); apply Hs).
  destruct (sp_pipes _ Hs s) as [Hz _].
  assert (Hpipe : forall s, pump_pipe s (c_pump c1) = pump_pipe s (c_pump c)) by (intros []; rewrite T1; by destruct s).
  assert (Hsrc : sources s r0 r1 r2 c1 = sources s r0 r1 r2 c) by (rewrite (twin_sources _ _ _ _ _ _ T); by destruct s).
  pose proof (write_cb_moves s r0 r1 r2 c1 w H Hp1 Hb) as Hm. rewrite Hsrc, Hpipe, T3, T4 in Hm.
  assert (V1 : forall n, wrote n (chan s c1) = wrote n (chan s c)).
  { intros n. rewrite (twin_chan s _ _ T), chan_write_event. done. }
  assert (V2 : chan (other s) c1 = chan (other s) c) by (rewrite (twin_chan (other s) _ _ T); by destruct s).
  assert (Hpost : wlp (redsplice_write_cb id s r0 r1 r2) (fun _ => ended_by s (total (sources s r0 r1 r2 c)) c1) w).
  { apply Hm; [done|by destruct s..|done]. }
  revert Hpost. unfold wlp, Pump.wlp. destruct (redsplice_write_cb _ _ _ _ _ w) as [[] w'| |]; [|done..].
  unfold ended_by. case_match; [|done]. intros (c2 & ? & E3 & E4 & ?). exists c2. cbn [ch_step] in *. split_and!; [done| | |done].
  - by rewrite E3, V1.
  - by rewrite E4, V2.
Qed.

End callbacks.

(** ** Runs of a channel *)

Definition ch_enabled (e : ch_event) (d : channel) : Prop :=
  match e with Wrote n => ch_writing d = true /\ (n <= length (ch_queue d))%nat | _ => ch_reading d = true end.

(** [splice] reports that it would block only when the pipe has something to move on. *)
Definition fair (e : ch_event) (d : channel) : Prop := e = Blocked -> ch_queue d <> [].

Definition received (e : ch_event) : bytes := match e with Arrive data => data | _ => [] end.
Definition delivered (e : ch_event) (d : channel) : bytes :=
  match e with Wrote n => take n (ch_queue d) | _ => [] end.

(** The events with the states they found, and the bytes that came in and went out. *)
Inductive ch_run : channel -> list (ch_event * channel) -> bytes -> bytes -> channel -> Prop :=
| ch_nil d : ch_run d [] [] [] d
| ch_cons d e es i o d' :
    ch_enabled e d -> ch_run (ch_step e d) es i o d' ->
    ch_run d ((e, d) :: es) (received e ++ i) (delivered e d ++ o) d'.

(** Nothing is forgotten: the write event is in the loop, or the channel is empty, its end
    was forwarded if it came, and the read event is in the loop if it did not. *)
Definition live (d : channel) : Prop :=
  ch_writing d = true \/
  ch_queue d = [] /\ (ch_eof d = true -> ch_fin d = true) /\ (ch_eof d = false -> ch_reading d = true).
(** A channel whose end was forwarded is empty and out of the loop. *)
Definition closes (d : channel) : Prop :=
  ch_fin d = true -> ch_eof d = true /\ ch_queue d = [] /\ ch_reading d = false /\ ch_writing d = false.

Lemma ch_step_fifo e d : delivered e d ++ ch_queue (ch_step e d) = ch_queue d ++ received e.
Proof.
  destruct e as [data| | |n]; cbn; rewrite ?app_nil_r; try done. unfold wrote.
  repeat case_match; cbn [ch_queue]; apply take_drop.
Qed.

Lemma ch_step_closes e d : closes d -> ch_enabled e d -> closes (ch_step e d).
Proof.
  intros Hd He Hf.
  assert (Hnf : ch_fin d = false).
  { destruct (ch_fin d) eqn:E; [|done]. destruct (Hd E) as (_ & _ & Hr & Hw). destruct e; cbn in He; try congruence.
    destruct He. congruence. }
  destruct e as [data| | |n]; cbn in Hf; try congruence. cbn [ch_step]. unfold wrote in *.
  case_bool_decide as Hq; cbn in *; [|congruence]. destruct (ch_eof d); cbn in *; [|congruence]. by rewrite Hnf in *.
Qed.

Lemma ch_step_live e d : live d -> fair e d -> live (ch_step e d).
Proof.
  intros Hd Hfair. destruct e as [data| | |n]; cbn; [by left| |by left|].
  - destruct Hd as [Hw|(Hq & _)]; [by left|]. by destruct (Hfair eq_refl).
  - unfold wrote. cbn. case_bool_decide as Hq; [|by left]. right. destruct (ch_eof d), (ch_fin d); cbn; done.
Qed.

Lemma ch_run_fifo d es i o d' : ch_run d es i o d' -> o ++ ch_queue d' = ch_queue d ++ i.
Proof.
  induction 1 as [d|d e es i o d' He _ IH]; [by rewrite app_nil_r|].
  by rewrite <-app_assoc, IH, !app_assoc, ch_step_fifo.
Qed.
Lemma ch_run_closes d es i o d' : ch_run d es i o d' -> closes d -> closes d'.
Proof. induction 1; auto using ch_step_closes. Qed.
Lemma ch_run_live d es i o d' :
  ch_run d es i o d' -> Forall (fun x => fair x.1 x.2) es -> live d -> live d'.
Proof. induction 1; [done|]. intros [? ?]%Forall_cons ?. auto using ch_step_live. Qed.

(** ** The theorems *)

Section theorems.
Context (ctx : MD5.md5_state) {LR : LineReader}.

Lemma piping_splicing w id c :
  sound w -> w_clients w !! id = Some c -> piping c ->
  exists g ss, at_client id g ss c w /\ use_splice g = true /\ splicing c.
Proof.
  intros Hw Hc Hp. destruct (sound_at w id c Hw Hc) as (g & ss & H & [(Hn & _)|[Hg Hs]]); [|eauto].
  destruct (Hp Client) as [E _]. by rewrite Hn in E.
Qed.

(** Only the events of the pump concern such a client. *)
Lemma piping_events id c e w :
  w_clients w !! id = Some c -> splicing c -> enabled e w -> Pump.target e = Some id ->
  (exists s got, e = ev_splice_read id s got) \/ (exists s r0 r1 r2, e = ev_splice_write id s r0 r1 r2).
Proof.
  intros Hc Hs He Ht. destruct e as [| |id' s data|id' s what|id' s n|id' s what|id' s got|id' s r0 r1 r2]; try done;
    cbn in Ht; injection Ht as ->; [| | | |by eauto 6|by eauto 8];
    destruct He as (c0 & b & Hc0 & Hb & He & _); rewrite Hc in Hc0; injection Hc0 as <-;
    destruct (sp_bufs _ Hs s b Hb) as (_ & E1 & E2); rewrite ?E1, ?E2 in He; done.
Qed.

Lemma lift_chan id s e e' c w :
  ch_of e c s = Some e' -> ch_of e c (other s) = None -> moved_by id s e' c w ->
  exists c', piping c' /\ (forall s, chan s c' = ch_next e c s) /\ w_clients w !! id = Pump.left_over c'.
Proof.
  intros E1 E2 (c' & Hp & V1 & V2 & Hl). exists c'. split_and!; [done| |done]. intros s'. unfold ch_next.
  destruct (decide (s' = s)) as [->|Hne]; [by rewrite E1|].
  assert (s' = other s) as -> by by destruct s, s'. by rewrite E2.
Qed.

Lemma splice_event_moves id c e w :
  sound w -> w_clients w !! id = Some c -> piping c -> w_answers w = [] -> enabled e w -> Pump.target e = Some id ->
  wlp (handle ctx e) (fun _ w' => if breaks e c then w_clients w' !! id = None else
    exists c', piping c' /\ (forall s, chan s c' = ch_next e c s) /\ w_clients w' !! id = Pump.left_over c') w.
Proof.
  intros Hw Hc Hp Ha He Ht. destruct (piping_splicing w id c Hw Hc Hp) as (g & ss & _ & _ & Hs).
  assert (Hcli : cli id c w) by done.
  destruct (piping_events id c e w Hc Hs He Ht) as [(s & got & ->)|(s & r0 & r1 & r2 & ->)]; cbn [handle].
  - destruct (decide (got = sp_error)) as [->|Hne].
    { cbn [breaks]. apply Pump.wlp_skip. intros [] w1. apply Pump.wlp_skip. intros [] w2. apply Pump.wlp_drop. }
    assert (Hch : exists e', ch_of (ev_splice_read id s got) c s = Some e' /\
      match got with sp_moved data => e' = Arrive data | sp_eof => e' = Finish | sp_again => e' = Blocked | sp_error => False end).
    { cbn. rewrite bool_decide_eq_true_2 by done. destruct got; try done; eauto. }
    destruct Hch as (e' & E1 & E2). assert (E3 : ch_of (ev_splice_read id s got) c (other s) = None).
    { cbn. by rewrite bool_decide_eq_false_2 by by destruct s. }
    pose proof (read_moves id s got e' c w Hcli Hp Hs E2) as Hm. revert Hm. unfold wlp, Pump.wlp.
    destruct (redsplice_read id s got w) as [[] w'| |]; [|done..]. intros Hm.
    replace (breaks _ c) with false by by destruct got. by eapply lift_chan.
  - destruct He as (c0 & Hc0 & Hk & F0 & F1 & F2). rewrite Hc in Hc0. injection Hc0 as <-.
    pose proof (write_moves id (other s) r0 r1 r2 c w Hcli Hp Hs) as Hm. rewrite other_other in Hm. specialize (Hm F0 F1 F2).
    revert Hm. unfold wlp, Pump.wlp. destruct (redsplice_write id s r0 r1 r2 w) as [[] w'| |]; [|done..].
    cbn [breaks]. unfold ended_by. destruct (total (sources (other s) r0 r1 r2 c)) as [n|] eqn:En.
    + rewrite bool_decide_eq_false_2 by done. apply lift_chan; cbn [ch_of].
      * by rewrite other_other, bool_decide_eq_true_2, En.
      * by rewrite other_other, bool_decide_eq_false_2 by by destruct s.
    + by rewrite bool_decide_eq_true_2.
Qed.

(** C4: The callbacks of the splice pump implement the abstract channel: while no other call
    fails, an event of a client that relays through pipes moves exactly the direction it
    concerns by one abstract step, however the bytes are spread over the two buffers and the
    pipe, and the client is released exactly when both directions have ended, or at once on
    an error. *)
Theorem splice_refines id c e w :
  sound w -> w_clients w !! id = Some c -> piping c -> w_answers w = [] -> enabled e w -> Pump.target e = Some id ->
  exists w', handle ctx e w = Ok tt w' /\
    if breaks e c then w_clients w' !! id = None
    else exists c', piping c' /\ (forall s, chan s c' = ch_next e c s) /\
      w_clients w' !! id = if shut_both c' then None else Some c'.
Proof.
  intros Hw Hc Hp Ha He Ht. pose proof (handle_sound ctx e w Hw He) as H. apply wp_run in H as ([] & w' & Hrun & _).
  exists w'. split; [done|]. pose proof (splice_event_moves id c e w Hw Hc Hp Ha He Ht) as H.
  unfold wlp, Pump.wlp in H. by rewrite Hrun in H.
Qed.

(** ** Runs of a connection *)

(** What an event does in the direction from [s]: its step, with the state it found, the
    bytes it brings, and those it hands to the other side. *)
Definition steps_of (e : input_event) (c : redsocks_client) (s : side) : list (ch_event * channel) :=
  match ch_of e c s with Some e => [(e, chan s c)] | None => [] end.
Definition bytes_from (e : input_event) (c : redsocks_client) (s : side) : bytes :=
  match ch_of e c s with Some e => received e | None => [] end.
Definition bytes_to (e : input_event) (c : redsocks_client) (s : side) : bytes :=
  match ch_of e c s with Some e => delivered e (chan s c) | None => [] end.

(** Events of the client [id] that the loop delivers one after the other, while no call
    fails. *)
Inductive pipe_run (id : Z) :
  world -> list input_event -> (side -> list (ch_event * channel)) -> (side -> bytes) -> (side -> bytes) -> world -> Prop :=
| pipe_nil w : pipe_run id w [] (fun _ => []) (fun _ => []) (fun _ => []) w
| pipe_cons w c e es ms i o w1 w2 :
    w_clients w !! id = Some c -> w_answers w = [] -> enabled e w -> Pump.target e = Some id -> breaks e c = false ->
    handle ctx e w = Ok tt w1 -> pipe_run id w1 es ms i o w2 ->
    pipe_run id w (e :: es) (fun s => steps_of e c s ++ ms s) (fun s => bytes_from e c s ++ i s)
      (fun s => bytes_to e c s ++ o s) w2.

Lemma total_le l n :
  Forall (fun x => fits x.2 x.1) l -> total l = Some n -> (n <= sum_list_with fst l)%nat.
Proof.
  revert n. induction l as [|[avail r] l IH]; cbn; intros n Hf; [intros [= <-]; lia|].
  apply Forall_cons in Hf as [Hf Hl]. cbn in Hf. destruct (Nat.eqb_spec avail 0) as [->|].
  { intros Hn. specialize (IH n Hl Hn). lia. }
  destruct r as [k| |]; [|intros [= <-]; lia|done]. specialize (Hf k eq_refl). destruct (Nat.eqb_spec avail k) as [<-|].
  - destruct (total l) as [m|]; [|done]. cbn. intros [= <-]. specialize (IH m Hl eq_refl). lia.
  - intros [= <-]. lia.
Qed.

Lemma ch_enabled_of id e w c s e' :
  w_clients w !! id = Some c -> piping c -> enabled e w -> Pump.target e = Some id -> ch_of e c s = Some e' ->
  ch_enabled e' (chan s c).
Proof.
  intros Hc Hp He Ht Hch. destruct e as [| | | | | |id' s' got|id' s' r0 r1 r2]; try done; cbn in Ht; injection Ht as ->;
    cbn [ch_of] in Hch; (case_bool_decide; [subst|done]).
  - destruct He as (c0 & Hc0 & Hk & _). rewrite Hc in Hc0. injection Hc0 as <-. unfold called in Hk.
    destruct (Hp s) as [_ E]. rewrite E, orb_false_r in Hk. by destruct got; simplify_eq.
  - destruct He as (c0 & Hc0 & Hk & F0 & F1 & F2). rewrite Hc in Hc0. injection Hc0 as <-. rewrite !other_other in *.
    destruct (total (sources s r0 r1 r2 c)) as [n|] eqn:En; [|done]. injection Hch as <-. split; [done|].
    apply total_le in En; [|by repeat constructor]. unfold chan. cbn in *. rewrite !length_app. lia.
Qed.

(** The run of a connection is a run of each of its channels. *)
Lemma pipe_channels id w es ms i o w' :
  pipe_run id w es ms i o w' -> forall c, sound w -> w_clients w !! id = Some c -> piping c ->
  exists c', piping c' /\ (forall s, ch_run (chan s c) (ms s) (i s) (o s) (chan s c')) /\
    w_clients w' !! id = Pump.left_over c'.
Proof.
  induction 1 as [w|w c e es ms i o w1 w2 Hc0 Ha He Ht Hfat Hrun Hrest IH]; intros c1 Hs Hc Hp.
  - destruct (piping_splicing w id c1 Hs Hc Hp) as (g & ss & _ & _ & Hsp). exists c1. split_and!; [done| |].
    + intros s. apply ch_nil.
    + unfold Pump.left_over. by rewrite (sp_open _ Hsp).
  - rewrite Hc0 in Hc. injection Hc as <-. pose proof (splice_event_moves id c e w Hs Hc0 Hp Ha He Ht) as H1.
    unfold wlp, Pump.wlp in H1. rewrite Hrun, Hfat in H1. destruct H1 as (c1 & Hp1 & Hv & Hl).
    pose proof (handle_sound ctx e w Hs He) as H2. unfold wp in H2. rewrite Hrun in H2.
    assert (Hstep : forall s ms i o d', ch_run (chan s c1) ms i o d' ->
      ch_run (chan s c) (steps_of e c s ++ ms) (bytes_from e c s ++ i) (bytes_to e c s ++ o) d').
    { intros s ms' i' o' d' Hr. rewrite Hv in Hr. unfold ch_next, bytes_from, bytes_to, steps_of in *.
      destruct (ch_of e c s) eqn:E; [|done]. apply ch_cons; [by eapply ch_enabled_of|done]. }
    destruct (shut_both c1) eqn:Hb; unfold Pump.left_over in Hl; rewrite Hb in Hl.
    + inversion Hrest; simplify_eq. exists c1. split_and!; [done| |].
      * intros s. apply Hstep, ch_nil.
      * unfold Pump.left_over. by rewrite Hb.
    + destruct (IH c1 H2 Hl Hp1) as (c2 & Hp2 & Hd & Hl2). exists c2. split_and!; [done| |done].
      intros s. by apply Hstep.
Qed.

(** C11: Whatever the interleaving of splices, short writes and ends on the two sides while
    no other call fails, the bytes a side has received followed by those still in the
    buffers and the pipe are those in transit at the start followed by those its peer sent.
    If no end was forwarded over undelivered bytes at the start of the run ([closes], as
    when relaying starts after the dialogue with the proxy, [start_relay_starts_pipes]; not
    when http-connect forwards an error page), everything has been delivered once the end is
    forwarded or the client is released. *)
Theorem splice_delivers_everything id c w es ms i o w' s :
  sound w -> w_clients w !! id = Some c -> piping c -> pipe_run id w es ms i o w' ->
  exists rest, o s ++ rest = ch_queue (chan s c) ++ i s /\
    match w_clients w' !! id with
    | None => closes (chan s c) -> rest = []
    | Some c' => rest = ch_queue (chan s c') /\ (closes (chan s c) -> ch_fin (chan s c') = true -> rest = [])
    end.
Proof.
  intros Hs Hc Hp Hrun. destruct (pipe_channels _ _ _ _ _ _ _ Hrun c Hs Hc Hp) as (c' & _ & Hd & Hl).
  exists (ch_queue (chan s c')). split; [apply (ch_run_fifo _ _ _ _ _ (Hd s))|].
  assert (Hfin : closes (chan s c) -> ch_fin (chan s c') = true -> ch_queue (chan s c') = []).
  { intros Hcl Hf. by destruct (ch_run_closes _ _ _ _ _ (Hd s) Hcl Hf) as (_ & E & _). }
  rewrite Hl. unfold Pump.left_over. destruct (shut_both c') eqn:Hb; [|done]. intros Hcl. by apply Hfin, (Pump.released_fin c' s).
Qed.

(** Once relaying through pipes started, and as long as [splice] says that it would block
    only when the direction holds bytes, no direction is forgotten: its write event is in
    the loop, or everything was delivered, the end was forwarded if it came, and the read
    event is in the loop if it did not. *)
Theorem splice_never_stalls id c w es ms i o w' s c' :
  sound w -> w_clients w !! id = Some c -> piping c -> pipe_run id w es ms i o w' ->
  live (chan s c) -> Forall (fun x => fair x.1 x.2) (ms s) -> w_clients w' !! id = Some c' ->
  ch_writing (chan s c') = true \/
  ch_queue (chan s c') = [] /\ (ch_eof (chan s c') = true -> ch_fin (chan s c') = true) /\
    (ch_eof (chan s c') = false -> ch_reading (chan s c') = true).
Proof.
  intros Hs Hc Hp Hrun Hlive Hfair Hc'. destruct (pipe_channels _ _ _ _ _ _ _ Hrun c Hs Hc Hp) as (c1 & _ & Hd & Hl).
  rewrite (Pump.left_some id w' c1 c') by done. by apply (ch_run_live _ _ _ _ _ (Hd s)).
Qed.

(** When relaying through pipes starts, both directions hold exactly what the buffers
    held, are live, and no end has been forwarded: nothing that arrived early is lost,
    whatever side was shut for reading and whichever call failed. *)
Theorem start_relay_starts_pipes id c g ss w :
  at_client id g ss c w -> client_inv g ss c -> talking ss g c -> use_splice g = true ->
  exists w', redsocks_start_relay id w = Ok tt w' /\ forall c', w_clients w' !! id = Some c' ->
    piping c' /\ forall s, live (chan s c') /\ closes (chan s c') /\ ch_eof (chan s c') = shut s EV_READ c /\
      ch_queue (chan s c') = output_of (other s) c ++ input_of s c.
Proof.
  intros H Hinv Ht Hsp. destruct (talking_buffered _ _ _ Hinv Ht) as (Hn & Hf & _). destruct Ht as ((_ & Hw & Hcc) & Hcr & _).
  destruct (c_client c) as [bc|] eqn:Hc; [|done]. destruct (c_relay c) as [br|] eqn:Hr; [|done].
  destruct (fl_enabled _ Hf Client bc Hc) as (_ & Hfc & _). destruct (fl_enabled _ Hf Relay br Hr) as (_ & Hfr & _).
  assert (Hwp : wp (redsocks_start_relay id) (fun _ w' => forall c', w_clients w' !! id = Some c' ->
    piping c' /\ forall s, live (chan s c') /\ closes (chan s c') /\ ch_eof (chan s c') = shut s EV_READ c /\
      ch_queue (chan s c') = output_of (other s) c ++ input_of s c) w).
  { eapply at_start_splice; [done..| |].
    - intros w' [_ Hgone] c' Hc'. congruence.
    - intros q p ok1 ok2 w' _ (_ & _ & _ & Hid & _) c' Hc'. rewrite Hid in Hc'. injection Hc' as <-.
      split; [by intros []|]. intros s. split_and!; [left; by destruct s| |by destruct s|].
      + intros Hfin. assert (E : shut (other s) EV_WRITE c = true) by (by destruct s). by rewrite Hw in E.
      + unfold output_of, input_of. destruct s; cbn; rewrite Hc, Hr; cbn; by rewrite app_nil_r. }
  apply wp_run in Hwp as ([] & w' & ? & ?). by exists w'.
Qed.

(** A channel without events in the loop stays as it is. *)
Lemma dead_run d es i o d' :
  ch_run d es i o d' -> ch_reading d = false -> ch_writing d = false -> i = [] /\ o = [] /\ d' = d.
Proof. destruct 1 as [|d e es i o d' He]; [done|]. intros Hr Hw. by destruct e; cbn in He; destruct_and?; congruence. Qed.

(** When [splice] says it would block although nothing is in transit, the read event is
    taken out of the loop and nothing puts it back: the connection stays, and no byte of
    that direction is relayed any more. *)
Theorem blocked_while_empty_stalls id c w s :
  sound w -> w_clients w !! id = Some c -> piping c -> w_answers w = [] ->
  enabled (ev_splice_read id s sp_again) w -> chan s c = mk_channel [] false false true false ->
  exists w' c', handle ctx (ev_splice_read id s sp_again) w = Ok tt w' /\ w_clients w' !! id = Some c' /\
    forall es ms i o w'' c'', pipe_run id w' es ms i o w'' -> w_clients w'' !! id = Some c'' ->
      i s = [] /\ o s = [] /\ chan s c'' = mk_channel [] false false false false.
Proof.
  intros Hs Hc Hp Ha He Hch. pose proof (handle_sound ctx _ w Hs He) as H. apply wp_run in H as ([] & w' & Hrun & Hs').
  pose proof (splice_event_moves id c _ w Hs Hc Hp Ha He eq_refl) as H. unfold wlp, Pump.wlp in H. rewrite Hrun in H.
  destruct H as (c' & Hp' & Hv & Hl). specialize (Hv s). unfold ch_next, ch_of in Hv.
  rewrite bool_decide_eq_true_2, Hch in Hv by done. cbn in Hv.
  assert (Hb : shut_both c' = false).
  { destruct (shut_both c') eqn:E; [|done]. apply (Pump.released_fin c' s) in E. change (ch_fin (chan s c') = true) in E.
    by rewrite Hv in E. }
  unfold Pump.left_over in Hl. rewrite Hb in Hl. exists w', c'. split_and!; [done|done|].
  intros es ms i o w'' c'' Hr Hc''. destruct (pipe_channels _ _ _ _ _ _ _ Hr c' Hs' Hl Hp') as (c1 & _ & Hd & Hl1).
  rewrite (Pump.left_some id w'' c1 c'') by done. rewrite <-Hv. apply (dead_run _ _ _ _ _ (Hd s)); by rewrite Hv.
Qed.

End theorems.

(** ** A connection relayed through pipes *)

Definition splice_config (ss : relay_subsys) (fail : on_proxy_fail_e) : redsocks_instance :=
  mk_instance (mk_config (loopback [48; 57]) (loopback [4; 56]) None None None 128 true DISCLOSE_NONE fail)
    false 0 false [] ss (mk_http_auth None 0).
Definition boot_splice (ss : relay_subsys) (fail : on_proxy_fail_e) : world :=
  mk_world ∅ [splice_config ss fail] 0 0 None (mk_base 1 0 60000 0 0 0) {[0; 1; 2]} 1 0 [] [] [] [].

Lemma boot_splice_configured ss fail : ss <> http_relay_subsys -> configured (boot_splice ss fail).
Proof.
  intros Hss. split; [|done]. split; [done| |done|intros fd; apply not_elem_of_nil].
  intros [|n] i; cbn; intros [= <-]; (split_and!; [done..|]); (split_and!; [done..|by left]).
Qed.

(** The state after some events from the start of the process. *)
Definition after (ss : relay_subsys) (fail : on_proxy_fail_e) (es : list input_event) : world :=
  default (boot_splice ss fail) (Pump.run_events es (run_to redsocks_init (boot_splice ss fail))).

Lemma after_running ss fail es :
  redsocks_init (boot_splice ss fail) = Ok 0 (run_to redsocks_init (boot_splice ss fail)) ->
  Pump.run_events es (run_to redsocks_init (boot_splice ss fail)) = Some (after ss fail es) ->
  running some_ctx (boot_splice ss fail) (after ss fail es).
Proof.
  intros Hi He. eapply Pump.run_events_running; [|done]. eexists. split; [done|]. apply reach_refl.
Qed.

(** The SOCKS5 dialogue, in which the client sends three bytes early. *)
Definition granted_events : list input_event := first_client :: take 6 Pump.dialogue_events.
Definition piped_events : list input_event := first_client :: Pump.dialogue_events.
Definition w_piped : world := after socks5_subsys ONFAIL_CLOSE piped_events.
Definition client_of (w : world) : redsocks_client :=
  default (new_client 0 (loopback []) (loopback [])) (w_clients w !! 1).

Lemma piped_facts :
  w_clients w_piped !! 1 = Some (client_of w_piped) /\ piping (client_of w_piped) /\ w_answers w_piped = [] /\ sound w_piped.
Proof.
  split; [vm_compute; reflexivity|]. split; [intros []; vm_compute; done|]. split; [vm_compute; reflexivity|].
  eapply running_sound; [by apply (boot_splice_configured socks5_subsys ONFAIL_CLOSE)|].
  apply after_running; vm_compute; reflexivity.
Qed.

(** The relay takes two of the three bytes. *)
Lemma splice_refines_witness :
  exists w', handle some_ctx (ev_splice_write 1 Relay wr_again (wr_sent 2) wr_again) w_piped = Ok tt w' /\
    exists c', piping c' /\ ch_queue (chan Client c') = [3] /\ ch_writing (chan Client c') = true.
Proof.
  destruct piped_facts as (Hc & Hp & Ha & Hs).
  assert (He : enabled (ev_splice_write 1 Relay wr_again (wr_sent 2) wr_again) w_piped)
    by (apply Pump.enabledb_true; vm_compute; reflexivity).
  destruct (splice_refines some_ctx 1 (client_of w_piped) _ w_piped Hs Hc Hp Ha He eq_refl) as (w' & Hrun & H).
  exists w'. split; [exact Hrun|].
  change (exists c', piping c' /\ (forall s, chan s c' = ch_next (ev_splice_write 1 Relay wr_again (wr_sent 2) wr_again) (client_of w_piped) s) /\
      w_clients w' !! 1 = if shut_both c' then None else Some c') in H.
  destruct H as (c' & H1 & H2 & _). exists c'. split; [exact H1|]. rewrite (H2 Client). split; vm_compute; reflexivity.
Defined.

(** A run of a connection by evaluation. *)
Fixpoint pipe_exec (id : Z) (es : list input_event) (w : world) :
  option ((side -> list (ch_event * channel)) * (side -> bytes) * (side -> bytes) * world) :=
  match es with
  | [] => Some (fun _ => [], fun _ => [], fun _ => [], w)
  | e :: es =>
      match w_clients w !! id, handle some_ctx e w with
      | Some c, Ok _ w1 =>
          if bool_decide (w_answers w = []) && Pump.enabledb e w && bool_decide (Pump.target e = Some id) && negb (breaks e c) then
            match pipe_exec id es w1 with
            | Some (ms, i, o, w2) => Some (fun s => steps_of e c s ++ ms s, fun s => bytes_from e c s ++ i s,
                                           fun s => bytes_to e c s ++ o s, w2)
            | None => None
            end
          else None
      | _, _ => None
      end
  end.

Lemma pipe_exec_run id es w ms i o w' :
  pipe_exec id es w = Some (ms, i, o, w') -> pipe_run some_ctx id w es ms i o w'.
Proof.
  revert w ms i o. induction es as [|e es IH]; cbn; intros w ms i o; [intros [= <- <- <- <-]; apply pipe_nil|].
  destruct (w_clients w !! id) as [c|] eqn:Hc; [|done]. destruct (handle some_ctx e w) as [[] w1| |] eqn:Hh; [|done..].
  destruct (_ && _) eqn:Hb; [|done]. rewrite !andb_true_iff in Hb. destruct Hb as (((H1 & H2) & H3) & H4).
  apply bool_decide_eq_true in H1, H3. apply negb_true_iff in H4.
  destruct (pipe_exec id es w1) as [[[[ms1 i1] o1] w2]|] eqn:Hr; [|done]. intros [= <- <- <- <-].
  eapply pipe_cons; [exact Hc|exact H1|by apply Pump.enabledb_true|exact H3|exact H4|exact Hh|by apply IH].
Qed.

(** The early bytes go out in two writes, two more come through the pipe, the client ends
    its output while they are in it, and the relay takes them. *)
Definition pipe_events : list input_event :=
  [ev_splice_write 1 Relay wr_again (wr_sent 2) wr_again; ev_splice_write 1 Relay wr_again (wr_sent 1) wr_again;
   ev_splice_read 1 Client (sp_moved [4; 5]); ev_splice_read 1 Client sp_eof;
   ev_splice_write 1 Relay wr_again wr_again (wr_sent 2)].

Definition piped_run := default (fun _ => [], fun _ => [], fun _ => [], w_piped) (pipe_exec 1 pipe_events w_piped).

Lemma piped_runs :
  pipe_run some_ctx 1 w_piped pipe_events piped_run.1.1.1 piped_run.1.1.2 piped_run.1.2 piped_run.2.
Proof.
  apply pipe_exec_run. unfold piped_run. assert (Hok : is_Some (pipe_exec 1 pipe_events w_piped)).
  { destruct (pipe_exec 1 pipe_events w_piped) eqn:E; [by eexists|]. exfalso. revert E. vm_compute. discriminate. }
  destruct (pipe_exec 1 pipe_events w_piped) as [[[[ms i] o] w']|]; [done|by destruct Hok].
Qed.

Lemma splice_delivers_witness : piped_run.1.2 Client = [1; 2; 3; 4; 5].
Proof.
  destruct piped_facts as (Hc & Hp & Ha & Hs).
  destruct (splice_delivers_everything some_ctx 1 (client_of w_piped) w_piped _ _ _ _ _ Client Hs Hc Hp piped_runs) as (rest & E & H).
  assert (Hcl : closes (chan Client (client_of w_piped))) by (intros Hf; revert Hf; vm_compute; discriminate).
  assert (Hr : rest = []).
  { destruct (w_clients piped_run.2 !! 1) as [c'|] eqn:Ec; [|by apply H]. apply (proj2 H); [done|]. revert Ec. vm_compute. intros [= <-]. reflexivity. }
  rewrite Hr, app_nil_r in E. rewrite E. vm_compute. reflexivity.
Defined.

(** The direction to the client is still waiting for the relay. *)
Lemma splice_never_stalls_witness :
  ch_reading (chan Relay (client_of piped_run.2)) = true \/ ch_writing (chan Relay (client_of piped_run.2)) = true.
Proof.
  destruct piped_facts as (Hc & Hp & Ha & Hs).
  destruct (splice_never_stalls some_ctx 1 (client_of w_piped) w_piped _ _ _ _ _ Relay (client_of piped_run.2) Hs Hc Hp piped_runs)
    as [H|(_ & _ & H)].
  - left. vm_compute. reflexivity.
  - replace (piped_run.1.1.1 Relay) with (@nil (ch_event * channel)) by (vm_compute; reflexivity). constructor.
  - vm_compute. reflexivity.
  - right. exact H.
  - left. apply H. vm_compute. reflexivity.
Defined.

(** Just before the last answer of the proxy. *)
Definition w_granted : world := after socks5_subsys ONFAIL_CLOSE granted_events.

Lemma granted_pipes_at :
  exists g ss, at_client 1 g ss (client_of w_granted) w_granted /\ client_inv g ss (client_of w_granted) /\
    talking ss g (client_of w_granted) /\ use_splice g = true.
Proof.
  assert (Hr : running some_ctx (boot_splice socks5_subsys ONFAIL_CLOSE) w_granted) by (apply after_running; vm_compute; reflexivity).
  pose proof (running_sound some_ctx _ w_granted (boot_splice_configured socks5_subsys ONFAIL_CLOSE ltac:(done)) Hr) as Hs.
  destruct (sound_at w_granted 1 (client_of w_granted) Hs) as (g & ss & H & Hinv); [vm_compute; reflexivity|].
  exists g, ss. destruct (idle_buffered _ _ _ Hinv) as (_ & _ & Hst); [vm_compute; discriminate|].
  assert (Hsp : use_splice g = true).
  { destruct H as (_ & _ & _ & _ & i & Hi & _ & <- & _). vm_compute in Hi. injection Hi as <-. reflexivity. }
  split; [exact H|]. split; [exact Hinv|]. split; [|exact Hsp].
  destruct Hst as [(E & _)|[(_ & E & _)|Hst]]; [vm_compute in E; discriminate E|vm_compute in E; discriminate E|exact Hst].
Qed.

(** The three bytes the client sent early are still there. *)
Lemma start_relay_pipes_witness :
  exists w', redsocks_start_relay 1 w_granted = Ok tt w' /\
    forall c', w_clients w' !! 1 = Some c' -> ch_queue (chan Client c') = [1; 2; 3].
Proof.
  destruct granted_pipes_at as (g & ss & H & Hinv & Ht & Hsp).
  destruct (start_relay_starts_pipes 1 (client_of w_granted) g ss w_granted H Hinv Ht Hsp) as (w' & Hrun & Hw).
  exists w'. split; [exact Hrun|]. intros c' Hc'. destruct (Hw c' Hc') as [_ Hv]. destruct (Hv Client) as (_ & _ & _ & Hq).
  rewrite Hq. vm_compute. reflexivity.
Defined.

(** All early bytes are out and the client has nothing to send. *)
Definition w_waiting : world :=
  after socks5_subsys ONFAIL_CLOSE (piped_events ++ [ev_splice_write 1 Relay wr_again (wr_sent 3) wr_again]).

Lemma blocked_while_empty_witness :
  exists w' c', handle some_ctx (ev_splice_read 1 Client sp_again) w_waiting = Ok tt w' /\ w_clients w' !! 1 = Some c' /\
    chan Client c' = mk_channel [] false false false false.
Proof.
  assert (Hr : running some_ctx (boot_splice socks5_subsys ONFAIL_CLOSE) w_waiting) by (apply after_running; vm_compute; reflexivity).
  pose proof (running_sound some_ctx _ w_waiting (boot_splice_configured socks5_subsys ONFAIL_CLOSE ltac:(done)) Hr) as Hs.
  destruct (blocked_while_empty_stalls some_ctx 1 (client_of w_waiting) w_waiting Client Hs) as (w' & c' & H1 & H2 & H3).
  - vm_compute. reflexivity.
  - intros []; split; vm_compute; reflexivity.
  - vm_compute. reflexivity.
  - apply Pump.enabledb_true. vm_compute. reflexivity.
  - vm_compute. reflexivity.
  - exists w', c'. split; [exact H1|]. split; [exact H2|].
    destruct (H3 [] _ _ _ w' c' (pipe_nil some_ctx 1 w') H2) as (_ & _ & H). exact H.
Defined.

(** ** An error of the proxy that is forwarded *)

(** The proxy answers 403 and the instance forwards the answer: the client is shut for
    reading and the relay for writing before the pump starts. *)
Definition forbidden : bytes := lit "HTTP/1.1 403 Forbidden" ++ [13; 10; 13; 10].
Definition request_len : nat := length (output_of Relay (client_of
  (after http_connect_subsys ONFAIL_FORWARD_HTTP_ERR [first_client; ev_writable 1 Relay 0]))).
Definition w_forwarded : world := after http_connect_subsys ONFAIL_FORWARD_HTTP_ERR
  [first_client; ev_writable 1 Relay 0; ev_writable 1 Relay request_len; ev_readable 1 Relay forbidden;
   ev_splice_write 1 Relay wr_again wr_again wr_again].

(** The end of the client's input is reported at once, again and again: the read event and
    the write event put each other back, until the proxy closes the connection. *)
Theorem forwarded_error_spins :
  exists w', Pump.run_events [ev_splice_read 1 Client sp_eof; ev_splice_write 1 Relay wr_again wr_again wr_again] w_forwarded = Some w' /\
    client_of w' = c_set_last (last_event (client_of w')) (client_of w_forwarded) /\ ch_reading (chan Client (client_of w')) = true /\ w_clients w' !! 1 = Some (client_of w').
Proof. eexists. split; [vm_compute; reflexivity|]. split; [vm_compute; reflexivity|]. split; vm_compute; reflexivity. Qed.

End SplicePump.
