(* ===== verification/Pressure.v ===== *)
(** * Backing off under pressure: redsocks.c

    The delays after which the process tries to accept again, the count the debug
    dump checks, and two runs in which dropping idle clients goes wrong. *)

From S2P Require Import Prelude CLib MD5 EvBuffer HttpAuth World HttprBuffer Redsocks Ownership ClientLogic Flow.
From S2P Require Import Socks5 Socks4 HttpConnect HttpRelay Accept EventLoop Lifecycle Pump.
Import EvBuffer Redsocks Ownership Flow Accept EventLoop Lifecycle Pump.
Open Scope Z_scope.

Module Pressure.

(** ** The debug dump *)

(** What the log lines of a client are made of. *)
Definition dump_client (id : Z) : M unit := c ← get_client id; mret tt.

Definition redsocks_debug_dump_instance (i : redsocks_instance) : M Z :=
  for_each (i_clients i) dump_client ;; mret (u32 (zlen (i_clients i))).

Fixpoint dump_instances (conn : Z) (l : list redsocks_instance) : M Z :=
  match l with
  | [] => mret conn
  | i :: l => n ← redsocks_debug_dump_instance i; dump_instances (u32 (conn + n)) l
  end.

(** The handler of SIGUSR1. *)
Definition redsocks_debug_dump : M unit :=
  gettimeofday ;;
  w ← get;
  conn ← dump_instances 0 (w_instances w);
  w ← get;
  assert (conn =? redsocks_conn w).

Lemma dump_clients_run l w :
  (forall id, id ∈ l -> is_Some (w_clients w !! id)) -> for_each l dump_client w = Ok tt w.
Proof.
  revert w. induction l as [|id l IH]; intros w Hl; cbn [for_each]; [done|].
  destruct (Hl id ltac:(by left)) as [c Hc].
  rewrite (run_bind _ _ tt w w).
  2:{ unfold dump_client. by rewrite (run_bind _ _ c w w) by by apply get_client_run. }
  apply IH. intros id' Hin. apply Hl. by right.
Qed.

Lemma dump_instances_run n l w :
  (forall i id, i ∈ l -> id ∈ i_clients i -> is_Some (w_clients w !! id)) ->
  0 <= n -> n + zlen (concat (i_clients <$> l)) < 2 ^ 32 ->
  dump_instances n l w = Ok (n + zlen (concat (i_clients <$> l))) w.
Proof.
  revert n w. induction l as [|i l IH]; intros n w Hl Hn Hlt; cbn [dump_instances].
  - cbn. unfold mret, M_ret. f_equal. unfold zlen. cbn. lia.
  - assert (E : zlen (concat (i_clients <$> i :: l)) = zlen (i_clients i) + zlen (concat (i_clients <$> l))).
    { unfold zlen. rewrite fmap_cons. cbn [concat]. rewrite length_app. lia. }
    rewrite E in *. assert (0 <= zlen (i_clients i) /\ 0 <= zlen (concat (i_clients <$> l))) by (unfold zlen; lia).
    rewrite (run_bind _ _ (u32 (zlen (i_clients i))) w w).
    + rewrite (u32_id (zlen (i_clients i))), (u32_id (n + _)) by lia. rewrite IH; [f_equal; lia| |lia|lia].
      intros j id Hj. apply Hl. by right.
    + unfold redsocks_debug_dump_instance. rewrite (run_bind _ _ tt w w); [done|].
      apply dump_clients_run. intros id Hid. apply (Hl i id); [by left|done].
Qed.

(** The debug dump never fails its assertion: it walks every client of every instance
    and finds as many as [redsocks_conn] counts. *)
Theorem debug_dump_agrees (ctx : MD5.md5_state) {LR : LineReader} v w :
  configured v -> running ctx v w -> exists w', redsocks_debug_dump w = Ok tt w'.
Proof.
  intros Hv Hr. destruct (running_sound ctx v w Hv Hr) as (Hok & _). pose proof (wk_max _ Hok) as Hm.
  assert (H : wp redsocks_debug_dump (fun _ _ => True) w).
  { apply wp_bind, wp_gettimeofday. intros t ts. apply wp_bind, wp_get. apply wp_bind. unfold wp at 1.
    rewrite dump_instances_run.
    - apply wp_bind, wp_get, wp_assert; [|done]. apply Z.eqb_eq. cbn. by rewrite (wk_conn _ Hok).
    - cbn. intros i id Hi Hin. apply list_elem_of_lookup in Hi as [n Hi].
      destruct (wk_listed _ Hok _ _ Hi) as [_ Hl]. destruct (Hl id Hin) as (c & ? & _). eauto.
    - lia.
    - cbn. pose proof (wk_conn _ Hok) as Hc. unfold all_listed in Hc. rewrite <-Hc. lia. }
  apply wp_run in H as ([] & w' & ? & _). eauto.
Qed.

Lemma debug_dump_agrees_witness : exists w', redsocks_debug_dump accepted = Ok tt w'.
Proof. exact (debug_dump_agrees some_ctx boot accepted boot_configured boot_runs). Defined.

(** ** The delay *)

Lemma next_backoff_bounds ms hi : 1 <= hi -> 1 <= next_backoff ms hi <= hi.
Proof.
  intros Hhi. unfold next_backoff, clamp_value.
  destruct (Z.ltb_spec (u32 (u32 (ms * 2) + 1)) 1), (Z.gtb_spec 1 hi),
    (Z.gtb_spec (u32 (u32 (ms * 2) + 1)) hi); lia.
Qed.

Lemma next_backoff_doubles ms hi : 0 <= ms -> 2 * ms + 1 <= hi < 2 ^ 32 -> next_backoff ms hi = 2 * ms + 1.
Proof.
  intros Hms Hhi. unfold next_backoff, clamp_value. rewrite (u32_id (ms * 2)), u32_id by lia.
  destruct (Z.ltb_spec (ms * 2 + 1) 1); [lia|]. destruct (Z.gtb_spec (ms * 2 + 1) hi); lia.
Qed.

(** No listener is in the loop, and the timer fires in [d] milliseconds. *)
Definition backing_off (d : Z) (w : world) : Prop :=
  accept_backoff_ev w = Some (d * 1000) /\ forall n i, w_instances w !! n = Some i -> i_listening i = false.

Lemma answer_zero w : all_succeed w -> wp answer (fun e w' => e = 0 /\ w_instances w' = w_instances w) w.
Proof.
  unfold all_succeed, wp, answer. destruct (w_answers w) as [|e l]; [done|]. intros [<- _]%Forall_cons. done.
Qed.

(** Backing off without idle dropping, when [event_add] succeeds, takes every listener out of the loop and arms
    the timer: between one millisecond and the configured maximum, at most twice the
    last bound plus one. *)
Theorem back_off_delay w :
  connpres_idle_timeout (w_base w) = 0 -> 1 <= max_accept_backoff_ms (w_base w) < 2 ^ 32 ->
  0 <= accept_backoff_ms w < 2 ^ 32 -> all_succeed w ->
  exists w' d, conn_pressure w = Ok tt w' /\ backing_off d w' /\ 1 <= d <= accept_backoff_ms w' /\ accept_backoff_ms w' <= max_accept_backoff_ms (w_base w) /\
    (2 * accept_backoff_ms w + 1 <= max_accept_backoff_ms (w_base w) ->
       accept_backoff_ms w' = 2 * accept_backoff_ms w + 1).
Proof.
  intros Hidle Hhi Hms Ha. set (hi := max_accept_backoff_ms (w_base w)) in *.
  assert (H : wp conn_pressure (fun _ w' => exists d, accept_backoff_ev w' = Some (d * 1000) /\
    1 <= d <= accept_backoff_ms w' /\ accept_backoff_ms w' = next_backoff (accept_backoff_ms w) hi /\
    (forall n i, w_instances w' !! n = Some i -> i_listening i = false)) w).
  { apply wp_bind, wp_get. rewrite Hidle. apply wp_bind, wp_ret. rewrite bool_decide_eq_false_2 by done.
    apply wp_bind, wp_get. cbv zeta. fold hi. pose proof (next_backoff_bounds (accept_backoff_ms w) hi ltac:(lia)) as Hb.
    apply wp_bind, wp_when; [intros ?%Z.eqb_eq; lia|]. intros _. apply wp_bind, wp_red_randui32. intros r rs Hr. apply wp_bind.
    eapply wp_mono; [by apply answer_zero|]. intros e w1 (-> & Ei). cbn [Z.eqb]. apply wp_bind, wp_modify, wp_modify.
    exists (r mod next_backoff (accept_backoff_ms w) hi + 1). cbn. split_and!; try done.
    - pose proof (Z.mod_pos_bound r (next_backoff (accept_backoff_ms w) hi)). lia.
    - pose proof (Z.mod_pos_bound r (next_backoff (accept_backoff_ms w) hi)). lia.
    - intros n i. rewrite list_lookup_fmap, fmap_Some. by intros (? & _ & ->). }
  apply wp_run in H as ([] & w' & Hrun & d & ? & ? & E & ?). exists w', d. split_and!; try done; try lia.
  - rewrite E. pose proof (next_backoff_bounds (accept_backoff_ms w) hi). lia.
  - intros Hd. rewrite E. apply next_backoff_doubles; lia.
Qed.

Lemma back_off_delay_witness :
  exists w' d, conn_pressure boot = Ok tt w' /\ accept_backoff_ev w' = Some (d * 1000) /\ 1 <= d <= 1.
Proof.
  destruct (back_off_delay boot) as (w' & d & H1 & [H2 _] & H3 & _ & H4); [reflexivity|cbn; lia|cbn; lia|constructor|].
  exists w', d. split; [exact H1|]. split; [exact H2|]. rewrite (H4 ltac:(cbn; lia)) in H3. exact H3.
Defined.

(** ** Dropping idle clients *)

(** The process of [boot] with an idle timeout of one second; [ticks] moves its clock. *)
Definition boot_idle (ticks : list Z) : world :=
  mk_world ∅ [some_config socks5_subsys] 0 0 None (mk_base 1 1 60000 0 0 0) {[0; 1; 2]} 1 0 ticks [] [] [].

Definition idle_started (ticks : list Z) : world := run_to redsocks_init (boot_idle ticks).

(** Without clients, timer and listeners nothing can happen any more. *)
Lemma silent_for_ever w :
  w_clients w = ∅ -> accept_backoff_ev w = None -> (forall n i, w_instances w !! n = Some i -> i_listening i = false) ->
  forall e, ~ enabled e w.
Proof.
  intros Hc Hb Hl [n ca da| |id s data|id s what|id s n|id s what|id s ans|id s ans]; cbn; rewrite ?Hb, ?Hc.
  - intros (i & Hi & E). by rewrite (Hl n i Hi) in E.
  - by intros [? ?].
  - by intros (c & b & ? & _).
  - by intros (c & b & ? & _).
  - by intros (c & b & ? & _).
  - by intros (c & b & ? & _).
  - by intros (c & ? & _).
  - by intros (c & ? & _).
Qed.

(** When the back-off timer finds an idle client to drop, it returns without arming
    itself or enabling the listeners: the last connection is closed, nothing is
    listened to, no timer is pending, and no event can ever happen again. *)
Theorem idle_drop_ends_accepting :
  exists w, run_events [first_client; ev_backoff] (idle_started [1; 1; 1; 2000000]) = Some w /\
    w_clients w = ∅ /\ redsocks_conn w = 0 /\ accept_backoff_ev w = None /\ forall e, ~ enabled e w.
Proof.
  eexists. split; [vm_compute; reflexivity|]. split; [vm_compute; reflexivity|]. split; [reflexivity|].
  split; [reflexivity|]. apply silent_for_ever; [vm_compute; reflexivity|reflexivity|]. intros [|n] i; [by intros [= <-]|done].
Qed.

(** When the clock shows the same time at the last two readings of an accept that
    fills the process, the client that is being accepted counts as idle: it is freed,
    and [redsocks_accept_client] goes on with the freed client. *)
Theorem fresh_client_dropped_as_idle :
  enabled first_client (idle_started [1; 1; 0]) /\ handle some_ctx first_client (idle_started [1; 1; 0]) = Fault.
Proof. split; [apply enabledb_true|]; vm_compute; reflexivity. Qed.

(** When [event_add] fails for the back-off timer, the listeners are out of the loop and no
    timer puts them back: after the only client left, nothing is listened to, no timer is
    pending, and no event can ever happen again. *)
Theorem backoff_timer_lost :
  exists w, run_events [first_client; ev_read_failed 1 Client BEV_ERROR] (w_set_answers (replicate 9 0 ++ [12]) booted) = Some w /\
    w_clients w = ∅ /\ redsocks_conn w = 0 /\ accept_backoff_ev w = None /\ forall e, ~ enabled e w.
Proof.
  eexists. split; [vm_compute; reflexivity|]. split; [vm_compute; reflexivity|]. split; [reflexivity|].
  split; [reflexivity|]. apply silent_for_ever; [vm_compute; reflexivity|reflexivity|]. intros [|[|n]] i; [by intros [= <-]..|done].
Qed.

End Pressure.
