(* ===== verification/Config.v ===== *)
(** * The sections of the configuration file (redsocks.c, base.c)

    What entering, filling and leaving a [redsocks] or [base] section does to the
    instances the process will run, as sections for the parser. The theorems show
    that a configuration printed for a list of instances is read back as these
    instances, and that it is one the process can be started with.

    A [uint16_t] lies in memory with its low byte first, as on every Android ABI, so
    a port is the list of its two bytes and [htons] exchanges them. [calloc] does not
    fail here. *)

From S2P Require Import Prelude CLib World Parser Ownership Lifecycle.
Import Parser Ownership Lifecycle.
Open Scope Z_scope.

Module Config.

(** What the system reports: the release of the kernel, and the largest backlog. *)
Class Host := { uname_release : option bytes; SOMAXCONN : Z }.

(** [redirector_subsystems] of a build with iptables. *)
Inductive redirector := redir_iptables | redir_generic.

Record base_instance := mk_base_instance {
  b_configured : bool;
  b_chroot : option bytes;
  b_user : option bytes;
  b_group : option bytes;
  b_redirector_name : option bytes;
  b_redirector : option redirector;
  b_log_name : option bytes;
  b_log_debug : bool;
  b_log_info : bool;
  b_daemon : bool;
  b_rlimit_nofile : Z;
  b_config : base_config }.

(** The state of the sections: the base instance, [section->data] of the [redsocks]
    section, and the list of instances. *)
Record conf := mk_conf {
  cf_base : base_instance;
  cf_data : option redsocks_config;
  cf_instances : list redsocks_instance }.

Section sections.
Context {P : Platform} {H : Host}.

(** ** The redsocks section *)

Definition redsocks_entries : list (bytes * parser_type) :=
  [(lit "local_ip", pt_in_addr); (lit "local_port", pt_uint16); (lit "ip", pt_in_addr); (lit "port", pt_uint16);
   (lit "type", pt_pchar); (lit "login", pt_pchar); (lit "password", pt_pchar); (lit "listenq", pt_uint16);
   (lit "splice", pt_bool); (lit "disclose_src", pt_disclose_src); (lit "on_proxy_fail", pt_on_proxy_fail)].

(** The numbers of a kernel release, each read with [strtoul]. *)
Fixpoint versions (n : nat) (rel : bytes) : list Z :=
  match n with
  | O => []
  | S n => let '(v, rel) := strtoul ULONG_MAX rel in v :: versions n (CLib.skip (fun c => negb (isdigit c)) rel)
  end.

Definition is_splice_good : bool :=
  match uname_release with
  | None => false
  | Some rel =>
      match versions 4 rel with
      | [v0; v1; v2; v3] =>
          (v0 >? 2) || ((v0 =? 2) && (v1 >? 6)) || ((v0 =? 2) && (v1 =? 6) && (v2 >? 27)) ||
          ((v0 =? 2) && (v1 =? 6) && (v2 =? 27) && (v3 >=? 13))
      | _ => false
      end
  end.

(** [htonl(INADDR_LOOPBACK)] *)
Definition INADDR_LOOPBACK : bytes := [127; 0; 0; 1].

Definition redsocks_defaults : redsocks_config :=
  mk_config (mk_sockaddr INADDR_LOOPBACK [0; 0]) (mk_sockaddr INADDR_LOOPBACK [0; 0]) None None None
    (u16 SOMAXCONN) is_splice_good DISCLOSE_NONE ONFAIL_CLOSE.

Definition redsocks_onenter (c : conf) : conf * bool :=
  (mk_conf (cf_base c) (Some redsocks_defaults) (cf_instances c), true).

(** Writing to [entry->addr], which [redsocks_onenter] points at the field of this key. *)
Definition store_config (key : bytes) (v : value) (g : redsocks_config) : redsocks_config :=
  let bind a := mk_config a (relayaddr g) (cfg_type g) (login g) (password g) (listenq g) (use_splice g)
                  (disclose_src g) (on_proxy_fail g) in
  let relay a := mk_config (bindaddr g) a (cfg_type g) (login g) (password g) (listenq g) (use_splice g)
                   (disclose_src g) (on_proxy_fail g) in
  let strings t l p := mk_config (bindaddr g) (relayaddr g) t l p (listenq g) (use_splice g)
                         (disclose_src g) (on_proxy_fail g) in
  let rest q s d f := mk_config (bindaddr g) (relayaddr g) (cfg_type g) (login g) (password g) q s d f in
  match v with
  | v_in_addr a =>
      if strcmp_eq key (lit "local_ip") then bind (mk_sockaddr a (sin_port (bindaddr g)))
      else if strcmp_eq key (lit "ip") then relay (mk_sockaddr a (sin_port (relayaddr g))) else g
  | v_uint16 z =>
      if strcmp_eq key (lit "local_port") then bind (mk_sockaddr (sin_addr (bindaddr g)) (le_bytes 2 z))
      else if strcmp_eq key (lit "port") then relay (mk_sockaddr (sin_addr (relayaddr g)) (le_bytes 2 z))
      else if strcmp_eq key (lit "listenq") then rest z (use_splice g) (disclose_src g) (on_proxy_fail g) else g
  | v_pchar s =>
      if strcmp_eq key (lit "type") then strings (Some s) (login g) (password g)
      else if strcmp_eq key (lit "login") then strings (cfg_type g) (Some s) (password g)
      else if strcmp_eq key (lit "password") then strings (cfg_type g) (login g) (Some s) else g
  | v_bool b => if strcmp_eq key (lit "splice") then rest (listenq g) b (disclose_src g) (on_proxy_fail g) else g
  | v_disclose_src d => if strcmp_eq key (lit "disclose_src") then rest (listenq g) (use_splice g) d (on_proxy_fail g) else g
  | v_on_proxy_fail f => if strcmp_eq key (lit "on_proxy_fail") then rest (listenq g) (use_splice g) (disclose_src g) f else g
  | _ => g
  end.

Definition redsocks_store (key : bytes) (v : value) (c : conf) : conf :=
  mk_conf (cf_base c) (store_config key v <$> cf_data c) (cf_instances c).

Definition subsys_name (ss : relay_subsys) : bytes :=
  match ss with
  | http_connect_subsys => lit "http-connect"
  | http_relay_subsys => lit "http-relay"
  | socks4_subsys => lit "socks4"
  | socks5_subsys => lit "socks5"
  end.

Definition relay_subsystems : list relay_subsys :=
  [http_connect_subsys; http_relay_subsys; socks4_subsys; socks5_subsys].

Definition htons_port (a : sockaddr_in) : sockaddr_in := mk_sockaddr (sin_addr a) (rev (sin_port a)).

Definition fresh_instance (g : redsocks_config) (ss : relay_subsys) : redsocks_instance :=
  mk_instance g false 0 false [] ss (mk_http_auth None 0).

(** An instance of a known type is listed before its options are checked. [section->data]
    was set on entering the section. *)
Definition redsocks_onexit (c : conf) : conf * bool :=
  match cf_data c with
  | None => (c, false)
  | Some g =>
      let c := mk_conf (cf_base c) None (cf_instances c) in
      let g := mk_config (htons_port (bindaddr g)) (htons_port (relayaddr g)) (cfg_type g) (login g) (password g)
                 (listenq g) (use_splice g) (disclose_src g) (on_proxy_fail g) in
      match t ← cfg_type g; by_name t ((fun ss => (subsys_name ss, ss)) <$> relay_subsystems) with
      | None => (c, false)
      | Some ss =>
          let c := mk_conf (cf_base c) None (fresh_instance g ss :: cf_instances c) in
          if negb (bool_decide (disclose_src g = DISCLOSE_NONE)) && negb (bool_decide (ss = http_connect_subsys)) then (c, false)
          else if negb (bool_decide (on_proxy_fail g = ONFAIL_CLOSE)) && negb (bool_decide (ss = http_connect_subsys)) then (c, false)
          else (c, true)
      end
  end.

Definition redsocks_conf_section : parser_section conf :=
  mk_section (lit "redsocks") (Some redsocks_onenter) (Some redsocks_onexit) redsocks_entries redsocks_store.

(** ** The base section *)

Definition base_entries : list (bytes * parser_type) :=
  [(lit "chroot", pt_pchar); (lit "user", pt_pchar); (lit "group", pt_pchar); (lit "redirector", pt_pchar);
   (lit "log", pt_pchar); (lit "log_debug", pt_bool); (lit "log_info", pt_bool); (lit "daemon", pt_bool);
   (lit "tcp_keepalive_time", pt_uint16); (lit "tcp_keepalive_probes", pt_uint16); (lit "tcp_keepalive_intvl", pt_uint16);
   (lit "rlimit_nofile", pt_uint32); (lit "redsocks_conn_max", pt_uint32); (lit "connpres_idle_timeout", pt_uint32);
   (lit "max_accept_backoff", pt_uint32)].

Definition base_onenter (c : conf) : conf * bool :=
  if b_configured (cf_base c) then (c, false)
  else (mk_conf (mk_base_instance true None None None None None None false false false 0 (mk_base 0 7440 60000 0 0 0))
          (cf_data c) (cf_instances c), true).

(** Writing to the field of [instance] the entry of this key points at. *)
Definition base_store_field (key : bytes) (v : value) (b : base_instance) : base_instance :=
  let g := b_config b in
  let strings c u gr r l := mk_base_instance (b_configured b) c u gr r (b_redirector b) l (b_log_debug b) (b_log_info b)
                              (b_daemon b) (b_rlimit_nofile b) g in
  let flags d i dm := mk_base_instance (b_configured b) (b_chroot b) (b_user b) (b_group b) (b_redirector_name b)
                        (b_redirector b) (b_log_name b) d i dm (b_rlimit_nofile b) g in
  let nums n g := mk_base_instance (b_configured b) (b_chroot b) (b_user b) (b_group b) (b_redirector_name b)
                    (b_redirector b) (b_log_name b) (b_log_debug b) (b_log_info b) (b_daemon b) n g in
  let keep t p i := nums (b_rlimit_nofile b) (mk_base (redsocks_conn_max g) (connpres_idle_timeout g) (max_accept_backoff_ms g) t p i) in
  let limits m i a := nums (b_rlimit_nofile b) (mk_base m i a (tcp_keepalive_time g) (tcp_keepalive_probes g) (tcp_keepalive_intvl g)) in
  match v with
  | v_pchar s =>
      if strcmp_eq key (lit "chroot") then strings (Some s) (b_user b) (b_group b) (b_redirector_name b) (b_log_name b)
      else if strcmp_eq key (lit "user") then strings (b_chroot b) (Some s) (b_group b) (b_redirector_name b) (b_log_name b)
      else if strcmp_eq key (lit "group") then strings (b_chroot b) (b_user b) (Some s) (b_redirector_name b) (b_log_name b)
      else if strcmp_eq key (lit "redirector") then strings (b_chroot b) (b_user b) (b_group b) (Some s) (b_log_name b)
      else if strcmp_eq key (lit "log") then strings (b_chroot b) (b_user b) (b_group b) (b_redirector_name b) (Some s) else b
  | v_bool x =>
      if strcmp_eq key (lit "log_debug") then flags x (b_log_info b) (b_daemon b)
      else if strcmp_eq key (lit "log_info") then flags (b_log_debug b) x (b_daemon b)
      else if strcmp_eq key (lit "daemon") then flags (b_log_debug b) (b_log_info b) x else b
  | v_uint16 z =>
      if strcmp_eq key (lit "tcp_keepalive_time") then keep z (tcp_keepalive_probes g) (tcp_keepalive_intvl g)
      else if strcmp_eq key (lit "tcp_keepalive_probes") then keep (tcp_keepalive_time g) z (tcp_keepalive_intvl g)
      else if strcmp_eq key (lit "tcp_keepalive_intvl") then keep (tcp_keepalive_time g) (tcp_keepalive_probes g) z else b
  | v_uint32 z =>
      if strcmp_eq key (lit "rlimit_nofile") then nums z g
      else if strcmp_eq key (lit "redsocks_conn_max") then limits z (connpres_idle_timeout g) (max_accept_backoff_ms g)
      else if strcmp_eq key (lit "connpres_idle_timeout") then limits (redsocks_conn_max g) z (max_accept_backoff_ms g)
      else if strcmp_eq key (lit "max_accept_backoff") then limits (redsocks_conn_max g) (connpres_idle_timeout g) z else b
  | _ => b
  end.

Definition base_store (key : bytes) (v : value) (c : conf) : conf :=
  mk_conf (base_store_field key v (cf_base c)) (cf_data c) (cf_instances c).

Definition redirector_subsystems : list (bytes * redirector) :=
  [(lit "iptables", redir_iptables); (lit "generic", redir_generic)].

Definition base_onexit (c : conf) : conf * bool :=
  let b := cf_base c in
  if max_accept_backoff_ms (b_config b) =? 0 then (c, false) else
  match b_redirector_name b with
  | None => (c, false)
  | Some n =>
      match by_name n redirector_subsystems with
      | None => (c, false)
      | Some r =>
          (mk_conf (mk_base_instance (b_configured b) (b_chroot b) (b_user b) (b_group b) (b_redirector_name b) (Some r)
                      (b_log_name b) (b_log_debug b) (b_log_info b) (b_daemon b) (b_rlimit_nofile b) (b_config b))
             (cf_data c) (cf_instances c), true)
      end
  end.

Definition base_conf_section : parser_section conf :=
  mk_section (lit "base") (Some base_onenter) (Some base_onexit) base_entries base_store.

(** [main] adds the sections in the order of [subsystems]. *)
Definition conf_sections : list (parser_section conf) :=
  parser_add_section (parser_add_section [] redsocks_conf_section) base_conf_section.

(** Before the file is read: static storage is zero. *)
Definition unconfigured : conf :=
  mk_conf (mk_base_instance false None None None None None None false false false 0 (mk_base 0 0 0 0 0 0)) None [].

(** [redsocks_has_splice_instance] *)
Definition redsocks_has_splice_instance (instances : list redsocks_instance) : bool :=
  existsb (fun i => use_splice (i_config i)) instances.

(** ** A configuration file for given instances *)

(** The value of a port in network byte order. *)
Definition port (a : sockaddr_in) : Z := be_value (sin_port a).

Definition optional (key : bytes) (v : option bytes) : list (bytes * bytes) :=
  match v with Some v => [(key, v)] | None => [] end.

Definition disclose_name (d : disclose_src_e) : bytes :=
  match d with
  | DISCLOSE_NONE => lit "off"
  | DISCLOSE_X_FORWARDED_FOR => lit "X-Forwarded-For"
  | DISCLOSE_FORWARDED_IP => lit "Forwarded_ip"
  | DISCLOSE_FORWARDED_IPPORT => lit "Forwarded_ipport"
  end.
Definition onfail_name (f : on_proxy_fail_e) : bytes :=
  match f with ONFAIL_CLOSE => lit "close" | ONFAIL_FORWARD_HTTP_ERR => lit "forward_http_err" end.

Definition redsocks_section_of (x : redsocks_config * relay_subsys) : bytes * list (bytes * bytes) :=
  let '(g, ss) := x in
  (lit "redsocks",
    [(lit "local_ip", inet_ntoa (sin_addr (bindaddr g))); (lit "local_port", fmt_u (port (bindaddr g)));
     (lit "ip", inet_ntoa (sin_addr (relayaddr g))); (lit "port", fmt_u (port (relayaddr g)));
     (lit "type", subsys_name ss)] ++
    optional (lit "login") (login g) ++ optional (lit "password") (password g) ++
    [(lit "listenq", fmt_u (listenq g)); (lit "splice", if use_splice g then lit "on" else lit "off");
     (lit "disclose_src", disclose_name (disclose_src g)); (lit "on_proxy_fail", onfail_name (on_proxy_fail g))]).

Definition base_section_of (r : bytes) (b : base_config) : bytes * list (bytes * bytes) :=
  (lit "base",
    [(lit "redirector", r); (lit "tcp_keepalive_time", fmt_u (tcp_keepalive_time b));
     (lit "tcp_keepalive_probes", fmt_u (tcp_keepalive_probes b)); (lit "tcp_keepalive_intvl", fmt_u (tcp_keepalive_intvl b));
     (lit "redsocks_conn_max", fmt_u (redsocks_conn_max b)); (lit "connpres_idle_timeout", fmt_u (connpres_idle_timeout b));
     (lit "max_accept_backoff", fmt_u (max_accept_backoff_ms b))]).

(** A value that can stand in a file. *)
Definition plain (v : bytes) : Prop := is_cstr v /\ (v ∉ reserved).

Definition addr_ok (a : sockaddr_in) : Prop :=
  length (sin_addr a) = 4%nat /\ is_bytes (sin_addr a) /\ length (sin_port a) = 2%nat /\ is_bytes (sin_port a).

(** The configurations [redsocks_onexit] accepts. *)
Record instance_ok (x : redsocks_config * relay_subsys) : Prop := {
  io_bind : addr_ok (bindaddr x.1);
  io_relay : addr_ok (relayaddr x.1);
  io_type : cfg_type x.1 = Some (subsys_name x.2);
  io_login : from_option plain True (login x.1);
  io_password : from_option plain True (password x.1);
  io_listenq : 0 <= listenq x.1 < 2 ^ 16;
  io_http : x.2 = http_connect_subsys \/ disclose_src x.1 = DISCLOSE_NONE /\ on_proxy_fail x.1 = ONFAIL_CLOSE }.

Record base_ok (b : base_config) : Prop := {
  bo_conn : 0 <= redsocks_conn_max b < 2 ^ 32;
  bo_idle : 0 <= connpres_idle_timeout b < 2 ^ 32;
  bo_backoff : 0 < max_accept_backoff_ms b < 2 ^ 32;
  bo_time : 0 <= tcp_keepalive_time b < 2 ^ 16;
  bo_probes : 0 <= tcp_keepalive_probes b < 2 ^ 16;
  bo_intvl : 0 <= tcp_keepalive_intvl b < 2 ^ 16 }.

Definition file_of (r : bytes) (b : base_config) (gs : list (redsocks_config * relay_subsys)) : bytes :=
  print_config (base_section_of r b :: (redsocks_section_of <$> gs)).

(** ** Reading values back *)

Context (HM : 2 ^ 32 - 1 <= ULONG_MAX).

Lemma settle_next {T} (sec : parser_section T) k v ty w kvs (c : T) r :
  by_name k (sec_entries sec) = Some ty -> draws ty v = false -> value_parser_by_type ty 0 v = (Some w, true) ->
  settle sec ((k, v) :: kvs) c r = settle sec kvs (sec_store sec k w c) r.
Proof. intros H1 H2 H3. cbn [settle]. by rewrite H1, H2, H3. Qed.

Lemma read_uint16 z : 0 <= z < 2 ^ 16 -> value_parser_by_type pt_uint16 0 (fmt_u z) = (Some (v_uint16 z), true).
Proof.
  intros Hz. cbn [value_parser_by_type]. unfold vp_uint16. rewrite <-(app_nil_r (fmt_u z)), strtoul_fmt by (lia || by left).
  destruct (Z.gtb_spec z 0xFFFF); [lia|done].
Qed.
Lemma read_uint32 z : 0 <= z < 2 ^ 32 -> value_parser_by_type pt_uint32 0 (fmt_u z) = (Some (v_uint32 z), true).
Proof.
  intros Hz. cbn [value_parser_by_type]. unfold vp_uint32. rewrite <-(app_nil_r (fmt_u z)), strtoul_fmt by (lia || by left).
  by rewrite u32_id.
Qed.
Lemma read_addr a : length a = 4%nat -> is_bytes a ->
  draws pt_in_addr (inet_ntoa a) = false /\ value_parser_by_type pt_in_addr 0 (inet_ntoa a) = (Some (v_in_addr a), true).
Proof.
  intros Hl Hb. cbn [value_parser_by_type]. unfold draws, vp_in_addr. rewrite inet_aton_ntoa by (done || lia). done.
Qed.
Lemma read_bool b : value_parser_by_type pt_bool 0 (if b : bool then lit "on" else lit "off") = (Some (v_bool b), true).
Proof. by destruct b. Qed.
Lemma read_disclose d : value_parser_by_type pt_disclose_src 0 (disclose_name d) = (Some (v_disclose_src d), true).
Proof. by destruct d. Qed.
Lemma read_onfail f : value_parser_by_type pt_on_proxy_fail 0 (onfail_name f) = (Some (v_on_proxy_fail f), true).
Proof. by destruct f. Qed.

Lemma port_bytes a : addr_ok a -> le_bytes 2 (port a) = rev (sin_port a) /\ 0 <= port a < 2 ^ 16.
Proof.
  intros (_ & _ & Hl & Hb). unfold port, be_value. assert (Hr : is_bytes (rev (sin_port a))) by by apply Forall_rev.
  assert (Hlr : length (rev (sin_port a)) = 2%nat) by by rewrite length_rev. split.
  - rewrite <-Hlr. by apply le_bytes_value.
  - pose proof (le_value_range _ Hr) as H1. unfold zlen in H1. rewrite Hlr in H1. cbn in H1. lia.
Qed.

(** The section as it lies in memory before [redsocks_onexit]. *)
Definition in_memory (g : redsocks_config) : redsocks_config :=
  mk_config (htons_port (bindaddr g)) (htons_port (relayaddr g)) (cfg_type g) (login g) (password g)
    (listenq g) (use_splice g) (disclose_src g) (on_proxy_fail g).

Lemma htons_twice a : htons_port (htons_port a) = a.
Proof. destruct a. unfold htons_port. cbn. by rewrite rev_involutive. Qed.

(** One printed entry after the other. *)
Local Ltac entry tac := erewrite settle_next; [|reflexivity|try reflexivity; by apply tac|by apply tac].

Lemma settle_optional sec k v kvs (c : conf) r (set : bytes -> conf) :
  by_name k (sec_entries sec) = Some pt_pchar -> (forall s, sec_store sec k (v_pchar s) c = set s) ->
  settle sec (optional k v ++ kvs) c r = settle sec kvs (match v with Some s => set s | None => c end) r.
Proof.
  intros Hk Hs. destruct v as [s|]; cbn [optional app]; [|done]. rewrite (settle_next _ _ _ pt_pchar (v_pchar s)) by done.
  by rewrite Hs.
Qed.

Lemma settle_redsocks g ss b l r :
  instance_ok (g, ss) ->
  settle redsocks_conf_section (redsocks_section_of (g, ss)).2 (mk_conf b (Some redsocks_defaults) l) r =
    (mk_conf b (Some (in_memory g)) l, r, true).
Proof.
  intros [Hb Hr Ht _ _ Hq _]. cbn [fst snd] in *. destruct (port_bytes _ Hb) as [P1 P2]. destruct (port_bytes _ Hr) as [P3 P4].
  destruct Hb as (B1 & B2 & _). destruct Hr as (R1 & R2 & _). unfold redsocks_section_of. cbn [snd app].
  rewrite (settle_next _ _ _ pt_in_addr (v_in_addr (sin_addr (bindaddr g)))) by (done || by apply read_addr).
  rewrite (settle_next _ _ _ pt_uint16 (v_uint16 (port (bindaddr g)))) by (done || by apply read_uint16).
  rewrite (settle_next _ _ _ pt_in_addr (v_in_addr (sin_addr (relayaddr g)))) by (done || by apply read_addr).
  rewrite (settle_next _ _ _ pt_uint16 (v_uint16 (port (relayaddr g)))) by (done || by apply read_uint16).
  rewrite (settle_next _ _ _ pt_pchar (v_pchar (subsys_name ss))) by done.
  unfold in_memory, htons_port. rewrite Ht, <-P1, <-P3.
  destruct (login g) as [x|], (password g) as [y|]; cbn [optional app];
    try rewrite (settle_next _ (lit "login") x pt_pchar (v_pchar x)) by done;
    try rewrite (settle_next _ (lit "password") y pt_pchar (v_pchar y)) by done;
    rewrite (settle_next _ _ _ pt_uint16 (v_uint16 (listenq g))) by (done || by apply read_uint16);
    rewrite (settle_next _ _ _ pt_bool (v_bool (use_splice g))) by (done || apply read_bool);
    rewrite (settle_next _ _ _ pt_disclose_src (v_disclose_src (disclose_src g))) by (done || apply read_disclose);
    rewrite (settle_next _ _ _ pt_on_proxy_fail (v_on_proxy_fail (on_proxy_fail g))) by (done || apply read_onfail);
    reflexivity.
Qed.

Lemma subsys_by_name ss : by_name (subsys_name ss) ((fun ss => (subsys_name ss, ss)) <$> relay_subsystems) = Some ss.
Proof. by destruct ss. Qed.

Lemma onexit_redsocks g ss b l :
  instance_ok (g, ss) ->
  redsocks_onexit (mk_conf b (Some (in_memory g)) l) = (mk_conf b None (fresh_instance g ss :: l), true).
Proof.
  intros [_ _ Ht _ _ _ Hh]. cbn [fst snd] in *. unfold redsocks_onexit, in_memory.
  cbn [cf_data cf_base cf_instances bindaddr relayaddr cfg_type login password listenq use_splice disclose_src on_proxy_fail].
  rewrite !htons_twice, Ht. cbn [mbind option_bind]. rewrite subsys_by_name.
  replace (mk_config _ _ _ _ _ _ _ _ _) with g by (destruct g; cbn in *; by rewrite Ht).
  destruct Hh as [->|[-> ->]]; [by rewrite andb_false_r, andb_false_r|done].
Qed.

Lemma configure_redsocks g ss cfg b l r :
  instance_ok (g, ss) ->
  configure conf_sections (redsocks_section_of (g, ss) :: cfg) (mk_conf b None l) r =
    configure conf_sections cfg (mk_conf b None (fresh_instance g ss :: l)) r.
Proof.
  intros Hok. pose proof (settle_redsocks g ss b l r Hok) as Hs. destruct (redsocks_section_of (g, ss)) as [n kvs] eqn:E.
  assert (n = lit "redsocks") as -> by (unfold redsocks_section_of in E; congruence). cbn [snd] in Hs.
  cbn [configure]. change (find_section conf_sections (lit "redsocks")) with (Some redsocks_conf_section).
  assert (E1 : run_callback (sec_onenter redsocks_conf_section) (mk_conf b None l) = (mk_conf b (Some redsocks_defaults) l, true))
    by reflexivity.
  cbv iota beta. rewrite E1. cbn [negb]. rewrite Hs. cbn [negb]. pose proof (onexit_redsocks g ss b l Hok) as E2.
  change (redsocks_onexit (mk_conf b (Some (in_memory g)) l)) with
    (run_callback (sec_onexit redsocks_conf_section) (mk_conf b (Some (in_memory g)) l)) in E2. by rewrite E2.
Qed.

Lemma configure_instances gs b l r :
  Forall instance_ok gs ->
  configure conf_sections (redsocks_section_of <$> gs) (mk_conf b None l) r =
    (mk_conf b None (rev ((fun x => fresh_instance x.1 x.2) <$> gs) ++ l), r, true).
Proof.
  intros H1. revert l. induction H1 as [|[g ss] gs Hok _ IH]; intros l; [done|]. cbn [fmap list_fmap rev].
  rewrite configure_redsocks by done. rewrite IH. by rewrite <-app_assoc.
Qed.

(** The base instance of a file. *)
Definition base_of (name : bytes) (rd : redirector) (b : base_config) : base_instance :=
  mk_base_instance true None None None (Some name) (Some rd) None false false false 0 b.

Lemma configure_base name rd b cfg r :
  base_ok b -> by_name name redirector_subsystems = Some rd ->
  configure conf_sections (base_section_of name b :: cfg) unconfigured r =
    configure conf_sections cfg (mk_conf (base_of name rd b) None []) r.
Proof.
  intros [H1 H2 H3 H4 H5 H6] Hr. unfold base_section_of. cbn [configure].
  change (find_section conf_sections (lit "base")) with (Some base_conf_section).
  cbv iota beta. set (c0 := mk_conf (mk_base_instance true None None None None None None false false false 0
    (mk_base 0 7440 60000 0 0 0)) None []).
  assert (E1 : run_callback (sec_onenter base_conf_section) unconfigured = (c0, true)) by reflexivity.
  rewrite E1. cbn [negb].
  rewrite (settle_next _ _ _ pt_pchar (v_pchar name)) by done.
  rewrite (settle_next _ _ _ pt_uint16 (v_uint16 (tcp_keepalive_time b))) by (done || by apply read_uint16).
  rewrite (settle_next _ _ _ pt_uint16 (v_uint16 (tcp_keepalive_probes b))) by (done || by apply read_uint16).
  rewrite (settle_next _ _ _ pt_uint16 (v_uint16 (tcp_keepalive_intvl b))) by (done || by apply read_uint16).
  rewrite (settle_next _ _ _ pt_uint32 (v_uint32 (redsocks_conn_max b))) by (done || by apply read_uint32).
  rewrite (settle_next _ _ _ pt_uint32 (v_uint32 (connpres_idle_timeout b))) by (done || by apply read_uint32).
  rewrite (settle_next _ _ _ pt_uint32 (v_uint32 (max_accept_backoff_ms b))) by (done || apply read_uint32; lia).
  cbn [settle negb].
  match goal with |- context [run_callback (sec_onexit base_conf_section) ?c] =>
    assert (E2 : c = mk_conf (mk_base_instance true None None None (Some name) None None false false false 0 b) None [])
      by (destruct b; reflexivity); rewrite E2; clear E2
  end.
  assert (E3 : run_callback (sec_onexit base_conf_section)
    (mk_conf (mk_base_instance true None None None (Some name) None None false false false 0 b) None []) =
    (mk_conf (base_of name rd b) None [], true)).
  { change (run_callback (sec_onexit base_conf_section) ?c) with (base_onexit c). unfold base_onexit.
    cbn [cf_base b_config b_redirector_name]. destruct (Z.eqb_spec (max_accept_backoff_ms b) 0); [lia|]. by rewrite Hr. }
  by rewrite E3.
Qed.

(** ** The printed file can be read *)

(** Digits and names do not begin like a reserved token. *)
Lemma plain_intro c l : is_cstr (c :: l) -> isalnum c = true -> plain (c :: l).
Proof.
  intros Hc Ha. split; [done|]. unfold reserved. rewrite !elem_of_cons, elem_of_nil. intros Hin.
  destruct_or? Hin; injection Hin as -> _; done.
Qed.

Lemma digits_cstr l : Forall (fun c => isdigit c = true) l -> is_cstr l.
Proof. intros H1. eapply Forall_impl; [exact H1|]. cbn. unfold isdigit. intros. lia. Qed.

Lemma plain_fmt z : 0 <= z < 2 ^ 32 -> plain (fmt_u z).
Proof.
  intros Hz. destruct (fmt_u_spec z Hz) as (_ & Hf & c & l & E & _). pose proof (digits_cstr _ Hf) as Hc.
  rewrite E in *. apply plain_intro; [done|]. rewrite Forall_cons in Hf. destruct Hf as [Hd _]. unfold isalnum. rewrite Hd. apply orb_true_r.
Qed.

Lemma plain_ntoa a : length a = 4%nat -> is_bytes a -> plain (inet_ntoa a).
Proof.
  intros Hl Hb. destruct a as [|a [|b [|c [|d [|]]]]]; try done. unfold is_bytes in Hb. rewrite !Forall_cons in Hb. destruct Hb as (Ha & Hb & Hc & Hd & _).
  assert (Hf : forall z, 0 <= z < 256 -> is_cstr (fmt_u z)) by (intros z Hz; apply plain_fmt; lia).
  destruct (fmt_u_spec a ltac:(lia)) as (_ & Hfa & x & l & E & _). cbn [inet_ntoa].
  assert (Hcs : is_cstr (fmt_u a ++ lit "." ++ fmt_u b ++ lit "." ++ fmt_u c ++ lit "." ++ fmt_u d)).
  { rewrite !is_cstr_app. split_and!; auto; by apply (bool_decide_unpack _). }
  rewrite E in *. cbn [app] in *. apply plain_intro; [done|]. rewrite Forall_cons in Hfa. destruct Hfa as [Hd' _]. unfold isalnum. rewrite Hd'. apply orb_true_r.
Qed.

Lemma plain_name n : is_name n = true -> plain n.
Proof. intros Hn. split; [by apply name_cstr|by apply name_not_reserved]. Qed.

Lemma entry_plain k v : is_name k = true -> plain v -> entry_ok (k, v).
Proof. by intros Hk [? ?]. Qed.

Lemma redsocks_section_ok x :
  instance_ok x -> is_name (redsocks_section_of x).1 = true /\ Forall entry_ok (redsocks_section_of x).2.
Proof.
  destruct x as [g ss]. intros [Hb Hr _ Hl Hp Hq _]. cbn [fst snd] in *. destruct (port_bytes _ Hb) as [_ P2].
  destruct (port_bytes _ Hr) as [_ P4]. destruct Hb as (B1 & B2 & _). destruct Hr as (R1 & R2 & _).
  split; [done|]. unfold redsocks_section_of. cbn [snd].
  assert (Ho : forall k v, is_name k = true -> from_option plain True v -> Forall entry_ok (optional k v)).
  { intros k [v|] Hk Hv; [|constructor]. by constructor; [apply entry_plain|constructor]. }
  rewrite !Forall_app. split_and!; [|by apply Ho|by apply Ho|]; repeat apply Forall_cons_2; try apply Forall_nil_2; (apply entry_plain; [done|]);
    try (apply plain_ntoa; done); try (apply plain_fmt; lia); apply plain_name.
  all: first [by destruct ss | by destruct (use_splice g) | by destruct (disclose_src g) | by destruct (on_proxy_fail g)].
Qed.

Lemma file_ok name rd b gs :
  base_ok b -> by_name name redirector_subsystems = Some rd -> Forall instance_ok gs ->
  config_ok (base_section_of name b :: (redsocks_section_of <$> gs)).
Proof.
  intros [H1 H2 H3 H4 H5 H6] Hr Hg. constructor.
  - split; [done|]. cbn [base_section_of snd]. repeat apply Forall_cons_2; try apply Forall_nil_2; (apply entry_plain; [done|]);
      try (apply plain_fmt; lia). apply plain_name. cbn in Hr. unfold strcmp_eq in Hr.
    case_bool_decide as E1; [by rewrite E1|]. by case_bool_decide as E2; [rewrite E2|].
  - apply Forall_fmap. eapply Forall_impl; [exact Hg|]. apply redsocks_section_ok.
Qed.

End sections.

(** ** Theorems *)

(** The file printed for the settings of the base section and for a list of instances is
    read back as exactly these: every address, port, type, login, password and option, with
    the instances in the reverse order of the file, as the list keeps them. *)
Theorem instances_read_back {P : Platform} {H : Host} name rd b gs rnd :
  2 ^ 32 - 1 <= ULONG_MAX -> base_ok b -> by_name name redirector_subsystems = Some rd -> Forall instance_ok gs ->
  parser_run conf_sections (file_of name b gs) unconfigured rnd =
    Ran true (mk_conf (base_of name rd b) None (rev ((fun x => fresh_instance x.1 x.2) <$> gs))).
Proof.
  intros HM Hb Hr Hg. unfold file_of. rewrite run_config by by eapply file_ok.
  rewrite (configure_base HM name rd b) by done. rewrite configure_instances by done. by rewrite app_nil_r.
Qed.

(** The process [main] starts with what was read; [fds] are the descriptors it inherited. *)
Definition process_of (c : conf) (fds : gset Z) : world :=
  mk_world ∅ (cf_instances c) 0 0 None (b_config (cf_base c)) fds 1 0 [] [] [] [].

(** A file for supported instances, with a connection limit and without dropping of idle
    clients, is accepted and gives a process that satisfies what the theorems on the event
    loop require at the start. *)
Theorem file_starts_process {P : Platform} {H : Host} name rd b gs rnd fds :
  2 ^ 32 - 1 <= ULONG_MAX -> base_ok b -> by_name name redirector_subsystems = Some rd -> Forall instance_ok gs ->
  Forall (fun x => supported x.1 x.2) gs -> connpres_idle_timeout b = 0 -> 0 < redsocks_conn_max b ->
  exists c, parser_run conf_sections (file_of name b gs) unconfigured rnd = Ran true c /\ configured (process_of c fds) /\
    length (cf_instances c) = length gs.
Proof.
  intros HM Hb Hr Hg Hs Hi Hm.
  exists (mk_conf (base_of name rd b) None (rev ((fun x => fresh_instance x.1 x.2) <$> gs))). split_and!.
  - unfold file_of. rewrite run_config by by eapply file_ok.
    rewrite (configure_base HM name rd b) by done. rewrite configure_instances by done. by rewrite app_nil_r.
  - pose proof (bo_conn _ Hb). pose proof (bo_backoff _ Hb). split; [|cbn; lia]. split; cbn; [done| |split; [done|lia]|intros fd; apply not_elem_of_nil].
    intros n i Hn. apply list_elem_of_lookup_2 in Hn. rewrite list_elem_of_In, <-in_rev, <-list_elem_of_In, list_elem_of_fmap in Hn.
    destruct Hn as ([g ss] & -> & Hin). rewrite Forall_forall in Hs. specialize (Hs _ Hin). done.
  - cbn. by rewrite length_rev, length_fmap.
Qed.

(** ** A 64-bit phone *)

#[local] Instance phone : Platform := {| ULONG_MAX := 2 ^ 64 - 1; getaddrinfo := fun _ => None |}.
#[local] Instance kernel : Host := {| uname_release := Some (lit "4.14.116-perf"); SOMAXCONN := 128 |}.

Definition some_addr (p : bytes) : sockaddr_in := mk_sockaddr [127; 0; 0; 1] p.
(** A SOCKS5 proxy with a password that needs escapes, without splice. *)
Definition some_instance : redsocks_config * relay_subsys :=
  (mk_config (some_addr [32; 8]) (some_addr [4; 56]) (Some (lit "socks5")) (Some (lit "me")) (Some [34; 10; 92]) 128 false
     DISCLOSE_NONE ONFAIL_CLOSE, socks5_subsys).
Definition some_base : base_config := mk_base 100 0 60000 0 0 7200.

Lemma some_instance_ok : instance_ok some_instance.
Proof.
  split; cbn; try (by right); try lia; try done.
  all: try (split_and!; [done|by apply (bool_decide_unpack _)|done|by apply (bool_decide_unpack _)]).
  all: split; [by apply (bool_decide_unpack _)|by apply (bool_decide_unpack _)].
Qed.
Lemma some_base_ok : base_ok some_base.
Proof. split; cbn; lia. Qed.

Lemma instances_read_back_witness :
  parser_run conf_sections (file_of (lit "iptables") some_base [some_instance]) unconfigured [] =
    Ran true (mk_conf (base_of (lit "iptables") redir_iptables some_base) None [fresh_instance some_instance.1 socks5_subsys]).
Proof.
  apply (instances_read_back (lit "iptables") redir_iptables some_base [some_instance] []); [cbn; lia|apply some_base_ok|done|].
  constructor; [apply some_instance_ok|constructor].
Defined.

Lemma file_starts_process_witness :
  exists c, parser_run conf_sections (file_of (lit "iptables") some_base [some_instance]) unconfigured [] = Ran true c /\
    configured (process_of c {[0; 1; 2]}) /\ length (cf_instances c) = 1%nat.
Proof.
  apply (file_starts_process (lit "iptables") redir_iptables some_base [some_instance] [] {[0; 1; 2]});
    [cbn; lia|apply some_base_ok|done|constructor; [apply some_instance_ok|constructor]| |done|cbn; lia].
  constructor; [by split_and!|constructor].
Defined.

(** The file the application writes: it leaves [splice] and [connpres_idle_timeout] to their
    defaults, so the relay runs with both. *)
Definition app_file : bytes :=
  concat ((fun l => lit l ++ [10]) <$>
    ["base {"; " log_debug = off;"; " log_info = off;"; " log = stderr;"; " daemon = off;"; " redirector = iptables;"; "}";
     "redsocks {"; " local_ip = 127.0.0.1;"; " local_port = 8200;"; " ip = 127.0.0.1;"; " port = 1080;"; " type = socks5;"; "}"]%string).

Example app_file_settings :
  exists c g, parser_run conf_sections app_file unconfigured [] = Ran true c /\ cf_instances c = [fresh_instance g socks5_subsys] /\
    bindaddr g = some_addr [32; 8] /\ relayaddr g = some_addr [4; 56] /\ use_splice g = true /\
    connpres_idle_timeout (b_config (cf_base c)) = 7440.
Proof. eexists _, _. split; [vm_compute; reflexivity|]. repeat split. Qed.

End Config.
