(* ===== verification/Typing.v ===== *)
(** * What a configuration file can leave

    An invariant rule for the parser: what the callbacks and value parsers of the sections
    keep true of the program holds when [parser_run] succeeds, whatever the file. With it,
    every accepted file leaves settings of the types of redsocks.h and base.c: ports and
    addresses of their sizes, numbers within their widths, instances that have not been
    used, and a redirector. *)

From S2P Require Import Prelude CLib World Parser Ownership Lifecycle Config.
Import Parser Ownership Config.
Open Scope Z_scope.

Module Typing.

(** ** The invariant rule *)

Section rule.
Context {P : Platform} {T : Type} (sections : list (parser_section T)).

(** What holds between sections, and inside one. *)
Context (Out : T -> Prop) (In : parser_section T -> T -> Prop).

Definition passes_to (f : option (T -> T * bool)) (A B : T -> Prop) : Prop :=
  forall s, A s -> match f with
                   | None => B s
                   | Some f => let '(s', ok) := f s in ok = true -> B s'
                   end.

Class Guarded : Prop := {
  gd_enter : forall sec, sec ∈ sections -> passes_to (sec_onenter sec) Out (In sec);
  gd_exit : forall sec, sec ∈ sections -> passes_to (sec_onexit sec) (In sec) Out;
  gd_store : forall sec key ty rnd token v s, sec ∈ sections -> by_name key (sec_entries sec) = Some ty ->
    value_parser_by_type ty rnd token = (Some v, true) -> In sec s -> In sec (sec_store sec key v s) }.

Lemma find_section_in name sec : find_section sections name = Some sec -> sec ∈ sections.
Proof.
  unfold find_section. induction sections as [|x l IH]; cbn; [done|]. destruct (strcmp_eq name (sec_name x)).
  - intros [= ->]. by left.
  - intros H. right. by apply IH.
Qed.

Context {G : Guarded}.

(** The state of the parser between two tokens. *)
Definition held (p : pstate T) : Prop :=
  p_error p = true \/
  match p_section p with None => Out (p_app p) | Some sec => sec ∈ sections /\ In sec (p_app p) end.

Lemma held_error p : held (parser_error p).
Proof. by left. Qed.

Lemma held_same p p' :
  p_error p' = p_error p -> p_section p' = p_section p -> p_app p' = p_app p -> held p -> held p'.
Proof. unfold held. by intros -> -> ->. Qed.

Lemma held_open p : held p -> held (on_open sections p).
Proof.
  intros Hp. unfold on_open. destruct (p_section p) as [|] eqn:Hs; [apply held_error|].
  destruct (p_section_token p) as [name|]; [|apply held_error].
  destruct (find_section sections name) as [sec|] eqn:Hf; [|by left].
  pose proof (find_section_in _ _ Hf) as Hin. destruct Hp as [He|Hp]; [left|rewrite Hs in Hp].
  - unfold call. destruct (sec_onenter sec) as [f|]; [|done]. destruct (f _) as [s []]; [done|done].
  - pose proof (gd_enter _ Hin _ Hp) as H. unfold call. destruct (sec_onenter sec) as [f|]; [|by right].
    cbn. destruct (f (p_app p)) as [s []]; [right; split; [done|by apply H]|by left].
Qed.

Lemma held_close p : held p -> held (on_close p).
Proof.
  intros Hp. unfold on_close. destruct (p_section p) as [sec|] eqn:Hs; [|apply held_error].
  destruct Hp as [He|Hp]; [left|rewrite Hs in Hp; destruct Hp as [Hin Hp]].
  - unfold call. destruct (sec_onexit sec) as [f|]; [|done]. destruct (f _) as [s []]; [done|done].
  - pose proof (gd_exit _ Hin _ Hp) as H. unfold call. destruct (sec_onexit sec) as [f|]; [|by right].
    destruct (f (p_app p)) as [s []]; [right; by apply H|by left].
Qed.

Lemma held_assign sec key v p : p_section p = Some sec -> held p -> held (assign sec key v p).
Proof.
  intros Hs Hp. unfold assign. destruct (by_name key (sec_entries sec)) as [ty|] eqn:Hty; [|apply held_error].
  destruct (if draws ty v then _ else _) as [rnd r].
  destruct (value_parser_by_type ty rnd v) as [[x|] []] eqn:Hv; try by left.
  - destruct Hp as [He|Hp]; [by left|]. rewrite Hs in Hp. destruct Hp as [Hin Hp]. right. cbn. rewrite Hs. split; [done|].
    by eapply gd_store.
  - by eapply held_same; [..|exact Hp].
Qed.

Lemma held_token t p p' : on_token sections t p = Some p' -> held p -> held p'.
Proof.
  intros H Hp. unfold on_token in H. repeat case_match; simplify_eq; [by apply held_open|by apply held_close|..].
  - unfold on_assign. repeat case_match; by first [apply held_error|done].
  - unfold on_semicolon in H. destruct (p_section p) as [sec|] eqn:Hs; [|injection H as <-; by left].
    destruct (p_key_token p) as [key|]; [|done]. destruct (p_value_token p) as [v|]; injection H as <-; [|by left].
    by eapply held_same; [..|apply (held_assign sec key v p Hs Hp)].
  - unfold on_word. repeat case_match; try apply held_error; by eapply held_same; [..|exact Hp].
Qed.

Lemma held_scan fuel pre rest null p rest' null' p' :
  scan_tokens sections fuel pre rest null p = sc_done rest' null' p' -> held p -> held p'.
Proof.
  revert pre rest null p. induction fuel as [|fuel IH]; intros pre rest null p; cbn [scan_tokens];
    (destruct (p_error p || p_in_comment p); [by intros [= <- <- <-]|]); [done|].
  destruct (gettoken rest); [|by intros [= <- <- <-]|intros [= <- <- <-] _; apply held_error].
  repeat case_match; try done.
  - apply IH.
  - intros Hsc Hp. eapply IH; [exact Hsc|]. by eapply held_same; [..|exact Hp].
  - intros Hsc Hp. eapply IH; [exact Hsc|]. by eapply held_token.
Qed.

Lemma held_body l p l' p' : body sections l p = goes_on l' p' -> held p -> held p'.
Proof.
  assert (Hbuf : forall l data p l' p', scan_buffer sections l data p = goes_on l' p' -> held p -> held p').
  { intros k data q k' q'. unfold scan_buffer. destruct (scan_tokens _ _ _ _ _ _) eqn:E; [|done..].
    intros [= _ <-]. by eapply held_scan. }
  assert (Hproc : forall l p l' p', process sections l p = goes_on l' p' -> held p -> held p').
  { intros k q k' q'. unfold process. destruct (p_in_comment q); [|apply Hbuf]. destruct (strstr _ _).
    - intros H Hq. eapply Hbuf; [exact H|]. by eapply held_same; [..|exact Hq].
    - by intros [= _ <-]. }
  unfold body. repeat case_match; try done; try (by intros [= _ <-]); apply Hproc.
Qed.

Lemma finish_ok (p : pstate T) :
  p_error (finish p) = false -> p_error p = false /\ p_section p = None /\ p_app (finish p) = p_app p.
Proof. destruct p as [e [sec|] [t|] [k|] [v|] cm a r]; cbn; done. Qed.

Lemma parser_loop_held fuel l p s' : parser_loop sections fuel l p = Ran true s' -> held p -> Out s'.
Proof.
  assert (Hret : forall p, returned p = Ran true s' -> held p -> Out s').
  { intros q. unfold returned. cbv zeta. intros [= He <-] Hq. apply negb_true_iff in He.
    destruct (finish_ok q He) as (E1 & E2 & ->). destruct Hq as [Hq|Hq]; [congruence|]. by rewrite E2 in Hq. }
  revert l p. induction fuel as [|fuel IH]; intros l p; cbn [parser_loop]; (destruct (p_error p || l_feof l); [apply Hret|]); [done|].
  destruct (body sections l p) as [l1 p1| |] eqn:E; [|done..]. intros H Hp. eapply IH; [exact H|]. by eapply held_body.
Qed.

Lemma parser_run_holds file s rnd s' : parser_run sections file s rnd = Ran true s' -> Out s -> Out s'.
Proof. intros H Hs. eapply parser_loop_held; [exact H|]. by right. Qed.

End rule.

(** ** Types of the values *)

Definition ip_typed (a : bytes) : Prop := length a = 4%nat /\ is_bytes a.

Definition value_typed (v : value) : Prop :=
  match v with
  | v_uint16 z => 0 <= z < 2 ^ 16
  | v_uint32 z => 0 <= z < 2 ^ 32
  | v_in_addr a => ip_typed a
  | _ => True
  end.

(** What the system library promises: an [unsigned long] is not negative, and resolving a
    name yields IPv4 addresses. *)
Class PlatformTyped (P : Platform) : Prop := {
  pt_ulong : 0 <= ULONG_MAX;
  pt_resolved : forall name a more, getaddrinfo name = Some (a, more) -> Forall ip_typed (a :: more) }.

Section typed.
Context {P : Platform} {HP : PlatformTyped P} {H : Host}.

Lemma number_value_pos base l : 0 <= base -> Forall (fun c => is_digit_of base c = true) l -> 0 <= number_value base l.
Proof.
  intros Hb. induction l as [|c l IH] using rev_ind; [done|]. rewrite Forall_app, Forall_singleton. intros [Hl Hc].
  rewrite number_value_snoc. specialize (IH Hl). unfold is_digit_of in Hc. nia.
Qed.

Lemma strtoul_range token : 0 <= fst (strtoul ULONG_MAX token) <= ULONG_MAX.
Proof.
  pose proof pt_ulong as Hu. unfold strtoul. cbv zeta. destruct (match skip isspace token with 45 :: t => _ | _ => _ end) as [neg t].
  destruct (strtoul_base t) as [base t'] eqn:Hb. assert (0 <= base).
  { unfold strtoul_base in Hb. repeat case_match; simplify_eq; lia. }
  destruct (span (is_digit_of base) t') as [digits rest] eqn:Hs. destruct digits as [|d digits]; [cbn; lia|].
  assert (Hv : 0 <= number_value base (d :: digits)).
  { apply number_value_pos; [done|]. by apply span_spec in Hs as (_ & ? & _). }
  cbn [fst]. destruct (Z.gtb_spec (number_value base (d :: digits)) ULONG_MAX); [lia|].
  destruct neg; [|lia]. pose proof (Z.mod_pos_bound (- number_value base (d :: digits)) (ULONG_MAX + 1)). lia.
Qed.

Lemma be_bytes_typed v : ip_typed (be_bytes 4 v).
Proof.
  unfold be_bytes. split; [by rewrite length_rev, length_le_bytes|]. apply Forall_rev, le_bytes_are_bytes.
Qed.

Lemma value_parser_typed ty rnd token v ok : value_parser_by_type ty rnd token = (Some v, ok) -> value_typed v.
Proof.
  pose proof (strtoul_range token) as Hr. destruct ty; cbn [value_parser_by_type].
  - unfold vp_pbool. repeat case_match; intros [= <- <-]; done.
  - by intros [= <- <-].
  - unfold vp_uint16. destruct (strtoul ULONG_MAX token) as [uli e]. cbn in Hr.
    destruct (Z.gtb_spec uli 0xFFFF); [done|]. destruct e; [|done]. intros [= <- <-]. cbn. lia.
  - unfold vp_uint32. destruct (strtoul ULONG_MAX token) as [uli e]. destruct e; [|done]. intros [= <- <-]. apply u32_range.
  - unfold vp_in_addr. destruct (inet_aton ULONG_MAX token) as [ia|] eqn:E.
    { intros [= <- <-]. unfold inet_aton in E. destruct (aton_parts _ _ _); [|done]. cbn in E.
      destruct (aton_value _); [|done]. injection E as <-. apply be_bytes_typed. }
    destruct (getaddrinfo token) as [[a more]|] eqn:Eg; [|done]. intros [= <- <-]. pose proof (pt_resolved _ _ _ Eg) as Hf.
    rewrite Forall_forall in Hf. set (n := Z.to_nat _). assert (Hin : List.In (nth n (a :: more) a) (a :: more)).
    { destruct (decide (n < length (a :: more))%nat) as [Hn|Hn]; [by apply nth_In|]. rewrite nth_overflow by lia. by left. }
    by apply Hf, list_elem_of_In.
  - unfold vp_in_addr2. repeat case_match; intros [= <- <-]; done.
  - unfold vp_disclose_src. repeat case_match; intros [= <- <-]; done.
  - unfold vp_on_proxy_fail. repeat case_match; intros [= <- <-]; done.
  - done.
  - done.
Qed.

(** ** Types of the settings *)

Record config_typed (g : redsocks_config) : Prop := {
  ct_bind : addr_ok (bindaddr g);
  ct_relay : addr_ok (relayaddr g);
  ct_listenq : 0 <= listenq g < 2 ^ 16 }.

(** An instance nobody has used, of the type its section names; the options of http-connect
    are given to it only. *)
Definition instance_typed (i : redsocks_instance) : Prop :=
  exists g ss, i = fresh_instance g ss /\ config_typed g /\ cfg_type g = Some (subsys_name ss) /\
    (ss = http_connect_subsys \/ disclose_src g = DISCLOSE_NONE /\ on_proxy_fail g = ONFAIL_CLOSE).

Record base_typed (b : base_instance) : Prop := {
  bt_rlimit : 0 <= b_rlimit_nofile b < 2 ^ 32;
  bt_max : 0 <= redsocks_conn_max (b_config b) < 2 ^ 32;
  bt_idle : 0 <= connpres_idle_timeout (b_config b) < 2 ^ 32;
  bt_backoff : 0 <= max_accept_backoff_ms (b_config b) < 2 ^ 32;
  bt_time : 0 <= tcp_keepalive_time (b_config b) < 2 ^ 16;
  bt_probes : 0 <= tcp_keepalive_probes (b_config b) < 2 ^ 16;
  bt_intvl : 0 <= tcp_keepalive_intvl (b_config b) < 2 ^ 16 }.

(** A base section that was left has a redirector and a delay. *)
Definition base_complete (b : base_instance) : Prop :=
  b_configured b = true -> is_Some (b_redirector b) /\ 0 < max_accept_backoff_ms (b_config b).

Record conf_typed (c : conf) : Prop := {
  cn_data : cf_data c = None;
  cn_instances : forall i, i ∈ cf_instances c -> instance_typed i;
  cn_base : base_typed (cf_base c);
  cn_complete : base_complete (cf_base c) }.

(** Inside a section. *)
Definition conf_inside (sec : parser_section conf) (c : conf) : Prop :=
  (forall i, i ∈ cf_instances c -> instance_typed i) /\ base_typed (cf_base c) /\
  if bool_decide (sec_name sec = lit "redsocks")
  then base_complete (cf_base c) /\ exists g, cf_data c = Some g /\ config_typed g
  else cf_data c = None.

Lemma store_config_typed key v g : value_typed v -> config_typed g -> config_typed (store_config key v g).
Proof.
  intros Hv [(B1 & B2 & B3 & B4) (R1 & R2 & R3 & R4) Hq].
  destruct v as [| |z|z|a| | |]; cbn in Hv |- *; repeat case_match; split; cbn; try done; unfold addr_ok; cbn; try done;
    try (split_and!; try done; by destruct Hv); try lia; split_and!; try done; apply (le_bytes_are_bytes 2 z).
Qed.

Lemma base_store_typed key v b : value_typed v -> base_typed b -> base_typed (base_store_field key v b).
Proof. intros Hv Hb. destruct Hb. destruct v; cbn in Hv |- *; repeat case_match; split; cbn; done || lia. Qed.

Lemma htons_ok a : addr_ok a -> addr_ok (htons_port a).
Proof.
  intros (? & ? & ? & ?). unfold addr_ok. cbn. rewrite length_rev. split_and!; try done. by apply Forall_rev.
Qed.

Lemma redsocks_onexit_typed c g c' :
  cf_data c = Some g -> config_typed g -> (forall i, i ∈ cf_instances c -> instance_typed i) ->
  base_typed (cf_base c) -> base_complete (cf_base c) -> redsocks_onexit c = (c', true) -> conf_typed c'.
Proof.
  intros Hg [Hb Hr Hq] Hi Hbt Hbc. unfold redsocks_onexit. rewrite Hg. cbv zeta.
  cbn [cfg_type bindaddr relayaddr login password listenq use_splice disclose_src on_proxy_fail cf_base cf_instances].
  destruct (t ← cfg_type g; by_name t _) as [ss|] eqn:Et; [|done].
  destruct (cfg_type g) as [t|] eqn:Ety; [|done]. cbn in Et.
  assert (Hname : t = subsys_name ss).
  { cbn in Et. unfold strcmp_eq in Et. by repeat case_bool_decide; simplify_eq. }
  set (g' := mk_config _ _ _ _ _ _ _ _ _).
  assert (Hty : (ss = http_connect_subsys \/ disclose_src g = DISCLOSE_NONE /\ on_proxy_fail g = ONFAIL_CLOSE) ->
            conf_typed (mk_conf (cf_base c) None (fresh_instance g' ss :: cf_instances c))).
  { intros Hopt. split; try done. cbn. intros i [->|?]%elem_of_cons; [|auto]. exists g', ss. split_and!; try done.
    - split; [by apply htons_ok|by apply htons_ok|done].
    - cbn. congruence. }
  destruct (bool_decide (ss = http_connect_subsys)) eqn:Ess.
  { rewrite !andb_false_r. intros [= <-]. apply Hty. left. by eapply bool_decide_eq_true. }
  rewrite !andb_true_r. destruct (bool_decide (disclose_src g = DISCLOSE_NONE)) eqn:Ed; [|done].
  destruct (bool_decide (on_proxy_fail g = ONFAIL_CLOSE)) eqn:Ef; [|done]. cbn. intros [= <-]. apply Hty. right.
  split; by eapply bool_decide_eq_true.
Qed.

Lemma base_onexit_typed c c' :
  (forall i, i ∈ cf_instances c -> instance_typed i) -> base_typed (cf_base c) -> cf_data c = None ->
  base_onexit c = (c', true) -> conf_typed c'.
Proof.
  intros Hi Hb Hd. unfold base_onexit. cbv zeta. destruct (Z.eqb_spec (max_accept_backoff_ms (b_config (cf_base c))) 0) as [|Hne]; [done|].
  destruct (b_redirector_name (cf_base c)) as [n|]; [|done]. destruct (by_name n redirector_subsystems) as [r|]; [|done].
  intros [= <-]. destruct Hb as [? ? ? ? ? ? ?]. split; try done. intros _. cbn. split; [by eexists|lia].
Qed.

#[export] Instance sections_guarded : Guarded conf_sections conf_typed conf_inside.
Proof.
  split.
  - intros sec Hin c [Hd Hi Hb Hc]. unfold conf_sections, parser_add_section in Hin.
    rewrite !elem_of_cons, elem_of_nil in Hin. destruct Hin as [-> |[-> |[]]]; cbn.
    + unfold base_onenter. destruct (b_configured (cf_base c)); [done|]. intros _. split_and!; try done; split; cbn; lia.
    + intros _. split; [done|]. split; [done|]. split; [done|]. exists redsocks_defaults. split; [done|]. split; [| |apply u16_range];
        (split_and!; [done|by apply (bool_decide_unpack _)|done|by apply (bool_decide_unpack _)]).
  - intros sec Hin c (Hi & Hb & Hsec). unfold conf_sections, parser_add_section in Hin.
    rewrite !elem_of_cons, elem_of_nil in Hin. destruct Hin as [-> |[-> |[]]].
    + destruct (sec_onexit base_conf_section) as [f|] eqn:Ef; [|done]. injection Ef as <-.
      destruct (base_onexit c) as [c' ok] eqn:E. intros ->. by eapply base_onexit_typed.
    + destruct (sec_onexit redsocks_conf_section) as [f|] eqn:Ef; [|done]. injection Ef as <-.
      destruct (redsocks_onexit c) as [c' ok] eqn:E. intros ->. destruct Hsec as (Hc & g & Hg & Hgt).
      by eapply redsocks_onexit_typed.
  - intros sec key ty rnd token v c Hin _ Hv%value_parser_typed (Hi & Hb & Hsec). unfold conf_sections, parser_add_section in Hin.
    rewrite !elem_of_cons, elem_of_nil in Hin. destruct Hin as [-> |[-> |[]]].
    + split_and!; [done|by apply base_store_typed|done].
    + destruct Hsec as (Hc & g & Hg & Hgt). split_and!; [done|done|]. split; [done|]. exists (store_config key v g).
      split; [cbn; by rewrite Hg|by apply store_config_typed].
Qed.

Lemma parser_run_typed text rnd c : parser_run conf_sections text unconfigured rnd = Ran true c -> conf_typed c.
Proof.
  intros Hrun. eapply parser_run_holds; [apply _|exact Hrun|].
  split; [done|intros i Hi; by apply not_elem_of_nil in Hi|by split; cbn; lia|done].
Qed.

(** C37: Whatever the file, settings that [parser_run] accepts are well-typed: every address
    has four bytes and every port two, numbers are within the widths of their fields
    ([listenq] and the keep-alive settings below 2^16, the others below 2^32), options of
    http-connect belong to it only, each instance is fresh and of the type its section
    names, and a configured base section has a redirector and a nonzero
    [max_accept_backoff_ms]. *)
Theorem accepted_file_typed text rnd c :
  parser_run conf_sections text unconfigured rnd = Ran true c -> conf_typed c.
Proof. apply parser_run_typed. Qed.

End typed.

#[local] Existing Instance phone.
#[local] Existing Instance kernel.

#[export] Instance phone_typed : PlatformTyped phone.
Proof. split; [cbn; lia|done]. Qed.

Lemma accepted_file_typed_witness : exists c, parser_run conf_sections app_file unconfigured [] = Ran true c /\ conf_typed c.
Proof.
  eexists. split; [vm_compute; reflexivity|]. refine (accepted_file_typed (H := kernel) app_file [] _ _); vm_compute; reflexivity.
Defined.

End Typing.
