(* ===== verification/Startup.v ===== *)
(** * The process: main.c, base.c, log.c

    [main] reads the configuration, initialises the subsystems in their order, runs the
    event loop and finishes the subsystems it initialised in the opposite order. The base
    subsystem computes the connection limit, gives up the privileges of the process and
    turns it into a daemon; log.c chooses where messages go. The theorems follow the
    process from its command line to its exit code. *)

From S2P Require Import Prelude CLib MD5 EvBuffer HttpAuth World Parser HttprBuffer Redsocks Ownership ClientLogic Flow.
From S2P Require Import Splice Accept EventLoop Lifecycle SplicePump Settings Config Typing.
Import EvBuffer Redsocks Ownership Flow Splice Accept EventLoop Lifecycle Settings Config Typing.
Open Scope Z_scope.

Module Startup.

(** ** State *)

Definition LOG_ERR : Z := 3.
Definition LOG_WARNING : Z := 4.
Definition LOG_NOTICE : Z := 5.
Definition LOG_INFO : Z := 6.
Definition LOG_DEBUG : Z := 7.

Inductive log_func := stderr_msg | logfile_msg | syslog_msg.

(** The static variables of log.c, and what [openlog] and [setlogmask] set. *)
Record log_state := mk_log {
  log_msg : option log_func;
  log_msg_next : option log_func;
  should_log_info : bool;
  should_log_debug : bool;
  syslog_facility : option Z;
  syslog_mask : Z;
  logfile : option Z            (* the descriptor of the stream *) }.

Definition log_initial : log_state := mk_log (Some stderr_msg) None true false None 0xff None.

(** The calls that change what the process may do, in their order. *)
Inductive call :=
| c_setrlimit (n : Z)
| c_chroot (dir : bytes)
| c_chdir_root
| c_setgid (gid : Z)
| c_setuid (uid : Z)
| c_fork
| c_setsid
| c_dup2 (fd : Z).

Record process := mk_process {
  p_world : world;
  p_base : base_instance;
  p_log : log_state;
  p_signals : list Z;           (* signals that end the event loop *)
  p_calls : list call }.

Definition p_set_world w p := mk_process w (p_base p) (p_log p) (p_signals p) (p_calls p).
Definition p_set_base b p := mk_process (p_world p) b (p_log p) (p_signals p) (p_calls p).
Definition p_set_log l p := mk_process (p_world p) (p_base p) l (p_signals p) (p_calls p).
Definition p_set_signals l p := mk_process (p_world p) (p_base p) (p_log p) l (p_calls p).
Definition p_add_call c p := mk_process (p_world p) (p_base p) (p_log p) (p_signals p) (p_calls p ++ [c]).

Definition w_set_base b (w : world) : world :=
  mk_world (w_clients w) (w_instances w) (redsocks_conn w) (accept_backoff_ms w) (accept_backoff_ev w)
    b (w_open w) (w_next_client w) (w_clock w) (w_ticks w) (w_answers w) (w_random w) (w_trace w).

(** The world with the settings of the base instance. *)
Definition seen (p : process) : world := w_set_base (b_config (p_base p)) (p_world p).

(** ** The monad of the process: it goes on, exits, or aborts *)

Inductive presult (A : Type) :=
| Done (a : A) (p : process)
| Exited (code : Z) (p : process)
| Crashed.
Arguments Done {A} a p.
Arguments Exited {A} code p.
Arguments Crashed {A}.

Definition P (A : Type) : Type := process -> presult A.

#[export] Instance P_ret : MRet P := fun A a p => Done a p.
#[export] Instance P_bind : MBind P := fun A B f m p =>
  match m p with
  | Done a p => f a p
  | Exited code p => Exited code p
  | Crashed => Crashed
  end.

Definition pget : P process := fun p => Done p p.
Definition pmodify (f : process -> process) : P unit := fun p => Done tt (f p).
Definition exit {A} (code : Z) : P A := fun p => Exited code p.
Definition lift {A} (m : M A) : P A := fun p =>
  match m (seen p) with Ok a w => Done a (p_set_world w p) | _ => Crashed end.

Definition EXIT_SUCCESS : Z := 0.
Definition EXIT_FAILURE : Z := 1.

(** A call that can fail; it is recorded when it succeeds. *)
Definition privileged (c : call) : P bool :=
  ok ← lift try_call;
  if ok : bool then pmodify (p_add_call c) ;; mret true else mret false.

Inductive fork_result := fork_child | fork_parent | fork_error.

(** What the system answers: user and group database, the soft limit of descriptors, on
    which side of [fork] the process goes on, files that can be read. *)
Class Os := {
  getpwnam : bytes -> option Z;
  getgrnam : bytes -> option Z;
  rlim_cur : Z;
  fork : fork_result;
  read_file : bytes -> option bytes }.

(** ** log.c *)

Definition should_log (priority : Z) (l : log_state) : bool :=
  (negb (priority =? LOG_DEBUG) && negb (priority =? LOG_INFO))
  || ((priority =? LOG_DEBUG) && should_log_debug l)
  || ((priority =? LOG_INFO) && should_log_info l).

Definition facilities : list (bytes * Z) :=
  [(lit "daemon", 24); (lit "local0", 128); (lit "local1", 136); (lit "local2", 144); (lit "local3", 152);
   (lit "local4", 160); (lit "local5", 168); (lit "local6", 176); (lit "local7", 184)].

Definition LOG_MASK (priority : Z) : Z := Z.shiftl 1 priority.

(** [dst] begins with [prefix]; the rest. *)
Definition after_prefix (prefix dst : bytes) : option bytes :=
  if bool_decide (take (length prefix) dst = prefix) then Some (drop (length prefix) dst) else None.

Definition set_next (f : log_func) (l : log_state) : log_state :=
  mk_log (log_msg l) (Some f) (should_log_info l) (should_log_debug l) (syslog_facility l) (syslog_mask l) (logfile l).
Definition set_logfile (f : option Z) (l : log_state) : log_state :=
  mk_log (log_msg l) (log_msg_next l) (should_log_info l) (should_log_debug l) (syslog_facility l) (syslog_mask l) f.

Definition masked (debug info : bool) (mask : Z) : Z :=
  let mask := if debug then mask else Z.land mask (Z.lnot (LOG_MASK LOG_DEBUG)) in
  if info then mask else Z.land mask (Z.lnot (LOG_MASK LOG_INFO)).

Definition log_preopen (dst : bytes) (debug info : bool) : P Z :=
  pmodify (fun p => let l := p_log p in
    p_set_log (mk_log (log_msg l) (log_msg_next l) info debug (syslog_facility l) (syslog_mask l) (logfile l)) p) ;;
  if bool_decide (dst = lit "stderr") then
    pmodify (fun p => p_set_log (set_next stderr_msg (p_log p)) p) ;; mret 0
  else match after_prefix (lit "syslog:") dst with
  | Some name =>
      match Parser.by_name name facilities with
      | None => mret (-1)
      | Some facility =>
          pmodify (fun p => let l := p_log p in
            p_set_log (mk_log (log_msg l) (Some syslog_msg) (should_log_info l) (should_log_debug l)
                         (Some facility) (masked debug info (syslog_mask l)) (logfile l)) p) ;;
          mret 0
      end
  | None =>
      match after_prefix (lit "file:") dst with
      | Some filename =>
          r ← lift open_fd;
          match r with
          | inr _ => pmodify (fun p => p_set_log (set_logfile None (p_log p)) p) ;; mret (-1)
          | inl fd => pmodify (fun p => p_set_log (set_next logfile_msg (set_logfile (Some fd) (p_log p))) p) ;; mret 0
          end
      | None => mret (-1)
      end
  end.

Definition log_open : P unit :=
  pmodify (fun p => let l := p_log p in
    p_set_log (mk_log (log_msg_next l) None (should_log_info l) (should_log_debug l) (syslog_facility l) (syslog_mask l)
      (logfile l)) p).

(** Where [_log_write] sends a message: nowhere, to a function, or through a NULL pointer. *)
Inductive sink := dropped_msg | sent_to (f : log_func) | null_call.

Definition log_write (priority : Z) (l : log_state) : sink :=
  if negb (should_log priority l) then dropped_msg
  else match log_msg l with Some f => sent_to f | None => null_call end.

(** ** base.c *)

Section base.
Context {O : Os}.

Definition b_set_rlimit n (b : base_instance) : base_instance :=
  mk_base_instance (b_configured b) (b_chroot b) (b_user b) (b_group b) (b_redirector_name b) (b_redirector b)
    (b_log_name b) (b_log_debug b) (b_log_info b) (b_daemon b) n (b_config b).
Definition b_set_conn_max n (b : base_instance) : base_instance :=
  let g := b_config b in
  mk_base_instance (b_configured b) (b_chroot b) (b_user b) (b_group b) (b_redirector_name b) (b_redirector b)
    (b_log_name b) (b_log_debug b) (b_log_info b) (b_daemon b) (b_rlimit_nofile b)
    (mk_base n (connpres_idle_timeout g) (max_accept_backoff_ms g) (tcp_keepalive_time g) (tcp_keepalive_probes g)
       (tcp_keepalive_intvl g)).

Definition crash {A} : P A := fun _ => Crashed.

(** The redirectors of this build have neither [init] nor [fini]. *)
Definition redirector_hook : P unit :=
  p ← pget;
  match b_redirector (p_base p) with Some _ => mret tt | None => crash end.

(** [free] of the strings and [memset] *)
Definition zeroed : base_instance := cf_base unconfigured.

Definition base_fini : P Z :=
  redirector_hook ;;
  pmodify (p_set_base zeroed) ;;
  mret 0.

(** A name that is given must be known; [Some (-1)] when none is given. *)
Definition account (find : bytes -> option Z) (name : option bytes) : option Z :=
  match name with None => Some (-1) | Some n => find n end.

Definition log_name (b : base_instance) : bytes :=
  match b_log_name b with
  | Some n => n
  | None => if b_daemon b then lit "syslog:daemon" else lit "stderr"
  end.

(** The limit of descriptors: set, or asked for; [uint32_t] keeps its low bits. *)
Definition base_rlimit : P bool :=
  p ← pget;
  let n := b_rlimit_nofile (p_base p) in
  if negb (n =? 0) then privileged (c_setrlimit n)
  else
    ok ← lift try_call;                                (* getrlimit *)
    if ok : bool then pmodify (fun p => p_set_base (b_set_rlimit (u32 rlim_cur) (p_base p)) p) ;; mret true
    else mret false.

(** Descriptors a connection needs: two sockets, and two pipes with splice. *)
Definition fds_per_client (instances : list redsocks_instance) : Z :=
  if redsocks_has_splice_instance instances then 6 else 2.

Definition conn_max_of (n : Z) (instances : list redsocks_instance) : Z := (n - n / 4) / fds_per_client instances.

Definition base_conn_max : P unit :=
  pmodify (fun p =>
    let b := p_base p in
    if redsocks_conn_max (b_config b) =? 0
    then p_set_base (b_set_conn_max (conn_max_of (b_rlimit_nofile b) (w_instances (p_world p))) b) p
    else p).

(** Runs a call only when it is configured. *)
Definition if_set (b : bool) (m : P bool) : P bool := if b then m else mret true.
Definition is_set {A} (o : option A) : bool := match o with Some _ => true | None => false end.

(** [dup2(devnull, fd)] *)
Definition dup2 (fd : Z) : P bool :=
  ok ← privileged (c_dup2 fd);
  if ok : bool then lift (modify (fun w => w_set_open ({[fd]} ∪ w_open w) w)) ;; mret true else mret false.

(** Stops at the first call that fails. *)
Fixpoint all_calls (l : list (P bool)) : P bool :=
  match l with
  | [] => mret true
  | m :: l => ok ← m; if ok : bool then all_calls l else mret false
  end.

(** From [chroot] to [setuid]. *)
Definition drop_privileges (b : base_instance) (uid gid : Z) : P bool :=
  all_calls
    [match b_chroot b with Some dir => privileged (c_chroot dir) | None => mret true end;
     if_set (b_daemon b || is_set (b_chroot b)) (privileged c_chdir_root);
     if_set (is_set (b_group b)) (privileged (c_setgid gid));
     if_set (is_set (b_user b)) (privileged (c_setuid uid))].

(** [fork]; the parent exits here. *)
Definition daemonize : P bool :=
  match fork with
  | fork_error => mret false
  | fork_child => pmodify (p_add_call c_fork) ;; mret true
  | fork_parent => exit EXIT_SUCCESS
  end.

Definition close_devnull (devnull : option Z) : P unit :=
  match devnull with Some fd => lift (close fd) ;; mret tt | None => mret tt end.

Definition base_fail (devnull : option Z) : P Z :=
  close_devnull devnull ;; base_fini ;; mret (-1).

(** After [/dev/null] was opened. *)
Definition base_detach (b : base_instance) (uid gid : Z) (devnull : option Z) : P Z :=
  ok ← drop_privileges b uid gid;
  if negb ok then base_fail devnull else
  ok ← if_set (b_daemon b) daemonize;
  if negb ok then base_fail devnull else
  log_open ;;
  ok ← if_set (b_daemon b) (all_calls [privileged c_setsid; dup2 0; dup2 1; dup2 2]);
  if negb ok then base_fail devnull else
  (if b_daemon b then close_devnull devnull else mret tt) ;;
  mret 0.

Definition base_init : P Z :=
  p ← pget;
  let b := p_base p in
  if negb (b_configured b) then mret (-1) else
  redirector_hook ;;
  match account getpwnam (b_user b) with None => base_fail None | Some uid =>
  match account getgrnam (b_group b) with None => base_fail None | Some gid =>
  e ← log_preopen (log_name b) (b_log_debug b) (b_log_info b);
  if e <? 0 then base_fail None else
  ok ← base_rlimit;
  if negb ok then base_fail None else
  base_conn_max ;;
  if b_daemon b then
    r ← lift open_fd;
    match r with
    | inr _ => base_fail None
    | inl fd => base_detach b uid gid (Some fd)
    end
  else base_detach b uid gid None
  end end.

End base.

(** ** main.c *)

Inductive subsystem := redsocks_subsys | base_subsys.
Definition subsystems : list subsystem := [redsocks_subsys; base_subsys].

(** What [getopt] yields: an option with its argument, or another character. *)
Inductive option_arg :=
| opt_t
| opt_c (arg : bytes)
| opt_p (arg : bytes)
| opt_v
| opt_other (c : Z).

Record options := mk_options { conftest : bool; confname : bytes; pidfile : option bytes }.

Definition no_options : options := mk_options false (lit "redsocks.conf") None.

(** [inr]: [main] prints something and returns. *)
Fixpoint read_options (args : list option_arg) (o : options) : options + Z :=
  match args with
  | [] => inl o
  | opt_t :: args => read_options args (mk_options true (confname o) (pidfile o))
  | opt_c a :: args => read_options args (mk_options (conftest o) a (pidfile o))
  | opt_p a :: args => read_options args (mk_options (conftest o) (confname o) (Some a))
  | opt_v :: _ => inr EXIT_SUCCESS
  | opt_other c :: _ => inr (if (c =? 63) || (c =? 104) then EXIT_SUCCESS else EXIT_FAILURE)   (* '?', 'h' *)
  end.

Definition SIGINT : Z := 2.
Definition SIGTERM : Z := 15.
Definition exit_signals : list Z := [SIGTERM; SIGINT].

Section main.
Context {O : Os} {Pl : Parser.Platform} {Ho : Host}.

Definition init (ss : subsystem) : P Z :=
  match ss with redsocks_subsys => lift redsocks_init | base_subsys => base_init end.
Definition fini (ss : subsystem) : P Z :=
  match ss with redsocks_subsys => lift redsocks_fini | base_subsys => base_fini end.

(** From [--ss] down to the first. *)
Fixpoint fini_all (l : list subsystem) : P unit :=
  match l with [] => mret tt | ss :: l => fini ss ;; fini_all l end.

(** From the label [shutdown]; [l] is what was initialised, the last first. *)
Definition shutdown {A} (l : list subsystem) (error : Z) : P A :=
  pmodify (p_set_signals []) ;;
  fini_all l ;;
  exit (if error =? 0 then EXIT_SUCCESS else EXIT_FAILURE).

Fixpoint init_subsystems (l done : list subsystem) : P unit :=
  match l with
  | [] => mret tt
  | ss :: l =>
      error ← init ss;
      if error =? 0 then init_subsystems l (ss :: done) else shutdown done error
  end.

Fixpoint add_signals (l : list Z) : P unit :=
  match l with
  | [] => mret tt
  | sig :: l =>
      ok ← lift try_call;                              (* signal_add *)
      if ok : bool then pmodify (fun p => p_set_signals (p_signals p ++ [sig]) p) ;; add_signals l
      else shutdown (rev subsystems) 0
  end.

(** The file is read into the static state of the sections. *)
Definition read_config (name : bytes) (rnd : list Z) : P unit :=
  match read_file name with
  | None => exit EXIT_FAILURE
  | Some text =>
      match Parser.parser_run conf_sections text unconfigured rnd with
      | Parser.Ran true c =>
          pmodify (fun p => p_set_base (cf_base c) (p_set_world (w_set_instances (cf_instances c) (p_world p)) p))
      | Parser.Ran false _ => exit EXIT_FAILURE
      | _ => crash
      end
  end.

(** [main] up to [event_dispatch]. *)
Definition main_start (args : list option_arg) (rnd : list Z) : P unit :=
  match read_options args no_options with
  | inr code => exit code
  | inl o =>
      read_config (confname o) rnd ;;
      if conftest o then exit EXIT_SUCCESS else
      init_subsystems subsystems [] ;;
      match pidfile o with
      | None => mret tt
      | Some _ => ok ← lift try_call; if ok : bool then mret tt else exit EXIT_FAILURE
      end ;;
      add_signals exit_signals
  end.

(** [main] after [event_dispatch], with the world the loop left. *)
Definition main_stop (w : world) : P unit :=
  pmodify (p_set_world w) ;;
  shutdown (rev subsystems) 0.

End main.

(** ** Reasoning about the process *)

(** The computation does not crash; what holds when it goes on, and when it exits. *)
Definition run {A} (m : P A) (Q : A -> process -> Prop) (E : Z -> process -> Prop) (p : process) : Prop :=
  match m p with Done a p => Q a p | Exited c p => E c p | Crashed => False end.

Lemma run_then {A B} (m : P A) (f : A -> P B) Q E p :
  run m (fun a => run (f a) Q E) E p -> run (x ← m; f x) Q E p.
Proof. unfold run, mbind, P_bind. by destruct (m p). Qed.
Lemma run_ret {A} (a : A) Q E p : Q a p -> run (mret a) Q E p.
Proof. done. Qed.
Lemma run_get Q E p : Q p p -> run pget Q E p.
Proof. done. Qed.
Lemma run_modify f Q E p : Q tt (f p) -> run (pmodify f) Q E p.
Proof. done. Qed.
Lemma run_exit {A} c (Q : A -> process -> Prop) E p : E c p -> run (exit c) Q E p.
Proof. done. Qed.
Lemma run_mono {A} (m : P A) Q Q' (E E' : Z -> process -> Prop) p :
  run m Q E p -> (forall a p, Q a p -> Q' a p) -> (forall c p, E c p -> E' c p) -> run m Q' E' p.
Proof. unfold run. destruct (m p); auto. Qed.
Lemma run_lift {A} (m : M A) (Q : A -> process -> Prop) E p :
  wp m (fun a w => Q a (p_set_world w p)) (seen p) -> run (lift m) Q E p.
Proof. unfold run, lift, wp. by destruct (m (seen p)). Qed.

(** What the set-up of the base subsystem leaves of the relay: everything it owns. *)
Record beside (w w' : world) : Prop := {
  bs_clients : w_clients w' = w_clients w;
  bs_instances : w_instances w' = w_instances w;
  bs_conn : redsocks_conn w' = redsocks_conn w;
  bs_backoff : accept_backoff_ev w' = accept_backoff_ev w;
  bs_next : w_next_client w' = w_next_client w;
  bs_open : forall fd, fd ∈ w_open w -> fd ∈ w_open w';
  bs_trace : forall fd, sys_ebadf fd ∈ w_trace w' -> sys_ebadf fd ∈ w_trace w }.

#[export] Instance beside_pre : PreOrder beside.
Proof.
  split; [by intros w; split|]. intros w1 w2 w3 [] []. split; try congruence; eauto.
Qed.

Lemma beside_fds w w' o : beside w w' -> fds_of w' o = fds_of w o.
Proof.
  intros H. destruct o as [id|n]; cbn; by rewrite ?(bs_clients _ _ H), ?(bs_instances _ _ H).
Qed.

Lemma beside_waiting w w' :
  beside w w' -> connpres_idle_timeout (w_base w') = 0 -> waiting w -> waiting w'.
Proof.
  intros H Hidle [[Hown Ho Hd Hin Hl Hc Hm Hn Ht Ha Hs Hi] Hset]. pose proof (fun o => beside_fds _ _ o H) as Hf.
  destruct H as [E1 E2 E3 E4 E5 E6 E7]. split.
  - split; try done; rewrite ?E1, ?E2, ?E3, ?E5; try done.
    + intros o. by rewrite Hf.
    + intros o fd. rewrite Hf. eauto.
    + intros o o' fd. rewrite !Hf. eauto.
    + unfold all_listed. rewrite E2. done.
    + intros fd Hfd. by eapply Ht, E7.
  - intros id c i. rewrite E1, E2. apply Hset.
Qed.

Lemma beside_ready w w' : beside w w' -> connpres_idle_timeout (w_base w') = 0 -> ready w -> ready w'.
Proof.
  intros H Hidle [Hw Hc Hb Hl]. split; [by eapply beside_waiting|..]; rewrite ?(bs_conn _ _ H), ?(bs_backoff _ _ H); try done.
  by rewrite (bs_instances _ _ H).
Qed.

(** ** What [base_init] does *)

Section base_proofs.
Context {O : Os} (p0 : process).
Let b0 := p_base p0.

(** What is open beyond what was open before: [/dev/null], the log file, and in a daemon the
    standard descriptors. *)
Definition newly (l : log_state) (devnull : option Z) (fd : Z) : Prop :=
  devnull = Some fd \/ logfile l = Some fd \/ b_daemon b0 = true /\ 0 <= fd <= 2.

(** Inside [base_init], started in [p0]: [done] are the calls made so far, [devnull] is open
    and new. *)
Record inside (b : base_instance) (l : log_state) (done : list call) (devnull : option Z) (p : process) : Prop := {
  in_beside : beside (seen p0) (p_world p);
  in_base : p_base p = b;
  in_log : p_log p = l;
  in_calls : p_calls p = p_calls p0 ++ done;
  in_signals : p_signals p = p_signals p0;
  in_devnull : forall fd, devnull = Some fd -> fd ∈ w_open (p_world p) /\ fd ∉ w_open (seen p0);
  in_new : forall fd, fd ∈ w_open (p_world p) -> fd ∈ w_open (seen p0) \/ newly l devnull fd }.

Lemma inside_start : inside b0 (p_log p0) [] None p0.
Proof. split; try done; [by rewrite app_nil_r|by left]. Qed.

Lemma inside_try b l done d (Q : bool -> process -> Prop) E p :
  inside b l done d p -> (forall ok p, inside b l done d p -> Q ok p) -> run (lift try_call) Q E p.
Proof.
  intros H HQ. apply run_lift, wp_bind, wp_answer. intros e a. apply wp_ret. apply HQ.
  destruct H as [Hb ? ? ? ? ? ?]. split; try done. cbn. etrans; [exact Hb|]. by split.
Qed.

Lemma inside_call b l done d c (Q : bool -> process -> Prop) E p :
  inside b l done d p -> (forall p, inside b l (done ++ [c]) d p -> Q true p) -> (forall p, inside b l done d p -> Q false p) ->
  run (privileged c) Q E p.
Proof.
  intros H Hy Hn. apply run_then. eapply inside_try; [done|]. clear p H. intros [] p H; [|by apply run_ret, Hn].
  apply run_then, run_modify, run_ret, Hy. destruct H as [? ? ? Hc ? ? ?]. split; try done. cbn. by rewrite Hc, app_assoc.
Qed.

Lemma inside_open b l done (Q : Z + Z -> process -> Prop) E p :
  inside b l done None p -> (forall e p, inside b l done None p -> Q (inr e) p) ->
  (forall fd p, inside b l done (Some fd) p -> Q (inl fd) p) -> run (lift open_fd) Q E p.
Proof.
  intros [Hb Hba Hl Hc Hs _ Hn] Hno Hyes. apply run_lift, wp_open_fd.
  - intros e a. apply Hno. split; try done. cbn. etrans; [exact Hb|]. by split.
  - intros fd a Hfresh _. apply Hyes. split; try done.
    + cbn. etrans; [exact Hb|]. split; try done. cbn. set_solver.
    + intros fd' [= <-]. cbn. split; [set_solver|]. intros Hin. by apply Hfresh, (bs_open _ _ Hb).
    + cbn. intros fd' [->%elem_of_singleton|Hin]%elem_of_union; [right; by left|]. destruct (Hn fd' Hin) as [?|[?|?]]; [by left|done|right; by right].
Qed.

Lemma inside_log b l done d l' p : logfile l' = logfile l -> inside b l done d p -> inside b l' done d (p_set_log l' p).
Proof. intros E [? ? ? ? ? ? Hn]. split; try done. unfold newly in *. by rewrite E. Qed.

(** Before anything was opened the log may change in any way. *)
Lemma inside_relog b l done l' p :
  (forall fd, fd ∈ w_open (p_world p) -> fd ∈ w_open (seen p0)) -> inside b l done None p -> inside b l' done None (p_set_log l' p).
Proof. intros Hold [? ? ? ? ? ? Hn]. split; try done. intros fd Hfd. left. by apply Hold. Qed.

Lemma inside_preopen dst debug info b l done (Q : Z -> process -> Prop) E p :
  inside b l done None p -> (forall fd, fd ∈ w_open (p_world p) -> fd ∈ w_open (seen p0)) ->
  (forall l p, inside b l done None p -> is_Some (log_msg_next l) -> Q 0 p) ->
  (forall l p, inside b l done None p -> Q (-1) p) -> run (log_preopen dst debug info) Q E p.
Proof.
  intros H Hold Hyes Hno. apply run_then, run_modify. cbv beta zeta.
  match goal with |- run _ _ _ (p_set_log ?l' p) => apply (inside_relog _ _ _ l' _ Hold) in H; change (p_world p) with (p_world (p_set_log l' p)) in Hold; revert H Hold; generalize l', (p_set_log l' p) end.
  clear l p. intros l p H Hold. case_bool_decide.
  { apply run_then, run_modify, run_ret. eapply Hyes; [by eapply inside_relog|by eexists]. }
  destruct (after_prefix (lit "syslog:") dst) as [name|].
  { destruct (Parser.by_name name facilities); [|by eapply run_ret, Hno].
    apply run_then, run_modify, run_ret. eapply Hyes; [by eapply inside_relog|by eexists]. }
  destruct (after_prefix (lit "file:") dst); [|by eapply run_ret, Hno].
  destruct H as [Hb Hba Hl Hc Hs Hd _]. apply run_then, run_lift, wp_open_fd.
  - intros e a. apply run_then, run_modify, run_ret. eapply Hno. split; try done; cbn; [etrans; [exact Hb|]; by split|]. intros fd Hin. left. by apply Hold.
  - intros fd a Hfresh _. apply run_then, run_modify, run_ret.
    apply (Hyes (set_next logfile_msg (set_logfile (Some fd) l))); [|by eexists]. split; try done; cbn; [|by rewrite Hl|].
    + etrans; [exact Hb|]. split; try done. cbn. set_solver.
    + intros fd' [->%elem_of_singleton|Hin]%elem_of_union; [right; right; by left|left; by apply Hold].
Qed.

(** Open is what was open before, the log file, and in a daemon the standard descriptors. *)
Definition grown (p : process) : Prop :=
  forall fd, fd ∈ w_open (p_world p) -> fd ∈ w_open (seen p0) \/ newly (p_log p) None fd.

Lemma inside_grown b l done p : inside b l done None p -> grown p.
Proof. intros [? ? El ? ? ? Hn]. unfold grown. by rewrite El. Qed.

(** How the set-up ends: with -1 and the base instance erased, after a part of the calls. *)
Definition failed_base (expected : list call) (p : process) : Prop :=
  (beside (seen p0) (p_world p) /\ grown p) /\ (p_base p = zeroed \/ b_configured b0 = false /\ p_base p = b0) /\
  p_signals p = p_signals p0 /\ exists done, done `prefix_of` expected /\ p_calls p = p_calls p0 ++ done.

Lemma inside_close b l done devnull (Q : unit -> process -> Prop) E p :
  inside b l done devnull p -> (forall p, inside b l done None p -> Q tt p) -> run (close_devnull devnull) Q E p.
Proof.
  intros H HQ. destruct devnull as [fd|]; cbn; [|by apply run_ret, HQ].
  apply run_then, run_lift. destruct H as [Hb Hba Hl Hc Hs Hd Hn]. destruct (Hd fd eq_refl) as [Hopen Hnew].
  apply wp_close; [done|]. apply run_ret, HQ. split; try done; cbn.
  - destruct Hb as [? ? ? ? ? Ho Ht]. split; try done; cbn.
    + intros fd' Hin. apply elem_of_difference. split; [by apply Ho|]. intros ->%elem_of_singleton. done.
    + intros fd'. rewrite elem_of_app, list_elem_of_singleton. intros [?|?]; [by apply Ht|done].
  - intros fd' [Hin Hne]%elem_of_difference. destruct (Hn fd' Hin) as [?|[[= ->]|?]]; [by left| |right; by right].
    destruct Hne. by apply elem_of_singleton.
Qed.

Lemma inside_fail b l done devnull expected E p :
  inside b l done devnull p -> is_Some (b_redirector b) -> done `prefix_of` expected ->
  run (base_fail devnull) (fun r p => r = -1 /\ failed_base expected p) E p.
Proof.
  intros H [rd Hr] Hpre. apply run_then. eapply inside_close; [done|]. clear p H. intros p H.
  apply run_then. unfold base_fini, redirector_hook. apply run_then, run_then, run_get.
  rewrite (in_base _ _ _ _ _ H), Hr. apply run_ret, run_then, run_modify, run_ret, run_ret. split; [done|].
  pose proof (inside_grown _ _ _ _ H). destruct H as [? ? ? ? ? ? ?]. split_and!; try done; [by left|]. eauto.
Qed.

(** A call that is made, or skipped, or fails. *)
Definition performs (b : base_instance) (l : log_state) (d : option Z) (m : P bool) (cs : list call) E : Prop :=
  forall done p, inside b l done d p ->
    run m (fun ok p => if ok : bool then inside b l (done ++ cs) d p else inside b l done d p) E p.

Lemma performs_call b l d c E : performs b l d (privileged c) [c] E.
Proof. intros done p H. by eapply inside_call. Qed.
Lemma performs_nothing b l d E : performs b l d (mret true) [] E.
Proof. intros done p H. change (inside b l (done ++ []) d p). by rewrite app_nil_r. Qed.
Lemma performs_if b l d (x : bool) m cs E :
  performs b l d m cs E -> performs b l d (if_set x m) (if x then cs else []) E.
Proof. intros H. destruct x; [exact H|]. apply performs_nothing. Qed.
Lemma performs_dup2 b l d fd E : b_daemon b0 = true -> 0 <= fd <= 2 -> performs b l d (dup2 fd) [c_dup2 fd] E.
Proof.
  intros Hdm Hfd done p H. apply run_then. eapply inside_call; [done|..]; clear p H; intros p H; [|by apply run_ret].
  apply run_then, run_lift, wp_modify, run_ret. destruct H as [Hb ? ? ? ? Hd Hn]. split; try done.
  - cbn. etrans; [exact Hb|]. split; try done. cbn. set_solver.
  - intros fd' E'. destruct (Hd fd' E') as [? ?]. split; [cbn; set_solver|done].
  - cbn. intros fd' [->%elem_of_singleton|Hin]%elem_of_union; [|by apply Hn]. right. right. by right.
Qed.

Lemma performs_all b l d ms E :
  Forall (fun x => performs b l d x.1 x.2 E) ms -> forall done p, inside b l done d p ->
  run (all_calls (fst <$> ms)) (fun ok p => exists pre, pre `prefix_of` concat (snd <$> ms) /\ inside b l (done ++ pre) d p /\
    (ok = true -> pre = concat (snd <$> ms))) E p.
Proof.
  induction 1 as [|[m cs] ms Hm _ IH]; intros done p H; cbn [all_calls fmap list_fmap fst snd concat].
  - apply run_ret. exists []. by rewrite app_nil_r.
  - apply run_then. eapply run_mono; [by apply Hm| |done]. clear p H. intros [] p H.
    + eapply run_mono; [by apply IH| |done]. clear p H. intros ok p (pre & Hpre & H & Hok). exists (cs ++ pre).
      rewrite app_assoc. split; [by apply prefix_app|]. split; [done|]. intros E'. by rewrite (Hok E').
    + apply run_ret. exists []. rewrite app_nil_r. split_and!; [apply prefix_nil|done|done].
Qed.

(** The calls [base_init] makes, and the settings it leaves. *)
Definition base_calls (b : base_instance) (uid gid : Z) : list call :=
  (if b_rlimit_nofile b =? 0 then [] else [c_setrlimit (b_rlimit_nofile b)]) ++
  match b_chroot b with Some dir => [c_chroot dir] | None => [] end ++
  (if b_daemon b || is_set (b_chroot b) then [c_chdir_root] else []) ++
  (if is_set (b_group b) then [c_setgid gid] else []) ++
  (if is_set (b_user b) then [c_setuid uid] else []) ++
  (if b_daemon b then [c_fork; c_setsid; c_dup2 0; c_dup2 1; c_dup2 2] else []).

Definition limited (b : base_instance) : base_instance :=
  if b_rlimit_nofile b =? 0 then b_set_rlimit (u32 rlim_cur) b else b.
Definition settled_base (instances : list redsocks_instance) (b : base_instance) : base_instance :=
  let b := limited b in
  if redsocks_conn_max (b_config b) =? 0 then b_set_conn_max (conn_max_of (b_rlimit_nofile b) instances) b else b.

Definition served_base (uid gid : Z) (p : process) : Prop :=
  (beside (seen p0) (p_world p) /\ grown p) /\ p_base p = settled_base (w_instances (p_world p0)) b0 /\
  p_signals p = p_signals p0 /\ p_calls p = p_calls p0 ++ base_calls b0 uid gid /\ is_Some (log_msg (p_log p)).

Lemma rlimit_run l (Q : bool -> process -> Prop) E p :
  inside b0 l [] None p ->
  (forall p, inside (limited b0) l (if b_rlimit_nofile b0 =? 0 then [] else [c_setrlimit (b_rlimit_nofile b0)]) None p -> Q true p) ->
  (forall p, inside b0 l [] None p -> Q false p) -> run base_rlimit Q E p.
Proof.
  intros H Hy Hn. apply run_then, run_get. rewrite (in_base _ _ _ _ _ H). unfold limited in Hy.
  destruct (b_rlimit_nofile b0 =? 0); cbn [negb].
  - apply run_then. eapply inside_try; [done|]. clear p H. intros [] p H; [|by apply run_ret, Hn].
    apply run_then, run_modify, run_ret, Hy. destruct H as [? E' ? ? ? ? ?]. split; try done. cbn. by rewrite E'.
  - by eapply inside_call.
Qed.

Lemma conn_max_run l done (Q : unit -> process -> Prop) E p :
  inside (limited b0) l done None p ->
  (forall p, inside (settled_base (w_instances (p_world p0)) b0) l done None p -> Q tt p) -> run base_conn_max Q E p.
Proof.
  intros H HQ. apply run_modify, HQ. destruct (H) as [Hb E1 ? ? ? ? ?]. cbv beta zeta. rewrite E1.
  unfold settled_base. cbv zeta. rewrite (bs_instances _ _ Hb). case_match; [|done]. by split.
Qed.

(** The parent of the daemon exits with everything open. *)
Definition parent_left (code : Z) (p : process) : Prop :=
  code = EXIT_SUCCESS /\ b_daemon b0 = true /\ beside (seen p0) (p_world p).

Lemma performs_fork b l d : b_daemon b0 = true -> performs b l d daemonize [c_fork] parent_left.
Proof.
  intros Hd done p H. unfold daemonize. destruct fork; [|apply run_exit; split_and!; [done|done|apply H]|by apply run_ret].
  apply run_then, run_modify, run_ret. destruct H as [? ? ? Hc ? ? ?]. split; try done. cbn. by rewrite Hc, app_assoc.
Qed.

(** The calls before [fork], and those after it. *)
Definition before_fork (b : base_instance) (uid gid : Z) : list call :=
  match b_chroot b with Some dir => [c_chroot dir] | None => [] end ++
  (if b_daemon b || is_set (b_chroot b) then [c_chdir_root] else []) ++
  (if is_set (b_group b) then [c_setgid gid] else []) ++
  (if is_set (b_user b) then [c_setuid uid] else []).

Lemma drop_privileges_run b l d done uid gid E p :
  inside b l done d p ->
  run (drop_privileges b0 uid gid) (fun ok p => exists pre, pre `prefix_of` before_fork b0 uid gid /\
    inside b l (done ++ pre) d p /\ (ok = true -> pre = before_fork b0 uid gid)) E p.
Proof.
  intros H. eapply (performs_all b l d
    [(match b_chroot b0 with Some dir => privileged (c_chroot dir) | None => mret true end,
      match b_chroot b0 with Some dir => [c_chroot dir] | None => [] end);
     (if_set (b_daemon b0 || is_set (b_chroot b0)) (privileged c_chdir_root),
      if b_daemon b0 || is_set (b_chroot b0) then [c_chdir_root] else []);
     (if_set (is_set (b_group b0)) (privileged (c_setgid gid)), if is_set (b_group b0) then [c_setgid gid] else []);
     (if_set (is_set (b_user b0)) (privileged (c_setuid uid)), if is_set (b_user b0) then [c_setuid uid] else [])] E) in H.
  - eapply run_mono; [exact H| |done]. intros ok q (pre & H1 & H2 & H3). exists pre. unfold before_fork.
    cbn [fmap list_fmap snd concat] in *. by rewrite app_nil_r in *.
  - repeat constructor; cbn [fst snd]; try apply performs_if, performs_call.
    destruct (b_chroot b0); [apply performs_call|apply performs_nothing].
Qed.

Lemma inside_log_open b l done d (Q : unit -> process -> Prop) E p :
  inside b l done d p -> is_Some (log_msg_next l) ->
  (forall l p, inside b l done d p -> is_Some (log_msg l) -> Q tt p) -> run log_open Q E p.
Proof.
  intros H Hl HQ. apply run_modify. cbv beta zeta. rewrite (in_log _ _ _ _ _ H).
  eapply HQ; [by eapply (inside_log _ l)|done].
Qed.

Lemma base_detach_run b l d done uid gid p :
  inside b l done d p -> is_Some (b_redirector b) -> is_Some (log_msg_next l) -> (b_daemon b0 = false -> d = None) ->
  let cs := before_fork b0 uid gid ++ (if b_daemon b0 then [c_fork; c_setsid; c_dup2 0; c_dup2 1; c_dup2 2] else []) in
  run (base_detach b0 uid gid d) (fun r p => r = 0 /\ (exists l, inside b l (done ++ cs) None p /\ is_Some (log_msg l)) \/
    r = -1 /\ failed_base (done ++ cs) p) parent_left p.
Proof.
  intros H Hr Hl Hd cs.
  assert (Hfail : forall l pre p, pre `prefix_of` cs -> inside b l (done ++ pre) d p ->
    run (base_fail d) (fun r p => r = 0 /\ (exists l, inside b l (done ++ cs) None p /\ is_Some (log_msg l)) \/
      r = -1 /\ failed_base (done ++ cs) p) parent_left p).
  { intros l' pre q Hpre Hq. eapply run_mono; [eapply inside_fail; [done|done|by apply prefix_app]|by right|done]. }
  apply run_then. eapply run_mono; [by eapply drop_privileges_run| |done]. clear p H.
  intros [] p (pre & Hpre & H & Hok); cbn [negb].
  2:{ eapply Hfail; [|done]. etrans; [done|]. by exists (if b_daemon b0 then [c_fork; c_setsid; c_dup2 0; c_dup2 1; c_dup2 2] else []). }
  specialize (Hok eq_refl) as ->. destruct (b_daemon b0) eqn:Hdm; cbn [if_set].
  - apply run_then. eapply run_mono; [by apply performs_fork| |done]. clear p H. intros [] p H; cbn [negb].
    2:{ eapply Hfail; [|done]. by apply prefix_app_r. }
    apply run_then. eapply inside_log_open; [done|done|]. clear l p H Hl. intros l p H Hl.
    apply run_then. eapply (performs_all b l d [(privileged c_setsid, [c_setsid]); (dup2 0, [c_dup2 0]); (dup2 1, [c_dup2 1]);
      (dup2 2, [c_dup2 2])] parent_left) in H.
    2:{ repeat constructor; cbn [fst snd]; first [apply performs_call|apply performs_dup2; [done|lia]]. }
    eapply run_mono; [exact H| |done]. clear p H. intros [] p (pre & Hpre' & H & Hok); cbn [negb].
    + specialize (Hok eq_refl) as ->. apply run_then. eapply inside_close; [done|]. clear p H. intros p H. apply run_ret. left.
      split; [done|]. exists l. split; [|done]. unfold cs. rewrite <-!app_assoc in H. exact H.
    + eapply (Hfail l (before_fork b0 uid gid ++ [c_fork] ++ pre)); [|by rewrite !app_assoc in *].
      unfold cs. apply prefix_app. by apply (prefix_app [c_fork]).
  - apply run_then, run_ret. cbn [negb]. apply run_then. eapply inside_log_open; [done|done|]. clear l p H Hl. intros l p H Hl.
    apply run_then, run_ret. cbn [negb]. apply run_then, run_ret, run_ret. left. split; [done|]. exists l. split; [|done].
    unfold cs. rewrite app_nil_r. specialize (Hd eq_refl) as ->. done.
Qed.

Lemma base_init_run :
  (b_configured b0 = true -> is_Some (b_redirector b0)) ->
  let uid := default (-1) (account getpwnam (b_user b0)) in
  let gid := default (-1) (account getgrnam (b_group b0)) in
  run base_init (fun r p => r = 0 /\ (b_configured b0 = true /\ account getpwnam (b_user b0) = Some uid /\
      account getgrnam (b_group b0) = Some gid) /\ served_base uid gid p \/
    r = -1 /\ failed_base (base_calls b0 uid gid) p) parent_left p0.
Proof.
  intros Hred uid gid. set (known := b_configured b0 = true /\ account getpwnam (b_user b0) = Some uid /\ _).
  apply run_then, run_get. fold b0. destruct (b_configured b0) eqn:Hconf; cbn [negb].
  2:{ apply run_ret. right. split; [done|]. split_and!; [done|by left|by right|done|]. exists []. rewrite app_nil_r. split; [apply prefix_nil|done]. }
  specialize (Hred eq_refl).
  assert (Hfail : forall b l done d p, inside b l done d p -> is_Some (b_redirector b) -> done `prefix_of` base_calls b0 uid gid ->
    run (base_fail d) (fun r p => r = 0 /\ known /\ served_base uid gid p \/ r = -1 /\ failed_base (base_calls b0 uid gid) p) parent_left p).
  { intros b l done d p H Hr Hpre. eapply run_mono; [by eapply inside_fail|by right|done]. }
  pose proof inside_start as H. apply run_then. unfold redirector_hook. apply run_then, run_get. fold b0.
  destruct Hred as [rd Hrd]. rewrite Hrd. apply run_ret.
  destruct (account getpwnam (b_user b0)) as [u|] eqn:Hu; [|eapply Hfail; [done|by eexists|apply prefix_nil]].
  destruct (account getgrnam (b_group b0)) as [g|] eqn:Hg; [|eapply Hfail; [done|by eexists|apply prefix_nil]].
  cbn [default] in uid, gid. assert (Hknown : known) by done.
  apply run_then. eapply inside_preopen; [exact H|done| |]; clear H.
  2:{ intros l p H. change (-1 <? 0) with true. cbv iota. eapply Hfail; [done|by eexists|apply prefix_nil]. }
  intros l p H Hl. change (0 <? 0) with false. cbv iota. apply run_then. eapply rlimit_run; [done|..]; clear p H.
  2:{ intros p H. cbn [negb]. eapply Hfail; [done|by eexists|apply prefix_nil]. }
  intros p H. cbn [negb]. apply run_then. eapply conn_max_run; [done|]. clear p H. intros p H.
  set (cs := if b_rlimit_nofile b0 =? 0 then [] else [c_setrlimit (b_rlimit_nofile b0)]) in *.
  assert (Hcs : base_calls b0 uid gid = cs ++ before_fork b0 uid gid ++
            (if b_daemon b0 then [c_fork; c_setsid; c_dup2 0; c_dup2 1; c_dup2 2] else [])).
  { unfold base_calls, before_fork. by rewrite <-!app_assoc. }
  assert (Hset : is_Some (b_redirector (settled_base (w_instances (p_world p0)) b0))).
  { exists rd. unfold settled_base, limited. cbv zeta. by repeat case_match. }
  assert (Hend : forall d p, inside (settled_base (w_instances (p_world p0)) b0) l cs d p -> (b_daemon b0 = false -> d = None) ->
    run (base_detach b0 u g d) (fun r p => r = 0 /\ known /\ served_base uid gid p \/
      r = -1 /\ failed_base (base_calls b0 uid gid) p) parent_left p).
  { intros d q Hq Hd. eapply run_mono; [by eapply base_detach_run| |done].
    intros r q' [[-> (l' & Hi & Hl')]|[-> Hf]]; [left|right; by rewrite Hcs].
    split_and!; [done|done|]. unfold served_base. rewrite Hcs. pose proof (inside_grown _ _ _ _ Hi). destruct Hi. split_and!; try done. congruence. }
  destruct (b_daemon b0) eqn:Hdm; [|by apply Hend].
  apply run_then. eapply inside_open; [done|..]; clear p H; [|intros fd p H; by apply Hend].
  intros e p H. eapply Hfail; [done|done|]. rewrite Hcs. by apply prefix_app_r.
Qed.

End base_proofs.

(** ** The process from its command line to its end *)

(** What a configuration file leaves that the theorems on the event loop cover. *)
Record loaded (c : conf) : Prop := {
  ld_instances : forall i, i ∈ cf_instances c -> exists g ss, i = fresh_instance g ss /\ supported g ss;
  ld_idle : connpres_idle_timeout (b_config (cf_base c)) = 0;
  ld_max : 0 <= redsocks_conn_max (b_config (cf_base c)) < 2 ^ 32;
  ld_rlimit : 0 <= b_rlimit_nofile (cf_base c) < 2 ^ 32;
  ld_redirector : b_configured (cf_base c) = true -> is_Some (b_redirector (cf_base c));
  ld_backoff : b_configured (cf_base c) = true -> 0 < max_accept_backoff_ms (b_config (cf_base c)) }.

(** All but the choice of protocols and of the idle timeout holds of every accepted file. *)
Lemma parsed_loaded `{!Parser.Platform, !PlatformTyped _, !Host} text rnd c :
  Parser.parser_run conf_sections text unconfigured rnd = Parser.Ran true c ->
  (forall i, i ∈ cf_instances c -> supported (i_config i) (i_relay_ss i)) ->
  connpres_idle_timeout (b_config (cf_base c)) = 0 -> loaded c.
Proof.
  intros Hrun Hs Hidle. destruct (parser_run_typed _ _ _ Hrun) as [_ Hi [Hr Hx _ _ _ _ _] Hc]. split; try done.
  - intros i Hin. destruct (Hi i Hin) as (g & ss & -> & _). exists g, ss. split; [done|]. exact (Hs _ Hin).
  - intros Hconf. by destruct (Hc Hconf).
  - intros Hconf. by destruct (Hc Hconf).
Qed.

(** A process that just began. *)
Definition begun (p : process) : Prop := w_clients (p_world p) = ∅ /\ w_trace (p_world p) = [] /\ p_calls p = [].

(** Everything of the relay is released. *)
Definition released_all (p : process) : Prop :=
  w_clients (p_world p) = ∅ /\ w_instances (p_world p) = [] /\ redsocks_conn (p_world p) = 0 /\
  p_signals p = [] /\ forall fd, sys_ebadf fd ∉ w_trace (p_world p).

Lemma conn_max_range n instances : 0 <= n < 2 ^ 32 -> 0 <= conn_max_of n instances < 2 ^ 32.
Proof.
  intros Hn. unfold conn_max_of, fds_per_client. assert (0 <= n / 4 <= n) by (split; [apply Z.div_pos; lia|apply Z.div_le_upper_bound; lia]).
  destruct (redsocks_has_splice_instance instances).
  - split; [apply Z.div_pos; lia|]. apply Z.div_lt_upper_bound; lia.
  - split; [apply Z.div_pos; lia|]. apply Z.div_lt_upper_bound; lia.
Qed.

Lemma settled_idle {O : Os} l b :
  connpres_idle_timeout (b_config (settled_base l b)) = connpres_idle_timeout (b_config b).
Proof. unfold settled_base, limited. cbv zeta. by repeat case_match. Qed.
Lemma settled_redirector {O : Os} l b : b_redirector (settled_base l b) = b_redirector b.
Proof. unfold settled_base, limited. cbv zeta. by repeat case_match. Qed.
Lemma settled_conn_max {O : Os} l b :
  redsocks_conn_max (b_config (settled_base l b)) =
    if redsocks_conn_max (b_config b) =? 0 then conn_max_of (b_rlimit_nofile (limited b)) l else redsocks_conn_max (b_config b).
Proof.
  assert (E : b_config (limited b) = b_config b) by (unfold limited; by case_match).
  unfold settled_base. cbv zeta. rewrite E. case_match; [done|]. by rewrite E.
Qed.
Lemma settled_backoff {O : Os} l b : max_accept_backoff_ms (b_config (settled_base l b)) = max_accept_backoff_ms (b_config b).
Proof. unfold settled_base, limited. cbv zeta. by repeat case_match. Qed.
Lemma settled_range {O : Os} l b :
  0 <= redsocks_conn_max (b_config b) < 2 ^ 32 -> 0 <= b_rlimit_nofile b < 2 ^ 32 ->
  0 <= redsocks_conn_max (b_config (settled_base l b)) < 2 ^ 32.
Proof.
  intros H1 H2. unfold settled_base, limited. cbv zeta. repeat case_match; try done; apply conn_max_range; [apply u32_range|done].
Qed.

Section outcome.
Context {O : Os} {Pl : Parser.Platform} {Ho : Host}.

(** The configuration was read. *)
Definition configured_by (c : conf) (p : process) : process :=
  p_set_base (cf_base c) (p_set_world (w_set_instances (cf_instances c) (p_world p)) p).

Lemma loaded_prepared c p : begun p -> loaded c -> prepared (seen (configured_by c p)).
Proof.
  intros (Hc & Ht & _) [Hi Hidle Hm _ _ _]. split; cbn; [done| |done|rewrite Ht; intros fd; apply not_elem_of_nil].
  intros n i Hn%list_elem_of_lookup_2. destruct (Hi i Hn) as (g & ss & -> & Hs). done.
Qed.

(** [redsocks_fini] as the last step. *)
Lemma fini_redsocks_run p (Q : Z -> process -> Prop) E :
  waiting (seen p) ->
  (forall w, ended (seen p) w -> Q 0 (p_set_world w p)) -> run (fini redsocks_subsys) Q E p.
Proof.
  intros Hw HQ. apply run_lift. eapply wp_mono; [by apply (fini_run (seen p))|]. intros r w [-> H]. by apply HQ.
Qed.

Lemma ended_released p w : ended (seen p) w -> p_signals p = [] -> released_all (p_set_world w p).
Proof. intros (? & ? & ? & _ & ?) Hs. by split_and!. Qed.

(** Shutting everything down, the base subsystem first: the settings are erased before the
    clients are dropped. *)
Lemma shutdown_all_run {A} error p (Q : A -> process -> Prop) (E : Z -> process -> Prop) :
  waiting (seen p) -> is_Some (b_redirector (p_base p)) ->
  (forall p', released_all p' -> p_base p' = zeroed -> p_calls p' = p_calls p -> p_log p' = p_log p ->
     (forall fd, fd ∈ w_open (p_world p') <-> foreign (seen p) fd) ->
     E (if error =? 0 then EXIT_SUCCESS else EXIT_FAILURE) p') ->
  run (shutdown (rev subsystems) error) Q E p.
Proof.
  intros Hw [rd Hr] HE. apply run_then, run_modify. set (p1 := p_set_signals [] p).
  assert (Hw1 : waiting (seen (p_set_base zeroed p1))) by by eapply (beside_waiting (seen p)).
  apply run_then. cbn [subsystems rev app fini_all].
  apply run_then. apply (run_mono _ (fun _ q => q = p_set_base zeroed p1) _ E E); [|intros r q ->|done].
  { unfold fini, base_fini, redirector_hook. apply run_then, run_then, run_get. cbn [p_base p1 p_set_signals]. rewrite Hr.
    apply run_ret. by apply run_then, run_modify, run_ret. }
  apply run_then. apply fini_redsocks_run; [done|]. intros w Hend. apply run_ret, run_exit. apply HE; [|done|done|done|].
  - by apply ended_released.
  - intros fd. destruct Hend as (_ & _ & _ & Ho' & _). cbn. apply Ho'.
Qed.

(** Descriptors that are not the relay's: those open in [p0], the log file, and in a daemon
    the standard ones. *)
Definition besides (c : conf) (p0 p : process) (fd : Z) : Prop :=
  fd ∈ w_open (p_world p0) \/ logfile (p_log p) = Some fd \/ b_daemon (cf_base c) = true /\ 0 <= fd <= 2.

(** [p0] began, and what is open in [p] but not owned by the relay is accounted for. *)
Definition accounted (c : conf) (p0 p : process) : Prop :=
  forall fd, (fd ∈ w_open (p_world p0) -> foreign (seen p) fd) /\ (foreign (seen p) fd -> besides c p0 p fd).

(** Only those are open. *)
Definition closed_again (c : conf) (p0 p : process) : Prop :=
  forall fd, (fd ∈ w_open (p_world p0) -> fd ∈ w_open (p_world p)) /\ (fd ∈ w_open (p_world p) -> besides c p0 p fd).

Lemma accounted_closed c p0 p w :
  accounted c p0 p -> (forall fd, fd ∈ w_open w <-> foreign (seen p) fd) -> closed_again c p0 (p_set_world w p).
Proof. intros Ha Hw fd. destruct (Ha fd) as [H1 H2]. split; intros Hfd; [by apply Hw, H1|by apply H2, Hw]. Qed.

(** Both subsystems are initialised, of a process that began as [p0]. *)
Definition up (c : conf) (p0 p : process) : Prop :=
  accounted c p0 p /\
  let b := cf_base c in
  let uid := default (-1) (account getpwnam (b_user b)) in
  let gid := default (-1) (account getgrnam (b_group b)) in
  ready (seen p) /\ length (w_instances (p_world p)) = length (cf_instances c) /\ b_configured b = true /\
  p_base p = settled_base (w_instances (p_world p)) b /\ p_calls p = base_calls b uid gid.

(** Every instance listens. *)
Definition all_listen (p : process) : Prop :=
  forall n i, w_instances (p_world p) !! n = Some i -> i_listening i = true.

(** How the initialisation of the subsystems can end [main]. *)
Definition init_exit (c : conf) (p : process) (code : Z) (p' : process) : Prop :=
  code = EXIT_FAILURE /\ (forall fd, fd ∈ w_open (p_world p') <-> fd ∈ w_open (p_world p)) \/
  code = EXIT_FAILURE /\ released_all p' /\ closed_again c p p' \/
  code = EXIT_SUCCESS /\ b_daemon (cf_base c) = true /\ (forall fd, fd ∈ w_open (p_world p) -> fd ∈ w_open (p_world p')) /\
    length (w_instances (p_world p')) = length (cf_instances c) /\ all_listen p'.

Lemma beside_accounted c p q q' :
  p_base q = cf_base c -> (forall fd, foreign (seen q) fd <-> fd ∈ w_open (p_world p)) ->
  beside (seen q) (p_world q') -> grown q q' -> accounted c p q'.
Proof.
  intros Hb Hfor Hbs Hg fd. unfold foreign. change (w_open (seen q')) with (w_open (p_world q')).
  assert (Ef : forall o, fds_of (seen q') o = fds_of (seen q) o) by (intros o; exact (beside_fds _ _ o Hbs)). split.
  - intros [Hin Hno]%Hfor. split; [by apply (bs_open _ _ Hbs)|]. intros o. by rewrite Ef.
  - intros [Hin Hno]. destruct (Hg fd Hin) as [Hq|[?|[Hl|[Hd ?]]]]; [left; apply Hfor; split; [done|]|done|right; by left|].
    + intros o. rewrite <-Ef. apply Hno.
    + rewrite Hb in Hd. right. by right.
Qed.

Lemma init_base_run c p q :
  loaded c -> p_base q = cf_base c -> p_calls q = [] -> ready (seen q) ->
  (forall fd, foreign (seen q) fd <-> fd ∈ w_open (p_world p)) ->
  length (w_instances (p_world q)) = length (cf_instances c) ->
  run (init_subsystems [base_subsys] [redsocks_subsys]) (fun _ p' => up c p p' /\ p_signals p' = p_signals q) (init_exit c p) q.
Proof.
  intros Hl Hb Hc Hrd Hfor Hlen. pose proof (base_init_run q) as H. rewrite Hb in H. specialize (H (ld_redirector _ Hl)).
  cbv zeta in H. apply run_then. eapply run_mono; [exact H| |].
  - intros r q' [(-> & (Hconf & _ & _) & [Hbs Hg] & E1 & E2 & E3 & _)|(-> & [Hbs Hg] & E1 & E2 & _)];
      pose proof (beside_accounted _ _ _ _ Hb Hfor Hbs Hg) as Hacc.
    + apply run_ret. rewrite Hb in E1, E3. rewrite Hc in E3. pose proof (bs_instances _ _ Hbs) as Hi. cbn in Hi.
      split; [|done]. unfold up. rewrite Hi, E1. split_and!; try done.
      eapply (beside_ready (seen q)); [|cbn; rewrite E1, settled_idle; apply (ld_idle _ Hl)|done].
      destruct Hbs. by split.
    + apply run_then, run_modify. apply run_then. cbn [fini_all]. apply run_then. apply fini_redsocks_run.
      * eapply (beside_waiting (seen q)); [|cbn|apply Hrd]; [destruct Hbs; by split|].
        rewrite Hb in E1. destruct E1 as [-> |[_ ->]]; [done|apply (ld_idle _ Hl)].
      * intros w Hend. apply run_ret, run_exit. right. left. split; [done|]. split; [by apply ended_released|].
        apply (accounted_closed c p (p_set_signals [] q')); [exact Hacc|]. by destruct Hend as (_ & _ & _ & ? & _).
  - intros code q' (-> & Hd & Hbs). right. right. rewrite Hb in Hd. pose proof (bs_instances _ _ Hbs) as Hi. cbn in Hi.
    unfold all_listen. rewrite Hi. split_and!; try done; [|apply Hrd]. intros fd Hfd%Hfor. by apply (bs_open _ _ Hbs), Hfd.
Qed.

Lemma init_subsystems_run c p :
  begun p -> loaded c -> run (init_subsystems subsystems []) (fun _ p' => up c p p' /\ p_signals p' = p_signals p) (init_exit c p) (configured_by c p).
Proof.
  intros Hp Hl. apply run_then, run_lift. eapply wp_mono; [by apply init_run, loaded_prepared|].
  intros r w [(-> & Hrd & Hb & Hlen & Hfor)|[-> Ho']].
  - assert (E : seen (p_set_world w (configured_by c p)) = w) by (unfold seen; cbn; destruct w; cbn in *; by rewrite Hb).
    change (0 =? 0) with true. cbv iota. apply (init_base_run c p (p_set_world w (configured_by c p))); rewrite ?E; try done.
    by destruct Hp as (_ & _ & ?).
  - apply run_then, run_modify. apply run_then, run_ret, run_exit. left. done.
Qed.

(** How [main] can end before its event loop: a subsystem could not be initialised; the
    process was the parent of the daemon; the pid file could not be written, with everything
    left as it is; a signal could not be watched, reported as success. *)
Definition start_exit (c : conf) (o : options) (p : process) (code : Z) (p' : process) : Prop :=
  init_exit c p code p' \/ code = EXIT_FAILURE /\ is_Some (pidfile o) /\ up c p p' \/
  code = EXIT_SUCCESS /\ released_all p' /\ closed_again c p p'.

Lemma up_answers c p0 p a : up c p0 p -> up c p0 (p_set_world (w_set_answers a (seen p)) p).
Proof.
  intros (Hacc & Hrd & Hlen & Hconf & Hb & Hc). unfold up. split_and!; try done.
  eapply (beside_ready (seen p)); [by split| |done]. destruct Hrd as [[Hok _] _ _ _]. apply (wk_idle _ Hok).
Qed.
Lemma up_signals c p0 p l : up c p0 p -> up c p0 (p_set_signals l p).
Proof. by intros (? & ? & ? & ? & ? & ?). Qed.
Lemma up_redirector c p0 p : loaded c -> up c p0 p -> is_Some (b_redirector (p_base p)).
Proof. intros Hl (_ & _ & _ & Hconf & -> & _). rewrite settled_redirector. by apply (ld_redirector _ Hl). Qed.

Lemma up_try c p0 p (Q : bool -> process -> Prop) E :
  up c p0 p -> (forall ok p', up c p0 p' -> p_signals p' = p_signals p -> Q ok p') -> run (lift try_call) Q E p.
Proof. intros H HQ. apply run_lift, wp_bind, wp_answer. intros e a. apply wp_ret, HQ; [by apply up_answers|done]. Qed.

Lemma add_signals_run c p0 l p (E : Z -> process -> Prop) :
  loaded c -> up c p0 p -> (forall p', released_all p' -> closed_again c p0 p' -> E EXIT_SUCCESS p') ->
  run (add_signals l) (fun _ p' => up c p0 p' /\ p_signals p' = p_signals p ++ l) E p.
Proof.
  intros Hl H HE. revert p H. induction l as [|sig l IH]; intros p H; cbn [add_signals].
  - apply run_ret. by rewrite app_nil_r.
  - apply run_then. eapply up_try; [done|]. intros [] p' H' Hs.
    + apply run_then, run_modify. eapply run_mono; [apply IH; by apply up_signals| |done].
      intros _ q [? Hq]. split; [done|]. rewrite Hq. cbn. by rewrite Hs, <-app_assoc.
    + apply shutdown_all_run; [apply H'|by eapply up_redirector|]. intros q ? _ _ El Ho'. apply HE; [done|].
      intros fd. unfold besides. rewrite El, Ho'. apply (proj1 H' fd).
Qed.

(** [main] up to its event loop. *)
Lemma main_start_run args rnd p o text c :
  begun p -> p_signals p = [] -> read_options args no_options = inl o -> conftest o = false ->
  read_file (confname o) = Some text -> Parser.parser_run conf_sections text unconfigured rnd = Parser.Ran true c -> loaded c ->
  run (main_start args rnd) (fun _ p' => up c p p' /\ p_signals p' = exit_signals) (start_exit c o p) p.
Proof.
  intros Hp Hsig Ho' Hct Hfile Hparse Hl. unfold main_start. rewrite Ho', Hct. apply run_then.
  unfold read_config. rewrite Hfile, Hparse. apply run_modify. fold (configured_by c p).
  assert (Hend : forall q, up c p q -> p_signals q = [] ->
    run (add_signals exit_signals) (fun _ p' => up c p p' /\ p_signals p' = exit_signals) (start_exit c o p) q).
  { intros q Hq Hs. eapply run_mono; [apply (add_signals_run c p _ q (start_exit c o p)); [done|done|]| |done].
    - intros q' Hr Hcl. right. by right.
    - intros _ q' [? Hq']. by rewrite Hs in Hq'. }
  apply run_then. eapply run_mono; [by apply init_subsystems_run| |intros; by left].
  intros _ q [Hq Hs]. rewrite Hsig in Hs. destruct (pidfile o) as [f|] eqn:Hf.
  - apply run_then, run_then. eapply up_try; [done|]. intros [] q' Hq' Hs'.
    + apply run_ret, Hend; [done|congruence].
    + apply run_exit. right. left. rewrite Hf. by split; [|split; [eexists|]].
  - apply run_then, run_ret. by apply Hend.
Qed.

End outcome.

(** ** Descriptors of the clients *)

Lemma fd_list_le fd : (length (fd_list fd) <= 1)%nat.
Proof. unfold fd_list. by case_match; cbn; lia. Qed.

Lemma client_fds_le g ss c :
  client_inv g ss c -> (length (client_fds (use_splice g) c) <= if use_splice g then 6 else 2)%nat.
Proof.
  pose proof fd_list_le as Hle. assert (Hb : forall b, (length (buf_fds b) <= 1)%nat) by (intros [b|]; cbn; [apply Hle|lia]).
  unfold client_fds. intros [(Hn & _)|[Hg Hs]].
  - rewrite Hn. pose proof (Hb (c_client c)). pose proof (Hb (c_relay c)). destruct (use_splice g); rewrite !length_app; cbn; lia.
  - rewrite Hg. assert (E : forall s, buf_fds (c_buf s c) = []).
    { intros s. destruct (c_buf s c) as [b|] eqn:Hbuf; [|done]. destruct (sp_bufs _ Hs s b Hbuf) as (Hfd & _). cbn. by rewrite Hfd. }
    change (c_client c) with (c_buf Client c). change (c_relay c) with (c_buf Relay c). rewrite !E. unfold pump_fds.
    rewrite !length_app. cbn [length app].
    repeat match goal with |- context [length (fd_list ?fd)] => pose proof (Hle fd); generalize dependent (length (fd_list fd)); intros end. lia.
Qed.

Lemma length_concat_le {A} (l : list (list A)) k :
  Forall (fun x => (length x <= k)%nat) l -> (length (concat l) <= k * length l)%nat.
Proof. induction 1; cbn; [lia|]. rewrite length_app. lia. Qed.

Lemma splice_settings w w' :
  settings w' = settings w -> redsocks_has_splice_instance (w_instances w') = redsocks_has_splice_instance (w_instances w).
Proof.
  intros [= _ E]. unfold redsocks_has_splice_instance.
  assert (X : forall l, existsb (fun i => use_splice (i_config i)) l = existsb use_splice (i_config <$> l))
    by (induction l as [|x l IH]; cbn; [done|by rewrite IH]).
  by rewrite !X, E.
Qed.

Lemma clients_fds_le w w' :
  sound w' -> settings w' = settings w ->
  zlen (concat ((fun id => fds_of w' (ByClient id)) <$> all_listed w')) <=
    fds_per_client (w_instances w) * redsocks_conn_max (w_base w).
Proof.
  intros (Hok & Hp & Hs) Hset. set (k := if redsocks_has_splice_instance (w_instances w) then 6%nat else 2%nat).
  assert (Hk : fds_per_client (w_instances w) = Z.of_nat k) by (unfold fds_per_client, k; by case_match).
  pose proof (pr_max _ Hp) as [Hm _]. injection (Hset) as Hb _. rewrite Hb, (wk_conn _ Hok) in Hm. rewrite Hk.
  assert (Hall : Forall (fun x => (length x <= k)%nat) ((fun id => fds_of w' (ByClient id)) <$> all_listed w')).
  { apply Forall_fmap, Forall_forall. intros id Hin. unfold all_listed in Hin. rewrite list_elem_of_In in Hin.
    apply in_concat in Hin as (l & Hl & Hid). rewrite <-list_elem_of_In in Hl. rewrite <-list_elem_of_In in Hid. apply list_elem_of_fmap in Hl as (i & -> & Hi).
    apply list_elem_of_lookup in Hi as [n Hi]. destruct (wk_listed _ Hok _ _ Hi) as [_ Hl]. destruct (Hl id Hid) as (c & Hc & <-).
    unfold compose. rewrite (fds_client w' id c i Hc Hi). destruct (Hs id c i Hc Hi) as [_ Hinv].
    pose proof (client_fds_le _ _ _ Hinv) as Hle. etrans; [exact Hle|]. unfold k. rewrite <-(splice_settings _ _ Hset).
    destruct (use_splice (i_config i)) eqn:Hsp; [|by case_match; lia].
    replace (redsocks_has_splice_instance (w_instances w')) with true; [done|]. symmetry. unfold redsocks_has_splice_instance.
    apply existsb_exists. exists i. split; [|done]. rewrite <-list_elem_of_In. by eapply list_elem_of_lookup_2. }
  apply length_concat_le in Hall. rewrite length_fmap in Hall. unfold zlen in *. nia.
Qed.

(** ** Theorems *)

(** [base_init] makes its calls in one order only: the limit of descriptors, [chroot], the
    change to the new root, the group before the user, then [fork], [setsid] and the
    standard descriptors. After a call that fails none of the later ones is made, and it
    reports success only when all the configured ones were made, for a user and a group
    the system knows. *)
Theorem privileges_dropped_in_order {O : Os} p :
  (b_configured (p_base p) = true -> is_Some (b_redirector (p_base p))) ->
  let b := p_base p in
  let uid := default (-1) (account getpwnam (b_user b)) in
  let gid := default (-1) (account getgrnam (b_group b)) in
  match base_init p with
  | Done r p' => exists done, p_calls p' = p_calls p ++ done /\ done `prefix_of` base_calls b uid gid /\
      (r = 0 /\ done = base_calls b uid gid /\ account getpwnam (b_user b) = Some uid /\
         account getgrnam (b_group b) = Some gid /\ is_Some (log_msg (p_log p')) \/
       r = -1 /\ (b_configured b = true -> p_base p' = zeroed))
  | Exited code _ => code = EXIT_SUCCESS /\ b_daemon b = true
  | Crashed => False
  end.
Proof.
  intros Hr b uid gid. pose proof (base_init_run p Hr) as H. unfold run in H. destruct (base_init p) as [r p'|code p'|]; [|by destruct H as (? & ? & _)|done].
  destruct H as [(-> & (_ & Hu & Hg) & _ & _ & _ & Hc & Hl)|(-> & _ & Hb & _ & done & Hpre & Hc)].
  - exists (base_calls b uid gid). split_and!; [done|done|]. left. by split_and!.
  - exists done. split_and!; [done|done|]. right. split; [done|]. intros Hconf. destruct Hb as [?|[Hn _]]; [done|].
    unfold b in Hconf. congruence.
Qed.

(** The common hypotheses: a process that just began reads a file whose settings are
    covered. *)
Section theorems.
Context {O : Os} {Pl : Parser.Platform} {HPl : PlatformTyped Pl} {Ho : Host}.
Context (args : list option_arg) (rnd : list Z) (p : process) (o : options) (text : bytes) (c : conf).

Record starts : Prop := {
  ms_begun : begun p;
  ms_signals : p_signals p = [];
  ms_options : read_options args no_options = inl o;
  ms_conftest : conftest o = false;
  ms_file : read_file (confname o) = Some text;
  ms_parse : Parser.parser_run conf_sections text unconfigured rnd = Parser.Ran true c;
  ms_supported : forall i, i ∈ cf_instances c -> supported (i_config i) (i_relay_ss i);
  ms_idle : connpres_idle_timeout (b_config (cf_base c)) = 0 }.

Lemma ms_loaded : starts -> loaded c.
Proof. intros []. by eapply parsed_loaded. Qed.

Lemma starts_run : starts -> run (main_start args rnd) (fun _ p' => up c p p' /\ p_signals p' = exit_signals) (start_exit c o p) p.
Proof. intros Hst. pose proof (ms_loaded Hst). destruct Hst. by eapply main_start_run. Qed.


Lemma started_sound p' :
  starts -> main_start args rnd p = Done tt p' -> 0 < redsocks_conn_max (b_config (p_base p')) ->
  up c p p' /\ sound (seen p').
Proof.
  intros Hst Hrun Hm. pose proof (starts_run Hst) as H. unfold run in H. rewrite Hrun in H. destruct H as [Hup _]. split; [done|].
  destruct Hup as (_ & Hrd & _ & Hconf & Hb & _). apply ready_sound; [done|cbn; split; [done|]|cbn]; rewrite Hb.
  - apply settled_range; apply (ms_loaded Hst).
  - rewrite settled_backoff. by apply (ms_loaded Hst).
Qed.

(** C2: In the event loop [main] runs, every event libevent can deliver is handled without a
    failed assertion, a use of freed memory or a NULL pointer, provided the connection
    limit is not 0. *)
Theorem main_loop_safe (ctx : MD5.md5_state) {LR : LineReader} p' w e :
  starts -> main_start args rnd p = Done tt p' -> 0 < redsocks_conn_max (b_config (p_base p')) ->
  reachable ctx (seen p') w -> enabled e w -> exists w', handle ctx e w = Ok tt w'.
Proof.
  intros Hst Hrun Hm Hr He. destruct (started_sound p' Hst Hrun Hm) as [_ Hs].
  pose proof (handle_sound ctx e w (reachable_sound ctx _ _ Hs Hr) He) as H. apply wp_run in H as ([] & w' & ? & _). eauto.
Qed.

(** C31: When the event loop ends, in whatever state it reached under the conditions of
    [starts] and with a connection limit, [main] finishes the base subsystem, then the
    relay: every client and listener is released, each descriptor the relay owned is closed
    once and no other, the handlers are gone, and it reports success. *)
Theorem main_stop_releases (ctx : MD5.md5_state) {LR : LineReader} p' w :
  starts -> main_start args rnd p = Done tt p' -> 0 < redsocks_conn_max (b_config (p_base p')) ->
  reachable ctx (seen p') w ->
  exists p'', main_stop w p' = Exited EXIT_SUCCESS p'' /\ released_all p'' /\ p_base p'' = zeroed /\
    forall fd, fd ∈ w_open (p_world p'') <-> fd ∈ w_open w /\ forall o, fd ∉ fds_of w o.
Proof.
  intros Hst Hrun Hm Hr. destruct (started_sound p' Hst Hrun Hm) as [Hup Hs].
  destruct (reachable_sound ctx _ _ Hs Hr) as (Hok & _ & Hset).
  assert (H : run (main_stop w) (fun _ _ => False) (fun code p'' => code = EXIT_SUCCESS /\ released_all p'' /\ p_base p'' = zeroed /\
    forall fd, fd ∈ w_open (p_world p'') <-> foreign w fd) p').
  { apply run_then, run_modify. apply shutdown_all_run.
    - eapply (beside_waiting w); [by split| |by split]. cbn. destruct Hup as (_ & _ & _ & _ & -> & _). rewrite settled_idle.
      apply (ms_loaded Hst).
    - apply (up_redirector c p p'); [apply (ms_loaded Hst)|done].
    - intros p'' Hrel Hb _ _ Hopen. by split_and!. }
  unfold run in H. destruct (main_stop w p') as [[] ?|code p''|]; [done| |done]. destruct H as (-> & ? & ? & ?). by exists p''.
Qed.

(** With the connection limit left to [base_init], the clients never own more than three
    quarters of the descriptors the process may open: a quarter is kept for everything
    else, whatever pump relays and however many clients come. *)
Theorem clients_leave_a_quarter (ctx : MD5.md5_state) {LR : LineReader} p' w :
  starts -> main_start args rnd p = Done tt p' -> redsocks_conn_max (b_config (cf_base c)) = 0 ->
  0 < redsocks_conn_max (b_config (p_base p')) -> reachable ctx (seen p') w ->
  let n := b_rlimit_nofile (limited (cf_base c)) in
  zlen (concat ((fun id => fds_of w (ByClient id)) <$> all_listed w)) <= n - n / 4.
Proof.
  intros Hst Hrun Hauto Hm Hr n. destruct (started_sound p' Hst Hrun Hm) as [Hup Hs].
  pose proof (clients_fds_le (seen p') w (reachable_sound ctx _ _ Hs Hr) (reachable_settings ctx _ _ Hr)) as Hle.
  destruct Hup as (_ & _ & _ & _ & Hb & _). cbn [seen w_set_base w_base w_instances] in Hle.
  rewrite Hb, settled_conn_max, Hauto in Hle. change (0 =? 0) with true in Hle. cbv iota in Hle. fold n in Hle.
  etrans; [exact Hle|]. unfold conn_max_of. rewrite Z.mul_comm, (Z.mul_comm (_ / _)). apply Z.mul_div_le.
  unfold fds_per_client. by case_match.
Qed.

End theorems.

(** ** A process to run the theorems on *)

#[local] Existing Instance Config.phone.
#[local] Existing Instance Config.kernel.

(** One SOCKS5 instance; the connection limit is left to [base_init]. *)
Definition some_text : bytes := file_of (lit "iptables") (mk_base 0 0 60000 0 0 7200) [some_instance].
#[local] Instance linux : Os := {|
  getpwnam := fun n => if bool_decide (n = lit "nobody") then Some 65534 else None;
  getgrnam := fun n => if bool_decide (n = lit "nogroup") then Some 65533 else None;
  rlim_cur := 1024;
  fork := fork_child;
  read_file := fun n => if bool_decide (n = lit "redsocks.conf") then Some some_text else None |}.

Definition first_process : process :=
  mk_process (mk_world ∅ [] 0 0 None (mk_base 0 0 0 0 0 0) {[0; 1; 2]} 1 0 [] [] [] []) zeroed log_initial [] [].

Definition some_conf : conf :=
  mk_conf (base_of (lit "iptables") redir_iptables (mk_base 0 0 60000 0 0 7200)) None
    [fresh_instance some_instance.1 socks5_subsys].

Lemma first_starts : starts [] [] first_process no_options some_text some_conf.
Proof.
  split; [done|done|done|done|vm_compute; reflexivity|vm_compute; reflexivity| |done].
  by intros i ->%list_elem_of_singleton.
Qed.

Definition first_started : process :=
  match main_start [] [] first_process with Done _ p => p | _ => first_process end.

Lemma first_runs : main_start [] [] first_process = Done tt first_started.
Proof. vm_compute. reflexivity. Qed.


Lemma main_loop_safe_witness :
  exists w', handle some_ctx first_client (seen first_started) = Ok tt w'.
Proof.
  apply (main_loop_safe [] [] first_process no_options some_text some_conf some_ctx first_started (seen first_started) first_client
    first_starts first_runs).
  - vm_compute. reflexivity.
  - apply reach_refl.
  - exists (default (some_config socks5_subsys) (w_instances (seen first_started) !! 0%nat)). split; vm_compute; reflexivity.
Defined.

Lemma main_stop_witness :
  exists p'', main_stop (seen first_started) first_started = Exited EXIT_SUCCESS p'' /\ released_all p''.
Proof.
  destruct (main_stop_releases [] [] first_process no_options some_text some_conf some_ctx first_started (seen first_started)
    first_starts first_runs) as (p'' & H1 & H2 & _).
  - vm_compute. reflexivity.
  - apply reach_refl.
  - exists p''. exact (conj H1 H2).
Defined.

(** The client that just came owns its two sockets. *)
Definition first_served : world := run_to (handle some_ctx first_client) (seen first_started).

Lemma leave_a_quarter_witness :
  zlen (concat ((fun id => fds_of first_served (ByClient id)) <$> all_listed first_served)) = 2 /\ 2 <= 1024 - 256.
Proof.
  split; [vm_compute; reflexivity|].
  apply (clients_leave_a_quarter [] [] first_process no_options some_text some_conf some_ctx first_started first_served
    first_starts first_runs).
  - reflexivity.
  - vm_compute. reflexivity.
  - eapply (reach_step _ _ _ tt); [apply reach_refl|].
    replace (Ok tt first_served) with (handle some_ctx first_client (seen first_started)) by (vm_compute; reflexivity).
    apply step_event. exists (default (some_config socks5_subsys) (w_instances (seen first_started) !! 0%nat)).
    split; vm_compute; reflexivity.
Defined.

(** A daemon in a new root, as another user. *)
Definition daemon_process : process :=
  p_set_base (mk_base_instance true (Some (lit "/var/empty")) (Some (lit "nobody")) (Some (lit "nogroup")) (Some (lit "generic"))
    (Some redir_generic) None false true true 0 (mk_base 10 0 60000 0 0 0)) first_process.

Lemma privileges_witness :
  exists p', base_init daemon_process = Done 0 p' /\
    p_calls p' = [c_chroot (lit "/var/empty"); c_chdir_root; c_setgid 65533; c_setuid 65534; c_fork; c_setsid;
                  c_dup2 0; c_dup2 1; c_dup2 2].
Proof.
  pose proof (privileges_dropped_in_order daemon_process ltac:(by eexists)) as H. cbv zeta in H.
  destruct (base_init daemon_process) as [r p'|code p'|] eqn:E.
  - destruct H as (done & Hc & _ & [(-> & -> & _)|(-> & _)]).
    + exists p'. split; [reflexivity|]. rewrite Hc. vm_compute. reflexivity.
    + exfalso. revert E. vm_compute. discriminate.
  - exfalso. revert E. vm_compute. discriminate.
  - exfalso. exact H.
Defined.

(** A limit of six descriptors leaves no connection for an instance with splice: the first
    client makes [redsocks_accept_client] abort. *)
Theorem small_limit_aborts :
  conn_max_of 6 [fresh_instance (i_config (SplicePump.SplicePump.splice_config socks5_subsys ONFAIL_CLOSE)) socks5_subsys] = 0 /\
  handle some_ctx first_client (w_set_base (mk_base 0 0 60000 0 0 0) booted) = AssertFailed.
Proof. split; vm_compute; reflexivity. Qed.

End Startup.
