(* ===== verification/Memory.v ===== *)
(** * Buffers in memory

    A block of memory is the list of its bytes. [load] and [store] are [memcpy] from and to
    an offset in it; leaving the block is [None], like every failed assertion of the objects
    that use it. *)

From S2P Require Import Prelude.
Open Scope Z_scope.

Module Memory.

(** An assertion of the source; [None] when it fails. *)
Definition ASSERT (b : bool) : option unit := if b then Some tt else None.
#[global] Arguments ASSERT !_ /.

Definition in_range (off len : Z) (m : bytes) : bool := (0 <=? off) && (0 <=? len) && (off + len <=? zlen m).

Definition load (off len : Z) (m : bytes) : option bytes :=
  if in_range off len m then Some (take (Z.to_nat len) (drop (Z.to_nat off) m)) else None.

Definition store (off : Z) (data m : bytes) : option bytes :=
  if in_range off (zlen data) m
  then Some (take (Z.to_nat off) m ++ data ++ drop (Z.to_nat (off + zlen data)) m) else None.

(** The bytes of [m] from [off] on begin with [data]. *)
Definition holds_at (off : Z) (data m : bytes) : Prop := load off (zlen data) m = Some data.

Lemma in_range_spec off len m : in_range off len m = true <-> 0 <= off /\ 0 <= len /\ off + len <= zlen m.
Proof. unfold in_range. rewrite !andb_true_iff, !Z.leb_le. tauto. Qed.

Lemma load_some off len m : 0 <= off -> 0 <= len -> off + len <= zlen m -> exists data, load off len m = Some data /\ zlen data = len.
Proof.
  intros H1 H2 H3. unfold load. rewrite (proj2 (in_range_spec off len m)) by done. eexists. split; [done|].
  unfold zlen in *. rewrite length_take, length_drop. lia.
Qed.

Lemma load_inv off len m data : load off len m = Some data -> 0 <= off /\ 0 <= len /\ off + len <= zlen m /\ zlen data = len.
Proof.
  unfold load. destruct (in_range off len m) eqn:E; [|done]. apply in_range_spec in E as (? & ? & ?). intros [= <-].
  split_and!; try done. unfold zlen in *. rewrite length_take, length_drop. lia.
Qed.

Lemma store_some off data m :
  0 <= off -> off + zlen data <= zlen m ->
  exists m', store off data m = Some m' /\ zlen m' = zlen m.
Proof.
  intros H1 H2. pose proof (zlen_nonneg data). unfold store. rewrite (proj2 (in_range_spec _ _ _)) by done. eexists. split; [done|].
  unfold zlen in *. rewrite !length_app, length_take, length_drop. lia.
Qed.

Lemma store_inv off data m m' : store off data m = Some m' -> 0 <= off /\ off + zlen data <= zlen m /\ zlen m' = zlen m.
Proof.
  unfold store. destruct (in_range _ _ m) eqn:E; [|done]. apply in_range_spec in E as (? & ? & ?). intros [= <-].
  split_and!; try done. unfold zlen in *. rewrite !length_app, length_take, length_drop. lia.
Qed.

Lemma holds_at_split off data m :
  holds_at off data m <-> exists a b, m = a ++ data ++ b /\ zlen a = off.
Proof.
  unfold holds_at. split.
  - intros H. pose proof (load_inv _ _ _ _ H) as (H1 & H2 & H3 & _). unfold load in H.
    rewrite (proj2 (in_range_spec _ _ _)) in H by done. injection H as H.
    exists (take (Z.to_nat off) m), (drop (length data) (drop (Z.to_nat off) m)). split.
    + rewrite <- H at 1. unfold zlen. rewrite Nat2Z.id. by rewrite take_drop, take_drop.
    + unfold zlen in *. rewrite length_take. lia.
  - intros (a & b & -> & <-). unfold load. pose proof (zlen_nonneg a). pose proof (zlen_nonneg data). pose proof (zlen_nonneg b).
    rewrite (proj2 (in_range_spec _ _ _)) by (rewrite !zlen_app; lia). unfold zlen. rewrite !Nat2Z.id.
    by rewrite drop_app_length, take_app_length.
Qed.

Lemma holds_at_nil off m : holds_at off [] m <-> 0 <= off <= zlen m.
Proof.
  unfold holds_at, load. rewrite zlen_nil. change (Z.to_nat 0) with 0%nat. rewrite take_0.
  destruct (in_range off 0 m) eqn:E; [apply in_range_spec in E|]; [split; [lia|done]|].
  split; [done|]. intros [? ?]. assert (in_range off 0 m = true) by (apply in_range_spec; lia). congruence.
Qed.

Lemma holds_at_app off d1 d2 m : holds_at off (d1 ++ d2) m <-> holds_at off d1 m /\ holds_at (off + zlen d1) d2 m.
Proof.
  rewrite !holds_at_split. split.
  - intros (a & b & -> & <-). split; [exists a, (d2 ++ b); by rewrite <- !app_assoc|].
    exists (a ++ d1), b. rewrite <- !app_assoc. split; [done|apply zlen_app].
  - intros [(a & b & -> & <-) (a' & b' & E & Hl)]. exists a, b'. split; [|done]. rewrite <- zlen_app in Hl.
    rewrite app_assoc in E. apply app_inj_1 in E; [|unfold zlen in Hl; lia]. destruct E as [<- ->]. by rewrite <- !app_assoc.
Qed.

Lemma store_holds off data m m' : store off data m = Some m' -> holds_at off data m'.
Proof.
  intros H. destruct (store_inv _ _ _ _ H) as (H1 & H2 & _). unfold store in H. destruct (in_range _ _ m); [|done]. injection H as <-.
  apply holds_at_split. eexists _, _. split; [done|]. pose proof (zlen_nonneg data). unfold zlen in *. rewrite length_take. lia.
Qed.

(** Byte by byte. *)
Lemma holds_at_lookup off data m :
  holds_at off data m <->
  0 <= off /\ off + zlen data <= zlen m /\ forall i x, data !! i = Some x -> m !! (Z.to_nat off + i)%nat = Some x.
Proof.
  rewrite holds_at_split. split.
  - intros (a & b & -> & <-). pose proof (zlen_nonneg a). pose proof (zlen_nonneg b). rewrite !zlen_app. split_and!; [lia|lia|].
    intros i x Hx. unfold zlen. rewrite Nat2Z.id, lookup_app_r by lia. replace (length a + i - length a)%nat with i by lia.
    by apply lookup_app_l_Some.
  - intros (H1 & H2 & H). exists (take (Z.to_nat off) m), (drop (Z.to_nat off + length data) m). pose proof (zlen_nonneg data).
    split; [|unfold zlen in *; rewrite length_take; lia].
    rewrite <- (take_drop (Z.to_nat off) m) at 1. f_equal. rewrite <- (take_drop (length data) (drop (Z.to_nat off) m)), drop_drop at 1.
    f_equal. apply list_eq_same_length with (length data); [done|unfold zlen in *; rewrite length_take, length_drop; lia|].
    intros i x y Hi Hx Hy. apply lookup_take_Some in Hx as [Hx _]. rewrite lookup_drop in Hx. apply H in Hy. congruence.
Qed.

(** Bytes outside the stored range stay. *)
Lemma store_keeps off data m m' off' d' :
  store off data m = Some m' -> holds_at off' d' m -> off' + zlen d' <= off \/ off + zlen data <= off' -> holds_at off' d' m'.
Proof.
  intros H Hh Hd. destruct (store_inv _ _ _ _ H) as (H1 & H2 & Hl). unfold store in H. destruct (in_range _ _ m); [|done].
  injection H as <-. apply holds_at_lookup in Hh as (H3 & H4 & Hh). apply holds_at_lookup. split_and!; [done|by rewrite Hl|].
  intros i x Hx. pose proof (lookup_lt_Some _ _ _ Hx) as Hi. specialize (Hh i x Hx). unfold zlen in *. destruct Hd as [Hd|Hd].
  - rewrite lookup_app_l by (rewrite length_take; lia). rewrite lookup_take_lt by lia. done.
  - rewrite lookup_app_r, length_take, lookup_app_r, lookup_drop by (rewrite ?length_take; lia). rewrite <- Hh. f_equal. lia.
Qed.

End Memory.
