(* ===== verification/PacketProto.v ===== *)
(** * Packets over a stream: badvpn's PacketProto

    tun2socks sends UDP packets through a TCP connection: PacketProtoEncoder.c puts a length
    in front of each packet, PacketStreamSender.c hands it to the stream piece by piece, and
    PacketProtoDecoder.c cuts the stream it receives, in pieces of any size, into packets
    again, with one buffer of the size of the largest frame.

    An object asks its input or output interface for one operation at a time; the request
    that is outstanding is part of its state, as an offset and a length in its buffer, and the
    interface's own assertions are checked where it is made. [None] is a failed assertion or
    an access outside the buffer. *)

From S2P Require Import Prelude Memory.
Import Memory.
Open Scope Z_scope.

Module PacketProto.

(** ** protocol/packetproto.h *)

Definition PACKETPROTO_ENCLEN (len : Z) : Z := 2 + len.
Definition PACKETPROTO_MAXPAYLOAD : Z := 65535.

(** ** PacketProtoEncoder.c

    [m] is the memory the receiver of the frames offers; [output_packet] an address in it. *)

Record encoder := mk_encoder { output_packet : option Z }.

Definition PacketProtoEncoder_Init : encoder := mk_encoder None.

(** Returns where the input interface is asked to put the packet. *)
Definition output_handler_recv (data : Z) (e : encoder) : option (encoder * Z) :=
  ASSERT (bool_decide (output_packet e = None));;
  Some (mk_encoder (Some data), data + 2).

(** Returns the length that is reported to the receiver of the frame. *)
Definition encoder_input_done (in_len : Z) (e : encoder) (m : bytes) : option (encoder * bytes * Z) :=
  a ← output_packet e;
  m ← store a (le_bytes 2 in_len) m;
  Some (mk_encoder None, m, PACKETPROTO_ENCLEN in_len).

(** ** PacketStreamSender.c

    [s_output] is what the stream was asked to send. [s_done] counts the packets reported as
    finished. *)

Record sender := mk_sender { in_len : Z; in_data : Z; in_used : Z; s_output : option (Z * Z); s_done : Z }.

Definition sender_init : sender := mk_sender (-1) 0 0 None 0.

Definition send_data (s : sender) : option sender :=
  ASSERT (0 <=? in_len s);;
  if in_used s <? in_len s then
    ASSERT (bool_decide (s_output s = None));;
    Some (mk_sender (in_len s) (in_data s) (in_used s) (Some (in_data s + in_used s, in_len s - in_used s)) (s_done s))
  else Some (mk_sender (-1) (in_data s) (in_used s) (s_output s) (s_done s + 1)).

Definition input_handler_send (data data_len : Z) (s : sender) : option sender :=
  ASSERT (in_len s =? -1);;
  ASSERT (0 <=? data_len);;
  send_data (mk_sender data_len data 0 (s_output s) (s_done s)).

(** The stream took [data_len] bytes. *)
Definition sender_output_done (data_len : Z) (s : sender) : option sender :=
  ASSERT (0 <=? in_len s);;
  ASSERT (0 <? data_len);;
  ASSERT (data_len <=? in_len s - in_used s);;
  send_data (mk_sender (in_len s) (in_data s) (in_used s + data_len) None (s_done s)).

(** ** PacketProtoDecoder.c *)

Record decoder := mk_decoder {
  interface_mtu : Z;            (* PacketPassInterface_GetMTU(output) *)
  output_mtu : Z;
  buf_size : Z;
  buf_start : Z;
  buf_used : Z;
  buf : bytes;
  d_recv : option (Z * Z);      (* outstanding receive *)
  d_send : option (Z * Z) }.    (* outstanding send *)

Definition set_buffer (start used : Z) (m : bytes) (d : decoder) : decoder :=
  mk_decoder (interface_mtu d) (output_mtu d) (buf_size d) start used m (d_recv d) (d_send d).
Definition set_recv r (d : decoder) : decoder :=
  mk_decoder (interface_mtu d) (output_mtu d) (buf_size d) (buf_start d) (buf_used d) (buf d) r (d_send d).
Definition set_send r (d : decoder) : decoder :=
  mk_decoder (interface_mtu d) (output_mtu d) (buf_size d) (buf_start d) (buf_used d) (buf d) (d_recv d) r.

(** [StreamRecvInterface_Receiver_Recv] and [PacketPassInterface_Sender_Send]: one operation
    at a time, of a size the interface allows. *)
Definition Receiver_Recv (data data_len : Z) (d : decoder) : option decoder :=
  ASSERT (0 <? data_len);;
  ASSERT (bool_decide (d_recv d = None));;
  Some (set_recv (Some (data, data_len)) d).
Definition Sender_Send (data data_len : Z) (d : decoder) : option decoder :=
  ASSERT (0 <=? data_len);;
  ASSERT (data_len <=? interface_mtu d);;
  ASSERT (bool_decide (d_send d = None));;
  Some (set_send (Some (data, data_len)) d).

(** After the loop body was left without a packet. *)
Definition receive_more (was_error : bool) (d : decoder) : option (decoder * bool) :=
  d ← (if was_error then Some (set_buffer 0 0 (buf d) d)
       else if buf_start d + buf_used d =? buf_size d then
         data ← load (buf_start d) (buf_used d) (buf d);
         m ← store 0 data (buf d);
         Some (set_buffer 0 (buf_used d) m d)
       else Some d);
  d ← Receiver_Recv (buf_start d + buf_used d) (buf_size d - (buf_start d + buf_used d)) d;
  Some (d, was_error).

(** The boolean says that [handler_error] is called. *)
Definition process_data (d : decoder) : option (decoder * bool) :=
  let left := buf_used d in
  if left <? 2 then receive_more false d else
  header ← load (buf_start d) 2 (buf d);
  let data_len := le_value header in
  if data_len >? output_mtu d then receive_more true d else
  if left - 2 <? data_len then receive_more false d else
  d' ← Sender_Send (buf_start d + 2) data_len
         (set_buffer (buf_start d + (2 + data_len)) (buf_used d - (2 + data_len)) (buf d) d);
  Some (d', false).

Definition input_handler_done (data_len : Z) (d : decoder) : option (decoder * bool) :=
  ASSERT (0 <? data_len);;
  ASSERT (data_len <=? buf_size d - (buf_start d + buf_used d));;
  process_data (set_buffer (buf_start d) (buf_used d + data_len) (buf d) d).

Definition output_handler_done (d : decoder) : option (decoder * bool) := process_data d.

(** [m] is what [malloc] returned. *)
Definition PacketProtoDecoder_Init (mtu : Z) (m : bytes) : option decoder :=
  let output_mtu := Z.min mtu PACKETPROTO_MAXPAYLOAD in
  let size := PACKETPROTO_ENCLEN output_mtu in
  Receiver_Recv 0 size (mk_decoder mtu output_mtu size 0 0 m None None).

Definition PacketProtoDecoder_Reset (d : decoder) : decoder :=
  set_buffer (buf_start d + buf_used d) 0 (buf d) d.

(** ** Runs

    What can happen to a decoder: the stream delivers bytes where they were asked for, the
    receiver of the packets finished one, or the owner resets it. *)

Inductive event := ev_received (data : bytes) | ev_sent | ev_reset.
Inductive output := out_packet (p : bytes) | out_error.

Definition allowed (e : event) (d : decoder) : bool :=
  match e with
  | ev_received data => match d_recv d with Some (_, len) => (0 <? zlen data) && (zlen data <=? len) && bool_decide (is_bytes data) | None => false end
  | ev_sent => bool_decide (d_send d <> None)
  | ev_reset => true
  end.

(** The packet that is being sent, read where the interface was told it is. *)
Definition sent_now (d : decoder) : option (list output) :=
  match d_send d with
  | Some (off, len) => p ← load off len (buf d); Some [out_packet p]
  | None => Some []
  end.

Definition outputs (r : decoder * bool) : option (decoder * list output) :=
  l ← sent_now r.1;
  Some (r.1, (if r.2 then [out_error] else []) ++ l).

Definition step (e : event) (d : decoder) : option (decoder * list output) :=
  match e with
  | ev_received data =>
      '(off, _) ← d_recv d;
      m ← store off data (buf d);
      r ← input_handler_done (zlen data) (set_recv None (set_buffer (buf_start d) (buf_used d) m d));
      outputs r
  | ev_sent => r ← output_handler_done (set_send None d); outputs r
  | ev_reset => Some (PacketProtoDecoder_Reset d, [])
  end.

Inductive decoder_run : decoder -> list event -> list output -> decoder -> Prop :=
| run_end d : decoder_run d [] [] d
| run_more d e es o os d1 d' :
    allowed e d = true -> step e d = Some (d1, o) -> decoder_run d1 es os d' -> decoder_run d (e :: es) (o ++ os) d'.

Fixpoint received (es : list event) : bytes :=
  match es with
  | [] => []
  | ev_received data :: es => data ++ received es
  | _ :: es => received es
  end.

(** ** Reference: the first frame of a byte string *)

Definition frame (p : bytes) : bytes := le_bytes 2 (zlen p) ++ p.

Inductive verdict := incomplete | too_large | whole (p rest : bytes).

Definition refused (v : verdict) : bool := match v with too_large => true | _ => false end.

Definition first_frame (mtu : Z) (q : bytes) : verdict :=
  if zlen q <? 2 then incomplete
  else
    let n := le_value (take 2 q) in
    if n >? mtu then too_large
    else if zlen q - 2 <? n then incomplete
    else whole (take (Z.to_nat n) (drop 2 q)) (drop (Z.to_nat n) (drop 2 q)).

Lemma zlen_frame p : zlen (frame p) = 2 + zlen p.
Proof. unfold frame. rewrite zlen_app. unfold zlen. rewrite length_le_bytes. lia. Qed.

Lemma first_frame_app mtu p rest :
  zlen p <= mtu -> mtu <= PACKETPROTO_MAXPAYLOAD -> first_frame mtu (frame p ++ rest) = whole p rest.
Proof.
  unfold PACKETPROTO_MAXPAYLOAD. intros H1 H2. unfold first_frame. pose proof (zlen_nonneg p). pose proof (zlen_nonneg rest).
  rewrite !zlen_app, zlen_frame. destruct (Z.ltb_spec (2 + zlen p + zlen rest) 2); [lia|]. unfold frame. rewrite <- app_assoc.
  rewrite take_app_length', drop_app_length' by done. cbv zeta.
  rewrite le_value_bytes by (change (256 ^ Z.of_nat 2) with 65536; lia).
  destruct (Z.gtb_spec (zlen p) mtu); [lia|]. destruct (Z.ltb_spec (2 + zlen p + zlen rest - 2) (zlen p)); [lia|].
  unfold zlen. rewrite Nat2Z.id. by rewrite take_app_length, drop_app_length.
Qed.

Lemma first_frame_whole mtu q p rest :
  is_bytes q -> first_frame mtu q = whole p rest -> q = frame p ++ rest /\ zlen p <= mtu.
Proof.
  intros Hq. unfold first_frame. destruct (Z.ltb_spec (zlen q) 2); [done|]. cbv zeta.
  destruct (Z.gtb_spec (le_value (take 2 q)) mtu); [done|]. set (n := le_value (take 2 q)) in *.
  destruct (Z.ltb_spec (zlen q - 2) n); [done|]. intros [= <- <-]. pose proof (le_value_range (take 2 q) (is_bytes_take 2 _ Hq)) as Hr.
  fold n in Hr. assert (Hl : zlen (take (Z.to_nat n) (drop 2 q)) = n).
  { unfold zlen in *. rewrite length_take, length_drop. lia. }
  split; [|lia]. unfold frame. rewrite Hl, <- app_assoc, take_drop. rewrite <- (take_drop 2 q) at 1. f_equal. unfold n.
  assert (Ht : length (take 2 q) = 2%nat) by (unfold zlen in *; rewrite length_take; lia).
  rewrite <- (le_bytes_value (take 2 q)) at 1 by (by apply is_bytes_take). by rewrite Ht.
Qed.

(** ** What holds of a decoder *)

(** [q] are the bytes that were received and not sent on. *)
Record holding (mtu : Z) (q : bytes) (d : decoder) : Prop := {
  ho_mtu : output_mtu d = mtu;
  ho_range : 0 <= mtu <= PACKETPROTO_MAXPAYLOAD;
  ho_interface : mtu <= interface_mtu d;
  ho_size : buf_size d = 2 + mtu;
  ho_buf : zlen (buf d) = 2 + mtu;
  ho_used : buf_used d = zlen q;
  ho_bytes : is_bytes q;
  ho_at : holds_at (buf_start d) q (buf d) }.

(** The decoder waits for bytes, which it asked for right behind those it has. *)
Definition waiting (d : decoder) : Prop :=
  d_send d = None /\ buf_start d + buf_used d < buf_size d /\
  d_recv d = Some (buf_start d + buf_used d, buf_size d - (buf_start d + buf_used d)).

(** It sends a packet, which is in its buffer before the bytes in hand. *)
Definition sending (p : bytes) (d : decoder) : Prop :=
  d_recv d = None /\ zlen p <= interface_mtu d /\
  exists off, d_send d = Some (off, zlen p) /\ holds_at off p (buf d) /\ off + zlen p <= buf_start d.

Lemma holds_range off q m : holds_at off q m -> 0 <= off <= off + zlen q /\ off + zlen q <= zlen m.
Proof. intros (? & ? & _)%holds_at_lookup. pose proof (zlen_nonneg q). lia. Qed.

Lemma Receiver_Recv_ok off len d :
  0 < len -> d_recv d = None -> Receiver_Recv off len d = Some (set_recv (Some (off, len)) d).
Proof.
  intros Hl Hr. unfold Receiver_Recv. rewrite (proj2 (Z.ltb_lt 0 len)), bool_decide_eq_true_2 by done. done.
Qed.
Lemma Sender_Send_ok off len d :
  0 <= len <= interface_mtu d -> d_send d = None -> Sender_Send off len d = Some (set_send (Some (off, len)) d).
Proof.
  intros [H1 H2] Hs. unfold Sender_Send.
  rewrite (proj2 (Z.leb_le 0 len)), (proj2 (Z.leb_le len (interface_mtu d))), bool_decide_eq_true_2 by done. done.
Qed.

Lemma receive_more_ok mtu q (was_error : bool) d :
  holding mtu q d -> d_recv d = None -> d_send d = None -> (was_error = false -> zlen q < 2 + mtu) ->
  exists d', receive_more was_error d = Some (d', was_error) /\ holding mtu (if was_error then [] else q) d' /\ waiting d' /\
    (was_error = true -> buf_start d' = 0).
Proof.
  intros Hd Hr Hs Hq. pose proof Hd as [H1 H2 H3 H4 H5 H6 H7 H8]. destruct (holds_range _ _ _ H8). unfold receive_more. destruct was_error.
  - cbn [mbind option_bind]. rewrite Receiver_Recv_ok by (cbn; lia || done). eexists. split; [done|]. split; [|split; [|done]].
    + split; cbn; try done; [constructor|]. apply holds_at_nil. lia.
    + split_and!; cbn; [done|lia|done].
  - specialize (Hq eq_refl). destruct (Z.eqb_spec (buf_start d + buf_used d) (buf_size d)) as [E|E].
    + rewrite H6. unfold holds_at in H8. rewrite H8. cbn [mbind option_bind]. destruct (store_some 0 q (buf d)) as (m & Hm & Hl); [lia|lia|].
      rewrite Hm. cbn [mbind option_bind]. rewrite Receiver_Recv_ok by (cbn; lia || done). eexists. split; [done|]. split; [|split; [|done]].
      * split; cbn; try done; try lia. by eapply store_holds.
      * split_and!; cbn; [done|lia|done].
    + cbn [mbind option_bind]. rewrite Receiver_Recv_ok by (lia || done). eexists. split; [done|]. split; [by split|]. split; [|done].
      split_and!; cbn; [done|lia|done].
Qed.

Lemma process_data_ok mtu q d :
  holding mtu q d -> d_recv d = None -> d_send d = None ->
  exists d', process_data d = Some (d', refused (first_frame mtu q)) /\
    match first_frame mtu q with
    | incomplete => holding mtu q d' /\ waiting d'
    | too_large => holding mtu [] d' /\ waiting d' /\ buf_start d' = 0
    | whole p rest => holding mtu rest d' /\ sending p d'
    end.
Proof.
  intros Hd Hr Hs. pose proof Hd as [H1 H2 H3 H4 H5 H6 H7 H8]. destruct (holds_range _ _ _ H8) as [R1 R2].
  unfold process_data, first_frame. cbv zeta. rewrite H6, H1. destruct (Z.ltb_spec (zlen q) 2) as [L2|L2].
  { destruct (receive_more_ok mtu q false d Hd Hr Hs) as (d' & E & ? & ? & _); [lia|]. by exists d'. }
  assert (Hh : load (buf_start d) 2 (buf d) = Some (take 2 q) /\ holds_at (buf_start d + 2) (drop 2 q) (buf d)).
  { rewrite <- (take_drop 2 q) in H8. apply holds_at_app in H8. assert (zlen (take 2 q) = 2) as E.
    { unfold zlen in *. rewrite length_take. lia. } unfold holds_at in H8 at 1. by rewrite E in H8. }
  destruct Hh as [-> Hrest]. cbn [mbind option_bind]. pose proof (le_value_range (take 2 q) (is_bytes_take 2 _ H7)) as [Hn _].
  set (n := le_value (take 2 q)) in *. destruct (Z.gtb_spec n mtu) as [Hbig|Hbig].
  { destruct (receive_more_ok mtu q true d Hd Hr Hs) as (d' & E & ? & ? & ?); [done|]. exists d'. auto. }
  destruct (Z.ltb_spec (zlen q - 2) n) as [Hs'|Hs'].
  { destruct (receive_more_ok mtu q false d Hd Hr Hs) as (d' & E & ? & ? & _); [lia|]. by exists d'. }
  rewrite Sender_Send_ok by (cbn; lia || done). cbn [mbind option_bind]. eexists. split; [done|]. assert (Hl : zlen (take (Z.to_nat n) (drop 2 q)) = n).
  { unfold zlen in *. rewrite length_take, length_drop. lia. }
  rewrite <- (take_drop (Z.to_nat n) (drop 2 q)), holds_at_app, Hl in Hrest. destruct Hrest as [Hp Hq].
  split; [|split_and!; cbn; [done|lia|]].
  - split; cbn; try done; [| |by rewrite Z.add_assoc].
    + unfold zlen in *. rewrite !length_drop. lia.
    + by apply is_bytes_drop, is_bytes_drop.
  - exists (buf_start d + 2). rewrite Hl. split_and!; [done|done|lia].
Qed.

(** ** The abstract decoder: the bytes in hand *)

Definition cut (mtu : Z) (q : bytes) : bytes * list output :=
  match first_frame mtu q with
  | incomplete => (q, [])
  | too_large => ([], [out_error])
  | whole p rest => (rest, [out_packet p])
  end.

Definition spec_step (mtu : Z) (e : event) (q : bytes) : bytes * list output :=
  match e with
  | ev_received data => cut mtu (q ++ data)
  | ev_sent => cut mtu q
  | ev_reset => ([], [])
  end.

Fixpoint spec_run (mtu : Z) (es : list event) (q : bytes) : bytes * list output :=
  match es with
  | [] => (q, [])
  | e :: es => let '(q, o) := spec_step mtu e q in let '(q, os) := spec_run mtu es q in (q, o ++ os)
  end.

(** A decoder between two events: it waits, with no complete frame in hand, or it sends. *)
Definition decoding (mtu : Z) (q : bytes) (d : decoder) : Prop :=
  holding mtu q d /\ (waiting d /\ first_frame mtu q = incomplete \/ exists p, sending p d).

Lemma decoder_init_ok mtu m :
  0 <= mtu -> zlen m = PACKETPROTO_ENCLEN (Z.min mtu PACKETPROTO_MAXPAYLOAD) ->
  exists d, PacketProtoDecoder_Init mtu m = Some d /\ decoding (Z.min mtu PACKETPROTO_MAXPAYLOAD) [] d.
Proof.
  unfold PACKETPROTO_ENCLEN, PACKETPROTO_MAXPAYLOAD. intros Hm Hl. unfold PacketProtoDecoder_Init, PACKETPROTO_ENCLEN, PACKETPROTO_MAXPAYLOAD.
  rewrite Receiver_Recv_ok by (lia || done). eexists. split; [done|]. split; [|left; split; [|done]].
  - split; cbn; unfold PACKETPROTO_MAXPAYLOAD; try done; try lia; [constructor|]. apply holds_at_nil. lia.
  - split_and!; cbn; [done|lia|]. by rewrite Z.sub_0_r.
Qed.

Lemma process_refines mtu q d :
  holding mtu q d -> d_recv d = None -> d_send d = None ->
  exists d', (r ← process_data d; outputs r) = Some (d', (cut mtu q).2) /\ decoding mtu (cut mtu q).1 d' /\
    (out_error ∈ (cut mtu q).2 -> buf_start d' = 0 /\ waiting d').
Proof.
  intros Hd Hr Hs. destruct (process_data_ok mtu q d Hd Hr Hs) as (d' & E & H). exists d'. rewrite E. unfold cut, outputs, sent_now.
  destruct (first_frame mtu q) as [| |p rest] eqn:Ef; cbn.
  - destruct H as [H Hw]. pose proof Hw as (-> & _). cbn. split; [done|]. split; [split; auto|by intros ?%not_elem_of_nil].
  - destruct H as (H & Hw & ?). pose proof Hw as (-> & _). cbn. split; [done|]. split; [split; auto|done].
  - destruct H as [H Hp]. pose proof Hp as (_ & _ & off & -> & Hh & _). unfold holds_at in Hh. cbn. rewrite Hh. cbn. split; [done|].
    split; [split; [done|right; by exists p]|]. by intros ?%list_elem_of_singleton.
Qed.

Lemma step_refines mtu e q d :
  decoding mtu q d -> allowed e d = true ->
  exists d', step e d = Some (d', (spec_step mtu e q).2) /\ decoding mtu (spec_step mtu e q).1 d' /\
    (out_error ∈ (spec_step mtu e q).2 -> buf_start d' = 0 /\ waiting d').
Proof.
  intros [Hd Hst] Ha. pose proof Hd as [H1 H2 H3 H4 H5 H6 H7 H8]. destruct e as [data| |]; cbn [allowed step spec_step] in *.
  - destruct Hst as [[(Hs & Hroom & Hr) _]|(p & Hr & _)]; rewrite Hr in *; [|done]. cbv beta iota in Ha. apply andb_true_iff in Ha as [[Ha1 Ha2]%andb_true_iff Ha3].
    apply Z.ltb_lt in Ha1. apply Z.leb_le in Ha2. apply bool_decide_eq_true in Ha3. destruct (holds_range _ _ _ H8).
    cbn [mbind option_bind]. destruct (store_some (buf_start d + buf_used d) data (buf d)) as (m & Hm & Hl); [lia|lia|].
    rewrite Hm. cbn [mbind option_bind]. unfold input_handler_done. cbn [set_recv set_buffer buf_size buf_start buf_used].
    rewrite (proj2 (Z.ltb_lt 0 (zlen data))), (proj2 (Z.leb_le (zlen data) _)) by lia. cbn [ASSERT mbind option_bind].
    apply process_refines; [|done|done]. split; cbn; try done.
    + by rewrite Hl.
    + rewrite H6. by rewrite zlen_app.
    + by apply is_bytes_app.
    + apply holds_at_app. split; [eapply store_keeps; [exact Hm|done|lia]|]. rewrite <- H6. by eapply store_holds.
  - destruct Hst as [[(Hs & _) _]|(p & Hr & _ & off & Hs & _)]; rewrite Hs in *; [done|]. apply process_refines; [|done|done]. by split.
  - exists (PacketProtoDecoder_Reset d). split; [done|]. destruct (holds_range _ _ _ H8).
    split; [|by intros ?%not_elem_of_nil]. split.
    + split; cbn; try done; [constructor|]. apply holds_at_nil. lia.
    + destruct Hst as [[(Hs & Hroom & Hr) _]|(p & Hr & Hi & off & Hs & Hh & Ho)].
      * left. split; [|done]. split_and!; cbn; [done|lia|]. rewrite Hr. do 2 f_equal; lia.
      * right. exists p. split_and!; [done|done|]. exists off. split_and!; [done|done|cbn]. rewrite H6. pose proof (zlen_nonneg q). lia.
Qed.

Lemma run_refines mtu d es os d' q :
  decoder_run d es os d' -> decoding mtu q d -> os = (spec_run mtu es q).2 /\ decoding mtu (spec_run mtu es q).1 d'.
Proof.
  intros H. revert q. induction H as [d|d e es o os d1 d' Ha Hs Hr IH]; intros q Hd; [done|].
  destruct (step_refines mtu e q d Hd Ha) as (d2 & E & Hd2 & _). rewrite Hs in E. injection E as <- ->. destruct (IH _ Hd2) as [-> Hd'].
  cbn [spec_run]. destruct (spec_step mtu e q) as [q1 o1]. cbn in *. by destruct (spec_run mtu es q1).
Qed.

(** ** Reading frames back *)

Lemma too_large_app mtu q r : first_frame mtu q = too_large -> first_frame mtu (q ++ r) = too_large.
Proof.
  unfold first_frame. destruct (Z.ltb_spec (zlen q) 2); [done|]. cbv zeta. pose proof (zlen_nonneg r). rewrite zlen_app.
  destruct (Z.ltb_spec (zlen q + zlen r) 2); [lia|]. rewrite take_app_le by (unfold zlen in *; lia).
  destruct (le_value (take 2 q) >? mtu); [done|]. by destruct (zlen q - 2 <? _).
Qed.

Definition fits (mtu : Z) (p : bytes) : Prop := is_bytes p /\ zlen p <= mtu.

Definition frames (ps : list bytes) : bytes := concat (frame <$> ps).

(** What the abstract decoder makes of the beginning of a sequence of frames. *)
Lemma cut_frames mtu q ps :
  mtu <= PACKETPROTO_MAXPAYLOAD -> Forall (fits mtu) ps -> is_bytes q -> q `prefix_of` frames ps ->
  cut mtu q = (q, []) \/
  exists p ps', ps = p :: ps' /\ q = frame p ++ (cut mtu q).1 /\ (cut mtu q).2 = [out_packet p] /\ (cut mtu q).1 `prefix_of` frames ps'.
Proof.
  intros Hm Hf Hb [r Hr]. unfold cut. destruct (first_frame mtu q) as [| |p rest] eqn:E; [by left|exfalso|right].
  - destruct Hf as [|p ps [_ Hp] _].
    + symmetry in Hr. apply app_eq_nil in Hr as [-> _]. done.
    + apply (too_large_app _ _ r) in E. rewrite <- Hr in E. change (frames (p :: ps)) with (frame p ++ frames ps) in E.
      by rewrite first_frame_app in E.
  - destruct (first_frame_whole _ _ _ _ Hb E) as [Hq Hl]. destruct Hf as [|p0 ps [_ Hp] _].
    { symmetry in Hr. apply app_eq_nil in Hr as [-> _]. done. }
    assert (E0 : first_frame mtu (frame p0 ++ frames ps) = whole p (rest ++ r)).
    { change (frame p0 ++ frames ps) with (frames (p0 :: ps)). rewrite Hr, Hq, <- app_assoc. by apply first_frame_app. }
    rewrite first_frame_app in E0 by done. injection E0 as -> E0. exists p, ps. split_and!; try done. by exists r.
Qed.

Lemma cut_bytes mtu q : is_bytes q -> is_bytes (cut mtu q).1.
Proof.
  intros Hq. unfold cut. destruct (first_frame mtu q) as [| |p rest] eqn:E; [done|constructor|].
  destruct (first_frame_whole _ _ _ _ Hq E) as [-> _]. by apply is_bytes_app in Hq as [_ ?].
Qed.

Definition no_reset (e : event) : bool := match e with ev_reset => false | _ => true end.
Definition of_bytes (e : event) : bool := match e with ev_received data => bool_decide (is_bytes data) | _ => true end.

Lemma spec_run_frames mtu es q ps :
  mtu <= PACKETPROTO_MAXPAYLOAD -> Forall (fits mtu) ps -> is_bytes q -> Forall (fun e => no_reset e && of_bytes e = true) es ->
  q ++ received es `prefix_of` frames ps ->
  exists sent rest, ps = sent ++ rest /\ (spec_run mtu es q).2 = out_packet <$> sent /\
    q ++ received es = frames sent ++ (spec_run mtu es q).1.
Proof.
  intros Hm. revert q ps. induction es as [|e es IH]; intros q ps Hf Hb He Hp; cbn [received spec_run] in *.
  { exists [], ps. split_and!; try done. cbn. by rewrite app_nil_r. }
  apply Forall_cons in He as [[He1 He2]%andb_true_iff He].
  assert (Hcut : forall q1, is_bytes q1 -> q1 ++ received es `prefix_of` frames ps -> spec_step mtu e q = cut mtu q1 ->
    q1 ++ received es = q ++ received (e :: es) ->
    exists sent rest, ps = sent ++ rest /\
      (let '(q, o) := spec_step mtu e q in let '(q, os) := spec_run mtu es q in (q, o ++ os)).2 = out_packet <$> sent /\
      q ++ received (e :: es) = frames sent ++ (let '(q, o) := spec_step mtu e q in let '(q, os) := spec_run mtu es q in (q, o ++ os)).1).
  { intros q1 Hb1 Hp1 -> <-. assert (Hpq : q1 `prefix_of` frames ps) by (etrans; [|exact Hp1]; by exists (received es)).
    destruct (cut_frames mtu q1 ps Hm Hf Hb1 Hpq) as [-> |(p & ps' & -> & Hq & Ho & _)].
    - destruct (IH q1 ps Hf Hb1 He Hp1) as (sent & rest & ? & E1 & E2). exists sent, rest.
      destruct (spec_run mtu es q1) as [q2 os]. by split_and!.
    - pose proof (cut_bytes mtu q1 Hb1) as Hb2. destruct (cut mtu q1) as [q2 o]. cbn [fst snd] in Hq, Ho, Hb2. subst o.
      apply Forall_cons in Hf as [_ Hf]. destruct (IH q2 ps' Hf Hb2 He) as (sent & rest & -> & E1 & E2).
      { destruct Hp1 as [k Hk]. exists k. change (frames (p :: ps')) with (frame p ++ frames ps') in Hk. rewrite Hq, <- !app_assoc in Hk.
        apply app_inv_head in Hk. by rewrite <- app_assoc. }
      exists (p :: sent), rest. destruct (spec_run mtu es q2) as [q3 os]. cbn [fst snd app] in E1, E2 |- *. split_and!; [done|by rewrite E1|].
      change (frames (p :: sent)) with (frame p ++ frames sent). by rewrite Hq, <- !app_assoc, E2. }
  destruct e as [data| |]; cbn in He1, He2 |- *; [| |done].
  - apply (Hcut (q ++ data)); [|by rewrite <- app_assoc|done|by rewrite <- app_assoc]. apply is_bytes_app. split; [done|].
    by apply bool_decide_eq_true in He2.
  - by apply (Hcut q).
Qed.

Lemma run_of_bytes d es os d' : decoder_run d es os d' -> Forall (fun e => of_bytes e = true) es.
Proof.
  induction 1 as [|d e es o os d1 d' Ha _ _ IH]; constructor; [|done]. destruct e as [data| |]; [|done..]. cbn in *.
  destruct (d_recv d) as [[off len]|]; [|done]. by apply andb_true_iff in Ha as [_ ?].
Qed.

(** ** Sending a packet piece by piece *)

(** The stream was given [p] up to [n] bytes of it, and is asked for the rest. *)
Definition passing (a : Z) (p : bytes) (n : Z) (s : sender) : Prop :=
  if n <? zlen p then in_len s = zlen p /\ in_data s = a /\ in_used s = n /\ s_output s = Some (a + n, zlen p - n)
  else in_len s = -1 /\ s_output s = None.

(** The pieces the stream takes, by their sizes. *)
Fixpoint take_pieces (m : bytes) (ns : list Z) (s : sender) : option (bytes * sender) :=
  match ns with
  | [] => Some ([], s)
  | n :: ns =>
      '(off, _) ← s_output s;
      piece ← load off n m;
      s ← sender_output_done n s;
      '(l, s) ← take_pieces m ns s;
      Some (piece ++ l, s)
  end.

Lemma send_data_passing a p n used_done s :
  0 <= n <= zlen p -> in_len s = zlen p -> in_data s = a -> in_used s = n -> s_output s = None -> s_done s = used_done ->
  exists s', send_data s = Some s' /\ passing a p n s' /\ s_done s' = if n <? zlen p then used_done else used_done + 1.
Proof.
  intros Hn H1 H2 H3 H4 H5. unfold send_data, passing. rewrite H1, H2, H3, H4, H5. pose proof (zlen_nonneg p).
  rewrite (proj2 (Z.leb_le 0 (zlen p))) by lia. cbn [ASSERT mbind option_bind]. destruct (Z.ltb_spec n (zlen p)).
  - rewrite bool_decide_eq_true_2 by done. eexists. split; [done|]. by split_and!.
  - eexists. split; [done|]. by split_and!.
Qed.

Definition total (ns : list Z) : Z := foldr Z.add 0 ns.

Lemma total_nonneg ns : Forall (Z.lt 0) ns -> 0 <= total ns.
Proof. unfold total. induction 1; cbn; lia. Qed.

Lemma take_pieces_ok a p ns n m s :
  holds_at a p m -> 0 <= n -> passing a p n s -> Forall (Z.lt 0) ns -> n + total ns <= zlen p ->
  exists s', take_pieces m ns s = Some (take (Z.to_nat (total ns)) (drop (Z.to_nat n) p), s') /\ passing a p (n + total ns) s' /\
    s_done s' = if (n <? zlen p) && negb (n + total ns <? zlen p) then s_done s + 1 else s_done s.
Proof.
  intros Hp. revert n s. induction ns as [|k ns IH]; intros n s Hn Hs Hpos Hsum.
  { exists s. cbn in *. rewrite Z.add_0_r, take_0. split_and!; [done|done|]. by destruct (n <? zlen p). }
  apply Forall_cons in Hpos as [Hk Hpos]. change (total (k :: ns)) with (k + total ns) in *.
  pose proof (total_nonneg ns Hpos) as Htot.
  unfold passing in Hs. destruct (Z.ltb_spec n (zlen p)) as [Hlt|Hlt]; [|lia]. destruct Hs as (E1 & E2 & E3 & E4).
  cbn [take_pieces]. rewrite E4. cbn [mbind option_bind].
  assert (Hpiece : load (a + n) k m = Some (take (Z.to_nat k) (drop (Z.to_nat n) p))).
  { rewrite <- (take_drop (Z.to_nat n) p), holds_at_app in Hp. destruct Hp as [_ Hp].
    assert (Hl : zlen (take (Z.to_nat n) p) = n) by (unfold zlen in *; rewrite length_take; lia). rewrite Hl in Hp.
    rewrite <- (take_drop (Z.to_nat k) (drop (Z.to_nat n) p)), holds_at_app in Hp. destruct Hp as [Hp _]. unfold holds_at in Hp.
    assert (Hl2 : zlen (take (Z.to_nat k) (drop (Z.to_nat n) p)) = k) by (unfold zlen in *; rewrite length_take, length_drop; lia).
    by rewrite Hl2 in Hp. }
  rewrite Hpiece. cbn [mbind option_bind]. unfold sender_output_done. rewrite E1, E2, E3. pose proof (zlen_nonneg p).
  rewrite (proj2 (Z.leb_le 0 (zlen p))), (proj2 (Z.ltb_lt 0 k)), (proj2 (Z.leb_le k (zlen p - n))) by lia. cbn [ASSERT mbind option_bind].
  edestruct (send_data_passing a p (n + k) (s_done s)) as (s1 & -> & Hs1 & Hd1); [lia|done|done|done|done|done|]. cbn [mbind option_bind].
  destruct (IH (n + k) s1) as (s2 & -> & Hs2 & Hd2); [lia|done|done|lia|]. cbn [mbind option_bind]. exists s2.
  split; [|rewrite Z.add_assoc; split; [done|]].
  - f_equal. f_equal. rewrite !Z2Nat.inj_add, <- drop_drop by lia. by rewrite <- take_take_drop.
  - rewrite Hd2, Hd1. cbn [andb]. destruct (Z.ltb_spec (n + k) (zlen p)); cbn; [done|].
    destruct (Z.ltb_spec (n + k + total ns) (zlen p)); cbn; [lia|done].
Qed.

(** ** Theorems *)

(** C22: A stream of frames, however it is cut into pieces and however receiving and sending
    alternate, is decoded into the packets it was made from, in their order: at any time a
    prefix of them was handed on, and when the whole stream was received and the decoder
    waits for more, all of them were. Nothing is reported as an error. *)
Theorem packetproto_roundtrip mtu m d ps es os d' :
  0 <= mtu -> zlen m = PACKETPROTO_ENCLEN (Z.min mtu PACKETPROTO_MAXPAYLOAD) -> PacketProtoDecoder_Init mtu m = Some d ->
  Forall (fits (Z.min mtu PACKETPROTO_MAXPAYLOAD)) ps ->
  decoder_run d es os d' -> Forall (fun e => no_reset e = true) es -> received es `prefix_of` frames ps ->
  exists sent, sent `prefix_of` ps /\ os = out_packet <$> sent /\ (received es = frames ps -> is_Some (d_recv d') -> sent = ps).
Proof.
  intros Hm Hl Hi Hps Hrun Hnr Hpre. destruct (decoder_init_ok mtu m Hm Hl) as (d0 & E & Hd). rewrite Hi in E. injection E as <-.
  destruct (run_refines _ _ _ _ _ _ Hrun Hd) as [-> Hd'].
  assert (He : Forall (fun e => no_reset e && of_bytes e = true) es).
  { apply run_of_bytes in Hrun. rewrite Forall_forall in *. intros e Hin. by rewrite Hnr, Hrun. }
  destruct (spec_run_frames _ es [] ps (Z.le_min_r _ _) Hps (Forall_nil_2 _) He Hpre) as (sent & rest & -> & Eo & Eq).
  exists sent. split; [by exists rest|]. split; [done|]. intros Hall [r Hr]. cbn [app] in Eq.
  destruct Hd' as [_ [[_ Hinc]|(p & Hnone & _)]]; [|congruence]. rewrite Hall in Eq. unfold frames in Eq.
  rewrite fmap_app, concat_app in Eq. apply app_inv_head in Eq. rewrite <- Eq in Hinc. destruct rest as [|p rest]; [by rewrite app_nil_r|].
  apply Forall_app in Hps as [_ Hps]. apply Forall_cons in Hps as [[_ Hp] _].
  change (concat (frame <$> p :: rest)) with (frame p ++ frames rest) in Hinc. rewrite first_frame_app in Hinc by (done || apply Z.le_min_r). done.
Qed.

(** From its initialisation on, whatever the stream delivers, a decoder handles every event
    without leaving its buffer or breaking a rule of its interfaces, and it always has
    exactly one operation outstanding: a receive of at least one byte into free space, or
    the send of a packet that lies in the buffer. So it cannot get stuck on a full buffer. *)
Theorem decoder_never_stuck mtu m d es os d' :
  0 <= mtu -> zlen m = PACKETPROTO_ENCLEN (Z.min mtu PACKETPROTO_MAXPAYLOAD) -> PacketProtoDecoder_Init mtu m = Some d ->
  decoder_run d es os d' ->
  (forall e, allowed e d' = true -> is_Some (step e d')) /\
  match d_recv d', d_send d' with
  | Some (off, len), None => 0 < len /\ off = buf_start d' + buf_used d' /\ 0 <= off /\ off + len = zlen (buf d')
  | None, Some (off, len) => 0 <= off /\ 0 <= len <= interface_mtu d' /\ off + len <= buf_start d'
  | _, _ => False
  end.
Proof.
  intros Hm Hl Hi Hrun. destruct (decoder_init_ok mtu m Hm Hl) as (d0 & E & Hd). rewrite Hi in E. injection E as <-.
  destruct (run_refines _ _ _ _ _ _ Hrun Hd) as [_ Hd']. split.
  { intros e He. destruct (step_refines _ e _ d' Hd' He) as (d2 & -> & _). by eexists. }
  destruct Hd' as [[_ _ _ H4 H5 H6 _ H8] [[(Hs & Hroom & Hr) _]|(p & Hr & Hp & off & Hs & Hh & Ho)]]; rewrite Hr, Hs.
  - destruct (holds_range _ _ _ H8). split_and!; lia.
  - destruct (holds_range _ _ _ Hh). split_and!; lia.
Qed.

(** A header that announces more than the receiver of the packets takes is reported, and the
    decoder is then as it was initialised: it has no bytes and receives into its whole
    buffer. *)
Theorem oversized_frame_resets mtu q d data :
  decoding mtu q d -> allowed (ev_received data) d = true -> first_frame mtu (q ++ data) = too_large ->
  exists d', step (ev_received data) d = Some (d', [out_error]) /\ buf_used d' = 0 /\ d_send d' = None /\
    d_recv d' = Some (0, PACKETPROTO_ENCLEN mtu).
Proof.
  intros Hd Ha Hf. destruct (step_refines mtu _ q d Hd Ha) as (d' & E & Hd' & H0). exists d'. rewrite E. cbn [spec_step] in *.
  unfold cut in *. rewrite Hf in *. cbn [fst snd] in *. specialize (H0 ltac:(by left)).
  destruct Hd' as [[_ _ _ H4 _ H6 _ _] _]. destruct H0 as (H0 & Hs & _ & ->). rewrite H0, H4, H6. split_and!; try done.
  cbn. by rewrite Z.sub_0_r.
Qed.

(** The encoder makes of a packet its frame, in the memory it was offered, and reports the
    length of the frame. *)
Theorem encoder_writes_frame a p m m1 e e1 in_at :
  output_handler_recv a e = Some (e1, in_at) -> store in_at p m = Some m1 -> 0 <= a ->
  exists e2 m2, encoder_input_done (zlen p) e1 m1 = Some (e2, m2, zlen (frame p)) /\ holds_at a (frame p) m2 /\
    output_packet e2 = None.
Proof.
  unfold output_handler_recv. case_bool_decide; [|done]. cbn [ASSERT mbind option_bind]. intros [= <- <-] Hm Ha. unfold encoder_input_done. cbn [output_packet mbind option_bind].
  destruct (store_inv _ _ _ _ Hm) as (_ & Hr & Hl). pose proof (zlen_nonneg p).
  assert (H2 : zlen (le_bytes 2 (zlen p)) = 2) by (unfold zlen; by rewrite length_le_bytes).
  destruct (store_some a (le_bytes 2 (zlen p)) m1) as (m2 & Hm2 & _); [done|lia|]. rewrite Hm2. cbn [mbind option_bind].
  eexists _, m2. rewrite zlen_frame. split; [done|]. split; [|done]. unfold frame. rewrite holds_at_app, H2. split; [by eapply store_holds|].
  eapply store_keeps; [exact Hm2|by eapply store_holds|lia].
Qed.

(** Whatever sizes the stream takes, it gets the packet from its beginning on, and the
    sender reports the packet as finished exactly when the stream has all of it. *)
Theorem sender_passes_packet a p m ns s :
  holds_at a p m -> in_len s = -1 -> s_output s = None -> Forall (Z.lt 0) ns -> total ns <= zlen p ->
  exists s1 s2, input_handler_send a (zlen p) s = Some s1 /\ take_pieces m ns s1 = Some (take (Z.to_nat (total ns)) p, s2) /\
    s_done s2 = (if total ns <? zlen p then s_done s else s_done s + 1) /\
    s_output s2 = (if total ns <? zlen p then Some (a + total ns, zlen p - total ns) else None).
Proof.
  intros Hp Hi Ho Hpos Hsum. unfold input_handler_send. rewrite Hi, Z.eqb_refl. pose proof (zlen_nonneg p).
  rewrite (proj2 (Z.leb_le 0 (zlen p))) by lia. cbn [ASSERT mbind option_bind].
  edestruct (send_data_passing a p 0 (s_done s)) as (s1 & -> & Hs1 & Hd1); [lia|done|done|done|done|done|].
  destruct (take_pieces_ok a p ns 0 m s1 Hp) as (s2 & E & Hs2 & Hd2); [lia|done|done|lia|]. exists s1, s2.
  split; [done|]. rewrite E. split; [done|]. rewrite Z.add_0_l in *. rewrite Hd2, Hd1. unfold passing in Hs2.
  pose proof (total_nonneg ns Hpos).
  destruct (Z.ltb_spec (total ns) (zlen p)).
  - destruct Hs2 as (_ & _ & _ & ->). destruct (Z.ltb_spec 0 (zlen p)); [done|lia].
  - destruct Hs2 as (_ & ->). by destruct (Z.ltb_spec 0 (zlen p)).
Qed.

(** ** A decoder for packets of up to five bytes *)

Fixpoint exec (es : list event) (d : decoder) : option (list output * decoder) :=
  match es with
  | [] => Some ([], d)
  | e :: es =>
      if allowed e d then '(d, o) ← step e d; '(os, d) ← exec es d; Some (o ++ os, d) else None
  end.

Lemma decoder_exec_run es d os d' : exec es d = Some (os, d') -> decoder_run d es os d'.
Proof.
  revert d os. induction es as [|e es IH]; intros d os; cbn; [intros [= <- <-]; constructor|].
  destruct (allowed e d) eqn:Ha; [|done]. destruct (step e d) as [[d1 o]|] eqn:Hs; [|done]. cbn.
  destruct (exec es d1) as [[os1 d2]|] eqn:He; [|done]. cbn. intros [= <- <-]. econstructor; eauto.
Qed.

Definition some_packets : list bytes := [[1; 2; 3]; []; [4; 5; 6; 7; 8]].
(** Headers and packets arrive in pieces; the buffer is wrapped around in between. *)
Definition some_events : list event :=
  [ev_received [3]; ev_received [0; 1; 2; 3; 0]; ev_sent; ev_received [0]; ev_sent; ev_received [5; 0; 4; 5]; ev_received [6; 7; 8]; ev_sent].
Definition some_decoder : decoder := mk_decoder 5 5 7 0 0 (replicate 7 0) (Some (0, 7)) None.
Definition some_end : decoder := match exec some_events some_decoder with Some (_, d) => d | None => some_decoder end.

Lemma decoder_some_run : decoder_run some_decoder some_events (out_packet <$> some_packets) some_end.
Proof. apply decoder_exec_run. vm_compute. reflexivity. Qed.

Lemma packetproto_roundtrip_witness : exists sent, out_packet <$> some_packets = out_packet <$> sent /\ sent = some_packets.
Proof.
  edestruct (packetproto_roundtrip 5 (replicate 7 0) some_decoder some_packets some_events) as (sent & _ & H1 & H2);
    [lia|reflexivity|reflexivity| |exact decoder_some_run|repeat constructor|exists []; reflexivity|].
  - repeat (apply Forall_cons; split); [..|apply Forall_nil; exact I];
      (split; [apply (bool_decide_unpack _); vm_compute; exact I|vm_compute; discriminate]).
  - exists sent. split; [exact H1|]. apply H2; [reflexivity|eexists; vm_compute; reflexivity].
Defined.

Lemma decoder_never_stuck_witness : is_Some (step (ev_received [9]) some_end).
Proof.
  destruct (decoder_never_stuck 5 (replicate 7 0) some_decoder some_events _ _ ltac:(lia) eq_refl eq_refl decoder_some_run) as [H _].
  apply H. vm_compute. reflexivity.
Defined.

Lemma oversized_frame_witness :
  exists d', step (ev_received [6; 0; 1]) some_decoder = Some (d', [out_error]) /\ d_recv d' = Some (0, 7).
Proof.
  destruct (decoder_init_ok 5 (replicate 7 0)) as (d & E & Hd); [lia|reflexivity|]. injection E as <-.
  destruct (oversized_frame_resets 5 [] some_decoder [6; 0; 1] Hd) as (d' & H1 & _ & _ & H2); [reflexivity|reflexivity|]. by exists d'.
Defined.

Lemma encoder_writes_frame_witness :
  exists e m, encoder_input_done 2 (mk_encoder (Some 1)) [0; 0; 0; 7; 8; 0] = Some (e, m, 4) /\ holds_at 1 [2; 0; 7; 8] m.
Proof.
  destruct (encoder_writes_frame 1 [7; 8] (replicate 6 0) [0; 0; 0; 7; 8; 0] PacketProtoEncoder_Init (mk_encoder (Some 1)) 3)
    as (e & m & H1 & H2 & _); [reflexivity|reflexivity|lia|]. exists e, m. exact (conj H1 H2).
Defined.

Lemma sender_passes_packet_witness :
  exists s1 s2, input_handler_send 0 3 sender_init = Some s1 /\ take_pieces [1; 2; 3] [2; 1] s1 = Some ([1; 2; 3], s2) /\ s_done s2 = 1.
Proof.
  destruct (sender_passes_packet 0 [1; 2; 3] [1; 2; 3] [2; 1] sender_init) as (s1 & s2 & H1 & H2 & H3 & _);
    [reflexivity|reflexivity|reflexivity|by apply (bool_decide_unpack _)|vm_compute; discriminate|]. exists s1, s2. by split_and!.
Defined.

End PacketProto.
