(* ===== verification/ChunkBuffer.v ===== *)
(** * Queues of packets: badvpn's ChunkBuffer2.h and PacketBuffer.c

    ChunkBuffer2 keeps packets of different lengths one after the other in a ring of four-byte
    blocks, each packet behind a block with its length; it wraps around early rather than
    split a packet. PacketBuffer puts it between a producer and a consumer of packets. The
    theorems show that this is a queue, that the producer never overwrites a packet that was
    not consumed, and that the promised number of packets fits.

    The ring is modelled byte by byte; [None] is a failed assertion or an access outside it. *)

From S2P Require Import Prelude Memory.
Import Memory.
Open Scope Z_scope.

Module ChunkBuffer.

(** ** misc/balign.h *)

Definition bdivide_up (a b : Z) : Z := if a mod b >? 0 then a / b + 1 else a / b.

(** ** ChunkBuffer2.h *)

Record ChunkBuffer2 := mk_chunks {
  buffer : bytes;
  size : Z;
  wrap : Z;
  start : Z;
  used : Z;
  mtu : Z;
  input_dest : option Z;        (* byte offsets in [buffer] *)
  input_avail : Z;
  output_dest : option Z;
  output_avail : Z }.

Definition set_memory m (b : ChunkBuffer2) : ChunkBuffer2 :=
  mk_chunks m (size b) (wrap b) (start b) (used b) (mtu b) (input_dest b) (input_avail b) (output_dest b) (output_avail b).
Definition set_region w s u (b : ChunkBuffer2) : ChunkBuffer2 :=
  mk_chunks (buffer b) (size b) w s u (mtu b) (input_dest b) (input_avail b) (output_dest b) (output_avail b).
Definition set_input (r : option Z * Z) (b : ChunkBuffer2) : ChunkBuffer2 :=
  mk_chunks (buffer b) (size b) (wrap b) (start b) (used b) (mtu b) r.1 r.2 (output_dest b) (output_avail b).
Definition set_output (r : option Z * Z) (b : ChunkBuffer2) : ChunkBuffer2 :=
  mk_chunks (buffer b) (size b) (wrap b) (start b) (used b) (mtu b) (input_dest b) (input_avail b) r.1 r.2.

Definition INT_MAX : Z := 2 ^ 31 - 1.

(** [buffer[i].len] *)
Definition block_len (i : Z) (b : ChunkBuffer2) : option Z :=
  l ← load (4 * i) 4 (buffer b);
  Some (i32 (le_value l)).

Definition ChunkBuffer2_end (b : ChunkBuffer2) : Z :=
  if used b >=? wrap b - start b then used b - (wrap b - start b) else start b + used b.

Definition assert_buffer (b : ChunkBuffer2) : option unit :=
  ASSERT (0 <? size b);;
  ASSERT (0 <? wrap b);;
  ASSERT (wrap b <=? size b);;
  ASSERT (0 <=? start b);;
  ASSERT (start b <? wrap b);;
  ASSERT (0 <=? used b);;
  ASSERT (used b <=? wrap b);;
  ASSERT ((wrap b =? size b) || (used b >=? wrap b - start b));;
  ASSERT (0 <=? mtu b).

(** Where the next packet can be written, and how many bytes: [(free - 1) * sizeof], cut to
    an [int]. *)
Definition input_now (b : ChunkBuffer2) : option Z * Z :=
  let end_ := ChunkBuffer2_end b in
  if size b - end_ - 1 <? mtu b then (None, -1)
  else
    let free := if used b >=? wrap b - start b then start b - end_ else size b - end_ in
    if free >? 0 then (Some (4 * (end_ + 1)), i32 ((free - 1) * 4)) else (None, -1).

Definition update_input (b : ChunkBuffer2) : ChunkBuffer2 := set_input (input_now b) b.

Definition output_now (b : ChunkBuffer2) : option (option Z * Z) :=
  if used b >? 0 then
    datalen ← block_len (start b) b;
    ASSERT (0 <=? datalen);;
    let blocklen := bdivide_up datalen 4 in
    ASSERT (blocklen <=? used b - 1);;
    ASSERT (blocklen <=? wrap b - start b - 1);;
    Some (Some (4 * (start b + 1)), datalen)
  else Some (None, -1).

Definition update_output (b : ChunkBuffer2) : option ChunkBuffer2 :=
  r ← output_now b;
  Some (set_output r b).

Definition assert_io (b : ChunkBuffer2) : option unit :=
  ASSERT (bool_decide ((input_dest b, input_avail b) = input_now b));;
  r ← output_now b;
  ASSERT (bool_decide ((output_dest b, output_avail b) = r)).

Definition ChunkBuffer2_calc_blocks (chunk_len num : Z) : Z :=
  let chunk_data_blocks := bdivide_up chunk_len 4 in
  if chunk_data_blocks >? INT_MAX - 1 then -1 else
  let chunk_blocks := 1 + chunk_data_blocks in
  if num >? INT_MAX - 1 then -1 else
  let num_chunks := num + 1 in
  if chunk_blocks >? INT_MAX / num_chunks then -1 else chunk_blocks * num_chunks.

Definition ChunkBuffer2_Init (m : bytes) (blocks mtu : Z) : option ChunkBuffer2 :=
  ASSERT (0 <? blocks);;
  ASSERT (0 <=? mtu);;
  let b := mk_chunks m blocks blocks 0 0 (bdivide_up mtu 4) None 0 None 0 in
  assert_buffer b;;
  b ← update_output (update_input b);
  assert_io b;;
  Some b.

Definition ChunkBuffer2_SubmitPacket (len : Z) (b : ChunkBuffer2) : option ChunkBuffer2 :=
  ASSERT (bool_decide (input_dest b <> None));;
  ASSERT (0 <=? len);;
  ASSERT (len <=? input_avail b);;
  assert_buffer b;;
  assert_io b;;
  let end_ := ChunkBuffer2_end b in
  let blocklen := bdivide_up len 4 in
  ASSERT (blocklen <=? size b - end_ - 1);;
  ASSERT ((used b <? wrap b - start b) || (blocklen <=? start b - end_ - 1));;
  m ← store (4 * end_) (le_bytes 4 len) (buffer b);
  let used' := used b + (1 + blocklen) in
  let wrap' := if (used' <=? wrap b - start b) && (mtu b >? size b - (end_ + 1 + blocklen) - 1)
               then end_ + 1 + blocklen else wrap b in
  let b := set_region wrap' (start b) used' (set_memory m b) in
  assert_buffer b;;
  let b := update_input b in
  b ← (if used b =? 1 + blocklen then update_output b else Some b);
  assert_io b;;
  Some b.

Definition ChunkBuffer2_ConsumePacket (b : ChunkBuffer2) : option ChunkBuffer2 :=
  ASSERT (bool_decide (output_dest b <> None));;
  assert_buffer b;;
  assert_io b;;
  ASSERT (1 <=? wrap b - start b);;
  ASSERT (1 <=? used b);;
  datalen ← block_len (start b) b;
  let blocklen := bdivide_up datalen 4 in
  ASSERT (blocklen <=? wrap b - start b - 1);;
  ASSERT (blocklen <=? used b - 1);;
  let data_wrapped := used b >=? wrap b - start b in
  let start' := start b + (1 + blocklen) in
  let used' := used b - (1 + blocklen) in
  let b := if start' =? wrap b then set_region (size b) 0 used' b else set_region (wrap b) start' used' b in
  assert_buffer b;;
  let b := if data_wrapped then update_input b else b in
  b ← update_output b;
  assert_io b;;
  Some b.

(** ** PacketBuffer.c

    [pb_recv] is where the producer was told to write a packet, [pb_send] the packet the
    consumer was given. *)

Record PacketBuffer := mk_packets {
  chunks : ChunkBuffer2;
  input_mtu : Z;
  pb_recv : option Z;
  pb_send : option (Z * Z) }.

(** [PacketRecvInterface_Receiver_Recv] and [PacketPassInterface_Sender_Send]: one operation at
    a time. *)
Definition schedule_recv (b : PacketBuffer) : option PacketBuffer :=
  dest ← input_dest (chunks b);
  ASSERT (bool_decide (pb_recv b = None));;
  Some (mk_packets (chunks b) (input_mtu b) (Some dest) (pb_send b)).
Definition schedule_send (b : PacketBuffer) : option PacketBuffer :=
  dest ← output_dest (chunks b);
  ASSERT (0 <=? output_avail (chunks b));;
  ASSERT (bool_decide (pb_send b = None));;
  Some (mk_packets (chunks b) (input_mtu b) (pb_recv b) (Some (dest, output_avail (chunks b)))).

Definition input_handler_done (in_len : Z) (b : PacketBuffer) : option PacketBuffer :=
  ASSERT (0 <=? in_len);;
  ASSERT (in_len <=? input_mtu b);;
  let was_empty := output_avail (chunks b) <? 0 in
  c ← ChunkBuffer2_SubmitPacket in_len (chunks b);
  let b := mk_packets c (input_mtu b) (pb_recv b) (pb_send b) in
  b ← (if input_avail (chunks b) >=? input_mtu b then schedule_recv b else Some b);
  if was_empty then schedule_send b else Some b.

Definition output_handler_done (b : PacketBuffer) : option PacketBuffer :=
  let was_full := input_avail (chunks b) <? input_mtu b in
  c ← ChunkBuffer2_ConsumePacket (chunks b);
  let b := mk_packets c (input_mtu b) (pb_recv b) (pb_send b) in
  b ← (if was_full && (input_avail (chunks b) >=? input_mtu b) then schedule_recv b else Some b);
  if output_avail (chunks b) >=? 0 then schedule_send b else Some b.

(** [alloc] is [BAllocArray]; [inr tt] when the size overflows or no memory is left. *)
Definition PacketBuffer_Init (mtu num_packets : Z) (alloc : Z -> option bytes) : option (PacketBuffer + unit) :=
  ASSERT (0 <? num_packets);;
  let num_blocks := ChunkBuffer2_calc_blocks mtu num_packets in
  if num_blocks <? 0 then Some (inr tt) else
  match alloc num_blocks with
  | None => Some (inr tt)
  | Some m =>
      c ← ChunkBuffer2_Init m num_blocks mtu;
      b ← schedule_recv (mk_packets c mtu None None);
      Some (inl b)
  end.

(** What can happen: the producer wrote a packet where it was told to, or the consumer is done
    with the packet it was given. The packet handed to the consumer is the output. *)
Inductive event := pe_in (p : bytes) | pe_out.

Definition allowed (e : event) (b : PacketBuffer) : bool :=
  match e with
  | pe_in p => bool_decide (pb_recv b <> None) && (zlen p <=? input_mtu b)
  | pe_out => bool_decide (pb_send b <> None)
  end.

Definition step (e : event) (b : PacketBuffer) : option (PacketBuffer * list bytes) :=
  match e with
  | pe_in p =>
      dest ← pb_recv b;
      m ← store dest p (buffer (chunks b));
      b ← input_handler_done (zlen p) (mk_packets (set_memory m (chunks b)) (input_mtu b) None (pb_send b));
      Some (b, [])
  | pe_out =>
      '(off, len) ← pb_send b;
      p ← load off len (buffer (chunks b));
      b ← output_handler_done (mk_packets (chunks b) (input_mtu b) (pb_recv b) None);
      Some (b, [p])
  end.

Inductive buffer_run : PacketBuffer -> list event -> list bytes -> PacketBuffer -> Prop :=
| run_end b : buffer_run b [] [] b
| run_more b e es o os b1 b' :
    allowed e b = true -> step e b = Some (b1, o) -> buffer_run b1 es os b' -> buffer_run b (e :: es) (o ++ os) b'.

Fixpoint packets_in (es : list event) : list bytes :=
  match es with
  | [] => []
  | pe_in p :: es => p :: packets_in es
  | pe_out :: es => packets_in es
  end.

(** ** The layout of a queue *)

Lemma bdivide_up_spec a : 0 <= a -> 4 * (bdivide_up a 4 - 1) < a <= 4 * bdivide_up a 4.
Proof.
  intros Ha. unfold bdivide_up. pose proof (Z.div_mod a 4). pose proof (Z.mod_pos_bound a 4).
  destruct (Z.gtb_spec (a mod 4) 0); lia.
Qed.

Lemma bdivide_up_pos a : 0 <= a -> 0 <= bdivide_up a 4.
Proof. intros Ha. pose proof (bdivide_up_spec a Ha). lia. Qed.

(** Blocks a packet takes, and a queue. *)
Definition blocks (p : bytes) : Z := 1 + bdivide_up (zlen p) 4.
Definition blocks_all (q : list bytes) : Z := foldr (fun p n => blocks p + n) 0 q.

Lemma blocks_spec p : 1 <= blocks p /\ 4 + zlen p <= 4 * blocks p < 8 + zlen p.
Proof. unfold blocks. pose proof (bdivide_up_spec (zlen p) (zlen_nonneg p)). pose proof (bdivide_up_pos (zlen p) (zlen_nonneg p)). lia. Qed.

Lemma blocks_all_cons p q : blocks_all (p :: q) = blocks p + blocks_all q.
Proof. done. Qed.

Lemma blocks_all_nonneg q : 0 <= blocks_all q.
Proof. induction q as [|p q IH]; [done|]. rewrite blocks_all_cons. pose proof (blocks_spec p). lia. Qed.

Lemma blocks_all_app q1 q2 : blocks_all (q1 ++ q2) = blocks_all q1 + blocks_all q2.
Proof. induction q1 as [|p q IH]; cbn [app]; [done|]. rewrite !blocks_all_cons. lia. Qed.

(** The packets [q], one after the other from block [off] on; each began where a packet of
    the largest size would have fitted. *)
Fixpoint laid (limit off : Z) (q : list bytes) (m : bytes) : Prop :=
  match q with
  | [] => True
  | p :: q => off <= limit /\ holds_at (4 * off) (le_bytes 4 (zlen p)) m /\ holds_at (4 * (off + 1)) p m /\
              laid limit (off + blocks p) q m
  end.

Lemma laid_app limit off q1 q2 m : laid limit off (q1 ++ q2) m <-> laid limit off q1 m /\ laid limit (off + blocks_all q1) q2 m.
Proof.
  revert off. induction q1 as [|p q IH]; intros off; cbn [laid app].
  { change (blocks_all []) with 0. rewrite Z.add_0_r. tauto. }
  rewrite IH, blocks_all_cons, Z.add_assoc. tauto.
Qed.

(** Writing outside of the queue does not change it. *)
Lemma laid_store limit off q o data m m' :
  store o data m = Some m' -> laid limit off q m -> 4 * (off + blocks_all q) <= o \/ o + zlen data <= 4 * off -> laid limit off q m'.
Proof.
  intros Hs. revert off. induction q as [|p q IH]; intros off; cbn [laid]; [done|]. rewrite blocks_all_cons.
  intros (H0 & H1 & H2 & H3) Hd. pose proof (blocks_spec p). pose proof (blocks_all_nonneg q).
  assert (Hle : zlen (le_bytes 4 (zlen p)) = 4) by (unfold zlen; by rewrite length_le_bytes).
  pose proof (zlen_nonneg data). split_and!; [done|..].
  - eapply store_keeps; [done|done|lia].
  - eapply store_keeps; [done|done|lia].
  - apply IH; [done|lia].
Qed.

(** The fields that say what can be read and written are up to date. *)
Definition io_ok (b : ChunkBuffer2) : Prop :=
  (input_dest b, input_avail b) = input_now b /\ output_now b = Some (output_dest b, output_avail b).

(** The part of the ring from [start] holds [q1], the part from its beginning [q2]. Either the
    packets have not reached the end ([q2] is empty and a packet of the largest size fits
    behind them), or they have, and [wrap] is where. *)
Record layout (q1 q2 : list bytes) (b : ChunkBuffer2) : Prop := {
  la_size : 0 < size b <= 2 ^ 29;
  la_mem : zlen (buffer b) = 4 * size b;
  la_mtu : 0 <= mtu b;
  la_start : 0 <= start b < wrap b;
  la_wrap : wrap b <= size b;
  la_first : laid (size b - 1 - mtu b) (start b) q1 (buffer b);
  la_second : laid (size b - 1 - mtu b) 0 q2 (buffer b);
  la_used : used b = blocks_all q1 + blocks_all q2;
  la_cases : wrap b = size b /\ q2 = [] /\ start b + used b <= size b - 1 - mtu b \/
             q1 <> [] /\ start b + blocks_all q1 = wrap b /\ blocks_all q2 <= start b /\ size b - wrap b <= mtu b }.

Definition chunk_ok (q : list bytes) (b : ChunkBuffer2) : Prop :=
  exists q1 q2, q = q1 ++ q2 /\ layout q1 q2 b /\ io_ok b.

Lemma layout_assert q1 q2 b : layout q1 q2 b -> assert_buffer b = Some tt.
Proof.
  intros [H1 H2 H3 H4 H5 _ _ H6 H7]. unfold assert_buffer. pose proof (blocks_all_nonneg q1). pose proof (blocks_all_nonneg q2).
  repeat match goal with |- context [ASSERT (?x <? ?y)] => rewrite (proj2 (Z.ltb_lt x y)) by lia
                       | |- context [ASSERT (?x <=? ?y)] => rewrite (proj2 (Z.leb_le x y)) by lia end.
  destruct (Z.eqb_spec (wrap b) (size b)); [done|]. cbn. destruct (Z.geb_spec (used b) (wrap b - start b)); [done|lia].
Qed.

(** The two shapes of a ring, as the code computes them. *)
Lemma layout_shape q1 q2 b :
  layout q1 q2 b ->
  wrap b = size b /\ q2 = [] /\ (used b >=? wrap b - start b) = false /\ ChunkBuffer2_end b = start b + used b /\
    used b = blocks_all q1 /\ mtu b <= size b - (start b + used b) - 1 /\
    input_now b = (Some (4 * (start b + used b + 1)), 4 * (size b - (start b + used b) - 1)) \/
  q1 <> [] /\ (used b >=? wrap b - start b) = true /\ ChunkBuffer2_end b = blocks_all q2 /\
    start b + blocks_all q1 = wrap b /\ blocks_all q2 <= start b /\ size b - wrap b <= mtu b /\ start b <= size b - 1 - mtu b /\
    input_now b = if start b - blocks_all q2 >? 0 then (Some (4 * (blocks_all q2 + 1)), 4 * (start b - blocks_all q2 - 1)) else (None, -1).
Proof.
  intros [H1 H2 H3 H4 H5 H6 H7 H8 Hc]. pose proof (blocks_all_nonneg q1). pose proof (blocks_all_nonneg q2).
  destruct Hc as [(Hw & -> & He)|(Hq & Hw & Hle & Hm)]; [left|right].
  - change (blocks_all []) with 0 in *. assert (Hg : (used b >=? wrap b - start b) = false).
    { destruct (Z.geb_spec (used b) (wrap b - start b)); [lia|done]. }
    assert (Hend : ChunkBuffer2_end b = start b + used b) by (unfold ChunkBuffer2_end; by rewrite Hg).
    split_and!; try done; [lia|lia|]. unfold input_now. rewrite Hend, Hg. cbv zeta.
    destruct (Z.ltb_spec (size b - (start b + used b) - 1) (mtu b)); [lia|].
    destruct (Z.gtb_spec (size b - (start b + used b)) 0); [|lia]. rewrite i32_id by lia. f_equal. lia.
  - assert (Hs : start b <= size b - 1 - mtu b) by (destruct q1; [done|]; by destruct H6).
    assert (Hg : (used b >=? wrap b - start b) = true).
    { destruct (Z.geb_spec (used b) (wrap b - start b)); [done|lia]. }
    assert (Hend : ChunkBuffer2_end b = blocks_all q2) by (unfold ChunkBuffer2_end; rewrite Hg; lia).
    split_and!; try done. unfold input_now. rewrite Hend, Hg. cbv zeta.
    destruct (Z.ltb_spec (size b - blocks_all q2 - 1) (mtu b)); [lia|].
    destruct (Z.gtb_spec (start b - blocks_all q2) 0); [|done]. rewrite i32_id by lia. f_equal. lia.
Qed.

(** The length in front of the first packet. *)
Lemma layout_head p q1 q2 b :
  layout (p :: q1) q2 b ->
  block_len (start b) b = Some (zlen p) /\ holds_at (4 * (start b + 1)) p (buffer b) /\
  0 < blocks p <= used b /\ blocks p <= wrap b - start b /\ output_now b = Some (Some (4 * (start b + 1)), zlen p).
Proof.
  intros H. pose proof (layout_shape _ _ _ H) as Hsh. destruct H as [H1 H2 H3 H4 H5 H6 H7 H8 _]. destruct H6 as (Hl & Hh & Hp & _).
  pose proof (blocks_spec p). pose proof (blocks_all_nonneg q1). pose proof (blocks_all_nonneg q2). rewrite blocks_all_cons in *.
  pose proof (zlen_nonneg p). assert (Hb : block_len (start b) b = Some (zlen p)).
  { unfold block_len. unfold holds_at in Hh. change (zlen (le_bytes 4 (zlen p))) with 4 in Hh. rewrite Hh. cbn [mbind option_bind].
    apply holds_at_lookup in Hp as (_ & Hr & _). rewrite le_value_bytes by (change (256 ^ Z.of_nat 4) with (2 ^ 32); lia). by rewrite i32_id by lia. }
  assert (blocks p <= wrap b - start b) by (destruct Hsh as [?|?]; lia).
  split_and!; [done|done|lia|lia|lia|]. unfold output_now. destruct (Z.gtb_spec (used b) 0); [|lia]. rewrite Hb. cbn [mbind option_bind].
  cbv zeta. unfold blocks in *.
  rewrite (proj2 (Z.leb_le 0 (zlen p))), (proj2 (Z.leb_le _ (used b - 1))), (proj2 (Z.leb_le _ (wrap b - start b - 1))) by lia. done.
Qed.

Lemma layout_none q2 b : layout [] q2 b -> q2 = [] /\ used b = 0 /\ output_now b = Some (None, -1).
Proof.
  intros H. destruct (layout_shape _ _ _ H) as [(_ & -> & _ & _ & Hu & _)|(? & _)]; [|done]. change (blocks_all []) with 0 in Hu.
  split_and!; [done|done|]. unfold output_now. by rewrite Hu.
Qed.

Lemma io_assert b : io_ok b -> assert_io b = Some tt.
Proof. intros [H1 H2]. unfold assert_io. rewrite bool_decide_eq_true_2 by done. rewrite H2. cbn. by rewrite bool_decide_eq_true_2. Qed.

(** Updating the fields. *)
Lemma update_both q1 q2 b :
  layout q1 q2 b -> exists b', update_output (update_input b) = Some b' /\ layout q1 q2 b' /\ io_ok b' /\ assert_io b' = Some tt.
Proof.
  intros H. assert (exists r, output_now b = Some r) as [r Hr].
  { destruct q1 as [|p q1]; [destruct (layout_none _ _ H) as (_ & _ & ->)|destruct (layout_head _ _ _ _ H) as (_ & _ & _ & _ & ->)]; by eexists. }
  unfold update_output. change (output_now (update_input b)) with (output_now b). rewrite Hr. cbn [mbind option_bind].
  assert (Hio : io_ok (set_output r (update_input b))).
  { split; [by destruct (input_now b) eqn:E; cbn; rewrite E|]. change (output_now (set_output r (update_input b))) with (output_now b).
    rewrite Hr. by destruct r. }
  eexists. split; [done|]. split; [by destruct H; split|]. split; [done|]. by apply io_assert.
Qed.

(** ** The operations *)

Lemma output_same q1 q2 b b' :
  layout q1 q2 b -> layout q1 q2 b' -> start b' = start b -> output_now b' = output_now b.
Proof.
  intros H H' Hs. destruct q1 as [|p q1].
  - destruct (layout_none _ _ H) as (_ & _ & ->). by destruct (layout_none _ _ H') as (_ & _ & ->).
  - destruct (layout_head _ _ _ _ H) as (_ & _ & _ & _ & ->). destruct (layout_head _ _ _ _ H') as (_ & _ & _ & _ & ->). by rewrite Hs.
Qed.

(** The free blocks behind the queue: where they begin, and that they are free. *)
Lemma free_blocks q1 q2 b dst :
  layout q1 q2 b -> input_now b = (Some dst, input_avail b) ->
  exists e, e = ChunkBuffer2_end b /\ dst = 4 * (e + 1) /\ 0 <= e <= size b - 1 - mtu b /\ 0 <= input_avail b /\
    4 * (e + 1) + input_avail b <= 4 * size b /\ (used b < wrap b - start b \/ input_avail b = 4 * (start b - e - 1)) /\
    forall o data m', 4 * e <= o -> o + zlen data <= 4 * (e + 1) + input_avail b -> store o data (buffer b) = Some m' ->
      layout q1 q2 (set_memory m' b).
Proof.
  intros H Hin. pose proof (layout_shape _ _ _ H) as Hsh. pose proof H as [H1 H2 H3 H4 H5 H6 H7 H8 Hc].
  pose proof (blocks_all_nonneg q1). pose proof (blocks_all_nonneg q2). exists (ChunkBuffer2_end b). split; [done|].
  destruct Hsh as [(Hw & -> & _ & He & Hu & Hm & Hi)|(Hq & _ & He & Hw & Hle & Hm & Hst & Hi)]; rewrite Hi in Hin; rewrite He.
  - injection Hin as <- Hav. split_and!; [done|lia..|]. intros o data m' Ho Hend Hst. split; cbn; try done.
    + by destruct (store_inv _ _ _ _ Hst) as (_ & _ & ->).
    + eapply laid_store; [done|done|]. left. lia.
  - destruct (Z.gtb_spec (start b - blocks_all q2) 0); [|done]. injection Hin as <- Hav. split_and!; [done|lia..|].
    intros o data m' Ho Hend Hst'. split; cbn; try done.
    + by destruct (store_inv _ _ _ _ Hst') as (_ & _ & ->).
    + eapply laid_store; [done|done|]. right. lia.
    + eapply laid_store; [done|done|]. left. lia.
Qed.

Lemma ring_init_ok m n max :
  0 <= max -> 0 < n <= 2 ^ 29 -> zlen m = 4 * n -> 1 + bdivide_up max 4 <= n ->
  exists b, ChunkBuffer2_Init m n max = Some b /\ chunk_ok [] b /\ size b = n /\ mtu b = bdivide_up max 4 /\ wrap b = n.
Proof.
  intros Hmax Hn Hm Hb. unfold ChunkBuffer2_Init. rewrite (proj2 (Z.ltb_lt 0 n)), (proj2 (Z.leb_le 0 max)) by lia. cbn [ASSERT mbind option_bind].
  set (b := mk_chunks _ _ _ _ _ _ _ _ _ _). assert (H : layout [] [] b).
  { pose proof (bdivide_up_pos max Hmax). split; cbn; try done; try lia. left. split_and!; try done. lia. }
  rewrite (layout_assert _ _ _ H). cbn [mbind option_bind]. destruct (update_both _ _ _ H) as (b' & E & H' & Hio & Ha). rewrite E.
  cbn [mbind option_bind]. rewrite Ha. exists b'. split; [done|]. split; [by exists [], []|]. unfold update_output in E.
  destruct (output_now (update_input b)); [|done]. by injection E as <-.
Qed.

(** The last part of both operations. *)
Lemma refresh q1 q2 b (changed : bool) :
  layout q1 q2 b -> (changed = false -> output_now b = Some (output_dest b, output_avail b)) ->
  exists b', (b ← (if changed then update_output (update_input b) else Some (update_input b)); assert_io b;; Some b) = Some b' /\
    layout q1 q2 b' /\ io_ok b' /\ size b' = size b /\ mtu b' = mtu b /\
    (changed = false -> output_dest b' = output_dest b /\ output_avail b' = output_avail b).
Proof.
  intros H Hc. destruct changed.
  - destruct (update_both _ _ _ H) as (b' & E & H' & Hio & Ha). rewrite E. cbn [mbind option_bind]. rewrite Ha. exists b'.
    split_and!; try done; unfold update_output in E; destruct (output_now (update_input b)); try done; by injection E as <-.
  - assert (Hio : io_ok (update_input b)) by (split; [cbn; by destruct (input_now b) eqn:E; cbn|exact (Hc eq_refl)]).
    cbn [mbind option_bind]. rewrite (io_assert _ Hio). eexists. split; [done|]. split_and!; try done. by destruct H; split.
Qed.

(** The ring after a packet was written and its length stored in front of it. *)
Lemma submit_layout p q1 q2 b e :
  layout q1 q2 b -> ChunkBuffer2_end b = e ->
  e <= size b - 1 - mtu b -> blocks p <= size b - e -> ((used b <? wrap b - start b) || (bdivide_up (zlen p) 4 <=? start b - e - 1) = true) ->
  holds_at (4 * e) (le_bytes 4 (zlen p)) (buffer b) -> holds_at (4 * (e + 1)) p (buffer b) ->
  let used' := used b + blocks p in
  let wrap' := if (used' <=? wrap b - start b) && (mtu b >? size b - (e + 1 + bdivide_up (zlen p) 4) - 1)
               then e + 1 + bdivide_up (zlen p) 4 else wrap b in
  exists q1' q2', q1 ++ q2 ++ [p] = q1' ++ q2' /\ layout q1' q2' (set_region wrap' (start b) used' b) /\
    (q1 = [] \/ head q1' = head q1).
Proof.
  intros H Hend Hlim Hfit Hspace Hh Hp used' wrap'. pose proof (layout_shape _ _ _ H) as Hsh. pose proof H as [H1 H2 H3 H4 H5 H6 H7 H8 _].
  pose proof (blocks_spec p). pose proof (blocks_all_nonneg q1). pose proof (blocks_all_nonneg q2).
  assert (Hblk : blocks p = 1 + bdivide_up (zlen p) 4) by done.
  assert (Hone : blocks_all [p] = blocks p) by (rewrite blocks_all_cons; change (blocks_all []) with 0; lia).
  destruct Hsh as [(Hw & -> & Hg & He & Hu & Hm & _)|(Hq & Hg & He & Hw & Hle & Hm & Hst & _)].
  - rewrite Hend in He. exists (q1 ++ [p]), []. split; [by rewrite app_nil_r|]. split; [|by destruct q1; auto].
    assert (Hlaid : laid (size b - 1 - mtu b) (start b) (q1 ++ [p]) (buffer b)).
    { apply laid_app. split; [done|]. rewrite <- Hu, <- He. by split_and!. }
    unfold wrap', used'. destruct (Z.leb_spec (used b + blocks p) (wrap b - start b)) as [Hin|Hin]; [|lia]. cbn [andb].
    destruct (Z.gtb_spec (mtu b) (size b - (e + 1 + bdivide_up (zlen p) 4) - 1)).
    + split; cbn; try done; try lia; rewrite ?blocks_all_app, ?Hone; change (blocks_all []) with 0; [lia|]. right.
      split_and!; [by destruct q1|lia..].
    + split; cbn; try done; try lia; rewrite ?blocks_all_app, ?Hone; change (blocks_all []) with 0; [lia|]. left. split_and!; [lia|done|lia].
  - rewrite Hend in He. exists q1, (q2 ++ [p]). split; [done|]. split; [|auto].
    assert (Hlt : (used b <? wrap b - start b) = false) by (destruct (Z.ltb_spec (used b) (wrap b - start b)); [lia|done]).
    rewrite Hlt in Hspace. cbn in Hspace. apply Z.leb_le in Hspace. unfold wrap', used'.
    destruct (Z.leb_spec (used b + blocks p) (wrap b - start b)); [lia|]. cbn [andb].
    split; cbn; try done; try lia; rewrite ?blocks_all_app, ?Hone; [|lia|right; split_and!; [done|lia..]].
    apply laid_app. split; [done|]. rewrite Z.add_0_l, <- He. by split_and!.
Qed.

(** After a packet was written where the buffer says. *)
Lemma submit_ok p q b dst m :
  chunk_ok q b -> input_dest b = Some dst -> zlen p <= input_avail b -> store dst p (buffer b) = Some m ->
  exists b', ChunkBuffer2_SubmitPacket (zlen p) (set_memory m b) = Some b' /\ chunk_ok (q ++ [p]) b' /\ size b' = size b /\ mtu b' = mtu b /\
    (q <> [] -> output_dest b' = output_dest b /\ output_avail b' = output_avail b).
Proof.
  intros (q1 & q2 & -> & H & Hin & Hout) Hdst Hlen Hm. rewrite Hdst in Hin. symmetry in Hin.
  destruct (free_blocks _ _ _ _ H Hin) as (e & He & -> & Hrange & Hav & Hfit & Hsp & Hfree). pose proof (zlen_nonneg p) as Hzp.
  assert (H0 : layout q1 q2 (set_memory m b)) by (eapply Hfree; [..|exact Hm]; lia). set (b0 := set_memory m b) in *.
  assert (Hio : io_ok b0).
  { split; [change ((input_dest b, input_avail b) = input_now b); by rewrite Hin, Hdst|]. by rewrite (output_same _ _ _ _ H H0 eq_refl). }
  pose proof (bdivide_up_spec (zlen p) Hzp) as Hdiv.
  assert (Hspace : (used b0 <? wrap b0 - start b0) || (bdivide_up (zlen p) 4 <=? start b0 - e - 1) = true).
  { cbn. destruct (Z.ltb_spec (used b) (wrap b - start b)); [done|]. apply Z.leb_le. lia. }
  unfold ChunkBuffer2_SubmitPacket. rewrite (layout_assert _ _ _ H0), (io_assert _ Hio).
  change (ChunkBuffer2_end b0) with (ChunkBuffer2_end b). rewrite <- He.
  rewrite bool_decide_eq_true_2 by (cbn; by rewrite Hdst).
  rewrite (proj2 (Z.leb_le 0 (zlen p))), (proj2 (Z.leb_le (zlen p) (input_avail b0))), (proj2 (Z.leb_le _ (size b0 - e - 1))), Hspace by (cbn; lia).
  cbn [ASSERT mbind option_bind]. cbv zeta.
  destruct (store_some (4 * e) (le_bytes 4 (zlen p)) (buffer b0)) as (m2 & Hm2 & _).
  { lia. } { change (zlen (le_bytes 4 (zlen p))) with 4. destruct H0 as [_ -> _ _ _ _ _ _ _]. cbn. lia. }
  rewrite Hm2. cbn [mbind option_bind].
  destruct (free_blocks _ _ b0 _ H0 ltac:(exact Hin)) as (e0 & He0 & _ & _ & _ & _ & _ & Hfree0).
  assert (e0 = e) as -> by (by rewrite He0, He). assert (Hm2l : layout q1 q2 (set_memory m2 b0)).
  { eapply Hfree0; [..|exact Hm2]; [lia|]. change (zlen (le_bytes 4 (zlen p))) with 4. cbn. lia. }
  destruct (submit_layout p q1 q2 (set_memory m2 b0) e Hm2l) as (q1' & q2' & Eq & Hl & Hhead); [done|cbn; lia|unfold blocks; cbn; lia|done|..].
  { by eapply store_holds. }
  { eapply store_keeps; [exact Hm2|by eapply store_holds|]. change (zlen (le_bytes 4 (zlen p))) with 4. lia. }
  cbv zeta in Hl.
  change (1 + bdivide_up (zlen p) 4) with (blocks p).
  set (b2 := set_region _ _ _ _) in *. rewrite (layout_assert _ _ _ Hl). cbn [mbind option_bind].
  change (used (update_input b2)) with (used b2).
  destruct (refresh _ _ b2 (used b2 =? blocks p) Hl) as (b' & E & Hl' & Hio' & Hsz & Hmt & Hkeep).
  { intros Hne. apply Z.eqb_neq in Hne. destruct q1 as [|p0 q1]; [by destruct (layout_none _ _ H) as (_ & Hu & _); cbn in Hne; lia|].
    destruct Hhead as [|Hhead]; [done|]. destruct q1' as [|p1 q1']; [done|]. injection Hhead as ->.
    destruct (layout_head _ _ _ _ H) as (_ & _ & _ & _ & Ho). destruct (layout_head _ _ _ _ Hl) as (_ & _ & _ & _ & ->).
    rewrite Hout in Ho. exact (eq_sym Ho). }
  exists b'. split; [exact E|]. split; [exists q1', q2'; by rewrite <- app_assoc|]. split_and!; [done|done|]. intros Hne. apply Hkeep.
  apply Z.eqb_neq. destruct q1 as [|p0 q1]; [destruct (layout_none _ _ H) as (-> & _); done|].
  destruct (layout_head _ _ _ _ H) as (_ & _ & Hb & _). pose proof (blocks_spec p0). cbn. lia.
Qed.

(** The ring after its first packet was taken out. What could be written stays so. *)
Lemma consume_layout p q1 q2 b :
  layout (p :: q1) q2 b ->
  let b1 := if start b + blocks p =? wrap b then set_region (size b) 0 (used b - blocks p) b
            else set_region (wrap b) (start b + blocks p) (used b - blocks p) b in
  exists q1' q2', q1 ++ q2 = q1' ++ q2' /\ layout q1' q2' b1 /\
    ((used b >=? wrap b - start b) = false -> input_now b1 = input_now b) /\
    (forall dst, (input_now b).1 = Some dst -> (input_now b1).1 = Some dst /\ (input_now b).2 <= (input_now b1).2).
Proof.
  intros H b1. pose proof (layout_shape _ _ _ H) as Hsh. pose proof H as [H1 H2 H3 H4 H5 H6 H7 H8 _].
  pose proof (blocks_spec p). pose proof (blocks_all_nonneg q1). pose proof (blocks_all_nonneg q2). rewrite blocks_all_cons in H8.
  destruct H6 as (Hl0 & _ & _ & H6). unfold b1. clear b1.
  destruct Hsh as [(Hw & -> & Hg & He & Hu & Hm & Hi)|(_ & Hg & He & Hw & Hle & Hm & Hst & Hi)]; rewrite blocks_all_cons in *.
  - destruct (Z.eqb_spec (start b + blocks p) (wrap b)); [lia|]. change (blocks_all []) with 0 in *.
    assert (Hb : layout q1 [] (set_region (wrap b) (start b + blocks p) (used b - blocks p) b)).
    { split; cbn; try done; try lia. left. split_and!; [done|done|lia]. }
    exists q1, []. split; [done|]. split; [done|].
    destruct (layout_shape _ _ _ Hb) as [(_ & _ & _ & _ & _ & _ & Hi')|(_ & Hg' & _)]; cbn in *; [|].
    + rewrite Hi', Hi. replace (start b + blocks p + (used b - blocks p)) with (start b + used b) by lia. split; [done|].
      intros dst [= <-]. cbn. split; [done|lia].
    + rewrite Z.geb_le in Hg'. lia.
  - rewrite Hg. split_and?. destruct (Z.eqb_spec (start b + blocks p) (wrap b)) as [Hz|Hz].
    + destruct q1 as [|p1 q1]; [|pose proof (blocks_spec p1); pose proof (blocks_all_nonneg q1); rewrite blocks_all_cons in *; lia].
      change (blocks_all []) with 0 in *.
      assert (Hb : layout q2 [] (set_region (size b) 0 (used b - blocks p) b)).
      { split; cbn; try done; try lia. left. split_and!; [done|done|lia]. }
      exists q2, []. split; [by rewrite app_nil_r|]. split; [done|]. split; [done|].
      destruct (layout_shape _ _ _ Hb) as [(_ & _ & _ & _ & _ & _ & Hi')|(_ & Hg' & _)]; cbn in *; [|rewrite Z.geb_le in Hg'; lia].
      rewrite Hi', Hi. destruct (Z.gtb_spec (start b - blocks_all q2) 0); [|done].
      replace (used b - blocks p) with (blocks_all q2) by lia. intros dst [= <-]. cbn. split; [done|lia].
    + assert (q1 <> []) by (intros ->; change (blocks_all []) with 0 in *; lia).
      assert (Hb : layout q1 q2 (set_region (wrap b) (start b + blocks p) (used b - blocks p) b)).
      { split; cbn; try done; try lia. right. split_and!; [done|lia..]. }
      exists q1, q2. split; [done|]. split; [done|]. split; [done|].
      destruct (layout_shape _ _ _ Hb) as [(_ & _ & Hg' & _)|(_ & _ & _ & _ & _ & _ & _ & Hi')]; cbn in *.
      { destruct (Z.geb_spec (used b - blocks p) (wrap b - (start b + blocks p))); [done|lia]. }
      rewrite Hi', Hi. destruct (Z.gtb_spec (start b - blocks_all q2) 0); [|done].
      destruct (Z.gtb_spec (start b + blocks p - blocks_all q2) 0); [|lia]. intros dst [= <-]. cbn. split; [done|lia].
Qed.

Lemma consume_ok p q b :
  chunk_ok (p :: q) b ->
  exists o, output_dest b = Some o /\ output_avail b = zlen p /\ holds_at o p (buffer b) /\
  exists b', ChunkBuffer2_ConsumePacket b = Some b' /\ chunk_ok q b' /\ size b' = size b /\ mtu b' = mtu b /\
    (forall dst, input_dest b = Some dst -> input_dest b' = Some dst /\ input_avail b <= input_avail b').
Proof.
  intros (q1 & q2 & Eq & H & Hin & Hout). destruct q1 as [|p1 q1].
  { destruct (layout_none _ _ H) as (-> & _). done. }
  injection Eq as <- ->. destruct (layout_head _ _ _ _ H) as (Hlen & Hp & Hb1 & Hb2 & Ho). rewrite Ho in Hout. injection Hout as Ho1 Ho2.
  exists (4 * (start b + 1)). split_and!; [done|done|done|]. destruct (consume_layout _ _ _ _ H) as (q1' & q2' & Eq & Hl & Hsame & Hgrow).
  unfold ChunkBuffer2_ConsumePacket. rewrite bool_decide_eq_true_2 by (by rewrite <- Ho1).
  rewrite (layout_assert _ _ _ H), io_assert by (by split; [|rewrite Ho, Ho1, Ho2]).
  unfold blocks in Hb1, Hb2. rewrite (proj2 (Z.leb_le 1 (wrap b - start b))), (proj2 (Z.leb_le 1 (used b))), Hlen by lia. cbn [ASSERT mbind option_bind].
  cbv zeta. rewrite (proj2 (Z.leb_le _ (wrap b - start b - 1))), (proj2 (Z.leb_le _ (used b - 1))) by lia. cbn [ASSERT mbind option_bind].
  change (1 + bdivide_up (zlen p) 4) with (blocks p). set (b1 := if start b + blocks p =? wrap b then _ else _) in *.
  rewrite (layout_assert _ _ _ Hl). cbn [mbind option_bind].
  assert (Hb1f : input_dest b1 = input_dest b /\ input_avail b1 = input_avail b /\ size b1 = size b /\ mtu b1 = mtu b)
    by (unfold b1; by destruct (start b + blocks p =? wrap b)).
  replace (if used b >=? wrap b - start b then update_input b1 else b1) with (update_input b1).
  2:{ destruct (used b >=? wrap b - start b) eqn:Eg; [done|]. unfold update_input. rewrite (Hsame eq_refl), <- Hin.
      destruct Hb1f as (<- & <- & _). by destruct b1. }
  destruct (update_both _ _ _ Hl) as (b' & E & Hl' & Hio & Ha). rewrite E. cbn [mbind option_bind]. rewrite Ha. exists b'.
  destruct Hb1f as (_ & _ & Hs1 & Hm1).
  assert (Hf : size b' = size b1 /\ mtu b' = mtu b1 /\ (input_dest b', input_avail b') = input_now b1).
  { unfold update_output in E. destruct (output_now (update_input b1)); [|done]. injection E as <-. cbn. split_and!; try done. by destruct (input_now b1). }
  destruct Hf as (Hs2 & Hm2 & Hi2). split_and!; [done| |congruence|congruence|].
  - exists q1', q2'. by split_and!.
  - intros dst Hd. destruct (Hgrow dst) as [Hg1 Hg2]; [by rewrite <- Hin|]. rewrite <- Hin, <- Hi2 in *. cbn in *. done.
Qed.

(** A ring that cannot take a packet of the largest size is nearly full. *)
Lemma full_blocks q b max :
  chunk_ok q b -> mtu b = bdivide_up max 4 -> 0 <= max -> input_avail b < max -> size b - 2 * mtu b <= blocks_all q.
Proof.
  intros (q1 & q2 & -> & H & Hin & _) Hm Hmax Hlt. pose proof (bdivide_up_spec max Hmax). pose proof H as [_ _ _ _ _ _ _ Hu _].
  rewrite blocks_all_app. destruct (layout_shape _ _ _ H) as [(_ & _ & _ & _ & _ & Hsp & Hi)|(_ & _ & _ & Hw & Hle & Hmt & _ & Hi)].
  - rewrite Hi in Hin. injection Hin as _ Hin. lia.
  - destruct (Z.gtb_spec (start b - blocks_all q2) 0); rewrite Hi in Hin; injection Hin as _ Hin; lia.
Qed.

(** ** The queue between producer and consumer *)

Lemma chunk_output q b :
  chunk_ok q b ->
  match q with
  | [] => output_dest b = None /\ output_avail b = -1
  | p :: _ => exists o, output_dest b = Some o /\ output_avail b = zlen p /\ holds_at o p (buffer b)
  end.
Proof.
  intros H. destruct q as [|p q].
  - destruct H as (q1 & q2 & Eq & H & _ & Hout). symmetry in Eq. apply app_eq_nil in Eq as [-> ->].
    destruct (layout_none _ _ H) as (_ & _ & Ho). rewrite Ho in Hout. by injection Hout as <- <-.
  - destruct (consume_ok p q b H) as (o & ? & ? & ? & _). by exists o.
Qed.

Lemma chunk_input q b dst :
  chunk_ok q b -> input_dest b = Some dst -> 0 <= dst /\ 0 <= input_avail b /\ dst + input_avail b <= zlen (buffer b).
Proof.
  intros (q1 & q2 & _ & H & Hin & _) Hd. rewrite Hd in Hin. symmetry in Hin. destruct (free_blocks _ _ _ _ H Hin) as (e & _ & -> & ? & ? & ? & _).
  destruct H as [_ -> _ _ _ _ _ _ _]. lia.
Qed.

Lemma chunk_room q b : chunk_ok q b -> 0 <= input_avail b -> is_Some (input_dest b).
Proof.
  intros (q1 & q2 & _ & H & Hin & _) Ha. destruct (layout_shape _ _ _ H) as [(_ & _ & _ & _ & _ & _ & Hi)|(_ & _ & _ & _ & _ & _ & _ & Hi)].
  - rewrite Hi in Hin. injection Hin as -> _. by eexists.
  - destruct (Z.gtb_spec (start b - blocks_all q2) 0); rewrite Hi in Hin; injection Hin as Hd Hv; [rewrite Hd; by eexists|lia].
Qed.

(** A packet buffer for packets of up to [max] bytes in [n] blocks, with the queue [q]: the
    producer is asked for a packet whenever one fits, the consumer has the first packet. *)
Record buffering (max n : Z) (q : list bytes) (b : PacketBuffer) : Prop := {
  bf_chunks : chunk_ok q (chunks b);
  bf_max : 0 <= max;
  bf_mtu : mtu (chunks b) = bdivide_up max 4;
  bf_size : size (chunks b) = n;
  bf_input : input_mtu b = max;
  bf_packets : Forall (fun p => zlen p <= max) q;
  bf_recv : pb_recv b = if input_avail (chunks b) >=? max then input_dest (chunks b) else None;
  bf_send : pb_send b = o ← output_dest (chunks b); Some (o, output_avail (chunks b)) }.

(** Asking the producer, if there is room. *)
Lemma recv_ok q b max (ask : bool) :
  chunk_ok q (chunks b) -> 0 <= max -> (ask = true -> pb_recv b = None) -> (ask = true -> (input_avail (chunks b) >=? max) = true) ->
  exists b', (if ask then schedule_recv b else Some b) = Some b' /\ chunks b' = chunks b /\ input_mtu b' = input_mtu b /\
    pb_send b' = pb_send b /\ pb_recv b' = if ask then input_dest (chunks b) else pb_recv b.
Proof.
  intros Hc Hm Hn Ha. destruct ask; [|by exists b]. specialize (Hn eq_refl). specialize (Ha eq_refl). apply Z.geb_le in Ha.
  destruct (chunk_room _ _ Hc ltac:(lia)) as [d Hd]. unfold schedule_recv. rewrite Hd. cbn [mbind option_bind].
  rewrite bool_decide_eq_true_2 by done. eexists. split; [done|]. by split_and!.
Qed.

(** Giving the consumer the first packet. *)
Lemma send_ok q b (give : bool) :
  chunk_ok q (chunks b) -> (give = true -> pb_send b = None /\ q <> []) ->
  exists b', (if give then schedule_send b else Some b) = Some b' /\ chunks b' = chunks b /\ input_mtu b' = input_mtu b /\
    pb_recv b' = pb_recv b /\ pb_send b' = if give then o ← output_dest (chunks b); Some (o, output_avail (chunks b)) else pb_send b.
Proof.
  intros Hc Hg. destruct give; [|by exists b]. destruct (Hg eq_refl) as [Hn Hq]. pose proof (chunk_output _ _ Hc) as Ho.
  destruct q as [|p q]; [done|]. destruct Ho as (o & Ho & Hl & _). unfold schedule_send. rewrite Ho, Hl. cbn [mbind option_bind].
  rewrite (proj2 (Z.leb_le 0 (zlen p))), bool_decide_eq_true_2 by (done || apply zlen_nonneg). eexists. split; [done|]. by split_and!.
Qed.

Lemma in_ok max n q b p :
  buffering max n q b -> allowed (pe_in p) b = true -> exists b', step (pe_in p) b = Some (b', []) /\ buffering max n (q ++ [p]) b'.
Proof.
  intros [Hc Hmax Hm Hn Hi Hp Hr Hs] Ha. cbn [allowed step] in *. apply andb_true_iff in Ha as [Ha Hl]. apply Z.leb_le in Hl. rewrite Hi in *.
  destruct (Z.geb_spec (input_avail (chunks b)) max) as [Hav|Hav]; rewrite Hr in *; [|done].
  destruct (chunk_room _ _ Hc ltac:(lia)) as [d Hd]. rewrite Hd in *. cbn [mbind option_bind].
  destruct (chunk_input _ _ _ Hc Hd) as (H0 & H1 & H2). destruct (store_some d p (buffer (chunks b))) as (m & Hm' & _); [lia|lia|].
  rewrite Hm'. cbn [mbind option_bind]. unfold input_handler_done. cbn [input_mtu chunks pb_recv pb_send].
  change (output_avail (set_memory m (chunks b))) with (output_avail (chunks b)).
  rewrite (proj2 (Z.leb_le 0 (zlen p))), (proj2 (Z.leb_le (zlen p) max)) by (done || apply zlen_nonneg). cbn [ASSERT mbind option_bind].
  destruct (submit_ok p q _ d m Hc Hd ltac:(lia) Hm') as (c & E & Hc' & Hsz & Hmt & Hkeep). rewrite E. cbn [mbind option_bind]. cbv zeta.
  cbn [chunks input_mtu]. set (ask := input_avail c >=? max) in *.
  destruct (recv_ok _ (mk_packets c max None (pb_send b)) max ask Hc' Hmax) as (b1 & -> & E1 & E2 & E3 & E4); [done|done|].
  cbn [mbind option_bind]. pose proof (chunk_output _ _ Hc) as Ho.
  destruct (send_ok (q ++ [p]) b1 (output_avail (chunks b) <? 0)) as (b2 & -> & F1 & F2 & F3 & F4).
  { by rewrite E1. }
  { intros Hneg. apply Z.ltb_lt in Hneg. rewrite E3. cbn. rewrite Hs. destruct q as [|p0 q].
    - destruct Ho as [-> _]. done.
    - destruct Ho as (o & _ & Ho & _). pose proof (zlen_nonneg p0). lia. }
  exists b2. split; [done|]. rewrite E1 in *. cbn in *. split; try done; rewrite ?F1; try done; [congruence..| | |].
  - apply Forall_app. by split; [|constructor].
  - rewrite F3, E4. done.
  - rewrite F4, E3. destruct (Z.ltb_spec (output_avail (chunks b)) 0); [done|]. rewrite Hs. destruct q as [|p0 q].
    + destruct Ho as [_ Ho]. lia.
    + by destruct Hkeep as [-> ->].
Qed.

Lemma out_ok max n q b :
  buffering max n q b -> allowed pe_out b = true ->
  exists p q' b', q = p :: q' /\ step pe_out b = Some (b', [p]) /\ buffering max n q' b'.
Proof.
  intros [Hc Hmax Hm Hn Hi Hp Hr Hs] Ha. cbn [allowed step] in *. pose proof (chunk_output _ _ Hc) as Ho. rewrite Hs in *.
  destruct q as [|p q]; [destruct Ho as [Ho _]; by rewrite Ho in Ha|]. destruct (consume_ok p q _ Hc) as (o & Ho1 & Ho2 & Hat & c & E & Hc' & Hsz & Hmt & Hgrow).
  exists p, q. rewrite Ho1, Ho2. cbn [mbind option_bind]. unfold holds_at in Hat. rewrite Hat. cbn [mbind option_bind].
  unfold output_handler_done. cbn [chunks input_mtu]. rewrite E, Hi. cbn [mbind option_bind]. cbv zeta. cbn [chunks input_mtu pb_recv pb_send].
  apply Forall_cons in Hp as [_ Hp].
  assert (Hfull : input_avail (chunks b) < max -> pb_recv b = None).
  { intros Hlt. rewrite Hr. destruct (Z.geb_spec (input_avail (chunks b)) max); [lia|done]. }
  destruct (recv_ok q (mk_packets c max (pb_recv b) None) max ((input_avail (chunks b) <? max) && (input_avail c >=? max)) Hc' Hmax)
    as (b1 & -> & E1 & E2 & E3 & E4).
  { intros [Hlt%Z.ltb_lt _]%andb_true_iff. by apply Hfull. }
  { by intros [_ ?]%andb_true_iff. }
  cbn [mbind option_bind]. rewrite E1. cbn [chunks]. pose proof (chunk_output _ _ Hc') as Ho'.
  destruct (send_ok q b1 (output_avail c >=? 0)) as (b2 & -> & F1 & F2 & F3 & F4); [by rewrite E1| |].
  { intros Hge%Z.geb_le. rewrite E3. split; [done|]. intros ->. destruct Ho' as [_ Ho']. lia. }
  exists b2. split; [done|]. split; [done|]. rewrite E1 in *. cbn in *. split; try done; rewrite ?F1; try done; [congruence..| |].
  - rewrite F3, E4. destruct (Z.ltb_spec (input_avail (chunks b)) max) as [Hlt|Hge]; cbn.
    + rewrite Hfull by done. by destruct (input_avail c >=? max).
    + rewrite Hr. destruct (Z.geb_spec (input_avail (chunks b)) max); [|lia]. destruct (chunk_room _ _ Hc ltac:(lia)) as [d Hd].
      destruct (Hgrow d Hd) as [-> Hle]. destruct (Z.geb_spec (input_avail c) max); [done|lia].
  - rewrite F4. destruct q as [|p1 q]; [destruct Ho' as [-> ->]|destruct Ho' as (o' & -> & -> & _)]; cbn; [by rewrite E3|].
    pose proof (zlen_nonneg p1). destruct (Z.geb_spec (zlen p1) 0); [done|lia].
Qed.

Lemma calc_blocks_spec max num n :
  ChunkBuffer2_calc_blocks max num = n -> 0 <= n -> 0 <= max -> 0 < num -> n = (1 + bdivide_up max 4) * (num + 1) /\ n <= INT_MAX.
Proof.
  unfold ChunkBuffer2_calc_blocks. cbv zeta. intros <- Hn Hm Hnum. pose proof (bdivide_up_pos max Hm).
  repeat match type of Hn with context [if ?c then _ else _] => destruct c eqn:? end; [lia|lia|lia|]. split; [done|].
  rewrite Z.gtb_ltb in Heqb1. apply Z.ltb_ge in Heqb1. assert ((1 + bdivide_up max 4) * (num + 1) <= INT_MAX / (num + 1) * (num + 1)) by nia.
  pose proof (Z.mul_div_le INT_MAX (num + 1)). lia.
Qed.

Lemma pb_init_ok max num alloc b :
  0 <= max -> 0 < num -> (forall n m, alloc n = Some m -> zlen m = 4 * n /\ n <= 2 ^ 29) ->
  PacketBuffer_Init max num alloc = Some (inl b) -> buffering max ((1 + bdivide_up max 4) * (num + 1)) [] b.
Proof.
  intros Hmax Hnum Halloc Hinit. unfold PacketBuffer_Init in Hinit. rewrite (proj2 (Z.ltb_lt 0 num)) in Hinit by done. cbn [ASSERT mbind option_bind] in Hinit.
  cbv zeta in Hinit. destruct (Z.ltb_spec (ChunkBuffer2_calc_blocks max num) 0); [done|].
  destruct (calc_blocks_spec max num _ eq_refl) as [Hn _]; [done..|]. rewrite Hn in *. set (n := (1 + bdivide_up max 4) * (num + 1)) in *.
  destruct (alloc n) as [m|] eqn:Ea; [|done]. destruct (Halloc _ _ Ea) as [Hm Hle]. pose proof (bdivide_up_pos max Hmax).
  destruct (ring_init_ok m n max) as (c & Ec & Hc & Hsz & Hmt & _); [done|unfold n in *; nia|done|unfold n; nia|].
  rewrite Ec in Hinit. cbn [mbind option_bind] in Hinit. unfold schedule_recv in Hinit. cbn [chunks] in Hinit.
  destruct (input_dest c) as [d|] eqn:Hd; [|done]. cbn in Hinit. injection Hinit as <-. pose proof (chunk_output _ _ Hc) as [Ho _].
  pose proof Hc as (q1 & q2 & Eq & Hl & Hin & _). symmetry in Eq. apply app_eq_nil in Eq as [-> ->].
  destruct (layout_shape _ _ _ Hl) as [(_ & _ & _ & _ & Hu & Hsp & Hi)|(? & _)]; [|done]. rewrite Hi in Hin. injection Hin as _ Hav.
  pose proof (bdivide_up_spec max Hmax).
  split; cbn; try done; [|by rewrite Ho]. destruct (Z.geb_spec (input_avail c) max); [done|lia].
Qed.

Lemma run_buffering max n b es os b' q :
  buffer_run b es os b' -> buffering max n q b -> exists q', buffering max n q' b' /\ q ++ packets_in es = os ++ q'.
Proof.
  intros H. revert q. induction H as [b|b e es o os b1 b' Ha Hs _ IH]; intros q Hb.
  { exists q. split; [done|]. cbn. by rewrite app_nil_r. }
  destruct e as [p|].
  - destruct (in_ok max n q b p Hb Ha) as (b2 & E & Hb2). rewrite Hs in E. injection E as <- ->. destruct (IH _ Hb2) as (q' & ? & Eq).
    exists q'. split; [done|]. cbn. by rewrite <- Eq, <- app_assoc.
  - destruct (out_ok max n q b Hb Ha) as (p & q0 & b2 & -> & E & Hb2). rewrite Hs in E. injection E as <- ->.
    destruct (IH _ Hb2) as (q' & ? & Eq). exists q'. split; [done|]. cbn. by rewrite Eq.
Qed.

Lemma blocks_all_le max q : 0 <= max -> Forall (fun p => zlen p <= max) q -> blocks_all q <= (1 + bdivide_up max 4) * zlen q.
Proof.
  intros Hm. induction 1 as [|p q Hp _ IH]; [change (zlen (@nil bytes)) with 0; change (blocks_all []) with 0; lia|]. rewrite blocks_all_cons, zlen_cons.
  pose proof (blocks_spec p). pose proof (bdivide_up_spec max Hm). nia.
Qed.

(** ** Theorems *)

(** The memory [BAllocArray] gives: [n] blocks, less than 2 GiB. *)
Definition allocates (alloc : Z -> option bytes) : Prop := forall n m, alloc n = Some m -> zlen m = 4 * n /\ n <= 2 ^ 29.

(** C25: A packet buffer is a queue: for a ring of at most 2^29 blocks, whatever the order
    in which the producer and the consumer finish, every event is handled without an access
    outside the ring or a failed assertion, and the packets handed to the consumer followed
    by those still in the ring are the packets that were put in, in their order. *)
Theorem packet_buffer_refines max num alloc b es os b' :
  0 <= max -> 0 < num -> allocates alloc -> PacketBuffer_Init max num alloc = Some (inl b) -> buffer_run b es os b' ->
  (forall e, allowed e b' = true -> is_Some (step e b')) /\
  exists q, chunk_ok q (chunks b') /\ packets_in es = os ++ q.
Proof.
  intros Hmax Hnum Ha Hi Hrun. destruct (run_buffering _ _ _ _ _ _ _ Hrun (pb_init_ok _ _ _ _ Hmax Hnum Ha Hi)) as (q & Hb & Eq). split.
  - intros [p|] He; [destruct (in_ok _ _ _ _ _ Hb He) as (b2 & -> & _)|destruct (out_ok _ _ _ _ Hb He) as (p & q' & b2 & _ & -> & _)]; by eexists.
  - exists q. split; [apply (bf_chunks _ _ _ _ Hb)|done].
Qed.

(** A packet buffer made for [num] packets takes that many: while fewer are in it, the
    producer is asked for the next, with room for the largest packet; and while it is not
    empty, the consumer has its first packet. So it never stops both. *)
Theorem packet_buffer_capacity max num alloc b es os b' :
  0 <= max -> 0 < num -> allocates alloc -> PacketBuffer_Init max num alloc = Some (inl b) -> buffer_run b es os b' ->
  (zlen (packets_in es) - zlen os < num ->
     exists dest, pb_recv b' = Some dest /\ 0 <= dest /\ dest + max <= zlen (buffer (chunks b'))) /\
  (0 < zlen (packets_in es) - zlen os -> is_Some (pb_send b')).
Proof.
  intros Hmax Hnum Ha Hi Hrun. destruct (run_buffering _ _ _ _ _ _ _ Hrun (pb_init_ok _ _ _ _ Hmax Hnum Ha Hi)) as (q & Hb & Eq).
  cbn [app] in Eq. rewrite Eq, zlen_app. replace (zlen os + zlen q - zlen os) with (zlen q) by lia. destruct Hb as [Hc _ Hm Hn Hin Hp Hr Hs]. split.
  - intros Hlt. rewrite Hr. pose proof (bdivide_up_pos max Hmax). destruct (Z.geb_spec (input_avail (chunks b')) max) as [Hge|Hge].
    + destruct (chunk_room _ _ Hc ltac:(lia)) as [d Hd]. destruct (chunk_input _ _ _ Hc Hd) as (? & ? & ?). exists d. split_and!; [done|done|lia].
    + pose proof (full_blocks q _ max Hc Hm Hmax Hge) as Hf. pose proof (blocks_all_le max q Hmax Hp) as Hle. rewrite Hn, Hm in Hf.
      exfalso. set (c := bdivide_up max 4) in *. nia.
  - intros Hpos. rewrite Hs. pose proof (chunk_output _ _ Hc) as Ho. destruct q as [|p q]; [done|].
    destruct Ho as (o & -> & _). by eexists.
Qed.

(** The number of blocks is checked to fit an [int], their size in bytes is not: a ring of
    4 GiB says that no byte can be written into it. *)
Theorem large_ring_overflows m :
  ChunkBuffer2_calc_blocks 4 (2 ^ 29 - 1) = 2 ^ 30 /\ input_now (mk_chunks m (2 ^ 30) (2 ^ 30) 0 0 1 None 0 None 0) = (Some 4, -4).
Proof. split; reflexivity. Qed.

(** ** A buffer for two packets of up to five bytes *)

Definition some_alloc (n : Z) : option bytes := if (0 <=? n) && (n <=? 2 ^ 29) then Some (replicate (Z.to_nat (4 * n)) 0) else None.
Definition some_buffer : PacketBuffer :=
  match PacketBuffer_Init 5 2 some_alloc with Some (inl b) => b | _ => mk_packets (mk_chunks [] 0 0 0 0 0 None 0 None 0) 0 None None end.

Fixpoint exec (es : list event) (b : PacketBuffer) : option (list bytes * PacketBuffer) :=
  match es with
  | [] => Some ([], b)
  | e :: es => if allowed e b then '(b, o) ← step e b; '(os, b) ← exec es b; Some (o ++ os, b) else None
  end.

Lemma ring_exec_run es b os b' : exec es b = Some (os, b') -> buffer_run b es os b'.
Proof.
  revert b os. induction es as [|e es IH]; intros b os; cbn; [intros [= <- <-]; constructor|].
  destruct (allowed e b) eqn:Ha; [|done]. destruct (step e b) as [[b1 o]|] eqn:Hs; [|done]. cbn.
  destruct (exec es b1) as [[os1 b2]|] eqn:He; [|done]. cbn. intros [= <- <-]. econstructor; eauto.
Qed.

Lemma some_alloc_ok : allocates some_alloc.
Proof.
  intros n m. unfold some_alloc. destruct (Z.leb_spec 0 n), (Z.leb_spec n (2 ^ 29)); try done. intros [= <-]. split; [|done].
  unfold zlen. rewrite length_replicate. lia.
Qed.

(** The ring wraps around early: the third packet goes to its beginning. *)
Definition some_events : list event := [pe_in [1; 2; 3; 4; 5]; pe_in [6]; pe_out; pe_in [7; 8; 9; 10; 11]; pe_out].
Definition some_after : PacketBuffer := match exec some_events some_buffer with Some (_, b) => b | None => some_buffer end.

Lemma ring_some_run : buffer_run some_buffer some_events [[1; 2; 3; 4; 5]; [6]] some_after.
Proof. apply ring_exec_run. vm_compute. reflexivity. Qed.

Lemma packet_buffer_refines_witness : exists q, packets_in some_events = [[1; 2; 3; 4; 5]; [6]] ++ q.
Proof.
  destruct (packet_buffer_refines 5 2 some_alloc some_buffer some_events [[1; 2; 3; 4; 5]; [6]] some_after) as [_ (q & _ & H)];
    [lia|lia|exact some_alloc_ok|vm_compute; reflexivity|exact ring_some_run|]. exists q. exact H.
Defined.

Lemma packet_buffer_capacity_witness : is_Some (pb_send some_after) /\ exists dest, pb_recv some_after = Some dest.
Proof.
  destruct (packet_buffer_capacity 5 2 some_alloc some_buffer some_events [[1; 2; 3; 4; 5]; [6]] some_after) as [H1 H2];
    [lia|lia|exact some_alloc_ok|vm_compute; reflexivity|exact ring_some_run|].
  split; [apply H2; reflexivity|]. destruct H1 as (dest & H & _); [reflexivity|]. by exists dest.
Defined.

End ChunkBuffer.
