(* ===== verification/BSocks.v ===== *)
(** * The SOCKS5 client of tun2socks: badvpn's BSocksClient.c

    For each TCP connection of the tunnel tun2socks runs this client: it connects to the
    proxy, negotiates an authentication method, asks for the destination and then hands the
    connection over. The client owns a connector, a connection with its two asynchronous
    interfaces and a packet sender, and one buffer that is reallocated for each message; what
    it owns and the requests it has outstanding are part of its state, so that leaks, double
    releases and accesses outside the buffer can be stated.

    [None] is a failed assertion, a release of something that is not held, or an access
    outside the buffer. What [BRealloc] returns is an argument of the handlers. *)

From S2P Require Import Prelude Memory.
Import Memory.
Open Scope Z_scope.

Module BSocks.

(** ** misc/socks_proto.h, BSocksClient.h *)

Definition SOCKS_VERSION : Z := 5.
Definition SOCKS_METHOD_NO_AUTHENTICATION_REQUIRED : Z := 0.
Definition SOCKS_METHOD_USERNAME_PASSWORD : Z := 2.
Definition SOCKS_CMD_CONNECT : Z := 1.
Definition SOCKS_ATYP_IPV4 : Z := 1.
Definition SOCKS_ATYP_IPV6 : Z := 4.
Definition SOCKS_REP_SUCCEEDED : Z := 0.

Inductive auth_info := auth_none | auth_password (username password : bytes).

Definition auth_type (a : auth_info) : Z :=
  match a with
  | auth_none => SOCKS_METHOD_NO_AUTHENTICATION_REQUIRED
  | auth_password _ _ => SOCKS_METHOD_USERNAME_PASSWORD
  end.

(** A [BAddr] of a destination: address and port as their bytes, in network order. *)
Inductive dest_addr := ipv4 (ip port : bytes) | ipv6 (ip port : bytes).

Inductive socks_state :=
| STATE_CONNECTING | STATE_SENDING_HELLO | STATE_SENT_HELLO | STATE_SENDING_PASSWORD | STATE_SENT_PASSWORD
| STATE_SENDING_REQUEST | STATE_SENT_REQUEST | STATE_RECEIVED_REPLY_HEADER | STATE_UP.

#[export] Instance socks_state_eq_dec : EqDecision socks_state.
Proof. solve_decision. Defined.

Inductive client_event := EVENT_ERROR | EVENT_UP | EVENT_ERROR_CLOSED.

(** What was initialised and not freed. *)
Record resources := mk_res { r_connector : bool; r_con : bool; r_recv : bool; r_send : bool; r_sender : bool }.

Record client := mk_client {
  auths : list auth_info;
  dest : dest_addr;
  state : socks_state;
  cbuffer : option bytes;
  recv_dest : Z;
  recv_len : Z;
  recv_total : Z;
  res : resources;
  c_recv : option (Z * Z);      (* outstanding receive, an offset in the buffer and a length *)
  c_send : option (Z * Z) }.    (* outstanding send *)

Definition set_state s (o : client) : client :=
  mk_client (auths o) (dest o) s (cbuffer o) (recv_dest o) (recv_len o) (recv_total o) (res o) (c_recv o) (c_send o).
Definition set_cbuffer m (o : client) : client :=
  mk_client (auths o) (dest o) (state o) m (recv_dest o) (recv_len o) (recv_total o) (res o) (c_recv o) (c_send o).
Definition set_recv d l t (o : client) : client :=
  mk_client (auths o) (dest o) (state o) (cbuffer o) d l t (res o) (c_recv o) (c_send o).
Definition set_res r (o : client) : client :=
  mk_client (auths o) (dest o) (state o) (cbuffer o) (recv_dest o) (recv_len o) (recv_total o) r (c_recv o) (c_send o).
Definition set_io r s (o : client) : client :=
  mk_client (auths o) (dest o) (state o) (cbuffer o) (recv_dest o) (recv_len o) (recv_total o) (res o) r s.

(** ** BSocksClient.c *)

(** The asynchronous interfaces can be initialised once, on a connection. *)
Definition init_up_io (o : client) : option client :=
  let r := res o in
  ASSERT (r_con r && negb (r_recv r) && negb (r_send r));;
  Some (set_res (mk_res (r_connector r) true true true (r_sender r)) o).

Definition init_control_io (o : client) : option client :=
  let r := res o in
  ASSERT (r_con r && negb (r_recv r) && negb (r_send r) && negb (r_sender r));;
  Some (set_res (mk_res (r_connector r) true true true true) (set_io None None o)).

(** Freeing an interface also ends its outstanding operation. *)
Definition free_control_io (o : client) : option client :=
  let r := res o in
  ASSERT (r_recv r && r_send r && r_sender r);;
  Some (set_res (mk_res (r_connector r) (r_con r) false false false) (set_io None None o)).

Definition free_up_io (o : client) : option client :=
  let r := res o in
  ASSERT (r_recv r && r_send r && negb (r_sender r));;
  Some (set_res (mk_res (r_connector r) (r_con r) false false false) o).

(** [BConnection_Init] and [BConnection_Free]: the interfaces must be free. *)
Definition connection_init (o : client) : option client :=
  let r := res o in
  ASSERT (negb (r_con r));;
  Some (set_res (mk_res (r_connector r) true (r_recv r) (r_send r) (r_sender r)) o).
Definition connection_free (o : client) : option client :=
  let r := res o in
  ASSERT (r_con r && negb (r_recv r) && negb (r_send r));;
  Some (set_res (mk_res (r_connector r) false false false (r_sender r)) o).

(** [alloc] is [BRealloc], which returns a block of the size that is asked for; its contents
    are not relied on. [inr]: [reserve_buffer] returns 0. No size here can overflow: the
    largest is 1 + 1 + 255 + 1 + 255. *)
Definition reserve_buffer (size : Z) (alloc : Z -> option bytes) (o : client) : option (client + client) :=
  match alloc size with
  | None => Some (inr o)
  | Some m => Some (inl (set_cbuffer (Some m) o))
  end.

(** [StreamRecvInterface_Receiver_Recv] *)
Definition do_receive (o : client) : option client :=
  ASSERT (recv_len o <? recv_total o);;
  ASSERT (bool_decide (c_recv o = None));;
  Some (set_io (Some (recv_dest o + recv_len o, recv_total o - recv_len o)) (c_send o) o).

Definition start_receive (dst total : Z) (o : client) : option client :=
  ASSERT (0 <? total);;
  do_receive (set_recv dst 0 total o).

(** [PacketPassInterface_Sender_Send] of the first [len] bytes of the buffer. *)
Definition send_buffer (len : Z) (o : client) : option client :=
  ASSERT (0 <=? len);;
  ASSERT (bool_decide (c_send o = None));;
  Some (set_io (c_recv o) (Some (0, len)) o).

(** Writes a message to the beginning of the buffer and sends it. *)
Definition send_message (msg : bytes) (o : client) : option client :=
  m ← cbuffer o;
  m ← store 0 msg m;
  send_buffer (zlen msg) (set_cbuffer (Some m) o).

(** A handler changes the client and may report an event to the owner. *)
Definition handled := option (client * option client_event).

Definition report (e : client_event) (o : client) : handled := Some (o, Some e).
Definition continue (o : client) : handled := Some (o, None).

Definition hello_msg (l : list auth_info) : bytes := [SOCKS_VERSION; u8 (zlen l)] ++ (auth_type <$> l).

Definition connector_handler (is_error con_ok : bool) (alloc : Z -> option bytes) (o : client) : handled :=
  ASSERT (bool_decide (state o = STATE_CONNECTING));;
  if is_error then report EVENT_ERROR o
  else if negb con_ok then report EVENT_ERROR o
  else
    o ← connection_init o;
    o ← init_control_io o;
    let fail1 (o : client) := (o ← free_control_io o; o ← connection_free o; report EVENT_ERROR o) in
    if (zlen (auths o) =? 0) || (zlen (auths o) >? 255) then fail1 o
    else
      r ← reserve_buffer (2 + zlen (auths o)) alloc o;
      match r with
      | inr o => fail1 o
      | inl o =>
          o ← send_message (hello_msg (auths o)) o;
          continue (set_state STATE_SENDING_HELLO o)
      end.

Definition connection_handler (recv_closed : bool) (o : client) : handled :=
  ASSERT (bool_decide (state o <> STATE_CONNECTING));;
  if bool_decide (state o = STATE_UP) && recv_closed then report EVENT_ERROR_CLOSED o
  else report EVENT_ERROR o.

Definition request_msg (d : dest_addr) : bytes :=
  match d with
  | ipv4 ip port => [SOCKS_VERSION; SOCKS_CMD_CONNECT; 0; SOCKS_ATYP_IPV4] ++ ip ++ port
  | ipv6 ip port => [SOCKS_VERSION; SOCKS_CMD_CONNECT; 0; SOCKS_ATYP_IPV6] ++ ip ++ port
  end.

(** [sizeof] the header and the address. *)
Definition request_size (d : dest_addr) : Z := match d with ipv4 _ _ => 4 + 6 | ipv6 _ _ => 4 + 18 end.

Definition auth_finished (alloc : Z -> option bytes) (o : client) : handled :=
  r ← reserve_buffer (request_size (dest o)) alloc o;
  match r with
  | inr o => report EVENT_ERROR o
  | inl o =>
      o ← send_message (request_msg (dest o)) o;
      continue (set_state STATE_SENDING_REQUEST o)
  end.

Definition password_msg (username password : bytes) : bytes :=
  [1; u8 (zlen username)] ++ username ++ [u8 (zlen password)] ++ password.

(** [STATE_SENT_HELLO]: the first offered method of the number the proxy chose. *)
Definition received_hello (alloc : Z -> option bytes) (o : client) : handled :=
  m ← cbuffer o;
  imsg ← load 0 2 m;
  match imsg with
  | [ver; method] =>
      if negb (ver =? SOCKS_VERSION) then report EVENT_ERROR o
      else match list_find (fun a => auth_type a = method) (auths o) with
      | None => report EVENT_ERROR o
      | Some (_, auth_none) => auth_finished alloc o
      | Some (_, auth_password username password) =>
          if (zlen username =? 0) || (zlen username >? 255) || (zlen password =? 0) || (zlen password >? 255) then report EVENT_ERROR o
          else
            r ← reserve_buffer (1 + 1 + zlen username + 1 + zlen password) alloc o;
            match r with
            | inr o => report EVENT_ERROR o
            | inl o =>
                o ← send_message (password_msg username password) o;
                continue (set_state STATE_SENDING_PASSWORD o)
            end
      end
  | _ => None
  end.

(** [STATE_SENT_REQUEST] *)
Definition received_reply_header (o : client) : handled :=
  m ← cbuffer o;
  imsg ← load 0 4 m;
  match imsg with
  | [ver; rep; _; atyp] =>
      if negb (ver =? SOCKS_VERSION) then report EVENT_ERROR o
      else if negb (rep =? SOCKS_REP_SUCCEEDED) then report EVENT_ERROR o
      else if atyp =? SOCKS_ATYP_IPV4 then o ← start_receive 4 6 o; continue (set_state STATE_RECEIVED_REPLY_HEADER o)
      else if atyp =? SOCKS_ATYP_IPV6 then o ← start_receive 4 18 o; continue (set_state STATE_RECEIVED_REPLY_HEADER o)
      else report EVENT_ERROR o
  | _ => None
  end.

(** [STATE_SENT_PASSWORD] *)
Definition received_password_reply (alloc : Z -> option bytes) (o : client) : handled :=
  m ← cbuffer o;
  imsg ← load 0 2 m;
  match imsg with
  | [ver; status] =>
      if negb (ver =? 1) then report EVENT_ERROR o
      else if negb (status =? 0) then report EVENT_ERROR o
      else auth_finished alloc o
  | _ => None
  end.

(** [STATE_RECEIVED_REPLY_HEADER] *)
Definition received_reply (o : client) : handled :=
  o ← free_control_io (set_cbuffer None o);
  o ← init_up_io o;
  report EVENT_UP (set_state STATE_UP o).

Definition recv_handler_done (data_len : Z) (alloc : Z -> option bytes) (o : client) : handled :=
  ASSERT (0 <=? data_len);;
  ASSERT (data_len <=? recv_total o - recv_len o);;
  let o := set_recv (recv_dest o) (recv_len o + data_len) (recv_total o) o in
  if recv_len o <? recv_total o then o ← do_receive o; continue o
  else match state o with
  | STATE_SENT_HELLO => received_hello alloc o
  | STATE_SENT_REQUEST => received_reply_header o
  | STATE_SENT_PASSWORD => received_password_reply alloc o
  | STATE_RECEIVED_REPLY_HEADER => received_reply o
  | _ => None
  end.

(** Allocates a buffer and receives into it. *)
Definition expect (size total : Z) (s : socks_state) (alloc : Z -> option bytes) (o : client) : handled :=
  r ← reserve_buffer size alloc o;
  match r with
  | inr o => report EVENT_ERROR o
  | inl o => o ← start_receive 0 total o; continue (set_state s o)
  end.

Definition send_handler_done (alloc : Z -> option bytes) (o : client) : handled :=
  ASSERT (bool_decide (cbuffer o <> None));;
  match state o with
  | STATE_SENDING_HELLO => expect 2 2 STATE_SENT_HELLO alloc o
  | STATE_SENDING_REQUEST => expect (4 + Z.max 6 18) 4 STATE_SENT_REQUEST alloc o
  | STATE_SENDING_PASSWORD => expect 2 2 STATE_SENT_PASSWORD alloc o
  | _ => None
  end.

(** [inr tt]: [BConnector_Init] failed. *)
Definition BSocksClient_Init (l : list auth_info) (d : dest_addr) (connector_ok : bool) : client + unit :=
  if connector_ok
  then inl (mk_client l d STATE_CONNECTING None 0 0 0 (mk_res true false false false false) None None)
  else inr tt.

(** What is left after the client was freed. *)
Definition BSocksClient_Free (o : client) : option client :=
  o ← (if bool_decide (state o <> STATE_CONNECTING) then
         o ← (if bool_decide (state o = STATE_UP) then free_up_io o else free_control_io o);
         connection_free o
       else Some o);
  let r := res o in
  ASSERT (r_connector r);;
  Some (set_cbuffer None (set_res (mk_res false (r_con r) (r_recv r) (r_send r) (r_sender r)) o)).

(** ** Runs

    What the connector, the connection and its interfaces can report. The bytes received are
    where they were asked for. *)

Inductive event :=
| ev_connected (is_error con_ok : bool)
| ev_connection (recv_closed : bool)
| ev_sent
| ev_received (data : bytes).

Definition allowed (e : event) (o : client) : bool :=
  match e with
  | ev_connected _ _ => bool_decide (state o = STATE_CONNECTING)
  | ev_connection _ => bool_decide (state o <> STATE_CONNECTING)
  | ev_sent => bool_decide (c_send o <> None)
  | ev_received data => match c_recv o with Some (_, len) => (0 <? zlen data) && (zlen data <=? len) | None => false end
  end.

Definition handle (alloc : Z -> option bytes) (e : event) (o : client) : handled :=
  match e with
  | ev_connected is_error con_ok => connector_handler is_error con_ok alloc o
  | ev_connection recv_closed => connection_handler recv_closed o
  | ev_sent => send_handler_done alloc (set_io (c_recv o) None o)
  | ev_received data =>
      '(off, _) ← c_recv o;
      m ← cbuffer o;
      m ← store off data m;
      recv_handler_done (zlen data) alloc (set_cbuffer (Some m) (set_io None (c_send o) o))
  end.

(** ** What holds of a client *)

Definition dest_ok (d : dest_addr) : Prop :=
  match d with ipv4 ip port => zlen ip = 4 /\ zlen port = 2 | ipv6 ip port => zlen ip = 16 /\ zlen port = 2 end.

Definition allocates (alloc : Z -> option bytes) : Prop := forall n m, alloc n = Some m -> zlen m = n.

Definition only_connector : resources := mk_res true false false false false.
Definition control : resources := mk_res true true true true true.
Definition up : resources := mk_res true true true true false.

(** Sending [msg], which lies at the beginning of the buffer. *)
Definition sending (msg : bytes) (o : client) : Prop :=
  res o = control /\ c_recv o = None /\ c_send o = Some (0, zlen msg) /\ exists m, cbuffer o = Some m /\ holds_at 0 msg m.

(** Receiving [total] bytes at [dst] in a buffer of [size] bytes, [got] of them so far. *)
Definition receiving (dst total size : Z) (got : bytes) (o : client) : Prop :=
  res o = control /\ c_send o = None /\ recv_dest o = dst /\ recv_total o = total /\ recv_len o = zlen got /\ zlen got < total /\
  c_recv o = Some (dst + zlen got, total - zlen got) /\ exists m, cbuffer o = Some m /\ zlen m = size /\ holds_at dst got m.

Definition client_ok (o : client) : Prop :=
  dest_ok (dest o) /\
  match state o with
  | STATE_CONNECTING => res o = only_connector /\ cbuffer o = None /\ c_recv o = None /\ c_send o = None
  | STATE_SENDING_HELLO => sending (hello_msg (auths o)) o
  | STATE_SENDING_PASSWORD => exists u p, auth_password u p ∈ auths o /\ sending (password_msg u p) o
  | STATE_SENDING_REQUEST => sending (request_msg (dest o)) o
  | STATE_SENT_HELLO | STATE_SENT_PASSWORD => exists got, receiving 0 2 2 got o
  | STATE_SENT_REQUEST => exists got, receiving 0 4 22 got o
  | STATE_RECEIVED_REPLY_HEADER => exists n got, (n = 6 \/ n = 18) /\ receiving 4 n 22 got o
  | STATE_UP => res o = up /\ cbuffer o = None /\ c_recv o = None /\ c_send o = None
  end.

(** What the client owns goes with its state, so that it can be freed. *)
Definition freeable (o : client) : Prop :=
  res o = match state o with STATE_CONNECTING => only_connector | STATE_UP => up | _ => control end.

Lemma ok_freeable o : client_ok o -> freeable o.
Proof.
  intros [_ H]. unfold freeable. destruct (state o); try (by destruct H).
  - by destruct H as (got & H & _).
  - by destruct H as (u & p & _ & H & _).
  - by destruct H as (got & H & _).
  - by destruct H as (got & H & _).
  - by destruct H as (n & got & _ & H & _).
Qed.

Lemma free_ok o :
  freeable o -> exists o', BSocksClient_Free o = Some o' /\ res o' = mk_res false false false false false /\ cbuffer o' = None.
Proof.
  destruct o as [l d s b rd rl rt r cr cs]. unfold freeable. cbn. intros ->. destruct s; (eexists; split; [reflexivity|done]).
Qed.

Definition is_Some_b {A} (x : option A) : bool := match x with Some _ => true | None => false end.

(** ** The protocol, as a pure machine *)

Inductive action :=
| a_fail
| a_send (msg : bytes) (s : socks_state)
| a_rest (n : Z)
| a_up.

Definition valid_length (s : bytes) : bool := negb (zlen s =? 0) && negb (zlen s >? 255).

Lemma valid_length_true s : 0 < zlen s <= 255 -> valid_length s = true.
Proof. intros Hs. unfold valid_length. destruct (Z.eqb_spec (zlen s) 0), (Z.gtb_spec (zlen s) 255); done || lia. Qed.

(** What a complete answer of the proxy leads to. *)
Definition reaction (l : list auth_info) (d : dest_addr) (s : socks_state) (answer : bytes) : action :=
  match s, answer with
  | STATE_SENT_HELLO, [ver; method] =>
      if ver =? SOCKS_VERSION then
        match list_find (fun a => auth_type a = method) l with
        | None => a_fail
        | Some (_, auth_none) => a_send (request_msg d) STATE_SENDING_REQUEST
        | Some (_, auth_password u p) =>
            if valid_length u && valid_length p then a_send (password_msg u p) STATE_SENDING_PASSWORD else a_fail
        end
      else a_fail
  | STATE_SENT_PASSWORD, [ver; status] =>
      if (ver =? 1) && (status =? 0) then a_send (request_msg d) STATE_SENDING_REQUEST else a_fail
  | STATE_SENT_REQUEST, [ver; rep; _; atyp] =>
      if (ver =? SOCKS_VERSION) && (rep =? SOCKS_REP_SUCCEEDED) then
        if atyp =? SOCKS_ATYP_IPV4 then a_rest 6 else if atyp =? SOCKS_ATYP_IPV6 then a_rest 18 else a_fail
      else a_fail
  | STATE_RECEIVED_REPLY_HEADER, _ => a_up
  | _, _ => a_fail
  end.

Definition received_so_far (o : client) : option bytes := m ← cbuffer o; load (recv_dest o) (recv_len o) m.

(** ** The handlers follow the machine *)

Lemma receiving_got dst total size got o : receiving dst total size got o -> received_so_far o = Some got.
Proof. intros (_ & _ & Hd & _ & Hl & _ & _ & m & Hm & _ & Hh). unfold received_so_far. rewrite Hm, Hd, Hl. exact Hh. Qed.

(** Nothing else of the client changes. *)
Definition same_target (o o' : client) : Prop := auths o' = auths o /\ dest o' = dest o.

Lemma send_message_ok msg o m :
  cbuffer o = Some m -> zlen m = zlen msg -> res o = control -> c_recv o = None -> c_send o = None ->
  exists o', send_message msg o = Some o' /\ sending msg o' /\ same_target o o' /\ state o' = state o.
Proof.
  intros Hm Hl Hr H1 H2. unfold send_message. rewrite Hm. cbn [mbind option_bind].
  destruct (store_some 0 msg m) as (m' & Hs & _); [lia|lia|]. rewrite Hs. cbn [mbind option_bind]. unfold send_buffer. cbn [set_cbuffer c_send c_recv].
  rewrite (proj2 (Z.leb_le 0 (zlen msg))), bool_decide_eq_true_2 by (done || apply zlen_nonneg). eexists. split; [done|].
  split; [|by split]. split_and!; try done. exists m'. split; [done|]. by eapply store_holds.
Qed.

(** Allocating a buffer for a message and sending it. *)
Lemma message_ok alloc size msg s o :
  allocates alloc -> zlen msg = size -> res o = control -> c_recv o = None -> c_send o = None ->
  match alloc size with
  | None => reserve_buffer size alloc o = Some (inr o)
  | Some m => reserve_buffer size alloc o = Some (inl (set_cbuffer (Some m) o)) /\
      exists o', send_message msg (set_cbuffer (Some m) o) = Some o' /\ sending msg (set_state s o') /\ same_target o (set_state s o')
  end.
Proof.
  intros Ha Hl Hr H1 H2. unfold reserve_buffer. destruct (alloc size) as [m|] eqn:Em; [|done]. split; [done|].
  destruct (send_message_ok msg (set_cbuffer (Some m) o) m) as (o' & E & Hs & Ht & _); try done; [by rewrite (Ha _ _ Em)|].
  exists o'. by split_and!.
Qed.

Lemma zlen_hello l : zlen (hello_msg l) = 2 + zlen l.
Proof. unfold hello_msg. rewrite zlen_app. unfold zlen. rewrite length_fmap. cbn. lia. Qed.
Lemma zlen_password u p : zlen (password_msg u p) = 1 + 1 + zlen u + 1 + zlen p.
Proof. unfold password_msg. rewrite !zlen_app. unfold zlen. cbn [length]. lia. Qed.
Lemma zlen_request d : dest_ok d -> zlen (request_msg d) = request_size d.
Proof. destruct d; cbn; intros [H1 H2]; rewrite !zlen_cons, zlen_app, H1, H2; done. Qed.

(** Sending the request, or failing for lack of memory. *)
Lemma auth_finished_ok alloc o :
  allocates alloc -> dest_ok (dest o) -> res o = control -> c_recv o = None -> c_send o = None ->
  exists o' ev, auth_finished alloc o = Some (o', ev) /\ same_target o o' /\
    match alloc (zlen (request_msg (dest o))) with
    | None => ev = Some EVENT_ERROR /\ o' = o
    | Some _ => ev = None /\ state o' = STATE_SENDING_REQUEST /\ sending (request_msg (dest o)) o'
    end.
Proof.
  intros Ha Hd Hr H1 H2. unfold auth_finished. rewrite <- zlen_request by done.
  pose proof (message_ok alloc _ (request_msg (dest o)) STATE_SENDING_REQUEST o Ha eq_refl Hr H1 H2) as H.
  destruct (alloc (zlen (request_msg (dest o)))) as [m|].
  - destruct H as [-> (o' & E & Hs & Ht)]. cbn [mbind option_bind]. change (dest (set_cbuffer (Some m) o)) with (dest o). rewrite E. cbn [mbind option_bind].
    eexists _, None. split; [done|]. by split_and!; destruct Ht.
  - rewrite H. cbn. by eexists o, _.
Qed.

Lemma do_receive_ok o :
  recv_len o < recv_total o -> c_recv o = None ->
  do_receive o = Some (set_io (Some (recv_dest o + recv_len o, recv_total o - recv_len o)) (c_send o) o).
Proof.
  intros Hl Hr. unfold do_receive. by rewrite (proj2 (Z.ltb_lt (recv_len o) (recv_total o))), bool_decide_eq_true_2.
Qed.

Lemma start_receive_ok dst total size m o :
  0 < total -> 0 <= dst -> dst + total <= size -> cbuffer o = Some m -> zlen m = size -> res o = control -> c_recv o = None -> c_send o = None ->
  exists o', start_receive dst total o = Some o' /\ receiving dst total size [] o' /\ same_target o o'.
Proof.
  intros Ht Hd Hs Hm Hl Hr H1 H2. unfold start_receive, do_receive. cbn [set_recv recv_len recv_total recv_dest c_recv].
  rewrite (proj2 (Z.ltb_lt 0 total)), bool_decide_eq_true_2 by done. cbn. eexists. split; [done|]. split; [|done].
  split_and!; try done. exists m. split_and!; try done. apply holds_at_nil. lia.
Qed.

(** The bytes of an answer, once they are all in the buffer. *)
Lemma load_pair (m : bytes) got : zlen got = 2 -> holds_at 0 got m -> exists a b, got = [a; b] /\ load 0 2 m = Some [a; b].
Proof.
  intros Hl Hh. unfold holds_at in Hh. rewrite Hl in Hh. destruct got as [|a [|b [|c got]]]; unfold zlen in Hl; cbn in Hl; try lia. by exists a, b.
Qed.
Lemma load_four (m : bytes) got :
  zlen got = 4 -> holds_at 0 got m -> exists a b c d, got = [a; b; c; d] /\ load 0 4 m = Some [a; b; c; d].
Proof.
  intros Hl Hh. unfold holds_at in Hh. rewrite Hl in Hh. destruct got as [|a [|b [|c [|d [|e got]]]]]; unfold zlen in Hl; cbn in Hl; try lia.
  by exists a, b, c, d.
Qed.

(** What the owner sees after a complete answer. *)
Definition follows (alloc : Z -> option bytes) (o o' : client) (ev : option client_event) (a : action) : Prop :=
  same_target o o' /\
  match a with
  | a_fail => ev = Some EVENT_ERROR /\ freeable o'
  | a_send msg s =>
      match alloc (zlen msg) with
      | None => ev = Some EVENT_ERROR /\ freeable o'
      | Some _ => ev = None /\ state o' = s /\ sending msg o' /\ client_ok o'
      end
  | a_rest n => ev = None /\ state o' = STATE_RECEIVED_REPLY_HEADER /\ recv_total o' = n /\ received_so_far o' = Some [] /\ client_ok o'
  | a_up => ev = Some EVENT_UP /\ state o' = STATE_UP /\ client_ok o'
  end.

(** A client that has a complete answer in its buffer. *)
Definition answered (dst size : Z) (got : bytes) (o : client) : Prop :=
  dest_ok (dest o) /\ res o = control /\ c_recv o = None /\ c_send o = None /\
  exists m, cbuffer o = Some m /\ zlen m = size /\ holds_at dst got m.

Lemma answered_freeable dst size got o : answered dst size got o -> state o <> STATE_CONNECTING -> state o <> STATE_UP -> freeable o.
Proof. intros (_ & Hr & _) H1 H2. unfold freeable. rewrite Hr. by destruct (state o). Qed.

Lemma fails alloc dst size got o :
  answered dst size got o -> state o <> STATE_CONNECTING -> state o <> STATE_UP -> follows alloc o o (Some EVENT_ERROR) a_fail.
Proof. intros H H1 H2. split; [done|]. split; [done|]. by eapply answered_freeable. Qed.

Lemma asks alloc dst size got o :
  allocates alloc -> answered dst size got o -> state o <> STATE_CONNECTING -> state o <> STATE_UP ->
  exists o' ev, auth_finished alloc o = Some (o', ev) /\ follows alloc o o' ev (a_send (request_msg (dest o)) STATE_SENDING_REQUEST).
Proof.
  intros Ha H H1 H2. pose proof (answered_freeable _ _ _ _ H H1 H2) as Hf. destruct H as (Hd & Hr & Hc & Hs & _).
  destruct (auth_finished_ok alloc o Ha Hd Hr Hc Hs) as (o' & ev & -> & Ht & H). exists o', ev. split; [done|]. split; [done|].
  destruct (alloc (zlen (request_msg (dest o)))); [|by destruct H as [-> ->]]. destruct H as (-> & Hst & Hsnd). split_and!; try done.
  destruct Ht as [_ Hd']. split; [by rewrite Hd'|]. rewrite Hst. by rewrite Hd'.
Qed.

Lemma hello_follows alloc got o :
  allocates alloc -> answered 0 2 got o -> zlen got = 2 -> state o = STATE_SENT_HELLO ->
  exists o' ev, received_hello alloc o = Some (o', ev) /\ follows alloc o o' ev (reaction (auths o) (dest o) STATE_SENT_HELLO got).
Proof.
  intros Ha H Hl Hst. pose proof H as (Hd & Hr & Hc & Hs & m & Hm & _ & Hh). destruct (load_pair m got Hl Hh) as (ver & method & -> & Hload).
  assert (Hfail : follows alloc o o (Some EVENT_ERROR) a_fail) by (eapply fails; [done|by rewrite Hst..]).
  unfold received_hello. rewrite Hm. cbn [mbind option_bind]. rewrite Hload. cbn [mbind option_bind]. unfold reaction, report.
  destruct (ver =? SOCKS_VERSION); cbn [negb]; [|by eexists o, _].
  destruct (list_find _ (auths o)) as [[i [|u p]]|] eqn:Ef; [|..|by eexists o, _].
  - apply (asks alloc 0 2 [ver; method]); [done|done|by rewrite Hst..].
  - unfold valid_length. destruct (zlen u =? 0), (zlen u >? 255), (zlen p =? 0), (zlen p >? 255); cbn [negb orb andb]; try by eexists o, _.
    unfold follows. rewrite <- zlen_password. pose proof (message_ok alloc _ (password_msg u p) STATE_SENDING_PASSWORD o Ha eq_refl Hr Hc Hs) as H0.
    destruct (alloc (zlen (password_msg u p))) as [m'|] eqn:Em.
    + destruct H0 as [-> (o' & E & Hsnd & Ht)]. cbn [mbind option_bind]. rewrite E. cbn [mbind option_bind].
      eexists _, None. split; [done|]. split; [done|]. split_and!; try done. destruct Ht as [Ht1 Ht2]. split; [by rewrite Ht2|].
      cbn [set_state state]. exists u, p. rewrite Ht1. split; [|done]. apply list_find_Some in Ef as (Hi & _). by eapply list_elem_of_lookup_2.
    + rewrite H0. cbn [mbind option_bind]. eexists o, _. split; [done|]. split; [done|]. by destruct Hfail as [_ [_ ?]].
Qed.

Lemma password_follows alloc got o :
  allocates alloc -> answered 0 2 got o -> zlen got = 2 -> state o = STATE_SENT_PASSWORD ->
  exists o' ev, received_password_reply alloc o = Some (o', ev) /\ follows alloc o o' ev (reaction (auths o) (dest o) STATE_SENT_PASSWORD got).
Proof.
  intros Ha H Hl Hst. pose proof H as (Hd & Hr & Hc & Hs & m & Hm & _ & Hh). destruct (load_pair m got Hl Hh) as (ver & status & -> & Hload).
  assert (Hfail : follows alloc o o (Some EVENT_ERROR) a_fail) by (eapply fails; [done|by rewrite Hst..]).
  unfold received_password_reply. rewrite Hm. cbn [mbind option_bind]. rewrite Hload. cbn [mbind option_bind]. unfold reaction, report.
  destruct (ver =? 1); cbn [negb andb]; [|by eexists o, _]. destruct (status =? 0); cbn [negb]; [|by eexists o, _].
  apply (asks alloc 0 2 [ver; status]); [done|done|by rewrite Hst..].
Qed.

Lemma header_follows alloc got o :
  answered 0 22 got o -> zlen got = 4 -> state o = STATE_SENT_REQUEST ->
  exists o' ev, received_reply_header o = Some (o', ev) /\ follows alloc o o' ev (reaction (auths o) (dest o) STATE_SENT_REQUEST got).
Proof.
  intros H Hl Hst. pose proof H as (Hd & Hr & Hc & Hs & m & Hm & Hsz & Hh). destruct (load_four m got Hl Hh) as (ver & rep & rsv & atyp & -> & Hload).
  assert (Hfail : follows alloc o o (Some EVENT_ERROR) a_fail) by (eapply fails; [done|by rewrite Hst..]).
  assert (Hrest : forall n, n = 6 \/ n = 18 -> exists o' ev,
    (o ← start_receive 4 n o; continue (set_state STATE_RECEIVED_REPLY_HEADER o)) = Some (o', ev) /\ follows alloc o o' ev (a_rest n)).
  { intros n Hn. destruct (start_receive_ok 4 n 22 m o) as (o' & E & Hrec & Ht); try done; [lia..|]. rewrite E. cbn [mbind option_bind].
    assert (Hrec' : receiving 4 n 22 [] (set_state STATE_RECEIVED_REPLY_HEADER o')) by exact Hrec.
    eexists _, None. split; [done|]. split; [done|]. split_and!; try done; [by destruct Hrec as (_ & _ & _ & ? & _)|by eapply receiving_got|].
    destruct Ht as [_ Ht]. split; [cbn; by rewrite Ht|]. exists n, []. by split. }
  unfold received_reply_header. rewrite Hm. cbn [mbind option_bind]. rewrite Hload. cbn [mbind option_bind]. unfold reaction, report.
  destruct (ver =? SOCKS_VERSION); cbn [negb andb]; [|by eexists o, _]. destruct (rep =? SOCKS_REP_SUCCEEDED); cbn [negb]; [|by eexists o, _].
  destruct (atyp =? SOCKS_ATYP_IPV4); [apply Hrest; by left|]. destruct (atyp =? SOCKS_ATYP_IPV6); [apply Hrest; by right|]. by eexists o, _.
Qed.

Lemma reply_follows alloc got o :
  answered 4 22 got o -> state o = STATE_RECEIVED_REPLY_HEADER ->
  exists o' ev, received_reply o = Some (o', ev) /\ follows alloc o o' ev a_up.
Proof.
  intros (Hd & Hr & Hc & Hs & _) _. unfold received_reply, free_control_io, init_up_io. cbn [set_cbuffer res set_res set_io]. rewrite Hr.
  cbn. eexists _, _. split; [done|]. split; [done|]. by split_and!.
Qed.

(** The state a client that receives is in. *)
Definition receives (o : client) (dst total size : Z) (got : bytes) : Prop :=
  receiving dst total size got o /\
  match state o with
  | STATE_SENT_HELLO | STATE_SENT_PASSWORD => dst = 0 /\ total = 2 /\ size = 2
  | STATE_SENT_REQUEST => dst = 0 /\ total = 4 /\ size = 22
  | STATE_RECEIVED_REPLY_HEADER => dst = 4 /\ (total = 6 \/ total = 18) /\ size = 22
  | _ => False
  end.

Lemma ok_receives o : client_ok o -> c_recv o <> None -> exists dst total size got, receives o dst total size got.
Proof.
  intros [_ H] Hr. unfold receives. destruct (state o).
  - by destruct H as (_ & _ & ? & _).
  - by destruct H as (_ & ? & _).
  - destruct H as (got & H). by exists 0, 2, 2, got.
  - by destruct H as (u & p & _ & _ & ? & _).
  - destruct H as (got & H). by exists 0, 2, 2, got.
  - by destruct H as (_ & ? & _).
  - destruct H as (got & H). by exists 0, 4, 22, got.
  - destruct H as (n & got & Hn & H). by exists 4, n, 22, got.
  - by destruct H as (_ & _ & ? & _).
Qed.

Lemma receives_ok o dst total size got : receives o dst total size got -> dest_ok (dest o) -> client_ok o.
Proof.
  intros [H Hs] Hd. split; [done|]. destruct (state o); try done.
  - destruct Hs as (-> & -> & ->). by exists got.
  - destruct Hs as (-> & -> & ->). by exists got.
  - destruct Hs as (-> & -> & ->). by exists got.
  - destruct Hs as (-> & Hn & ->). by exists total, got.
Qed.

Lemma receives_bounds o dst total size got : receives o dst total size got -> 0 <= dst /\ dst + total <= size.
Proof. intros [_ H]. destruct (state o); lia. Qed.

Lemma receive_ok alloc o dst total size got data :
  allocates alloc -> dest_ok (dest o) -> receives o dst total size got -> 0 < zlen data <= total - zlen got ->
  exists o' ev, handle alloc (ev_received data) o = Some (o', ev) /\
    if zlen (got ++ data) <? total
    then ev = None /\ same_target o o' /\ state o' = state o /\ receives o' dst total size (got ++ data)
    else follows alloc o o' ev (reaction (auths o) (dest o) (state o) (got ++ data)).
Proof.
  intros Ha Hd Hrec Hlen. pose proof (receives_bounds _ _ _ _ _ Hrec) as Hb. destruct Hrec as [(Hr & Hs & H1 & H2 & H3 & H4 & Hc & m & Hm & Hl & Hh) Hst].
  pose proof (zlen_nonneg got). cbn [handle]. rewrite Hc, Hm. cbn [mbind option_bind]. destruct (store_some (dst + zlen got) data m) as (m' & Hm' & Hl'); [lia|lia|].
  rewrite Hm'. cbn [mbind option_bind]. unfold recv_handler_done. cbn [set_cbuffer set_io recv_total recv_len recv_dest]. rewrite H1, H2, H3.
  rewrite (proj2 (Z.leb_le 0 (zlen data))), (proj2 (Z.leb_le (zlen data) (total - zlen got))) by lia. cbn [ASSERT mbind option_bind]. cbv zeta.
  cbn [set_recv recv_len recv_total state]. rewrite zlen_app.
  assert (Hgot : holds_at dst (got ++ data) m').
  { apply holds_at_app. split; [eapply store_keeps; [exact Hm'|done|lia]|by eapply store_holds]. }
  destruct (Z.ltb_spec (zlen got + zlen data) total) as [Hlt|Hge].
  - rewrite do_receive_ok by (done || cbn; lia). eexists _, None.
    split; [done|]. split_and!; try done. split; [|done]. split_and!; try done; cbn; rewrite ?zlen_app; try done. exists m'. split_and!; [done|lia|done].
  - set (o1 := set_recv dst (zlen got + zlen data) total (set_cbuffer (Some m') (set_io None (c_send o) o))).
    assert (Hans : answered dst size (got ++ data) o1) by (split_and!; try done; exists m'; split_and!; [done|lia|done]).
    assert (Htot : zlen (got ++ data) = total) by (rewrite zlen_app; lia).
    change (state (set_cbuffer (Some m') (set_io None (c_send o) o))) with (state o).
    change (exists o' ev, match state o with
      | STATE_SENT_HELLO => received_hello alloc o1 | STATE_SENT_REQUEST => received_reply_header o1
      | STATE_SENT_PASSWORD => received_password_reply alloc o1 | STATE_RECEIVED_REPLY_HEADER => received_reply o1 | _ => None
      end = Some (o', ev) /\ follows alloc o1 o' ev (reaction (auths o1) (dest o1) (state o) (got ++ data))).
    destruct (state o) eqn:Est; try done.
    + destruct Hst as (-> & -> & ->). by apply hello_follows.
    + destruct Hst as (-> & -> & ->). by apply password_follows.
    + destruct Hst as (-> & -> & ->). by apply header_follows.
    + destruct Hst as (-> & _ & ->). by eapply reply_follows.
Qed.

(** What is received once a message was sent: size of the buffer, bytes, state. *)
Definition after_sent (s : socks_state) : option (Z * Z * socks_state) :=
  match s with
  | STATE_SENDING_HELLO => Some (2, 2, STATE_SENT_HELLO)
  | STATE_SENDING_PASSWORD => Some (2, 2, STATE_SENT_PASSWORD)
  | STATE_SENDING_REQUEST => Some (22, 4, STATE_SENT_REQUEST)
  | _ => None
  end.

Lemma sent_ok alloc msg o size total s :
  allocates alloc -> dest_ok (dest o) -> sending msg o -> after_sent (state o) = Some (size, total, s) ->
  exists o' ev, handle alloc ev_sent o = Some (o', ev) /\ same_target o o' /\
    match alloc size with
    | None => ev = Some EVENT_ERROR /\ freeable o'
    | Some _ => ev = None /\ state o' = s /\ receives o' 0 total size []
    end.
Proof.
  intros Ha Hd (Hr & Hc & Hs & m & Hm & _) Haf. cbn [handle]. unfold send_handler_done. cbn [set_io cbuffer state]. rewrite Hm.
  rewrite bool_decide_eq_true_2 by done. cbn [ASSERT mbind option_bind]. set (o1 := set_io (c_recv o) None o).
  assert (Hsz : 0 < total <= size) by (destruct (state o); simplify_eq; simpl in Haf; simplify_eq; lia).
  assert (Hexp : exists o' ev, expect size total s alloc o1 = Some (o', ev) /\ same_target o o' /\
    match alloc size with
    | None => ev = Some EVENT_ERROR /\ freeable o'
    | Some _ => ev = None /\ state o' = s /\ receives o' 0 total size []
    end).
  { unfold expect, reserve_buffer. destruct (alloc size) as [m'|] eqn:Em; cbn [mbind option_bind].
    - destruct (start_receive_ok 0 total size m' (set_cbuffer (Some m') o1)) as (o' & E & Hrec & Ht); try done.
      { lia. } { lia. } { by apply Ha. }
      rewrite E. eexists _, None. split; [done|]. split; [done|]. split_and!; try done. split; [done|].
      destruct (state o); cbn in Haf; simplify_eq; done.
    - eexists o1, _. split; [done|]. split; [done|]. split; [done|]. unfold freeable, o1. cbn. rewrite Hr. by destruct (state o). }
  destruct (state o); cbn in Haf; simplify_eq; exact Hexp.
Qed.

Lemma connected_ok alloc is_error con_ok o :
  allocates alloc -> client_ok o -> state o = STATE_CONNECTING ->
  exists o' ev, handle alloc (ev_connected is_error con_ok) o = Some (o', ev) /\ same_target o o' /\
    if negb is_error && con_ok && (0 <? zlen (auths o)) && (zlen (auths o) <=? 255) && is_Some_b (alloc (2 + zlen (auths o)))
    then ev = None /\ state o' = STATE_SENDING_HELLO /\ sending (hello_msg (auths o)) o'
    else ev = Some EVENT_ERROR /\ freeable o'.
Proof.
  intros Ha [Hd Hok] Hst. rewrite Hst in Hok. destruct Hok as (Hr & Hb & Hc & Hs). pose proof (zlen_nonneg (auths o)).
  assert (Hf : freeable o) by (unfold freeable; by rewrite Hst, Hr).
  cbn [handle]. unfold connector_handler, report. rewrite bool_decide_eq_true_2 by done. cbn [ASSERT mbind option_bind].
  destruct is_error; [by eexists o, _|]. destruct con_ok; [|by eexists o, _]. cbn [negb andb].
  set (o1 := set_res control (set_io None None o)).
  assert (E1 : connection_init o = Some (set_res (mk_res true true false false false) o)) by (unfold connection_init; by rewrite Hr).
  assert (E2 : init_control_io (set_res (mk_res true true false false false) o) = Some o1) by done.
  rewrite E1. cbn [mbind option_bind]. rewrite E2. cbn [mbind option_bind].
  assert (Hfail : exists o' ev, (o ← free_control_io o1; o ← connection_free o; Some (o, Some EVENT_ERROR)) = Some (o', ev) /\ same_target o o' /\
    ev = Some EVENT_ERROR /\ freeable o').
  { eexists _, _. split; [done|]. split_and!; try done. unfold freeable. cbn. by rewrite Hst. }
  change (auths o1) with (auths o). destruct (Z.eqb_spec (zlen (auths o)) 0) as [E|E]; cbn [orb].
  { rewrite E. exact Hfail. }
  destruct (Z.gtb_spec (zlen (auths o)) 255); cbn [orb].
  { destruct (Z.ltb_spec 0 (zlen (auths o))), (Z.leb_spec (zlen (auths o)) 255); try lia. exact Hfail. }
  rewrite (proj2 (Z.ltb_lt 0 (zlen (auths o)))), (proj2 (Z.leb_le (zlen (auths o)) 255)) by lia. cbn [andb].
  pose proof (message_ok alloc _ (hello_msg (auths o)) STATE_SENDING_HELLO o1 Ha (zlen_hello _) eq_refl eq_refl eq_refl) as Hmsg.
  destruct (alloc (2 + zlen (auths o))) as [m|]; cbn [is_Some_b].
  - destruct Hmsg as [-> (o' & E3 & Hsnd & Ht)]. cbn [mbind option_bind]. change (auths (set_cbuffer (Some m) o1)) with (auths o).
    rewrite E3. cbn [mbind option_bind]. eexists _, None. split; [done|]. by split_and!.
  - rewrite Hmsg. exact Hfail.
Qed.

(** What holds after a handler, by what it reported. *)
Definition after (o o' : client) (ev : option client_event) : Prop :=
  same_target o o' /\
  match ev with
  | None | Some EVENT_UP => client_ok o'
  | Some _ => freeable o'
  end.

Lemma follows_after alloc o o' ev a : follows alloc o o' ev a -> after o o' ev.
Proof.
  intros [Ht H]. split; [done|]. destruct a as [|msg s|n|].
  - by destruct H as [-> ?].
  - destruct (alloc (zlen msg)); [by destruct H as (-> & _ & _ & ?)|by destruct H as [-> ?]].
  - by destruct H as (-> & _ & _ & _ & ?).
  - by destruct H as (-> & _ & ?).
Qed.

Lemma handle_ok alloc e o :
  allocates alloc -> client_ok o -> allowed e o = true -> exists o' ev, handle alloc e o = Some (o', ev) /\ after o o' ev.
Proof.
  intros Ha Hok He. pose proof (ok_freeable o Hok) as Hf. pose proof Hok as [Hd Hst]. destruct e as [is_error con_ok|closed| |data]; cbn [allowed] in He.
  - apply bool_decide_eq_true in He. destruct (connected_ok alloc is_error con_ok o Ha Hok He) as (o' & ev & E & Ht & H). exists o', ev.
    split; [done|]. split; [done|]. destruct (_ && is_Some_b _); [|by destruct H as [-> ?]]. destruct H as (-> & Hs & Hsnd).
    destruct Ht as [Ht1 Ht2]. split; [by rewrite Ht2|]. by rewrite Hs, Ht1.
  - cbn [handle]. unfold connection_handler. rewrite He. cbn [ASSERT mbind option_bind].
    destruct (_ && closed); eexists o, _; (split; [done|]); by split.
  - apply bool_decide_eq_true in He.
    assert (exists msg size total s, sending msg o /\ after_sent (state o) = Some (size, total, s)) as (msg & size & total & s & Hsnd & Haf).
    { destruct (state o).
      - by destruct Hst as (_ & _ & _ & ?).
      - by eexists _, _, _, _.
      - by destruct Hst as (got & _ & ? & _).
      - destruct Hst as (u & p & _ & ?). by eexists _, _, _, _.
      - by destruct Hst as (got & _ & ? & _).
      - by eexists _, _, _, _.
      - by destruct Hst as (got & _ & ? & _).
      - by destruct Hst as (n & got & _ & _ & ? & _).
      - by destruct Hst as (_ & _ & _ & ?). }
    destruct (sent_ok alloc msg o size total s Ha Hd Hsnd Haf) as (o' & ev & E & Ht & H). exists o', ev. split; [done|]. split; [done|].
    destruct (alloc size); [|by destruct H as [-> ?]]. destruct H as (-> & _ & Hrec). eapply receives_ok; [done|]. destruct Ht as [_ Ht]. by rewrite Ht.
  - destruct (c_recv o) as [[off len]|] eqn:Ec; [|done]. apply andb_true_iff in He as [H1 H2]. apply Z.ltb_lt in H1. apply Z.leb_le in H2.
    destruct (ok_receives o Hok) as (dst & total & size & got & Hrec); [by rewrite Ec|].
    assert (len = total - zlen got) as -> by (destruct Hrec as [(_ & _ & _ & _ & _ & _ & Hc & _) _]; rewrite Ec in Hc; by injection Hc).
    destruct (receive_ok alloc o dst total size got data Ha Hd Hrec) as (o' & ev & E & H); [lia|]. exists o', ev. split; [done|].
    destruct (_ <? _); [|by eapply follows_after]. destruct H as (-> & Ht & _ & Hrec'). split; [done|]. eapply receives_ok; [done|].
    destruct Ht as [_ Ht]. by rewrite Ht.
Qed.

Lemma one_outstanding o :
  client_ok o -> state o <> STATE_CONNECTING -> state o <> STATE_UP -> bool_decide (c_recv o = None) = negb (bool_decide (c_send o = None)).
Proof.
  intros [_ H] H1 H2.
  assert (Hs : forall msg, sending msg o -> bool_decide (c_recv o = None) = negb (bool_decide (c_send o = None))) by (by intros msg (_ & -> & -> & _)).
  assert (Hr : forall dst total size got, receiving dst total size got o -> bool_decide (c_recv o = None) = negb (bool_decide (c_send o = None)))
    by (by intros dst total size got (_ & -> & _ & _ & _ & _ & -> & _)).
  destruct (state o); try done; try (by eapply Hs).
  - destruct H as (got & H). by eapply Hr.
  - destruct H as (u & p & _ & H). by eapply Hs.
  - destruct H as (got & H). by eapply Hr.
  - destruct H as (got & H). by eapply Hr.
  - destruct H as (n & got & _ & H). by eapply Hr.
Qed.

(** Runs in which no error was reported. *)
Inductive socks_run (alloc : Z -> option bytes) : client -> list event -> client -> Prop :=
| socks_end o : socks_run alloc o [] o
| socks_more o e es o1 ev o' :
    allowed e o = true -> handle alloc e o = Some (o1, ev) -> ev = None \/ ev = Some EVENT_UP ->
    socks_run alloc o1 es o' -> socks_run alloc o (e :: es) o'.

Lemma socks_run_ok alloc o es o' : allocates alloc -> socks_run alloc o es o' -> client_ok o -> client_ok o' /\ same_target o o'.
Proof.
  intros Ha. induction 1 as [o|o e es o1 ev o' He Hh Hev _ IH]; intros Hok; [done|].
  destruct (handle_ok alloc e o Ha Hok He) as (o2 & ev2 & E & Ht & H). rewrite Hh in E. injection E as <- <-.
  assert (Hok1 : client_ok o1) by (by destruct Hev as [-> | ->]). destruct (IH Hok1) as [? [? ?]]. destruct Ht. split; [done|]. split; congruence.
Qed.

Lemma client_init_ok l d : dest_ok d -> client_ok (mk_client l d STATE_CONNECTING None 0 0 0 only_connector None None).
Proof. intros Hd. by split. Qed.

(** ** Answers in pieces *)

(** The pieces of one answer, as they arrive; the result of the last one. *)
Fixpoint feed (alloc : Z -> option bytes) (ps : list bytes) (o : client) : handled :=
  match ps with
  | [] => continue o
  | p :: ps =>
      r ← handle alloc (ev_received p) o;
      match r.2 with
      | None => feed alloc ps r.1
      | Some _ => match ps with [] => Some r | _ => None end
      end
  end.

Lemma feed_ok alloc o dst total size got ps :
  allocates alloc -> dest_ok (dest o) -> receives o dst total size got -> ps <> [] -> Forall (fun p => p <> []) ps ->
  zlen (got ++ concat ps) = total ->
  exists o' ev, feed alloc ps o = Some (o', ev) /\ follows alloc o o' ev (reaction (auths o) (dest o) (state o) (got ++ concat ps)).
Proof.
  intros Ha. revert o got. induction ps as [|p ps IH]; intros o got Hd Hrec Hne Hps Hlen; [done|]. apply Forall_cons in Hps as [Hp Hps].
  cbn [concat] in *. assert (Hp0 : 0 < zlen p) by (destruct p; [done|]; rewrite zlen_cons; pose proof (zlen_nonneg p); lia).
  pose proof (zlen_nonneg (concat ps)) as Hps0. rewrite !zlen_app in Hlen. cbn [feed].
  destruct (receive_ok alloc o dst total size got p Ha Hd Hrec) as (o1 & ev & E & H); [lia|]. rewrite E. cbn [mbind option_bind fst snd].
  rewrite zlen_app in H. destruct ps as [|p2 ps].
  - cbn in *. rewrite app_nil_r. destruct (Z.ltb_spec (zlen got + zlen p) total); [change (zlen (@nil Z)) with 0 in *; lia|].
    destruct ev as [ev|]; by eexists o1, _.
  - assert (Hps1 : 0 < zlen (concat (p2 :: ps))).
    { apply Forall_cons in Hps as [Hp2 _]. cbn. rewrite zlen_app. pose proof (zlen_nonneg (concat ps)). destruct p2; [done|].
      rewrite zlen_cons. pose proof (zlen_nonneg p2). lia. }
    destruct (Z.ltb_spec (zlen got + zlen p) total); [|lia]. destruct H as (-> & [Ht1 Ht2] & Hs & Hrec').
    destruct (IH o1 (got ++ p)) as (o' & ev & E' & Hf); [by rewrite Ht2|done|done|done|rewrite !zlen_app; lia|].
    exists o', ev. split; [done|]. rewrite Ht1, Ht2, Hs, <- app_assoc in Hf. destruct Hf as [[F1 F2] Hf]. split; [by split; congruence|done].
Qed.

(** ** A dialogue *)

(** The message that is being sent is sent. *)
Definition flush (alloc : Z -> option bytes) (o : client) : option (client * list bytes) :=
  match c_send o with
  | None => Some (o, [])
  | Some (off, len) =>
      m ← cbuffer o;
      msg ← load off len m;
      r ← handle alloc ev_sent o;
      match r.2 with None => Some (r.1, [msg]) | Some _ => None end
  end.

(** The answers of the proxy, each in pieces: the messages it got and what is reported. *)
Fixpoint talk (alloc : Z -> option bytes) (answers : list (list bytes)) (o : client) : option (client * list bytes * option client_event) :=
  '(o, sent) ← flush alloc o;
  match answers with
  | [] => Some (o, sent, None)
  | a :: answers =>
      r ← feed alloc a o;
      match r.2 with
      | None => '(o, more, ev) ← talk alloc answers r.1; Some (o, sent ++ more, ev)
      | Some ev => Some (r.1, sent, Some ev)
      end
  end.

Lemma talk_cons alloc a answers o :
  talk alloc (a :: answers) o =
    ('(o, sent) ← flush alloc o;
     r ← feed alloc a o;
     match r.2 with
     | None => '(o, more, ev) ← talk alloc answers r.1; Some (o, sent ++ more, ev)
     | Some ev => Some (r.1, sent, Some ev)
     end).
Proof. done. Qed.

(** An answer cut into pieces. *)
Definition cut_of (answer : bytes) (ps : list bytes) : Prop := concat ps = answer /\ ps <> [] /\ Forall (fun p => p <> []) ps.

Section dialogue.
Context (alloc : Z -> option bytes) (Ha : allocates alloc) (Hall : forall n, 0 <= n -> is_Some (alloc n)).

Lemma flush_ok msg o size total s :
  dest_ok (dest o) -> sending msg o -> after_sent (state o) = Some (size, total, s) ->
  exists o', flush alloc o = Some (o', [msg]) /\ same_target o o' /\ state o' = s /\ receives o' 0 total size [].
Proof.
  intros Hd Hs Haf. destruct (sent_ok alloc msg o size total s Ha Hd Hs Haf) as (o' & ev & E & Ht & H).
  assert (Hsz : 0 <= size) by (destruct (state o); cbn in Haf; simplify_eq; lia). destruct (Hall size Hsz) as [m0 Hm0]. rewrite Hm0 in H. destruct H as (-> & Hst & Hrec). destruct Hs as (_ & _ & Hsnd & m & Hm & Hh).
  unfold flush. rewrite Hsnd, Hm. cbn [mbind option_bind]. unfold holds_at in Hh. rewrite Hh. cbn [mbind option_bind]. rewrite E. by exists o'.
Qed.

Lemma feed_all o dst total size answer ps :
  dest_ok (dest o) -> receives o dst total size [] -> cut_of answer ps -> zlen answer = total ->
  exists o' ev, feed alloc ps o = Some (o', ev) /\ follows alloc o o' ev (reaction (auths o) (dest o) (state o) answer).
Proof. intros Hd Hr (<- & Hne & Hps) Hl. by apply (feed_ok alloc o dst total size []). Qed.

(** From the request on. *)
Lemma talk_request o rsv atyp rest hd tl :
  dest_ok (dest o) -> sending (request_msg (dest o)) o -> state o = STATE_SENDING_REQUEST ->
  atyp = SOCKS_ATYP_IPV4 /\ zlen rest = 6 \/ atyp = SOCKS_ATYP_IPV6 /\ zlen rest = 18 ->
  cut_of [SOCKS_VERSION; SOCKS_REP_SUCCEEDED; rsv; atyp] hd -> cut_of rest tl ->
  exists o', talk alloc [hd; tl] o = Some (o', [request_msg (dest o)], Some EVENT_UP) /\ state o' = STATE_UP /\ client_ok o'.
Proof.
  intros Hd Hs Hst Hat Hhd Htl. destruct (flush_ok _ o 22 4 STATE_SENT_REQUEST Hd Hs) as (o1 & E1 & [_ Hd1] & Hs1 & Hr1); [by rewrite Hst|].
  cbn [talk]. rewrite E1. cbn [mbind option_bind].
  destruct (feed_all o1 0 4 22 _ hd ltac:(by rewrite Hd1) Hr1 Hhd eq_refl) as (o2 & ev2 & E2 & [_ Hd2] & H2). rewrite E2. cbn [mbind option_bind fst snd].
  rewrite Hs1 in H2. cbn [reaction] in H2.
  assert (exists n, zlen rest = n /\ ev2 = None /\ state o2 = STATE_RECEIVED_REPLY_HEADER /\ recv_total o2 = n /\ received_so_far o2 = Some [] /\ client_ok o2)
    as (n & Hn & -> & Hs2 & Ht2 & Hg2 & Hok2).
  { destruct Hat as [[-> Hl]|[-> Hl]]; cbn in H2; eexists; (split; [exact Hl|exact H2]). }
  assert (Hc2 : c_recv o2 <> None /\ c_send o2 = None).
  { destruct Hok2 as [_ Hok2]. rewrite Hs2 in Hok2. destruct Hok2 as (k & got & _ & _ & Hcs & _ & _ & _ & _ & Hcr & _). by rewrite Hcr. }
  destruct (ok_receives o2 Hok2 (proj1 Hc2)) as (dst & total & size & got & Hr2).
  assert (total = n /\ got = []) as [-> ->].
  { destruct Hr2 as [Hr2 _]. split; [by destruct Hr2 as (_ & _ & _ & <- & _)|]. rewrite (receiving_got _ _ _ _ _ Hr2) in Hg2. by injection Hg2. }
  assert (Hfl : flush alloc o2 = Some (o2, [])) by (unfold flush; by rewrite (proj2 Hc2)).
  rewrite Hfl. cbn [mbind option_bind].
  destruct (feed_all o2 dst n size rest tl ltac:(by rewrite Hd2, Hd1) Hr2 Htl Hn) as (o3 & ev3 & E3 & _ & H3). rewrite E3. cbn [mbind option_bind fst snd].
  rewrite Hs2 in H3. cbn [reaction] in H3. assert (reaction (auths o2) (dest o2) STATE_RECEIVED_REPLY_HEADER rest = a_up) as Hup by done.
  destruct H3 as (-> & Hs3 & Hok3). by exists o3.
Qed.

End dialogue.

(** ** Theorems *)

(** C23: In every state a client can get into, a piece of an answer is appended to what was
    received of it, in the buffer; and when the answer is complete the client does what the
    protocol says: it fails, sends the next message with the credentials of the method the
    proxy chose, waits for the address behind the header, or reports that it is up. *)
Theorem bsocks_reacts alloc l d o0 es o data :
  dest_ok d -> allocates alloc -> BSocksClient_Init l d true = inl o0 -> socks_run alloc o0 es o -> allowed (ev_received data) o = true ->
  exists got o' ev, received_so_far o = Some got /\ handle alloc (ev_received data) o = Some (o', ev) /\
    if zlen (got ++ data) <? recv_total o
    then ev = None /\ state o' = state o /\ received_so_far o' = Some (got ++ data)
    else follows alloc o o' ev (reaction l d (state o) (got ++ data)).
Proof.
  intros Hd Ha [= <-] Hrun He. destruct (socks_run_ok alloc _ es o Ha Hrun (client_init_ok l d Hd)) as [Hok [Hl Hdo]]. cbn in Hl, Hdo. cbn [allowed] in He.
  destruct (c_recv o) as [[off len]|] eqn:Ec; [|done]. apply andb_true_iff in He as [H1%Z.ltb_lt H2%Z.leb_le].
  destruct (ok_receives o Hok) as (dst & total & size & got & Hrec); [by rewrite Ec|]. pose proof Hrec as [Hg _].
  pose proof (receiving_got _ _ _ _ _ Hg) as Hgot. destruct Hg as (_ & _ & _ & Ht & _ & _ & Hc & _). rewrite Ec in Hc. injection Hc as -> ->.
  destruct (receive_ok alloc o dst total size got data Ha ltac:(by rewrite Hdo) Hrec) as (o' & ev & E & H); [lia|].
  exists got, o', ev. split; [done|]. split; [done|]. rewrite Ht. rewrite Hl, Hdo in H. destruct (_ <? _); [|done].
  destruct H as (-> & _ & Hs & [Hr' _]). split_and!; [done|done|by eapply receiving_got].
Qed.

(** Whatever the proxy, the network and the allocator do, no handler of a client fails an
    assertion or leaves its buffer, and at any time, also after an error, freeing the
    client releases everything it initialised, each thing once. While it talks to the proxy
    it has exactly one operation outstanding. *)
Theorem bsocks_frees alloc l d o0 es o e :
  dest_ok d -> allocates alloc -> BSocksClient_Init l d true = inl o0 -> socks_run alloc o0 es o -> allowed e o = true ->
  (state o <> STATE_CONNECTING -> state o <> STATE_UP -> bool_decide (c_recv o = None) = negb (bool_decide (c_send o = None))) /\
  exists o' ev freed, handle alloc e o = Some (o', ev) /\ BSocksClient_Free o' = Some freed /\
    res freed = mk_res false false false false false /\ cbuffer freed = None.
Proof.
  intros Hd Ha [= <-] Hrun He. destruct (socks_run_ok alloc _ es o Ha Hrun (client_init_ok l d Hd)) as [Hok _]. split.
  - intros H1 H2. by apply one_outstanding.
  - destruct (handle_ok alloc e o Ha Hok He) as (o' & ev & E & _ & H). exists o', ev.
    assert (Hf : freeable o') by (destruct ev as [[]|]; [done|by apply ok_freeable..|done|by apply ok_freeable]).
    destruct (free_ok o' Hf) as (f & ? & ? & ?). by exists f.
Qed.

(** A proxy that accepts a method the client offered, the credentials and the request
    brings the client up: it is sent the greeting, the password if it chose that method, and
    the request for the destination, however its answers are cut into pieces. *)
Theorem bsocks_comes_up alloc l d o0 i a rsv atyp rest h pw hd tl :
  dest_ok d -> allocates alloc -> (forall n, 0 <= n -> is_Some (alloc n)) -> BSocksClient_Init l d true = inl o0 ->
  0 < zlen l <= 255 -> list_find (fun x => auth_type x = auth_type a) l = Some (i, a) ->
  match a with auth_none => True | auth_password u p => 0 < zlen u <= 255 /\ 0 < zlen p <= 255 end ->
  atyp = SOCKS_ATYP_IPV4 /\ zlen rest = 6 \/ atyp = SOCKS_ATYP_IPV6 /\ zlen rest = 18 ->
  cut_of [SOCKS_VERSION; auth_type a] h -> cut_of [1; 0] pw ->
  cut_of [SOCKS_VERSION; SOCKS_REP_SUCCEEDED; rsv; atyp] hd -> cut_of rest tl ->
  exists o1 o2, handle alloc (ev_connected false true) o0 = Some (o1, None) /\ state o2 = STATE_UP /\
    talk alloc match a with auth_none => [h; hd; tl] | auth_password _ _ => [h; pw; hd; tl] end o1 =
      Some (o2, match a with auth_none => [hello_msg l; request_msg d] | auth_password u p => [hello_msg l; password_msg u p; request_msg d] end,
            Some EVENT_UP).
Proof.
  intros Hd Ha Hall [= <-] Hl Hf Hcred Hat Hh Hpw Hhd Htl. set (o0 := mk_client _ _ _ _ _ _ _ _ _ _).
  destruct (connected_ok alloc false true o0 Ha (client_init_ok l d Hd) eq_refl) as (o1 & ev & E1 & [Hl1 Hd1] & H1). cbn [auths dest o0] in Hl1, Hd1, H1.
  rewrite (proj2 (Z.ltb_lt 0 (zlen l))), (proj2 (Z.leb_le (zlen l) 255)) in H1 by lia.
  destruct (Hall (2 + zlen l) ltac:(lia)) as [m0 Hm0]. rewrite Hm0 in H1. destruct H1 as (-> & Hs1 & Hsnd1).
  destruct (flush_ok alloc Ha Hall _ o1 2 2 STATE_SENT_HELLO ltac:(by rewrite Hd1) Hsnd1) as (o2 & E2 & [Hl2 Hd2] & Hs2 & Hr2); [by rewrite Hs1|].
  destruct (feed_all alloc Ha o2 0 2 2 _ h ltac:(by rewrite Hd2, Hd1) Hr2 Hh eq_refl) as (o3 & ev & E3 & [Hl3 Hd3] & H3).
  rewrite Hs2, Hl2, Hl1, Hd2, Hd1 in H3. cbn [reaction] in H3. rewrite Z.eqb_refl, Hf in H3. exists o1.
  assert (Hd3' : dest o3 = d) by congruence. destruct a as [|u p].
  - destruct (Hall (zlen (request_msg d)) (zlen_nonneg _)) as [m3 Hm3]. rewrite Hm3 in H3. destruct H3 as (-> & Hs3 & Hsnd3 & _). rewrite <- Hd3' in Hsnd3.
    destruct (talk_request alloc Ha Hall o3 rsv atyp rest hd tl ltac:(by rewrite Hd3') Hsnd3 Hs3 Hat Hhd Htl) as (o4 & E4 & Hs4 & _).
    exists o4. split; [done|]. split; [done|]. rewrite talk_cons, E2. cbn [mbind option_bind]. rewrite E3. cbn [mbind option_bind fst snd].
    rewrite E4. cbn [mbind option_bind app]. by rewrite Hd3'.
  - destruct Hcred as [Hu Hp]. rewrite (valid_length_true u Hu), (valid_length_true p Hp) in H3. cbn [andb] in H3.
    destruct (Hall (zlen (password_msg u p)) (zlen_nonneg _)) as [m3 Hm3]. rewrite Hm3 in H3. destruct H3 as (-> & Hs3 & Hsnd3 & _).
    destruct (flush_ok alloc Ha Hall _ o3 2 2 STATE_SENT_PASSWORD ltac:(by rewrite Hd3') Hsnd3) as (o4 & E4 & [Hl4 Hd4] & Hs4 & Hr4); [by rewrite Hs3|].
    destruct (feed_all alloc Ha o4 0 2 2 _ pw ltac:(by rewrite Hd4, Hd3') Hr4 Hpw eq_refl) as (o5 & ev & E5 & [Hl5 Hd5] & H5).
    assert (Hd5' : dest o5 = d) by congruence. rewrite Hs4, Hd4, Hd3' in H5. cbn [reaction] in H5. cbn [Z.eqb andb Pos.eqb] in H5.
    destruct (Hall (zlen (request_msg d)) (zlen_nonneg _)) as [m5 Hm5]. rewrite Hm5 in H5. destruct H5 as (-> & Hs5 & Hsnd5 & _). rewrite <- Hd5' in Hsnd5.
    destruct (talk_request alloc Ha Hall o5 rsv atyp rest hd tl ltac:(by rewrite Hd5') Hsnd5 Hs5 Hat Hhd Htl) as (o6 & E6 & Hs6 & _).
    exists o6. split; [done|]. split; [done|]. rewrite talk_cons, E2. cbn [mbind option_bind]. rewrite E3. cbn [mbind option_bind fst snd].
    rewrite talk_cons, E4. cbn [mbind option_bind]. rewrite E5. cbn [mbind option_bind fst snd]. rewrite E6. cbn [mbind option_bind app].
    by rewrite Hd5'.
Qed.

(** ** A client with a password *)

Definition some_alloc (n : Z) : option bytes := Some (replicate (Z.to_nat n) 170).
Definition some_auths : list auth_info := [auth_none; auth_password (lit "me") (lit "secret")].
Definition some_dest : dest_addr := ipv4 [93; 184; 216; 34] [1; 187].
Definition some_client : client := mk_client some_auths some_dest STATE_CONNECTING None 0 0 0 only_connector None None.

(** Blocks of negative sizes are never asked for. *)
Definition sane (n : Z) : option bytes := if 0 <=? n then some_alloc n else None.
Lemma sane_allocates : allocates sane.
Proof.
  intros n m. unfold sane, some_alloc. destruct (Z.leb_spec 0 n); [|done]. intros [= <-]. unfold zlen. rewrite length_replicate. lia.
Qed.

Fixpoint exec (es : list event) (o : client) : option client :=
  match es with
  | [] => Some o
  | e :: es =>
      if allowed e o then r ← handle sane e o; match r.2 with None | Some EVENT_UP => exec es r.1 | _ => None end else None
  end.

Lemma client_exec_run es o o' : exec es o = Some o' -> socks_run sane o es o'.
Proof.
  revert o. induction es as [|e es IH]; intros o; cbn; [intros [= <-]; constructor|]. destruct (allowed e o) eqn:He; [|done].
  destruct (handle sane e o) as [[o1 ev]|] eqn:Hh; [|done]. cbn. intros H. assert (Hev : ev = None \/ ev = Some EVENT_UP).
  { destruct ev as [[]|]; auto; done. }
  econstructor; [done|done|done|]. apply IH. by destruct Hev as [-> | ->].
Qed.

(** The proxy chose the password, and half of its answer to it has come. *)
Definition some_events : list event := [ev_connected false true; ev_sent; ev_received [5]; ev_received [2]; ev_sent; ev_received [1]].
Definition some_half : client := default some_client (exec some_events some_client).

Lemma client_some_run : socks_run sane some_client some_events some_half.
Proof. apply client_exec_run. vm_compute. reflexivity. Qed.

Lemma bsocks_reacts_witness :
  exists o', handle sane (ev_received [0]) some_half = Some (o', None) /\ sending (request_msg some_dest) o'.
Proof.
  destruct (bsocks_reacts sane some_auths some_dest some_client some_events some_half [0]) as (got & o' & ev & H1 & H2 & H3);
    [by split|exact sane_allocates|reflexivity|exact client_some_run|vm_compute; reflexivity|].
  vm_compute in H1. injection H1 as <-.
  assert (F : follows sane some_half o' ev (a_send (request_msg some_dest) STATE_SENDING_REQUEST)) by exact H3.
  destruct F as [_ (-> & _ & Hs & _)]. exists o'. split; [exact H2|exact Hs].
Defined.

Lemma bsocks_frees_witness :
  exists o' ev freed, handle sane (ev_connection true) some_half = Some (o', ev) /\ BSocksClient_Free o' = Some freed /\ cbuffer freed = None.
Proof.
  destruct (bsocks_frees sane some_auths some_dest some_client some_events some_half (ev_connection true)) as [_ (o' & ev & f & H1 & H2 & _ & H3)];
    [by split|exact sane_allocates|reflexivity|exact client_some_run|vm_compute; reflexivity|]. exists o', ev, f. exact (conj H1 (conj H2 H3)).
Defined.

Lemma sane_some n : 0 <= n -> is_Some (sane n).
Proof. intros Hn. unfold sane. rewrite (proj2 (Z.leb_le 0 n)) by done. by eexists. Qed.

Lemma bsocks_comes_up_witness :
  exists o1 o2, handle sane (ev_connected false true) some_client = Some (o1, None) /\ state o2 = STATE_UP /\
    talk sane [[[5]; [2]]; [[1; 0]]; [[5; 0]; [0; 1]]; [[0; 0; 0; 0]; [0; 0]]] o1 =
      Some (o2, [[5; 2; 0; 2]; [1; 2; 109; 101; 6; 115; 101; 99; 114; 101; 116]; [5; 1; 0; 1; 93; 184; 216; 34; 1; 187]], Some EVENT_UP).
Proof.
  destruct (bsocks_comes_up sane some_auths some_dest some_client 1 (auth_password (lit "me") (lit "secret")) 0 1 [0; 0; 0; 0; 0; 0]
    [[5]; [2]] [[1; 0]] [[5; 0]; [0; 1]] [[0; 0; 0; 0]; [0; 0]]) as (o1 & o2 & H1 & H2 & H3).
  - by split.
  - exact sane_allocates.
  - exact sane_some.
  - reflexivity.
  - split; vm_compute; [reflexivity|discriminate].
  - reflexivity.
  - split; split; vm_compute; (reflexivity || discriminate).
  - left. split; reflexivity.
  - split; [reflexivity|split; [discriminate|repeat constructor; discriminate]].
  - split; [reflexivity|split; [discriminate|repeat constructor; discriminate]].
  - split; [reflexivity|split; [discriminate|repeat constructor; discriminate]].
  - split; [reflexivity|split; [discriminate|repeat constructor; discriminate]].
  - exists o1, o2. split; [exact H1|]. split; [exact H2|]. exact H3.
Defined.

End BSocks.
