(* ===== verification/Tun2socks.v ===== *)
(** * The TCP side of tun2socks: badvpn's tun2socks.c

    For each TCP connection that an application opens through the tunnel, lwIP accepts a
    connection in the application's place and calls [listener_accept_func], which starts a
    SOCKS client ([BSocks]) for the same destination. From then on the callbacks below move
    bytes between the two: what lwIP receives is kept in [buf] until the SOCKS connection
    takes it, what the SOCKS connection delivers is kept in [socks_recv_buf] until lwIP has
    room for it. Either side may close or fail at any time, also while a callback of the other
    runs (the jobs of the event loop that [SYNC_COMMIT] runs), and each end has to be
    released once.

    Memory is explicit: a client is in the heap until [client_dealloc], and an access after
    that is [None], as is a failed assertion, a use of a connection lwIP has freed, and a
    write through the [dead_aborted] pointer after the callback it points into returned.
    lwIP is an interface: what its functions return is an argument, and what it may call when
    is [allowed]. *)

From S2P Require Import Prelude Memory BSocks.
Import Memory.
Open Scope Z_scope.

Module Tun2socks.

(** ** Data *)

Inductive err_t := ERR_OK | ERR_MEM | ERR_ABRT | ERR_OTHER (code : Z).

#[export] Instance err_t_eq_dec : EqDecision err_t.
Proof. solve_decision. Defined.

(** lwIP's default window, four segments of 1460 bytes. *)
Definition TCP_WND : Z := 4 * 1460.
Definition CLIENT_SOCKS_RECV_BUF_SIZE : Z := 8192.

(** The client structure. [dead_aborted]: the pointer is set, to the variable of the callback
    that runs. [send_req], [recv_req]: what is outstanding at the two interfaces of the SOCKS
    connection, once it is up. *)
Record tcp_client := mk_tcp_client {
  aborted : bool;
  dead_aborted : bool;
  client_closed : bool;
  buf : bytes;
  buf_used : Z;
  socks_client : BSocks.client;
  socks_up : bool;
  socks_closed : bool;
  send_req : option Z;
  recv_req : bool;
  socks_recv_buf : bytes;
  socks_recv_buf_used : Z;
  socks_recv_buf_sent : Z;
  socks_recv_waiting : bool;
  socks_recv_tcp_pending : Z }.

Definition set_aborted (x : bool) (r : tcp_client) : tcp_client :=
  mk_tcp_client x (dead_aborted r) (client_closed r) (buf r) (buf_used r) (socks_client r) (socks_up r) (socks_closed r) (send_req r) (recv_req r) (socks_recv_buf r) (socks_recv_buf_used r) (socks_recv_buf_sent r) (socks_recv_waiting r) (socks_recv_tcp_pending r).
Definition set_dead_aborted (x : bool) (r : tcp_client) : tcp_client :=
  mk_tcp_client (aborted r) x (client_closed r) (buf r) (buf_used r) (socks_client r) (socks_up r) (socks_closed r) (send_req r) (recv_req r) (socks_recv_buf r) (socks_recv_buf_used r) (socks_recv_buf_sent r) (socks_recv_waiting r) (socks_recv_tcp_pending r).
Definition set_client_closed (x : bool) (r : tcp_client) : tcp_client :=
  mk_tcp_client (aborted r) (dead_aborted r) x (buf r) (buf_used r) (socks_client r) (socks_up r) (socks_closed r) (send_req r) (recv_req r) (socks_recv_buf r) (socks_recv_buf_used r) (socks_recv_buf_sent r) (socks_recv_waiting r) (socks_recv_tcp_pending r).
Definition set_buf (x : bytes) (r : tcp_client) : tcp_client :=
  mk_tcp_client (aborted r) (dead_aborted r) (client_closed r) x (buf_used r) (socks_client r) (socks_up r) (socks_closed r) (send_req r) (recv_req r) (socks_recv_buf r) (socks_recv_buf_used r) (socks_recv_buf_sent r) (socks_recv_waiting r) (socks_recv_tcp_pending r).
Definition set_buf_used (x : Z) (r : tcp_client) : tcp_client :=
  mk_tcp_client (aborted r) (dead_aborted r) (client_closed r) (buf r) x (socks_client r) (socks_up r) (socks_closed r) (send_req r) (recv_req r) (socks_recv_buf r) (socks_recv_buf_used r) (socks_recv_buf_sent r) (socks_recv_waiting r) (socks_recv_tcp_pending r).
Definition set_socks_client (x : BSocks.client) (r : tcp_client) : tcp_client :=
  mk_tcp_client (aborted r) (dead_aborted r) (client_closed r) (buf r) (buf_used r) x (socks_up r) (socks_closed r) (send_req r) (recv_req r) (socks_recv_buf r) (socks_recv_buf_used r) (socks_recv_buf_sent r) (socks_recv_waiting r) (socks_recv_tcp_pending r).
Definition set_socks_up (x : bool) (r : tcp_client) : tcp_client :=
  mk_tcp_client (aborted r) (dead_aborted r) (client_closed r) (buf r) (buf_used r) (socks_client r) x (socks_closed r) (send_req r) (recv_req r) (socks_recv_buf r) (socks_recv_buf_used r) (socks_recv_buf_sent r) (socks_recv_waiting r) (socks_recv_tcp_pending r).
Definition set_socks_closed (x : bool) (r : tcp_client) : tcp_client :=
  mk_tcp_client (aborted r) (dead_aborted r) (client_closed r) (buf r) (buf_used r) (socks_client r) (socks_up r) x (send_req r) (recv_req r) (socks_recv_buf r) (socks_recv_buf_used r) (socks_recv_buf_sent r) (socks_recv_waiting r) (socks_recv_tcp_pending r).
Definition set_send_req (x : option Z) (r : tcp_client) : tcp_client :=
  mk_tcp_client (aborted r) (dead_aborted r) (client_closed r) (buf r) (buf_used r) (socks_client r) (socks_up r) (socks_closed r) x (recv_req r) (socks_recv_buf r) (socks_recv_buf_used r) (socks_recv_buf_sent r) (socks_recv_waiting r) (socks_recv_tcp_pending r).
Definition set_recv_req (x : bool) (r : tcp_client) : tcp_client :=
  mk_tcp_client (aborted r) (dead_aborted r) (client_closed r) (buf r) (buf_used r) (socks_client r) (socks_up r) (socks_closed r) (send_req r) x (socks_recv_buf r) (socks_recv_buf_used r) (socks_recv_buf_sent r) (socks_recv_waiting r) (socks_recv_tcp_pending r).
Definition set_socks_recv_buf (x : bytes) (r : tcp_client) : tcp_client :=
  mk_tcp_client (aborted r) (dead_aborted r) (client_closed r) (buf r) (buf_used r) (socks_client r) (socks_up r) (socks_closed r) (send_req r) (recv_req r) x (socks_recv_buf_used r) (socks_recv_buf_sent r) (socks_recv_waiting r) (socks_recv_tcp_pending r).
Definition set_socks_recv_buf_used (x : Z) (r : tcp_client) : tcp_client :=
  mk_tcp_client (aborted r) (dead_aborted r) (client_closed r) (buf r) (buf_used r) (socks_client r) (socks_up r) (socks_closed r) (send_req r) (recv_req r) (socks_recv_buf r) x (socks_recv_buf_sent r) (socks_recv_waiting r) (socks_recv_tcp_pending r).
Definition set_socks_recv_buf_sent (x : Z) (r : tcp_client) : tcp_client :=
  mk_tcp_client (aborted r) (dead_aborted r) (client_closed r) (buf r) (buf_used r) (socks_client r) (socks_up r) (socks_closed r) (send_req r) (recv_req r) (socks_recv_buf r) (socks_recv_buf_used r) x (socks_recv_waiting r) (socks_recv_tcp_pending r).
Definition set_socks_recv_waiting (x : bool) (r : tcp_client) : tcp_client :=
  mk_tcp_client (aborted r) (dead_aborted r) (client_closed r) (buf r) (buf_used r) (socks_client r) (socks_up r) (socks_closed r) (send_req r) (recv_req r) (socks_recv_buf r) (socks_recv_buf_used r) (socks_recv_buf_sent r) x (socks_recv_tcp_pending r).
Definition set_socks_recv_tcp_pending (x : Z) (r : tcp_client) : tcp_client :=
  mk_tcp_client (aborted r) (dead_aborted r) (client_closed r) (buf r) (buf_used r) (socks_client r) (socks_up r) (socks_closed r) (send_req r) (recv_req r) (socks_recv_buf r) (socks_recv_buf_used r) (socks_recv_buf_sent r) (socks_recv_waiting r) x.

(** What is outside the client: lwIP's connection block with the callbacks registered in it,
    its receive window and the bytes queued and not acknowledged; and the history of the
    connection, which the theorems speak about: the bytes lwIP handed over ([h_in]), those
    the SOCKS connection took ([h_up]) and delivered ([h_down]), those queued at lwIP
    ([h_out]), and whether the application's or the SOCKS side has ended on its own. *)
Record link := mk_link {
  pcb_open : bool;
  pcb_aborted : bool;
  cb_err : bool;
  cb_recv : bool;
  cb_sent : bool;
  rcv_wnd : Z;
  unacked : Z;
  h_in : bytes;
  h_up : bytes;
  h_down : bytes;
  h_out : bytes;
  client_ended : bool;
  socks_ended : bool }.

Definition set_pcb_open (x : bool) (r : link) : link :=
  mk_link x (pcb_aborted r) (cb_err r) (cb_recv r) (cb_sent r) (rcv_wnd r) (unacked r) (h_in r) (h_up r) (h_down r) (h_out r) (client_ended r) (socks_ended r).
Definition set_pcb_aborted (x : bool) (r : link) : link :=
  mk_link (pcb_open r) x (cb_err r) (cb_recv r) (cb_sent r) (rcv_wnd r) (unacked r) (h_in r) (h_up r) (h_down r) (h_out r) (client_ended r) (socks_ended r).
Definition set_cb_err (x : bool) (r : link) : link :=
  mk_link (pcb_open r) (pcb_aborted r) x (cb_recv r) (cb_sent r) (rcv_wnd r) (unacked r) (h_in r) (h_up r) (h_down r) (h_out r) (client_ended r) (socks_ended r).
Definition set_cb_recv (x : bool) (r : link) : link :=
  mk_link (pcb_open r) (pcb_aborted r) (cb_err r) x (cb_sent r) (rcv_wnd r) (unacked r) (h_in r) (h_up r) (h_down r) (h_out r) (client_ended r) (socks_ended r).
Definition set_cb_sent (x : bool) (r : link) : link :=
  mk_link (pcb_open r) (pcb_aborted r) (cb_err r) (cb_recv r) x (rcv_wnd r) (unacked r) (h_in r) (h_up r) (h_down r) (h_out r) (client_ended r) (socks_ended r).
Definition set_rcv_wnd (x : Z) (r : link) : link :=
  mk_link (pcb_open r) (pcb_aborted r) (cb_err r) (cb_recv r) (cb_sent r) x (unacked r) (h_in r) (h_up r) (h_down r) (h_out r) (client_ended r) (socks_ended r).
Definition set_unacked (x : Z) (r : link) : link :=
  mk_link (pcb_open r) (pcb_aborted r) (cb_err r) (cb_recv r) (cb_sent r) (rcv_wnd r) x (h_in r) (h_up r) (h_down r) (h_out r) (client_ended r) (socks_ended r).
Definition set_h_in (x : bytes) (r : link) : link :=
  mk_link (pcb_open r) (pcb_aborted r) (cb_err r) (cb_recv r) (cb_sent r) (rcv_wnd r) (unacked r) x (h_up r) (h_down r) (h_out r) (client_ended r) (socks_ended r).
Definition set_h_up (x : bytes) (r : link) : link :=
  mk_link (pcb_open r) (pcb_aborted r) (cb_err r) (cb_recv r) (cb_sent r) (rcv_wnd r) (unacked r) (h_in r) x (h_down r) (h_out r) (client_ended r) (socks_ended r).
Definition set_h_down (x : bytes) (r : link) : link :=
  mk_link (pcb_open r) (pcb_aborted r) (cb_err r) (cb_recv r) (cb_sent r) (rcv_wnd r) (unacked r) (h_in r) (h_up r) x (h_out r) (client_ended r) (socks_ended r).
Definition set_h_out (x : bytes) (r : link) : link :=
  mk_link (pcb_open r) (pcb_aborted r) (cb_err r) (cb_recv r) (cb_sent r) (rcv_wnd r) (unacked r) (h_in r) (h_up r) (h_down r) x (client_ended r) (socks_ended r).
Definition set_client_ended (x : bool) (r : link) : link :=
  mk_link (pcb_open r) (pcb_aborted r) (cb_err r) (cb_recv r) (cb_sent r) (rcv_wnd r) (unacked r) (h_in r) (h_up r) (h_down r) (h_out r) x (socks_ended r).
Definition set_socks_ended (x : bool) (r : link) : link :=
  mk_link (pcb_open r) (pcb_aborted r) (cb_err r) (cb_recv r) (cb_sent r) (rcv_wnd r) (unacked r) (h_in r) (h_up r) (h_down r) (h_out r) (client_ended r) x.

(** What a callback of one client can reach: the client itself while it is allocated, what is
    outside of it, the variable that [DEAD_ENTER] put on the stack when the running callback
    belongs to this client, and the list and number of the clients. *)
Record view := mk_view {
  v_self : option tcp_client;
  v_link : link;
  v_dead : option Z;
  v_clients : list nat;
  v_num : Z }.

Definition set_v_self (x : option tcp_client) (r : view) : view :=
  mk_view x (v_link r) (v_dead r) (v_clients r) (v_num r).
Definition set_v_link (x : link) (r : view) : view :=
  mk_view (v_self r) x (v_dead r) (v_clients r) (v_num r).
Definition set_v_dead (x : option Z) (r : view) : view :=
  mk_view (v_self r) (v_link r) x (v_clients r) (v_num r).
Definition set_v_clients (x : list nat) (r : view) : view :=
  mk_view (v_self r) (v_link r) (v_dead r) x (v_num r).
Definition set_v_num (x : Z) (r : view) : view :=
  mk_view (v_self r) (v_link r) (v_dead r) (v_clients r) x.

Definition M (A : Type) : Type := view -> option (A * view).

#[export] Instance M_ret : MRet M := fun A x v => Some (x, v).
#[export] Instance M_bind : MBind M := fun A B k m v => match m v with Some (x, v) => k x v | None => None end.

Definition assert (b : bool) : M unit := fun v => if b then Some (tt, v) else None.
Definition get : M tcp_client := fun v => match v_self v with Some cl => Some (cl, v) | None => None end.
Definition modify (f : tcp_client -> tcp_client) : M unit :=
  fun v => match v_self v with Some cl => Some (tt, set_v_self (Some (f cl)) v) | None => None end.

Definition fault {A} : M A := fun _ => None.
Definition lift {A} (x : option A) : M A := fun v => match x with Some x => Some (x, v) | None => None end.

(** A call of lwIP on the connection block, which must not have been freed. *)
Definition on_pcb (f : link -> link) : M unit :=
  fun v => if pcb_open (v_link v) then Some (tt, set_v_link (f (v_link v)) v) else None.

(** What lwIP's functions answer during a callback: [tcp_sndbuf] and [tcp_write] by the number
    of bytes of [socks_recv_buf] queued so far, which grows with every call. *)
Record lwip := mk_lwip { a_close : err_t; a_sndbuf : Z -> N; a_write : Z -> err_t; a_output : err_t }.

Definition tcp_err (b : bool) : M unit := on_pcb (set_cb_err b).
Definition tcp_recv (b : bool) : M unit := on_pcb (set_cb_recv b).
Definition tcp_sent (b : bool) : M unit := on_pcb (set_cb_sent b).
Definition tcp_recved (n : Z) : M unit := on_pcb (fun l => set_rcv_wnd (rcv_wnd l + n) l).
Definition tcp_abort : M unit := on_pcb (fun l => set_pcb_aborted true (set_pcb_open false l)).

(** The block is freed unless an error is returned. *)
Definition tcp_close (a : lwip) : M err_t :=
  on_pcb (fun l => if bool_decide (a_close a = ERR_OK) then set_pcb_open false l else l);; mret (a_close a).

Definition tcp_write (a : lwip) (pos : Z) (data : bytes) : M err_t :=
  on_pcb (fun l => if bool_decide (a_write a pos = ERR_OK)
                   then set_h_out (h_out l ++ data) (set_unacked (unacked l + zlen data) l) else l);;
  mret (a_write a pos).

Definition tcp_output (a : lwip) : M err_t := on_pcb id;; mret (a_output a).

(** ** The dead mechanism, misc/dead.h *)

(** Writes to the variable the pointer is set to; it is gone when its callback returned. *)
Definition write_dead (val : Z) : M unit :=
  fun v => match v_dead v with Some _ => Some (tt, set_v_dead (Some val) v) | None => None end.
Definition DEAD_KILL_WITH (val : Z) : M unit := cl ← get; if dead_aborted cl then write_dead val else mret tt.

Definition open_dead : M unit := fun v => Some (tt, set_v_dead (Some 0) v).
Definition DEAD_ENTER : M unit := modify (set_dead_aborted true);; open_dead.

(** [DEAD_LEAVE2] and the value the callback returns. *)
Definition close_dead : M Z := fun v => match v_dead v with Some d => Some (d, set_v_dead None v) | None => None end.
Definition leave : M err_t :=
  d ← close_dead;
  (if d =? 0 then modify (set_dead_aborted false) else mret tt);;
  mret (if 0 <? d then ERR_ABRT else ERR_OK).

(** ** Releasing a client *)

Definition client_abort_pcb : M unit :=
  cl ← get;
  assert (negb (aborted cl));;
  tcp_abort;;
  modify (set_aborted true);;
  DEAD_KILL_WITH 1.

Definition uncount : M unit := fun v => if 0 <? v_num v then Some (tt, set_v_num (v_num v - 1) v) else None.
Definition unlist (c : nat) : M unit := fun v => Some (tt, set_v_clients (filter (fun x => x <> c) (v_clients v)) v).
Definition free_self : M unit := fun v => Some (tt, set_v_self None v).

Definition client_dealloc (c : nat) : M unit :=
  cl ← get;
  assert (client_closed cl);;
  assert (socks_closed cl);;
  uncount;;
  unlist c;;
  (if aborted cl then mret tt else DEAD_KILL_WITH (-1));;
  free_self.

(** [BSocksClient_Free]; outstanding operations end with it. *)
Definition BSocksClient_Free : M unit :=
  cl ← get;
  o ← lift (BSocks.BSocksClient_Free (socks_client cl));
  modify (fun cl => set_send_req None (set_recv_req false (set_socks_client o cl))).

Definition remove_callbacks : M unit := tcp_err false;; tcp_recv false;; tcp_sent false.

(** The three functions call each other when one side goes and the other has nothing left to
    do; each call sets a flag, so that [fuel] of four is never used up. *)
Fixpoint client_handle_freed_client (fuel : nat) (a : lwip) (c : nat) {struct fuel} : M unit :=
  match fuel with
  | O => fault
  | S fuel =>
      cl ← get;
      assert (negb (client_closed cl));;
      modify (set_client_closed true);;
      if (0 <? buf_used cl) && negb (socks_closed cl) then mret tt
      else if negb (socks_closed cl) then client_free_socks fuel a c
      else client_dealloc c
  end
with client_free_client (fuel : nat) (a : lwip) (c : nat) {struct fuel} : M unit :=
  match fuel with
  | O => fault
  | S fuel =>
      cl ← get;
      assert (negb (client_closed cl));;
      remove_callbacks;;
      err ← tcp_close a;
      (if bool_decide (err <> ERR_OK) then client_abort_pcb else mret tt);;
      client_handle_freed_client fuel a c
  end
with client_free_socks (fuel : nat) (a : lwip) (c : nat) {struct fuel} : M unit :=
  match fuel with
  | O => fault
  | S fuel =>
      cl ← get;
      assert (negb (socks_closed cl));;
      (if socks_up cl && negb (client_closed cl) then tcp_recv false else mret tt);;
      BSocksClient_Free;;
      modify (set_socks_closed true);;
      if socks_up cl && ((0 <=? socks_recv_buf_used cl) || (0 <? socks_recv_tcp_pending cl)) && negb (client_closed cl) then mret tt
      else if negb (client_closed cl) then client_free_client fuel a c
      else client_dealloc c
  end.

Definition FUEL : nat := 4.

Definition client_abort_client (a : lwip) (c : nat) : M unit :=
  cl ← get;
  assert (negb (client_closed cl));;
  remove_callbacks;;
  client_abort_pcb;;
  client_handle_freed_client FUEL a c.

Definition client_murder (c : nat) : M unit :=
  cl ← get;
  (if negb (client_closed cl) then remove_callbacks;; client_abort_pcb;; modify (set_client_closed true) else mret tt);;
  (if negb (socks_closed cl) then BSocksClient_Free;; modify (set_socks_closed true) else mret tt);;
  client_dealloc c.

(** ** From the application to SOCKS *)

(** [StreamPassInterface_Sender_Send] of the first [buf_used] bytes. *)
Definition Sender_Send : M unit :=
  cl ← get;
  assert (bool_decide (send_req cl = None));;
  assert (0 <? buf_used cl);;
  modify (set_send_req (Some (buf_used cl))).

Definition client_send_to_socks : M unit :=
  cl ← get;
  assert (negb (socks_closed cl));;
  assert (socks_up cl);;
  assert (0 <? buf_used cl);;
  Sender_Send.

Definition client_err_func (a : lwip) (c : nat) : M unit :=
  cl ← get;
  assert (negb (client_closed cl));;
  client_handle_freed_client FUEL a c.

(** How far a callback got: it has returned, it is in [SYNC_COMMIT], where jobs run, or only
    [DEAD_LEAVE2] is left. *)
Inductive progress := returned (e : err_t) | syncing | leaving.

Definition note_in (data : bytes) : M unit := fun v => Some (tt, set_v_link (set_h_in (h_in (v_link v) ++ data) (v_link v)) v).

Definition client_recv_func (a : lwip) (p : option bytes) (c : nat) : M progress :=
  cl ← get;
  assert (negb (client_closed cl));;
  DEAD_ENTER;;
  match p with
  | None => client_free_client FUEL a c;; mret leaving
  | Some data =>
      assert (0 <? zlen data);;
      if TCP_WND - buf_used cl <? zlen data then leave;; mret (returned ERR_MEM)
      else
        b ← lift (store (buf_used cl) data (buf cl));
        modify (fun cl => set_buf_used (buf_used cl + zlen data) (set_buf b cl));;
        note_in data;;
        if (buf_used cl + zlen data =? zlen data) && socks_up cl then
          assert (negb (socks_closed cl));;
          client_send_to_socks;; mret syncing
        else mret leaving
  end.

Definition client_socks_send_handler_done (a : lwip) (data_len : Z) (c : nat) : M unit :=
  cl ← get;
  assert (negb (socks_closed cl));;
  assert (socks_up cl);;
  assert (0 <? buf_used cl);;
  assert (0 <? data_len);;
  assert (data_len <=? buf_used cl);;
  rest ← lift (load data_len (buf_used cl - data_len) (buf cl));
  b ← lift (store 0 rest (buf cl));
  modify (fun cl => set_buf_used (buf_used cl - data_len) (set_buf b cl));;
  (if negb (client_closed cl) then tcp_recved data_len else mret tt);;
  if 0 <? buf_used cl - data_len then Sender_Send
  else if client_closed cl then client_free_socks FUEL a c
  else mret tt.

(** ** From SOCKS to the application *)

Definition client_socks_recv_initiate : M unit :=
  cl ← get;
  assert (negb (client_closed cl));;
  assert (negb (socks_closed cl));;
  assert (socks_up cl);;
  assert (socks_recv_buf_used cl =? -1);;
  assert (negb (recv_req cl));;
  modify (set_recv_req true).

(** The loop that hands the received bytes to lwIP; its value is whether [tcp_write] failed for
    another reason than lack of memory. *)
Fixpoint write_out (fuel : nat) (a : lwip) : M bool :=
  match fuel with
  | O => fault
  | S fuel =>
      cl ← get;
      let sent := socks_recv_buf_sent cl in
      let to_write := Z.min (socks_recv_buf_used cl - sent) (Z.of_N (a_sndbuf a sent)) in
      if to_write =? 0 then mret false
      else
        data ← lift (load sent to_write (socks_recv_buf cl));
        err ← tcp_write a sent data;
        if bool_decide (err = ERR_OK) then
          modify (fun cl => set_socks_recv_tcp_pending (socks_recv_tcp_pending cl + to_write)
                              (set_socks_recv_buf_sent (sent + to_write) cl));;
          if sent + to_write <? socks_recv_buf_used cl then write_out fuel a else mret false
        else mret (negb (bool_decide (err = ERR_MEM)))
  end.

(** [true] is the return value -1. *)
Definition client_socks_recv_send_out (a : lwip) (c : nat) : M bool :=
  cl ← get;
  assert (negb (client_closed cl));;
  assert (socks_up cl);;
  assert (0 <? socks_recv_buf_used cl);;
  assert (socks_recv_buf_sent cl <? socks_recv_buf_used cl);;
  assert (negb (socks_recv_waiting cl));;
  failed ← write_out (Z.to_nat (socks_recv_buf_used cl)) a;
  if (failed : bool) then client_abort_client a c;; mret true
  else
    err ← tcp_output a;
    if bool_decide (err <> ERR_OK) then client_abort_client a c;; mret true
    else
      cl ← get;
      if socks_recv_buf_sent cl <? socks_recv_buf_used cl then
        if socks_recv_tcp_pending cl =? 0 then client_abort_client a c;; mret true
        else modify (set_socks_recv_waiting true);; mret false
      else modify (set_socks_recv_buf_used (-1));; mret false.

Definition client_socks_recv_handler_done (a : lwip) (data_len : Z) (c : nat) : M unit :=
  cl ← get;
  assert (0 <? data_len);;
  assert (data_len <=? CLIENT_SOCKS_RECV_BUF_SIZE);;
  assert (negb (socks_closed cl));;
  assert (socks_up cl);;
  assert (socks_recv_buf_used cl =? -1);;
  if client_closed cl then mret tt
  else
    modify (fun cl => set_socks_recv_waiting false (set_socks_recv_buf_sent 0 (set_socks_recv_buf_used data_len cl)));;
    gone ← client_socks_recv_send_out a c;
    if (gone : bool) then mret tt
    else
      cl ← get;
      if socks_recv_buf_used cl =? -1 then client_socks_recv_initiate else mret tt.

Definition client_sent_func (a : lwip) (len : Z) (c : nat) : M progress :=
  cl ← get;
  assert (negb (client_closed cl));;
  assert (socks_up cl);;
  assert (0 <? len);;
  assert (len <=? socks_recv_tcp_pending cl);;
  DEAD_ENTER;;
  modify (set_socks_recv_tcp_pending (socks_recv_tcp_pending cl - len));;
  if 0 <? socks_recv_buf_used cl then
    assert (socks_recv_waiting cl);;
    assert (socks_recv_buf_sent cl <? socks_recv_buf_used cl);;
    modify (set_socks_recv_waiting false);;
    gone ← client_socks_recv_send_out a c;
    if (gone : bool) then mret leaving
    else
      cl ← get;
      assert (0 <? socks_recv_tcp_pending cl);;
      if (socks_recv_buf_used cl =? -1) && negb (socks_closed cl) then client_socks_recv_initiate;; mret syncing
      else mret leaving
  else if socks_closed cl && (socks_recv_tcp_pending cl - len =? 0) then client_free_client FUEL a c;; mret leaving
  else mret leaving.

(** ** Events of the SOCKS client *)

Definition client_socks_handler (a : lwip) (event : BSocks.client_event) (c : nat) : M unit :=
  cl ← get;
  assert (negb (socks_closed cl));;
  match event with
  | BSocks.EVENT_ERROR => client_free_socks FUEL a c
  | BSocks.EVENT_UP =>
      assert (negb (socks_up cl));;
      modify (fun cl => set_socks_recv_tcp_pending 0 (set_socks_recv_buf_used (-1) (set_send_req None (set_recv_req false cl))));;
      (if negb (client_closed cl) then tcp_sent true else mret tt);;
      modify (set_socks_up true);;
      (if 0 <? buf_used cl then client_send_to_socks else mret tt);;
      (if negb (client_closed cl) then client_socks_recv_initiate else mret tt)
  | BSocks.EVENT_ERROR_CLOSED => assert (socks_up cl);; client_free_socks FUEL a c
  end.

(** ** All clients

    [frame] is the callback of lwIP that has not returned yet: its client, the variable that
    [DEAD_ENTER] declared, and whether it is in [SYNC_COMMIT]. *)
Record callback := mk_callback { f_client : nat; f_dead : Z; f_sync : bool }.

Record tun := mk_tun {
  heap : gmap nat tcp_client;
  links : gmap nat link;
  tcp_clients : list nat;
  num_clients : Z;
  frame : option callback;
  socks_auth_info : list BSocks.auth_info }.

Definition set_frame f (g : tun) : tun := mk_tun (heap g) (links g) (tcp_clients g) (num_clients g) f (socks_auth_info g).
Definition set_auth l (g : tun) : tun := mk_tun (heap g) (links g) (tcp_clients g) (num_clients g) (frame g) l.

Definition dead_of (c : nat) (f : option callback) : option Z :=
  match f with Some f => if decide (f_client f = c) then Some (f_dead f) else None | None => None end.

Definition view_of (c : nat) (g : tun) : option view :=
  match links g !! c with
  | Some l => Some (mk_view (heap g !! c) l (dead_of c (frame g)) (tcp_clients g) (num_clients g))
  | None => None
  end.

Definition sync_of (f : option callback) : bool := match f with Some f => f_sync f | None => false end.

Definition put_view (c : nat) (v : view) (g : tun) : tun :=
  mk_tun (match v_self v with Some cl => <[c := cl]> (heap g) | None => delete c (heap g) end)
    (<[c := v_link v]> (links g)) (v_clients v) (v_num v)
    (match v_dead v with
     | Some d => Some (mk_callback c d (sync_of (frame g)))
     | None => match dead_of c (frame g) with Some _ => None | None => frame g end
     end)
    (socks_auth_info g).

Definition run {A} (c : nat) (m : M A) (g : tun) : option (A * tun) :=
  v ← view_of c g; '(x, v') ← m v; Some (x, put_view c v' g).

(** What a callback leaves to do. *)
Definition finish (c : nat) (r : progress * tun) : option (tun * option err_t) :=
  match r with
  | (returned e, g) => Some (g, Some e)
  | (syncing, g) => Some (set_frame (option_map (fun f => mk_callback (f_client f) (f_dead f) true) (frame g)) g, None)
  | (leaving, g) => '(e, g) ← run c leave g; Some (g, Some e)
  end.

Definition baddr_from_lwip (is_v6 : bool) (addr : bytes) (port_hostorder : Z) : BSocks.dest_addr :=
  if is_v6 then BSocks.ipv6 addr (be_bytes 2 (u16 port_hostorder)) else BSocks.ipv4 addr (be_bytes 2 (u16 port_hostorder)).

Definition fresh_link : link := mk_link true false true true false TCP_WND 0 [] [] [] [] false false.

(** [mem]: the memory [malloc] returned. [append]: the source address is to be part of the user
    name, with [username] the string that [concat_strings] made. *)
Definition listener_accept_func (mem : option tcp_client) (is_v6 : bool) (ip : bytes) (port : Z) (append : bool) (username : option bytes)
    (connector_ok : bool) (c : nat) (g : tun) : option (tun * option err_t) :=
  match mem with
  | None => Some (g, Some ERR_MEM)
  | Some mem =>
      let addr := baddr_from_lwip is_v6 ip port in
      let with_name :=
        match socks_auth_info g with
        | [none; BSocks.auth_password _ pw] =>
            if append
            then match username with Some u => Some (set_auth [none; BSocks.auth_password u pw] g) | None => None end
            else Some g
        | _ => Some g
        end in
      match with_name with
      | None => Some (g, Some ERR_MEM)
      | Some g =>
          match BSocks.BSocksClient_Init (socks_auth_info g) addr connector_ok with
          | inr _ => Some (g, Some ERR_MEM)
          | inl o =>
              if 0 <=? num_clients g then
                let cl := set_aborted false (set_dead_aborted true (set_client_closed false (set_buf_used 0
                            (set_socks_client o (set_socks_up false (set_socks_closed false (set_send_req None (set_recv_req false mem)))))))) in
                Some (mk_tun (<[c := cl]> (heap g)) (<[c := fresh_link]> (links g)) (tcp_clients g ++ [c]) (num_clients g + 1)
                        (Some (mk_callback c 0 true)) (socks_auth_info g), None)
              else None
          end
      end
  end.

(** ** What can happen *)

Definition upd_link (f : link -> link) : M unit := fun v => Some (tt, set_v_link (f (v_link v)) v).

(** A job of the SOCKS client, which may report an event. It reads the credentials where they
    are, in memory all clients share. *)
Definition socks_job (info : list BSocks.auth_info) (alloc : Z -> option bytes) (a : lwip) (e : BSocks.event) (c : nat) : M unit :=
  cl ← get;
  let o := socks_client cl in
  r ← lift (BSocks.handle alloc e
              (BSocks.mk_client info (BSocks.dest o) (BSocks.state o) (BSocks.cbuffer o) (BSocks.recv_dest o) (BSocks.recv_len o)
                 (BSocks.recv_total o) (BSocks.res o) (BSocks.c_recv o) (BSocks.c_send o)));
  modify (set_socks_client r.1);;
  match r.2 with
  | None => mret tt
  | Some ev =>
      upd_link (match ev with BSocks.EVENT_UP => id | _ => set_socks_ended true end);;
      client_socks_handler a ev c
  end.

(** The SOCKS connection took [n] bytes of what it was given. *)
Definition sent_job (a : lwip) (n : Z) (c : nat) : M unit :=
  cl ← get;
  data ← lift (load 0 n (buf cl));
  upd_link (fun l => set_h_up (h_up l ++ data) l);;
  modify (set_send_req None);;
  client_socks_send_handler_done a n c.

(** The SOCKS connection put [data] into the receive buffer. *)
Definition received_job (a : lwip) (data : bytes) (c : nat) : M unit :=
  cl ← get;
  b ← lift (store 0 data (socks_recv_buf cl));
  upd_link (fun l => set_h_down (h_down l ++ data) l);;
  modify (fun cl => set_recv_req false (set_socks_recv_buf b cl));;
  client_socks_recv_handler_done a (zlen data) c.

Inductive event :=
| ev_accept (c : nat) (mem : option tcp_client) (is_v6 : bool) (ip : bytes) (port : Z) (append : bool) (username : option bytes) (connector_ok : bool)
| ev_err (c : nat) (a : lwip)
| ev_recv (c : nat) (p : option bytes) (a : lwip)
| ev_sent (c : nat) (len : Z) (a : lwip)
| ev_return
| ev_socks (c : nat) (e : BSocks.event) (alloc : Z -> option bytes) (a : lwip)
| ev_socks_sent (c : nat) (n : Z) (a : lwip)
| ev_socks_received (c : nat) (data : bytes) (a : lwip).

(** What lwIP and the event loop may do: callbacks come one at a time, for connection blocks
    that are open and have the callback registered, with at most the bytes the window admits
    and at most those queued acknowledged; jobs run outside of callbacks and in
    [SYNC_COMMIT], for operations that are outstanding. *)
Definition jobs_run (g : tun) : bool := match frame g with Some f => f_sync f | None => true end.
Definition no_callback (g : tun) : bool := match frame g with Some _ => false | None => true end.

Definition of_link (c : nat) (g : tun) (p : link -> bool) : bool := match links g !! c with Some l => pcb_open l && p l | None => false end.
Definition of_client (c : nat) (g : tun) (p : tcp_client -> bool) : bool := match heap g !! c with Some cl => negb (socks_closed cl) && p cl | None => false end.

Definition allowed (e : event) (g : tun) : bool :=
  match e with
  | ev_accept c mem is_v6 ip _ _ _ _ =>
      no_callback g && bool_decide (links g !! c = None) && (zlen ip =? if is_v6 then 16 else 4) &&
      match mem with
      | Some mem => (zlen (buf mem) =? TCP_WND) && (zlen (socks_recv_buf mem) =? CLIENT_SOCKS_RECV_BUF_SIZE)
      | None => true
      end
  | ev_err c _ => no_callback g && of_link c g cb_err
  | ev_recv c p _ =>
      no_callback g && of_link c g (fun l => cb_recv l && match p with Some data => (0 <? zlen data) && (zlen data <=? rcv_wnd l) | None => true end)
  | ev_sent c len _ => no_callback g && of_link c g (fun l => cb_sent l && (0 <? len) && (len <=? unacked l))
  | ev_return => negb (no_callback g)
  | ev_socks c e alloc _ => jobs_run g && of_client c g (fun cl => BSocks.allowed e (socks_client cl))
  | ev_socks_sent c n _ =>
      jobs_run g && of_client c g (fun cl => match send_req cl with Some m => (0 <? n) && (n <=? m) | None => false end)
  | ev_socks_received c data _ =>
      jobs_run g && of_client c g (fun cl => recv_req cl && (0 <? zlen data) && (zlen data <=? CLIENT_SOCKS_RECV_BUF_SIZE))
  end.

(** The value is what a callback that returned gave back to lwIP. *)
Definition step (e : event) (g : tun) : option (tun * option err_t) :=
  let quiet (r : option (unit * tun)) := '(_, g) ← r; Some (g, None) in
  match e with
  | ev_accept c mem is_v6 ip port append username connector_ok => listener_accept_func mem is_v6 ip port append username connector_ok c g
  | ev_err c a => quiet (run c (upd_link (fun l => set_client_ended true (set_pcb_open false l));; client_err_func a c) g)
  | ev_recv c p a =>
      r ← run c (upd_link (fun l => match p with Some data => set_rcv_wnd (rcv_wnd l - zlen data) l | None => set_client_ended true l end);;
                 client_recv_func a p c) g;
      finish c r
  | ev_sent c len a => r ← run c (upd_link (fun l => set_unacked (unacked l - len) l);; client_sent_func a len c) g; finish c r
  | ev_return => f ← frame g; '(e, g) ← run (f_client f) leave g; Some (g, Some e)
  | ev_socks c e alloc a => quiet (run c (socks_job (socks_auth_info g) alloc a e c) g)
  | ev_socks_sent c n a => quiet (run c (sent_job a n c) g)
  | ev_socks_received c data a => quiet (run c (received_job a data c) g)
  end.

(** The loop of [run] that frees the clients when the program ends. *)
Fixpoint free_clients (l : list nat) (g : tun) : option tun :=
  match l with
  | [] => Some g
  | c :: l => '(_, g) ← run c (client_murder c) g; free_clients l g
  end.

Definition start (l : list BSocks.auth_info) : tun := mk_tun ∅ ∅ [] 0 None l.

(** The allocator of a SOCKS job returns blocks of the size it is asked for, and user names are
    used as they are (see [credentials_are_shared] for the other case). *)
Definition proper (e : event) : Prop :=
  match e with
  | ev_socks _ _ alloc _ => BSocks.allocates alloc
  | ev_accept _ _ _ _ _ append _ _ => append = false
  | _ => True
  end.

Inductive tun_run : tun -> list event -> tun -> Prop :=
| tun_end g : tun_run g [] g
| tun_more g e es g1 r g' : allowed e g = true -> step e g = Some (g1, r) -> tun_run g1 es g' -> tun_run g (e :: es) g'.

(** ** Reasoning about callbacks *)

Definition wp {A} (m : M A) (Q : A -> view -> Prop) (v : view) : Prop := match m v with Some (x, v') => Q x v' | None => False end.

Lemma cwp_mono {A} (m : M A) (P Q : A -> view -> Prop) v : wp m P v -> (forall x v', P x v' -> Q x v') -> wp m Q v.
Proof. unfold wp. destruct (m v) as [[x v']|]; [|done]. intros H HPQ. by apply HPQ. Qed.

Lemma cwp_bind {A B} (m : M A) (k : A -> M B) Q v : wp m (fun x => wp (k x) Q) v -> wp (m ≫= k) Q v.
Proof. unfold wp, mbind, M_bind. by destruct (m v) as [[x v']|]. Qed.

Lemma wp_seq {A B} (m : M A) (k : A -> M B) (P : A -> view -> Prop) Q v :
  wp m P v -> (forall x v', P x v' -> wp (k x) Q v') -> wp (m ≫= k) Q v.
Proof. intros H1 H2. apply cwp_bind. by eapply cwp_mono. Qed.

Lemma cwp_ret {A} (x : A) (Q : A -> view -> Prop) v : Q x v -> wp (mret x) Q v.
Proof. done. Qed.

Lemma cwp_assert b (Q : unit -> view -> Prop) v : b = true -> Q tt v -> wp (assert b) Q v.
Proof. by intros ->. Qed.

Lemma cwp_get (Q : tcp_client -> view -> Prop) cl l d cs n : Q cl (mk_view (Some cl) l d cs n) -> wp get Q (mk_view (Some cl) l d cs n).
Proof. done. Qed.

Lemma cwp_modify f (Q : unit -> view -> Prop) cl l d cs n :
  Q tt (mk_view (Some (f cl)) l d cs n) -> wp (modify f) Q (mk_view (Some cl) l d cs n).
Proof. done. Qed.

Lemma wp_pcb f (Q : unit -> view -> Prop) x l d cs n :
  pcb_open l = true -> Q tt (mk_view x (f l) d cs n) -> wp (on_pcb f) Q (mk_view x l d cs n).
Proof. unfold wp, on_pcb. cbn. by intros ->. Qed.

Lemma wp_lift {A} (y : A) x (Q : A -> view -> Prop) v : x = Some y -> Q y v -> wp (lift x) Q v.
Proof. by intros ->. Qed.

Lemma wp_link f (Q : unit -> view -> Prop) x l d cs n : Q tt (mk_view x (f l) d cs n) -> wp (upd_link f) Q (mk_view x l d cs n).
Proof. done. Qed.

Lemma wp_note data (Q : unit -> view -> Prop) x l d cs n :
  Q tt (mk_view x (set_h_in (h_in l ++ data) l) d cs n) -> wp (note_in data) Q (mk_view x l d cs n).
Proof. done. Qed.

Lemma wp_open (Q : unit -> view -> Prop) x l d cs n : Q tt (mk_view x l (Some 0) cs n) -> wp open_dead Q (mk_view x l d cs n).
Proof. done. Qed.

(** What the variable of [DEAD_ENTER] and the pointer to it look like while the client lives. *)
Definition dead_ok (cl : tcp_client) (d : option Z) : Prop :=
  match d with
  | Some d => aborted cl = true /\ d = 1 \/ aborted cl = false /\ d = 0 /\ dead_aborted cl = true
  | None => dead_aborted cl = true -> aborted cl = true
  end.

Definition killed (b : bool) (d : option Z) : option Z := option_map (fun _ => if b then 1 else -1) d.

Lemma wp_kill val (Q : unit -> view -> Prop) cl l d cs n :
  dead_ok cl d -> aborted cl = false \/ is_Some d ->
  Q tt (mk_view (Some cl) l (if dead_aborted cl then Some val else d) cs n) -> wp (DEAD_KILL_WITH val) Q (mk_view (Some cl) l d cs n).
Proof.
  intros Hd Ha HQ. unfold DEAD_KILL_WITH. apply cwp_bind, cwp_get. destruct (dead_aborted cl) eqn:E; [|done].
  unfold wp, write_dead. cbn. destruct d as [d|]; [done|]. cbn in Hd. rewrite E in Hd. destruct Ha as [Ha|[? [=]]]. rewrite Ha in Hd. by specialize (Hd eq_refl).
Qed.

Ltac wstep :=
  lazymatch goal with
  | |- wp (mbind _ _) _ _ => apply cwp_bind
  | |- wp (mret _) _ _ => apply cwp_ret
  | |- wp get _ _ => apply cwp_get
  | |- wp (modify _) _ _ => apply cwp_modify
  | |- wp (on_pcb _) _ _ => apply wp_pcb
  | |- wp (assert _) _ _ => apply cwp_assert
  | |- wp (upd_link _) _ _ => apply wp_link
  | |- wp (note_in _) _ _ => apply wp_note
  | |- wp open_dead _ _ => apply wp_open
  | |- wp remove_callbacks _ _ => unfold remove_callbacks, tcp_err, tcp_recv, tcp_sent
  end.

Ltac fields :=
  cbn [aborted dead_aborted client_closed buf buf_used socks_client socks_up socks_closed send_req recv_req socks_recv_buf socks_recv_buf_used
       socks_recv_buf_sent socks_recv_waiting socks_recv_tcp_pending
       set_aborted set_dead_aborted set_client_closed set_buf set_buf_used set_socks_client set_socks_up set_socks_closed set_send_req set_recv_req
       set_socks_recv_buf set_socks_recv_buf_used set_socks_recv_buf_sent set_socks_recv_waiting set_socks_recv_tcp_pending
       pcb_open pcb_aborted cb_err cb_recv cb_sent rcv_wnd unacked h_in h_up h_down h_out client_ended socks_ended
       set_pcb_open set_pcb_aborted set_cb_err set_cb_recv set_cb_sent set_rcv_wnd set_unacked set_h_in set_h_up set_h_down set_h_out
       set_client_ended set_socks_ended v_self v_link v_dead v_clients v_num negb andb] in *.

Ltac wgo := repeat (wstep; fields; cbv beta; try fast_done).

(** [client_abort_pcb] *)
Lemma wp_abort (Q : unit -> view -> Prop) cl l d cs n :
  aborted cl = false -> pcb_open l = true -> dead_ok cl d ->
  Q tt (mk_view (Some (set_aborted true cl)) (set_pcb_aborted true (set_pcb_open false l)) (killed true d) cs n) ->
  wp client_abort_pcb Q (mk_view (Some cl) l d cs n).
Proof.
  intros Ha Ho Hd HQ. unfold client_abort_pcb, tcp_abort. wgo; [by rewrite Ha|].
  unfold DEAD_KILL_WITH. wgo. destruct d as [d|]; cbn in Hd, HQ.
  - destruct Hd as [[? _]|(_ & -> & Hp)]; [congruence|]. rewrite Hp. done.
  - destruct (dead_aborted cl) eqn:E; [rewrite Ha in Hd; by specialize (Hd eq_refl)|]. done.
Qed.

Lemma wp_dealloc c (Q : unit -> view -> Prop) cl l d cs n :
  client_closed cl = true -> socks_closed cl = true -> 0 < n -> dead_ok cl d ->
  Q tt (mk_view None l (killed (aborted cl) d) (filter (fun x => x <> c) cs) (n - 1)) ->
  wp (client_dealloc c) Q (mk_view (Some cl) l d cs n).
Proof.
  intros H1 H2 Hn Hd HQ. unfold client_dealloc. wgo.
  unfold wp at 1, uncount. cbn. rewrite (proj2 (Z.ltb_lt 0 n) Hn). apply cwp_bind. unfold wp at 1, unlist. cbn. apply cwp_bind.
  destruct (aborted cl) eqn:Ea.
  - apply cwp_ret. unfold wp, free_self. cbn. destruct d as [d|]; [|done]. cbn in *. rewrite Ea in Hd. by destruct Hd as [[_ ->]|[? _]].
  - apply wp_kill; [done|by left|]. unfold wp, free_self. cbn. destruct d as [d|]; cbn in *.
    + destruct Hd as [[? _]|(_ & _ & ->)]; [congruence|done].
    + destruct (dead_aborted cl); [rewrite Ea in Hd; by specialize (Hd eq_refl)|done].
Qed.

(** ** What holds of a client *)

(** Bytes [sent] to [used] of the receive buffer. *)
Definition chunk (sent used : Z) (b : bytes) : bytes := take (Z.to_nat (used - sent)) (drop (Z.to_nat sent) b).

Record common (cl : tcp_client) (l : link) : Prop := {
  buf_size : zlen (buf cl) = TCP_WND;
  recv_buf_size : zlen (socks_recv_buf cl) = CLIENT_SOCKS_RECV_BUF_SIZE;
  used_range : 0 <= buf_used cl <= TCP_WND;
  up_prefix : h_up l `prefix_of` h_in l;
  down_prefix : h_out l `prefix_of` h_down l;
  one_receive : recv_req cl = true -> socks_recv_buf_used cl = -1;
  same_abort : aborted cl = pcb_aborted l }.

(** The way to SOCKS: what was received and not sent is in the buffer, and the connection has
    been asked to send some of it. *)
Definition upstream (info : list BSocks.auth_info) (cl : tcp_client) (l : link) : Prop :=
  if socks_closed cl then socks_ended l = true
  else BSocks.client_ok (socks_client cl) /\ BSocks.auths (socks_client cl) = info /\
       (socks_up cl = true <-> BSocks.state (socks_client cl) = BSocks.STATE_UP) /\
       (if socks_up cl then match send_req cl with Some n => 0 < n <= buf_used cl | None => buf_used cl = 0 end
        else send_req cl = None /\ recv_req cl = false) /\
       h_in l = h_up l ++ take (Z.to_nat (buf_used cl)) (buf cl).

(** The way to the application: either the receive buffer is free, and more was asked for while
    SOCKS is there to give it, or the rest of it waits for an acknowledgement that will come. *)
Definition downstream (cl : tcp_client) (l : link) : Prop :=
  if socks_up cl then
    socks_recv_tcp_pending cl = unacked l /\ 0 <= unacked l /\
    (socks_recv_buf_used cl = -1 /\ h_down l = h_out l /\ (if socks_closed cl then 0 < unacked l else recv_req cl = true) \/
     0 < socks_recv_buf_used cl <= CLIENT_SOCKS_RECV_BUF_SIZE /\ 0 <= socks_recv_buf_sent cl < socks_recv_buf_used cl /\
     socks_recv_waiting cl = true /\ 0 < unacked l /\ recv_req cl = false /\
     h_down l = h_out l ++ chunk (socks_recv_buf_sent cl) (socks_recv_buf_used cl) (socks_recv_buf cl))
  else socks_closed cl = false /\ unacked l = 0 /\ h_down l = [] /\ h_out l = [].

Record open_side (cl : tcp_client) (l : link) : Prop := {
  o_open : pcb_open l = true;
  o_abort : aborted cl = false;
  o_err : cb_err l = true;
  o_recv : cb_recv l = negb (socks_closed cl);
  o_sent : cb_sent l = socks_up cl;
  o_wnd : socks_closed cl = false -> buf_used cl + rcv_wnd l = TCP_WND;
  o_down : downstream cl l }.

(** The application got all there was, or it went away itself, or lwIP failed. *)
Definition application_gone (l : link) : Prop := client_ended l = true \/ pcb_aborted l = true.
Definition nothing_lost_down (l : link) : Prop := h_down l = h_out l /\ unacked l = 0 \/ application_gone l.
Definition nothing_lost_up (l : link) : Prop := h_in l = h_up l \/ socks_ended l = true.

Definition closed_side (cl : tcp_client) (l : link) : Prop :=
  pcb_open l = false /\ socks_closed cl = false /\ 0 < buf_used cl /\ application_gone l.

Definition live (info : list BSocks.auth_info) (cl : tcp_client) (l : link) (d : option Z) : Prop :=
  common cl l /\ upstream info cl l /\ dead_ok cl d /\ if client_closed cl then closed_side cl l else open_side cl l.

(** What is left when the client has been released. *)
Definition gone (l : link) : Prop :=
  pcb_open l = false /\ h_up l `prefix_of` h_in l /\ h_out l `prefix_of` h_down l /\ nothing_lost_up l /\ nothing_lost_down l.

(** After a callback that began with [cs], [n] and a variable [d0]. *)
Definition good (info : list BSocks.auth_info) (c : nat) (d0 : option Z) (cs : list nat) (n : Z) (v : view) : Prop :=
  (is_Some (v_dead v) <-> is_Some d0) /\
  match v_self v with
  | Some cl => live info cl (v_link v) (v_dead v) /\ v_clients v = cs /\ v_num v = n
  | None =>
      gone (v_link v) /\ v_clients v = filter (fun x => x <> c) cs /\ v_num v = n - 1 /\
      forall d, v_dead v = Some d -> d = if pcb_aborted (v_link v) then 1 else -1
  end.

Lemma killed_some b d : is_Some (killed b d) <-> is_Some d.
Proof. destruct d; cbn; split; intros [? ?]; (done || by eexists). Qed.

Section closing.
Context (info : list BSocks.auth_info) (a : lwip) (c : nat) (cs : list nat) (n : Z) (Hn : 0 < n).

Lemma dealloc_good cl l d :
  client_closed cl = true -> socks_closed cl = true -> common cl l -> pcb_open l = false -> nothing_lost_up l -> nothing_lost_down l -> dead_ok cl d ->
  wp (client_dealloc c) (fun _ => good info c d cs n) (mk_view (Some cl) l d cs n).
Proof.
  intros H1 H2 Hc Ho Hu Hd Hdead. apply wp_dealloc; [done..|]. split; [apply killed_some|]. fields. split; [|split; [done|split; [done|]]].
  - split_and!; try done; apply Hc.
  - intros x Hx. destruct d as [d|]; [|done]. injection Hx as <-. by rewrite (same_abort _ _ Hc).
Qed.

Lemma wp_socks_free (Q : unit -> view -> Prop) cl l d :
  BSocks.freeable (socks_client cl) ->
  (forall o, Q tt (mk_view (Some (set_send_req None (set_recv_req false (set_socks_client o cl)))) l d cs n)) ->
  wp BSocksClient_Free Q (mk_view (Some cl) l d cs n).
Proof.
  intros Hf HQ. destruct (BSocks.free_ok _ Hf) as (o & E & _). unfold BSocksClient_Free. wgo. eapply wp_lift; [done|]. wgo. apply HQ.
Qed.

Lemma free_socks_closed fuel cl l d :
  client_closed cl = true -> socks_closed cl = false -> BSocks.freeable (socks_client cl) -> common cl l -> pcb_open l = false ->
  nothing_lost_up l -> nothing_lost_down l -> dead_ok cl d ->
  wp (client_free_socks (S fuel) a c) (fun _ => good info c d cs n) (mk_view (Some cl) l d cs n).
Proof.
  intros H1 H2 Hf Hc Ho Hu Hd Hdead. cbn [client_free_socks]. wgo; [by rewrite H2|]. rewrite H1, !andb_false_r. wgo.
  apply wp_socks_free; [done|]. intros o. wgo. apply dealloc_good; try done. destruct Hc. by constructor.
Qed.

Lemma freed_good fuel cl l d :
  client_closed cl = false -> pcb_open l = false -> common cl l -> upstream info cl l -> nothing_lost_down l ->
  (socks_closed cl = false -> application_gone l) -> dead_ok cl d ->
  wp (client_handle_freed_client (S (S fuel)) a c) (fun _ => good info c d cs n) (mk_view (Some cl) l d cs n).
Proof.
  intros H1 Ho Hc Hu Hd Hx Hdead. change (client_handle_freed_client (S (S fuel)) a c) with
    (cl ← get; assert (negb (client_closed cl));; modify (set_client_closed true);;
     if (0 <? buf_used cl) && negb (socks_closed cl) then mret tt else if negb (socks_closed cl) then client_free_socks (S fuel) a c else client_dealloc c).
  wgo; [by rewrite H1|]. assert (Hc' : common (set_client_closed true cl) l) by (destruct Hc; by constructor).
  destruct (socks_closed cl) eqn:Es; fields.
  - rewrite andb_false_r. unfold upstream in Hu. rewrite Es in Hu. apply dealloc_good; try done. by right.
  - rewrite andb_true_r. pose proof Hu as Hup. unfold upstream in Hu. rewrite Es in Hu. destruct Hu as (Hok & _ & _ & _ & Hin). destruct (Z.ltb_spec 0 (buf_used cl)).
    + wgo. split; [done|]. fields. split; [|done]. unfold live, closed_side. fields. split_and!; try done. by apply Hx.
    + apply free_socks_closed; try done; [by apply BSocks.ok_freeable|]. left. rewrite Hin. destruct (used_range _ _ Hc) as [? _].
      replace (buf_used cl) with 0 by lia. apply app_nil_r.
Qed.

Lemma free_client_good fuel cl l d :
  client_closed cl = false -> pcb_open l = true -> aborted cl = false -> common cl l -> upstream info cl l -> nothing_lost_down l ->
  (socks_closed cl = false -> application_gone l) -> dead_ok cl d ->
  wp (client_free_client (S (S (S fuel))) a c) (fun _ => good info c d cs n) (mk_view (Some cl) l d cs n).
Proof.
  intros H1 Ho Ha Hc Hu Hd Hx Hdead. change (client_free_client (S (S (S fuel))) a c) with
    (cl ← get; assert (negb (client_closed cl));; remove_callbacks;; err ← tcp_close a;
     (if bool_decide (err <> ERR_OK) then client_abort_pcb else mret tt);; client_handle_freed_client (S (S fuel)) a c).
  wgo; [by rewrite H1|]. unfold tcp_close. wgo. destruct (decide (a_close a = ERR_OK)) as [E|E].
  - rewrite (bool_decide_eq_true_2 _ E), bool_decide_eq_false_2 by (intros Hy; exact (Hy E)). wgo. apply freed_good; try done. destruct Hc; by constructor.
  - rewrite (bool_decide_eq_false_2 _ E), bool_decide_eq_true_2 by done. apply wp_abort; try done. fields.
    eapply cwp_mono; [apply freed_good|].
    + done.
    + done.
    + destruct Hc; by constructor.
    + done.
    + by right; right.
    + by intros _; right.
    + destruct d as [d|]; [by left|done].
    + intros _ v' [Hs Hg]. split; [by rewrite killed_some in Hs|done].
Qed.

Lemma free_socks_good cl l d :
  client_closed cl = false -> socks_closed cl = false -> BSocks.freeable (socks_client cl) -> common cl l -> open_side cl l ->
  socks_ended l = true -> dead_ok cl d ->
  wp (client_free_socks FUEL a c) (fun _ => good info c d cs n) (mk_view (Some cl) l d cs n).
Proof.
  intros H1 H2 Hf Hc Hop He Hdead. change (client_free_socks FUEL a c) with
    (cl ← get; assert (negb (socks_closed cl));;
     (if socks_up cl && negb (client_closed cl) then tcp_recv false else mret tt);; BSocksClient_Free;; modify (set_socks_closed true);;
     if socks_up cl && ((0 <=? socks_recv_buf_used cl) || (0 <? socks_recv_tcp_pending cl)) && negb (client_closed cl) then mret tt
     else if negb (client_closed cl) then client_free_client 3 a c else client_dealloc c).
  wgo; [by rewrite H2|]. rewrite H1. fields. rewrite !andb_true_r. pose proof (o_open _ _ Hop) as Ho. pose proof (o_abort _ _ Hop) as Ha.
  pose proof (o_down _ _ Hop) as Hdn. unfold downstream in Hdn. rewrite H2 in Hdn.
  destruct (socks_up cl) eqn:Eu; fields.
  - unfold tcp_recv. wgo. apply wp_socks_free; [done|]. intros o. wgo. destruct Hdn as (Hp & Hnn & Hdn).
    destruct ((0 <=? socks_recv_buf_used cl) || (0 <? socks_recv_tcp_pending cl)) eqn:Ew.
    + wgo. split; [done|]. fields. split; [|done]. unfold live. fields. split_and!; [destruct Hc; by constructor|done|done|]. rewrite H1.
      constructor; fields; try done; [by destruct Hop|..].
      * apply Hop.
      * unfold downstream. fields. rewrite Eu. split; [done|]. split; [done|]. destruct Hdn as [(Hu & Hdn & _)|(? & ? & ? & ? & ? & ?)]; [left|by right].
        split; [done|]. split; [done|]. rewrite Hu in Ew. apply orb_true_iff in Ew as [[=]|Ew%Z.ltb_lt]. lia.
    + apply orb_false_iff in Ew as [E1%Z.leb_gt E2%Z.ltb_ge]. apply free_client_good; try done; [destruct Hc; by constructor|].
      left. fields. destruct Hdn as [(_ & Hdn & _)|(? & _)]; [|lia]. split; [done|lia].
  - wgo. apply wp_socks_free; [done|]. intros o. wgo. apply free_client_good; try done; [destruct Hc; by constructor|].
    left. fields. destruct Hdn as (_ & ? & -> & ->). done.
Qed.

End closing.

(** ** The buffers *)

Lemma store_take off data m m' :
  store off data m = Some m' -> take (Z.to_nat (off + zlen data)) m' = take (Z.to_nat off) m ++ data.
Proof.
  intros H. destruct (store_inv _ _ _ _ H) as (H1 & H2 & H3). unfold store in H. destruct (in_range _ _ m); [|done]. injection H as <-.
  rewrite app_assoc. apply take_app_length'. unfold zlen in *. rewrite length_app, length_take. lia.
Qed.

Lemma load_take used k m :
  0 <= k <= used -> used <= zlen m ->
  exists rest, load k (used - k) m = Some rest /\ load 0 k m = Some (take (Z.to_nat k) m) /\
    zlen rest = used - k /\ take (Z.to_nat used) m = take (Z.to_nat k) m ++ rest.
Proof.
  intros Hk Hu. destruct (load_some k (used - k) m) as (rest & E & Hl); [lia..|]. exists rest. split; [done|].
  unfold load in *. rewrite (proj2 (in_range_spec _ _ _)) in E by (pose proof (zlen_nonneg m); lia). injection E as E.
  rewrite (proj2 (in_range_spec _ _ _)) by lia. split_and!; [by rewrite drop_0|done|]. rewrite <- E, take_take_drop. f_equal. lia.
Qed.

Lemma chunk_split sent used k b :
  0 <= sent -> 0 <= k -> sent + k <= used -> used <= zlen b ->
  exists data, load sent k b = Some data /\ zlen data = k /\ chunk sent used b = data ++ chunk (sent + k) used b.
Proof.
  intros H1 H2 H3 H4. destruct (load_some sent k b) as (data & E & Hl); [lia..|]. exists data. split; [done|]. split; [done|].
  unfold load in E. rewrite (proj2 (in_range_spec _ _ _)) in E by lia. injection E as <-. unfold chunk.
  replace (Z.to_nat (used - sent)) with (Z.to_nat k + Z.to_nat (used - (sent + k)))%nat by lia.
  rewrite <- take_take_drop, drop_drop. do 3 f_equal. lia.
Qed.

Lemma chunk_none used b : chunk used used b = [].
Proof. unfold chunk. by rewrite Z.sub_diag. Qed.

(** ** What the SOCKS client reports, and when *)

Definition reported (o o' : BSocks.client) (ev : option BSocks.client_event) : Prop :=
  match ev with
  | None => BSocks.state o <> BSocks.STATE_UP /\ BSocks.state o' <> BSocks.STATE_UP
  | Some BSocks.EVENT_UP => BSocks.state o <> BSocks.STATE_UP /\ BSocks.state o' = BSocks.STATE_UP
  | Some BSocks.EVENT_ERROR => True
  | Some BSocks.EVENT_ERROR_CLOSED => BSocks.state o = BSocks.STATE_UP
  end.

Lemma reaction_state l d s answer msg s' : BSocks.reaction l d s answer = BSocks.a_send msg s' -> s' <> BSocks.STATE_UP.
Proof.
  unfold BSocks.reaction. intros H. repeat (case_match; try discriminate); by injection H as _ <-.
Qed.

Lemma follows_reported alloc o o' ev l d answer :
  BSocks.state o <> BSocks.STATE_UP -> BSocks.follows alloc o o' ev (BSocks.reaction l d (BSocks.state o) answer) -> reported o o' ev.
Proof.
  intros Hs [_ H]. destruct (BSocks.reaction _ _ _ _) as [|msg s|k|] eqn:E.
  - by destruct H as [-> _].
  - destruct (alloc (zlen msg)); [|by destruct H as [-> _]]. destruct H as (-> & Hs' & _). split; [done|]. rewrite Hs'. by eapply reaction_state.
  - destruct H as (-> & Hs' & _). split; [done|by rewrite Hs'].
  - destruct H as (-> & Hs' & _). by split.
Qed.

Lemma handle_reports alloc e o o' ev :
  BSocks.allocates alloc -> BSocks.client_ok o -> BSocks.allowed e o = true -> BSocks.handle alloc e o = Some (o', ev) -> reported o o' ev.
Proof.
  intros Ha Hok He Eh. pose proof Hok as [Hd Hst]. destruct e as [is_error con_ok|closed| |data]; cbn [BSocks.allowed] in He.
  - apply bool_decide_eq_true in He. destruct (BSocks.connected_ok alloc is_error con_ok o Ha Hok He) as (o1 & ev1 & E & _ & H). rewrite Eh in E.
    injection E as <- <-. destruct (_ && BSocks.is_Some_b _); [|by destruct H as [-> _]]. destruct H as (-> & Hs & _). split; [by rewrite He|by rewrite Hs].
  - cbn [BSocks.handle] in Eh. unfold BSocks.connection_handler in Eh. rewrite He in Eh. cbn [ASSERT mbind option_bind] in Eh.
    destruct (bool_decide (BSocks.state o = BSocks.STATE_UP) && closed) eqn:E; injection Eh as <- <-; [|done].
    apply andb_true_iff in E as [E _]. by apply bool_decide_eq_true in E.
  - apply bool_decide_eq_true in He.
    assert (exists msg size total s, BSocks.sending msg o /\ BSocks.after_sent (BSocks.state o) = Some (size, total, s)) as (msg & size & total & s & Hsnd & Haf).
    { destruct (BSocks.state o).
      1: by destruct Hst as (_ & _ & _ & ?).
      1: by eexists _, _, _, _.
      1: by destruct Hst as (got & _ & ? & _).
      1: destruct Hst as (u & p & _ & ?); by eexists _, _, _, _.
      1: by destruct Hst as (got & _ & ? & _).
      1: by eexists _, _, _, _.
      1: by destruct Hst as (got & _ & ? & _).
      1: by destruct Hst as (k & got & _ & _ & ? & _).
      by destruct Hst as (_ & _ & _ & ?). }
    destruct (BSocks.sent_ok alloc msg o size total s Ha Hd Hsnd Haf) as (o1 & ev1 & E & _ & H). rewrite Eh in E. injection E as <- <-.
    destruct (alloc size); [|by destruct H as [-> _]]. destruct H as (-> & Hs' & _). unfold reported. rewrite Hs'.
    destruct (BSocks.state o); cbn in Haf; try discriminate; injection Haf as _ _ <-; by split.
  - destruct (BSocks.c_recv o) as [[off len]|] eqn:Ec; [|done]. apply andb_true_iff in He as [H1%Z.ltb_lt H2%Z.leb_le].
    destruct (BSocks.ok_receives o Hok) as (dst & total & size & got & Hrec); [by rewrite Ec|].
    assert (Hlen : len = total - zlen got) by (destruct Hrec as [(_ & _ & _ & _ & _ & _ & Hc & _) _]; rewrite Ec in Hc; by injection Hc).
    assert (Hs : BSocks.state o <> BSocks.STATE_UP) by (destruct Hrec as [_ Hrec]; intros E; by rewrite E in Hrec).
    destruct (BSocks.receive_ok alloc o dst total size got data Ha Hd Hrec) as (o1 & ev1 & E & H); [lia|]. rewrite Eh in E. injection E as <- <-.
    destruct (_ <? _); [|by eapply follows_reported]. destruct H as (-> & _ & Hs' & _). split; [done|by rewrite Hs'].
Qed.

(** ** The callbacks keep what holds *)

Section callbacks.
Context (info : list BSocks.auth_info) (a : lwip) (c : nat) (cs : list nat) (n : Z) (Hn : 0 < n).

Lemma live_open cl l d : live info cl l d -> pcb_open l = true -> client_closed cl = false /\ open_side cl l.
Proof. intros (_ & _ & _ & H) Ho. destruct (client_closed cl); [|done]. destruct H as [H _]. congruence. Qed.

Lemma err_good cl l :
  live info cl l None -> pcb_open l = true ->
  wp (upd_link (fun l => set_client_ended true (set_pcb_open false l));; client_err_func a c) (fun _ => good info c None cs n) (mk_view (Some cl) l None cs n).
Proof.
  intros Hl Ho. destruct (live_open _ _ _ Hl Ho) as [Hcl Hop]. destruct Hl as (Hc & Hu & Hd & _). unfold client_err_func. wgo; [by rewrite Hcl|].
  apply freed_good; try done; [destruct Hc; by constructor|by right; left|by left].
Qed.

Lemma receive_stored cl data b :
  zlen (buf cl) = TCP_WND -> store (buf_used cl) data (buf cl) = Some b ->
  zlen b = TCP_WND /\ take (Z.to_nat (buf_used cl + zlen data)) b = take (Z.to_nat (buf_used cl)) (buf cl) ++ data.
Proof. intros H E. destruct (store_inv _ _ _ _ E) as (_ & _ & Hl). split; [congruence|]. by apply store_take. Qed.

(** [wp_send]: [client_send_to_socks] when nothing is outstanding. *)
Lemma wp_send (Q : unit -> view -> Prop) cl l d :
  socks_closed cl = false -> socks_up cl = true -> 0 < buf_used cl -> send_req cl = None ->
  Q tt (mk_view (Some (set_send_req (Some (buf_used cl)) cl)) l d cs n) -> wp client_send_to_socks Q (mk_view (Some cl) l d cs n).
Proof.
  intros H1 H2 H3 H4 HQ. unfold client_send_to_socks, Sender_Send. wgo; try by rewrite ?H1, ?H2. all: try by apply Z.ltb_lt.
  by apply bool_decide_eq_true_2.
Qed.

Lemma recv_good cl l p :
  live info cl l None -> pcb_open l = true -> cb_recv l = true ->
  (forall data, p = Some data -> 0 < zlen data <= rcv_wnd l) ->
  wp (upd_link (fun l => match p with Some data => set_rcv_wnd (rcv_wnd l - zlen data) l | None => set_client_ended true l end);; client_recv_func a p c)
    (fun r v => good info c (Some 0) cs n v /\ forall e, r <> returned e) (mk_view (Some cl) l None cs n).
Proof.
  intros Hl Ho Hr Hp. destruct (live_open _ _ _ Hl Ho) as [Hcl Hop]. destruct Hl as (Hc & Hu & Hd & _). unfold client_recv_func, DEAD_ENTER. wgo; [by rewrite Hcl|].
  pose proof (o_recv _ _ Hop) as Hs. rewrite Hr in Hs. pose proof (o_abort _ _ Hop) as Ha. destruct (socks_closed cl) eqn:Es; [done|]. clear Hs.
  destruct p as [data|].
  - destruct (Hp data eq_refl) as [Hp1 Hp2]. pose proof (o_wnd _ _ Hop Es) as Hw. pose proof (used_range _ _ Hc) as Hur.
    wgo; [by apply Z.ltb_lt|]. rewrite (proj2 (Z.ltb_ge _ _)) by lia. apply cwp_bind.
    destruct (store_some (buf_used cl) data (buf cl)) as (b & Eb & _); [lia|rewrite (buf_size _ _ Hc); lia|].
    destruct (receive_stored cl data b (buf_size _ _ Hc) Eb) as [Hb1 Hb2]. eapply wp_lift; [done|]. wgo.
    unfold upstream in Hu. rewrite Es in Hu. destruct Hu as (Hok & Hau & Hup & Hreq & Hin).
    assert (Hc' : forall r q, (r = true -> socks_recv_buf_used cl = -1) -> common (set_recv_req r (set_send_req q (set_buf_used (buf_used cl + zlen data) (set_buf b (set_dead_aborted true cl)))))
              (set_h_in (h_in l ++ data) (set_rcv_wnd (rcv_wnd l - zlen data) l))).
    { intros r q Hrq. destruct Hc. constructor; fields; try done; [lia|]. by apply prefix_app_r. }
    assert (Hop' : forall q, open_side (set_send_req q (set_buf_used (buf_used cl + zlen data) (set_buf b (set_dead_aborted true cl))))
              (set_h_in (h_in l ++ data) (set_rcv_wnd (rcv_wnd l - zlen data) l))).
    { intros q. destruct Hop. constructor; fields; try done. intros _. lia. }
    assert (Hin' : h_in l ++ data = h_up l ++ take (Z.to_nat (buf_used cl + zlen data)) b) by (by rewrite Hb2, Hin, app_assoc).
    destruct (socks_up cl) eqn:Eu; [destruct (Z.eqb_spec (buf_used cl + zlen data) (zlen data)) as [E0|E0]|]; fields.
    + wgo. apply wp_send; fields; try done; [lia|destruct (send_req cl); [lia|done]|]. wgo. split; [|done]. split; [done|]. fields. split; [|done].
      split; [apply (Hc' (recv_req cl) (Some (buf_used cl + zlen data)) (one_receive _ _ Hc))|]. unfold upstream. fields. rewrite Es, Hcl, Eu. split_and!; first [done|lia|by right|apply Hop'].
    + wgo. split; [|done]. split; [done|]. fields. split; [|done]. split; [apply (Hc' (recv_req cl) (send_req cl) (one_receive _ _ Hc))|].
      unfold upstream. fields. rewrite Es, Hcl, Eu. split_and!; first [done|by right|apply (Hop' (send_req cl))|destruct (send_req cl); lia].
    + rewrite andb_false_r. wgo. split; [|done]. split; [done|]. fields. split; [|done]. split; [apply (Hc' (recv_req cl) (send_req cl) (one_receive _ _ Hc))|].
      unfold upstream. fields. rewrite Es, Hcl, Eu. split_and!; first [done|by right|apply (Hop' (send_req cl))|by destruct Hreq].
  - apply cwp_bind. eapply cwp_mono; [apply free_client_good|]; try done.
    + destruct Hc; by constructor.
    + by right; left.
    + by left.
    + by right.
Qed.

(** The SOCKS connection took some bytes. *)
Lemma sent_job_good cl l d k m :
  live info cl l d -> socks_closed cl = false -> send_req cl = Some m -> 0 < k <= m ->
  wp (sent_job a k c) (fun _ => good info c d cs n) (mk_view (Some cl) l d cs n).
Proof.
  intros (Hc & Hu & Hd & Hside) Es Hreq Hk. unfold upstream in Hu. rewrite Es in Hu. destruct Hu as (Hok & Hau & Hup & Hrq & Hin).
  destruct (socks_up cl) eqn:Eu; [|by destruct Hrq; congruence]. rewrite Hreq in Hrq. pose proof (used_range _ _ Hc) as Hur.
  destruct (load_take (buf_used cl) k (buf cl)) as (rest & E1 & E2 & Hl & Ht); [lia|rewrite (buf_size _ _ Hc); lia|].
  destruct (store_some 0 rest (buf cl)) as (b & Eb & Hb); [lia|rewrite (buf_size _ _ Hc); lia|].
  pose proof (store_take _ _ _ _ Eb) as Hbt. rewrite Z.add_0_l, Hl in Hbt. cbn [Z.to_nat] in Hbt. rewrite take_0 in Hbt. cbn [app] in Hbt.
  unfold sent_job. wgo. eapply wp_lift; [done|]. unfold client_socks_send_handler_done. wgo.
  all: try (by rewrite ?Es, ?Eu). all: try (by apply Z.ltb_lt; lia). all: try (by apply Z.leb_le; lia).
  eapply wp_lift; [done|]. wgo. eapply wp_lift; [done|]. wgo.
  assert (Hc' : forall q l', h_in l' = h_in l -> h_up l' = h_up l ++ take (Z.to_nat k) (buf cl) -> h_down l' = h_down l -> h_out l' = h_out l ->
            pcb_aborted l' = pcb_aborted l -> common (set_send_req q (set_buf_used (buf_used cl - k) (set_buf b cl))) l').
  { intros q l' E0 E E3 E4 E'. destruct Hc. constructor; fields; rewrite ?E0, ?E, ?E3, ?E4, ?E'; try done; [congruence|lia|]. rewrite Hin, Ht.
    exists rest. by rewrite app_assoc. }
  assert (Hup' : forall q l', (match q with Some n => 0 < n <= buf_used cl - k | None => buf_used cl - k = 0 end) -> h_in l' = h_in l ->
            h_up l' = h_up l ++ take (Z.to_nat k) (buf cl) -> upstream info (set_send_req q (set_buf_used (buf_used cl - k) (set_buf b cl))) l').
  { intros q l' Hq E E'. unfold upstream. fields. rewrite Es, Eu, E, E', Hbt, Hin, Ht, app_assoc. split_and!; done. }
  destruct (client_closed cl) eqn:Ecl; fields.
  - destruct Hside as (Ho & _ & Hpos & Hlost). wgo. destruct (Z.ltb_spec 0 (buf_used cl - k)).
    + unfold Sender_Send. wgo; [by apply Z.ltb_lt|]. split; [done|]. fields. split; [|done].
      split_and!; [by apply Hc'|apply Hup'; [lia|done..]|done|]. fields. rewrite Ecl. done.
    + apply free_socks_closed; try done; [by apply BSocks.ok_freeable|by apply Hc'| |by right]. left. fields. rewrite Hin, Ht.
      assert (rest = []) as -> by (apply length_zero_iff_nil; unfold zlen in Hl; lia). by rewrite app_nil_r.
  - unfold tcp_recved. pose proof (o_open _ _ Hside) as Ho. wgo.
    assert (Hop' : forall q, open_side (set_send_req q (set_buf_used (buf_used cl - k) (set_buf b cl)))
              (set_rcv_wnd (rcv_wnd l + k) (set_h_up (h_up l ++ take (Z.to_nat k) (buf cl)) l))).
    { intros q. destruct Hside. constructor; fields; try done. intros E. specialize (o_wnd0 E). lia. }
    destruct (Z.ltb_spec 0 (buf_used cl - k)).
    + unfold Sender_Send. wgo; [by apply Z.ltb_lt|]. split; [done|]. fields. split; [|done].
      split_and!; [by apply Hc'|apply Hup'; [lia|done..]|done|]. fields. rewrite Ecl. apply Hop'.
    + wgo. split; [done|]. fields. split; [|done]. split_and!; [by apply (Hc' None)|apply (Hup' None); [lia|done..]|done|]. fields. rewrite Ecl. apply (Hop' None).
Qed.

Lemma abort_good cl l d :
  client_closed cl = false -> pcb_open l = true -> aborted cl = false -> common cl l -> upstream info cl l -> dead_ok cl d ->
  wp (client_abort_client a c) (fun _ => good info c d cs n) (mk_view (Some cl) l d cs n).
Proof.
  intros H1 Ho Ha Hc Hu Hd. unfold client_abort_client. wgo; [by rewrite H1|]. apply wp_abort; try done. fields.
  eapply cwp_mono; [apply freed_good|]; try done.
  - destruct Hc; by constructor.
  - by right; right.
  - by right.
  - destruct d as [d|]; [by left|done].
  - intros _ v' [Hs Hg]. split; [by rewrite killed_some in Hs|done].
Qed.

(** While the receive buffer is handed to lwIP. *)
Record sending (cl : tcp_client) (l : link) (d : option Z) : Prop := {
  s_common : common cl l;
  s_upstream : upstream info cl l;
  s_dead : dead_ok cl d;
  s_client : client_closed cl = false;
  s_open : pcb_open l = true;
  s_abort : aborted cl = false;
  s_err : cb_err l = true;
  s_recv : cb_recv l = negb (socks_closed cl);
  s_sent : cb_sent l = true;
  s_wnd : socks_closed cl = false -> buf_used cl + rcv_wnd l = TCP_WND;
  s_up : socks_up cl = true;
  s_pending : socks_recv_tcp_pending cl = unacked l;
  s_unacked : 0 <= unacked l;
  s_used : 0 < socks_recv_buf_used cl <= CLIENT_SOCKS_RECV_BUF_SIZE;
  s_pos : 0 <= socks_recv_buf_sent cl <= socks_recv_buf_used cl;
  s_req : recv_req cl = false;
  s_bytes : h_down l = h_out l ++ chunk (socks_recv_buf_sent cl) (socks_recv_buf_used cl) (socks_recv_buf cl) }.

Lemma write_out_good fuel cl l d :
  sending cl l d -> socks_recv_buf_sent cl < socks_recv_buf_used cl ->
  socks_recv_buf_used cl - socks_recv_buf_sent cl <= Z.of_nat fuel ->
  wp (write_out fuel a)
    (fun _ v => exists cl' l', v = mk_view (Some cl') l' d cs n /\ sending cl' l' d /\ socks_recv_waiting cl' = socks_recv_waiting cl /\
       socks_closed cl' = socks_closed cl /\ socks_recv_buf_used cl' = socks_recv_buf_used cl /\
       unacked l' = unacked l + (socks_recv_buf_sent cl' - socks_recv_buf_sent cl)) (mk_view (Some cl) l d cs n).
Proof.
  revert cl l. induction fuel as [|fuel IH]; intros cl l Hs Hlt Hf; [lia|]. cbn [write_out]. wgo.
  set (k := Z.min _ _). destruct (Z.eqb_spec k 0) as [E0|E0].
  { wgo. exists cl, l. split_and!; try done. lia. }
  pose proof (s_pos _ _ _ Hs). pose proof (s_used _ _ _ Hs). pose proof (s_unacked _ _ _ Hs).
  assert (Hk : 0 < k <= socks_recv_buf_used cl - socks_recv_buf_sent cl) by lia. clearbody k.
  destruct (chunk_split (socks_recv_buf_sent cl) (socks_recv_buf_used cl) k (socks_recv_buf cl)) as (data & E & Hl & Hch);
    [lia..|rewrite (recv_buf_size _ _ (s_common _ _ _ Hs)); lia|].
  wgo. eapply wp_lift; [done|]. pose proof (s_open _ _ _ Hs) as Ho. unfold tcp_write. wgo. destruct (decide (a_write a (socks_recv_buf_sent cl) = ERR_OK)) as [Ew|Ew].
  - rewrite (bool_decide_eq_true_2 _ Ew). wgo.
    match goal with |- context [mk_view (Some ?x) ?y d cs n] => set (cl1 := x); set (l1 := y) end.
    assert (Hs1 : sending cl1 l1 d).
    { destruct Hs. constructor; unfold cl1, l1; fields; try done; try lia.
      - destruct s_common0. constructor; fields; try done. exists (chunk (socks_recv_buf_sent cl + k) (socks_recv_buf_used cl) (socks_recv_buf cl)).
        by rewrite s_bytes0, Hch, app_assoc.
      - by rewrite s_bytes0, Hch, app_assoc. }
    destruct (Z.ltb_spec (socks_recv_buf_sent cl + k) (socks_recv_buf_used cl)) as [Hc|Hc].
    + eapply cwp_mono; [apply IH; [done|unfold cl1; fields; lia..]|]. intros r v (cl' & l' & -> & Hs' & R1 & R2 & R3 & R4). exists cl', l'. split; [done|]. split; [done|].
      unfold cl1, l1 in R1, R2, R3, R4. fields. split_and!; try done. rewrite Hl in R4. lia.
    + wgo. exists cl1, l1. unfold cl1, l1. fields. split_and!; try done. rewrite Hl. lia.
  - rewrite (bool_decide_eq_false_2 _ Ew). wgo. exists cl, l. split_and!; try done. lia.
Qed.

(** After the receive buffer was handed over as far as possible. *)
Definition handed (closed : bool) (d : option Z) (v : view) : Prop :=
  exists cl l, v = mk_view (Some cl) l d cs n /\ recv_req cl = false /\ 0 < socks_recv_tcp_pending cl /\ client_closed cl = false /\
    socks_up cl = true /\ socks_closed cl = closed /\
    live info (if (socks_recv_buf_used cl =? -1) && negb closed then set_recv_req true cl else cl) l d.

Lemma sending_handed cl l d :
  sending cl l d -> socks_recv_buf_sent cl < socks_recv_buf_used cl -> socks_recv_tcp_pending cl <> 0 ->
  handed (socks_closed cl) d (mk_view (Some (set_socks_recv_waiting true cl)) l d cs n).
Proof.
  intros Hs Hlt Hp. pose proof (s_pending _ _ _ Hs). pose proof (s_unacked _ _ _ Hs). pose proof (s_used _ _ _ Hs). pose proof (s_pos _ _ _ Hs).
  exists (set_socks_recv_waiting true cl), l. fields. split_and!; try done; try lia; try apply Hs.
  destruct (Z.eqb_spec (socks_recv_buf_used cl) (-1)); [lia|]. fields. destruct Hs. split_and!; try done; [destruct s_common0; by constructor|].
  fields. rewrite s_client0. constructor; fields; try done; [congruence|]. unfold downstream. fields. rewrite s_up0. split_and!; try done. right. split_and!; try done; lia.
Qed.

Lemma sending_done cl l d :
  sending cl l d -> socks_recv_buf_sent cl = socks_recv_buf_used cl -> 0 < unacked l ->
  handed (socks_closed cl) d (mk_view (Some (set_socks_recv_buf_used (-1) cl)) l d cs n).
Proof.
  intros Hs He Hp. pose proof (s_pending _ _ _ Hs). exists (set_socks_recv_buf_used (-1) cl), l. fields. split_and!; try done; try lia; try apply Hs.
  pose proof (s_bytes _ _ _ Hs) as Hb. rewrite He, chunk_none, app_nil_r in Hb. destruct Hs. rewrite Z.eqb_refl. fields.
  destruct (socks_closed cl) eqn:Es; fields.
  all: split_and!; first [done|destruct s_common0; by constructor|by (revert s_upstream0; unfold upstream; fields; rewrite Es, s_up0)|idtac].
  all: fields; rewrite s_client0; constructor; fields; try done; try congruence; try by rewrite Es.
  all: try by (intros _; apply s_wnd0).
  all: unfold downstream; fields; rewrite s_up0, Es; split_and!; try done; left; done.
Qed.

Lemma send_out_good cl l d :
  sending cl l d -> socks_recv_buf_sent cl < socks_recv_buf_used cl -> socks_recv_waiting cl = false ->
  wp (client_socks_recv_send_out a c)
    (fun gone v => if gone : bool then good info c d cs n v else handed (socks_closed cl) d v) (mk_view (Some cl) l d cs n).
Proof.
  intros Hs Hlt Hw. pose proof (s_used _ _ _ Hs). pose proof (s_pos _ _ _ Hs). pose proof (s_unacked _ _ _ Hs). unfold client_socks_recv_send_out. wgo.
  all: try (by rewrite (s_client _ _ _ Hs)). all: try (by apply (s_up _ _ _ Hs)). all: try (by apply Z.ltb_lt; lia). all: try by rewrite Hw.
  eapply cwp_mono; [apply write_out_good; [done|done|lia]|]. intros failed v (cl' & l' & -> & Hs' & H1' & H2' & H3' & H4').
  assert (Hab : forall l1, l1 = l' -> wp (client_abort_client a c;; mret true) (fun gone v => if gone : bool then good info c d cs n v else handed (socks_closed cl) d v) (mk_view (Some cl') l1 d cs n)).
  { intros ? ->. destruct Hs'. apply cwp_bind. eapply cwp_mono; [by apply abort_good|]. intros u v Hv. by apply cwp_ret. }
  destruct failed; [by apply Hab|]. unfold tcp_output. pose proof (s_open _ _ _ Hs') as Ho'. wgo. rewrite bool_decide_not.
  destruct (bool_decide (a_output a = ERR_OK)); fields; [|by apply Hab]. wgo.
  destruct (Z.ltb_spec (socks_recv_buf_sent cl') (socks_recv_buf_used cl')).
  - destruct (Z.eqb_spec (socks_recv_tcp_pending cl') 0); [by apply Hab|]. wgo. rewrite <- H2'. by apply sending_handed.
  - wgo. rewrite <- H2'. pose proof (s_pos _ _ _ Hs'). apply sending_done; [done|lia|unfold id; lia].
Qed.

Lemma wp_initiate (Q : unit -> view -> Prop) cl l d :
  client_closed cl = false -> socks_closed cl = false -> socks_up cl = true -> socks_recv_buf_used cl = -1 -> recv_req cl = false ->
  Q tt (mk_view (Some (set_recv_req true cl)) l d cs n) -> wp client_socks_recv_initiate Q (mk_view (Some cl) l d cs n).
Proof. intros H1 H2 H3 H4 H5 HQ. unfold client_socks_recv_initiate. wgo; by rewrite ?H1, ?H2, ?H4, ?H5. Qed.

Lemma received_job_good cl l d data :
  live info cl l d -> socks_closed cl = false -> recv_req cl = true -> 0 < zlen data <= CLIENT_SOCKS_RECV_BUF_SIZE ->
  wp (received_job a data c) (fun _ => good info c d cs n) (mk_view (Some cl) l d cs n).
Proof.
  intros (Hc & Hu & Hd & Hside) Es Hreq Hlen. pose proof (one_receive _ _ Hc Hreq) as Hused. pose proof Hu as Hu0. unfold upstream in Hu0. rewrite Es in Hu0.
  destruct Hu0 as (_ & _ & _ & Hrq & _). destruct (socks_up cl) eqn:Eu; [|by destruct Hrq; congruence].
  destruct (store_some 0 data (socks_recv_buf cl)) as (b & Eb & Hb); [lia|rewrite (recv_buf_size _ _ Hc); lia|].
  pose proof (store_take _ _ _ _ Eb) as Hbt. rewrite Z.add_0_l in Hbt. cbn [Z.to_nat] in Hbt. rewrite take_0 in Hbt. cbn [app] in Hbt.
  unfold received_job, client_socks_recv_handler_done. wgo. eapply wp_lift; [done|]. wgo.
  all: try (by apply Z.ltb_lt; lia). all: try (by apply Z.leb_le; lia). all: try (by rewrite ?Es, ?Eu, ?Hused).
  assert (Hc' : forall r u w x, (r = true -> u = -1) -> common (set_socks_recv_waiting x (set_socks_recv_buf_sent w (set_socks_recv_buf_used u (set_recv_req r (set_socks_recv_buf b cl)))))
            (set_h_down (h_down l ++ data) l)).
  { intros r u w x Hr. destruct Hc. constructor; fields; try done; [congruence|]. by apply prefix_app_r. }
  assert (Hup' : forall u w x, upstream info (set_socks_recv_waiting x (set_socks_recv_buf_sent w (set_socks_recv_buf_used u (set_recv_req false (set_socks_recv_buf b cl)))))
            (set_h_down (h_down l ++ data) l)).
  { intros u w x. revert Hu. unfold upstream. fields. by rewrite Es, Eu. }
  destruct (client_closed cl) eqn:Ecl.
  - wgo. split; [done|]. fields. split; [|done].
    split_and!; [by apply (Hc' false (socks_recv_buf_used cl) (socks_recv_buf_sent cl) (socks_recv_waiting cl))
                |apply (Hup' (socks_recv_buf_used cl) (socks_recv_buf_sent cl) (socks_recv_waiting cl))|done|]. fields. by rewrite Ecl.
  - wgo. match goal with |- wp (client_socks_recv_send_out _ _) _ (mk_view (Some ?x) ?y _ _ _) => set (cl1 := x); set (l1 := y) end.
    pose proof (o_down _ _ Hside) as Hdn. unfold downstream in Hdn. rewrite Eu, Es in Hdn. destruct Hdn as (Hp & Hnn & [(_ & Heq & _)|(? & _)]); [|lia].
    assert (Hs : sending cl1 l1 d).
    { destruct Hside. constructor; unfold cl1, l1; fields; first [done|lia|by apply Hc'|apply (Hup' (zlen data) 0 false)|congruence|idtac].
      rewrite Heq. f_equal. unfold chunk. cbn [Z.to_nat]. by rewrite drop_0, Z.sub_0_r. }
    eapply cwp_mono; [apply send_out_good; unfold cl1; fields; [done|lia|done]|]. intros [|] v Hv; [by wgo|].
    destruct Hv as (cl2 & l2 & -> & Hr & _ & Hc2 & Hu2 & Hs2 & Hl2). unfold cl1 in Hs2, Hl2. fields. rewrite Es in Hs2, Hl2. wgo.
    destruct (Z.eqb_spec (socks_recv_buf_used cl2) (-1)); fields.
    + by apply wp_initiate.
    + by wgo.
Qed.

Lemma sent_good cl l len :
  live info cl l None -> pcb_open l = true -> cb_sent l = true -> 0 < len <= unacked l ->
  wp (upd_link (fun l => set_unacked (unacked l - len) l);; client_sent_func a len c)
    (fun r v => good info c (Some 0) cs n v /\ forall e, r <> returned e) (mk_view (Some cl) l None cs n).
Proof.
  intros Hl Ho Hcb Hlen. destruct (live_open _ _ _ Hl Ho) as [Hcl Hop]. destruct Hl as (Hc & Hu & Hd & _). pose proof (o_sent _ _ Hop) as Hup. rewrite Hcb in Hup. symmetry in Hup.
  pose proof (o_down _ _ Hop) as Hdn. unfold downstream in Hdn. rewrite Hup in Hdn. destruct Hdn as (Hp & Hnn & Hdn). pose proof (o_abort _ _ Hop) as Hab.
  unfold client_sent_func, DEAD_ENTER. wgo. all: try (by rewrite Hcl). all: try (by apply Z.ltb_lt; lia). all: try (by apply Z.leb_le; lia).
  destruct Hdn as [(Hused & Heq & Hmore)|(Hused & Hsent & Hw & Hun & Hreq & Hbytes)].
  - rewrite Hused. change (0 <? -1) with false. cbn iota. destruct (socks_closed cl && (socks_recv_tcp_pending cl - len =? 0)) eqn:Ec.
    + apply andb_true_iff in Ec as [Es E0%Z.eqb_eq]. apply cwp_bind. eapply cwp_mono; [apply free_client_good|]; try done.
      * destruct Hc; by constructor.
      * left. fields. split; [done|lia].
      * fields. by rewrite Es.
      * by right.
    + wgo. split; [|done]. split; [done|]. fields. split; [|done]. split_and!; [destruct Hc; by constructor|done|by right|]. fields. rewrite Hcl.
      destruct Hop. constructor; fields; try done. unfold downstream. fields. rewrite Hup. split_and!; [lia..|]. left. split_and!; try done.
      destruct (socks_closed cl); [|done]. cbn [andb] in Ec. apply Z.eqb_neq in Ec. lia.
  - rewrite (proj2 (Z.ltb_lt 0 (socks_recv_buf_used cl))) by lia. wgo. all: try (by apply Z.ltb_lt; lia).
    match goal with |- wp (client_socks_recv_send_out _ _) _ (mk_view (Some ?x) ?y _ _ _) => set (cl1 := x); set (l1 := y) end.
    assert (Hs : sending cl1 l1 (Some 0)).
    { destruct Hop. constructor; unfold cl1, l1; fields; first [done|lia|destruct Hc; by constructor|by right]. }
    eapply cwp_mono; [apply send_out_good; unfold cl1; fields; [done|lia|done]|]. intros [|] v Hv; [by wgo|].
    destruct Hv as (cl2 & l2 & -> & Hr & Hp2 & Hc2 & Hu2 & Hs2 & Hl2). unfold cl1 in Hs2, Hl2. fields. wgo. all: try by apply Z.ltb_lt. rewrite Hs2.
    destruct ((socks_recv_buf_used cl2 =? -1) && negb (socks_closed cl)) eqn:E.
    + apply andb_true_iff in E as [E1%Z.eqb_eq E2%negb_true_iff]. apply cwp_bind. apply wp_initiate; first [done|congruence|by wgo].
    + by wgo.
Qed.

(** Events of the SOCKS client. *)
Lemma up_good cl l d o :
  live info cl l d -> socks_closed cl = false -> socks_up cl = false -> BSocks.client_ok o -> BSocks.auths o = info -> BSocks.state o = BSocks.STATE_UP ->
  wp (client_socks_handler a BSocks.EVENT_UP c) (fun _ => good info c d cs n) (mk_view (Some (set_socks_client o cl)) l d cs n).
Proof.
  intros (Hc & Hu & Hd & Hside) Es Eu Hok Hau Hst. unfold upstream in Hu. rewrite Es, Eu in Hu. destruct Hu as (_ & _ & _ & [Hq Hr] & Hin).
  unfold client_socks_handler. wgo. all: try (by rewrite ?Es, ?Eu).
  set (cl1 := set_socks_up true (set_socks_recv_tcp_pending 0 (set_socks_recv_buf_used (-1) (set_send_req None (set_recv_req false (set_socks_client o cl)))))).
  assert (Hc' : forall q r l', h_in l' = h_in l -> h_up l' = h_up l -> h_down l' = h_down l -> h_out l' = h_out l -> pcb_aborted l' = pcb_aborted l ->
            common (set_recv_req r (set_send_req q cl1)) l').
  { intros q r l' E1 E2 E3 E4 E5. destruct Hc. constructor; unfold cl1; fields; rewrite ?E1, ?E2, ?E3, ?E4, ?E5; done. }
  assert (Hup' : forall q r l', h_in l' = h_in l -> h_up l' = h_up l -> (match q with Some k => 0 < k <= buf_used cl | None => buf_used cl = 0 end) ->
            upstream info (set_recv_req r (set_send_req q cl1)) l').
  { intros q r l' E1 E2 Hqq. unfold upstream, cl1. fields. rewrite Es, E1, E2. by split_and!. }
  pose proof (used_range _ _ Hc) as Hur. destruct (client_closed cl) eqn:Ecl; fields.
  - destruct Hside as (Ho & _ & Hpos & Hlost). wgo. rewrite (proj2 (Z.ltb_lt 0 (buf_used cl))) by done. apply wp_send; fields; try done. wgo.
    split; [done|]. fields. split; [|done]. split_and!; [by apply (Hc' (Some (buf_used cl)) false)|by apply (Hup' (Some (buf_used cl)) false)|done|].
    unfold cl1. fields. by rewrite Ecl.
  - unfold tcp_sent. pose proof (o_open _ _ Hside) as Ho. wgo. fold cl1. pose proof (o_down _ _ Hside) as Hdn. unfold downstream in Hdn. rewrite Eu in Hdn.
    assert (Hop' : forall q, open_side (set_recv_req true (set_send_req q cl1)) (set_cb_sent true l)).
    { intros q. destruct Hside. constructor; unfold cl1; fields; try done. unfold downstream. fields. destruct Hdn as (_ & E1 & E2 & E3).
      rewrite E1, Es. split_and!; try done. left. by rewrite E2, E3. }
    destruct (Z.ltb_spec 0 (buf_used cl)).
    + apply wp_send; unfold cl1; fields; try done. apply wp_initiate; fields; try done. split; [done|]. fields. split; [|done].
      split_and!; [by apply (Hc' (Some (buf_used cl)) true)|by apply (Hup' (Some (buf_used cl)) true)|done|]. fields. rewrite Ecl. apply (Hop' (Some (buf_used cl))).
    + wgo. apply wp_initiate; unfold cl1; fields; try done. split; [done|]. fields. split; [|done].
      split_and!; [by apply (Hc' None true)|apply (Hup' None true); [done|done|lia]|done|]. fields. rewrite Ecl. apply (Hop' None).
Qed.

Lemma socks_job_good cl l d alloc e :
  live info cl l d -> socks_closed cl = false -> BSocks.allocates alloc -> BSocks.allowed e (socks_client cl) = true ->
  wp (socks_job info alloc a e c) (fun _ => good info c d cs n) (mk_view (Some cl) l d cs n).
Proof.
  intros Hl Es Ha He. pose proof Hl as (Hc & Hu & Hd & Hside). pose proof Hu as Hu0. unfold upstream in Hu0. rewrite Es in Hu0.
  destruct Hu0 as (Hok & Hau & Hup & Hrq & Hin). destruct (BSocks.handle_ok alloc e (socks_client cl) Ha Hok He) as (o & ev & E & [Ht1 Ht2] & Haf).
  pose proof (handle_reports _ _ _ _ _ Ha Hok He E) as Hrep. unfold socks_job. wgo.
  assert (Eo : BSocks.mk_client info (BSocks.dest (socks_client cl)) (BSocks.state (socks_client cl)) (BSocks.cbuffer (socks_client cl))
     (BSocks.recv_dest (socks_client cl)) (BSocks.recv_len (socks_client cl)) (BSocks.recv_total (socks_client cl)) (BSocks.res (socks_client cl))
     (BSocks.c_recv (socks_client cl)) (BSocks.c_send (socks_client cl)) = socks_client cl) by (rewrite <- Hau; by destruct (socks_client cl)).
  rewrite Eo. eapply wp_lift; [done|]. cbn [fst snd]. wgo.
  assert (Herr : forall ev', (ev' = BSocks.EVENT_ERROR \/ ev' = BSocks.EVENT_ERROR_CLOSED /\ socks_up cl = true) -> BSocks.freeable o ->
            wp (client_socks_handler a ev' c) (fun _ => good info c d cs n) (mk_view (Some (set_socks_client o cl)) (set_socks_ended true l) d cs n)).
  { intros ev' Hev Hf.
    assert (wp (client_free_socks FUEL a c) (fun _ => good info c d cs n) (mk_view (Some (set_socks_client o cl)) (set_socks_ended true l) d cs n)).
    { destruct (client_closed cl) eqn:Ecl.
      - destruct Hside as (Ho & _ & _ & Hlost). apply free_socks_closed; try done; [destruct Hc; by constructor|by right|by right].
      - apply free_socks_good; try done; [destruct Hc; by constructor|]. destruct Hside. by constructor. }
    unfold client_socks_handler. wgo; [by rewrite Es|]. destruct Hev as [->|[-> Hup1]]; [done|]. wgo. }
  destruct ev as [[]|].
  - wgo. apply Herr; [by left|done].
  - wgo. apply up_good; try done; [|congruence|apply Hrep]. destruct (socks_up cl); [|done]. destruct Hrep as [Hn1 _]. by destruct Hn1; apply Hup.
  - wgo. apply Herr; [right; split; [done|by apply Hup]|done].
  - wgo. split; [done|]. fields. split; [|done]. destruct Hrep as [Hs1 Hs2]. split_and!; [destruct Hc; by constructor| |done|].
    + unfold upstream. fields. rewrite Es. split_and!; try done; [congruence|]. destruct (socks_up cl); [destruct Hs1; by apply Hup|done].
    + fields. destruct (client_closed cl); [done|]. destruct Hside. by constructor.
Qed.

(** Returning from a callback. *)
Lemma leave_good cl l d :
  live info cl l (Some d) ->
  wp leave (fun e v => (e = ERR_ABRT <-> pcb_aborted (v_link v) = true) /\ e <> ERR_MEM /\ v_link v = l /\ good info c None cs n v) (mk_view (Some cl) l (Some d) cs n).
Proof.
  intros (Hc & Hu & Hd & Hside). unfold leave. apply cwp_bind. unfold wp at 1, close_dead. cbn [v_dead]. pose proof (same_abort _ _ Hc) as Hab.
  destruct Hd as [[Ha ->]|(Ha & -> & Hp)]; rewrite Ha in Hab; unfold set_v_dead; fields; cbn [Z.eqb Z.ltb Z.compare].
  - wgo. split; [done|]. split; [done|]. split; [done|]. split; [done|]. fields. split; [|done]. split_and!; try done. by intros _.
  - wgo. split; [by rewrite <- Hab|]. split; [done|]. split; [done|]. split; [done|]. fields. split; [|done].
    split_and!; [destruct Hc; by constructor|done|done|]. fields. destruct (client_closed cl); [done|]. destruct Hside. by constructor.
Qed.

Lemma murder_ok cl l :
  live info cl l None ->
  wp (client_murder c) (fun _ v => v_self v = None /\ pcb_open (v_link v) = false /\ v_clients v = filter (fun x => x <> c) cs /\ v_num v = n - 1 /\ v_dead v = None)
    (mk_view (Some cl) l None cs n).
Proof.
  intros (Hc & Hu & Hd & Hside). unfold client_murder. wgo.
  assert (Hsocks : forall cl1 l1, client_closed cl1 = true -> socks_closed cl1 = socks_closed cl -> socks_client cl1 = socks_client cl -> dead_ok cl1 None -> pcb_open l1 = false ->
            wp (if negb (socks_closed cl) then BSocksClient_Free;; modify (set_socks_closed true) else mret tt)
              (fun _ => wp (client_dealloc c) (fun _ v => v_self v = None /\ pcb_open (v_link v) = false /\
                                                v_clients v = filter (fun x => x <> c) cs /\ v_num v = n - 1 /\ v_dead v = None))
              (mk_view (Some cl1) l1 None cs n)).
  { intros cl1 l1 E1 E2 E3 Hd1 Ho1. unfold upstream in Hu. destruct (socks_closed cl) eqn:Es; fields.
    - wgo. by apply wp_dealloc.
    - destruct Hu as (Hok & _). apply cwp_bind. apply wp_socks_free; [rewrite E3; by apply BSocks.ok_freeable|]. intros o. wgo. by apply wp_dealloc. }
  destruct (client_closed cl) eqn:Ecl; fields.
  - wgo. destruct Hside as (Ho & _). by apply Hsocks.
  - pose proof (o_open _ _ Hside) as Ho. pose proof (o_abort _ _ Hside) as Ha. wgo. apply wp_abort; try done. wgo. by apply Hsocks.
Qed.

End callbacks.

(** ** All clients together *)

Record tun_ok (g : tun) : Prop := {
  t_nodup : NoDup (tcp_clients g);
  t_heap : forall c, c ∈ tcp_clients g <-> is_Some (heap g !! c);
  t_num : num_clients g = zlen (tcp_clients g);
  t_live : forall c cl, heap g !! c = Some cl -> exists l, links g !! c = Some l /\ live (socks_auth_info g) cl l (dead_of c (frame g));
  t_gone : forall c l, heap g !! c = None -> links g !! c = Some l ->
             gone l /\ forall d, dead_of c (frame g) = Some d -> d = if pcb_aborted l then 1 else -1;
  t_frame : forall f, frame g = Some f -> is_Some (links g !! f_client f) }.

Lemma tun_pos g c cl : tun_ok g -> heap g !! c = Some cl -> 0 < num_clients g.
Proof.
  intros Hg Hc. rewrite (t_num _ Hg). assert (Hin : c ∈ tcp_clients g) by (apply (t_heap _ Hg); by eexists).
  destruct (tcp_clients g); [by apply elem_of_nil in Hin|]. unfold zlen. cbn. lia.
Qed.

Lemma filter_len (l : list nat) c : NoDup l -> c ∈ l -> zlen (filter (fun x => x <> c) l) = zlen l - 1.
Proof.
  induction l as [|x l IH]; intros Hnd Hin; [by apply elem_of_nil in Hin|]. apply NoDup_cons in Hnd as [Hx Hnd]. rewrite filter_cons. destruct (decide (x <> c)) as [Hne|He].
  - rewrite !zlen_cons. rewrite IH; [lia|done|]. apply elem_of_cons in Hin as [->|?]; [done|done].
  - assert (x = c) as -> by (destruct (decide (x = c)); [done|by destruct He]). rewrite zlen_cons.
    assert (filter (fun y => y <> c) l = l) as ->; [|lia]. clear IH Hin He Hnd. induction l as [|y l IH]; [done|]. rewrite filter_cons_True; [by rewrite IH; [|set_solver]|set_solver].
Qed.

(** A callback of [c] may run with a variable [d0] when no other client's callback is open. *)
Definition may_run (c : nat) (d0 : option Z) (g : tun) : Prop :=
  match d0 with Some _ => frame g = None \/ is_Some (dead_of c (frame g)) | None => True end.

Lemma dead_of_other c c' f : c' <> c -> is_Some (dead_of c f) -> dead_of c' f = None.
Proof. unfold dead_of. destruct f as [f|]; [|by intros _ [? ?]]. destruct (decide (f_client f = c)); [|by intros _ [? ?]]. intros. by rewrite decide_False by congruence. Qed.

Definition frame_after (c : nat) (d : option Z) (f : option callback) : option callback :=
  match d with Some d => Some (mk_callback c d (sync_of f)) | None => match dead_of c f with Some _ => None | None => f end end.

Lemma dead_of_same c d f : dead_of c (frame_after c d f) = d.
Proof.
  destruct d as [d|]; cbn; [by rewrite decide_True|]. destruct (dead_of c f) eqn:E; [done|done].
Qed.

Lemma dead_of_kept c c' d f : c' <> c -> (is_Some d -> f = None \/ is_Some (dead_of c f)) -> dead_of c' (frame_after c d f) = dead_of c' f.
Proof.
  intros Hne Hd. destruct d as [d|]; cbn.
  - rewrite decide_False by done. destruct (Hd ltac:(by eexists)) as [->|Hs]; [done|]. symmetry. by eapply dead_of_other.
  - destruct (dead_of c f) eqn:E; [|done]. symmetry. eapply dead_of_other; [done|by rewrite E].
Qed.

Lemma put_ok g c l v d0 :
  tun_ok g -> is_Some (heap g !! c) -> links g !! c = Some l -> may_run c d0 g ->
  good (socks_auth_info g) c d0 (tcp_clients g) (num_clients g) v -> tun_ok (put_view c v g).
Proof.
  intros Hg Hc Hl Hm [Hd Hv]. assert (Hm' : is_Some (v_dead v) -> frame g = None \/ is_Some (dead_of c (frame g))).
  { intros Hs. apply Hd in Hs as [d ->]. exact Hm. }
  assert (Hin : c ∈ tcp_clients g) by (by apply (t_heap _ Hg)).
  unfold put_view. fold (frame_after c (v_dead v) (frame g)). destruct v as [x lk d cs n]. fields. destruct x as [cl|].
  - destruct Hv as (Hlive & -> & ->). constructor; cbn [heap links tcp_clients num_clients frame socks_auth_info].
    + apply Hg.
    + intros c'. rewrite (t_heap _ Hg). destruct (decide (c' = c)) as [->|Hne]; [by rewrite lookup_insert_eq; split; [eexists|]|by rewrite lookup_insert_ne].
    + apply Hg.
    + intros c' cl' H'. destruct (decide (c' = c)) as [->|Hne].
      * rewrite lookup_insert_eq in H'. injection H' as <-. exists lk. rewrite lookup_insert_eq, dead_of_same. done.
      * rewrite lookup_insert_ne in H' by done. rewrite lookup_insert_ne, dead_of_kept by done. by apply (t_live _ Hg).
    + intros c' l' H1 H2. destruct (decide (c' = c)) as [->|Hne]; [by rewrite lookup_insert_eq in H1|].
      rewrite lookup_insert_ne in H1 by done. rewrite lookup_insert_ne in H2 by done. rewrite dead_of_kept by done. by apply (t_gone _ Hg).
    + intros f Hf. destruct (decide (f_client f = c)) as [->|Hne]; [rewrite lookup_insert_eq; by eexists|]. rewrite lookup_insert_ne by done.
      destruct d as [d|]; cbn in Hf; [by injection Hf as <-|]. destruct (dead_of c (frame g)); [done|]. by apply (t_frame _ Hg).
  - destruct Hv as (Hgone & -> & -> & Hdv). constructor; cbn [heap links tcp_clients num_clients frame socks_auth_info].
    + apply NoDup_filter, Hg.
    + intros c'. rewrite list_elem_of_filter, (t_heap _ Hg). destruct (decide (c' = c)) as [->|Hne]; [rewrite lookup_delete_eq|rewrite lookup_delete_ne by done].
      * split; [by intros [? _]|by intros [? ?]].
      * by split; [intros [_ ?]|].
    + rewrite (t_num _ Hg), filter_len; [done|apply Hg|done].
    + intros c' cl' H'. destruct (decide (c' = c)) as [->|Hne]; [by rewrite lookup_delete_eq in H'|]. rewrite lookup_delete_ne in H' by done.
      rewrite lookup_insert_ne, dead_of_kept by done. by apply (t_live _ Hg).
    + intros c' l' H1 H2. destruct (decide (c' = c)) as [->|Hne].
      * rewrite lookup_insert_eq in H2. injection H2 as <-. rewrite dead_of_same. split; [done|]. exact Hdv.
      * rewrite lookup_delete_ne in H1 by done. rewrite lookup_insert_ne in H2 by done. rewrite dead_of_kept by done. by apply (t_gone _ Hg).
    + intros f Hf. destruct (decide (f_client f = c)) as [->|Hne]; [rewrite lookup_insert_eq; by eexists|]. rewrite lookup_insert_ne by done.
      destruct d as [d|]; cbn in Hf; [by injection Hf as <-|]. destruct (dead_of c (frame g)); [done|]. by apply (t_frame _ Hg).
Qed.

Lemma run_good {A} g c cl l d0 (m : M A) (P : A -> view -> Prop) :
  tun_ok g -> heap g !! c = Some cl -> links g !! c = Some l -> may_run c d0 g ->
  wp m (fun x v => good (socks_auth_info g) c d0 (tcp_clients g) (num_clients g) v /\ P x v)
    (mk_view (Some cl) l (dead_of c (frame g)) (tcp_clients g) (num_clients g)) ->
  exists x v, run c m g = Some (x, put_view c v g) /\ tun_ok (put_view c v g) /\ P x v.
Proof.
  intros Hg Hc Hl Hm. unfold wp, run, view_of. rewrite Hl, Hc. cbn [mbind option_bind]. destruct (m _) as [[x v]|]; [|done]. intros [Hv HP].
  exists x, v. split; [done|]. split; [|done]. eapply put_ok; try done; by eexists.
Qed.

Lemma run_quiet g c cl l (m : M unit) :
  tun_ok g -> heap g !! c = Some cl -> links g !! c = Some l ->
  wp m (fun _ => good (socks_auth_info g) c (dead_of c (frame g)) (tcp_clients g) (num_clients g))
    (mk_view (Some cl) l (dead_of c (frame g)) (tcp_clients g) (num_clients g)) ->
  exists g', ('(_, g') ← run c m g; Some (g', None)) = Some (g', @None err_t) /\ tun_ok g'.
Proof.
  intros Hg Hc Hl Hm. destruct (run_good g c cl l (dead_of c (frame g)) m (fun _ _ => True) Hg Hc Hl) as (x & v & E & Hok & _).
  - unfold may_run. destruct (dead_of c (frame g)); [by right; eexists|done].
  - eapply cwp_mono; [done|]. by intros.
  - exists (put_view c v g). by rewrite E.
Qed.

(** [DEAD_LEAVE2] at the end of the open callback. *)
Lemma run_leave g f :
  tun_ok g -> frame g = Some f ->
  exists x g' l, run (f_client f) leave g = Some (x, g') /\ tun_ok g' /\ frame g' = None /\ links g' !! f_client f = Some l /\
    (x = ERR_ABRT <-> pcb_aborted l = true) /\ x <> ERR_MEM.
Proof.
  intros Hg Hf. destruct (t_frame _ Hg f Hf) as [l Hl]. set (c := f_client f) in *.
  assert (Hd : dead_of c (frame g) = Some (f_dead f)) by (rewrite Hf; cbn; by rewrite decide_True).
  destruct (heap g !! c) as [cl|] eqn:Hc.
  - destruct (t_live _ Hg c cl Hc) as (l1 & Hl1 & Hlive). rewrite Hd in Hlive. assert (l1 = l) as -> by congruence.
    destruct (run_good g c cl l None leave (fun x v => (x = ERR_ABRT <-> pcb_aborted l = true) /\ x <> ERR_MEM /\ v_link v = l /\ v_dead v = None) Hg Hc Hl) as (x & v & E & Hok & H1 & H2 & H3 & H4).
    + done.
    + rewrite Hd. eapply cwp_mono; [by apply leave_good|]. intros x v (H1 & H2 & H3 & H4). split; [done|]. rewrite H3 in H1. split_and!; try done.
      destruct H4 as [[H4 _] _]. destruct (v_dead v); [|done]. by destruct (H4 ltac:(by eexists)).
    + exists x, (put_view c v g), l. split_and!; try done.
      * unfold put_view. cbn [frame]. by rewrite H4, Hd.
      * unfold put_view. cbn [links]. by rewrite lookup_insert_eq, H3.
  - destruct (t_gone _ Hg c l Hc Hl) as [Hgone Hdv]. specialize (Hdv _ Hd).
    exists (if 0 <? f_dead f then ERR_ABRT else ERR_OK), (put_view c (mk_view None l None (tcp_clients g) (num_clients g)) g), l.
    assert (E : put_view c (mk_view None l None (tcp_clients g) (num_clients g)) g = set_frame None g).
    { unfold put_view, set_frame. cbn [v_self v_link v_clients v_num v_dead]. rewrite Hd, delete_id, insert_id by done. done. }
    split_and!.
    + unfold run, view_of. rewrite Hl, Hc, Hd. cbn [mbind option_bind]. unfold leave, mbind, M_bind, close_dead. cbn [v_dead]. rewrite Hdv.
      destruct (pcb_aborted l); reflexivity.
    + rewrite E. destruct Hg. constructor; cbn [set_frame heap links tcp_clients num_clients frame socks_auth_info]; try done.
      * intros c' cl' H'. destruct (decide (c' = c)) as [->|Hne]; [congruence|]. destruct (t_live0 c' cl' H') as (l' & ? & H1). exists l'. split; [done|].
        rewrite (dead_of_other c c' (frame g)) in H1; [done|done|by rewrite Hd].
      * intros c' l' H1 H2. split; [|done]. by apply (t_gone0 c').
    + by rewrite E.
    + by rewrite E.
    + rewrite Hdv. by destruct (pcb_aborted l).
    + rewrite Hdv. by destruct (pcb_aborted l).
Qed.

(** What a callback left to do, for the callback of [c]. *)
Lemma callback_finish_ok g c x f :
  tun_ok g -> frame g = Some f -> f_client f = c -> (forall e, x <> returned e) ->
  exists g' r, finish c (x, g) = Some (g', r) /\ tun_ok g' /\
    forall e, r = Some e -> e <> ERR_MEM /\ exists l, links g' !! c = Some l /\ (e = ERR_ABRT <-> pcb_aborted l = true).
Proof.
  intros Hg Hf <- Hx. destruct x as [e| |]; [by destruct (Hx e)| |].
  - eexists _, None. split; [done|]. split; [|done]. rewrite Hf. cbn [option_map].
    assert (E : forall c', dead_of c' (Some (mk_callback (f_client f) (f_dead f) true)) = dead_of c' (frame g)) by (by rewrite Hf).
    destruct Hg. constructor; cbn [set_frame heap links tcp_clients num_clients frame socks_auth_info]; try done.
    + intros c' cl' H'. rewrite E. by apply t_live0.
    + intros c' l' H1 H2. rewrite E. by apply t_gone0.
    + intros f' [= <-]. by apply (t_frame0 f).
  - destruct (run_leave g f Hg Hf) as (e & g' & l & E & Hok & _ & Hl & H1 & H2). exists g', (Some e). unfold finish. rewrite E. split; [done|]. split; [done|].
    intros e' [= <-]. split; [done|]. by exists l.
Qed.

Lemma frame_put c v g d : v_dead v = Some d -> exists f, frame (put_view c v g) = Some f /\ f_client f = c.
Proof. intros E. unfold put_view. cbn [frame]. rewrite E. by eexists. Qed.

(** A callback of lwIP, entered with [DEAD_ENTER]. *)
Lemma callback_ok g c cl l (m : M progress) :
  tun_ok g -> heap g !! c = Some cl -> links g !! c = Some l -> frame g = None ->
  wp m (fun r v => good (socks_auth_info g) c (Some 0) (tcp_clients g) (num_clients g) v /\ forall e, r <> returned e)
    (mk_view (Some cl) l None (tcp_clients g) (num_clients g)) ->
  exists g' r, (x ← run c m g; finish c x) = Some (g', r) /\ tun_ok g' /\
    forall e, r = Some e -> e <> ERR_MEM /\ exists l, links g' !! c = Some l /\ (e = ERR_ABRT <-> pcb_aborted l = true).
Proof.
  intros Hg Hc Hl Hf Hm.
  destruct (run_good g c cl l (Some 0) m (fun x v => (forall e, x <> returned e) /\ is_Some (v_dead v)) Hg Hc Hl) as (x & v & E & Hok & Hx & [d Hd]).
  - by left.
  - rewrite Hf. cbn [dead_of]. eapply cwp_mono; [done|]. intros x v [Hv Hx]. split; [done|]. split; [done|]. apply Hv. by eexists.
  - rewrite E. cbn [mbind option_bind]. destruct (frame_put c v g d Hd) as (f & Hf' & Hfc). by eapply callback_finish_ok.
Qed.

Lemma accept_ok g c mem is_v6 ip port username connector_ok :
  tun_ok g -> allowed (ev_accept c mem is_v6 ip port false username connector_ok) g = true ->
  exists g' r, step (ev_accept c mem is_v6 ip port false username connector_ok) g = Some (g', r) /\ tun_ok g'.
Proof.
  intros Hg He. cbn [step]. unfold listener_accept_func. destruct mem as [mem|]; [|by eexists _, _].
  assert (Ew : match socks_auth_info g with
               | [none; BSocks.auth_password _ _] => Some g
               | _ => Some g
               end = Some g) by (by repeat case_match).
  cbv zeta. rewrite Ew. clear Ew. unfold BSocks.BSocksClient_Init. destruct connector_ok; [|by eexists _, _].
  rewrite (proj2 (Z.leb_le 0 (num_clients g))) by (rewrite (t_num _ Hg); apply zlen_nonneg). eexists _, _. split; [done|].
  cbn [allowed] in He. rewrite !andb_true_iff, !Z.eqb_eq in He. destruct He as (((Hf & Hl) & Hip) & Hb1 & Hb2). apply bool_decide_eq_true in Hl.
  assert (Hfr : frame g = None) by (unfold no_callback in Hf; by destruct (frame g)).
  assert (Hh : heap g !! c = None) by (destruct (heap g !! c) as [cl|] eqn:E; [destruct (t_live _ Hg c cl E) as (l & ? & _); congruence|done]).
  assert (Hother : forall c', c' <> c -> dead_of c' (Some (mk_callback c 0 true)) = dead_of c' (frame g)) by (intros c' Hne; rewrite Hfr; cbn; by rewrite decide_False).
  constructor; cbn [heap links tcp_clients num_clients frame socks_auth_info].
  - apply NoDup_app. split_and!; [apply Hg| |by apply NoDup_singleton]. intros x Hx ->%list_elem_of_singleton. apply (t_heap _ Hg) in Hx. rewrite Hh in Hx. by destruct Hx.
  - intros c'. rewrite elem_of_app, list_elem_of_singleton, (t_heap _ Hg). destruct (decide (c' = c)) as [->|Hne].
    + rewrite lookup_insert_eq. split; [by eexists|by right].
    + rewrite lookup_insert_ne by done. split; [by intros [?|?]|by left].
  - rewrite zlen_app, (t_num _ Hg). done.
  - intros c' cl' H'. destruct (decide (c' = c)) as [->|Hne].
    + rewrite lookup_insert_eq in H'. injection H' as <-. exists fresh_link. rewrite lookup_insert_eq. split; [done|]. cbn [dead_of f_client f_dead]. rewrite decide_True by done.
      split_and!; [constructor; fields; try done; unfold TCP_WND; lia| |by right|by constructor].
      unfold upstream. fields. split_and!; try done. apply BSocks.client_init_ok. unfold baddr_from_lwip, BSocks.dest_ok. by destruct is_v6.
    + rewrite lookup_insert_ne in H' by done. rewrite lookup_insert_ne, Hother by done. by apply (t_live _ Hg).
  - intros c' l' H1 H2. destruct (decide (c' = c)) as [->|Hne]; [by rewrite lookup_insert_eq in H1|].
    rewrite lookup_insert_ne in H1 by done. rewrite lookup_insert_ne in H2 by done. rewrite Hother by done. by apply (t_gone _ Hg).
  - intros f [= <-]. cbn [f_client]. rewrite lookup_insert_eq. by eexists.
Qed.

(** The client and what is outside of it, for an event that is allowed. *)
Lemma link_client g c p : tun_ok g -> of_link c g p = true -> no_callback g = true ->
  frame g = None /\ exists cl l, heap g !! c = Some cl /\ links g !! c = Some l /\ live (socks_auth_info g) cl l None /\ pcb_open l = true /\ p l = true.
Proof.
  intros Hg Hp Hf. assert (Hfr : frame g = None) by (unfold no_callback in Hf; by destruct (frame g)). split; [done|].
  unfold of_link in Hp. destruct (links g !! c) as [l|] eqn:Hl; [|done]. apply andb_true_iff in Hp as [Ho Hp].
  destruct (heap g !! c) as [cl|] eqn:Hc.
  - destruct (t_live _ Hg c cl Hc) as (l1 & Hl1 & Hlive). assert (l1 = l) as -> by congruence. rewrite Hfr in Hlive. by exists cl, l.
  - destruct (t_gone _ Hg c l Hc Hl) as [[H _] _]. congruence.
Qed.

Lemma client_link g c p : tun_ok g -> of_client c g p = true ->
  exists cl l, heap g !! c = Some cl /\ links g !! c = Some l /\ live (socks_auth_info g) cl l (dead_of c (frame g)) /\ socks_closed cl = false /\ p cl = true.
Proof.
  intros Hg Hp. unfold of_client in Hp. destruct (heap g !! c) as [cl|] eqn:Hc; [|done]. apply andb_true_iff in Hp as [Hs%negb_true_iff Hp].
  destruct (t_live _ Hg c cl Hc) as (l & Hl & Hlive). by exists cl, l.
Qed.

(** The connection whose callback returns with an event. *)
Definition returns (e : event) (g : tun) : option nat :=
  match e with
  | ev_recv c _ _ | ev_sent c _ _ => Some c
  | ev_return => match frame g with Some f => Some (f_client f) | None => None end
  | _ => None
  end.

Lemma tun_step_ok g e :
  tun_ok g -> allowed e g = true -> proper e ->
  exists g' r, step e g = Some (g', r) /\ tun_ok g' /\
    forall c x, returns e g = Some c -> r = Some x -> x <> ERR_MEM /\ exists l, links g' !! c = Some l /\ (x = ERR_ABRT <-> pcb_aborted l = true).
Proof.
  intros Hg He Hp. destruct e as [c mem is_v6 ip port append username connector_ok|c a|c p a|c len a| |c e alloc a|c k a|c data a]; cbn [allowed proper returns] in He, Hp |- *.
  - subst append. destruct (accept_ok g c mem is_v6 ip port username connector_ok Hg He) as (g' & r & E & Hok). by exists g', r.
  - apply andb_true_iff in He as [Hf He]. destruct (link_client g c _ Hg He Hf) as (Hfr & cl & l & Hc & Hl & Hlive & Ho & Hcb). cbn [step].
    destruct (run_quiet g c cl l (upd_link (fun l => set_client_ended true (set_pcb_open false l));; client_err_func a c) Hg Hc Hl) as (g' & E & Hok).
    + rewrite Hfr. apply err_good; [by eapply tun_pos|done|done].
    + exists g', None. by rewrite E.
  - apply andb_true_iff in He as [Hf He]. destruct (link_client g c _ Hg He Hf) as (Hfr & cl & l & Hc & Hl & Hlive & Ho & Hcb). cbn beta in Hcb.
    apply andb_true_iff in Hcb as [Hcb Hlen]. cbn [step].
    edestruct (callback_ok g c cl l) as (g' & r & E & Hok & Hret); [done..| |exists g', r; split; [exact E|split; [done|intros c' x [= <-]; apply Hret]]].
    apply recv_good; try done; [by eapply tun_pos|]. intros data ->. apply andb_true_iff in Hlen as [?%Z.ltb_lt ?%Z.leb_le]. lia.
  - apply andb_true_iff in He as [Hf He]. destruct (link_client g c _ Hg He Hf) as (Hfr & cl & l & Hc & Hl & Hlive & Ho & Hcb). cbn beta in Hcb.
    apply andb_true_iff in Hcb as [Hcb Hlen2%Z.leb_le]. apply andb_true_iff in Hcb as [Hcb Hlen1%Z.ltb_lt]. cbn [step].
    edestruct (callback_ok g c cl l) as (g' & r & E & Hok & Hret); [done..| |exists g', r; split; [exact E|split; [done|intros c' x [= <-]; apply Hret]]].
    apply sent_good; try done; by eapply tun_pos.
  - cbn [step]. destruct (frame g) as [f|] eqn:Hf; [|unfold no_callback in He; by rewrite Hf in He]. cbn [mbind option_bind].
    destruct (run_leave g f Hg Hf) as (x & g' & l & E & Hok & _ & Hl & H1 & H2). rewrite E. exists g', (Some x). split; [done|]. split; [done|].
    intros c x' [= <-] [= <-]. split; [done|]. by exists l.
  - apply andb_true_iff in He as [_ He]. destruct (client_link g c _ Hg He) as (cl & l & Hc & Hl & Hlive & Hs & Hpred). cbn [step].
    destruct (run_quiet g c cl l (socks_job (socks_auth_info g) alloc a e c) Hg Hc Hl) as (g' & E & Hok).
    + apply socks_job_good; try done; by eapply tun_pos.
    + exists g', None. by rewrite E.
  - apply andb_true_iff in He as [_ He]. destruct (client_link g c _ Hg He) as (cl & l & Hc & Hl & Hlive & Hs & Hpred). cbn [step]. cbn beta in Hpred.
    destruct (send_req cl) as [m|] eqn:Hreq; [|done]. apply andb_true_iff in Hpred as [?%Z.ltb_lt ?%Z.leb_le].
    destruct (run_quiet g c cl l (sent_job a k c) Hg Hc Hl) as (g' & E & Hok).
    + eapply sent_job_good; try done; by eapply tun_pos.
    + exists g', None. by rewrite E.
  - apply andb_true_iff in He as [_ He]. destruct (client_link g c _ Hg He) as (cl & l & Hc & Hl & Hlive & Hs & Hpred). cbn [step]. cbn beta in Hpred.
    rewrite !andb_true_iff in Hpred. destruct Hpred as [[Hreq ?%Z.ltb_lt] ?%Z.leb_le].
    destruct (run_quiet g c cl l (received_job a data c) Hg Hc Hl) as (g' & E & Hok).
    + apply received_job_good; try done; by eapply tun_pos.
    + exists g', None. by rewrite E.
Qed.

Lemma start_ok l : tun_ok (start l).
Proof. constructor; cbn; try done; [apply NoDup_nil_2|]. intros c. split; [by intros ?%elem_of_nil|by intros [? ?]]. Qed.

Lemma run_tun_ok g es g' : tun_run g es g' -> Forall proper es -> tun_ok g -> tun_ok g'.
Proof.
  induction 1 as [g|g e es g1 r g' He Hs _ IH]; intros Hp Hg; [done|]. apply Forall_cons in Hp as [Hp Hps]. apply IH; [done|].
  destruct (tun_step_ok g e Hg He Hp) as (g2 & r2 & E & Hok & _). congruence.
Qed.

(** Tearing down. *)
Lemma free_clients_ok cs g :
  (forall c, c ∈ cs -> exists cl l, heap g !! c = Some cl /\ links g !! c = Some l /\ live (socks_auth_info g) cl l None) ->
  NoDup cs -> tcp_clients g = cs -> num_clients g = zlen cs -> frame g = None -> (forall c, is_Some (heap g !! c) -> c ∈ cs) ->
  exists g', free_clients cs g = Some g' /\ heap g' = ∅ /\ tcp_clients g' = [] /\ num_clients g' = 0 /\
    (forall c l, links g' !! c = Some l -> pcb_open l = false \/ (c ∉ cs) /\ links g !! c = Some l).
Proof.
  revert g. induction cs as [|c cs IH]; intros g Hlive Hnd Hcs Hn Hf Hdom.
  - exists g. split; [done|]. split_and!; try done; [|by right; split; [apply not_elem_of_nil|]]. apply map_eq. intros c. rewrite lookup_empty. destruct (heap g !! c) eqn:E; [|done].
    assert (c ∈ []) as Hc by (apply Hdom; by eexists). by apply elem_of_nil in Hc.
  - destruct (Hlive c) as (cl & l & Hc & Hl & Hlv); [by left|]. apply NoDup_cons in Hnd as [Hnc Hnd].
    assert (Hpos : 0 < num_clients g) by (rewrite Hn; unfold zlen; cbn [length]; lia).
    pose proof (murder_ok (socks_auth_info g) c (tcp_clients g) (num_clients g) Hpos cl l Hlv) as Hm.
    cbn [free_clients]. unfold run, view_of. rewrite Hl, Hc, Hf. cbn [mbind option_bind dead_of]. unfold wp in Hm. destruct (client_murder c _) as [[x v]|]; [|done].
    destruct Hm as (H1 & H2 & H3 & H4 & H5). cbn [mbind option_bind].
    assert (Hfil : v_clients v = cs).
    { rewrite H3, Hcs, filter_cons_False by (intros Hx; by apply Hx). clear -Hnc. induction cs as [|y cs IH]; [done|]. rewrite filter_cons_True by set_solver. f_equal. apply IH. set_solver. }
    destruct (IH (put_view c v g)) as (g' & E & Hg' & Ht & Hnum & Hls); unfold put_view; cbn [heap links tcp_clients num_clients frame socks_auth_info].
    + intros c' Hc'. assert (c' <> c) by (by intros ->). destruct (Hlive c') as (cl' & l' & ? & ? & ?); [by right|]. exists cl', l'. rewrite H1.
      rewrite lookup_delete_ne, lookup_insert_ne by done. done.
    + done.
    + done.
    + rewrite H4, Hn, zlen_cons. lia.
    + by rewrite H5, Hf.
    + intros c'. rewrite H1. destruct (decide (c' = c)) as [->|Hne]; [rewrite lookup_delete_eq; by intros [? ?]|]. rewrite lookup_delete_ne by done.
      intros Hx. apply Hdom in Hx. apply elem_of_cons in Hx as [->|?]; done.
    + exists g'. split; [done|]. split_and!; try done. intros c' l' Hx. apply Hls in Hx as [Hx|[Hni Hx]]; [by left|]. cbn [put_view links] in Hx.
      destruct (decide (c' = c)) as [->|Hne]; [|rewrite lookup_insert_ne in Hx by done; right; by rewrite not_elem_of_cons].
      rewrite lookup_insert_eq in Hx. injection Hx as <-. by left.
Qed.

Lemma teardown_ok g :
  tun_ok g -> frame g = None ->
  exists g', free_clients (tcp_clients g) g = Some g' /\ heap g' = ∅ /\ tcp_clients g' = [] /\ num_clients g' = 0 /\
    forall c l, links g' !! c = Some l -> pcb_open l = false.
Proof.
  intros Hg Hf. destruct (free_clients_ok (tcp_clients g) g) as (g' & E & H1 & H2 & H3 & H4); try done; try apply Hg.
  - intros c Hc. apply (t_heap _ Hg) in Hc as [cl Hc]. destruct (t_live _ Hg c cl Hc) as (l & Hl & Hlive). rewrite Hf in Hlive. by exists cl, l.
  - exists g'. split_and!; try done. intros c l Hl. apply H4 in Hl as [?|[Hni Hl]]; [done|]. assert (heap g !! c = None) as Hn.
    { destruct (heap g !! c) eqn:Ec; [|done]. destruct Hni. apply (t_heap _ Hg). by eexists. }
    by destruct (t_gone _ Hg c l Hn Hl) as [[? _] _].
Qed.

(** ** Theorems *)

(** C6: Whatever lwIP, the proxy and the event loop do and in whatever order (callbacks with
    jobs of the SOCKS clients inside them included), in runs without
    [--append-source-to-username] ([proper]; see [credentials_are_shared]), no callback or
    job of tun2socks fails an assertion, uses a client that was released or a connection
    block lwIP has freed, or writes through the pointer to a callback's variable after that
    callback returned. The list holds each allocated client once and [num_clients] counts
    them, and at any time outside a callback tearing down releases all of them and closes
    every connection. *)
Theorem tun_clients_safe info es g e :
  tun_run (start info) es g -> Forall proper es -> allowed e g = true -> proper e ->
  (exists g' r, step e g = Some (g', r)) /\
  NoDup (tcp_clients g) /\ (forall c, c ∈ tcp_clients g <-> is_Some (heap g !! c)) /\ num_clients g = zlen (tcp_clients g) /\
  (frame g = None -> exists g', free_clients (tcp_clients g) g = Some g' /\ heap g' = ∅ /\ num_clients g' = 0 /\
                       forall c l, links g' !! c = Some l -> pcb_open l = false).
Proof.
  intros Hrun Hp He Hpe. pose proof (run_tun_ok _ _ _ Hrun Hp (start_ok info)) as Hg. destruct (tun_step_ok g e Hg He Hpe) as (g' & r & E & _ & _).
  split; [by exists g', r|]. split_and!; try apply Hg. intros Hf. destruct (teardown_ok g Hg Hf) as (g2 & ? & ? & _ & ? & ?). by exists g2.
Qed.

(** What of the bytes from SOCKS has not been given to lwIP. *)
Definition held_back (cl : tcp_client) : bytes :=
  if socks_up cl && (0 <? socks_recv_buf_used cl) then chunk (socks_recv_buf_sent cl) (socks_recv_buf_used cl) (socks_recv_buf cl) else [].

(** C7: Each connection is relayed in order, byte for byte: at every time what SOCKS took is
    a beginning of what the application sent, and while the SOCKS side is open the rest is
    exactly what is in the buffer of the client; what was given to lwIP is a beginning of
    what SOCKS delivered, and while the side of the application is open the rest is exactly
    what is kept in the receive buffer. Nothing is repeated or reordered, and nothing is
    lost as long as the side it goes to is open. The runs are those without
    [--append-source-to-username] ([proper]). *)
Theorem tun_relays_in_order info es g c l :
  tun_run (start info) es g -> Forall proper es -> links g !! c = Some l ->
  h_up l `prefix_of` h_in l /\ h_out l `prefix_of` h_down l /\
  forall cl, heap g !! c = Some cl ->
    (socks_closed cl = false -> h_in l = h_up l ++ take (Z.to_nat (buf_used cl)) (buf cl)) /\
    (client_closed cl = false -> h_down l = h_out l ++ held_back cl).
Proof.
  intros Hrun Hp Hl. pose proof (run_tun_ok _ _ _ Hrun Hp (start_ok info)) as Hg. destruct (heap g !! c) as [cl|] eqn:Hc.
  - destruct (t_live _ Hg c cl Hc) as (l1 & Hl1 & Hcm & Hu & _ & Hside). assert (l1 = l) as -> by congruence. split_and!; try apply Hcm. intros ? [= <-]. split.
    + intros Es. unfold upstream in Hu. rewrite Es in Hu. apply Hu.
    + intros Ec. rewrite Ec in Hside. pose proof (o_down _ _ Hside) as Hd. unfold downstream in Hd. unfold held_back. destruct (socks_up cl); cbn [andb].
      * destruct Hd as (_ & _ & [(-> & -> & _)|(Hr & _ & _ & _ & _ & ->)]); [by rewrite app_nil_r|]. by rewrite (proj2 (Z.ltb_lt _ _)) by lia.
      * by destruct Hd as (_ & _ & -> & ->).
  - destruct (t_gone _ Hg c l Hc Hl) as [(_ & ? & ? & _) _]. by split_and!.
Qed.

(** C19: A client is not released before its bytes have gone where they can go: when it is gone,
    SOCKS took everything the application sent, unless SOCKS itself failed or closed, and the
    application acknowledged everything SOCKS delivered, unless the application went away or
    lwIP failed. Its connection block has been closed. *)
Theorem tun_loses_nothing info es g c l :
  tun_run (start info) es g -> Forall proper es -> links g !! c = Some l -> heap g !! c = None ->
  pcb_open l = false /\ (h_up l = h_in l \/ socks_ended l = true) /\
  (h_out l = h_down l /\ unacked l = 0 \/ client_ended l = true \/ pcb_aborted l = true).
Proof.
  intros Hrun Hp Hl Hc. pose proof (run_tun_ok _ _ _ Hrun Hp (start_ok info)) as Hg. destruct (t_gone _ Hg c l Hc Hl) as [(Ho & _ & _ & Hu & Hd) _].
  split; [done|]. split; [destruct Hu; [by left|by right]|]. destruct Hd as [[? ?]|Hd]; [by left|by right].
Qed.

(** A callback returns ERR_ABRT if and only if [tcp_abort] was called for its connection, as
    lwIP requires, also when the client was released while the callback ran; and it never
    finds the buffer too small, since the window lwIP announces is the free part of it. *)
Theorem tun_abort_reported info es g e g' c x :
  tun_run (start info) es g -> Forall proper es -> allowed e g = true -> proper e -> step e g = Some (g', Some x) -> returns e g = Some c ->
  x <> ERR_MEM /\ exists l, links g' !! c = Some l /\ (x = ERR_ABRT <-> pcb_aborted l = true).
Proof.
  intros Hrun Hp He Hpe Hs Hc. pose proof (run_tun_ok _ _ _ Hrun Hp (start_ok info)) as Hg. destruct (tun_step_ok g e Hg He Hpe) as (g2 & r & E & _ & H).
  rewrite Hs in E. injection E as <- <-. by apply H.
Qed.

(** C21: No connection is forgotten: while a client is allocated, data it holds for SOCKS has been
    offered to the SOCKS connection once that is up, and data it holds for the application
    waits for an acknowledgement of bytes lwIP has; otherwise more was asked for from SOCKS
    while both sides are open. A client whose application is gone still has data to send, and
    one whose SOCKS connection is gone still waits for an acknowledgement. *)
Theorem tun_never_stalls info es g c cl :
  tun_run (start info) es g -> Forall proper es -> heap g !! c = Some cl ->
  exists l, links g !! c = Some l /\ ~ (client_closed cl = true /\ socks_closed cl = true) /\
    (client_closed cl = true -> 0 < buf_used cl) /\
    (socks_closed cl = true -> 0 < unacked l /\ cb_sent l = true) /\
    (socks_closed cl = false -> socks_up cl = true -> 0 < buf_used cl -> exists n, send_req cl = Some n /\ 0 < n <= buf_used cl) /\
    (client_closed cl = false -> socks_up cl = true -> held_back cl <> [] -> 0 < unacked l /\ cb_sent l = true) /\
    (client_closed cl = false -> socks_closed cl = false -> socks_up cl = true -> held_back cl = [] -> recv_req cl = true) /\
    (client_closed cl = false -> socks_closed cl = false -> cb_recv l = true /\ rcv_wnd l = TCP_WND - buf_used cl).
Proof.
  intros Hrun Hp Hc. pose proof (run_tun_ok _ _ _ Hrun Hp (start_ok info)) as Hg. destruct (t_live _ Hg c cl Hc) as (l & Hl & Hcm & Hu & _ & Hside). exists l.
  split; [done|]. unfold upstream in Hu. destruct (client_closed cl) eqn:Ec.
  - destruct Hside as (_ & Es & Hpos & _). rewrite Es in *. destruct Hu as (_ & _ & _ & Hq & _). split_and!; try done; [by intros [_ ?]|]. intros _ Eup Hpos'. rewrite Eup in Hq.
    destruct (send_req cl) as [n|]; [by exists n|lia].
  - pose proof (o_down _ _ Hside) as Hd. unfold downstream in Hd. pose proof (o_sent _ _ Hside) as Hcb. pose proof (o_recv _ _ Hside) as Hcr. pose proof (o_wnd _ _ Hside) as Hw.
    split; [by intros [? _]|]. split; [done|]. unfold held_back. destruct (socks_up cl) eqn:Eu; cbn [andb].
    + destruct Hd as (_ & Hnn & Hd). split_and!.
      * intros Es. rewrite Es in Hd. split; [|done]. destruct Hd as [(_ & _ & ?)|(_ & _ & _ & ? & _)]; done.
      * intros Es _ Hpos. rewrite Es in Hu. destruct Hu as (_ & _ & _ & Hq & _). destruct (send_req cl) as [n|]; [by exists n|lia].
      * intros _ _ Hne. split; [|done]. destruct Hd as [(E & _)|(_ & _ & _ & ? & _)]; [|done]. by rewrite E in Hne.
      * intros _ Es _ Hnil. rewrite Es in Hd. destruct Hd as [(_ & _ & ?)|(Hr & Hs & _)]; [done|]. rewrite (proj2 (Z.ltb_lt _ _)) in Hnil by lia.
        apply (f_equal length) in Hnil. unfold chunk in Hnil. rewrite length_take, length_drop in Hnil. pose proof (recv_buf_size _ _ Hcm) as Hz. unfold zlen in Hz. cbn in Hnil. lia.
      * intros _ Es. rewrite Es in Hcr. split; [done|]. specialize (Hw Es). lia.
    + destruct Hd as (Es & _). rewrite Es in *. split_and!; try done. intros _ _. split; [done|]. specialize (Hw eq_refl). lia.
Qed.

(** ** A run *)

Fixpoint exec (es : list event) (g : tun) : option tun :=
  match es with
  | [] => Some g
  | e :: es => if allowed e g then match step e g with Some (g, _) => exec es g | None => None end else None
  end.

Lemma tun_exec_run es g g' : exec es g = Some g' -> tun_run g es g'.
Proof.
  revert g. induction es as [|e es IH]; intros g H; [by injection H as <-; constructor|]. cbn in H. destruct (allowed e g) eqn:Ea; [|done].
  destruct (step e g) as [[g1 r]|] eqn:Es; [|done]. econstructor; [done|done|by apply IH].
Qed.

Definition some_lwip : lwip := mk_lwip ERR_OK (fun _ => 2%N) (fun pos => if pos <? 2 then ERR_OK else ERR_MEM) ERR_OK.
Definition some_mem : tcp_client :=
  mk_tcp_client true false true (replicate (Z.to_nat TCP_WND) 170) 77 BSocks.some_client true true (Some 3) true (replicate (Z.to_nat CLIENT_SOCKS_RECV_BUF_SIZE) 170) 5 6 true 9.

(** An application sends three bytes before the proxy is connected. *)
Definition connecting : list event :=
  [ev_accept 1 (Some some_mem) false [93; 184; 216; 34] 443 false None true; ev_return; ev_recv 1 (Some [65; 66; 67]) some_lwip;
   ev_socks 1 (BSocks.ev_connected false true) BSocks.sane some_lwip; ev_socks 1 BSocks.ev_sent BSocks.sane some_lwip;
   ev_socks 1 (BSocks.ev_received [5; 0]) BSocks.sane some_lwip; ev_socks 1 BSocks.ev_sent BSocks.sane some_lwip;
   ev_socks 1 (BSocks.ev_received [5; 0; 0; 1]) BSocks.sane some_lwip; ev_socks 1 (BSocks.ev_received [0; 0; 0; 0; 0; 0]) BSocks.sane some_lwip].
(** The proxy takes two of them and answers with three bytes, of which lwIP takes two. *)
Definition talking : list event := connecting ++ [ev_socks_sent 1 2 some_lwip; ev_socks_received 1 [70; 71; 72] some_lwip].
(** The application closes; the last byte still goes out. *)
Definition closing_down : list event := talking ++ [ev_recv 1 None some_lwip; ev_socks_sent 1 1 some_lwip].

Definition after (es : list event) : tun := default (start []) (exec es (start [BSocks.auth_none])).

Lemma connecting_proper : Forall proper connecting.
Proof. repeat constructor; apply BSocks.sane_allocates. Qed.
Lemma talking_proper : Forall proper talking.
Proof. apply Forall_app. split; [apply connecting_proper|by repeat constructor]. Qed.
Lemma closing_proper : Forall proper closing_down.
Proof. apply Forall_app. split; [apply talking_proper|by repeat constructor]. Qed.

Lemma talking_run : tun_run (start [BSocks.auth_none]) talking (after talking).
Proof. apply tun_exec_run. vm_compute. reflexivity. Qed.
Lemma closing_down_run : tun_run (start [BSocks.auth_none]) closing_down (after closing_down).
Proof. apply tun_exec_run. vm_compute. reflexivity. Qed.

Lemma tun_clients_safe_witness : exists g' r, step (ev_sent 1 2 some_lwip) (after talking) = Some (g', r).
Proof. apply (tun_clients_safe _ _ _ (ev_sent 1 2 some_lwip) talking_run talking_proper); [vm_compute; reflexivity|exact I]. Defined.

Lemma tun_relays_witness : exists l, links (after talking) !! 1%nat = Some l /\ h_in l = [65; 66; 67] /\ h_up l `prefix_of` h_in l /\ h_up l = [65; 66].
Proof.
  destruct (links (after talking) !! 1%nat) as [l|] eqn:E; [|vm_compute in E; discriminate]. exists l.
  destruct (tun_relays_in_order _ _ _ 1%nat l talking_run talking_proper E) as [H _]. vm_compute in E. injection E as <-. by split_and!.
Defined.

Lemma tun_loses_witness : exists l, links (after closing_down) !! 1%nat = Some l /\ pcb_open l = false /\ h_in l = [65; 66; 67] /\ h_up l = h_in l.
Proof.
  destruct (links (after closing_down) !! 1%nat) as [l|] eqn:E; [|vm_compute in E; discriminate]. exists l.
  destruct (tun_loses_nothing _ _ _ 1%nat l closing_down_run closing_proper E) as (H1 & [H2|H2] & _); [vm_compute; reflexivity| |vm_compute in E; injection E as <-; discriminate].
  vm_compute in E. injection E as <-. by split_and!.
Defined.

(** lwIP fails when the last byte is queued. *)
Definition failing_ack : event := ev_sent 1 2 (mk_lwip ERR_OK (fun _ => 2%N) (fun _ => ERR_OTHER 1) ERR_OK).

Lemma tun_abort_witness :
  exists g' l, step failing_ack (after talking) = Some (g', Some ERR_ABRT) /\
    links g' !! 1%nat = Some l /\ pcb_aborted l = true.
Proof.
  destruct (step failing_ack (after talking)) as [[g' r]|] eqn:E; [|vm_compute in E; discriminate].
  assert (r = Some ERR_ABRT) as -> by (vm_compute in E; by injection E).
  destruct (tun_abort_reported _ _ _ failing_ack g' 1%nat ERR_ABRT talking_run talking_proper ltac:(vm_compute; reflexivity) I E eq_refl) as [_ (l & Hl & H)].
  exists g', l. split; [reflexivity|]. split; [exact Hl|]. by apply H.
Defined.

Lemma tun_never_stalls_witness : exists cl l, heap (after talking) !! 1%nat = Some cl /\ links (after talking) !! 1%nat = Some l /\ 0 < unacked l /\ cb_sent l = true.
Proof.
  destruct (heap (after talking) !! 1%nat) as [cl|] eqn:E; [|vm_compute in E; discriminate].
  destruct (tun_never_stalls _ _ _ 1%nat cl talking_run talking_proper E) as (l & Hl & _ & _ & _ & _ & H & _). exists cl, l.
  split; [reflexivity|]. split; [exact Hl|]. vm_compute in E. injection E as <-. apply H; [reflexivity|reflexivity|vm_compute; discriminate].
Defined.

(** With --append-source-to-username all clients read their credentials from the one place that
    every accepted connection overwrites: a client whose proxy asks for the password after
    another connection was accepted sends the name made for the other one. *)
Theorem credentials_are_shared :
  match exec [ev_accept 1 (Some some_mem) false [93; 184; 216; 34] 443 true (Some (lit "me@10.0.0.1")) true; ev_return;
              ev_socks 1 (BSocks.ev_connected false true) BSocks.sane some_lwip; ev_socks 1 BSocks.ev_sent BSocks.sane some_lwip;
              ev_accept 2 (Some some_mem) false [93; 184; 216; 34] 443 true (Some (lit "me@10.0.0.2")) true; ev_return;
              ev_socks 1 (BSocks.ev_received [5; 2]) BSocks.sane some_lwip] (start [BSocks.auth_none; BSocks.auth_password (lit "me") (lit "pw")]) with
  | Some g => (cl ← heap g !! 1%nat; BSocks.cbuffer (socks_client cl)) = Some (BSocks.password_msg (lit "me@10.0.0.2") (lit "pw"))
  | None => False
  end.
Proof. vm_compute. reflexivity. Qed.

End Tun2socks.
