(* ===== verification/UdpProto.v ===== *)
(** * UDP packets of the tunnel: ipv4_proto.h, ipv6_proto.h, udp_proto.h and the two ends of
      the UDP path in tun2socks.c

    tun2socks handles UDP itself. [process_device_udp_packet] takes a packet an application
    sent apart, checking its lengths and checksums, and [udpgw_client_handler_received] builds
    the packet that carries an answer back. Structures of packets are what they are in memory: a
    field of two or four bytes is the list of its bytes, [hton16] writes one and [ntoh16] reads
    it.

    The outer [option] is a failed assertion or an access outside a buffer, the inner one
    the return value 0. *)

From S2P Require Import Prelude Memory BSocks.
Import Memory.
Open Scope Z_scope.

Module UdpProto.

(** ** Bytes and words *)

Definition badvpn_read_be16 (a b : Z) : Z := Z.lor (Z.shiftl a 8) b.
Definition hton16 (x : Z) : bytes := [u8 (Z.shiftr x 8); u8 x].
Definition hton32 (x : Z) : bytes := [u8 (Z.shiftr x 24); u8 (Z.shiftr x 16); u8 (Z.shiftr x 8); u8 x].
Definition ntoh16 (l : bytes) : Z := match l with [a; b] => badvpn_read_be16 a b | _ => 0 end.

(** ** ipv4_proto.h *)

Definition IPV4_PROTOCOL_UDP : Z := 17.

Record ipv4_header := mk_ipv4 {
  version4_ihl4 : Z; ds : Z; total_length : bytes;
  identification : bytes; flags3_fragmentoffset13 : bytes;
  ttl : Z; protocol : Z; ip_checksum : bytes;
  source_address : bytes;
  destination_address : bytes }.

Definition ipv4_bytes (h : ipv4_header) : bytes :=
  [version4_ihl4 h; ds h] ++ total_length h ++ identification h ++ flags3_fragmentoffset13 h ++ [ttl h; protocol h] ++ ip_checksum h ++
  source_address h ++ destination_address h.

(** [memcpy] from a packet to the structure. *)
Definition read_ipv4 (data : bytes) : option ipv4_header :=
  match data with
  | b0 :: b1 :: b2 :: b3 :: b4 :: b5 :: b6 :: b7 :: b8 :: b9 :: b10 :: b11 :: b12 :: b13 :: b14 :: b15 :: b16 :: b17 :: b18 :: b19 :: _ =>
      Some (mk_ipv4 b0 b1 [b2; b3] [b4; b5] [b6; b7] b8 b9 [b10; b11] [b12; b13; b14; b15] [b16; b17; b18; b19])
  | _ => None
  end.

Definition IPV4_GET_VERSION (h : ipv4_header) : Z := Z.shiftr (Z.land (version4_ihl4 h) 0xF0) 4.
Definition IPV4_GET_IHL (h : ipv4_header) : Z := Z.land (version4_ihl4 h) 0x0F.
Definition IPV4_MAKE_VERSION_IHL (size : Z) : Z := size / 4 + Z.shiftl 4 4.

(** The sum of the 16-bit words of an even number of bytes, in 32 bits. *)
Fixpoint udp_checksum_summer (data : bytes) : Z :=
  match data with
  | a :: b :: data => u32 (badvpn_read_be16 a b + udp_checksum_summer data)
  | _ => 0
  end.

(** The loop that adds the carries; three rounds always end it. *)
Fixpoint fold_carries (fuel : nat) (t : Z) : Z :=
  match fuel with
  | O => t
  | S fuel => if Z.shiftr t 16 =? 0 then t else fold_carries fuel (u32 (Z.land t 0xFFFF + Z.shiftr t 16))
  end.

Definition ipv4_checksum (h : ipv4_header) (extra : bytes) : bytes :=
  let t := u32 (udp_checksum_summer (ipv4_bytes h) + udp_checksum_summer extra) in
  hton16 (u16 (Z.lnot (fold_carries 3 t))).

Definition set_ip_checksum (c : bytes) (h : ipv4_header) : ipv4_header :=
  mk_ipv4 (version4_ihl4 h) (ds h) (total_length h) (identification h) (flags3_fragmentoffset13 h) (ttl h) (protocol h) c
    (source_address h) (destination_address h).

Definition ipv4_check (data : bytes) : option (option (ipv4_header * bytes)) :=
  if zlen data <? 20 then Some None
  else
    h ← read_ipv4 data;
    if negb (IPV4_GET_VERSION h =? 4) then Some None
    else
      let header_len := IPV4_GET_IHL h * 4 in
      if header_len <? 20 then Some None
      else if zlen data <? header_len then Some None
      else
        let total := ntoh16 (total_length h) in
        if total <? header_len then Some None
        else if zlen data <? total then Some None
        else
          extra ← load 20 (header_len - 20) data;
          if negb (bool_decide (ip_checksum h = ipv4_checksum (set_ip_checksum (hton16 0) h) extra)) then Some None
          else
            payload ← load header_len (total - header_len) data;
            Some (Some (h, payload)).

(** ** ipv6_proto.h *)

Definition IPV6_NEXT_UDP : Z := 17.

Record ipv6_header := mk_ipv6 {
  version4_tc4 : Z; tc4_fl4 : Z; fl : bytes;
  payload_length : bytes; next_header : Z; hop_limit : Z;
  source_address6 : bytes;
  destination_address6 : bytes }.

Definition ipv6_bytes (h : ipv6_header) : bytes :=
  [version4_tc4 h; tc4_fl4 h] ++ fl h ++ payload_length h ++ [next_header h; hop_limit h] ++ source_address6 h ++ destination_address6 h.

Definition read_ipv6 (data : bytes) : option ipv6_header :=
  match data with
  | b0 :: b1 :: b2 :: b3 :: b4 :: b5 :: b6 :: b7 :: rest =>
      if zlen rest <? 32 then None
      else Some (mk_ipv6 b0 b1 [b2; b3] [b4; b5] b6 b7 (take 16 rest) (take 16 (drop 16 rest)))
  | _ => None
  end.

Definition ipv6_check (data : bytes) : option (option (ipv6_header * bytes)) :=
  if zlen data <? 40 then Some None
  else
    h ← read_ipv6 data;
    if negb (Z.shiftr (version4_tc4 h) 4 =? 6) then Some None
    else
      let len := ntoh16 (payload_length h) in
      if zlen data - 40 <? len then Some None
      else payload ← load 40 len data; Some (Some (h, payload)).

(** ** udp_proto.h *)

Record udp_header := mk_udp { source_port : bytes; dest_port : bytes; udp_length : bytes; udp_sum : bytes }.

Definition udp_bytes (h : udp_header) : bytes := source_port h ++ dest_port h ++ udp_length h ++ udp_sum h.

Definition read_udp (data : bytes) : option udp_header :=
  match data with
  | b0 :: b1 :: b2 :: b3 :: b4 :: b5 :: b6 :: b7 :: _ => Some (mk_udp [b0; b1] [b2; b3] [b4; b5] [b6; b7])
  | _ => None
  end.

Definition set_udp_sum (c : bytes) (h : udp_header) : udp_header := mk_udp (source_port h) (dest_port h) (udp_length h) c.

(** The payload, the last byte of an odd one completed with a zero. *)
Definition payload_sum (payload : bytes) : option Z :=
  let len := u16 (zlen payload) in
  if len mod 2 =? 0 then
    p ← load 0 len payload; Some (udp_checksum_summer p)
  else
    p ← load 0 (len - 1) payload;
    last ← load (len - 1) 1 payload;
    Some (u32 (udp_checksum_summer p + udp_checksum_summer (last ++ [0]))).

(** [t = ~t; if (t == 0) t = UINT16_MAX; return hton16(t)] with [t] of 32 bits. *)
Definition finish_udp_checksum (t : Z) : bytes :=
  let t := u32 (Z.lnot (fold_carries 3 t)) in
  hton16 (u16 (if t =? 0 then 0xFFFF else t)).

Definition udp_checksum (h : udp_header) (payload source dest : bytes) : option bytes :=
  s ← payload_sum payload;
  let t := u32 (udp_checksum_summer source + udp_checksum_summer dest) in
  let t := u32 (t + udp_checksum_summer (hton16 IPV4_PROTOCOL_UDP)) in
  let t := u32 (t + udp_checksum_summer (hton16 (u16 (8 + u16 (zlen payload))))) in
  let t := u32 (t + udp_checksum_summer (udp_bytes h)) in
  Some (finish_udp_checksum (u32 (t + s))).

Definition udp_ip6_checksum (h : udp_header) (payload source dest : bytes) : option bytes :=
  s ← payload_sum payload;
  let t := u32 (udp_checksum_summer source + udp_checksum_summer dest) in
  let t := u32 (t + udp_checksum_summer (hton32 (u32 (8 + u16 (zlen payload))))) in
  let t := u32 (t + udp_checksum_summer (hton32 IPV6_NEXT_UDP)) in
  let t := u32 (t + udp_checksum_summer (udp_bytes h)) in
  Some (finish_udp_checksum (u32 (t + s))).

Definition udp_check (data : bytes) : option (option (udp_header * bytes)) :=
  if zlen data <? 8 then Some None
  else
    h ← read_udp data;
    let len := ntoh16 (udp_length h) in
    if len <? 8 then Some None
    else if zlen data <? len then Some None
    else payload ← load 8 (len - 8) data; Some (Some (h, payload)).

(** ** tun2socks.c *)

Record options := mk_options { have_udpgw : bool; have_dnsgw : bool; have_ip6 : bool; device_mtu : Z; udp_mtu : Z }.

(** The query bits of [DnsHeader]: qr and rcode are zero and there is no answer or authority
    entry. *)
Definition dns_query (data : bytes) : bool :=
  match data with
  | _ :: _ :: b2 :: b3 :: _ :: _ :: a0 :: a1 :: c0 :: c1 :: _ :: _ :: _ =>
      (Z.shiftr b2 7 =? 0) && (Z.land b3 15 =? 0) && (a0 =? 0) && (a1 =? 0) && (c0 =? 0) && (c1 =? 0)
  | _ => false
  end.

(** What is submitted to the relay: local and remote address, whether it is a DNS query, data. *)
Definition submission : Type := BSocks.dest_addr * BSocks.dest_addr * bool * bytes.

Definition process_ipv4 (o : options) (data : bytes) : option (option submission) :=
  proto ← (if zlen data <? 20 then Some None else b ← load 9 1 data; Some (Some b));
  if negb (bool_decide (proto = Some [IPV4_PROTOCOL_UDP])) then Some None
  else
    r ← ipv4_check data;
    match r with
    | None => Some None
    | Some (ip, data) =>
        r ← udp_check data;
        match r with
        | None => Some None
        | Some (udp, data) =>
            computed ← udp_checksum (set_udp_sum [0; 0] udp) data (source_address ip) (destination_address ip);
            if negb (bool_decide (udp_sum udp = computed)) then Some None
            else
              let is_dns := have_dnsgw o && bool_decide (dest_port udp = hton16 53) in
              Some (Some (BSocks.ipv4 (source_address ip) (source_port udp), BSocks.ipv4 (destination_address ip) (dest_port udp),
                          is_dns && dns_query data, data))
        end
    end.

Definition process_ipv6 (o : options) (data : bytes) : option (option submission) :=
  if negb (have_ip6 o) then Some None
  else
    next ← (if zlen data <? 40 then Some None else b ← load 6 1 data; Some (Some b));
    if negb (bool_decide (next = Some [IPV6_NEXT_UDP])) then Some None
    else
      r ← ipv6_check data;
      match r with
      | None => Some None
      | Some (ip, data) =>
          r ← udp_check data;
          match r with
          | None => Some None
          | Some (udp, data) =>
              computed ← udp_ip6_checksum (set_udp_sum [0; 0] udp) data (source_address6 ip) (destination_address6 ip);
              if negb (bool_decide (udp_sum udp = computed)) then Some None
              else Some (Some (BSocks.ipv6 (source_address6 ip) (source_port udp), BSocks.ipv6 (destination_address6 ip) (dest_port udp), false, data))
          end
      end.

(** [None] inside: the packet is left to lwIP. *)
Definition process_device_udp_packet (o : options) (data : bytes) : option (option submission) :=
  if negb (have_udpgw o) then Some None
  else
    let ip_version := match data with b :: _ => Z.shiftr b 4 | [] => 0 end in
    r ← (if ip_version =? 4 then process_ipv4 o data else if ip_version =? 6 then process_ipv6 o data else Some None);
    match r with
    | None => Some None
    | Some (local, remote, is_dns, data) => if udp_mtu o <? zlen data then Some None else Some (Some (local, remote, is_dns, data))
    end.

(** The headers of an answer. *)
Definition answer_ipv4 (remote local : bytes) (data_len : Z) : ipv4_header :=
  let h := mk_ipv4 (IPV4_MAKE_VERSION_IHL 20) 0 (hton16 (20 + 8 + data_len)) (hton16 0) (hton16 0) 64 IPV4_PROTOCOL_UDP (hton16 0) remote local in
  set_ip_checksum (ipv4_checksum h []) h.

Definition answer_ipv6 (remote local : bytes) (data_len : Z) : ipv6_header :=
  mk_ipv6 (Z.shiftl 6 4) 0 (hton16 0) (hton16 (8 + data_len)) IPV6_NEXT_UDP 64 remote local.

(** Three [memcpy] to the write buffer, and what is sent from it. *)
Definition write_packet (ip udp data wbuf : bytes) : option bytes :=
  b ← store 0 ip wbuf;
  b ← store (zlen ip) udp b;
  b ← store (zlen ip + zlen udp) data b;
  load 0 (zlen ip + zlen udp + zlen data) b.

(** [wbuf] is [device_write_buf]. [None] inside: the answer is dropped. *)
Definition udpgw_client_handler_received (o : options) (wbuf : bytes) (local remote : BSocks.dest_addr) (data : bytes) : option (option bytes) :=
  match local, remote with
  | BSocks.ipv4 lip lport, BSocks.ipv4 rip rport =>
      if (0xFFFF - (20 + 8) <? zlen data) || (device_mtu o - (20 + 8) <? zlen data) then Some None
      else
        let iph := answer_ipv4 rip lip (zlen data) in
        let udph := mk_udp rport lport (hton16 (8 + zlen data)) (hton16 0) in
        c ← udp_checksum udph data (source_address iph) (destination_address iph);
        p ← write_packet (ipv4_bytes iph) (udp_bytes (set_udp_sum c udph)) data wbuf;
        Some (Some p)
  | BSocks.ipv6 lip lport, BSocks.ipv6 rip rport =>
      if negb (have_ip6 o) then Some None
      else if (0xFFFF - 8 <? zlen data) || (device_mtu o - (40 + 8) <? zlen data) then Some None
      else
        let iph := answer_ipv6 rip lip (zlen data) in
        let udph := mk_udp rport lport (hton16 (8 + zlen data)) (hton16 0) in
        c ← udp_ip6_checksum udph data (source_address6 iph) (destination_address6 iph);
        p ← write_packet (ipv6_bytes iph) (udp_bytes (set_udp_sum c udph)) data wbuf;
        Some (Some p)
  | _, _ => None
  end.

(** ** Words *)

Lemma be16_value a b : 0 <= a < 256 -> 0 <= b < 256 -> badvpn_read_be16 a b = 256 * a + b.
Proof.
  intros Ha Hb. unfold badvpn_read_be16. rewrite Z.shiftl_mul_pow2 by lia. rewrite <- Z.add_nocarry_lor; [lia|].
  apply Z.bits_inj'. intros n Hn. rewrite Z.land_spec, Z.bits_0. destruct (Z.lt_ge_cases n 8).
  - by rewrite (Z.mul_pow2_bits_low a 8 n) by lia.
  - rewrite <- (Z.mod_small b (2 ^ 8)) by lia. rewrite Z.mod_pow2_bits_high by lia. apply andb_false_r.
Qed.

Lemma hton16_bytes x : is_bytes (hton16 x).
Proof. repeat constructor; apply u8_range. Qed.
Lemma hton32_bytes x : is_bytes (hton32 x).
Proof. repeat constructor; apply u8_range. Qed.

Lemma hton16_value x : 0 <= x < 2 ^ 16 -> 256 * u8 (Z.shiftr x 8) + u8 x = x.
Proof.
  intros Hx. unfold u8. rewrite Z.shiftr_div_pow2 by lia. change (2 ^ 8) with 256. rewrite (Z.mod_small (x / 256)).
  - symmetry. apply Z.div_mod. lia.
  - split; [apply Z.div_pos; lia|]. apply Z.div_lt_upper_bound; lia.
Qed.

Lemma ntoh16_hton16 x : 0 <= x < 2 ^ 16 -> ntoh16 (hton16 x) = x.
Proof. intros Hx. cbn [ntoh16 hton16]. rewrite be16_value by apply u8_range. by apply hton16_value. Qed.

(** The sum of the 16-bit words of [l], completed with a zero byte. *)
Fixpoint words (l : bytes) : Z :=
  match l with
  | a :: b :: l => 256 * a + b + words l
  | [a] => 256 * a
  | [] => 0
  end.

(** Induction that takes two bytes at a time. *)
Lemma pairs_ind (P : bytes -> Prop) : P [] -> (forall a, P [a]) -> (forall a b l, P l -> P (a :: b :: l)) -> forall l, P l.
Proof. intros H0 H1 H2. fix IH 1. intros [|a [|b l]]; [done|apply H1|apply H2, IH]. Qed.

Lemma words_range l : is_bytes l -> 0 <= 2 * words l <= 65535 * (zlen l + 1).
Proof.
  induction l as [|a|a b l IH] using pairs_ind; intros Hl.
  - cbn [words]. change (zlen []) with 0. lia.
  - apply Forall_cons in Hl as [Ha _]. cbn [words]. unfold zlen. cbn [length]. lia.
  - unfold is_bytes in Hl. rewrite !Forall_cons in Hl. destruct Hl as (Ha & Hb & Hl). specialize (IH Hl). cbn [words]. rewrite !zlen_cons. lia.
Qed.

Lemma words_app l k : zlen l mod 2 = 0 -> words (l ++ k) = words l + words k.
Proof.
  induction l as [|a|a b l IH] using pairs_ind; intros Hl; [done|done|]. cbn [app words]. rewrite IH; [lia|]. rewrite !zlen_cons in Hl.
  replace (1 + (1 + zlen l)) with (zlen l + 1 * 2) in Hl by lia. by rewrite Z.mod_add in Hl.
Qed.

Lemma words_pad l : words (l ++ [0]) = words l.
Proof. induction l as [|a|a b l IH] using pairs_ind; cbn [app words]; lia. Qed.

Lemma summer_words l : is_bytes l -> zlen l mod 2 = 0 -> zlen l <= 65536 -> udp_checksum_summer l = words l.
Proof.
  induction l as [|a|a b l IH] using pairs_ind; intros Hl He Hn; [done|done|]. pose proof (words_range _ Hl) as Hr. unfold is_bytes in Hl. rewrite !Forall_cons in Hl. destruct Hl as (Ha & Hb & Hl).
  cbn [udp_checksum_summer]. rewrite !zlen_cons in *. rewrite IH; [|done| |lia].
  - rewrite be16_value by done. cbn [words] in *. unfold u32. apply Z.mod_small. pose proof (words_range _ Hl). lia.
  - replace (1 + (1 + zlen l)) with (zlen l + 1 * 2) in He by lia. by rewrite Z.mod_add in He.
Qed.

Lemma fold_step t : 0 <= t < 2 ^ 32 ->
  Z.land t 0xFFFF + Z.shiftr t 16 = t mod 65536 + t / 65536 /\ 0 <= t mod 65536 + t / 65536 <= 65535 + t / 65536 /\ t / 65536 < 65536 /\
  (t mod 65536 + t / 65536) mod 65535 = t mod 65535.
Proof.
  intros Ht. change (Z.land t 0xFFFF) with (Z.land t (Z.ones 16)). rewrite Z.land_ones, Z.shiftr_div_pow2 by lia. change (2 ^ 16) with 65536.
  pose proof (Z.mod_pos_bound t 65536 ltac:(lia)). pose proof (Z.div_mod t 65536 ltac:(lia)). assert (t / 65536 < 65536) by (apply Z.div_lt_upper_bound; lia).
  pose proof (Z.div_pos t 65536 ltac:(lia) ltac:(lia)). split; [done|]. split; [lia|]. split; [done|].
  replace t with (t mod 65536 + t / 65536 + (t / 65536) * 65535) at 3 by lia. by rewrite Z.mod_add.
Qed.

(** Adding the carries leaves a 16-bit word with the same remainder. *)
Lemma fold_carries_spec t : 0 <= t < 2 ^ 32 -> 0 <= fold_carries 3 t < 65536 /\ fold_carries 3 t mod 65535 = t mod 65535.
Proof.
  assert (Hend : forall n x, 0 <= x < 65536 -> fold_carries n x = x).
  { intros [|n] x Hx; [done|]. cbn [fold_carries]. rewrite Z.shiftr_div_pow2 by lia. change (2 ^ 16) with 65536. by rewrite Z.div_small. }
  assert (Hstep : forall n x, 0 <= x < 2 ^ 32 -> 65536 <= x -> fold_carries (S n) x = fold_carries n (x mod 65536 + x / 65536)).
  { intros n x Hx Hge. cbn [fold_carries]. destruct (fold_step x Hx) as (E & ? & ? & _). rewrite E. rewrite Z.shiftr_div_pow2 by lia. change (2 ^ 16) with 65536.
    assert (1 <= x / 65536) by (apply Z.div_le_lower_bound; lia). rewrite (proj2 (Z.eqb_neq _ _)) by lia. unfold u32. by rewrite Z.mod_small by lia. }
  intros Ht. destruct (Z.lt_ge_cases t 65536) as [Hlt|Hge]; [rewrite Hend by lia; split; [lia|done]|]. rewrite Hstep by done.
  destruct (fold_step t Ht) as (_ & H1 & H2 & H3). set (x := t mod 65536 + t / 65536) in *.
  destruct (Z.lt_ge_cases x 65536) as [Hlt|Hge1]; [rewrite Hend by lia; split; [lia|done]|]. rewrite Hstep by lia.
  destruct (fold_step x ltac:(lia)) as (_ & H4 & H5 & H6). pose proof (Z.mod_pos_bound x 65536 ltac:(lia)). pose proof (Z.div_mod x 65536 ltac:(lia)).
  assert (x / 65536 <= 1) by (apply Z.lt_succ_r, Z.div_lt_upper_bound; lia). rewrite Hend by lia. split; [lia|]. by rewrite H6.
Qed.

Lemma complement t : 0 <= t < 65536 -> u16 (Z.lnot t) = 65535 - t.
Proof. intros Ht. unfold u16, Z.lnot. change (2 ^ 16) with 65536. rewrite <- (Z.mod_add _ 1) by lia. rewrite Z.mod_small by lia. lia. Qed.

(** The word that is put into the checksum field for the sum [s] of the other words. *)
Definition check_word (s : Z) : Z := 65535 - fold_carries 3 s.

(** The checksum as the standard defines it: with it the words add up to all ones. *)
Lemma check_word_spec s : 0 <= s < 2 ^ 32 -> 0 <= check_word s < 2 ^ 16 /\ (s + check_word s) mod 65535 = 0.
Proof.
  intros Hs. destruct (fold_carries_spec s Hs) as [Hr Hm]. unfold check_word. split; [lia|].
  replace (s + (65535 - fold_carries 3 s)) with ((s - fold_carries 3 s) + 1 * 65535) by lia. rewrite Z.mod_add by lia.
  rewrite Zminus_mod, Hm, Z.sub_diag. done.
Qed.

(** The test for zero in udp_proto.h is made on 32 bits and never holds. *)
Lemma finish_word s : 0 <= s < 2 ^ 32 -> finish_udp_checksum s = hton16 (check_word s).
Proof.
  intros Hs. destruct (fold_carries_spec s Hs) as [Hr _]. unfold finish_udp_checksum. set (x := fold_carries 3 s) in *.
  assert (E : u32 (Z.lnot x) = 2 ^ 32 - 1 - x). { unfold u32, Z.lnot. rewrite <- (Z.mod_add _ 1) by lia. rewrite Z.mod_small by lia. lia. }
  cbv zeta. rewrite E. rewrite (proj2 (Z.eqb_neq _ _)) by lia. f_equal. unfold check_word. fold x. unfold u16. change (2 ^ 16) with 65536.
  replace (2 ^ 32 - 1 - x) with ((65535 - x) + 65535 * 65536) by lia. rewrite Z.mod_add by lia. by rewrite Z.mod_small by lia.
Qed.

Lemma u32_small x : 0 <= x < 2 ^ 32 -> u32 x = x.
Proof. apply Z.mod_small. Qed.
Lemma u16_small x : 0 <= x < 2 ^ 16 -> u16 x = x.
Proof. apply Z.mod_small. Qed.

Lemma load_all l : load 0 (zlen l) l = Some l.
Proof. unfold load. rewrite (proj2 (in_range_spec _ _ _)) by (pose proof (zlen_nonneg l); lia). unfold zlen. rewrite Nat2Z.id, drop_0. by rewrite firstn_all. Qed.

Lemma payload_sum_words payload : is_bytes payload -> zlen payload < 2 ^ 16 -> payload_sum payload = Some (words payload).
Proof.
  intros Hb Hl. pose proof (zlen_nonneg payload). pose proof (words_range _ Hb). unfold payload_sum. rewrite (u16_small (zlen payload)) by lia. cbv zeta.
  destruct (Z.eqb_spec (zlen payload mod 2) 0) as [He|He].
  - rewrite load_all. cbn [mbind option_bind]. by rewrite summer_words by (done || lia).
  - pose proof (Z.mod_pos_bound (zlen payload) 2 ltac:(lia)). pose proof (Z.div_mod (zlen payload) 2 ltac:(lia)).
    assert (exists l x, payload = l ++ [x]) as (l & x & ->) by (destruct payload as [|x l _] using rev_ind; [by destruct He|by exists l, x]).
    rewrite zlen_app in *. change (zlen [x]) with 1 in *. replace (zlen l + 1 - 1) with (zlen l) by lia.
    assert (E1 : load 0 (zlen l) (l ++ [x]) = Some l).
    { unfold load. rewrite (proj2 (in_range_spec _ _ _)) by (rewrite zlen_app; pose proof (zlen_nonneg l); unfold zlen in *; cbn [length]; lia).
      unfold zlen. rewrite Nat2Z.id, drop_0. by rewrite take_app_length. }
    assert (E2 : load (zlen l) 1 (l ++ [x]) = Some [x]).
    { apply (proj2 (holds_at_split (zlen l) [x] (l ++ [x]))). exists l, []. by rewrite app_nil_r. }
    rewrite E1, E2. cbn [mbind option_bind app]. apply Forall_app in Hb as [Hb1 Hb2].
    assert (Hev : zlen l mod 2 = 0). { pose proof (Z.mod_pos_bound (zlen l) 2 ltac:(lia)). pose proof (Z.div_mod (zlen l) 2 ltac:(lia)). lia. }
    rewrite (summer_words l) by (done || lia). rewrite (words_app l [x]) by done. apply Forall_cons in Hb2 as [Hx _].
    cbn [udp_checksum_summer words]. rewrite be16_value by lia. pose proof (words_range l Hb1).
    rewrite (u32_small (256 * x + 0 + 0)), u32_small by lia. f_equal. lia.
Qed.

(** ** Headers and their bytes *)

Definition field (n : Z) (l : bytes) : Prop := zlen l = n /\ is_bytes l.

Lemma field_hton16 x : field 2 (hton16 x).
Proof. split; [done|apply hton16_bytes]. Qed.

Record ipv4_wf (h : ipv4_header) : Prop := {
  w_vi : 0 <= version4_ihl4 h < 256; w_ds : 0 <= ds h < 256; w_tl : field 2 (total_length h); w_id : field 2 (identification h);
  w_fl : field 2 (flags3_fragmentoffset13 h); w_ttl : 0 <= ttl h < 256; w_pr : 0 <= protocol h < 256; w_cs : field 2 (ip_checksum h);
  w_sa : field 4 (source_address h); w_da : field 4 (destination_address h) }.

Record ipv6_wf (h : ipv6_header) : Prop := {
  w6_v : 0 <= version4_tc4 h < 256; w6_t : 0 <= tc4_fl4 h < 256; w6_f : field 2 (fl h); w6_l : field 2 (payload_length h);
  w6_n : 0 <= next_header h < 256; w6_h : 0 <= hop_limit h < 256; w6_s : field 16 (source_address6 h); w6_d : field 16 (destination_address6 h) }.

Record udp_wf (h : udp_header) : Prop := { wu_s : field 2 (source_port h); wu_d : field 2 (dest_port h); wu_l : field 2 (udp_length h); wu_c : field 2 (udp_sum h) }.

Lemma zlen2 (l : bytes) : zlen l = 2 -> exists a b, l = [a; b].
Proof. destruct l as [|a [|b [|c l]]]; unfold zlen; cbn; try lia. by exists a, b. Qed.
Lemma zlen4 (l : bytes) : zlen l = 4 -> exists a b c d, l = [a; b; c; d].
Proof. destruct l as [|a [|b [|c [|d [|e l]]]]]; unfold zlen; cbn; try lia. by exists a, b, c, d. Qed.

(** Replaces the fields of known length by their bytes. *)
Ltac expand :=
  repeat match goal with
  | H : field 2 ?l |- _ => let a := fresh "a" in let b := fresh "b" in let E := fresh "E" in destruct H as [H ?]; destruct (zlen2 _ H) as (a & b & E); clear H
  | H : field 4 ?l |- _ => let a := fresh "a" in let b := fresh "b" in let c := fresh "c" in let d := fresh "d" in let E := fresh "E" in
      destruct H as [H ?]; destruct (zlen4 _ H) as (a & b & c & d & E); clear H
  end.

Ltac expand_fields := expand; repeat match goal with E : _ = _ :: _ |- _ => try rewrite E; clear E end.

Lemma ipv4_len h : ipv4_wf h -> zlen (ipv4_bytes h) = 20.
Proof. destruct 1. unfold ipv4_bytes. expand_fields. done. Qed.
Lemma ipv4_are_bytes h : ipv4_wf h -> is_bytes (ipv4_bytes h).
Proof. destruct 1. unfold ipv4_bytes, is_bytes. repeat (apply Forall_app; split); try (repeat constructor; done || lia); by apply w_tl0 || by apply w_id0 || by apply w_fl0 || by apply w_cs0 || by apply w_sa0 || by apply w_da0. Qed.

Lemma read_ipv4_bytes h rest : ipv4_wf h -> read_ipv4 (ipv4_bytes h ++ rest) = Some h.
Proof. destruct h. destruct 1. cbn [version4_ihl4 ds total_length identification flags3_fragmentoffset13 ttl protocol ip_checksum source_address destination_address] in *. expand. by subst. Qed.

Lemma udp_len h : udp_wf h -> zlen (udp_bytes h) = 8.
Proof. destruct 1. unfold udp_bytes. expand_fields. done. Qed.
Lemma udp_are_bytes h : udp_wf h -> is_bytes (udp_bytes h).
Proof. destruct 1. unfold udp_bytes, is_bytes. repeat (apply Forall_app; split); by apply wu_s0 || by apply wu_d0 || by apply wu_l0 || by apply wu_c0. Qed.

Lemma read_udp_bytes h rest : udp_wf h -> read_udp (udp_bytes h ++ rest) = Some h.
Proof. destruct h. destruct 1. cbn [source_port dest_port udp_length udp_sum] in *. expand. by subst. Qed.

Lemma ipv6_len h : ipv6_wf h -> zlen (ipv6_bytes h) = 40.
Proof. destruct 1. unfold ipv6_bytes. destruct w6_s0 as [Hs _]. destruct w6_d0 as [Hd _]. rewrite !zlen_app, Hs, Hd. expand_fields. done. Qed.

Lemma read_ipv6_bytes h rest : ipv6_wf h -> read_ipv6 (ipv6_bytes h ++ rest) = Some h.
Proof.
  destruct h as [v t f pl nh hl sa da]. destruct 1. cbn [version4_tc4 tc4_fl4 fl payload_length next_header hop_limit source_address6 destination_address6] in *.
  destruct w6_s0 as [Hs _]. destruct w6_d0 as [Hd _]. expand. subst. unfold ipv6_bytes. cbn [version4_tc4 tc4_fl4 fl payload_length next_header hop_limit source_address6 destination_address6 app read_ipv6].
  pose proof (zlen_nonneg rest). rewrite !zlen_app, Hs, Hd. rewrite (proj2 (Z.ltb_ge _ _)) by lia. unfold zlen in Hs, Hd. rewrite <- app_assoc.
  rewrite (take_app_length' sa) by lia. rewrite (drop_app_length' sa) by lia. by rewrite (take_app_length' da) by lia.
Qed.

Lemma load_middle (a b c : bytes) off len : zlen a = off -> zlen b = len -> load off len (a ++ b ++ c) = Some b.
Proof. intros <- <-. apply (proj2 (holds_at_split (zlen a) b (a ++ b ++ c))). by exists a, c. Qed.

Lemma load_tail (a b : bytes) off len : zlen a = off -> zlen b = len -> load off len (a ++ b) = Some b.
Proof. intros Ha Hb. pose proof (load_middle a b [] off len Ha Hb) as H. by rewrite app_nil_r in H. Qed.

(** ** The checks accept what was built *)

Lemma ipv4_check_built h payload :
  ipv4_wf h -> version4_ihl4 h = 69 -> ntoh16 (total_length h) = 20 + zlen payload -> ip_checksum h = ipv4_checksum (set_ip_checksum (hton16 0) h) [] ->
  ipv4_check (ipv4_bytes h ++ payload) = Some (Some (h, payload)).
Proof.
  intros Hwf Hv Ht Hc. pose proof (zlen_nonneg payload). pose proof (ipv4_len h Hwf) as Hl. unfold ipv4_check. rewrite zlen_app, Hl.
  rewrite (proj2 (Z.ltb_ge _ _)) by lia. rewrite read_ipv4_bytes by done. cbn [mbind option_bind]. unfold IPV4_GET_VERSION, IPV4_GET_IHL. rewrite Hv.
  change (Z.shiftr (Z.land 69 240) 4 =? 4) with true. change (Z.land 69 15 * 4) with 20. cbn [negb]. change (20 <? 20) with false. cbn iota. rewrite Ht.
  rewrite !(proj2 (Z.ltb_ge _ _)) by lia. assert (E0 : load 20 (20 - 20) (ipv4_bytes h ++ payload) = Some []) by (by apply (load_middle (ipv4_bytes h) [] payload)).
  rewrite E0. cbn [mbind option_bind].
  rewrite bool_decide_eq_true_2 by done. cbn [negb]. replace (20 + zlen payload - 20) with (zlen payload) by lia.
  by rewrite (load_tail (ipv4_bytes h) payload).
Qed.

Lemma ipv6_check_built h payload :
  ipv6_wf h -> version4_tc4 h = 96 -> ntoh16 (payload_length h) = zlen payload -> ipv6_check (ipv6_bytes h ++ payload) = Some (Some (h, payload)).
Proof.
  intros Hwf Hv Ht. pose proof (zlen_nonneg payload). pose proof (ipv6_len h Hwf) as Hl. unfold ipv6_check. rewrite zlen_app, Hl.
  rewrite (proj2 (Z.ltb_ge _ _)) by lia. rewrite read_ipv6_bytes by done. cbn [mbind option_bind]. rewrite Hv. change (Z.shiftr 96 4 =? 6) with true. cbn [negb].
  rewrite Ht. rewrite (proj2 (Z.ltb_ge _ _)) by lia. by rewrite (load_tail (ipv6_bytes h) payload).
Qed.

Lemma udp_check_built h data : udp_wf h -> ntoh16 (udp_length h) = 8 + zlen data -> udp_check (udp_bytes h ++ data) = Some (Some (h, data)).
Proof.
  intros Hwf Ht. pose proof (zlen_nonneg data). pose proof (udp_len h Hwf) as Hl. unfold udp_check. rewrite zlen_app, Hl.
  rewrite (proj2 (Z.ltb_ge _ _)) by lia. rewrite read_udp_bytes by done. cbn [mbind option_bind]. rewrite Ht. rewrite !(proj2 (Z.ltb_ge _ _)) by lia.
  replace (8 + zlen data - 8) with (zlen data) by lia. by rewrite (load_tail (udp_bytes h) data).
Qed.

Lemma write_packet_built ip udp data wbuf :
  zlen ip + zlen udp + zlen data <= zlen wbuf -> write_packet ip udp data wbuf = Some (ip ++ udp ++ data).
Proof.
  intros H. pose proof (zlen_nonneg ip). pose proof (zlen_nonneg udp). pose proof (zlen_nonneg data). unfold write_packet.
  destruct (store_some 0 ip wbuf) as (b1 & E1 & L1); [lia..|]. rewrite E1. cbn [mbind option_bind].
  destruct (store_some (zlen ip) udp b1) as (b2 & E2 & L2); [lia..|]. rewrite E2. cbn [mbind option_bind].
  destruct (store_some (zlen ip + zlen udp) data b2) as (b3 & E3 & L3); [lia..|]. rewrite E3. cbn [mbind option_bind].
  pose proof (store_holds _ _ _ _ E1) as K1. pose proof (store_holds _ _ _ _ E2) as K2. pose proof (store_holds _ _ _ _ E3) as K3.
  apply (store_keeps _ _ _ _ _ _ E2) in K1; [|left; lia]. apply (store_keeps _ _ _ _ _ _ E3) in K1; [|left; lia]. apply (store_keeps _ _ _ _ _ _ E3) in K2; [|left; lia].
  assert (Hh : holds_at 0 (ip ++ udp ++ data) b3). { apply holds_at_app. split; [done|]. rewrite Z.add_0_l. apply holds_at_app. by split. }
  unfold holds_at in Hh. rewrite !zlen_app, Z.add_assoc in Hh. exact Hh.
Qed.

(** ** The checksums *)

Lemma words_field n l : field n l -> n mod 2 = 0 -> zlen l mod 2 = 0 /\ 0 <= 2 * words l <= 65535 * (n + 1).
Proof. intros [Hl Hb] Hn. pose proof (words_range l Hb). rewrite Hl in *. by split. Qed.

Lemma words_hton16 x : 0 <= x < 2 ^ 16 -> words (hton16 x) = x.
Proof. intros Hx. cbn [words hton16]. pose proof (hton16_value x Hx). lia. Qed.

(** The words of an IPv4 header with its checksum add up to all ones. *)
Lemma ipv4_sum h : ipv4_wf h -> words (ipv4_bytes (set_ip_checksum (ipv4_checksum (set_ip_checksum (hton16 0) h) []) h)) mod 65535 = 0.
Proof.
  intros Hwf. set (h0 := set_ip_checksum (hton16 0) h).
  assert (Hwf0 : ipv4_wf h0) by (destruct Hwf; constructor; try done; apply field_hton16).
  pose proof (words_range _ (ipv4_are_bytes _ Hwf0)) as Hr. rewrite (ipv4_len _ Hwf0) in Hr.
  unfold ipv4_checksum. rewrite (summer_words (ipv4_bytes h0)); [|by apply ipv4_are_bytes|by rewrite ipv4_len|rewrite ipv4_len; [lia|done]].
  change (udp_checksum_summer []) with 0. rewrite Z.add_0_r, u32_small by lia. destruct (check_word_spec (words (ipv4_bytes h0)) ltac:(lia)) as [Hc Hm].
  destruct (fold_carries_spec (words (ipv4_bytes h0)) ltac:(lia)) as [Hf _]. rewrite complement by done. fold (check_word (words (ipv4_bytes h0))).
  set (w := check_word (words (ipv4_bytes h0))) in *. clearbody w. rewrite <- Hm. f_equal. pose proof (hton16_value w Hc) as Hw.
  destruct Hwf. unfold h0, ipv4_bytes, set_ip_checksum. cbn [version4_ihl4 ds total_length identification flags3_fragmentoffset13 ttl protocol ip_checksum source_address destination_address].
  expand_fields. cbn [app words hton16]. change (u8 (Z.shiftr 0 8)) with 0. change (u8 0) with 0. lia.
Qed.

(** What the UDP checksum covers, in IPv4 and IPv6. *)
Definition pseudo4 (src dst : bytes) (len : Z) : bytes := src ++ dst ++ hton16 IPV4_PROTOCOL_UDP ++ hton16 (8 + len).
Definition pseudo6 (src dst : bytes) (len : Z) : bytes := src ++ dst ++ hton32 (8 + len) ++ hton32 IPV6_NEXT_UDP.

Lemma udp_checksum_value h payload src dst :
  udp_wf h -> field 4 src -> field 4 dst -> is_bytes payload -> zlen payload <= 65535 - 8 ->
  udp_checksum h payload src dst = Some (hton16 (check_word (words (pseudo4 src dst (zlen payload) ++ udp_bytes h ++ payload)))) /\
  0 <= words (pseudo4 src dst (zlen payload) ++ udp_bytes h ++ payload) < 2 ^ 32.
Proof.
  intros Hh Hs Hd Hb Hl. pose proof (zlen_nonneg payload). pose proof (words_range _ Hb) as Hrp. pose proof (words_range _ (udp_are_bytes h Hh)) as Hru. pose proof (udp_len h Hh) as Hlu.
  rewrite Hlu in Hru. destruct (words_field 4 src Hs eq_refl) as [Es Hrs]. destruct (words_field 4 dst Hd eq_refl) as [Ed Hrd].
  assert (E : words (pseudo4 src dst (zlen payload) ++ udp_bytes h ++ payload) = words src + words dst + 17 + (8 + zlen payload) + words (udp_bytes h) + words payload).
  { unfold pseudo4. rewrite <- !app_assoc. rewrite !words_app by (done || by rewrite Hlu). rewrite (words_hton16 (8 + zlen payload)) by lia. change (words (hton16 IPV4_PROTOCOL_UDP)) with 17. lia. }
  rewrite E. split; [|lia]. unfold udp_checksum. rewrite payload_sum_words by (done || lia). cbn [mbind option_bind]. cbv zeta.
  rewrite (summer_words src), (summer_words dst) by (apply Hs || apply Hd || done || (destruct Hs as [-> _]; lia) || (destruct Hd as [-> _]; lia)).
  rewrite (summer_words (udp_bytes h)) by (by apply udp_are_bytes || by rewrite Hlu || (rewrite Hlu; lia)).
  rewrite (u16_small (zlen payload)), (u16_small (8 + zlen payload)) by lia. rewrite (summer_words (hton16 (8 + zlen payload))) by (done || apply hton16_bytes).
  rewrite (words_hton16 (8 + zlen payload)) by lia. change (udp_checksum_summer (hton16 IPV4_PROTOCOL_UDP)) with 17.
  rewrite (u32_small (words src + words dst)) by lia. rewrite (u32_small (words src + words dst + 17)) by lia. rewrite (u32_small (_ + (8 + zlen payload))) by lia.
  rewrite (u32_small (_ + words (udp_bytes h))) by lia. rewrite u32_small by lia. by rewrite finish_word by lia.
Qed.

Lemma words_hton32 x : 0 <= x < 2 ^ 24 -> words (hton32 x) = Z.shiftr x 16 + 256 * u8 (Z.shiftr x 8) + u8 x.
Proof.
  intros Hx. cbn [words hton32]. assert (E : u8 (Z.shiftr x 24) = 0). { unfold u8. rewrite Z.shiftr_div_pow2 by lia. by rewrite Z.div_small. }
  assert (E2 : u8 (Z.shiftr x 16) = Z.shiftr x 16). { unfold u8. apply Z.mod_small. rewrite Z.shiftr_div_pow2 by lia. split; [apply Z.div_pos; lia|]. apply Z.div_lt_upper_bound; lia. }
  lia.
Qed.

Lemma udp_ip6_checksum_value h payload src dst :
  udp_wf h -> field 16 src -> field 16 dst -> is_bytes payload -> zlen payload <= 65535 - 8 ->
  udp_ip6_checksum h payload src dst = Some (hton16 (check_word (words (pseudo6 src dst (zlen payload) ++ udp_bytes h ++ payload)))) /\
  0 <= words (pseudo6 src dst (zlen payload) ++ udp_bytes h ++ payload) < 2 ^ 32.
Proof.
  intros Hh Hs Hd Hb Hl. pose proof (zlen_nonneg payload). pose proof (words_range _ Hb) as Hrp. pose proof (words_range _ (udp_are_bytes h Hh)) as Hru. pose proof (udp_len h Hh) as Hlu.
  rewrite Hlu in Hru. destruct (words_field 16 src Hs eq_refl) as [Es Hrs]. destruct (words_field 16 dst Hd eq_refl) as [Ed Hrd].
  assert (Hw : words (hton32 (8 + zlen payload)) = 8 + zlen payload).
  { rewrite words_hton32 by lia. pose proof (hton16_value (8 + zlen payload) ltac:(lia)). rewrite (Z.shiftr_div_pow2 _ 16), Z.div_small by lia. lia. }
  assert (E : words (pseudo6 src dst (zlen payload) ++ udp_bytes h ++ payload) = words src + words dst + (8 + zlen payload) + 17 + words (udp_bytes h) + words payload).
  { unfold pseudo6. rewrite <- !app_assoc. rewrite !words_app by (done || by rewrite Hlu). rewrite Hw. change (words (hton32 IPV6_NEXT_UDP)) with 17. lia. }
  rewrite E. split; [|lia]. unfold udp_ip6_checksum. rewrite payload_sum_words by (done || lia). cbn [mbind option_bind]. cbv zeta.
  rewrite (summer_words src), (summer_words dst) by (apply Hs || apply Hd || done || (destruct Hs as [-> _]; lia) || (destruct Hd as [-> _]; lia)).
  rewrite (summer_words (udp_bytes h)) by (by apply udp_are_bytes || by rewrite Hlu || (rewrite Hlu; lia)).
  rewrite (u16_small (zlen payload)), (u32_small (8 + zlen payload)) by lia. rewrite (summer_words (hton32 (8 + zlen payload))) by (done || apply hton32_bytes).
  rewrite Hw. change (udp_checksum_summer (hton32 IPV6_NEXT_UDP)) with 17.
  rewrite (u32_small (words src + words dst)) by lia. rewrite (u32_small (_ + (8 + zlen payload))) by lia. rewrite (u32_small (_ + 17)) by lia.
  rewrite (u32_small (_ + words (udp_bytes h))) by lia. rewrite u32_small by lia. by rewrite finish_word by lia.
Qed.

(** With the checksum the words of the datagram and its pseudo header add up to all ones. *)
Lemma udp_sum_ok ps h payload :
  udp_wf h -> udp_sum h = hton16 0 -> zlen ps mod 2 = 0 -> 0 <= words (ps ++ udp_bytes h ++ payload) < 2 ^ 32 ->
  words (ps ++ udp_bytes (set_udp_sum (hton16 (check_word (words (ps ++ udp_bytes h ++ payload)))) h) ++ payload) mod 65535 = 0.
Proof.
  intros Hh H0 Hps Hr. destruct (check_word_spec _ Hr) as [Hc Hm]. set (w := check_word _) in *. clearbody w. rewrite <- Hm. f_equal. pose proof (hton16_value w Hc) as Hw.
  rewrite !(words_app ps) by done. unfold udp_bytes, set_udp_sum. cbn [source_port dest_port udp_length udp_sum]. rewrite H0. destruct Hh. clear wu_c0. expand_fields. cbn [app words hton16].
  change (u8 (Z.shiftr 0 8)) with 0. change (u8 0) with 0. lia.
Qed.

(** ** Packets from the device *)

Definition addr_wf (a : BSocks.dest_addr) : Prop :=
  match a with BSocks.ipv4 ip port => field 4 ip /\ field 2 port | BSocks.ipv6 ip port => field 16 ip /\ field 2 port end.
Definition same_family (a b : BSocks.dest_addr) : bool :=
  match a, b with BSocks.ipv4 _ _, BSocks.ipv4 _ _ | BSocks.ipv6 _ _, BSocks.ipv6 _ _ => true | _, _ => false end.

Ltac uncons l := let x := fresh "x" in destruct l as [|x l]; [exfalso; unfold zlen in *; cbn [length] in *; lia|].

Lemma read_ipv4_some data : 20 <= zlen data -> is_bytes data -> exists h, read_ipv4 data = Some h /\ ipv4_wf h.
Proof.
  intros Hl Hb. do 20 uncons data. eexists. split; [reflexivity|]. unfold is_bytes in Hb. rewrite !Forall_cons in Hb. destruct_and! Hb.
  constructor; cbn [version4_ihl4 ds total_length identification flags3_fragmentoffset13 ttl protocol ip_checksum source_address destination_address]; try done.
  all: split; [done|repeat constructor; tauto].
Qed.

Lemma read_ipv6_some data : 40 <= zlen data -> is_bytes data -> exists h, read_ipv6 data = Some h /\ ipv6_wf h.
Proof.
  intros Hl Hb. do 8 uncons data. unfold is_bytes in Hb. rewrite !Forall_cons in Hb. destruct_and! Hb. rewrite !zlen_cons in Hl. cbn [read_ipv6].
  rewrite (proj2 (Z.ltb_ge _ _)) by lia. eexists. split; [reflexivity|].
  constructor; cbn [version4_tc4 tc4_fl4 fl payload_length next_header hop_limit source_address6 destination_address6]; try done.
  all: split; [unfold zlen in *; rewrite ?length_take, ?length_drop; cbn [length]; lia|].
  1-2: repeat constructor; tauto.
  all: unfold is_bytes; by repeat (apply Forall_take || apply Forall_drop).
Qed.

Lemma read_udp_some data : 8 <= zlen data -> is_bytes data -> exists h, read_udp data = Some h /\ udp_wf h.
Proof.
  intros Hl Hb. do 8 uncons data. eexists. split; [reflexivity|]. unfold is_bytes in Hb. rewrite !Forall_cons in Hb. destruct_and! Hb.
  constructor; cbn [source_port dest_port udp_length udp_sum]; (split; [done|repeat constructor; tauto]).
Qed.

Lemma ntoh16_range l : field 2 l -> 0 <= ntoh16 l < 2 ^ 16.
Proof.
  intros [Hl Hb]. destruct (zlen2 l Hl) as (a & b & ->). unfold is_bytes in Hb. rewrite !Forall_cons in Hb. destruct_and! Hb. cbn [ntoh16]. rewrite be16_value by done. lia.
Qed.

(** A part of [data]. *)
Definition within (p data : bytes) : Prop := exists a b, data = a ++ p ++ b.

Lemma load_within off len data p : load off len data = Some p -> within p data /\ zlen p = len.
Proof.
  intros H. destruct (load_inv _ _ _ _ H) as (_ & _ & _ & Hl). split; [|done]. rewrite <- Hl in H. apply holds_at_split in H as (a & b & -> & _). by exists a, b.
Qed.

Lemma within_bytes p data : within p data -> is_bytes data -> is_bytes p.
Proof. intros (a & b & ->) H. apply Forall_app in H as [_ H]. by apply Forall_app in H as [H _]. Qed.

Lemma within_trans p q r : within p q -> within q r -> within p r.
Proof. intros (a & b & ->) (c & d & ->). exists (c ++ a), (b ++ d). by rewrite <- !app_assoc. Qed.

Lemma ipv4_check_safe data :
  is_bytes data -> exists r, ipv4_check data = Some r /\ forall h p, r = Some (h, p) -> ipv4_wf h /\ within p data.
Proof.
  intros Hb. unfold ipv4_check. destruct (Z.ltb_spec (zlen data) 20); [by eexists|]. destruct (read_ipv4_some data) as (h & E & Hwf); [done..|]. rewrite E. cbn [mbind option_bind].
  destruct (negb _); [by eexists|]. cbv zeta. destruct (Z.ltb_spec (IPV4_GET_IHL h * 4) 20); [by eexists|]. destruct (Z.ltb_spec (zlen data) (IPV4_GET_IHL h * 4)); [by eexists|].
  destruct (Z.ltb_spec (ntoh16 (total_length h)) (IPV4_GET_IHL h * 4)); [by eexists|]. destruct (Z.ltb_spec (zlen data) (ntoh16 (total_length h))); [by eexists|].
  destruct (load_some 20 (IPV4_GET_IHL h * 4 - 20) data) as (extra & -> & _); [lia..|]. cbn [mbind option_bind]. destruct (negb _); [by eexists|].
  destruct (load_some (IPV4_GET_IHL h * 4) (ntoh16 (total_length h) - IPV4_GET_IHL h * 4) data) as (p & Ep & _); [lia..|]. rewrite Ep. cbn [mbind option_bind].
  eexists. split; [done|]. intros h' p' [= <- <-]. split; [done|]. by eapply load_within.
Qed.

Lemma ipv6_check_safe data :
  is_bytes data -> exists r, ipv6_check data = Some r /\ forall h p, r = Some (h, p) -> ipv6_wf h /\ within p data.
Proof.
  intros Hb. unfold ipv6_check. destruct (Z.ltb_spec (zlen data) 40); [by eexists|]. destruct (read_ipv6_some data) as (h & E & Hwf); [done..|]. rewrite E. cbn [mbind option_bind].
  destruct (negb _); [by eexists|]. cbv zeta. pose proof (ntoh16_range _ (w6_l _ Hwf)). destruct (Z.ltb_spec (zlen data - 40) (ntoh16 (payload_length h))); [by eexists|].
  destruct (load_some 40 (ntoh16 (payload_length h)) data) as (p & Ep & _); [lia..|]. rewrite Ep. cbn [mbind option_bind].
  eexists. split; [done|]. intros h' p' [= <- <-]. split; [done|]. by eapply load_within.
Qed.

Lemma udp_check_safe data :
  is_bytes data -> exists r, udp_check data = Some r /\ forall h p, r = Some (h, p) -> udp_wf h /\ within p data /\ zlen p <= 65535 - 8.
Proof.
  intros Hb. unfold udp_check. destruct (Z.ltb_spec (zlen data) 8); [by eexists|]. destruct (read_udp_some data) as (h & E & Hwf); [done..|]. rewrite E. cbn [mbind option_bind]. cbv zeta.
  pose proof (ntoh16_range _ (wu_l _ Hwf)). destruct (Z.ltb_spec (ntoh16 (udp_length h)) 8); [by eexists|]. destruct (Z.ltb_spec (zlen data) (ntoh16 (udp_length h))); [by eexists|].
  destruct (load_some 8 (ntoh16 (udp_length h) - 8) data) as (p & Ep & Hl); [lia..|]. rewrite Ep. cbn [mbind option_bind].
  eexists. split; [done|]. intros h' p' [= <- <-]. split; [done|]. split; [by eapply load_within|lia].
Qed.

(** What a packet that was accepted gives. *)
Definition accepted (data : bytes) (s : submission) : Prop :=
  let '(local, remote, _, d) := s in addr_wf local /\ addr_wf remote /\ same_family local remote = true /\ within d data /\ is_bytes d /\ zlen d <= 65535 - 8.

Lemma set_udp_sum_wf c h : udp_wf h -> field 2 c -> udp_wf (set_udp_sum c h).
Proof. destruct 1. intros. by constructor. Qed.

Lemma process_ipv4_safe o data : is_bytes data -> exists r, process_ipv4 o data = Some r /\ forall s, r = Some s -> accepted data s.
Proof.
  intros Hb. unfold process_ipv4.
  assert (exists proto, (if zlen data <? 20 then Some None else b ← load 9 1 data; Some (Some b)) = Some proto) as [proto ->].
  { destruct (Z.ltb_spec (zlen data) 20); [by eexists|]. destruct (load_some 9 1 data) as (b & -> & _); [lia..|]. by eexists. }
  cbn [mbind option_bind]. destruct (negb _); [by eexists|]. destruct (ipv4_check_safe data Hb) as (r & -> & Hr). cbn [mbind option_bind].
  destruct r as [[ip d]|]; [|by eexists]. destruct (Hr ip d eq_refl) as [Hip Hd]. pose proof (within_bytes _ _ Hd Hb) as Hbd. clear Hr.
  destruct (udp_check_safe d Hbd) as (r & -> & Hr). cbn [mbind option_bind]. destruct r as [[udp p]|]; [|by eexists]. destruct (Hr udp p eq_refl) as (Hudp & Hp & Hl).
  pose proof (within_bytes _ _ Hp Hbd) as Hbp. destruct Hip.
  destruct (udp_checksum_value (set_udp_sum [0; 0] udp) p (source_address ip) (destination_address ip)) as [-> _]; [by apply set_udp_sum_wf; [|apply (field_hton16 0)]|done..|].
  cbn [mbind option_bind]. destruct (negb _); [by eexists|]. eexists. split; [done|]. intros s [= <-]. destruct Hudp. split_and!; try done. by eapply within_trans.
Qed.

Lemma process_ipv6_safe o data : is_bytes data -> exists r, process_ipv6 o data = Some r /\ forall s, r = Some s -> accepted data s.
Proof.
  intros Hb. unfold process_ipv6. destruct (negb _); [by eexists|].
  assert (exists proto, (if zlen data <? 40 then Some None else b ← load 6 1 data; Some (Some b)) = Some proto) as [proto ->].
  { destruct (Z.ltb_spec (zlen data) 40); [by eexists|]. destruct (load_some 6 1 data) as (b & -> & _); [lia..|]. by eexists. }
  cbn [mbind option_bind]. destruct (negb _); [by eexists|]. destruct (ipv6_check_safe data Hb) as (r & -> & Hr). cbn [mbind option_bind].
  destruct r as [[ip d]|]; [|by eexists]. destruct (Hr ip d eq_refl) as [Hip Hd]. pose proof (within_bytes _ _ Hd Hb) as Hbd. clear Hr.
  destruct (udp_check_safe d Hbd) as (r & -> & Hr). cbn [mbind option_bind]. destruct r as [[udp p]|]; [|by eexists]. destruct (Hr udp p eq_refl) as (Hudp & Hp & Hl).
  pose proof (within_bytes _ _ Hp Hbd) as Hbp. destruct Hip.
  destruct (udp_ip6_checksum_value (set_udp_sum [0; 0] udp) p (source_address6 ip) (destination_address6 ip)) as [-> _]; [by apply set_udp_sum_wf; [|apply (field_hton16 0)]|done..|].
  cbn [mbind option_bind]. destruct (negb _); [by eexists|]. eexists. split; [done|]. intros s [= <-]. destruct Hudp. split_and!; try done. by eapply within_trans.
Qed.

Lemma process_safe o data :
  is_bytes data ->
  exists r, process_device_udp_packet o data = Some r /\ forall s, r = Some s -> accepted data s /\ zlen s.2 <= udp_mtu o.
Proof.
  intros Hb. unfold process_device_udp_packet. destruct (negb _); [by eexists|]. cbv zeta.
  match goal with |- context [mbind _ ?t] => assert (exists r, t = Some r /\ forall s, r = Some s -> accepted data s) as (r & -> & Hr) end.
  { destruct (_ =? 4); [by apply process_ipv4_safe|]. destruct (_ =? 6); [by apply process_ipv6_safe|]. by eexists. }
  cbn [mbind option_bind]. destruct r as [[[[local remote] dns] d]|]; [|by eexists]. specialize (Hr _ eq_refl).
  destruct (Z.ltb_spec (udp_mtu o) (zlen d)); [by eexists|]. eexists. split; [done|]. by intros s [= <-].
Qed.

(** ** Answers *)

Definition fits (o : options) (local : BSocks.dest_addr) (data : bytes) : bool :=
  match local with
  | BSocks.ipv4 _ _ => (zlen data <=? 0xFFFF - 28) && (zlen data <=? device_mtu o - 28)
  | BSocks.ipv6 _ _ => have_ip6 o && ((zlen data <=? 0xFFFF - 8) && (zlen data <=? device_mtu o - 48))
  end.

(** The checksums of a packet, as its receiver verifies them. *)
Definition sums_ok (local remote : BSocks.dest_addr) (p : bytes) : Prop :=
  match local, remote with
  | BSocks.ipv4 lip _, BSocks.ipv4 rip _ =>
      words (take 20 p) mod 65535 = 0 /\ words (pseudo4 rip lip (zlen p - 28) ++ drop 20 p) mod 65535 = 0
  | BSocks.ipv6 lip _, BSocks.ipv6 rip _ => words (pseudo6 rip lip (zlen p - 48) ++ drop 40 p) mod 65535 = 0
  | _, _ => False
  end.

(** Whether the program would take such a packet for a DNS query. *)
Definition is_query (o : options) (remote : BSocks.dest_addr) (data : bytes) : bool :=
  match remote with
  | BSocks.ipv4 _ port => have_dnsgw o && bool_decide (port = hton16 53) && dns_query data
  | BSocks.ipv6 _ _ => false
  end.

Lemma guard_false len a b : (a <? len) || (b <? len) = negb ((len <=? a) && (len <=? b)).
Proof. destruct (Z.ltb_spec a len), (Z.ltb_spec b len), (Z.leb_spec len a), (Z.leb_spec len b); done || lia. Qed.

Lemma answer_v4 o wbuf lip lport rip rport data :
  field 4 lip -> field 2 lport -> field 4 rip -> field 2 rport -> is_bytes data -> zlen wbuf = device_mtu o ->
  zlen data <= 0xFFFF - 28 -> zlen data <= device_mtu o - 28 ->
  exists p, udpgw_client_handler_received o wbuf (BSocks.ipv4 lip lport) (BSocks.ipv4 rip rport) data = Some (Some p) /\
    zlen p = 28 + zlen data /\ sums_ok (BSocks.ipv4 lip lport) (BSocks.ipv4 rip rport) p /\
    process_ipv4 o p = Some (Some (BSocks.ipv4 rip rport, BSocks.ipv4 lip lport, is_query o (BSocks.ipv4 lip lport) data, data)) /\ exists rest, p = 69 :: rest.
Proof.
  intros Hlip Hlport Hrip Hrport Hb Hw H1 H2. pose proof (zlen_nonneg data). unfold udpgw_client_handler_received. rewrite guard_false, !(proj2 (Z.leb_le _ _)) by lia. cbn [andb negb].
  set (iph := answer_ipv4 rip lip (zlen data)). set (udph := mk_udp rport lport (hton16 (8 + zlen data)) (hton16 0)). cbv zeta.
  set (h0 := mk_ipv4 69 0 (hton16 (20 + 8 + zlen data)) (hton16 0) (hton16 0) 64 IPV4_PROTOCOL_UDP (hton16 0) rip lip).
  assert (Hwf0 : ipv4_wf h0) by (constructor; unfold h0, IPV4_PROTOCOL_UDP; cbn; try lia; done || apply field_hton16).
  assert (Hwf : ipv4_wf iph) by (destruct Hwf0; constructor; try done; apply field_hton16).
  assert (Hudp : udp_wf udph) by (constructor; done || apply field_hton16).
  destruct (udp_checksum_value udph data (source_address iph) (destination_address iph)) as [E Hr]; [done..|lia|]. rewrite E. cbn [mbind option_bind].
  set (c := hton16 (check_word _)) in *. assert (Hudp' : udp_wf (set_udp_sum c udph)) by (apply set_udp_sum_wf; [done|apply field_hton16]).
  pose proof (ipv4_len _ Hwf) as Lip. pose proof (udp_len _ Hudp') as Ludp.
  rewrite write_packet_built by lia. cbn [mbind option_bind]. eexists. split; [done|]. split; [rewrite !zlen_app; lia|]. split; [|split].
  - unfold sums_ok. rewrite !zlen_app, Lip, Ludp. replace (20 + (8 + zlen data) - 28) with (zlen data) by lia. unfold zlen in Lip.
    rewrite (take_app_length' (ipv4_bytes iph)), (drop_app_length' (ipv4_bytes iph)) by lia. split.
    + apply (ipv4_sum h0 Hwf0).
    + apply (udp_sum_ok (pseudo4 rip lip (zlen data)) udph data); try done. unfold pseudo4. rewrite !zlen_app. destruct Hrip as [-> _]. by destruct Hlip as [-> _].
  - unfold process_ipv4. rewrite (proj2 (Z.ltb_ge _ _)) by (rewrite !zlen_app; lia).
    assert (E9 : load 9 1 (ipv4_bytes iph ++ udp_bytes (set_udp_sum c udph) ++ data) = Some [IPV4_PROTOCOL_UDP]).
    { change (ipv4_bytes iph) with ([69; 0] ++ hton16 (20 + 8 + zlen data) ++ hton16 0 ++ hton16 0 ++ [64] ++ [IPV4_PROTOCOL_UDP] ++ ip_checksum iph ++ rip ++ lip).
      rewrite <- !app_assoc. rewrite 4!app_assoc. by apply load_middle. }
    rewrite E9. cbn [mbind option_bind]. rewrite bool_decide_eq_true_2 by done. cbn [negb].
    rewrite ipv4_check_built; [|done|done| |done].
    2:{ rewrite zlen_app, Ludp. change (total_length iph) with (hton16 (20 + 8 + zlen data)). rewrite ntoh16_hton16 by lia. lia. }
    cbn [mbind option_bind]. rewrite udp_check_built; [|done|change (udp_length (set_udp_sum c udph)) with (hton16 (8 + zlen data)); rewrite ntoh16_hton16; lia].
    cbn [mbind option_bind]. change (set_udp_sum [0; 0] (set_udp_sum c udph)) with udph. rewrite E. cbn [mbind option_bind].
    rewrite bool_decide_eq_true_2 by done. cbn [negb]. done.
  - by eexists.
Qed.

Lemma answer_v6 o wbuf lip lport rip rport data :
  field 16 lip -> field 2 lport -> field 16 rip -> field 2 rport -> is_bytes data -> zlen wbuf = device_mtu o -> have_ip6 o = true ->
  zlen data <= 0xFFFF - 8 -> zlen data <= device_mtu o - 48 ->
  exists p, udpgw_client_handler_received o wbuf (BSocks.ipv6 lip lport) (BSocks.ipv6 rip rport) data = Some (Some p) /\
    zlen p = 48 + zlen data /\ sums_ok (BSocks.ipv6 lip lport) (BSocks.ipv6 rip rport) p /\
    process_ipv6 o p = Some (Some (BSocks.ipv6 rip rport, BSocks.ipv6 lip lport, false, data)) /\ exists rest, p = 96 :: rest.
Proof.
  intros Hlip Hlport Hrip Hrport Hb Hw H6 H1 H2. pose proof (zlen_nonneg data). unfold udpgw_client_handler_received. rewrite H6, guard_false, !(proj2 (Z.leb_le _ _)) by lia. cbn [andb negb].
  set (iph := answer_ipv6 rip lip (zlen data)). set (udph := mk_udp rport lport (hton16 (8 + zlen data)) (hton16 0)). cbv zeta.
  assert (Hwf : ipv6_wf iph) by (constructor; unfold iph, answer_ipv6, IPV6_NEXT_UDP; cbn; try lia; done || apply field_hton16).
  assert (Hudp : udp_wf udph) by (constructor; done || apply field_hton16).
  destruct (udp_ip6_checksum_value udph data (source_address6 iph) (destination_address6 iph)) as [E Hr]; [done..|lia|]. rewrite E. cbn [mbind option_bind].
  set (c := hton16 (check_word _)) in *. assert (Hudp' : udp_wf (set_udp_sum c udph)) by (apply set_udp_sum_wf; [done|apply field_hton16]).
  pose proof (ipv6_len _ Hwf) as Lip. pose proof (udp_len _ Hudp') as Ludp.
  rewrite write_packet_built by lia. cbn [mbind option_bind]. eexists. split; [done|]. split; [rewrite !zlen_app; lia|]. split; [|split].
  - unfold sums_ok. rewrite !zlen_app, Lip, Ludp. replace (40 + (8 + zlen data) - 48) with (zlen data) by lia. unfold zlen in Lip.
    rewrite (drop_app_length' (ipv6_bytes iph)) by lia.
    apply (udp_sum_ok (pseudo6 rip lip (zlen data)) udph data); try done. unfold pseudo6. rewrite !zlen_app. destruct Hrip as [-> _]. by destruct Hlip as [-> _].
  - unfold process_ipv6. rewrite H6. cbn [negb]. rewrite (proj2 (Z.ltb_ge _ _)) by (rewrite !zlen_app; lia).
    assert (E6 : load 6 1 (ipv6_bytes iph ++ udp_bytes (set_udp_sum c udph) ++ data) = Some [IPV6_NEXT_UDP]).
    { change (ipv6_bytes iph) with ([96; 0] ++ hton16 0 ++ hton16 (8 + zlen data) ++ [IPV6_NEXT_UDP] ++ [64] ++ rip ++ lip).
      rewrite <- !app_assoc. rewrite 2!app_assoc. by apply load_middle. }
    rewrite E6. cbn [mbind option_bind]. rewrite bool_decide_eq_true_2 by done. cbn [negb].
    rewrite ipv6_check_built; [|done|done|].
    2:{ rewrite zlen_app, Ludp. change (payload_length iph) with (hton16 (8 + zlen data)). rewrite ntoh16_hton16 by lia. lia. }
    cbn [mbind option_bind]. rewrite udp_check_built; [|done|change (udp_length (set_udp_sum c udph)) with (hton16 (8 + zlen data)); rewrite ntoh16_hton16; lia].
    cbn [mbind option_bind]. change (set_udp_sum [0; 0] (set_udp_sum c udph)) with udph. rewrite E. cbn [mbind option_bind].
    rewrite bool_decide_eq_true_2 by done. done.
  - by eexists.
Qed.

(** The answers, both families. *)
Lemma answer_built o wbuf local remote data :
  addr_wf local -> addr_wf remote -> same_family local remote = true -> is_bytes data -> zlen wbuf = device_mtu o ->
  if fits o local data
  then exists p, udpgw_client_handler_received o wbuf local remote data = Some (Some p) /\ zlen p <= device_mtu o /\ sums_ok local remote p /\
         (have_udpgw o = true -> zlen data <= udp_mtu o -> process_device_udp_packet o p = Some (Some (remote, local, is_query o local data, data)))
  else udpgw_client_handler_received o wbuf local remote data = Some None.
Proof.
  intros Hl Hr Hsame Hb Hw. destruct local as [lip lport|lip lport], remote as [rip rport|rip rport]; try done; destruct Hl as [Hlip Hlport], Hr as [Hrip Hrport]; cbn [fits].
  - destruct ((zlen data <=? 65535 - 28) && (zlen data <=? device_mtu o - 28)) eqn:Ef.
    + apply andb_true_iff in Ef as [E1%Z.leb_le E2%Z.leb_le]. destruct (answer_v4 o wbuf lip lport rip rport data) as (p & E & Hz & Hs & Hp & rest & ->); try done.
      exists (69 :: rest). split_and!; try done; [lia|apply Hs..|]. intros Hgw Hm. unfold process_device_udp_packet. rewrite Hgw. cbn [negb]. change (Z.shiftr 69 4) with 4.
      cbn [Z.eqb Pos.eqb]. rewrite Hp. cbn [mbind option_bind]. by rewrite (proj2 (Z.ltb_ge _ _)) by lia.
    + cbn [udpgw_client_handler_received]. rewrite guard_false. change (20 + 8) with 28. by rewrite Ef.
  - destruct (have_ip6 o) eqn:E6; cbn [andb].
    + destruct ((zlen data <=? 65535 - 8) && (zlen data <=? device_mtu o - 48)) eqn:Ef.
      * apply andb_true_iff in Ef as [E1%Z.leb_le E2%Z.leb_le]. destruct (answer_v6 o wbuf lip lport rip rport data) as (p & E & Hz & Hs & Hp & rest & ->); try done.
        exists (96 :: rest). split_and!; try done; [lia|]. intros Hgw Hm. unfold process_device_udp_packet. rewrite Hgw. cbn [negb]. change (Z.shiftr 96 4) with 6.
        cbn [Z.eqb Pos.eqb]. rewrite Hp. cbn [mbind option_bind]. by rewrite (proj2 (Z.ltb_ge _ _)) by lia.
      * cbn [udpgw_client_handler_received]. rewrite E6, guard_false. change (40 + 8) with 48. cbn [negb]. by rewrite Ef.
    + cbn [udpgw_client_handler_received]. by rewrite E6.
Qed.

(** ** Theorems *)

(** Whatever packet an application sends, taking it apart never reads outside of it and always
    gives an answer; what is submitted to the relay is a part of the packet no longer than the
    relay takes, with two addresses of the same family. *)
Theorem udp_packets_parsed o data :
  is_bytes data ->
  exists r, process_device_udp_packet o data = Some r /\
    match r with
    | None => True
    | Some (local, remote, is_dns, d) =>
        addr_wf local /\ addr_wf remote /\ same_family local remote = true /\ (exists a b, data = a ++ d ++ b) /\ zlen d <= udp_mtu o /\ zlen d <= 65535 - 8
    end.
Proof.
  intros Hb. destruct (process_safe o data Hb) as (r & E & Hr). exists r. split; [done|]. destruct r as [[[[local remote] dns] d]|]; [|done].
  destruct (Hr _ eq_refl) as ((? & ? & ? & ? & _ & ?) & ?). by split_and!.
Qed.

(** An answer that fits becomes one packet for the device, written inside the write buffer,
    whose checksums add up as the standards require, and which the program's own checks
    accept and take apart into the same data, sent from the remote to the local address; an
    answer that does not fit is dropped. *)
Theorem udp_answers_read_back o wbuf local remote data :
  addr_wf local -> addr_wf remote -> same_family local remote = true -> is_bytes data -> zlen wbuf = device_mtu o ->
  if fits o local data
  then exists p, udpgw_client_handler_received o wbuf local remote data = Some (Some p) /\ zlen p <= device_mtu o /\ sums_ok local remote p /\
         (have_udpgw o = true -> zlen data <= udp_mtu o -> process_device_udp_packet o p = Some (Some (remote, local, is_query o local data, data)))
  else udpgw_client_handler_received o wbuf local remote data = Some None.
Proof. apply answer_built. Qed.

Definition some_options : options := mk_options true true true 1500 1472.
Definition here : BSocks.dest_addr := BSocks.ipv4 [10; 0; 0; 1] [200; 7].
Definition there : BSocks.dest_addr := BSocks.ipv4 [8; 8; 8; 8] [0; 53].
Definition some_wbuf : bytes := replicate 1500 0.

Lemma here_wf : addr_wf here.
Proof. split; (split; [done|by apply (bool_decide_unpack _)]). Qed.
Lemma there_wf : addr_wf there.
Proof. split; (split; [done|by apply (bool_decide_unpack _)]). Qed.

Definition some_packet : bytes :=
  [69; 0; 0; 33; 0; 0; 0; 0; 64; 17; 96; 188; 8; 8; 8; 8; 10; 0; 0; 1; 0; 53; 200; 7; 0; 13; 20; 129; 1; 2; 3; 4; 5].

Lemma udp_packets_parsed_witness : exists r, process_device_udp_packet some_options some_packet = Some (Some r).
Proof.
  destruct (udp_packets_parsed some_options some_packet) as (r & E & _); [by apply (bool_decide_unpack _)|].
  destruct r as [r|]; [by exists r|]. vm_compute in E. discriminate.
Defined.

Lemma udp_answers_witness :
  exists p, udpgw_client_handler_received some_options some_wbuf here there [1; 2; 3; 4; 5] = Some (Some p) /\
    process_device_udp_packet some_options p = Some (Some (there, here, false, [1; 2; 3; 4; 5])).
Proof.
  destruct (udp_answers_read_back some_options some_wbuf here there [1; 2; 3; 4; 5] here_wf there_wf eq_refl) as (p & E & _ & _ & H);
    [by apply (bool_decide_unpack _)|reflexivity|]. exists p. split; [exact E|]. by apply H.
Defined.

(** A checksum that comes out as zero is to be sent as all ones (RFC 768), and in IPv6 a zero is not
    allowed (RFC 8200): the code means to do this, but makes its test on 32 bits, where it never
    holds. So an answer can leave with the field zero, and a correct packet of a sender that
    follows the rule is not accepted. *)
Theorem zero_checksum_not_replaced :
  (exists p, udpgw_client_handler_received some_options some_wbuf (BSocks.ipv6 (replicate 16 1) [200; 7]) (BSocks.ipv6 (replicate 16 2) [0; 53]) [31; 134] = Some (Some p) /\
     load 46 2 p = Some [0; 0]) /\
  (exists p, load 26 2 p = Some [255; 255] /\ sums_ok here there p /\ process_device_udp_packet some_options p = Some None).
Proof.
  split.
  - eexists. split; [vm_compute; reflexivity|]. reflexivity.
  - exists [69; 0; 0; 30; 0; 0; 0; 0; 64; 17; 96; 191; 8; 8; 8; 8; 10; 0; 0; 1; 0; 53; 200; 7; 0; 10; 255; 255; 29; 141]. split; [reflexivity|]. split; [by split; vm_compute|]. vm_compute. reflexivity.
Qed.

End UdpProto.
