(* ===== verification/BAVL.v ===== *)
(** * Ordered sets: badvpn's BAVL.h

    The tree with which tun2socks finds the connection of a packet, and other parts of badvpn
    their peers and routes: an AVL tree whose nodes lie in the user's structures and have
    pointers to their children and their parent. The heap of nodes is modelled pointer by
    pointer, with one definition per function of the source; following a null pointer or one
    to memory that is not a node is [None], and so is a failed assertion.

    The theorems relate the heap to a sorted list: an insertion, a removal and the lookups do
    to the list what they promise, keep the memory outside the tree unchanged and never
    fault, the tree stays balanced, and its height is logarithmic. The comparison of values
    is an interface, [Comparator]. *)

From Stdlib Require Import Sorted.
From S2P Require Import Prelude.
Open Scope Z_scope.

Module BAVL.

(** The comparison a tree is used with: a total order on values, [0] for equal ones. *)
Class Comparator (V : Type) := {
  compare : V -> V -> Z;
  compare_range v w : compare v w = -1 \/ compare v w = 0 \/ compare v w = 1;
  compare_opp v w : compare w v = - compare v w;
  compare_trans u v w : compare u v = -1 -> compare v w = -1 -> compare u w = -1;
  compare_eq u v w : compare u v = 0 -> compare u w = compare v w }.

(** ** Data *)

Record node := mk_node { parent : option nat; link0 : option nat; link1 : option nat; balance : Z }.

#[export] Instance node_eq_dec : EqDecision node.
Proof. solve_decision. Defined.

(** A side is the index in [link]: [false] is 0, the smaller values, [true] is 1. *)
Definition link (side : bool) (n : node) : option nat := if side then link1 n else link0 n.
Definition set_link (side : bool) (p : option nat) (n : node) : node :=
  if side then mk_node (parent n) (link0 n) p (balance n) else mk_node (parent n) p (link1 n) (balance n).
Definition set_parent (p : option nat) (n : node) : node := mk_node p (link0 n) (link1 n) (balance n).
Definition set_balance (b : Z) (n : node) : node := mk_node (parent n) (link0 n) (link1 n) b.

(** A tree and the memory its nodes are in. *)
Record BAVL := mk_BAVL { root : option nat; nodes : gmap nat node }.

(** ** Access to memory *)

Definition M (A : Type) : Type := BAVL -> option (A * BAVL).

#[export] Instance M_ret : MRet M := fun A x t => Some (x, t).
#[export] Instance M_bind : MBind M := fun A B k m t => match m t with Some (x, t) => k x t | None => None end.

Definition fault {A} : M A := fun _ => None.
Definition assert (b : bool) : M unit := fun t => if b then Some (tt, t) else None.
Definition get_root : M (option nat) := fun t => Some (root t, t).
Definition set_root (p : option nat) : M unit := fun t => Some (tt, mk_BAVL p (nodes t)).
Definition read (i : nat) : M node := fun t => match nodes t !! i with Some n => Some (n, t) | None => None end.
Definition write (i : nat) (f : node -> node) : M unit :=
  fun t => match nodes t !! i with Some n => Some (tt, mk_BAVL (root t) (<[i := f n]> (nodes t))) | None => None end.
(** Initialises memory that is given to the tree. *)
Definition init_node (i : nat) (n : node) : M unit := fun t => Some (tt, mk_BAVL (root t) (<[i := n]> (nodes t))).
(** A dereference of a pointer that may be null. *)
Definition deref (p : option nat) : M nat := match p with Some i => mret i | None => fault end.
(** [if (p) p->parent = q]. *)
Definition adopt (p q : option nat) : M unit := match p with Some i => write i (set_parent q) | None => mret tt end.
(** [p->link[old == p->link[1]] = new], or the root when [p] is null. *)
Definition relink (p : option nat) (old : nat) (new : option nat) : M unit :=
  match p with
  | Some q => n ← read q; write q (set_link (bool_decide (link true n = Some old)) new)
  | None => set_root new
  end.

(** ** Rotations *)

Definition _BAVL_rotate (r : nat) (dir : bool) : M unit :=
  rn ← read r;
  nr ← deref (link (negb dir) rn);
  nn ← read nr;
  write r (set_link (negb dir) (link dir nn));;
  adopt (link dir nn) (Some r);;
  write nr (set_link dir (Some r));;
  write nr (set_parent (parent rn));;
  relink (parent rn) r (Some nr);;
  write r (set_parent (Some nr)).

(** [fuel] bounds the walk down; the height of the tree is enough. *)
Fixpoint _BAVL_subtree_max (fuel : nat) (n : nat) : M nat :=
  match fuel with
  | O => fault
  | S fuel => m ← read n; match link true m with Some c => _BAVL_subtree_max fuel c | None => mret n end
  end.

Definition _BAVL_replace_subtree (dest : nat) (n : option nat) : M unit :=
  d ← read dest;
  relink (parent d) dest n;;
  adopt n (parent d).

(** The two nodes exchange their places. *)
Definition swap_connected (n1 n2 : nat) : M unit :=
  m1 ← read n1;
  m2 ← read n2;
  let side := bool_decide (link true m1 = Some n2) in
  let c := link (negb side) m1 in
  write n1 (set_link false (link false m2));;
  adopt (link false m2) (Some n1);;
  write n1 (set_link true (link true m2));;
  adopt (link true m2) (Some n1);;
  write n2 (set_parent (parent m1));;
  relink (parent m1) n1 (Some n2);;
  write n2 (set_link side (Some n1));;
  write n1 (set_parent (Some n2));;
  write n2 (set_link (negb side) c);;
  adopt c (Some n2).

Definition swap_children (side : bool) (n1 n2 : nat) : M unit :=
  m1 ← read n1;
  m2 ← read n2;
  write n1 (set_link side (link side m2));;
  adopt (link side m2) (Some n1);;
  write n2 (set_link side (link side m1));;
  adopt (link side m1) (Some n2).

Definition swap_apart (n1 n2 : nat) : M unit :=
  m1 ← read n1;
  m2 ← read n2;
  write n1 (set_parent (parent m2));;
  relink (parent m2) n2 (Some n1);;
  write n2 (set_parent (parent m1));;
  relink (parent m1) n1 (Some n2);;
  swap_children false n1 n2;;
  swap_children true n1 n2.

Definition _BAVL_swap_nodes (n1 n2 : nat) : M unit :=
  m1 ← read n1;
  m2 ← read n2;
  (if bool_decide (parent m1 = Some n2) then swap_connected n2 n1
   else if bool_decide (parent m2 = Some n1) then swap_connected n1 n2
   else swap_apart n1 n2);;
  m1 ← read n1;
  m2 ← read n2;
  write n1 (set_balance (balance m2));;
  write n2 (set_balance (balance m1)).

(** ** Balance *)

Definition OPTNEG (a : Z) (neg : bool) : Z := if neg then - a else a.

(** The transformations of a node that is out of balance on side [bside]; the value is the
    node that took its place and whether the height went down. *)
Definition restore (nd : nat) (bside : bool) : M (nat * Z) :=
  let bsidef := OPTNEG (-1) bside in
  n ← read nd;
  child ← deref (link bside n);
  c ← read child;
  if balance c * bsidef =? 1 then
    _BAVL_rotate nd (negb bside);;
    write nd (set_balance 0);;
    write child (set_balance 0);;
    mret (child, -1)
  else if balance c * bsidef =? 0 then
    _BAVL_rotate nd (negb bside);;
    write nd (set_balance (1 * bsidef));;
    write child (set_balance (-1 * bsidef));;
    mret (child, 0)
  else if balance c * bsidef =? -1 then
    gchild ← deref (link (negb bside) c);
    _BAVL_rotate child bside;;
    _BAVL_rotate nd (negb bside);;
    g ← read gchild;
    write nd (set_balance (- Z.max 0 (balance g * bsidef) * bsidef));;
    write child (set_balance (Z.max 0 (- balance g * bsidef) * bsidef));;
    write gchild (set_balance 0);;
    mret (gchild, -1)
  else fault.

(** [fuel] bounds the walk up; the depth of the node is enough. *)
Fixpoint _BAVL_rebalance (fuel : nat) (nd : nat) (side : bool) (deltac : Z) : M unit :=
  match fuel with
  | O => fault
  | S fuel =>
      assert ((-1 <=? deltac) && (deltac <=? 1));;
      n ← read nd;
      assert ((-1 <=? balance n) && (balance n <=? 1));;
      if deltac =? 0 then mret tt
      else
        let delta := Z.max deltac (OPTNEG (balance n) side) - Z.max 0 (OPTNEG (balance n) side) in
        assert ((-1 <=? delta) && (delta <=? 1));;
        let b := balance n - OPTNEG deltac side in
        write nd (set_balance b);;
        r ← (if b =? 2 then restore nd true else if b =? -2 then restore nd false else mret (nd, 0));
        let '(nd, change) := r in
        let delta := delta + change in
        assert ((-1 <=? delta) && (delta <=? 1));;
        n ← read nd;
        match parent n with
        | Some p => m ← read p; _BAVL_rebalance fuel p (bool_decide (link true m = Some nd)) delta
        | None => mret tt
        end
  end.

(** ** The interface *)

Definition BAVL_Init (mem : gmap nat node) : BAVL := mk_BAVL None mem.

Section operations.
Context {V : Type} `{Comparator V}.
(** The values of the nodes. *)
Variable val : nat -> V.

Definition _BAVL_compare_nodes (n1 n2 : nat) : Z := compare (val n1) (val n2).

(** The place for a new node: [inl] a node with an equal value, or [inr] a node and the side on
    which it has no child. *)
Fixpoint find_place (fuel : nat) (nd c : nat) : M (nat + nat * bool) :=
  match fuel with
  | O => fault
  | S fuel =>
      let comp := _BAVL_compare_nodes nd c in
      if comp =? 0 then mret (inl c)
      else
        let side := comp =? 1 in
        n ← read c;
        match link side n with
        | None => mret (inr (c, side))
        | Some c => find_place fuel nd c
        end
  end.

(** The value returned and [*ref]. *)
Definition BAVL_Insert (fuel : nat) (nd : nat) : M (bool * option nat) :=
  r ← get_root;
  match r with
  | None =>
      set_root (Some nd);;
      init_node nd (mk_node None None None 0);;
      mret (true, None)
  | Some r =>
      place ← find_place fuel nd r;
      match place with
      | inl c => mret (false, Some c)
      | inr (c, side) =>
          write c (set_link side (Some nd));;
          init_node nd (mk_node (Some c) None None 0);;
          _BAVL_rebalance fuel c side 1;;
          mret (true, Some c)
      end
  end.

(** The second half of [BAVL_Remove], for a node with at most one child. *)
Definition remove_single (fuel : nat) (nd : nat) : M unit :=
  n ← read nd;
  assert (bool_decide (link false n = None) || bool_decide (link true n = None));;
  let child := match link false n with Some l => Some l | None => link true n end in
  match parent n with
  | Some p =>
      m ← read p;
      let side := bool_decide (link true m = Some nd) in
      _BAVL_replace_subtree nd child;;
      _BAVL_rebalance fuel p side (-1)
  | None => _BAVL_replace_subtree nd child
  end.

Definition BAVL_Remove (fuel : nat) (nd : nat) : M unit :=
  n ← read nd;
  (match link false n, link true n with
   | Some l, Some _ => max ← _BAVL_subtree_max fuel l; _BAVL_swap_nodes nd max
   | _, _ => mret tt
   end);;
  remove_single fuel nd.

Definition BAVL_IsEmpty : M bool := r ← get_root; mret (bool_decide (r = None)).

(** The loop of [BAVL_Lookup] and [BAVL_LookupExact]: the node where it ends and whether its
    value is equal. *)
Fixpoint descend (fuel : nat) (v : V) (c : nat) : M (nat * bool) :=
  match fuel with
  | O => fault
  | S fuel =>
      let comp := compare v (val c) in
      if comp =? 0 then mret (c, true)
      else
        n ← read c;
        match link (comp =? 1) n with
        | None => mret (c, false)
        | Some c => descend fuel v c
        end
  end.

Definition BAVL_Lookup (fuel : nat) (v : V) : M (option nat) :=
  r ← get_root;
  match r with
  | None => mret None
  | Some r => x ← descend fuel v r; mret (Some (fst x))
  end.

(** What [BAVL_LookupExact] makes of it. *)
Definition exact (x : nat * bool) : option nat := if x.2 then Some x.1 else None.

Definition BAVL_LookupExact (fuel : nat) (v : V) : M (option nat) :=
  r ← get_root;
  match r with
  | None => mret None
  | Some r => x ← descend fuel v r; mret (exact x)
  end.

End operations.

(** [while (n->link[side]) n = n->link[side]]. *)
Fixpoint go_down (fuel : nat) (side : bool) (n : nat) : M nat :=
  match fuel with
  | O => fault
  | S fuel => m ← read n; match link side m with Some c => go_down fuel side c | None => mret n end
  end.

(** [while (n->parent && n == n->parent->link[side]) n = n->parent; n = n->parent]. *)
Fixpoint go_up (fuel : nat) (side : bool) (n : nat) : M (option nat) :=
  match fuel with
  | O => fault
  | S fuel =>
      m ← read n;
      match parent m with
      | None => mret None
      | Some p => pn ← read p; if bool_decide (link side pn = Some n) then go_up fuel side p else mret (Some p)
      end
  end.

Definition outermost (fuel : nat) (side : bool) : M (option nat) :=
  r ← get_root; match r with None => mret None | Some r => n ← go_down fuel side r; mret (Some n) end.
Definition BAVL_GetFirst (fuel : nat) : M (option nat) := outermost fuel false.
Definition BAVL_GetLast (fuel : nat) : M (option nat) := outermost fuel true.

Definition neighbour (fuel : nat) (side : bool) (n : nat) : M (option nat) :=
  m ← read n;
  match link side m with
  | Some c => x ← go_down fuel (negb side) c; mret (Some x)
  | None => go_up fuel side n
  end.
Definition BAVL_GetNext (fuel : nat) (n : nat) : M (option nat) := neighbour fuel true n.
Definition BAVL_GetPrev (fuel : nat) (n : nat) : M (option nat) := neighbour fuel false n.

(** The check of the whole tree; its value is the height. *)
Section verify.
Context {V : Type} `{Comparator V}.
Variable val : nat -> V.

Definition assert_child (rec : nat -> M Z) (n : nat) (side : bool) (c : option nat) : M Z :=
  match c with
  | None => mret 0
  | Some c =>
      m ← read c;
      assert (bool_decide (parent m = Some n));;
      assert (_BAVL_compare_nodes val c n =? OPTNEG (-1) side);;
      rec c
  end.

Fixpoint _BAVL_assert_recurser (fuel : nat) (n : nat) : M Z :=
  match fuel with
  | O => fault
  | S fuel =>
      m ← read n;
      assert ((-1 <=? balance m) && (balance m <=? 1));;
      height_left ← assert_child (_BAVL_assert_recurser fuel) n false (link false m);
      height_right ← assert_child (_BAVL_assert_recurser fuel) n true (link true m);
      assert (balance m =? height_right - height_left);;
      mret (Z.max height_left height_right + 1)
  end.

Definition BAVL_Verify (fuel : nat) : M unit :=
  r ← get_root;
  match r with
  | None => mret tt
  | Some r => m ← read r; assert (bool_decide (parent m = None));; _ ← _BAVL_assert_recurser fuel r; mret tt
  end.

End verify.

(** ** Trees and their representation in memory *)

Inductive tree := Leaf | Node (i : nat) (b : Z) (l r : tree).

Definition ptr (t : tree) : option nat := match t with Leaf => None | Node i _ _ _ => Some i end.
(** The nodes from the smallest value to the greatest. *)
Fixpoint ids (t : tree) : list nat := match t with Leaf => [] | Node i _ l r => ids l ++ i :: ids r end.
Fixpoint height (t : tree) : Z := match t with Leaf => 0 | Node _ _ l r => Z.max (height l) (height r) + 1 end.

(** [x] on side [s] and [y] on the other. *)
Definition N (s : bool) (i : nat) (b : Z) (x y : tree) : tree := if s then Node i b y x else Node i b x y.

(** The balance factors are right and within their bounds. *)
Fixpoint avl (t : tree) : Prop :=
  match t with Leaf => True | Node _ b l r => b = height r - height l /\ -1 <= b <= 1 /\ avl l /\ avl r end.

(** A way up from a place in a tree: the nodes on it with their side of the way and the tree on
    the other side. *)
Record frame := mk_frame { f_side : bool; f_id : nat; f_bal : Z; f_sib : tree }.
Definition fill (f : frame) (t : tree) : tree := N (f_side f) (f_id f) (f_bal f) t (f_sib f).
Fixpoint plug (k : list frame) (t : tree) : tree := match k with [] => t | f :: k => plug k (fill f t) end.
Definition up (p : option nat) (k : list frame) : option nat := match k with [] => p | f :: _ => Some (f_id f) end.
Fixpoint top (k : list frame) (c : option nat) : option nat := match k with [] => c | f :: k => top k (Some (f_id f)) end.
Definition f_ids (f : frame) : list nat := f_id f :: ids (f_sib f).
Fixpoint way_ids (k : list frame) : list nat := match k with [] => [] | f :: k => f_ids f ++ way_ids k end.
(** The nodes before and after the place. *)
Fixpoint before (k : list frame) : list nat :=
  match k with [] => [] | f :: k => before k ++ (if f_side f then ids (f_sib f) ++ [f_id f] else []) end.
Fixpoint after (k : list frame) : list nat :=
  match k with [] => [] | f :: k => (if f_side f then [] else f_id f :: ids (f_sib f)) ++ after k end.

Definition cell (s : bool) (p x y : option nat) (b : Z) : node := if s then mk_node p y x b else mk_node p x y b.

(** The tree [t] below the node [p]; the way [k] below [p] that ends in the pointer [c]. *)
Fixpoint rep (h : gmap nat node) (p : option nat) (t : tree) : Prop :=
  match t with
  | Leaf => True
  | Node i b l r => h !! i = Some (mk_node p (ptr l) (ptr r) b) /\ rep h (Some i) l /\ rep h (Some i) r
  end.
Fixpoint seg (h : gmap nat node) (p : option nat) (k : list frame) (c : option nat) : Prop :=
  match k with
  | [] => True
  | f :: k =>
      h !! f_id f = Some (cell (f_side f) (up p k) c (ptr (f_sib f)) (f_bal f)) /\ rep h (Some (f_id f)) (f_sib f) /\
      seg h p k (Some (f_id f))
  end.

(** *** Facts about trees *)

Lemma ids_N s i b x y : ids (N s i b x y) ≡ₚ i :: ids x ++ ids y.
Proof. destruct s; cbn; solve_Permutation. Qed.

Lemma ptr_N s i b x y : ptr (N s i b x y) = Some i.
Proof. by destruct s. Qed.

Lemma height_N s i b x y : height (N s i b x y) = Z.max (height x) (height y) + 1.
Proof. destruct s; cbn; lia. Qed.

Lemma height_nonneg t : 0 <= height t.
Proof. induction t; cbn; lia. Qed.

Lemma avl_N s i b x y : avl (N s i b x y) <-> b = OPTNEG (height y - height x) s /\ -1 <= b <= 1 /\ avl x /\ avl y.
Proof. destruct s; cbn; rewrite ?(Z.opp_sub_distr); intuition lia. Qed.

Lemma rep_N h p s i b x y : rep h p (N s i b x y) <-> h !! i = Some (cell s p (ptr x) (ptr y) b) /\ rep h (Some i) x /\ rep h (Some i) y.
Proof. destruct s; cbn; tauto. Qed.

Lemma plug_app k1 k2 t : plug (k1 ++ k2) t = plug k2 (plug k1 t).
Proof. revert t. by induction k1; cbn. Qed.

Lemma top_app k1 k2 c : top (k1 ++ k2) c = top k2 (top k1 c).
Proof. revert c. by induction k1; cbn. Qed.

Lemma top_way k c d : k <> [] -> top k c = top k d.
Proof. by destruct k. Qed.

Lemma up_app p k1 k2 : up p (k1 ++ k2) = up (up p k2) k1.
Proof. by destruct k1. Qed.

Lemma way_ids_app k1 k2 : way_ids (k1 ++ k2) = way_ids k1 ++ way_ids k2.
Proof. induction k1 as [|f k1 IH]; [done|]. cbn [app way_ids]. by rewrite IH, app_assoc. Qed.

Lemma before_app k1 k2 : before (k1 ++ k2) = before k2 ++ before k1.
Proof. induction k1 as [|f k1 IH]; cbn [app before]; [by rewrite app_nil_r|]. by rewrite IH, app_assoc. Qed.

Lemma after_app k1 k2 : after (k1 ++ k2) = after k1 ++ after k2.
Proof. induction k1 as [|f k1 IH]; cbn [app after]; [done|]. by rewrite IH, app_assoc. Qed.

Lemma seg_app h p k1 k2 c : seg h p (k1 ++ k2) c <-> seg h (up p k2) k1 c /\ seg h p k2 (top k1 c).
Proof.
  revert c. induction k1 as [|f k1 IH]; intros c; cbn [app seg top]; [tauto|]. rewrite IH, up_app. tauto.
Qed.

Lemma ids_plug k t : ids (plug k t) = before k ++ ids t ++ after k.
Proof.
  revert t. induction k as [|[s i b y] k IH]; intros t; cbn [plug before after app]; [by rewrite app_nil_r|].
  rewrite IH. unfold fill, N; cbn. destruct s; cbn; by simplify_list_eq.
Qed.

Lemma way_perm k : way_ids k ≡ₚ before k ++ after k.
Proof.
  induction k as [|[s i b y] k IH]; cbn [way_ids before after]; [done|]. rewrite IH. unfold f_ids; cbn. destruct s; cbn; solve_Permutation.
Qed.

Lemma ids_plug_perm k t : ids (plug k t) ≡ₚ way_ids k ++ ids t.
Proof. rewrite ids_plug, way_perm. solve_Permutation. Qed.

Lemma rep_plug h p k t : rep h p (plug k t) <-> seg h p k (ptr t) /\ rep h (up p k) t.
Proof.
  revert t. induction k as [|f k IH]; intros t; cbn [plug seg up]; [tauto|]. rewrite IH. unfold fill. rewrite ptr_N, rep_N. cbn. tauto.
Qed.

Lemma ptr_plug k t : ptr (plug k t) = top k (ptr t).
Proof. revert t. induction k as [|f k IH]; intros t; cbn; [done|]. rewrite IH. unfold fill. by rewrite ptr_N. Qed.

(** The nodes on the way are balanced if the tree at its end has height [h]. *)
Fixpoint avl_way (k : list frame) (h : Z) : Prop :=
  match k with
  | [] => True
  | f :: k =>
      avl (f_sib f) /\ f_bal f = OPTNEG (height (f_sib f) - h) (f_side f) /\ -1 <= f_bal f <= 1 /\
      avl_way k (Z.max h (height (f_sib f)) + 1)
  end.

Lemma avl_plug k t : avl (plug k t) <-> avl_way k (height t) /\ avl t.
Proof.
  revert t. induction k as [|f k IH]; intros t; cbn [plug avl_way]; [tauto|]. rewrite IH. unfold fill. rewrite height_N, avl_N. tauto.
Qed.

Lemma height_plug k t : Z.of_nat (length k) + height t <= height (plug k t).
Proof. revert t. induction k as [|f k IH]; intros t; cbn; [lia|]. specialize (IH (fill f t)). unfold fill in *. rewrite height_N in IH. lia. Qed.

Lemma find_node i t : i ∈ ids t -> exists k b l r, t = plug k (Node i b l r).
Proof.
  induction t as [|j b l IHl r IHr]; cbn; [by intros ?%elem_of_nil|]. intros [H|[->|H]%elem_of_cons]%elem_of_app.
  - destruct (IHl H) as (k & b' & l' & r' & ->). exists (k ++ [mk_frame false j b r]), b', l', r'. by rewrite plug_app.
  - by exists [], b, l, r.
  - destruct (IHr H) as (k & b' & l' & r' & ->). exists (k ++ [mk_frame true j b l]), b', l', r'. by rewrite plug_app.
Qed.

(** *** Changes of memory *)

(** The two heaps agree outside of [X]. *)
Definition same (X : list nat) (h h' : gmap nat node) : Prop := forall i, i ∉ X -> h' !! i = h !! i.

Lemma same_refl X h : same X h h.
Proof. done. Qed.

Lemma same_trans X h1 h2 h3 : same X h1 h2 -> same X h2 h3 -> same X h1 h3.
Proof. intros H1 H2 i Hi. by rewrite H2, H1. Qed.

Lemma same_mono X Y h h' : X ⊆ Y -> same X h h' -> same Y h h'.
Proof. intros HXY H i Hi. apply H. set_solver. Qed.

Lemma cell_same X h h' i n : same X h h' -> X ## [i] -> h !! i = Some n -> h' !! i = Some n.
Proof. intros H HX E. rewrite H; [done|]. set_solver. Qed.

Lemma rep_same X h h' p t : same X h h' -> X ## ids t -> rep h p t -> rep h' p t.
Proof.
  intros H. revert p. induction t as [|i b l IHl r IHr]; intros p HX; cbn [rep ids] in *; [done|]. intros (E & Hl & Hr).
  split_and!; [eapply cell_same; [done| |done]|apply IHl|apply IHr]; try done; set_solver.
Qed.

Lemma seg_same X h h' p k c : same X h h' -> X ## way_ids k -> seg h p k c -> seg h' p k c.
Proof.
  intros H. revert c. induction k as [|f k IH]; intros c HX; cbn [seg way_ids] in *; [done|]. unfold f_ids in HX. intros (E & Hs & Hk).
  split_and!; [eapply cell_same; [done| |done]|eapply rep_same; [done| |done]|apply IH]; try done; set_solver.
Qed.

(** The tree in memory is [plug k t]; of the memory [h0] only the nodes [X] have changed. *)
Record focus (X : list nat) (h0 : gmap nat node) (T : BAVL) (k : list frame) (t : tree) : Prop := {
  fo_way : seg (nodes T) None k (ptr t);
  fo_root : root T = top k (ptr t);
  fo_rep : rep (nodes T) (up None k) t;
  fo_nodup : NoDup (way_ids k ++ ids t);
  fo_sub : way_ids k ++ ids t ⊆ X;
  fo_out : same X h0 (nodes T) }.

Lemma focus_iff X h0 T k t :
  focus X h0 T k t <->
  root T = ptr (plug k t) /\ rep (nodes T) None (plug k t) /\ NoDup (ids (plug k t)) /\ ids (plug k t) ⊆ X /\ same X h0 (nodes T).
Proof.
  rewrite rep_plug, ptr_plug, ids_plug_perm. split; [intros [H1 H2 H3 H4 H5 H6]|intros (H1 & [H2 H3] & H4 & H5 & H6)]; split_and?; try done.
Qed.

Lemma focus_zoom X h0 T k k' t t' : plug k t = plug k' t' -> focus X h0 T k t -> focus X h0 T k' t'.
Proof. rewrite !focus_iff. by intros ->. Qed.

(** *** Reasoning about the operations *)

Definition wp {A} (m : M A) (Q : A -> BAVL -> Prop) (T : BAVL) : Prop := match m T with Some (x, T') => Q x T' | None => False end.

Lemma avl_mono {A} (m : M A) (P Q : A -> BAVL -> Prop) T : wp m P T -> (forall x T', P x T' -> Q x T') -> wp m Q T.
Proof. unfold wp. destruct (m T) as [[x T']|]; [|done]. intros H HPQ. by apply HPQ. Qed.

Lemma avl_bind {A B} (m : M A) (k : A -> M B) Q T : wp m (fun x => wp (k x) Q) T -> wp (m ≫= k) Q T.
Proof. unfold wp, mbind, M_bind. by destruct (m T) as [[x T']|]. Qed.

Lemma avl_ret {A} (x : A) (Q : A -> BAVL -> Prop) T : Q x T -> wp (mret x) Q T.
Proof. done. Qed.

Lemma avl_assert b (Q : unit -> BAVL -> Prop) T : b = true -> Q tt T -> wp (assert b) Q T.
Proof. by intros ->. Qed.

Lemma avl_read i n (Q : node -> BAVL -> Prop) T : nodes T !! i = Some n -> Q n T -> wp (read i) Q T.
Proof. unfold wp, read. by intros ->. Qed.

Lemma avl_write i f n (Q : unit -> BAVL -> Prop) T :
  nodes T !! i = Some n ->
  (forall T', root T' = root T -> nodes T' !! i = Some (f n) -> same [i] (nodes T) (nodes T') -> Q tt T') -> wp (write i f) Q T.
Proof.
  unfold wp, write. intros -> H. apply H; cbn; [done|by rewrite lookup_insert_eq|]. intros j Hj. rewrite lookup_insert_ne; [done|]. set_solver.
Qed.

Lemma avl_adopt p q t (Q : unit -> BAVL -> Prop) T :
  rep (nodes T) p t -> NoDup (ids t) ->
  (forall T', root T' = root T -> rep (nodes T') q t -> same (ids t) (nodes T) (nodes T') -> Q tt T') -> wp (adopt (ptr t) q) Q T.
Proof.
  intros Hr Hn H. destruct t as [|i b l r]; cbn [ptr adopt]; [by apply H|]. destruct Hr as (E & Hl & Hr). cbn [ids] in *.
  apply NoDup_app in Hn as (_ & Hn & [Hi _]%NoDup_cons). eapply avl_write; [done|]. intros T' ET E' HS. apply H; [done| |by eapply same_mono; [|done]; set_solver].
  cbn [rep]. split_and!; [done|eapply rep_same; [done| |done]..]; set_solver.
Qed.

Lemma avl_relink k p old new (Q : unit -> BAVL -> Prop) f T :
  seg (nodes T) p (f :: k) (Some old) -> NoDup (way_ids (f :: k)) -> old ∉ way_ids (f :: k) ->
  (forall T', root T' = root T -> seg (nodes T') p (f :: k) new -> same (way_ids (f :: k)) (nodes T) (nodes T') -> Q tt T') ->
  wp (relink (Some (f_id f)) old new) Q T.
Proof.
  intros (E & Hs & Hk) Hn Hold H. cbn [relink]. apply avl_bind. eapply avl_read; [done|]. eapply avl_write; [done|]. cbn [way_ids f_ids app] in *.
  apply NoDup_cons in Hn as [Hi _]. intros T' ET E' HS. apply H; [done| |by eapply same_mono; [|done]; unfold f_ids; set_solver]. cbn [seg]. split_and!.
  - rewrite E'. unfold f_ids in *. destruct (f_side f); cbn.
    + by rewrite bool_decide_eq_true_2.
    + rewrite bool_decide_eq_false_2; [done|]. intros Hp. destruct (f_sib f) as [|j ? ? ?]; [done|]. cbn in *. simplify_eq. set_solver.
  - eapply rep_same; [done| |done]. set_solver.
  - eapply seg_same; [done| |done]. set_solver.
Qed.

Lemma avl_relink_top k old new (Q : unit -> BAVL -> Prop) T :
  seg (nodes T) None k (Some old) -> root T = top k (Some old) -> NoDup (way_ids k) -> old ∉ way_ids k ->
  (forall T', seg (nodes T') None k new -> root T' = top k new -> same (way_ids k) (nodes T) (nodes T') -> Q tt T') ->
  wp (relink (up None k) old new) Q T.
Proof.
  intros Hs Hr Hn Hold H. destruct k as [|f k]; [by apply H|]. cbn [up]. eapply avl_relink; [done..|]. intros T' ET Hs' HS. apply H; [done|by rewrite ET|done].
Qed.

(** The parent of the uppermost node of a way. *)
Lemma avl_adopt_way p q k c (Q : unit -> BAVL -> Prop) T :
  k <> [] -> seg (nodes T) p k c -> NoDup (way_ids k) ->
  (forall T', root T' = root T -> seg (nodes T') q k c -> same (way_ids k) (nodes T) (nodes T') -> Q tt T') -> wp (adopt (top k c) q) Q T.
Proof.
  revert c Q. induction k as [|f k IH]; intros c Q Hk Hs Hn H; [done|]. destruct Hs as (E & Hsib & Hs). cbn [way_ids top] in *. unfold f_ids in *.
  cbn [app] in Hn. apply NoDup_cons in Hn as [Hi Hn]. apply NoDup_app in Hn as (Hn1 & Hn2 & Hn3). destruct k as [|f' k].
  - cbn [top adopt] in *. eapply avl_write; [done|]. intros T' ET E' HS. apply H; [done| |by eapply same_mono; [|done]; set_solver].
    cbn [seg up] in *. split_and!; [by rewrite E'; destruct (f_side f)|eapply rep_same; [done| |done]; set_solver|done].
  - eapply IH; [done..|]. intros T' ET Hs' HS. apply H; [done| |by eapply same_mono; [|done]; set_solver]. cbn [seg up] in *.
    split_and!; [eapply cell_same; [done| |done]|eapply rep_same; [done| |done]|..]; try apply Hs'; set_solver.
Qed.

(** *** Reading and writing a cell by sides *)

Lemma parent_cell s p x y b : parent (cell s p x y b) = p.
Proof. by destruct s. Qed.
Lemma balance_cell s p x y b : balance (cell s p x y b) = b.
Proof. by destruct s. Qed.
Lemma link_cell s p x y b : link s (cell s p x y b) = x.
Proof. by destruct s. Qed.
Lemma link_other s p x y b : link (negb s) (cell s p x y b) = y.
Proof. by destruct s. Qed.
Lemma set_link_cell s p x y b v : set_link s v (cell s p x y b) = cell s p v y b.
Proof. by destruct s. Qed.
Lemma set_link_other s p x y b v : set_link (negb s) v (cell s p x y b) = cell s p x v b.
Proof. by destruct s. Qed.
Lemma set_parent_cell s p x y b q : set_parent q (cell s p x y b) = cell s q x y b.
Proof. by destruct s. Qed.
Lemma set_balance_cell s p x y b c : set_balance c (cell s p x y b) = cell s p x y c.
Proof. by destruct s. Qed.
Lemma cell_flip s p x y b : cell (negb s) p x y b = cell s p y x b.
Proof. by destruct s. Qed.
Create Rewrite HintDb cells.
#[local] Hint Rewrite parent_cell balance_cell link_cell link_other set_link_cell set_link_other set_parent_cell set_balance_cell cell_flip negb_involutive : cells.

(** *** Disjoint parts of the tree *)

Lemma nodup_parts (A B : list nat) : NoDup (A ++ B) <-> NoDup A /\ A ## B /\ NoDup B.
Proof. rewrite NoDup_app. split; intros (? & ? & ?); split_and!; try done; set_solver. Qed.

Lemma disjoint_parts (A B C : list nat) : A ## B ++ C <-> A ## B /\ A ## C.
Proof. set_solver. Qed.

Lemma disjoint_flip (A B : list nat) : A ## B -> B ## A.
Proof. set_solver. Qed.

Lemma same_carry X Y h0 h h' : same Y h0 h -> same X h h' -> X ⊆ Y -> same Y h0 h'.
Proof. intros H1 H2 HX. eapply same_trans; [done|]. by eapply same_mono. Qed.

Lemma disjoint_single i (A : list nat) : [i] ## A -> i ∉ A.
Proof. set_solver. Qed.

Lemma within_parts (A B X : list nat) : A ++ B ⊆ X -> A ⊆ X /\ B ⊆ X.
Proof. set_solver. Qed.

Ltac within H := repeat match type of H with _ ++ _ ⊆ _ => let H1 := fresh "HX" in apply within_parts in H as [H1 H] end.
(** Splits [NoDup] of a concatenation into disjointness of any two parts. *)
Ltac parts H :=
  repeat match type of H with
  | NoDup (_ ++ _) =>
      let H1 := fresh "Hp" in let H2 := fresh "Hp" in
      apply nodup_parts in H as (H1 & H2 & H);
      repeat (let H3 := fresh "Hp" in apply disjoint_parts in H2 as [H3 H2])
  end.
Ltac disjoint := first [assumption | apply disjoint_flip; assumption].
(** Carries what is known about the heap over a change of other nodes. *)
Ltac carry HS :=
  match type of HS with
  | same ?X ?h ?h' =>
      repeat match goal with
      | H : h !! ?i = Some _ |- _ => first [apply (cell_same X h h' _ _ HS) in H; [|disjoint] | clear H]
      | H : rep h _ _ |- _ => first [apply (rep_same X h h' _ _ HS) in H; [|disjoint] | clear H]
      | H : seg h _ _ _ |- _ => first [apply (seg_same X h h' _ _ _ HS) in H; [|disjoint] | clear H]
      | H : same ?Y ?h0 h |- _ => apply (fun H => same_carry X Y h0 h h' H HS) in H; [|assumption]
      end; clear HS
  end.
Ltac bind := apply avl_bind.
Ltac reading := bind; eapply avl_read; [eassumption|]; cbv beta; autorewrite with cells.
Ltac fields := cbn [link parent link0 link1 balance negb].
Ltac writing := eapply avl_write; [eassumption|]; let T := fresh "T" in let HS := fresh "HS" in let HR := fresh "HR" in let HE := fresh "HE" in intros T HR HE HS; autorewrite with cells in HE; cbn [set_link set_parent set_balance parent link0 link1 balance] in HE; carry HS.

Lemma rotate_ok X h0 k s r b nr bn x y z (Q : unit -> BAVL -> Prop) T :
  focus X h0 T k (N s r b (N s nr bn x y) z) ->
  (forall T', focus X h0 T' k (N (negb s) nr bn (N s r b y z) x) -> Q tt T') -> wp (_BAVL_rotate r (negb s)) Q T.
Proof.
  intros [Hw Hr Hrep Hn Hsub Hout] HQ. rewrite ptr_N in *. rewrite !rep_N, ptr_N in Hrep. destruct Hrep as (Er & (Enr & Hx & Hy) & Hz).
  assert (HP : way_ids k ++ ids (N s r b (N s nr bn x y) z) ≡ₚ [r] ++ [nr] ++ ids x ++ ids y ++ ids z ++ way_ids k).
  { rewrite !ids_N. solve_Permutation. }
  assert (HP' : way_ids k ++ ids (N (negb s) nr bn (N s r b y z) x) ≡ₚ [r] ++ [nr] ++ ids x ++ ids y ++ ids z ++ way_ids k).
  { rewrite !ids_N. solve_Permutation. }
  rewrite HP in Hn, Hsub. pose proof Hn as HN. pose proof Hsub as HX. within HX. parts Hn.
  unfold _BAVL_rotate. rewrite negb_involutive. reading. bind. apply avl_ret. reading.
  bind; writing. bind. eapply avl_adopt; [done..|]. intros T2 R2 Hy2 HS. carry HS. bind; writing. bind; writing.
  bind. eapply avl_relink_top; [done|congruence|done|by apply disjoint_single|]. intros T4 Hw4 R4 HS. carry HS. writing.
  apply HQ. split; rewrite ?HP'; rewrite ?ptr_N; [done|congruence| |done..].
  rewrite !rep_N, ptr_N. rewrite cell_flip. by split_and!.
Qed.

Lemma set_balance_ok X h0 k s i b c x y (Q : unit -> BAVL -> Prop) T :
  focus X h0 T k (N s i b x y) -> (forall T', focus X h0 T' k (N s i c x y) -> Q tt T') -> wp (write i (set_balance c)) Q T.
Proof.
  intros [Hw Hr Hrep Hn Hsub Hout] HQ. rewrite ptr_N in *. rewrite rep_N in Hrep. destruct Hrep as (E & Hx & Hy).
  assert (HP : forall b, way_ids k ++ ids (N s i b x y) ≡ₚ [i] ++ ids x ++ ids y ++ way_ids k) by (intros; rewrite !ids_N; solve_Permutation).
  rewrite HP in Hn, Hsub. pose proof Hn as HN. pose proof Hsub as HX. within HX. parts Hn. writing.
  apply HQ. split; rewrite ?HP; rewrite ?ptr_N; [done|congruence| |done..]. rewrite !rep_N. by split_and!.
Qed.

(** The same for a node below the focus. *)
Lemma set_balance_below X h0 k f s i b c x y (Q : unit -> BAVL -> Prop) T :
  focus X h0 T k (fill f (N s i b x y)) -> (forall T', focus X h0 T' k (fill f (N s i c x y)) -> Q tt T') -> wp (write i (set_balance c)) Q T.
Proof.
  intros H HQ. eapply set_balance_ok; [by eapply (focus_zoom _ _ _ _ (f :: k)); [|exact H]|]. intros T' H'. apply HQ. by eapply (focus_zoom _ _ _ (f :: k)); [|exact H'].
Qed.

Lemma rotate_below X h0 k f s r b nr bn x y z (Q : unit -> BAVL -> Prop) T :
  focus X h0 T k (fill f (N s r b (N s nr bn x y) z)) ->
  (forall T', focus X h0 T' k (fill f (N (negb s) nr bn (N s r b y z) x)) -> Q tt T') -> wp (_BAVL_rotate r (negb s)) Q T.
Proof.
  intros H HQ. eapply rotate_ok; [by eapply (focus_zoom _ _ _ _ (f :: k)); [|exact H]|]. intros T' H'. apply HQ. by eapply (focus_zoom _ _ _ (f :: k)); [|exact H'].
Qed.

Lemma N_flip s i b x y : N (negb s) i b x y = N s i b y x.
Proof. by destruct s. Qed.

(** A tree that is not empty, seen from side [s]. *)
Lemma tree_N s t : t <> Leaf -> exists i b x y, t = N s i b x y.
Proof. destruct t as [|i b l r]; [done|]. intros _. destruct s; [by exists i, b, r, l|by exists i, b, l, r]. Qed.

Lemma focus_cell X h0 T k s i b x y : focus X h0 T k (N s i b x y) -> nodes T !! i = Some (cell s (up None k) (ptr x) (ptr y) b).
Proof. intros H. apply fo_rep, rep_N in H. by destruct H. Qed.

Lemma ids_N_eq s i b x y : ids (N s i b x y) = if s then ids y ++ i :: ids x else ids x ++ i :: ids y.
Proof. by destruct s. Qed.

(** The arithmetic of heights and the order of the nodes, by sides. *)
Ltac settle s := destruct s; cbn in *; try done; first [lia | by simplify_list_eq | split_and!; try done; lia | idtac].

Lemma restore_ok X h0 k s i b ch z (Q : nat * Z -> BAVL -> Prop) T :
  focus X h0 T k (N s i b ch z) -> avl ch -> avl z -> height ch = height z + 2 ->
  (forall T' t' j d, focus X h0 T' k t' -> ptr t' = Some j -> avl t' -> ids t' = ids (N s i b ch z) -> height t' = height ch + 1 + d -> -1 <= d <= 0 ->
     Q (j, d) T') ->
  wp (restore i s) Q T.
Proof.
  intros Hf Hch Hz Hh HQ. pose proof (height_nonneg z). destruct (tree_N s ch) as (c & bc & x & y & ->); [intros ->; cbn in *; lia|].
  rewrite avl_N in Hch. rewrite height_N in *. destruct Hch as (Hb & Hb1 & Hx & Hy). unfold restore. cbv zeta.
  pose proof (focus_cell _ _ _ _ _ _ _ _ _ Hf) as Ei. rewrite ptr_N in Ei. assert (Ec : nodes T !! c = Some (cell s (Some i) (ptr x) (ptr y) bc)).
  { pose proof (fo_rep _ _ _ _ _ Hf) as Hr. rewrite !rep_N in Hr. tauto. }
  reading. bind. apply avl_ret. reading.
  assert (Ef : bc * OPTNEG (-1) s = height x - height y) by (rewrite Hb; destruct s; cbn; lia). rewrite Ef.
  destruct (Z.eqb_spec (height x - height y) 1) as [E1|E1]; [|destruct (Z.eqb_spec (height x - height y) 0) as [E0|E0]].
  - bind. eapply rotate_ok; [done|]. intros T1 H1. bind. eapply (set_balance_below _ _ _ (mk_frame (negb s) c bc x)); [exact H1|]. intros T2 H2.
    bind. eapply set_balance_ok; [exact H2|]. intros T3 H3. apply avl_ret. eapply HQ; [exact H3|..]; settle s.
  - bind. eapply rotate_ok; [done|]. intros T1 H1. bind. eapply (set_balance_below _ _ _ (mk_frame (negb s) c bc x)); [exact H1|]. intros T2 H2.
    bind. eapply set_balance_ok; [exact H2|]. intros T3 H3. apply avl_ret. eapply HQ; [exact H3|..]; settle s.
  - destruct (Z.eqb_spec (height x - height y) (-1)) as [E2|E2]; [|destruct s; cbn in *; lia]. pose proof (height_nonneg x).
    destruct (tree_N (negb s) y) as (g & bg & u & v & ->); [intros ->; cbn in *; lia|].
    rewrite avl_N in Hy. rewrite height_N in *. destruct Hy as (Hg & Hg1 & Hu & Hv). rewrite ptr_N in *.
    bind. apply avl_ret. bind. replace (_BAVL_rotate c s) with (_BAVL_rotate c (negb (negb s))) by by rewrite negb_involutive.
    eapply (rotate_below _ _ _ (mk_frame s i b z) (negb s) c bc g bg u v x); [unfold fill; cbn; by rewrite N_flip|]. rewrite negb_involutive. intros T1 H1.
    bind. eapply rotate_ok; [exact H1|]. intros T2 H2. pose proof (focus_cell _ _ _ _ _ _ _ _ _ H2) as Eg. reading.
    bind. eapply (set_balance_below _ _ _ (mk_frame (negb s) g bg (N (negb s) c bc v x))); [exact H2|]. intros T3 H3.
    bind. eapply (set_balance_below _ _ _ (mk_frame s g bg _)); [unfold fill; cbn; rewrite <- N_flip; exact H3|]. intros T4 H4.
    bind. eapply set_balance_ok; [exact H4|]. intros T5 H5. apply avl_ret. eapply HQ; [exact H5|..]; settle s.
Qed.

(** The tree in memory is [t], and balanced. *)
Definition balanced (X : list nat) (h0 : gmap nat node) (T : BAVL) (t : tree) : Prop := focus X h0 T [] t /\ avl t.

Lemma in_bounds d : -1 <= d <= 1 -> (-1 <=? d) && (d <=? 1) = true.
Proof. intros. apply andb_true_iff. lia. Qed.

Lemma side_of X h0 T k f t : focus X h0 T (f :: k) t -> t <> Leaf -> bool_decide (link true (cell (f_side f) (up None k) (ptr t) (ptr (f_sib f)) (f_bal f)) = ptr t) = f_side f.
Proof.
  intros H Ht. destruct (f_side f) eqn:Es; cbn; [by apply bool_decide_eq_true|]. apply bool_decide_eq_false. intros E.
  pose proof (fo_nodup _ _ _ _ _ H) as (_ & Hn & _)%NoDup_app. cbn [way_ids] in Hn. unfold f_ids in Hn.
  destruct t as [|i ? ? ?]; [done|]. destruct (f_sib f) as [|j ? ? ?]; [done|]. cbn in *. simplify_eq. apply (Hn i); set_solver.
Qed.

Lemma rebalance_ok fuel X h0 k f t h d (Q : unit -> BAVL -> Prop) T :
  focus X h0 T (f :: k) t -> avl t -> height t = h + d -> -1 <= d <= 1 -> avl_way (f :: k) h -> (length k < fuel)%nat ->
  (forall T' t', balanced X h0 T' t' -> ids t' = ids (plug (f :: k) t) -> Q tt T') ->
  wp (_BAVL_rebalance fuel (f_id f) (f_side f) d) Q T.
Proof.
  revert k f t h d T. induction fuel as [|fuel IH]; intros k f t h d T Hf Ht Hh Hd Hk Hlen HQ; [lia|]. cbn [_BAVL_rebalance].
  destruct Hk as (Hsib & Hb & Hb1 & Hk). bind. apply avl_assert; [by apply in_bounds|].
  assert (Hf1 : focus X h0 T k (N (f_side f) (f_id f) (f_bal f) t (f_sib f))) by by eapply focus_zoom; [|exact Hf].
  pose proof (focus_cell _ _ _ _ _ _ _ _ _ Hf1) as Ei. reading. bind. apply avl_assert; [by apply in_bounds|].
  destruct (Z.eqb_spec d 0) as [->|Hd0].
  { apply avl_ret. eapply HQ; [|done]. split; [by eapply focus_zoom; [|exact Hf]|]. apply avl_plug. cbn [avl_way].
    replace (height t) with h by lia. split_and!; try done; lia. }
  pose proof (height_nonneg t). pose proof (height_nonneg (f_sib f)). set (s := f_side f) in *. set (y := f_sib f) in *.
  set (delta := Z.max d (OPTNEG (f_bal f) s) - Z.max 0 (OPTNEG (f_bal f) s)).
  assert (Hdelta : Z.max (height t) (height y) = Z.max h (height y) + delta /\ -1 <= delta <= 1).
  { unfold delta. rewrite Hb. clearbody s. destruct s; cbn in *; lia. }
  destruct Hdelta as [Hdelta Hdb]. cbv zeta. bind. apply avl_assert; [by apply in_bounds|]. set (b := f_bal f - OPTNEG d s).
  assert (Hb' : b = OPTNEG (height y - height t) s) by (unfold b; rewrite Hb, Hh; clearbody s; destruct s; cbn; lia).
  bind. eapply set_balance_ok; [exact Hf1|]. intros T1 H1. clear Hf Hf1 Ei T. bind.
  apply (avl_mono _ (fun '(j, c) T' => exists t', focus X h0 T' k t' /\ ptr t' = Some j /\ avl t' /\ ids t' = ids (N s (f_id f) b t y) /\
    height t' = Z.max h (height y) + 1 + (delta + c) /\ -1 <= delta + c <= 1)).
  { destruct (Z.eqb_spec b 2) as [E2|E2]; [|destruct (Z.eqb_spec b (-2)) as [E3|E3]].
    1-2: destruct s eqn:Es; cbn in Hb, Hb'; (eapply restore_ok; [first [exact H1|rewrite <- (N_flip (negb s)), Es in H1; exact H1]|done|done|lia|]).
    1-4: intros T' t' j c H2 Ej Ha Ei Hht Hc; exists t'; rewrite Hht; split_and!; try done; lia.
    apply avl_ret. exists (N s (f_id f) b t y). rewrite ptr_N, height_N, avl_N. clearbody s. split_and!; try done; destruct s; cbn in *; lia. }
  intros [j c] T2 (t' & H2 & Ej & Ht' & Eids & Hh' & Hc). cbv beta iota. bind. apply avl_assert; [by apply in_bounds|].
  destruct (tree_N false t') as (j' & b' & x' & y' & ->); [by intros ->|]. rewrite ptr_N in Ej. simplify_eq.
  pose proof (focus_cell _ _ _ _ _ _ _ _ _ H2) as Ej. reading. destruct k as [|f' k]; cbn [up].
  - apply avl_ret. eapply HQ; [by split|]. cbn [plug]. rewrite Eids. unfold fill. by rewrite !ids_N_eq.
  - pose proof (fo_way _ _ _ _ _ H2) as (Ep & _). reading. rewrite ptr_N in Ep |- *.
    pose proof (side_of _ _ _ _ _ _ H2) as Hs. rewrite ptr_N in Hs. rewrite Hs by done. eapply IH; [exact H2|done|exact Hh'|done|done|cbn in *; lia|].
    intros T' t'' Hb2 Ei2. eapply HQ; [exact Hb2|]. rewrite Ei2, !ids_plug. cbn [before after]. rewrite Eids, ids_N_eq. unfold s, y.
    destruct (f_side f); cbn; by simplify_list_eq.
Qed.

(** The new node below the place [f :: k]. *)
Lemma attach_ok {A} X h0 T k f nd (Q : A -> BAVL -> Prop) (m : M A) :
  focus X h0 T (f :: k) Leaf -> nd ∉ way_ids (f :: k) -> nd ∈ X ->
  (forall T', focus X h0 T' (f :: k) (Node nd 0 Leaf Leaf) -> wp m Q T') ->
  wp (write (f_id f) (set_link (f_side f) (Some nd));; init_node nd (mk_node (Some (f_id f)) None None 0);; m) Q T.
Proof.
  intros [Hw Hr _ Hn Hsub Hout] Hnd HX HQ. cbn [ids ptr seg way_ids top up] in *. rewrite app_nil_r in *. unfold f_ids in *. cbn [app] in *.
  destruct Hw as (E & Hsib & Hk). pose proof Hn as HN. change (f_id f :: ids (f_sib f) ++ way_ids k) with ([f_id f] ++ ids (f_sib f) ++ way_ids k) in Hn, Hsub.
  pose proof Hsub as HX1. within HX1. parts Hn. bind; writing.
  assert (HS : same [nd] (nodes T0) (<[nd := mk_node (Some (f_id f)) None None 0]> (nodes T0))).
  { intros j Hj. rewrite lookup_insert_ne; [done|]. set_solver. }
  assert (HXn : [nd] ⊆ X) by set_solver. assert ([nd] ## [f_id f]) by set_solver. assert ([nd] ## ids (f_sib f)) by set_solver. assert ([nd] ## way_ids k) by set_solver.
  bind. unfold wp at 1, init_node. carry HS. apply HQ. split; cbn [nodes root ids ptr seg way_ids top up rep]; unfold f_ids.
  - by split_and!.
  - congruence.
  - by rewrite lookup_insert_eq.
  - apply NoDup_app. split_and!; [done| |apply NoDup_singleton]. set_solver.
  - set_solver.
  - done.
Qed.

(** *** Exchanging a node with the greatest one on its left *)

Lemma up_not p k i : i ∉ way_ids k -> p <> Some i -> up p k <> Some i.
Proof. destruct k as [|f k]; cbn; [done|]. unfold f_ids. intros Hi _ [= <-]. set_solver. Qed.

Lemma ptr_not t i : i ∉ ids t -> ptr t <> Some i.
Proof. destruct t as [|j b l r]; cbn; [done|]. intros Hi [= ->]. set_solver. Qed.

(** The node [a] with [r] on its right, and on the way [k2] on its left the node [c] with only
    [l2] on its left. *)
Record placed (X : list nat) (h0 : gmap nat node) (k2 : list frame) (r : tree) (k : list frame) (l2 : tree) (T : BAVL) (a : nat) (ba : Z) (c : nat) (bc : Z) : Prop := {
  pl_upper : nodes T !! a = Some (mk_node (up None k) (top k2 (Some c)) (ptr r) ba);
  pl_lower : nodes T !! c = Some (mk_node (up (Some a) k2) (ptr l2) None bc);
  pl_way2 : seg (nodes T) (Some a) k2 (Some c);
  pl_way : seg (nodes T) None k (Some a);
  pl_right : rep (nodes T) (Some a) r;
  pl_left : rep (nodes T) (Some c) l2;
  pl_root : root T = top k (Some a);
  pl_out : same X h0 (nodes T) }.

Definition regions (k2 : list frame) (r : tree) (k : list frame) (l2 : tree) (a c : nat) : list nat :=
  [a] ++ [c] ++ way_ids k2 ++ ids r ++ way_ids k ++ ids l2.

Lemma regions_perm k2 r k l2 a b c d : way_ids (k2 ++ mk_frame false a b r :: k) ++ ids (Node c d l2 Leaf) ≡ₚ regions k2 r k l2 a c.
Proof. rewrite way_ids_app. unfold regions. cbn [way_ids ids]. unfold f_ids; cbn. solve_Permutation. Qed.

Lemma focus_placed X h0 T k2 r k l2 a ba c bc :
  focus X h0 T (k2 ++ mk_frame false a ba r :: k) (Node c bc l2 Leaf) <->
  placed X h0 k2 r k l2 T a ba c bc /\ NoDup (regions k2 r k l2 a c) /\ regions k2 r k l2 a c ⊆ X.
Proof.
  split.
  - intros [Hw Hr Hrep Hn Hsub Hout]. rewrite regions_perm in Hn, Hsub. split; [|done]. cbn [ptr rep] in *. apply seg_app in Hw as [Hw2 Hw].
    rewrite up_app in Hrep. rewrite top_app in Hr. cbn [seg up top f_id f_side f_bal f_sib cell] in *. by split; try tauto.
  - intros ([H1 H2 H3 H4 H5 H6 H7 H8] & Hn & Hsub). split; rewrite ?regions_perm; try done; cbn [ptr rep].
    + apply seg_app. cbn [seg up top f_id f_side f_bal f_sib cell]. tauto.
    + by rewrite top_app.
    + rewrite up_app. cbn. tauto.
Qed.

Lemma swap_connected_ok X h0 r k l2 T n1 b1 n2 b2 (Q : unit -> BAVL -> Prop) :
  placed X h0 [] r k l2 T n1 b1 n2 b2 -> NoDup (regions [] r k l2 n1 n2) -> regions [] r k l2 n1 n2 ⊆ X ->
  (forall T', placed X h0 [] r k l2 T' n2 b2 n1 b1 -> Q tt T') -> wp (swap_connected n1 n2) Q T.
Proof.
  intros [E1 E2 _ Hk Hr Hl Hroot Hout] Hn Hsub HQ. cbn [up top] in *. unfold regions in *. cbn [way_ids] in *. change ([] ++ ?x) with x in *.
  pose proof Hsub as HX. within HX. parts Hn. unfold swap_connected. reading. reading. fields. cbv zeta.
  rewrite bool_decide_eq_false_2 by by apply ptr_not, disjoint_single. fields.
  bind; writing. bind. eapply avl_adopt; [done..|]. intros T2 R2 Hl2 HS. carry HS. bind; writing. bind; apply avl_ret. bind; writing.
  bind. eapply avl_relink_top; [done|congruence|done|by apply disjoint_single|]. intros T4 Hk4 R4 HS. carry HS.
  bind; writing. bind; writing. bind; writing. eapply avl_adopt; [done..|]. intros T8 R8 Hr8 HS. carry HS. apply HQ. split; try done. congruence.
Qed.

Lemma swap_apart_ok X h0 k2 r k l2 T n1 b1 n2 b2 (Q : unit -> BAVL -> Prop) :
  placed X h0 k2 r k l2 T n1 b1 n2 b2 -> NoDup (regions k2 r k l2 n1 n2) -> regions k2 r k l2 n1 n2 ⊆ X -> k2 <> [] ->
  (forall T', placed X h0 k2 r k l2 T' n2 b2 n1 b1 -> Q tt T') -> wp (swap_apart n1 n2) Q T.
Proof.
  intros [E1 E2 Hk2 Hk Hr Hl Hroot Hout] Hn Hsub Hne HQ. unfold regions in *. pose proof Hsub as HX. within HX. parts Hn.
  rewrite (top_way _ _ (Some n1)) in E1 by done.
  unfold swap_apart. reading. reading. fields. bind; writing. bind. destruct k2 as [|f k2]; [done|]. cbn [up] in *.
  eapply avl_relink; [done|done|by apply disjoint_single|]. intros T2 R2 Hk2' HS. carry HS. bind; writing.
  bind. eapply avl_relink_top; [done|congruence|done|by apply disjoint_single|]. intros T4 Hk4 R4 HS. carry HS.
  bind. unfold swap_children at 1. reading. reading. fields. bind; writing. bind. eapply avl_adopt; [done..|]. intros T6 R6 Hl6 HS. carry HS.
  bind; writing. eapply avl_adopt_way; [done..|]. intros T8 R8 Hk8 HS. carry HS.
  unfold swap_children. reading. reading. fields. bind; writing. bind; apply avl_ret. bind; writing. eapply avl_adopt; [done..|]. intros T11 R11 Hr11 HS. carry HS.
  apply HQ. split; try done. congruence.
Qed.

Lemma swap_ok X h0 k2 n1 b1 r k n2 b2 l2 (Q : unit -> BAVL -> Prop) T :
  focus X h0 T (k2 ++ mk_frame false n1 b1 r :: k) (Node n2 b2 l2 Leaf) ->
  (forall T', focus X h0 T' (k2 ++ mk_frame false n2 b1 r :: k) (Node n1 b2 l2 Leaf) -> Q tt T') ->
  wp (_BAVL_swap_nodes n1 n2) Q T.
Proof.
  intros (Hpl & Hn & Hsub)%focus_placed HQ. pose proof Hn as HD. unfold regions in HD. parts HD. pose proof (pl_upper _ _ _ _ _ _ _ _ _ _ _ Hpl) as E1.
  pose proof (pl_lower _ _ _ _ _ _ _ _ _ _ _ Hpl) as E2. unfold _BAVL_swap_nodes. reading. reading. fields.
  rewrite bool_decide_eq_false_2 by (apply up_not; [by apply disjoint_single|done]). clear E1 E2. bind.
  apply (avl_mono _ (fun _ T' => placed X h0 k2 r k l2 T' n2 b2 n1 b1)).
  { destruct k2 as [|f k2]; cbn [up].
    - rewrite bool_decide_eq_true_2 by done. by eapply swap_connected_ok.
    - rewrite bool_decide_eq_false_2; [by eapply swap_apart_ok|]. apply (up_not None (f :: k2)); [by apply disjoint_single|done]. }
  assert (HP : regions k2 r k l2 n2 n1 ≡ₚ regions k2 r k l2 n1 n2) by (unfold regions; solve_Permutation).
  intros _ T' [E2 E1 Hk2 Hk Hr Hl Hroot Hout]. pose proof Hn as HN. pose proof Hsub as HX. unfold regions in HN, HX. within HX. parts HN.
  reading. reading. fields. bind; writing. writing. apply HQ, focus_placed. rewrite HP. split; [|done]. split; try done. congruence.
Qed.

(** *** Removing a node *)

Lemma subtree_max_down fuel n T : _BAVL_subtree_max fuel n T = go_down fuel true n T.
Proof.
  revert n. induction fuel as [|fuel IH]; intros n; [done|]. cbn. unfold mbind, M_bind, read. destruct (nodes T !! n) as [m|]; [|done]. by destruct (link1 m).
Qed.

(** The outermost node of a tree. *)
Lemma go_down_ok fuel s i b x y p T (Q : nat -> BAVL -> Prop) :
  rep (nodes T) p (N s i b x y) -> height (N s i b x y) <= Z.of_nat fuel ->
  (forall k j c z, N s i b x y = plug k (N s j c Leaf z) -> Forall (fun f => f_side f = s) k -> Q j T) -> wp (go_down fuel s i) Q T.
Proof.
  revert i b x y p Q. induction fuel as [|fuel IH]; intros i b x y p Q Hr Hh HQ; rewrite height_N in Hh; pose proof (height_nonneg x); pose proof (height_nonneg y); [lia|].
  apply rep_N in Hr as (E & Hx & _). cbn [go_down]. reading. destruct x as [|i' b' l' r'] eqn:Ex; cbn [ptr].
  - apply avl_ret. by eapply (HQ []).
  - destruct (tree_N s x) as (j & c & u & v & Eu); [by rewrite Ex|]. rewrite <- Ex in *. assert (i' = j) as ->.
    { assert (Hp : ptr x = Some i') by by rewrite Ex. rewrite Eu, ptr_N in Hp. by simplify_eq. }
    rewrite Eu in *. eapply IH; [done|lia|]. intros k j' c' z Ek Hk. apply (HQ (k ++ [mk_frame s i b y]) j' c' z).
    + by rewrite plug_app, <- Ek.
    + apply Forall_app. split; [done|]. by apply Forall_singleton.
Qed.

Lemma before_after_side s k : Forall (fun f => f_side f = s) k -> (if s then after k else before k) = [].
Proof. induction 1 as [|f k Hf _ IH]; [by destruct s|]. destruct s; cbn; by rewrite IH, Hf. Qed.

Lemma replace_ok X h0 k nd b l r x (Q : unit -> BAVL -> Prop) T :
  focus X h0 T k (Node nd b l r) -> (l = Leaf /\ x = r \/ r = Leaf /\ x = l) ->
  (forall T', focus X h0 T' k x -> Q tt T') -> wp (_BAVL_replace_subtree nd (ptr x)) Q T.
Proof.
  intros [Hw Hr Hrep Hn Hsub Hout] Hx HQ. cbn [ptr rep] in *. destruct Hrep as (E & Hl & Hrr).
  assert (HP : way_ids k ++ ids (Node nd b l r) ≡ₚ [nd] ++ way_ids k ++ ids x) by (destruct Hx as [[-> ->]|[-> ->]]; cbn; solve_Permutation).
  assert (Hrx : rep (nodes T) (Some nd) x) by (destruct Hx as [[-> ->]|[-> ->]]; done). clear Hl Hrr.
  rewrite HP in Hn, Hsub. pose proof Hn as HN. pose proof Hsub as HX. within HX. parts Hn. unfold _BAVL_replace_subtree. reading. fields.
  bind. eapply avl_relink_top; [done|congruence|done|by apply disjoint_single|]. intros T1 Hw1 R1 HS. carry HS.
  eapply avl_adopt; [done..|]. intros T2 R2 Hr2 HS. carry HS. apply HQ. split; try done; [congruence| |].
  - by apply nodup_parts in HN as (_ & _ & HN).
  - by apply within_parts in Hsub as [_ Hsub].
Qed.

Lemma remove_single_ok X h0 fuel k nd b l r T (Q : unit -> BAVL -> Prop) :
  focus X h0 T k (Node nd b l r) -> avl (plug k (Node nd b l r)) -> l = Leaf \/ r = Leaf -> (length k <= fuel)%nat ->
  (forall T' t', balanced X h0 T' t' -> ids t' = before k ++ ids l ++ ids r ++ after k -> Q tt T') -> wp (remove_single fuel nd) Q T.
Proof.
  intros Hf Ha Hlr Hlen HQ. pose proof (fo_rep _ _ _ _ _ Hf) as (E & _). unfold remove_single. reading. fields. bind. apply avl_assert.
  { apply orb_true_iff. destruct Hlr as [-> | ->]; [left|right]; by apply bool_decide_eq_true. }
  set (x := match l with Leaf => r | _ => l end). assert (Hx : l = Leaf /\ x = r \/ r = Leaf /\ x = l).
  { unfold x. destruct l; [by left|]. destruct Hlr; [done|by right]. }
  assert (Ex : ids l ++ ids r = ids x) by (destruct Hx as [[-> ->]|[-> ->]]; cbn; by rewrite ?app_nil_r).
  assert (Ep : (match ptr l with Some l => Some l | None => ptr r end) = ptr x) by by unfold x; destruct l. rewrite Ep. cbv zeta.
  apply avl_plug in Ha as [Hw Ha]. cbn [height avl] in Hw, Ha. destruct Ha as (_ & _ & Hal & Har).
  assert (Hax : avl x) by (destruct Hx as [[_ ->]|[_ ->]]; done).
  assert (Hhx : Z.max (height l) (height r) + 1 = height x + 1).
  { pose proof (height_nonneg x). destruct Hx as [[-> ->]|[-> ->]]; cbn [height] in *; lia. }
  rewrite Hhx in Hw. destruct k as [|f k]; cbn [up].
  - eapply replace_ok; [done..|]. intros T' Hf'. eapply HQ; [by split|]. cbn. by rewrite app_nil_r.
  - pose proof (fo_way _ _ _ _ _ Hf) as (Ef & _). cbn [ptr] in Ef. reading. pose proof (side_of _ _ _ _ _ _ Hf) as Hs. cbn [ptr link] in Hs. rewrite Hs by done.
    bind. eapply replace_ok; [done..|]. intros T1 Hf1. eapply (rebalance_ok _ _ _ _ _ _ (height x + 1) (-1)); [exact Hf1|done|lia|lia|exact Hw|cbn in *; lia|].
    intros T' t' Hb Ei. eapply HQ; [exact Hb|]. by rewrite Ei, ids_plug, <- Ex, <- !app_assoc.
Qed.

Lemma avl_rename k2 s a a' b r k c c' d x y :
  avl (plug (k2 ++ mk_frame s a b r :: k) (Node c d x y)) -> avl (plug (k2 ++ mk_frame s a' b r :: k) (Node c' d x y)).
Proof.
  rewrite !avl_plug. cbn [height avl]. generalize (Z.max (height x) (height y) + 1) as h. intros h [Hw Ha]. split; [|done]. clear Ha. revert h Hw.
  induction k2 as [|f k2 IH]; intros h; cbn [app avl_way f_sib f_side f_bal]; [tauto|]. intros (? & ? & ? & ?). split_and!; try tauto. by apply IH.
Qed.

Lemma remove_node X h0 fuel k nd b l r T (Q : unit -> BAVL -> Prop) :
  focus X h0 T k (Node nd b l r) -> avl (plug k (Node nd b l r)) -> height (plug k (Node nd b l r)) <= Z.of_nat fuel ->
  (forall T' t', balanced X h0 T' t' -> ids t' = before k ++ ids l ++ ids r ++ after k -> Q tt T') -> wp (BAVL_Remove fuel nd) Q T.
Proof.
  intros Hf Ha Hh HQ. pose proof (fo_rep _ _ _ _ _ Hf) as (E & Hl & _). unfold BAVL_Remove. reading. fields.
  assert (Hdone : l = Leaf \/ r = Leaf -> wp (remove_single fuel nd) Q T).
  { intros Hlr. eapply remove_single_ok; [exact Hf|done|done| |done]. pose proof (height_plug k (Node nd b l r)) as Hp. pose proof (height_nonneg (Node nd b l r)). lia. }
  destruct l as [|c b1 l1 r1]; [bind; apply avl_ret; by apply Hdone; left|]. destruct r as [|c' b2 l2 r2]; [bind; apply avl_ret; by apply Hdone; right|].
  clear Hdone. cbn [ptr]. bind. bind. unfold wp at 1. rewrite subtree_max_down. eapply (go_down_ok fuel true c b1 r1 l1); [exact Hl| |].
  { pose proof (height_plug k (Node nd b (Node c b1 l1 r1) (Node c' b2 l2 r2))) as Hp. cbn [height N] in *. pose proof (height_nonneg l2). pose proof (height_nonneg r2). lia. }
  intros k2 m bm z Em Hk2. cbn [N] in Em. set (R := Node c' b2 l2 r2) in *.
  assert (Et : plug (k2 ++ mk_frame false nd b R :: k) (Node m bm z Leaf) = plug k (Node nd b (Node c b1 l1 r1) R)).
  { rewrite plug_app. cbn [plug]. unfold fill; cbn. by rewrite <- Em. }
  eapply swap_ok; [eapply focus_zoom; [|exact Hf]; by rewrite Et|]. intros T' Hf'. eapply remove_single_ok; [exact Hf'| |by right| |].
  - eapply avl_rename. by rewrite Et.
  - pose proof (height_plug (k2 ++ mk_frame false nd b R :: k) (Node m bm z Leaf)) as Hp. rewrite Et in Hp. pose proof (height_nonneg (Node m bm z Leaf)).
    rewrite length_app in *. cbn [length] in *. lia.
  - intros T2 t' Hb Ei. eapply HQ; [exact Hb|]. rewrite Ei, Em, ids_plug, before_app, after_app. pose proof (before_after_side _ _ Hk2) as Ea. cbn in Ea.
    rewrite Ea. cbn. by simplify_list_eq.
Qed.

(** *** Neighbours *)

(** The node next to a place on side [s]. *)
Definition beside (s : bool) (k : list frame) : option nat := if s then head (after k) else last (before k).

Lemma go_up_ok X h0 fuel s k n b l r T (Q : option nat -> BAVL -> Prop) :
  focus X h0 T k (Node n b l r) -> (length k < fuel)%nat -> Q (beside s k) T -> wp (go_up fuel s n) Q T.
Proof.
  revert k n b l r. induction fuel as [|fuel IH]; intros k n b l r Hf Hlen HQ; [lia|]. pose proof (fo_rep _ _ _ _ _ Hf) as (E & _). cbn [go_up]. reading. fields.
  destruct k as [|f k]; cbn [up]; [apply avl_ret; by destruct s|]. pose proof (fo_way _ _ _ _ _ Hf) as (Ef & _). cbn [ptr] in Ef. reading.
  pose proof (side_of _ _ _ _ _ _ Hf) as Hs. cbn [ptr] in Hs. specialize (Hs ltac:(done)).
  assert (Hb : bool_decide (link s (cell (f_side f) (up None k) (Some n) (ptr (f_sib f)) (f_bal f)) = Some n) = Bool.eqb s (f_side f)).
  { destruct s; [rewrite Hs; by destruct (f_side f)|]. destruct (f_side f) eqn:Es; cbn in *; [|by apply bool_decide_eq_true].
    apply bool_decide_eq_false, ptr_not. pose proof (fo_nodup _ _ _ _ _ Hf) as (_ & Hn & _)%NoDup_app. cbn [way_ids] in Hn. unfold f_ids in Hn. intros Hin. apply (Hn n); set_solver. }
  rewrite Hb. destruct (Bool.eqb s (f_side f)) eqn:Eb.
  - apply Bool.eqb_prop in Eb. assert (Hf' : focus X h0 T k (fill f (Node n b l r))) by by eapply focus_zoom; [|exact Hf].
    assert (HQ' : Q (beside s k) T) by (revert HQ; unfold beside; cbn [before after]; rewrite <- Eb; destruct s; by rewrite ?app_nil_r).
    unfold fill, N in Hf'. cbn in Hlen. destruct (f_side f); by eapply IH; [exact Hf'|lia|].
  - apply avl_ret. revert HQ. unfold beside. cbn [before after]. destruct s, (f_side f); try done; cbn. by rewrite app_assoc, last_snoc.
Qed.

Lemma edge_ids s k j c z : Forall (fun f => f_side f = s) k -> (if s then last (ids (plug k (N s j c Leaf z))) else head (ids (plug k (N s j c Leaf z)))) = Some j.
Proof.
  intros Hk%before_after_side. rewrite ids_plug, ids_N_eq. destruct s; rewrite Hk; cbn; [|done]. by rewrite app_nil_r, app_assoc, last_snoc.
Qed.

Lemma neighbour_ok X h0 fuel (s : bool) k n b l r T (Q : option nat -> BAVL -> Prop) :
  focus X h0 T k (Node n b l r) -> height (plug k (Node n b l r)) <= Z.of_nat fuel ->
  Q (if s then head (ids r ++ after k) else last (before k ++ ids l)) T -> wp (neighbour fuel s n) Q T.
Proof.
  intros Hf Hh HQ. pose proof (fo_rep _ _ _ _ _ Hf) as (E & Hl & Hr). unfold neighbour. reading. pose proof (height_plug k (Node n b l r)) as Hp. cbn [height] in Hp.
  pose proof (height_nonneg l). pose proof (height_nonneg r). set (x := if s then r else l). assert (Ex : link s (mk_node (up None k) (ptr l) (ptr r) b) = ptr x) by by unfold x; destruct s.
  rewrite Ex. assert (Hx : rep (nodes T) (Some n) x) by by unfold x; destruct s. destruct x as [|i b' l' r'] eqn:Ei; cbn [ptr].
  - eapply go_up_ok; [exact Hf|lia|]. unfold beside, x in *. destruct s; subst; [done|]. cbn [ids] in HQ. by rewrite app_nil_r in HQ.
  - rewrite <- Ei in *. destruct (tree_N (negb s) x) as (j & c & u & v & Eu); [by rewrite Ei|]. assert (i = j) as ->.
    { assert (Hpt : ptr x = Some i) by by rewrite Ei. rewrite Eu, ptr_N in Hpt. by simplify_eq. }
    bind. eapply go_down_ok; [by rewrite <- Eu| |].
    { rewrite <- Eu. unfold x. destruct s; lia. }
    intros k' j' c' z Ek Hk. apply avl_ret. pose proof (edge_ids (negb s) k' j' c' z Hk) as He. rewrite <- Ek, <- Eu in He. unfold x in He. destruct s; cbn [negb] in He.
    + destruct (ids r) as [|? ?]; [done|]. cbn in He. by simplify_eq.
    + by rewrite last_app, He in HQ.
Qed.

Lemma outermost_ok X h0 fuel (s : bool) t T (Q : option nat -> BAVL -> Prop) :
  focus X h0 T [] t -> height t <= Z.of_nat fuel -> Q (if s then last (ids t) else head (ids t)) T -> wp (outermost fuel s) Q T.
Proof.
  intros Hf Hh HQ. unfold outermost. bind. unfold wp at 1, get_root. rewrite (fo_root _ _ _ _ _ Hf). cbn [top]. destruct t as [|i b l r] eqn:Et; cbn [ptr]; [apply avl_ret; by destruct s|].
  rewrite <- Et in *. destruct (tree_N s t) as (j & c & u & v & Eu); [by rewrite Et|]. assert (i = j) as ->.
  { assert (Hpt : ptr t = Some i) by by rewrite Et. rewrite Eu, ptr_N in Hpt. by simplify_eq. }
  bind. pose proof (fo_rep _ _ _ _ _ Hf) as Hr. eapply go_down_ok; [by rewrite Eu in Hr|by rewrite <- Eu|]. intros k j' c' z Ek Hk. apply avl_ret.
  pose proof (edge_ids s k j' c' z Hk) as He. rewrite <- Ek, <- Eu in He. destruct s; by rewrite He in HQ.
Qed.

Lemma filter_all {A} (P : A -> Prop) `{!forall x, Decision (P x)} l : Forall P l -> filter P l = l.
Proof. induction 1 as [|x l Hx _ IH]; [done|]. by rewrite filter_cons_True, IH. Qed.

Lemma filter_none {A} (P : A -> Prop) `{!forall x, Decision (P x)} l : Forall (fun x => ~ P x) l -> filter P l = [].
Proof. induction 1 as [|x l Hx _ IH]; [done|]. by rewrite filter_cons_False. Qed.

Section sets.
Context {V : Type} `{Comparator V}.
Variable val : nat -> V.

Definition lt (i j : nat) : Prop := compare (val i) (val j) = -1.
Definition below (v : V) (i : nat) : Prop := compare (val i) v = -1.
Definition above (v : V) (i : nat) : Prop := compare v (val i) = -1.
#[export] Instance below_dec v i : Decision (below v i) := decide (compare (val i) v = -1).
#[export] Instance above_dec v i : Decision (above v i) := decide (compare v (val i) = -1).

(** *** The specification: a list in ascending order *)

Definition matching (v : V) (l : list nat) : option nat := head (filter (fun i => compare v (val i) = 0) l).
Definition inserted (nd : nat) (l : list nat) : list nat := filter (below (val nd)) l ++ nd :: filter (above (val nd)) l.
Definition removed (nd : nat) (l : list nat) : list nat := filter (fun i => i <> nd) l.
Definition ascending (l : list nat) : Prop := StronglySorted lt l.

Lemma compare_refl v : compare v v = 0.
Proof. pose proof (compare_opp v v). lia. Qed.

Lemma above_flip v i : above v i <-> compare (val i) v = 1.
Proof. unfold above. rewrite (compare_opp v (val i)). lia. Qed.

Lemma below_flip v i : below v i <-> compare v (val i) = 1.
Proof. unfold below. rewrite (compare_opp v (val i)). lia. Qed.

Lemma ascending_nodup l : ascending l -> NoDup l.
Proof.
  induction 1 as [|i l _ IH Hi]; constructor; [|done]. intros Hin. rewrite Forall_forall in Hi. specialize (Hi _ Hin). unfold lt in Hi.
  rewrite compare_refl in Hi. done.
Qed.

Lemma ascending_app l1 l2 : ascending (l1 ++ l2) <-> ascending l1 /\ ascending l2 /\ forall i j, i ∈ l1 -> j ∈ l2 -> lt i j.
Proof.
  induction l1 as [|i l1 IH]; cbn.
  - split; [|tauto]. intros. split_and!; [constructor|done|]. intros ? ? ?%elem_of_nil. done.
  - split.
    + intros [Hl Hi]%StronglySorted_inv. apply IH in Hl as (H1 & H2 & H3). rewrite Forall_forall in Hi. split_and!; [|done|].
      * constructor; [done|]. apply Forall_forall. set_solver.
      * intros a b [->|Ha]%elem_of_cons Hb; [apply Hi; set_solver|by apply H3].
    + intros ([H1 Hi]%StronglySorted_inv & H2 & H3). rewrite Forall_forall in Hi. constructor; [apply IH; split_and!; [done..|set_solver]|].
      apply Forall_forall. intros j [Hj|Hj]%elem_of_app; [by apply Hi|apply H3; set_solver].
Qed.

Lemma filter_place v l1 l2 :
  Forall (below v) l1 -> Forall (above v) l2 ->
  filter (below v) (l1 ++ l2) = l1 /\ filter (above v) (l1 ++ l2) = l2 /\ filter (fun i => compare v (val i) = 0) (l1 ++ l2) = [].
Proof.
  intros H1 H2. assert (N1 : forall i, below v i -> ~ above v i /\ compare v (val i) <> 0).
  { intros i. unfold above, below. rewrite (compare_opp v (val i)). lia. }
  assert (N2 : forall i, above v i -> ~ below v i /\ compare v (val i) <> 0).
  { intros i. unfold above, below. rewrite (compare_opp v (val i)). lia. }
  rewrite !filter_app. split_and!.
  - rewrite filter_all, filter_none, app_nil_r; [done| |done]. eapply Forall_impl; [exact H2|]. intros i Hi. by apply N2.
  - rewrite filter_none, filter_all; [done..|]. eapply Forall_impl; [exact H1|]. intros i Hi. by apply N1.
  - rewrite !filter_none; [done|..]; [eapply Forall_impl; [exact H2|]; intros i Hi; by apply N2|eapply Forall_impl; [exact H1|]; intros i Hi; by apply N1].
Qed.

(** *** Descending to a value *)

Definition around (v : V) (k : list frame) : Prop := Forall (below v) (before k) /\ Forall (above v) (after k).

Lemma around_right v k c b l r :
  ascending (ids (plug k (Node c b l r))) -> around v k -> compare v (val c) = 1 -> around v (mk_frame true c b l :: k).
Proof.
  intros Hs [H1 H2] Hc. apply below_flip in Hc. rewrite ids_plug in Hs. apply ascending_app in Hs as (_ & Hs & _). apply ascending_app in Hs as (Hs & _ & _).
  apply ascending_app in Hs as (_ & _ & Hs). split; cbn; [|done]. apply Forall_app; split; [done|]. apply Forall_app; split; [|by apply Forall_singleton].
  apply Forall_forall. intros i Hi. eapply compare_trans; [apply (Hs i c Hi)|done]. set_solver.
Qed.

Lemma around_left v k c b l r :
  ascending (ids (plug k (Node c b l r))) -> around v k -> compare v (val c) = -1 -> around v (mk_frame false c b r :: k).
Proof.
  intros Hs [H1 H2] Hc. rewrite ids_plug in Hs. apply ascending_app in Hs as (_ & Hs & _). apply ascending_app in Hs as (Hs & _ & _).
  apply ascending_app in Hs as (_ & Hs & _). apply StronglySorted_inv in Hs as [_ Hs]. split; cbn; [by rewrite app_nil_r|]. constructor; [done|].
  apply Forall_app; split; [|done]. eapply Forall_impl; [exact Hs|]. intros i Hi. by eapply compare_trans.
Qed.

(** Where the loop ends: at an equal value, or at a node that lacks the child on the side of
    the value. *)
Definition found (v : V) (t : tree) (x : nat * bool) : Prop :=
  if x.2 then compare v (val x.1) = 0 /\ x.1 ∈ ids t
  else exists f k, f_id f = x.1 /\ plug (f :: k) Leaf = t /\ around v (f :: k).

Lemma descend_ok X h0 fuel v k c b l r T :
  focus X h0 T k (Node c b l r) -> ascending (ids (plug k (Node c b l r))) -> around v k -> height (Node c b l r) <= Z.of_nat fuel ->
  wp (descend val fuel v c) (fun x T' => T' = T /\ found v (plug k (Node c b l r)) x) T.
Proof.
  revert k c b l r. induction fuel as [|fuel IH]; intros k c b l r Hf Hs Ha Hh.
  { cbn in Hh. pose proof (height_nonneg l). lia. }
  cbn [descend]. destruct (Z.eqb_spec (compare v (val c)) 0) as [E0|E0].
  { apply avl_ret. split; [done|]. split; [done|]. rewrite ids_plug. cbn. set_solver. }
  pose proof (fo_rep _ _ _ _ _ Hf) as (Ec & _). bind. eapply avl_read; [done|]. cbn in Hh.
  destruct (Z.eqb_spec (compare v (val c)) 1) as [E1|E1]; cbn.
  - pose proof (around_right _ _ _ _ _ _ Hs Ha E1) as Ha'. destruct r as [|c' b' l' r']; cbn [ptr].
    + apply avl_ret. split; [done|]. by exists (mk_frame true c b l), k.
    + eapply (IH (mk_frame true c b l :: k)); [by eapply focus_zoom; [|exact Hf]|done|done|lia].
  - assert (E2 : compare v (val c) = -1) by (destruct (compare_range v (val c)) as [|[|]]; done).
    pose proof (around_left _ _ _ _ _ _ Hs Ha E2) as Ha'. destruct l as [|c' b' l' r']; cbn [ptr].
    + apply avl_ret. split; [done|]. by exists (mk_frame false c b r), k.
    + eapply (IH (mk_frame false c b r :: k)); [by eapply focus_zoom; [|exact Hf]|done|done|lia].
Qed.

(** The loop of an insertion is the same one. *)
Lemma find_place_descends fuel nd c (Q : nat + nat * bool -> BAVL -> Prop) T :
  wp (descend val fuel (val nd) c) (fun x => Q (if x.2 then inl x.1 else inr (x.1, compare (val nd) (val x.1) =? 1))) T ->
  wp (find_place val fuel nd c) Q T.
Proof.
  revert c. induction fuel as [|fuel IH]; intros c; [done|]. cbn [find_place descend]. unfold _BAVL_compare_nodes.
  destruct (compare (val nd) (val c) =? 0) eqn:E0; [done|]. unfold wp, mbind, M_bind. cbv beta. destruct (read c T) as [[n T']|] eqn:E; [|done].
  assert (T' = T) as -> by (unfold read in E; by destruct (nodes T !! c); simplify_eq). destruct (link (compare (val nd) (val c) =? 1) n) as [c'|]; [apply IH|done].
Qed.

Lemma found_side v f k : around v (f :: k) -> (compare v (val (f_id f)) =? 1) = f_side f.
Proof.
  intros [H1 H2]. cbn in *. destruct (f_side f).
  - rewrite !Forall_app, Forall_singleton in H1. destruct H1 as (_ & _ & H1). apply below_flip in H1. by rewrite H1.
  - inversion_clear H2 as [|? ? Hi]. unfold above in Hi. by rewrite Hi.
Qed.

(** *** The tree that is used *)

(** The memory has a balanced tree with the nodes [l] in their order. *)
Definition tree_of (T : BAVL) (l : list nat) : Prop :=
  ascending l /\ exists t, ids t = l /\ root T = ptr t /\ rep (nodes T) None t /\ avl t.

Lemma tree_of_balanced X T l : tree_of T l -> l ⊆ X -> exists t, balanced X (nodes T) T t /\ ids t = l.
Proof.
  intros (Hs & t & <- & Hr & Hrep & Ha) HX. exists t. split; [|done]. split; [|done]. apply focus_iff. split_and!; try done. by apply ascending_nodup.
Qed.

Lemma balanced_tree_of X h0 T t : balanced X h0 T t -> ascending (ids t) -> tree_of T (ids t) /\ same X h0 (nodes T).
Proof. intros [Hf Ha] Hs. apply focus_iff in Hf as (? & ? & _ & _ & ?). split; [|done]. split; [done|]. by exists t. Qed.

(** Twice the logarithm of the number of nodes bounds every loop. *)
Definition enough (n : nat) : nat := Z.to_nat (2 * Z.log2 (Z.of_nat n + 1) + 1).

Lemma avl_size t : avl t -> 2 ^ (height t / 2) <= Z.of_nat (length (ids t)) + 1.
Proof.
  assert (Hgen : forall n t, height t <= Z.of_nat n -> avl t -> 2 ^ (height t / 2) <= Z.of_nat (length (ids t)) + 1); [|by eapply (Hgen (Z.to_nat (height t))); pose proof (height_nonneg t); lia].
  clear t. intros n. induction n as [|n IH]; intros t Hn; (destruct t as [|i b l r]; cbn [height ids avl] in *; [done|]); pose proof (height_nonneg l); pose proof (height_nonneg r); [lia|].
  intros (-> & Hb & Hl & Hr). rewrite length_app. cbn [length]. pose proof (IH l ltac:(lia) Hl). pose proof (IH r ltac:(lia) Hr).
  set (m := Z.max (height l) (height r)) in *. destruct (Z.le_gt_cases (m + 1) 1) as [Hm|Hm].
  { assert (Hm0 : m = 0) by lia. rewrite Hm0. change (2 ^ ((0 + 1) / 2)) with 1. lia. }
  assert (E : (m + 1) / 2 = (m - 1) / 2 + 1) by (replace (m + 1) with (m - 1 + 1 * 2) by lia; rewrite Z.div_add; lia).
  assert (0 <= (m - 1) / 2) by (apply Z.div_pos; lia). rewrite E, Z.pow_add_r by lia.
  assert (2 ^ ((m - 1) / 2) <= 2 ^ (height l / 2)) by (apply Z.pow_le_mono_r; [lia|]; apply Z.div_le_mono; lia).
  assert (2 ^ ((m - 1) / 2) <= 2 ^ (height r / 2)) by (apply Z.pow_le_mono_r; [lia|]; apply Z.div_le_mono; lia). lia.
Qed.

Lemma enough_height t fuel : avl t -> (enough (length (ids t)) <= fuel)%nat -> height t <= Z.of_nat fuel.
Proof.
  intros Ha Hfuel. pose proof (avl_size t Ha) as Hp. pose proof (height_nonneg t). apply Z.log2_le_mono in Hp. rewrite Z.log2_pow2 in Hp by (apply Z.div_pos; lia).
  unfold enough in Hfuel. pose proof (Z.log2_nonneg (Z.of_nat (length (ids t)) + 1)). pose proof (Z.div_mod (height t) 2). pose proof (Z.mod_pos_bound (height t) 2). lia.
Qed.

(** *** Lookups *)

(** The greatest smaller or the smallest greater node. *)
Definition nearest (v : V) (l : list nat) (c : nat) : Prop :=
  exists l1 l2, l = l1 ++ l2 /\ Forall (below v) l1 /\ Forall (above v) l2 /\ (last l1 = Some c \/ head l2 = Some c).

Lemma matching_some v l c : ascending l -> c ∈ l -> compare v (val c) = 0 -> matching v l = Some c.
Proof.
  unfold matching. intros Hs Hc E. induction Hs as [|i l Hs IH Hi]; [by apply elem_of_nil in Hc|]. rewrite filter_cons. rewrite Forall_forall in Hi.
  apply elem_of_cons in Hc as [->|Hc]; [by rewrite decide_True|]. rewrite decide_False; [by apply IH|]. intros E'.
  specialize (Hi c Hc). unfold lt in Hi. rewrite <- (compare_eq _ _ (val c) E'), E in Hi. done.
Qed.

Lemma found_matching v t x : ascending (ids t) -> found v t x -> matching v (ids t) = exact x.
Proof.
  intros Hs Hf. destruct x as [c [|]]; unfold found, exact in *; cbn [fst snd] in *.
  - destruct Hf. by apply matching_some.
  - destruct Hf as (f & k & _ & <- & [H1 H2]). unfold matching. rewrite ids_plug. cbn [ids app]. by destruct (filter_place _ _ _ H1 H2) as (_ & _ & ->).
Qed.

Lemma found_nearest v t x : found v t x -> x.2 = false -> nearest v (ids t) x.1.
Proof.
  destruct x as [c [|]]; [done|]. intros (f & k & <- & <- & [H1 H2]) _. exists (before (f :: k)), (after (f :: k)). rewrite ids_plug. split_and!; try done. cbn.
  destruct (f_side f); [left|by right]. by rewrite app_assoc, last_snoc.
Qed.

Lemma lookup_ok fuel v T l (Q : nat * bool -> BAVL -> Prop) r :
  tree_of T l -> (enough (length l) <= fuel)%nat -> root T = Some r ->
  (forall x, exact x = matching v l -> (x.2 = false -> nearest v l x.1) -> Q x T) -> wp (descend val fuel v r) Q T.
Proof.
  intros HT Hfuel Hr HQ. destruct (tree_of_balanced l T l HT) as (t & [Hf Ha] & <-); [done|]. pose proof (fo_root _ _ _ _ _ Hf) as E. cbn in E. rewrite Hr in E.
  destruct t as [|c b tl tr]; [done|]. cbn in E. simplify_eq. eapply avl_mono.
  - eapply (descend_ok _ _ _ _ [] c b tl tr); [done|apply HT|split; constructor|by apply enough_height].
  - intros x T' (-> & Hx). apply HQ; [symmetry; apply found_matching; [apply HT|done]|by apply found_nearest].
Qed.

Lemma root_empty T l : tree_of T l -> root T = None <-> l = [].
Proof.
  intros (_ & t & <- & -> & _). destruct t; cbn; [done|]. split; [done|]. intros E. by apply app_nil in E as [_ ?].
Qed.

(** *** Insertion *)

Lemma inserted_at nd l1 l2 : Forall (below (val nd)) l1 -> Forall (above (val nd)) l2 -> inserted nd (l1 ++ l2) = l1 ++ nd :: l2.
Proof. intros H1 H2. unfold inserted. by destruct (filter_place _ _ _ H1 H2) as (-> & -> & _). Qed.

Lemma ascending_inserted nd l1 l2 : ascending (l1 ++ l2) -> Forall (below (val nd)) l1 -> Forall (above (val nd)) l2 -> ascending (l1 ++ nd :: l2).
Proof.
  rewrite !ascending_app, !Forall_forall. intros (H1 & H2 & H3) Hb Ha. split_and!; [done|constructor; [done|by apply Forall_forall]|].
  intros i j Hi [->|Hj]%elem_of_cons; [by apply Hb|by apply H3].
Qed.

Lemma insert_ok fuel nd T l (Q : bool * option nat -> BAVL -> Prop) :
  tree_of T l -> nd ∉ l -> (enough (length l) <= fuel)%nat ->
  (forall c, matching (val nd) l = Some c -> Q (false, Some c) T) ->
  (forall T' ref, matching (val nd) l = None -> tree_of T' (inserted nd l) -> same (nd :: l) (nodes T) (nodes T') ->
     match ref with None => l = [] | Some c => nearest (val nd) l c end -> Q (true, ref) T') ->
  wp (BAVL_Insert val fuel nd) Q T.
Proof.
  intros HT Hnd Hfuel HQ0 HQ1. destruct (tree_of_balanced (nd :: l) T l HT) as (t & [Hf Ha] & El); [set_solver|]. pose proof (fo_root _ _ _ _ _ Hf) as Hr. cbn in Hr.
  unfold BAVL_Insert. bind. unfold wp at 1, get_root. rewrite Hr. destruct t as [|c b tl tr]; cbn [ptr].
  { cbn in El. subst l. bind. unfold wp at 1, set_root. bind. unfold wp at 1, init_node. apply avl_ret. apply HQ1; [done| | |done]; cbn.
    - split; [repeat constructor|]. exists (Node nd 0 Leaf Leaf). cbn. rewrite lookup_insert_eq. split_and!; try done; lia.
    - intros i Hi. cbn. rewrite lookup_insert_ne; [done|]. set_solver. }
  assert (Hh : height (Node c b tl tr) <= Z.of_nat fuel) by (apply enough_height; [done|by rewrite El]).
  bind. apply find_place_descends. eapply avl_mono.
  { eapply (descend_ok _ _ _ _ [] c b tl tr); [done|cbn [plug]; rewrite El; apply HT|split; constructor|done]. }
  intros [c' eq] T' (-> & Hx). cbn [fst snd plug] in *. destruct HT as [Hs _]. rewrite <- El in Hs. pose proof (found_matching _ _ _ Hs Hx) as Em. rewrite El in Em.
  destruct eq; cbn [snd fst].
  { apply avl_ret. by apply HQ0. }
  pose proof (found_nearest _ _ _ Hx eq_refl) as Hnear. destruct Hx as (f & k & Ef & Et & Har). cbn [fst] in *. subst c'. rewrite El in Hnear. rewrite (found_side _ _ _ Har).
  rewrite <- Et in *. assert (Hf' : focus (nd :: l) (nodes T) T (f :: k) Leaf) by by eapply focus_zoom; [|exact Hf]. apply avl_plug in Ha as [Hw _].
  rewrite ids_plug in El, Hs. cbn [ids app] in El, Hs. apply attach_ok with (X := nd :: l) (h0 := nodes T) (k := k); [done| |set_solver|].
  { rewrite way_perm, El. done. }
  intros T1 Hf1. bind. eapply (rebalance_ok fuel _ _ k f _ 0 1); [exact Hf1|cbn; lia|done|lia|exact Hw| |].
  { pose proof (height_plug (f :: k) Leaf) as Hl. cbn [length height] in Hl. lia. }
  intros T2 t' Hb Eids. apply avl_ret. rewrite ids_plug in Eids. cbn [ids app] in Eids. destruct Har as [Hb1 Hb2].
  assert (Ei : ids t' = inserted nd l) by (rewrite Eids, <- El; symmetry; by apply inserted_at).
  apply balanced_tree_of in Hb as [HT2 HS2]; [|rewrite Eids; by apply ascending_inserted]. rewrite Ei in HT2. by apply HQ1.
Qed.

(** *** Removal *)

Lemma removed_at nd l1 l2 : NoDup (l1 ++ nd :: l2) -> removed nd (l1 ++ nd :: l2) = l1 ++ l2.
Proof.
  intros (H1 & H2 & [H3 _]%NoDup_cons)%NoDup_app. unfold removed. rewrite filter_app, filter_cons_False by tauto. f_equal; apply filter_all, Forall_forall; intros i Hi ->; [|done].
  apply (H2 nd Hi). set_solver.
Qed.

Lemma ascending_removed nd l : ascending l -> ascending (removed nd l).
Proof.
  unfold removed. induction 1 as [|i l _ IH Hi]; [constructor|]. rewrite filter_cons. destruct (decide (i <> nd)); [|done].
  constructor; [done|]. rewrite Forall_forall in *. intros j [_ Hj]%list_elem_of_filter. by apply Hi.
Qed.

Lemma remove_ok fuel nd T l (Q : unit -> BAVL -> Prop) :
  tree_of T l -> nd ∈ l -> (enough (length l) <= fuel)%nat ->
  (forall T', tree_of T' (removed nd l) -> same l (nodes T) (nodes T') -> Q tt T') -> wp (BAVL_Remove fuel nd) Q T.
Proof.
  intros HT Hin Hfuel HQ. destruct (tree_of_balanced l T l HT) as (t & [Hf Ha] & El); [done|]. rewrite <- El in Hin. destruct (find_node _ _ Hin) as (k & b & tl & tr & ->).
  destruct HT as [Hs _]. eapply remove_node; [by eapply focus_zoom; [|exact Hf]|done|apply enough_height; [done|by rewrite El]|].
  rewrite ids_plug in El. cbn [ids] in El. assert (E : l = (before k ++ ids tl) ++ nd :: ids tr ++ after k) by (rewrite <- El; by simplify_list_eq).
  intros T' t' Hb Ei. assert (Er : ids t' = removed nd l).
  { rewrite Ei, E, removed_at; [by simplify_list_eq|]. rewrite <- E. by apply ascending_nodup. }
  apply balanced_tree_of in Hb as [HT2 HS2]; rewrite Er in *; [by apply HQ|by apply ascending_removed].
Qed.

(** *** The check of the whole tree *)

Lemma ptr_in t i : ptr t = Some i -> i ∈ ids t.
Proof. destruct t; cbn; [done|]. intros [= ->]. set_solver. Qed.

Lemma recurser_ok fuel p i b l r T :
  rep (nodes T) p (Node i b l r) -> avl (Node i b l r) -> ascending (ids (Node i b l r)) -> height (Node i b l r) <= Z.of_nat fuel ->
  wp (_BAVL_assert_recurser val fuel i) (fun h T' => T' = T /\ h = height (Node i b l r)) T.
Proof.
  revert p i b l r. induction fuel as [|fuel IH]; intros p i b l r (E & Hl & Hr) (Eb & Hb & Hal & Har) Hs Hh; cbn [height] in Hh; pose proof (height_nonneg l); pose proof (height_nonneg r); [lia|].
  cbn [ids] in Hs. apply ascending_app in Hs as (Hsl & Hsr & Hlt). apply StronglySorted_inv in Hsr as [Hsr Hgt]. rewrite Forall_forall in Hgt.
  assert (Hchild : forall s x, rep (nodes T) (Some i) x -> avl x -> ascending (ids x) -> height x <= Z.of_nat fuel ->
    (forall j, j ∈ ids x -> compare (val j) (val i) = OPTNEG (-1) s) ->
    wp (assert_child val (_BAVL_assert_recurser val fuel) i s (ptr x)) (fun h T' => T' = T /\ h = height x) T).
  { intros s x Hx Hax Hsx Hhx Hlx. destruct x as [|j c u v]; cbn [ptr assert_child]; [by apply avl_ret|]. pose proof Hx as (Ej & _). reading. bind. apply avl_assert; [by apply bool_decide_eq_true|].
    bind. apply avl_assert; [|by eapply IH]. unfold _BAVL_compare_nodes. apply Z.eqb_eq, Hlx, (ptr_in (Node j c u v)). done. }
  cbn [_BAVL_assert_recurser]. reading. fields. bind. apply avl_assert; [by apply in_bounds|]. bind. eapply avl_mono; [apply (Hchild false l); try done; [lia|]|].
  { intros j Hj. cbn. apply Hlt; set_solver. }
  intros hl T1 [-> ->]. bind. eapply avl_mono; [apply (Hchild true r); try done; [lia|]|].
  { intros j Hj. cbn. apply above_flip, Hgt, Hj. }
  intros hr T1 [-> ->]. bind. apply avl_assert; [by apply Z.eqb_eq|]. apply avl_ret. cbn. split; [done|lia].
Qed.

Lemma verify_ok fuel T l : tree_of T l -> (enough (length l) <= fuel)%nat -> BAVL_Verify val fuel T = Some (tt, T).
Proof.
  intros (Hs & t & <- & Hr & Hrep & Ha) Hfuel. assert (Hw : wp (BAVL_Verify val fuel) (fun _ T' => T' = T) T).
  { unfold BAVL_Verify. bind. unfold wp at 1, get_root. rewrite Hr. destruct t as [|i b l r]; cbn [ptr]; [by apply avl_ret|]. pose proof Hrep as (E & _). reading. fields.
    bind. apply avl_assert; [by apply bool_decide_eq_true|]. bind. eapply avl_mono; [eapply recurser_ok; [done..|by apply enough_height]|]. intros h T' [-> _]. by apply avl_ret. }
  unfold wp in Hw. by destruct (BAVL_Verify val fuel T) as [[[] T']|]; [subst|].
Qed.

(** ** Sequences of operations *)

Inductive op :=
| op_insert (i : nat) | op_remove (i : nat) | op_lookup (v : V) | op_exact (v : V)
| op_first | op_last | op_next (i : nat) | op_prev (i : nat) | op_empty.

Inductive result := r_inserted (ok : bool) (ref : option nat) | r_removed | r_node (n : option nat) | r_empty (b : bool).

Definition exec (fuel : nat) (o : op) : M result :=
  match o with
  | op_insert i => x ← BAVL_Insert val fuel i; mret (r_inserted x.1 x.2)
  | op_remove i => BAVL_Remove fuel i;; mret r_removed
  | op_lookup v => x ← BAVL_Lookup val fuel v; mret (r_node x)
  | op_exact v => x ← BAVL_LookupExact val fuel v; mret (r_node x)
  | op_first => x ← BAVL_GetFirst fuel; mret (r_node x)
  | op_last => x ← BAVL_GetLast fuel; mret (r_node x)
  | op_next i => x ← BAVL_GetNext fuel i; mret (r_node x)
  | op_prev i => x ← BAVL_GetPrev fuel i; mret (r_node x)
  | op_empty => x ← BAVL_IsEmpty; mret (r_empty x)
  end.

Fixpoint exec_all (fuel : nat) (ops : list op) : M (list result) :=
  match ops with
  | [] => mret []
  | o :: ops => r ← exec fuel o; rs ← exec_all fuel ops; mret (r :: rs)
  end.

(** What the user has to respect: a node is inserted once, and only a node of the tree is
    removed or asked for its neighbours. *)
Definition respects (o : op) (l : list nat) : Prop :=
  match o with
  | op_insert i => i ∉ l
  | op_remove i | op_next i | op_prev i => i ∈ l
  | _ => True
  end.

(** The list after an operation. *)
Definition then_list (o : op) (l : list nat) : list nat :=
  match o with
  | op_insert i => match matching (val i) l with Some _ => l | None => inserted i l end
  | op_remove i => removed i l
  | _ => l
  end.

(** What an operation is documented to answer. *)
Definition answers (o : op) (l : list nat) (r : result) : Prop :=
  match o, r with
  | op_insert i, r_inserted ok ref =>
      match matching (val i) l with
      | Some c => ok = false /\ ref = Some c
      | None => ok = true /\ match ref with None => l = [] | Some c => nearest (val i) l c end
      end
  | op_remove _, r_removed => True
  | op_lookup v, r_node x =>
      match matching v l, x with Some c, _ => x = Some c | None, None => l = [] | None, Some c => nearest v l c end
  | op_exact v, r_node x => x = matching v l
  | op_first, r_node x => x = head l
  | op_last, r_node x => x = last l
  | op_next i, r_node x => exists l1 l2, l = l1 ++ i :: l2 /\ x = head l2
  | op_prev i, r_node x => exists l1 l2, l = l1 ++ i :: l2 /\ x = last l1
  | op_empty, r_empty b => b = true <-> l = []
  | _, _ => False
  end.

Fixpoint all_respect (ops : list op) (l : list nat) : Prop :=
  match ops with [] => True | o :: ops => respects o l /\ all_respect ops (then_list o l) end.
Fixpoint all_answer (ops : list op) (l : list nat) (rs : list result) : Prop :=
  match ops, rs with
  | [], [] => True
  | o :: ops, r :: rs => answers o l r /\ all_answer ops (then_list o l) rs
  | _, _ => False
  end.
Definition final (ops : list op) (l : list nat) : list nat := foldl (fun l o => then_list o l) l ops.
(** The nodes that were given to the tree. *)
Definition given (ops : list op) : list nat := omap (fun o => match o with op_insert i => Some i | _ => None end) ops.

Lemma lookups_ok fuel v T l (out : nat * bool -> option nat) (Q : option nat -> BAVL -> Prop) :
  tree_of T l -> (enough (length l) <= fuel)%nat -> (l = [] -> Q None T) ->
  (forall x, exact x = matching v l -> (x.2 = false -> nearest v l x.1) -> Q (out x) T) ->
  wp (r ← get_root; match r with None => mret None | Some r => x ← descend val fuel v r; mret (out x) end) Q T.
Proof.
  intros HT Hfuel H0 H1. bind. unfold wp at 1, get_root. destruct (root T) as [r|] eqn:Er.
  - bind. eapply lookup_ok; [done..|]. intros x Hx Hn. apply avl_ret. by apply H1.
  - apply avl_ret, H0. by apply (root_empty T).
Qed.

Lemma beside_ok fuel (s : bool) i T l (Q : option nat -> BAVL -> Prop) :
  tree_of T l -> (enough (length l) <= fuel)%nat -> i ∈ l ->
  (forall l1 l2, l = l1 ++ i :: l2 -> Q (if s then head l2 else last l1) T) -> wp (neighbour fuel s i) Q T.
Proof.
  intros HT Hfuel Hin HQ. destruct (tree_of_balanced l T l HT) as (t & [Hf Ha] & El); [done|]. rewrite <- El in Hin. destruct (find_node _ _ Hin) as (k & b & tl & tr & ->).
  eapply neighbour_ok; [by eapply focus_zoom; [|exact Hf]|apply enough_height; [done|by rewrite El]|].
  specialize (HQ (before k ++ ids tl) (ids tr ++ after k)). apply HQ. rewrite <- El, ids_plug. cbn. by simplify_list_eq.
Qed.

Lemma edge_ok fuel (s : bool) T l (Q : option nat -> BAVL -> Prop) :
  tree_of T l -> (enough (length l) <= fuel)%nat -> Q (if s then last l else head l) T -> wp (outermost fuel s) Q T.
Proof.
  intros HT Hfuel HQ. destruct (tree_of_balanced l T l HT) as (t & [Hf Ha] & El); [done|]. eapply outermost_ok; [done|apply enough_height; [done|by rewrite El]|].
  by rewrite El.
Qed.

Lemma exec_ok fuel o T l (Q : result -> BAVL -> Prop) :
  tree_of T l -> (enough (length l) <= fuel)%nat -> respects o l ->
  (forall r T', answers o l r -> tree_of T' (then_list o l) -> same (given [o] ++ l) (nodes T) (nodes T') -> Q r T') -> wp (exec fuel o) Q T.
Proof.
  intros HT Hfuel Hp HQ. destruct o as [i|i|v|v| | |i|i|]; cbn [exec respects then_list given omap list_omap app] in *; bind.
  - eapply insert_ok; [done..| |].
    + intros c Hc. apply avl_ret, HQ; cbn; by rewrite ?Hc.
    + intros T' ref Hm HT' HS Href. apply avl_ret, HQ; cbn; rewrite ?Hm; done.
  - eapply remove_ok; [done..|]. intros T' HT' HS. apply avl_ret, HQ; done.
  - apply lookups_ok with (l := l) (out := fun x => Some x.1); [done..| |].
    + intros ->. by apply avl_ret, HQ.
    + intros [c b] Hx Hn. apply avl_ret, HQ; [|done..]. cbn in *. rewrite <- Hx. destruct b; cbn; [done|]. by apply Hn.
  - apply lookups_ok with (l := l) (out := exact); [done..| |].
    + intros ->. by apply avl_ret, HQ.
    + intros x Hx _. by apply avl_ret, HQ.
  - by eapply edge_ok; [..|apply avl_ret, HQ].
  - by eapply edge_ok; [..|apply avl_ret, HQ].
  - eapply beside_ok; [done..|]. intros l1 l2 E. apply avl_ret, HQ; [|done..]. by exists l1, l2.
  - eapply beside_ok; [done..|]. intros l1 l2 E. apply avl_ret, HQ; [|done..]. by exists l1, l2.
  - unfold BAVL_IsEmpty. bind. unfold wp at 1, get_root. apply avl_ret, avl_ret, HQ; [|done..]. cbn. rewrite bool_decide_eq_true. by apply root_empty.
Qed.

Lemma enough_mono n m : (n <= m)%nat -> (enough n <= enough m)%nat.
Proof. intros Hnm. unfold enough. apply Z2Nat.inj_le; [..|pose proof (Z.log2_le_mono (Z.of_nat n + 1) (Z.of_nat m + 1))]; pose proof (Z.log2_nonneg (Z.of_nat n + 1)); pose proof (Z.log2_nonneg (Z.of_nat m + 1)); lia. Qed.

Lemma inserted_length i l : (length (inserted i l) <= S (length l))%nat.
Proof.
  unfold inserted. rewrite length_app. cbn [length]. induction l as [|j l IH]; [done|]. rewrite !filter_cons.
  destruct (decide (below (val i) j)) as [H1|H1], (decide (above (val i) j)) as [H2|H2]; cbn [length]; try lia.
  unfold below in H1. apply above_flip in H2. lia.
Qed.

Lemma then_list_length o l : (length (then_list o l) <= S (length l))%nat.
Proof.
  destruct o as [i|i|v|v| | |i|i|]; cbn [then_list]; try lia.
  - destruct (matching (val i) l); [lia|apply inserted_length].
  - unfold removed. pose proof (length_filter (fun j => j <> i) l). lia.
Qed.

Lemma then_list_nodes o l : then_list o l ⊆ given [o] ++ l.
Proof.
  destruct o as [i|i|v|v| | |i|i|]; cbn; try set_solver.
  - destruct (matching (val i) l); [set_solver|]. unfold inserted. intros j [[_ Hj]%list_elem_of_filter|[->|[_ Hj]%list_elem_of_filter]%elem_of_cons]%elem_of_app; set_solver.
  - intros j [_ Hj]%list_elem_of_filter. done.
Qed.

Lemma exec_all_ok fuel ops T l (Q : list result -> BAVL -> Prop) :
  tree_of T l -> (enough (length l + length ops) <= fuel)%nat -> all_respect ops l ->
  (forall rs T', all_answer ops l rs -> tree_of T' (final ops l) -> same (given ops ++ l) (nodes T) (nodes T') -> Q rs T') -> wp (exec_all fuel ops) Q T.
Proof.
  revert T l Q. induction ops as [|o ops IH]; intros T l Q HT Hfuel Hp HQ; cbn [exec_all all_respect] in *.
  { by apply avl_ret, HQ. }
  destruct Hp as [Ho Hp]. cbn [length] in Hfuel. pose proof (then_list_length o l) as Hlen. bind. eapply exec_ok; [done| |done|].
  { etrans; [|exact Hfuel]. apply enough_mono. lia. }
  intros r T' Hr HT' HS. bind. eapply IH; [exact HT'| |done|].
  { etrans; [|exact Hfuel]. apply enough_mono. lia. }
  intros rs T2 Hrs HT2 HS2. apply avl_ret, HQ; [done..|]. pose proof (then_list_nodes o l) as Hsub.
  assert (Hg : given (o :: ops) = given [o] ++ given ops) by by destruct o. rewrite Hg. eapply same_trans; [eapply same_mono; [|exact HS]; set_solver|].
  eapply same_mono; [|exact HS2]. set_solver.
Qed.

(** ** Theorems *)

(** C5: An AVL tree is a sorted list: whatever operations its user makes, as long as a node
    is inserted only while it is not in the tree and removed only while it is, no operation
    follows a bad pointer or fails an assertion, all of them answer what they are documented
    to answer for the list of the nodes in ascending order, they change no memory but that
    of the nodes that were given to the tree, and the tree's own check of its links, order
    and balance succeeds afterwards. Twice the logarithm of the number of operations is
    enough for each loop. *)
Theorem bavl_refines ops mem fuel :
  all_respect ops [] -> (enough (length ops) <= fuel)%nat ->
  exists rs T, exec_all fuel ops (BAVL_Init mem) = Some (rs, T) /\ all_answer ops [] rs /\ tree_of T (final ops []) /\
    BAVL_Verify val fuel T = Some (tt, T) /\ (forall i, i ∉ given ops -> nodes T !! i = mem !! i).
Proof.
  intros Hp Hfuel. assert (H0 : tree_of (BAVL_Init mem) []) by (split; [constructor|by exists Leaf]).
  assert (Hlen : forall ops l, (length (final ops l) <= length l + length ops)%nat).
  { clear. induction ops as [|o ops IH]; intros l; cbn; [lia|]. pose proof (then_list_length o l). specialize (IH (then_list o l)). unfold final in *. lia. }
  assert (Hw : wp (exec_all fuel ops) (fun rs T => all_answer ops [] rs /\ tree_of T (final ops []) /\ BAVL_Verify val fuel T = Some (tt, T) /\
    (forall i, i ∉ given ops -> nodes T !! i = mem !! i)) (BAVL_Init mem)).
  { eapply exec_all_ok; [done..|]. intros rs T Hrs HT HS. split_and!; [done|done| |].
    - eapply verify_ok; [done|]. etrans; [|exact Hfuel]. apply enough_mono. apply (Hlen ops []).
    - intros i Hi. apply HS. by rewrite app_nil_r. }
  unfold wp in Hw. destruct (exec_all fuel ops (BAVL_Init mem)) as [[rs T]|]; [|done]. by exists rs, T.
Qed.

End sets.

(** Two children of one node are not exchanged by [_BAVL_swap_nodes]: the second assignment
    through the common parent finds the first node where the second was, and puts the second
    back. [BAVL_Remove], the only caller, never does this. *)
Definition siblings : BAVL :=
  mk_BAVL (Some 0%nat) (<[0%nat := mk_node None (Some 1%nat) (Some 2%nat) 0]> (<[1%nat := mk_node (Some 0%nat) None None 0]> {[2%nat := mk_node (Some 0%nat) None None 0]})).

Theorem siblings_not_swapped : exists T, _BAVL_swap_nodes 1 2 siblings = Some (tt, T) /\ nodes T !! 0%nat = nodes siblings !! 0%nat.
Proof. eexists. by split; [vm_compute|]. Qed.

(** ** Integers as values *)

Definition B_COMPARE (a b : Z) : Z := Z.b2z (b <? a) - Z.b2z (a <? b).

#[export] Instance integers : Comparator Z.
Proof.
  refine {| compare := B_COMPARE |}; intros; unfold B_COMPARE in *.
  all: repeat match goal with H : context [?a <? ?b] |- _ => destruct (Z.ltb_spec a b) | |- context [?a <? ?b] => destruct (Z.ltb_spec a b) end; cbn in *; lia.
Defined.

#[local] Instance respects_dec (o : op) (l : list nat) : Decision (respects (V := Z) o l).
Proof. destruct o; cbn; apply _. Defined.

#[local] Instance all_respect_dec (val : nat -> Z) : forall ops l, Decision (all_respect val ops l).
Proof. induction ops as [|o ops IH]; intros l; cbn; apply _. Defined.

Definition some_value (i : nat) : Z := (7 * Z.of_nat i) mod 11.
Definition some_ops : list op := (op_insert <$> seq 1 10) ++ [op_remove 3; op_insert 12; op_exact 7; op_remove 1; op_next 2; op_remove 8; op_remove 5].

Lemma bavl_refines_witness :
  exists rs T, exec_all some_value 20 some_ops (BAVL_Init ∅) = Some (rs, T) /\ tree_of some_value T [2; 10; 7; 4; 9; 6]%nat.
Proof.
  destruct (bavl_refines some_value some_ops ∅ 20) as (rs & T & E & _ & HT & _).
  - apply (bool_decide_unpack _). vm_compute. done.
  - vm_compute. lia.
  - exists rs, T. split; [exact E|]. exact HT.
Defined.

End BAVL.
