(* ===== verification/UdpRelay.v ===== *)
(** * A UDP connection through the SOCKS server: the chain of objects behind one local address

    For each local address from which an application sends UDP packets, badvpn's
    SocksUdpGwClient.c keeps a connection: a socket of its own, on which packets go to the SOCKS
    server (or to the DNS gateway) and their answers come back. A connection is a chain of
    objects that call each other through jobs of the event loop (BPending.c): a BufferWriter,
    a PacketBuffer ([ChunkBuffer]), the socket (BDatagram), and for the answers a
    SinglePacketBuffer. [UdpTable] keeps all connections.

    Each interface between two objects is in one of the four states of the source; [None] is a
    failed assertion or an access outside a buffer. The invariant of a connection says which
    jobs are set, as its states tell, and where each message is that it accepted; every
    handler keeps it. *)

From S2P Require Import Prelude Memory BSocks ChunkBuffer UdpProto.
Import Memory.
Open Scope Z_scope.

Module UdpRelay.

Definition BAddr : Type := BSocks.dest_addr.

(** ** A connection *)

Definition ip_of (a : BAddr) : bytes := match a with BSocks.ipv4 ip _ | BSocks.ipv6 ip _ => ip end.
Definition port_of (a : BAddr) : bytes := match a with BSocks.ipv4 _ port | BSocks.ipv6 _ port => port end.

Inductive if_state := IF_NONE | IF_OPERATION_PENDING | IF_BUSY | IF_DONE_PENDING.

#[export] Instance if_state_eq_dec : EqDecision if_state.
Proof. solve_decision. Defined.

Definition in_state (a b : if_state) : bool :=
  match a, b with
  | IF_NONE, IF_NONE | IF_OPERATION_PENDING, IF_OPERATION_PENDING | IF_BUSY, IF_BUSY | IF_DONE_PENDING, IF_DONE_PENDING => true
  | _, _ => false
  end.
Definition is_none {A} (x : option A) : bool := match x with None => true | Some _ => false end.

(** The jobs of a connection: of the writer's interface, of the socket's two interfaces and
    of the interface to the user, and the socket's own. *)
Inductive kind := k_first | k_write | k_written | k_send | k_sent | k_recv | k_received | k_deliver | k_delivered | k_send_job | k_recv_job.

#[export] Instance kind_eq_dec : EqDecision kind.
Proof. solve_decision. Defined.

(** BDatagram: what it is sending, whether it has a buffer to receive into, whether receiving
    has started, the events it waits for. *)
Record BDatagram := mk_dgram {
  send_addr : BAddr;
  send_busy : option (Z * Z);
  recv_busy : bool;
  recv_started : bool;
  wait_write : bool;
  wait_read : bool;
  d_err : bool }.

Record connection := mk_con {
  local_addr : BAddr;
  remote_addr : BAddr;
  first_data : nat * bytes;             (* the device's buffer it points into, and the bytes there *)
  is_dns : bool;
  first_set : bool;                     (* [first_job] is set *)
  udp_dgram : BDatagram;
  send_job_set : bool;
  recv_job_set : bool;
  out_have : option Z;                  (* BufferWriter: where in the ring to write *)
  udp_send_buffer : ChunkBuffer.PacketBuffer;
  udp_recv_buf : bytes;
  w_state : if_state; w_len : Z;        (* the writer's output *)
  s_state : if_state;                   (* the socket's sending interface *)
  r_state : if_state; r_len : Z;        (* the socket's receiving interface *)
  u_state : if_state; u_len : Z;        (* [udp_recv_if] *)
  h_first : bytes;                      (* the message the first packet becomes *)
  h_accepted : list bytes;              (* what was written into the buffer so far *)
  h_sent : list bytes }.                (* what the socket sent so far *)

Definition set_send_busy (x : option (Z * Z)) (d : BDatagram) : BDatagram :=
  mk_dgram (send_addr d) x (recv_busy d) (recv_started d) (wait_write d) (wait_read d) (d_err d).
Definition set_recv_busy (x : bool) (d : BDatagram) : BDatagram :=
  mk_dgram (send_addr d) (send_busy d) x (recv_started d) (wait_write d) (wait_read d) (d_err d).
Definition set_recv_started (x : bool) (d : BDatagram) : BDatagram :=
  mk_dgram (send_addr d) (send_busy d) (recv_busy d) x (wait_write d) (wait_read d) (d_err d).
Definition set_wait_write (x : bool) (d : BDatagram) : BDatagram :=
  mk_dgram (send_addr d) (send_busy d) (recv_busy d) (recv_started d) x (wait_read d) (d_err d).
Definition set_wait_read (x : bool) (d : BDatagram) : BDatagram :=
  mk_dgram (send_addr d) (send_busy d) (recv_busy d) (recv_started d) (wait_write d) x (d_err d).
Definition set_d_err (x : bool) (d : BDatagram) : BDatagram :=
  mk_dgram (send_addr d) (send_busy d) (recv_busy d) (recv_started d) (wait_write d) (wait_read d) x.

Definition set_remote_addr (x : BAddr) (c : connection) : connection :=
  mk_con (local_addr c) x (first_data c) (is_dns c) (first_set c) (udp_dgram c) (send_job_set c) (recv_job_set c) (out_have c) (udp_send_buffer c) (udp_recv_buf c) (w_state c) (w_len c) (s_state c) (r_state c) (r_len c) (u_state c) (u_len c) (h_first c) (h_accepted c) (h_sent c).
Definition set_is_dns (x : bool) (c : connection) : connection :=
  mk_con (local_addr c) (remote_addr c) (first_data c) x (first_set c) (udp_dgram c) (send_job_set c) (recv_job_set c) (out_have c) (udp_send_buffer c) (udp_recv_buf c) (w_state c) (w_len c) (s_state c) (r_state c) (r_len c) (u_state c) (u_len c) (h_first c) (h_accepted c) (h_sent c).
Definition set_first_set (x : bool) (c : connection) : connection :=
  mk_con (local_addr c) (remote_addr c) (first_data c) (is_dns c) x (udp_dgram c) (send_job_set c) (recv_job_set c) (out_have c) (udp_send_buffer c) (udp_recv_buf c) (w_state c) (w_len c) (s_state c) (r_state c) (r_len c) (u_state c) (u_len c) (h_first c) (h_accepted c) (h_sent c).
Definition set_udp_dgram (x : BDatagram) (c : connection) : connection :=
  mk_con (local_addr c) (remote_addr c) (first_data c) (is_dns c) (first_set c) x (send_job_set c) (recv_job_set c) (out_have c) (udp_send_buffer c) (udp_recv_buf c) (w_state c) (w_len c) (s_state c) (r_state c) (r_len c) (u_state c) (u_len c) (h_first c) (h_accepted c) (h_sent c).
Definition set_send_job_set (x : bool) (c : connection) : connection :=
  mk_con (local_addr c) (remote_addr c) (first_data c) (is_dns c) (first_set c) (udp_dgram c) x (recv_job_set c) (out_have c) (udp_send_buffer c) (udp_recv_buf c) (w_state c) (w_len c) (s_state c) (r_state c) (r_len c) (u_state c) (u_len c) (h_first c) (h_accepted c) (h_sent c).
Definition set_recv_job_set (x : bool) (c : connection) : connection :=
  mk_con (local_addr c) (remote_addr c) (first_data c) (is_dns c) (first_set c) (udp_dgram c) (send_job_set c) x (out_have c) (udp_send_buffer c) (udp_recv_buf c) (w_state c) (w_len c) (s_state c) (r_state c) (r_len c) (u_state c) (u_len c) (h_first c) (h_accepted c) (h_sent c).
Definition set_out_have (x : option Z) (c : connection) : connection :=
  mk_con (local_addr c) (remote_addr c) (first_data c) (is_dns c) (first_set c) (udp_dgram c) (send_job_set c) (recv_job_set c) x (udp_send_buffer c) (udp_recv_buf c) (w_state c) (w_len c) (s_state c) (r_state c) (r_len c) (u_state c) (u_len c) (h_first c) (h_accepted c) (h_sent c).
Definition set_udp_send_buffer (x : ChunkBuffer.PacketBuffer) (c : connection) : connection :=
  mk_con (local_addr c) (remote_addr c) (first_data c) (is_dns c) (first_set c) (udp_dgram c) (send_job_set c) (recv_job_set c) (out_have c) x (udp_recv_buf c) (w_state c) (w_len c) (s_state c) (r_state c) (r_len c) (u_state c) (u_len c) (h_first c) (h_accepted c) (h_sent c).
Definition set_udp_recv_buf (x : bytes) (c : connection) : connection :=
  mk_con (local_addr c) (remote_addr c) (first_data c) (is_dns c) (first_set c) (udp_dgram c) (send_job_set c) (recv_job_set c) (out_have c) (udp_send_buffer c) x (w_state c) (w_len c) (s_state c) (r_state c) (r_len c) (u_state c) (u_len c) (h_first c) (h_accepted c) (h_sent c).
Definition set_w_state (x : if_state) (c : connection) : connection :=
  mk_con (local_addr c) (remote_addr c) (first_data c) (is_dns c) (first_set c) (udp_dgram c) (send_job_set c) (recv_job_set c) (out_have c) (udp_send_buffer c) (udp_recv_buf c) x (w_len c) (s_state c) (r_state c) (r_len c) (u_state c) (u_len c) (h_first c) (h_accepted c) (h_sent c).
Definition set_w_len (x : Z) (c : connection) : connection :=
  mk_con (local_addr c) (remote_addr c) (first_data c) (is_dns c) (first_set c) (udp_dgram c) (send_job_set c) (recv_job_set c) (out_have c) (udp_send_buffer c) (udp_recv_buf c) (w_state c) x (s_state c) (r_state c) (r_len c) (u_state c) (u_len c) (h_first c) (h_accepted c) (h_sent c).
Definition set_s_state (x : if_state) (c : connection) : connection :=
  mk_con (local_addr c) (remote_addr c) (first_data c) (is_dns c) (first_set c) (udp_dgram c) (send_job_set c) (recv_job_set c) (out_have c) (udp_send_buffer c) (udp_recv_buf c) (w_state c) (w_len c) x (r_state c) (r_len c) (u_state c) (u_len c) (h_first c) (h_accepted c) (h_sent c).
Definition set_r_state (x : if_state) (c : connection) : connection :=
  mk_con (local_addr c) (remote_addr c) (first_data c) (is_dns c) (first_set c) (udp_dgram c) (send_job_set c) (recv_job_set c) (out_have c) (udp_send_buffer c) (udp_recv_buf c) (w_state c) (w_len c) (s_state c) x (r_len c) (u_state c) (u_len c) (h_first c) (h_accepted c) (h_sent c).
Definition set_r_len (x : Z) (c : connection) : connection :=
  mk_con (local_addr c) (remote_addr c) (first_data c) (is_dns c) (first_set c) (udp_dgram c) (send_job_set c) (recv_job_set c) (out_have c) (udp_send_buffer c) (udp_recv_buf c) (w_state c) (w_len c) (s_state c) (r_state c) x (u_state c) (u_len c) (h_first c) (h_accepted c) (h_sent c).
Definition set_u_state (x : if_state) (c : connection) : connection :=
  mk_con (local_addr c) (remote_addr c) (first_data c) (is_dns c) (first_set c) (udp_dgram c) (send_job_set c) (recv_job_set c) (out_have c) (udp_send_buffer c) (udp_recv_buf c) (w_state c) (w_len c) (s_state c) (r_state c) (r_len c) x (u_len c) (h_first c) (h_accepted c) (h_sent c).
Definition set_u_len (x : Z) (c : connection) : connection :=
  mk_con (local_addr c) (remote_addr c) (first_data c) (is_dns c) (first_set c) (udp_dgram c) (send_job_set c) (recv_job_set c) (out_have c) (udp_send_buffer c) (udp_recv_buf c) (w_state c) (w_len c) (s_state c) (r_state c) (r_len c) (u_state c) x (h_first c) (h_accepted c) (h_sent c).
Definition set_h_accepted (x : list bytes) (c : connection) : connection :=
  mk_con (local_addr c) (remote_addr c) (first_data c) (is_dns c) (first_set c) (udp_dgram c) (send_job_set c) (recv_job_set c) (out_have c) (udp_send_buffer c) (udp_recv_buf c) (w_state c) (w_len c) (s_state c) (r_state c) (r_len c) (u_state c) (u_len c) (h_first c) x (h_sent c).
Definition set_h_sent (x : list bytes) (c : connection) : connection :=
  mk_con (local_addr c) (remote_addr c) (first_data c) (is_dns c) (first_set c) (udp_dgram c) (send_job_set c) (recv_job_set c) (out_have c) (udp_send_buffer c) (udp_recv_buf c) (w_state c) (w_len c) (s_state c) (r_state c) (r_len c) (u_state c) (u_len c) (h_first c) (h_accepted c) x.

(** What a handler of a connection does: it changes the connection, sets jobs (the last one set
    first in the list) and hands messages to the user. *)
Definition message : Type := BAddr * BAddr * bytes.
Record view := mk_view { v_con : connection; v_jobs : list kind; v_out : list message }.

Definition M (A : Type) : Type := view -> option (A * view).

#[export] Instance M_ret : MRet M := fun A x v => Some (x, v).
#[export] Instance M_bind : MBind M := fun A B k m v => match m v with Some (x, v) => k x v | None => None end.

Definition assert (b : bool) : M unit := fun v => if b then Some (tt, v) else None.
Definition get : M connection := fun v => Some (v_con v, v).
Definition modify (f : connection -> connection) : M unit := fun v => Some (tt, mk_view (f (v_con v)) (v_jobs v) (v_out v)).
Definition lift {A} (x : option A) : M A := fun v => match x with Some x => Some (x, v) | None => None end.
(** The call of [udpgw_client_handler_received], which asserts that both addresses are of the same
    family; what it makes of the message is in [UdpProto]. *)
Definition emit (m : message) : M unit := fun v =>
  if UdpProto.same_family (fst (fst m)) (snd (fst m)) then Some (tt, mk_view (v_con v) (v_jobs v) (v_out v ++ [m])) else None.
(** [BPending_Set]. *)
Definition BPending_Set (k : kind) : M unit := fun v => Some (tt, mk_view (v_con v) (k :: v_jobs v) (v_out v)).
Definition on_dgram (f : BDatagram -> BDatagram) : M unit := modify (fun c => set_udp_dgram (f (udp_dgram c)) c).

Section handlers.
Variable udp_mtu : Z.

(** ** The interfaces *)

(** [PacketRecvInterface_Receiver_Recv] of the writer's output, [PacketPassInterface_Sender_Send]
    of the socket: the PacketBuffer calls them when it wants the next packet written, and when
    it has one to send. *)
Definition request_write : M unit :=
  c ← get; assert (in_state (w_state c) IF_NONE);; modify (set_w_state IF_OPERATION_PENDING);; BPending_Set k_write.
Definition request_send : M unit :=
  c ← get; assert (in_state (s_state c) IF_NONE);; modify (set_s_state IF_OPERATION_PENDING);; BPending_Set k_send.

(** The PacketBuffer after one of its handlers ran: it may have asked for a packet, and may
    have one to send that it had not before. *)
Definition requests (had : bool) (b : ChunkBuffer.PacketBuffer) : M unit :=
  (if had || is_none (ChunkBuffer.pb_recv b) then mret tt else request_write).
Definition sends (had : bool) (b : ChunkBuffer.PacketBuffer) : M unit :=
  (if had || is_none (ChunkBuffer.pb_send b) then mret tt else request_send).

(** BufferWriter: [output_handler_recv]. *)
Definition job_write : M unit :=
  c ← get;
  assert (in_state (w_state c) IF_OPERATION_PENDING);;
  modify (set_w_state IF_BUSY);;
  assert (is_none (out_have c));;
  dest ← lift (ChunkBuffer.pb_recv (udp_send_buffer c));
  modify (set_out_have (Some dest)).

(** PacketBuffer: [input_handler_done]. *)
Definition job_written : M unit :=
  c ← get;
  assert (in_state (w_state c) IF_DONE_PENDING);;
  modify (set_w_state IF_NONE);;
  let b := udp_send_buffer c in
  b' ← lift (ChunkBuffer.input_handler_done (w_len c) (ChunkBuffer.mk_packets (ChunkBuffer.chunks b) (ChunkBuffer.input_mtu b) None (ChunkBuffer.pb_send b)));
  modify (set_udp_send_buffer b');;
  requests false b';;
  sends (negb (is_none (ChunkBuffer.pb_send b))) b'.

(** BDatagram: [send_if_handler_send]; the address has been set. *)
Definition job_send : M unit :=
  c ← get;
  assert (in_state (s_state c) IF_OPERATION_PENDING);;
  modify (set_s_state IF_BUSY);;
  assert (negb (d_err (udp_dgram c)));;
  assert (is_none (send_busy (udp_dgram c)));;
  x ← lift (ChunkBuffer.pb_send (udp_send_buffer c));
  assert ((0 <=? snd x) && (snd x <=? udp_mtu));;
  on_dgram (set_send_busy (Some x));;
  modify (set_send_job_set true);;
  BPending_Set k_send_job.

(** PacketBuffer: [output_handler_done]. *)
Definition job_sent : M unit :=
  c ← get;
  assert (in_state (s_state c) IF_DONE_PENDING);;
  modify (set_s_state IF_NONE);;
  let b := udp_send_buffer c in
  b' ← lift (ChunkBuffer.output_handler_done (ChunkBuffer.mk_packets (ChunkBuffer.chunks b) (ChunkBuffer.input_mtu b) (ChunkBuffer.pb_recv b) None));
  modify (set_udp_send_buffer b');;
  requests (negb (is_none (ChunkBuffer.pb_recv b))) b';;
  sends false b'.

(** ** BDatagram *)

(** What the system answers: it sent the message or delivers one, it would block (or the limit
    of operations per round is reached), or it failed. *)
Inductive io := io_done (data : bytes) | io_wait | io_error.

Definition report_error : M unit := on_dgram (set_d_err true).

(** Receiving starts with the first message sent. *)
Definition start_recv : M unit :=
  c ← get;
  if recv_started (udp_dgram c) then mret tt
  else
    on_dgram (set_recv_started true);;
    if recv_busy (udp_dgram c) then modify (set_recv_job_set true);; BPending_Set k_recv_job else mret tt.

Definition do_send (x : io) : M unit :=
  c ← get;
  assert (negb (d_err (udp_dgram c)));;
  p ← lift (send_busy (udp_dgram c));
  data ← lift (load (fst p) (snd p) (ChunkBuffer.buffer (ChunkBuffer.chunks (udp_send_buffer c))));
  match x with
  | io_wait => on_dgram (set_wait_write true)
  | io_error => report_error
  | io_done _ =>
      modify (set_h_sent (h_sent c ++ [data]));;
      start_recv;;
      on_dgram (set_send_busy None);;
      assert (in_state (s_state c) IF_BUSY);;
      modify (set_s_state IF_DONE_PENDING);;
      BPending_Set k_sent
  end.

Definition do_recv (x : io) : M unit :=
  c ← get;
  assert (negb (d_err (udp_dgram c)));;
  assert (recv_busy (udp_dgram c));;
  assert (recv_started (udp_dgram c));;
  match x with
  | io_wait => on_dgram (set_wait_read true)
  | io_error => report_error
  | io_done data =>
      assert (zlen data <=? udp_mtu);;
      m ← lift (store 0 data (udp_recv_buf c));
      modify (set_udp_recv_buf m);;
      on_dgram (set_recv_busy false);;
      assert (in_state (r_state c) IF_BUSY);;
      modify (fun c => set_r_len (zlen data) (set_r_state IF_DONE_PENDING c));;
      BPending_Set k_received
  end.

Definition send_job_handler (x : io) : M unit :=
  modify (set_send_job_set false);; do_send x.

Definition recv_job_handler (x : io) : M unit :=
  modify (set_recv_job_set false);; do_recv x.

(** [recv_if_handler_recv]. *)
Definition job_recv : M unit :=
  c ← get;
  assert (in_state (r_state c) IF_OPERATION_PENDING);;
  modify (set_r_state IF_BUSY);;
  assert (negb (d_err (udp_dgram c)));;
  assert (negb (recv_busy (udp_dgram c)));;
  on_dgram (set_recv_busy true);;
  if recv_started (udp_dgram c) then modify (set_recv_job_set true);; BPending_Set k_recv_job else mret tt.

(** The socket is ready: [write], [read] and [error] are the events. *)
Definition fd_handler (write read error : bool) (x : io) : M unit :=
  c ← get;
  let d := udp_dgram c in
  assert (negb (d_err d));;
  on_dgram (fun d => set_wait_write (wait_write d && negb write) (set_wait_read (wait_read d && negb read) d));;
  let have_send := write || (error && negb (is_none (send_busy d))) in
  let have_recv := read || (error && recv_busy d && recv_started d) in
  assert (negb have_send || negb (is_none (send_busy d)));;
  assert (negb have_recv || recv_busy d && recv_started d);;
  if have_send then
    (if have_recv then modify (set_recv_job_set true);; BPending_Set k_recv_job else mret tt);;
    do_send x
  else if have_recv then do_recv x
  else report_error.

(** ** Answers *)

(** SinglePacketBuffer: [input_handler_done] and [output_handler_done]. *)
Definition job_received : M unit :=
  c ← get;
  assert (in_state (r_state c) IF_DONE_PENDING);;
  modify (set_r_state IF_NONE);;
  assert ((0 <=? r_len c) && (r_len c <=? udp_mtu));;
  assert (in_state (u_state c) IF_NONE);;
  modify (fun c => set_u_len (r_len c) (set_u_state IF_OPERATION_PENDING c));;
  BPending_Set k_deliver.

Definition job_delivered : M unit :=
  c ← get;
  assert (in_state (u_state c) IF_DONE_PENDING);;
  modify (set_u_state IF_NONE);;
  assert (in_state (r_state c) IF_NONE);;
  modify (set_r_state IF_OPERATION_PENDING);;
  BPending_Set k_recv.

(** The header of a message from the SOCKS server: the sender's address and the rest, or
    [None] when the message is malformed. *)
Definition read_header (data : bytes) : option (BAddr * bytes) :=
  if zlen data <? 4 then None
  else match data with
  | _ :: _ :: frag :: atyp :: data =>
      if negb (frag =? 0) then None
      else if atyp =? BSocks.SOCKS_ATYP_IPV6 then
        if zlen data <? 18 then None
        else Some (BSocks.ipv6 (take 16 data) (take 2 (drop 16 data)), drop 18 data)
      else
        if zlen data <? 6 then None
        else Some (BSocks.ipv4 (take 4 data) (take 2 (drop 4 data)), drop 6 data)
  | _ => None
  end.

(** [udpgw_compute_mtu]: the SOCKS header and the longer of the two addresses. *)
Definition udpgw_mtu : Z := udp_mtu + 4 + 18.

Definition submit_to_user (data : bytes) : M unit :=
  if udp_mtu <? zlen data then mret tt
  else c ← get; emit (local_addr c, remote_addr c, data).

Definition dgram_handler_received : M unit :=
  c ← get;
  assert (in_state (u_state c) IF_OPERATION_PENDING);;
  modify (set_u_state IF_BUSY);;
  data ← lift (load 0 (u_len c) (udp_recv_buf c));
  assert ((0 <=? u_len c) && (u_len c <=? udpgw_mtu));;
  modify (set_u_state IF_DONE_PENDING);;
  BPending_Set k_delivered;;
  if is_dns c then submit_to_user data
  else match read_header data with
       | None => mret tt
       | Some (remote, data) => modify (set_remote_addr remote);; submit_to_user data
       end.

(** ** Sending *)

Definition socks_udp_header (remote : BAddr) : bytes :=
  [0; 0; 0; match remote with BSocks.ipv4 _ _ => BSocks.SOCKS_ATYP_IPV4 | BSocks.ipv6 _ _ => BSocks.SOCKS_ATYP_IPV6 end].
Definition header (dns : bool) (remote : BAddr) : bytes :=
  if dns then [] else socks_udp_header remote ++ ip_of remote ++ port_of remote.

(** [BufferWriter_EndPacket]. *)
Definition EndPacket (len : Z) : M unit :=
  c ← get;
  assert ((0 <=? len) && (len <=? udp_mtu));;
  assert (negb (is_none (out_have c)));;
  modify (set_out_have None);;
  assert (in_state (w_state c) IF_BUSY);;
  modify (fun c => set_w_len len (set_w_state IF_DONE_PENDING c));;
  BPending_Set k_written.

(** A [memcpy] into the ring. *)
Definition write_ring (off : Z) (data : bytes) : M unit :=
  c ← get;
  let b := udp_send_buffer c in
  m ← lift (store off data (ChunkBuffer.buffer (ChunkBuffer.chunks b)));
  modify (set_udp_send_buffer (ChunkBuffer.mk_packets (ChunkBuffer.set_memory m (ChunkBuffer.chunks b)) (ChunkBuffer.input_mtu b) (ChunkBuffer.pb_recv b) (ChunkBuffer.pb_send b))).

(** Whether the message was taken. *)
Definition connection_send (data : bytes) : M bool :=
  c ← get;
  match out_have c with
  | None => mret false
  | Some out =>
      let h := header (is_dns c) (remote_addr c) in
      write_ring out h;;
      write_ring (out + zlen h) data;;
      modify (fun c => set_h_accepted (h_accepted c ++ [h ++ data]) c);;
      EndPacket (zlen h + zlen data);;
      mret true
  end.

(** The packet is read from the device's buffer, which has to be the one it was in. *)
Definition connection_first_job_handler (device : nat) : M unit :=
  modify (set_first_set false);;
  c ← get;
  assert (bool_decide (fst (first_data c) = device));;
  _ ← connection_send (snd (first_data c));
  mret tt.

(** One job of a connection. *)
Definition run_job (device : nat) (k : kind) (x : io) : M unit :=
  match k with
  | k_first => connection_first_job_handler device
  | k_write => job_write
  | k_written => job_written
  | k_send => job_send
  | k_sent => job_sent
  | k_recv => job_recv
  | k_received => job_received
  | k_deliver => dgram_handler_received
  | k_delivered => job_delivered
  | k_send_job => send_job_handler x
  | k_recv_job => recv_job_handler x
  end.

End handlers.

(** ** The packet buffer between two of its handlers *)

Import ChunkBuffer.

Lemma schedule_recv_inv b b' : schedule_recv b = Some b' -> pb_recv b = None /\ pb_send b' = pb_send b.
Proof.
  unfold schedule_recv. destruct (input_dest (chunks b)); [|done]. cbn. destruct (bool_decide_reflect (pb_recv b = None)); [|done]. cbn. by intros [= <-].
Qed.

Lemma schedule_send_inv b b' : schedule_send b = Some b' -> pb_send b = None /\ pb_recv b' = pb_recv b.
Proof.
  unfold schedule_send. destruct (output_dest (chunks b)); [|done]. cbn. destruct (0 <=? output_avail (chunks b)); [|done]. cbn.
  destruct (bool_decide_reflect (pb_send b = None)); [|done]. cbn. by intros [= <-].
Qed.

(** Asks for packets and gives them only through the two functions above. *)
Ltac scheduled H :=
  repeat match type of H with
  | context [if ?c then schedule_recv ?b else _] => let E := fresh "Er" in destruct c; [destruct (schedule_recv b) eqn:E; [apply schedule_recv_inv in E as [? ?]|done]|]; cbn [mbind option_bind] in H
  | (if ?c then schedule_send ?b else _) = _ => destruct c; [apply schedule_send_inv in H as [? ?]|]
  end; cbn in *.

Lemma pb_in max n q b dest p :
  buffering max n q b -> pb_recv b = Some dest -> zlen p <= max ->
  exists m b', store dest p (buffer (chunks b)) = Some m /\
    input_handler_done (zlen p) (mk_packets (set_memory m (chunks b)) (input_mtu b) None (pb_send b)) = Some b' /\
    buffering max n (q ++ [p]) b' /\ (pb_send b <> None -> pb_send b' = pb_send b).
Proof.
  intros Hb Hd Hp. assert (Ha : ChunkBuffer.allowed (pe_in p) b = true).
  { cbn. rewrite Hd, (bf_input _ _ _ _ Hb). apply andb_true_iff. split; [done|]. by apply Z.leb_le. }
  destruct (in_ok _ _ _ _ _ Hb Ha) as (b' & Hs & Hb'). cbn [ChunkBuffer.step] in Hs. rewrite Hd in Hs. cbn [mbind option_bind] in Hs.
  destruct (store dest p (buffer (chunks b))) as [m|] eqn:Em; [|done]. cbn [mbind option_bind] in Hs.
  destruct (input_handler_done _ _) as [b2|] eqn:Ei; [|done]. cbn in Hs. simplify_eq. exists m, b'. split_and!; try done. intros Hne.
  unfold input_handler_done in Ei. cbn [input_mtu chunks pb_recv pb_send] in Ei. destruct (ASSERT (0 <=? zlen p)); [|done]. cbn [mbind option_bind] in Ei.
  destruct (ASSERT (zlen p <=? input_mtu b)); [|done]. cbn [mbind option_bind] in Ei. destruct (ChunkBuffer2_SubmitPacket _ _) as [c|]; [|done]. cbn [mbind option_bind] in Ei.
  cbn [input_mtu chunks pb_recv pb_send] in Ei. scheduled Ei; simplify_eq; try done; congruence.
Qed.

Lemma pb_out max n q b o l :
  buffering max n q b -> pb_send b = Some (o, l) ->
  exists p q' b', q = p :: q' /\ load o l (buffer (chunks b)) = Some p /\ 0 <= l <= max /\
    output_handler_done (mk_packets (chunks b) (input_mtu b) (pb_recv b) None) = Some b' /\
    buffering max n q' b' /\ (pb_recv b <> None -> pb_recv b' = pb_recv b).
Proof.
  intros Hb Hd. assert (Ha : ChunkBuffer.allowed pe_out b = true) by (cbn; by rewrite Hd).
  destruct (out_ok _ _ _ _ Hb Ha) as (p & q' & b' & -> & Hs & Hb'). cbn [ChunkBuffer.step] in Hs. rewrite Hd in Hs. cbn [mbind option_bind] in Hs.
  destruct (load o l (buffer (chunks b))) as [p'|] eqn:El; [|done]. cbn [mbind option_bind] in Hs.
  destruct (output_handler_done _) as [b2|] eqn:Ei; [|done]. cbn in Hs. simplify_eq. exists p, q', b'.
  pose proof (load_inv _ _ _ _ El) as (_ & Hl & _ & <-). pose proof (bf_packets _ _ _ _ Hb) as [Hp _]%Forall_cons. split_and!; try done. intros Hne.
  unfold output_handler_done in Ei. cbn [input_mtu chunks pb_recv pb_send] in Ei. destruct (ChunkBuffer2_ConsumePacket _) as [c|]; [|done]. cbn [mbind option_bind] in Ei.
  cbn [input_mtu chunks pb_recv pb_send] in Ei. scheduled Ei; simplify_eq; try done; congruence.
Qed.

Lemma pb_send_iff max n q b : buffering max n q b -> pb_send b = None <-> q = [].
Proof.
  intros Hb. rewrite (bf_send _ _ _ _ Hb). pose proof (chunk_output _ _ (bf_chunks _ _ _ _ Hb)) as Ho. destruct q; [by destruct Ho as [-> _]|]. by destruct Ho as (o & -> & _).
Qed.

(** ** The invariant of a connection *)

(** The packets in the buffer. While the job that accepts a message is set, its bytes are
    already in the ring. *)
Definition holding (mtu : Z) (q : list bytes) (con : connection) : Prop :=
  exists n, if in_state (w_state con) IF_DONE_PENDING
  then exists b p q0 dest m, q = q0 ++ [p] /\ buffering mtu n q0 b /\ pb_recv b = Some dest /\ store dest p (buffer (chunks b)) = Some m /\
         udp_send_buffer con = mk_packets (set_memory m (chunks b)) (input_mtu b) (pb_recv b) (pb_send b) /\ w_len con = zlen p /\ zlen p <= mtu
  else buffering mtu n q (udp_send_buffer con).

Record conn_ok (mtu : Z) (con : connection) : Prop := {
  co_queue : exists q, holding mtu q con /\ h_accepted con = h_sent con ++ (if in_state (s_state con) IF_DONE_PENDING then tail q else q);
  co_write : pb_recv (udp_send_buffer con) = None <-> w_state con = IF_NONE;
  co_out : out_have con = if in_state (w_state con) IF_BUSY then pb_recv (udp_send_buffer con) else None;
  co_send : pb_send (udp_send_buffer con) = None <-> s_state con = IF_NONE;
  co_busy : send_busy (udp_dgram con) = if in_state (s_state con) IF_BUSY then pb_send (udp_send_buffer con) else None;
  co_send_job : if in_state (s_state con) IF_BUSY then send_job_set con = negb (wait_write (udp_dgram con))
                else send_job_set con = false /\ wait_write (udp_dgram con) = false;
  co_recv : r_state con = IF_NONE <-> u_state con <> IF_NONE;
  co_user : u_state con <> IF_BUSY;
  co_rbusy : recv_busy (udp_dgram con) = in_state (r_state con) IF_BUSY;
  co_recv_job : if in_state (r_state con) IF_BUSY && recv_started (udp_dgram con) then recv_job_set con = negb (wait_read (udp_dgram con))
                else recv_job_set con = false /\ wait_read (udp_dgram con) = false;
  co_rlen : r_state con = IF_DONE_PENDING -> 0 <= r_len con <= mtu;
  co_ulen : u_state con = IF_OPERATION_PENDING -> 0 <= u_len con <= mtu;
  co_buf : zlen (udp_recv_buf con) = mtu;
  co_err : d_err (udp_dgram con) = false;
  co_family : is_dns con = true -> UdpProto.same_family (local_addr con) (remote_addr con) = true;
  co_first : if first_set con
             then h_accepted con = [] /\ header (is_dns con) (remote_addr con) ++ (first_data con).2 = h_first con /\ zlen (h_first con) <= mtu /\
                  recv_started (udp_dgram con) = false /\ (w_state con = IF_OPERATION_PENDING \/ w_state con = IF_BUSY) /\ u_state con = IF_NONE /\ r_state con <> IF_DONE_PENDING
             else exists t, h_accepted con = h_first con :: t }.

(** Which jobs are set, as the states of a connection say. *)
Definition job_set (con : connection) (k : kind) : bool :=
  match k with
  | k_first => first_set con
  | k_write => in_state (w_state con) IF_OPERATION_PENDING
  | k_written => in_state (w_state con) IF_DONE_PENDING
  | k_send => in_state (s_state con) IF_OPERATION_PENDING
  | k_sent => in_state (s_state con) IF_DONE_PENDING
  | k_recv => in_state (r_state con) IF_OPERATION_PENDING
  | k_received => in_state (r_state con) IF_DONE_PENDING
  | k_deliver => in_state (u_state con) IF_OPERATION_PENDING
  | k_delivered => in_state (u_state con) IF_DONE_PENDING
  | k_send_job => send_job_set con
  | k_recv_job => recv_job_set con
  end.

Definition index (k : kind) : nat :=
  match k with
  | k_first => 0 | k_write => 1 | k_written => 2 | k_send => 3 | k_sent => 4 | k_recv => 5 | k_received => 6 | k_deliver => 7 | k_delivered => 8
  | k_send_job => 9 | k_recv_job => 10
  end.
Definition mem (k : kind) (l : list kind) : bool := existsb (fun k' => Nat.eqb (index k) (index k')) l.

Lemma mem_spec k l : mem k l = true <-> k ∈ l.
Proof.
  unfold mem. rewrite existsb_exists. split.
  - intros (k' & Hin & E%Nat.eqb_eq). assert (k = k') as -> by by destruct k, k'. by apply list_elem_of_In.
  - intros Hin%list_elem_of_In. exists k. split; [done|]. apply Nat.eqb_refl.
Qed.

(** What a handler that was called by the jobs [ran] leaves: the jobs set before and those it
    set, none of them twice. *)
Record left_by (mtu : Z) (ran : list kind) (con : connection) (v : view) : Prop := {
  lb_ok : conn_ok mtu (v_con v);
  lb_local : local_addr (v_con v) = local_addr con;
  lb_first : first_data (v_con v) = first_data con;
  lb_nodup : NoDup (v_jobs v);
  lb_new k : mem k (v_jobs v) = true -> job_set con k = false \/ mem k ran = true;
  lb_set k : job_set (v_con v) k = job_set con k && negb (mem k ran) || mem k (v_jobs v);
  lb_no_first : mem k_first (v_jobs v) = false;
  lb_written : mem k_written (v_jobs v) = true -> v_jobs v = [k_written] }.

Definition wp {A} (m : M A) (Q : A -> view -> Prop) (v : view) : Prop := match m v with Some (x, v') => Q x v' | None => False end.

Lemma relay_mono {A} (m : M A) (P Q : A -> view -> Prop) v : wp m P v -> (forall x v', P x v' -> Q x v') -> wp m Q v.
Proof. unfold wp. destruct (m v) as [[x v']|]; [|done]. intros H HPQ. by apply HPQ. Qed.

Lemma relay_bind {A B} (m : M A) (k : A -> M B) Q v : wp m (fun x => wp (k x) Q) v -> wp (m ≫= k) Q v.
Proof. unfold wp, mbind, M_bind. by destruct (m v) as [[x v']|]. Qed.

Lemma relay_ret {A} (x : A) (Q : A -> view -> Prop) v : Q x v -> wp (mret x) Q v.
Proof. done. Qed.

Lemma relay_get (Q : connection -> view -> Prop) v : Q (v_con v) v -> wp get Q v.
Proof. done. Qed.

Lemma relay_modify f (Q : unit -> view -> Prop) v : Q tt (mk_view (f (v_con v)) (v_jobs v) (v_out v)) -> wp (modify f) Q v.
Proof. done. Qed.

Lemma relay_dgram f (Q : unit -> view -> Prop) v : Q tt (mk_view (set_udp_dgram (f (udp_dgram (v_con v))) (v_con v)) (v_jobs v) (v_out v)) -> wp (on_dgram f) Q v.
Proof. done. Qed.

Lemma relay_assert b (Q : unit -> view -> Prop) v : b = true -> Q tt v -> wp (assert b) Q v.
Proof. by intros ->. Qed.

Lemma relay_lift {A} (y : A) x (Q : A -> view -> Prop) v : x = Some y -> Q y v -> wp (lift x) Q v.
Proof. by intros ->. Qed.

Lemma relay_set k (Q : unit -> view -> Prop) v : Q tt (mk_view (v_con v) (k :: v_jobs v) (v_out v)) -> wp (BPending_Set k) Q v.
Proof. done. Qed.

Lemma relay_emit m (Q : unit -> view -> Prop) v :
  UdpProto.same_family (fst (fst m)) (snd (fst m)) = true -> Q tt (mk_view (v_con v) (v_jobs v) (v_out v ++ [m])) -> wp (emit m) Q v.
Proof. destruct m as [[a b] d]. cbn. intros E H. unfold wp, emit. cbn. by rewrite E. Qed.

(** One step of a handler; assertions are left when they are not at once true. *)
Ltac go1 :=
  match goal with
  | |- wp (_ ≫= _) _ _ => apply relay_bind
  | |- wp (mret _) _ _ => apply relay_ret
  | |- wp get _ _ => apply relay_get
  | |- wp (modify _) _ _ => apply relay_modify
  | |- wp (on_dgram _) _ _ => apply relay_dgram
  | |- wp (BPending_Set _) _ _ => apply relay_set
  | |- wp (emit _) _ _ => apply relay_emit; [by auto|]
  | |- wp (assert _) _ _ => apply relay_assert; [done|]
  end; cbn -[wp load store input_handler_done output_handler_done zlen].
Ltac go := repeat go1.

Definition handles {A} (mtu : Z) (ran : list kind) (m : M A) (con : connection) : Prop :=
  wp m (fun _ v => left_by mtu ran con v) (mk_view con [] []).

Ltac opened con H :=
  destruct con as [lc rm fd dns fs [sa sb rb rs ww wr er] sjs rjs oh b rbuf ws wl ss rrs rl us ul hf ha hs];
  destruct H as [Hq Hw Ho Hs Hbusy Hsj Hr Hu Hrb Hrj Hrl Hul Hbuf Her Hfam Hf]; cbn in *.
(** The bookkeeping of jobs, when the states are known. *)
Ltac job_facts :=
  first [ done | by apply (bool_decide_unpack _)
        | let k := fresh "k" in intros k; destruct k; cbn; rewrite ?andb_true_r, ?andb_false_r, ?orb_false_r, ?orb_true_r; first [done | by auto | idtac] ].

Ltac ranged := apply relay_assert; [apply andb_true_iff; lia|].

Ltac simpl_con := unfold holding in *; cbn -[wp load store input_handler_done output_handler_done zlen] in *.

Lemma job_write_ok mtu con : conn_ok mtu con -> w_state con = IF_OPERATION_PENDING -> handles mtu [k_write] job_write con.
Proof.
  intros H E. opened con H. subst ws. simpl_con. subst oh. destruct (pb_recv b) as [dest|] eqn:Ed; [|by destruct Hw as [Hw _]; specialize (Hw eq_refl)].
  unfold handles, job_write. go. eapply relay_lift; [done|]. go. split; cbn; [|job_facts..].
  split; simpl_con; rewrite ?Ed; try done. destruct fs; naive_solver.
Qed.

Lemma job_recv_ok mtu con : conn_ok mtu con -> r_state con = IF_OPERATION_PENDING -> handles mtu [k_recv] job_recv con.
Proof.
  intros H E. opened con H. subst rrs er. simpl_con. subst rb. destruct us; try (by destruct Hr as [_ Hr]; discriminate Hr). destruct Hrj as [-> ->].
  unfold handles, job_recv. go. destruct rs; go; (split; cbn; [|job_facts..]); split; simpl_con; try done; destruct fs; naive_solver.
Qed.

Lemma job_received_ok mtu con : conn_ok mtu con -> r_state con = IF_DONE_PENDING -> handles mtu [k_received] (job_received mtu) con.
Proof.
  intros H E. opened con H. subst rrs er. simpl_con. subst rb. destruct us; try (by destruct Hr as [_ Hr]; discriminate Hr). destruct Hrj as [-> ->]. specialize (Hrl eq_refl).
  unfold handles, job_received. go. ranged. go. split; cbn; [|job_facts..]. split; simpl_con; try done; destruct fs; naive_solver.
Qed.

Lemma job_delivered_ok mtu con : conn_ok mtu con -> u_state con = IF_DONE_PENDING -> handles mtu [k_delivered] job_delivered con.
Proof.
  intros H E. opened con H. subst us er. simpl_con. destruct Hr as [_ Hr]. specialize (Hr ltac:(done)). subst rrs. simpl_con. subst rb. destruct Hrj as [-> ->].
  unfold handles, job_delivered. go. split; cbn; [|job_facts..]. split; simpl_con; try done; destruct fs; naive_solver.
Qed.

(** The message received can be handed to the user: the answer of a DNS server always can; what
    the SOCKS server sends has to be malformed, too long or from an address of the family of
    the connection's own. *)
Definition fits (mtu : Z) (con : connection) : bool :=
  is_dns con ||
  match load 0 (u_len con) (udp_recv_buf con) with
  | Some data => match read_header data with Some (r, d) => (mtu <? zlen d) || UdpProto.same_family (local_addr con) r | None => true end
  | None => true
  end.

Lemma deliver_ok mtu con : conn_ok mtu con -> u_state con = IF_OPERATION_PENDING -> fits mtu con = true -> handles mtu [k_deliver] (dgram_handler_received mtu) con.
Proof.
  intros H E Hfit. opened con H. subst us er. simpl_con. destruct Hr as [_ Hr]. specialize (Hr ltac:(done)). subst rrs. simpl_con. subst rb. destruct Hrj as [-> ->]. specialize (Hul eq_refl).
  destruct (load_some 0 ul rbuf) as (data & El & Hl); [lia..|]. unfold fits in Hfit. cbn in Hfit. rewrite El in Hfit. unfold handles, dgram_handler_received. go. eapply relay_lift; [done|]. unfold udpgw_mtu. go. ranged. go.
  assert (Hfs : fs = false) by (destruct fs; naive_solver). subst fs.
  destruct dns; [|destruct (read_header data) as [[r d]|]]; unfold submit_to_user; go.
  1-2: match goal with |- context [if ?x then _ else _] => destruct x eqn:Ex end; go.
  all: try (cbn in Hfit; rewrite Ex in Hfit; cbn in Hfit; go).
  all: split; cbn; [|job_facts..]; split; simpl_con; done.
Qed.

(** Otherwise an assertion fails. *)
Lemma deliver_fails mtu con js out : fits mtu con = false -> dgram_handler_received mtu (mk_view con js out) = None.
Proof.
  intros Hfit. assert (Hrun : ~ wp (dgram_handler_received mtu) (fun _ _ => True) (mk_view con js out)); [|unfold wp in Hrun; by destruct (dgram_handler_received mtu _) as [[? ?]|]; [destruct Hrun|]].
  unfold fits in Hfit. apply orb_false_iff in Hfit as [Hdns Hfit]. destruct (load 0 (u_len con) (udp_recv_buf con)) as [data|] eqn:El; [|done]. destruct (read_header data) as [[r d]|] eqn:Er; [|done].
  apply orb_false_iff in Hfit as [Hlong Hfam]. unfold dgram_handler_received, submit_to_user, emit, wp, mbind, M_bind, get, modify, assert, lift, BPending_Set. cbn.
  destruct (in_state _ _); [|by intros []]. rewrite El. destruct (_ && _); [|by intros []]. cbn. rewrite Hdns, Er. cbn. rewrite Hlong. cbn. rewrite Hfam. by intros [].
Qed.

Lemma job_send_ok mtu con : conn_ok mtu con -> w_state con <> IF_DONE_PENDING -> s_state con = IF_OPERATION_PENDING -> handles mtu [k_send] (job_send mtu) con.
Proof.
  intros H Hnw E. opened con H. subst ss er. simpl_con. destruct Hsj as [-> ->]. subst sb. destruct (pb_send b) as [[o l]|] eqn:Es; [|by destruct Hs as [Hs _]; specialize (Hs eq_refl)].
  assert (Hl : 0 <= l <= mtu).
  { destruct Hq as (q & (n & Hq) & _). destruct ws; try done; by destruct (pb_out _ _ _ _ _ _ Hq Es) as (? & ? & ? & _ & _ & ? & _). }
  unfold handles, job_send. go. eapply relay_lift; [done|]. go. ranged. go. split; cbn; [|job_facts..]. split; simpl_con; rewrite ?Es; done.
Qed.

(** [do_send] and [do_recv], called when nothing else is to call them: as if their job had been
    set. *)
Definition continues (mtu : Z) (k : kind) (con : connection) (js : list kind) (out : list message) (v : view) : Prop :=
  exists js', v_jobs v = js' ++ js /\ v_out v = out /\ mem k_written js' = false /\ left_by mtu [k] con (mk_view (v_con v) js' out).

Lemma do_send_ok mtu con x js out :
  conn_ok mtu (set_send_job_set true con) -> send_job_set con = false -> w_state con <> IF_DONE_PENDING -> s_state con = IF_BUSY -> x <> io_error ->
  wp (do_send x) (fun _ => continues mtu k_send_job (set_send_job_set true con) js out) (mk_view con js out).
Proof.
  intros H Hj Hnw E Hx. opened con H. subst ss er. simpl_con. subst sjs sb. destruct ww; [done|]. destruct (pb_send b) as [[o l]|] eqn:Es; [|by destruct Hs as [Hs _]; specialize (Hs eq_refl)].
  destruct Hq as (q & (n & Hq) & Eh). assert (Hb : buffering mtu n q b) by by destruct ws. destruct (pb_out _ _ _ _ _ _ Hb Es) as (p & q' & b' & -> & El & Hl & _).
  destruct fs; [by destruct Hf as (-> & _); destruct hs|]. assert (Eh' : ha = (hs ++ [p]) ++ q') by by rewrite Eh, <- app_assoc.
  unfold do_send. go. eapply relay_lift; [done|]. go. eapply relay_lift; [done|]. destruct x as [d| |]; [|go|done].
  - unfold start_recv. go. destruct rs; [|destruct rb eqn:Erb]; go; [exists [k_sent]|exists [k_sent; k_recv_job]|exists [k_sent]].
    2: destruct rrs; try done; destruct Hrj as [-> ->].
    3: destruct rrs; try done; destruct Hrj as [-> ->].
    all: split_and!; [done..|]; split; cbn; [|job_facts..]; split; simpl_con; rewrite ?Es; try done; exists (p :: q'); (split; [by exists n; destruct ws|done]).
  - exists []. split_and!; [done..|]. split; cbn; [|job_facts..]. split; simpl_con; rewrite ?Es; try done. exists (p :: q'). split; [by exists n; destruct ws|done].
Qed.

Lemma do_recv_ok mtu con x js out :
  conn_ok mtu (set_recv_job_set true con) -> recv_job_set con = false -> recv_busy (udp_dgram con) = true -> recv_started (udp_dgram con) = true ->
  x <> io_error -> (forall data, x = io_done data -> zlen data <= mtu) ->
  wp (do_recv mtu x) (fun _ => continues mtu k_recv_job (set_recv_job_set true con) js out) (mk_view con js out).
Proof.
  intros H Hj Hb Hst Hx Hd. opened con H. subst rb rs er. simpl_con. subst rjs. destruct rrs; try done. simpl_con. destruct wr; [done|].
  destruct fs; [naive_solver|]. destruct us; try (by destruct Hr as [_ Hr]; discriminate Hr). unfold do_recv. go. destruct x as [d| |]; [|go|done].
  - specialize (Hd d eq_refl). apply relay_bind, relay_assert; [by apply Z.leb_le|]. pose proof (zlen_nonneg d). destruct (store_some 0 d rbuf) as (m & Em & Hm); [lia..|].
    go. eapply relay_lift; [done|]. go. exists [k_received]. split_and!; [done..|]. split; cbn; [|job_facts..]. split; simpl_con; try done. lia.
  - exists []. split_and!; [done..|]. split; cbn; [|job_facts..]. by split.
Qed.

Lemma send_job_ok mtu con x :
  conn_ok mtu con -> send_job_set con = true -> w_state con <> IF_DONE_PENDING -> x <> io_error -> handles mtu [k_send_job] (send_job_handler x) con.
Proof.
  intros H Hj Hnw Hx. assert (E : s_state con = IF_BUSY).
  { pose proof (co_send_job _ _ H) as Hs. destruct (s_state con); cbn in Hs; try done; by destruct Hs; congruence. }
  assert (Ec : set_send_job_set true (set_send_job_set false con) = con) by (destruct con; cbn in *; by subst). unfold handles, send_job_handler. go.
  eapply relay_mono; [apply (do_send_ok mtu (set_send_job_set false con)); rewrite ?Ec; done|]. intros _ v (js' & Ej & Eo & _ & Hl). rewrite Ec in Hl. destruct v. cbn in *. rewrite app_nil_r in Ej. by subst.
Qed.

Lemma recv_job_ok mtu con x :
  conn_ok mtu con -> recv_job_set con = true -> x <> io_error -> (forall data, x = io_done data -> zlen data <= mtu) -> handles mtu [k_recv_job] (recv_job_handler mtu x) con.
Proof.
  intros H Hj Hx Hd. assert (E : recv_busy (udp_dgram con) = true /\ recv_started (udp_dgram con) = true).
  { pose proof (co_recv_job _ _ H) as Hr. rewrite (co_rbusy _ _ H). destruct (in_state (r_state con) IF_BUSY), (recv_started (udp_dgram con)); cbn in Hr; try done; by destruct Hr; congruence. }
  assert (Ec : set_recv_job_set true (set_recv_job_set false con) = con) by (destruct con; cbn in *; by subst). unfold handles, recv_job_handler. go.
  destruct E. eapply relay_mono; [apply (do_recv_ok mtu (set_recv_job_set false con)); rewrite ?Ec; done|]. intros _ v (js' & Ej & Eo & _ & Hl). rewrite Ec in Hl. destruct v. cbn in *. rewrite app_nil_r in Ej. by subst.
Qed.

Lemma continues_left mtu k con0 con js v :
  continues mtu k con js [] v -> local_addr con = local_addr con0 -> first_data con = first_data con0 -> NoDup js -> mem k js = false -> mem k_written js = false -> mem k_first js = false ->
  job_set con0 k = false -> (forall k', job_set con k' = job_set con0 k' || mem k' (k :: js)) -> (forall k', mem k' js = true -> job_set con0 k' = false) -> left_by mtu [] con0 v.
Proof.
  intros (js' & Ej & Eo & Hw & [Hok Hl Hf Hn Hnew Hset Hnf _]) E1 E2 Hnj Hkj Hkw Hkf Hk0 Hjs Hfresh. cbn [v_con v_jobs] in *.
  assert (Hmem : forall k l1 l2, mem k (l1 ++ l2) = mem k l1 || mem k l2) by (intros; apply existsb_app).
  assert (Hsplit : forall a l, mem a (k :: l) = mem a [k] || mem a l) by (intros a l; apply (Hmem a [k] l)).
  assert (Hone : forall a, mem a [k] = true -> a = k) by (intros a Ha; by apply mem_spec, list_elem_of_singleton in Ha).
  split; rewrite ?Ej in *; rewrite ?Hmem; [done|congruence|congruence|..].
  - apply NoDup_app. split_and!; [done| |done]. intros a Ha%mem_spec Hb%mem_spec. destruct (Hnew a Ha) as [Hf0|Hk'%Hone]; [|congruence].
    rewrite Hjs, Hsplit, Hb in Hf0. by rewrite !orb_true_r in Hf0.
  - intros a Ha. rewrite Hmem in Ha. apply orb_true_iff in Ha as [Ha|Ha]; [|left; by apply Hfresh]. destruct (Hnew a Ha) as [Hf0|Hk'%Hone]; [|subst; by left].
    rewrite Hjs in Hf0. by apply orb_false_iff in Hf0 as [? _]; left.
  - intros a. rewrite Hset, Hjs, Hsplit, Hmem. change (mem a []) with false. destruct (mem a [k]) eqn:Ea; [|by destruct (job_set con0 a), (mem a js), (mem a js')].
    apply Hone in Ea as ->. rewrite Hk0, Hkj. cbn [negb]. by rewrite !andb_false_r, !orb_false_r.
  - by rewrite Hnf, Hkf.
  - by rewrite Hw, Hkw.
Qed.

Lemma fd_handler_ok mtu con write read x :
  conn_ok mtu con -> send_job_set con = false -> recv_job_set con = false -> w_state con <> IF_DONE_PENDING ->
  (write = true -> wait_write (udp_dgram con) = true) -> (read = true -> wait_read (udp_dgram con) = true) -> write || read = true ->
  x <> io_error -> (forall data, x = io_done data -> zlen data <= mtu) -> handles mtu [] (fd_handler mtu write read false x) con.
Proof.
  intros H Hsj0 Hrj0 Hnw Hwr Hrd Hor Hx Hd. assert (Hs0 : write = true -> s_state con = IF_BUSY).
  { intros ?%Hwr. pose proof (co_send_job _ _ H) as Hs. destruct (s_state con); cbn in Hs; try done; destruct Hs; congruence. }
  assert (Hr0 : read = true -> r_state con = IF_BUSY /\ recv_started (udp_dgram con) = true).
  { intros ?%Hrd. pose proof (co_recv_job _ _ H) as Hr. destruct (r_state con), (recv_started (udp_dgram con)); cbn in Hr; try done; destruct Hr; congruence. }
  opened con H. subst er sjs rjs. simpl_con.
  assert (Hsb : write = true -> exists x, pb_send b = Some x).
  { intros Ew. rewrite (Hs0 Ew) in Hs. destruct (pb_send b) as [y|]; [by exists y|]. by destruct Hs as [Hs _]; specialize (Hs eq_refl). }
  unfold handles, fd_handler. go. rewrite ?orb_false_r.
  destruct write; [specialize (Hwr eq_refl); specialize (Hs0 eq_refl); destruct (Hsb eq_refl) as [y Ey]; subst ww ss|];
    (destruct read; [specialize (Hrd eq_refl); destruct (Hr0 eq_refl) as [-> ->]; subst wr|]); try done; simpl_con.
  - rewrite Ey in Hbusy. subst sb rb. go. eapply relay_mono; [eapply do_send_ok; try done; split; simpl_con; rewrite ?andb_true_r; try done|]. intros ? v Hv. cbv beta in Hv.
    eapply continues_left; [exact Hv|done|done|by apply (bool_decide_unpack _)|done..| |]; intros []; cbn; by rewrite ?orb_false_r.
  - rewrite Ey in Hbusy. subst sb. go. eapply relay_mono; [eapply do_send_ok; try done; split; simpl_con; rewrite ?andb_true_r; try done|]. intros ? v Hv. cbv beta in Hv.
    eapply continues_left; [exact Hv|done|done|by apply (bool_decide_unpack _)|done..| |]; intros []; cbn; by rewrite ?orb_false_r.
  - subst rb. go. eapply relay_mono; [eapply do_recv_ok; try done; split; simpl_con; rewrite ?andb_true_r; try done|]. intros ? v Hv. cbv beta in Hv.
    eapply continues_left; [exact Hv|done|done|by apply (bool_decide_unpack _)|done..| |]; intros []; cbn; by rewrite ?orb_false_r.
Qed.

Lemma job_written_ok mtu con : conn_ok mtu con -> w_state con = IF_DONE_PENDING -> handles mtu [k_written] job_written con.
Proof.
  intros H E. opened con H. subst ws er. simpl_con. subst oh. destruct Hq as (q & (n & b0 & p & q0 & dest & m & -> & Hb0 & Hd & Em & -> & -> & Hp) & Eh). cbn in *.
  assert (fs = false) as -> by (destruct fs; naive_solver). destruct (pb_in _ _ _ _ _ _ Hb0 Hd Hp) as (m' & b' & Em' & Ei & Hb' & Hkeep). rewrite Em in Em'. injection Em' as <-.
  assert (Hne : pb_send b' <> None). { rewrite (pb_send_iff _ _ _ _ Hb'). by destruct q0. }
  unfold handles, job_written. go. eapply relay_lift; [done|]. unfold requests, sends, request_write, request_send. go.
  assert (Hsame : pb_send b0 = None \/ pb_send b' = pb_send b0 /\ pb_send b0 <> None) by (destruct (pb_send b0); [right; by rewrite Hkeep|by left]).
  clear Hkeep Hb0 Hd Em Ei Hp. assert (Hq : exists q, holding mtu q (mk_con lc rm fd dns false (mk_dgram sa sb rb rs ww wr false) sjs rjs None b' rbuf IF_NONE 0 ss rrs rl us ul hf ha hs) /\
    ha = hs ++ (if in_state ss IF_DONE_PENDING then tail q else q)) by (exists (q0 ++ [p]); split; [by exists n|done]). clear Hb' Eh. simpl_con.
  destruct (pb_send b') as [x'|] eqn:Ex'; [|done]. destruct Hsame as [E0|[E1 E2]].
  - pose proof (proj1 Hs E0). subst ss. simpl_con. destruct Hsj as [-> ->]. rewrite E0.
    destruct (pb_recv b') as [d'|] eqn:Ed'; cbn [is_none negb orb]; go; (split; cbn; [|job_facts..]); split; simpl_con; rewrite ?Ed', ?Ex'; done.
  - rewrite <- E1 in *. destruct (pb_recv b') as [d'|] eqn:Ed'; cbn [is_none negb orb]; go; (split; cbn; [|job_facts..]); split; simpl_con; rewrite ?Ed', ?Ex'; done.
Qed.

Lemma job_sent_ok mtu con : conn_ok mtu con -> w_state con <> IF_DONE_PENDING -> s_state con = IF_DONE_PENDING -> handles mtu [k_sent] job_sent con.
Proof.
  intros H Hnw E. opened con H. subst ss er. simpl_con. subst sb. destruct Hsj as [-> ->]. destruct (pb_send b) as [[o l]|] eqn:Es; [|by destruct Hs as [Hs _]; specialize (Hs eq_refl)].
  destruct Hq as (q & (n & Hq) & Eh). assert (Hb : buffering mtu n q b) by by destruct ws. destruct (pb_out _ _ _ _ _ _ Hb Es) as (p & q' & b' & -> & _ & _ & Ei & Hb' & Hkeep).
  cbn [tail] in Eh. clear Hq Hb. unfold handles, job_sent. go. eapply relay_lift; [done|]. unfold requests, sends, request_write, request_send. go. clear Ei.
  assert (Hsame : pb_recv b = None \/ pb_recv b' = pb_recv b /\ pb_recv b <> None) by (destruct (pb_recv b); [right; by rewrite Hkeep|by left]). clear Hkeep.
  assert (Hq : exists q, (exists n, buffering mtu n q b') /\ ha = hs ++ q) by (exists q'; split; [by exists n|done]). clear Hb' Eh.
  destruct Hsame as [E0|[E1 E2]].
  - pose proof (proj1 Hw E0). subst ws. simpl_con. rewrite E0. assert (fs = false) as -> by (destruct fs; naive_solver).
    destruct (pb_recv b') as [d'|] eqn:Ed', (pb_send b') as [x'|] eqn:Ex'; cbn [is_none negb orb]; go; (split; cbn; [|job_facts..]); split; simpl_con; rewrite ?Ed', ?Ex'; try done; by subst.
  - assert (Hwn : ws <> IF_NONE) by (intros ?; apply E2; by apply Hw). destruct (pb_recv b) as [d|] eqn:Ed; [|done]. cbn [is_none negb orb]; go.
    destruct (pb_send b') as [x'|] eqn:Ex'; cbn [is_none negb orb]; go; (split; cbn; [|job_facts..]); split; simpl_con; rewrite ?E1, ?Ex'; try done; by destruct ws.
Qed.

Lemma store_parts off a d m m2 : store off (a ++ d) m = Some m2 -> exists m1, store off a m = Some m1 /\ store (off + zlen a) d m1 = Some m2.
Proof.
  intros H. pose proof (store_inv _ _ _ _ H) as (H1 & H2 & _). pose proof (zlen_nonneg a). pose proof (zlen_nonneg d). assert (El : zlen (a ++ d) = zlen a + zlen d) by (unfold zlen; rewrite length_app; lia).
  rewrite El in H2. destruct (store_some off a m) as (m1 & E1 & L1); [lia..|]. exists m1. split; [done|]. unfold store in *.
  assert (R1 : in_range off (zlen (a ++ d)) m = true) by (apply in_range_spec; lia). assert (R2 : in_range off (zlen a) m = true) by (apply in_range_spec; lia).
  assert (R3 : in_range (off + zlen a) (zlen d) m1 = true) by (apply in_range_spec; lia). rewrite R1 in H. rewrite R2 in E1. rewrite R3. injection E1 as <-. injection H as <-. f_equal. rewrite El. set (x := take (Z.to_nat off) m).
  assert (Lx : zlen x = off) by (unfold x, zlen in *; rewrite length_take; lia).
  rewrite (app_assoc x a). rewrite take_app_length' by (rewrite length_app; unfold zlen in *; lia). rewrite <- !app_assoc. apply (f_equal (fun l => x ++ a ++ d ++ l)).
  rewrite (app_assoc x a).
  rewrite (drop_app_ge) by (rewrite length_app; unfold zlen in *; lia). rewrite drop_drop. f_equal. rewrite length_app. unfold zlen in *. lia.
Qed.

(** A message written into the buffer: by the first job, or for a connection that exists. *)
Definition written (con : connection) (m : bytes) (p : bytes) : connection :=
  let b := udp_send_buffer con in
  set_w_len (zlen p) (set_w_state IF_DONE_PENDING (set_out_have None (set_h_accepted (h_accepted con ++ [p])
    (set_udp_send_buffer (mk_packets (set_memory m (chunks b)) (input_mtu b) (pb_recv b) (pb_send b)) con)))).

Lemma written_ok mtu con m p dest t :
  conn_ok mtu con -> w_state con = IF_BUSY -> out_have con = Some dest -> store dest p (buffer (chunks (udp_send_buffer con))) = Some m -> zlen p <= mtu ->
  h_accepted con ++ [p] = h_first con :: t ->
  left_by mtu [k_first] con (mk_view (written (set_first_set false con) m p) [k_written] []).
Proof.
  intros H E Hd Em Hp Ht. opened con H. subst ws er oh. simpl_con. destruct Hq as (q & (n & Hb) & Eh). split; cbn -[zlen]; [|job_facts..]. split; simpl_con; try done.
  - exists (q ++ [p]). split; [by exists n, b, p, q, dest, m|]. rewrite Eh, <- app_assoc. f_equal. destruct ss; try done. destruct q; [|done].
    destruct Hs as [Hs _]. specialize (Hs (proj2 (pb_send_iff _ _ _ _ Hb) eq_refl)). done.
  - by rewrite Hd.
  - by exists t.
Qed.

Lemma connection_send_run mtu con dest data m :
  out_have con = Some dest -> w_state con = IF_BUSY -> let p := header (is_dns con) (remote_addr con) ++ data in
  store dest p (buffer (chunks (udp_send_buffer con))) = Some m -> zlen p <= mtu ->
  connection_send mtu data (mk_view con [] []) = Some (true, mk_view (written con m p) [k_written] []).
Proof.
  intros Hd Hw p Em Hp. destruct (store_parts _ _ _ _ _ Em) as (m1 & E1 & E2). assert (El : zlen p = zlen (header (is_dns con) (remote_addr con)) + zlen data).
  { unfold p, zlen. rewrite length_app. lia. }
  pose proof (zlen_nonneg (header (is_dns con) (remote_addr con))). pose proof (zlen_nonneg data).
  assert (Hrun : wp (connection_send mtu data) (fun x v => x = true /\ v = mk_view (written con m p) [k_written] []) (mk_view con [] [])).
  { unfold connection_send, write_ring, EndPacket. apply relay_bind, relay_get. cbn [v_con]. rewrite Hd. go. eapply relay_lift; [done|]. go. eapply relay_lift; [done|]. go.
    ranged. go. rewrite Hd, Hw. go. split; [done|]. unfold written. destruct con. cbn -[zlen] in *. unfold set_memory; cbn -[zlen]. by rewrite El. }
  unfold wp in Hrun. destruct (connection_send mtu data _) as [[x v]|]; [|done]. by destruct Hrun as [-> ->].
Qed.

(** Where a message can be written. *)
Lemma room_ok mtu con dest p :
  conn_ok mtu con -> w_state con = IF_BUSY -> out_have con = Some dest -> zlen p <= mtu -> exists m, store dest p (buffer (chunks (udp_send_buffer con))) = Some m.
Proof.
  intros H E Hd Hp. destruct (co_queue _ _ H) as (q & (n & Hb) & _). rewrite E in Hb. cbn in Hb. rewrite (co_out _ _ H), E in Hd. cbn in Hd.
  destruct (pb_in _ _ _ _ _ _ Hb Hd Hp) as (m & ? & Em & _). by exists m.
Qed.

Lemma first_job_ok mtu con device :
  conn_ok mtu con -> first_set con = true -> w_state con = IF_BUSY -> fst (first_data con) = device -> handles mtu [k_first] (connection_first_job_handler mtu device) con.
Proof.
  intros H Hf Hw Hdev. pose proof (co_first _ _ H) as Hc. rewrite Hf in Hc. destruct Hc as (Ha & Eh & Hl & _). pose proof (co_out _ _ H) as Ho. rewrite Hw in Ho. cbn in Ho.
  destruct (pb_recv (udp_send_buffer con)) as [dest|] eqn:Ed; [|by apply (co_write _ _ H) in Ed; congruence].
  destruct (room_ok mtu con dest (h_first con)) as [m Em]; [done..|]. unfold handles, connection_first_job_handler. apply relay_bind, relay_modify, relay_bind, relay_get. cbn [v_con v_jobs v_out].
  apply relay_bind, relay_assert; [apply bool_decide_eq_true; by destruct con|]. apply relay_bind. unfold wp. pose proof (connection_send_run mtu (set_first_set false con) dest (first_data con).2 m) as Hrun.
  assert (E1 : first_data (set_first_set false con) = first_data con) by by destruct con. assert (E2 : is_dns (set_first_set false con) = is_dns con) by by destruct con.
  assert (E3 : remote_addr (set_first_set false con) = remote_addr con) by by destruct con. cbv zeta in Hrun. rewrite E2, E3, Eh in Hrun. rewrite E1, Hrun; [|by destruct con..].
  apply relay_ret. eapply written_ok; [done..|]. by rewrite Ha.
Qed.

Lemma send_to_ok mtu con data :
  conn_ok mtu con -> first_set con = false -> w_state con <> IF_DONE_PENDING -> zlen (header (is_dns con) (remote_addr con) ++ data) <= mtu ->
  wp (connection_send mtu data) (fun taken v => left_by mtu [] con v /\ v_out v = [] /\ taken = bool_decide (w_state con = IF_BUSY) /\
    h_accepted (v_con v) = h_accepted con ++ (if taken then [header (is_dns con) (remote_addr con) ++ data] else [])) (mk_view con [] []).
Proof.
  intros H Hf Hnw Hl. pose proof (co_out _ _ H) as Ho. pose proof (co_first _ _ H) as Hc. rewrite Hf in Hc. destruct Hc as [t Ht].
  destruct (w_state con) eqn:Ew; try done; cbn in Ho.
  3: { destruct (pb_recv (udp_send_buffer con)) as [dest|] eqn:Ed; [|by apply (co_write _ _ H) in Ed; congruence].
       destruct (room_ok mtu con dest _ H Ew Ho Hl) as [m Em]. unfold wp. rewrite (connection_send_run _ _ _ _ _ Ho Ew Em Hl). split_and!; [|done|done|by destruct con].
       assert (Ec : set_first_set false con = con) by (destruct con; cbn in *; by subst). pose proof (written_ok mtu con m _ dest (t ++ [header (is_dns con) (remote_addr con) ++ data]) H Ew Ho Em Hl) as HL.
       rewrite Ec in HL. destruct HL as [L1 L2 L3 L4 L5 L6 L7 L8]; [by rewrite Ht|]. split; try done.
       - intros k Hk. destruct (L5 k Hk) as [|Hk']; [by left|]. by destruct k.
       - intros k. rewrite L6. destruct k; cbn; try done; by rewrite Hf. }
  all: unfold connection_send; apply relay_bind, relay_get; cbn [v_con]; rewrite Ho; apply relay_ret; split_and!; [|done..|by rewrite app_nil_r]; split; try done; [by constructor|intros k; by rewrite andb_true_r, orb_false_r].
Qed.

End UdpRelay.
