(* ===== verification/UdpTable.v ===== *)
(** * All UDP connections: badvpn's SocksUdpGwClient.c

    The connections ([UdpRelay]) are found by their local address with a [BAVL] tree, and kept in
    a list in the order of their use. When their number reaches its limit the least recently
    used one is given up.

    The jobs of the event loop are a stack: the job that was set last runs first. The code
    relies on that: the packet that opens a connection is sent by a job, which reads it from
    the device's buffer, and that must happen before the job runs that lets the device read its
    next packet into the same buffer, and after the job that gets the writer its room.

    [None] is a failed assertion, a use of a connection that was freed, or an access outside a
    buffer. *)

From Stdlib Require Import Sorted.
From S2P Require Import Prelude Memory BSocks ChunkBuffer BAVL UdpProto UdpRelay.
Import Memory UdpRelay.
Open Scope Z_scope.

Module UdpTable.

(** ** BAddr_CompareOrder *)

Fixpoint memcmp (a b : bytes) : Z :=
  match a, b with
  | x :: a, y :: b => if x =? y then memcmp a b else BAVL.B_COMPARE x y
  | [], [] => 0
  | [], _ => -1
  | _, [] => 1
  end.

(** The big-endian number [ntoh32] and [ntoh16] make of the bytes. *)
Definition ntoh (l : bytes) : Z := fold_left (fun n x => 256 * n + x) l 0.

(** [int cmp = c1; if (cmp) return cmp; return c2]. *)
Definition B_COMPARE_COMBINE (c1 c2 : Z) : Z := if c1 =? 0 then c2 else c1.

Definition type_of (a : BAddr) : Z := match a with BSocks.ipv4 _ _ => 1 | BSocks.ipv6 _ _ => 2 end.

Definition BAddr_CompareOrder (a b : BAddr) : Z :=
  B_COMPARE_COMBINE (BAVL.B_COMPARE (type_of a) (type_of b))
    (B_COMPARE_COMBINE
       (match a with
        | BSocks.ipv4 _ _ => BAVL.B_COMPARE (ntoh (ip_of a)) (ntoh (ip_of b))
        | BSocks.ipv6 _ _ => memcmp (ip_of a) (ip_of b)
        end)
       (BAVL.B_COMPARE (ntoh (port_of a)) (ntoh (port_of b)))).

(** It is a total order, as the tree requires. *)
Record total {V} (c : V -> V -> Z) : Prop := {
  to_range v w : c v w = -1 \/ c v w = 0 \/ c v w = 1;
  to_opp v w : c w v = - c v w;
  to_trans u v w : c u v = -1 -> c v w = -1 -> c u w = -1;
  to_eq u v w : c u v = 0 -> c u w = c v w }.

Lemma total_integers {V} (f : V -> Z) : total (fun v w => BAVL.B_COMPARE (f v) (f w)).
Proof.
  split; intros; unfold BAVL.B_COMPARE in *.
  all: repeat match goal with H : context [?a <? ?b] |- _ => destruct (Z.ltb_spec a b) | |- context [?a <? ?b] => destruct (Z.ltb_spec a b) end; cbn in *; lia.
Qed.

Lemma total_combine {V} (c1 c2 : V -> V -> Z) : total c1 -> total c2 -> total (fun v w => B_COMPARE_COMBINE (c1 v w) (c2 v w)).
Proof.
  intros [R1 O1 T1 E1] [R2 O2 T2 E2]. unfold B_COMPARE_COMBINE. split.
  - intros v w. destruct (Z.eqb_spec (c1 v w) 0); auto.
  - intros v w. rewrite (O1 v w), (O2 v w). destruct (Z.eqb_spec (c1 v w) 0), (Z.eqb_spec (- c1 v w) 0); lia.
  - intros u v w. destruct (Z.eqb_spec (c1 u v) 0) as [Huv|Huv].
    + rewrite (E1 u v w Huv). destruct (Z.eqb_spec (c1 v w) 0); [by apply T2|done].
    + intros H1. destruct (Z.eqb_spec (c1 v w) 0) as [Hvw|Hvw].
      * intros _. assert (E : c1 u w = -1); [|by rewrite E]. assert (c1 w u = c1 v u) by (symmetry; by apply E1). rewrite (O1 u w), (O1 u v) in *. lia.
      * intros H2. by rewrite (T1 u v w H1 H2).
  - intros u v w. destruct (Z.eqb_spec (c1 u v) 0) as [Huv|Huv]; [|done]. intros H. rewrite (E1 u v w Huv). destruct (c1 v w =? 0); [by apply E2|done].
Qed.

Lemma total_memcmp : total memcmp.
Proof.
  destruct (total_integers (fun x : Z => x)) as [R O T E]. cbv beta in *. assert (N0 : forall x y, BAVL.B_COMPARE x y = 0 -> x = y).
  { intros x y. unfold BAVL.B_COMPARE. destruct (Z.ltb_spec x y), (Z.ltb_spec y x); cbn; lia. }
  split.
  - induction v as [|x v IH]; intros [|y w]; cbn; auto. destruct (x =? y); auto.
  - induction v as [|x v IH]; intros [|y w]; cbn; auto. rewrite (Z.eqb_sym y x). destruct (x =? y); auto.
  - induction u as [|x u IH]; intros [|y v] [|z w]; cbn; try done; auto. destruct (Z.eqb_spec x y) as [->|Hxy], (Z.eqb_spec y z) as [->|Hyz].
    + apply IH.
    + done.
    + destruct (Z.eqb_spec x z); [done|]. by intros.
    + intros H1 H2. pose proof (T x y z H1 H2) as H3. destruct (Z.eqb_spec x z) as [->|]; [|done]. unfold BAVL.B_COMPARE in H3. rewrite Z.ltb_irrefl in H3. done.
  - induction u as [|x u IH]; intros [|y v]; cbn; try done; auto. intros w. destruct (Z.eqb_spec x y) as [->|Hxy]; [|by intros ?%N0]. intros H.
    destruct w as [|z w]; [done|]. destruct (y =? z); [by apply IH|done].
Qed.

Lemma total_order : total BAddr_CompareOrder.
Proof.
  assert (Hin : total (fun a b => B_COMPARE_COMBINE (memcmp (if type_of a =? 1 then [ntoh (ip_of a)] else ip_of a) (if type_of b =? 1 then [ntoh (ip_of b)] else ip_of b))
                                    (BAVL.B_COMPARE (ntoh (port_of a)) (ntoh (port_of b))))).
  { apply (total_combine (fun a b => memcmp _ _)); [|apply (total_integers (fun a => ntoh (port_of a)))]. destruct total_memcmp. split; intros; eauto. }
  pose proof (total_combine _ _ (total_integers type_of) Hin) as H.
  assert (E : forall a b, BAddr_CompareOrder a b = B_COMPARE_COMBINE (BAVL.B_COMPARE (type_of a) (type_of b))
    (B_COMPARE_COMBINE (memcmp (if type_of a =? 1 then [ntoh (ip_of a)] else ip_of a) (if type_of b =? 1 then [ntoh (ip_of b)] else ip_of b)) (BAVL.B_COMPARE (ntoh (port_of a)) (ntoh (port_of b))))).
  { intros a b. unfold BAddr_CompareOrder. destruct a as [ip port|ip port], b as [ip0 port0|ip0 port0]; cbn -[ntoh]; try done. destruct (Z.eqb_spec (ntoh ip) (ntoh ip0)) as [->|]; [|done]. unfold BAVL.B_COMPARE. by rewrite !Z.ltb_irrefl. }
  destruct H as [R O T Q]. split; intros; rewrite ?E in *; eauto.
Qed.

#[export] Instance addresses : BAVL.Comparator BAddr := {|
  BAVL.compare := BAddr_CompareOrder;
  BAVL.compare_range := to_range _ total_order;
  BAVL.compare_opp := to_opp _ total_order;
  BAVL.compare_trans := to_trans _ total_order;
  BAVL.compare_eq := to_eq _ total_order |}.

(** ** All connections *)

(** [J_device] lets the device read its next packet. *)
Inductive job := J_device | J_con (c : nat) (k : kind).

#[export] Instance job_eq_dec : EqDecision job.
Proof. solve_decision. Defined.

(** [device] counts the packets that were read into the device's buffer. *)
Record relay := mk_relay {
  connections : gmap nat connection;
  connections_tree : BAVL.BAVL;
  connections_list : list nat;
  num_connections : Z;
  jobs : list job;
  device : nat;
  received : list message }.

Definition set_jobs (x : list job) (g : relay) : relay :=
  mk_relay (connections g) (connections_tree g) (connections_list g) (num_connections g) x (device g) (received g).
Definition set_list (x : list nat) (g : relay) : relay :=
  mk_relay (connections g) (connections_tree g) x (num_connections g) (jobs g) (device g) (received g).

Record config := mk_config { c_options : UdpProto.options; c_max : Z; socks_server_addr : BAddr; dnsgw : BAddr }.

(** What the allocator and the system answer when a connection is made. *)
Record memory := mk_memory { malloc_ok : bool; dgram_ok : bool; reuse_ok : bool; ring : Z -> option bytes; recv_mem : option bytes }.

Definition CONNECTION_UDP_BUFFER_SIZE : Z := 64.

(** The tree has at most 65536 nodes, and [BAVL.enough] of them is 33. *)
Definition FUEL : nat := 33.

Definition max_connections (cfg : config) : Z := Z.min (c_max cfg) 65536.
Definition mtu (cfg : config) : Z := UdpProto.udp_mtu (c_options cfg).

Definition SocksUdpGwClient_Init : relay := mk_relay ∅ (BAVL.BAVL_Init ∅) [] 0 [] 0 [].

(** [BPending_Set] and the removal of a job from the list. *)
Definition set_job (j : job) (js : list job) : list job := j :: filter (fun j' => j' <> j) js.
Definition kept (c : nat) (keep : kind -> bool) (j : job) : bool := match j with J_con c' k => negb (Nat.eqb c' c) || keep k | J_device => true end.
Definition unset_jobs (c : nat) (keep : kind -> bool) (js : list job) : list job :=
  filter (fun j => kept c keep j = true) js.

(** A handler of connection [c]. *)
Definition run_in {A} (c : nat) (m : M A) (g : relay) : option (A * relay) :=
  con ← connections g !! c;
  '(x, v) ← m (mk_view con [] []);
  Some (x, mk_relay (<[c := v_con v]> (connections g)) (connections_tree g) (connections_list g) (num_connections g)
             (foldr (fun k js => set_job (J_con c k) js) (jobs g) (v_jobs v)) (device g) (received g ++ v_out v)).

(** The tree orders the connections by their local address. *)
Definition address (cons : gmap nat connection) (c : nat) : BAddr :=
  match cons !! c with Some con => local_addr con | None => BSocks.ipv4 [] [] end.

Definition find_connection (local : BAddr) (g : relay) : option (option nat) :=
  '(r, _) ← BAVL.BAVL_LookupExact (address (connections g)) FUEL local (connections_tree g);
  Some r.

Definition connection_free (c : nat) (g : relay) : option relay :=
  _ ← connections g !! c;
  '(_, t) ← BAVL.BAVL_Remove FUEL c (connections_tree g);
  Some (mk_relay (delete c (connections g)) t (filter (fun i => i <> c) (connections_list g)) (num_connections g - 1)
          (unset_jobs c (fun k => bool_decide (k = k_first)) (jobs g)) (device g) (received g)).

Definition remove_lru_connection (local : BAddr) (g : relay) : option relay :=
  found ← find_connection local g;
  ASSERT (bool_decide (found = None));;
  ASSERT (0 <? num_connections g);;
  c ← head (connections_list g);
  connection_free c g.

Definition reset_connection (c : nat) (local remote : BAddr) (dns : bool) (g : relay) : option relay :=
  con ← connections g !! c;
  let con := set_is_dns dns (set_remote_addr remote con) in
  let con := mk_con local (remote_addr con) (first_data con) (is_dns con) (first_set con) (udp_dgram con) (send_job_set con) (recv_job_set con) (out_have con)
               (udp_send_buffer con) (udp_recv_buf con) (w_state con) (w_len con) (s_state con) (r_state con) (r_len con) (u_state con) (u_len con) (h_first con) (h_accepted con) (h_sent con) in
  Some (mk_relay (<[c := con]> (connections g)) (connections_tree g) (connections_list g) (num_connections g) (jobs g) (device g) (received g)).

(** The objects of a new connection: [Some None] when one of them cannot be made, and what was
    made before is freed again, its jobs included. *)
Definition new_connection (cfg : config) (mem : memory) (first : nat * bytes) (local remote : BAddr) (dns : bool) : option (option connection) :=
  if negb (malloc_ok mem && dgram_ok mem && reuse_ok mem) then Some None
  else
    r ← ChunkBuffer.PacketBuffer_Init (mtu cfg) CONNECTION_UDP_BUFFER_SIZE (ring mem);
    match r, recv_mem mem with
    | inr _, _ | _, None => Some None
    | inl b, Some buf =>
        Some (Some (mk_con local remote first dns true
          (mk_dgram (if dns then dnsgw cfg else socks_server_addr cfg) None false false false false false) false false None b buf
          IF_OPERATION_PENDING 0 IF_NONE IF_OPERATION_PENDING 0 IF_NONE 0 (header dns remote ++ snd first) [] []))
    end.

(** The jobs it leaves set: [first_job], the writer's and the receiving one, set in this order. *)
Definition connection_init (cfg : config) (mem : memory) (c : nat) (data : bytes) (local remote : BAddr) (dns : bool) (g : relay) : option relay :=
  r ← new_connection cfg mem (device g, data) local remote dns;
  match r with
  | None => Some g
  | Some con =>
      let cons := <[c := con]> (connections g) in
      '(x, t) ← BAVL.BAVL_Insert (address cons) FUEL c (connections_tree g);
      ASSERT (fst x);;
      Some (mk_relay cons t (connections_list g ++ [c]) (num_connections g + 1)
              (set_job (J_con c k_recv) (set_job (J_con c k_write) (set_job (J_con c k_first) (jobs g)))) (device g) (received g))
  end.

Definition SocksUdpGwClient_SubmitPacket (cfg : config) (mem : memory) (id : nat) (local remote : BAddr) (dns : bool) (data : bytes) (g : relay) : option relay :=
  ASSERT (zlen data <=? mtu cfg);;
  found ← find_connection local g;
  match found with
  | None =>
      g ← (if num_connections g =? max_connections cfg then remove_lru_connection local g else Some g);
      connection_init cfg mem id data local remote dns g
  | Some c =>
      g ← reset_connection c local remote dns g;
      '(taken, g) ← run_in c (connection_send (mtu cfg) data) g;
      if (taken : bool) then Some (set_list (filter (fun i => i <> c) (connections_list g) ++ [c]) g) else Some g
  end.

(** [device_read_handler_send]: the device may read on once the jobs set from here are done. *)
Definition device_packet (cfg : config) (mem : memory) (id : nat) (packet : bytes) (g : relay) : option relay :=
  let g := mk_relay (connections g) (connections_tree g) (connections_list g) (num_connections g) (set_job J_device (jobs g)) (S (device g)) (received g) in
  r ← UdpProto.process_device_udp_packet (c_options cfg) packet;
  match r with
  | None => Some g
  | Some (local, remote, dns, data) => SocksUdpGwClient_SubmitPacket cfg mem id local remote dns data g
  end.

(** The end: [SocksUdpGwClient_Free]. *)
Fixpoint free_connections (l : list nat) (g : relay) : option relay :=
  match l with [] => Some g | c :: l => g ← connection_free c g; free_connections l g end.
Definition SocksUdpGwClient_Free (g : relay) : option relay := free_connections (connections_list g) g.

(** ** The event loop *)

(** A packet on the device; the next job, which may get a packet from the device at once; a
    socket that is ready. *)
Inductive event :=
| ev_device (packet : bytes) (id : nat) (mem : memory)
| ev_job (x : io) (next : option (bytes * nat * memory))
| ev_socket (c : nat) (write read error : bool) (x : io).

Definition step (cfg : config) (e : event) (g : relay) : option relay :=
  match e with
  | ev_device packet id mem => device_packet cfg mem id packet g
  | ev_job x next =>
      j ← head (jobs g);
      let g := set_jobs (tail (jobs g)) g in
      match j with
      | J_device => match next with None => Some g | Some (packet, id, mem) => device_packet cfg mem id packet g end
      | J_con c k => '(_, g) ← run_in c (run_job (mtu cfg) (device g) k x) g; Some g
      end
  | ev_socket c write read error x => '(_, g) ← run_in c (fd_handler (mtu cfg) write read error x) g; Some g
  end.

(** The loop waits for events only when no job is set. Memory that is allocated is not in use. *)
Definition allowed (e : event) (g : relay) : bool :=
  match e with
  | ev_device _ id _ => bool_decide (jobs g = []) && bool_decide (connections g !! id = None)
  | ev_job _ next =>
      match jobs g, next with
      | [], _ => false
      | J_device :: _, Some (_, id, _) => bool_decide (connections g !! id = None)
      | _, None => true
      | _, Some _ => false
      end
  | ev_socket c write read error _ =>
      bool_decide (jobs g = []) && (write || read || error) &&
      match connections g !! c with
      | Some con => (negb write || wait_write (udp_dgram con)) && (negb read || wait_read (udp_dgram con))
      | None => false
      end
  end.

Inductive relay_run (cfg : config) : relay -> list event -> relay -> Prop :=
| relay_end g : relay_run cfg g [] g
| relay_more g e es g1 g' : allowed e g = true -> step cfg e g = Some g1 -> relay_run cfg g1 es g' -> relay_run cfg g (e :: es) g'.

(** ** The stack of jobs *)

(** No job twice. Under the job that sends the first packet of a connection is the device's,
    and not the one that gets the writer its room. The job that completes a written message is
    on top. *)
Fixpoint ordered (js : list job) : Prop :=
  match js with
  | [] => True
  | j :: js => j ∉ js /\ (forall c, j = J_con c k_first -> J_device ∈ js /\ J_con c k_write ∉ js) /\ (forall c, J_con c k_written ∉ js) /\ ordered js
  end.

Lemma ordered_tail j js : ordered (j :: js) -> ordered js /\ j ∉ js /\ forall c, J_con c k_written ∉ js.
Proof. by intros (? & _ & ? & ?). Qed.

Lemma set_job_new j js : j ∉ js -> set_job j js = j :: js.
Proof. intros Hj. unfold set_job. f_equal. apply BAVL.filter_all. apply Forall_forall. intros x Hx ->. by apply Hj. Qed.

(** Jobs of one connection that are set on top of others. *)
Lemma pushed c ks js :
  (forall k, k ∈ ks -> J_con c k ∉ js) -> NoDup ks -> foldr (fun k js => set_job (J_con c k) js) js ks = (J_con c <$> ks) ++ js.
Proof.
  induction ks as [|k ks IH]; intros Hn Hd; [done|]. apply NoDup_cons in Hd as [Hk Hd]. cbn. rewrite IH; [|intros; apply Hn; by right|done].
  rewrite set_job_new; [done|]. rewrite elem_of_app, list_elem_of_fmap. intros [(k' & [= <-] & ?)|Hj]; [done|]. apply (Hn k); [left|done].
Qed.

Lemma pushed_ordered c ks js :
  (forall k, k ∈ ks -> J_con c k ∉ js) -> NoDup ks -> k_first ∉ ks -> (k_written ∈ ks -> ks = [k_written]) -> ordered js -> (forall c, J_con c k_written ∉ js) ->
  ordered ((J_con c <$> ks) ++ js).
Proof.
  intros Hn Hd Hf Hw Ho Hjw. assert (Hks : forall k ks', ks = k :: ks' -> k_written ∉ ks').
  { intros k ks' -> Hin. assert (E : k :: ks' = [k_written]) by (apply Hw; by right). injection E as _ ->. by apply elem_of_nil in Hin. }
  clear Hw. induction ks as [|k ks IH]; [done|]. apply NoDup_cons in Hd as [Hk Hd]. cbn. split_and!.
  - rewrite elem_of_app, list_elem_of_fmap. intros [(k' & [= <-] & ?)|Hj]; [done|]. apply (Hn k); [left|done].
  - intros c' [= <- ->]. destruct Hf. left.
  - intros c'. rewrite elem_of_app, list_elem_of_fmap. intros [(k' & [= _ <-] & Hin)|Hj]; [by apply (Hks k ks)|by apply (Hjw c')].
  - apply IH; [intros; apply Hn; by right|done|by intros ?; apply Hf; right|]. intros k' ks' ->. intros Hin. apply (Hks k (k' :: ks')); [done|by right].
Qed.

(** ** The invariant of all connections *)

(** The tree and the list hold the connections there are. *)
Record tabled (max : Z) (cons : gmap nat connection) (T : BAVL.BAVL) (l : list nat) (n : Z) : Prop := {
  tb_tree : exists t, BAVL.tree_of (address cons) T t /\ t ≡ₚ l;
  tb_in c : c ∈ l <-> is_Some (cons !! c);
  tb_num : n = zlen l;
  tb_max : n <= max }.

(** The jobs set are those the connections have set. *)
Record scheduled (device : nat) (cons : gmap nat connection) (js : list job) : Prop := {
  sc_ordered : ordered js;
  sc_set c k : J_con c k ∈ js <-> exists con, cons !! c = Some con /\ job_set con k = true;
  sc_device c con : cons !! c = Some con -> first_set con = true -> fst (first_data con) = device }.

Record relay_ok (cfg : config) (g : relay) : Prop := {
  ro_table : tabled (max_connections cfg) (connections g) (connections_tree g) (connections_list g) (num_connections g);
  ro_jobs : scheduled (device g) (connections g) (jobs g);
  ro_cons c con : connections g !! c = Some con -> conn_ok (mtu cfg) con;
  ro_wf c con : connections g !! c = Some con -> UdpProto.addr_wf (local_addr con) }.

(** ** The table *)

(** Values that compare as equal can be exchanged. *)
Lemma tree_of_ext {V} `{BAVL.Comparator V} (val val' : nat -> V) T l :
  (forall i, i ∈ l -> BAVL.compare (val i) (val' i) = 0) -> BAVL.tree_of val T l -> BAVL.tree_of val' T l.
Proof.
  intros E [Hs Ht]. split; [|done]. clear Ht. unfold BAVL.ascending in *. induction Hs as [|i l Hs IH Hi]; constructor; [apply IH; intros; apply E; by right|].
  rewrite Forall_forall in *. intros j Hj. specialize (Hi j Hj). unfold BAVL.lt in *. rewrite <- (BAVL.compare_eq _ _ _ (E i ltac:(left))).
  rewrite BAVL.compare_opp, <- (BAVL.compare_eq _ _ (val i) (E j ltac:(by right))), <- BAVL.compare_opp. done.
Qed.

Lemma table_update max cons T l n c con con' :
  tabled max cons T l n -> cons !! c = Some con -> BAddr_CompareOrder (local_addr con) (local_addr con') = 0 -> tabled max (<[c := con']> cons) T l n.
Proof.
  intros [(t & Ht & Hp) Hin Hn Hm] Hc E. split; try done.
  - exists t. split; [|done]. eapply tree_of_ext, Ht. intros i Hi. unfold address. destruct (decide (i = c)) as [->|Hne].
    + by rewrite lookup_insert_eq, Hc.
    + rewrite lookup_insert_ne by done. apply BAVL.compare_refl.
  - intros i. rewrite Hin. destruct (decide (i = c)) as [->|Hne]; [by rewrite lookup_insert_eq, Hc|by rewrite lookup_insert_ne].
Qed.

Lemma table_fuel max cons T l n t : tabled max cons T l n -> max <= 65536 -> t ≡ₚ l -> (BAVL.enough (length t) <= FUEL)%nat.
Proof.
  intros [_ _ Hn Hm] Hmax Hp. assert (E : BAVL.enough (Z.to_nat 65536) = FUEL) by (vm_compute; reflexivity). rewrite <- E. apply BAVL.enough_mono. rewrite Hp. unfold zlen in Hn. lia.
Qed.

(** The connection of an address, which the lookup finds. *)
Lemma table_find max g local :
  tabled max (connections g) (connections_tree g) (connections_list g) (num_connections g) -> max <= 65536 ->
  exists r, find_connection local g = Some r /\
    match r with
    | Some c => exists con, connections g !! c = Some con /\ BAddr_CompareOrder local (local_addr con) = 0
    | None => forall c con, connections g !! c = Some con -> BAddr_CompareOrder local (local_addr con) <> 0
    end.
Proof.
  intros Ht Hmax. pose proof Ht as [(t & HT & Hp) Hin _ _]. pose proof (table_fuel _ _ _ _ _ t Ht Hmax Hp) as Hf. unfold find_connection.
  assert (H : BAVL.wp (BAVL.BAVL_LookupExact (address (connections g)) FUEL local) (fun r T => r = BAVL.matching (address (connections g)) local t) (connections_tree g)).
  { unfold BAVL.BAVL_LookupExact. eapply BAVL.lookups_ok; [done|done|by intros ->|]. intros x Hx _. done. }
  unfold BAVL.wp in H. destruct (BAVL.BAVL_LookupExact _ _ _ _) as [[r T]|]; [|done]. cbn [mbind option_bind]. exists r. split; [done|]. subst r.
  unfold BAVL.matching. destruct (filter _ t) as [|c fs] eqn:Ef; cbn.
  - intros c con Hc E. assert (Hc' : c ∈ filter (fun i => BAVL.compare local (address (connections g) i) = 0) t).
    { apply list_elem_of_filter. split; [by unfold address; rewrite Hc|]. rewrite Hp, Hin, Hc. by eexists. }
    rewrite Ef in Hc'. by apply elem_of_nil in Hc'.
  - assert (Hc : c ∈ filter (fun i => BAVL.compare local (address (connections g) i) = 0) t) by (rewrite Ef; left).
    apply list_elem_of_filter in Hc as [E Hc]. rewrite Hp, Hin in Hc. destruct Hc as [con Hc]. exists con. split; [done|]. unfold address in E. by rewrite Hc in E.
Qed.

Lemma table_nodup max cons T l n : tabled max cons T l n -> NoDup l.
Proof. intros [(t & [Ha _] & Hp) _ _ _]. rewrite <- Hp. by eapply BAVL.ascending_nodup. Qed.

Lemma filter_out (c : nat) l : NoDup l -> c ∈ l -> zlen (filter (fun i => i <> c) l) = zlen l - 1.
Proof.
  intros Hd Hc. apply list_elem_of_split in Hc as (l1 & l2 & ->). change (filter _ _) with (BAVL.removed c (l1 ++ c :: l2)). rewrite BAVL.removed_at by done.
  unfold zlen. rewrite !length_app. cbn. lia.
Qed.

Lemma table_remove max cons T l n c :
  tabled max cons T l n -> max <= 65536 -> c ∈ l ->
  exists T', BAVL.BAVL_Remove FUEL c T = Some (tt, T') /\ tabled max (delete c cons) T' (filter (fun i => i <> c) l) (n - 1).
Proof.
  intros Ht Hmax Hc. pose proof (table_nodup _ _ _ _ _ Ht) as Hd. pose proof Ht as [(t & HT & Hp) Hin Hn Hm]. pose proof (table_fuel _ _ _ _ _ t Ht Hmax Hp) as Hf.
  assert (H : BAVL.wp (BAVL.BAVL_Remove FUEL c) (fun x T' => BAVL.tree_of (address cons) T' (BAVL.removed c t)) T).
  { eapply BAVL.remove_ok; [done|by rewrite Hp|done|]. done. }
  unfold BAVL.wp in H. destruct (BAVL.BAVL_Remove FUEL c T) as [[[] T']|]; [|done]. exists T'. split; [done|]. split.
  - exists (BAVL.removed c t). split; [|unfold BAVL.removed; by rewrite Hp]. eapply tree_of_ext, H. intros i [Hi _]%list_elem_of_filter.
    unfold address. rewrite lookup_delete_ne by done. apply BAVL.compare_refl.
  - intros i. rewrite list_elem_of_filter, Hin. destruct (decide (i = c)) as [->|Hne]; [rewrite lookup_delete_eq; split; [by intros []|by intros [? ?]]|]. rewrite lookup_delete_ne by done. naive_solver.
  - by rewrite filter_out, Hn.
  - lia.
Qed.

Lemma inserted_perm (val : nat -> BAddr) c t : BAVL.matching val (val c) t = None -> BAVL.inserted val c t ≡ₚ c :: t.
Proof.
  intros Hm. unfold BAVL.inserted. rewrite <- Permutation_middle. constructor.
  assert (E : forall i, i ∈ t -> BAVL.compare (val c) (val i) <> 0).
  { intros i Hi E. unfold BAVL.matching in Hm. assert (Hin : i ∈ filter (fun i => BAVL.compare (val c) (val i) = 0) t) by (by apply list_elem_of_filter).
    destruct (filter _ t); [by apply elem_of_nil in Hin|done]. }
  clear Hm. induction t as [|i t IH]; [done|]. rewrite !filter_cons. specialize (IH (fun j Hj => E j ltac:(by right))). specialize (E i ltac:(left)).
  destruct (decide (BAVL.below val (val c) i)) as [B|B], (decide (BAVL.above val (val c) i)) as [A|A]; unfold BAVL.below, BAVL.above in A, B;
    pose proof (BAVL.compare_opp (val c) (val i)); destruct (BAVL.compare_range (val c) (val i)) as [R|[R|R]]; try lia.
  - cbn. by rewrite IH.
  - by rewrite <- Permutation_middle, IH.
Qed.

Lemma table_insert max cons T l n c con :
  tabled max cons T l n -> max <= 65536 -> cons !! c = None -> n < max ->
  (forall c' con', cons !! c' = Some con' -> BAddr_CompareOrder (local_addr con) (local_addr con') <> 0) ->
  exists ref T', BAVL.BAVL_Insert (address (<[c := con]> cons)) FUEL c T = Some ((true, ref), T') /\ tabled max (<[c := con]> cons) T' (l ++ [c]) (n + 1).
Proof.
  intros Ht Hmax Hc Hlt Hnew. pose proof Ht as [(t & HT & Hp) Hin Hn Hm]. pose proof (table_fuel _ _ _ _ _ t Ht Hmax Hp) as Hf. set (val := address (<[c := con]> cons)).
  assert (Hct : c ∉ t) by (rewrite Hp, Hin, Hc; by intros [? ?]).
  assert (HT' : BAVL.tree_of val T t).
  { eapply tree_of_ext, HT. intros i Hi. unfold val, address. rewrite lookup_insert_ne by (intros ->; done). apply BAVL.compare_refl. }
  assert (Hval : val c = local_addr con) by (unfold val, address; by rewrite lookup_insert_eq).
  assert (Hmt : BAVL.matching val (val c) t = None).
  { unfold BAVL.matching. destruct (filter _ t) as [|i fs] eqn:Ef; [done|]. assert (Hi : i ∈ filter (fun i => BAVL.compare (val c) (val i) = 0) t) by (rewrite Ef; left).
    apply list_elem_of_filter in Hi as [E Hi]. assert (i <> c) by (by intros ->). rewrite Hp, Hin in Hi. destruct Hi as [con' Hi]. rewrite Hval in E. unfold val, address in E.
    rewrite lookup_insert_ne, Hi in E by done. by destruct (Hnew _ _ Hi). }
  assert (H : BAVL.wp (BAVL.BAVL_Insert val FUEL c) (fun x T' => x.1 = true /\ BAVL.tree_of val T' (BAVL.inserted val c t)) T).
  { eapply BAVL.insert_ok; [done|done|done| |]; [intros ?; by rewrite Hmt|done]. }
  unfold BAVL.wp in H. destruct (BAVL.BAVL_Insert val FUEL c T) as [[[ok ref] T']|]; [|done]. destruct H as [Hok HT2]. cbn in Hok. subst ok. exists ref, T'. split; [done|]. split.
  - exists (BAVL.inserted val c t). split; [done|]. rewrite (inserted_perm _ _ _ Hmt), Hp. by rewrite <- Permutation_cons_append.
  - intros i. rewrite elem_of_app, list_elem_of_singleton, Hin. destruct (decide (i = c)) as [->|Hne]; [rewrite lookup_insert_eq|rewrite lookup_insert_ne by done]; naive_solver.
  - rewrite Hn. unfold zlen. rewrite length_app. cbn. lia.
  - lia.
Qed.

(** ** One handler *)

Definition after_run (c : nat) (v : view) (js : list job) (g : relay) : relay :=
  mk_relay (<[c := v_con v]> (connections g)) (connections_tree g) (connections_list g) (num_connections g) ((J_con c <$> v_jobs v) ++ js) (device g) (received g ++ v_out v).

Lemma set_job_facts dev cons ran c con js v mtu :
  scheduled dev cons ((J_con c <$> ran) ++ js) -> cons !! c = Some con -> left_by mtu ran con v -> forall k, k ∈ v_jobs v -> J_con c k ∉ js.
Proof.
  intros [Ho Hset _] Hc HL k Hk%mem_spec Hin. destruct (lb_new _ _ _ _ HL k Hk) as [Hf|Hr%mem_spec].
  - assert (Hin' : J_con c k ∈ (J_con c <$> ran) ++ js) by (apply elem_of_app; by right). apply Hset in Hin' as (con' & E & Ht). congruence.
  - clear -Ho Hr Hin. induction ran as [|k' ran IH]; [by apply elem_of_nil in Hr|]. cbn in Ho. destruct Ho as (Hn & _ & _ & Ho). apply elem_of_cons in Hr as [->|Hr]; [|by apply IH].
    apply Hn, elem_of_app. by right.
Qed.

Lemma ordered_suffix l js : ordered (l ++ js) -> ordered js.
Proof. induction l as [|j l IH]; [done|]. cbn. intros (_ & _ & _ & ?). by apply IH. Qed.

Lemma scheduled_run dev cons ran c con js v mtu :
  scheduled dev cons ((J_con c <$> ran) ++ js) -> (forall c', J_con c' k_written ∉ js) -> cons !! c = Some con -> left_by mtu ran con v ->
  scheduled dev (<[c := v_con v]> cons) ((J_con c <$> v_jobs v) ++ js).
Proof.
  intros HS Hw Hc HL. pose proof (set_job_facts _ _ _ _ _ _ _ _ HS Hc HL) as Hnew. destruct HS as [Ho Hset Hdev]. assert (Hjs : ordered js) by by eapply ordered_suffix.
  assert (Hran : forall k, k ∈ ran -> J_con c k ∉ js).
  { clear -Ho. induction ran as [|k' ran IH]; intros k Hk; [by apply elem_of_nil in Hk|]. cbn in Ho. destruct Ho as (Hn & _ & _ & Ho). apply elem_of_cons in Hk as [->|Hk]; [|by apply IH].
    intros Hin. apply Hn, elem_of_app. by right. }
  destruct HL as [Hok Hl Hf Hn Hnw HLset Hnf HLw]. split.
  - apply pushed_ordered; try done; [intros Hk%mem_spec; congruence|]. intros Hk%mem_spec. by apply HLw.
  - intros c' k. rewrite elem_of_app, list_elem_of_fmap. destruct (decide (c' = c)) as [->|Hne].
    + rewrite lookup_insert_eq. split.
      * intros HH. exists (v_con v). split; [done|]. rewrite HLset. destruct HH as [(k' & [= <-] & Hk%mem_spec)|Hin]; [by rewrite Hk, orb_true_r|].
        assert (Hin' : J_con c k ∈ (J_con c <$> ran) ++ js) by (apply elem_of_app; by right). apply Hset in Hin' as (con' & E & Ht). rewrite Hc in E. injection E as <-. rewrite Ht.
        destruct (mem k ran) eqn:Er; [|done]. by apply mem_spec, Hran in Er.
      * intros (con' & [= <-] & Hk). rewrite HLset in Hk. apply orb_true_iff in Hk as [Hk|Hk%mem_spec]; [|left; by exists k]. apply andb_true_iff in Hk as [Hk Hk'%negb_true_iff]. right.
        assert (Hin : J_con c k ∈ (J_con c <$> ran) ++ js) by (apply Hset; by exists con). apply elem_of_app in Hin as [(k' & [= <-] & Hr%mem_spec)%list_elem_of_fmap|]; [congruence|done].
    + rewrite lookup_insert_ne by done. rewrite <- Hset, elem_of_app, list_elem_of_fmap. split; (intros [(k' & [= <-] & _)|?]; [done|by right]).
  - intros c' con' Hc' Hfs. destruct (decide (c' = c)) as [->|Hne]; [|rewrite lookup_insert_ne in Hc' by done; by eapply Hdev].
    rewrite lookup_insert_eq in Hc'. injection Hc' as <-. rewrite Hf. apply (Hdev c); [done|]. change (job_set con k_first = true). change (job_set (v_con v) k_first = true) in Hfs.
    rewrite HLset, Hnf, orb_false_r in Hfs. by apply andb_true_iff in Hfs as [? _].
Qed.

Lemma run_in_ok {A} cfg ran (m : M A) c con g js (Q : A -> view -> Prop) :
  relay_ok cfg g -> jobs g = (J_con c <$> ran) ++ js -> (forall c', J_con c' k_written ∉ js) -> connections g !! c = Some con ->
  wp m (fun x v => left_by (mtu cfg) ran con v /\ Q x v) (mk_view con [] []) ->
  exists x v, run_in c m (set_jobs js g) = Some (x, after_run c v js g) /\ relay_ok cfg (after_run c v js g) /\ left_by (mtu cfg) ran con v /\ Q x v.
Proof.
  intros [Ht Hs Hcon Hwf] Ej Hw Hc H. unfold wp in H. destruct (m (mk_view con [] [])) as [[x v]|] eqn:Em; [|done]. destruct H as [HL HQ]. exists x, v. rewrite Ej in Hs. split_and!; try done.
  - unfold run_in, set_jobs. cbn [connections jobs connections_tree connections_list num_connections device received]. rewrite Hc. cbn [mbind option_bind]. rewrite Em. cbn [mbind option_bind]. rewrite pushed; [done|by eapply set_job_facts|apply HL].
  - split; cbn.
    + eapply table_update; [done..|]. rewrite (lb_local _ _ _ _ HL). apply (@BAVL.compare_refl _ addresses).
    + by eapply scheduled_run.
    + intros c' con' Hc'. destruct (decide (c' = c)) as [->|Hne]; [rewrite lookup_insert_eq in Hc'; injection Hc' as <-; apply HL|]. rewrite lookup_insert_ne in Hc' by done. by eapply Hcon.
    + intros c' con' Hc'. destruct (decide (c' = c)) as [->|Hne]; [rewrite lookup_insert_eq in Hc'; injection Hc' as <-|rewrite lookup_insert_ne in Hc' by done; by eapply Hwf].
      rewrite (lb_local _ _ _ _ HL). by eapply Hwf.
Qed.

(** ** What the system and the allocator answer *)

(** The packet an event brings from the device. *)
Definition reads (e : event) : option (bytes * nat * memory) :=
  match e with ev_device packet id mem => Some (packet, id, mem) | ev_job _ next => next | ev_socket _ _ _ _ _ => None end.

(** No error of a socket; messages no longer than the buffer they are received into. *)
Definition behaves (cfg : config) (x : io) : Prop := x <> io_error /\ forall data, x = io_done data -> zlen data <= mtu cfg.
Definition gives (cfg : config) (mem : memory) : Prop := ChunkBuffer.allocates (ring mem) /\ forall buf, recv_mem mem = Some buf -> zlen buf = mtu cfg.

(** A packet whose data leave room for the header in a slot of the buffer. *)
Definition has_room (cfg : config) (packet : bytes) : Prop :=
  forall local remote dns data, UdpProto.process_device_udp_packet (c_options cfg) packet = Some (Some (local, remote, dns, data)) ->
    zlen (header dns remote ++ data) <= mtu cfg.

Definition proper (cfg : config) (e : event) : Prop :=
  (forall packet id mem, reads e = Some (packet, id, mem) -> is_bytes packet /\ has_room cfg packet /\ gives cfg mem) /\
  match e with
  | ev_device _ _ _ => True
  | ev_job x _ => behaves cfg x
  | ev_socket _ _ _ error x => error = false /\ behaves cfg x
  end.

(** The next job hands no answer to the user, or one that can be handed to it. *)
Definition fitting (cfg : config) (e : event) (g : relay) : bool :=
  match e, jobs g with
  | ev_job _ _, J_con c k_deliver :: _ => match connections g !! c with Some con => fits (mtu cfg) con | None => true end
  | _, _ => true
  end.

Lemma job_ok cfg g c k js x :
  relay_ok cfg g -> jobs g = J_con c k :: js -> behaves cfg x -> fitting cfg (ev_job x None) g = true ->
  exists con, connections g !! c = Some con /\ handles (mtu cfg) [k] (run_job (mtu cfg) (device g) k x) con.
Proof.
  intros [Ht [Ho Hset Hdev] Hcon _] Ej [Hx Hd] Hfit. unfold fitting in Hfit. rewrite Ej in *. destruct (proj1 (Hset c k)) as (con & Hc & Hk); [left|]. exists con. split; [done|]. specialize (Hcon _ _ Hc).
  destruct Ho as (Hn & Hfirst & Hw & Ho). assert (Hnw : k <> k_written -> w_state con <> IF_DONE_PENDING).
  { intros Hkw E. assert (Hin : J_con c k_written ∈ J_con c k :: js) by (apply Hset; exists con; cbn; by rewrite E). apply elem_of_cons in Hin as [[= <-]|Hin]; [done|]. by apply (Hw c). }
  assert (Hin : forall a b, in_state a b = true -> a = b) by by intros [] [].
  destruct k; cbn [run_job job_set] in *.
  - apply first_job_ok; try done; [|by eapply Hdev]. destruct (Hfirst c eq_refl) as [_ Hwr]. pose proof (co_first _ _ Hcon) as Hf. rewrite Hk in Hf. destruct Hf as (_ & _ & _ & _ & [E|E] & _); [|done].
    assert (Hin' : J_con c k_write ∈ J_con c k_first :: js) by (apply Hset; exists con; cbn; by rewrite E). by apply elem_of_cons in Hin' as [?|?].
  - by apply job_write_ok; [|apply Hin].
  - by apply job_written_ok; [|apply Hin].
  - apply job_send_ok; [done|by apply Hnw|by apply Hin].
  - apply job_sent_ok; [done|by apply Hnw|by apply Hin].
  - by apply job_recv_ok; [|apply Hin].
  - by apply job_received_ok; [|apply Hin].
  - rewrite Hc in Hfit. by apply deliver_ok; [|apply Hin|].
  - by apply job_delivered_ok; [|apply Hin].
  - by apply send_job_ok; [| |apply Hnw|].
  - by apply recv_job_ok.
Qed.

(** ** A new connection *)

Lemma pb_init_total max num alloc :
  0 <= max -> 0 < num -> ChunkBuffer.allocates alloc ->
  exists r, ChunkBuffer.PacketBuffer_Init max num alloc = Some r /\ forall b, r = inl b -> is_Some (ChunkBuffer.pb_recv b) /\ ChunkBuffer.pb_send b = None.
Proof.
  intros Hmax Hnum Halloc. unfold ChunkBuffer.PacketBuffer_Init. rewrite (proj2 (Z.ltb_lt 0 num)) by done. cbn [ASSERT mbind option_bind]. cbv zeta.
  destruct (Z.ltb_spec (ChunkBuffer.ChunkBuffer2_calc_blocks max num) 0); [by eexists|]. destruct (ChunkBuffer.calc_blocks_spec max num _ eq_refl) as [Hn _]; [done..|].
  rewrite Hn in *. set (n := (1 + ChunkBuffer.bdivide_up max 4) * (num + 1)) in *. destruct (alloc n) as [m|] eqn:Ea; [|by eexists]. destruct (Halloc _ _ Ea) as [Hm Hle].
  pose proof (ChunkBuffer.bdivide_up_pos max Hmax). destruct (ChunkBuffer.ring_init_ok m n max) as (c & -> & Hc & Hsz & Hmt & _); [done|unfold n in *; nia|done|unfold n; nia|].
  cbn [mbind option_bind]. unfold ChunkBuffer.schedule_recv. cbn [ChunkBuffer.chunks]. pose proof Hc as (q1 & q2 & Eq & Hl & Hin & _). symmetry in Eq. apply app_eq_nil in Eq as [-> ->].
  destruct (ChunkBuffer.layout_shape _ _ _ Hl) as [(_ & _ & _ & _ & Hu & Hsp & Hi)|(? & _)]; [|done]. rewrite Hi in Hin. injection Hin as -> _.
  cbn. eexists. split; [done|]. intros b [= <-]. cbn. by split.
Qed.

Lemma new_connection_ok cfg mem first local remote dns :
  0 <= mtu cfg -> gives cfg mem -> UdpProto.same_family local remote = true -> zlen (header dns remote ++ snd first) <= mtu cfg ->
  exists r, new_connection cfg mem first local remote dns = Some r /\
    forall con, r = Some con -> conn_ok (mtu cfg) con /\ local_addr con = local /\ first_data con = first /\ h_first con = header dns remote ++ snd first /\
      forall k, job_set con k = UdpRelay.mem k [k_recv; k_write; k_first].
Proof.
  intros Hm [Ha Hbuf] Hfam Hl. unfold new_connection. destruct (negb _); [by eexists|]. destruct (pb_init_total (mtu cfg) CONNECTION_UDP_BUFFER_SIZE (ring mem)) as (r & E & Hr); [done..|].
  rewrite E. cbn [mbind option_bind]. destruct r as [b|]; [|by eexists]. destruct (recv_mem mem) as [buf|]; [|by eexists]. eexists. split; [done|]. intros con [= <-]. cbn [local_addr first_data h_first].
  pose proof (ChunkBuffer.pb_init_ok _ CONNECTION_UDP_BUFFER_SIZE _ _ Hm ltac:(done) Ha E) as Hb. destruct (Hr b eq_refl) as [[d Hd] Hs]. split_and!; try done; [|by intros []].
  split; cbn; try done; [exists []; split; [eexists; exact Hb|done]|by rewrite Hd|by apply Hbuf|split_and!; by auto].
Qed.

(** The device's job is on top of all first jobs' places: below it there is none. *)
Lemma ordered_no_first js c : ordered js -> J_device ∉ js -> J_con c k_first ∉ js.
Proof.
  induction js as [|j js IH]; intros Ho Hd Hin; [by apply elem_of_nil in Hin|]. destruct Ho as (_ & Hf & _ & Ho). apply elem_of_cons in Hin as [<-|Hin].
  - destruct (Hf c eq_refl) as [Hd' _]. apply Hd. by right.
  - apply IH; [done| |done]. intros ?. apply Hd. by right.
Qed.

Lemma scheduled_new dev cons c con js :
  scheduled dev cons (J_device :: js) -> cons !! c = None -> fst (first_data con) = dev -> (forall k, job_set con k = UdpRelay.mem k [k_recv; k_write; k_first]) ->
  (forall c', J_con c' k_written ∉ js) ->
  scheduled dev (<[c := con]> cons) (set_job (J_con c k_recv) (set_job (J_con c k_write) (set_job (J_con c k_first) (J_device :: js)))).
Proof.
  intros [Ho Hset Hdev] Hc Hd Hk Hw. assert (Hnew : forall k, J_con c k ∉ J_device :: js) by (intros k Hin; apply Hset in Hin as (? & ? & _); congruence).
  assert (Hw' : forall c', J_con c' k_written ∉ J_device :: js) by (intros c' [?|?]%elem_of_cons; [done|by apply (Hw c')]).
  assert (E : set_job (J_con c k_recv) (set_job (J_con c k_write) (set_job (J_con c k_first) (J_device :: js))) = J_con c k_recv :: J_con c k_write :: J_con c k_first :: J_device :: js).
  { rewrite (set_job_new (J_con c k_first)) by done. rewrite (set_job_new (J_con c k_write)); [apply set_job_new|]; rewrite ?elem_of_cons; intros HH; (destruct_or! HH; try done); by eapply Hnew; apply elem_of_cons; eauto. }
  rewrite E. split.
  - cbn [ordered]. assert (Hj : forall k k', J_con c k ∈ J_con c k' :: J_device :: js -> k = k') by (intros k k' [[= ->]|Hin]%elem_of_cons; [done|by apply Hnew in Hin]).
    split_and!; try done; try (by apply Ho); try (by intros ? [=]).
    all: try (intros c'; rewrite !elem_of_cons; intros HH; destruct_or! HH; try done; by eapply Hw).
    all: try (rewrite !elem_of_cons; intros HH; destruct_or! HH; try done; by eapply Hnew; apply elem_of_cons; right).
    intros c' [= <-]. split; [left|apply Hnew].
  - intros c' k. destruct (decide (c' = c)) as [->|Hne].
    + rewrite lookup_insert_eq. split; [|intros (? & [= <-] & HH); rewrite Hk in HH; by destruct k; cbn in HH; try done; rewrite !elem_of_cons; auto].
      intros HH. exists con. split; [done|]. rewrite Hk. apply mem_spec. rewrite !elem_of_cons in *. destruct_or! HH; first [done | injection HH as ->; by auto | by edestruct Hnew; apply elem_of_cons; right].
    + rewrite lookup_insert_ne by done. rewrite <- Hset, !elem_of_cons. naive_solver.
  - intros c' con'. destruct (decide (c' = c)) as [->|Hne]; [rewrite lookup_insert_eq; by intros [= <-]|]. rewrite lookup_insert_ne by done. apply Hdev.
Qed.

(** ** A connection that is freed *)

Lemma ordered_unset c keep js : ordered js -> ordered (unset_jobs c keep js).
Proof.
  unfold unset_jobs. induction js as [|j js IH]; [done|]. intros (Hn & Hf & Hw & Ho). rewrite filter_cons. destruct (decide (kept c keep j = true)); [|by apply IH]. cbn. split_and!.
  - by intros [_ ?]%list_elem_of_filter.
  - intros c' ->. destruct (Hf c' eq_refl) as [Hd Hwr]. split; [by apply list_elem_of_filter|by intros [_ ?]%list_elem_of_filter].
  - intros c' [_ ?]%list_elem_of_filter. by apply (Hw c').
  - by apply IH.
Qed.

Lemma scheduled_free dev cons c con js :
  scheduled dev cons js -> cons !! c = Some con -> first_set con = false -> scheduled dev (delete c cons) (unset_jobs c (fun k => bool_decide (k = k_first)) js).
Proof.
  intros [Ho Hset Hdev] Hc Hf. split.
  - by apply ordered_unset.
  - intros c' k. unfold unset_jobs. rewrite list_elem_of_filter. cbn [kept]. destruct (decide (c' = c)) as [->|Hne].
    + rewrite lookup_delete_eq, Nat.eqb_refl. cbn. split; [|by intros (? & ? & _)]. intros [Hk%bool_decide_eq_true Hin]. subst k. apply Hset in Hin as (con' & E & Hk). rewrite Hc in E. injection E as <-. cbn in Hk. congruence.
    + rewrite lookup_delete_ne by done. rewrite (proj2 (Nat.eqb_neq c' c)) by done. cbn. rewrite Hset. naive_solver.
  - intros c' con' Hc'. apply lookup_delete_Some in Hc' as [_ Hc']. by eapply Hdev.
Qed.

Lemma connection_free_ok cfg g c con :
  relay_ok cfg g -> connections g !! c = Some con -> first_set con = false ->
  exists T, connection_free c g = Some (mk_relay (delete c (connections g)) T (filter (fun i => i <> c) (connections_list g)) (num_connections g - 1)
                                       (unset_jobs c (fun k => bool_decide (k = k_first)) (jobs g)) (device g) (received g)) /\
    relay_ok cfg (mk_relay (delete c (connections g)) T (filter (fun i => i <> c) (connections_list g)) (num_connections g - 1)
                                       (unset_jobs c (fun k => bool_decide (k = k_first)) (jobs g)) (device g) (received g)).
Proof.
  intros [Ht Hs Hcon Hwf] Hc Hf. assert (Hin : c ∈ connections_list g) by (apply (tb_in _ _ _ _ _ Ht); by eexists).
  destruct (table_remove _ _ _ _ _ c Ht) as (T & E & HT); [unfold max_connections; lia|done|]. exists T. unfold connection_free. rewrite Hc. cbn [mbind option_bind]. rewrite E. split; [done|]. split; cbn.
  - done.
  - by eapply scheduled_free.
  - intros c' con' [_ Hc']%lookup_delete_Some. by eapply Hcon.
  - intros c' con' [_ Hc']%lookup_delete_Some. by eapply Hwf.
Qed.

(** ** Addresses that compare as equal *)

Lemma ntoh_snoc l x : ntoh (l ++ [x]) = 256 * ntoh l + x.
Proof. unfold ntoh. by rewrite fold_left_app. Qed.

Lemma ntoh_inj : forall a b, zlen a = zlen b -> is_bytes a -> is_bytes b -> ntoh a = ntoh b -> a = b.
Proof.
  intros a. induction a as [|x a IH] using rev_ind; intros b Hl Ha Hb E; [by destruct b; unfold zlen in Hl; cbn in Hl; [|lia]|].
  destruct b as [|y b _] using rev_ind; [unfold zlen in Hl; rewrite length_app in Hl; cbn in Hl; lia|]. rewrite !ntoh_snoc in E. apply is_bytes_app in Ha as [Ha Hx], Hb as [Hb Hy].
  apply Forall_cons in Hx as [Hx _], Hy as [Hy _]. assert (x = y) as -> by lia. f_equal. apply IH; try done; [|lia]. unfold zlen in *. rewrite !length_app in Hl. cbn in Hl. lia.
Qed.

Lemma compare_zero a b : BAVL.B_COMPARE a b = 0 <-> a = b.
Proof. unfold BAVL.B_COMPARE. destruct (Z.ltb_spec a b), (Z.ltb_spec b a); cbn; lia. Qed.

Lemma memcmp_zero : forall a b, memcmp a b = 0 -> a = b.
Proof.
  induction a as [|x a IH]; intros [|y b]; cbn; try done. destruct (Z.eqb_spec x y) as [->|Hne]; [intros E; f_equal; by apply IH|].
  intros E. by pose proof (proj1 (compare_zero _ _) E).
Qed.

Lemma combine_zero c1 c2 : B_COMPARE_COMBINE c1 c2 = 0 <-> c1 = 0 /\ c2 = 0.
Proof. unfold B_COMPARE_COMBINE. destruct (Z.eqb_spec c1 0); lia. Qed.

Lemma order_exact a b : UdpProto.addr_wf a -> UdpProto.addr_wf b -> BAddr_CompareOrder a b = 0 <-> a = b.
Proof.
  intros Ha Hb. split; [|intros ->; apply (@BAVL.compare_refl _ addresses)]. unfold BAddr_CompareOrder. rewrite !combine_zero, !compare_zero. intros (Et & Ei & Ep).
  destruct a as [ip port|ip port], b as [ip' port'|ip' port']; cbn in *; try done; destruct Ha as [[? ?] [? ?]], Hb as [[? ?] [? ?]].
  - apply compare_zero, ntoh_inj in Ei; [|congruence|done..]. apply ntoh_inj in Ep; [|congruence|done..]. by subst.
  - apply memcmp_zero in Ei. apply ntoh_inj in Ep; [|congruence|done..]. by subst.
Qed.

(** ** Least recently used *)

#[export] Instance BAddr_eq_dec : EqDecision BAddr.
Proof. unfold BAddr. solve_decision. Defined.

(** The local addresses, the least recently used first. *)
Definition used (g : relay) : list BAddr := address (connections g) <$> connections_list g.

(** What the table promises: an address that sends is moved to the end; a new one is added
    there, and when the table is full the first has to go. *)
Definition lru_submit (max : Z) (local : BAddr) (taken : bool) (l : list BAddr) : list BAddr :=
  if decide (local ∈ l) then (if taken then filter (fun a => a <> local) l ++ [local] else l)
  else (if zlen l =? max then tail l else l) ++ (if taken then [local] else []).

(** Whether a packet is taken: there is room in the buffer of its connection, or a new one can
    be made. *)
Definition takes (cfg : config) (mem : memory) (local remote : BAddr) (dns : bool) (data : bytes) (g : relay) : bool :=
  match find_connection local g with
  | Some (Some c) => match connections g !! c with Some con => in_state (w_state con) IF_BUSY | None => false end
  | _ => match new_connection cfg mem (device g, data) local remote dns with Some (Some _) => true | _ => false end
  end.

Lemma table_unique max cons T l n c c' con con' :
  tabled max cons T l n -> cons !! c = Some con -> cons !! c' = Some con' -> local_addr con = local_addr con' -> c = c'.
Proof.
  intros [(t & [Ha _] & Hp) Hin _ _] Hc Hc' E. assert (H1 : c ∈ t) by (rewrite Hp, Hin; by eexists). assert (H2 : c' ∈ t) by (rewrite Hp, Hin; by eexists).
  assert (Hlt : forall i j, address cons i = address cons j -> ~ BAVL.lt (address cons) i j) by (intros i j Eij; unfold BAVL.lt; rewrite Eij, BAVL.compare_refl; lia).
  assert (Ea : address cons c = address cons c') by (unfold address; by rewrite Hc, Hc'). clear Hp Hin Hc Hc' E.
  induction t as [|i t IH]; [by apply elem_of_nil in H1|]. apply StronglySorted_inv in Ha as [Ha Hi]. rewrite Forall_forall in Hi. apply elem_of_cons in H1 as [->|H1], H2 as [->|H2]; try done.
  - by destruct (Hlt _ _ Ea (Hi _ H2)).
  - symmetry in Ea. by destruct (Hlt _ _ Ea (Hi _ H1)).
  - by apply IH.
Qed.

Lemma fmap_filter_out (f : nat -> BAddr) c (l : list nat) :
  (forall i, i ∈ l -> f i = f c -> i = c) -> f <$> filter (fun i => i <> c) l = filter (fun a => a <> f c) (f <$> l).
Proof.
  induction l as [|i l IH]; intros Hi; [done|]. rewrite fmap_cons, !filter_cons. specialize (IH (fun j Hj => Hi j ltac:(by right))). specialize (Hi i ltac:(left)).
  destruct (decide (i <> c)) as [H1|H1], (decide (f i <> f c)) as [H2|H2]; rewrite ?fmap_cons, ?IH; try done.
  - exfalso. apply H2. intros E. by apply H1, Hi.
  - exfalso. apply H1. intros ->. by apply H2.
Qed.

Lemma address_insert cons c con i : address (<[c := con]> cons) i = if decide (i = c) then local_addr con else address cons i.
Proof. unfold address. destruct (decide (i = c)) as [->|Hne]; [by rewrite lookup_insert_eq|by rewrite lookup_insert_ne]. Qed.

Lemma used_ext cons cons' (l : list nat) : (forall i, i ∈ l -> address cons' i = address cons i) -> address cons' <$> l = address cons <$> l.
Proof. intros H. apply list_fmap_ext. intros j i Hi. apply H. by eapply list_elem_of_lookup_2. Qed.

Lemma used_member cfg g local c con :
  relay_ok cfg g -> connections g !! c = Some con -> local_addr con = local -> local ∈ used g.
Proof.
  intros H Hc <-. apply list_elem_of_fmap. exists c. split; [by unfold address; rewrite Hc|]. apply (tb_in _ _ _ _ _ (ro_table _ _ H)). by eexists.
Qed.

(** A connection moves to the end of the list. *)
Lemma moved_perm c (l : list nat) : NoDup l -> c ∈ l -> filter (fun i => i <> c) l ++ [c] ≡ₚ l.
Proof.
  intros Hd Hc. apply list_elem_of_split in Hc as (l1 & l2 & ->). change (filter _ _) with (BAVL.removed c (l1 ++ c :: l2)). rewrite BAVL.removed_at by done.
  by rewrite <- Permutation_cons_append, Permutation_middle.
Qed.

Lemma list_moved_ok cfg g c : relay_ok cfg g -> c ∈ connections_list g -> relay_ok cfg (set_list (filter (fun i => i <> c) (connections_list g) ++ [c]) g).
Proof.
  intros [Ht Hs Hcon Hwf] Hc. pose proof (moved_perm _ _ (table_nodup _ _ _ _ _ Ht) Hc) as Hperm. split; cbn in *; try done. destruct Ht as [(t & HT & Hp) Hin Hn Hm].
  split; try done; [exists t; split; [done|by rewrite Hperm]|intros i; rewrite <- Hin; by rewrite Hperm|]. rewrite Hn. unfold zlen. by rewrite Hperm.
Qed.

Lemma moved_used cfg g c local :
  relay_ok cfg g -> c ∈ connections_list g -> address (connections g) c = local ->
  address (connections g) <$> filter (fun i => i <> c) (connections_list g) ++ [c] = filter (fun a => a <> local) (used g) ++ [local].
Proof.
  intros [Ht _ _ _] Hc Ha. rewrite fmap_app, fmap_filter_out; [by cbn; rewrite Ha|]. intros i Hi E. apply (tb_in _ _ _ _ _ Ht) in Hi as [coni Hi], Hc as [con Hc].
  eapply table_unique; [exact Ht|exact Hi|exact Hc|]. unfold address in E. by rewrite Hi, Hc in E.
Qed.

(** With the device's job on top, no connection waits for its first packet to be sent or is
    about to complete a message. *)
Lemma settled cfg g js c con :
  relay_ok cfg g -> jobs g = J_device :: js -> connections g !! c = Some con -> first_set con = false /\ w_state con <> IF_DONE_PENDING.
Proof.
  intros [_ Hs _ _] Ej Hc. rewrite Ej in Hs. destruct (ordered_tail _ _ (sc_ordered _ _ _ Hs)) as (Ho & Hnd & Hw). split.
  - destruct (first_set con) eqn:Ef; [|done]. assert (Hin : J_con c k_first ∈ J_device :: js) by (apply (sc_set _ _ _ Hs); by exists con).
    apply elem_of_cons in Hin as [?|Hin]; [done|]. by apply ordered_no_first in Hin.
  - intros E. assert (Hin : J_con c k_written ∈ J_device :: js) by (apply (sc_set _ _ _ Hs); exists con; cbn; by rewrite E). apply elem_of_cons in Hin as [?|Hin]; [done|]. by apply (Hw c).
Qed.

(** The addresses of a connection change, and where they were compared they do not. *)
Definition retargeted (local remote : BAddr) (dns : bool) (con : connection) : connection :=
  mk_con local remote (first_data con) dns (first_set con) (udp_dgram con) (send_job_set con) (recv_job_set con) (out_have con)
    (udp_send_buffer con) (udp_recv_buf con) (w_state con) (w_len con) (s_state con) (r_state con) (r_len con) (u_state con) (u_len con) (h_first con) (h_accepted con) (h_sent con).

Lemma reset_ok cfg g js c con remote dns :
  relay_ok cfg g -> jobs g = J_device :: js -> connections g !! c = Some con -> UdpProto.same_family (local_addr con) remote = true ->
  let con1 := retargeted (local_addr con) remote dns con in
  let g1 := mk_relay (<[c := con1]> (connections g)) (connections_tree g) (connections_list g) (num_connections g) (jobs g) (device g) (received g) in
  reset_connection c (local_addr con) remote dns g = Some g1 /\ relay_ok cfg g1 /\ conn_ok (mtu cfg) con1.
Proof.
  intros H Ej Hc Hfam con1 g1. destruct (settled _ _ _ _ _ H Ej Hc) as [Hf _]. destruct H as [Ht Hs Hcon Hwf]. split; [unfold reset_connection; by rewrite Hc|].
  assert (Hok1 : conn_ok (mtu cfg) con1) by (unfold con1; destruct con, (Hcon _ _ Hc); cbn in *; subst; by split). assert (Hjs : forall k, job_set con1 k = job_set con k) by by intros [].
  split; [|done]. split; cbn [g1 connections connections_tree connections_list num_connections jobs device].
  - eapply table_update; [done..|]. apply (@BAVL.compare_refl _ addresses).
  - destruct Hs as [Ho Hset Hdev]. split; [done| |].
    + intros c' k. rewrite Hset. destruct (decide (c' = c)) as [->|Hne]; [|by rewrite lookup_insert_ne]. rewrite lookup_insert_eq, Hc. split; intros (? & [= <-] & Hk); eexists; (split; [done|]); congruence.
    + intros c' con'. destruct (decide (c' = c)) as [->|Hne]; [|rewrite lookup_insert_ne by done; apply Hdev]. rewrite lookup_insert_eq. intros [= <-] Hk. by apply (Hdev c con).
  - intros c' con'. destruct (decide (c' = c)) as [->|Hne]; [rewrite lookup_insert_eq; by intros [= <-]|rewrite lookup_insert_ne by done; apply Hcon].
  - intros c' con'. destruct (decide (c' = c)) as [->|Hne]; [rewrite lookup_insert_eq; intros [= <-]; by apply (Hwf c con)|rewrite lookup_insert_ne by done; apply Hwf].
Qed.

(** What becomes of a packet: the state after it, whether it was taken, and by which
    connection. *)
Record submitted (cfg : config) (local : BAddr) (msg : bytes) (taken : bool) (g g' : relay) : Prop := {
  sb_ok : relay_ok cfg g';
  sb_used : used g' = lru_submit (max_connections cfg) local taken (used g);
  sb_taken : taken = true -> exists c con, last (connections_list g') = Some c /\ connections g' !! c = Some con /\ local_addr con = local /\
               (first_set con = true /\ h_first con = msg \/ last (h_accepted con) = Some msg);
  sb_others c con : connections g' !! c = Some con -> local_addr con <> local -> connections g !! c = Some con;
  sb_received : received g' = received g }.

(** A connection there is gets the packet. *)
Lemma found_ok cfg mem id local remote dns data g js c con :
  relay_ok cfg g -> jobs g = J_device :: js -> UdpProto.same_family local remote = true -> zlen (header dns remote ++ data) <= mtu cfg ->
  find_connection local g = Some (Some c) -> connections g !! c = Some con -> local_addr con = local ->
  exists g', SocksUdpGwClient_SubmitPacket cfg mem id local remote dns data g = Some g' /\
    submitted cfg local (header dns remote ++ data) (in_state (w_state con) IF_BUSY) g g'.
Proof.
  intros H Ej Hfam Hl Hfind Hc Hloc. pose proof (zlen_nonneg (header dns remote)). unfold SocksUdpGwClient_SubmitPacket.
  assert (Hd : zlen data <= mtu cfg) by (unfold zlen in *; rewrite length_app in Hl; lia). rewrite (proj2 (Z.leb_le _ _) Hd), Hfind. cbn [ASSERT mbind option_bind].
  destruct (settled _ _ _ _ _ H Ej Hc) as [Hf Hnw]. destruct (reset_ok cfg g js c con remote dns H Ej Hc ltac:(by rewrite Hloc)) as (Er & H1 & Hok1). cbv zeta in Er, H1, Hok1. rewrite Hloc in *.
  rewrite Er. cbn [mbind option_bind]. clear Er. set (con1 := retargeted local remote dns con) in *. set (g1 := mk_relay (<[c := con1]> _) _ _ _ _ _ _) in *.
  destruct (run_in_ok cfg [] (connection_send (mtu cfg) data) c con1 g1 (jobs g1) (fun taken v => v_out v = [] /\ taken = bool_decide (w_state con1 = IF_BUSY) /\
    h_accepted (v_con v) = h_accepted con1 ++ (if taken then [header (is_dns con1) (remote_addr con1) ++ data] else []))) as (x & v & Er & Hg & HL & Eo & -> & Eh); [done|done| |cbn; apply lookup_insert_eq|by apply send_to_ok|].
  { intros c' Hin. cbn in Hin. rewrite Ej in Hin. destruct H as [_ Hs _ _]. rewrite Ej in Hs. destruct (ordered_tail _ _ (sc_ordered _ _ _ Hs)) as (_ & _ & Hw). apply elem_of_cons in Hin as [?|Hin]; [done|]. by apply (Hw c'). }
  change (set_jobs (jobs g1) g1) with g1 in Er. rewrite Er. cbn [mbind option_bind]. clear Er. set (g2 := after_run c v (jobs g1) g1) in *.
  assert (Eb : bool_decide (w_state con1 = IF_BUSY) = in_state (w_state con) IF_BUSY) by (unfold con1; cbn; by destruct (w_state con)). rewrite Eb in *.
  assert (Ecs : connections g2 = <[c := v_con v]> (connections g)) by (cbn; apply insert_insert_eq). assert (Hlv : local_addr (v_con v) = local) by (by rewrite (lb_local _ _ _ _ HL)).
  assert (Hcl : c ∈ connections_list g2) by (apply (tb_in _ _ _ _ _ (ro_table _ _ H)); by eexists).
  assert (Hus : used g2 = used g).
  { unfold used. rewrite Ecs. apply used_ext. intros i _. rewrite address_insert. destruct (decide (i = c)) as [->|]; [|done]. unfold address. by rewrite Hc, Hlv. }
  assert (Hoth : forall c' con', connections g2 !! c' = Some con' -> local_addr con' <> local -> connections g !! c' = Some con').
  { intros c' con'. rewrite Ecs. destruct (decide (c' = c)) as [->|Hne]; [rewrite lookup_insert_eq; by intros [= <-]|by rewrite lookup_insert_ne]. }
  pose proof (used_member _ _ _ _ _ H Hc Hloc) as Hmem. assert (Hrec : received g2 = received g) by (cbn; by rewrite Eo, app_nil_r).
  destruct (in_state (w_state con) IF_BUSY); eexists; (split; [done|]).
  - split; [by apply list_moved_ok| | |done|done].
    + unfold lru_submit. rewrite decide_True, <- Hus by done. apply (moved_used cfg g2); try done. unfold address. by rewrite Ecs, lookup_insert_eq.
    + intros _. exists c, (v_con v). split_and!; [apply last_snoc|cbn; apply lookup_insert_eq|done|]. right. rewrite Eh. apply last_snoc.
  - split; try done. unfold lru_submit. by rewrite decide_True.
Qed.

(** Room for a new connection: at the limit, the first of the list goes. *)
Lemma room_made cfg g js local :
  1 <= c_max cfg -> relay_ok cfg g -> jobs g = J_device :: js -> find_connection local g = Some None ->
  exists g1 js1, (if num_connections g =? max_connections cfg then remove_lru_connection local g else Some g) = Some g1 /\ relay_ok cfg g1 /\ jobs g1 = J_device :: js1 /\
    num_connections g1 < max_connections cfg /\ used g1 = (if zlen (used g) =? max_connections cfg then tail (used g) else used g) /\
    (forall c con, connections g1 !! c = Some con -> connections g !! c = Some con) /\ device g1 = device g /\ received g1 = received g.
Proof.
  intros Hmax H Ej Hfind. pose proof (ro_table _ _ H) as Ht. pose proof (tb_num _ _ _ _ _ Ht) as Hn. pose proof (tb_max _ _ _ _ _ Ht) as Hm.
  assert (El : zlen (used g) = num_connections g) by (rewrite Hn; unfold used, zlen; by rewrite length_fmap). rewrite El.
  destruct (Z.eqb_spec (num_connections g) (max_connections cfg)) as [E|E]; [|exists g, js; split_and!; try done; lia].
  assert (1 <= max_connections cfg) by (unfold max_connections; lia). unfold remove_lru_connection. rewrite Hfind. cbn [mbind option_bind]. rewrite bool_decide_eq_true_2 by done. cbn [ASSERT mbind option_bind].
  rewrite (proj2 (Z.ltb_lt _ _)) by lia. cbn [ASSERT mbind option_bind]. destruct (connections_list g) as [|c l] eqn:Ecl; [unfold zlen in Hn; cbn in Hn; lia|]. cbn [head mbind option_bind].
  destruct (proj1 (tb_in _ _ _ _ _ Ht c)) as [con Hc]; [left|]. destruct (connection_free_ok cfg g c con H Hc) as (T & -> & H'); [by eapply settled|]. rewrite Ecl in *.
  pose proof (table_nodup _ _ _ _ _ Ht) as Hd. apply NoDup_cons in Hd as [Hcl Hd].
  assert (Hfl : filter (fun i => i <> c) (c :: l) = l) by (by apply filter_first).
  rewrite Hfl in *. eexists _, _. split; [done|]. split; [done|]. split; [cbn; rewrite Ej; unfold unset_jobs; rewrite filter_cons, decide_True by done; done|]. cbn. split_and!; try done; [lia| |].
  - unfold used. cbn. rewrite Ecl. cbn. apply used_ext. intros i Hi. unfold address. rewrite lookup_delete_ne; [done|]. by intros ->.
  - intros c' con' [_ ?]%lookup_delete_Some. done.
Qed.

(** A new connection keeps the packet until its first job sends it. *)
Lemma init_ok cfg mem id local remote dns data g js :
  0 <= mtu cfg -> relay_ok cfg g -> jobs g = J_device :: js -> gives cfg mem -> UdpProto.addr_wf local -> UdpProto.same_family local remote = true -> zlen (header dns remote ++ data) <= mtu cfg ->
  connections g !! id = None -> num_connections g < max_connections cfg -> (forall c con, connections g !! c = Some con -> BAddr_CompareOrder local (local_addr con) <> 0) ->
  let taken := match new_connection cfg mem (device g, data) local remote dns with Some (Some _) => true | _ => false end in
  exists g', connection_init cfg mem id data local remote dns g = Some g' /\ relay_ok cfg g' /\ used g' = used g ++ (if taken then [local] else []) /\
    (taken = true -> exists con, last (connections_list g') = Some id /\ connections g' !! id = Some con /\ local_addr con = local /\ first_set con = true /\ h_first con = header dns remote ++ data) /\
    (forall c con, connections g' !! c = Some con -> local_addr con <> local -> connections g !! c = Some con) /\ received g' = received g.
Proof.
  intros Hmtu H Ej Hg Hwf Hfam Hl Hid Hlt Hnew. destruct (new_connection_ok cfg mem (device g, data) local remote dns) as (r & E & Hr); [done..|]. unfold connection_init. rewrite E. cbn [mbind option_bind].
  destruct r as [con|]; [|exists g; by rewrite app_nil_r]. destruct (Hr con eq_refl) as (Hcon & Hloc & Hfd & Hhf & Hk). pose proof H as [Ht Hs Hcons Hwfs].
  destruct (table_insert _ _ _ _ _ id con Ht) as (ref & T & -> & HT); [unfold max_connections; lia|done|done|by rewrite Hloc|]. cbn [mbind option_bind fst ASSERT]. eexists. split; [done|].
  rewrite Ej in Hs. destruct (ordered_tail _ _ (sc_ordered _ _ _ Hs)) as (_ & _ & Hw). split_and!; cbn.
  - split; cbn.
    + done.
    + rewrite Ej. apply scheduled_new; try done. by rewrite Hfd.
    + intros c con'. destruct (decide (c = id)) as [->|Hne]; [rewrite lookup_insert_eq; by intros [= <-]|rewrite lookup_insert_ne by done; apply Hcons].
    + intros c con'. destruct (decide (c = id)) as [->|Hne]; [rewrite lookup_insert_eq; intros [= <-]; by rewrite Hloc|rewrite lookup_insert_ne by done; apply Hwfs].
  - unfold used. cbn. rewrite fmap_app. cbn. rewrite address_insert, decide_True, Hloc by done. f_equal. apply used_ext. intros i Hi. rewrite address_insert. destruct (decide (i = id)) as [->|]; [|done].
    apply (tb_in _ _ _ _ _ Ht) in Hi. rewrite Hid in Hi. by destruct Hi.
  - intros _. exists con. split_and!; try done; [apply last_snoc|apply lookup_insert_eq|]. apply (Hk k_first).
  - intros c con'. destruct (decide (c = id)) as [->|Hne]; [rewrite lookup_insert_eq; by intros [= <-]|by rewrite lookup_insert_ne].
  - done.
Qed.

Lemma packet_submit_ok cfg mem id local remote dns data g js :
  0 <= mtu cfg -> 1 <= c_max cfg -> relay_ok cfg g -> jobs g = J_device :: js -> gives cfg mem -> UdpProto.addr_wf local -> UdpProto.same_family local remote = true -> zlen (header dns remote ++ data) <= mtu cfg -> connections g !! id = None ->
  exists g', SocksUdpGwClient_SubmitPacket cfg mem id local remote dns data g = Some g' /\
    submitted cfg local (header dns remote ++ data) (takes cfg mem local remote dns data g) g g'.
Proof.
  intros Hmtu Hmax H Ej Hg Hwf Hfam Hl Hid. destruct (table_find (max_connections cfg) g local (ro_table _ _ H)) as (r & Hfind & Hr); [unfold max_connections; lia|]. unfold takes. rewrite Hfind.
  destruct r as [c|]; [destruct Hr as (con & Hc & E); rewrite Hc; eapply found_ok; try done; symmetry; by eapply order_exact; [|by eapply ro_wf|]|].
  unfold SocksUdpGwClient_SubmitPacket. pose proof (zlen_nonneg (header dns remote)). assert (Hd : zlen data <= mtu cfg) by (unfold zlen in *; rewrite length_app in Hl; lia).
  rewrite (proj2 (Z.leb_le _ _) Hd), Hfind. cbn [ASSERT mbind option_bind]. destruct (room_made cfg g js local Hmax H Ej Hfind) as (g1 & js1 & -> & H1 & Ej1 & Hlt & Hus & Hsub & Hdev & Hrec).
  cbn [mbind option_bind]. assert (Hid1 : connections g1 !! id = None) by (destruct (connections g1 !! id) eqn:E; [apply Hsub in E; congruence|done]).
  destruct (init_ok cfg mem id local remote dns data g1 js1) as (g' & E & H' & Hus' & Htk & Hoth & Hrec'); try done; [intros c con Hc; eapply Hr; by apply Hsub|]. cbv zeta in *. rewrite Hdev in *.
  exists g'. split; [done|]. assert (Hnot : local ∉ used g).
  { intros (c & Ea & Hc)%list_elem_of_fmap. apply (tb_in _ _ _ _ _ (ro_table _ _ H)) in Hc as [con Hc]. unfold address in Ea. rewrite Hc in Ea. subst local. apply (Hr c con Hc). apply (@BAVL.compare_refl _ addresses). }
  split; [done| | | |congruence].
  - unfold lru_submit. by rewrite decide_False, Hus', Hus.
  - intros Et. destruct (Htk Et) as (con & ? & ? & ? & ? & ?). exists id, con. split_and!; try done. by left.
  - intros c con Hc Hne. by eapply Hsub, Hoth.
Qed.

(** ** Every event *)

(** With a packet of the device, no answer is handed to the user. *)
Lemma reads_fitting cfg e g p : allowed e g = true -> reads e = Some p -> fitting cfg e g = true.
Proof.
  destruct e as [packet id mem|x next|c write read error x]; [done| |done]. cbn. intros Ha ->. by destruct (jobs g) as [|[|c k] js].
Qed.

(** The device reads a packet when no job is set, or by its job. *)
Lemma device_ready cfg g js :
  relay_ok cfg g -> jobs g = J_device :: js \/ jobs g = [] /\ js = [] ->
  set_job J_device js = J_device :: js /\
  relay_ok cfg (mk_relay (connections g) (connections_tree g) (connections_list g) (num_connections g) (J_device :: js) (S (device g)) (received g)).
Proof.
  intros [Ht [Ho Hset Hdev] Hcon Hwf] Hjs. assert (Hready : ordered (J_device :: js) /\ forall c k, J_con c k ∈ J_device :: js <-> J_con c k ∈ jobs g).
  { destruct Hjs as [E|[E ->]]; rewrite E in *; [done|]. split; [|intros; rewrite elem_of_cons; naive_solver]. cbn. split_and!; try done; [apply not_elem_of_nil|intros; apply not_elem_of_nil]. }
  destruct Hready as [Ho' Heq]. destruct (ordered_tail _ _ Ho') as (Ho1 & Hnd & Hw). split; [by apply set_job_new|]. split; try done. cbn. split; [done|intros; by rewrite Heq|].
  intros c con Hc Hf. exfalso. assert (Hin : J_con c k_first ∈ J_device :: js) by (apply Heq, Hset; by exists con). apply elem_of_cons in Hin as [?|Hin]; [done|]. by apply ordered_no_first in Hin.
Qed.

Definition with_device (js : list job) (g : relay) : relay :=
  mk_relay (connections g) (connections_tree g) (connections_list g) (num_connections g) (J_device :: js) (S (device g)) (received g).

Lemma takes_device cfg mem local remote dns data js g : takes cfg mem local remote dns data (with_device js g) = takes cfg mem local remote dns data g.
Proof.
  unfold takes. change (find_connection local (with_device js g)) with (find_connection local g). destruct (find_connection local g) as [[c|]|]; [done|..].
  all: unfold new_connection; destruct (negb _); [done|]; destruct (ChunkBuffer.PacketBuffer_Init _ _ _) as [[?|?]|]; [|done..]; cbn; by destruct (recv_mem mem).
Qed.

(** What a packet from the device does. *)
Definition packet_done (cfg : config) (mem : memory) (packet : bytes) (g g' : relay) : Prop :=
  match UdpProto.process_device_udp_packet (c_options cfg) packet with
  | Some (Some (local, remote, dns, data)) => submitted cfg local (header dns remote ++ data) (takes cfg mem local remote dns data g) g g'
  | _ => relay_ok cfg g' /\ used g' = used g /\ received g' = received g
  end.

Lemma device_packet_ok cfg mem id packet g js :
  0 <= mtu cfg -> 1 <= c_max cfg -> relay_ok cfg g -> jobs g = J_device :: js \/ jobs g = [] /\ js = [] ->
  is_bytes packet -> has_room cfg packet -> gives cfg mem -> connections g !! id = None ->
  exists g', device_packet cfg mem id packet (set_jobs js g) = Some g' /\ packet_done cfg mem packet g g'.
Proof.
  intros Hmtu Hmax H Hjs Hb Hroom Hg Hid. destruct (device_ready cfg g js H Hjs) as [Es H1]. unfold device_packet, set_jobs. cbn [connections connections_tree connections_list num_connections jobs device received].
  rewrite Es. change (mk_relay _ _ _ _ _ _ _) with (with_device js g). destruct (UdpProto.process_safe (c_options cfg) packet Hb) as (r & E & Hr). unfold packet_done. rewrite E. cbn [mbind option_bind].
  destruct r as [[[[local remote] dns] data]|]; [|by eexists]. destruct (Hr _ eq_refl) as [(Hwf & _ & Hfam & _) _].
  destruct (packet_submit_ok cfg mem id local remote dns data (with_device js g) js) as (g' & E' & HS); try done; [by eapply Hroom|]. exists g'. split; [done|]. rewrite takes_device in HS. by destruct HS.
Qed.

Lemma packet_done_ok cfg mem packet g g' : packet_done cfg mem packet g g' -> relay_ok cfg g'.
Proof. unfold packet_done. destruct (UdpProto.process_device_udp_packet _ _) as [[[[[? ?] ?] ?]|]|]; by intros []. Qed.

Lemma relay_step_ok cfg e g :
  0 <= mtu cfg -> 1 <= c_max cfg -> relay_ok cfg g -> allowed e g = true -> proper cfg e -> fitting cfg e g = true ->
  exists g', step cfg e g = Some g' /\ relay_ok cfg g' /\ forall packet id mem, reads e = Some (packet, id, mem) -> packet_done cfg mem packet g g'.
Proof.
  intros Hmtu Hmax H Ha [Hread Hio] Hfit. destruct e as [packet id mem|x next|c write read error x]; cbn [allowed step reads] in *.
  - apply andb_true_iff in Ha as [Hj%bool_decide_eq_true Hid%bool_decide_eq_true]. destruct (Hread _ _ _ eq_refl) as (Hb & Hroom & Hg).
    destruct (device_packet_ok cfg mem id packet g []) as (g' & E & Hd); try done; [by right|]. exists g'. assert (Eg : set_jobs [] g = g) by (destruct g; cbn in *; by subst). rewrite Eg in E.
    split_and!; [done|by eapply packet_done_ok|]. by intros ? ? ? [= <- <- <-].
  - destruct (jobs g) as [|j js] eqn:Ej; [done|]. cbn [head tail mbind option_bind]. destruct j as [|c k].
    + destruct next as [[[packet id] mem]|].
      * apply bool_decide_eq_true in Ha. destruct (Hread _ _ _ eq_refl) as (Hb & Hroom & Hg). destruct (device_packet_ok cfg mem id packet g js) as (g' & E & Hd); try done; [by left|].
        exists g'. split_and!; [done|by eapply packet_done_ok|]. by intros ? ? ? [= <- <- <-].
      * eexists. split; [done|]. split; [|done]. destruct H as [Ht [Ho Hset Hdev] Hcon Hwf]. rewrite Ej in *. split; try done. cbn. split; [by apply (ordered_tail J_device)| |done]. intros c k. rewrite <- Hset, elem_of_cons. naive_solver.
    + destruct next as [?|]; [done|]. destruct (job_ok cfg g c k js x H Ej Hio Hfit) as (con & Hc & Hh). destruct (run_in_ok cfg [k] (run_job (mtu cfg) (device g) k x) c con g js (fun _ _ => True)) as (u & v & E & Hok & _); try done.
      { destruct H as [_ [Ho _ _] _ _]. rewrite Ej in Ho. by apply (ordered_tail (J_con c k)). }
      { eapply relay_mono; [exact Hh|]. done. }
      cbn [device set_jobs]. rewrite E. by eexists.
  - destruct Hio as [-> Hio]. apply andb_true_iff in Ha as [Ha Hc]. apply andb_true_iff in Ha as [Hj%bool_decide_eq_true Hor]. destruct (connections g !! c) as [con|] eqn:Ec; [|done].
    apply andb_true_iff in Hc as [Hw Hr]. rewrite orb_false_r in Hor. destruct Hio as [Hx Hd].
    assert (Hidle : forall k, job_set con k = false).
    { intros k. destruct (job_set con k) eqn:Ek; [|done]. destruct H as [_ [_ Hset _] _ _]. rewrite Hj in Hset. assert (Hin : J_con c k ∈ []) by (apply Hset; by exists con). by apply elem_of_nil in Hin. }
    destruct (run_in_ok cfg [] (fd_handler (mtu cfg) write read false x) c con g [] (fun _ _ => True)) as (u & v & E & Hok & _); try done; [intros; apply not_elem_of_nil| |].
    { eapply relay_mono; [apply fd_handler_ok; try done; [by eapply ro_cons|apply (Hidle k_send_job)|apply (Hidle k_recv_job)|intros E; pose proof (Hidle k_written) as Hk; cbn in Hk; by rewrite E in Hk|by intros ->|by intros ->]|done]. }
    assert (Eg : set_jobs [] g = g) by (destruct g; cbn in *; by subst). rewrite Eg in E. rewrite E. by eexists.
Qed.

(** An answer that does not fit fails an assertion. *)
Lemma unfitting_fails cfg e g : fitting cfg e g = false -> step cfg e g = None.
Proof.
  destruct e as [packet id mem|x next|c write read error x]; [done| |done]. cbn [fitting step]. destruct (jobs g) as [|[|c k] js]; [done|done|]. destruct k; try done.
  destruct (connections g !! c) as [con|] eqn:Ec; [|done]. intros Hfit. cbn [head mbind option_bind]. unfold run_in. cbn [tail set_jobs connections]. rewrite Ec. cbn [mbind option_bind run_job].
  by rewrite deliver_fails.
Qed.

Lemma fitting_step cfg e g g' : step cfg e g = Some g' -> fitting cfg e g = true.
Proof. intros E. destruct (fitting cfg e g) eqn:Ef; [done|]. apply unfitting_fails in Ef. congruence. Qed.

Lemma relay_init_ok cfg : 1 <= c_max cfg -> relay_ok cfg SocksUdpGwClient_Init.
Proof.
  intros Hmax. split; cbn; try done.
  - split; cbn; try done; [|intros c; rewrite lookup_empty; split; [by intros ?%elem_of_nil|by intros [? ?]]|unfold max_connections; lia].
    exists []. split; [|done]. split; [constructor|]. by exists BAVL.Leaf.
  - split; [done| |done]. intros c k. split; [by intros ?%elem_of_nil|]. intros (con & E & _). by rewrite lookup_empty in E.
Qed.

Lemma relay_run_ok cfg g es g' : 0 <= mtu cfg -> 1 <= c_max cfg -> relay_run cfg g es g' -> Forall (proper cfg) es -> relay_ok cfg g -> relay_ok cfg g'.
Proof.
  intros Hmtu Hmax. induction 1 as [|g e es g1 g' Ha E _ IH]; [done|]. intros [He Hes]%Forall_cons H. apply IH; [done|]. destruct (relay_step_ok cfg e g) as (g2 & E2 & H2 & _); try done; [by eapply fitting_step|]. congruence.
Qed.

Definition run_all (cfg : config) : list event -> relay -> option relay :=
  fix go es g := match es with
  | [] => Some g
  | e :: es => if allowed e g then match step cfg e g with Some g1 => go es g1 | None => None end else None
  end.

Lemma run_all_run cfg es : forall g g', run_all cfg es g = Some g' -> relay_run cfg g es g'.
Proof.
  induction es as [|e es IH]; intros g g'; cbn; [intros [= <-]; constructor|]. destruct (allowed e g) eqn:Ea; [|done]. destruct (step cfg e g) as [g1|] eqn:E; [|done].
  intros H. econstructor; [done..|]. by apply IH.
Qed.

(** ** Freeing all *)

Lemma free_all_ok cfg l : forall g, relay_ok cfg g -> connections_list g = l -> (forall c, J_con c k_first ∉ jobs g) ->
  exists g', free_connections l g = Some g' /\ relay_ok cfg g' /\ connections g' = ∅.
Proof.
  induction l as [|c l IH]; intros g H El Hf.
  - exists g. split_and!; [done|done|]. apply map_empty. intros i. destruct (connections g !! i) eqn:E; [|done]. assert (Hin : i ∈ connections_list g) by (apply (tb_in _ _ _ _ _ (ro_table _ _ H)); by eexists).
    rewrite El in Hin. by apply elem_of_nil in Hin.
  - destruct (proj1 (tb_in _ _ _ _ _ (ro_table _ _ H) c)) as [con Hc]; [rewrite El; left|]. assert (Hfs : first_set con = false).
    { destruct (first_set con) eqn:E; [|done]. destruct (Hf c). apply (sc_set _ _ _ (ro_jobs _ _ H)). by exists con. }
    destruct (connection_free_ok cfg g c con H Hc Hfs) as (T & E & H'). cbn [free_connections]. rewrite E. cbn [mbind option_bind]. apply IH; [done| |].
    + cbn. rewrite El. pose proof (table_nodup _ _ _ _ _ (ro_table _ _ H)) as Hd. rewrite El in Hd. apply NoDup_cons in Hd as [Hcl _].
      rewrite filter_cons, decide_False by (by intros HH). apply BAVL.filter_all, Forall_forall. by intros i Hi ->.
    + intros c' Hin. cbn in Hin. unfold unset_jobs in Hin. apply list_elem_of_filter in Hin as [_ Hin]. by apply (Hf c').
Qed.

(** ** Answers *)

Lemma address_parts (n : nat) (ip port d : bytes) :
  zlen ip = Z.of_nat n -> zlen port = 2 ->
  take n ((ip ++ port) ++ d) = ip /\ take 2 (drop n ((ip ++ port) ++ d)) = port /\ drop (n + 2) ((ip ++ port) ++ d) = d /\ Z.of_nat n + 2 <= zlen ((ip ++ port) ++ d).
Proof.
  unfold zlen. intros Hi Hp. assert (Hn : length ip = n) by lia. assert (H2 : length port = 2%nat) by lia. rewrite <- app_assoc. split_and!.
  - by rewrite take_app_length'.
  - rewrite drop_app_length' by done. by rewrite take_app_length'.
  - rewrite app_assoc. apply drop_app_length'. rewrite length_app. lia.
  - rewrite !length_app. lia.
Qed.

Lemma read_header_back r d : UdpProto.addr_wf r -> read_header (header false r ++ d) = Some (r, d).
Proof.
  assert (H4 : forall a b c e (l : bytes), (zlen (a :: b :: c :: e :: l) <? 4) = false) by (intros; apply Z.ltb_ge; unfold zlen; cbn; lia).
  destruct r as [ip port|ip port]; intros [[Hi _] [Hp _]]; unfold read_header; cbn [app negb header socks_udp_header ip_of port_of].
  - destruct (address_parts 4 ip port d Hi Hp) as (E1 & E2 & E3 & Hl). cbn [Nat.add] in E3. rewrite H4. change (BSocks.SOCKS_ATYP_IPV4 =? BSocks.SOCKS_ATYP_IPV6) with false. cbn [negb Z.eqb]. rewrite (proj2 (Z.ltb_ge _ _)) by lia. by rewrite E1, E2, E3.
  - destruct (address_parts 16 ip port d Hi Hp) as (E1 & E2 & E3 & Hl). cbn [Nat.add] in E3. rewrite H4. change (BSocks.SOCKS_ATYP_IPV6 =? BSocks.SOCKS_ATYP_IPV6) with true. cbn [negb Z.eqb]. rewrite (proj2 (Z.ltb_ge _ _)) by lia. by rewrite E1, E2, E3.
Qed.

Lemma relay_and {A} (m : M A) (P Q : A -> view -> Prop) v : wp m P v -> wp m Q v -> wp m (fun x v => P x v /\ Q x v) v.
Proof. unfold wp. by destruct (m v) as [[x v']|]. Qed.

(** The three handlers an answer goes through, when they run one after the other. *)
Lemma answer_read mtu con data :
  conn_ok mtu con -> wait_read (udp_dgram con) = true -> zlen data <= mtu ->
  wp (fd_handler mtu false true false (io_done data)) (fun _ v => v_jobs v = [k_received] /\ v_out v = [] /\ store 0 data (udp_recv_buf con) = Some (udp_recv_buf (v_con v)) /\
    r_len (v_con v) = zlen data /\ is_dns (v_con v) = is_dns con) (mk_view con [] []).
Proof.
  intros H Hwait Hlen. assert (Hst : r_state con = IF_BUSY /\ recv_started (udp_dgram con) = true).
  { pose proof (co_recv_job _ _ H) as Hj. destruct (r_state con), (recv_started (udp_dgram con)); cbn in Hj; try done; destruct Hj; congruence. }
  destruct Hst as [Hst1 Hst2]. pose proof (zlen_nonneg data). opened con H. destruct (store_some 0 data rbuf) as (m & Em & _); [lia..|]. subst rrs rs wr er. cbn in Hrb. subst rb.
  unfold fd_handler, do_recv. go. apply relay_assert; [by apply Z.leb_le|]. go. eapply relay_lift; [done|]. go. done.
Qed.

Lemma answer_passed mtu con :
  conn_ok mtu con -> r_state con = IF_DONE_PENDING ->
  wp (job_received mtu) (fun _ v => v_jobs v = [k_deliver] /\ v_out v = [] /\ udp_recv_buf (v_con v) = udp_recv_buf con /\ u_len (v_con v) = r_len con /\ is_dns (v_con v) = is_dns con) (mk_view con [] []).
Proof.
  intros H Hr. assert (Hu : u_state con = IF_NONE).
  { destruct (co_recv _ _ H) as [_ Hu]. destruct (u_state con); [done|..]; by rewrite Hu in Hr. }
  pose proof (co_rlen _ _ H Hr) as Hl. clear H. destruct con. cbn in *. subst. unfold job_received. go. ranged. go. done.
Qed.

Lemma answer_given mtu con r d :
  conn_ok mtu con -> u_state con = IF_OPERATION_PENDING -> is_dns con = false -> load 0 (u_len con) (udp_recv_buf con) = Some (header false r ++ d) -> UdpProto.addr_wf r ->
  UdpProto.same_family (local_addr con) r = true ->
  wp (dgram_handler_received mtu) (fun _ v => v_out v = [(local_addr con, r, d)]) (mk_view con [] []).
Proof.
  intros H Hu Hdns Hload Hr Hfam. pose proof (co_ulen _ _ H Hu) as Hl. pose proof (load_inv _ _ _ _ Hload) as (_ & _ & _ & El). pose proof (zlen_nonneg (header false r)).
  assert (Hd : zlen d <= mtu) by (unfold zlen in *; rewrite length_app in El; lia). pose proof (read_header_back r d Hr) as Hrd. set (msg := header false r ++ d) in *. clearbody msg.
  clear H. destruct con. cbn in *. subst. unfold dgram_handler_received, udpgw_mtu. go. eapply relay_lift; [done|].
  go. ranged. go. rewrite Hrd. go. unfold submit_to_user. rewrite (proj2 (Z.ltb_ge _ _) Hd). go. done.
Qed.

Lemma read_stored data m m' : store 0 data m = Some m' -> load 0 (zlen data) m' = Some data.
Proof. intros H%store_holds. exact H. Qed.

(** One event of a connection that is allowed when its job is on top or no job is set. *)
Lemma job_event_ok cfg g c k x con (Q : view -> Prop) :
  relay_ok cfg g -> jobs g = [J_con c k] -> connections g !! c = Some con -> behaves cfg x -> fitting cfg (ev_job x None) g = true -> wp (run_job (mtu cfg) (device g) k x) (fun _ => Q) (mk_view con [] []) ->
  exists v, allowed (ev_job x None) g = true /\ step cfg (ev_job x None) g = Some (after_run c v [] g) /\ relay_ok cfg (after_run c v [] g) /\ left_by (mtu cfg) [k] con v /\ Q v.
Proof.
  intros H Ej Hc Hx Hfit HQ. destruct (job_ok cfg g c k [] x H Ej Hx Hfit) as (con' & Hc' & Hh). rewrite Hc in Hc'. injection Hc' as <-.
  destruct (run_in_ok cfg [k] (run_job (mtu cfg) (device g) k x) c con g [] (fun _ => Q)) as (u & v & E & Hok & HL & Hv); [done|by rewrite Ej|intros; apply not_elem_of_nil|done|by apply relay_and|].
  exists v. split_and!; try done; [cbn; by rewrite Ej|]. cbn [step]. rewrite Ej. cbn [head tail mbind option_bind]. change (device (set_jobs [] g)) with (device g). by rewrite E.
Qed.

Lemma answer_ok cfg g c con r d :
  relay_ok cfg g -> jobs g = [] -> connections g !! c = Some con -> is_dns con = false -> wait_read (udp_dgram con) = true -> UdpProto.addr_wf r -> UdpProto.same_family (local_addr con) r = true ->
  zlen (header false r ++ d) <= mtu cfg ->
  exists g', run_all cfg [ev_socket c false true false (io_done (header false r ++ d)); ev_job io_wait None; ev_job io_wait None] g = Some g' /\ relay_ok cfg g' /\
    received g' = received g ++ [(local_addr con, r, d)].
Proof.
  intros H Ej Hc Hdns Hw Hr Hfam Hl. set (msg := header false r ++ d) in *. assert (Hidle : forall k, job_set con k = false).
  { intros k. destruct (job_set con k) eqn:Ek; [|done]. pose proof (sc_set _ _ _ (ro_jobs _ _ H) c k) as Hset. rewrite Ej in Hset. assert (Hin : J_con c k ∈ []) by (apply Hset; by exists con). by apply elem_of_nil in Hin. }
  assert (Hcon : conn_ok (mtu cfg) con) by by eapply ro_cons. assert (Hx : behaves cfg io_wait) by by split.
  destruct (run_in_ok cfg [] (fd_handler (mtu cfg) false true false (io_done msg)) c con g [] (fun _ v => v_jobs v = [k_received] /\ v_out v = [] /\ store 0 msg (udp_recv_buf con) = Some (udp_recv_buf (v_con v)) /\
    r_len (v_con v) = zlen msg /\ is_dns (v_con v) = is_dns con)) as (u & v1 & E1 & H1 & HL1 & Ek1 & Eo1 & Em1 & Er1 & Ed1); [done|done|intros; apply not_elem_of_nil|done| |].
  { apply relay_and; [|by apply answer_read]. apply fd_handler_ok; try done; [apply (Hidle k_send_job)|apply (Hidle k_recv_job)|intros E; pose proof (Hidle k_written) as Hk; cbn in Hk; by rewrite E in Hk|by intros ? [= <-]]. }
  assert (Eg : set_jobs [] g = g) by (destruct g; cbn in *; by subst). rewrite Eg in E1. set (g1 := after_run c v1 [] g) in *.
  assert (Ej1 : jobs g1 = [J_con c k_received]) by (cbn; by rewrite Ek1). assert (Hc1 : connections g1 !! c = Some (v_con v1)) by apply lookup_insert_eq.
  assert (Hr1 : r_state (v_con v1) = IF_DONE_PENDING) by (pose proof (lb_set _ _ _ _ HL1 k_received) as Hk; rewrite Ek1 in Hk; cbn in Hk; rewrite orb_true_r in Hk; by destruct (r_state (v_con v1))).
  destruct (job_event_ok cfg g1 c k_received io_wait (v_con v1) _ H1 Ej1 Hc1 Hx ltac:(unfold fitting; by rewrite Ej1) (answer_passed _ _ (lb_ok _ _ _ _ HL1) Hr1)) as (v2 & A2 & E2 & H2 & HL2 & Ek2 & Eo2 & Em2 & Eu2 & Ed2).
  set (g2 := after_run c v2 [] g1) in *. assert (Ej2 : jobs g2 = [J_con c k_deliver]) by (cbn; by rewrite Ek2). assert (Hc2 : connections g2 !! c = Some (v_con v2)) by apply lookup_insert_eq.
  assert (Hu2 : u_state (v_con v2) = IF_OPERATION_PENDING) by (pose proof (lb_set _ _ _ _ HL2 k_deliver) as Hk; rewrite Ek2 in Hk; cbn in Hk; rewrite orb_true_r in Hk; by destruct (u_state (v_con v2))).
  assert (Hload : load 0 (u_len (v_con v2)) (udp_recv_buf (v_con v2)) = Some msg) by (rewrite Eu2, Er1, Em2; by eapply read_stored).
  assert (Hfam2 : UdpProto.same_family (local_addr (v_con v2)) r = true) by by rewrite (lb_local _ _ _ _ HL2), (lb_local _ _ _ _ HL1).
  assert (Hfit : fitting cfg (ev_job io_wait None) g2 = true).
  { unfold fitting. rewrite Ej2, Hc2. unfold fits, msg in *. by rewrite Hload, read_header_back, Hfam2, !orb_true_r. }
  destruct (job_event_ok cfg g2 c k_deliver io_wait (v_con v2) _ H2 Ej2 Hc2 Hx Hfit (answer_given _ _ r d (lb_ok _ _ _ _ HL2) Hu2 ltac:(congruence) Hload Hr Hfam2)) as (v3 & A3 & E3 & H3 & HL3 & Eo3).
  exists (after_run c v3 [] g2). split_and!; [|done|].
  - assert (A1 : allowed (ev_socket c false true false (io_done msg)) g = true) by (cbn [allowed]; rewrite Ej, Hc, Hw, bool_decide_eq_true_2; done).
    assert (S1 : step cfg (ev_socket c false true false (io_done msg)) g = Some g1) by (cbn [step]; by rewrite E1). unfold run_all. by rewrite A1, S1, A2, E2, A3, E3.
  - cbn. rewrite Eo1, Eo2, Eo3, !app_nil_r. by rewrite (lb_local _ _ _ _ HL2), (lb_local _ _ _ _ HL1).
Qed.

(** A connection with nothing to do has sent everything. *)
Lemma idle_sent cfg g c con : relay_ok cfg g -> jobs g = [] -> connections g !! c = Some con -> wait_write (udp_dgram con) = false -> h_sent con = h_accepted con.
Proof.
  intros H Ej Hc Hw. assert (Hidle : forall k, job_set con k = false).
  { intros k. destruct (job_set con k) eqn:Ek; [|done]. pose proof (sc_set _ _ _ (ro_jobs _ _ H) c k) as Hset. rewrite Ej in Hset. assert (Hin : J_con c k ∈ []) by (apply Hset; by exists con). by apply elem_of_nil in Hin. }
  pose proof (ro_cons _ _ H _ _ Hc) as Hcon. pose proof (Hidle k_send) as H1. pose proof (Hidle k_sent) as H2. pose proof (Hidle k_send_job) as H3. pose proof (Hidle k_written) as H4. cbn in *.
  assert (Hs : s_state con = IF_NONE) by (pose proof (co_send_job _ _ Hcon) as Hj; destruct (s_state con); try done; cbn in Hj; rewrite Hw, H3 in Hj; done).
  destruct (co_queue _ _ Hcon) as (q & (n & Hq) & Eh). rewrite H4 in Hq. rewrite Hs in Eh. cbn in Eh. apply (co_send _ _ Hcon) in Hs. apply (pb_send_iff _ _ _ _ Hq) in Hs as ->. by rewrite app_nil_r in Eh.
Qed.

(** ** Theorems *)

(** No job is set, and the connection does not wait for its socket to take a message. *)
Definition idle (g : relay) (con : connection) : Prop := jobs g = [] /\ wait_write (udp_dgram con) = false.

Section runs.
Context (cfg : config) (es : list event) (g : relay).
Hypothesis Hmtu : 0 <= mtu cfg.
Hypothesis Hmax : 1 <= c_max cfg.
Hypothesis Hrun : relay_run cfg SocksUdpGwClient_Init es g.
Hypothesis Hproper : Forall (proper cfg) es.

Lemma reached : relay_ok cfg g.
Proof. eapply relay_run_ok; [exact Hmtu|exact Hmax|exact Hrun|exact Hproper|by apply relay_init_ok]. Qed.

(** C8: While no socket reports an error and the packets of applications leave room for the
    header in a slot of the ring, in whatever order jobs and sockets get ready, an event is
    handled exactly when it does not hand the user an answer of the other family
    ([fitting]): every other event fails no assertion, uses no freed connection, reads the
    packet that opens a connection while it is still in the device's buffer, and writes
    nothing outside the slots of a ring. There are never more connections than configured,
    and all of them can be freed at any time at which no first packet is still to be sent:
    when no job is set, and when the device is to read next. *)
Theorem udp_relay_safe :
  (forall e, allowed e g = true -> proper cfg e -> is_Some (step cfg e g) <-> fitting cfg e g = true) /\
  num_connections g = zlen (connections_list g) /\ num_connections g <= c_max cfg /\
  (jobs g = [] \/ head (jobs g) = Some J_device -> forall c, J_con c k_first ∉ jobs g) /\
  ((forall c, J_con c k_first ∉ jobs g) -> exists g', SocksUdpGwClient_Free g = Some g' /\ connections g' = ∅).
Proof.
  pose proof reached as H. pose proof (ro_table _ _ H) as Ht. split_and!.
  - intros e Ha He. split; [intros [g' E]; by eapply fitting_step|]. intros Hfit. destruct (relay_step_ok cfg e g) as (g' & -> & _); try done.
  - apply (tb_num _ _ _ _ _ Ht).
  - pose proof (tb_max _ _ _ _ _ Ht). unfold max_connections in *. lia.
  - pose proof (sc_ordered _ _ _ (ro_jobs _ _ H)) as Ho. destruct (jobs g) as [|j js]; [intros; apply not_elem_of_nil|]. intros [?|[= ->]] c; [done|]. destruct (ordered_tail _ _ Ho) as (Ho' & Hn & _).
    rewrite elem_of_cons. intros [?|Hin]; [done|]. by eapply ordered_no_first.
  - intros Hf. destruct (free_all_ok cfg (connections_list g) g) as (g' & E & _ & ?); try done. by exists g'.
Qed.

(** C20: While no socket reports an error and packets leave room for the header, a
    connection sends the messages it took in their order, the packet that opened it first;
    and when no job is set and it does not wait for its socket, it has sent all of them. *)
Theorem udp_relay_in_order c con :
  connections g !! c = Some con ->
  (exists q, h_accepted con = h_sent con ++ q) /\
  (if first_set con then h_accepted con = [] else head (h_accepted con) = Some (h_first con)) /\
  (idle g con -> h_sent con = h_accepted con).
Proof.
  intros Hc. pose proof reached as H. pose proof (ro_cons _ _ H _ _ Hc) as Hcon. split_and!.
  - destruct (co_queue _ _ Hcon) as (q & _ & ->). by eexists.
  - pose proof (co_first _ _ Hcon) as Hf. destruct (first_set con); [apply Hf|]. by destruct Hf as [t ->].
  - intros [Hj Hw]. by eapply idle_sent.
Qed.

(** C15: While no socket reports an error, the table of connections is a cache of local
    addresses that forgets the least recently used one: a packet from the device with room
    for its header moves its address to the end or adds it there when it is taken, and
    leaves the order as it was when it is not (a full buffer, a failed allocation); a new
    address at the limit drops the first. After a packet that was taken the connection at
    the end has its message, and the connections of other addresses are as they were. *)
Theorem udp_table_is_lru e packet id mem local remote dns data :
  allowed e g = true -> proper cfg e -> reads e = Some (packet, id, mem) ->
  UdpProto.process_device_udp_packet (c_options cfg) packet = Some (Some (local, remote, dns, data)) ->
  exists g', step cfg e g = Some g' /\
    let taken := takes cfg mem local remote dns data g in
    used g' = lru_submit (max_connections cfg) local taken (used g) /\
    (taken = true -> exists c con, last (connections_list g') = Some c /\ connections g' !! c = Some con /\ local_addr con = local /\
       (first_set con = true /\ h_first con = header dns remote ++ data \/ last (h_accepted con) = Some (header dns remote ++ data))) /\
    (forall c con, connections g' !! c = Some con -> local_addr con <> local -> connections g !! c = Some con).
Proof.
  intros Ha He Hr Hp. destruct (relay_step_ok cfg e g) as (g' & E & _ & Hd); try done; [by apply reached|by eapply reads_fitting|]. exists g'. split; [done|]. specialize (Hd _ _ _ Hr). unfold packet_done in Hd. rewrite Hp in Hd. by destruct Hd.
Qed.

(** An answer in the format of the SOCKS server, received on the socket of a connection, reaches the
    user within the next two jobs: with the local address of the connection, the sender's address
    and the same data. *)
Theorem udp_answer_delivered c con r d :
  jobs g = [] -> connections g !! c = Some con -> is_dns con = false -> wait_read (udp_dgram con) = true -> UdpProto.addr_wf r -> UdpProto.same_family (local_addr con) r = true ->
  zlen (header false r ++ d) <= mtu cfg ->
  exists g', relay_run cfg g [ev_socket c false true false (io_done (header false r ++ d)); ev_job io_wait None; ev_job io_wait None] g' /\
    received g' = received g ++ [(local_addr con, r, d)].
Proof.
  intros. destruct (answer_ok cfg g c con r d) as (g' & E & _ & ?); try done; [by apply reached|]. exists g'. split; [by apply run_all_run|done].
Qed.

End runs.

(** ** A run with small packets *)

Definition some_cfg : config :=
  mk_config (UdpProto.mk_options true true true 60 32) 2 (BSocks.ipv4 [127; 0; 0; 1] [4; 56]) (BSocks.ipv4 [1; 1; 1; 1] [0; 53]).
Definition some_memory : memory := mk_memory true true true ChunkBuffer.some_alloc (Some (replicate 32 0)).
Definition packet_of (src dst : BAddr) (data : bytes) : bytes :=
  match UdpProto.udpgw_client_handler_received (c_options some_cfg) (replicate 60 0) dst src data with Some (Some p) => p | _ => [] end.

Definition application (n : Z) : BAddr := BSocks.ipv4 [10; 0; 0; 1] [200; n].
Definition peer : BAddr := BSocks.ipv4 [8; 8; 4; 4] [1; 187].
Definition job_event (x : io) : event := ev_job x None.

(** An application's first packet, which the socket takes at once; the jobs are those of the
    new connection, in the order in which they run, and the device's. *)
Definition opening (src : BAddr) (id : nat) (dst : BAddr) (data : bytes) : list event :=
  ev_device (packet_of src dst data) id some_memory :: replicate 7 (job_event (io_done [])) ++ job_event io_wait :: replicate 2 (job_event (io_done [])).
(** Its second one. *)
Definition sending (src : BAddr) (dst : BAddr) (data : bytes) : list event :=
  ev_device (packet_of src dst data) 100 some_memory :: replicate 6 (job_event (io_done [])).
(** An answer. *)
Definition answering (id : nat) (data : bytes) : list event :=
  ev_socket id false true false (io_done data) :: replicate 4 (job_event (io_done [])) ++ [job_event io_wait].

Lemma some_gives : gives some_cfg some_memory.
Proof. split; [apply ChunkBuffer.some_alloc_ok|]. by intros buf [= <-]. Qed.

Lemma device_proper packet id :
  is_bytes packet ->
  match UdpProto.process_device_udp_packet (c_options some_cfg) packet with Some (Some (_, remote, dns, data)) => zlen (header dns remote ++ data) <=? mtu some_cfg | _ => true end = true ->
  proper some_cfg (ev_device packet id some_memory).
Proof.
  intros Hb Hl. split; [|done]. intros ? ? ? [= <- <- <-]. split_and!; [done| |apply some_gives]. intros local remote dns data E. rewrite E in Hl. by apply Z.leb_le.
Qed.

Lemma job_proper x : behaves some_cfg x -> proper some_cfg (job_event x).
Proof. by split. Qed.

Lemma behaves_done data : zlen data <= mtu some_cfg -> behaves some_cfg (io_done data).
Proof. intros H. split; [done|]. by intros ? [= <-]. Qed.

(** Two applications, of which the first sends again, an answer to it, and then a third one: the
    table has room for two. *)
Definition some_events : list event :=
  opening (application 1) 5 peer [1; 2; 3] ++ opening (application 2) 6 peer [4] ++ sending (application 1) peer [5; 6] ++ answering 5 (header false peer ++ [7; 8]).
Definition some_relay : relay := match run_all some_cfg some_events SocksUdpGwClient_Init with Some g => g | None => SocksUdpGwClient_Init end.
Definition third : event := ev_device (packet_of (application 3) peer [9]) 7 some_memory.

Lemma some_run : relay_run some_cfg SocksUdpGwClient_Init some_events some_relay.
Proof. apply run_all_run. vm_compute. reflexivity. Qed.

Lemma some_proper : Forall (proper some_cfg) some_events.
Proof.
  unfold some_events, opening, sending, answering. cbn [Datatypes.app replicate].
  repeat (apply Forall_cons; split; [first [apply device_proper; [apply (bool_decide_unpack _); vm_compute; exact I|vm_compute; reflexivity] | apply job_proper; first [by apply behaves_done | by split] | split; [done|split; [done|by apply behaves_done]]]|]).
  by apply Forall_nil.
Qed.

Lemma third_proper : proper some_cfg third.
Proof. apply device_proper; [apply (bool_decide_unpack _); vm_compute; exact I|vm_compute; reflexivity]. Qed.

Lemma some_mtu : 0 <= mtu some_cfg.
Proof. done. Qed.
Lemma some_max : 1 <= c_max some_cfg.
Proof. done. Qed.

Lemma udp_relay_safe_witness : is_Some (step some_cfg third some_relay) /\ exists g', SocksUdpGwClient_Free some_relay = Some g' /\ connections g' = ∅.
Proof.
  destruct (udp_relay_safe some_cfg some_events some_relay some_mtu some_max some_run some_proper) as (H & _ & _ & Hj & Hf). split.
  - apply H; [vm_compute; reflexivity|apply third_proper|reflexivity].
  - apply Hf, Hj. left. vm_compute. reflexivity.
Defined.

Definition con_of (c : nat) (g : relay) : connection :=
  match connections g !! c with Some con => con | None => mk_con peer peer (0%nat, []) false false (mk_dgram peer None false false false false false) false false None ChunkBuffer.some_buffer [] IF_NONE 0 IF_NONE IF_NONE 0 IF_NONE 0 [] [] [] end.

Lemma udp_relay_in_order_witness : h_sent (con_of 5 some_relay) = h_accepted (con_of 5 some_relay) /\ zlen (h_accepted (con_of 5 some_relay)) = 2.
Proof.
  destruct (udp_relay_in_order some_cfg some_events some_relay some_mtu some_max some_run some_proper 5 (con_of 5 some_relay)) as (_ & _ & H); [vm_compute; reflexivity|].
  split; [apply H; split; vm_compute; reflexivity|vm_compute; reflexivity].
Defined.

(** The third application takes the place of the second. *)
Lemma udp_table_is_lru_witness : used some_relay = [application 2; application 1] /\ exists g', step some_cfg third some_relay = Some g' /\ used g' = [application 1; application 3].
Proof.
  split; [vm_compute; reflexivity|].
  destruct (udp_table_is_lru some_cfg some_events some_relay some_mtu some_max some_run some_proper third (packet_of (application 3) peer [9]) 7%nat some_memory (application 3) peer false [9]) as (g' & E & Hu & _);
    [vm_compute; reflexivity|apply third_proper|reflexivity|vm_compute; reflexivity|]. exists g'. split; [exact E|]. rewrite Hu. vm_compute. reflexivity.
Defined.

Lemma peer_wf : UdpProto.addr_wf peer.
Proof. split; (split; [done|by apply (bool_decide_unpack _)]). Qed.

Lemma udp_answer_delivered_witness : exists es g', relay_run some_cfg some_relay es g' /\ received g' = [(application 1, peer, [7; 8]); (application 2, peer, [1; 2; 3; 4])].
Proof.
  destruct (udp_answer_delivered some_cfg some_events some_relay some_mtu some_max some_run some_proper 6 (con_of 6 some_relay) peer [1; 2; 3; 4]) as (g' & E & Hr);
    [vm_compute; reflexivity..|exact peer_wf|vm_compute; reflexivity|by apply (bool_decide_unpack _)|]. eexists _, g'. split; [exact E|]. rewrite Hr. vm_compute. reflexivity.
Defined.

(** ** Where the code does not do what it means to *)

(** A packet of the largest size that is accepted leaves no room for the header in its slot. *)
Theorem full_packet_does_not_fit :
  exists g, relay_run some_cfg SocksUdpGwClient_Init (take 3 (opening (application 1) 5 peer (replicate 32 0))) g /\
    UdpProto.process_device_udp_packet (c_options some_cfg) (packet_of (application 1) peer (replicate 32 0)) = Some (Some (application 1, peer, false, replicate 32 0)) /\
    allowed (job_event io_wait) g = true /\ step some_cfg (job_event io_wait) g = None.
Proof. eexists. split; [apply run_all_run; vm_compute; reflexivity|]. split_and!; vm_compute; reflexivity. Qed.

(** An answer from an address of the other family, which the SOCKS server may send, fails the
    assertion of [udpgw_client_handler_received] that the two addresses are of one family. *)
Definition other_family : bytes := header false (BSocks.ipv6 (replicate 16 1) [1; 187]) ++ [7].
Theorem other_family_fails_assertion :
  exists g, relay_run some_cfg SocksUdpGwClient_Init (opening (application 1) 5 peer [1] ++ [ev_socket 5 false true false (io_done other_family); job_event io_wait]) g /\
    allowed (job_event io_wait) g = true /\ proper some_cfg (job_event io_wait) /\ step some_cfg (job_event io_wait) g = None.
Proof. eexists. split; [apply run_all_run; vm_compute; reflexivity|]. split_and!; [vm_compute; reflexivity|by split|vm_compute; reflexivity]. Qed.

(** A connection that was made for a DNS query is used for other packets of the same address; they
    go to the DNS gateway with the header for the SOCKS server. *)
Definition some_query : bytes := [0; 1; 1; 0; 0; 1; 0; 0; 0; 0; 0; 0; 0].
Theorem dns_connection_reused :
  exists g con, relay_run some_cfg SocksUdpGwClient_Init (opening (application 1) 5 (BSocks.ipv4 [8; 8; 8; 8] [0; 53]) some_query ++ sending (application 1) peer [9]) g /\
    connections g !! 5%nat = Some con /\ h_sent con = [some_query; header false peer ++ [9]] /\ send_addr (udp_dgram con) = dnsgw some_cfg /\ dnsgw some_cfg <> socks_server_addr some_cfg.
Proof. eexists _, _. split; [apply run_all_run; vm_compute; reflexivity|]. split_and!; [vm_compute; reflexivity..|done]. Qed.

(** After an error of its socket, which is only logged, a connection keeps what it has to send for
    ever: it neither has a job nor waits. *)
Theorem socket_error_stops_connection :
  exists g con, relay_run some_cfg SocksUdpGwClient_Init (take 6 (opening (application 1) 5 peer [1]) ++ job_event io_error :: replicate 2 (job_event io_wait)) g /\
    jobs g = [] /\ connections g !! 5%nat = Some con /\ wait_write (udp_dgram con) = false /\ h_sent con = [] /\ h_accepted con = [header false peer ++ [1]].
Proof. eexists _, _. split; [apply run_all_run; vm_compute; reflexivity|]. split_and!; vm_compute; reflexivity. Qed.

End UdpTable.
