(* ===== verification/RedUdp.v ===== *)
(** * UDP through a SOCKS5 proxy: redudp.c

    An instance listens for the UDP packets of clients. The first packet of a client opens a
    TCP connection to the proxy, on which a UDP association is asked for; until the proxy
    answers packets are queued, then each is sent to the address the proxy gave, behind a
    header with its destination, and what comes back from there goes to the client. With
    TPROXY an answer leaves from a socket that is bound to the destination the client wrote
    to; such sockets are shared and counted ([bound_udp4]).

    [None] is a failed assertion, a use of a client or an instance that was freed, an access
    outside a packet, or a [close] of a descriptor that is not open. The results of fallible
    calls come from [answers]; they succeed when none is prescribed. What [redsocks_close]
    does for the accepting of TCP connections is in [Redsocks]. *)

From S2P Require Import Prelude World Redsocks Socks5.
Open Scope Z_scope.

Module RedUdp.

(** ** Data *)

Record redudp_config := mk_uconfig {
  u_bindaddr : sockaddr_in;
  u_relayaddr : sockaddr_in;
  u_destaddr : sockaddr_in;
  u_login : option bytes;
  u_password : option bytes;
  max_pktqueue : Z;
  udp_timeout : Z;
  udp_timeout_stream : Z }.

#[export] Instance sockaddr_eq_dec : EqDecision sockaddr_in.
Proof. solve_decision. Defined.

Inductive reader := rd_auth_methods | rd_auth_reply | rd_assoc_reply.

#[export] Instance reader_eq_dec : EqDecision reader.
Proof. solve_decision. Defined.

(** The connection to the proxy: its descriptor, what reads from it (nothing until it is
    connected), the watermark, which is low and high at once, what was read and written. *)
Record bufferevent := mk_bev {
  b_fd : Z;
  readcb : option reader;
  b_wm : Z;
  b_input : bytes;
  b_output : bytes }.

(** [udprelay]: the descriptor of the event once it is set. *)
Record redudp_client := mk_uclient {
  c_inst : nat;
  clientaddr : sockaddr_in;
  destaddr : sockaddr_in;
  sender_fd : option Z;
  timeout : bool;
  c_relay : option bufferevent;
  udprelay : option Z;
  udprelayaddr : sockaddr_in;
  queue_len : Z;
  queue : list bytes;
  h_taken : list bytes;                   (* the packets taken from the client so far *)
  h_tried : list bytes }.                 (* those that were handed to [sendmsg] *)

Record redudp_instance := mk_uinst { i_config : redudp_config; i_listener : option Z; i_clients : list nat }.

(** A datagram that was sent: from which descriptor, where to, and what. *)
Definition datagram : Type := Z * sockaddr_in * bytes.

Definition key : Type := bytes * bytes.

Record state := mk_state {
  clients : gmap nat redudp_client;
  instances : gmap nat redudp_instance;
  inst_list : list nat;
  bound_udp4 : gmap key (Z * Z);          (* [ref] and [fd] *)
  fds : gset Z;
  next_client : nat;
  answers : list bool;
  adds : list bool;                       (* the results of [event_add] *)
  sent : list datagram }.

Definition set_sender_fd (x : option Z) (c : redudp_client) : redudp_client :=
  mk_uclient (c_inst c) (clientaddr c) (destaddr c) x (timeout c) (c_relay c) (udprelay c) (udprelayaddr c) (queue_len c) (queue c) (h_taken c) (h_tried c).
Definition set_timeout (x : bool) (c : redudp_client) : redudp_client :=
  mk_uclient (c_inst c) (clientaddr c) (destaddr c) (sender_fd c) x (c_relay c) (udprelay c) (udprelayaddr c) (queue_len c) (queue c) (h_taken c) (h_tried c).
Definition set_relay (x : option bufferevent) (c : redudp_client) : redudp_client :=
  mk_uclient (c_inst c) (clientaddr c) (destaddr c) (sender_fd c) (timeout c) x (udprelay c) (udprelayaddr c) (queue_len c) (queue c) (h_taken c) (h_tried c).
Definition set_udprelay (x : option Z) (c : redudp_client) : redudp_client :=
  mk_uclient (c_inst c) (clientaddr c) (destaddr c) (sender_fd c) (timeout c) (c_relay c) x (udprelayaddr c) (queue_len c) (queue c) (h_taken c) (h_tried c).
Definition set_udprelayaddr (x : sockaddr_in) (c : redudp_client) : redudp_client :=
  mk_uclient (c_inst c) (clientaddr c) (destaddr c) (sender_fd c) (timeout c) (c_relay c) (udprelay c) x (queue_len c) (queue c) (h_taken c) (h_tried c).
Definition set_queue (n : Z) (x : list bytes) (c : redudp_client) : redudp_client :=
  mk_uclient (c_inst c) (clientaddr c) (destaddr c) (sender_fd c) (timeout c) (c_relay c) (udprelay c) (udprelayaddr c) n x (h_taken c) (h_tried c).
Definition add_taken (x : bytes) (c : redudp_client) : redudp_client :=
  mk_uclient (c_inst c) (clientaddr c) (destaddr c) (sender_fd c) (timeout c) (c_relay c) (udprelay c) (udprelayaddr c) (queue_len c) (queue c) (h_taken c ++ [x]) (h_tried c).
Definition add_tried (x : bytes) (c : redudp_client) : redudp_client :=
  mk_uclient (c_inst c) (clientaddr c) (destaddr c) (sender_fd c) (timeout c) (c_relay c) (udprelay c) (udprelayaddr c) (queue_len c) (queue c) (h_taken c) (h_tried c ++ [x]).

Definition set_clients (x : gmap nat redudp_client) (s : state) : state :=
  mk_state x (instances s) (inst_list s) (bound_udp4 s) (fds s) (next_client s) (answers s) (adds s) (sent s).
Definition set_instances (x : gmap nat redudp_instance) (s : state) : state :=
  mk_state (clients s) x (inst_list s) (bound_udp4 s) (fds s) (next_client s) (answers s) (adds s) (sent s).
Definition set_inst_list (x : list nat) (s : state) : state :=
  mk_state (clients s) (instances s) x (bound_udp4 s) (fds s) (next_client s) (answers s) (adds s) (sent s).
Definition set_bound (x : gmap key (Z * Z)) (s : state) : state :=
  mk_state (clients s) (instances s) (inst_list s) x (fds s) (next_client s) (answers s) (adds s) (sent s).
Definition set_fds (x : gset Z) (s : state) : state :=
  mk_state (clients s) (instances s) (inst_list s) (bound_udp4 s) x (next_client s) (answers s) (adds s) (sent s).
Definition set_next (x : nat) (s : state) : state :=
  mk_state (clients s) (instances s) (inst_list s) (bound_udp4 s) (fds s) x (answers s) (adds s) (sent s).
Definition set_answers (x : list bool) (s : state) : state :=
  mk_state (clients s) (instances s) (inst_list s) (bound_udp4 s) (fds s) (next_client s) x (adds s) (sent s).
Definition set_sent (x : list datagram) (s : state) : state :=
  mk_state (clients s) (instances s) (inst_list s) (bound_udp4 s) (fds s) (next_client s) (answers s) (adds s) x.

Definition set_adds (x : list bool) (s : state) : state :=
  mk_state (clients s) (instances s) (inst_list s) (bound_udp4 s) (fds s) (next_client s) (answers s) x (sent s).

(** ** The monad *)

Definition M (A : Type) : Type := state -> option (A * state).

#[export] Instance M_ret : MRet M := fun A x s => Some (x, s).
#[export] Instance M_bind : MBind M := fun A B k m s => match m s with Some (x, s) => k x s | None => None end.

Definition fault {A} : M A := fun _ => None.
Definition assert (b : bool) : M unit := fun s => if b then Some (tt, s) else None.
Definition get : M state := fun s => Some (s, s).
Definition modify (f : state -> state) : M unit := fun s => Some (tt, f s).
Definition deref {A} (x : option A) : M A := match x with Some x => mret x | None => fault end.
(** Whether the next fallible call succeeds. *)
Definition ask : M bool := fun s => match answers s with [] => Some (true, s) | a :: l => Some (a, set_answers l s) end.

Definition event_add : M bool := fun s => match adds s with [] => Some (true, s) | a :: l => Some (a, set_adds l s) end.

Definition get_client (c : nat) : M redudp_client := fun s => match clients s !! c with Some x => Some (x, s) | None => None end.
Definition mod_client (c : nat) (f : redudp_client -> redudp_client) : M unit := fun s =>
  match clients s !! c with Some x => Some (tt, set_clients (<[c := f x]> (clients s)) s) | None => None end.
Definition get_inst (i : nat) : M redudp_instance := fun s => match instances s !! i with Some x => Some (x, s) | None => None end.
Definition mod_inst (i : nat) (f : redudp_instance -> redudp_instance) : M unit := fun s =>
  match instances s !! i with Some x => Some (tt, set_instances (<[i := f x]> (instances s)) s) | None => None end.

(** [socket] gives the lowest descriptor that is not open. *)
Definition socket : M (option Z) :=
  ok ← ask;
  if ok : bool then
    s ← get;
    let fd := lowest_fd (fds s) in
    modify (set_fds ({[fd]} ∪ fds s));; mret (Some fd)
  else mret None.
Definition redsocks_close (fd : Z) : M unit :=
  s ← get;
  assert (bool_decide (fd ∈ fds s));;
  modify (set_fds (fds s ∖ {[fd]})).
(** [sendto] and [sendmsg]. *)
Definition send (fd : Z) (addr : sockaddr_in) (data : bytes) : M unit :=
  ok ← ask;
  if ok : bool then modify (fun s => set_sent (sent s ++ [(fd, addr, data)]) s) else mret tt.

(** ** Helpers *)

Definition bound_udp4_mkkey (addr : sockaddr_in) : key := (sin_addr addr, sin_port addr).

Definition bound_udp4_get (addr : sockaddr_in) : M (option Z) :=
  s ← get;
  let k := bound_udp4_mkkey addr in
  match bound_udp4 s !! k with
  | Some (ref, fd) =>
      assert (0 <? ref);;
      modify (set_bound (<[k := (ref + 1, fd)]> (bound_udp4 s)));;
      mret (Some fd)
  | None =>
      ok ← ask;                                                     (* calloc *)
      if negb ok then mret None else
      r ← socket;
      match r with
      | None => mret None
      | Some fd =>
          let fail := redsocks_close fd;; mret None in
          ok ← ask;                                                 (* redudp_transparent *)
          if negb ok then fail else
          ok ← ask;                                                 (* bind *)
          if negb ok then fail else
          ok ← ask;                                                 (* tsearch *)
          if negb ok then fail else
          s ← get;
          modify (set_bound (<[k := (1, fd)]> (bound_udp4 s)));;
          mret (Some fd)
      end
  end.

Definition bound_udp4_put (addr : sockaddr_in) : M unit :=
  s ← get;
  let k := bound_udp4_mkkey addr in
  p ← deref (bound_udp4 s !! k);
  assert (0 <? fst p);;
  if negb (fst p - 1 =? 0) then modify (set_bound (<[k := (fst p - 1, snd p)]> (bound_udp4 s)))
  else
    modify (set_bound (delete k (bound_udp4 s)));;
    redsocks_close (snd p).

Definition do_tproxy (g : redudp_config) : bool := bool_decide (sin_addr (u_destaddr g) = [0; 0; 0; 0]).

Definition get_destaddr (g : redudp_config) (c : redudp_client) : sockaddr_in := if do_tproxy g then destaddr c else u_destaddr g.

(** [redudp_fill_preamble]: the structure in memory. *)
Definition preamble (addr : sockaddr_in) : bytes := [0; 0; 0; Socks5.socks5_addrtype_ipv4] ++ sin_addr addr ++ sin_port addr.
Definition sizeof_preamble : Z := 10.

Definition config_of (c : nat) : M redudp_config :=
  x ← get_client c; i ← get_inst (c_inst x); mret (i_config i).

(** ** Logic *)

Definition redudp_drop_client (c : nat) : M unit :=
  x ← get_client c;
  match c_relay x with Some b => redsocks_close (b_fd b) | None => mret tt end;;
  match udprelay x with Some fd => redsocks_close fd | None => mret tt end;;
  match sender_fd x with Some _ => bound_udp4_put (destaddr x) | None => mret tt end;;
  mod_inst (c_inst x) (fun i => mk_uinst (i_config i) (i_listener i) (filter (fun j => j <> c) (i_clients i)));;
  modify (fun s => set_clients (delete c (clients s)) s).

Definition redudp_bump_timeout (c : nat) : M unit :=
  _ ← config_of c;
  ok ← event_add;
  if ok : bool then mod_client c (set_timeout true) else redudp_drop_client c.

Definition redudp_forward_pkt (c : nat) (buf : bytes) : M unit :=
  x ← get_client c;
  g ← config_of c;
  fd ← deref (udprelay x);
  mod_client c (add_tried buf);;
  send fd (udprelayaddr x) (preamble (get_destaddr g x) ++ buf).

(** Whether the packet was taken. *)
Definition redudp_enqeue_pkt (c : nat) (buf : bytes) : M bool :=
  x ← get_client c;
  g ← config_of c;
  if queue_len x >=? max_pktqueue g then mret false else
  ok ← ask;                                                         (* calloc *)
  if negb ok then mret false else
  mod_client c (fun x => add_taken buf (set_queue (queue_len x + 1) (queue x ++ [buf]) x));;
  mret true.

Fixpoint flush (c : nat) (q : list bytes) : M unit :=
  match q with
  | [] => mret tt
  | p :: q =>
      redudp_forward_pkt c p;;
      mod_client c (fun x => set_queue (queue_len x) (tail (queue x)) x);;
      flush c q
  end.
Definition redudp_flush_queue (c : nat) : M unit :=
  x ← get_client c;
  flush c (queue x);;
  mod_client c (fun x => set_queue 0 (queue x) x);;
  x ← get_client c;
  assert (bool_decide (queue x = [])).

(** [redsocks_write_helper_ex_plain] for a client of this kind: a message for the proxy and
    the number of bytes its answer has; whether that failed. *)
Definition write_helper (c : nat) (msg : bytes) (wm : Z) : M bool :=
  ok ← ask;                                                         (* the message is made *)
  if negb ok then mret true else
  ok ← ask;                                                         (* bufferevent_write_buffer *)
  if negb ok then mret true else
  x ← get_client c;
  b ← deref (c_relay x);
  mod_client c (set_relay (Some (mk_bev (b_fd b) (readcb b) wm (b_input b) (b_output b ++ msg))));;
  mret false.
Definition set_readcb (c : nat) (r : reader) : M unit :=
  x ← get_client c;
  b ← deref (c_relay x);
  mod_client c (set_relay (Some (mk_bev (b_fd b) (Some r) (b_wm b) (b_input b) (b_output b)))).

(** [evbuffer_remove]: up to [n] bytes of the input. *)
Definition evbuffer_remove (c : nat) (n : Z) : M bytes :=
  x ← get_client c;
  b ← deref (c_relay x);
  mod_client c (set_relay (Some (mk_bev (b_fd b) (readcb b) (b_wm b) (drop (Z.to_nat n) (b_input b)) (b_output b))));;
  mret (take (Z.to_nat n) (b_input b)).

Definition byte (n : nat) (l : bytes) : Z := nth n l 0.
Definition sizeof_assoc_reply : Z := 10.
Definition mkassociate : bytes := Socks5.command_msg Socks5.socks5_cmd_udp_associate (mk_sockaddr [0; 0; 0; 0] [0; 0]).

Definition redudp_read_assoc_reply (c : nat) : M unit :=
  reply ← evbuffer_remove c sizeof_assoc_reply;
  let fail := redudp_drop_client c in
  if negb (zlen reply =? sizeof_assoc_reply) then fail
  else if negb (byte 0 reply =? Socks5.socks5_ver) then fail
  else if negb (byte 1 reply =? Socks5.socks5_status_succeeded) then fail
  else if negb (byte 3 reply =? Socks5.socks5_addrtype_ipv4) then fail
  else
    mod_client c (set_udprelayaddr (mk_sockaddr (take 4 (drop 4 reply)) (drop 8 reply)));;
    r ← socket;
    match r with
    | None => fail
    | Some fd =>
        ok ← ask;                                                   (* connect *)
        if negb ok then redsocks_close fd;; fail else
        mod_client c (set_udprelay (Some fd));;                     (* event_set *)
        ok ← event_add;
        if negb ok then redsocks_close fd;; fail else
        redudp_flush_queue c
    end.

Definition associate (c : nat) : M unit :=
  error ← write_helper c mkassociate sizeof_assoc_reply;
  if error : bool then redudp_drop_client c else set_readcb c rd_assoc_reply.

Definition redudp_read_auth_reply (c : nat) : M unit :=
  reply ← evbuffer_remove c Socks5.sizeof_auth_reply;
  let fail := redudp_drop_client c in
  if negb (zlen reply =? Socks5.sizeof_auth_reply) then fail
  else if negb (byte 0 reply =? Socks5.socks5_password_ver) || negb (byte 1 reply =? Socks5.socks5_password_passed) then fail
  else associate c.

Definition do_password (g : redudp_config) : Z := if Socks5.socks5_is_valid_cred (u_login g) (u_password g) then 1 else 0.

Definition redudp_read_auth_methods (c : nat) : M unit :=
  g ← config_of c;
  reply ← evbuffer_remove c Socks5.sizeof_method_reply;
  let fail := redudp_drop_client c in
  if negb (zlen reply =? Socks5.sizeof_method_reply) then fail
  else if negb (Socks5.socks5_is_known_auth_method (byte 0 reply) (byte 1 reply) (do_password g)) then fail
  else if byte 1 reply =? Socks5.socks5_auth_none then associate c
  else if byte 1 reply =? Socks5.socks5_auth_password then
    l ← deref (u_login g);
    p ← deref (u_password g);
    error ← write_helper c (Socks5.password_msg l p) Socks5.sizeof_auth_reply;
    if error : bool then fail else set_readcb c rd_auth_reply
  else mret tt.

Definition redudp_relay_connected (c : nat) : M unit :=
  g ← config_of c;
  let fail := redudp_drop_client c in
  ok ← ask;                                                         (* red_is_socket_connected_ok *)
  if negb ok then fail else
  error ← write_helper c (Socks5.methods_msg (do_password g)) Socks5.sizeof_method_reply;
  if error : bool then fail else set_readcb c rd_auth_methods.

Definition redudp_relay_error (c : nat) : M unit := redudp_drop_client c.
Definition redudp_timeout (c : nat) : M unit := redudp_drop_client c.

(** [red_connect_relay]: a socket on which connecting has started. *)
Definition red_connect_relay : M (option bufferevent) :=
  r ← socket;
  match r with
  | None => mret None
  | Some fd =>
      let fail := redsocks_close fd;; mret None in
      ok ← ask;                                                     (* fcntl_nonblock *)
      if negb ok then fail else
      ok ← ask;                                                     (* apply_tcp_keepalive *)
      if negb ok then fail else
      ok ← ask;                                                     (* connect *)
      if negb ok then fail else
      ok ← ask;                                                     (* bufferevent_new *)
      if negb ok then fail else
      ok ← ask;                                                     (* bufferevent_enable *)
      if negb ok then fail else
      mret (Some (mk_bev fd None 0 [] []))
  end.

(** [destaddr] is NULL unless the instance works with TPROXY; the client is allocated with
    zeroes. *)
Definition redudp_first_pkt_from_client (self : nat) (from : sockaddr_in) (dest : option sockaddr_in) (buf : bytes) : M unit :=
  ok ← ask;                                                         (* calloc *)
  if negb ok then mret tt else
  s ← get;
  let c := next_client s in
  let zero := mk_sockaddr [0; 0; 0; 0] [0; 0] in
  modify (fun s => set_next (S c) (set_clients (<[c := mk_uclient self from (default zero dest) None false None None zero 0 [] [] []]> (clients s)) s));;
  let fail := redudp_drop_client c in
  r ← red_connect_relay;
  mod_client c (set_relay r);;
  match r with
  | None => fail
  | Some _ =>
      ok ← ask;                                                     (* redsocks_time *)
      if negb ok then fail else
      redudp_bump_timeout c;;
      taken ← redudp_enqeue_pkt c buf;
      if negb taken then fail else
      mod_inst self (fun i => mk_uinst (i_config i) (i_listener i) (c :: i_clients i))
  end.

(** [pkt]: the packet, and [rest]: the bytes behind it in the buffer on the stack. *)
Definition redudp_pkt_from_socks (c : nat) (from : sockaddr_in) (pkt rest : bytes) : M unit :=
  x ← get_client c;
  g ← config_of c;
  let header := take (Z.to_nat sizeof_preamble) (pkt ++ rest) in
  let dest := get_destaddr g x in
  if negb (bool_decide (from = udprelayaddr x)) then mret tt
  else if negb (byte 2 header =? 0) then mret tt
  else if negb (byte 3 header =? Socks5.socks5_addrtype_ipv4) then mret tt
  else if negb (bool_decide (drop 8 header = sin_port dest)) || negb (bool_decide (take 4 (drop 4 header) = sin_addr dest)) then mret tt
  else
    redudp_bump_timeout c;;
    x ← get_client c;
    let forward fd :=
      assert (sizeof_preamble <=? zlen pkt);;
      send fd (clientaddr x) (drop (Z.to_nat sizeof_preamble) pkt) in
    if do_tproxy g then
      match sender_fd x with
      | Some fd => forward fd
      | None =>
          r ← bound_udp4_get (destaddr x);
          mod_client c (set_sender_fd r);;
          match r with Some fd => forward fd | None => mret tt end
      end
    else
      i ← get_inst (c_inst x);
      fd ← deref (i_listener i);
      forward fd.

(** The first client of the list with this address. *)
Fixpoint find_client (from : sockaddr_in) (l : list nat) : M (option nat) :=
  match l with
  | [] => mret None
  | c :: l => x ← get_client c; if bool_decide (from = clientaddr x) then mret (Some c) else find_client from l
  end.

(** [dest]: the destination the system reports, used with TPROXY. *)
Definition redudp_pkt_from_client (self : nat) (from dest : sockaddr_in) (pkt : bytes) : M unit :=
  i ← get_inst self;
  r ← find_client from (i_clients i);
  match r with
  | Some c =>
      redudp_bump_timeout c;;
      x ← get_client c;
      match udprelay x with
      | Some _ => mod_client c (add_taken pkt);; redudp_forward_pkt c pkt
      | None => _ ← redudp_enqeue_pkt c pkt; mret tt
      end
  | None => redudp_first_pkt_from_client self from (if do_tproxy (i_config i) then Some dest else None) pkt
  end.

(** ** Start and end *)

Fixpoint drop_each (l : list nat) : M unit := match l with [] => mret tt | c :: l => redudp_drop_client c;; drop_each l end.

Definition redudp_fini_instance (i : nat) : M unit :=
  x ← get_inst i;
  drop_each (i_clients x);;
  match i_listener x with Some fd => redsocks_close fd | None => mret tt end;;
  modify (fun s => set_inst_list (filter (fun j => j <> i) (inst_list s)) (set_instances (delete i (instances s)) s)).

(** Whether the instance was started. *)
Definition redudp_init_instance (i : nat) : M bool :=
  x ← get_inst i;
  r ← socket;
  match r with
  | None => redudp_fini_instance i;; mret false
  | Some fd =>
      let fail := redudp_fini_instance i;; redsocks_close fd;; mret false in
      ok ← (if do_tproxy (i_config x) then ok ← ask; if ok : bool then ask else mret false else mret true);   (* IP_TRANSPARENT, IP_RECVORIGDSTADDR *)
      if negb ok then fail else
      ok ← ask;                                                     (* bind *)
      if negb ok then fail else
      ok ← ask;                                                     (* fcntl_nonblock *)
      if negb ok then fail else
      mod_inst i (fun x => mk_uinst (i_config x) (Some fd) (i_clients x));;   (* event_set *)
      ok ← event_add;
      if negb ok then fail else mret true
  end.

Fixpoint fini_all (l : list nat) : M unit := match l with [] => mret tt | i :: l => redudp_fini_instance i;; fini_all l end.
Definition redudp_fini : M unit := s ← get; fini_all (inst_list s).

Fixpoint init_all (l : list nat) : M bool :=
  match l with
  | [] => mret true
  | i :: l => ok ← redudp_init_instance i; if ok : bool then init_all l else redudp_fini;; mret false
  end.
Definition redudp_init : M bool := s ← get; init_all (inst_list s).

(** ** Events *)

(** A packet of a client; the connection to the proxy is established, delivers bytes, ends or
    fails; a packet on the socket towards the proxy; the timer of a client. *)
Inductive event :=
| ev_client (i : nat) (from dest : sockaddr_in) (pkt : bytes)
| ev_connected (c : nat)
| ev_input (c : nat) (data : bytes)
| ev_error (c : nat)
| ev_socks (c : nat) (from : sockaddr_in) (pkt rest : bytes)
| ev_timeout (c : nat).

(** libevent reads up to the high watermark and calls back from the low one on. *)
Definition relay_input (c : nat) (data : bytes) : M unit :=
  x ← get_client c;
  b ← deref (c_relay x);
  mod_client c (set_relay (Some (mk_bev (b_fd b) (readcb b) (b_wm b) (b_input b ++ data) (b_output b))));;
  if zlen (b_input b ++ data) <? b_wm b then mret tt
  else match readcb b with
       | None => mret tt
       | Some rd_auth_methods => redudp_read_auth_methods c
       | Some rd_auth_reply => redudp_read_auth_reply c
       | Some rd_assoc_reply => redudp_read_assoc_reply c
       end.

Definition step (e : event) : M unit :=
  match e with
  | ev_client i from dest pkt => redudp_pkt_from_client i from dest pkt
  | ev_connected c => redudp_relay_connected c
  | ev_input c data => relay_input c data
  | ev_error c => redudp_relay_error c
  | ev_socks c from pkt rest => redudp_pkt_from_socks c from pkt rest
  | ev_timeout c => redudp_timeout c
  end.

(** When libevent can report what. *)
Definition relay_of (c : nat) (s : state) : option bufferevent := x ← clients s !! c; c_relay x.
Definition enabled (e : event) (s : state) : bool :=
  match e with
  | ev_client i _ _ _ => match instances s !! i with Some x => bool_decide (is_Some (i_listener x)) | None => false end
  | ev_connected c => match relay_of c s with Some b => bool_decide (readcb b = None) | None => false end
  | ev_input c data => match relay_of c s with Some b => bool_decide (is_Some (readcb b)) && (0 <? zlen data) && (zlen (b_input b ++ data) <=? b_wm b) | None => false end
  | ev_error c => bool_decide (is_Some (relay_of c s))
  | ev_socks c _ _ _ => match clients s !! c with Some x => bool_decide (is_Some (udprelay x)) | None => false end
  | ev_timeout c => match clients s !! c with Some x => timeout x | None => false end
  end.

(** ** The invariant *)

(** The descriptors in use are those of the list, each once. *)
Definition fds_are (F : gset Z) (L : list Z) : Prop := NoDup L /\ forall fd, fd ∈ F <-> fd ∈ L.

#[export] Instance fds_are_perm F : Proper ((≡ₚ) ==> iff) (fds_are F).
Proof. intros L L' E. unfold fds_are. rewrite E. split; (intros [? HF]; split; [done|]; intros fd; rewrite HF, E; done). Qed.

Lemma fds_open F L : fds_are F L -> fds_are ({[lowest_fd F]} ∪ F) (lowest_fd F :: L).
Proof.
  intros [Hn HF]. pose proof (lowest_fd_fresh F) as Hf. split; [apply NoDup_cons; by rewrite <- HF|]. intros fd. rewrite elem_of_union, elem_of_singleton, elem_of_cons, HF. done.
Qed.

Lemma fds_close F L fd : fds_are F (fd :: L) -> fd ∈ F /\ fds_are (F ∖ {[fd]}) L.
Proof.
  intros [Hn HF]. apply NoDup_cons in Hn as [Hfd Hn]. split; [apply HF; left|]. split; [done|]. intros x. rewrite elem_of_difference, elem_of_singleton, HF, elem_of_cons. split; [naive_solver|]. intros Hx. split; [by right|]. by intros ->.
Qed.

Definition bev_fds (b : option bufferevent) : list Z := match b with Some b => [b_fd b] | None => [] end.
Definition client_fds (x : redudp_client) : list Z := bev_fds (c_relay x) ++ option_list (udprelay x).
Definition values {K A} `{Countable K} (m : gmap K A) : list A := (map_to_list m).*2.
Definition owned (cs : gmap nat redudp_client) (ins : gmap nat redudp_instance) (bd : gmap key (Z * Z)) : list Z :=
  (values cs ≫= client_fds) ++ (values bd).*2 ++ omap i_listener (values ins).

(** The clients with a socket bound to an address. *)
Definition sends_as (k : key) (x : redudp_client) : bool := bool_decide (is_Some (sender_fd x) /\ bound_udp4_mkkey (destaddr x) = k).
Definition senders (k : key) (cs : gmap nat redudp_client) : Z := zlen (filter (fun x => sends_as k x = true) (values cs)).

Record client_ok (g : redudp_config) (x : redudp_client) : Prop := {
  co_len : queue_len x = zlen (queue x);
  co_max : zlen (queue x) <= Z.max 0 (max_pktqueue g);
  co_idle : is_Some (udprelay x) -> queue x = [];
  co_order : h_taken x = h_tried x ++ queue x;
  co_tproxy : is_Some (sender_fd x) -> do_tproxy g = true }.

(** [base] are the descriptors of the rest of the program, [X] those only a local variable
    has, [N] the clients that are not in the list of their instance. *)
Record ok (base X : list Z) (N : list nat) (cs : gmap nat redudp_client) (ins : gmap nat redudp_instance) (bd : gmap key (Z * Z)) (F : gset Z) (nx : nat) (il : list nat) : Prop := {
  ok_fds : fds_are F (base ++ X ++ owned cs ins bd);
  ok_client c x : cs !! c = Some x -> exists i, ins !! c_inst x = Some i /\ client_ok (i_config i) x /\ (c ∈ N \/ c ∈ i_clients i);
  ok_member i x c : ins !! i = Some x -> c ∈ i_clients x -> (c ∉ N) /\ exists y, cs !! c = Some y /\ c_inst y = i;
  ok_nodup i x : ins !! i = Some x -> NoDup (i_clients x);
  ok_bound k : match bd !! k with Some (ref, _) => ref = senders k cs /\ 0 < ref | None => senders k cs = 0 end;
  ok_sender c x fd : cs !! c = Some x -> sender_fd x = Some fd -> exists ref, bd !! bound_udp4_mkkey (destaddr x) = Some (ref, fd);
  ok_next c : is_Some (cs !! c) -> (c < nx)%nat;
  ok_listen c x i : cs !! c = Some x -> ins !! c_inst x = Some i -> is_Some (i_listener i);
  ok_listed : NoDup il /\ forall i, i ∈ il <-> is_Some (ins !! i) }.

Definition good (base X : list Z) (N : list nat) (s : state) : Prop :=
  ok base X N (clients s) (instances s) (bound_udp4 s) (fds s) (next_client s) (inst_list s) /\ adds s = [].

(** Rearranges a concatenation. *)
Ltac permute := apply (Permutation_count_occ Z.eq_dec); let fd := fresh "fd" in intros fd; rewrite ?count_occ_app; lia.

(** ** Values of a map *)

Lemma values_insert {K A} `{Countable K} (m : gmap K A) k x : values (<[k := x]> m) ≡ₚ x :: values (delete k m).
Proof. unfold values. rewrite <- insert_delete_eq, map_to_list_insert by apply lookup_delete_eq. done. Qed.

Lemma values_delete {K A} `{Countable K} (m : gmap K A) k x : m !! k = Some x -> values m ≡ₚ x :: values (delete k m).
Proof. intros E. rewrite <- (insert_id m k x E) at 1. apply values_insert. Qed.

#[export] Instance bind_perm {A B} (f : A -> list B) : Proper ((≡ₚ) ==> (≡ₚ)) (fun l : list A => l ≫= f).
Proof. intros l l' E. by rewrite E. Qed.

Lemma senders_update k cs c x x' :
  cs !! c = Some x -> sends_as k x' = sends_as k x -> senders k (<[c := x']> cs) = senders k cs.
Proof.
  intros Hc E. unfold senders, zlen. rewrite values_insert, (values_delete cs c x Hc), !filter_cons. rewrite E. by destruct (decide (sends_as k x = true)).
Qed.

Lemma senders_delete k cs c x : cs !! c = Some x -> senders k cs = senders k (delete c cs) + (if sends_as k x then 1 else 0).
Proof.
  intros Hc. unfold senders, zlen. rewrite (values_delete cs c x Hc), filter_cons. destruct (sends_as k x); [rewrite decide_True by done|rewrite decide_False by done]; cbn [length]; lia.
Qed.

Lemma senders_insert k cs c x : cs !! c = None -> senders k (<[c := x]> cs) = senders k cs + (if sends_as k x then 1 else 0).
Proof. intros Hc. rewrite (senders_delete k (<[c := x]> cs) c x) by apply lookup_insert_eq. by rewrite delete_insert_id. Qed.

(** ** Rules *)

Definition wp {A} (m : M A) (Q : A -> state -> Prop) (s : state) : Prop := match m s with Some (x, s') => Q x s' | None => False end.

Lemma ru_bind {A B} (m : M A) (k : A -> M B) Q s : wp m (fun x => wp (k x) Q) s -> wp (m ≫= k) Q s.
Proof. unfold wp, mbind, M_bind. by destruct (m s) as [[x s']|]. Qed.

Lemma ru_mono {A} (m : M A) (P Q : A -> state -> Prop) s : wp m P s -> (forall x s', P x s' -> Q x s') -> wp m Q s.
Proof. unfold wp. destruct (m s) as [[x s']|]; [|done]. intros H HPQ. by apply HPQ. Qed.

Lemma ru_ret {A} (x : A) (Q : A -> state -> Prop) s : Q x s -> wp (mret x) Q s.
Proof. done. Qed.

Lemma ru_get (Q : state -> state -> Prop) s : Q s s -> wp get Q s.
Proof. done. Qed.

Lemma ru_modify f (Q : unit -> state -> Prop) s : Q tt (f s) -> wp (modify f) Q s.
Proof. done. Qed.

Lemma ru_assert b (Q : unit -> state -> Prop) s : b = true -> Q tt s -> wp (assert b) Q s.
Proof. by intros ->. Qed.

Lemma ru_deref {A} (x : A) o (Q : A -> state -> Prop) s : o = Some x -> Q x s -> wp (deref o) Q s.
Proof. by intros ->. Qed.

Lemma ru_ask (Q : bool -> state -> Prop) s : (forall b l, Q b (set_answers l s)) -> wp ask Q s.
Proof.
  intros H. unfold wp, ask. destruct (answers s) as [|a l] eqn:E; [|apply H]. assert (Es : set_answers [] s = s) by (destruct s; cbn in *; by subst). rewrite <- Es. apply H.
Qed.

Lemma ru_event_add (Q : bool -> state -> Prop) s : adds s = [] -> Q true s -> wp event_add Q s.
Proof. intros E H. unfold wp, event_add. by rewrite E. Qed.

Lemma ru_client c x (Q : redudp_client -> state -> Prop) s : clients s !! c = Some x -> Q x s -> wp (get_client c) Q s.
Proof. intros E H. unfold wp, get_client. by rewrite E. Qed.

Lemma ru_mod_client c f x (Q : unit -> state -> Prop) s : clients s !! c = Some x -> Q tt (set_clients (<[c := f x]> (clients s)) s) -> wp (mod_client c f) Q s.
Proof. intros E H. unfold wp, mod_client. by rewrite E. Qed.

Lemma ru_inst i x (Q : redudp_instance -> state -> Prop) s : instances s !! i = Some x -> Q x s -> wp (get_inst i) Q s.
Proof. intros E H. unfold wp, get_inst. by rewrite E. Qed.

Lemma ru_mod_inst i f x (Q : unit -> state -> Prop) s : instances s !! i = Some x -> Q tt (set_instances (<[i := f x]> (instances s)) s) -> wp (mod_inst i f) Q s.
Proof. intros E H. unfold wp, mod_inst. by rewrite E. Qed.

Lemma ru_config c x i (Q : redudp_config -> state -> Prop) s :
  clients s !! c = Some x -> instances s !! c_inst x = Some i -> Q (i_config i) s -> wp (config_of c) Q s.
Proof. intros Hc Hi H. unfold config_of. apply ru_bind. eapply ru_client; [done|]. apply ru_bind. eapply ru_inst; [done|]. by apply ru_ret. Qed.

Lemma ru_send fd addr data (Q : unit -> state -> Prop) s : (forall l t, Q tt (set_sent t (set_answers l s))) -> wp (send fd addr data) Q s.
Proof.
  intros H. unfold send. apply ru_bind, ru_ask. intros b l. destruct b; [apply ru_modify, H|]. apply ru_ret. assert (Es : set_answers l s = set_sent (sent s) (set_answers l s)) by (by destruct s). rewrite Es. apply H.
Qed.

(** A descriptor is opened, for a local variable; and closed. *)
Lemma ru_socket base X N (Q : option Z -> state -> Prop) s :
  good base X N s -> (forall l, Q None (set_answers l s)) -> (forall fd l F, good base (fd :: X) N (set_fds F (set_answers l s)) -> Q (Some fd) (set_fds F (set_answers l s))) -> wp socket Q s.
Proof.
  intros [[Hf Hc Hm Hnd Hb Hs Hn Hls Hil] Ha] H0 H1. unfold socket. apply ru_bind, ru_ask. intros [] l; [|apply ru_ret, H0]. apply ru_bind, ru_get. apply ru_bind, ru_modify, ru_ret. apply H1.
  split; [|done]. split; try done. apply fds_open in Hf. cbn. eapply fds_are_perm; [|exact Hf]. by rewrite <- Permutation_middle.
Qed.

Lemma ru_close L fd (Q : unit -> state -> Prop) s :
  fds_are (fds s) (fd :: L) -> (forall F, fds_are F L -> Q tt (set_fds F s)) -> wp (redsocks_close fd) Q s.
Proof.
  intros [Hin HF]%fds_close H. unfold redsocks_close. apply ru_bind, ru_get. apply ru_bind, ru_assert; [by apply bool_decide_eq_true|]. apply ru_modify. by apply H.
Qed.

Lemma ru_close_local base X N fd (Q : unit -> state -> Prop) s :
  good base (fd :: X) N s -> (forall F, good base X N (set_fds F s) -> Q tt (set_fds F s)) -> wp (redsocks_close fd) Q s.
Proof.
  intros [[Hf Hc Hm Hnd Hb Hs Hn Hls Hil] Ha] H. eapply (ru_close (base ++ X ++ owned (clients s) (instances s) (bound_udp4 s))); [eapply fds_are_perm; [|exact Hf]; cbn; by rewrite <- Permutation_middle|].
  intros F HF. apply H. split; [|done]. by split.
Qed.

(** A client changes, and what it has of descriptors may go over to or from a local variable. *)
Lemma good_update base X X' N s c x x' :
  good base X N s -> clients s !! c = Some x -> c_inst x' = c_inst x -> sender_fd x' = sender_fd x -> destaddr x' = destaddr x ->
  X' ++ client_fds x' ≡ₚ X ++ client_fds x -> (forall i, instances s !! c_inst x = Some i -> client_ok (i_config i) x -> client_ok (i_config i) x') ->
  good base X' N (set_clients (<[c := x']> (clients s)) s).
Proof.
  intros [[Hf Hc Hm Hnd Hb Hs Hn Hls Hil] Ha] Ex Ei Es Ed HX Hok. split; [|done]. cbn. split; cbn.
  - eapply fds_are_perm; [|exact Hf]. apply Permutation_app_head. unfold owned. rewrite values_insert, (values_delete _ _ _ Ex). cbn [mbind list_bind]. rewrite <- !app_assoc, !(app_assoc X'), !(app_assoc X). by rewrite HX.
  - intros c' y. destruct (decide (c' = c)) as [->|Hne]; [rewrite lookup_insert_eq; intros [= <-]|rewrite lookup_insert_ne by done; apply Hc].
    destruct (Hc _ _ Ex) as (i & Hi & Hci & Hin). exists i. rewrite Ei. split_and!; [done|by apply Hok|done].
  - intros i y c' Hi Hin. destruct (Hm _ _ _ Hi Hin) as (HN & z & Hz & Hzi). split; [done|]. destruct (decide (c' = c)) as [->|Hne]; [|exists z; by rewrite lookup_insert_ne]. exists x'. rewrite lookup_insert_eq. split; [done|]. congruence.
  - apply Hnd.
  - intros k. assert (Ek : senders k (<[c := x']> (clients s)) = senders k (clients s)) by (eapply senders_update; [done|]; unfold sends_as; by rewrite Es, Ed). rewrite Ek. apply Hb.
  - intros c' y fd. destruct (decide (c' = c)) as [->|Hne]; [rewrite lookup_insert_eq; intros [= <-]; rewrite Es, Ed; by apply (Hs c)|rewrite lookup_insert_ne by done; apply Hs].
  - intros c'. destruct (decide (c' = c)) as [->|Hne]; [intros _; apply Hn; by eexists|rewrite lookup_insert_ne by done; apply Hn].
  - intros c' y j. destruct (decide (c' = c)) as [->|Hne]; [|rewrite lookup_insert_ne by done; apply Hls]. rewrite lookup_insert_eq. intros [= <-] Hj. eapply (Hls c x); [done|]. first [by rewrite <- Ei|exact Hj].
  - exact Hil.
Qed.

(** ** Dropping a client *)

Definition without (c : nat) (i : redudp_instance) : redudp_instance := mk_uinst (i_config i) (i_listener i) (filter (fun j => j <> c) (i_clients i)).

Lemma listeners_update (ins : gmap nat redudp_instance) i y y' :
  ins !! i = Some y -> i_listener y' = i_listener y -> omap i_listener (values (<[i := y']> ins)) ≡ₚ omap i_listener (values ins).
Proof. intros Hi E. rewrite values_insert, (values_delete _ _ _ Hi). cbn. by rewrite E. Qed.

(** An instance changes. *)
Lemma listed_update (ins : gmap nat redudp_instance) il j y y' :
  (NoDup il /\ forall i, i ∈ il <-> is_Some (ins !! i)) -> ins !! j = Some y -> NoDup il /\ forall i, i ∈ il <-> is_Some (<[j := y']> ins !! i).
Proof.
  intros [Hnd Hil] Ej. split; [done|]. intros i. rewrite Hil. destruct (decide (i = j)) as [->|Hne]; [rewrite lookup_insert_eq, Ej; by split; eexists|by rewrite lookup_insert_ne].
Qed.

Lemma gone_ok base X N cs ins bd F nx il c x y bd' F' :
  ok base X N cs ins bd F nx il -> cs !! c = Some x -> ins !! c_inst x = Some y ->
  fds_are F' (base ++ X ++ (values (delete c cs) ≫= client_fds) ++ (values bd').*2 ++ omap i_listener (values ins)) ->
  (forall k, match bd' !! k with Some (ref, _) => ref = senders k (delete c cs) /\ 0 < ref | None => senders k (delete c cs) = 0 end) ->
  (forall c' x' fd, c' <> c -> cs !! c' = Some x' -> sender_fd x' = Some fd -> exists ref, bd' !! bound_udp4_mkkey (destaddr x') = Some (ref, fd)) ->
  ok base X (filter (fun j => j <> c) N) (delete c cs) (<[c_inst x := without c y]> ins) bd' F' nx il.
Proof.
  intros [Hf Hc Hm Hnd Hb Hs Hn Hls Hil] Ex Ey HF' Hb' Hs'. split.
  - eapply fds_are_perm; [|exact HF']. unfold owned. by rewrite (listeners_update ins (c_inst x) y (without c y)).
  - intros c' x' [Hne Hc']%lookup_delete_Some. destruct (Hc _ _ Hc') as (i & Hi & Hok & Hin). destruct (decide (c_inst x' = c_inst x)) as [E|E].
    + rewrite E in *. assert (i = y) as -> by congruence. exists (without c y). rewrite lookup_insert_eq. split_and!; [done|done|]. destruct Hin; [left|right]; by apply list_elem_of_filter.
    + exists i. rewrite lookup_insert_ne by done. split_and!; [done|done|]. destruct Hin; [left; by apply list_elem_of_filter|by right].
  - intros i z c' Hi Hin. destruct (decide (i = c_inst x)) as [->|Hne].
    + rewrite lookup_insert_eq in Hi. injection Hi as <-. cbn in Hin. apply list_elem_of_filter in Hin as [Hcc Hin]. destruct (Hm _ _ _ Ey Hin) as (HN & x' & Hx' & E). split; [by intros [_ ?]%list_elem_of_filter|]. exists x'. by rewrite lookup_delete_ne.
    + rewrite lookup_insert_ne in Hi by done. destruct (Hm _ _ _ Hi Hin) as (HN & x' & Hx' & E). split; [by intros [_ ?]%list_elem_of_filter|]. exists x'. rewrite lookup_delete_ne; [done|]. intros <-. congruence.
  - intros i z. destruct (decide (i = c_inst x)) as [->|Hne]; [rewrite lookup_insert_eq; intros [= <-]; apply NoDup_filter; by eapply Hnd|rewrite lookup_insert_ne by done; apply Hnd].
  - done.
  - intros c' x' fd [Hne Hc']%lookup_delete_Some E. by eapply Hs'.
  - intros c' [x' [_ Hx']%lookup_delete_Some]. apply Hn. by eexists.
  - intros c' x' j [Hne Hc']%lookup_delete_Some. destruct (decide (c_inst x' = c_inst x)) as [E|E]; [|rewrite lookup_insert_ne by done; by apply (Hls c')]. rewrite E, lookup_insert_eq. intros [= <-]. by apply (Hls c x y).
  - by eapply listed_update.
Qed.

Lemma ru_put L cs addr ref fd (Q : unit -> state -> Prop) s :
  bound_udp4 s !! bound_udp4_mkkey addr = Some (ref, fd) -> ref = senders (bound_udp4_mkkey addr) cs + 1 -> 0 < ref ->
  (forall k, k <> bound_udp4_mkkey addr -> match bound_udp4 s !! k with Some (r, _) => r = senders k cs /\ 0 < r | None => senders k cs = 0 end) ->
  fds_are (fds s) (L ++ (values (bound_udp4 s)).*2) ->
  (forall bd F, fds_are F (L ++ (values bd).*2) ->
     (forall k, match bd !! k with Some (r, _) => r = senders k cs /\ 0 < r | None => senders k cs = 0 end) ->
     (forall k r fd', bound_udp4 s !! k = Some (r, fd') -> senders k cs <> 0 -> exists r', bd !! k = Some (r', fd')) -> Q tt (set_fds F (set_bound bd s))) ->
  wp (bound_udp4_put addr) Q s.
Proof.
  intros Hb Hr Hpos Hoth HF HQ. set (k0 := bound_udp4_mkkey addr) in *. unfold bound_udp4_put. apply ru_bind, ru_get. cbv zeta. apply ru_bind. eapply ru_deref; [exact Hb|]. cbn [fst snd].
  apply ru_bind, ru_assert; [by apply Z.ltb_lt|]. pose proof (zlen_nonneg (filter (fun x => sends_as k0 x = true) (values cs))) as Hnn. fold (senders k0 cs) in Hnn. destruct (Z.eqb_spec (ref - 1) 0) as [E|E]; cbn [negb].
  - apply ru_bind, ru_modify. eapply (ru_close (L ++ (values (delete k0 (bound_udp4 s))).*2)).
    + cbn. eapply fds_are_perm; [|exact HF]. rewrite (values_delete _ _ _ Hb). cbn. by rewrite <- Permutation_middle.
    + intros F HF'. apply (HQ (delete k0 (bound_udp4 s)) F); [done| |].
      * intros k. destruct (decide (k = k0)) as [->|Hne]; [rewrite lookup_delete_eq; lia|rewrite lookup_delete_ne by done; by apply Hoth].
      * intros k r fd' Hk Hse. exists r. rewrite lookup_delete_ne; [done|]. intros <-. lia.
  - apply ru_modify. specialize (HQ (<[k0 := (ref - 1, fd)]> (bound_udp4 s)) (fds s)). destruct s. cbn in *. apply HQ.
    + eapply fds_are_perm; [|exact HF]. by rewrite values_insert, (values_delete _ _ _ Hb).
    + intros k. destruct (decide (k = k0)) as [->|Hne]; [rewrite lookup_insert_eq; lia|rewrite lookup_insert_ne by done; by apply Hoth].
    + intros k r fd' Hk Hse. destruct (decide (k = k0)) as [->|Hne]; [rewrite lookup_insert_eq; exists (ref - 1); congruence|rewrite lookup_insert_ne by done; by exists r].
Qed.

Lemma ru_close_opt L o (Q : unit -> state -> Prop) s :
  fds_are (fds s) (option_list o ++ L) -> (forall F, fds_are F L -> Q tt (set_fds F s)) -> wp (match o with Some fd => redsocks_close fd | None => mret tt end) Q s.
Proof.
  intros HF HQ. destruct o as [fd|]; [eapply ru_close; [exact HF|exact HQ]|]. apply ru_ret. specialize (HQ (fds s) HF). by destruct s.
Qed.

Lemma drop_ok base X N c x (Q : unit -> state -> Prop) s :
  good base X N s -> clients s !! c = Some x ->
  (forall s' y, good base X (filter (fun j => j <> c) N) s' -> clients s' = delete c (clients s) -> instances s !! c_inst x = Some y ->
     instances s' = <[c_inst x := without c y]> (instances s) -> inst_list s' = inst_list s -> Q tt s') ->
  wp (redudp_drop_client c) Q s.
Proof.
  intros [H Ha] Ex HQ. pose proof H as [Hf Hc Hm Hnd Hb Hs Hn Hls Hil]. destruct (Hc _ _ Ex) as (y & Ey & _ & _). unfold redudp_drop_client. apply ru_bind. eapply ru_client; [exact Ex|].
  set (L := base ++ X ++ (values (delete c (clients s)) ≫= client_fds) ++ omap i_listener (values (instances s))).
  assert (Hf1 : fds_are (fds s) (bev_fds (c_relay x) ++ option_list (udprelay x) ++ L ++ (values (bound_udp4 s)).*2)).
  { eapply fds_are_perm; [|exact Hf]. unfold owned, L. rewrite (values_delete _ _ _ Ex). cbn [mbind list_bind]. change (client_fds x) with (bev_fds (c_relay x) ++ option_list (udprelay x)). permute. }
  apply ru_bind. assert (Hrel : forall Q', (forall F, fds_are F (option_list (udprelay x) ++ L ++ (values (bound_udp4 s)).*2) -> Q' tt (set_fds F s)) ->
    wp (match c_relay x with Some b => redsocks_close (b_fd b) | None => mret tt end) Q' s).
  { intros Q' HQ'. destruct (c_relay x) as [b|]; [eapply ru_close; [exact Hf1|exact HQ']|]. apply ru_ret. specialize (HQ' (fds s) Hf1). by destruct s. }
  apply Hrel. clear Hrel Hf1. intros F1 HF1. apply ru_bind. eapply ru_close_opt; [exact HF1|]. intros F2 HF2. apply ru_bind. change (set_fds F2 (set_fds F1 s)) with (set_fds F2 s).
  assert (Hse : forall k, senders k (clients s) = senders k (delete c (clients s)) + (if sends_as k x then 1 else 0)) by (intros k; by apply senders_delete).
  assert (Hfin : forall bd F, fds_are F (L ++ (values bd).*2) ->
    (forall k, match bd !! k with Some (r, _) => r = senders k (delete c (clients s)) /\ 0 < r | None => senders k (delete c (clients s)) = 0 end) ->
    (forall k r fd', bound_udp4 s !! k = Some (r, fd') -> senders k (delete c (clients s)) <> 0 -> exists r', bd !! k = Some (r', fd')) ->
    wp (mod_inst (c_inst x) (fun i => mk_uinst (i_config i) (i_listener i) (filter (fun j => j <> c) (i_clients i)));; modify (fun s => set_clients (delete c (clients s)) s)) Q (set_fds F (set_bound bd s))).
  { intros bd F HF Hbd Hkeep. apply ru_bind. eapply ru_mod_inst; [exact Ey|]. apply ru_modify. eapply (HQ _ y); [|done..]. split; [|done]. cbn. eapply gone_ok; [exact H|done|done| |done|].
    - eapply fds_are_perm; [|exact HF]. unfold L. permute.
    - intros c' x' fd Hne Hx' Esf. destruct (Hs _ _ _ Hx' Esf) as [r Hr]. eapply Hkeep; [exact Hr|]. rewrite (senders_delete _ (delete c (clients s)) c' x') by (by rewrite lookup_delete_ne).
      unfold sends_as. rewrite bool_decide_eq_true_2 by (split; [by rewrite Esf|done]). pose proof (zlen_nonneg (filter (fun z => sends_as (bound_udp4_mkkey (destaddr x')) z = true) (values (delete c' (delete c (clients s)))))) as Hnn.
      unfold senders. lia. }
  destruct (sender_fd x) as [sfd|] eqn:Esf.
  - destruct (Hs _ _ _ Ex Esf) as [ref Hr]. pose proof (Hb (bound_udp4_mkkey (destaddr x))) as Hbx. rewrite Hr in Hbx. destruct Hbx as [Eref Hpos].
    assert (Esk : forall k, sends_as k x = bool_decide (bound_udp4_mkkey (destaddr x) = k)) by (intros k; unfold sends_as; rewrite Esf; apply bool_decide_ext; naive_solver).
    eapply (ru_put L (delete c (clients s))); [exact Hr| |done| |exact HF2|].
    + rewrite Eref, Hse, Esk, bool_decide_eq_true_2 by done. done.
    + intros k Hk. pose proof (Hb k) as Hbk. rewrite (Hse k), Esk, bool_decide_eq_false_2, Z.add_0_r in Hbk by congruence. exact Hbk.
    + intros bd F HF Hbd Hkeep. by apply Hfin.
  - apply ru_ret. assert (Es : set_fds F2 s = set_fds F2 (set_bound (bound_udp4 s) s)) by (by destruct s). rewrite Es. apply Hfin; [done| |intros k r fd' Hk _; by exists r].
    intros k. pose proof (Hb k) as Hbk. rewrite (Hse k) in Hbk. unfold sends_as in Hbk. rewrite bool_decide_eq_false_2, Z.add_0_r in Hbk by (rewrite Esf; by intros [[? ?] _]). exact Hbk.
Qed.

(** ** A client gets the socket it answers from *)

Lemma senders_replace k cs c x x' : cs !! c = Some x -> senders k (<[c := x']> cs) = senders k cs - (if sends_as k x then 1 else 0) + (if sends_as k x' then 1 else 0).
Proof.
  intros Hc. rewrite (senders_delete k (<[c := x']> cs) c x') by apply lookup_insert_eq. rewrite (senders_delete k cs c x Hc), delete_insert_eq. lia.
Qed.

Lemma sender_set base X X' N cs ins bd F nx il c x i n fd :
  ok base X N cs ins bd F nx il -> cs !! c = Some x -> sender_fd x = None -> ins !! c_inst x = Some i -> do_tproxy (i_config i) = true ->
  match bd !! bound_udp4_mkkey (destaddr x) with Some (n0, fd0) => n = n0 /\ fd = fd0 /\ X' = X | None => n = 0 /\ X = fd :: X' end ->
  ok base X' N (<[c := set_sender_fd (Some fd) x]> cs) ins (<[bound_udp4_mkkey (destaddr x) := (n + 1, fd)]> bd) F nx il.
Proof.
  intros [Hf Hc Hm Hnd Hb Hs Hn Hls Hil] Ex Es Ei Ht Hk. set (k0 := bound_udp4_mkkey (destaddr x)) in *.
  assert (H0 : forall k, sends_as k x = false) by (intros k; apply bool_decide_eq_false_2; rewrite Es; by intros [[? ?] _]).
  assert (H1 : forall k, sends_as k (set_sender_fd (Some fd) x) = bool_decide (k0 = k)) by (intros k; apply bool_decide_ext; cbn; naive_solver). split.
  - eapply fds_are_perm; [|exact Hf]. apply Permutation_app_head. unfold owned. rewrite values_insert, (values_delete _ _ _ Ex). cbn [mbind list_bind]. change (client_fds (set_sender_fd (Some fd) x)) with (client_fds x).
    rewrite values_insert. destruct (bd !! k0) as [[n0 fd0]|] eqn:Ek; [destruct Hk as (-> & -> & ->); by rewrite (values_delete _ _ _ Ek)|]. destruct Hk as [-> ->]. rewrite (delete_id bd k0) by done.
    change (((0 + 1, fd) :: values bd).*2) with ([fd] ++ (values bd).*2). change (fd :: X') with ([fd] ++ X'). permute.
  - intros c' y. destruct (decide (c' = c)) as [->|Hne]; [rewrite lookup_insert_eq; intros [= <-]|rewrite lookup_insert_ne by done; apply Hc].
    destruct (Hc _ _ Ex) as (i' & Hi' & Hok & Hin). exists i'. split_and!; [done| |done]. assert (i' = i) as -> by congruence. destruct Hok as [? ? ? ? ?]. split; try done.
  - intros i' y c' Hi' Hin. destruct (Hm _ _ _ Hi' Hin) as (HN & z & Hz & Hzi). split; [done|]. destruct (decide (c' = c)) as [->|Hne]; [|exists z; by rewrite lookup_insert_ne]. eexists. rewrite lookup_insert_eq. split; [done|]. cbn. congruence.
  - done.
  - intros k. rewrite (senders_replace k cs c x) by done. rewrite H0, H1, Z.sub_0_r. specialize (Hb k). destruct (decide (k = k0)) as [->|Hne].
    + rewrite lookup_insert_eq, bool_decide_eq_true_2 by done. destruct (bd !! k0) as [[n0 fd0]|]; lia.
    + rewrite lookup_insert_ne, bool_decide_eq_false_2, Z.add_0_r by done. exact Hb.
  - intros c' y fd'. destruct (decide (c' = c)) as [->|Hne].
    + rewrite lookup_insert_eq. intros [= <-] [= <-]. cbn. fold k0. rewrite lookup_insert_eq. by eexists.
    + rewrite lookup_insert_ne by done. intros Hy Ey. destruct (Hs _ _ _ Hy Ey) as [r Hr]. destruct (decide (bound_udp4_mkkey (destaddr y) = k0)) as [E|E]; [|exists r; by rewrite lookup_insert_ne].
      rewrite E in *. rewrite lookup_insert_eq, Hr in *. destruct Hk as (-> & -> & ->). by eexists.
  - intros c'. destruct (decide (c' = c)) as [->|Hne]; [intros _; apply Hn; by eexists|rewrite lookup_insert_ne by done; apply Hn].
  - intros c' y j. destruct (decide (c' = c)) as [->|Hne]; [|rewrite lookup_insert_ne by done; apply Hls]. rewrite lookup_insert_eq. intros [= <-] Hj. eapply (Hls c x); [done|]. first [by rewrite <- Ei|exact Hj].
  - exact Hil.
Qed.

Lemma sender_ok base N c x i (k : option Z -> M unit) (Q : unit -> state -> Prop) s :
  good base [] N s -> clients s !! c = Some x -> sender_fd x = None -> instances s !! c_inst x = Some i -> do_tproxy (i_config i) = true ->
  (forall r s', good base [] N s' -> instances s' = instances s -> wp (k r) Q s') ->
  wp (r ← bound_udp4_get (destaddr x); mod_client c (set_sender_fd r);; k r) Q s.
Proof.
  intros [H Ha] Ex Es Ei Ht HQ. apply ru_bind. assert (Hnone : forall s', good base [] N s' -> clients s' = clients s -> instances s' = instances s -> wp (mod_client c (set_sender_fd None);; k None) Q s').
  { intros s' Hs' Ec E'. apply ru_bind. eapply ru_mod_client; [rewrite Ec; exact Ex|]. apply HQ; [|done]. eapply good_update; [exact Hs'|rewrite Ec; exact Ex|done|by rewrite Es|done|done|]. intros j _ Hok. destruct Hok, x; cbn in *; subst; by split. }
  unfold bound_udp4_get. apply ru_bind, ru_get. cbv zeta. destruct (bound_udp4 s !! bound_udp4_mkkey (destaddr x)) as [[ref fd]|] eqn:Ek.
  - pose proof (ok_bound _ _ _ _ _ _ _ _ _ H (bound_udp4_mkkey (destaddr x))) as Hb. rewrite Ek in Hb. apply ru_bind, ru_assert; [apply Z.ltb_lt; lia|]. apply ru_bind, ru_modify, ru_ret.
    apply ru_bind. eapply ru_mod_client; [exact Ex|]. apply HQ; [|done]. split; [|done]. cbn. eapply sender_set; [exact H|done|done|exact Ei|done|]. by rewrite Ek.
  - apply ru_bind, ru_ask. intros b l. destruct b; cbn [negb]; [|apply ru_ret; by apply Hnone]. apply ru_bind. eapply (ru_socket base [] N); [by split|intros l'; apply ru_ret; by apply Hnone|].
    intros fd l' F' Hg. cbv zeta. assert (Hfail : forall s', good base [fd] N s' -> clients s' = clients s -> instances s' = instances s -> wp (redsocks_close fd;; mret None) (fun r => wp (mod_client c (set_sender_fd r);; k r) Q) s').
    { intros s' Hs' Ec E'. apply ru_bind. eapply ru_close_local; [exact Hs'|]. intros F Hgood. apply ru_ret. by apply Hnone. }
    do 3 (apply ru_bind, ru_ask; intros [] ?; cbn [negb]; [|by apply Hfail]). apply ru_bind, ru_get. apply ru_bind, ru_modify, ru_ret. apply ru_bind. eapply ru_mod_client; [exact Ex|]. apply HQ; [|done]. split; [|done]. cbn.
    eapply (sender_set base [fd] [] N _ _ _ _ _ _ c x i 0 fd); [apply Hg|done|done|exact Ei|done|]. cbn. by rewrite Ek.
Qed.

(** ** The handlers *)

Definition keeps (base : list Z) {A} (m : M A) (s : state) : Prop := wp m (fun _ s' => good base [] [] s') s.

Lemma good_instance base X N s c x : good base X N s -> clients s !! c = Some x -> exists i, instances s !! c_inst x = Some i /\ client_ok (i_config i) x.
Proof. intros [H _] Ex. destruct (ok_client _ _ _ _ _ _ _ _ _ H _ _ Ex) as (i & ? & ? & _). by exists i. Qed.

Lemma drop_keeps base c x s : good base [] [] s -> clients s !! c = Some x -> keeps base (redudp_drop_client c) s.
Proof. intros H Ex. eapply drop_ok; [exact H|exact Ex|]. done. Qed.

Lemma bump_ok base X N c x (Q : unit -> state -> Prop) s :
  good base X N s -> clients s !! c = Some x -> Q tt (set_clients (<[c := set_timeout true x]> (clients s)) s) -> wp (redudp_bump_timeout c) Q s.
Proof.
  intros H Ex HQ. destruct (good_instance _ _ _ _ _ _ H Ex) as (i & Ei & _). unfold redudp_bump_timeout. apply ru_bind. eapply ru_config; [exact Ex|exact Ei|]. apply ru_bind, ru_event_add; [apply H|].
  eapply ru_mod_client; [exact Ex|exact HQ].
Qed.

Lemma forward_run c buf x i fd (Q : unit -> state -> Prop) s :
  clients s !! c = Some x -> instances s !! c_inst x = Some i -> udprelay x = Some fd ->
  (forall l t, Q tt (set_sent t (set_answers l (set_clients (<[c := add_tried buf x]> (clients s)) s)))) -> wp (redudp_forward_pkt c buf) Q s.
Proof.
  intros Ex Ei Eu HQ. unfold redudp_forward_pkt. apply ru_bind. eapply ru_client; [exact Ex|]. apply ru_bind. eapply ru_config; [exact Ex|exact Ei|]. apply ru_bind. eapply ru_deref; [exact Eu|].
  apply ru_bind. eapply ru_mod_client; [exact Ex|]. apply ru_send. exact HQ.
Qed.

Lemma enqueue_ok base X N c x buf (Q : bool -> state -> Prop) s :
  good base X N s -> clients s !! c = Some x -> udprelay x = None ->
  (forall b s' x', good base X N s' -> clients s' !! c = Some x' -> c_inst x' = c_inst x -> instances s' = instances s -> Q b s') -> wp (redudp_enqeue_pkt c buf) Q s.
Proof.
  intros H Ex Eu HQ. destruct (good_instance _ _ _ _ _ _ H Ex) as (i & Ei & Hok). unfold redudp_enqeue_pkt. apply ru_bind. eapply ru_client; [exact Ex|]. apply ru_bind. eapply ru_config; [exact Ex|exact Ei|].
  rewrite Z.geb_leb. destruct (Z.leb_spec (max_pktqueue (i_config i)) (queue_len x)) as [Hm|Hm]; [apply ru_ret; by eapply HQ|]. apply ru_bind, ru_ask. intros [] l; cbn [negb]; [|apply ru_ret; by eapply HQ].
  apply ru_bind. eapply ru_mod_client; [exact Ex|]. apply ru_ret. eapply HQ; [|apply lookup_insert_eq|done|done]. eapply good_update; [exact H|exact Ex|done..|].
  intros i' Ei' Hok'. cbn in Ei'. assert (i' = i) as -> by congruence. destruct Hok' as [Hl Hmx Hid Hor Htp]. split; cbn.
  - rewrite Hl. unfold zlen. rewrite length_app. cbn. lia.
  - rewrite Hl in Hm. unfold zlen in *. rewrite length_app. cbn. lia.
  - rewrite Eu. by intros [].
  - by rewrite Hor, <- app_assoc.
  - done.
Qed.

(** The queue is sent in its order. *)
Definition flushed (q : list bytes) (x : redudp_client) : redudp_client :=
  mk_uclient (c_inst x) (clientaddr x) (destaddr x) (sender_fd x) (timeout x) (c_relay x) (udprelay x) (udprelayaddr x) (queue_len x) (drop (length q) (queue x)) (h_taken x) (h_tried x ++ q).

Lemma clients_again m f f' l t l' t' s : set_sent t' (set_answers l' (set_clients m (set_clients f (set_sent t (set_answers l (set_clients f' s)))))) = set_sent t' (set_answers l' (set_clients m s)).
Proof. done. Qed.
Lemma clients_kept l t m s : clients (set_sent t (set_answers l (set_clients m s))) = m.
Proof. done. Qed.
Lemma clients_set m s : clients (set_clients m s) = m.
Proof. done. Qed.

Lemma flush_run c q : forall x i fd (Q : unit -> state -> Prop) s,
  clients s !! c = Some x -> instances s !! c_inst x = Some i -> udprelay x = Some fd ->
  (forall l t, Q tt (set_sent t (set_answers l (set_clients (<[c := flushed q x]> (clients s)) s)))) -> wp (flush c q) Q s.
Proof.
  induction q as [|p q IH]; intros x i fd Q s Ex Ei Eu HQ; cbn [flush].
  - apply ru_ret. specialize (HQ (answers s) (sent s)). assert (Ef : flushed [] x = x) by (destruct x; unfold flushed; cbn; by rewrite app_nil_r). rewrite Ef, (insert_id (clients s)) in HQ by done. by destruct s.
  - apply ru_bind. eapply forward_run; [exact Ex|exact Ei|exact Eu|]. intros l t. apply ru_bind. eapply ru_mod_client; [apply lookup_insert_eq|]. eapply IH; [apply lookup_insert_eq|exact Ei|exact Eu|].
    intros l' t'. specialize (HQ l' t'). assert (E : flushed q (set_queue (queue_len (add_tried p x)) (tail (queue (add_tried p x))) (add_tried p x)) = flushed (p :: q) x).
    { unfold flushed, set_queue, add_tried. cbn. rewrite <- app_assoc. f_equal. destruct (queue x); cbn; [apply drop_nil|done]. }
    rewrite clients_again, clients_set, clients_kept, !insert_insert_eq, E. exact HQ.
Qed.

Lemma flush_queue_ok base c x i fd s :
  clients s !! c = Some x -> instances s !! c_inst x = Some i -> udprelay x = Some fd ->
  (forall s' x', clients s' = <[c := x']> (clients s) -> x' = set_queue 0 [] (flushed (queue x) x) -> instances s' = instances s -> bound_udp4 s' = bound_udp4 s -> fds s' = fds s -> next_client s' = next_client s -> adds s' = adds s -> inst_list s' = inst_list s -> good base [] [] s') ->
  keeps base (redudp_flush_queue c) s.
Proof.
  intros Ex Ei Eu HQ. unfold redudp_flush_queue. apply ru_bind. eapply ru_client; [exact Ex|]. apply ru_bind. eapply flush_run; [exact Ex|exact Ei|exact Eu|]. intros l t. apply ru_bind.
  eapply ru_mod_client; [apply lookup_insert_eq|]. apply ru_bind. eapply ru_client; [apply lookup_insert_eq|]. apply ru_assert; [apply bool_decide_eq_true; cbn; apply drop_all|].
  eapply HQ; [cbn; by rewrite insert_insert_eq| |done..]. unfold flushed, set_queue. cbn. by rewrite drop_all.
Qed.

Lemma good_same base X N s s' :
  good base X N s -> clients s' = clients s -> instances s' = instances s -> bound_udp4 s' = bound_udp4 s -> fds s' = fds s -> next_client s' = next_client s -> adds s' = adds s -> inst_list s' = inst_list s -> good base X N s'.
Proof. unfold good. by intros H -> -> -> -> -> -> ->. Qed.

(** A change of the connection to the proxy that keeps its descriptor. *)
Lemma relay_update base X N s c x b b' :
  good base X N s -> clients s !! c = Some x -> c_relay x = Some b -> b_fd b' = b_fd b -> good base X N (set_clients (<[c := set_relay (Some b') x]> (clients s)) s).
Proof.
  intros H Ex Eb Ef. eapply good_update; [exact H|exact Ex|done|done|done| |]; [unfold client_fds; cbn; by rewrite Eb, Ef|]. intros i _ [? ? ? ? ?]. by split.
Qed.

Lemma ru_remove base X N c x b n (Q : bytes -> state -> Prop) s :
  good base X N s -> clients s !! c = Some x -> c_relay x = Some b ->
  (forall s' b', good base X N s' -> clients s' !! c = Some (set_relay (Some b') x) -> instances s' = instances s -> Q (take (Z.to_nat n) (b_input b)) s') -> wp (evbuffer_remove c n) Q s.
Proof.
  intros H Ex Eb HQ. unfold evbuffer_remove. apply ru_bind. eapply ru_client; [exact Ex|]. apply ru_bind. eapply ru_deref; [exact Eb|]. apply ru_bind. eapply ru_mod_client; [exact Ex|]. apply ru_ret.
  eapply HQ; [|apply lookup_insert_eq|done]. by eapply relay_update.
Qed.

Lemma ru_write_helper base X N c x b msg wm (Q : bool -> state -> Prop) s :
  good base X N s -> clients s !! c = Some x -> c_relay x = Some b ->
  (forall e s' x' b', good base X N s' -> clients s' !! c = Some x' -> c_relay x' = Some b' -> Q e s') -> wp (write_helper c msg wm) Q s.
Proof.
  intros H Ex Eb HQ. unfold write_helper. do 2 (apply ru_bind, ru_ask; intros [] ?; cbn [negb]; [|apply ru_ret; by eapply HQ]). apply ru_bind. eapply ru_client; [exact Ex|]. apply ru_bind. eapply ru_deref; [exact Eb|].
  apply ru_bind. eapply ru_mod_client; [exact Ex|]. apply ru_ret. eapply HQ; [|apply lookup_insert_eq|done]. by eapply (relay_update _ _ _ (set_answers l0 (set_answers l s))).
Qed.

Lemma readcb_keeps base c x b r s : good base [] [] s -> clients s !! c = Some x -> c_relay x = Some b -> keeps base (set_readcb c r) s.
Proof.
  intros H Ex Eb. unfold keeps, set_readcb. apply ru_bind. eapply ru_client; [exact Ex|]. apply ru_bind. eapply ru_deref; [exact Eb|]. eapply ru_mod_client; [exact Ex|]. by eapply relay_update.
Qed.

Lemma associate_keeps base c x b s : good base [] [] s -> clients s !! c = Some x -> c_relay x = Some b -> keeps base (associate c) s.
Proof.
  intros H Ex Eb. unfold keeps, associate. apply ru_bind. eapply ru_write_helper; [exact H|exact Ex|exact Eb|]. intros [] s' x' b' H' Ex' Eb'; [by eapply drop_keeps|by eapply readcb_keeps].
Qed.

Lemma auth_reply_keeps base c x b s : good base [] [] s -> clients s !! c = Some x -> c_relay x = Some b -> keeps base (redudp_read_auth_reply c) s.
Proof.
  intros H Ex Eb. unfold keeps, redudp_read_auth_reply. apply ru_bind. eapply ru_remove; [exact H|exact Ex|exact Eb|]. intros s' b' H' Ex' _. cbv zeta. destruct (negb _); [by eapply drop_keeps|]. destruct (_ || _); [by eapply drop_keeps|]. by eapply associate_keeps.
Qed.

Lemma auth_methods_keeps base c x b s : good base [] [] s -> clients s !! c = Some x -> c_relay x = Some b -> keeps base (redudp_read_auth_methods c) s.
Proof.
  intros H Ex Eb. destruct (good_instance _ _ _ _ _ _ H Ex) as (i & Ei & _). unfold keeps, redudp_read_auth_methods. apply ru_bind. eapply ru_config; [exact Ex|exact Ei|]. apply ru_bind.
  eapply ru_remove; [exact H|exact Ex|exact Eb|]. intros s' b' H' Ex' _. cbv zeta. set (reply := take _ _). destruct (negb (zlen reply =? _)); [by eapply drop_keeps|].
  destruct (Socks5.socks5_is_known_auth_method _ _ _) eqn:Ek; cbn [negb]; [|by eapply drop_keeps]. destruct (Z.eqb_spec (byte 1 reply) Socks5.socks5_auth_none) as [E0|E0]; [by eapply associate_keeps|].
  destruct (Z.eqb_spec (byte 1 reply) Socks5.socks5_auth_password) as [E2|E2]; [|by apply ru_ret].
  assert (Hp : do_password (i_config i) <> 0).
  { intros E. rewrite E in Ek. unfold Socks5.socks5_is_known_auth_method in Ek. rewrite E2 in Ek. destruct (negb (_ =? Socks5.socks5_ver)); done. }
  unfold do_password, Socks5.socks5_is_valid_cred in Hp. destruct (u_login (i_config i)) as [l|], (u_password (i_config i)) as [p|]; try done. apply ru_bind. eapply ru_deref; [done|]. apply ru_bind. eapply ru_deref; [done|].
  apply ru_bind. eapply ru_write_helper; [exact H'|exact Ex'|done|]. intros [] s'' x'' b'' H'' Ex'' Eb''; [by eapply drop_keeps|by eapply readcb_keeps].
Qed.

Lemma connected_keeps base c x b s : good base [] [] s -> clients s !! c = Some x -> c_relay x = Some b -> keeps base (redudp_relay_connected c) s.
Proof.
  intros H Ex Eb. destruct (good_instance _ _ _ _ _ _ H Ex) as (i & Ei & _). unfold keeps, redudp_relay_connected. apply ru_bind. eapply ru_config; [exact Ex|exact Ei|]. cbv zeta. apply ru_bind, ru_ask. intros [] l; cbn [negb]; [|by eapply drop_keeps].
  apply ru_bind. eapply ru_write_helper; [exact H|exact Ex|exact Eb|]. intros [] s' x' b' H' Ex' Eb'; [by eapply drop_keeps|by eapply readcb_keeps].
Qed.

Lemma assoc_reply_keeps base c x b s : good base [] [] s -> clients s !! c = Some x -> c_relay x = Some b -> udprelay x = None -> keeps base (redudp_read_assoc_reply c) s.
Proof.
  intros H Ex Eb Eu. unfold keeps, redudp_read_assoc_reply. apply ru_bind. eapply ru_remove; [exact H|exact Ex|exact Eb|]. intros s' b' H' Ex' _. cbv zeta. set (reply := take _ _).
  do 4 (match goal with |- wp (if negb ?e then _ else _) _ _ => destruct e end; cbn [negb]; [|by eapply drop_keeps]). apply ru_bind. eapply ru_mod_client; [exact Ex'|].
  match goal with |- wp _ _ (set_clients (<[c := ?y]> _) _) => set (x1 := y) end. set (s1 := set_clients _ s').
  assert (H1 : good base [] [] s1) by (eapply good_update; [exact H'|exact Ex'|done..|]; intros i _ [? ? ? ? ?]; by split). assert (Ex1 : clients s1 !! c = Some x1) by apply lookup_insert_eq.
  clearbody s1. apply ru_bind. eapply ru_socket; [exact H1|intros l; by eapply drop_keeps|]. intros fd l F H2. apply ru_bind, ru_ask.
  intros [] l'; cbn [negb]; [|apply ru_bind; eapply ru_close_local; [exact H2|]; intros F' H3; by eapply drop_keeps].
  destruct (good_instance _ _ _ _ _ _ H2 Ex1) as (i & Ei & Hok). apply ru_bind. eapply ru_mod_client; [exact Ex1|]. apply ru_bind, ru_event_add; [apply H2|]. cbn [negb].
  eapply flush_queue_ok; [apply lookup_insert_eq|exact Ei|done|]. intros s4 x4 Ec Ex4 Ei4 Eb4 Ef4 En4 Ea4 El4.
  eapply good_same; [eapply (good_update base [fd] [] [] (set_answers l' (set_fds F (set_answers l s1))) c x1 x4); [exact H2|exact Ex1|by subst x4|by subst x4|by subst x4| |]| |done..].
  - subst x4. unfold client_fds. cbn. rewrite Eu. apply perm_swap.
  - intros i' _ [Hl Hmx Hid Hor Htp]. subst x4. split; cbn; try done; [unfold zlen; cbn; lia|]. rewrite app_nil_r. exact Hor.
  - rewrite Ec. cbn. by rewrite insert_insert_eq.
Qed.

(** ** New clients *)

Lemma good_new base s self i from dest zero :
  good base [] [] s -> instances s !! self = Some i -> is_Some (i_listener i) ->
  good base [] [next_client s] (set_next (S (next_client s)) (set_clients (<[next_client s := mk_uclient self from dest None false None None zero 0 [] [] []]> (clients s)) s)).
Proof.
  intros [[Hf Hc Hm Hnd Hb Hs Hn Hls Hil] Ha] Ei Hli. set (c := next_client s) in *. set (x := mk_uclient _ _ _ _ _ _ _ _ _ _ _ _).
  assert (Ec : clients s !! c = None) by (apply eq_None_not_Some; intros Hsome; apply Hn in Hsome; lia).
  split; [|done]. cbn. split; cbn.
  - eapply fds_are_perm; [|exact Hf]. unfold owned. rewrite values_insert, delete_id by done. done.
  - intros c' y. destruct (decide (c' = c)) as [->|Hne].
    + rewrite lookup_insert_eq. intros [= <-]. exists i. split_and!; [done| |left; by apply list_elem_of_singleton]. split; cbn; try done; [unfold zlen; cbn; lia].
    + rewrite lookup_insert_ne by done. intros Hy. destruct (Hc _ _ Hy) as (j & Hj & Hok & [[]%not_elem_of_nil|Hin]). exists j. split_and!; [done|done|by right].
  - intros j z c' Hj Hin. destruct (Hm _ _ _ Hj Hin) as (_ & y & Hy & Eyi). assert (Hne : c' <> c) by (intros ->; congruence).
    split; [by rewrite list_elem_of_singleton|]. exists y. by rewrite lookup_insert_ne.
  - apply Hnd.
  - intros k. rewrite senders_insert by done. assert (E : sends_as k x = false) by (apply bool_decide_eq_false_2; by intros [[? [=]] _]). rewrite E, Z.add_0_r. apply Hb.
  - intros c' y fd. destruct (decide (c' = c)) as [->|Hne]; [rewrite lookup_insert_eq; by intros [= <-]|rewrite lookup_insert_ne by done; apply Hs].
  - intros c'. destruct (decide (c' = c)) as [->|Hne]; [lia|rewrite lookup_insert_ne by done]. intros Hsome. apply Hn in Hsome. lia.
  - intros c' y j. destruct (decide (c' = c)) as [->|Hne]; [|rewrite lookup_insert_ne by done; apply Hls]. rewrite lookup_insert_eq. intros [= <-] Hj. cbn in Hj. congruence.
  - exact Hil.
Qed.

Definition enlist (c : nat) (i : redudp_instance) : redudp_instance := mk_uinst (i_config i) (i_listener i) (c :: i_clients i).

Lemma good_enlist base s c x i :
  good base [] [c] s -> clients s !! c = Some x -> instances s !! c_inst x = Some i -> good base [] [] (set_instances (<[c_inst x := enlist c i]> (instances s)) s).
Proof.
  intros [[Hf Hc Hm Hnd Hb Hs Hn Hls Hil] Ha] Ex Ei. split; [|done]. cbn. split; cbn; try done.
  - eapply fds_are_perm; [|exact Hf]. unfold owned. by rewrite (listeners_update _ (c_inst x) i (enlist c i)).
  - intros c' y Hy. destruct (Hc _ _ Hy) as (j & Hj & Hok & Hin). destruct (decide (c_inst y = c_inst x)) as [E|E].
    + rewrite E in *. assert (j = i) as -> by congruence. exists (enlist c i). rewrite lookup_insert_eq. split_and!; [done|done|]. right. cbn. destruct Hin as [->%list_elem_of_singleton|Hin]; [left|by right].
    + exists j. rewrite lookup_insert_ne by done. split_and!; [done|done|]. right. destruct Hin as [->%list_elem_of_singleton|Hin]; [congruence|done].
  - intros j z c' Hj Hin. split; [apply not_elem_of_nil|]. destruct (decide (j = c_inst x)) as [->|Hne].
    + rewrite lookup_insert_eq in Hj. injection Hj as <-. cbn in Hin. apply elem_of_cons in Hin as [->|Hin]; [by exists x|]. by destruct (Hm _ _ _ Ei Hin) as (_ & ?).
    + rewrite lookup_insert_ne in Hj by done. by destruct (Hm _ _ _ Hj Hin) as (_ & ?).
  - intros j z. destruct (decide (j = c_inst x)) as [->|Hne]; [|rewrite lookup_insert_ne by done; apply Hnd]. rewrite lookup_insert_eq. intros [= <-]. cbn. apply NoDup_cons. split; [|by eapply Hnd].
    intros Hin. destruct (Hm _ _ _ Ei Hin) as [HN _]. apply HN. by apply list_elem_of_singleton.
  - intros c' y j Hy. destruct (decide (c_inst y = c_inst x)) as [E|E]; [|rewrite lookup_insert_ne by done; by apply (Hls c')]. rewrite E, lookup_insert_eq. intros [= <-]. by apply (Hls c x i).
  - by eapply listed_update.
Qed.

Lemma ru_connect base N (Q : option bufferevent -> state -> Prop) s :
  good base [] N s -> (forall s', good base [] N s' -> clients s' = clients s -> instances s' = instances s -> Q None s') ->
  (forall fd s', good base [fd] N s' -> clients s' = clients s -> instances s' = instances s -> Q (Some (mk_bev fd None 0 [] [])) s') -> wp red_connect_relay Q s.
Proof.
  intros H H0 H1. unfold red_connect_relay. apply ru_bind. eapply ru_socket; [exact H|intros l; apply ru_ret; by apply H0|]. intros fd l F Hg. cbv zeta.
  assert (Hfail : forall s', good base [fd] N s' -> clients s' = clients s -> instances s' = instances s -> wp (redsocks_close fd;; mret None) Q s').
  { intros s' Hs' Ec Ei. apply ru_bind. eapply ru_close_local; [exact Hs'|]. intros F' HF'. apply ru_ret. by apply H0. }
  do 5 (apply ru_bind, ru_ask; intros [] ?; cbn [negb]; [|by apply Hfail]). apply ru_ret. by apply H1.
Qed.

Lemma drop_new base c x s : good base [] [c] s -> clients s !! c = Some x -> keeps base (redudp_drop_client c) s.
Proof.
  intros H Ex. eapply drop_ok; [exact H|exact Ex|]. intros s' y Hg _ _ _ _. rewrite filter_cons, decide_False in Hg by (by intros []). exact Hg.
Qed.

Lemma first_pkt_keeps base self i from dest buf s : good base [] [] s -> instances s !! self = Some i -> is_Some (i_listener i) -> keeps base (redudp_first_pkt_from_client self from dest buf) s.
Proof.
  intros H Ei Hli. unfold keeps, redudp_first_pkt_from_client. apply ru_bind, ru_ask. intros [] l; cbn [negb]; [|by apply ru_ret]. apply ru_bind, ru_get. cbv zeta. apply ru_bind, ru_modify.
  cbn [next_client set_answers]. set (c := next_client s). set (x := mk_uclient _ _ _ _ _ _ _ _ _ _ _ _). set (s1 := set_next _ _).
  assert (H1 : good base [] [c] s1) by (by apply (good_new base (set_answers l s) self i)). assert (E1 : clients s1 !! c = Some x) by apply lookup_insert_eq. assert (I1 : instances s1 = instances s) by done.
  clearbody s1. apply ru_bind. eapply ru_connect; [exact H1| |].
  - intros s2 H2 C2 I2. rewrite <- C2 in E1. apply ru_bind. eapply ru_mod_client; [exact E1|]. eapply drop_new; [|apply lookup_insert_eq]. eapply good_update; [exact H2|exact E1|done..|]. by intros ? _ [].
  - intros fd s2 H2 C2 I2. rewrite <- C2 in E1. apply ru_bind. eapply ru_mod_client; [exact E1|]. set (x3 := set_relay _ x). set (s3 := set_clients _ s2).
    assert (H3 : good base [] [c] s3) by (subst s3; eapply good_update; [exact H2|exact E1|done..|by intros ? _ []]). assert (E3 : clients s3 !! c = Some x3) by apply lookup_insert_eq. assert (I3 : instances s3 = instances s) by (subst s3; cbn; congruence).
    clearbody s3. apply ru_bind, ru_ask. intros [] l'; cbn [negb]; [|by eapply drop_new]. apply ru_bind. eapply bump_ok; [exact H3|exact E3|]. set (s4 := set_clients _ _).
    assert (H4 : good base [] [c] s4) by (eapply good_update; [exact H3|exact E3|done..|by intros ? _ []]). apply ru_bind. eapply enqueue_ok; [exact H4|apply lookup_insert_eq|done|].
    intros [] s5 x5 H5 E5 Ex5 I5; cbn [negb]; [|by eapply drop_new]. cbn in Ex5, I5. eapply ru_mod_inst; [by rewrite I5, I3|]. rewrite <- Ex5. eapply good_enlist; [exact H5|exact E5|]. by rewrite Ex5, I5, I3.
Qed.

(** ** Packets *)

Lemma bumped base X N c x s : good base X N s -> clients s !! c = Some x -> good base X N (set_clients (<[c := set_timeout true x]> (clients s)) s).
Proof. intros H Ex. eapply good_update; [exact H|exact Ex|done..|]. by intros ? _ []. Qed.

Lemma send_keeps base fd addr data s : good base [] [] s -> keeps base (send fd addr data) s.
Proof. intros H. apply ru_send. intros l t. by apply (good_same _ _ _ s). Qed.

Lemma pkt_from_socks_keeps base c x from pkt rest s :
  good base [] [] s -> clients s !! c = Some x -> sizeof_preamble <= zlen pkt -> keeps base (redudp_pkt_from_socks c from pkt rest) s.
Proof.
  intros H Ex Hlen. destruct (good_instance _ _ _ _ _ _ H Ex) as (i & Ei & _). unfold keeps, redudp_pkt_from_socks. apply ru_bind. eapply ru_client; [exact Ex|]. apply ru_bind. eapply ru_config; [exact Ex|exact Ei|]. cbv zeta.
  do 4 (match goal with |- wp (if ?e then _ else _) _ _ => destruct e end; [by apply ru_ret|]). apply ru_bind. eapply bump_ok; [exact H|exact Ex|]. pose proof (bumped _ _ _ _ _ _ H Ex) as H1. set (s1 := set_clients _ s) in *.
  assert (E1 : clients s1 !! c = Some (set_timeout true x)) by apply lookup_insert_eq. assert (I1 : instances s1 = instances s) by done. clearbody s1. apply ru_bind. eapply ru_client; [exact E1|].
  assert (Hfwd : forall s' fd addr, good base [] [] s' -> keeps base (assert (sizeof_preamble <=? zlen pkt);; send fd addr (drop (Z.to_nat sizeof_preamble) pkt)) s').
  { intros s' fd addr Hs'. apply ru_bind, ru_assert; [by apply Z.leb_le|]. by apply send_keeps. }
  destruct (do_tproxy (i_config i)) eqn:Et.
  - cbn [sender_fd set_timeout]. destruct (sender_fd x) as [fd|] eqn:Es; [by apply Hfwd|].
    eapply sender_ok with (k := fun r => match r with Some fd => _ | None => _ end); [exact H1|exact E1|done|by rewrite I1|done|]. intros [fd|] s' Hs' _; [by apply Hfwd|by apply ru_ret].
  - destruct (ok_listen _ _ _ _ _ _ _ _ _ (proj1 H) _ _ _ Ex Ei) as [fd Efd]. apply ru_bind. eapply ru_inst; [cbn; by rewrite I1|]. apply ru_bind. eapply ru_deref; [exact Efd|]. by apply Hfwd.
Qed.

Lemma ru_find from (Q : option nat -> state -> Prop) s l :
  (forall c, c ∈ l -> is_Some (clients s !! c)) -> Q None s -> (forall c x, c ∈ l -> clients s !! c = Some x -> clientaddr x = from -> Q (Some c) s) -> wp (find_client from l) Q s.
Proof.
  induction l as [|c l IH]; intros Hl H0 H1; cbn [find_client]; [by apply ru_ret|]. destruct (Hl c) as [x Ex]; [left|]. apply ru_bind. eapply ru_client; [exact Ex|]. case_bool_decide as E.
  - apply ru_ret. eapply H1; [left|done|done].
  - apply IH; [intros c' Hc'; apply Hl; by right|done|]. intros c' x' Hin. apply H1. by right.
Qed.

Lemma pkt_from_client_keeps base self i from dest pkt s : good base [] [] s -> instances s !! self = Some i -> is_Some (i_listener i) -> keeps base (redudp_pkt_from_client self from dest pkt) s.
Proof.
  intros H Ei Hli. unfold keeps, redudp_pkt_from_client. apply ru_bind. eapply ru_inst; [exact Ei|]. apply ru_bind, ru_find.
  - intros c Hin. destruct (ok_member _ _ _ _ _ _ _ _ _ (proj1 H) _ _ _ Ei Hin) as (_ & x & Ex & _). by exists x.
  - by eapply first_pkt_keeps.
  - intros c x Hin Ex _. apply ru_bind. eapply bump_ok; [exact H|exact Ex|]. pose proof (bumped _ _ _ _ _ _ H Ex) as H1. set (s1 := set_clients _ s) in *. set (x1 := set_timeout true x) in *.
    assert (E1 : clients s1 !! c = Some x1) by apply lookup_insert_eq. clearbody s1. destruct (good_instance _ _ _ _ _ _ H1 E1) as (j & Ej & Hok). apply ru_bind. eapply ru_client; [exact E1|]. destruct (udprelay x1) as [fd|] eqn:Eu.
    + apply ru_bind. eapply ru_mod_client; [exact E1|]. eapply forward_run; [apply lookup_insert_eq|exact Ej|exact Eu|]. intros l t. rewrite clients_set, insert_insert_eq.
      eapply good_same; [eapply (good_update base [] [] [] s1 c x1 (add_tried pkt (add_taken pkt x1))); [exact H1|exact E1|done..|]|done..].
      intros j' _ [Hl Hm Hid Hor Htp]. assert (Hq : queue x1 = []) by (apply Hid; by rewrite Eu). split; cbn in *; try done. rewrite Hor, Hq, !app_nil_r. done.
    + apply ru_bind. eapply enqueue_ok; [exact H1|exact E1|exact Eu|]. intros b s2 x2 H2 _ _ _. by apply ru_ret.
Qed.

Lemma relay_input_keeps base c x b data s :
  good base [] [] s -> clients s !! c = Some x -> c_relay x = Some b -> udprelay x = None -> keeps base (relay_input c data) s.
Proof.
  intros H Ex Eb Eu. unfold keeps, relay_input. apply ru_bind. eapply ru_client; [exact Ex|]. apply ru_bind. eapply ru_deref; [exact Eb|]. apply ru_bind. eapply ru_mod_client; [exact Ex|]. set (b1 := mk_bev _ _ _ _ _).
  assert (H1 : good base [] [] (set_clients (<[c := set_relay (Some b1) x]> (clients s)) s)) by (by eapply relay_update). set (s1 := set_clients _ s) in *.
  assert (E1 : clients s1 !! c = Some (set_relay (Some b1) x)) by apply lookup_insert_eq. clearbody s1. destruct (_ <? _); [by apply ru_ret|].
  destruct (readcb b) as [[]|]; [by eapply auth_methods_keeps|by eapply auth_reply_keeps|by eapply assoc_reply_keeps|by apply ru_ret].
Qed.

(** ** Runs *)

(** What the theorems assume of an event: a packet from the proxy has at least a header, and
    nothing comes on the connection to the proxy after the association was accepted. *)
Definition proper (e : event) (s : state) : bool :=
  match e with
  | ev_socks _ _ pkt _ => sizeof_preamble <=? zlen pkt
  | ev_input c _ => bool_decide ((clients s !! c) ≫= udprelay = None)
  | _ => true
  end.

Lemma step_keeps base e s : good base [] [] s -> enabled e s = true -> proper e s = true -> keeps base (step e) s.
Proof.
  intros H He Hp. assert (Hrel : forall c b, relay_of c s = Some b -> exists x, clients s !! c = Some x /\ c_relay x = Some b).
  { intros c b E. unfold relay_of in E. destruct (clients s !! c) as [x|]; [|done]. by exists x. }
  destruct e as [i from dest pkt|c|c data|c|c from pkt rest|c]; cbn in He, Hp |- *.
  - destruct (instances s !! i) as [y|] eqn:Ei; [|done]. apply bool_decide_eq_true in He. by eapply pkt_from_client_keeps.
  - destruct (relay_of c s) as [b|] eqn:Er; [|done]. destruct (Hrel _ _ Er) as (x & Ex & Eb). by eapply connected_keeps.
  - destruct (relay_of c s) as [b|] eqn:Er; [|done]. destruct (Hrel _ _ Er) as (x & Ex & Eb). apply bool_decide_eq_true in Hp. rewrite Ex in Hp. by eapply relay_input_keeps.
  - apply bool_decide_eq_true in He as [b Er]. destruct (Hrel _ _ Er) as (x & Ex & Eb). by eapply drop_keeps.
  - destruct (clients s !! c) as [x|] eqn:Ex; [|done]. eapply pkt_from_socks_keeps; [done|done|lia].
  - destruct (clients s !! c) as [x|] eqn:Ex; [|done]. by eapply drop_keeps.
Qed.

(** ** The end *)

Definition cleared (i : redudp_instance) : redudp_instance := mk_uinst (i_config i) (i_listener i) [].

Lemma drop_each_ok base X l : forall i y (Q : unit -> state -> Prop) s,
  good base X [] s -> instances s !! i = Some y -> i_clients y = l ->
  (forall s', good base X [] s' -> instances s' = <[i := cleared y]> (instances s) -> inst_list s' = inst_list s -> Q tt s') -> wp (drop_each l) Q s.
Proof.
  induction l as [|c l IH]; intros i y Q s H Ei El HQ; cbn [drop_each].
  - apply ru_ret. apply HQ; [done| |done]. rewrite insert_id; [done|]. rewrite Ei. f_equal. destruct y; cbn in *; by subst.
  - assert (Hin : c ∈ i_clients y) by (rewrite El; left). destruct (ok_member _ _ _ _ _ _ _ _ _ (proj1 H) _ _ _ Ei Hin) as (_ & x & Ex & Exi).
    pose proof (ok_nodup _ _ _ _ _ _ _ _ _ (proj1 H) _ _ Ei) as Hnd. rewrite El in Hnd. apply NoDup_cons in Hnd as [Hc Hnd].
    assert (Hw : i_clients (without c y) = l).
    { cbn. rewrite El. by apply filter_first. }
    apply ru_bind. eapply drop_ok; [exact H|exact Ex|]. intros s' y' H' _ Ey' Ei' Eil'. rewrite Exi in *. assert (y' = y) as -> by congruence.
    eapply (IH i (without c y)); [exact H'|by rewrite Ei', lookup_insert_eq|done|]. intros s'' H'' Ei'' Eil''. apply HQ; [done| |congruence]. by rewrite Ei'', Ei', insert_insert_eq.
Qed.

(** An instance without clients goes; its descriptor is the one that was closed. *)
Lemma good_remove base X s i y F :
  good base X [] s -> instances s !! i = Some y -> i_clients y = [] -> fds_are F (base ++ X ++ owned (clients s) (delete i (instances s)) (bound_udp4 s)) ->
  good base X [] (set_inst_list (filter (fun j => j <> i) (inst_list s)) (set_instances (delete i (instances s)) (set_fds F s))).
Proof.
  intros [[Hf Hc Hm Hnd Hb Hs Hn Hls Hil] Ha] Ei Ec HF. split; [|done]. assert (Hout : forall c x, clients s !! c = Some x -> c_inst x <> i).
  { intros c x Ex E. destruct (Hc _ _ Ex) as (j & Hj & _ & [[]%not_elem_of_nil|Hin]). assert (j = y) as -> by congruence. rewrite Ec in Hin. by apply not_elem_of_nil in Hin. }
  cbn. split; try done.
  - intros c x Ex. destruct (Hc _ _ Ex) as (j & Hj & Hok & Hin). exists j. rewrite lookup_delete_ne by (apply not_eq_sym; by eapply Hout). done.
  - intros j z c [Hne Hj]%lookup_delete_Some. by apply Hm.
  - intros j z [Hne Hj]%lookup_delete_Some. by eapply Hnd.
  - intros c x j Ex [Hne Hj]%lookup_delete_Some. by apply (Hls c x j).
  - destruct Hil as [Hni Hil]. split; [by apply NoDup_filter|]. intros j. rewrite list_elem_of_filter, Hil, lookup_delete_is_Some. naive_solver.
Qed.

Lemma fini_instance_ok base X i y (Q : unit -> state -> Prop) s :
  good base X [] s -> instances s !! i = Some y ->
  (forall s', good base X [] s' -> instances s' = delete i (instances s) -> inst_list s' = filter (fun j => j <> i) (inst_list s) -> Q tt s') -> wp (redudp_fini_instance i) Q s.
Proof.
  intros H Ei HQ. unfold redudp_fini_instance. apply ru_bind. eapply ru_inst; [exact Ei|]. apply ru_bind. eapply drop_each_ok; [exact H|exact Ei|done|]. intros s1 H1 I1 L1. apply ru_bind.
  assert (E1 : instances s1 !! i = Some (cleared y)) by (by rewrite I1, lookup_insert_eq). pose proof (ok_fds _ _ _ _ _ _ _ _ _ (proj1 H1)) as Hf.
  eapply (ru_close_opt (base ++ X ++ owned (clients s1) (delete i (instances s1)) (bound_udp4 s1))).
  - eapply fds_are_perm; [|exact Hf]. unfold owned. rewrite (values_delete (instances s1) i _ E1). cbn. destruct (i_listener y) as [fd|]; cbn; [|done]. change (fd :: ?l) with ([fd] ++ l). permute.
  - intros F HF. apply ru_modify. apply HQ; [exact (good_remove base X s1 i (cleared y) F H1 E1 eq_refl HF)|cbn; rewrite I1; apply delete_insert_eq|cbn; by rewrite L1].
Qed.

Lemma fini_all_ok base l : forall s, good base [] [] s -> inst_list s = l -> wp (fini_all l) (fun _ s' => good base [] [] s' /\ inst_list s' = []) s.
Proof.
  induction l as [|i l IH]; intros s H El; cbn [fini_all]; [by apply ru_ret|]. destruct (ok_listed _ _ _ _ _ _ _ _ _ (proj1 H)) as [Hnd Hil]. rewrite El in Hnd, Hil. apply NoDup_cons in Hnd as [Hi Hnd].
  destruct (proj1 (Hil i)) as [y Ey]; [left|]. apply ru_bind. eapply fini_instance_ok; [exact H|exact Ey|]. intros s' H' _ El'. apply IH; [done|].
  rewrite El', El. by apply filter_first.
Qed.

Lemma fini_ok base s : good base [] [] s -> wp redudp_fini (fun _ s' => fds_are (fds s') base /\ clients s' = ∅ /\ instances s' = ∅ /\ bound_udp4 s' = ∅) s.
Proof.
  intros H. unfold redudp_fini. apply ru_bind, ru_get. eapply ru_mono; [by apply fini_all_ok|]. intros _ s' [[[Hf Hc Hm Hnd Hb Hs Hn Hls Hil] Ha] El]. rewrite El in Hil. destruct Hil as [_ Hil].
  assert (Ei : instances s' = ∅). { apply map_eq. intros i. rewrite lookup_empty. apply eq_None_not_Some. rewrite <- Hil. apply not_elem_of_nil. }
  assert (Ec : clients s' = ∅). { apply map_eq. intros c. rewrite lookup_empty. apply eq_None_not_Some. intros [x Ex]. destruct (Hc _ _ Ex) as (j & Hj & _). by rewrite Ei in Hj. }
  assert (Eb : bound_udp4 s' = ∅). { apply map_eq. intros k. rewrite lookup_empty. specialize (Hb k). destruct (bound_udp4 s' !! k) as [[ref fd]|]; [|done]. rewrite Ec in Hb. destruct Hb as [-> Hb]. by cbn in Hb. }
  split_and!; [|done..]. rewrite Ei, Ec, Eb in Hf. unfold owned in Hf. cbn in Hf. by rewrite app_nil_r in Hf.
Qed.

(** ** The start *)

Definition with_listener (fd : Z) (i : redudp_instance) : redudp_instance := mk_uinst (i_config i) (Some fd) (i_clients i).

Lemma good_listen base fd s i y :
  good base [fd] [] s -> instances s !! i = Some y -> i_listener y = None -> good base [] [] (set_instances (<[i := with_listener fd y]> (instances s)) s).
Proof.
  intros [[Hf Hc Hm Hnd Hb Hs Hn Hls Hil] Ha] Ei El. split; [|done]. cbn. split; cbn; try done.
  - eapply fds_are_perm; [|exact Hf]. unfold owned. rewrite values_insert, (values_delete _ _ _ Ei). cbn. rewrite El. change (fd :: ?l) with ([fd] ++ l). permute.
  - intros c x Ex. destruct (Hc _ _ Ex) as (j & Hj & Hok & Hin). destruct (decide (c_inst x = i)) as [E|E]; [|exists j; by rewrite lookup_insert_ne].
    rewrite E in *. assert (j = y) as -> by congruence. exists (with_listener fd y). by rewrite lookup_insert_eq.
  - intros j z c. destruct (decide (j = i)) as [->|Hne]; [|rewrite lookup_insert_ne by done; apply Hm]. rewrite lookup_insert_eq. intros [= <-]. by apply (Hm i y).
  - intros j z. destruct (decide (j = i)) as [->|Hne]; [|rewrite lookup_insert_ne by done; apply Hnd]. rewrite lookup_insert_eq. intros [= <-]. by apply (Hnd i y).
  - intros c x j Ex. destruct (decide (c_inst x = i)) as [E|E]; [|rewrite lookup_insert_ne by done; by apply (Hls c)]. rewrite E, lookup_insert_eq. by intros [= <-].
  - by eapply listed_update.
Qed.

Lemma init_instance_ok base i y s :
  good base [] [] s -> instances s !! i = Some y -> i_listener y = None ->
  wp (redudp_init_instance i) (fun b s' => good base [] [] s' /\ if b : bool then exists fd, instances s' = <[i := with_listener fd y]> (instances s) /\ inst_list s' = inst_list s else True) s.
Proof.
  intros H Ei El. unfold redudp_init_instance. apply ru_bind. eapply ru_inst; [exact Ei|]. apply ru_bind. eapply ru_socket; [exact H|intros l; apply ru_bind; eapply fini_instance_ok; [exact H|exact Ei|]; intros s' H' _ _; by apply ru_ret|].
  intros fd l F Hg. cbv zeta. set (Q := fun (b : bool) s' => _). assert (Hfail : forall s', good base [fd] [] s' -> instances s' = instances s -> wp (redudp_fini_instance i;; redsocks_close fd;; mret false) Q s').
  { intros s' H' I'. apply ru_bind. eapply fini_instance_ok; [exact H'|by rewrite I'|]. intros s2 H2 _ _. apply ru_bind. eapply ru_close_local; [exact H2|]. intros F' H3. apply ru_ret. by split. }
  assert (Hrest : forall s', good base [fd] [] s' -> instances s' = instances s -> inst_list s' = inst_list s ->
    wp (ok ← ask; if negb ok then redudp_fini_instance i;; redsocks_close fd;; mret false else
        ok ← ask; if negb ok then redudp_fini_instance i;; redsocks_close fd;; mret false else
        mod_inst i (fun x => mk_uinst (i_config x) (Some fd) (i_clients x));;
        ok ← event_add; if negb ok then redudp_fini_instance i;; redsocks_close fd;; mret false else mret true) Q s').
  { intros s' H' I' L'. do 2 (apply ru_bind, ru_ask; intros [] ?; cbn [negb]; [|by apply Hfail]). assert (Ei' : instances s' !! i = Some y) by (by rewrite I'). apply ru_bind. eapply ru_mod_inst; [exact Ei'|].
    match goal with |- wp _ _ ?st => assert (Hst : good base [] [] st) by (eapply good_listen; [exact H'|exact Ei'|done]) end. apply ru_bind, ru_event_add; [apply Hst|]. apply ru_ret. split; [exact Hst|]. exists fd. cbn. by rewrite I', L'. }
  apply ru_bind. destruct (do_tproxy (i_config y)); [|apply ru_ret; by apply Hrest].
  apply ru_bind, ru_ask. intros [] l1; [|apply ru_ret; by apply Hfail]. apply ru_ask. intros [] l2; [by apply Hrest|by apply Hfail].
Qed.

(** What is left when nothing of the component runs. *)
Definition released (base : list Z) (s : state) : Prop := fds_are (fds s) base /\ clients s = ∅ /\ instances s = ∅ /\ bound_udp4 s = ∅.

(** Every instance waits for packets. *)
Definition listening (s : state) : Prop := forall i, i ∈ inst_list s -> exists y, instances s !! i = Some y /\ is_Some (i_listener y).

(** Starting instances keeps their list and their configurations. *)
Definition same_configs (s s' : state) : Prop :=
  inst_list s' = inst_list s /\ forall i, i_config <$> instances s' !! i = i_config <$> instances s !! i.

Lemma init_all_ok base l : forall s,
  good base [] [] s -> NoDup l -> (forall i, i ∈ l -> exists y, instances s !! i = Some y /\ i_listener y = None) ->
  (forall i, i ∈ inst_list s -> i ∈ l \/ exists y, instances s !! i = Some y /\ is_Some (i_listener y)) ->
  wp (init_all l) (fun b s' => if b : bool then good base [] [] s' /\ listening s' /\ same_configs s s' else released base s') s.
Proof.
  induction l as [|i l IH]; intros s H Hnd Hl Hall; cbn [init_all].
  - apply ru_ret. split; [done|]. split; [|by split]. intros i Hi. by destruct (Hall i Hi) as [[]%not_elem_of_nil|?].
  - apply NoDup_cons in Hnd as [Hi Hnd]. destruct (Hl i) as (y & Ey & El); [left|]. apply ru_bind. eapply ru_mono; [by eapply init_instance_ok|]. intros [] s' [H' Hok]; [|apply ru_bind; eapply ru_mono; [by apply fini_ok|]; intros [] s'' Hs''; by apply ru_ret].
    destruct Hok as (fd & I' & L'). eapply ru_mono; [apply IH; [done|done| |]|].
    + intros j Hj. rewrite I', lookup_insert_ne by (by intros ->). apply Hl. by right.
    + intros j Hj. rewrite L' in Hj. rewrite I'. destruct (decide (j = i)) as [->|Hne]; [right; rewrite lookup_insert_eq; eexists; split; [done|by eexists]|]. rewrite lookup_insert_ne by done.
      destruct (Hall j Hj) as [[->|Hjl]%elem_of_cons|Hj']; [done|by left|by right].
    + intros [] s'' Hs''; [|done]. destruct Hs'' as (H1 & H2 & L'' & I''). split; [done|]. split; [done|]. split; [by rewrite L''|]. intros j. rewrite I'', I'.
      destruct (decide (j = i)) as [->|Hne]; [by rewrite lookup_insert_eq, Ey|by rewrite lookup_insert_ne].
Qed.

(** What reading the configuration leaves: instances that have no descriptor and no client. *)
Record configured (base : list Z) (s : state) : Prop := {
  cf_clients : clients s = ∅;
  cf_bound : bound_udp4 s = ∅;
  cf_fds : fds_are (fds s) base;
  cf_new i x : instances s !! i = Some x -> i_listener x = None /\ i_clients x = [];
  cf_listed : NoDup (inst_list s) /\ forall i, i ∈ inst_list s <-> is_Some (instances s !! i);
  cf_adds : adds s = [] }.

Lemma configured_good base s : configured base s -> good base [] [] s.
Proof.
  intros [Hc Hb Hf Hi Hl Ha]. split; [|done]. rewrite Hc, Hb. split; try done.
  - assert (E : omap i_listener (values (instances s)) = []).
    { unfold values. assert (Hall : Forall (fun p : nat * redudp_instance => i_listener p.2 = None) (map_to_list (instances s))) by (apply Forall_forall; intros [i x] Hix%elem_of_map_to_list; by apply (Hi i x)).
      induction Hall as [|p l E _ IH]; [done|]. cbn. by rewrite E. }
    unfold owned. rewrite E. cbn. by rewrite app_nil_r.
  - intros i x c Ei Hin. destruct (Hi _ _ Ei) as [_ E]. rewrite E in Hin. by apply not_elem_of_nil in Hin.
  - intros i x Ei. destruct (Hi _ _ Ei) as [_ ->]. apply NoDup_nil_2.
  - by intros c [x Hx%lookup_empty_Some].
Qed.

Lemma redudp_init_ok base s : configured base s -> wp redudp_init (fun b s' => if b : bool then good base [] [] s' /\ listening s' /\ same_configs s s' else released base s') s.
Proof.
  intros H. unfold redudp_init. apply ru_bind, ru_get. destruct (cf_listed _ _ H) as [Hnd Hl]. apply init_all_ok; [by apply configured_good|done| |by left].
  intros i [y Ey]%Hl. exists y. split; [done|]. by apply (cf_new _ _ H i y).
Qed.

(** ** Reachable states *)

Lemma ru_run {A} (m : M A) Q s : wp m Q s -> exists x s', m s = Some (x, s') /\ Q x s'.
Proof. unfold wp. destruct (m s) as [[x s']|]; [|done]. by exists x, s'. Qed.

(** From a configuration, over a successful start, by events. *)
Inductive reaches (base : list Z) : state -> Prop :=
| re_start s s' : configured base s -> redudp_init s = Some (true, s') -> reaches base s'
| re_step s e s' : reaches base s -> enabled e s = true -> proper e s = true -> step e s = Some (tt, s') -> reaches base s'.

Lemma reaches_good base s : reaches base s -> good base [] [] s.
Proof.
  induction 1 as [s s' Hc Hi|s e s' _ IH He Hp Hs].
  - pose proof (redudp_init_ok _ _ Hc) as H. unfold wp in H. rewrite Hi in H. apply H.
  - pose proof (step_keeps _ _ _ IH He Hp) as H. unfold keeps, wp in H. by rewrite Hs in H.
Qed.

(** ** When every call succeeds *)

Lemma ru_ask_ok (Q : bool -> state -> Prop) s : answers s = [] -> Q true s -> wp ask Q s.
Proof. intros E H. unfold wp, ask. by rewrite E. Qed.

Lemma ru_send_ok fd addr data (Q : unit -> state -> Prop) s : answers s = [] -> Q tt (set_sent (sent s ++ [(fd, addr, data)]) s) -> wp (send fd addr data) Q s.
Proof. intros E H. unfold send. apply ru_bind, ru_ask_ok; [done|]. by apply ru_modify. Qed.

Lemma ru_socket_ok (Q : option Z -> state -> Prop) s : answers s = [] -> Q (Some (lowest_fd (fds s))) (set_fds ({[lowest_fd (fds s)]} ∪ fds s) s) -> wp socket Q s.
Proof. intros E H. unfold socket. apply ru_bind, ru_ask_ok; [done|]. apply ru_bind, ru_get, ru_bind, ru_modify. by apply ru_ret. Qed.

(** A packet as it goes to the proxy. *)
Definition wrapped (fd : Z) (relay dest : sockaddr_in) (p : bytes) : datagram := (fd, relay, preamble dest ++ p).

Lemma forward_sends c buf x i fd (Q : unit -> state -> Prop) s :
  clients s !! c = Some x -> instances s !! c_inst x = Some i -> udprelay x = Some fd -> answers s = [] ->
  Q tt (set_sent (sent s ++ [wrapped fd (udprelayaddr x) (get_destaddr (i_config i) x) buf]) (set_clients (<[c := add_tried buf x]> (clients s)) s)) -> wp (redudp_forward_pkt c buf) Q s.
Proof.
  intros Ex Ei Eu Ea HQ. unfold redudp_forward_pkt. apply ru_bind. eapply ru_client; [exact Ex|]. apply ru_bind. eapply ru_config; [exact Ex|exact Ei|]. apply ru_bind. eapply ru_deref; [exact Eu|].
  apply ru_bind. eapply ru_mod_client; [exact Ex|]. by apply ru_send_ok.
Qed.

Lemma clients_once t t' m m' f s : set_sent t' (set_clients m' (set_clients f (set_sent t (set_clients m s)))) = set_sent t' (set_clients m' s).
Proof. done. Qed.
Lemma sent_kept t m s : sent (set_clients m (set_sent t s)) = t.
Proof. done. Qed.

Lemma flush_sends c q : forall x i fd (Q : unit -> state -> Prop) s,
  clients s !! c = Some x -> instances s !! c_inst x = Some i -> udprelay x = Some fd -> answers s = [] ->
  Q tt (set_sent (sent s ++ map (wrapped fd (udprelayaddr x) (get_destaddr (i_config i) x)) q) (set_clients (<[c := flushed q x]> (clients s)) s)) -> wp (flush c q) Q s.
Proof.
  induction q as [|p q IH]; intros x i fd Q s Ex Ei Eu Ea HQ; cbn [flush].
  - apply ru_ret. cbn [map] in HQ. rewrite app_nil_r in HQ. assert (Ef : flushed [] x = x) by (destruct x; unfold flushed; cbn; by rewrite app_nil_r). rewrite Ef, (insert_id (clients s)) in HQ by done. by destruct s.
  - apply ru_bind. eapply forward_sends; [exact Ex|exact Ei|exact Eu|exact Ea|]. apply ru_bind. eapply ru_mod_client; [apply lookup_insert_eq|]. eapply IH; [apply lookup_insert_eq|exact Ei|exact Eu|exact Ea|].
    set (x1 := set_queue _ _ _). assert (E : flushed q x1 = flushed (p :: q) x).
    { subst x1. unfold flushed, set_queue, add_tried. cbn. rewrite <- app_assoc. f_equal. destruct (queue x); cbn; [apply drop_nil|done]. }
    rewrite clients_once, sent_kept, clients_set, E. cbn [clients set_sent set_clients]. rewrite !insert_insert_eq. cbn [map] in HQ. change (?d :: ?l) with ([d] ++ l) in HQ. rewrite app_assoc in HQ. exact HQ.
Qed.

(** ** Theorems *)

(** What the invariant says of descriptors and reference counts. *)
Lemma good_owned base s : good base [] [] s -> fds_are (fds s) (base ++ owned (clients s) (instances s) (bound_udp4 s)) /\ forall k, match bound_udp4 s !! k with Some (ref, _) => ref = senders k (clients s) /\ 0 < ref | None => senders k (clients s) = 0 end.
Proof. intros [[Hf Hc Hm Hnd Hb Hs Hn Hls Hil] _]. done. Qed.

(** C9: In every state the relay reaches, whatever calls other than [event_add] fail, each
    event is handled to the end, provided that packets from the proxy have at least a header
    and that the proxy sends nothing on its connection after its reply to the association
    ([proper]; what happens otherwise is shown by [socket_closed_twice],
    [short_packet_forwarded] and [second_reply_leaks]): no assertion fails, no client or
    instance that was freed is used, no descriptor that is not open is closed. Afterwards
    each open descriptor is owned once, by the rest of the program, a client, a bound socket
    or a listener, and the reference count of a bound socket is the number of clients that
    answer from it. *)
Theorem redudp_safe base s e :
  reaches base s -> enabled e s = true -> proper e s = true ->
  exists s', step e s = Some (tt, s') /\ fds_are (fds s') (base ++ owned (clients s') (instances s') (bound_udp4 s')) /\
    forall k, match bound_udp4 s' !! k with Some (ref, _) => ref = senders k (clients s') /\ 0 < ref | None => senders k (clients s') = 0 end.
Proof.
  intros H He Hp. apply reaches_good in H. destruct (ru_run _ _ _ (step_keeps _ _ _ H He Hp)) as ([] & s' & Hs & Hg). exists s'. split; [done|]. by apply good_owned.
Qed.

(** C18: In every state the relay reaches ([reaches]: no failing [event_add], no packet of
    the proxy shorter than a header, no second reply), the packets taken from a client are
    those that were handed to the system and then those in the queue, in the order of their
    arrival; the queue has as many packets as its counter says and no more than the
    configuration allows, and it is empty once the proxy has accepted the association. *)
Theorem redudp_in_order base s c x :
  reaches base s -> clients s !! c = Some x ->
  exists i, instances s !! c_inst x = Some i /\ h_taken x = h_tried x ++ queue x /\ queue_len x = zlen (queue x) /\ zlen (queue x) <= Z.max 0 (max_pktqueue (i_config i)) /\
    (is_Some (udprelay x) -> queue x = []) /\ (is_Some (sender_fd x) -> do_tproxy (i_config i) = true).
Proof.
  intros H Ex. apply reaches_good in H. destruct (good_instance _ _ _ _ _ _ H Ex) as (i & Ei & [? ? ? ? ?]). by exists i.
Qed.

(** The start of a configuration, whatever calls fail: either every instance waits for packets,
    or everything that was opened is closed and all instances are gone. *)
Theorem redudp_starts base s :
  configured base s -> exists b s', redudp_init s = Some (b, s') /\ if b : bool then listening s' /\ same_configs s s' else released base s'.
Proof. intros H. destruct (ru_run _ _ _ (redudp_init_ok _ _ H)) as (b & s' & Hs & Hg). exists b, s'. split; [done|]. destruct b; [apply Hg|done]. Qed.

(** C28: From every state the relay reaches without a failing [event_add], by packets of the
    proxy that have at least a header and without a second reply to an association
    ([reaches]), [redudp_fini] gives back every descriptor, client, instance and bound
    socket, and leaves the descriptors of the rest of the program open. *)
Theorem redudp_stops base s : reaches base s -> exists s', redudp_fini s = Some (tt, s') /\ released base s'.
Proof. intros H%reaches_good. destruct (ru_run _ _ _ (fini_ok _ _ H)) as ([] & s' & Hs & Hg). by exists s'. Qed.

(** C26: When the proxy accepts the association, with the address [addr] and [port], and no
    call fails, the packets queued so far are sent there, in their order, each behind the
    header with the destination, and from then on the client has a socket and an empty
    queue. *)
Theorem association_flushes c x b i addr port s :
  clients s !! c = Some x -> instances s !! c_inst x = Some i -> c_relay x = Some b -> readcb b = Some rd_assoc_reply -> b_wm b = sizeof_assoc_reply -> b_input b = [] ->
  answers s = [] -> adds s = [] -> length addr = 4%nat -> length port = 2%nat ->
  exists s' x', relay_input c ([Socks5.socks5_ver; Socks5.socks5_status_succeeded; 0; Socks5.socks5_addrtype_ipv4] ++ addr ++ port) s = Some (tt, s') /\
    clients s' !! c = Some x' /\ udprelay x' = Some (lowest_fd (fds s)) /\ udprelayaddr x' = mk_sockaddr addr port /\ queue x' = [] /\ queue_len x' = 0 /\
    sent s' = sent s ++ map (wrapped (lowest_fd (fds s)) (mk_sockaddr addr port) (get_destaddr (i_config i) x)) (queue x).
Proof.
  intros Ex Ei Eb Er Ew Ein Ea Ead Hla Hlp. destruct addr as [|a1 [|a2 [|a3 [|a4 [|]]]]]; try discriminate Hla. destruct port as [|p1 [|p2 [|]]]; try discriminate Hlp.
  cut (wp (relay_input c ([Socks5.socks5_ver; Socks5.socks5_status_succeeded; 0; Socks5.socks5_addrtype_ipv4] ++ [a1; a2; a3; a4] ++ [p1; p2])) (fun _ s' => exists x', clients s' !! c = Some x' /\ udprelay x' = Some (lowest_fd (fds s)) /\
    udprelayaddr x' = mk_sockaddr [a1; a2; a3; a4] [p1; p2] /\ queue x' = [] /\ queue_len x' = 0 /\ sent s' = sent s ++ map (wrapped (lowest_fd (fds s)) (mk_sockaddr [a1; a2; a3; a4] [p1; p2]) (get_destaddr (i_config i) x)) (queue x)) s).
  { intros H. destruct (ru_run _ _ _ H) as ([] & s' & Hs & x' & Hx'). by exists s', x'. }
  unfold relay_input. apply ru_bind. eapply ru_client; [exact Ex|]. apply ru_bind. eapply ru_deref; [exact Eb|]. apply ru_bind. eapply ru_mod_client; [exact Ex|]. rewrite Ein, Ew, Er. cbn [app]. change (_ <? sizeof_assoc_reply) with false. cbv iota.
  unfold redudp_read_assoc_reply, evbuffer_remove. apply ru_bind, ru_bind. eapply ru_client; [apply lookup_insert_eq|]. apply ru_bind. eapply ru_deref; [done|]. apply ru_bind. eapply ru_mod_client; [apply lookup_insert_eq|]. apply ru_ret.
  do 4 (match goal with |- wp (if ?e then _ else _) _ _ => change e with false end; cbv iota).
  apply ru_bind. eapply ru_mod_client; [apply lookup_insert_eq|]. apply ru_bind, ru_socket_ok; [done|]. apply ru_bind, ru_ask_ok; [done|]. cbn [negb]. apply ru_bind. eapply ru_mod_client; [apply lookup_insert_eq|]. apply ru_bind, ru_event_add; [done|]. cbn [negb].
  unfold redudp_flush_queue. apply ru_bind. eapply ru_client; [apply lookup_insert_eq|]. apply ru_bind. eapply flush_sends; [apply lookup_insert_eq|exact Ei|done|exact Ea|].
  apply ru_bind. eapply ru_mod_client; [apply lookup_insert_eq|]. apply ru_bind. eapply ru_client; [apply lookup_insert_eq|]. apply ru_assert; [apply bool_decide_eq_true; cbn; apply drop_all|].
  eexists. split; [apply lookup_insert_eq|]. cbn. split_and!; [done|done|apply drop_all|done|]. unfold get_destaddr. done.
Qed.

(** The header of the packets that are taken for a client: from the address the proxy gave, not
    a fragment, with the destination of the client. *)
Definition header_ok (g : redudp_config) (x : redudp_client) (from : sockaddr_in) (header : bytes) : bool :=
  bool_decide (from = udprelayaddr x) && (byte 2 header =? 0) && (byte 3 header =? Socks5.socks5_addrtype_ipv4) &&
  bool_decide (mk_sockaddr (take 4 (drop 4 header)) (drop 8 header) = get_destaddr g x).

Lemma header_split (g : redudp_config) x from header {A} (a k : A) :
  (if negb (bool_decide (from = udprelayaddr x)) then a else if negb (byte 2 header =? 0) then a else if negb (byte 3 header =? Socks5.socks5_addrtype_ipv4) then a
   else if negb (bool_decide (drop 8 header = sin_port (get_destaddr g x))) || negb (bool_decide (take 4 (drop 4 header) = sin_addr (get_destaddr g x))) then a else k)
  = if header_ok g x from header then k else a.
Proof.
  unfold header_ok. destruct (bool_decide (from = _)); [|done]. destruct (byte 2 header =? 0); [|done]. destruct (byte 3 header =? _); [|done]. cbn [negb andb].
  destruct (get_destaddr g x) as [ad po]. cbn. case_bool_decide as E1; cbn; [|rewrite bool_decide_eq_false_2; [done|by intros [= _ ?]]]. case_bool_decide as E2; cbn; [|rewrite bool_decide_eq_false_2; [done|by intros [= ?]]].
  rewrite bool_decide_eq_true_2; [done|]. by rewrite E1, E2.
Qed.

Lemma preamble_header (g : redudp_config) x data rest : length (sin_addr (get_destaddr g x)) = 4%nat -> length (sin_port (get_destaddr g x)) = 2%nat ->
  header_ok g x (udprelayaddr x) (take (Z.to_nat sizeof_preamble) ((preamble (get_destaddr g x) ++ data) ++ rest)) = true /\ drop (Z.to_nat sizeof_preamble) (preamble (get_destaddr g x) ++ data) = data /\ sizeof_preamble <= zlen (preamble (get_destaddr g x) ++ data).
Proof.
  unfold header_ok, zlen. destruct (get_destaddr g x) as [ad po]. cbn [sin_addr sin_port]. intros Ha Hp. destruct ad as [|a1 [|a2 [|a3 [|a4 [|]]]]]; try discriminate Ha. destruct po as [|p1 [|p2 [|]]]; try discriminate Hp.
  split_and!; [|done|cbn; unfold sizeof_preamble; lia]. rewrite bool_decide_eq_true_2 by done. rewrite bool_decide_eq_true_2 by done. done.
Qed.

(** A client is answered from the socket of its destination, or from the listener. *)
Lemma answer_sent base c x i (Q : unit -> state -> Prop) data s :
  good base [] [] s -> clients s !! c = Some x -> instances s !! c_inst x = Some i -> answers s = [] ->
  (forall s' fd, sent s' = sent s ++ [(fd, clientaddr x, data)] -> (if do_tproxy (i_config i) then exists ref, bound_udp4 s' !! bound_udp4_mkkey (destaddr x) = Some (ref, fd) else i_listener i = Some fd) -> Q tt s') ->
  wp (if do_tproxy (i_config i) then
        match sender_fd x with
        | Some fd => send fd (clientaddr x) data
        | None => r ← bound_udp4_get (destaddr x); mod_client c (set_sender_fd r);; match r with Some fd => send fd (clientaddr x) data | None => mret tt end
        end
      else i ← get_inst (c_inst x); fd ← deref (i_listener i); send fd (clientaddr x) data) Q s.
Proof.
  intros [H Hadds] Ex Ei Ea HQ. destruct (do_tproxy (i_config i)) eqn:Et.
  - destruct (sender_fd x) as [fd|] eqn:Es; [apply ru_send_ok; [done|]; eapply HQ; [done|]; by eapply (ok_sender _ _ _ _ _ _ _ _ _ H c)|].
    apply ru_bind. unfold bound_udp4_get. apply ru_bind, ru_get. cbv zeta. pose proof (ok_bound _ _ _ _ _ _ _ _ _ H (bound_udp4_mkkey (destaddr x))) as Hb. destruct (bound_udp4 s !! bound_udp4_mkkey (destaddr x)) as [[ref fd]|] eqn:Ek.
    + apply ru_bind, ru_assert; [apply Z.ltb_lt; lia|]. apply ru_bind, ru_modify, ru_ret, ru_bind. eapply ru_mod_client; [exact Ex|]. apply ru_send_ok; [done|]. eapply HQ; [done|]. cbn. rewrite lookup_insert_eq. by eexists.
    + apply ru_bind, ru_ask_ok; [done|]. cbn [negb]. apply ru_bind, ru_socket_ok; [done|]. do 3 (apply ru_bind, ru_ask_ok; [done|]; cbn [negb]). apply ru_bind, ru_get, ru_bind, ru_modify, ru_ret, ru_bind. eapply ru_mod_client; [exact Ex|].
      apply ru_send_ok; [done|]. eapply HQ; [done|]. cbn. rewrite lookup_insert_eq. by eexists.
  - destruct (ok_listen _ _ _ _ _ _ _ _ _ H _ _ _ Ex Ei) as [fd Efd]. apply ru_bind. eapply ru_inst; [exact Ei|]. apply ru_bind. eapply ru_deref; [exact Efd|]. apply ru_send_ok; [done|]. by eapply HQ.
Qed.

(** C27: A packet of the proxy in a state the relay reaches ([reaches]), while no call
    fails. When the address it comes from is not the one the proxy gave, or its header is a
    fragment's, of another address type or for another destination than the client's, it
    changes nothing. Otherwise (whatever the reserved bytes), if it has at least the length
    of the header, what is behind the header goes to the address of the client, from the
    listener or, with TPROXY, from the socket that is bound to the destination the client
    wrote to. A packet made of the header for the destination and data is of that kind. *)
Theorem redudp_answers base c x i s :
  reaches base s -> clients s !! c = Some x -> instances s !! c_inst x = Some i -> answers s = [] ->
  (forall from pkt rest, header_ok (i_config i) x from (take (Z.to_nat sizeof_preamble) (pkt ++ rest)) = false -> redudp_pkt_from_socks c from pkt rest s = Some (tt, s)) /\
  (forall from pkt rest, header_ok (i_config i) x from (take (Z.to_nat sizeof_preamble) (pkt ++ rest)) = true -> sizeof_preamble <= zlen pkt ->
    exists s' fd, redudp_pkt_from_socks c from pkt rest s = Some (tt, s') /\ sent s' = sent s ++ [(fd, clientaddr x, drop (Z.to_nat sizeof_preamble) pkt)] /\
      if do_tproxy (i_config i) then exists ref, bound_udp4 s' !! bound_udp4_mkkey (destaddr x) = Some (ref, fd) else i_listener i = Some fd) /\
  (forall data rest, length (sin_addr (get_destaddr (i_config i) x)) = 4%nat -> length (sin_port (get_destaddr (i_config i) x)) = 2%nat ->
    let pkt := preamble (get_destaddr (i_config i) x) ++ data in
    header_ok (i_config i) x (udprelayaddr x) (take (Z.to_nat sizeof_preamble) (pkt ++ rest)) = true /\ drop (Z.to_nat sizeof_preamble) pkt = data /\ sizeof_preamble <= zlen pkt).
Proof.
  intros H%reaches_good Ex Ei Ea. split_and!; [| |intros data rest Hla Hlp; by apply preamble_header].
  - intros from pkt rest Hh. assert (Hw : wp (redudp_pkt_from_socks c from pkt rest) (fun _ s' => s' = s) s); [|by destruct (ru_run _ _ _ Hw) as ([] & s' & Hs & ->)].
    unfold redudp_pkt_from_socks. apply ru_bind. eapply ru_client; [exact Ex|]. apply ru_bind. eapply ru_config; [exact Ex|exact Ei|]. cbv zeta. rewrite (header_split (i_config i)), Hh. by apply ru_ret.
  - intros from pkt rest Hh Hl. set (data := drop _ pkt).
    assert (Hw : wp (redudp_pkt_from_socks c from pkt rest) (fun _ s' => exists fd, sent s' = sent s ++ [(fd, clientaddr x, data)] /\
      if do_tproxy (i_config i) then exists ref, bound_udp4 s' !! bound_udp4_mkkey (destaddr x) = Some (ref, fd) else i_listener i = Some fd) s); [|by destruct (ru_run _ _ _ Hw) as ([] & s' & Hs & fd & Hfd); exists s', fd].
    unfold redudp_pkt_from_socks. apply ru_bind. eapply ru_client; [exact Ex|]. apply ru_bind. eapply ru_config; [exact Ex|exact Ei|]. cbv zeta. rewrite (header_split (i_config i)), Hh.
    apply ru_bind. eapply bump_ok; [exact H|exact Ex|]. apply ru_bind. eapply ru_client; [apply lookup_insert_eq|]. rewrite (proj2 (Z.leb_le _ _) Hl).
    eapply (answer_sent base c (set_timeout true x)); [by apply bumped|apply lookup_insert_eq|exact Ei|exact Ea|]. intros s' fd Hs Hfd. by exists fd.
Qed.

(** ** A run *)

Fixpoint run (l : list event) : M unit :=
  match l with
  | [] => mret tt
  | e :: l => s ← get; assert (enabled e s && proper e s);; step e;; run l
  end.

Lemma run_reaches base l : forall s s', reaches base s -> run l s = Some (tt, s') -> reaches base s'.
Proof.
  induction l as [|e l IH]; intros s s' Hs Hr; cbn in Hr; [by injection Hr as <-|]. unfold mbind, M_bind, get, assert in Hr. destruct (enabled e s && proper e s) eqn:He; [|done]. apply andb_true_iff in He as [He Hp].
  destruct (step e s) as [[[] s1]|] eqn:Es; [|done]. eapply IH; [by eapply re_step|done].
Qed.

Module Demo.

Definition host (a : Z) : sockaddr_in := mk_sockaddr [10; 0; 0; a] [0; 53].
(** With TPROXY. *)
Definition config : redudp_config := mk_uconfig (host 1) (host 2) (mk_sockaddr [0; 0; 0; 0] [0; 0]) None None 5 30 180.
Definition start : state := mk_state ∅ {[0%nat := mk_uinst config None []]} [0%nat] ∅ {[0; 1; 2]} 0 [] [] [].
Definition after {A} (m : M A) (s : state) : state := match m s with Some (_, s) => s | None => s end.
Definition waiting : state := after redudp_init start.
(** A client has written to 10.0.0.8 and the proxy was asked for an association. *)
Definition dialogue : list event := [ev_client 0 (host 7) (host 8) [1; 2; 3]; ev_connected 0; ev_input 0 [5; 0]].
Definition asking : state := after (run dialogue) waiting.
Definition reply : bytes := [5; 0; 0; 1; 10; 0; 0; 2; 0; 80].
Definition relay : sockaddr_in := mk_sockaddr [10; 0; 0; 2] [0; 80].
Definition relaying : state := after (run [ev_input 0 reply]) asking.

Lemma start_configured : configured [0; 1; 2] start.
Proof.
  split; try done.
  - split; [apply (bool_decide_unpack _); vm_compute; exact I|]. intros fd. cbn. set_solver.
  - intros i x. cbn. intros [<- <-]%lookup_singleton_Some. done.
  - split; [apply (bool_decide_unpack _); vm_compute; exact I|]. intros i. cbn. rewrite list_elem_of_singleton, lookup_singleton_is_Some. done.
Qed.

Lemma waiting_reached : reaches [0; 1; 2] waiting.
Proof. eapply re_start; [apply start_configured|]. vm_compute. reflexivity. Qed.

Lemma asking_reached : reaches [0; 1; 2] asking.
Proof. apply (run_reaches _ dialogue waiting); [apply waiting_reached|]. vm_compute. reflexivity. Qed.

Lemma relaying_reached : reaches [0; 1; 2] relaying.
Proof. apply (run_reaches _ [ev_input 0 reply] asking); [apply asking_reached|]. vm_compute. reflexivity. Qed.

End Demo.

(** ** Witnesses *)

Lemma redudp_safe_witness :
  exists s', step (ev_socks 0 Demo.relay (preamble (Demo.host 8) ++ [9; 9]) []) Demo.relaying = Some (tt, s') /\ fds_are (fds s') ([0; 1; 2] ++ owned (clients s') (instances s') (bound_udp4 s')) /\
    forall k, match bound_udp4 s' !! k with Some (ref, _) => ref = senders k (clients s') /\ 0 < ref | None => senders k (clients s') = 0 end.
Proof. apply (redudp_safe [0; 1; 2] Demo.relaying (ev_socks 0 Demo.relay (preamble (Demo.host 8) ++ [9; 9]) [])); [apply Demo.relaying_reached|vm_compute; reflexivity|vm_compute; reflexivity]. Defined.

Lemma redudp_in_order_witness :
  exists i, instances Demo.asking !! 0%nat = Some i /\ zlen [[1; 2; 3]] <= Z.max 0 (max_pktqueue (i_config i)).
Proof.
  destruct (clients Demo.asking !! 0%nat) as [x|] eqn:Ex; [|by vm_compute in Ex]. destruct (redudp_in_order [0; 1; 2] Demo.asking 0 x Demo.asking_reached Ex) as (i & Hi & _ & _ & Hm & _).
  vm_compute in Ex. injection Ex as <-. exists i. by split.
Defined.

Lemma redudp_starts_witness :
  exists b s', redudp_init (set_answers [true; true; false] Demo.start) = Some (b, s') /\ if b : bool then listening s' /\ same_configs (set_answers [true; true; false] Demo.start) s' else released [0; 1; 2] s'.
Proof. apply (redudp_starts [0; 1; 2]). destruct Demo.start_configured. by split. Defined.

Lemma redudp_stops_witness : exists s', redudp_fini Demo.relaying = Some (tt, s') /\ released [0; 1; 2] s'.
Proof. apply (redudp_stops [0; 1; 2]). apply Demo.relaying_reached. Defined.

Lemma association_flushes_witness :
  exists s' x', relay_input 0 ([Socks5.socks5_ver; Socks5.socks5_status_succeeded; 0; Socks5.socks5_addrtype_ipv4] ++ [10; 0; 0; 2] ++ [0; 80]) Demo.asking = Some (tt, s') /\ clients s' !! 0%nat = Some x' /\
    sent s' = [(5, Demo.relay, preamble (Demo.host 8) ++ [1; 2; 3])].
Proof.
  destruct (clients Demo.asking !! 0%nat) as [x|] eqn:Ex; [|by vm_compute in Ex]. destruct (instances Demo.asking !! 0%nat) as [i|] eqn:Ei; [|by vm_compute in Ei]. pose proof Ex as Ex'. vm_compute in Ex'. injection Ex' as Ex'.
  pose proof Ei as Ei'. vm_compute in Ei'. injection Ei' as Ei'. destruct (c_relay x) as [b|] eqn:Eb; [|by subst x].
  destruct (association_flushes 0 x b i [10; 0; 0; 2] [0; 80] Demo.asking) as (s' & x' & H1 & H2 & _ & _ & _ & _ & H3); [exact Ex|subst x; exact Ei|exact Eb|subst x; injection Eb as <-; reflexivity..|done|done|done|done|].
  exists s', x'. split; [exact H1|]. split; [exact H2|]. rewrite H3. subst x i. vm_compute. reflexivity.
Defined.

Lemma redudp_answers_witness : exists s' fd, redudp_pkt_from_socks 0 Demo.relay (preamble (Demo.host 8) ++ [9; 9]) [] Demo.relaying = Some (tt, s') /\ sent s' = sent Demo.relaying ++ [(fd, Demo.host 7, [9; 9])].
Proof.
  destruct (clients Demo.relaying !! 0%nat) as [x|] eqn:Ex; [|by vm_compute in Ex]. destruct (instances Demo.relaying !! 0%nat) as [i|] eqn:Ei; [|by vm_compute in Ei]. pose proof Ex as Ex'. vm_compute in Ex'. injection Ex' as Ex'.
  pose proof Ei as Ei'. vm_compute in Ei'. injection Ei' as Ei'.
  destruct (redudp_answers [0; 1; 2] 0 x i Demo.relaying) as (_ & H & _); [apply Demo.relaying_reached|exact Ex|subst x; exact Ei|vm_compute; reflexivity|].
  destruct (H Demo.relay (preamble (Demo.host 8) ++ [9; 9]) []) as (s' & fd & H1 & H2 & _); [subst x i; vm_compute; reflexivity|by vm_compute|]. exists s', fd. subst x i. by split.
Defined.

(** ** What the code does not handle *)

(** [redudp_bump_timeout] drops the client when [event_add] fails, and its callers go on with it. *)
Theorem dropped_client_used :
  enabled (ev_client 0 (Demo.host 7) (Demo.host 8) [4]) Demo.relaying = true /\ is_Some (step (ev_client 0 (Demo.host 7) (Demo.host 8) [4]) Demo.relaying) /\
  step (ev_client 0 (Demo.host 7) (Demo.host 8) [4]) (set_adds [false] Demo.relaying) = None.
Proof. split_and!; [vm_compute; reflexivity|apply (bool_decide_unpack _); vm_compute; exact I|vm_compute; reflexivity]. Qed.

(** When [event_add] fails on the socket towards the proxy it is closed by the handler and, as
    the event is set, by [redudp_drop_client] again; a listener is closed twice likewise. *)
Theorem socket_closed_twice :
  step (ev_input 0 Demo.reply) (set_adds [false] Demo.asking) = None /\ redudp_init (set_adds [false] Demo.start) = None.
Proof. split; vm_compute; reflexivity. Qed.

(** The length of a packet from the proxy is not compared with the length of the header: with
    the bytes of an earlier packet still in the buffer a packet of 8 bytes is taken for one with
    a header, and [fwdlen] is negative. *)
Theorem short_packet_forwarded :
  let e := ev_socks 0 Demo.relay [0; 0; 0; 1; 10; 0; 0; 8] [0; 53; 1] in
  enabled e Demo.relaying = true /\ step e Demo.relaying = None.
Proof. split; vm_compute; reflexivity. Qed.

(** Ten more bytes on the connection to the proxy are read as another answer to the
    association: the socket of the first one stays open and belongs to nobody. *)
Theorem second_reply_leaks :
  exists s', step (ev_input 0 Demo.reply) Demo.relaying = Some (tt, s') /\ enabled (ev_input 0 Demo.reply) Demo.relaying = true /\
    exists fd, fd ∈ fds s' /\ ~ (fd ∈ [0; 1; 2] ++ owned (clients s') (instances s') (bound_udp4 s')).
Proof.
  exists (Demo.after (step (ev_input 0 Demo.reply)) Demo.relaying). split; [vm_compute; reflexivity|]. split; [vm_compute; reflexivity|]. exists 5. split; apply (bool_decide_unpack _); vm_compute; exact I.
Qed.

(** Clients are told apart by their own address only: with TPROXY the packet a client sends to
    10.0.0.9 goes to 10.0.0.8, where its first one went. *)
Theorem other_destination_ignored :
  exists s', step (ev_client 0 (Demo.host 7) (Demo.host 9) [4]) Demo.relaying = Some (tt, s') /\ sent s' = sent Demo.relaying ++ [(5, Demo.relay, preamble (Demo.host 8) ++ [4])].
Proof. exists (Demo.after (step (ev_client 0 (Demo.host 7) (Demo.host 9) [4])) Demo.relaying). split; vm_compute; reflexivity. Qed.

End RedUdp.
