(* ===== verification/UdpConfig.v ===== *)
(** * The sections [redudp] and [dnstc] of the configuration file (redudp.c, dnstc.c)

    What entering, filling and leaving these sections does to the lists of instances, as
    sections for the parser. A file printed for given instances is read back as these, and the
    UDP relay can be started with what was read. [calloc] does not fail here. *)

From S2P Require Import Prelude CLib World Parser Config RedUdp.
Import Parser.
Open Scope Z_scope.

Module UdpConfig.
Import RedUdp.

(** [section->data] and the list of instances, for each of the two. An instance of [dnstc] has
    one option, the address it listens on. *)
Record conf := mk_uconf {
  ud_data : option redudp_config;
  ud_instances : list redudp_config;
  dt_data : option sockaddr_in;
  dt_instances : list sockaddr_in }.

(** ** The section redudp *)

Definition redudp_entries : list (bytes * parser_type) :=
  [(lit "local_ip", pt_in_addr); (lit "local_port", pt_uint16); (lit "ip", pt_in_addr); (lit "port", pt_uint16);
   (lit "login", pt_pchar); (lit "password", pt_pchar); (lit "dest_ip", pt_in_addr); (lit "dest_port", pt_uint16);
   (lit "udp_timeout", pt_uint16); (lit "udp_timeout_stream", pt_uint16)].

Definition redudp_defaults : redudp_config :=
  mk_uconfig (mk_sockaddr Config.INADDR_LOOPBACK [0; 0]) (mk_sockaddr Config.INADDR_LOOPBACK [0; 0]) (mk_sockaddr [0; 0; 0; 0] [0; 0])
    None None 5 30 180.

Definition redudp_onenter (c : conf) : conf * bool :=
  (mk_uconf (Some redudp_defaults) (ud_instances c) (dt_data c) (dt_instances c), true).

(** Writing to [entry->addr], which [redudp_onenter] points at the field of this key. *)
Definition store_config (key : bytes) (v : value) (g : redudp_config) : redudp_config :=
  let addrs b r d := mk_uconfig b r d (u_login g) (u_password g) (max_pktqueue g) (udp_timeout g) (udp_timeout_stream g) in
  let strings l p := mk_uconfig (u_bindaddr g) (u_relayaddr g) (u_destaddr g) l p (max_pktqueue g) (udp_timeout g) (udp_timeout_stream g) in
  let times q t ts := mk_uconfig (u_bindaddr g) (u_relayaddr g) (u_destaddr g) (u_login g) (u_password g) q t ts in
  match v with
  | v_in_addr a =>
      if strcmp_eq key (lit "local_ip") then addrs (mk_sockaddr a (sin_port (u_bindaddr g))) (u_relayaddr g) (u_destaddr g)
      else if strcmp_eq key (lit "ip") then addrs (u_bindaddr g) (mk_sockaddr a (sin_port (u_relayaddr g))) (u_destaddr g)
      else if strcmp_eq key (lit "dest_ip") then addrs (u_bindaddr g) (u_relayaddr g) (mk_sockaddr a (sin_port (u_destaddr g))) else g
  | v_uint16 z =>
      if strcmp_eq key (lit "local_port") then addrs (mk_sockaddr (sin_addr (u_bindaddr g)) (le_bytes 2 z)) (u_relayaddr g) (u_destaddr g)
      else if strcmp_eq key (lit "port") then addrs (u_bindaddr g) (mk_sockaddr (sin_addr (u_relayaddr g)) (le_bytes 2 z)) (u_destaddr g)
      else if strcmp_eq key (lit "dest_port") then addrs (u_bindaddr g) (u_relayaddr g) (mk_sockaddr (sin_addr (u_destaddr g)) (le_bytes 2 z))
      else if strcmp_eq key (lit "max_pktqueue") then times z (udp_timeout g) (udp_timeout_stream g)
      else if strcmp_eq key (lit "udp_timeout") then times (max_pktqueue g) z (udp_timeout_stream g)
      else if strcmp_eq key (lit "udp_timeout_stream") then times (max_pktqueue g) (udp_timeout g) z else g
  | v_pchar s =>
      if strcmp_eq key (lit "login") then strings (Some s) (u_password g)
      else if strcmp_eq key (lit "password") then strings (u_login g) (Some s) else g
  | _ => g
  end.

Definition redudp_store (key : bytes) (v : value) (c : conf) : conf :=
  mk_uconf (store_config key v <$> ud_data c) (ud_instances c) (dt_data c) (dt_instances c).

(** [section->data] was set on entering the section. *)
Definition redudp_onexit (c : conf) : conf * bool :=
  match ud_data c with
  | None => (c, false)
  | Some g =>
      let g := mk_uconfig (Config.htons_port (u_bindaddr g)) (Config.htons_port (u_relayaddr g)) (Config.htons_port (u_destaddr g))
                 (u_login g) (u_password g) (max_pktqueue g) (udp_timeout g) (udp_timeout_stream g) in
      if udp_timeout_stream g <? udp_timeout g then (mk_uconf None (ud_instances c) (dt_data c) (dt_instances c), false)
      else (mk_uconf None (g :: ud_instances c) (dt_data c) (dt_instances c), true)
  end.

Definition redudp_conf_section : parser_section conf :=
  mk_section (lit "redudp") (Some redudp_onenter) (Some redudp_onexit) redudp_entries redudp_store.

(** ** The section dnstc *)

Definition dnstc_entries : list (bytes * parser_type) := [(lit "local_ip", pt_in_addr); (lit "local_port", pt_uint16)].

Definition dnstc_onenter (c : conf) : conf * bool :=
  (mk_uconf (ud_data c) (ud_instances c) (Some (mk_sockaddr Config.INADDR_LOOPBACK [0; 0])) (dt_instances c), true).

Definition store_bindaddr (key : bytes) (v : value) (a : sockaddr_in) : sockaddr_in :=
  match v with
  | v_in_addr ip => if strcmp_eq key (lit "local_ip") then mk_sockaddr ip (sin_port a) else a
  | v_uint16 z => if strcmp_eq key (lit "local_port") then mk_sockaddr (sin_addr a) (le_bytes 2 z) else a
  | _ => a
  end.
Definition dnstc_store (key : bytes) (v : value) (c : conf) : conf :=
  mk_uconf (ud_data c) (ud_instances c) (store_bindaddr key v <$> dt_data c) (dt_instances c).

Definition dnstc_onexit (c : conf) : conf * bool :=
  match dt_data c with
  | None => (c, false)
  | Some a => (mk_uconf (ud_data c) (ud_instances c) None (Config.htons_port a :: dt_instances c), true)
  end.

Definition dnstc_conf_section : parser_section conf :=
  mk_section (lit "dnstc") (Some dnstc_onenter) (Some dnstc_onexit) dnstc_entries dnstc_store.

Definition udp_sections : list (parser_section conf) := parser_add_section (parser_add_section [] redudp_conf_section) dnstc_conf_section.
Definition unconfigured : conf := mk_uconf None [] None [].

(** ** A file for given instances *)

Definition redudp_section_of (g : redudp_config) : bytes * list (bytes * bytes) :=
  (lit "redudp",
    [(lit "local_ip", inet_ntoa (sin_addr (u_bindaddr g))); (lit "local_port", fmt_u (Config.port (u_bindaddr g)));
     (lit "ip", inet_ntoa (sin_addr (u_relayaddr g))); (lit "port", fmt_u (Config.port (u_relayaddr g)))] ++
    Config.optional (lit "login") (u_login g) ++ Config.optional (lit "password") (u_password g) ++
    [(lit "dest_ip", inet_ntoa (sin_addr (u_destaddr g))); (lit "dest_port", fmt_u (Config.port (u_destaddr g)));
     (lit "udp_timeout", fmt_u (udp_timeout g)); (lit "udp_timeout_stream", fmt_u (udp_timeout_stream g))]).

Definition dnstc_section_of (a : sockaddr_in) : bytes * list (bytes * bytes) :=
  (lit "dnstc", [(lit "local_ip", inet_ntoa (sin_addr a)); (lit "local_port", fmt_u (Config.port a))]).

Definition file_of (gs : list redudp_config) (ds : list sockaddr_in) : bytes := print_config ((redudp_section_of <$> gs) ++ (dnstc_section_of <$> ds)).

(** The instances a file can describe: the length of the queue is not an option. *)
Record uconfig_ok (g : redudp_config) : Prop := {
  uo_bind : Config.addr_ok (u_bindaddr g);
  uo_relay : Config.addr_ok (u_relayaddr g);
  uo_dest : Config.addr_ok (u_destaddr g);
  uo_login : from_option Config.plain True (u_login g);
  uo_password : from_option Config.plain True (u_password g);
  uo_queue : max_pktqueue g = 5;
  uo_timeout : 0 <= udp_timeout g <= udp_timeout_stream g;
  uo_stream : udp_timeout_stream g < 2 ^ 16 }.

Section reading.
Context {P : Platform} (HM : 2 ^ 32 - 1 <= ULONG_MAX).

(** The section as it lies in memory before [redudp_onexit]. *)
Definition in_memory (g : redudp_config) : redudp_config :=
  mk_uconfig (Config.htons_port (u_bindaddr g)) (Config.htons_port (u_relayaddr g)) (Config.htons_port (u_destaddr g))
    (u_login g) (u_password g) (max_pktqueue g) (udp_timeout g) (udp_timeout_stream g).

Lemma settle_redudp g l d ds r : uconfig_ok g ->
  settle redudp_conf_section (redudp_section_of g).2 (mk_uconf (Some redudp_defaults) l d ds) r = (mk_uconf (Some (in_memory g)) l d ds, r, true).
Proof.
  intros [Hb Hr Hd _ _ Hq Ht Hts]. destruct (Config.port_bytes _ Hb) as [B3 B4]. destruct (Config.port_bytes _ Hr) as [R3 R4]. destruct (Config.port_bytes _ Hd) as [D3 D4].
  destruct Hb as (B1 & B2 & _). destruct Hr as (R1 & R2 & _). destruct Hd as (D1 & D2 & _). unfold redudp_section_of. cbn [snd app].
  rewrite (Config.settle_next _ _ _ pt_in_addr (v_in_addr (sin_addr (u_bindaddr g)))) by (done || by apply Config.read_addr).
  rewrite (Config.settle_next _ _ _ pt_uint16 (v_uint16 (Config.port (u_bindaddr g)))) by (done || by apply Config.read_uint16).
  rewrite (Config.settle_next _ _ _ pt_in_addr (v_in_addr (sin_addr (u_relayaddr g)))) by (done || by apply Config.read_addr).
  rewrite (Config.settle_next _ _ _ pt_uint16 (v_uint16 (Config.port (u_relayaddr g)))) by (done || by apply Config.read_uint16).
  unfold in_memory, Config.htons_port. rewrite <- B3, <- R3, <- D3, Hq.
  destruct (u_login g) as [x|], (u_password g) as [y|]; cbn [Config.optional app];
    try rewrite (Config.settle_next _ (lit "login") x pt_pchar (v_pchar x)) by done;
    try rewrite (Config.settle_next _ (lit "password") y pt_pchar (v_pchar y)) by done;
    rewrite (Config.settle_next _ _ _ pt_in_addr (v_in_addr (sin_addr (u_destaddr g)))) by (done || by apply Config.read_addr);
    rewrite (Config.settle_next _ _ _ pt_uint16 (v_uint16 (Config.port (u_destaddr g)))) by (done || by apply Config.read_uint16);
    rewrite (Config.settle_next _ _ _ pt_uint16 (v_uint16 (udp_timeout g))) by (done || (apply Config.read_uint16; [done|lia]));
    rewrite (Config.settle_next _ _ _ pt_uint16 (v_uint16 (udp_timeout_stream g))) by (done || (apply Config.read_uint16; [done|lia]));
    reflexivity.
Qed.

Lemma onexit_redudp g l d ds : udp_timeout g <= udp_timeout_stream g -> redudp_onexit (mk_uconf (Some (in_memory g)) l d ds) = (mk_uconf None (g :: l) d ds, true).
Proof.
  intros Ht. unfold redudp_onexit, in_memory. cbn [ud_data u_bindaddr u_relayaddr u_destaddr udp_timeout udp_timeout_stream]. rewrite !Config.htons_twice. destruct (Z.ltb_spec (udp_timeout_stream g) (udp_timeout g)); [lia|]. by destruct g.
Qed.

Lemma configure_redudp g cfg l d ds r : uconfig_ok g ->
  configure udp_sections (redudp_section_of g :: cfg) (mk_uconf None l d ds) r = configure udp_sections cfg (mk_uconf None (g :: l) d ds) r.
Proof.
  intros Hg. pose proof (settle_redudp g l d ds r Hg) as Hs. pose proof (onexit_redudp g l d ds (proj2 (uo_timeout _ Hg))) as He.
  change (redudp_section_of g) with (lit "redudp", (redudp_section_of g).2). cbn [configure]. change (find_section udp_sections (lit "redudp")) with (Some redudp_conf_section). cbv iota beta.
  change (run_callback (sec_onenter redudp_conf_section) (mk_uconf None l d ds)) with (mk_uconf (Some redudp_defaults) l d ds, true). cbv iota beta. cbn [negb]. rewrite Hs. cbn [negb].
  change (run_callback (sec_onexit redudp_conf_section)) with redudp_onexit. by rewrite He.
Qed.

Lemma configure_dnstc a cfg d l ds r : Config.addr_ok a ->
  configure udp_sections (dnstc_section_of a :: cfg) (mk_uconf d l None ds) r = configure udp_sections cfg (mk_uconf d l None (a :: ds)) r.
Proof.
  intros Ha. destruct (Config.port_bytes _ Ha) as [B3 B4]. pose proof Ha as (B1 & B2 & _). unfold dnstc_section_of. cbn [configure]. change (find_section udp_sections (lit "dnstc")) with (Some dnstc_conf_section). cbv iota beta.
  change (run_callback (sec_onenter dnstc_conf_section) (mk_uconf d l None ds)) with (mk_uconf d l (Some (mk_sockaddr Config.INADDR_LOOPBACK [0; 0])) ds, true). cbv iota beta. cbn [negb].
  rewrite (Config.settle_next _ _ _ pt_in_addr (v_in_addr (sin_addr a))) by (done || by apply Config.read_addr).
  rewrite (Config.settle_next _ _ _ pt_uint16 (v_uint16 (Config.port a))) by (done || by apply Config.read_uint16). cbn [settle negb].
  change (run_callback (sec_onexit dnstc_conf_section)) with dnstc_onexit.
  match goal with |- context [dnstc_onexit ?c] => replace c with (mk_uconf d l (Some (Config.htons_port a)) ds) by (unfold Config.htons_port; rewrite <- B3; reflexivity) end.
  unfold dnstc_onexit. cbn [dt_data ud_data ud_instances dt_instances]. by rewrite Config.htons_twice.
Qed.

Lemma configure_all gs ds l d r : Forall uconfig_ok gs -> Forall Config.addr_ok ds ->
  configure udp_sections ((redudp_section_of <$> gs) ++ (dnstc_section_of <$> ds)) (mk_uconf None l None d) r = (mk_uconf None (rev gs ++ l) None (rev ds ++ d), r, true).
Proof.
  intros Hg Hd. revert l. induction Hg as [|g gs Hok _ IH]; intros l; cbn [fmap list_fmap app rev].
  - revert d. induction Hd as [|a ds Ha _ IH]; intros d; [done|]. cbn [fmap list_fmap rev]. rewrite configure_dnstc by done. rewrite IH. by rewrite <- app_assoc.
  - rewrite configure_redudp by done. rewrite IH. by rewrite <- app_assoc.
Qed.

Lemma udp_file_ok gs ds : Forall uconfig_ok gs -> Forall Config.addr_ok ds -> config_ok ((redudp_section_of <$> gs) ++ (dnstc_section_of <$> ds)).
Proof.
  intros Hg Hd. apply Forall_app. split; apply Forall_fmap.
  - eapply Forall_impl; [exact Hg|]. intros g [Hb Hr Hds Hl Hp _ Ht Hts]. destruct (Config.port_bytes _ Hb) as [_ P2], (Config.port_bytes _ Hr) as [_ P4], (Config.port_bytes _ Hds) as [_ P6].
    destruct Hb as (B1 & B2 & _). destruct Hr as (R1 & R2 & _). destruct Hds as (D1 & D2 & _). split; [done|]. unfold redudp_section_of. cbn [snd].
    assert (Ho : forall k v, is_name k = true -> from_option Config.plain True v -> Forall entry_ok (Config.optional k v)).
    { intros k [v|] Hk Hv; [|constructor]. by constructor; [apply Config.entry_plain|constructor]. }
    rewrite !Forall_app. split_and!; [|by apply Ho|by apply Ho|]; repeat apply Forall_cons_2; try apply Forall_nil_2; (apply Config.entry_plain; [done|]); try (by apply Config.plain_ntoa); apply Config.plain_fmt; lia.
  - eapply Forall_impl; [exact Hd|]. intros a Ha. destruct (Config.port_bytes _ Ha) as [_ P2]. destruct Ha as (B1 & B2 & _). split; [done|]. cbn [snd dnstc_section_of].
    repeat apply Forall_cons_2; try apply Forall_nil_2; (apply Config.entry_plain; [done|]); [by apply Config.plain_ntoa|apply Config.plain_fmt; lia].
Qed.

(** The component with what was read, in a process with the descriptors [F]. *)
Definition fresh (g : redudp_config) : redudp_instance := mk_uinst g None [].
Definition relay_of_file (c : conf) (F : gset Z) (ans : list bool) : state :=
  mk_state ∅ (map_seq 0 (fresh <$> ud_instances c)) (seq 0 (length (ud_instances c))) ∅ F 0 ans [] [].

Lemma relay_configured c F base ans : fds_are F base -> configured base (relay_of_file c F ans).
Proof.
  intros HF. split; try done; cbn.
  - intros i x Hi. apply lookup_map_seq_Some in Hi as [_ Hi]. rewrite list_lookup_fmap in Hi. by apply fmap_Some in Hi as (g & _ & ->).
  - split; [apply NoDup_seq|]. intros i. rewrite elem_of_seq, lookup_map_seq_0, list_lookup_fmap, fmap_is_Some, lookup_lt_is_Some. lia.
Qed.

End reading.

(** ** Theorems *)

(** C33: The file printed for UDP relays and DNS responders, with any login and password
    that are C strings other than the six tokens of the parser ([plain]), the queue of five
    packets (no file can set another), and timeouts below 2^16 of which that of a stream is
    not the smaller, is read back as exactly these, in the reverse order of the file, as the
    lists keep them; and the UDP relays that were read can be started: whatever calls other
    than [event_add] fail ([socket_closed_twice] is that case), either each of them waits
    for packets with its configuration, or every descriptor that was opened is closed. *)
Theorem udp_file_starts {P : Platform} gs ds rnd F base ans :
  2 ^ 32 - 1 <= ULONG_MAX -> Forall uconfig_ok gs -> Forall Config.addr_ok ds -> fds_are F base ->
  exists c, parser_run udp_sections (file_of gs ds) unconfigured rnd = Ran true c /\ ud_instances c = rev gs /\ dt_instances c = rev ds /\
    exists b s', redudp_init (relay_of_file c F ans) = Some (b, s') /\
      if b : bool then forall i g, rev gs !! i = Some g -> exists y, instances s' !! i = Some y /\ i_config y = g /\ is_Some (i_listener y) else released base s'.
Proof.
  intros HM Hg Hd HF. exists (mk_uconf None (rev gs) None (rev ds)). split_and!; [|done..|].
  - unfold file_of. rewrite run_config by (by apply udp_file_ok). unfold unconfigured. rewrite configure_all by done. by rewrite !app_nil_r.
  - set (c := mk_uconf _ _ _ _). destruct (ru_run _ _ _ (redudp_init_ok _ _ (relay_configured c F base ans HF))) as (b & s' & Hs & Hb). exists b, s'. split; [done|]. destruct b; [|done].
    destruct Hb as (_ & Hl & El & Ei). intros i g Hi. destruct (Hl i) as (y & Ey & Hli).
    + rewrite El. cbn. apply lookup_lt_Some in Hi. apply elem_of_seq. lia.
    + exists y. split; [done|]. split; [|done]. specialize (Ei i). rewrite Ey in Ei. cbn in Ei. rewrite lookup_map_seq_0, list_lookup_fmap, Hi in Ei. cbn in Ei. congruence.
Qed.

(** ** A 64-bit phone *)

#[local] Instance phone : Platform := {| ULONG_MAX := 2 ^ 64 - 1; getaddrinfo := fun _ => None |}.

Definition some_relay : redudp_config := mk_uconfig (Config.some_addr [39; 16]) (Config.some_addr [4; 56]) (mk_sockaddr [8; 8; 8; 8] [0; 53]) (Some (lit "me")) None 5 30 180.
Definition some_dns : sockaddr_in := Config.some_addr [20; 233].

Lemma some_addr_ok p : length p = 2%nat -> is_bytes p -> Config.addr_ok (Config.some_addr p).
Proof. intros Hl Hb. split_and!; [done|by apply (bool_decide_unpack _)|done|done]. Qed.

Lemma some_relay_ok : uconfig_ok some_relay.
Proof.
  split; cbn; try lia; try done; try (apply some_addr_ok; [done|by apply (bool_decide_unpack _)]).
  all: split_and!; try done; by apply (bool_decide_unpack _).
Qed.

Lemma udp_file_starts_witness :
  exists c, parser_run udp_sections (file_of [some_relay] [some_dns]) unconfigured [] = Ran true c /\ ud_instances c = [some_relay] /\ dt_instances c = [some_dns] /\
    exists b s', redudp_init (relay_of_file c {[0; 1; 2]} []) = Some (b, s') /\
      if b : bool then forall i g, [some_relay] !! i = Some g -> exists y, instances s' !! i = Some y /\ i_config y = g /\ is_Some (i_listener y) else released [0; 1; 2] s'.
Proof.
  apply (udp_file_starts [some_relay] [some_dns] [] {[0; 1; 2]} [0; 1; 2] []); [cbn; lia|constructor; [apply some_relay_ok|constructor]| |].
  - constructor; [apply some_addr_ok; [done|by apply (bool_decide_unpack _)]|constructor].
  - split; [apply (bool_decide_unpack _); vm_compute; exact I|]. intros fd. set_solver.
Defined.

(** [redudp_onenter] has an address for the key [max_pktqueue], but the section has no such
    entry: a file that sets it is refused. *)
Theorem max_pktqueue_refused :
  exists c, parser_run udp_sections (print_config [(lit "redudp", [(lit "max_pktqueue", lit "7")])]) unconfigured [] = Ran false c.
Proof. eexists. vm_compute. reflexivity. Qed.
End UdpConfig.
