(* ===== verification/Dnstc.v ===== *)
(** * DNS over TCP enforced: dnstc.c

    An instance answers every DNS query that comes by UDP with the query itself, marked as a
    truncated answer, so that the client asks again by TCP, which is redirected.

    The component shares the descriptors, the results of calls and the datagrams that were sent
    with the UDP relay, so it is modelled in the monad of [RedUdp], and its theorems say what it
    leaves of the state of the other. *)

From S2P Require Import Prelude World Redsocks RedUdp.
Open Scope Z_scope.

Module Dnstc.
Import RedUdp.

(** ** Packets *)

Definition sizeof_dns_header : Z := 12.
Definition DNS_QR : Z := 0x80.
Definition DNS_TC : Z := 0x02.
Definition DNS_Z : Z := 0x70.

(** The fields of [dns_header]: two bytes of flags, and counters of two bytes. *)
Definition qr_opcode_aa_tc_rd (buf : bytes) : Z := byte 2 buf.
Definition ra_z_rcode (buf : bytes) : Z := byte 3 buf.
Definition counter (n : nat) (buf : bytes) : Z := le_value (take 2 (drop n buf)).
Definition qdcount : bytes -> Z := counter 4.
Definition ancount : bytes -> Z := counter 6.
Definition nscount : bytes -> Z := counter 8.
Definition arcount : bytes -> Z := counter 10.

Definition is_query (buf : bytes) : bool :=
  (Z.land (qr_opcode_aa_tc_rd buf) DNS_QR =? 0) && (Z.land (ra_z_rcode buf) DNS_Z =? 0) && negb (qdcount buf =? 0) &&
  (ancount buf =? 0) && (nscount buf =? 0) && (arcount buf =? 0).

Definition truncated (buf : bytes) : bytes := <[2%nat := Z.lor (Z.lor (qr_opcode_aa_tc_rd buf) DNS_QR) DNS_TC]> buf.

Definition dnstc_pkt_from_client (fd : Z) (clientaddr : sockaddr_in) (buf : bytes) : M unit :=
  if zlen buf <=? sizeof_dns_header then mret tt
  else if is_query buf then send fd clientaddr (truncated buf) else mret tt.

(** ** Start and end *)

Record dnstc_instance := mk_dnstc { dt_bindaddr : sockaddr_in; dt_listener : option Z }.

(** [close], which must be of an open descriptor. *)
Definition close (fd : Z) : M unit :=
  s ← get;
  assert (bool_decide (fd ∈ fds s));;
  modify (set_fds (fds s ∖ {[fd]})).

Definition dnstc_fini_instance (x : dnstc_instance) : M unit :=
  match dt_listener x with Some fd => close fd | None => mret tt end.

(** The instance with its listener, or nothing if it was given up. *)
Definition dnstc_init_instance (x : dnstc_instance) : M (option dnstc_instance) :=
  r ← socket;
  match r with
  | None => dnstc_fini_instance x;; mret None
  | Some fd =>
      let fail x := dnstc_fini_instance x;; close fd;; mret None in
      ok ← ask;                                                     (* bind *)
      if negb ok then fail x else
      ok ← ask;                                                     (* fcntl_nonblock *)
      if negb ok then fail x else
      let x := mk_dnstc (dt_bindaddr x) (Some fd) in                (* event_set *)
      ok ← event_add;
      if negb ok then fail x else mret (Some x)
  end.

Fixpoint fini_each (l : list dnstc_instance) : M unit := match l with [] => mret tt | x :: l => dnstc_fini_instance x;; fini_each l end.
(** [dnstc_fini] with the list of instances. *)
Definition dnstc_fini (l : list dnstc_instance) : M unit := fini_each l.

(** The instances that were started, and those still to start; whether all were, and the list. *)
Fixpoint init_rest (started l : list dnstc_instance) : M (bool * list dnstc_instance) :=
  match l with
  | [] => mret (true, started)
  | x :: l =>
      r ← dnstc_init_instance x;
      match r with
      | Some x => init_rest (started ++ [x]) l
      | None => dnstc_fini (started ++ l);; mret (false, [])
      end
  end.
Definition dnstc_init (l : list dnstc_instance) : M (bool * list dnstc_instance) := init_rest [] l.

(** ** Lemmas *)

Definition listeners (l : list dnstc_instance) : list Z := omap dt_listener l.

Lemma listeners_app l k : listeners (l ++ k) = listeners l ++ listeners k.
Proof. apply omap_app. Qed.

(** The descriptors of the rest of the program may change their order, or be held by a local
    variable. *)
Lemma good_base base base' X X' s : base' ++ X' ≡ₚ base ++ X -> good base X [] s -> good base' X' [] s.
Proof.
  intros E [[Hf Hc Hm Hnd Hb Hs Hn Hls Hil] Ha]. split; [|done]. split; try done. rewrite app_assoc, E, <- app_assoc. done.
Qed.

Lemma close_ok base fd (Q : unit -> state -> Prop) s : good (fd :: base) [] [] s -> (forall s', good base [] [] s' -> Q tt s') -> wp (close fd) Q s.
Proof.
  intros H HQ. apply (ru_close_local base [] [] fd); [|intros F HF; by apply HQ]. eapply good_base; [|exact H]. rewrite app_nil_r. symmetry. apply Permutation_cons_append.
Qed.

Lemma fini_instance_closes base x (Q : unit -> state -> Prop) s : good (option_list (dt_listener x) ++ base) [] [] s -> (forall s', good base [] [] s' -> Q tt s') -> wp (dnstc_fini_instance x) Q s.
Proof. intros H HQ. unfold dnstc_fini_instance. destruct (dt_listener x) as [fd|]; [eapply close_ok; [exact H|exact HQ]|]. apply ru_ret. by apply HQ. Qed.

Lemma fini_each_closes base l : forall s, good (listeners l ++ base) [] [] s -> wp (fini_each l) (fun _ s' => good base [] [] s') s.
Proof.
  induction l as [|x l IH]; intros s H; cbn [fini_each]; [by apply ru_ret|]. apply ru_bind. eapply (fini_instance_closes (listeners l ++ base)); [|by apply IH].
  cbn in H. by destruct (dt_listener x).
Qed.

Lemma init_instance_opens base x (Q : option dnstc_instance -> state -> Prop) s :
  good base [] [] s -> dt_listener x = None -> (forall s', good base [] [] s' -> Q None s') ->
  (forall fd s', good (fd :: base) [] [] s' -> Q (Some (mk_dnstc (dt_bindaddr x) (Some fd))) s') -> wp (dnstc_init_instance x) Q s.
Proof.
  intros H Hx H0 H1. unfold dnstc_init_instance. apply ru_bind. eapply ru_socket; [exact H| |].
  - intros l. unfold dnstc_fini_instance. rewrite Hx. by apply ru_bind, ru_ret, ru_ret, H0.
  - intros fd l F Hg. apply (good_base _ (fd :: base) _ []) in Hg; [|rewrite app_nil_r; apply Permutation_cons_append]. cbv zeta.
    assert (Hfail : forall s', good (fd :: base) [] [] s' -> wp (dnstc_fini_instance x;; close fd;; mret None) Q s').
    { intros s' Hs'. unfold dnstc_fini_instance. rewrite Hx. apply ru_bind, ru_ret, ru_bind. eapply close_ok; [exact Hs'|]. intros s2 H2. by apply ru_ret, H0. }
    do 2 (apply ru_bind, ru_ask; intros [] ?; cbn [negb]; [|by apply Hfail]). apply ru_bind, ru_event_add; [apply Hg|]. cbn [negb]. apply ru_ret. by apply H1.
Qed.

Lemma init_rest_opens base l : forall started s,
  good (listeners started ++ base) [] [] s -> Forall (fun x => dt_listener x = None) l ->
  wp (init_rest started l) (fun r s' => good (listeners r.2 ++ base) [] [] s' /\ if r.1 : bool then exists k, r.2 = started ++ k /\ dt_bindaddr <$> k = dt_bindaddr <$> l /\ Forall (fun x => is_Some (dt_listener x)) k else r.2 = []) s.
Proof.
  induction l as [|x l IH]; intros started s H Hl; cbn [init_rest].
  - apply ru_ret. split; [done|]. exists []. by rewrite app_nil_r.
  - apply Forall_cons in Hl as [Hx Hl]. apply ru_bind. eapply init_instance_opens; [exact H|done| |].
    + intros s' H'. assert (El : listeners l = []) by (clear -Hl; induction Hl as [|y l E _ IH]; [done|]; cbn; by rewrite E). apply ru_bind. eapply ru_mono.
      * apply (fini_each_closes base). rewrite listeners_app, El, app_nil_r. exact H'.
      * intros [] s2 H2. by apply ru_ret.
    + intros fd s' H'. set (y := mk_dnstc _ _). eapply ru_mono; [apply (IH (started ++ [y])); [|done]|].
      * eapply good_base; [|exact H']. rewrite listeners_app. cbn. rewrite !app_nil_r, <- app_assoc. cbn. by rewrite <- Permutation_middle.
      * intros [[] r] s2 [H2 Hr]; cbn in *; [|done]. split; [done|]. destruct Hr as (k & -> & Ek & Hk). exists (y :: k). rewrite <- app_assoc. split; [done|]. cbn. rewrite Ek. split; [done|]. constructor; [by eexists|done].
Qed.

(** ** DNS messages *)

(** A message as RFC 1035 describes it, its questions and records as bytes; [m_z] are the three
    bits the RFC reserves. *)
Record message := mk_message {
  m_id : bytes;
  m_qr : bool; m_opcode : Z; m_aa : bool; m_tc : bool; m_rd : bool;
  m_ra : bool; m_z : Z; m_rcode : Z;
  m_qdcount : Z; m_ancount : Z; m_nscount : Z; m_arcount : Z;
  m_body : bytes }.

Record message_ok (m : message) : Prop := {
  mo_id : length (m_id m) = 2%nat;
  mo_opcode : 0 <= m_opcode m < 16;
  mo_z : 0 <= m_z m < 8;
  mo_rcode : 0 <= m_rcode m < 16;
  mo_counts : Forall (fun n => 0 <= n < 65536) [m_qdcount m; m_ancount m; m_nscount m; m_arcount m] }.

Definition flags1 (qr : bool) (opcode : Z) (aa tc rd : bool) : Z :=
  128 * Z.b2z qr + 8 * opcode + 4 * Z.b2z aa + 2 * Z.b2z tc + Z.b2z rd.
Definition flags2 (ra : bool) (z rcode : Z) : Z := 128 * Z.b2z ra + 16 * z + rcode.

(** The message on the wire. *)
Definition encode (m : message) : bytes :=
  m_id m ++ [flags1 (m_qr m) (m_opcode m) (m_aa m) (m_tc m) (m_rd m); flags2 (m_ra m) (m_z m) (m_rcode m)] ++
  be_bytes 2 (m_qdcount m) ++ be_bytes 2 (m_ancount m) ++ be_bytes 2 (m_nscount m) ++ be_bytes 2 (m_arcount m) ++ m_body m.

(** A question and nothing else: not a response, the reserved bits zero, questions and no records. *)
Definition asks (m : message) : bool :=
  negb (m_qr m) && (m_z m =? 0) && negb (m_qdcount m =? 0) && (m_ancount m =? 0) && (m_nscount m =? 0) && (m_arcount m =? 0) &&
  negb (bool_decide (m_body m = [])).

(** The same message as a truncated response. *)
Definition refused (m : message) : message :=
  mk_message (m_id m) true (m_opcode m) (m_aa m) true (m_rd m) (m_ra m) (m_z m) (m_rcode m)
    (m_qdcount m) (m_ancount m) (m_nscount m) (m_arcount m) (m_body m).

Lemma all_of (f : Z -> bool) n k : forallb f (seqZ 0 n) = true -> 0 <= k < n -> f k = true.
Proof. intros H Hk. eapply (proj1 (forallb_forall _ _)); [exact H|]. apply list_elem_of_In, elem_of_seqZ. lia. Qed.

Lemma flags1_bits qr opcode aa tc rd : 0 <= opcode < 16 ->
  (Z.land (flags1 qr opcode aa tc rd) DNS_QR =? 0) = negb qr /\
  Z.lor (Z.lor (flags1 qr opcode aa tc rd) DNS_QR) DNS_TC = flags1 true opcode aa true rd.
Proof.
  intros Ho. apply (all_of (fun o => Bool.eqb (Z.land (flags1 qr o aa tc rd) DNS_QR =? 0) (negb qr) &&
    (Z.lor (Z.lor (flags1 qr o aa tc rd) DNS_QR) DNS_TC =? flags1 true o aa true rd))) in Ho.
  - apply andb_true_iff in Ho as [H1%eqb_prop H2%Z.eqb_eq]. done.
  - destruct qr, aa, tc, rd; vm_compute; reflexivity.
Qed.

Lemma flags2_bits ra z rcode : 0 <= z < 8 -> 0 <= rcode < 16 -> (Z.land (flags2 ra z rcode) DNS_Z =? 0) = (z =? 0).
Proof.
  intros Hz Hr. apply (all_of (fun z => forallb (fun r => Bool.eqb (Z.land (flags2 ra z r) DNS_Z =? 0) (z =? 0)) (seqZ 0 16))) in Hz.
  - pose proof (all_of _ 16 rcode Hz Hr) as E. by apply eqb_prop in E.
  - destruct ra; vm_compute; reflexivity.
Qed.

(** Every two bytes of flags are those of a message. *)
Lemma flags_decode a b : 0 <= a < 256 -> 0 <= b < 256 -> exists qr opcode aa tc rd ra z rcode,
  a = flags1 qr opcode aa tc rd /\ b = flags2 ra z rcode /\ 0 <= opcode < 16 /\ 0 <= z < 8 /\ 0 <= rcode < 16.
Proof.
  intros Ha Hb. exists (Z.testbit a 7), (a / 8 mod 16), (Z.testbit a 2), (Z.testbit a 1), (Z.testbit a 0), (Z.testbit b 7), (b / 16 mod 8), (b mod 16).
  split_and!; try (apply Z.mod_pos_bound; lia).
  - apply Z.eqb_eq. eapply (all_of (fun a => a =? flags1 (Z.testbit a 7) (a / 8 mod 16) (Z.testbit a 2) (Z.testbit a 1) (Z.testbit a 0))); [|exact Ha]. vm_compute. reflexivity.
  - apply Z.eqb_eq. eapply (all_of (fun b => b =? flags2 (Z.testbit b 7) (b / 16 mod 8) (b mod 16))); [|exact Hb]. vm_compute. reflexivity.
Qed.

Lemma be_bytes2 n : be_bytes 2 n = [n / 256 mod 256; n mod 256].
Proof. cbv [be_bytes le_bytes rev app]. unfold u8. by rewrite Z.shiftr_div_pow2 by lia. Qed.
Lemma be_bytes2_zero n : 0 <= n < 65536 -> (le_value (be_bytes 2 n) =? 0) = (n =? 0).
Proof. intros Hn. rewrite be_bytes2. cbn [le_value]. apply Bool.eq_iff_eq_true. rewrite !Z.eqb_eq. split; intros E; Z.div_mod_to_equations; lia. Qed.
Lemma be_bytes2_decode a b : 0 <= a < 256 -> 0 <= b < 256 -> exists n, 0 <= n < 65536 /\ [a; b] = be_bytes 2 n.
Proof.
  intros Ha Hb. exists (256 * a + b). split; [lia|]. rewrite be_bytes2.
  replace ((256 * a + b) / 256) with a by (apply Z.div_unique with b; lia). replace ((256 * a + b) mod 256) with b by (apply Z.mod_unique with a; lia).
  by rewrite Z.mod_small by lia.
Qed.

Lemma encode_length m : message_ok m -> zlen (encode m) = 12 + zlen (m_body m).
Proof. intros []. unfold encode, zlen. rewrite !length_app. cbn [length be_bytes le_bytes rev app]. lia. Qed.

Lemma encode_fields m : message_ok m ->
  is_query (encode m) = negb (m_qr m) && (m_z m =? 0) && negb (m_qdcount m =? 0) && (m_ancount m =? 0) && (m_nscount m =? 0) && (m_arcount m =? 0) /\
  truncated (encode m) = encode (refused m).
Proof.
  intros [Hid Ho Hz Hr Hc]. destruct m as [id qr op aa tc rd ra z rc qd an ns ar body]. cbn [m_id m_qr m_opcode m_aa m_tc m_rd m_ra m_z m_rcode m_qdcount m_ancount m_nscount m_arcount m_body] in *.
  destruct id as [|i1 [|i2 [|]]]; try done. rewrite !Forall_cons in Hc. destruct Hc as (Hqd & Han & Hns & Har & _).
  destruct (flags1_bits qr op aa tc rd Ho) as [E1 E2]. unfold is_query, truncated, encode, refused, qdcount, ancount, nscount, arcount, counter, qr_opcode_aa_tc_rd, ra_z_rcode, byte.
  cbn [m_id m_qr m_opcode m_aa m_tc m_rd m_ra m_z m_rcode m_qdcount m_ancount m_nscount m_arcount m_body app nth]. rewrite E1, E2, (flags2_bits ra z rc Hz Hr).
  split; [|done]. rewrite <- (be_bytes2_zero qd Hqd), <- (be_bytes2_zero an Han), <- (be_bytes2_zero ns Hns), <- (be_bytes2_zero ar Har). done.
Qed.

Lemma decode buf : is_bytes buf -> 12 <= zlen buf -> exists m, message_ok m /\ buf = encode m.
Proof.
  intros Hb Hl. do 12 (destruct buf as [|? buf]; [by cbv in Hl|]). rename z into i1, z0 into i2. unfold is_bytes in Hb. rewrite !Forall_cons in Hb.
  destruct Hb as (? & ? & Ha & Hb & C1 & C2 & C3 & C4 & C5 & C6 & C7 & C8 & _). destruct (flags_decode _ _ Ha Hb) as (qr & op & aa & tc & rd & ra & z & rc & -> & -> & ? & ? & ?).
  destruct (be_bytes2_decode _ _ C1 C2) as (qd & ? & E1), (be_bytes2_decode _ _ C3 C4) as (an & ? & E2), (be_bytes2_decode _ _ C5 C6) as (ns & ? & E3), (be_bytes2_decode _ _ C7 C8) as (ar & ? & E4).
  exists (mk_message [i1; i2] qr op aa tc rd ra z rc qd an ns ar buf). split; [split; try done; cbn; by rewrite !Forall_cons, Forall_nil|]. unfold encode. cbn [m_id m_qr m_opcode m_aa m_tc m_rd m_ra m_z m_rcode m_qdcount m_ancount m_nscount m_arcount m_body].
  rewrite <- E1, <- E2, <- E3, <- E4. done.
Qed.

(** ** Theorems *)

(** C29: Every packet of at least a header is a DNS message. One that is a query, with the
    reserved bits zero, with questions and without any records, is answered to its sender with
    the same message in which "response" and "truncated" are set and nothing else is changed;
    any other message, and any packet that is shorter or ends with the header, is left
    unanswered. [send] is the [sendto] of the answer, which may fail. *)
Theorem dnstc_answers fd from s :
  (forall m, message_ok m -> dnstc_pkt_from_client fd from (encode m) s = (if asks m then send fd from (encode (refused m)) else mret tt) s) /\
  (forall buf, zlen buf <= 12 -> dnstc_pkt_from_client fd from buf s = Some (tt, s)) /\
  (forall buf, is_bytes buf -> 12 <= zlen buf -> exists m, message_ok m /\ buf = encode m).
Proof.
  split_and!; [|intros buf Hl; unfold dnstc_pkt_from_client, sizeof_dns_header; by rewrite (proj2 (Z.leb_le _ _) Hl)|exact decode].
  intros m Hm. destruct (encode_fields m Hm) as [E1 E2]. unfold dnstc_pkt_from_client, asks. rewrite E1, E2, (encode_length m Hm).
  destruct (m_body m) as [|x l] eqn:Eb; [by rewrite bool_decide_eq_true_2, andb_false_r|]. rewrite bool_decide_eq_false_2, andb_true_r by done.
  rewrite (proj2 (Z.leb_gt _ _)); [by case_match|]. unfold zlen, sizeof_dns_header. cbn [length]. lia.
Qed.

(** Beside a UDP relay in any state it reaches, [dnstc_init], whatever calls fail (all but
    [event_add]), opens a listener for each instance, or leaves nothing open of them; [dnstc_fini]
    closes them. Each open descriptor is owned once, and those of the relay are left alone. *)
Theorem dnstc_starts_and_stops base l s :
  reaches base s -> Forall (fun x => dt_listener x = None) l ->
  exists b k s', dnstc_init l s = Some ((b, k), s') /\ fds_are (fds s') (listeners k ++ base ++ owned (clients s') (instances s') (bound_udp4 s')) /\
    (if b : bool then dt_bindaddr <$> k = dt_bindaddr <$> l /\ Forall (fun x => is_Some (dt_listener x)) k else k = []) /\
    exists s'', dnstc_fini k s' = Some (tt, s'') /\ fds_are (fds s'') (base ++ owned (clients s'') (instances s'') (bound_udp4 s'')).
Proof.
  intros H%reaches_good Hl. destruct (ru_run _ _ _ (init_rest_opens base l [] s H Hl)) as ([b k] & s' & Hs & Hg & Hk). cbn [fst snd] in *. exists b, k, s'. split; [done|]. split; [rewrite app_assoc; apply Hg|]. split.
  - destruct b; [|done]. destruct Hk as (k' & -> & Hk'). done.
  - destruct (ru_run _ _ _ (fini_each_closes base k s' Hg)) as ([] & s'' & Hs'' & Hg''). exists s''. split; [done|]. apply Hg''.
Qed.

(** ** Witnesses *)

(** A query for a name of one letter. *)
Definition some_query : bytes := [18; 52; 1; 0; 0; 1; 0; 0; 0; 0; 0; 0; 1; 97; 0; 0; 1; 0; 1].
Definition some_instances : list dnstc_instance := [mk_dnstc (Demo.host 1) None; mk_dnstc (Demo.host 3) None].

Definition some_message : message := mk_message [18; 52] false 0 false false true false 0 0 1 0 0 0 [1; 97; 0; 0; 1; 0; 1].

Lemma dnstc_answers_witness :
  dnstc_pkt_from_client 6 (Demo.host 7) some_query Demo.relaying = Some (tt, set_sent (sent Demo.relaying ++ [(6, Demo.host 7, [18; 52; 131; 0; 0; 1; 0; 0; 0; 0; 0; 0; 1; 97; 0; 0; 1; 0; 1])]) Demo.relaying).
Proof.
  destruct (dnstc_answers 6 (Demo.host 7) Demo.relaying) as [H _]. assert (Hm : message_ok some_message) by (split; try done; by apply (bool_decide_unpack _)).
  specialize (H some_message Hm). exact H.
Defined.

Lemma dnstc_starts_and_stops_witness :
  exists b k s', dnstc_init some_instances Demo.relaying = Some ((b, k), s') /\ fds_are (fds s') (listeners k ++ [0; 1; 2] ++ owned (clients s') (instances s') (bound_udp4 s')).
Proof.
  destruct (dnstc_starts_and_stops [0; 1; 2] some_instances Demo.relaying) as (b & k & s' & H1 & H2 & _); [apply Demo.relaying_reached|apply Forall_cons_2; [done|apply Forall_cons_2; [done|apply Forall_nil_2]]|]. exists b, k, s'. split; [exact H1|exact H2].
Defined.

(** When [event_add] fails on a listener it is closed by [dnstc_fini_instance], since the event
    is set, and then again. *)
Theorem listener_closed_twice : dnstc_init [mk_dnstc (Demo.host 1) None] (set_adds [false] Demo.relaying) = None.
Proof. vm_compute. reflexivity. Qed.

End Dnstc.
