(* ===== verification/KList.v ===== *)
(** * Intrusive lists: list.h

    The doubly linked circular lists in which redsocks keeps its instances, clients and queued
    packets. A node is an address with a successor and a predecessor; a list is a head node with
    its entries in a ring. The rest of the development has these lists as Rocq lists; here each
    operation is shown to do to the ring what it does there.

    [None] is an access to an address at which there is no node, such as the values [list_del]
    leaves behind. *)

From S2P Require Import Prelude.
Open Scope Z_scope.

Module KList.

(** ** Nodes *)

Record list_head := mk_node { next : Z; prev : Z }.

Abbreviation heap := (gmap Z list_head).

Definition get_next (a : Z) (h : heap) : option Z := next <$> h !! a.
Definition get_prev (a : Z) (h : heap) : option Z := prev <$> h !! a.
Definition set_next (a v : Z) (h : heap) : option heap := x ← h !! a; Some (<[a := mk_node v (prev x)]> h).
Definition set_prev (a v : Z) (h : heap) : option heap := x ← h !! a; Some (<[a := mk_node (next x) v]> h).

Definition LIST_POISON1 : Z := 0x00100100.
Definition LIST_POISON2 : Z := 0x00200200.

(** ** Operations *)

Definition INIT_LIST_HEAD (list : Z) (h : heap) : option heap :=
  h ← set_next list list h; set_prev list list h.

Definition __list_add (new prev next : Z) (h : heap) : option heap :=
  h ← set_prev next new h; h ← set_next new next h; h ← set_prev new prev h; set_next prev new h.
Definition list_add (new head : Z) (h : heap) : option heap :=
  n ← get_next head h; __list_add new head n h.
Definition list_add_tail (new head : Z) (h : heap) : option heap :=
  p ← get_prev head h; __list_add new p head h.

Definition __list_del (prev next : Z) (h : heap) : option heap :=
  h ← set_prev next prev h; set_next prev next h.
Definition unlink (entry : Z) (h : heap) : option heap :=
  p ← get_prev entry h; n ← get_next entry h; __list_del p n h.
Definition list_del (entry : Z) (h : heap) : option heap :=
  h ← unlink entry h; h ← set_next entry LIST_POISON1 h; set_prev entry LIST_POISON2 h.
Definition list_del_init (entry : Z) (h : heap) : option heap :=
  h ← unlink entry h; INIT_LIST_HEAD entry h.
Definition list_move (list head : Z) (h : heap) : option heap :=
  h ← unlink list h; list_add list head h.
Definition list_move_tail (list head : Z) (h : heap) : option heap :=
  h ← unlink list h; list_add_tail list head h.

Definition list_replace (old new : Z) (h : heap) : option heap :=
  n ← get_next old h; h ← set_next new n h;
  n ← get_next new h; h ← set_prev n new h;
  p ← get_prev old h; h ← set_prev new p h;
  p ← get_prev new h; set_next p new h.
Definition list_replace_init (old new : Z) (h : heap) : option heap :=
  h ← list_replace old new h; INIT_LIST_HEAD old h.

Definition list_is_last (list head : Z) (h : heap) : option bool :=
  n ← get_next list h; Some (n =? head).
Definition list_empty (head : Z) (h : heap) : option bool :=
  n ← get_next head h; Some (n =? head).
Definition list_empty_careful (head : Z) (h : heap) : option bool :=
  n ← get_next head h; if n =? head then p ← get_prev head h; Some (n =? p) else Some false.

Definition __list_splice (list head : Z) (h : heap) : option heap :=
  first ← get_next list h; last ← get_prev list h; at_ ← get_next head h;
  h ← set_prev first head h; h ← set_next head first h;
  h ← set_next last at_ h; set_prev at_ last h.
Definition list_splice (list head : Z) (h : heap) : option heap :=
  e ← list_empty list h; if e : bool then Some h else __list_splice list head h.
Definition list_splice_init (list head : Z) (h : heap) : option heap :=
  e ← list_empty list h; if e : bool then Some h else h ← __list_splice list head h; INIT_LIST_HEAD list h.

(** The loops: the nodes that are visited, with [fuel] for the number of them; and
    [list_for_each_safe], whose body may take the node it is called with out of the list. *)
Fixpoint each_from (fuel : nat) (pos head : Z) (h : heap) : option (list Z) :=
  if pos =? head then Some [] else
  match fuel with
  | O => None
  | S fuel => n ← get_next pos h; l ← each_from fuel n head h; Some (pos :: l)
  end.
Definition list_for_each (fuel : nat) (head : Z) (h : heap) : option (list Z) :=
  n ← get_next head h; each_from fuel n head h.
Fixpoint each_back (fuel : nat) (pos head : Z) (h : heap) : option (list Z) :=
  if pos =? head then Some [] else
  match fuel with
  | O => None
  | S fuel => p ← get_prev pos h; l ← each_back fuel p head h; Some (pos :: l)
  end.
Definition list_for_each_prev (fuel : nat) (head : Z) (h : heap) : option (list Z) :=
  p ← get_prev head h; each_back fuel p head h.

Fixpoint safe_from (body : Z -> heap -> option heap) (fuel : nat) (pos n head : Z) (h : heap) : option heap :=
  if pos =? head then Some h else
  match fuel with
  | O => None
  | S fuel => h ← body pos h; n' ← get_next n h; safe_from body fuel n n' head h
  end.
Definition list_for_each_safe (body : Z -> heap -> option heap) (fuel : nat) (head : Z) (h : heap) : option heap :=
  pos ← get_next head h; n ← get_next pos h; safe_from body fuel pos n head h.

(** ** Rings *)

Definition link (h : heap) (a b : Z) : Prop := get_next a h = Some b /\ get_prev b h = Some a.

(** Each node of [c] is linked with the one behind it. *)
Fixpoint path (h : heap) (c : list Z) : Prop :=
  match c with
  | a :: ((b :: _) as c') => link h a b /\ path h c'
  | _ => True
  end.

Definition ring (h : heap) (head : Z) (l : list Z) : Prop := path h (head :: l ++ [head]).

Lemma path_cat h a c1 b c2 : path h ((a :: c1) ++ (b :: c2)) <-> path h (a :: c1) /\ link h (List.last c1 a) b /\ path h (b :: c2).
Proof.
  revert a. induction c1 as [|x c1 IH]; intros a; [cbn; tauto|]. change ((a :: x :: c1) ++ b :: c2) with (a :: ((x :: c1) ++ b :: c2)).
  change (path h (a :: (x :: c1) ++ b :: c2)) with (link h a x /\ path h ((x :: c1) ++ b :: c2)). rewrite IH. change (path h (a :: x :: c1)) with (link h a x /\ path h (x :: c1)).
  rewrite last_of_cons. tauto.
Qed.

(** Two heaps agree on what a path reads. *)
Lemma path_frame h h' a c :
  path h (a :: c) -> (forall x, x ∈ removelast (a :: c) -> get_next x h' = get_next x h) -> (forall x, x ∈ c -> get_prev x h' = get_prev x h) -> path h' (a :: c).
Proof.
  revert a. induction c as [|b c IH]; intros a Hp Hn Hv; [done|]. destruct Hp as [[Hl1 Hl2] Hp]. change (removelast (a :: b :: c)) with (a :: removelast (b :: c)) in Hn. split.
  - split; [rewrite Hn by left; done|rewrite Hv by left; done].
  - apply IH; [done| |]; [intros x Hx; apply Hn; by right|intros x Hx; apply Hv; by right].
Qed.

Lemma last_in (a : Z) c : List.last c a ∈ a :: c.
Proof. revert a. induction c as [|b c IH]; intros a; [left|]. right. rewrite last_of_cons. apply IH. Qed.

Lemma last_fresh (a : Z) c : NoDup (a :: c) -> List.last c a ∉ removelast (a :: c).
Proof.
  revert a. induction c as [|b c IH]; intros a Hn; [apply not_elem_of_nil|]. apply NoDup_cons in Hn as [Ha Hn]. change (removelast (a :: b :: c)) with (a :: removelast (b :: c)). rewrite last_of_cons.
  intros [Heq|Hin]%elem_of_cons; [|by apply (IH b Hn)]. apply Ha. rewrite <- Heq. apply last_in.
Qed.

Lemma removelast_in (x : Z) c : x ∈ removelast c -> x ∈ c.
Proof. induction c as [|y c IH]; [done|]. destruct c as [|z c]; [intros []%not_elem_of_nil|]. change (removelast (y :: z :: c)) with (y :: removelast (z :: c)). rewrite !elem_of_cons. rewrite elem_of_cons in IH. tauto. Qed.

(** The nodes around a place in a ring. *)
Lemma ring_split h hd l1 l2 : exists n B, l2 ++ [hd] = n :: B /\ (ring h hd (l1 ++ l2) <-> path h (hd :: l1) /\ link h (List.last l1 hd) n /\ path h (n :: B)).
Proof.
  destruct (l2 ++ [hd]) as [|n B] eqn:E; [by destruct l2|]. exists n, B. split; [done|]. unfold ring. rewrite <- app_assoc, E. apply (path_cat h hd l1 n B).
Qed.

Section place.
Context (hd : Z) (l1 l2 : list Z) (n : Z) (B : list Z) (EB : l2 ++ [hd] = n :: B).

Lemma place_next x : x ∈ removelast (n :: B) -> x ∈ l2.
Proof. rewrite <- EB, removelast_last. done. Qed.
Lemma place_nodup : NoDup (hd :: l1 ++ l2) -> (n ∉ B) /\ (n ∉ l1).
Proof.
  intros Hn. assert (Hp : hd :: l1 ++ l2 ≡ₚ l1 ++ n :: B) by (rewrite <- EB, app_assoc; apply Permutation_cons_append). rewrite Hp in Hn. apply NoDup_app in Hn as (_ & Hd & [? _]%NoDup_cons). split; [done|]. intros Hin. apply (Hd _ Hin). left.
Qed.
Lemma place_in : n ∈ hd :: l2.
Proof. assert (Hin : n ∈ l2 ++ [hd]) by (rewrite EB; left). rewrite elem_of_app, list_elem_of_singleton in Hin. rewrite elem_of_cons. tauto. Qed.
Lemma place_rest x : x ∈ B -> x ∈ hd :: l2.
Proof. intros Hx. assert (Hin : x ∈ l2 ++ [hd]) by (rewrite EB; by right). rewrite elem_of_app, list_elem_of_singleton in Hin. rewrite elem_of_cons. tauto. Qed.

(** The two pieces of a ring stay when only the ends around the place change. *)
Lemma pieces_kept h h' e :
  NoDup (hd :: l1 ++ l2) -> (e ∉ hd :: l1 ++ l2) -> path h (hd :: l1) -> path h (n :: B) ->
  (forall x, x <> List.last l1 hd -> x <> e -> get_next x h' = get_next x h) -> (forall x, x <> n -> x <> e -> get_prev x h' = get_prev x h) -> path h' (hd :: l1) /\ path h' (n :: B).
Proof.
  intros Hnd He Hp1 Hp2 Hn Hv. destruct (place_nodup Hnd) as [HnB Hn1]. change (hd :: l1 ++ l2) with ((hd :: l1) ++ l2) in Hnd. apply NoDup_app in Hnd as (Hnd1 & Hdis & _).
  change (hd :: l1 ++ l2) with ((hd :: l1) ++ l2) in He. rewrite elem_of_app in He. split; eapply path_frame; try eassumption.
  - intros x Hx. apply Hn; [intros ->; by apply (last_fresh hd l1)|]. intros ->. apply He. left. by apply removelast_in.
  - intros x Hx. apply Hv; [by intros ->|]. intros ->. apply He. left. by right.
  - intros x Hx%place_next. apply Hn; [intros ->; apply (Hdis (List.last l1 hd)); [apply last_in|done]|]. intros ->. apply He. by right.
  - intros x Hx. apply Hv; [by intros ->|]. intros ->. apply place_rest in Hx. rewrite elem_of_cons in Hx. apply He. rewrite elem_of_cons. tauto.
Qed.
End place.

(** ** What operations do to a heap *)

(** [h'] has the successors [fn] and the predecessors [fv], at the same addresses as [h]. *)
Definition becomes (h h' : heap) (fn fv : Z -> option Z) : Prop :=
  (forall x, get_next x h' = fn x) /\ (forall x, get_prev x h' = fv x) /\ dom h' = dom h.

Lemma set_next_run a v h : a ∈ dom h -> exists h', set_next a v h = Some h' /\ becomes h h' (fun x => if decide (x = a) then Some v else get_next x h) (fun x => get_prev x h).
Proof.
  intros [x Ex]%elem_of_dom. unfold set_next. rewrite Ex. cbn. eexists. split; [done|]. unfold becomes, get_next, get_prev. split_and!.
  - intros y. destruct (decide (y = a)) as [->|Hne]; [by rewrite lookup_insert_eq|by rewrite lookup_insert_ne].
  - intros y. destruct (decide (y = a)) as [->|Hne]; [by rewrite lookup_insert_eq, Ex|by rewrite lookup_insert_ne].
  - rewrite dom_insert_lookup_L by (by eexists). done.
Qed.

Lemma set_prev_run a v h : a ∈ dom h -> exists h', set_prev a v h = Some h' /\ becomes h h' (fun x => get_next x h) (fun x => if decide (x = a) then Some v else get_prev x h).
Proof.
  intros [x Ex]%elem_of_dom. unfold set_prev. rewrite Ex. cbn. eexists. split; [done|]. unfold becomes, get_next, get_prev. split_and!.
  - intros y. destruct (decide (y = a)) as [->|Hne]; [by rewrite lookup_insert_eq, Ex|by rewrite lookup_insert_ne].
  - intros y. destruct (decide (y = a)) as [->|Hne]; [by rewrite lookup_insert_eq|by rewrite lookup_insert_ne].
  - rewrite dom_insert_lookup_L by (by eexists). done.
Qed.

(** One store after the other. *)
Ltac store :=
  match goal with
  | |- context [set_next ?a ?v ?h] =>
      let h' := fresh "h" in let E := fresh "E" in let Hn := fresh "Hn" in let Hv := fresh "Hv" in let Hd := fresh "Hd" in
      destruct (set_next_run a v h) as (h' & E & Hn & Hv & Hd); [by repeat match goal with H : dom _ = dom _ |- _ => rewrite H end|rewrite E; cbn [mbind option_bind]; clear E]
  | |- context [set_prev ?a ?v ?h] =>
      let h' := fresh "h" in let E := fresh "E" in let Hn := fresh "Hn" in let Hv := fresh "Hv" in let Hd := fresh "Hd" in
      destruct (set_prev_run a v h) as (h' & E & Hn & Hv & Hd); [by repeat match goal with H : dom _ = dom _ |- _ => rewrite H end|rewrite E; cbn [mbind option_bind]; clear E]
  end.
Ltac stored := eexists; split; [reflexivity|]; unfold becomes; split_and!; [let x := fresh in intros x|let x := fresh in intros x|congruence]; repeat match goal with H : forall x, _ = _ |- _ => rewrite !H; clear H end; done.

Lemma list_init_run a h : a ∈ dom h -> exists h', INIT_LIST_HEAD a h = Some h' /\
  becomes h h' (fun x => if decide (x = a) then Some a else get_next x h) (fun x => if decide (x = a) then Some a else get_prev x h).
Proof. intros Ha. unfold INIT_LIST_HEAD. store. store. stored. Qed.

Lemma add_run e p n h : e ∈ dom h -> p ∈ dom h -> n ∈ dom h -> exists h', __list_add e p n h = Some h' /\
  becomes h h' (fun x => if decide (x = p) then Some e else if decide (x = e) then Some n else get_next x h)
               (fun x => if decide (x = e) then Some p else if decide (x = n) then Some e else get_prev x h).
Proof. intros He Hp Hn. unfold __list_add. store. store. store. store. stored. Qed.

Lemma del_run p n h : p ∈ dom h -> n ∈ dom h -> exists h', __list_del p n h = Some h' /\
  becomes h h' (fun x => if decide (x = p) then Some n else get_next x h) (fun x => if decide (x = n) then Some p else get_prev x h).
Proof. intros Hp Hn. unfold __list_del. store. store. stored. Qed.

Lemma next_dom a b h : get_next a h = Some b -> a ∈ dom h.
Proof. unfold get_next. intros (x & Hx & _)%fmap_Some. by apply elem_of_dom_2 in Hx. Qed.
Lemma prev_dom a b h : get_prev a h = Some b -> a ∈ dom h.
Proof. unfold get_prev. intros (x & Hx & _)%fmap_Some. by apply elem_of_dom_2 in Hx. Qed.

(** ** Inserting and removing *)

Lemma ring_insert h h' hd l1 l2 e n B :
  l2 ++ [hd] = n :: B -> NoDup (hd :: l1 ++ l2) -> (e ∉ hd :: l1 ++ l2) -> ring h hd (l1 ++ l2) ->
  becomes h h' (fun x => if decide (x = List.last l1 hd) then Some e else if decide (x = e) then Some n else get_next x h)
               (fun x => if decide (x = e) then Some (List.last l1 hd) else if decide (x = n) then Some e else get_prev x h) ->
  ring h' hd (l1 ++ e :: l2).
Proof.
  intros EB Hnd He Hr (Hn & Hv & _). destruct (ring_split h hd l1 l2) as (n' & B' & EB' & Hs). rewrite EB in EB'. injection EB' as <- <-. apply Hs in Hr as (Hp1 & Hl & Hp2).
  assert (Hel : e <> List.last l1 hd). { intros ->. apply He. change (hd :: l1 ++ l2) with ((hd :: l1) ++ l2). apply elem_of_app. left. apply last_in. }
  assert (Hen : e <> n). { intros ->. apply He. pose proof (place_in _ _ _ _ EB) as Hin. rewrite elem_of_cons in Hin |- *. rewrite elem_of_app. tauto. }
  destruct (pieces_kept hd l1 l2 n B EB h h' e Hnd He Hp1 Hp2) as [Hq1 Hq2].
  - intros x H1 H2. rewrite Hn. by rewrite !decide_False.
  - intros x H1 H2. rewrite Hv. by rewrite !decide_False.
  - unfold ring. rewrite <- app_assoc. cbn [app]. rewrite EB. apply (path_cat h' hd l1 e (n :: B)). split; [done|]. split.
    + split; [by rewrite Hn, decide_True|by rewrite Hv, decide_True].
    + split; [|done]. split; [by rewrite Hn, decide_False, decide_True|]. rewrite Hv, decide_False by done. by rewrite decide_True.
Qed.

Lemma ring_remove h h' hd l1 l2 e n B :
  l2 ++ [hd] = n :: B -> NoDup (hd :: l1 ++ e :: l2) -> ring h hd (l1 ++ e :: l2) ->
  becomes h h' (fun x => if decide (x = List.last l1 hd) then Some n else get_next x h) (fun x => if decide (x = n) then Some (List.last l1 hd) else get_prev x h) -> ring h' hd (l1 ++ l2).
Proof.
  intros EB Hnd Hr (Hn & Hv & _). rewrite <- Permutation_middle, Permutation_swap in Hnd. apply NoDup_cons in Hnd as [He Hnd]. unfold ring in Hr. rewrite <- app_assoc in Hr. cbn [app] in Hr. rewrite EB in Hr.
  apply (path_cat h hd l1 e (n :: B)) in Hr as (Hp1 & _ & _ & Hp2). destruct (pieces_kept hd l1 l2 n B EB h h' e Hnd He Hp1 Hp2) as [Hq1 Hq2].
  - intros x H1 H2. rewrite Hn. by rewrite !decide_False.
  - intros x H1 H2. rewrite Hv. by rewrite !decide_False.
  - unfold ring. rewrite <- app_assoc, EB. apply (path_cat h' hd l1 n B). split; [done|]. split; [|done]. split; [by rewrite Hn, decide_True|by rewrite Hv, decide_True].
Qed.

(** ** The lists of a heap *)

(** The lists by their heads. *)
Abbreviation lists := (gmap Z (list Z)).

Definition nodes (m : lists) : list Z := map_to_list m ≫= fun p => p.1 :: p.2.

Record rep (h : heap) (m : lists) : Prop := {
  rep_nodup : NoDup (nodes m);
  rep_ring hd l : m !! hd = Some l -> ring h hd l }.

Lemma nodes_insert m hd l : nodes (<[hd := l]> m) ≡ₚ hd :: l ++ nodes (delete hd m).
Proof. unfold nodes. rewrite <- insert_delete_eq, map_to_list_insert by apply lookup_delete_eq. done. Qed.

Lemma nodes_delete m hd l : m !! hd = Some l -> nodes m ≡ₚ hd :: l ++ nodes (delete hd m).
Proof. intros E. rewrite <- (insert_id m hd l E) at 1. apply nodes_insert. Qed.

Lemma nodes_in m hd l x : m !! hd = Some l -> x ∈ hd :: l -> x ∈ nodes m.
Proof. intros E Hx. rewrite (nodes_delete m hd l E). change (hd :: l ++ ?k) with ((hd :: l) ++ k). apply elem_of_app. by left. Qed.

Lemma nodes_sub m hd x : x ∈ nodes (delete hd m) -> x ∈ nodes m.
Proof.
  destruct (m !! hd) as [l|] eqn:E; [|by rewrite delete_id]. intros Hx. rewrite (nodes_delete m hd l E). change (hd :: l ++ ?k) with ((hd :: l) ++ k). apply elem_of_app. by right.
Qed.

Lemma rep_delete h m hd : rep h m -> rep h (delete hd m).
Proof.
  intros [Hn Hr]. split; [|intros hd' l [_ E]%lookup_delete_Some; by apply Hr]. destruct (m !! hd) as [l|] eqn:E; [|by rewrite delete_id]. rewrite (nodes_delete m hd l E) in Hn. change (hd :: l ++ ?k) with ((hd :: l) ++ k) in Hn. by apply NoDup_app in Hn as (_ & _ & ?).
Qed.

Lemma ring_frame h h' hd l : ring h hd l -> (forall x, x ∈ hd :: l -> get_next x h' = get_next x h /\ get_prev x h' = get_prev x h) -> ring h' hd l.
Proof.
  intros Hr Hf. eapply path_frame; [exact Hr| |].
  - intros x Hx. apply Hf. change (hd :: l ++ [hd]) with ((hd :: l) ++ [hd]) in Hx. by rewrite removelast_last in Hx.
  - intros x Hx. apply Hf. rewrite elem_of_app, list_elem_of_singleton in Hx. rewrite elem_of_cons. tauto.
Qed.

(** A list gets new entries; the other lists do not notice. *)
Lemma rep_update h h' m hd l' :
  rep h (delete hd m) -> ring h' hd l' -> NoDup (hd :: l' ++ nodes (delete hd m)) ->
  (forall x, x ∈ nodes (delete hd m) -> get_next x h' = get_next x h /\ get_prev x h' = get_prev x h) -> rep h' (<[hd := l']> m).
Proof.
  intros [_ Hr] Hr' Hnd Hf. split; [by rewrite nodes_insert|]. intros hd2 l2. destruct (decide (hd2 = hd)) as [->|Hne]; [rewrite lookup_insert_eq; by intros [= <-]|]. rewrite lookup_insert_ne by done. intros E.
  assert (Ed : delete hd m !! hd2 = Some l2) by (by rewrite lookup_delete_ne). eapply ring_frame; [by apply Hr|]. intros x Hx. apply Hf. by eapply nodes_in.
Qed.

Lemma rep_frame h h' m : rep h m -> (forall x, x ∈ nodes m -> get_next x h' = get_next x h /\ get_prev x h' = get_prev x h) -> rep h' m.
Proof. intros [Hn Hr] Hf. split; [done|]. intros hd l E. eapply ring_frame; [by apply Hr|]. intros x Hx. apply Hf. by eapply nodes_in. Qed.

Lemma ring_dom h hd l x : ring h hd l -> x ∈ hd :: l -> x ∈ dom h.
Proof.
  intros Hr. unfold ring in Hr. enough (H : forall a c, path h (a :: c ++ [hd]) -> x ∈ a :: c -> x ∈ dom h) by eauto. clear Hr. intros a c. revert a. induction c as [|b c IH]; intros a Hp Hx.
  - apply list_elem_of_singleton in Hx as ->. destruct Hp as [[Hp _] _]. by eapply next_dom.
  - destruct Hp as [[Hp _] Hp']. apply elem_of_cons in Hx as [->|Hx]; [by eapply next_dom|by eapply IH].
Qed.

(** The nodes before and behind a place are in the list. *)
Lemma around (hd : Z) l1 l2 n B : l2 ++ [hd] = n :: B -> List.last l1 hd ∈ hd :: l1 ++ l2 /\ n ∈ hd :: l1 ++ l2.
Proof.
  intros EB. split; [change (hd :: l1 ++ l2) with ((hd :: l1) ++ l2); apply elem_of_app; left; apply last_in|]. pose proof (place_in _ _ _ _ EB) as Hin. rewrite elem_of_cons in Hin |- *. rewrite elem_of_app. tauto.
Qed.

Lemma insert_rep h m hd l1 l2 e n B :
  rep h m -> m !! hd = Some (l1 ++ l2) -> e ∈ dom h -> (e ∉ nodes m) -> l2 ++ [hd] = n :: B ->
  exists h', __list_add e (List.last l1 hd) n h = Some h' /\ rep h' (<[hd := l1 ++ e :: l2]> m) /\ dom h' = dom h.
Proof.
  intros H Hm He Hf EB. pose proof (rep_nodup _ _ H) as Hnd. rewrite (nodes_delete _ _ _ Hm) in Hnd. rewrite (nodes_delete _ _ _ Hm) in Hf. pose proof (rep_ring _ _ H _ _ Hm) as Hr. destruct (around hd l1 l2 n B EB) as [Hin1 Hin2].
  change (hd :: (l1 ++ l2) ++ ?k) with ((hd :: l1 ++ l2) ++ k) in Hnd, Hf. rewrite elem_of_app in Hf. apply NoDup_app in Hnd as (Hnd1 & Hdis & Hnd2).
  destruct (add_run e (List.last l1 hd) n h) as (h' & E & Hb); [done|by eapply ring_dom|by eapply ring_dom|]. exists h'. split; [done|]. split; [|apply Hb]. eapply rep_update; [by apply rep_delete| | |].
  - eapply ring_insert; [exact EB|done|tauto|exact Hr|exact Hb].
  - change (hd :: (l1 ++ e :: l2) ++ ?k) with ((hd :: l1 ++ e :: l2) ++ k). rewrite <- (Permutation_middle l1 l2 e), Permutation_swap. change (NoDup (e :: ((hd :: l1 ++ l2) ++ nodes (delete hd m)))). apply NoDup_cons. split; [rewrite elem_of_app; tauto|]. by apply NoDup_app.
  - intros x Hx. destruct Hb as (Hn & Hv & _). rewrite Hn, Hv. assert (x <> e) by (intros ->; tauto). assert (Hxx : forall y, y ∈ hd :: l1 ++ l2 -> x <> y) by (intros y Hy ->; by apply (Hdis y)). rewrite !decide_False by (done || by apply Hxx). done.
Qed.

Lemma remove_rep h m hd l1 l2 e :
  rep h m -> m !! hd = Some (l1 ++ e :: l2) -> exists h', unlink e h = Some h' /\ rep h' (<[hd := l1 ++ l2]> m) /\ dom h' = dom h.
Proof.
  intros H Hm. pose proof (rep_nodup _ _ H) as Hnd. rewrite (nodes_delete _ _ _ Hm) in Hnd. pose proof (rep_ring _ _ H _ _ Hm) as Hr. destruct (l2 ++ [hd]) as [|n B] eqn:EB; [by destruct l2|]. destruct (around hd l1 l2 n B EB) as [Hin1 Hin2].
  change (hd :: (l1 ++ e :: l2) ++ ?k) with ((hd :: l1 ++ e :: l2) ++ k) in Hnd. apply NoDup_app in Hnd as (Hnd1 & Hdis & Hnd2). pose proof Hr as Hr'. unfold ring in Hr'. rewrite <- app_assoc in Hr'. cbn [app] in Hr'. rewrite EB in Hr'.
  apply (path_cat h hd l1 e (n :: B)) in Hr' as (_ & [_ Hpe] & [Hne _] & _). assert (Hmid : forall x, x ∈ hd :: l1 ++ l2 -> x ∈ hd :: l1 ++ e :: l2) by (intros x; rewrite !elem_of_cons, !elem_of_app, elem_of_cons; tauto).
  destruct (del_run (List.last l1 hd) n h) as (h' & E & Hb); [by eapply ring_dom; [exact Hr|apply Hmid]..|]. unfold unlink. rewrite Hpe. cbn. rewrite Hne. cbn. exists h'. split; [done|]. split; [|apply Hb]. eapply rep_update; [by apply rep_delete| | |].
  - by eapply ring_remove.
  - change (hd :: (l1 ++ l2) ++ ?k) with ((hd :: l1 ++ l2) ++ k). apply NoDup_app. split_and!; [rewrite <- Permutation_middle, Permutation_swap in Hnd1; by apply NoDup_cons in Hnd1 as [_ ?]|intros x Hx; by apply Hdis, Hmid|done].
  - intros x Hx. destruct Hb as (Hn & Hv & _). rewrite Hn, Hv. assert (Hxx : forall y, y ∈ hd :: l1 ++ l2 -> x <> y) by (intros y Hy ->; by apply (Hdis y); [apply Hmid|]). rewrite !decide_False by (by apply Hxx). done.
Qed.

Lemma init_rep h m e : rep h m -> e ∈ dom h -> (e ∉ nodes (delete e m)) -> exists h', INIT_LIST_HEAD e h = Some h' /\ rep h' (<[e := []]> m) /\ dom h' = dom h.
Proof.
  intros H He Hf. destruct (list_init_run e h He) as (h' & E & Hb). exists h'. split; [done|]. split; [|apply Hb]. destruct Hb as (Hn & Hv & _). eapply rep_update; [by apply rep_delete| | |].
  - split; [|done]. split; [by rewrite Hn, decide_True|by rewrite Hv, decide_True].
  - apply NoDup_cons. split; [done|]. apply (rep_nodup _ _ (rep_delete _ _ e H)).
  - intros x Hx. assert (x <> e) by (by intros ->). by rewrite Hn, Hv, !decide_False.
Qed.

(** A node that is in no list may be written to. *)
Lemma poison_rep h m e u v : rep h m -> e ∈ dom h -> (e ∉ nodes m) -> exists h', (h ← set_next e u h; set_prev e v h) = Some h' /\ rep h' m /\ dom h' = dom h.
Proof.
  intros H He Hf. store. store. eexists. split; [reflexivity|]. split; [|congruence]. eapply rep_frame; [exact H|]. intros x Hx. assert (x <> e) by (by intros ->). rewrite Hn0, Hv0, Hn, Hv. by rewrite !decide_False.
Qed.

(** A node is taken out of the list it is in, or out of the ring of its own. *)
Inductive removes (m : lists) (e : Z) : lists -> Prop :=
| rm_entry hd l1 l2 : m !! hd = Some (l1 ++ e :: l2) -> removes m e (<[hd := l1 ++ l2]> m)
| rm_alone : m !! e = Some [] -> removes m e (delete e m).

Lemma unlink_rep h m e m' : rep h m -> removes m e m' -> exists h', unlink e h = Some h' /\ rep h' m' /\ dom h' = dom h /\ e ∈ dom h /\ (e ∉ nodes m').
Proof.
  intros H [hd l1 l2 Hm|Hm].
  - destruct (remove_rep h m hd l1 l2 e H Hm) as (h' & E & Hr & Hd). exists h'. split_and!; [done|done|done| |].
    + eapply ring_dom; [by apply (rep_ring _ _ H)|]. right. apply elem_of_app. right. left.
    + rewrite nodes_insert. pose proof (rep_nodup _ _ H) as Hnd. rewrite (nodes_delete _ _ _ Hm) in Hnd. change (hd :: (l1 ++ e :: l2) ++ ?k) with ((hd :: l1 ++ e :: l2) ++ k) in Hnd.
      rewrite <- (Permutation_middle l1 l2 e), Permutation_swap in Hnd. change (NoDup (e :: (hd :: (l1 ++ l2) ++ nodes (delete hd m)))) in Hnd. by apply NoDup_cons in Hnd as [? _].
  - pose proof (rep_ring _ _ H _ _ Hm) as [[Hn Hv] _]. pose proof (rep_nodup _ _ H) as Hnd. rewrite (nodes_delete _ _ _ Hm) in Hnd. apply NoDup_cons in Hnd as [Hf _]. cbn in Hf. pose proof (next_dom _ _ _ Hn) as He.
    unfold unlink. rewrite Hv. cbn. rewrite Hn. cbn. destruct (del_run e e h He He) as (h' & E & Hn' & Hv' & Hd'). exists h'. split_and!; [done| |done|done|done]. eapply rep_frame; [by apply rep_delete|].
    intros x Hx. assert (x <> e) by (by intros ->). by rewrite Hn', Hv', !decide_False.
Qed.

(** A node that can be put into a list: it is in none, or the head of one, which is given up. *)
Definition loose (D : gset Z) (m : lists) (e : Z) : Prop := e ∈ D /\ (e ∉ nodes (delete e m)).

Lemma loose_free D m e : e ∈ D -> (e ∉ nodes m) -> loose D m e.
Proof. intros He Hf. split; [done|]. intros Hx%nodes_sub. done. Qed.

Lemma add_rep h m e hd l : rep h m -> loose (dom h) m e -> delete e m !! hd = Some l -> exists h', list_add e hd h = Some h' /\ rep h' (<[hd := e :: l]> (delete e m)) /\ dom h' = dom h.
Proof.
  intros H [He Hf] Hm. apply (rep_delete _ _ e) in H. destruct (ring_split h hd [] l) as (n & B & EB & Hs). pose proof (rep_ring _ _ H _ _ Hm) as Hr. apply Hs in Hr as (_ & [Hn _] & _). unfold list_add. cbn in Hn. rewrite Hn. cbn.
  by apply (insert_rep h (delete e m) hd [] l e n B).
Qed.

Lemma add_tail_rep h m e hd l : rep h m -> loose (dom h) m e -> delete e m !! hd = Some l -> exists h', list_add_tail e hd h = Some h' /\ rep h' (<[hd := l ++ [e]]> (delete e m)) /\ dom h' = dom h.
Proof.
  intros H [He Hf] Hm. apply (rep_delete _ _ e) in H. pose proof (rep_ring _ _ H _ _ Hm) as Hr. apply (path_cat h hd l hd []) in Hr as (_ & [_ Hv] & _). unfold list_add_tail. rewrite Hv. cbn.
  apply (insert_rep h (delete e m) hd l [] e hd []); [done|by rewrite app_nil_r|done..].
Qed.

(** ** Replacing a node *)

Lemma replace_run old new n p h :
  old ∈ dom h -> new ∈ dom h -> n ∈ dom h -> p ∈ dom h -> get_next old h = Some n -> get_prev old h = Some p -> old <> new -> n <> old -> n <> new -> exists h', list_replace old new h = Some h' /\
  becomes h h' (fun x => if decide (x = p) then Some new else if decide (x = new) then Some n else get_next x h) (fun x => if decide (x = new) then Some p else if decide (x = n) then Some new else get_prev x h).
Proof.
  intros Ho Hw Hnd Hpd En Ep Hon Hno Hnw. unfold list_replace. rewrite En. cbn [mbind option_bind]. store. rewrite Hn, decide_True by done. cbn [mbind option_bind]. store. rewrite Hv0, decide_False, Hv, Ep by done. cbn [mbind option_bind].
  store. rewrite Hv1, decide_True by done. cbn [mbind option_bind]. store. stored.
Qed.

Lemma replace_entry_rep h m hd l1 l2 old new :
  rep h m -> loose (dom h) m new -> delete new m !! hd = Some (l1 ++ old :: l2) -> exists h', list_replace old new h = Some h' /\ rep h' (<[hd := l1 ++ new :: l2]> (delete new m)) /\ dom h' = dom h.
Proof.
  intros H [He Hf] Hm. apply (rep_delete _ _ new) in H. set (m0 := delete new m) in *. pose proof (rep_nodup _ _ H) as Hnd. pose proof Hf as Hf'. rewrite (nodes_delete _ _ _ Hm) in Hnd, Hf. pose proof (rep_ring _ _ H _ _ Hm) as Hr.
  destruct (l2 ++ [hd]) as [|n B] eqn:EB; [by destruct l2|]. destruct (around hd l1 l2 n B EB) as [Hin1 Hin2]. change (hd :: (l1 ++ old :: l2) ++ ?k) with ((hd :: l1 ++ old :: l2) ++ k) in Hnd, Hf. rewrite elem_of_app in Hf. apply NoDup_app in Hnd as (Hnd1 & Hdis & Hnd2).
  pose proof Hr as Hr'. unfold ring in Hr'. rewrite <- app_assoc in Hr'. cbn [app] in Hr'. rewrite EB in Hr'. apply (path_cat h hd l1 old (n :: B)) in Hr' as (Hp1 & [_ Hpe] & [Hne _] & Hp2).
  assert (Hmid : forall x, x ∈ hd :: l1 ++ l2 -> x ∈ hd :: l1 ++ old :: l2) by (intros x; rewrite !elem_of_cons, !elem_of_app, elem_of_cons; tauto). assert (Hom : old ∈ hd :: l1 ++ old :: l2) by (right; apply elem_of_app; right; left).
  rewrite <- (Permutation_middle l1 l2 old), Permutation_swap in Hnd1. apply NoDup_cons in Hnd1 as [Hod Hnd1]. assert (Hin : forall x, x ∈ hd :: l1 ++ l2 -> x <> old /\ x <> new) by (intros x Hx; split; intros ->; [done|apply Hf; left; by apply Hmid]).
  destruct (replace_run old new n (List.last l1 hd) h) as (h' & E & Hb); [by eapply ring_dom|done|eapply ring_dom; [exact Hr|by apply Hmid]|eapply ring_dom; [exact Hr|by apply Hmid]|done|done|intros ->; tauto|by apply Hin|by apply Hin|].
  exists h'. split; [done|]. split; [|apply Hb]. destruct Hb as (Hn & Hv & _). assert (Hfr : new ∉ hd :: l1 ++ l2) by (intros Hx; apply Hf; left; by apply Hmid). destruct (pieces_kept hd l1 l2 n B EB h h' new Hnd1 Hfr Hp1 Hp2) as [Hq1 Hq2].
  - intros x H1 H2. by rewrite Hn, !decide_False.
  - intros x H1 H2. by rewrite Hv, !decide_False.
  - eapply rep_update; [by apply rep_delete| | |].
    + unfold ring. rewrite <- app_assoc. cbn [app]. rewrite EB. apply (path_cat h' hd l1 new (n :: B)). split; [done|]. split; [split; [by rewrite Hn, decide_True|by rewrite Hv, decide_True]|]. split; [|done].
      split; [rewrite Hn, decide_False, decide_True; [done|done|intros E'; apply Hfr; by rewrite E']|]. rewrite Hv, decide_False, decide_True; [done|done|by apply Hin].
    + change (hd :: (l1 ++ new :: l2) ++ ?k) with ((hd :: l1 ++ new :: l2) ++ k). rewrite <- (Permutation_middle l1 l2 new), Permutation_swap. change (NoDup (new :: ((hd :: l1 ++ l2) ++ nodes (delete hd m0)))). apply NoDup_cons. split; [rewrite elem_of_app; tauto|].
      apply NoDup_app. split_and!; [done|intros x Hx; by apply Hdis, Hmid|done].
    + intros x Hx. rewrite Hn, Hv. assert (x <> new) by (intros ->; tauto). assert (Hxx : forall y, y ∈ hd :: l1 ++ l2 -> x <> y) by (intros y Hy ->; by apply (Hdis y); [apply Hmid|]). rewrite !decide_False by (done || by apply Hxx). done.
Qed.

(** The entries between the ends of a ring stay linked when only the ends change. *)
Lemma inner_kept h h' x l :
  path h (x :: l) -> NoDup (x :: l) -> (forall y, y ∈ x :: l -> y <> List.last l x -> get_next y h' = get_next y h) -> (forall y, y ∈ x :: l -> y <> x -> get_prev y h' = get_prev y h) -> path h' (x :: l).
Proof.
  intros Hp Hnd Hn Hv. eapply path_frame; [exact Hp| |].
  - intros y Hy. apply Hn; [by apply removelast_in|]. intros ->. by apply (last_fresh x l).
  - intros y Hy. apply Hv; [by right|]. intros ->. by apply NoDup_cons in Hnd as [? _].
Qed.

Lemma replace_head_rep h m old l new :
  rep h m -> loose (dom h) m new -> delete new m !! old = Some l -> exists h', list_replace old new h = Some h' /\ rep h' (<[new := l]> (delete old (delete new m))) /\ dom h' = dom h.
Proof.
  intros H [He Hf] Hm. apply (rep_delete _ _ new) in H. set (m0 := delete new m) in *. pose proof (rep_nodup _ _ H) as Hnd. rewrite (nodes_delete _ _ _ Hm) in Hnd, Hf. pose proof (rep_ring _ _ H _ _ Hm) as Hr.
  change (old :: l ++ ?k) with ((old :: l) ++ k) in Hnd, Hf. rewrite elem_of_app in Hf. apply NoDup_app in Hnd as (Hnd1 & Hdis & Hnd2). assert (Hod : old ∈ dom h) by (eapply ring_dom; [exact Hr|left]). assert (Hon : old <> new) by (intros ->; apply Hf; left; left).
  assert (Hdel : delete new (delete old m0) = delete old m0). { apply delete_id. rewrite lookup_delete_ne by done. apply lookup_delete_eq. }
  assert (Hfin : forall h', ring h' new l -> (forall x, x <> new -> (x ∉ old :: l) -> get_next x h' = get_next x h /\ get_prev x h' = get_prev x h) -> rep h' (<[new := l]> (delete old m0))).
  { intros h' Hr' Hfr. assert (Hnew : new ∉ nodes (delete old m0)) by tauto. eapply (rep_update h); [rewrite Hdel; by apply rep_delete|done| |]; rewrite Hdel.
    - apply NoDup_cons. split; [rewrite elem_of_app; intros [Hx|Hx]; [apply Hf; left; by right|done]|]. apply NoDup_cons in Hnd1 as [_ Hnd1]. apply NoDup_app. split_and!; [done|intros x Hx; apply Hdis; by right|done].
    - intros x Hx. apply Hfr; [by intros ->|]. intros Hx'. by apply (Hdis x). }
  destruct l as [|x l].
  - destruct Hr as [[En Ep] _]. unfold list_replace. rewrite En. cbn [mbind option_bind]. store. rewrite Hn, decide_True by done. cbn [mbind option_bind]. store. rewrite Hv0, decide_True by done. cbn [mbind option_bind].
    store. rewrite Hv1, decide_True by done. cbn [mbind option_bind]. store. eexists. split; [reflexivity|]. split; [|congruence]. apply Hfin.
    + split; [|done]. split; [by rewrite Hn2, decide_True|by rewrite Hv2, Hv1, decide_True].
    + intros y Hy1 Hy2. rewrite list_elem_of_singleton in Hy2. rewrite Hn2, Hv2, Hn1, Hv1, Hn0, Hv0, Hn, Hv. by rewrite !decide_False.
  - destruct Hr as [[En Ex] Hr]. apply (path_cat h x l old []) in Hr as (Hp & [El Ep] & _). assert (Hold : old ∉ x :: l) by (by apply NoDup_cons in Hnd1 as [? _]). assert (Hnew : forall y, y ∈ x :: l -> y <> new) by (intros y Hy ->; apply Hf; left; by right).
    pose proof (last_in x l) as Hlast. destruct (replace_run old new x (List.last l x) h) as (h' & E & Hb); [done|done|by eapply prev_dom|by eapply next_dom|done|done|done|intros <-; apply Hold; left|apply Hnew; left|].
    exists h'. split; [done|]. split; [|apply Hb]. destruct Hb as (Hn & Hv & _). apply Hfin.
    + split; [split; [rewrite Hn, decide_False, decide_True; [done|done|apply not_eq_sym; by apply Hnew]|rewrite Hv, decide_False, decide_True; [done|done|apply Hnew; left]]|]. apply (path_cat h' x l new []). split_and!; [|split; [by rewrite Hn, decide_True|by rewrite Hv, decide_True]|done].
      eapply inner_kept; [exact Hp|by apply NoDup_cons in Hnd1 as [_ ?]| |]; intros y Hy Hy'; [rewrite Hn|rewrite Hv]; rewrite !decide_False; by auto.
    + intros y Hy1 Hy2. rewrite Hn, Hv. assert (Hyy : forall z, z ∈ x :: l -> y <> z) by (intros z Hz ->; apply Hy2; by right). rewrite !decide_False by (done || (apply Hyy; by left) || by apply Hyy). done.
Qed.

(** ** Joining lists *)

Lemma splice_run first last_ at_ list hd h :
  get_next list h = Some first -> get_prev list h = Some last_ -> get_next hd h = Some at_ -> first ∈ dom h -> hd ∈ dom h -> last_ ∈ dom h -> at_ ∈ dom h -> first <> at_ -> hd <> last_ ->
  exists h', __list_splice list hd h = Some h' /\
  becomes h h' (fun x => if decide (x = last_) then Some at_ else if decide (x = hd) then Some first else get_next x h) (fun x => if decide (x = at_) then Some last_ else if decide (x = first) then Some hd else get_prev x h).
Proof.
  intros E1 E2 E3 D1 D2 D3 D4 N1 N2. unfold __list_splice. rewrite E1. cbn [mbind option_bind]. rewrite E2. cbn [mbind option_bind]. rewrite E3. cbn [mbind option_bind]. store. store. store. store. stored.
Qed.

Lemma splice_rep h m list x L hd l :
  rep h m -> m !! list = Some (x :: L) -> m !! hd = Some l -> list <> hd ->
  exists h', __list_splice list hd h = Some h' /\ rep h' (<[hd := (x :: L) ++ l]> (delete list m)) /\ dom h' = dom h /\ (list ∉ nodes (<[hd := (x :: L) ++ l]> (delete list m))).
Proof.
  intros H Hm1 Hm2 Hne. assert (Hm3 : delete list m !! hd = Some l) by (by rewrite lookup_delete_ne). pose proof (rep_nodup _ _ H) as Hnd. rewrite (nodes_delete _ _ _ Hm1), (nodes_delete _ _ _ Hm3) in Hnd. set (R := nodes (delete hd (delete list m))) in *.
  change (NoDup ((list :: x :: L) ++ (hd :: l) ++ R)) in Hnd. apply NoDup_app in Hnd as (Hnd1 & Hdis & Hnd2). apply NoDup_app in Hnd2 as (Hnd2 & Hdis2 & Hnd3). pose proof (rep_ring _ _ H _ _ Hm1) as Hr1. pose proof (rep_ring _ _ H _ _ Hm2) as Hr2.
  destruct Hr1 as [[E1 E1'] Hp1]. apply (path_cat h x L list []) in Hp1 as (Hp1 & [E2' E2] & _). destruct (ring_split h hd [] l) as (at_ & B & EB & Hs). pose proof Hr2 as Hr2'. apply Hs in Hr2' as (_ & [E3 E3'] & Hp2). cbn in E3, E3'.
  assert (Hat : at_ ∈ hd :: l) by (by apply (place_in hd l at_ B)). pose proof (last_in x L) as Hla. apply NoDup_cons in Hnd1 as [Hlist Hnd1]. assert (Hxh : forall y z, y ∈ x :: L -> z ∈ hd :: l -> y <> z) by (intros y z Hy Hz ->; apply (Hdis z); [by right|apply elem_of_app; by left]).
  destruct (splice_run x (List.last L x) at_ list hd h) as (h' & E & Hb); [done..|by eapply prev_dom|by eapply next_dom|by eapply next_dom|by eapply prev_dom|apply Hxh; [left|done]|apply not_eq_sym, Hxh; [done|left]|].
  exists h'. split; [done|]. assert (Hnodes : nodes (<[hd := (x :: L) ++ l]> (delete list m)) ≡ₚ (x :: L) ++ (hd :: l) ++ R) by (rewrite nodes_insert; fold R; rewrite <- app_assoc; change (hd :: (x :: L) ++ l ++ R) with ((hd :: x :: L) ++ l ++ R); rewrite (Permutation_cons_append (x :: L) hd), <- app_assoc; done).
  split; [|split; [apply Hb|]].
  2: { rewrite Hnodes, !elem_of_app. intros [Hx|Hx]; [done|]. apply (Hdis list); [left|]. by rewrite elem_of_app. }
  destruct Hb as (Hn & Hv & _). eapply rep_update; [apply rep_delete; by apply rep_delete| | |].
  - unfold ring. rewrite <- app_assoc, EB. apply (path_cat h' hd (x :: L) at_ B). rewrite last_of_cons. split; [|split; [split|]].
    + split; [split|].
      * rewrite Hn, decide_False, decide_True; [done|done|]. apply not_eq_sym. apply Hxh; [done|left].
      * rewrite Hv, decide_False, decide_True; [done|done|]. apply Hxh; [left|done].
      * eapply inner_kept; [exact Hp1|done| |]; intros y Hy Hy'; [rewrite Hn|rewrite Hv]; rewrite !decide_False; try done; apply Hxh; [done|left|done|done].
    + by rewrite Hn, decide_True.
    + by rewrite Hv, decide_True.
    + destruct (place_nodup hd [] l at_ B EB Hnd2) as [HaB _]. eapply path_frame; [exact Hp2| |].
      * intros y Hy%(place_next hd l at_ B EB). rewrite Hn, !decide_False; [done| |].
        -- intros ->. by apply NoDup_cons in Hnd2 as [? _].
        -- apply not_eq_sym. apply Hxh; [done|by right].
      * intros y Hy. pose proof (place_rest hd l at_ B EB y Hy). rewrite Hv, !decide_False; [done| |by intros ->]. apply not_eq_sym. apply Hxh; [left|done].
  - rewrite <- nodes_insert, Hnodes. apply NoDup_app. split_and!; [done|intros y Hy; apply Hdis; by right|]. apply NoDup_app. done.
  - intros y Hy. fold R in Hy. assert (Ny : forall z, z ∈ hd :: l -> y <> z) by (intros z Hz ->; by apply (Hdis2 z)). assert (Ny' : forall z, z ∈ x :: L -> y <> z) by (intros z Hz ->; apply (Hdis z); [by right|apply elem_of_app; by right]).
    rewrite Hn, Hv, !decide_False; [done|apply Ny'; left|by apply Ny|apply Ny; left|by apply Ny'].
Qed.

(** ** The operations on lists *)

Inductive op :=
| o_init (e : Z) | o_add (e hd : Z) | o_add_tail (e hd : Z) | o_del (e : Z) | o_del_init (e : Z)
| o_move (e hd : Z) | o_move_tail (e hd : Z) | o_replace (old new : Z) | o_replace_init (old new : Z)
| o_splice (list hd : Z) | o_splice_init (list hd : Z).

Definition exec (o : op) (h : heap) : option heap :=
  match o with
  | o_init e => INIT_LIST_HEAD e h
  | o_add e hd => list_add e hd h
  | o_add_tail e hd => list_add_tail e hd h
  | o_del e => list_del e h
  | o_del_init e => list_del_init e h
  | o_move e hd => list_move e hd h
  | o_move_tail e hd => list_move_tail e hd h
  | o_replace old new => list_replace old new h
  | o_replace_init old new => list_replace_init old new h
  | o_splice list hd => list_splice list hd h
  | o_splice_init list hd => list_splice_init list hd h
  end.

(** What the operations mean, with nodes at the addresses [D]. *)
Inductive spec (D : gset Z) (m : lists) : op -> lists -> Prop :=
| sp_init e : loose D m e -> spec D m (o_init e) (<[e := []]> m)
| sp_add e hd l : loose D m e -> delete e m !! hd = Some l -> spec D m (o_add e hd) (<[hd := e :: l]> (delete e m))
| sp_add_tail e hd l : loose D m e -> delete e m !! hd = Some l -> spec D m (o_add_tail e hd) (<[hd := l ++ [e]]> (delete e m))
| sp_del e m' : removes m e m' -> spec D m (o_del e) m'
| sp_del_init e m' : removes m e m' -> spec D m (o_del_init e) (<[e := []]> m')
| sp_move e m1 hd m' : removes m e m1 -> spec D m1 (o_add e hd) m' -> spec D m (o_move e hd) m'
| sp_move_tail e m1 hd m' : removes m e m1 -> spec D m1 (o_add_tail e hd) m' -> spec D m (o_move_tail e hd) m'
| sp_replace_entry hd l1 old l2 new : loose D m new -> delete new m !! hd = Some (l1 ++ old :: l2) -> spec D m (o_replace old new) (<[hd := l1 ++ new :: l2]> (delete new m))
| sp_replace_head old l new : loose D m new -> delete new m !! old = Some l -> spec D m (o_replace old new) (<[new := l]> (delete old (delete new m)))
| sp_replace_init old new m1 m' : spec D m (o_replace old new) m1 -> spec D m1 (o_init old) m' -> spec D m (o_replace_init old new) m'
| sp_splice_nothing list hd : m !! list = Some [] -> spec D m (o_splice list hd) m
| sp_splice list L hd l : m !! list = Some L -> L <> [] -> m !! hd = Some l -> list <> hd -> spec D m (o_splice list hd) (<[hd := L ++ l]> (delete list m))
| sp_splice_init_nothing list hd : m !! list = Some [] -> spec D m (o_splice_init list hd) m
| sp_splice_init list L hd l : m !! list = Some L -> L <> [] -> m !! hd = Some l -> list <> hd -> spec D m (o_splice_init list hd) (<[list := []]> (<[hd := L ++ l]> (delete list m))).

Lemma empty_rep h m hd l : rep h m -> m !! hd = Some l -> list_empty hd h = Some (bool_decide (l = [])).
Proof.
  intros H Hm. pose proof (rep_ring _ _ H _ _ Hm) as Hr. pose proof (rep_nodup _ _ H) as Hnd. rewrite (nodes_delete _ _ _ Hm) in Hnd. unfold list_empty. destruct l as [|x l].
  - destruct Hr as [[-> _] _]. cbn. by rewrite Z.eqb_refl.
  - destruct Hr as [[-> _] _]. cbn. apply NoDup_cons in Hnd as [Hx _]. destruct (Z.eqb_spec x hd) as [->|]; [|done]. exfalso. apply Hx. left.
Qed.

Lemma add_after (h h1 : heap) m1 e hd m' : rep h1 m1 -> dom h1 = dom h -> spec (dom h) m1 (o_add e hd) m' -> exists h', list_add e hd h1 = Some h' /\ rep h' m' /\ dom h' = dom h.
Proof. intros H <- Hs. inversion Hs; subst. by eapply add_rep. Qed.
Lemma add_tail_after (h h1 : heap) m1 e hd m' : rep h1 m1 -> dom h1 = dom h -> spec (dom h) m1 (o_add_tail e hd) m' -> exists h', list_add_tail e hd h1 = Some h' /\ rep h' m' /\ dom h' = dom h.
Proof. intros H <- Hs. inversion Hs; subst. by eapply add_tail_rep. Qed.
Lemma replace_after (h : heap) m old new m' : rep h m -> spec (dom h) m (o_replace old new) m' -> exists h', list_replace old new h = Some h' /\ rep h' m' /\ dom h' = dom h.
Proof. intros H Hs. inversion Hs; subst; [by eapply replace_entry_rep|by eapply replace_head_rep]. Qed.
Lemma init_after (h h1 : heap) m1 e m' : rep h1 m1 -> dom h1 = dom h -> spec (dom h) m1 (o_init e) m' -> exists h', INIT_LIST_HEAD e h1 = Some h' /\ rep h' m' /\ dom h' = dom h.
Proof. intros H <- Hs. inversion Hs as [? [He Hf]| | | | | | | | | | | | |]; subst. by apply init_rep. Qed.

Lemma exec_refines o (h : heap) m m' : rep h m -> spec (dom h) m o m' -> exists h', exec o h = Some h' /\ rep h' m' /\ dom h' = dom h.
Proof.
  intros H Hs. destruct o; cbn [exec]; [by eapply init_after|by eapply add_after|by eapply add_tail_after| | | | |by eapply replace_after| | |]; inversion Hs; subst; clear Hs.
  - destruct (unlink_rep _ _ _ _ H H1) as (h1 & E1 & H2 & D2 & He & Hf). unfold list_del. rewrite E1. cbn [mbind option_bind]. rewrite <- D2 in He |- *. by apply poison_rep.
  - destruct (unlink_rep _ _ _ _ H H1) as (h1 & E1 & H2 & D2 & He & Hf). unfold list_del_init. rewrite E1. cbn [mbind option_bind]. rewrite <- D2 in He |- *. apply init_rep; [done|done|]. by intros Hx%nodes_sub.
  - destruct (unlink_rep _ _ _ _ H H2) as (h1 & E1 & H3 & D2 & He & Hf). unfold list_move. rewrite E1. cbn [mbind option_bind]. by eapply add_after.
  - destruct (unlink_rep _ _ _ _ H H2) as (h1 & E1 & H3 & D2 & He & Hf). unfold list_move_tail. rewrite E1. cbn [mbind option_bind]. by eapply add_tail_after.
  - destruct (replace_after _ _ _ _ _ H H2) as (h1 & E1 & H3 & D2). unfold list_replace_init. rewrite E1. cbn [mbind option_bind]. by eapply init_after.
  - unfold list_splice. erewrite empty_rep by done. cbn. by exists h.
  - unfold list_splice. erewrite empty_rep by done. cbn [mbind option_bind]. rewrite bool_decide_eq_false_2 by done. destruct L as [|x L]; [done|]. destruct (splice_rep h m list x L hd l) as (h' & ? & ? & ? & _); [done..|]. by exists h'.
  - unfold list_splice_init. erewrite empty_rep by done. cbn. by exists h.
  - unfold list_splice_init. erewrite empty_rep by done. cbn [mbind option_bind]. rewrite bool_decide_eq_false_2 by done. destruct L as [|x L]; [done|]. destruct (splice_rep h m list x L hd l) as (h1 & E1 & H5 & D5 & Hf); [done..|]. rewrite E1. cbn [mbind option_bind]. rewrite <- D5.
    apply init_rep; [done| |by intros Hx%nodes_sub]. rewrite D5. apply (ring_dom h list (x :: L)); [by apply (rep_ring _ _ H)|left].
Qed.

(** ** Loops *)

Lemma each_ok h hd l : forall a fuel, path h (a :: l ++ [hd]) -> (hd ∉ a :: l) -> (length l < fuel)%nat -> each_from fuel a hd h = Some (a :: l).
Proof.
  induction l as [|b l IH]; intros a fuel Hp Hf Hl; (destruct fuel as [|fuel]; [cbn in Hl; lia|]); apply not_elem_of_cons in Hf as [Hne Hf]; destruct Hp as [[En _] Hp]; cbn [each_from]; (destruct (Z.eqb_spec a hd); [congruence|]); rewrite En; cbn [mbind option_bind].
  - destruct fuel; cbn; by rewrite Z.eqb_refl.
  - rewrite (IH b fuel); [done|exact Hp|done|cbn in Hl; lia].
Qed.

Lemma back_ok h hd l : forall b fuel, path h (hd :: l ++ [b]) -> (hd ∉ l ++ [b]) -> (length l < fuel)%nat -> each_back fuel b hd h = Some (b :: rev l).
Proof.
  induction l as [|c l IH] using rev_ind; intros b fuel Hp Hf Hl; (destruct fuel as [|fuel]; [lia|]); assert (b <> hd) by (intros ->; apply Hf, elem_of_app; right; left); cbn [each_back]; (destruct (Z.eqb_spec b hd); [done|]).
  - destruct Hp as [[_ Ep] _]. rewrite Ep. cbn. destruct fuel; cbn; by rewrite Z.eqb_refl.
  - apply (path_cat h hd (l ++ [c]) b []) in Hp as (Hp & [_ Ep] & _). rewrite last_last in Ep. rewrite Ep. cbn [mbind option_bind]. rewrite (IH c fuel); [cbn; by rewrite rev_app_distr|exact Hp| |rewrite length_app in Hl; cbn in Hl; lia].
    intros Hx. apply Hf, elem_of_app. by left.
Qed.

Lemma for_each_ok h m hd l fuel : rep h m -> m !! hd = Some l -> (length l <= fuel)%nat -> list_for_each fuel hd h = Some l /\ list_for_each_prev fuel hd h = Some (rev l).
Proof.
  intros H Hm Hl. pose proof (rep_ring _ _ H _ _ Hm) as Hr. pose proof (rep_nodup _ _ H) as Hnd. rewrite (nodes_delete _ _ _ Hm) in Hnd. apply NoDup_cons in Hnd as [Hhd _]. rewrite elem_of_app in Hhd. split.
  - unfold list_for_each. destruct l as [|a l]; destruct Hr as [[-> _] Hr]; cbn [mbind option_bind]; [destruct fuel; cbn; by rewrite Z.eqb_refl|]. eapply each_ok; [exact Hr|tauto|cbn in Hl; lia].
  - unfold list_for_each_prev. destruct l as [|b l _] using rev_ind; [destruct Hr as [[_ ->] _]; cbn [mbind option_bind]; destruct fuel; cbn; by rewrite Z.eqb_refl|].
    unfold ring in Hr. apply (path_cat h hd (l ++ [b]) hd []) in Hr as (Hr & [_ Ep] & _). rewrite last_last in Ep. rewrite Ep. cbn [mbind option_bind]. rewrite rev_app_distr. cbn. apply back_ok; [exact Hr|tauto|rewrite length_app in Hl; cbn in Hl; lia].
Qed.

(** The entries are deleted one after the other, as the clients of an instance are at its end. *)
Lemma drain_ok hd l : forall h m a fuel n,
  rep h m -> m !! hd = Some (a :: l) -> get_next a h = Some n -> (length l < fuel)%nat -> exists h', safe_from list_del fuel a n hd h = Some h' /\ rep h' (<[hd := []]> m) /\ dom h' = dom h.
Proof.
  induction l as [|b l IH]; intros h m a fuel n H Hm En Hl; (destruct fuel as [|fuel]; [cbn in Hl; lia|]); cbn [safe_from]; pose proof (rep_nodup _ _ H) as Hnd; rewrite (nodes_delete _ _ _ Hm) in Hnd; apply NoDup_cons in Hnd as [Hhd Hnd];
    (destruct (Z.eqb_spec a hd) as [->|Hne]; [exfalso; apply Hhd; left|]); pose proof (rep_ring _ _ H _ _ Hm) as (_ & [En' _] & _); rewrite En in En'; injection En' as ->;
    destruct (exec_refines (o_del a) h m _ H (sp_del _ _ _ _ (rm_entry m a hd [] _ Hm))) as (h1 & E1 & H1 & D1); cbn [exec] in E1; rewrite E1; cbn [mbind option_bind app] in *.
  - pose proof (rep_ring _ _ H1 hd [] (lookup_insert_eq _ _ _)) as [[En1 _] _]. rewrite En1. cbn [mbind option_bind]. exists h1. split; [destruct fuel; cbn; by rewrite Z.eqb_refl|]. done.
  - pose proof (rep_ring _ _ H1 hd (b :: l) (lookup_insert_eq _ _ _)) as Hr1. assert (Hb : exists n', get_next b h1 = Some n') by (destruct Hr1 as [_ Hr1]; destruct l; destruct Hr1 as [[? _] _]; by eexists). destruct Hb as [n' En1]. rewrite En1. cbn [mbind option_bind].
    destruct (IH h1 _ b fuel n' H1 (lookup_insert_eq _ _ _) En1) as (h' & E' & H' & D'); [cbn in Hl; lia|]. exists h'. split; [done|]. rewrite insert_insert_eq in H'. split; [done|congruence].
Qed.

Lemma for_each_safe_ok h m hd l fuel : rep h m -> m !! hd = Some l -> (length l <= fuel)%nat -> exists h', list_for_each_safe list_del fuel hd h = Some h' /\ rep h' (<[hd := []]> m) /\ dom h' = dom h.
Proof.
  intros H Hm Hl. pose proof (rep_ring _ _ H _ _ Hm) as Hr. unfold list_for_each_safe. destruct l as [|a l].
  - destruct Hr as [[En _] _]. rewrite En. cbn [mbind option_bind]. rewrite En. cbn [mbind option_bind]. exists h. split; [destruct fuel; cbn; by rewrite Z.eqb_refl|]. by rewrite insert_id.
  - destruct Hr as [[En _] Hr]. rewrite En. cbn [mbind option_bind]. assert (Ha : exists n, get_next a h = Some n) by (destruct l; destruct Hr as [[? _] _]; by eexists). destruct Ha as [n Ea]. rewrite Ea. cbn [mbind option_bind]. eapply drain_ok; [done|done|done|cbn in Hl; lia].
Qed.

(** ** Theorem *)

Fixpoint exec_all (os : list op) (h : heap) : option heap :=
  match os with [] => Some h | o :: os => h ← exec o h; exec_all os h end.

Inductive specs (D : gset Z) : lists -> list op -> lists -> Prop :=
| ss_nil m : specs D m [] m
| ss_cons m o m1 os m' : spec D m o m1 -> specs D m1 os m' -> specs D m (o :: os) m'.

Lemma exec_all_refines os : forall (h : heap) m m', rep h m -> specs (dom h) m os m' -> exists h', exec_all os h = Some h' /\ rep h' m' /\ dom h' = dom h.
Proof.
  induction os as [|o os IH]; intros h m m' H Hs; inversion Hs; subst; cbn [exec_all]; [by exists h|]. destruct (exec_refines o h m m1 H) as (h1 & -> & H1 & D1); [done|]. cbn [mbind option_bind].
  destruct (IH h1 m1 m' H1) as (h' & E' & H' & D'); [by rewrite D1|]. exists h'. split_and!; [done|done|congruence].
Qed.

Lemma is_last_rep h m hd l1 e l2 : rep h m -> m !! hd = Some (l1 ++ e :: l2) -> list_is_last e hd h = Some (bool_decide (l2 = [])).
Proof.
  intros H Hm. pose proof (rep_ring _ _ H _ _ Hm) as Hr. pose proof (rep_nodup _ _ H) as Hnd. rewrite (nodes_delete _ _ _ Hm) in Hnd. apply NoDup_cons in Hnd as [Hhd _]. unfold ring in Hr. rewrite <- app_assoc in Hr. cbn [app] in Hr.
  apply (path_cat h hd l1 e (l2 ++ [hd])) in Hr as (_ & _ & Hr). unfold list_is_last. destruct l2 as [|x l2]; destruct Hr as [[-> _] _]; cbn; [by rewrite Z.eqb_refl|]. destruct (Z.eqb_spec x hd) as [->|]; [|done]. exfalso. apply Hhd. apply elem_of_app. left. apply elem_of_app. right. right. left.
Qed.

Lemma empty_careful_rep h m hd l : rep h m -> m !! hd = Some l -> list_empty_careful hd h = Some (bool_decide (l = [])).
Proof.
  intros H Hm. pose proof (empty_rep h m hd l H Hm) as He. unfold list_empty in He. unfold list_empty_careful. destruct (get_next hd h) as [n|] eqn:En; [|done]. cbn in He |- *. injection He as He. destruct (Z.eqb_spec n hd) as [->|Hne]; [|by rewrite <- He].
  symmetry in He. apply bool_decide_eq_true in He as ->. pose proof (rep_ring _ _ H _ _ Hm) as [[_ ->] _]. cbn. by rewrite Z.eqb_refl.
Qed.

(** C13: Any sequence of operations on the nodes of a heap that makes sense for lists, where each
    node is in at most one list, runs without an access outside the nodes, and each list then has
    the entries it should have: walking it forwards and backwards meets them in their order, the
    tests for an empty list and for the last entry answer accordingly, and deleting each entry in
    [list_for_each_safe] leaves that list empty and the others as they are. *)
Theorem lists_refine (h : heap) os m :
  specs (dom h) ∅ os m ->
  exists h', exec_all os h = Some h' /\ forall hd l, m !! hd = Some l ->
    list_for_each (length l) hd h' = Some l /\ list_for_each_prev (length l) hd h' = Some (rev l) /\
    list_empty hd h' = Some (bool_decide (l = [])) /\ list_empty_careful hd h' = Some (bool_decide (l = [])) /\
    (forall l1 e l2, l = l1 ++ e :: l2 -> list_is_last e hd h' = Some (bool_decide (l2 = []))) /\
    exists h'', list_for_each_safe list_del (length l) hd h' = Some h'' /\
      forall hd2 l2, <[hd := []]> m !! hd2 = Some l2 -> list_for_each (length l2) hd2 h'' = Some l2.
Proof.
  intros Hs. destruct (exec_all_refines os h ∅ m) as (h' & E & H & D); [split; [apply NoDup_nil_2|done]|done|]. exists h'. split; [done|]. intros hd l Hm. destruct (for_each_ok h' m hd l (length l) H Hm) as [H1 H2]; [lia|].
  split_and!; [done|done|by eapply empty_rep|by eapply empty_careful_rep|intros l1 e l2 ->; by eapply is_last_rep|].
  destruct (for_each_safe_ok h' m hd l (length l) H Hm) as (h'' & E'' & H'' & _); [lia|]. exists h''. split; [done|]. intros hd2 l2 Hm2. by apply (for_each_ok h'' _ hd2 l2 (length l2) H'' Hm2).
Qed.

(** Two lists; entries are added at both ends, moved, replaced and joined. *)
Definition some_heap : heap := list_to_map ((fun a => (a, mk_node 0 0)) <$> [1; 2; 10; 11; 12; 13]).
Definition some_ops : list op := [o_init 1; o_init 2; o_add 10 1; o_add_tail 11 1; o_add 12 2; o_move 10 2; o_replace 12 13; o_splice_init 2 1; o_del 13].

Lemma some_specs : specs (dom some_heap) ∅ some_ops {[1 := [10; 11]; 2 := []]}.
Proof.
  assert (HD : dom some_heap = list_to_set [1; 2; 10; 11; 12; 13]) by (by vm_compute). rewrite HD. unfold some_ops.
  pose (m1 := {[1 := []]} : lists). pose (m2 := {[1 := []; 2 := []]} : lists). pose (m3 := {[1 := [10]; 2 := []]} : lists). pose (m4 := {[1 := [10; 11]; 2 := []]} : lists). pose (m5 := {[1 := [10; 11]; 2 := [12]]} : lists).
  pose (m6 := {[1 := [11]; 2 := [10; 12]]} : lists). pose (m7 := {[1 := [11]; 2 := [10; 13]]} : lists). pose (m8 := {[1 := [10; 13; 11]; 2 := []]} : lists).
  assert (Hl : forall (m : lists) e, bool_decide (e ∈ (list_to_set [1; 2; 10; 11; 12; 13] : gset Z)) && bool_decide (e ∉ nodes (delete e m)) = true -> loose (list_to_set [1; 2; 10; 11; 12; 13]) m e).
  { intros m e He. apply andb_true_iff in He as [H1 H2]. apply bool_decide_eq_true in H1. apply bool_decide_eq_true in H2. done. }
  apply (ss_cons _ ∅ _ m1); [apply (sp_init _ ∅ 1), Hl; by vm_compute|]. apply (ss_cons _ m1 _ m2); [apply (sp_init _ m1 2), Hl; by vm_compute|].
  apply (ss_cons _ m2 _ m3); [apply (sp_add _ m2 10 1 []); [apply Hl; by vm_compute|by vm_compute]|]. apply (ss_cons _ m3 _ m4); [apply (sp_add_tail _ m3 11 1 [10]); [apply Hl; by vm_compute|by vm_compute]|].
  apply (ss_cons _ m4 _ m5); [apply (sp_add _ m4 12 2 []); [apply Hl; by vm_compute|by vm_compute]|].
  apply (ss_cons _ m5 _ m6). { eapply sp_move; [apply (rm_entry m5 10 1 [] [11]); by vm_compute|]. cbn [app]. assert (E6 : m6 = <[2 := [10; 12]]> (delete 10 (<[1 := [11]]> m5))) by (by vm_compute). rewrite E6. apply (sp_add _ (<[1 := [11]]> m5) 10 2 [12]); [apply Hl; by vm_compute|by vm_compute]. }
  apply (ss_cons _ m6 _ m7); [apply (sp_replace_entry _ m6 2 [10] 12 [] 13); [apply Hl; by vm_compute|by vm_compute]|]. apply (ss_cons _ m7 _ m8); [by apply (sp_splice_init _ m7 2 [10; 13] 1 [11])|].
  apply (ss_cons _ m8 _ m4); [|apply ss_nil]. apply sp_del. apply (rm_entry m8 13 1 [10] [11]). by vm_compute.
Qed.

Lemma lists_refine_witness :
  exists h', exec_all some_ops some_heap = Some h' /\ list_for_each 2 1 h' = Some [10; 11] /\ list_for_each_prev 2 1 h' = Some [11; 10] /\ list_empty 2 h' = Some true.
Proof.
  destruct (lists_refine some_heap some_ops _ some_specs) as (h' & E & H). exists h'. split; [exact E|]. destruct (H 1 [10; 11]) as (H1 & H2 & _); [by vm_compute|]. destruct (H 2 []) as (_ & _ & H3 & _); [by vm_compute|]. split; [exact H1|]. split; [exact H2|]. exact H3.
Defined.

(** Replacing the head of an empty list makes the new node an empty list, and leaves the old head
    with its predecessor overwritten, as the comment of [list_replace] warns. *)
Example replaced_empty_list :
  (h ← exec_all [o_init 1; o_replace 1 2] some_heap; Some (h !! 1, h !! 2)) = Some (Some (mk_node 1 2), Some (mk_node 2 2)).
Proof. by vm_compute. Qed.

End KList.
