(* ===== verification/Ipaddr6.v ===== *)
(** * IPv6 addresses as text: ipaddr6.h (badvpn/misc)

    Reading and printing of addresses, prefixes and masks. An address is the list of its 16
    bytes. The result of a function that reads text is [Oob] when it accesses memory outside the
    text, the address or a local array, [Zero] when it returns 0, and [One] with what it stored
    when it returns 1. *)

From S2P Require Import Prelude CLib.
Open Scope Z_scope.

Module Ipaddr6.

Inductive result (A : Type) := Oob | Zero | One (x : A).
Arguments Oob {A}. Arguments Zero {A}. Arguments One {A}.

#[export] Instance result_ret : MRet result := fun A x => One x.
#[export] Instance result_bind : MBind result := fun A B k r => match r with Oob => Oob | Zero => Zero | One x => k x end.

(** ** Memory *)

Definition store (k v : Z) (a : bytes) : result bytes :=
  if (0 <=? k) && (k <? zlen a) then One (<[Z.to_nat k := v]> a) else Oob.
(** [n] bytes from [k] on; and bytes written there. *)
Definition load (k n : Z) (a : bytes) : result bytes :=
  if (0 <=? k) && (0 <=? n) && (k + n <=? zlen a) then One (take (Z.to_nat n) (drop (Z.to_nat k) a)) else Oob.
Definition blit (k : Z) (l : bytes) (a : bytes) : result bytes :=
  if (0 <=? k) && (k + zlen l <=? zlen a) then One (take (Z.to_nat k) a ++ l ++ drop (Z.to_nat (k + zlen l)) a) else Oob.
Definition memset (k v n : Z) (a : bytes) : result bytes :=
  if n <? 0 then Oob else blit k (replicate (Z.to_nat n) v) a.

(** ** Numbers *)

Definition decode_decimal_digit (c : Z) : Z := if (48 <=? c) && (c <=? 57) then c - 48 else -1.
Definition decode_hex_digit (c : Z) : Z :=
  if (48 <=? c) && (c <=? 57) then c - 48
  else if (65 <=? c) && (c <=? 70) then c - 55
  else if (97 <=? c) && (c <=? 102) then c - 87 else -1.

(** [parse_unsigned_integer]: leading zeros do not count, and a number that does not fit into 64
    bits is refused, by the length of its digits and then by comparing them. *)
Definition parse_number__uintmax_max_str : bytes := lit "18446744073709551615".
Fixpoint parse__no_overflow (str : bytes) (n : Z) : option Z :=
  match str with
  | [] => Some n
  | c :: str => if (c <? 48) || (c >? 57) then None else parse__no_overflow str (u64 (10 * n + (c - 48)))
  end.
Fixpoint memcmp (a b : bytes) : comparison :=
  match a, b with
  | x :: a, y :: b => match x ?= y with Eq => memcmp a b | c => c end
  | _, _ => Eq
  end.
Definition parse_unsigned_integer (str : bytes) : option Z :=
  match str with
  | [] => None
  | _ =>
      let str := skip (fun c => c =? 48) str in
      if (zlen str >? 20) || ((zlen str =? 20) && match memcmp str parse_number__uintmax_max_str with Gt => true | _ => false end) then None
      else parse__no_overflow str 0
  end.

(** ** Reading an address *)

Record st := mk_st { num_blocks : Z; compress_pos : Z; block : Z; empty : bool; out : bytes }.

(** The loop ends at the end of the text, or at a dot. *)
Inductive stop := ended (s : st) | dotted (i : nat) (s : st).

Definition colon : Z := 58.
Definition dot : Z := 46.

Definition put_block (s : st) : result st :=
  o ← store (2 * num_blocks s + 0) (Z.shiftr (block s) 8) (out s);
  o ← store (2 * num_blocks s + 1) (Z.land (block s) 0xFF) o;
  One (mk_st (num_blocks s + 1) (compress_pos s) (block s) (empty s) o).

Definition at_colon (i : nat) (is_double : bool) (s : st) : result st :=
  s ← (if (0 <? i)%nat then
         if empty s || (num_blocks s =? 7) then Zero
         else s ← put_block s; One (mk_st (num_blocks s) (compress_pos s) 0 true (out s))
       else if negb is_double then Zero else One s);
  if is_double then
    if negb (compress_pos s =? -1) then Zero else One (mk_st (num_blocks s) (num_blocks s) (block s) (empty s) (out s))
  else One s.

Definition at_digit (c : Z) (s : st) : result st :=
  let digit := decode_hex_digit c in
  if digit <? 0 then Zero
  else if block s >? 0xFFFF / 16 then Zero
  else
    let b := block s * 16 in
    if digit >? 0xFFFF - b then Zero else One (mk_st (num_blocks s) (compress_pos s) (b + digit) false (out s)).

Fixpoint scan (rest : bytes) (i : nat) (s : st) : result stop :=
  match rest with
  | [] => One (ended s)
  | c :: r =>
      if c =? dot then One (dotted i s)
      else if c =? colon then
        match r with
        | c2 :: r2 =>
            if c2 =? colon then s ← at_colon i true s; scan r2 (i + 2) s
            else s ← at_colon i false s; scan r (i + 1) s
        | [] => s ← at_colon i false s; scan r (i + 1) s
        end
      else s ← at_digit c s; scan r (i + 1) s
  end.

(** [while (name.ptr[i - 1] != ':') i--] *)
Fixpoint back (name : bytes) (i : nat) : result nat :=
  match i with
  | O => Oob
  | S j => match name !! j with None => Oob | Some c => if c =? colon then One i else back name j end
  end.

Record st4 := mk_st4 { b_bytes : bytes; cur_byte : Z; b_byte : Z; b_empty : bool }.

Fixpoint scan4 (rest : bytes) (s : st4) : result st4 :=
  match rest with
  | [] => One s
  | c :: r =>
      if c =? dot then
        if b_empty s || (cur_byte s =? 3) then Zero
        else b ← store (cur_byte s) (b_byte s) (b_bytes s); scan4 r (mk_st4 b (cur_byte s + 1) 0 true)
      else if negb (b_empty s) && (b_byte s =? 0) then Zero
      else
        let digit := decode_decimal_digit c in
        if digit <? 0 then Zero
        else if b_byte s >? 255 / 10 then Zero
        else
          let b := b_byte s * 10 in
          if digit >? 255 - b then Zero else scan4 r (mk_st4 (b_bytes s) (cur_byte s) (b + digit) false)
  end.

(** The label [ipv4_done]. *)
Definition finish (s : st) : result bytes :=
  c ← (if compress_pos s =? -1 then if negb (num_blocks s =? 8) then Zero else One 0 else One (compress_pos s));
  let num_rear := num_blocks s - c in
  rear ← load (2 * c) (2 * num_rear) (out s);
  o ← blit (2 * (8 - num_rear)) rear (out s);
  memset (2 * c) 0 (2 * (8 - num_rear - c)) o.

(** [bytes]: what is in the local array before. *)
Definition ipv4_ending (name : bytes) (i : nat) (s : st) (bytes : bytes) : result st :=
  if empty s || ((num_blocks s =? 0) && (compress_pos s =? -1)) then Zero else
  i ← back name i;
  b ← scan4 (drop i name) (mk_st4 bytes 0 0 true);
  if negb (cur_byte b =? 3) || b_empty b then Zero else
  four ← store (cur_byte b) (b_byte b) (b_bytes b);
  if 8 - num_blocks s <? 2 then Zero else
  o ← blit (2 * num_blocks s) four (out s);
  One (mk_st (num_blocks s + 2) (compress_pos s) (block s) (empty s) o).

(** [out_addr] and [bytes]: what is there before. *)
Definition ipaddr6_parse_ipv6_addr (name out_addr bytes : bytes) : result Prelude.bytes :=
  r ← scan name 0 (mk_st 0 (-1) 0 true out_addr);
  s ← match r with
      | ended s => if negb (empty s) then put_block s else if negb (num_blocks s =? compress_pos s) then Zero else One s
      | dotted i s => ipv4_ending name i s bytes
      end;
  finish s.

Definition ipaddr6_parse_ipv6_prefix (str : bytes) : option Z :=
  d ← parse_unsigned_integer str; if d >? 128 then None else Some d.

Definition ipaddr6_parse_ipv6_ifaddr (str out_addr bytes : bytes) : result (Prelude.bytes * Z) :=
  match strchr 47 str with
  | None => Zero
  | Some (a, rest) =>
      addr ← ipaddr6_parse_ipv6_addr a out_addr bytes;
      match ipaddr6_parse_ipv6_prefix (tail rest) with Some p => One (addr, p) | None => Zero end
  end.

(** ** Printing an address *)

Fixpoint hex_loop (fuel : nat) (z : Z) : bytes :=
  match fuel with
  | O => []
  | S fuel => if z <? 16 then [hex_digit z] else hex_loop fuel (z / 16) ++ [hex_digit (z mod 16)]
  end.
(** [PRIx16] *)
Definition fmt_x16 (z : Z) : bytes := hex_loop 4 (u16 z).

Definition byte (i : nat) (a : bytes) : Z := nth i a 0.
Definition block_of (a : bytes) (i : nat) : Z := Z.lor (u16 (Z.shiftl (byte (2 * i) a) 8)) (byte (2 * i + 1) a).
Definition is_zero (a : bytes) (i : nat) : bool := (byte (2 * i) a =? 0) && (byte (2 * i + 1) a =? 0).

(** The longest run of zero blocks: [largest_start], [largest_len], [current_start] and
    [current_len] after each block. *)
Definition run_step (z : nat -> bool) (r : nat * nat * nat * nat) (i : nat) : nat * nat * nat * nat :=
  let '(ls, ll, cs, cl) := r in
  if z i then let cl := S cl in if (ll <? cl)%nat then (cs, cl, cs, cl) else (ls, ll, cs, cl)
  else (ls, ll, S i, O).
Definition largest (z : nat -> bool) : nat * nat :=
  let '(ls, ll, _, _) := fold_left (run_step z) (seq 0 8) (O, O, O, O) in (ls, ll).

Definition ipaddr6_print_addr (a : bytes) : bytes :=
  let '(largest_start, largest_len) := largest (is_zero a) in
  if (1 <? largest_len)%nat then
    concat ((fun i => fmt_x16 (block_of a i) ++ [colon]) <$> seq 0 largest_start) ++
    (if (largest_start =? 0)%nat then [colon] else []) ++
    concat ((fun i => colon :: fmt_x16 (block_of a i)) <$> seq (largest_start + largest_len) (8 - (largest_start + largest_len))) ++
    (if (largest_start + largest_len =? 8)%nat then [colon] else [])
  else concat ((fun i => (if (i =? 0)%nat then [] else [colon]) ++ fmt_x16 (block_of a i)) <$> seq 0 8).

Definition IPADDR6_PRINT_MAX : Z := 44.

(** [%d] of a prefix. *)
Definition ipaddr6_print_ifaddr (a : bytes) (prefix : Z) : bytes := ipaddr6_print_addr a ++ [47] ++ fmt_u prefix.

(** ** Masks *)

Definition bit_of (i : nat) : Z := u8 (Z.shiftl 1 (8 - Z.of_nat i - 1)).
Definition high_bits (rem : nat) (b : Z) : Z := fold_left (fun b i => Z.lor b (bit_of i)) (seq 0 rem) b.

Definition ipaddr6_ipv6_mask_from_prefix (prefix : Z) (out_mask : bytes) : result bytes :=
  if negb ((0 <=? prefix) && (prefix <=? 128)) then Oob else
  let quot := prefix / 8 in
  let rem := Z.to_nat (prefix mod 8) in
  m ← (if quot >? 0 then memset 0 255 quot out_mask else One out_mask);
  m ← (if 16 - quot >? 0 then memset quot 0 (16 - quot) m else One m);
  match rem with O => One m | _ => b ← load quot 1 m; store quot (high_bits rem (byte 0 b)) m end.

(** The loops over [i] and over [j]. *)
Fixpoint full_bytes (mask : bytes) : nat := match mask with b :: l => if b =? 255 then S (full_bytes l) else O | [] => O end.
Definition partial (b : Z) : option nat := find (fun j => b =? high_bits j 0) (seq 0 9).
Definition ipaddr6_ipv6_prefix_from_mask (mask : bytes) : option Z :=
  let i := full_bytes mask in
  match drop i mask with
  | [] => Some (8 * Z.of_nat i)
  | b :: l => j ← partial b; if forallb (fun b => b =? 0) l then Some (8 * Z.of_nat i + Z.of_nat j) else None
  end.
Definition ipaddr6_ipv6_ifaddr_from_addr_mask (addr mask : bytes) : option (bytes * Z) :=
  p ← ipaddr6_ipv6_prefix_from_mask mask; Some (addr, p).

Definition ipaddr6_ipv6_addrs_in_network (addr1 addr2 : bytes) (netprefix : Z) : result bool :=
  if negb ((0 <=? netprefix) && (netprefix <=? 128)) then Oob else
  let quot := netprefix / 8 in
  let rem := Z.to_nat (netprefix mod 8) in
  a ← load 0 quot addr1; b ← load 0 quot addr2;
  if negb (bool_decide (a = b)) then One false
  else match rem with
       | O => One true
       | _ => x ← load quot 1 addr1; y ← load quot 1 addr2; One (Z.land (byte 0 x) (high_bits rem 0) =? Z.land (byte 0 y) (high_bits rem 0))
       end.

(** ** No access outside *)

(** Nothing outside is accessed, and what is returned satisfies [P]. *)
Definition sat {A} (P : A -> Prop) (r : result A) : Prop := match r with Oob => False | Zero => True | One x => P x end.

Lemma sat_bind {A B} (P : A -> Prop) (Q : B -> Prop) r (k : A -> result B) : sat P r -> (forall x, P x -> sat Q (k x)) -> sat Q (r ≫= k).
Proof. destruct r; cbn; auto. Qed.

Definition addr_ok (a : bytes) : Prop := length a = 16%nat /\ is_bytes a.

Lemma store_sat k v a n : length a = n -> is_bytes a -> 0 <= k < Z.of_nat n -> 0 <= v < 256 -> sat (fun b => length b = n /\ is_bytes b) (store k v a).
Proof.
  intros Hl Hb Hk Hv. unfold store, zlen. rewrite Hl. destruct (0 <=? k) eqn:E1; [|lia]. destruct (k <? Z.of_nat n) eqn:E2; [|lia]. cbn. split; [by rewrite length_insert|]. by apply Forall_insert.
Qed.

Lemma load_sat k n a : is_bytes a -> 0 <= k -> 0 <= n -> k + n <= zlen a -> sat (fun b => zlen b = n /\ is_bytes b) (load k n a).
Proof.
  intros Hb Hk Hn Hkn. unfold load. rewrite !(proj2 (Z.leb_le _ _)) by lia. cbn. split; [|apply Forall_take; by apply Forall_drop]. unfold zlen in *. rewrite length_take, length_drop. lia.
Qed.

Lemma blit_sat k l a : is_bytes l -> is_bytes a -> 0 <= k -> k + zlen l <= zlen a -> sat (fun b => length b = length a /\ is_bytes b) (blit k l a).
Proof.
  intros Hl Ha Hk Hkl. unfold blit. rewrite !(proj2 (Z.leb_le _ _)) by lia. cbn. split; [|rewrite !is_bytes_app; split_and!; [by apply Forall_take|done|by apply Forall_drop]].
  unfold zlen in *. rewrite !length_app, length_take, length_drop. lia.
Qed.

Lemma memset_sat k v n a : 0 <= v < 256 -> is_bytes a -> 0 <= k -> 0 <= n -> k + n <= zlen a -> sat (fun b => length b = length a /\ is_bytes b) (memset k v n a).
Proof.
  intros Hv Ha Hk Hn Hkn. unfold memset. destruct (Z.ltb_spec n 0); [lia|]. apply blit_sat; [by apply Forall_replicate|done|done|]. unfold zlen in *. rewrite length_replicate. lia.
Qed.

(** The state of the loop after the first [i] characters. *)
Record scan_ok (name : bytes) (i : nat) (s : st) : Prop := {
  so_out : addr_ok (out s);
  so_num : 0 <= num_blocks s <= 7;
  so_pos : -1 <= compress_pos s <= num_blocks s;
  so_block : 0 <= block s <= 0xFFFF;
  so_colon : 0 < num_blocks s \/ compress_pos s <> -1 -> colon ∈ take i name }.

Lemma block_bytes b : 0 <= b <= 0xFFFF -> 0 <= Z.shiftr b 8 < 256 /\ 0 <= Z.land b 0xFF < 256.
Proof. intros Hb. rewrite Z.shiftr_div_pow2 by lia. change 0xFF with (Z.ones 8). rewrite Z.land_ones by lia. split; [|apply Z.mod_pos_bound; lia]. split; [apply Z.div_pos; lia|apply Z.div_lt_upper_bound; lia]. Qed.

Lemma put_block_sat s :
  addr_ok (out s) -> 0 <= num_blocks s <= 7 -> 0 <= block s <= 0xFFFF ->
  sat (fun s' => addr_ok (out s') /\ num_blocks s' = num_blocks s + 1 /\ compress_pos s' = compress_pos s /\ block s' = block s /\ empty s' = empty s) (put_block s).
Proof.
  intros [Hl Hb] Hn Hbl. destruct (block_bytes _ Hbl) as [H1 H2]. unfold put_block. eapply sat_bind; [by apply (store_sat _ _ _ 16); [done|done|lia|]|]. intros o [Hl' Hb']. eapply sat_bind; [by apply (store_sat _ _ _ 16); [done|done|lia|]|]. intros o2 [Hl2 Hb2]. done.
Qed.

Lemma at_colon_sat name i d s : scan_ok name i s -> name !! i = Some colon -> sat (fun s' => forall j, (i < j)%nat -> scan_ok name j s') (at_colon i d s).
Proof.
  intros [Ho Hn Hp Hb Hc] Hi. assert (Hin : forall j, (i < j)%nat -> colon ∈ take j name). { intros j Hj. apply list_elem_of_lookup. exists i. by rewrite lookup_take_lt. }
  unfold at_colon. eapply sat_bind with (P := fun s' => addr_ok (out s') /\ 0 <= num_blocks s' <= 7 /\ -1 <= compress_pos s' <= num_blocks s' /\ 0 <= block s' <= 0xFFFF).
  - destruct (0 <? i)%nat; [|destruct d; cbn; done]. destruct (empty s); [done|]. destruct (Z.eqb_spec (num_blocks s) 7); [done|]. cbn [orb]. eapply sat_bind; [by apply put_block_sat|]. intros s1 (H1 & H2 & H3 & H4 & H5). cbn. rewrite H2, H3. split; [done|lia].
  - intros s1 (H1 & H2 & H3 & H4). destruct d; [destruct (negb _); [done|]|]; cbn; intros j Hj; split; cbn; try done; try lia; intros _; by apply Hin.
Qed.

Lemma hex_digit_bound c : decode_hex_digit c < 16.
Proof. unfold decode_hex_digit. repeat match goal with |- context [if ?b then _ else _] => destruct b eqn:?; [lia|] end. lia. Qed.

Lemma at_digit_sat name i c s : scan_ok name i s -> sat (fun s' => scan_ok name (i + 1) s') (at_digit c s).
Proof.
  intros [Ho Hn Hp Hb Hc]. unfold at_digit. destruct (Z.ltb_spec (decode_hex_digit c) 0); [done|]. rewrite Z.gtb_ltb. destruct (Z.ltb_spec (0xFFFF / 16) (block s)); [done|]. rewrite Z.gtb_ltb. destruct (Z.ltb_spec (0xFFFF - block s * 16) (decode_hex_digit c)); [done|].
  cbn. split; cbn; try done; [lia|]. intros H'. apply Hc in H'. apply list_elem_of_lookup in H' as [j Hj]. apply list_elem_of_lookup. exists j. apply lookup_take_Some in Hj as [Hj Hlt]. rewrite lookup_take_lt by lia. done.
Qed.

Lemma scan_sat name n : forall rest i s, (length rest <= n)%nat -> drop i name = rest -> scan_ok name i s ->
  sat (fun r => match r with ended s' => exists j, scan_ok name j s' | dotted j s' => scan_ok name j s' /\ (j <= length name)%nat end) (scan rest i s).
Proof.
  induction n as [|n IH]; intros rest i s Hl Hr H; (destruct rest as [|c r]; [by exists i|]); [cbn in Hl; lia|]. cbn in Hl. cbn [scan].
  assert (Hi : name !! i = Some c) by (rewrite <- (Nat.add_0_r i), <- lookup_drop, Hr; done). assert (Hr1 : drop (i + 1) name = r) by (rewrite <- drop_drop, Hr; done). pose proof (lookup_lt_Some _ _ _ Hi) as Hlt.
  destruct (c =? dot); [cbn; split; [done|lia]|]. destruct (Z.eqb_spec c colon) as [->|].
  - assert (Hone : sat (fun s' => scan_ok name (i + 1) s') (at_colon i false s)). { pose proof (at_colon_sat name i false s H Hi) as Hs. destruct (at_colon i false s) as [| |s']; [done|done|]. apply Hs. lia. }
    destruct r as [|c2 r2]; [eapply sat_bind; [exact Hone|]; intros s' Hs'; apply IH; [cbn; lia|done|done]|]. destruct (c2 =? colon); [|eapply sat_bind; [exact Hone|]; intros s' Hs'; apply IH; [cbn in *; lia|done|done]].
    eapply sat_bind; [by apply at_colon_sat|]. intros s' Hs'. apply IH; [cbn in Hl; lia| |apply Hs'; lia]. replace (i + 2)%nat with ((i + 1) + 1)%nat by lia. rewrite <- drop_drop, Hr1. done.
  - eapply sat_bind; [by apply at_digit_sat|]. intros s' Hs'. apply IH; [lia|done|done].
Qed.

Lemma back_sat name i : (i <= length name)%nat -> colon ∈ take i name -> sat (fun j => (j <= i)%nat) (back name i).
Proof.
  induction i as [|j IH]; intros Hi Hc; [by apply not_elem_of_nil in Hc|]. cbn [back]. destruct (name !! j) as [c|] eqn:E; [|apply lookup_ge_None_1 in E; lia]. destruct (Z.eqb_spec c colon) as [->|Hne]; [cbn; lia|].
  rewrite (take_S_r _ _ _ E) in Hc. apply elem_of_app in Hc as [Hc|Hc%list_elem_of_singleton]; [|by subst]. pose proof (IH ltac:(lia) Hc) as H. destruct (back name j); cbn in *; [done|done|lia].
Qed.

Record scan4_ok (s : st4) : Prop := { s4_bytes : length (b_bytes s) = 4%nat /\ is_bytes (b_bytes s); s4_cur : 0 <= cur_byte s <= 3; s4_byte : 0 <= b_byte s <= 255 }.

Lemma scan4_sat rest : forall s, scan4_ok s -> sat scan4_ok (scan4 rest s).
Proof.
  induction rest as [|c r IH]; intros s H; [done|]. cbn [scan4]. pose proof H as [[Hl Hb] Hc Hy]. destruct (c =? dot).
  - destruct (b_empty s); [done|]. destruct (Z.eqb_spec (cur_byte s) 3); [done|]. cbn [orb]. eapply sat_bind; [by apply (store_sat _ _ _ 4); [done|done|lia|lia]|]. intros b Hb'. apply IH. split; cbn; [done|lia|lia].
  - destruct (negb (b_empty s) && (b_byte s =? 0)); [done|]. cbv zeta. assert (Hd : decode_decimal_digit c < 10) by (unfold decode_decimal_digit; destruct (_ && _) eqn:E; lia). destruct (Z.ltb_spec (decode_decimal_digit c) 0); [done|].
    rewrite Z.gtb_ltb. destruct (Z.ltb_spec (255 / 10) (b_byte s)); [done|]. rewrite Z.gtb_ltb. destruct (Z.ltb_spec (255 - b_byte s * 10) (decode_decimal_digit c)); [done|]. apply IH. split; cbn; [done|done|lia].
Qed.

Definition done_ok (s : st) : Prop := addr_ok (out s) /\ 0 <= num_blocks s <= 8 /\ -1 <= compress_pos s <= num_blocks s.

Lemma ipv4_ending_sat name i s bs : scan_ok name i s -> (i <= length name)%nat -> length bs = 4%nat -> is_bytes bs -> sat done_ok (ipv4_ending name i s bs).
Proof.
  intros [[Ho1 Ho2] Hn Hp Hb Hc] Hi Hl Hbs. unfold ipv4_ending. destruct (empty s); [done|]. cbn [orb]. destruct ((num_blocks s =? 0) && (compress_pos s =? -1)) eqn:E; [done|]. eapply sat_bind; [apply back_sat; [done|]; apply Hc; lia|]. intros j Hj.
  eapply sat_bind; [apply scan4_sat; split; cbn; [done|lia|lia]|]. intros b [[H1 H2] H3 H4]. destruct (Z.eqb_spec (cur_byte b) 3) as [E3|]; [|done]. destruct (b_empty b); [done|]. cbn [negb orb]. eapply sat_bind; [by apply (store_sat _ _ _ 4); [done|done|lia|lia]|]. intros four [H5 H6].
  destruct (Z.ltb_spec (8 - num_blocks s) 2); [done|]. eapply sat_bind; [apply blit_sat; [done|done|lia|unfold zlen; rewrite H5, Ho1; lia]|]. intros o [H7 H8]. cbn. split; cbn; [split; [congruence|done]|lia].
Qed.

Lemma finish_sat s : done_ok s -> sat addr_ok (finish s).
Proof.
  intros ([Hl Hb] & Hn & Hp). unfold finish. eapply sat_bind with (P := fun c => 0 <= c <= num_blocks s).
  - destruct (Z.eqb_spec (compress_pos s) (-1)); [|cbn; lia]. destruct (negb _); [done|cbn; lia].
  - intros c Hc. cbv zeta. eapply sat_bind; [apply load_sat; [done|lia|lia|unfold zlen; rewrite Hl; lia]|]. intros rear [Hr1 Hr2]. eapply sat_bind; [apply blit_sat; [done|done|lia|unfold zlen in *; rewrite Hl; lia]|]. intros o [Ho1 Ho2].
    assert (Hm := memset_sat (2 * c) 0 (2 * (8 - (num_blocks s - c) - c)) o). destruct (memset _ _ _ _) as [| |m]; cbn in *; [apply Hm; [lia|done|lia|lia|unfold zlen; rewrite Ho1, Hl; lia]|done|]. destruct Hm as [H1 H2]; [lia|done|lia|lia|unfold zlen; rewrite Ho1, Hl; lia|]. split; [congruence|done].
Qed.

Lemma parse_sat name o bs : addr_ok o -> length bs = 4%nat -> is_bytes bs -> sat addr_ok (ipaddr6_parse_ipv6_addr name o bs).
Proof.
  intros Ho Hl Hb. unfold ipaddr6_parse_ipv6_addr. eapply sat_bind; [eapply (scan_sat name (length name)); [done|done|]; split; cbn; try done; lia|]. intros r Hr. eapply sat_bind with (P := done_ok); [|apply finish_sat]. destruct r as [s|i s].
  - destruct Hr as [j [H1 H2 H3 H4 H5]]. destruct (empty s); cbn [negb]; [destruct (Z.eqb_spec (num_blocks s) (compress_pos s)); cbn; [|done]; split; [done|lia]|]. pose proof (put_block_sat s H1 H2 H4) as Hs. destruct (put_block s) as [| |s']; [done|done|]. cbn in *. destruct Hs as (A1 & A2 & A3 & _). split; [done|]. lia.
  - destruct Hr as [H1 H2]. by apply ipv4_ending_sat.
Qed.

(** ** Reading what was printed *)

Lemma hex_digit_back d : 0 <= d < 16 -> decode_hex_digit (hex_digit d) = d /\ (hex_digit d =? dot) = false /\ (hex_digit d =? colon) = false.
Proof. intros Hd. unfold hex_digit, decode_hex_digit, dot, colon. destruct (Z.ltb_spec d 10); repeat match goal with |- context [?a <=? ?b] => destruct (Z.leb_spec a b); cbn [andb]; try lia end; lia. Qed.

Lemma scan_digit d rest i n c b e o : 0 <= d < 16 -> 0 <= b -> b * 16 + d <= 0xFFFF -> scan (hex_digit d :: rest) i (mk_st n c b e o) = scan rest (i + 1) (mk_st n c (b * 16 + d) false o).
Proof.
  intros Hd Hb Hbd. destruct (hex_digit_back d Hd) as (E1 & E2 & E3). cbn [scan]. rewrite E2, E3. unfold at_digit. rewrite E1. cbn [block num_blocks compress_pos empty out].
  destruct (Z.ltb_spec d 0); [lia|]. rewrite Z.gtb_ltb. destruct (Z.ltb_spec (0xFFFF / 16) b) as [Hq|Hq]; [change (0xFFFF / 16) with 4095 in Hq; lia|]. rewrite Z.gtb_ltb. destruct (Z.ltb_spec (0xFFFF - b * 16) d); [lia|]. done.
Qed.

Lemma scan_hex fuel : forall z rest i n c e o, (1 <= fuel <= 4)%nat -> 0 <= z < 16 ^ Z.of_nat fuel ->
  scan (hex_loop fuel z ++ rest) i (mk_st n c 0 e o) = scan rest (i + length (hex_loop fuel z)) (mk_st n c z false o).
Proof.
  induction fuel as [|fuel IH]; intros z rest i n c e o Hf Hz; [lia|]. assert (Hp : 16 ^ Z.of_nat (S fuel) <= 65536) by (change 65536 with (16 ^ 4); apply Z.pow_le_mono_r; lia). rewrite Nat2Z.inj_succ, Z.pow_succ_r in Hz, Hp by lia. cbn [hex_loop]. destruct (Z.ltb_spec z 16) as [H|H].
  - cbn [app length]. rewrite scan_digit by lia. done.
  - destruct fuel as [|fuel]; [cbn in Hz; lia|]. pose proof (Z.div_mod z 16 ltac:(lia)) as Ez. pose proof (Z.mod_pos_bound z 16 ltac:(lia)) as Hm. assert (Hd : 0 <= z / 16 < 16 ^ Z.of_nat (S fuel)) by (split; [apply Z.div_pos; lia|apply Z.div_lt_upper_bound; lia]).
    rewrite <- app_assoc, IH by (lia || done). cbn [app]. rewrite scan_digit by lia. rewrite length_app. cbn [length]. f_equal; [lia|]. f_equal. lia.
Qed.

Lemma scan_block z rest i n c e o : 0 <= z < 65536 -> scan (fmt_x16 z ++ rest) i (mk_st n c 0 e o) = scan rest (i + length (fmt_x16 z)) (mk_st n c z false o).
Proof. intros Hz. unfold fmt_x16. rewrite u16_id by done. apply scan_hex; [lia|done]. Qed.

Lemma hex_loop_head fuel z : 0 <= z < 16 ^ Z.of_nat fuel -> (1 <= fuel)%nat -> exists d r, hex_loop fuel z = hex_digit d :: r /\ 0 <= d < 16.
Proof.
  revert z. induction fuel as [|fuel IH]; intros z Hz Hf; [lia|]. rewrite Nat2Z.inj_succ, Z.pow_succ_r in Hz by lia. cbn [hex_loop]. destruct (Z.ltb_spec z 16); [exists z, []; split; [done|lia]|].
  destruct fuel as [|fuel]; [cbn in Hz; lia|]. destruct (IH (z / 16)) as (d & r & E & Hd); [split; [apply Z.div_pos; lia|apply Z.div_lt_upper_bound; lia]|lia|]. rewrite E. by exists d, (r ++ [hex_digit (z mod 16)]).
Qed.

Lemma fmt_head z : 0 <= z < 65536 -> exists c r, fmt_x16 z = c :: r /\ (c =? colon) = false.
Proof. intros Hz. unfold fmt_x16. rewrite u16_id by done. destruct (hex_loop_head 4 z) as (d & r & E & Hd); [done|lia|]. exists (hex_digit d), r. split; [done|]. by apply hex_digit_back. Qed.

(** The bytes of blocks, and blocks behind colons. *)
Definition bytes_of (l : list Z) : bytes := l ≫= fun b => [Z.shiftr b 8; Z.land b 0xFF].
Definition tail_blocks (l : list Z) : bytes := l ≫= fun b => colon :: fmt_x16 b.

Lemma bytes_of_app l k : bytes_of (l ++ k) = bytes_of l ++ bytes_of k.
Proof. apply bind_app. Qed.

Lemma length_bytes_of l : length (bytes_of l) = (2 * length l)%nat.
Proof. induction l as [|b l IH]; [done|]. change (bytes_of (b :: l)) with ([Z.shiftr b 8; Z.land b 0xFF] ++ bytes_of l). rewrite length_app, IH. cbn. lia. Qed.

Lemma store_at A x B k v : k = zlen A -> store k v (A ++ x :: B) = One (A ++ v :: B).
Proof.
  intros ->. unfold store, zlen. rewrite length_app. cbn [length]. rewrite (proj2 (Z.leb_le _ _)), (proj2 (Z.ltb_lt _ _)) by lia. cbn [andb]. rewrite Nat2Z.id. f_equal. rewrite <- (Nat.add_0_r (length A)), insert_app_r. done.
Qed.

Lemma put_block_at n c b e A B : zlen A = 2 * n -> (2 <= length B)%nat -> put_block (mk_st n c b e (A ++ B)) = One (mk_st (n + 1) c b e ((A ++ bytes_of [b]) ++ drop 2 B)).
Proof.
  intros HA HB. destruct B as [|x [|y B]]; [cbn in HB; lia..|]. unfold put_block. cbn [num_blocks block out empty compress_pos]. rewrite Z.add_0_r, store_at by done. cbn [mbind result_bind].
  replace (A ++ Z.shiftr b 8 :: y :: B) with ((A ++ [Z.shiftr b 8]) ++ y :: B) by (by rewrite <- app_assoc). rewrite store_at by (unfold zlen in *; rewrite length_app; cbn [length]; lia). cbn [mbind result_bind]. do 2 f_equal. cbn. by rewrite <- !app_assoc.
Qed.

Lemma scan_next n c b b' A B rest i :
  0 <= b' < 65536 -> zlen A = 2 * n -> n <> 7 -> (2 <= length B)%nat -> (0 < i)%nat ->
  scan (colon :: fmt_x16 b' ++ rest) i (mk_st n c b false (A ++ B)) = scan rest (i + 1 + length (fmt_x16 b')) (mk_st (n + 1) c b' false ((A ++ bytes_of [b]) ++ drop 2 B)).
Proof.
  intros Hb' HA Hn HB Hi. destruct (fmt_head b' Hb') as (d & r & Ed & Hd). cbn [scan]. change (colon =? dot) with false. rewrite Z.eqb_refl. rewrite Ed at 1. cbn [app]. rewrite Hd.
  unfold at_colon. rewrite (proj2 (Nat.ltb_lt 0 i)) by done. cbn [empty num_blocks orb]. destruct (Z.eqb_spec n 7); [done|]. rewrite put_block_at by done. cbn [mbind result_bind num_blocks compress_pos out]. by rewrite scan_block.
Qed.

(** More blocks are read behind one. *)
Lemma scan_tail l : forall n c b A B rest i,
  Forall (fun b => 0 <= b < 65536) l -> zlen A = 2 * n -> 0 <= n -> n + zlen l <= 7 -> length B = (16 - length A)%nat -> (0 < i)%nat ->
  exists j, (0 < j)%nat /\ scan (tail_blocks l ++ rest) i (mk_st n c b false (A ++ B)) =
    scan rest j (mk_st (n + zlen l) c (List.last l b) false ((A ++ bytes_of (removelast (b :: l))) ++ drop (2 * length l) B)).
Proof.
  induction l as [|b' l IH]; intros n c b A B rest i Hl HA Hn Hnl HB Hi.
  - exists i. split; [done|]. cbn. rewrite app_nil_r, drop_0, Z.add_0_r. done.
  - apply Forall_cons in Hl as [Hb' Hl]. unfold zlen in Hnl. cbn [length] in Hnl. rewrite Nat2Z.inj_succ in Hnl.
    change (tail_blocks (b' :: l)) with ((colon :: fmt_x16 b') ++ tail_blocks l). rewrite <- app_assoc. cbn [app]. unfold zlen in *. rewrite scan_next by (done || unfold zlen; lia).
    destruct (IH (n + 1) c b' (A ++ bytes_of [b]) (drop 2 B) rest (i + 1 + length (fmt_x16 b'))%nat) as (j & Hj & E); [done|rewrite length_app, length_bytes_of; cbn [length]; lia|lia|lia|rewrite length_app, length_bytes_of, length_drop; cbn [length]; lia|lia|].
    exists j. split; [done|]. rewrite E. f_equal. rewrite last_of_cons. f_equal; [cbn [length]; lia|]. rewrite drop_drop. change (removelast (b :: b' :: l)) with (b :: removelast (b' :: l)). change (b :: removelast (b' :: l)) with ([b] ++ removelast (b' :: l)). rewrite bytes_of_app, <- !app_assoc. do 4 f_equal. cbn [length]. lia.
Qed.

Definition joined (l : list Z) : bytes := match l with [] => [] | b :: l => fmt_x16 b ++ tail_blocks l end.

Lemma last_of_blocks (b : Z) l : removelast (b :: l) ++ [List.last l b] = b :: l.
Proof. revert b. induction l as [|x l IH]; intros b; [done|]. change (removelast (b :: x :: l)) with (b :: removelast (x :: l)). rewrite last_of_cons. cbn [app]. by rewrite IH. Qed.

Lemma fmt_length z : (1 <= length (fmt_x16 z) <= 4)%nat.
Proof.
  unfold fmt_x16. assert (H : forall f z, (1 <= f)%nat -> (1 <= length (hex_loop f z) <= f)%nat); [|apply H; lia]. intros f. induction f as [|f IH]; intros z' Hf; [lia|]. cbn [hex_loop]. destruct (z' <? 16); [cbn; lia|]. rewrite length_app. cbn [length].
  destruct f as [|f]; [cbn; lia|]. specialize (IH (z' / 16) ltac:(lia)). lia.
Qed.

(** A run of blocks, from the place where one begins. *)
Lemma scan_joined b l n c A B rest i :
  Forall (fun b => 0 <= b < 65536) (b :: l) -> zlen A = 2 * n -> 0 <= n -> n + zlen l <= 7 -> length B = (16 - length A)%nat ->
  exists j, (0 < j)%nat /\ scan (joined (b :: l) ++ rest) i (mk_st n c 0 true (A ++ B)) =
    scan rest j (mk_st (n + zlen l) c (List.last l b) false ((A ++ bytes_of (removelast (b :: l))) ++ drop (2 * length l) B)).
Proof.
  intros [Hb Hl]%Forall_cons HA Hn Hnl HB. unfold joined. rewrite <- app_assoc. pose proof (fmt_length b) as Hf. rewrite scan_block by done. apply scan_tail; [done..|lia].
Qed.

(** The last block is stored. *)
Lemma put_last b l n c A B : zlen A = 2 * n -> 0 <= n -> n + zlen l <= 7 -> length B = (16 - length A)%nat ->
  put_block (mk_st (n + zlen l) c (List.last l b) false ((A ++ bytes_of (removelast (b :: l))) ++ drop (2 * length l) B)) =
    One (mk_st (n + zlen (b :: l)) c (List.last l b) false ((A ++ bytes_of (b :: l)) ++ drop (2 * length (b :: l)) B)).
Proof.
  intros HA Hn Hnl HB. assert (Hr : length (removelast (b :: l)) = length l). { pose proof (f_equal length (last_of_blocks b l)) as E. rewrite length_app in E. cbn [length] in E. lia. }
  unfold zlen in *. rewrite put_block_at; [|unfold zlen; rewrite length_app, length_bytes_of, Hr; lia|rewrite length_drop; lia]. rewrite <- (app_assoc A), <- bytes_of_app, last_of_blocks, drop_drop. do 2 f_equal; [cbn [length]; lia|]. f_equal. f_equal. cbn [length]. lia.
Qed.

Lemma finish_at l1 l2 b e X : zlen l1 + zlen l2 <= 8 -> length X = (16 - 2 * (length l1 + length l2))%nat ->
  finish (mk_st (zlen l1 + zlen l2) (zlen l1) b e (bytes_of l1 ++ bytes_of l2 ++ X)) = One (bytes_of l1 ++ replicate (16 - 2 * (length l1 + length l2)) 0 ++ bytes_of l2).
Proof.
  intros Hl HX. pose proof (zlen_nonneg l1) as H0. unfold finish. cbn [compress_pos num_blocks out]. destruct (Z.eqb_spec (zlen l1) (-1)); [lia|]. cbn [mbind result_bind]. replace (zlen l1 + zlen l2 - zlen l1) with (zlen l2) by lia. pose proof (length_bytes_of l1) as L1. pose proof (length_bytes_of l2) as L2. unfold zlen in *.
  assert (HT : length (bytes_of l1 ++ bytes_of l2 ++ X) = 16%nat) by (rewrite !length_app; lia). set (o := bytes_of l1 ++ bytes_of l2 ++ X) in *.
  unfold load, zlen. rewrite HT, !(proj2 (Z.leb_le _ _)) by lia. cbn [andb mbind result_bind].
  assert (E1 : take (Z.to_nat (2 * Z.of_nat (length l2))) (drop (Z.to_nat (2 * Z.of_nat (length l1))) o) = bytes_of l2). { subst o. replace (Z.to_nat (2 * Z.of_nat (length l1))) with (length (bytes_of l1)) by lia. rewrite drop_app_length. replace (Z.to_nat (2 * Z.of_nat (length l2))) with (length (bytes_of l2)) by lia. apply take_app_length. }
  rewrite E1. unfold blit, zlen. rewrite HT, L2, !(proj2 (Z.leb_le _ _)) by lia. cbn [andb mbind result_bind]. rewrite (drop_ge o) by lia. rewrite app_nil_r.
  unfold memset. destruct (Z.ltb_spec (2 * (8 - Z.of_nat (length l2) - Z.of_nat (length l1))) 0); [lia|]. unfold blit, zlen. rewrite length_replicate, length_app, length_take, HT, L2, !(proj2 (Z.leb_le _ _)) by lia. cbn [andb]. f_equal. f_equal; [|f_equal].
  - rewrite take_app_le by (rewrite length_take; lia). rewrite take_take. subst o. replace (Z.to_nat (2 * Z.of_nat (length l1)) `min` Z.to_nat (2 * (8 - Z.of_nat (length l2))))%nat with (length (bytes_of l1)) by lia. apply take_app_length.
  - f_equal. lia.
  - replace (Z.to_nat (2 * Z.of_nat (length l1) + Z.of_nat (Z.to_nat (2 * (8 - Z.of_nat (length l2) - Z.of_nat (length l1)))))) with (length (take (Z.to_nat (2 * (8 - Z.of_nat (length l2)))) o)) by (rewrite length_take; lia). apply drop_app_length.
Qed.

Definition is_blocks (l : list Z) : Prop := Forall (fun b => 0 <= b < 65536) l.

Lemma finish_plain b e x : length x = 16%nat -> finish (mk_st 8 (-1) b e x) = One x.
Proof. intros Hl. do 16 (destruct x as [|? x]; [discriminate Hl|]). by destruct x. Qed.

Lemma parse_plain b l o bs : is_blocks (b :: l) -> zlen l = 7 -> length o = 16%nat -> ipaddr6_parse_ipv6_addr (joined (b :: l)) o bs = One (bytes_of (b :: l)).
Proof.
  intros Hb Hl Ho. unfold ipaddr6_parse_ipv6_addr. rewrite <- (app_nil_r (joined (b :: l))). destruct (scan_joined b l 0 (-1) [] o [] 0 Hb) as (j & _ & E); [done|lia|lia|done|]. cbn [app] in E. rewrite E. cbn [scan mbind result_bind empty negb].
  change (bytes_of (removelast (b :: l)) ++ ?k) with (([] ++ bytes_of (removelast (b :: l))) ++ k). rewrite put_last by (done || lia). cbn [app mbind result_bind]. rewrite zlen_cons, Hl. unfold zlen in Hl.
  rewrite (drop_ge o) by (cbn [length]; lia). rewrite app_nil_r. apply finish_plain. rewrite length_bytes_of. cbn [length]. lia.
Qed.

(** The two colons, at the start or behind a block. *)
Lemma scan_double l1 rest o : is_blocks l1 -> zlen l1 <= 7 -> length o = 16%nat ->
  exists j, scan (joined l1 ++ colon :: colon :: rest) 0 (mk_st 0 (-1) 0 true o) = scan rest j (mk_st (zlen l1) (zlen l1) 0 true (bytes_of l1 ++ drop (2 * length l1) o)).
Proof.
  intros Hb Hl Ho. destruct l1 as [|b l].
  - exists 2%nat. cbn [joined app scan]. change (colon =? dot) with false. rewrite Z.eqb_refl. cbn. by rewrite drop_0.
  - rewrite zlen_cons in Hl. pose proof (zlen_nonneg l). destruct (scan_joined b l 0 (-1) [] o (colon :: colon :: rest) 0 Hb) as (j & Hj & E); [done|lia|lia|done|]. cbn [app] in E. exists (j + 2)%nat. rewrite E. cbn [scan]. change (colon =? dot) with false. rewrite Z.eqb_refl.
    unfold at_colon. rewrite (proj2 (Nat.ltb_lt 0 j)) by done. cbn [empty num_blocks orb]. destruct (Z.eqb_spec (0 + zlen l) 7); [lia|]. change (bytes_of (removelast (b :: l)) ++ ?k) with (([] ++ bytes_of (removelast (b :: l))) ++ k). rewrite put_last by (done || lia). done.
Qed.

Lemma parse_compressed l1 l2 o bs : is_blocks l1 -> is_blocks l2 -> zlen l1 + zlen l2 <= 7 -> length o = 16%nat ->
  ipaddr6_parse_ipv6_addr (joined l1 ++ colon :: colon :: joined l2) o bs = One (bytes_of l1 ++ replicate (16 - 2 * (length l1 + length l2)) 0 ++ bytes_of l2).
Proof.
  intros H1 H2 Hl Ho. pose proof (zlen_nonneg l1). pose proof (zlen_nonneg l2). unfold ipaddr6_parse_ipv6_addr. destruct (scan_double l1 (joined l2) o H1) as (j & E); [lia|done|]. rewrite E. clear E. pose proof (length_bytes_of l1) as L1.
  destruct l2 as [|b l].
  - cbn [joined scan mbind result_bind empty negb num_blocks compress_pos]. rewrite Z.eqb_refl. cbn [negb]. replace (zlen l1) with (zlen l1 + zlen (@nil Z)) at 1 by (rewrite zlen_nil; lia). change (bytes_of l1 ++ drop (2 * length l1) o) with (bytes_of l1 ++ bytes_of [] ++ drop (2 * length l1) o).
    apply finish_at; [rewrite zlen_nil; lia|]. rewrite length_drop. cbn [length]. lia.
  - rewrite zlen_cons in Hl. assert (LB : length (drop (2 * length l1) o) = (16 - length (bytes_of l1))%nat) by (rewrite length_drop; lia). assert (LA : zlen (bytes_of l1) = 2 * zlen l1) by (unfold zlen; lia). rewrite <- (app_nil_r (joined (b :: l))).
    destruct (scan_joined b l (zlen l1) (zlen l1) (bytes_of l1) (drop (2 * length l1) o) [] j H2 LA) as (j' & _ & E); [lia|lia|done|]. rewrite E. cbn [scan mbind result_bind empty negb]. rewrite put_last by (done || lia). cbn [mbind result_bind]. rewrite <- app_assoc.
    apply finish_at; [rewrite zlen_cons; lia|]. rewrite !length_drop. unfold zlen in *. cbn [length]. lia.
Qed.

(** ** The shape of what is printed *)

Definition blocks (a : bytes) : list Z := block_of a <$> seq 0 8.

Lemma largest_zero z : let '(s, k) := largest z in (s + k <= 8)%nat /\ forallb z (seq s k) = true.
Proof.
  assert (H : forall n, let '(ls, ll, cs, cl) := fold_left (run_step z) (seq 0 n) (O, O, O, O) in (ls + ll <= n)%nat /\ forallb z (seq ls ll) = true /\ (cs + cl = n)%nat /\ forallb z (seq cs cl) = true).
  { induction n as [|n IH]; [done|]. rewrite seq_S, fold_left_app. cbn [Nat.add]. destruct (fold_left _ _ _) as [[[ls ll] cs] cl]. destruct IH as (H1 & H2 & H3 & H4). cbn [fold_left run_step]. destruct (z n) eqn:Ez.
    - assert (Hc : forallb z (seq cs (S cl)) = true) by (rewrite seq_S, forallb_app, H4, H3; cbn; by rewrite Ez). destruct (Nat.ltb_spec ll (S cl)); split_and!; try done; lia.
    - split_and!; try done; lia. }
  specialize (H 8%nat). unfold largest. destruct (fold_left _ _ _) as [[[ls ll] cs] cl]. tauto.
Qed.

Lemma block_value x y : 0 <= x < 256 -> 0 <= y < 256 -> Z.lor (u16 (Z.shiftl x 8)) y = 256 * x + y.
Proof.
  intros Hx Hy. rewrite Z.shiftl_mul_pow2 by lia. change (2 ^ 8) with 256. rewrite u16_id by lia. enough (Hland : Z.land (x * 256) y = 0) by (rewrite <- Z.lxor_lor, <- Z.add_nocarry_lxor by done; lia). change 256 with (2 ^ 8). rewrite <- Z.shiftl_mul_pow2 by lia. apply Z.bits_inj'. intros n Hn. rewrite Z.land_spec, Z.bits_0, Z.shiftl_spec by lia.
  destruct (Z.ltb_spec n 8); [rewrite Z.testbit_neg_r by lia; done|]. rewrite (Z.bits_above_log2 y n); [apply andb_false_r|lia|]. destruct (Z.eq_dec y 0) as [->|]; [cbn; lia|]. assert (Z.log2 y < 8); [|lia]. apply Z.log2_lt_pow2; lia.
Qed.

Lemma block_back x y : 0 <= x < 256 -> 0 <= y < 256 -> [Z.shiftr (256 * x + y) 8; Z.land (256 * x + y) 0xFF] = [x; y].
Proof.
  intros Hx Hy. rewrite Z.shiftr_div_pow2 by lia. change 0xFF with (Z.ones 8). rewrite Z.land_ones by lia. change (2 ^ 8) with 256. f_equal; [|f_equal]; [symmetry; apply (Z.div_unique _ _ _ y); lia|symmetry; apply (Z.mod_unique _ _ x); lia].
Qed.

Lemma blocks_ok a : addr_ok a -> is_blocks (blocks a) /\ bytes_of (blocks a) = a /\ forall i, (i < 8)%nat -> is_zero a i = true -> block_of a i = 0.
Proof.
  intros [Hl Hb]. do 16 (destruct a as [|? a]; [discriminate Hl|]). destruct a; [|discriminate Hl]. unfold is_bytes in Hb. rewrite !Forall_cons in Hb. destruct_and! Hb.
  assert (E : forall x y, 0 <= x < 256 -> 0 <= y < 256 -> 0 <= Z.lor (u16 (Z.shiftl x 8)) y < 65536) by (intros x y ? ?; rewrite block_value by done; lia). split_and!.
  - unfold is_blocks, blocks, block_of. cbn [fmap list_fmap seq byte nth Nat.mul Nat.add]. repeat constructor; by apply E.
  - unfold blocks, block_of, bytes_of. cbn [fmap list_fmap seq byte nth Nat.mul Nat.add mbind list_bind]. rewrite !block_value by done. rewrite !block_back by done. done.
  - intros i Hi. do 8 (destruct i as [|i]; [unfold is_zero, block_of; cbn [byte nth Nat.mul Nat.add]; intros [->%Z.eqb_eq ->%Z.eqb_eq]%andb_true_iff; done|]). lia.
Qed.

Lemma concat_before (f : nat -> Z) l : l <> [] -> concat ((fun i => fmt_x16 (f i) ++ [colon]) <$> l) = joined (f <$> l) ++ [colon].
Proof.
  induction l as [|x l IH]; [done|]. intros _. destruct l as [|y l]; [cbn; by rewrite !app_nil_r|]. change (concat ((fun i => fmt_x16 (f i) ++ [colon]) <$> x :: y :: l)) with ((fmt_x16 (f x) ++ [colon]) ++ concat ((fun i => fmt_x16 (f i) ++ [colon]) <$> y :: l)).
  rewrite IH by done. change (joined (f <$> x :: y :: l)) with (fmt_x16 (f x) ++ [colon] ++ joined (f <$> y :: l)). by rewrite <- !app_assoc.
Qed.

Lemma concat_behind (f : nat -> Z) l : concat ((fun i => colon :: fmt_x16 (f i)) <$> l) = match l with [] => [] | _ => colon :: joined (f <$> l) end.
Proof.
  assert (E : forall l, concat ((fun i => colon :: fmt_x16 (f i)) <$> l) = tail_blocks (f <$> l)) by (clear; induction l as [|x l IH]; [done|]; cbn; f_equal; f_equal; exact IH). rewrite E. by destruct l.
Qed.

Lemma print_shape a : addr_ok a ->
  (exists l1 k l2, blocks a = l1 ++ replicate k 0 ++ l2 /\ (2 <= k)%nat /\ ipaddr6_print_addr a = joined l1 ++ colon :: colon :: joined l2) \/ ipaddr6_print_addr a = joined (blocks a).
Proof.
  intros Ha. destruct (blocks_ok a Ha) as (_ & _ & Hz). unfold ipaddr6_print_addr. pose proof (largest_zero (is_zero a)) as Hl. destruct (largest (is_zero a)) as [s k]. destruct Hl as [Hsk Hfz]. destruct (Nat.ltb_spec 1 k) as [Hk|Hk].
  - left. exists (block_of a <$> seq 0 s), k, (block_of a <$> seq (s + k) (8 - (s + k))). split_and!; [|done|].
    + assert (Eseq : seq 0 8 = seq 0 s ++ seq s k ++ seq (s + k) (8 - (s + k))) by (rewrite <- seq_app; rewrite <- (seq_app s); f_equal; lia). unfold blocks. rewrite Eseq, !fmap_app. f_equal. f_equal. apply list_eq_same_length with k; [by rewrite length_replicate|by rewrite length_fmap, length_seq|].
      intros i x y Hi Hx Hy. apply list_lookup_fmap_Some in Hx as (j & -> & Hj). apply lookup_seq in Hj as [-> _]. rewrite lookup_replicate_2 in Hy by done. injection Hy as <-. apply Hz; [lia|]. rewrite forallb_forall in Hfz. apply Hfz. apply in_seq. lia.
    + rewrite concat_behind. assert (E2 : (match seq (s + k) (8 - (s + k)) with [] => [] | _ => colon :: joined (block_of a <$> seq (s + k) (8 - (s + k))) end) ++ (if (s + k =? 8)%nat then [colon] else []) = colon :: joined (block_of a <$> seq (s + k) (8 - (s + k)))).
      { destruct (Nat.eqb_spec (s + k) 8) as [E|E]; [by rewrite E|]. destruct (8 - (s + k))%nat eqn:En; [lia|]. cbn [seq]. by rewrite app_nil_r. }
      rewrite E2. destruct s as [|s]; [done|]. rewrite concat_before by done. cbn [Nat.eqb app]. by rewrite <- app_assoc.
  - right. unfold blocks. cbn [seq fmap list_fmap concat Nat.eqb app joined]. unfold tail_blocks. cbn [mbind list_bind app]. done.
Qed.

Lemma bytes_of_zeros k : bytes_of (replicate k 0) = replicate (2 * k) 0.
Proof. induction k as [|k IH]; [done|]. replace (2 * S k)%nat with (S (S (2 * k))) by lia. cbn [replicate]. change (bytes_of (0 :: replicate k 0)) with (0 :: 0 :: bytes_of (replicate k 0)). by rewrite IH. Qed.

Lemma parse_print a o bs : addr_ok a -> length o = 16%nat -> ipaddr6_parse_ipv6_addr (ipaddr6_print_addr a) o bs = One a.
Proof.
  intros Ha Ho. destruct (blocks_ok a Ha) as (Hb & Hbytes & _). assert (Hlen : length (blocks a) = 8%nat) by (unfold blocks; by rewrite length_fmap, length_seq). destruct (print_shape a Ha) as [(l1 & k & l2 & E & Hk & ->)| ->].
  - rewrite E in *. unfold is_blocks in Hb. rewrite !Forall_app in Hb. destruct Hb as (H1 & _ & H2). rewrite !length_app, length_replicate in Hlen. rewrite parse_compressed by (done || unfold zlen; lia). rewrite <- Hbytes, !bytes_of_app, bytes_of_zeros. do 4 f_equal. lia.
  - destruct (blocks a) as [|b l] eqn:E; [done|]. rewrite parse_plain; [by rewrite Hbytes|done|unfold zlen; cbn [length] in Hlen; lia|done].
Qed.

(** ** Addresses with a prefix *)

(** Digits and colons. *)
Definition address_text (l : bytes) : Prop := Forall (fun c => 48 <= c <= 58 \/ 97 <= c <= 102) l.

Lemma hex_loop_chars fuel z : 0 <= z -> address_text (hex_loop fuel z).
Proof.
  assert (Hd : forall d, 0 <= d < 16 -> 48 <= hex_digit d <= 58 \/ 97 <= hex_digit d <= 102) by (intros d Hd; unfold hex_digit; destruct (Z.ltb_spec d 10); lia).
  revert z. induction fuel as [|fuel IH]; intros z Hz; [constructor|]. cbn [hex_loop]. destruct (Z.ltb_spec z 16); [by apply Forall_singleton, Hd|].
  apply Forall_app. split; [apply IH, Z.div_pos; lia|]. apply Forall_singleton, Hd, Z.mod_pos_bound. lia.
Qed.

Lemma tail_blocks_spec l : address_text (tail_blocks l) /\ (length (tail_blocks l) <= 5 * length l)%nat.
Proof.
  induction l as [|b l [IH1 IH2]]; [split; [constructor|done]|]. change (tail_blocks (b :: l)) with (colon :: fmt_x16 b ++ tail_blocks l). pose proof (fmt_length b). split.
  - constructor; [unfold colon; lia|]. apply Forall_app. split; [|done]. apply hex_loop_chars, Z.mod_pos_bound. lia.
  - cbn [length]. rewrite length_app. lia.
Qed.

Lemma joined_spec l : address_text (joined l) /\ (length (joined l) <= 5 * length l - 1)%nat.
Proof.
  destruct l as [|b l]; [split; [constructor|done]|]. destruct (tail_blocks_spec l) as [H1 H2]. pose proof (fmt_length b). cbn [joined]. split; [apply Forall_app; split; [|done]; apply hex_loop_chars, Z.mod_pos_bound; lia|]. rewrite length_app. cbn [length]. lia.
Qed.

Lemma print_spec a : addr_ok a -> address_text (ipaddr6_print_addr a) /\ (length (ipaddr6_print_addr a) <= 39)%nat.
Proof.
  intros Ha. assert (Hlen : length (blocks a) = 8%nat) by (unfold blocks; by rewrite length_fmap, length_seq). destruct (print_shape a Ha) as [(l1 & k & l2 & E & Hk & ->)| ->].
  - rewrite E, !length_app, length_replicate in Hlen. destruct (joined_spec l1) as [H1 H2]. destruct (joined_spec l2) as [H3 H4]. split; [|rewrite length_app; cbn [length]; lia].
    apply Forall_app. split; [done|]. repeat (constructor; [unfold colon; lia|]). done.
  - destruct (joined_spec (blocks a)) as [H1 H2]. split; [done|lia].
Qed.

Definition prefix_reads (p : nat) : bool := bool_decide (ipaddr6_parse_ipv6_prefix (fmt_u (Z.of_nat p)) = Some (Z.of_nat p)) && (length (fmt_u (Z.of_nat p)) <=? 3)%nat.

Lemma prefix_read p : 0 <= p <= 128 -> ipaddr6_parse_ipv6_prefix (fmt_u p) = Some p /\ (length (fmt_u p) <= 3)%nat.
Proof.
  intros Hp. assert (H : forallb prefix_reads (seq 0 129) = true) by (vm_compute; done). rewrite forallb_forall in H. specialize (H (Z.to_nat p)). rewrite in_seq in H. specialize (H ltac:(lia)). unfold prefix_reads in H.
  rewrite Z2Nat.id in H by lia. apply andb_true_iff in H as [H1%bool_decide_eq_true H2%Nat.leb_le]. done.
Qed.

(** C35: An IPv6 address that [ipaddr6_print_addr] printed is read back by
    [ipaddr6_parse_ipv6_addr] as the same 16 bytes, whatever was in the memory before, and likewise
    an address with a prefix; what is printed fits, with the byte that ends the string, into the
    [IPADDR6_PRINT_MAX] characters that callers provide. *)
Theorem ipv6_text_roundtrip a p o bs :
  addr_ok a -> 0 <= p <= 128 -> length o = 16%nat ->
  ipaddr6_parse_ipv6_addr (ipaddr6_print_addr a) o bs = One a /\
  ipaddr6_parse_ipv6_ifaddr (ipaddr6_print_ifaddr a p) o bs = One (a, p) /\
  zlen (ipaddr6_print_addr a) + 1 <= IPADDR6_PRINT_MAX /\ zlen (ipaddr6_print_ifaddr a p) + 1 <= IPADDR6_PRINT_MAX.
Proof.
  intros Ha Hp Ho. destruct (print_spec a Ha) as [Hc Hl]. destruct (prefix_read p Hp) as [Hr Hl3]. split; [by apply parse_print|]. split.
  - unfold ipaddr6_parse_ipv6_ifaddr, ipaddr6_print_ifaddr. cbn [app]. rewrite strchr_app; [|intros Hin; unfold address_text in Hc; rewrite Forall_forall in Hc; apply Hc in Hin; lia]. rewrite parse_print by done. cbn [mbind result_bind tail]. by rewrite Hr.
  - unfold IPADDR6_PRINT_MAX, ipaddr6_print_ifaddr, zlen. rewrite !length_app. cbn [length]. lia.
Qed.

Lemma ipv6_text_roundtrip_witness :
  let a := [32; 1; 13; 184; 0; 0; 0; 0; 0; 0; 0; 0; 0; 0; 0; 1] in
  ipaddr6_print_ifaddr a 64 = lit "2001:db8::1/64" /\
  ipaddr6_parse_ipv6_ifaddr (ipaddr6_print_ifaddr a 64) (replicate 16 255) (replicate 4 7) = One (a, 64).
Proof.
  intros a. split; [reflexivity|]. apply (ipv6_text_roundtrip a 64 (replicate 16 255) (replicate 4 7)); [|lia|reflexivity]. split; [reflexivity|]. unfold is_bytes, a. repeat (apply Forall_cons_2; [lia|]). apply Forall_nil_2.
Defined.

(** ** Any text *)

Lemma no_overflow_nonneg str : forall n v, 0 <= n -> parse__no_overflow str n = Some v -> 0 <= v.
Proof.
  induction str as [|c str IH]; intros n v Hn E; cbn in E; [congruence|]. destruct (_ || _); [done|]. apply IH in E; [done|]. apply Z.mod_pos_bound. lia.
Qed.

Lemma prefix_bounds str p : ipaddr6_parse_ipv6_prefix str = Some p -> 0 <= p <= 128.
Proof.
  unfold ipaddr6_parse_ipv6_prefix. destruct (parse_unsigned_integer str) as [d|] eqn:E; [|done]. cbn. rewrite Z.gtb_ltb. destruct (Z.ltb_spec 128 d); [done|]. intros [= <-]. split; [|done].
  unfold parse_unsigned_integer in E. destruct str; [done|]. destruct (_ || _); [done|]. by apply no_overflow_nonneg in E.
Qed.

Lemma ifaddr_sat str o bs : addr_ok o -> length bs = 4%nat -> is_bytes bs -> sat (fun r => addr_ok r.1 /\ 0 <= r.2 <= 128) (ipaddr6_parse_ipv6_ifaddr str o bs).
Proof.
  intros Ho Hl Hb. unfold ipaddr6_parse_ipv6_ifaddr. destruct (strchr 47 str) as [[a rest]|]; [|done]. eapply sat_bind; [by apply parse_sat|]. intros x Hx. destruct (ipaddr6_parse_ipv6_prefix _) as [p|] eqn:E; [|done]. split; [done|]. by eapply prefix_bounds.
Qed.

(** Whatever text [ipaddr6_parse_ipv6_addr] and [ipaddr6_parse_ipv6_ifaddr] are given, no
    access is outside the text, the 16 bytes of the address or the four bytes of the local array,
    and when they return 1 they stored 16 bytes and a prefix of at most 128. *)
Theorem ipv6_parse_safe str o bs :
  addr_ok o -> length bs = 4%nat -> is_bytes bs ->
  (ipaddr6_parse_ipv6_addr str o bs = Zero \/ exists a, ipaddr6_parse_ipv6_addr str o bs = One a /\ addr_ok a) /\
  (ipaddr6_parse_ipv6_ifaddr str o bs = Zero \/ exists a p, ipaddr6_parse_ipv6_ifaddr str o bs = One (a, p) /\ addr_ok a /\ 0 <= p <= 128).
Proof.
  intros Ho Hl Hb. pose proof (parse_sat str o bs Ho Hl Hb) as H1. pose proof (ifaddr_sat str o bs Ho Hl Hb) as H2. split.
  - destruct (ipaddr6_parse_ipv6_addr str o bs); [done|by left|right; eauto].
  - destruct (ipaddr6_parse_ipv6_ifaddr str o bs) as [| |[a p]]; [done|by left|right; exists a, p; split; [done|exact H2]].
Qed.

Lemma ipv6_parse_safe_witness :
  ipaddr6_parse_ipv6_addr (lit "::ffff:127.0.0.1") (replicate 16 170) (replicate 4 187) = One [0; 0; 0; 0; 0; 0; 0; 0; 0; 0; 255; 255; 127; 0; 0; 1] /\
  exists a, ipaddr6_parse_ipv6_addr (lit "::ffff:127.0.0.1") (replicate 16 170) (replicate 4 187) = One a /\ addr_ok a.
Proof.
  assert (E : ipaddr6_parse_ipv6_addr (lit "::ffff:127.0.0.1") (replicate 16 170) (replicate 4 187) = One [0; 0; 0; 0; 0; 0; 0; 0; 0; 0; 255; 255; 127; 0; 0; 1]) by (vm_compute; reflexivity).
  split; [exact E|]. destruct (ipv6_parse_safe (lit "::ffff:127.0.0.1") (replicate 16 170) (replicate 4 187)) as [[H|H] _].
  - split; [reflexivity|]. apply Forall_replicate. lia.
  - reflexivity.
  - apply Forall_replicate. lia.
  - rewrite E in H. discriminate H.
  - exact H.
Defined.

(** The two colons may also stand for no block: text with eight blocks and two colons is read. *)
Lemma empty_compression_accepted :
  ipaddr6_parse_ipv6_addr (lit "1:2:3:4:5:6:7::8") (replicate 16 0) (replicate 4 0) = One [0; 1; 0; 2; 0; 3; 0; 4; 0; 5; 0; 6; 0; 7; 0; 8].
Proof. vm_compute. reflexivity. Qed.

(** ** Networks *)

(** The mask with [8 * q + r] bits. *)
Definition mask_bits (q r : nat) : bytes := take 16 (replicate q 255 ++ high_bits r 0 :: replicate (15 - q) 0).

Lemma mask_built p o : 0 <= p <= 128 -> length o = 16%nat -> ipaddr6_ipv6_mask_from_prefix p o = One (mask_bits (Z.to_nat (p / 8)) (Z.to_nat (p mod 8))).
Proof.
  intros Hp Ho. do 16 (destruct o as [|? o]; [discriminate Ho|]). destruct o; [|discriminate Ho]. rewrite <- (Z2Nat.id p) by lia. assert (Hn : (Z.to_nat p <= 128)%nat) by lia. revert Hn. generalize (Z.to_nat p). intros n Hn.
  do 129 (destruct n as [|n]; [vm_compute; reflexivity|]). exfalso. clear -Hn. lia.
Qed.

Lemma mask_prefix q r : (q < 16 /\ r < 8 \/ q = 16 /\ r = 0)%nat -> ipaddr6_ipv6_prefix_from_mask (mask_bits q r) = Some (8 * Z.of_nat q + Z.of_nat r) /\ addr_ok (mask_bits q r).
Proof.
  intros H. assert (H' : forall q r, (q < 16)%nat -> (r < 8)%nat -> bool_decide (ipaddr6_ipv6_prefix_from_mask (mask_bits q r) = Some (8 * Z.of_nat q + Z.of_nat r)) && (length (mask_bits q r) =? 16)%nat && forallb (fun b => (0 <=? b) && (b <? 256)) (mask_bits q r) = true).
  { clear. intros q r Hq Hr. do 16 (destruct q as [|q]; [do 8 (destruct r as [|r]; [vm_compute; reflexivity|]); lia|]). lia. }
  destruct H as [[Hq Hr]|[-> ->]]; [|split; [vm_compute; reflexivity|split; [reflexivity|]; vm_compute; repeat (apply Forall_cons_2; [done|]); apply Forall_nil_2]]. specialize (H' q r Hq Hr). apply andb_true_iff in H' as [[H1%bool_decide_eq_true H2%Nat.eqb_eq]%andb_true_iff H3].
  split; [done|]. split; [done|]. apply Forall_forall. intros b Hb. rewrite forallb_forall in H3. specialize (H3 b (proj1 (list_elem_of_In _ _) Hb)). lia.
Qed.

(** Masked addresses. *)
Definition masked (a m : bytes) : bytes := zip_with Z.land a m.

Lemma masked_ones l : is_bytes l -> masked l (replicate (length l) 255) = l.
Proof. induction 1 as [|x l Hx Hl IH]; [done|]. cbn. f_equal; [|exact IH]. change 255 with (Z.ones 8). rewrite Z.land_ones by lia. apply Z.mod_small. lia. Qed.

Lemma masked_zeros l : masked l (replicate (length l) 0) = replicate (length l) 0.
Proof. induction l as [|x l IH]; [done|]. cbn. rewrite Z.land_0_r. f_equal. exact IH. Qed.

Lemma masked_split a x l r : is_bytes a -> (length a + S (length l) = 16)%nat -> masked (a ++ x :: l) (mask_bits (length a) r) = a ++ Z.land x (high_bits r 0) :: replicate (length l) 0.
Proof.
  intros Ha Hl. unfold mask_bits. rewrite take_ge by (rewrite length_app, length_replicate; cbn [length]; rewrite length_replicate; lia). unfold masked. rewrite zip_with_app by (by rewrite length_replicate). f_equal; [by apply masked_ones|]. cbn [zip_with]. f_equal. replace (15 - length a)%nat with (length l) by lia. apply masked_zeros.
Qed.

Lemma addr_split a q : addr_ok a -> (q < 16)%nat -> exists x l, a = take q a ++ x :: l /\ is_bytes (take q a) /\ length (take q a) = q /\ (q + S (length l) = 16)%nat /\ drop q a = x :: l.
Proof.
  intros [Hl Hb] Hq. destruct (drop q a) as [|x l] eqn:E; [apply (f_equal length) in E; rewrite length_drop in E; cbn in E; lia|]. exists x, l. split_and!; [by rewrite <- E, take_drop|by apply Forall_take|rewrite length_take; lia| |done].
  apply (f_equal length) in E. rewrite length_drop in E. cbn [length] in E. lia.
Qed.

Lemma load_front k a : length a = 16%nat -> 0 <= k <= 16 -> load 0 k a = One (take (Z.to_nat k) a).
Proof. intros Hl Hk. unfold load, zlen. rewrite Hl, !(proj2 (Z.leb_le _ _)) by lia. done. Qed.

Lemma load_byte k a x l : length a = 16%nat -> 0 <= k < 16 -> drop (Z.to_nat k) a = x :: l -> load k 1 a = One [x].
Proof. intros Hl Hk E. unfold load, zlen. rewrite Hl, !(proj2 (Z.leb_le _ _)), E by lia. done. Qed.

Lemma in_network a b p : addr_ok a -> addr_ok b -> 0 <= p <= 128 ->
  let m := mask_bits (Z.to_nat (p / 8)) (Z.to_nat (p mod 8)) in ipaddr6_ipv6_addrs_in_network a b p = One (bool_decide (masked a m = masked b m)).
Proof.
  intros Ha Hb Hp. cbv zeta. pose proof (Z.div_mod p 8 ltac:(lia)) as Ep. pose proof (Z.mod_pos_bound p 8 ltac:(lia)) as Hm. unfold ipaddr6_ipv6_addrs_in_network. rewrite !(proj2 (Z.leb_le _ _)) by lia. cbn [andb negb]. cbv zeta. set (q := p / 8) in *. set (r := p mod 8) in *.
  rewrite !load_front by (apply Ha || apply Hb || lia). cbn [mbind result_bind]. destruct (Z.eq_dec q 16) as [E|E].
  - assert (r = 0) as -> by lia. rewrite E. destruct Ha as [Hla Hba], Hb as [Hlb Hbb]. pose proof (masked_ones a Hba) as E1. pose proof (masked_ones b Hbb) as E2. rewrite Hla in E1. rewrite Hlb in E2. change (mask_bits (Z.to_nat 16) (Z.to_nat 0)) with (replicate 16 255). rewrite E1, E2, !take_ge by lia.
    destruct (bool_decide_reflect (a = b)); done.
  - destruct (addr_split a (Z.to_nat q) Ha ltac:(lia)) as (x & la & Ea & H1 & H2 & H3 & H4). destruct (addr_split b (Z.to_nat q) Hb ltac:(lia)) as (y & lb & Eb & H1' & H2' & H3' & H4').
    assert (Er : bool_decide (masked a (mask_bits (Z.to_nat q) (Z.to_nat r)) = masked b (mask_bits (Z.to_nat q) (Z.to_nat r))) = bool_decide (take (Z.to_nat q) a = take (Z.to_nat q) b) && (Z.land x (high_bits (Z.to_nat r) 0) =? Z.land y (high_bits (Z.to_nat r) 0))).
    { pose proof (masked_split _ x la (Z.to_nat r) H1 ltac:(lia)) as E1. rewrite H2, <- Ea in E1. pose proof (masked_split _ y lb (Z.to_nat r) H1' ltac:(lia)) as E2. rewrite H2', <- Eb in E2. rewrite E1, E2. replace (length lb) with (length la) by lia.
      apply eq_true_iff_eq. rewrite bool_decide_eq_true, andb_true_iff, bool_decide_eq_true, Z.eqb_eq. split; [intros Eq; apply app_inj_1 in Eq as [-> [= ->]]; [done|lia]|by intros [-> ->]]. }
    rewrite Er. destruct (bool_decide_reflect (take (Z.to_nat q) a = take (Z.to_nat q) b)); [|done]. cbn [negb andb]. rewrite (load_byte q a x la), (load_byte q b y lb) by (apply Ha || apply Hb || done || lia). destruct (Z.to_nat r) as [|k] eqn:Ek; [|done]. cbn [high_bits seq fold_left]. rewrite !Z.land_0_r. done.
Qed.

Lemma full_bytes_spec m : take (full_bytes m) m = replicate (full_bytes m) 255 /\ (full_bytes m <= length m)%nat /\ head (drop (full_bytes m) m) <> Some 255.
Proof. induction m as [|b m IH]; [done|]. cbn. destruct (Z.eqb_spec b 255) as [->|Hb]; cbn; [destruct IH as (-> & ? & ?); split_and!; [done|lia|done]|]. split_and!; [done|lia|congruence]. Qed.

Lemma prefix_mask m p : addr_ok m -> ipaddr6_ipv6_prefix_from_mask m = Some p -> 0 <= p <= 128 /\ m = mask_bits (Z.to_nat (p / 8)) (Z.to_nat (p mod 8)).
Proof.
  intros [Hl Hb] E. unfold ipaddr6_ipv6_prefix_from_mask in E. destruct (full_bytes_spec m) as (H1 & H2 & H3). set (i := full_bytes m) in *. pose proof (take_drop i m) as Em. rewrite H1 in Em. destruct (drop i m) as [|b l] eqn:Ed.
  - injection E as <-. apply (f_equal length) in Ed. rewrite length_drop in Ed. cbn in Ed. assert (i = 16%nat) as Ei by lia. rewrite Ei in *. split; [lia|]. by rewrite <- Em.
  - unfold partial in E. destruct (find _ _) as [j|] eqn:Ej; [|done]. apply find_some in Ej as [Hj%in_seq ->%Z.eqb_eq]. cbn [mbind option_bind] in E. destruct (forallb _ l) eqn:Ez; [|done]. injection E as <-.
    assert (j <> 8%nat) by (intros ->; apply H3; done). apply (f_equal length) in Ed. rewrite length_drop in Ed. cbn [length] in Ed.
    assert (Hq : (8 * Z.of_nat i + Z.of_nat j) / 8 = Z.of_nat i) by (symmetry; apply (Z.div_unique _ _ _ (Z.of_nat j)); lia). assert (Hr : (8 * Z.of_nat i + Z.of_nat j) mod 8 = Z.of_nat j) by (symmetry; apply (Z.mod_unique _ _ (Z.of_nat i)); lia).
    split; [lia|]. rewrite Hq, Hr, !Nat2Z.id. rewrite <- Em at 1. unfold mask_bits. rewrite take_ge by (rewrite length_app, length_replicate; cbn [length]; rewrite length_replicate; lia). do 2 f_equal. replace (15 - i)%nat with (length l) by lia.
    symmetry. apply replicate_as_elem_of. split; [done|]. intros x Hx. rewrite forallb_forall in Ez. apply list_elem_of_In in Hx. by apply Z.eqb_eq, Ez.
Qed.

(** [ipaddr6_ipv6_mask_from_prefix] and [ipaddr6_ipv6_prefix_from_mask] are inverse of each
    other for every prefix from 0 to 128, the second refuses a mask that the first never makes, and
    [ipaddr6_ipv6_addrs_in_network] says that two addresses are in the same network exactly when
    they are the same under the mask of the prefix. *)
Theorem ipv6_networks p o a b :
  0 <= p <= 128 -> length o = 16%nat -> addr_ok a -> addr_ok b ->
  exists m, ipaddr6_ipv6_mask_from_prefix p o = One m /\ addr_ok m /\
    (forall x, addr_ok x -> ipaddr6_ipv6_prefix_from_mask x = Some p <-> x = m) /\
    (forall x q, addr_ok x -> ipaddr6_ipv6_prefix_from_mask x = Some q -> 0 <= q <= 128) /\
    ipaddr6_ipv6_ifaddr_from_addr_mask a m = Some (a, p) /\
    ipaddr6_ipv6_addrs_in_network a b p = One (bool_decide (masked a m = masked b m)).
Proof.
  intros Hp Ho Ha Hb. pose proof (Z.div_mod p 8 ltac:(lia)) as Ep. pose proof (Z.mod_pos_bound p 8 ltac:(lia)) as Hr. destruct (mask_prefix (Z.to_nat (p / 8)) (Z.to_nat (p mod 8))) as [Em Hm]; [lia|]. rewrite !Z2Nat.id, <- Ep in Em by lia.
  exists (mask_bits (Z.to_nat (p / 8)) (Z.to_nat (p mod 8))). split; [by apply mask_built|]. split; [done|]. split; [intros x Hx; split; [intros E; by apply prefix_mask in E as [_ E]|by intros ->]|]. split; [intros x q Hx E; by apply prefix_mask in E as [E _]|].
  split; [unfold ipaddr6_ipv6_ifaddr_from_addr_mask; by rewrite Em|]. by apply in_network.
Qed.

Lemma ipv6_networks_witness :
  let a := [32; 1; 13; 184; 0; 0; 0; 0; 0; 0; 0; 0; 0; 0; 0; 1] in
  let b := [32; 1; 13; 191; 0; 0; 0; 0; 0; 0; 0; 0; 0; 0; 0; 2] in
  exists m, ipaddr6_ipv6_mask_from_prefix 29 (replicate 16 9) = One m /\ m = [255; 255; 255; 248; 0; 0; 0; 0; 0; 0; 0; 0; 0; 0; 0; 0] /\
    ipaddr6_ipv6_addrs_in_network a b 29 = One true /\ ipaddr6_ipv6_ifaddr_from_addr_mask a m = Some (a, 29).
Proof.
  intros a b. destruct (ipv6_networks 29 (replicate 16 9) a b) as (m & H1 & _ & _ & _ & H2 & _).
  - lia.
  - reflexivity.
  - split; [reflexivity|]. unfold is_bytes, a. repeat (apply Forall_cons_2; [lia|]). apply Forall_nil_2.
  - split; [reflexivity|]. unfold is_bytes, b. repeat (apply Forall_cons_2; [lia|]). apply Forall_nil_2.
  - exists m. split; [exact H1|]. vm_compute in H1. injection H1 as <-. split; [reflexivity|]. split; [vm_compute; reflexivity|exact H2].
Defined.

End Ipaddr6.
