(* ===== verification/TunOptions.v ===== *)
(** * The options of tun2socks: tun2socks.c, loglevel.h, BAddr.h, read_file.h (badvpn)

    The command line of the Android build of tun2socks and what [main] makes of it:
    [parse_arguments] fills the record [options], and [process_arguments] resolves the addresses
    and sets the globals the rest of the program reads. Strings are lists of bytes without their
    terminator, a null pointer is [None], and addresses and ports are their bytes in network
    order.

    [LONG_MAX] and [SIZE_MAX] are the limits of the machine, [channels] the names of the logging
    channels (a table the build generates), and [getaddrinfo], told whether IPv6 is wanted and
    whether the text must be numeric, is the resolver of the system. *)

From S2P Require Import Prelude CLib BSocks Ipaddr6.
Open Scope Z_scope.

Module TunOptions.

(** ** Numbers (stdlib.h) *)

(** [strtol(s, &end, 10)]: the value, and the string at [end]. *)
Definition strtol (LONG_MAX : Z) (s : bytes) : Z * bytes :=
  let t := skip isspace s in
  let '(neg, t) := match t with
                   | 45 :: t => (true, t)
                   | 43 :: t => (false, t)
                   | _ => (false, t)
                   end in
  let '(digits, rest) := span isdigit t in
  match digits with
  | [] => (0, s)
  | _ =>
      let v := number_value 10 digits in
      (if neg then if v >? LONG_MAX + 1 then - LONG_MAX - 1 else - v else if v >? LONG_MAX then LONG_MAX else v, rest)
  end.
Definition atoi (LONG_MAX : Z) (s : bytes) : Z := i32 (fst (strtol LONG_MAX s)).

(** ** Logging *)

Definition BLOG_ERROR : Z := 1.
Definition BLOG_WARNING : Z := 2.
Definition BLOG_NOTICE : Z := 3.
Definition BLOG_INFO : Z := 4.
Definition BLOG_DEBUG : Z := 5.

Definition parse_loglevel (LONG_MAX : Z) (str : bytes) : Z :=
  if strcmp_eq str (lit "none") then 0
  else if strcmp_eq str (lit "error") then BLOG_ERROR
  else if strcmp_eq str (lit "warning") then BLOG_WARNING
  else if strcmp_eq str (lit "notice") then BLOG_NOTICE
  else if strcmp_eq str (lit "info") then BLOG_INFO
  else if strcmp_eq str (lit "debug") then BLOG_DEBUG
  else
    let '(res, endptr) := strtol LONG_MAX str in
    if negb (bool_decide (str = [])) && bool_decide (endptr = []) && (res >=? 0) && (res <=? BLOG_DEBUG) then res else -1.

(** The first channel of that name. *)
Fixpoint BLogGlobal_GetChannelByName (channels : list bytes) (channel_name : bytes) : option nat :=
  match channels with
  | [] => None
  | name :: channels => if strcmp_eq name channel_name then Some O else S <$> BLogGlobal_GetChannelByName channels channel_name
  end.

(** ** The options *)

Definition LOGGER_STDOUT : Z := 1.
Definition LOGGER_SYSLOG : Z := 2.
Definition DEFAULT_UDPGW_MAX_CONNECTIONS : Z := 256.
Definition DEFAULT_UDPGW_CONNECTION_BUFFER_SIZE : Z := 8.

Record options := mk_options {
  help : bool;
  version : bool;
  logger : Z;
  logger_syslog_facility : bytes;
  logger_syslog_ident : bytes;
  loglevel : Z;
  loglevels : list Z;
  netif_ipaddr : option bytes;
  netif_netmask : option bytes;
  netif_ip6addr : option bytes;
  socks_server_addr : option bytes;
  username : option bytes;
  password : option bytes;
  password_file : option bytes;
  append_source_to_username : bool;
  udpgw_remote_server_addr : option bytes;
  udpgw_max_connections : Z;
  udpgw_connection_buffer_size : Z;
  udpgw_transparent_dns : bool;
  tun_mtu : Z;
  fake_proc : bool;
  sock_path : option bytes;
  pid : option bytes;
  dnsgw : option bytes }.

Definition set_help (x : bool) (o : options) : options :=
  mk_options x (version o) (logger o) (logger_syslog_facility o) (logger_syslog_ident o) (loglevel o) (loglevels o) (netif_ipaddr o) (netif_netmask o) (netif_ip6addr o) (socks_server_addr o) (username o) (password o) (password_file o) (append_source_to_username o) (udpgw_remote_server_addr o) (udpgw_max_connections o) (udpgw_connection_buffer_size o) (udpgw_transparent_dns o) (tun_mtu o) (fake_proc o) (sock_path o) (pid o) (dnsgw o).
Definition set_version (x : bool) (o : options) : options :=
  mk_options (help o) x (logger o) (logger_syslog_facility o) (logger_syslog_ident o) (loglevel o) (loglevels o) (netif_ipaddr o) (netif_netmask o) (netif_ip6addr o) (socks_server_addr o) (username o) (password o) (password_file o) (append_source_to_username o) (udpgw_remote_server_addr o) (udpgw_max_connections o) (udpgw_connection_buffer_size o) (udpgw_transparent_dns o) (tun_mtu o) (fake_proc o) (sock_path o) (pid o) (dnsgw o).
Definition set_logger (x : Z) (o : options) : options :=
  mk_options (help o) (version o) x (logger_syslog_facility o) (logger_syslog_ident o) (loglevel o) (loglevels o) (netif_ipaddr o) (netif_netmask o) (netif_ip6addr o) (socks_server_addr o) (username o) (password o) (password_file o) (append_source_to_username o) (udpgw_remote_server_addr o) (udpgw_max_connections o) (udpgw_connection_buffer_size o) (udpgw_transparent_dns o) (tun_mtu o) (fake_proc o) (sock_path o) (pid o) (dnsgw o).
Definition set_logger_syslog_facility (x : bytes) (o : options) : options :=
  mk_options (help o) (version o) (logger o) x (logger_syslog_ident o) (loglevel o) (loglevels o) (netif_ipaddr o) (netif_netmask o) (netif_ip6addr o) (socks_server_addr o) (username o) (password o) (password_file o) (append_source_to_username o) (udpgw_remote_server_addr o) (udpgw_max_connections o) (udpgw_connection_buffer_size o) (udpgw_transparent_dns o) (tun_mtu o) (fake_proc o) (sock_path o) (pid o) (dnsgw o).
Definition set_logger_syslog_ident (x : bytes) (o : options) : options :=
  mk_options (help o) (version o) (logger o) (logger_syslog_facility o) x (loglevel o) (loglevels o) (netif_ipaddr o) (netif_netmask o) (netif_ip6addr o) (socks_server_addr o) (username o) (password o) (password_file o) (append_source_to_username o) (udpgw_remote_server_addr o) (udpgw_max_connections o) (udpgw_connection_buffer_size o) (udpgw_transparent_dns o) (tun_mtu o) (fake_proc o) (sock_path o) (pid o) (dnsgw o).
Definition set_loglevel (x : Z) (o : options) : options :=
  mk_options (help o) (version o) (logger o) (logger_syslog_facility o) (logger_syslog_ident o) x (loglevels o) (netif_ipaddr o) (netif_netmask o) (netif_ip6addr o) (socks_server_addr o) (username o) (password o) (password_file o) (append_source_to_username o) (udpgw_remote_server_addr o) (udpgw_max_connections o) (udpgw_connection_buffer_size o) (udpgw_transparent_dns o) (tun_mtu o) (fake_proc o) (sock_path o) (pid o) (dnsgw o).
Definition set_loglevels (x : list Z) (o : options) : options :=
  mk_options (help o) (version o) (logger o) (logger_syslog_facility o) (logger_syslog_ident o) (loglevel o) x (netif_ipaddr o) (netif_netmask o) (netif_ip6addr o) (socks_server_addr o) (username o) (password o) (password_file o) (append_source_to_username o) (udpgw_remote_server_addr o) (udpgw_max_connections o) (udpgw_connection_buffer_size o) (udpgw_transparent_dns o) (tun_mtu o) (fake_proc o) (sock_path o) (pid o) (dnsgw o).
Definition set_netif_ipaddr (x : option bytes) (o : options) : options :=
  mk_options (help o) (version o) (logger o) (logger_syslog_facility o) (logger_syslog_ident o) (loglevel o) (loglevels o) x (netif_netmask o) (netif_ip6addr o) (socks_server_addr o) (username o) (password o) (password_file o) (append_source_to_username o) (udpgw_remote_server_addr o) (udpgw_max_connections o) (udpgw_connection_buffer_size o) (udpgw_transparent_dns o) (tun_mtu o) (fake_proc o) (sock_path o) (pid o) (dnsgw o).
Definition set_netif_netmask (x : option bytes) (o : options) : options :=
  mk_options (help o) (version o) (logger o) (logger_syslog_facility o) (logger_syslog_ident o) (loglevel o) (loglevels o) (netif_ipaddr o) x (netif_ip6addr o) (socks_server_addr o) (username o) (password o) (password_file o) (append_source_to_username o) (udpgw_remote_server_addr o) (udpgw_max_connections o) (udpgw_connection_buffer_size o) (udpgw_transparent_dns o) (tun_mtu o) (fake_proc o) (sock_path o) (pid o) (dnsgw o).
Definition set_netif_ip6addr (x : option bytes) (o : options) : options :=
  mk_options (help o) (version o) (logger o) (logger_syslog_facility o) (logger_syslog_ident o) (loglevel o) (loglevels o) (netif_ipaddr o) (netif_netmask o) x (socks_server_addr o) (username o) (password o) (password_file o) (append_source_to_username o) (udpgw_remote_server_addr o) (udpgw_max_connections o) (udpgw_connection_buffer_size o) (udpgw_transparent_dns o) (tun_mtu o) (fake_proc o) (sock_path o) (pid o) (dnsgw o).
Definition set_socks_server_addr (x : option bytes) (o : options) : options :=
  mk_options (help o) (version o) (logger o) (logger_syslog_facility o) (logger_syslog_ident o) (loglevel o) (loglevels o) (netif_ipaddr o) (netif_netmask o) (netif_ip6addr o) x (username o) (password o) (password_file o) (append_source_to_username o) (udpgw_remote_server_addr o) (udpgw_max_connections o) (udpgw_connection_buffer_size o) (udpgw_transparent_dns o) (tun_mtu o) (fake_proc o) (sock_path o) (pid o) (dnsgw o).
Definition set_username (x : option bytes) (o : options) : options :=
  mk_options (help o) (version o) (logger o) (logger_syslog_facility o) (logger_syslog_ident o) (loglevel o) (loglevels o) (netif_ipaddr o) (netif_netmask o) (netif_ip6addr o) (socks_server_addr o) x (password o) (password_file o) (append_source_to_username o) (udpgw_remote_server_addr o) (udpgw_max_connections o) (udpgw_connection_buffer_size o) (udpgw_transparent_dns o) (tun_mtu o) (fake_proc o) (sock_path o) (pid o) (dnsgw o).
Definition set_password (x : option bytes) (o : options) : options :=
  mk_options (help o) (version o) (logger o) (logger_syslog_facility o) (logger_syslog_ident o) (loglevel o) (loglevels o) (netif_ipaddr o) (netif_netmask o) (netif_ip6addr o) (socks_server_addr o) (username o) x (password_file o) (append_source_to_username o) (udpgw_remote_server_addr o) (udpgw_max_connections o) (udpgw_connection_buffer_size o) (udpgw_transparent_dns o) (tun_mtu o) (fake_proc o) (sock_path o) (pid o) (dnsgw o).
Definition set_password_file (x : option bytes) (o : options) : options :=
  mk_options (help o) (version o) (logger o) (logger_syslog_facility o) (logger_syslog_ident o) (loglevel o) (loglevels o) (netif_ipaddr o) (netif_netmask o) (netif_ip6addr o) (socks_server_addr o) (username o) (password o) x (append_source_to_username o) (udpgw_remote_server_addr o) (udpgw_max_connections o) (udpgw_connection_buffer_size o) (udpgw_transparent_dns o) (tun_mtu o) (fake_proc o) (sock_path o) (pid o) (dnsgw o).
Definition set_append_source_to_username (x : bool) (o : options) : options :=
  mk_options (help o) (version o) (logger o) (logger_syslog_facility o) (logger_syslog_ident o) (loglevel o) (loglevels o) (netif_ipaddr o) (netif_netmask o) (netif_ip6addr o) (socks_server_addr o) (username o) (password o) (password_file o) x (udpgw_remote_server_addr o) (udpgw_max_connections o) (udpgw_connection_buffer_size o) (udpgw_transparent_dns o) (tun_mtu o) (fake_proc o) (sock_path o) (pid o) (dnsgw o).
Definition set_udpgw_remote_server_addr (x : option bytes) (o : options) : options :=
  mk_options (help o) (version o) (logger o) (logger_syslog_facility o) (logger_syslog_ident o) (loglevel o) (loglevels o) (netif_ipaddr o) (netif_netmask o) (netif_ip6addr o) (socks_server_addr o) (username o) (password o) (password_file o) (append_source_to_username o) x (udpgw_max_connections o) (udpgw_connection_buffer_size o) (udpgw_transparent_dns o) (tun_mtu o) (fake_proc o) (sock_path o) (pid o) (dnsgw o).
Definition set_udpgw_max_connections (x : Z) (o : options) : options :=
  mk_options (help o) (version o) (logger o) (logger_syslog_facility o) (logger_syslog_ident o) (loglevel o) (loglevels o) (netif_ipaddr o) (netif_netmask o) (netif_ip6addr o) (socks_server_addr o) (username o) (password o) (password_file o) (append_source_to_username o) (udpgw_remote_server_addr o) x (udpgw_connection_buffer_size o) (udpgw_transparent_dns o) (tun_mtu o) (fake_proc o) (sock_path o) (pid o) (dnsgw o).
Definition set_tun_mtu (x : Z) (o : options) : options :=
  mk_options (help o) (version o) (logger o) (logger_syslog_facility o) (logger_syslog_ident o) (loglevel o) (loglevels o) (netif_ipaddr o) (netif_netmask o) (netif_ip6addr o) (socks_server_addr o) (username o) (password o) (password_file o) (append_source_to_username o) (udpgw_remote_server_addr o) (udpgw_max_connections o) (udpgw_connection_buffer_size o) (udpgw_transparent_dns o) x (fake_proc o) (sock_path o) (pid o) (dnsgw o).
Definition set_fake_proc (x : bool) (o : options) : options :=
  mk_options (help o) (version o) (logger o) (logger_syslog_facility o) (logger_syslog_ident o) (loglevel o) (loglevels o) (netif_ipaddr o) (netif_netmask o) (netif_ip6addr o) (socks_server_addr o) (username o) (password o) (password_file o) (append_source_to_username o) (udpgw_remote_server_addr o) (udpgw_max_connections o) (udpgw_connection_buffer_size o) (udpgw_transparent_dns o) (tun_mtu o) x (sock_path o) (pid o) (dnsgw o).
Definition set_sock_path (x : option bytes) (o : options) : options :=
  mk_options (help o) (version o) (logger o) (logger_syslog_facility o) (logger_syslog_ident o) (loglevel o) (loglevels o) (netif_ipaddr o) (netif_netmask o) (netif_ip6addr o) (socks_server_addr o) (username o) (password o) (password_file o) (append_source_to_username o) (udpgw_remote_server_addr o) (udpgw_max_connections o) (udpgw_connection_buffer_size o) (udpgw_transparent_dns o) (tun_mtu o) (fake_proc o) x (pid o) (dnsgw o).
Definition set_pid (x : option bytes) (o : options) : options :=
  mk_options (help o) (version o) (logger o) (logger_syslog_facility o) (logger_syslog_ident o) (loglevel o) (loglevels o) (netif_ipaddr o) (netif_netmask o) (netif_ip6addr o) (socks_server_addr o) (username o) (password o) (password_file o) (append_source_to_username o) (udpgw_remote_server_addr o) (udpgw_max_connections o) (udpgw_connection_buffer_size o) (udpgw_transparent_dns o) (tun_mtu o) (fake_proc o) (sock_path o) x (dnsgw o).
Definition set_dnsgw (x : option bytes) (o : options) : options :=
  mk_options (help o) (version o) (logger o) (logger_syslog_facility o) (logger_syslog_ident o) (loglevel o) (loglevels o) (netif_ipaddr o) (netif_netmask o) (netif_ip6addr o) (socks_server_addr o) (username o) (password o) (password_file o) (append_source_to_username o) (udpgw_remote_server_addr o) (udpgw_max_connections o) (udpgw_connection_buffer_size o) (udpgw_transparent_dns o) (tun_mtu o) (fake_proc o) (sock_path o) (pid o) x.

(** What [parse_arguments] starts from; it does not set [dnsgw], which is null before [main]. *)
Definition default_options (n : nat) (argv0 : bytes) : options :=
  mk_options false false LOGGER_STDOUT (lit "daemon") argv0 (-1) (replicate n (-1)) None None None None None None None false None
    DEFAULT_UDPGW_MAX_CONNECTIONS DEFAULT_UDPGW_CONNECTION_BUFFER_SIZE false 1500 false None None None.

(** An option that takes a text, [argv[i + 1]]. *)
Definition with_text (f : bytes -> options -> option options) (rest : list bytes) (o : options) : option (options * nat) :=
  match rest with
  | [] => None
  | arg2 :: _ => o ← f arg2 o; Some (o, 1%nat)
  end.
Definition text (f : option bytes -> options -> options) : list bytes -> options -> option (options * nat) :=
  with_text (fun arg2 o => Some (f (Some arg2) o)).
Definition flag (f : options -> options) (o : options) : option (options * nat) := Some (f o, O).

Section Arguments.
Context (LONG_MAX : Z) (channels : list bytes).

(** The option [arg], with the arguments behind it: the options after it, and how many of these
    arguments belong to it. *)
Definition one_option (arg : bytes) (rest : list bytes) (o : options) : option (options * nat) :=
  if strcmp_eq arg (lit "--help") then flag (set_help true) o
  else if strcmp_eq arg (lit "--version") then flag (set_version true) o
  else if strcmp_eq arg (lit "--logger") then
    with_text (fun arg2 o => if strcmp_eq arg2 (lit "stdout") then Some (set_logger LOGGER_STDOUT o)
                             else if strcmp_eq arg2 (lit "syslog") then Some (set_logger LOGGER_SYSLOG o) else None) rest o
  else if strcmp_eq arg (lit "--syslog-facility") then with_text (fun arg2 o => Some (set_logger_syslog_facility arg2 o)) rest o
  else if strcmp_eq arg (lit "--syslog-ident") then with_text (fun arg2 o => Some (set_logger_syslog_ident arg2 o)) rest o
  else if strcmp_eq arg (lit "--loglevel") then
    with_text (fun arg2 o => let l := parse_loglevel LONG_MAX arg2 in if l <? 0 then None else Some (set_loglevel l o)) rest o
  else if strcmp_eq arg (lit "--channel-loglevel") then
    match rest with
    | arg2 :: arg3 :: _ =>
        channel ← BLogGlobal_GetChannelByName channels arg2;
        let loglevel := parse_loglevel LONG_MAX arg3 in
        if loglevel <? 0 then None else Some (set_loglevels (<[channel := loglevel]> (loglevels o)) o, 2%nat)
    | _ => None
    end
  else if strcmp_eq arg (lit "--fake-proc") then flag (set_fake_proc true) o
  else if strcmp_eq arg (lit "--tunmtu") then
    with_text (fun arg2 o => let n := atoi LONG_MAX arg2 in if n <=? 0 then None else Some (set_tun_mtu n o)) rest o
  else if strcmp_eq arg (lit "--dnsgw") then text set_dnsgw rest o
  else if strcmp_eq arg (lit "--sock-path") then text set_sock_path rest o
  else if strcmp_eq arg (lit "--pid") then text set_pid rest o
  else if strcmp_eq arg (lit "--netif-ipaddr") then text set_netif_ipaddr rest o
  else if strcmp_eq arg (lit "--netif-netmask") then text set_netif_netmask rest o
  else if strcmp_eq arg (lit "--netif-ip6addr") then text set_netif_ip6addr rest o
  else if strcmp_eq arg (lit "--socks-server-addr") then text set_socks_server_addr rest o
  else if strcmp_eq arg (lit "--username") then text set_username rest o
  else if strcmp_eq arg (lit "--password") then text set_password rest o
  else if strcmp_eq arg (lit "--password-file") then text set_password_file rest o
  else if strcmp_eq arg (lit "--append-source-to-username") then flag (set_append_source_to_username true) o
  else if strcmp_eq arg (lit "--enable-udprelay") then flag (set_udpgw_remote_server_addr (Some (lit "0.0.0.0:0"))) o
  else if strcmp_eq arg (lit "--udprelay-max-connections") then
    with_text (fun arg2 o => let n := atoi LONG_MAX arg2 in if n <=? 0 then None else Some (set_udpgw_max_connections n o)) rest o
  else None.

(** The loop over [argv]; [skip] is how many arguments the option before has taken. *)
Fixpoint parse_loop (skip : nat) (args : list bytes) (o : options) : option options :=
  match args with
  | [] => Some o
  | arg :: rest =>
      match skip with
      | S skip => parse_loop skip rest o
      | O => match one_option arg rest o with Some (o, k) => parse_loop k rest o | None => None end
      end
  end.

Definition is_set {A} (x : option A) : bool := match x with Some _ => true | None => false end.

(** The checks behind the loop. *)
Definition complete (o : options) : bool :=
  if help o || version o then true
  else if negb (is_set (netif_ipaddr o)) then false
  else if negb (is_set (socks_server_addr o)) then false
  else if is_set (username o) then
    if negb (is_set (password o)) && negb (is_set (password_file o)) then false
    else if is_set (password o) && is_set (password_file o) then false
    else true
  else true.

Definition parse_arguments (argv : list bytes) : option options :=
  match argv with
  | [] => None
  | argv0 :: args => o ← parse_loop 0 args (default_options (length channels) argv0); if complete o then Some o else None
  end.

End Arguments.

(** ** Addresses: BAddr.h *)

Inductive bipaddr := bip_v4 (ip : bytes) | bip_v6 (ip : bytes).

Definition BADDR_MAX_ADDR_LEN : Z := 128.

(** The text between brackets, when the string starts with one and ends with one. *)
Definition bracketed (str : bytes) : option bytes :=
  match str with
  | c :: t => if c =? 91 then match rev t with d :: a => if d =? 93 then Some (rev a) else None | [] => None end else None
  | [] => None
  end.

Section Addresses.
Context (LONG_MAX : Z) (getaddrinfo : bool -> bool -> bytes -> option bytes).

Definition BIPAddr_Resolve (str : bytes) (noresolve : bool) : option bipaddr :=
  let '(is_v6, addr_str) := match bracketed str with Some a => (true, a) | None => (false, str) end in
  if zlen addr_str >? BADDR_MAX_ADDR_LEN then None
  else (if is_v6 then bip_v6 else bip_v4) <$> getaddrinfo is_v6 noresolve addr_str.

(** The kind of an address with a port, its text and the text of the port. *)
Definition split_addr (str : bytes) : option (bool * bytes * bytes) :=
  if bool_decide (head str = Some 91) then
    match strchr 93 (tail str) with
    | Some (a, _ :: c :: p) => if c =? 58 then Some (true, a, p) else None
    | _ => None
    end
  else
    match strchr 58 str with
    | Some (a, _ :: p) => Some (false, a, p)
    | _ => None
    end.

(** [name_len]: the size of the buffer [name], when there is one; what is stored there. *)
Definition BAddr_Parse2 (str : bytes) (name_len : option Z) (noresolve : bool) : option (BSocks.dest_addr * option bytes) :=
  let len := zlen str in
  if (len <? 1) || (len >? 1000) then None else
  match split_addr str with
  | None => None
  | Some (is_v6, addr_str, port_str) =>
      if zlen addr_str >=? 128 then None else
      if zlen port_str >=? 6 then None else
      let '(conv_res, err) := strtol LONG_MAX port_str in
      if bool_decide (port_str = []) || negb (bool_decide (err = [])) then None else
      if (conv_res <? 0) || (conv_res >? 0xFFFF) then None else
      let port := be_bytes 2 conv_res in
      match getaddrinfo is_v6 noresolve addr_str with
      | None => None
      | Some a =>
          let addr := if is_v6 then BSocks.ipv6 a port else BSocks.ipv4 a port in
          match name_len with
          | Some n => if zlen addr_str >=? n then None else Some (addr, Some addr_str)
          | None => Some (addr, None)
          end
      end
  end.

End Addresses.

Definition BIPAddr_Print (a : bipaddr) : bytes :=
  match a with
  | bip_v4 ip => inet_ntoa ip
  | bip_v6 ip => concat ((fun i => (if (i =? 0)%nat then [] else [58]) ++ Ipaddr6.fmt_x16 (256 * nth (2 * i) ip 0 + nth (2 * i + 1) ip 0)) <$> seq 0 8)
  end.
Definition BAddr_Print (a : BSocks.dest_addr) : bytes :=
  match a with
  | BSocks.ipv4 ip port => BIPAddr_Print (bip_v4 ip) ++ [58] ++ fmt_u (le_value (rev port))
  | BSocks.ipv6 ip port => BIPAddr_Print (bip_v6 ip) ++ [58] ++ fmt_u (le_value (rev port))
  end.

(** ** Reading a file: read_file.h *)

(** A file: its bytes, and where reading it fails. *)
Record file := mk_file { contents : bytes; broken_at : option nat }.

(** [fread] of [n] bytes at [pos]: what is read, and whether the end of the file was met. *)
Definition fread (f : file) (pos n : nat) : bytes * bool :=
  match broken_at f with
  | Some b => (take n (drop pos (take b (contents f))), (length (contents f) <? b)%nat)
  | None => (take n (drop pos (contents f)), true)
  end.

Section ReadFile.
Context (SIZE_MAX : Z) (alloc : Z -> bool).

(** [Some None]: 0 is returned. *)
Fixpoint read_loop (fuel : nat) (f : file) (buf : bytes) (buf_size : Z) : option (option bytes) :=
  match fuel with
  | O => None
  | S fuel =>
      let grown := if zlen buf =? buf_size then
                     if 2 >? SIZE_MAX / buf_size then None
                     else if alloc (2 * buf_size) then Some (2 * buf_size) else None
                   else Some buf_size in
      match grown with
      | None => Some None
      | Some buf_size =>
          let '(l, feof) := fread f (length buf) (Z.to_nat (buf_size - zlen buf)) in
          match l with
          | [] => if feof then Some (Some buf) else Some None
          | _ => read_loop fuel f (buf ++ l) buf_size
          end
      end
  end.

(** [fs]: what [fopen] finds. One turn per byte, and the two at which a buffer is full and the
    end is met. *)
Definition read_file (fs : bytes -> option file) (name : bytes) : option (option bytes) :=
  match fs name with
  | None => Some None
  | Some f => if alloc 128 then read_loop (S (S (length (contents f)))) f [] 128 else Some None
  end.

End ReadFile.

(** ** What the options mean: [process_arguments] *)

(** The globals it sets. An address of no type is [None]; [socks_auth_info] is the array up to
    [socks_num_auth_info]. *)
Record globals := mk_globals {
  g_netif_ipaddr : option bipaddr;
  g_netif_ip6addr : bytes;
  g_socks_server_addr : option BSocks.dest_addr;
  socks_auth_info : list BSocks.auth_info;
  password_file_contents : option bytes;
  g_udpgw_remote_server_addr : option BSocks.dest_addr;
  g_dnsgw : option BSocks.dest_addr }.

Definition globals0 : globals := mk_globals None (replicate 16 0) None [] None None None.

Definition set_g_netif_ipaddr x g := mk_globals x (g_netif_ip6addr g) (g_socks_server_addr g) (socks_auth_info g) (password_file_contents g) (g_udpgw_remote_server_addr g) (g_dnsgw g).
Definition set_g_netif_ip6addr x g := mk_globals (g_netif_ipaddr g) x (g_socks_server_addr g) (socks_auth_info g) (password_file_contents g) (g_udpgw_remote_server_addr g) (g_dnsgw g).
Definition set_g_socks_server_addr x g := mk_globals (g_netif_ipaddr g) (g_netif_ip6addr g) x (socks_auth_info g) (password_file_contents g) (g_udpgw_remote_server_addr g) (g_dnsgw g).
Definition set_socks_auth_info x g := mk_globals (g_netif_ipaddr g) (g_netif_ip6addr g) (g_socks_server_addr g) x (password_file_contents g) (g_udpgw_remote_server_addr g) (g_dnsgw g).
Definition set_password_file_contents x g := mk_globals (g_netif_ipaddr g) (g_netif_ip6addr g) (g_socks_server_addr g) (socks_auth_info g) x (g_udpgw_remote_server_addr g) (g_dnsgw g).
Definition set_g_udpgw_remote_server_addr x g := mk_globals (g_netif_ipaddr g) (g_netif_ip6addr g) (g_socks_server_addr g) (socks_auth_info g) (password_file_contents g) x (g_dnsgw g).
Definition set_g_dnsgw x g := mk_globals (g_netif_ipaddr g) (g_netif_ip6addr g) (g_socks_server_addr g) (socks_auth_info g) (password_file_contents g) (g_udpgw_remote_server_addr g) x.

(** [crash]: a null pointer is read, or memory outside an object; else 0 or 1 and the globals. *)
Inductive outcome := crash | ret (ok : bool) (g : globals).
Definition and_then (r : outcome) (k : globals -> outcome) : outcome :=
  match r with ret true g => k g | _ => r end.

Section Process.
Context (LONG_MAX SIZE_MAX : Z) (alloc : Z -> bool) (getaddrinfo : bool -> bool -> bytes -> option bytes) (fs : bytes -> option file).
(** What is in the local array of [ipaddr6_parse_ipv6_addr]. *)
Context (stack : bytes).

Definition process_ipaddr (o : options) (g : globals) : outcome :=
  match netif_ipaddr o with
  | None => crash
  | Some s =>
      match BIPAddr_Resolve getaddrinfo s false with
      | None => ret false g
      | Some (bip_v6 ip) => ret false (set_g_netif_ipaddr (Some (bip_v6 ip)) g)
      | Some (bip_v4 ip) => ret true (set_g_netif_ipaddr (Some (bip_v4 ip)) g)
      end
  end.

Definition process_ip6addr (o : options) (g : globals) : outcome :=
  match netif_ip6addr o with
  | None => ret true g
  | Some s =>
      match Ipaddr6.ipaddr6_parse_ipv6_addr s (g_netif_ip6addr g) stack with
      | Ipaddr6.Oob => crash
      | Ipaddr6.Zero => ret false g
      | Ipaddr6.One a => ret true (set_g_netif_ip6addr a g)
      end
  end.

Definition process_server (o : options) (g : globals) : outcome :=
  match socks_server_addr o with
  | None => crash
  | Some s =>
      match BAddr_Parse2 LONG_MAX getaddrinfo s None false with
      | None => ret false g
      | Some (a, _) => ret true (set_g_socks_server_addr (Some a) g)
      end
  end.

Definition process_auth (o : options) (g : globals) : outcome :=
  let g := set_socks_auth_info [BSocks.auth_none] g in
  match username o with
  | None => ret true g
  | Some u =>
      match password o with
      | Some p => ret true (set_socks_auth_info (socks_auth_info g ++ [BSocks.auth_password u p]) g)
      | None =>
          match password_file o with
          | None => crash
          | Some name =>
              match read_file SIZE_MAX alloc fs name with
              | None => crash
              | Some None => ret false g
              | Some (Some p) =>
                  let g := set_password_file_contents (Some p) g in
                  ret true (set_socks_auth_info (socks_auth_info g ++ [BSocks.auth_password u p]) g)
              end
          end
      end
  end.

Definition process_udpgw (o : options) (g : globals) : outcome :=
  match udpgw_remote_server_addr o with
  | None => ret true g
  | Some s =>
      match BAddr_Parse2 LONG_MAX getaddrinfo s None false with
      | None => ret false g
      | Some (a, _) => ret true (set_g_udpgw_remote_server_addr (Some a) g)
      end
  end.

Definition process_dnsgw (o : options) (g : globals) : outcome :=
  match dnsgw o with
  | None => ret true g
  | Some s =>
      match BAddr_Parse2 LONG_MAX getaddrinfo s None false with
      | None => ret false g
      | Some (BSocks.ipv6 ip port, _) => ret false (set_g_dnsgw (Some (BSocks.ipv6 ip port)) g)
      | Some (BSocks.ipv4 ip port, _) => ret true (set_g_dnsgw (Some (BSocks.ipv4 ip port)) g)
      end
  end.

Definition process_arguments (o : options) (g : globals) : outcome :=
  and_then (process_ipaddr o g) (fun g =>
  and_then (process_ip6addr o g) (fun g =>
  and_then (process_server o g) (fun g =>
  and_then (process_auth o g) (fun g =>
  and_then (process_udpgw o g) (process_dnsgw o))))).

End Process.

(** ** A grammar of the command line *)

(** One option with its arguments. *)
Inductive setting :=
| s_help | s_version | s_logger (syslog : bool) | s_syslog_facility (s : bytes) | s_syslog_ident (s : bytes)
| s_loglevel (level : bytes) | s_channel_loglevel (name level : bytes) | s_fake_proc | s_tunmtu (n : bytes)
| s_dnsgw (a : bytes) | s_sock_path (p : bytes) | s_pid (p : bytes) | s_netif_ipaddr (a : bytes) | s_netif_netmask (a : bytes)
| s_netif_ip6addr (a : bytes) | s_socks_server_addr (a : bytes) | s_username (s : bytes) | s_password (s : bytes)
| s_password_file (f : bytes) | s_append_source | s_enable_udprelay | s_max_connections (n : bytes).

Definition render (s : setting) : list bytes :=
  match s with
  | s_help => [lit "--help"]
  | s_version => [lit "--version"]
  | s_logger syslog => [lit "--logger"; if syslog then lit "syslog" else lit "stdout"]
  | s_syslog_facility s => [lit "--syslog-facility"; s]
  | s_syslog_ident s => [lit "--syslog-ident"; s]
  | s_loglevel l => [lit "--loglevel"; l]
  | s_channel_loglevel c l => [lit "--channel-loglevel"; c; l]
  | s_fake_proc => [lit "--fake-proc"]
  | s_tunmtu n => [lit "--tunmtu"; n]
  | s_dnsgw a => [lit "--dnsgw"; a]
  | s_sock_path p => [lit "--sock-path"; p]
  | s_pid p => [lit "--pid"; p]
  | s_netif_ipaddr a => [lit "--netif-ipaddr"; a]
  | s_netif_netmask a => [lit "--netif-netmask"; a]
  | s_netif_ip6addr a => [lit "--netif-ip6addr"; a]
  | s_socks_server_addr a => [lit "--socks-server-addr"; a]
  | s_username s => [lit "--username"; s]
  | s_password s => [lit "--password"; s]
  | s_password_file f => [lit "--password-file"; f]
  | s_append_source => [lit "--append-source-to-username"]
  | s_enable_udprelay => [lit "--enable-udprelay"]
  | s_max_connections n => [lit "--udprelay-max-connections"; n]
  end.

Section Grammar.
Context (LONG_MAX : Z) (channels : list bytes).

(** What can be read: levels, channels and positive numbers. *)
Definition setting_ok (s : setting) : Prop :=
  match s with
  | s_loglevel l => 0 <= parse_loglevel LONG_MAX l
  | s_channel_loglevel c l => c ∈ channels /\ 0 <= parse_loglevel LONG_MAX l
  | s_tunmtu n | s_max_connections n => 0 < atoi LONG_MAX n
  | _ => True
  end.

Definition apply (o : options) (s : setting) : options :=
  match s with
  | s_help => set_help true o
  | s_version => set_version true o
  | s_logger syslog => set_logger (if syslog then LOGGER_SYSLOG else LOGGER_STDOUT) o
  | s_syslog_facility s => set_logger_syslog_facility s o
  | s_syslog_ident s => set_logger_syslog_ident s o
  | s_loglevel l => set_loglevel (parse_loglevel LONG_MAX l) o
  | s_channel_loglevel c l => set_loglevels (<[default O (BLogGlobal_GetChannelByName channels c) := parse_loglevel LONG_MAX l]> (loglevels o)) o
  | s_fake_proc => set_fake_proc true o
  | s_tunmtu n => set_tun_mtu (atoi LONG_MAX n) o
  | s_dnsgw a => set_dnsgw (Some a) o
  | s_sock_path p => set_sock_path (Some p) o
  | s_pid p => set_pid (Some p) o
  | s_netif_ipaddr a => set_netif_ipaddr (Some a) o
  | s_netif_netmask a => set_netif_netmask (Some a) o
  | s_netif_ip6addr a => set_netif_ip6addr (Some a) o
  | s_socks_server_addr a => set_socks_server_addr (Some a) o
  | s_username s => set_username (Some s) o
  | s_password s => set_password (Some s) o
  | s_password_file f => set_password_file (Some f) o
  | s_append_source => set_append_source_to_username true o
  | s_enable_udprelay => set_udpgw_remote_server_addr (Some (lit "0.0.0.0:0")) o
  | s_max_connections n => set_udpgw_max_connections (atoi LONG_MAX n) o
  end.

End Grammar.

Lemma channel_found channels c : (exists i, BLogGlobal_GetChannelByName channels c = Some i) <-> c ∈ channels.
Proof.
  induction channels as [|x l IH]; cbn; [split; [by intros [? ?]|by intros ?%not_elem_of_nil]|]. unfold strcmp_eq. case_bool_decide as E; [subst; split; [intros _; constructor|by exists O]|].
  rewrite elem_of_cons, <- IH. split; [intros [i Hi]; right; destruct (BLogGlobal_GetChannelByName l c) as [j|]; [by exists j|done]|]. intros [->|[i Hi]]; [done|]. exists (S i). by rewrite Hi.
Qed.

Section GrammarLemmas.
Context (LONG_MAX : Z) (channels : list bytes).
Local Abbreviation one_option := (one_option LONG_MAX channels).
Local Abbreviation parse_loop := (parse_loop LONG_MAX channels).
Local Abbreviation setting_ok := (setting_ok LONG_MAX channels).
Local Abbreviation apply := (apply LONG_MAX channels).

Ltac found s := exists s; split; [done|]; split; [reflexivity|]; split; [cbn; lia|reflexivity].

Lemma one_option_inv arg rest o o' k : one_option arg rest o = Some (o', k) ->
  exists s, setting_ok s /\ render s = arg :: take k rest /\ (k <= length rest)%nat /\ o' = apply o s.
Proof.
  unfold TunOptions.one_option, strcmp_eq. intros H.
  repeat (case_bool_decide; [subst arg|]); [..|done]; unfold flag, text, with_text in H;
    repeat match type of H with (match ?r with [] => _ | _ => _ end) = _ => let a := fresh "a" in destruct r as [|a r]; [discriminate H|] end; cbn [mbind option_bind] in H.
  - injection H as <- <-. found s_help.
  - injection H as <- <-. found s_version.
  - repeat case_bool_decide; [..|done]; subst; injection H as <- <-; [found (s_logger false)|found (s_logger true)].
  - injection H as <- <-. found (s_syslog_facility a).
  - injection H as <- <-. found (s_syslog_ident a).
  - destruct (Z.ltb_spec (parse_loglevel LONG_MAX a) 0); [done|]. injection H as <- <-. found (s_loglevel a).
  - destruct (BLogGlobal_GetChannelByName channels a) as [c|] eqn:Ec; [|done]. cbn [mbind option_bind] in H. destruct (Z.ltb_spec (parse_loglevel LONG_MAX a0) 0); [done|]. injection H as <- <-. exists (s_channel_loglevel a a0). cbn. rewrite Ec.
    split; [split; [apply channel_found; by exists c|done]|]. split; [done|]. split; [lia|done].
  - injection H as <- <-. found s_fake_proc.
  - destruct (Z.leb_spec (atoi LONG_MAX a) 0); [done|]. injection H as <- <-. found (s_tunmtu a).
  - injection H as <- <-. found (s_dnsgw a).
  - injection H as <- <-. found (s_sock_path a).
  - injection H as <- <-. found (s_pid a).
  - injection H as <- <-. found (s_netif_ipaddr a).
  - injection H as <- <-. found (s_netif_netmask a).
  - injection H as <- <-. found (s_netif_ip6addr a).
  - injection H as <- <-. found (s_socks_server_addr a).
  - injection H as <- <-. found (s_username a).
  - injection H as <- <-. found (s_password a).
  - injection H as <- <-. found (s_password_file a).
  - injection H as <- <-. found s_append_source.
  - injection H as <- <-. found s_enable_udprelay.
  - destruct (Z.leb_spec (atoi LONG_MAX a) 0); [done|]. injection H as <- <-. found (s_max_connections a).
Qed.

Lemma one_option_setting s arg l rest o : setting_ok s -> render s = arg :: l -> one_option arg (l ++ rest) o = Some (apply o s, length l).
Proof.
  intros Hok Hr. destruct s; cbn in Hr; injection Hr as <- <-; cbn in Hok; try reflexivity.
  - by destruct syslog.
  - change (one_option _ _ _) with (with_text (fun arg2 o => let l := parse_loglevel LONG_MAX arg2 in if l <? 0 then None else Some (set_loglevel l o)) (level :: rest) o). cbn. by rewrite (proj2 (Z.ltb_ge _ _)).
  - destruct Hok as [[c Hc]%channel_found Hl]. change (one_option _ _ _) with (channel ← BLogGlobal_GetChannelByName channels name; let loglevel := parse_loglevel LONG_MAX level in if loglevel <? 0 then None else Some (set_loglevels (<[channel := loglevel]> (loglevels o)) o, 2%nat)).
    cbn. rewrite Hc. cbn. by rewrite (proj2 (Z.ltb_ge _ _)).
  - change (one_option _ _ _) with (with_text (fun arg2 o => let n := atoi LONG_MAX arg2 in if n <=? 0 then None else Some (set_tun_mtu n o)) (n :: rest) o). cbn. by rewrite (proj2 (Z.leb_gt _ _)).
  - change (one_option _ _ _) with (with_text (fun arg2 o => let n := atoi LONG_MAX arg2 in if n <=? 0 then None else Some (set_udpgw_max_connections n o)) (n :: rest) o). cbn. by rewrite (proj2 (Z.leb_gt _ _)).
Qed.

Lemma render_cons s : exists arg l, render s = arg :: l.
Proof. destruct s; cbn; eauto. Qed.

Lemma parse_loop_drop k args o : (k <= length args)%nat -> parse_loop k args o = parse_loop 0 (drop k args) o.
Proof. revert args. induction k as [|k IH]; intros [|a args] Hk; cbn in Hk; try done; [lia..|]. apply IH. lia. Qed.

Lemma parse_settings ss : forall o, Forall setting_ok ss -> parse_loop 0 (ss ≫= render) o = Some (fold_left apply ss o).
Proof.
  induction ss as [|s ss IH]; intros o H; [done|]. apply Forall_cons in H as [Hs H]. destruct (render_cons s) as (arg & l & E). cbn [mbind list_bind]. rewrite E. cbn [app TunOptions.parse_loop]. rewrite (one_option_setting s arg l) by done.
  rewrite parse_loop_drop by (rewrite length_app; lia). rewrite drop_app_length. by apply IH.
Qed.

Lemma parse_loop_inv n : forall args o o', (length args <= n)%nat -> parse_loop 0 args o = Some o' -> exists ss, Forall setting_ok ss /\ args = ss ≫= render /\ o' = fold_left apply ss o.
Proof.
  induction n as [|n IH]; intros args o o' Hn H; (destruct args as [|arg rest]; [exists []; cbn in H; injection H as <-; done|]); cbn in Hn; [lia|]. cbn in H. destruct (one_option arg rest o) as [[o1 k]|] eqn:E; [|done].
  apply one_option_inv in E as (s & Hs & Er & Hk & ->). rewrite parse_loop_drop in H by done. apply IH in H as (ss & Hss & Ess & ->); [|rewrite length_drop; lia]. exists (s :: ss). split; [by constructor|]. split; [|done]. cbn [mbind list_bind]. rewrite Er, <- Ess. cbn [app]. by rewrite take_drop.
Qed.

End GrammarLemmas.

(** ** Accepted options *)

Lemma i32_upper z : i32 z < 2 ^ 31.
Proof. unfold i32. pose proof (Z.mod_pos_bound (z + 2 ^ 31) (2 ^ 32) ltac:(lia)). lia. Qed.

Lemma parse_loglevel_range M l : -1 <= parse_loglevel M l <= 5.
Proof.
  unfold parse_loglevel, BLOG_ERROR, BLOG_WARNING, BLOG_NOTICE, BLOG_INFO, BLOG_DEBUG. repeat (destruct (strcmp_eq _ _); [lia|]). destruct (strtol M l) as [res e]. destruct (_ && _) eqn:E; lia.
Qed.

(** The options have values the rest of the program can use. *)
Record options_ok (channels : list bytes) (o : options) : Prop := {
  ok_logger : logger o = LOGGER_STDOUT \/ logger o = LOGGER_SYSLOG;
  ok_loglevel : -1 <= loglevel o <= 5;
  ok_channels : length (loglevels o) = length channels /\ Forall (fun l => -1 <= l <= 5) (loglevels o);
  ok_mtu : 0 < tun_mtu o < 2 ^ 31;
  ok_max : 0 < udpgw_max_connections o < 2 ^ 31;
  ok_size : udpgw_connection_buffer_size o = DEFAULT_UDPGW_CONNECTION_BUFFER_SIZE }.

(** What is required of options that are not only for help or the version. *)
Definition runnable (o : options) : Prop :=
  help o = true \/ version o = true \/
  (netif_ipaddr o <> None /\ socks_server_addr o <> None /\
   (username o <> None -> (password o <> None /\ password_file o = None) \/ (password o = None /\ password_file o <> None))).

Lemma complete_runnable o : complete o = true <-> runnable o.
Proof.
  unfold complete, runnable. destruct (help o), (version o), (netif_ipaddr o), (socks_server_addr o), (username o), (password o), (password_file o); cbn; intuition congruence.
Qed.

Lemma apply_ok M channels o s : setting_ok M channels s -> options_ok channels o -> options_ok channels (apply M channels o s).
Proof.
  intros Hs [H1 H2 [H3 H4] H5 H6 H7]. destruct s; cbn in Hs; split; cbn; try done; try (split; [lia|apply i32_upper]).
  - destruct syslog; [by right|by left].
  - pose proof (parse_loglevel_range M level). lia.
  - rewrite length_insert. split; [done|]. apply Forall_insert; [done|apply parse_loglevel_range].
Qed.

Lemma settings_ok M channels ss : forall o, Forall (setting_ok M channels) ss -> options_ok channels o -> options_ok channels (fold_left (apply M channels) ss o).
Proof. induction ss as [|s ss IH]; intros o H Ho; [done|]. apply Forall_cons in H as [Hs H]. apply IH; [done|]. by apply apply_ok. Qed.

Lemma default_ok channels argv0 : options_ok channels (default_options (length channels) argv0).
Proof. split; cbn; [by left|lia|split; [by rewrite length_replicate|apply Forall_replicate; lia]|lia|unfold DEFAULT_UDPGW_MAX_CONNECTIONS; lia|done]. Qed.

Lemma parse_arguments_iff M channels argv0 args o :
  parse_arguments M channels (argv0 :: args) = Some o <->
  exists ss, Forall (setting_ok M channels) ss /\ args = ss ≫= render /\ o = fold_left (apply M channels) ss (default_options (length channels) argv0) /\ runnable o.
Proof.
  unfold parse_arguments. split.
  - destruct (parse_loop _ _ _ _ _) as [o1|] eqn:E; [|done]. cbn. destruct (complete o1) eqn:Ec; [|done]. intros [= <-]. apply (parse_loop_inv _ _ (length args)) in E as (ss & H1 & H2 & H3); [|done]. exists ss. split_and!; try done. by apply complete_runnable.
  - intros (ss & H1 & -> & -> & Hr). rewrite parse_settings by done. cbn. by rewrite (proj2 (complete_runnable _) Hr).
Qed.

Lemma parse_arguments_ok M channels argv0 args o : parse_arguments M channels (argv0 :: args) = Some o -> options_ok channels o /\ runnable o.
Proof. intros (ss & H1 & _ & -> & Hr)%parse_arguments_iff. split; [apply settings_ok; [done|apply default_ok]|done]. Qed.

(** C36: [parse_arguments] accepts a command line exactly when it is a sequence of known options,
    each followed by the arguments it takes (levels and channels that exist, positive numbers),
    and an address for the device, the server and a password for a user are given, unless help or
    the version is asked for; the options are then those of the sequence, later ones overriding
    earlier ones, and all levels, sizes and counts are in their ranges. *)
Theorem command_line_grammar LONG_MAX channels argv0 args o :
  (parse_arguments LONG_MAX channels (argv0 :: args) = Some o <->
   exists ss, Forall (setting_ok LONG_MAX channels) ss /\ args = ss ≫= render /\
     o = fold_left (apply LONG_MAX channels) ss (default_options (length channels) argv0) /\ runnable o) /\
  (parse_arguments LONG_MAX channels (argv0 :: args) = Some o -> options_ok channels o).
Proof. split; [apply parse_arguments_iff|]. intros H. by apply parse_arguments_ok in H as [H _]. Qed.

Lemma command_line_grammar_witness :
  exists o, parse_arguments (2 ^ 31 - 1) [lit "tun2socks"] [lit "t"; lit "--netif-ipaddr"; lit "10.0.0.2"; lit "--tunmtu"; lit "1400"; lit "--socks-server-addr"; lit "127.0.0.1:1080"; lit "--tunmtu"; lit "1500"] = Some o /\ tun_mtu o = 1500 /\ options_ok [lit "tun2socks"] o.
Proof.
  set (a := [lit "--netif-ipaddr"; lit "10.0.0.2"; lit "--tunmtu"; lit "1400"; lit "--socks-server-addr"; lit "127.0.0.1:1080"; lit "--tunmtu"; lit "1500"]).
  destruct (parse_arguments (2 ^ 31 - 1) [lit "tun2socks"] (lit "t" :: a)) as [o|] eqn:E; [|vm_compute in E; discriminate E].
  exists o. split; [reflexivity|]. split; [vm_compute in E; injection E as <-; reflexivity|]. exact (proj2 (command_line_grammar (2 ^ 31 - 1) [lit "tun2socks"] (lit "t") a o) E).
Defined.

(** ** Reading a file *)

Lemma fread_progress f pos n : (length (fst (fread f pos n)) <= n)%nat /\ (length (fst (fread f pos n)) <= length (contents f) - pos)%nat.
Proof. unfold fread. destruct (broken_at f); cbn [fst]; rewrite length_take, length_drop; [rewrite length_take|]; lia. Qed.

(** Reading a file ends: there is a turn for each of its bytes. *)
Lemma read_loop_ends M alloc f fuel : forall buf size, (length (contents f) - length buf < fuel)%nat -> read_loop M alloc fuel f buf size <> None.
Proof.
  induction fuel as [|fuel IH]; intros buf size Hf; [lia|]. cbn [read_loop]. destruct (if zlen buf =? size then _ else _) as [sz|]; [|done].
  pose proof (fread_progress f (length buf) (Z.to_nat (sz - zlen buf))) as [H1 H2]. destruct (fread f (length buf) _) as [l e]. cbn [fst] in *. destruct l as [|x l]; [by destruct e|]. cbn [length] in H2. apply IH. rewrite length_app. cbn [length]. lia.
Qed.

Lemma read_whole M alloc c fuel : (forall n, alloc n = true) -> 2 * (zlen c + 128) <= M -> forall n size,
  (n <= length c)%nat -> (Z.of_nat n <= size) -> 128 <= size <= 2 * (zlen c + 128) -> (length c - n < fuel)%nat -> read_loop M alloc fuel (mk_file c None) (take n c) size = Some (Some c).
Proof.
  intros Ha HM. induction fuel as [|fuel IH]; intros n size Hn Hs Hsz Hf; [lia|]. cbn [read_loop]. assert (Hl : length (take n c) = n) by (rewrite length_take; lia). unfold zlen. rewrite Hl. fold (zlen c) in *.
  assert (Hg : exists sz, (if Z.of_nat n =? size then if 2 >? M / size then None else if alloc (2 * size) then Some (2 * size) else None else Some size) = Some sz /\ Z.of_nat n < sz <= 2 * (zlen c + 128) /\ 128 <= sz).
  { unfold zlen in *. destruct (Z.eqb_spec (Z.of_nat n) size); [|exists size; split; [done|lia]]. rewrite Z.gtb_ltb. assert (2 <= M / size) by (apply Z.div_le_lower_bound; lia). destruct (Z.ltb_spec (M / size) 2); [lia|]. rewrite Ha. exists (2 * size). split; [done|lia]. }
  destruct Hg as (sz & -> & Hsz1 & Hsz2). unfold fread. cbn [broken_at contents]. destruct (drop n c) as [|x l] eqn:Ed.
  - rewrite take_nil. apply (f_equal length) in Ed. rewrite length_drop in Ed. cbn in Ed. f_equal. f_equal. apply take_ge. lia.
  - assert (Hk : (Z.to_nat (sz - Z.of_nat n) = S (Z.to_nat (sz - Z.of_nat n) - 1))%nat) by lia. rewrite Hk. cbn [take]. set (k := (Z.to_nat (sz - Z.of_nat n) - 1)%nat) in *. assert (E : take n c ++ x :: take k l = take (n + S k) c) by (rewrite <- (take_take_drop c n (S k)), Ed; done). rewrite E.
    destruct (Nat.le_gt_cases (n + S k) (length c)) as [Hle|Hgt]; [apply IH; unfold zlen in *; lia|]. rewrite take_ge by lia. pose proof (IH (length c) sz) as H. rewrite firstn_all in H. apply (f_equal length) in Ed. rewrite length_drop in Ed. cbn [length] in Ed. apply H; unfold zlen in *; lia.
Qed.

(** ** Numbers and addresses that are printed and read back *)

Lemma strtol_fmt M z : 0 <= z < 2 ^ 32 -> z <= M -> strtol M (fmt_u z) = (z, []).
Proof.
  intros Hz HM. destruct (fmt_u_spec z Hz) as (Hv & Hf & c & l & E & _). unfold strtol. assert (Hd : isdigit c = true) by (rewrite E in Hf; by inversion Hf). destruct (isdigit_of10 c Hd) as [_ Hsp]. assert (Hc : 48 <= c <= 57) by (unfold isdigit in Hd; lia).
  rewrite E in *. rewrite skip_stop by done. replace (match c :: l with 45 :: t => (true, t) | 43 :: t => (false, t) | _ => (false, c :: l) end) with (false, c :: l).
  2: { assert (Hx : c = 48 \/ c = 49 \/ c = 50 \/ c = 51 \/ c = 52 \/ c = 53 \/ c = 54 \/ c = 55 \/ c = 56 \/ c = 57) by lia. by destruct_or! Hx; subst c. }
  assert (Hspan : span isdigit ((c :: l) ++ []) = (c :: l, [])) by (apply span_all; [done|by left]). rewrite app_nil_r in Hspan. rewrite Hspan, Hv, Z.gtb_ltb, (proj2 (Z.ltb_ge _ _)) by done. done.
Qed.

Lemma dec_digits_length fuel : forall n z, 0 <= z < 10 ^ Z.of_nat n -> (1 <= n)%nat -> (length (dec_digits fuel z) <= n)%nat.
Proof.
  induction fuel as [|fuel IH]; intros n z Hz Hn; [cbn; lia|]. cbn [dec_digits]. rewrite length_app. cbn [length]. destruct (Z.ltb_spec z 10); [cbn; lia|]. destruct n as [|n]; [lia|]. rewrite Nat2Z.inj_succ, Z.pow_succ_r in Hz by lia. destruct n as [|n]; [cbn in Hz; lia|].
  specialize (IH (S n) (z / 10)). assert (0 <= z / 10 < 10 ^ Z.of_nat (S n)) by (split; [apply Z.div_pos; lia|apply Z.div_lt_upper_bound; lia]). lia.
Qed.

Lemma fmt_u_length n z : 0 <= z < 10 ^ Z.of_nat n -> z < 2 ^ 32 -> (1 <= n)%nat -> (length (fmt_u z) <= n)%nat.
Proof. intros Hz H32 Hn. unfold fmt_u. rewrite u32_id by lia. by apply dec_digits_length. Qed.

(** Digits and dots. *)
Definition dotted_text (l : bytes) : Prop := Forall (fun c => c = 46 \/ 48 <= c <= 57) l.

Lemma fmt_dotted z : 0 <= z < 2 ^ 32 -> dotted_text (fmt_u z).
Proof. intros Hz. destruct (fmt_u_spec z Hz) as (_ & Hf & _). eapply Forall_impl; [exact Hf|]. intros c Hc. unfold isdigit in Hc. cbn in Hc. lia. Qed.

Definition ip4_ok (ip : bytes) : Prop := length ip = 4%nat /\ is_bytes ip.

Lemma ntoa_text ip : ip4_ok ip -> dotted_text (inet_ntoa ip) /\ (length (inet_ntoa ip) <= 15)%nat /\ (1 <= length (inet_ntoa ip))%nat.
Proof.
  intros [Hl Hb]. destruct ip as [|a [|b [|c [|d [|]]]]]; try discriminate Hl. unfold is_bytes in Hb. rewrite !Forall_cons in Hb. destruct Hb as (Ha & Hb & Hc & Hd & _). unfold inet_ntoa. change (lit ".") with [46].
  pose proof (fmt_u_length 3 a). pose proof (fmt_u_length 3 b). pose proof (fmt_u_length 3 c). pose proof (fmt_u_length 3 d). split; [|rewrite !length_app; cbn [length]; lia].
  assert (Hdot : dotted_text [46]) by (constructor; [by left|constructor]). unfold dotted_text in *. rewrite !Forall_app. repeat (split; [first [exact Hdot | apply fmt_dotted; lia]|]). apply fmt_dotted. lia.
Qed.

(** A host and port as text. *)
Definition port_value (port : bytes) : Z := le_value (rev port).
Definition addr_text (a : BSocks.dest_addr) : bytes :=
  match a with
  | BSocks.ipv4 ip port => inet_ntoa ip ++ 58 :: fmt_u (port_value port)
  | BSocks.ipv6 ip port => 91 :: Ipaddr6.ipaddr6_print_addr ip ++ 93 :: 58 :: fmt_u (port_value port)
  end.
Definition port_ok (port : bytes) : Prop := length port = 2%nat /\ is_bytes port.
Definition addr_ok (a : BSocks.dest_addr) : Prop :=
  match a with
  | BSocks.ipv4 ip port => ip4_ok ip /\ port_ok port
  | BSocks.ipv6 ip port => Ipaddr6.addr_ok ip /\ port_ok port
  end.

Lemma port_back port : port_ok port -> 0 <= port_value port < 65536 /\ be_bytes 2 (port_value port) = port.
Proof.
  intros [Hl Hb]. destruct port as [|x [|y [|]]]; try discriminate Hl. unfold is_bytes in Hb. rewrite !Forall_cons in Hb. destruct Hb as (Hx & Hy & _). split; [unfold port_value; cbn; lia|]. unfold be_bytes, port_value. change 2%nat with (length (rev [x; y])). rewrite le_bytes_value; [done|]. cbn. repeat constructor; lia.
Qed.

Section Resolver.
Context (LONG_MAX : Z) (getaddrinfo : bool -> bool -> bytes -> option bytes).
(** The resolver takes numeric addresses as they are. *)
Context (numeric4 : forall n ip, ip4_ok ip -> getaddrinfo false n (inet_ntoa ip) = Some ip).
Context (numeric6 : forall n ip, Ipaddr6.addr_ok ip -> getaddrinfo true n (Ipaddr6.ipaddr6_print_addr ip) = Some ip).
Context (HMAX : 2 ^ 31 - 1 <= LONG_MAX).

Lemma split_text a : addr_ok a ->
  split_addr (addr_text a) = Some (match a with BSocks.ipv4 ip port => (false, inet_ntoa ip, fmt_u (port_value port)) | BSocks.ipv6 ip port => (true, Ipaddr6.ipaddr6_print_addr ip, fmt_u (port_value port)) end).
Proof.
  intros Ha. unfold split_addr. destruct a as [ip port|ip port]; destruct Ha as [Hip Hp]; cbn [addr_text].
  - destruct (ntoa_text ip Hip) as (Ht & _ & Hl). rewrite bool_decide_false; [|destruct (inet_ntoa ip) as [|c l]; [cbn in Hl; lia|]; apply Forall_cons in Ht as [Hc _]; cbn; intros [= ->]; lia].
    rewrite strchr_app; [done|]. intros Hin. unfold dotted_text in Ht. rewrite Forall_forall in Ht. apply Ht in Hin. lia.
  - rewrite bool_decide_true by done. cbn [tail]. rewrite strchr_app; [done|]. destruct (Ipaddr6.print_spec ip Hip) as [Ht _]. intros Hin. unfold Ipaddr6.address_text in Ht. rewrite Forall_forall in Ht. apply Ht in Hin. lia.
Qed.

Lemma parse2_text a : addr_ok a -> BAddr_Parse2 LONG_MAX getaddrinfo (addr_text a) None false = Some (a, None).
Proof.
  intros Ha. unfold BAddr_Parse2. cbv zeta. assert (Hlen : 1 <= zlen (addr_text a) <= 1000 /\ port_ok (match a with BSocks.ipv4 _ p | BSocks.ipv6 _ p => p end)).
  { destruct a as [ip port|ip port]; destruct Ha as [Hip Hp]; (split; [|done]); destruct (port_back port Hp) as [Hv _]; pose proof (fmt_u_length 5 (port_value port) ltac:(lia) ltac:(lia) ltac:(lia)); unfold zlen; cbn [addr_text].
    - destruct (ntoa_text ip Hip) as (_ & H1 & H2). rewrite length_app. cbn [length]. lia.
    - destruct (Ipaddr6.print_spec ip Hip) as [_ H1]. cbn [length]. rewrite length_app. cbn [length]. lia. }
  destruct Hlen as [Hlen Hport]. rewrite (proj2 (Z.ltb_ge _ _)), Z.gtb_ltb, (proj2 (Z.ltb_ge _ _)) by lia. cbn [orb]. rewrite split_text by done. destruct (port_back _ Hport) as [Hv Hb].
  assert (Hps : forall p, 0 <= p < 65536 -> (zlen (fmt_u p) >=? 6) = false /\ fmt_u p <> [] /\ strtol LONG_MAX (fmt_u p) = (p, [])).
  { intros p Hpr. pose proof (fmt_u_length 5 p ltac:(lia) ltac:(lia) ltac:(lia)). destruct (fmt_u_spec p ltac:(lia)) as (_ & _ & c & l & E & _). split; [unfold zlen; lia|]. split; [by rewrite E|]. apply strtol_fmt; lia. }
  destruct a as [ip port|ip port]; destruct Ha as [Hip _]; destruct (Hps _ Hv) as (P1 & P2 & P3); rewrite P1, P3, (bool_decide_false _ P2); cbn [orb negb].
  - destruct (ntoa_text ip Hip) as (_ & H1 & _). rewrite (bool_decide_true ([] = [])) by done. cbn [negb]. replace (zlen (inet_ntoa ip) >=? 128) with false by (unfold zlen; lia). rewrite (proj2 (Z.ltb_ge _ _)), Z.gtb_ltb, (proj2 (Z.ltb_ge _ _)) by lia. cbn [orb]. by rewrite numeric4, Hb.
  - destruct (Ipaddr6.print_spec ip Hip) as (_ & H1). rewrite (bool_decide_true ([] = [])) by done. cbn [negb]. replace (zlen (Ipaddr6.ipaddr6_print_addr ip) >=? 128) with false by (unfold zlen; lia). rewrite (proj2 (Z.ltb_ge _ _)), Z.gtb_ltb, (proj2 (Z.ltb_ge _ _)) by lia. cbn [orb]. by rewrite numeric6, Hb.
Qed.

Lemma resolve_text ip : ip4_ok ip -> BIPAddr_Resolve getaddrinfo (inet_ntoa ip) false = Some (bip_v4 ip).
Proof.
  intros Hip. destruct (ntoa_text ip Hip) as (Ht & H1 & H2). unfold BIPAddr_Resolve, bracketed. destruct (inet_ntoa ip) as [|c l] eqn:E; [cbn in H2; lia|]. apply Forall_cons in Ht as [Hc _]. destruct (Z.eqb_spec c 91); [lia|]. rewrite Z.gtb_ltb, (proj2 (Z.ltb_ge _ _)) by (unfold zlen, BADDR_MAX_ADDR_LEN; lia). rewrite <- E, numeric4 by done. done.
Qed.

End Resolver.

(** ** From a setup to the state of the program *)

(** What a caller wants: addresses for the device, the server, the size of packets, the path on
    which the device is handed over, the DNS server, the level of logging, a user with a password
    that may be in a file, and whether UDP is relayed. *)
Record setup := mk_setup {
  u_ip : bytes;
  u_server : BSocks.dest_addr;
  u_mtu : Z;
  u_sock : bytes;
  u_dns : option (bytes * bytes);
  u_level : nat;
  u_ip6 : option bytes;
  u_login : option (bytes * bytes * option bytes);
  u_udp : bool }.

Definition level_names : list bytes := [lit "none"; lit "error"; lit "warning"; lit "notice"; lit "info"; lit "debug"].

Definition settings_of (c : setup) : list setting :=
  [s_netif_ipaddr (inet_ntoa (u_ip c)); s_socks_server_addr (addr_text (u_server c)); s_tunmtu (fmt_u (u_mtu c)); s_sock_path (u_sock c)] ++
  match u_dns c with Some (ip, port) => [s_dnsgw (addr_text (BSocks.ipv4 ip port))] | None => [] end ++
  [s_loglevel (nth (u_level c) level_names [])] ++
  match u_ip6 c with Some a => [s_netif_ip6addr (Ipaddr6.ipaddr6_print_addr a)] | None => [] end ++
  match u_login c with
  | Some (u, p, None) => [s_username u; s_password p]
  | Some (u, _, Some f) => [s_username u; s_password_file f]
  | None => []
  end ++
  (if u_udp c then [s_enable_udprelay] else []).

Definition expected (M : Z) (channels : list bytes) (argv0 : bytes) (c : setup) : options :=
  mk_options false false LOGGER_STDOUT (lit "daemon") argv0 (parse_loglevel M (nth (u_level c) level_names [])) (replicate (length channels) (-1))
    (Some (inet_ntoa (u_ip c))) None (Ipaddr6.ipaddr6_print_addr <$> u_ip6 c) (Some (addr_text (u_server c)))
    (match u_login c with Some (u, _, _) => Some u | None => None end) (match u_login c with Some (_, p, None) => Some p | _ => None end)
    (match u_login c with Some (_, _, Some f) => Some f | _ => None end) false (if u_udp c then Some (lit "0.0.0.0:0") else None)
    DEFAULT_UDPGW_MAX_CONNECTIONS DEFAULT_UDPGW_CONNECTION_BUFFER_SIZE false (atoi M (fmt_u (u_mtu c))) false (Some (u_sock c)) None
    ((fun d => addr_text (BSocks.ipv4 (fst d) (snd d))) <$> u_dns c).

Lemma settings_expected M channels argv0 c : fold_left (apply M channels) (settings_of c) (default_options (length channels) argv0) = expected M channels argv0 c.
Proof. destruct c as [ip srv mtu sock [[dip dport]|] lev [a|] [[[u p] [f|]]|] []]; reflexivity. Qed.

(** What the program then works with. *)
Definition configured (c : setup) : globals :=
  mk_globals (Some (bip_v4 (u_ip c))) (default (replicate 16 0) (u_ip6 c)) (Some (u_server c))
    (BSocks.auth_none :: match u_login c with Some (u, p, _) => [BSocks.auth_password u p] | None => [] end)
    (match u_login c with Some (_, p, Some _) => Some p | _ => None end)
    (if u_udp c then Some (BSocks.ipv4 [0; 0; 0; 0] [0; 0]) else None)
    ((fun d => BSocks.ipv4 (fst d) (snd d)) <$> u_dns c).

Record setup_ok (SIZE_MAX : Z) (fs : bytes -> option file) (c : setup) : Prop := {
  su_ip : ip4_ok (u_ip c);
  su_server : addr_ok (u_server c);
  su_mtu : 0 < u_mtu c < 2 ^ 31;
  su_level : (u_level c <= 5)%nat;
  su_dns : forall ip port, u_dns c = Some (ip, port) -> ip4_ok ip /\ port_ok port;
  su_ip6 : forall a, u_ip6 c = Some a -> Ipaddr6.addr_ok a;
  su_file : forall u p f, u_login c = Some (u, p, Some f) -> fs f = Some (mk_file p None) /\ 2 * (zlen p + 128) <= SIZE_MAX }.

Lemma atoi_fmt M z : 0 <= z < 2 ^ 31 -> 2 ^ 31 - 1 <= M -> atoi M (fmt_u z) = z.
Proof. intros Hz HM. unfold atoi. rewrite strtol_fmt by lia. cbn [fst]. unfold i32. rewrite Z.mod_small by lia. lia. Qed.

Lemma level_back M n : (n <= 5)%nat -> parse_loglevel M (nth n level_names []) = Z.of_nat n.
Proof. intros Hn. do 6 (destruct n as [|n]; [reflexivity|]). lia. Qed.

Section Configured.
Context (LONG_MAX SIZE_MAX : Z) (alloc : Z -> bool) (getaddrinfo : bool -> bool -> bytes -> option bytes) (fs : bytes -> option file) (stack : bytes).
Context (numeric4 : forall n ip, ip4_ok ip -> getaddrinfo false n (inet_ntoa ip) = Some ip).
Context (numeric6 : forall n ip, Ipaddr6.addr_ok ip -> getaddrinfo true n (Ipaddr6.ipaddr6_print_addr ip) = Some ip).
Context (HMAX : 2 ^ 31 - 1 <= LONG_MAX) (Halloc : forall n, alloc n = true).

Lemma process_expected channels argv0 c : setup_ok SIZE_MAX fs c ->
  process_arguments LONG_MAX SIZE_MAX alloc getaddrinfo fs stack (expected LONG_MAX channels argv0 c) globals0 = ret true (configured c).
Proof.
  intros [H1 H2 _ _ H5 H6 H7]. unfold process_arguments. unfold process_ipaddr at 1. cbn [netif_ipaddr expected]. rewrite resolve_text by done. cbn [and_then].
  assert (E6 : forall g, g_netif_ip6addr g = replicate 16 0 -> process_ip6addr stack (expected LONG_MAX channels argv0 c) g = ret true (set_g_netif_ip6addr (default (replicate 16 0) (u_ip6 c)) g)).
  { intros g Hg. unfold process_ip6addr. cbn [netif_ip6addr expected]. destruct (u_ip6 c) as [a|]; cbn; [rewrite Ipaddr6.parse_print; [done|by apply H6|by rewrite Hg]|]. f_equal. destruct g. cbn in *. by subst. }
  rewrite E6 by done. cbn [and_then]. unfold process_server at 1. cbn [socks_server_addr expected]. rewrite parse2_text by done. cbn [and_then].
  assert (Ea : forall g, password_file_contents g = None -> process_auth SIZE_MAX alloc fs (expected LONG_MAX channels argv0 c) g = ret true (set_password_file_contents (password_file_contents (configured c)) (set_socks_auth_info (socks_auth_info (configured c)) g))).
  { intros g Hg. unfold process_auth. cbn [username password password_file expected]. cbv zeta. unfold configured. cbn [socks_auth_info password_file_contents]. destruct (u_login c) as [[[u p] [f|]]|] eqn:El; [|destruct g; cbn in *; by subst..].
    destruct (H7 u p f eq_refl) as [Ef Hs]. unfold read_file. rewrite Ef, Halloc. pose proof (read_whole SIZE_MAX alloc p (S (S (length p))) Halloc Hs 0 128) as Hr. rewrite take_0 in Hr. cbn [contents]. rewrite Hr by (unfold zlen; lia). done. }
  rewrite Ea by done. cbn [and_then]. assert (Eu : forall g, g_udpgw_remote_server_addr g = None -> process_udpgw LONG_MAX getaddrinfo (expected LONG_MAX channels argv0 c) g = ret true (set_g_udpgw_remote_server_addr (g_udpgw_remote_server_addr (configured c)) g)).
  { intros g Hg. unfold process_udpgw. cbn [udpgw_remote_server_addr expected]. unfold configured. cbn [g_udpgw_remote_server_addr]. destruct (u_udp c); [|destruct g; cbn in *; by subst].
    change (lit "0.0.0.0:0") with (addr_text (BSocks.ipv4 [0; 0; 0; 0] [0; 0])). rewrite parse2_text; [done..|]. split; (split; [done|]); repeat (apply Forall_cons_2; [lia|]); apply Forall_nil_2. }
  rewrite Eu by done. cbn [and_then]. unfold process_dnsgw. cbn [dnsgw expected]. unfold configured. destruct (u_dns c) as [[ip port]|] eqn:Ed; cbn [fmap option_fmap option_map]; [|done]. destruct (H5 ip port eq_refl) as [Hip Hp]. cbn [fst snd]. rewrite parse2_text; done.
Qed.

(** C34: A setup written as a command line configures the program as it says: the command line
    is accepted, and [process_arguments] succeeds and leaves the addresses of the device, of the
    server and of the DNS server, the user and the password (from the command line or from a file),
    and the relaying of UDP in the globals, and the size of packets, the path and the level in the
    options. The resolver of the system must take numeric addresses as they are, and memory must
    not run out. *)
Theorem setup_configures channels argv0 c : setup_ok SIZE_MAX fs c ->
  exists o, parse_arguments LONG_MAX channels (argv0 :: (settings_of c ≫= render)) = Some o /\
    process_arguments LONG_MAX SIZE_MAX alloc getaddrinfo fs stack o globals0 = ret true (configured c) /\
    tun_mtu o = u_mtu c /\ sock_path o = Some (u_sock c) /\ loglevel o = Z.of_nat (u_level c).
Proof.
  intros H. exists (expected LONG_MAX channels argv0 c). pose proof (su_mtu _ _ _ H) as Hm. pose proof (level_back LONG_MAX _ (su_level _ _ _ H)) as Hl. pose proof (atoi_fmt LONG_MAX (u_mtu c) ltac:(lia) HMAX) as Ea. split.
  - unfold parse_arguments. rewrite parse_settings, settings_expected; [cbn [mbind option_bind]; by destruct c as [? ? ? ? ? ? ? [[[? ?] [|]]|] ?]|]. unfold settings_of. cbn [app]. repeat (apply Forall_cons_2; [cbn [setting_ok]; first [exact I|lia]|]).
    apply Forall_app. split; [destruct (u_dns c) as [[? ?]|]; repeat constructor|]. apply Forall_cons_2; [cbn [setting_ok]; lia|]. apply Forall_app. split; [destruct (u_ip6 c); repeat constructor|].
    apply Forall_app. split; [destruct (u_login c) as [[[? ?] [|]]|]; repeat constructor|destruct (u_udp c); repeat constructor].
  - split; [by apply process_expected|]. cbn [tun_mtu sock_path loglevel expected]. by rewrite Ea, Hl.
Qed.

End Configured.

(** A resolver of numeric addresses only. *)
Definition numeric_resolver (is_v6 noresolve : bool) (s : bytes) : option bytes :=
  if is_v6 then match Ipaddr6.ipaddr6_parse_ipv6_addr s (replicate 16 0) (replicate 4 0) with Ipaddr6.One a => Some a | _ => None end
  else inet_aton (2 ^ 32 - 1) s.

(** The command line that the VPN service of the application builds (VpnService.kt), with a user
    whose password is in a file. *)
Lemma setup_configures_witness :
  let fs := fun name => if bool_decide (name = lit "secret") then Some (mk_file (lit "hunter2") None) else None in
  let c := mk_setup [172; 19; 0; 2] (BSocks.ipv4 [127; 0; 0; 1] [4; 56]) 1500 (lit "sock_path") (Some ([127; 0; 0; 1], [21; 74])) 2
             (Some [253; 254; 220; 186; 152; 118; 0; 0; 0; 0; 0; 0; 0; 0; 0; 2]) (Some (lit "user", lit "hunter2", Some (lit "secret"))) true in
  settings_of c ≫= render =
    [lit "--netif-ipaddr"; lit "172.19.0.2"; lit "--socks-server-addr"; lit "127.0.0.1:1080"; lit "--tunmtu"; lit "1500"; lit "--sock-path"; lit "sock_path"; lit "--dnsgw"; lit "127.0.0.1:5450";
     lit "--loglevel"; lit "warning"; lit "--netif-ip6addr"; lit "fdfe:dcba:9876::2"; lit "--username"; lit "user"; lit "--password-file"; lit "secret"; lit "--enable-udprelay"] /\
  exists o, parse_arguments (2 ^ 31 - 1) [lit "tun2socks"] (lit "tun2socks" :: (settings_of c ≫= render)) = Some o /\
    process_arguments (2 ^ 31 - 1) (2 ^ 32 - 1) (fun _ => true) numeric_resolver fs (replicate 4 0) o globals0 = ret true (configured c).
Proof.
  intros fs c. split; [vm_compute; reflexivity|].
  destruct (setup_configures (2 ^ 31 - 1) (2 ^ 32 - 1) (fun _ => true) numeric_resolver fs (replicate 4 0)) with (channels := [lit "tun2socks"]) (argv0 := lit "tun2socks") (c := c) as (o & H1 & H2 & _).
  - intros n ip [Hl Hb]. apply inet_aton_ntoa; [exact Hl|exact Hb|lia].
  - intros n ip Hip. unfold numeric_resolver. rewrite Ipaddr6.parse_print; [reflexivity|exact Hip|reflexivity].
  - lia.
  - reflexivity.
  - split.
    + split; [reflexivity|]. repeat (apply Forall_cons_2; [lia|]). apply Forall_nil_2.
    + split; (split; [reflexivity|]); repeat (apply Forall_cons_2; [lia|]); apply Forall_nil_2.
    + cbn. lia.
    + cbn. lia.
    + intros ip port [= <- <-]. split; (split; [reflexivity|]); repeat (apply Forall_cons_2; [lia|]); apply Forall_nil_2.
    + intros a [= <-]. split; [reflexivity|]. repeat (apply Forall_cons_2; [lia|]). apply Forall_nil_2.
    + intros u p f [= <- <- <-]. split; [reflexivity|]. vm_compute. discriminate.
  - exists o. split; [exact H1|exact H2].
Defined.

(** ** Differences *)

(** The option [--tunfd] of the help is not one that is read. *)
Lemma tunfd_refused M channels argv0 fd args : parse_arguments M channels (argv0 :: lit "--tunfd" :: fd :: args) = None.
Proof. reflexivity. Qed.

(** An IPv6 address that was printed is not read back: there are no brackets around it. *)
Lemma printed_ip6_not_read : forall gai, let a := BSocks.ipv6 [32; 1; 13; 184; 0; 0; 0; 0; 0; 0; 0; 0; 0; 0; 0; 1] [4; 56] in
  BAddr_Print a = lit "2001:db8:0:0:0:0:0:1:1080" /\ BAddr_Parse2 (2 ^ 31 - 1) gai (BAddr_Print a) None false = None.
Proof. intros gai a. split; vm_compute; reflexivity. Qed.

(** ** Accepted options can be processed *)

(** What the globals hold after the options were processed. *)
Record globals_ok (o : options) (g : globals) : Prop := {
  go_ip : exists ip, g_netif_ipaddr g = Some (bip_v4 ip);
  go_ip6 : Ipaddr6.addr_ok (g_netif_ip6addr g);
  go_server : g_socks_server_addr g <> None;
  go_auth : (1 <= length (socks_auth_info g) <= 2)%nat;
  go_udpgw : udpgw_remote_server_addr o <> None -> g_udpgw_remote_server_addr g <> None;
  go_dnsgw : forall ip port, g_dnsgw g <> Some (BSocks.ipv6 ip port) }.

Section Processed.
Context (LONG_MAX SIZE_MAX : Z) (alloc : Z -> bool) (getaddrinfo : bool -> bool -> bytes -> option bytes) (fs : bytes -> option file) (stack : bytes).
Context (Hstack : length stack = 4%nat /\ is_bytes stack).

Definition outcome_ok (P : globals -> Prop) (r : outcome) : Prop := match r with crash => False | ret true g => P g | ret false _ => True end.

Lemma and_then_ok (P Q : globals -> Prop) r k : outcome_ok P r -> (forall g, P g -> outcome_ok Q (k g)) -> outcome_ok Q (and_then r k).
Proof. destruct r as [|[] g]; cbn; auto. Qed.

Lemma read_file_ends name : read_file SIZE_MAX alloc fs name <> None.
Proof. unfold read_file. destruct (fs name) as [f|]; [|done]. destruct (alloc 128); [|done]. apply read_loop_ends. cbn [length]. lia. Qed.

Lemma processed_ok o : runnable o -> help o = false -> version o = false ->
  outcome_ok (globals_ok o) (process_arguments LONG_MAX SIZE_MAX alloc getaddrinfo fs stack o globals0).
Proof.
  intros [Hr|[Hr|(H1 & H2 & H3)]] Hh Hv; [congruence..|]. unfold process_arguments.
  eapply and_then_ok with (P := fun g => (exists ip, g_netif_ipaddr g = Some (bip_v4 ip)) /\ g_netif_ip6addr g = replicate 16 0 /\ g_dnsgw g = None).
  { unfold process_ipaddr. destruct (netif_ipaddr o) as [s|]; [|done]. destruct (BIPAddr_Resolve _ _ _) as [[ip|ip]|]; cbn; eauto. }
  intros g1 (I1 & I2 & I3). eapply and_then_ok with (P := fun g => (exists ip, g_netif_ipaddr g = Some (bip_v4 ip)) /\ Ipaddr6.addr_ok (g_netif_ip6addr g) /\ g_dnsgw g = None).
  { assert (Hz : Ipaddr6.addr_ok (g_netif_ip6addr g1)) by (rewrite I2; split; [done|apply Forall_replicate; lia]). unfold process_ip6addr. destruct (netif_ip6addr o) as [s|]; [|done]. pose proof (Ipaddr6.parse_sat s (g_netif_ip6addr g1) stack Hz (proj1 Hstack) (proj2 Hstack)) as Hs.
    destruct (Ipaddr6.ipaddr6_parse_ipv6_addr _ _ _); cbn in *; eauto. }
  intros g2 (I4 & I5 & I6). eapply and_then_ok with (P := fun g => (exists ip, g_netif_ipaddr g = Some (bip_v4 ip)) /\ Ipaddr6.addr_ok (g_netif_ip6addr g) /\ g_dnsgw g = None /\ g_socks_server_addr g <> None).
  { unfold process_server. destruct (socks_server_addr o) as [s|]; [|done]. destruct (BAddr_Parse2 _ _ _ _ _) as [[a ?]|]; cbn; [|done]. split_and!; try done. }
  intros g3 (I7 & I8 & I9 & I10). eapply and_then_ok with (P := fun g => (exists ip, g_netif_ipaddr g = Some (bip_v4 ip)) /\ Ipaddr6.addr_ok (g_netif_ip6addr g) /\ g_dnsgw g = None /\ g_socks_server_addr g <> None /\ (1 <= length (socks_auth_info g) <= 2)%nat).
  { unfold process_auth. destruct (username o) as [u|]; cbn; [|split_and!; try done; lia]. destruct (password o) as [p|]; cbn; [split_and!; try done; lia|]. destruct (password_file o) as [f|]; [|by destruct H3 as [[H _]|[_ H]]].
    pose proof (read_file_ends f) as Hf. destruct (read_file _ _ _ f) as [[p|]|]; cbn; [split_and!; try done; lia|done|done]. }
  intros g4 (I11 & I12 & I13 & I14 & I15). eapply and_then_ok with (P := fun g => (exists ip, g_netif_ipaddr g = Some (bip_v4 ip)) /\ Ipaddr6.addr_ok (g_netif_ip6addr g) /\ g_dnsgw g = None /\ g_socks_server_addr g <> None /\ (1 <= length (socks_auth_info g) <= 2)%nat /\ (udpgw_remote_server_addr o <> None -> g_udpgw_remote_server_addr g <> None)).
  { unfold process_udpgw. destruct (udpgw_remote_server_addr o) as [s|]; [|done]. destruct (BAddr_Parse2 _ _ _ _ _) as [[a ?]|]; done. }
  intros g5 (J1 & J2 & J3 & J4 & J5 & J6). unfold process_dnsgw. destruct (dnsgw o) as [s|]; [|split; try done; intros ip port; by rewrite J3]. destruct (BAddr_Parse2 _ _ _ _ _) as [[[ip port|ip port] ?]|]; cbn; [by split|done|done].
Qed.

End Processed.

End TunOptions.
