(* ===== verification/Ancillary.v ===== *)
(** * Descriptors passed between processes: libancillary, fd_send.c and fd_recv.c

    The application hands the device to tun2socks over a Unix socket, as ancillary data of a
    message of one byte. [H] is the size of a header of such data, which depends on the machine.
    What [recvmsg] does to the control buffer is an argument; [deliver] is what the system does
    with a message that was sent. *)

From S2P Require Import Prelude.
Open Scope Z_scope.

Module Ancillary.

(** A control buffer: [cmsg_len] of its header, and the integers behind it. *)
Record control := mk_control { cmsg_len : Z; cmsg_data : list Z }.

(** [recvmsg] fails, receives a message without ancillary data and leaves the buffer as it is, or
    writes descriptors into it. *)
Inductive received := r_error | r_plain | r_rights (fds : list Z).

Definition ANCIL_MAX_N_FDS : Z := 960.

Section Ancil.
Context (H : Z).

Definition ancil_send_fds_with_buffer (fds : list Z) : control := mk_control (H + 4 * zlen fds) fds.
Definition ancil_send_fd (fd : Z) : control := ancil_send_fds_with_buffer [fd].

(** The descriptors for which there is room in a buffer for [n]. *)
Definition recvmsg (n : nat) (r : received) (c : control) : option control :=
  match r with
  | r_error => None
  | r_plain => Some c
  | r_rights fds => let l := take n fds in Some (mk_control (H + 4 * zlen l) (l ++ drop (length l) (cmsg_data c)))
  end.

(** The value returned and [fds] after it, which are [old] before. *)
Definition ancil_recv_fds_with_buffer (n_fds : nat) (r : received) (old : list Z) : Z * list Z :=
  let c := mk_control (H + 4 * Z.of_nat n_fds) (replicate n_fds (-1)) in
  match recvmsg n_fds r c with
  | None => (-1, old)
  | Some c => ((cmsg_len c - H) / 4, take n_fds (cmsg_data c))
  end.
Definition ancil_recv_fds (n_fds : nat) (r : received) (old : list Z) : option (Z * list Z) :=
  if Z.of_nat n_fds <=? ANCIL_MAX_N_FDS then Some (ancil_recv_fds_with_buffer n_fds r old) else None.
Definition ancil_recv_fd (r : received) (fd : Z) : Z * Z :=
  let '(n, fds) := ancil_recv_fds_with_buffer 1 r [fd] in (if n =? 1 then 0 else -1, hd fd fds).

(** The system gives the receiver descriptors of its own for those that were sent. *)
Definition deliver (dup : Z -> Z) (c : control) : received :=
  match take (Z.to_nat ((cmsg_len c - H) / 4)) (cmsg_data c) with [] => r_plain | l => r_rights (dup <$> l) end.

Lemma quarter k : (H + 4 * k - H) / 4 = k.
Proof. replace (H + 4 * k - H) with (k * 4) by lia. apply Z.div_mul. lia. Qed.

(** What was sent is received: as many descriptors as there is room for, in their order, and -1
    behind them; one descriptor is received as that one. *)
Theorem descriptors_passed dup fds n old : fds <> [] ->
  ancil_recv_fds_with_buffer n (deliver dup (ancil_send_fds_with_buffer fds)) old =
    (Z.of_nat (min n (length fds)), take n (dup <$> fds) ++ replicate (n - length fds) (-1)).
Proof.
  intros Hf. unfold ancil_recv_fds_with_buffer, deliver, ancil_send_fds_with_buffer. cbn [cmsg_len cmsg_data]. rewrite quarter. unfold zlen. rewrite Nat2Z.id, firstn_all. destruct fds as [|x fds]; [done|]. set (l := x :: fds) in *. cbn [recvmsg].
  cbn [cmsg_len cmsg_data]. rewrite quarter. unfold zlen. rewrite length_take, length_fmap. f_equal. rewrite take_app_ge by (rewrite ?length_take, ?length_fmap; lia). f_equal. rewrite drop_replicate, take_ge; [f_equal|rewrite length_replicate]; rewrite ?length_take, ?length_fmap; lia.
Qed.

Lemma descriptor_passed dup fd old : ancil_recv_fd (deliver dup (ancil_send_fd fd)) old = (0, dup fd).
Proof. unfold ancil_recv_fd, ancil_send_fd. by rewrite descriptors_passed. Qed.

(** A message without descriptors is taken for one with as many as there is room for, all -1. *)
Lemma none_counted_as_received n old : ancil_recv_fds_with_buffer n r_plain old = (Z.of_nat n, replicate n (-1)).
Proof. unfold ancil_recv_fds_with_buffer. cbn [recvmsg cmsg_len cmsg_data]. rewrite quarter. by rewrite take_ge by (by rewrite length_replicate). Qed.

Lemma nothing_received old : ancil_recv_fd r_plain old = (0, -1).
Proof. unfold ancil_recv_fd. by rewrite none_counted_as_received. Qed.

End Ancil.

End Ancillary.
