(* ===== verification/TunMain.v ===== *)
(** * The program of tun2socks: main and the jobs of tun2socks.c (badvpn)

    How the Android build of tun2socks starts, runs and stops: the handing over of the device
    ([wait_for_fd]), [daemonize], [main] with its chain of labels for failures, the job that starts
    lwIP, the timer, and the handlers that end the event loop.

    What was initialised and not yet freed is a list. Each resource has a level, and is made only
    on top of lower ones and released only when no higher one is held; a step that breaks this,
    releases something that is not held, fails an assertion or writes outside memory is [None].
    Clients and the connections of lwIP come and go in any order, but all of them have to be gone
    before what they rest on. The descriptors the process has received are counted apart, since
    nothing rests on a level there. What the system, lwIP and the other modules answer are
    arguments. *)

From S2P Require Import Prelude CLib BSocks BAVL Ipaddr6 TunOptions Ancillary.
Import TunOptions.
Open Scope Z_scope.

Module TunMain.

(** ** Resources *)

Inductive resource :=
| Log | Password | Reactor | Signal | Device | ReadInterface | ReadBuffer | Udpgw | InitJob | WriteBuffer | Timer
| Netif | Pcb | Listener | Pcb6 | Listener6 | Client (i : nat) | Tcp (i : nat).

#[export] Instance resource_eq_dec : EqDecision resource.
Proof. solve_decision. Defined.

Definition level (r : resource) : nat :=
  match r with
  | Log => 0 | Password => 1 | Reactor => 2 | Signal => 3 | Device => 4 | ReadInterface => 5 | ReadBuffer => 6 | Udpgw => 7 | InitJob => 8
  | WriteBuffer => 9 | Timer => 10 | Netif => 11 | Pcb | Listener => 12 | Pcb6 | Listener6 => 13 | Client _ => 14 | Tcp _ => 11
  end.

(** A client, and a connection of lwIP that belongs to no client. *)
Definition dynamic (r : resource) : bool := match r with Client _ | Tcp _ => true | _ => false end.

Definition acquire (r : resource) (h : list resource) : option (list resource) :=
  if bool_decide (r ∉ h) && (dynamic r || forallb (fun x => (level x <? level r)%nat) h) then Some (r :: h) else None.
Definition release (r : resource) (h : list resource) : option (list resource) :=
  if bool_decide (r ∈ h) && (dynamic r || forallb (fun x => (level x <=? level r)%nat) h) then Some (filter (fun x => x <> r) h) else None.
Definition assert (b : bool) : option unit := if b then Some tt else None.

(** ** The event loop *)

(** What lwIP answers to the job that starts it. *)
Record lwip := mk_lwip { l_netif_add : bool; l_new : bool; l_bind : bool; l_listen : bool; l_new6 : bool; l_bind6 : bool; l_listen6 : bool }.

(** The lists of lwIP on which a connection may be. *)
Inductive pcb_list := tcp_bound_pcbs | tcp_active_pcbs | tcp_tw_pcbs.

#[export] Instance pcb_list_eq_dec : EqDecision pcb_list.
Proof. solve_decision. Defined.

(** [pcbs] are the connections on these lists that belong to no client: one that was not yet
    accepted, or whose client is gone. *)
Record loop := mk_loop {
  quitting : bool;
  have_netif : bool;
  listener : bool;
  listener_ip6 : bool;
  tcp_timer_mod4 : Z;
  tcp_tmr_calls : Z;
  second_calls : Z;
  init_job : bool;
  tcp_clients : list nat;
  pcbs : list (pcb_list * nat);
  held : list resource }.

Definition set_quitting b l := mk_loop b (have_netif l) (listener l) (listener_ip6 l) (tcp_timer_mod4 l) (tcp_tmr_calls l) (second_calls l) (init_job l) (tcp_clients l) (pcbs l) (held l).
Definition set_have_netif b l := mk_loop (quitting l) b (listener l) (listener_ip6 l) (tcp_timer_mod4 l) (tcp_tmr_calls l) (second_calls l) (init_job l) (tcp_clients l) (pcbs l) (held l).
Definition set_listener b l := mk_loop (quitting l) (have_netif l) b (listener_ip6 l) (tcp_timer_mod4 l) (tcp_tmr_calls l) (second_calls l) (init_job l) (tcp_clients l) (pcbs l) (held l).
Definition set_listener_ip6 b l := mk_loop (quitting l) (have_netif l) (listener l) b (tcp_timer_mod4 l) (tcp_tmr_calls l) (second_calls l) (init_job l) (tcp_clients l) (pcbs l) (held l).
Definition set_timer m t s l := mk_loop (quitting l) (have_netif l) (listener l) (listener_ip6 l) m t s (init_job l) (tcp_clients l) (pcbs l) (held l).
Definition set_init_job b l := mk_loop (quitting l) (have_netif l) (listener l) (listener_ip6 l) (tcp_timer_mod4 l) (tcp_tmr_calls l) (second_calls l) b (tcp_clients l) (pcbs l) (held l).
Definition set_clients c l := mk_loop (quitting l) (have_netif l) (listener l) (listener_ip6 l) (tcp_timer_mod4 l) (tcp_tmr_calls l) (second_calls l) (init_job l) c (pcbs l) (held l).
Definition set_pcbs c l := mk_loop (quitting l) (have_netif l) (listener l) (listener_ip6 l) (tcp_timer_mod4 l) (tcp_tmr_calls l) (second_calls l) (init_job l) (tcp_clients l) c (held l).
Definition set_held h l := mk_loop (quitting l) (have_netif l) (listener l) (listener_ip6 l) (tcp_timer_mod4 l) (tcp_tmr_calls l) (second_calls l) (init_job l) (tcp_clients l) (pcbs l) h.

Definition get (r : resource) (l : loop) : option loop := h ← acquire r (held l); Some (set_held h l).
Definition put (r : resource) (l : loop) : option loop := h ← release r (held l); Some (set_held h l).

Definition terminate (l : loop) : option loop := _ ← assert (negb (quitting l)); Some (set_quitting true l).

(** The label [fail] of the job. *)
Definition init_failed (l : loop) : option loop := if negb (quitting l) then terminate l else Some l.

(** The second half: the listener for IPv6. *)
Definition init_ip6 (r : lwip) (l : loop) : option loop :=
  if negb (l_new6 r) then init_failed l else
  l ← get Pcb6 l;
  if negb (l_bind6 r) then l ← put Pcb6 l; init_failed l else
  if negb (l_listen6 r) then l ← put Pcb6 l; init_failed l else
  l ← put Pcb6 l; l ← get Listener6 l;
  Some (set_listener_ip6 true l).

(** [has_ip6]: an IPv6 address was given. *)
Definition lwip_init_job_hadler (has_ip6 : bool) (g : globals) (r : lwip) (l : loop) : option loop :=
  _ ← assert (negb (quitting l));
  _ ← assert (match g_netif_ipaddr g with Some (bip_v4 _) => true | _ => false end);
  _ ← assert (negb (have_netif l));
  _ ← assert (negb (listener l));
  _ ← assert (negb (listener_ip6 l));
  if negb (l_netif_add r) then init_failed l else
  l ← get Netif l;
  let l := set_have_netif true l in
  if negb (l_new r) then init_failed l else
  l ← get Pcb l;
  if negb (l_bind r) then l ← put Pcb l; init_failed l else
  if negb (l_listen r) then l ← put Pcb l; init_failed l else
  l ← put Pcb l; l ← get Listener l;
  let l := set_listener true l in
  if has_ip6 then init_ip6 r l else Some l.

(** The timer of a quarter of a second: lwIP's TCP timer, and the others at every fourth. *)
Definition tcp_timer_handler (l : loop) : option loop :=
  _ ← assert (negb (quitting l));
  let m := (tcp_timer_mod4 l + 1) mod 4 in
  Some (set_timer m (tcp_tmr_calls l + 1) (if m =? 0 then second_calls l + 1 else second_calls l) l).

Definition signal_handler (l : loop) : option loop := _ ← assert (negb (quitting l)); terminate l.
Definition device_error_handler (l : loop) : option loop := _ ← assert (negb (quitting l)); terminate l.

Inductive event := ev_init (r : lwip) | ev_timer | ev_signal | ev_device_error | ev_client (i : nat) | ev_client_gone (i : nat)
| ev_pcb (w : pcb_list) (i : nat) | ev_pcb_moved (w : pcb_list) (i : nat) | ev_pcb_gone (i : nat).

(** One turn of [BReactor_Exec]: nothing runs when the loop was told to end, and pending jobs run
    before anything else. Clients come from a listener (the TCP side is modelled in Tun2socks); lwIP
    has connections of its own, moves them between its lists and frees them. *)
Definition turn (has_ip6 : bool) (g : globals) (l : loop) (e : event) : option loop :=
  if quitting l then Some l
  else if init_job l then match e with ev_init r => lwip_init_job_hadler has_ip6 g r (set_init_job false l) | _ => Some l end
  else match e with
       | ev_init _ => Some l
       | ev_timer => tcp_timer_handler l
       | ev_signal => signal_handler l
       | ev_device_error => device_error_handler l
       | ev_client i =>
           if listener l && bool_decide (i ∉ tcp_clients l) then l ← get (Client i) l; Some (set_clients (i :: tcp_clients l) l) else Some l
       | ev_client_gone i =>
           if bool_decide (i ∈ tcp_clients l) then l ← put (Client i) l; Some (set_clients (filter (fun j => j <> i) (tcp_clients l)) l) else Some l
       | ev_pcb w i =>
           if listener l && bool_decide (i ∉ snd <$> pcbs l) then l ← get (Tcp i) l; Some (set_pcbs ((w, i) :: pcbs l) l) else Some l
       | ev_pcb_moved w i =>
           if bool_decide (i ∈ snd <$> pcbs l) then Some (set_pcbs ((w, i) :: filter (fun q => snd q <> i) (pcbs l)) l) else Some l
       | ev_pcb_gone i =>
           if bool_decide (i ∈ snd <$> pcbs l) then l ← put (Tcp i) l; Some (set_pcbs (filter (fun q => snd q <> i) (pcbs l)) l) else Some l
       end.

Fixpoint run_events (has_ip6 : bool) (g : globals) (es : list event) (l : loop) : option loop :=
  match es with
  | [] => Some l
  | e :: es => l ← turn has_ip6 g l e; run_events has_ip6 g es l
  end.

(** ** The device *)

(** What the system answers in [wait_for_fd], and what is in the variable [fd] before. *)
Record fd_env := mk_fd_env {
  f_socket : bool; f_bind : bool; f_listen : bool; f_select : bool; f_accept : bool;
  f_recvmsg : Ancillary.received; f_cmsghdr : Z; f_garbage : Z }.

(** The descriptors [recvmsg] makes in the process: there is room for one. *)
Definition installed (r : Ancillary.received) : list Z := match r with Ancillary.r_rights fds => take 1 fds | _ => [] end.

(** The value returned, how many sockets are left open, and the descriptors that were received. *)
Definition wait_for_fd (e : fd_env) : Z * Z * list Z :=
  let fd := f_garbage e in
  if negb (f_socket e) then (-1, 0, [])
  else
    let open := 1 in
    if negb (f_bind e) then (-1, open - 1, [])
    else if negb (f_listen e) then (-1, open - 1, [])
    else
      let '(fd, open, d) :=
        if negb (f_select e) then (fd, open, [])
        else if negb (f_accept e) then (fd, open, [])
        else
          let open := open + 1 in
          let '(error, fd) := Ancillary.ancil_recv_fd (f_cmsghdr e) (f_recvmsg e) fd in
          if negb (error =? 0) then (fd, open - 1, installed (f_recvmsg e)) else (fd, open - 1, installed (f_recvmsg e)) in
      (fd, open - 1, d).

(** ** Background *)

(** [fork] and what follows in [daemonize]. *)
Record fork_env := mk_fork_env { k_fork : Z; k_fopen : bool; k_setsid : bool; k_chdir : bool }.

(** The status with which the process exits, when it does. *)
Definition daemonize (e : fork_env) : option Z :=
  if k_fork e <? 0 then Some 1
  else if k_fork e >? 0 then if k_fopen e then Some 0 else Some 1
  else if negb (k_setsid e) then Some 1
  else if negb (k_chdir e) then Some 1
  else None.

(** ** Sizes of UDP packets *)

(** [udpgw_compute_mtu]: the header and the larger kind of address, when the sum is an [int]. *)
Definition udpgw_compute_mtu (dgram_mtu : Z) : Z :=
  let s := 4 + (Z.max 6 18 + dgram_mtu) in if s <=? 2 ^ 31 - 1 then s else -1.
Definition PACKETPROTO_MAXPAYLOAD : Z := 65535.
Definition compute_udp_mtu (mtu : Z) (has_ip6 : bool) : Z :=
  let udp_mtu := mtu - (20 + 8) in
  let udp_mtu := if has_ip6 then let udp_ip6_mtu := mtu - (40 + 8) in if udp_mtu <? udp_ip6_mtu then udp_ip6_mtu else udp_mtu else udp_mtu in
  if udp_mtu <? 0 then 0 else udp_mtu.

(** ** [main] *)

Record env := mk_env {
  e_syslog : bool; e_fd : fd_env; e_fork : fork_env; e_network : bool; e_reactor : bool; e_signal : bool; e_tap : bool;
  e_read_buffer : bool; e_udpgw : bool; e_write_buf : bool; e_events : list event }.

(** [returned]: the status, what is still held, and the descriptors still open; [exited]: the process ended in [daemonize];
    [running]: the loop goes on after the events. *)
Inductive result := returned (status : Z) (h : list resource) (d : list Z) | exited (status : Z) | running (levels : list Z) (udp_mtu : option Z) (l : loop).

(** [close_fd] of the device: [BTap_Init2] clears it for a descriptor that it is given
    ([BTAP_INIT_FD]), and [BTap_Free] then leaves the descriptor open. *)
Definition close_fd : bool := false.
Definition BTap_Free (d : list Z) : list Z := if close_fd then [] else d.

(** The labels of [main]; [d] are the descriptors received. *)
Definition fail0 (h : list resource) (d : list Z) : option result := Some (returned 1 h d).
Definition fail1 (g : globals) (h : list resource) (d : list Z) : option result :=
  h ← (match password_file_contents g with Some _ => release Password h | None => Some h end);
  h ← release Log h; fail0 h d.
Definition fail2 (g : globals) (h : list resource) (d : list Z) : option result := h ← release Reactor h; fail1 g h d.
Definition fail3 (g : globals) (h : list resource) (d : list Z) : option result := h ← release Signal h; fail2 g h d.
Definition fail4 (g : globals) (h : list resource) (d : list Z) : option result :=
  h ← release ReadInterface h; h ← release Device h; fail3 g h (BTap_Free d).
Definition fail4a (g : globals) (h : list resource) (d : list Z) : option result := h ← release ReadBuffer h; fail4 g h d.
Definition fail5 (o : options) (g : globals) (h : list resource) (d : list Z) : option result :=
  h ← release InitJob h;
  h ← (if is_set (udpgw_remote_server_addr o) then release Udpgw h else Some h);
  fail4a g h d.

Fixpoint release_all (rs : list resource) (h : list resource) : option (list resource) :=
  match rs with
  | [] => Some h
  | r :: rs => h ← release r h; release_all rs h
  end.
Definition murder_clients (cs : list nat) (h : list resource) : option (list resource) := release_all (Client <$> cs) h.

(** [tcp_abort] of each connection of a list. None has a callback left that it could call: those of
    clients were cleared, and the others never had one. *)
Definition tcp_remove (w : pcb_list) (ps : list (pcb_list * nat)) (h : list resource) : option (list resource) :=
  release_all (Tcp <$> (snd <$> filter (fun q => fst q = w) ps)) h.

(** The tree of ports at the top of tun2socks.c: static memory, and [insert_connection] is called
    nowhere, so it is empty when [free_connections] looks at it, and one round is enough. *)
#[local] Existing Instances BAVL.M_ret BAVL.M_bind.
Definition connections_tree : BAVL.BAVL := BAVL.mk_BAVL None ∅.
Fixpoint free_connections (fuel : nat) : BAVL.M unit :=
  match fuel with
  | O => fun _ => None
  | S fuel =>
      empty ← BAVL.BAVL_IsEmpty;
      if (empty : bool) then mret tt
      else
        last ← BAVL.BAVL_GetLast (S fuel);
        match last with
        | None => fun _ => None
        | Some con => BAVL.BAVL_Remove (S fuel) con;; free_connections fuel
        end
  end.

(** Behind the event loop. *)
Definition tear_down (o : options) (g : globals) (l : loop) (d : list Z) : option result :=
  h ← murder_clients (tcp_clients l) (held l);
  h ← (if listener_ip6 l then release Listener6 h else Some h);
  h ← (if listener l then release Listener h else Some h);
  h ← (if have_netif l then release Netif h else Some h);
  h ← tcp_remove tcp_bound_pcbs (pcbs l) h;
  h ← tcp_remove tcp_active_pcbs (pcbs l) h;
  h ← tcp_remove tcp_tw_pcbs (pcbs l) h;
  _ ← free_connections 1 connections_tree;
  h ← release Timer h;
  h ← release WriteBuffer h;
  fail5 o g h d.

(** The levels of the channels: what the options say, else the default ones. *)
Definition channel_levels (defaults : list Z) (o : options) : list Z :=
  zip_with (fun d x => if x >=? 0 then x else if loglevel o >=? 0 then loglevel o else d) defaults (loglevels o).

Definition FAKE_NAME : bytes := lit "com.github.shadowsocks".

Section Main.
Context (LONG_MAX SIZE_MAX : Z) (alloc : Z -> bool) (getaddrinfo : bool -> bool -> bytes -> option bytes) (fs : bytes -> option file) (stack : bytes).
Context (channels : list bytes) (defaults : list Z).

(** From the initialisation of the UDP relay on. *)
Definition main_loop (o : options) (g : globals) (e : env) (udp_mtu : option Z) (h : list resource) (d : list Z) : option result :=
  h ← acquire InitJob h;
  if negb (e_write_buf e) then fail5 o g h d else
  h ← acquire WriteBuffer h;
  h ← acquire Timer h;
  l ← run_events (is_set (netif_ip6addr o)) g (e_events e) (mk_loop false false false false 0 0 0 true [] [] h);
  if quitting l then tear_down o g l d else Some (running (channel_levels defaults o) udp_mtu l).

Definition main_device (o : options) (g : globals) (e : env) (h : list resource) (d : list Z) : option result :=
  h ← acquire Device h;
  h ← acquire ReadInterface h;
  if negb (e_read_buffer e) then fail4 g h d else
  h ← acquire ReadBuffer h;
  if is_set (udpgw_remote_server_addr o) then
    let udp_mtu := compute_udp_mtu (tun_mtu o) (is_set (netif_ip6addr o)) in
    let udpgw_mtu := udpgw_compute_mtu udp_mtu in
    if (udpgw_mtu <? 0) || (udpgw_mtu >? PACKETPROTO_MAXPAYLOAD) then fail4a g h d else
    _ ← assert ((0 <=? udp_mtu) && is_set (g_socks_server_addr g));
    if negb (e_udpgw e) then fail4a g h d else
    h ← acquire Udpgw h;
    main_loop o g e (Some udp_mtu) h d
  else main_loop o g e None h d.

Definition main_reactor (o : options) (g : globals) (fd : Z) (e : env) (h : list resource) (d : list Z) : option result :=
  if negb (e_reactor e) then fail1 g h d else
  h ← acquire Reactor h;
  if negb (e_signal e) then fail2 g h d else
  h ← acquire Signal h;
  _ ← assert ((0 <=? fd) && (0 <=? tun_mtu o));
  if negb (e_tap e) then fail3 g h d else
  main_device o g e h d.

Definition main (argv : list bytes) (e : env) : option result :=
  match argv with
  | [] => Some (returned 1 [] [])
  | argv0 :: _ =>
      match parse_arguments LONG_MAX channels argv with
      | None => fail0 [] []
      | Some o =>
          _ ← assert (negb (fake_proc o) || (zlen FAKE_NAME <=? zlen argv0));
          if help o then Some (returned 0 [] []) else
          if version o then Some (returned 0 [] []) else
          if (logger o =? LOGGER_SYSLOG) && negb (e_syslog e) then fail0 [] [] else
          h ← acquire Log [];
          let '(fd, _, d) := wait_for_fd (e_fd e) in
          if fd =? -1 then fail1 globals0 h d else
          match (if is_set (pid o) then daemonize (e_fork e) else None) with
          | Some status => Some (exited status)
          | None =>
              if negb (e_network e) then fail1 globals0 h d else
              match process_arguments LONG_MAX SIZE_MAX alloc getaddrinfo fs stack o globals0 with
              | crash => None
              | ret ok g =>
                  h ← (match password_file_contents g with Some _ => acquire Password h | None => Some h end);
                  if negb ok then fail1 g h d else main_reactor o g fd e h d
              end
          end
      end
  end.

End Main.

(** ** Nothing is leaked or released twice *)

Definition opt (b : bool) (r : resource) : list resource := if b then [r] else [].

(** What is held in the event loop, with and without the UDP relay and a password from a file. *)
Definition base (u p : bool) : list resource :=
  [Timer; WriteBuffer; InitJob] ++ opt u Udpgw ++ [ReadBuffer; ReadInterface; Device; Signal; Reactor] ++ opt p Password ++ [Log].
Definition fixed (l6 l n u p : bool) : list resource := opt l6 Listener6 ++ opt l Listener ++ opt n Netif ++ base u p.
Definition shape (D : list resource) (l6 l n u p : bool) : list resource := D ++ fixed l6 l n u p.

















(** The resources of the job. *)
Lemma get_netif u p : acquire Netif (shape [] false false false u p) = Some (shape [] false false true u p).
Proof. by destruct u, p. Qed.
Lemma get_pcb u p : acquire Pcb (shape [] false false true u p) = Some (Pcb :: shape [] false false true u p).
Proof. by destruct u, p. Qed.
Lemma put_pcb u p : release Pcb (Pcb :: shape [] false false true u p) = Some (shape [] false false true u p).
Proof. by destruct u, p. Qed.
Lemma get_listener u p : acquire Listener (shape [] false false true u p) = Some (shape [] false true true u p).
Proof. by destruct u, p. Qed.
Lemma get_pcb6 u p : acquire Pcb6 (shape [] false true true u p) = Some (Pcb6 :: shape [] false true true u p).
Proof. by destruct u, p. Qed.
Lemma put_pcb6 u p : release Pcb6 (Pcb6 :: shape [] false true true u p) = Some (shape [] false true true u p).
Proof. by destruct u, p. Qed.
Lemma get_listener6 u p : acquire Listener6 (shape [] false true true u p) = Some (shape [] true true true u p).
Proof. by destruct u, p. Qed.

Create Rewrite HintDb tun_main.
#[local] Hint Rewrite get_netif get_pcb put_pcb get_listener get_pcb6 put_pcb6 get_listener6 : tun_main.

















Section MainLemmas.
Context (LONG_MAX SIZE_MAX : Z) (alloc : Z -> bool) (getaddrinfo : bool -> bool -> bytes -> option bytes) (fs : bytes -> option file) (stack : bytes).
Context (channels : list bytes) (defaults : list Z) (Hstack : length stack = 4%nat /\ is_bytes stack).







End MainLemmas.


(** ** Defects *)

(** When no descriptor is received, [wait_for_fd] returns what was in its variable, and not -1. *)
Lemma garbage_descriptor H r x : fst (fst (wait_for_fd (mk_fd_env true true true true false r H x))) = x /\ fst (fst (wait_for_fd (mk_fd_env true true true true true Ancillary.r_error H x))) = x.
Proof. done. Qed.

(** The sockets of [wait_for_fd] are closed on every path, and a descriptor that the application
    sends is the one that is returned. *)
Lemma device_handed_over e : snd (fst (wait_for_fd e)) = 0 /\
  (f_socket e && f_bind e && f_listen e && f_select e && f_accept e = true -> forall dup fd, f_recvmsg e = Ancillary.deliver (f_cmsghdr e) dup (Ancillary.ancil_send_fd (f_cmsghdr e) fd) -> fst (fst (wait_for_fd e)) = dup fd /\ snd (wait_for_fd e) = [dup fd]).
Proof.
  unfold wait_for_fd. split.
  - destruct (f_socket e), (f_bind e), (f_listen e), (f_select e), (f_accept e); try done. cbn. destruct (Ancillary.ancil_recv_fd _ _ _) as [error fd]. by destruct (error =? 0).
  - rewrite !andb_true_iff. intros [[[[-> ->] ->] ->] ->] dup fd Er. cbn [negb]. rewrite Er, Ancillary.descriptor_passed.
    unfold Ancillary.deliver, Ancillary.ancil_send_fd, Ancillary.ancil_send_fds_with_buffer. cbn [Ancillary.cmsg_len Ancillary.cmsg_data]. by rewrite Ancillary.quarter.
Qed.

(** [--fake-proc] writes past the end of the name of a program that is shorter. *)
Lemma fake_name_overflows M S a r f st ch d e :
  main M S a r f st ch d [lit "tun2socks"; lit "--fake-proc"; lit "--help"] e = None.
Proof. reflexivity. Qed.

End TunMain.
