(* ===== verification/Jobs.v ===== *)
(** * Jobs of the event loop: BPending.c and the list it keeps them in (badvpn)

    The objects of tun2socks call each other back through jobs: a handler sets a job, and the
    event loop executes the job that was set last. The set jobs are linked in the objects
    themselves (SLinkedList_impl.h, without a pointer to the last entry), and an object that is in
    no list has itself as its successor. The models of the objects have the set jobs as a stack of
    distinct names; here the operations are shown to keep one.

    [None] is an access to an object that is not initialised, or a failed assertion. *)

From S2P Require Import Prelude.
Open Scope Z_scope.

Module Jobs.

(** ** The list *)

Record SLinkedListNode := mk_node { prev : option nat; next : option nat }.

Abbreviation heap := (gmap nat SLinkedListNode).

(** A group: its jobs, the first of them, and the objects that use it. *)
Record BPendingGroup := mk_group { nodes : heap; first : option nat; pending_ctr : Z }.

Definition get_next (a : nat) (h : heap) : option (option nat) := next <$> h !! a.
Definition get_prev (a : nat) (h : heap) : option (option nat) := prev <$> h !! a.
Definition set_next (a : nat) (v : option nat) (h : heap) : option heap := x ← h !! a; Some (<[a := mk_node (prev x) v]> h).
Definition set_prev (a : nat) (v : option nat) (h : heap) : option heap := x ← h !! a; Some (<[a := mk_node v (next x)]> h).

Definition with_nodes (h : heap) (g : BPendingGroup) : BPendingGroup := mk_group h (first g) (pending_ctr g).
Definition with_first (f : option nat) (g : BPendingGroup) : BPendingGroup := mk_group (nodes g) f (pending_ctr g).

Definition SLinkedListMarkRemoved (entry : nat) (g : BPendingGroup) : option BPendingGroup :=
  h ← set_next entry (Some entry) (nodes g); Some (with_nodes h g).
Definition SLinkedListIsRemoved (entry : nat) (g : BPendingGroup) : option bool :=
  n ← get_next entry (nodes g); Some (bool_decide (n = Some entry)).

Definition SLinkedList_Prepend (entry : nat) (g : BPendingGroup) : option BPendingGroup :=
  h ← set_next entry (first g) (nodes g);
  h ← match first g with Some f => set_prev f (Some entry) h | None => Some h end;
  Some (with_first (Some entry) (with_nodes h g)).

Definition SLinkedList_Remove (entry : nat) (g : BPendingGroup) : option BPendingGroup :=
  if negb (bool_decide (first g = Some entry)) then
    p ← get_prev entry (nodes g);
    n ← get_next entry (nodes g);
    match p with
    | None => None
    | Some q =>
        h ← set_next q n (nodes g);
        h ← match n with Some m => set_prev m p h | None => Some h end;
        Some (with_nodes h g)
    end
  else n ← get_next entry (nodes g); Some (with_first n g).

Definition SLinkedList_RemoveFirst (g : BPendingGroup) : option BPendingGroup :=
  f ← first g; n ← get_next f (nodes g); Some (with_first n g).

(** ** BPending.c *)

Definition BPendingGroup_Init : BPendingGroup := mk_group ∅ None 0.
Definition BPendingGroup_Free (g : BPendingGroup) : option unit :=
  if (pending_ctr g =? 0) && bool_decide (first g = None) then Some tt else None.
Definition BPendingGroup_HasJobs (g : BPendingGroup) : bool := negb (bool_decide (first g = None)).
Definition BPendingGroup_PeekJob (g : BPendingGroup) : option nat := first g.

(** The job whose handler is called, and the group in which it is called. *)
Definition BPendingGroup_ExecuteJob (g : BPendingGroup) : option (nat * BPendingGroup) :=
  p ← first g;
  r ← SLinkedListIsRemoved p g;
  if (r : bool) then None else
  g ← SLinkedList_RemoveFirst g;
  g ← SLinkedListMarkRemoved p g;
  Some (p, g).

(** [o] is memory of its own. *)
Definition BSmallPending_Init (o : nat) (g : BPendingGroup) : option BPendingGroup :=
  g ← SLinkedListMarkRemoved o (with_nodes (<[o := mk_node None None]> (nodes g)) g);
  Some (mk_group (nodes g) (first g) (pending_ctr g + 1)).

Definition BSmallPending_Free (o : nat) (g : BPendingGroup) : option BPendingGroup :=
  let g := mk_group (nodes g) (first g) (pending_ctr g - 1) in
  r ← SLinkedListIsRemoved o g;
  g ← (if negb r then SLinkedList_Remove o g else Some g);
  Some (with_nodes (delete o (nodes g)) g).

Definition BSmallPending_Set (o : nat) (g : BPendingGroup) : option BPendingGroup :=
  r ← SLinkedListIsRemoved o g;
  g ← (if negb r then SLinkedList_Remove o g else Some g);
  SLinkedList_Prepend o g.

Definition BSmallPending_Unset (o : nat) (g : BPendingGroup) : option BPendingGroup :=
  r ← SLinkedListIsRemoved o g;
  if negb r then g ← SLinkedList_Remove o g; SLinkedListMarkRemoved o g else Some g.

Definition BSmallPending_IsSet (o : nat) (g : BPendingGroup) : option bool :=
  r ← SLinkedListIsRemoved o g; Some (negb r).

(** ** Chains *)

(** [l] is linked: each entry leads to the one behind it, and back. *)
Fixpoint chain (h : heap) (l : list nat) : Prop :=
  match l with
  | [] => True
  | a :: l' => get_next a h = Some (head l') /\ match l' with b :: _ => get_prev b h = Some (Some a) | [] => True end /\ chain h l'
  end.

Lemma chain_frame h h' l : chain h l -> (forall a, a ∈ l -> get_next a h' = get_next a h) -> (forall a, a ∈ tail l -> get_prev a h' = get_prev a h) -> chain h' l.
Proof.
  induction l as [|a l IH]; [done|]. intros (H1 & H2 & H3) Hn Hp. cbn. rewrite Hn by left. split; [done|]. cbn in Hp. split; [destruct l as [|b l]; [done|]; by rewrite Hp by left|]. apply IH; [done| |]; [intros x Hx; apply Hn; by right|]. intros x Hx. apply Hp. destruct l; [by apply not_elem_of_nil in Hx|by right].
Qed.

Lemma set_next_spec a v h : is_Some (h !! a) -> exists h', set_next a v h = Some h' /\ dom h' = dom h /\ (forall b, get_next b h' = if decide (b = a) then Some v else get_next b h) /\ (forall b, get_prev b h' = get_prev b h).
Proof.
  intros [x Hx]. unfold set_next. rewrite Hx. cbn. eexists. split; [reflexivity|]. split; [rewrite dom_insert_L; apply elem_of_dom_2 in Hx; set_solver|]. unfold get_next, get_prev. split; intros b; destruct (decide (b = a)) as [->|Hn]; rewrite ?lookup_insert_eq, ?lookup_insert_ne by done; rewrite ?Hx; done.
Qed.

Lemma set_prev_spec a v h : is_Some (h !! a) -> exists h', set_prev a v h = Some h' /\ dom h' = dom h /\ (forall b, get_prev b h' = if decide (b = a) then Some v else get_prev b h) /\ (forall b, get_next b h' = get_next b h).
Proof.
  intros [x Hx]. unfold set_prev. rewrite Hx. cbn. eexists. split; [reflexivity|]. split; [rewrite dom_insert_L; apply elem_of_dom_2 in Hx; set_solver|]. unfold get_next, get_prev. split; intros b; destruct (decide (b = a)) as [->|Hn]; rewrite ?lookup_insert_eq, ?lookup_insert_ne by done; rewrite ?Hx; done.
Qed.

Lemma chain_in h l a : chain h l -> a ∈ l -> is_Some (h !! a).
Proof.
  induction l as [|b l IH]; [by intros _ ?%not_elem_of_nil|]. intros (H1 & _ & H3) [->|Ha]%elem_of_cons; [|by apply IH]. unfold get_next in H1. destruct (h !! b); [done|discriminate H1].
Qed.

(** An entry in a list does not lead to itself. *)
Lemma chain_next h l a : chain h l -> NoDup l -> a ∈ l -> get_next a h <> Some (Some a).
Proof.
  induction l as [|b l IH]; [by intros _ _ ?%not_elem_of_nil|]. intros (H1 & _ & H3) [Hb Hl]%NoDup_cons [->|Ha]%elem_of_cons; [|by apply IH]. rewrite H1. intros [= E]. apply Hb. destruct l as [|c l]; [done|]. injection E as ->. left.
Qed.

(** The jobs [l] are set, and the other objects are marked. *)
Record holds (g : BPendingGroup) (l : list nat) : Prop := {
  ho_first : first g = head l;
  ho_nodup : NoDup l;
  ho_chain : chain (nodes g) l;
  ho_marked : forall a, is_Some (nodes g !! a) -> a ∉ l -> get_next a (nodes g) = Some (Some a) }.

Lemma is_removed g l a : holds g l -> is_Some (nodes g !! a) -> SLinkedListIsRemoved a g = Some (bool_decide (a ∉ l)).
Proof.
  intros [_ Hn Hc Hm] Ha. unfold SLinkedListIsRemoved. destruct (decide (a ∈ l)) as [Hin|Hout].
  - pose proof (chain_next _ _ _ Hc Hn Hin) as Hne. destruct Ha as [x Hx]. unfold get_next in *. rewrite Hx in *. cbn in *. f_equal. rewrite (bool_decide_false (a ∉ l)) by auto. apply bool_decide_false. congruence.
  - rewrite (Hm a Ha Hout). cbn. f_equal. by rewrite !bool_decide_true.
Qed.

Lemma prepend_spec e g l : first g = head l -> chain (nodes g) l -> NoDup l -> e ∉ l -> is_Some (nodes g !! e) ->
  exists g', SLinkedList_Prepend e g = Some g' /\ first g' = Some e /\ chain (nodes g') (e :: l) /\ dom (nodes g') = dom (nodes g) /\ pending_ctr g' = pending_ctr g /\ forall a, a <> e -> get_next a (nodes g') = get_next a (nodes g).
Proof.
  intros Hf Hc Hnd He Hs. unfold SLinkedList_Prepend. destruct (set_next_spec e (first g) (nodes g) Hs) as (h1 & -> & D1 & N1 & P1). cbn [mbind option_bind]. destruct (first g) as [f|] eqn:Ef.
  - destruct l as [|f' l]; [discriminate Hf|]. injection Hf as <-. assert (Hs1 : is_Some (h1 !! f)) by (apply elem_of_dom; rewrite D1; apply elem_of_dom; apply (chain_in _ (f :: l)); [done|left]).
    destruct (set_prev_spec f (Some e) h1 Hs1) as (h2 & -> & D2 & P2 & N2). cbn [mbind option_bind]. eexists. split; [reflexivity|]. cbn [nodes first pending_ctr with_first with_nodes]. split; [done|]. split; [|split; [congruence|split; [done|]]; intros a Ha; rewrite N2, N1; by destruct (decide (a = e))].
    split; [rewrite N2, N1; by destruct (decide (e = e))|]. split; [rewrite P2; by destruct (decide (f = f))|]. destruct Hc as (C1 & C2 & C3). rewrite not_elem_of_cons in He. destruct He as [He1 He2]. apply (chain_frame (nodes g)); [done| |].
    + intros a Ha. rewrite N2, N1. destruct (decide (a = e)) as [->|]; [|done]. apply elem_of_cons in Ha as [->|Ha]; done.
    + intros a Ha. cbn in Ha. rewrite P2, P1. destruct (decide (a = f)) as [->|]; [|done]. by apply NoDup_cons in Hnd as [Hnd _].
  - destruct l; [|discriminate Hf]. cbn [mbind option_bind]. eexists. split; [reflexivity|]. cbn [nodes first pending_ctr with_first with_nodes]. split_and!; try done; [split; [rewrite N1; by destruct (decide (e = e))|done]|]. intros a Ha. rewrite N1. by destruct (decide (a = e)).
Qed.

Lemma chain_mid h h' p e l2 : forall l1, chain h (l1 ++ p :: e :: l2) -> NoDup (l1 ++ p :: e :: l2) ->
  (forall b, get_next b h' = if decide (b = p) then Some (head l2) else get_next b h) -> (forall b, get_prev b h' = if decide (Some b = head l2) then Some (Some p) else get_prev b h) -> chain h' (l1 ++ p :: l2).
Proof.
  intros l1 Hc Hn N P. induction l1 as [|q l1 IH].
  - destruct Hc as (_ & _ & C1 & _ & C3). cbn [app] in *. apply NoDup_cons in Hn as [Hp Hn]. apply NoDup_cons in Hn as [He Hn]. rewrite not_elem_of_cons in Hp. split; [rewrite N; by destruct (decide (p = p))|]. split; [destruct l2 as [|b l2]; [done|]; rewrite P; by destruct (decide (Some b = head (b :: l2)))|].
    apply (chain_frame h); [done| |]; intros a Ha; [rewrite N; destruct (decide (a = p)) as [->|]; tauto|]. rewrite P. destruct (decide (Some a = head l2)) as [E|]; [|done]. destruct l2 as [|b l2]; [done|]. injection E as ->. by apply NoDup_cons in Hn as [Hn _].
  - cbn [app] in *. destruct Hc as (C1 & C2 & C3). apply NoDup_cons in Hn as [Hq Hn]. specialize (IH C3 Hn).
    assert (Hd : head (l1 ++ p :: l2) = head (l1 ++ p :: e :: l2)) by (by destruct l1). split; [rewrite N, Hd; destruct (decide (q = p)) as [->|]; [exfalso; apply Hq; set_solver|done]|]. split; [|exact IH].
    destruct (l1 ++ p :: l2) as [|b k] eqn:E1; [done|]. destruct (l1 ++ p :: e :: l2) as [|b' k'] eqn:E2; [by destruct l1|]. injection Hd as ->. rewrite P. destruct (decide (Some b' = head l2)) as [E|]; [|done]. exfalso.
    destruct l1 as [|c l1]; cbn in E2; injection E2 as -> <-; apply NoDup_cons in Hn as [Hn _]; apply Hn; destruct l2; cbn in E; try done; injection E as ->; set_solver.
Qed.

Lemma remove_spec e g l : first g = head l -> chain (nodes g) l -> NoDup l -> e ∈ l ->
  exists g', SLinkedList_Remove e g = Some g' /\ first g' = head (filter (fun x => x <> e) l) /\ chain (nodes g') (filter (fun x => x <> e) l) /\ dom (nodes g') = dom (nodes g) /\ pending_ctr g' = pending_ctr g /\ forall a, a ∉ l -> get_next a (nodes g') = get_next a (nodes g).
Proof.
  intros Hf Hc Hn He. destruct (list_elem_of_split _ _ He) as (l1 & l2 & ->). assert (Hfil : filter (fun x => x <> e) (l1 ++ e :: l2) = l1 ++ l2).
  { apply NoDup_app in Hn as (_ & H1 & H2). apply NoDup_cons in H2 as [H2 _]. assert (Hk : forall k : list nat, e ∉ k -> filter (fun x => x <> e) k = k) by (clear; induction k as [|x k IH]; [done|]; rewrite not_elem_of_cons; intros [H1 H2]; rewrite filter_cons, decide_True by auto; by rewrite IH). rewrite filter_app, filter_cons, decide_False by auto. rewrite !Hk; [done|done|]. intros H. apply (H1 e H). left. }
  rewrite Hfil. unfold SLinkedList_Remove. rewrite Hf. induction l1 as [|p k _] using rev_ind.
  - cbn [app head]. rewrite bool_decide_true by done. cbn [negb]. destruct Hc as (C1 & C2 & C3). cbn [app] in C1. rewrite C1. cbn [mbind option_bind]. eexists. split; [reflexivity|]. by split_and!.
  - rewrite bool_decide_false by (rewrite <- app_assoc; cbn; intros E; destruct k as [|q k]; cbn in E; injection E as ->; rewrite <- app_assoc in Hn; cbn in Hn; apply NoDup_cons in Hn as [Hn _]; set_solver). cbn [negb]. rewrite <- !app_assoc in *. cbn [app] in *.
    assert (Hpe : get_prev e (nodes g) = Some (Some p) /\ get_next e (nodes g) = Some (head l2) /\ is_Some (nodes g !! p)).
    { assert (Hs : is_Some (nodes g !! p)) by (apply (chain_in _ _ p Hc); set_solver). clear -Hc Hs. induction k as [|q k IH]; [|destruct Hc as (_ & _ & Hc); by apply IH]. destruct Hc as (_ & C2 & C3 & _). done. }
    destruct Hpe as (-> & -> & Hs). cbn [mbind option_bind]. destruct (set_next_spec p (head l2) (nodes g) Hs) as (h1 & -> & D1 & N1 & P1). cbn [mbind option_bind]. destruct (head l2) as [m|] eqn:Eh.
    + assert (Hm : m ∈ l2) by (destruct l2; [done|]; injection Eh as ->; left). assert (Hs1 : is_Some (h1 !! m)) by (apply elem_of_dom; rewrite D1; apply elem_of_dom, (chain_in _ _ m Hc); set_solver). destruct (set_prev_spec m (Some p) h1 Hs1) as (h2 & -> & D2 & P2 & N2). cbn [mbind option_bind].
      eexists. split; [reflexivity|]. cbn [nodes first pending_ctr with_nodes]. split; [rewrite Hf; by destruct k|]. split; [|split; [congruence|split; [done|]]; intros a Ha; rewrite N2, N1; destruct (decide (a = p)) as [->|]; [exfalso; apply Ha; set_solver|done]].
      apply (chain_mid (nodes g) h2 p e); [done|done| |]; intros b; [rewrite N2, N1, Eh; done|]. rewrite P2, P1, Eh. destruct (decide (b = m)) as [->|]; [by rewrite decide_True|]. rewrite decide_False; [done|congruence].
    + eexists. split; [reflexivity|]. cbn [nodes first pending_ctr with_nodes]. split; [rewrite Hf; by destruct k|]. split; [|split; [congruence|split; [done|]]; intros a Ha; rewrite N1; destruct (decide (a = p)) as [->|]; [exfalso; apply Ha; set_solver|done]].
      apply (chain_mid (nodes g) h1 p e); [done|done| |]; intros b; [by rewrite N1, Eh|]. rewrite P1, Eh. by rewrite decide_False.
Qed.

(** ** The stack of jobs *)

Record jobs := mk_jobs { objects : gset nat; set_jobs : list nat }.

Inductive op := op_init (o : nat) | op_free (o : nat) | op_set (o : nat) | op_unset (o : nat) | op_execute | op_is_set (o : nat) | op_has_jobs | op_peek.
Inductive answer := a_none | a_job (o : option nat) | a_bool (b : bool).

Definition without (o : nat) (l : list nat) : list nat := filter (fun x => x <> o) l.

(** What the operations mean; [None]: the caller must not do this. *)
Definition jobs_step (p : op) (j : jobs) : option (jobs * answer) :=
  match p with
  | op_init o => if bool_decide (o ∈ objects j) then None else Some (mk_jobs ({[o]} ∪ objects j) (set_jobs j), a_none)
  | op_free o => if bool_decide (o ∈ objects j) then Some (mk_jobs (objects j ∖ {[o]}) (without o (set_jobs j)), a_none) else None
  | op_set o => if bool_decide (o ∈ objects j) then Some (mk_jobs (objects j) (o :: without o (set_jobs j)), a_none) else None
  | op_unset o => if bool_decide (o ∈ objects j) then Some (mk_jobs (objects j) (without o (set_jobs j)), a_none) else None
  | op_execute => match set_jobs j with o :: l => Some (mk_jobs (objects j) l, a_job (Some o)) | [] => None end
  | op_is_set o => if bool_decide (o ∈ objects j) then Some (j, a_bool (bool_decide (o ∈ set_jobs j))) else None
  | op_has_jobs => Some (j, a_bool (negb (bool_decide (set_jobs j = []))))
  | op_peek => Some (j, a_job (head (set_jobs j)))
  end.

Definition step (p : op) (g : BPendingGroup) : option (BPendingGroup * answer) :=
  match p with
  | op_init o => g ← BSmallPending_Init o g; Some (g, a_none)
  | op_free o => g ← BSmallPending_Free o g; Some (g, a_none)
  | op_set o => g ← BSmallPending_Set o g; Some (g, a_none)
  | op_unset o => g ← BSmallPending_Unset o g; Some (g, a_none)
  | op_execute => r ← BPendingGroup_ExecuteJob g; Some (snd r, a_job (Some (fst r)))
  | op_is_set o => b ← BSmallPending_IsSet o g; Some (g, a_bool b)
  | op_has_jobs => Some (g, a_bool (BPendingGroup_HasJobs g))
  | op_peek => Some (g, a_job (BPendingGroup_PeekJob g))
  end.

Fixpoint run {S} (f : op -> S -> option (S * answer)) (ops : list op) (s : S) : option (S * list answer) :=
  match ops with
  | [] => Some (s, [])
  | p :: ops => x ← f p s; y ← run f ops (fst x); Some (fst y, snd x :: snd y)
  end.

Record repr (g : BPendingGroup) (j : jobs) : Prop := {
  re_holds : holds g (set_jobs j);
  re_objects : dom (nodes g) = objects j;
  re_count : pending_ctr g = Z.of_nat (size (objects j)) }.

Lemma in_dom g j o : repr g j -> o ∈ objects j <-> is_Some (nodes g !! o).
Proof. intros [_ H _]. by rewrite <- H, elem_of_dom. Qed.

Lemma next_in (h : heap) a v : get_next a h = Some v -> is_Some (h !! a).
Proof. unfold get_next. by destruct (h !! a). Qed.

Lemma without_in (o a : nat) l : a ∈ without o l <-> a <> o /\ a ∈ l.
Proof. unfold without. by rewrite list_elem_of_filter. Qed.

Lemma without_notin (o : nat) l : o ∉ l -> without o l = l.
Proof. induction l as [|x l IH]; [done|]. rewrite not_elem_of_cons. intros [H1 H2]. unfold without in *. rewrite filter_cons, decide_True by auto. by rewrite IH. Qed.

(** Taking a job out, if it is set: the rest is as it was. *)
Lemma taken_out g l o : holds g l -> is_Some (nodes g !! o) ->
  exists g', (r ← SLinkedListIsRemoved o g; if negb r then SLinkedList_Remove o g else Some g) = Some g' /\ first g' = head (without o l) /\ NoDup (without o l) /\ chain (nodes g') (without o l) /\ dom (nodes g') = dom (nodes g) /\ pending_ctr g' = pending_ctr g /\
    forall a, a ∉ l -> get_next a (nodes g') = get_next a (nodes g).
Proof.
  intros H Ho. pose proof H as [H1 H2 H3 H4]. rewrite (is_removed g l o H Ho). cbn [mbind option_bind]. case_bool_decide as Hd; cbn [negb].
  - exists g. rewrite without_notin by done. by split_and!.
  - destruct (remove_spec o g l H1 H3 H2 Hd) as (g' & -> & F & C & D & P & N). exists g'. split_and!; try done. by apply NoDup_filter.
Qed.

Lemma mark_spec o g : is_Some (nodes g !! o) ->
  exists g', SLinkedListMarkRemoved o g = Some g' /\ first g' = first g /\ pending_ctr g' = pending_ctr g /\ dom (nodes g') = dom (nodes g) /\ (forall b, get_next b (nodes g') = if decide (b = o) then Some (Some o) else get_next b (nodes g)) /\ (forall b, get_prev b (nodes g') = get_prev b (nodes g)).
Proof. intros Ho. unfold SLinkedListMarkRemoved. destruct (set_next_spec o (Some o) (nodes g) Ho) as (h & -> & D & N & P). cbn. eexists. split; [reflexivity|]. by split_and!. Qed.

(** Marking an object that is in no list. *)
Lemma marked_holds g g' l o : first g = head l -> NoDup l -> chain (nodes g) l -> o ∉ l -> (forall a, is_Some (nodes g !! a) -> a ∉ l -> a <> o -> get_next a (nodes g) = Some (Some a)) ->
  first g' = first g -> dom (nodes g') = dom (nodes g) -> (forall b, get_next b (nodes g') = if decide (b = o) then Some (Some o) else get_next b (nodes g)) -> (forall b, get_prev b (nodes g') = get_prev b (nodes g)) -> holds g' l.
Proof.
  intros H1 H2 H3 H4 H5 F D N P. split; [congruence|done| |].
  - apply (chain_frame (nodes g)); [done| |]; intros a Ha; [rewrite N; destruct (decide (a = o)) as [->|]; done|apply P].
  - intros a Ha Hl. rewrite N. destruct (decide (a = o)) as [->|Hn]; [done|]. apply H5; [|done|done]. apply elem_of_dom. rewrite <- D. by apply elem_of_dom.
Qed.

Lemma in_tail (a : nat) l : a ∈ tail l -> a ∈ l.
Proof. destruct l; [done|]. by right. Qed.

Lemma init_repr g j o : repr g j -> o ∉ objects j -> exists g', BSmallPending_Init o g = Some g' /\ repr g' (mk_jobs ({[o]} ∪ objects j) (set_jobs j)).
Proof.
  intros H Ho. pose proof H as [Hh Hd Hc]. pose proof Hh as [H1 H2 H3 H4]. unfold BSmallPending_Init. set (g0 := with_nodes (<[o := mk_node None None]> (nodes g)) g). destruct (mark_spec o g0) as (g1 & -> & F & Pc & D & N & P); [cbn; rewrite lookup_insert_eq; eauto|]. cbn [mbind option_bind]. eexists. split; [reflexivity|].
  assert (Hol : o ∉ set_jobs j) by (intros Hin; apply Ho; rewrite (in_dom g j o H); by apply (chain_in _ _ o H3)).
  assert (Hg0 : forall a, a <> o -> get_next a (nodes g0) = get_next a (nodes g) /\ get_prev a (nodes g0) = get_prev a (nodes g)) by (intros a Ha; unfold get_next, get_prev, g0; cbn; by rewrite lookup_insert_ne by done).
  split; cbn [set_jobs objects nodes first pending_ctr].
  - apply (marked_holds g0 _ _ o); cbn [first nodes]; try done.
    + apply (chain_frame (nodes g)); [done| |]; intros a Ha; apply Hg0; intros ->; [done|]. apply Hol. by apply in_tail.
    + intros a Ha Hal Hao. rewrite (proj1 (Hg0 a Hao)). apply H4; [|done]. cbn in Ha. by rewrite lookup_insert_ne in Ha by done.
  - rewrite D. unfold g0. cbn [nodes with_nodes]. rewrite dom_insert_L, Hd. done.
  - rewrite Pc. unfold g0. cbn [pending_ctr with_nodes]. rewrite size_union by set_solver. rewrite size_singleton, Hc. lia.
Qed.

Lemma free_repr g j o : repr g j -> o ∈ objects j -> exists g', BSmallPending_Free o g = Some g' /\ repr g' (mk_jobs (objects j ∖ {[o]}) (without o (set_jobs j))).
Proof.
  intros H Ho. pose proof H as [Hh Hd Hc]. pose proof Hh as [H1 H2 H3 H4]. pose proof (proj1 (in_dom g j o H) Ho) as Hs. unfold BSmallPending_Free. cbv zeta. set (g0 := mk_group (nodes g) (first g) (pending_ctr g - 1)). assert (Hh0 : holds g0 (set_jobs j)) by (by split).
  destruct (taken_out g0 _ o Hh0 Hs) as (g1 & E1 & F & Nd & C & D & P & N). destruct (SLinkedListIsRemoved o g0) as [r|]; [|done]. cbn [mbind option_bind] in E1 |- *. rewrite E1. cbn [mbind option_bind]. eexists. split; [reflexivity|]. split; cbn [set_jobs objects nodes first pending_ctr with_nodes].
  - assert (Hdel : forall a, a <> o -> get_next a (delete o (nodes g1)) = get_next a (nodes g1) /\ get_prev a (delete o (nodes g1)) = get_prev a (nodes g1)) by (intros a Ha; unfold get_next, get_prev; by rewrite lookup_delete_ne by done).
    split; cbn [first nodes with_nodes]; [done|done| |].
    + apply (chain_frame (nodes g1)); [done| |]; intros a Ha; apply Hdel; [|apply in_tail in Ha]; by apply without_in in Ha as [Ha _].
    + intros a Ha Hal. destruct (decide (a = o)) as [->|Hn]; [by rewrite lookup_delete_eq in Ha; destruct Ha|]. rewrite (proj1 (Hdel a Hn)), N by (intros Hin; apply Hal; by apply without_in). apply H4; [|intros Hin; apply Hal; by apply without_in].
      rewrite lookup_delete_ne in Ha by done. apply elem_of_dom. change (nodes g) with (nodes g0). rewrite <- D. by apply elem_of_dom.
  - rewrite dom_delete_L, D. cbn. by rewrite Hd.
  - rewrite P. cbn. rewrite Hc. rewrite size_difference by set_solver. rewrite size_singleton. assert (size (objects j) <> 0%nat) by (intros Hz%size_empty_inv; set_solver). lia.
Qed.

Lemma set_repr g j o : repr g j -> o ∈ objects j -> exists g', BSmallPending_Set o g = Some g' /\ repr g' (mk_jobs (objects j) (o :: without o (set_jobs j))).
Proof.
  intros H Ho. pose proof H as [Hh Hd Hc]. pose proof Hh as [H1 H2 H3 H4]. pose proof (proj1 (in_dom g j o H) Ho) as Hs. unfold BSmallPending_Set. destruct (taken_out g _ o Hh Hs) as (g1 & E1 & F & Nd & C & D & P & N). destruct (SLinkedListIsRemoved o g) as [r|]; [|done]. cbn [mbind option_bind] in E1 |- *. rewrite E1. cbn [mbind option_bind].
  assert (Hno : o ∉ without o (set_jobs j)) by (by intros [? _]%without_in). destruct (prepend_spec o g1 _ F C Nd Hno) as (g2 & -> & F2 & C2 & D2 & P2 & N2); [apply elem_of_dom; rewrite D; by apply elem_of_dom|]. eexists. split; [reflexivity|]. split; cbn [set_jobs objects]; [|congruence|congruence].
  split; [done|by apply NoDup_cons|done|]. intros a Ha Hal. rewrite not_elem_of_cons in Hal. destruct Hal as [Hao Hal]. rewrite N2 by done. assert (a ∉ set_jobs j) by (intros Hin; apply Hal; by apply without_in). rewrite N by done. apply H4; [|done]. apply elem_of_dom. rewrite <- D, <- D2. by apply elem_of_dom.
Qed.

Lemma unset_repr g j o : repr g j -> o ∈ objects j -> exists g', BSmallPending_Unset o g = Some g' /\ repr g' (mk_jobs (objects j) (without o (set_jobs j))).
Proof.
  intros H Ho. pose proof H as [Hh Hd Hc]. pose proof Hh as [H1 H2 H3 H4]. pose proof (proj1 (in_dom g j o H) Ho) as Hs. unfold BSmallPending_Unset. destruct (taken_out g _ o Hh Hs) as (g1 & E1 & F & Nd & C & D & P & N). rewrite (is_removed g _ o Hh Hs) in E1 |- *. cbn [mbind option_bind] in E1 |- *. case_bool_decide as Hin; cbn [negb] in E1 |- *.
  - rewrite without_notin by done. exists g. by destruct j.
  - rewrite E1. cbn [mbind option_bind]. destruct (mark_spec o g1) as (g2 & -> & F2 & P2 & D2 & N2 & V2); [apply elem_of_dom; rewrite D; by apply elem_of_dom|]. eexists. split; [reflexivity|]. split; cbn [set_jobs objects]; [|congruence|congruence].
    apply (marked_holds g1 g2 _ o); try done; [by intros [? _]%without_in|]. intros a Ha Hal Hao. assert (a ∉ set_jobs j) by (intros Hi; apply Hal; by apply without_in). rewrite N by done. apply H4; [|done]. apply elem_of_dom. rewrite <- D. by apply elem_of_dom.
Qed.

Lemma execute_repr g j o l : repr g j -> set_jobs j = o :: l -> exists g', BPendingGroup_ExecuteJob g = Some (o, g') /\ repr g' (mk_jobs (objects j) l).
Proof.
  intros [Hh Hd Hc] El. rewrite El in Hh. pose proof Hh as [H1 H2 H3 H4]. unfold BPendingGroup_ExecuteJob. rewrite H1. cbn [head mbind option_bind]. assert (Hs : is_Some (nodes g !! o)) by (apply (chain_in _ _ o H3); left). rewrite (is_removed g _ o Hh Hs), bool_decide_false by (intros Hx; apply Hx; left). cbn [mbind option_bind].
  unfold SLinkedList_RemoveFirst. rewrite H1. cbn [head mbind option_bind]. destruct H3 as (C1 & C2 & C3). rewrite C1. cbn [mbind option_bind]. apply NoDup_cons in H2 as [Hol H2]. destruct (mark_spec o (with_first (head l) g) Hs) as (g2 & -> & F2 & P2 & D2 & N2 & V2). cbn [mbind option_bind]. eexists. split; [reflexivity|].
  split; cbn [set_jobs objects]; [|by rewrite D2|by rewrite P2]. apply (marked_holds (with_first (head l) g) g2 _ o); try done. intros a Ha Hal Hao. apply H4; [done|]. by rewrite not_elem_of_cons.
Qed.

Lemma step_repr p g j j' x : repr g j -> jobs_step p j = Some (j', x) -> exists g', step p g = Some (g', x) /\ repr g' j'.
Proof.
  intros H E. destruct p as [o|o|o|o| |o| |]; cbn [jobs_step step] in E |- *.
  - case_bool_decide as Ho; [done|]. injection E as <- <-. destruct (init_repr g j o H Ho) as (g' & -> & H'). by exists g'.
  - case_bool_decide as Ho; [|done]. injection E as <- <-. destruct (free_repr g j o H Ho) as (g' & -> & H'). by exists g'.
  - case_bool_decide as Ho; [|done]. injection E as <- <-. destruct (set_repr g j o H Ho) as (g' & -> & H'). by exists g'.
  - case_bool_decide as Ho; [|done]. injection E as <- <-. destruct (unset_repr g j o H Ho) as (g' & -> & H'). by exists g'.
  - destruct (set_jobs j) as [|o l] eqn:El; [done|]. injection E as <- <-. destruct (execute_repr g j o l H El) as (g' & -> & H'). by exists g'.
  - case_bool_decide as Ho; [|done]. injection E as <- <-. pose proof (proj1 (in_dom g j o H) Ho) as Hs. unfold BSmallPending_IsSet. rewrite (is_removed g _ o (re_holds _ _ H) Hs). cbn [mbind option_bind]. exists g. split; [|done]. do 3 f_equal. destruct (decide (o ∈ set_jobs j)) as [Hi|Hi]; [rewrite bool_decide_false, bool_decide_true by auto; done|rewrite bool_decide_true, bool_decide_false by auto; done].
  - injection E as <- <-. exists g. split; [|done]. unfold BPendingGroup_HasJobs. rewrite (ho_first _ _ (re_holds _ _ H)). do 3 f_equal. by destruct (set_jobs j).
  - injection E as <- <-. exists g. split; [|done]. unfold BPendingGroup_PeekJob. by rewrite (ho_first _ _ (re_holds _ _ H)).
Qed.

Lemma run_repr ops : forall g j j' xs, repr g j -> run jobs_step ops j = Some (j', xs) -> exists g', run step ops g = Some (g', xs) /\ repr g' j'.
Proof.
  induction ops as [|p ops IH]; intros g j j' xs H E; cbn [run] in E |- *; [injection E as <- <-; by exists g|]. destruct (jobs_step p j) as [[j1 x]|] eqn:E1; [|done]. cbn [mbind option_bind fst snd] in E. destruct (run jobs_step ops j1) as [[j2 ys]|] eqn:E2; [|done]. injection E as <- <-.
  destruct (step_repr p g j j1 x H E1) as (g1 & -> & H1). cbn [mbind option_bind fst snd]. destruct (IH g1 j1 j2 ys H1 E2) as (g2 & -> & H2). by exists g2.
Qed.

Lemma init_group : repr BPendingGroup_Init (mk_jobs ∅ []).
Proof. split; cbn; [|by rewrite dom_empty_L|done]. split; cbn; [done|constructor|done|]. intros a Ha. rewrite lookup_empty in Ha. by destruct Ha. Qed.

(** C14: A group of jobs is a stack: whatever jobs are initialised, set, unset, executed and freed,
    in any order that initialises each object before it is used, no other memory is accessed, and
    the operations answer as a stack of distinct jobs does: the job executed is the one set last of
    those that are set, setting a job that is set moves it to the front, a job is not set while its
    handler runs, and a freed one is not executed. The group can be freed when its objects are. *)
Theorem jobs_refine ops j xs :
  run jobs_step ops (mk_jobs ∅ []) = Some (j, xs) ->
  exists g, run step ops BPendingGroup_Init = Some (g, xs) /\ repr g j /\ (objects j = ∅ -> BPendingGroup_Free g = Some tt).
Proof.
  intros E. destruct (run_repr ops _ _ _ _ init_group E) as (g & Eg & H). exists g. split; [done|]. split; [done|]. intros Ho. destruct H as [[H1 _ H3 _] Hd Hc]. unfold BPendingGroup_Free. rewrite Hc, Ho, size_empty.
  assert (set_jobs j = []) as El; [|by rewrite H1, El]. destruct (set_jobs j) as [|o l]; [done|]. exfalso. assert (Hi : o ∈ objects j) by (rewrite <- Hd; apply elem_of_dom; apply (chain_in _ (o :: l)); [done|left]). set_solver.
Qed.

Lemma jobs_refine_witness :
  let ops := [op_init 1; op_init 2; op_init 3; op_set 1; op_set 2; op_set 3; op_set 1; op_unset 2; op_peek; op_execute; op_is_set 1; op_execute; op_has_jobs; op_set 2; op_free 2; op_free 1; op_free 3; op_has_jobs] in
  exists g, run step ops BPendingGroup_Init = Some (g, [a_none; a_none; a_none; a_none; a_none; a_none; a_none; a_none; a_job (Some 1%nat); a_job (Some 1%nat); a_bool false; a_job (Some 3%nat); a_bool false; a_none; a_none; a_none; a_none; a_bool false]) /\
    BPendingGroup_Free g = Some tt.
Proof.
  intros ops. destruct (run jobs_step ops (mk_jobs ∅ [])) as [[j xs]|] eqn:E; [|vm_compute in E; discriminate E]. destruct (jobs_refine ops j xs E) as (g & Eg & _ & Hf). vm_compute in E. injection E as <- <-. exists g. split; [exact Eg|]. apply Hf. vm_compute. reflexivity.
Defined.

End Jobs.
