(* ===== verification/LinkedList1.v ===== *)
(** * Linked lists of badvpn: LinkedList1.h

    The doubly linked lists in which tun2socks keeps its TCP clients, the UDP relay its connections
    and the flow objects their queues. The models of these have Rocq lists; here each operation is
    shown to do to the nodes what it does there.

    [None] is an access to an address at which there is no node; a null pointer is [None] too. *)

From S2P Require Import Prelude.
Open Scope Z_scope.

Module LinkedList1.

Record LinkedList1Node := mk_node { p : option nat; n : option nat }.
Record LinkedList1 := mk_list { first : option nat; last : option nat }.

Abbreviation heap := (gmap nat LinkedList1Node).

(** The nodes and the list. *)
Definition state : Type := heap * LinkedList1.

Definition set_p (a : nat) (v : option nat) (h : heap) : option heap := x ← h !! a; Some (<[a := mk_node v (n x)]> h).
Definition set_n (a : nat) (v : option nat) (h : heap) : option heap := x ← h !! a; Some (<[a := mk_node (p x) v]> h).

(** ** Operations *)

Definition LinkedList1_Init : LinkedList1 := mk_list None None.
Definition LinkedList1_IsEmpty (l : LinkedList1) : bool := negb (match first l with Some _ => true | None => false end).
Definition LinkedList1_GetFirst (l : LinkedList1) : option nat := first l.
Definition LinkedList1_GetLast (l : LinkedList1) : option nat := last l.
Definition LinkedList1Node_Next (a : nat) (h : heap) : option (option nat) := n <$> h !! a.
Definition LinkedList1Node_Prev (a : nat) (h : heap) : option (option nat) := p <$> h !! a.

(** The two halves of every change: the pointers around [a] towards it. *)
Definition link_before (pr : option nat) (a : option nat) (s : state) : option state :=
  let '(h, l) := s in
  match pr with Some q => h ← set_n q a h; Some (h, l) | None => Some (h, mk_list a (last l)) end.
Definition link_behind (nx : option nat) (a : option nat) (s : state) : option state :=
  let '(h, l) := s in
  match nx with Some q => h ← set_p q a h; Some (h, l) | None => Some (h, mk_list (first l) a) end.

Definition LinkedList1_Prepend (node : nat) (s : state) : option state :=
  let '(h, l) := s in
  h ← set_p node None h; h ← set_n node (first l) h;
  s ← link_behind (first l) (Some node) (h, l);
  Some (s.1, mk_list (Some node) (last s.2)).

Definition LinkedList1_Append (node : nat) (s : state) : option state :=
  let '(h, l) := s in
  h ← set_p node (last l) h; h ← set_n node None h;
  s ← link_before (last l) (Some node) (h, l);
  Some (s.1, mk_list (first s.2) (Some node)).

Definition LinkedList1_InsertBefore (node target : nat) (s : state) : option state :=
  let '(h, l) := s in
  tp ← LinkedList1Node_Prev target h; h ← set_p node tp h; h ← set_n node (Some target) h;
  tp ← LinkedList1Node_Prev target h;
  s ← link_before tp (Some node) (h, l);
  h ← set_p target (Some node) s.1; Some (h, s.2).

Definition LinkedList1_InsertAfter (node target : nat) (s : state) : option state :=
  let '(h, l) := s in
  h ← set_p node (Some target) h; tn ← LinkedList1Node_Next target h; h ← set_n node tn h;
  tn ← LinkedList1Node_Next target h;
  s ← link_behind tn (Some node) (h, l);
  h ← set_n target (Some node) s.1; Some (h, s.2).

Definition LinkedList1_Remove (node : nat) (s : state) : option state :=
  x ← s.1 !! node;
  s ← link_before (p x) (n x) s;
  x ← s.1 !! node;
  link_behind (n x) (p x) s.

Definition LinkedList1_InsertListAfter (ins_list : LinkedList1) (target : option nat) (s : state) : option state :=
  match first ins_list, last ins_list with
  | None, _ => Some s
  | Some _, None => None
  | Some f, Some z =>
      let '(h, l) := s in
      t_next ← match target with Some t => LinkedList1Node_Next t h | None => Some (first l) end;
      h ← set_p f target h; h ← set_n z t_next h;
      s ← link_before target (Some f) (h, l);
      link_behind t_next (Some z) s
  end.

(** ** Segments *)

Definition first_or (l : list nat) (d : option nat) : option nat := match l with a :: _ => Some a | [] => d end.
Fixpoint last_or (d : option nat) (l : list nat) : option nat := match l with a :: l => last_or (Some a) l | [] => d end.

(** The nodes of [l], between [pr] and [nx]. *)
Fixpoint seg (h : heap) (pr : option nat) (l : list nat) (nx : option nat) : Prop :=
  match l with
  | [] => True
  | a :: l => h !! a = Some (mk_node pr (first_or l nx)) /\ seg h (Some a) l nx
  end.

Lemma seg_cat h l1 : forall pr l2 nx, seg h pr (l1 ++ l2) nx <-> seg h pr l1 (first_or l2 nx) /\ seg h (last_or pr l1) l2 nx.
Proof.
  induction l1 as [|a l1 IH]; intros pr l2 nx; [cbn; tauto|]. cbn [app seg last_or]. rewrite IH. assert (E : first_or (l1 ++ l2) nx = first_or l1 (first_or l2 nx)) by (by destruct l1). rewrite E. tauto.
Qed.

Lemma seg_frame h h' l : forall pr nx, seg h pr l nx -> (forall a, a ∈ l -> h' !! a = h !! a) -> seg h' pr l nx.
Proof. induction l as [|a l IH]; intros pr nx H Hf; [done|]. destruct H as [H1 H2]. split; [rewrite Hf by left; done|]. apply IH; [done|]. intros x Hx. apply Hf. by right. Qed.

Lemma seg_insert h pr l nx a x : seg h pr l nx -> a ∉ l -> seg (<[a := x]> h) pr l nx.
Proof. intros H Ha. apply (seg_frame h); [done|]. intros b Hb. apply lookup_insert_ne. by intros ->. Qed.

Lemma first_or_app l1 l2 d : first_or (l1 ++ l2) d = first_or l1 (first_or l2 d).
Proof. by destruct l1. Qed.

Lemma last_or_app l1 : forall d l2, last_or d (l1 ++ l2) = last_or (last_or d l1) l2.
Proof. induction l1 as [|a l1 IH]; intros d l2; [done|]. apply IH. Qed.

Lemma last_or_in (z : nat) l : forall d, last_or d l = Some z -> d = Some z \/ z ∈ l.
Proof. induction l as [|a l IH]; intros d H; [by left|]. apply IH in H as [[= ->]|H]; [right; left|right; by right]. Qed.

Lemma last_or_snoc d l (z : nat) : last_or d (l ++ [z]) = Some z.
Proof. by rewrite last_or_app. Qed.

(** The pointer from the end of a segment, and the one from its start. *)
Lemma seg_end h pr l nx nx' z : seg h pr (l ++ [z]) nx -> NoDup (l ++ [z]) -> exists h', set_n z nx' h = Some h' /\ seg h' pr (l ++ [z]) nx' /\ forall b, b <> z -> h' !! b = h !! b.
Proof.
  intros H Hn. apply seg_cat in H as [H1 [H2 _]]. cbn in H1, H2. apply NoDup_app in Hn as (_ & Hn & _). unfold set_n. rewrite H2. cbn. eexists. split; [reflexivity|]. split; [|intros b Hb; by apply lookup_insert_ne].
  apply seg_cat. split; [apply seg_insert; [done|]; intros Hz; apply (Hn z Hz); left|]. cbn. split; [by rewrite lookup_insert_eq|done].
Qed.

Lemma seg_start h pr pr' a l nx : seg h pr (a :: l) nx -> NoDup (a :: l) -> exists h', set_p a pr' h = Some h' /\ seg h' pr' (a :: l) nx /\ forall b, b <> a -> h' !! b = h !! b.
Proof.
  intros [H1 H2] [Hn _]%NoDup_cons. unfold set_p. rewrite H1. cbn. eexists. split; [reflexivity|]. split; [|intros b Hb; by apply lookup_insert_ne]. split; [by rewrite lookup_insert_eq|by apply seg_insert].
Qed.

(** A list with its nodes. *)
Record holds (s : state) (l : list nat) : Prop := {
  ho_seg : seg s.1 None l None;
  ho_first : first s.2 = first_or l None;
  ho_last : last s.2 = last_or None l;
  ho_nodup : NoDup l }.

(** The list with its first or last node replaced, when nothing is before or behind. *)
Definition first_of (l1 : list nat) (v : option nat) (L : LinkedList1) : LinkedList1 := match l1 with [] => mk_list v (last L) | _ => L end.
Definition last_of (l2 : list nat) (v : option nat) (L : LinkedList1) : LinkedList1 := match l2 with [] => mk_list (first L) v | _ => L end.

Lemma link_before_spec h L l1 v nx : seg h None l1 nx -> NoDup l1 ->
  exists h', link_before (last_or None l1) v (h, L) = Some (h', first_of l1 v L) /\ seg h' None l1 v /\ forall b, b ∉ l1 -> h' !! b = h !! b.
Proof.
  intros Hs Hn. induction l1 as [|z l _] using rev_ind; [by exists h|]. rewrite last_or_snoc. cbn [link_before]. destruct (seg_end h None l nx v z Hs Hn) as (h' & -> & Hs' & Hf). cbn [mbind option_bind]. exists h'. split; [by destruct l|]. split; [done|]. intros b Hb. apply Hf. intros ->. apply Hb. set_solver.
Qed.

Lemma link_behind_spec h L l2 v pr : seg h pr l2 None -> NoDup l2 ->
  exists h', link_behind (first_or l2 None) v (h, L) = Some (h', last_of l2 v L) /\ seg h' v l2 None /\ forall b, b ∉ l2 -> h' !! b = h !! b.
Proof.
  intros Hs Hn. destruct l2 as [|a l]; [by exists h|]. cbn [first_or link_behind]. destruct (seg_start h pr v a l None Hs Hn) as (h' & -> & Hs' & Hf). cbn [mbind option_bind]. exists h'. split; [done|]. split; [done|]. intros b Hb. apply Hf. intros ->. apply Hb. left.
Qed.

(** Three pieces that are linked make a list. *)
Lemma joined h L l1 m l2 : seg h None l1 (first_or m (first_or l2 None)) -> seg h (last_or None l1) m (first_or l2 None) -> seg h (last_or (last_or None l1) m) l2 None -> NoDup (l1 ++ m ++ l2) ->
  first L = first_or (l1 ++ m ++ l2) None -> last L = last_or None (l1 ++ m ++ l2) -> holds (h, L) (l1 ++ m ++ l2).
Proof. intros H1 H2 H3 Hn Hf Hl. split; [|done..]. cbn. apply seg_cat. rewrite first_or_app. split; [done|]. apply seg_cat. done. Qed.

Lemma pieces s l1 l2 : holds s (l1 ++ l2) -> seg s.1 None l1 (first_or l2 None) /\ seg s.1 (last_or None l1) l2 None /\ NoDup l1 /\ NoDup l2 /\ (forall a, a ∈ l1 -> a ∉ l2).
Proof. intros [H1 _ _ H4]. apply seg_cat in H1 as [H1 H1']. apply NoDup_app in H4 as (A & B & C). done. Qed.

(** The nodes [m], linked between [l1] and [l2] but not yet reached from them. *)
Record waiting (h : heap) (L : LinkedList1) (l1 m l2 : list nat) : Prop := {
  wa_some : m <> [];
  wa_before : seg h None l1 (first_or l2 None);
  wa_mid : seg h (last_or None l1) m (first_or l2 None);
  wa_behind : seg h (last_or None l1) l2 None;
  wa_nodup : NoDup (l1 ++ m ++ l2);
  wa_first : first L = first_or (l1 ++ l2) None;
  wa_last : last L = last_or None (l1 ++ l2) }.

Lemma nodup3 (l1 m l2 : list nat) : NoDup (l1 ++ m ++ l2) -> NoDup l1 /\ NoDup m /\ NoDup l2 /\ (forall a, a ∈ l1 -> (a ∉ m) /\ a ∉ l2) /\ (forall a, a ∈ m -> a ∉ l2).
Proof. rewrite !NoDup_app. intros (A & B & C & D & E). split_and!; try done. intros a Ha. pose proof (B a Ha) as H. rewrite elem_of_app in H. tauto. Qed.

Lemma ends_joined l1 m l2 L : m <> [] -> first L = first_or (l1 ++ l2) None -> last L = last_or None (l1 ++ l2) ->
  first (last_of l2 (last_or None m) (first_of l1 (first_or m None) L)) = first_or (l1 ++ m ++ l2) None /\ last (last_of l2 (last_or None m) (first_of l1 (first_or m None) L)) = last_or None (l1 ++ m ++ l2) /\
  first_of l1 (first_or m None) (last_of l2 (last_or None m) L) = last_of l2 (last_or None m) (first_of l1 (first_or m None) L).
Proof.
  intros Hm Hf Hl. rewrite !last_or_app in *. destruct m as [|x m]; [done|]. destruct l1 as [|a l1], l2 as [|b l2]; cbn in *; split_and!; try done.
Qed.

(** They are inserted by the two halves, in either order. *)
Lemma insert_between h L l1 m l2 : waiting h L l1 m l2 -> exists h', (s ← link_before (last_or None l1) (first_or m None) (h, L); link_behind (first_or l2 None) (last_or None m) s) = Some (h', last_of l2 (last_or None m) (first_of l1 (first_or m None) L)) /\
  holds (h', last_of l2 (last_or None m) (first_of l1 (first_or m None) L)) (l1 ++ m ++ l2) /\ forall b, b ∉ l1 ++ l2 -> h' !! b = h !! b.
Proof.
  intros [Hm Hb Hc Hd Hn Hf Hl]. destruct (nodup3 _ _ _ Hn) as (N1 & Nm & N2 & D1 & D2). destruct (ends_joined l1 m l2 L Hm Hf Hl) as (F & E & _).
  destruct (link_before_spec h L l1 (first_or m None) _ Hb N1) as (h1 & -> & S1 & F1). cbn [mbind option_bind]. assert (Hd1 : seg h1 (last_or None l1) l2 None) by (apply (seg_frame h); [done|]; intros a Ha; apply F1; intros Hx; by apply (D1 a Hx)).
  destruct (link_behind_spec h1 (first_of l1 (first_or m None) L) l2 (last_or None m) _ Hd1 N2) as (h2 & -> & S2 & F2). exists h2. split; [done|]. assert (Hmm : forall d, last_or d m = last_or None m) by (by destruct m). assert (Hff : forall d, first_or m d = first_or m None) by (by destruct m).
  split; [apply joined; try done|intros b Hb'; rewrite elem_of_app in Hb'; rewrite F2, F1; tauto]; [rewrite Hff| |by rewrite Hmm].
  - apply (seg_frame h1); [done|]. intros a Ha. apply F2. by apply D1.
  - apply (seg_frame h); [done|]. intros a Ha. rewrite F2, F1; [done|intros Hx; by apply (proj1 (D1 a Hx))|by apply D2].
Qed.

Lemma insert_between' h L l1 m l2 : waiting h L l1 m l2 -> exists h', (s ← link_behind (first_or l2 None) (last_or None m) (h, L); link_before (last_or None l1) (first_or m None) s) = Some (h', last_of l2 (last_or None m) (first_of l1 (first_or m None) L)) /\
  holds (h', last_of l2 (last_or None m) (first_of l1 (first_or m None) L)) (l1 ++ m ++ l2) /\ forall b, b ∉ l1 ++ l2 -> h' !! b = h !! b.
Proof.
  intros [Hm Hb Hc Hd Hn Hf Hl]. destruct (nodup3 _ _ _ Hn) as (N1 & Nm & N2 & D1 & D2). destruct (ends_joined l1 m l2 L Hm Hf Hl) as (F & E & Ec).
  destruct (link_behind_spec h L l2 (last_or None m) _ Hd N2) as (h1 & -> & S1 & F1). cbn [mbind option_bind]. assert (Hb1 : seg h1 None l1 (first_or l2 None)) by (apply (seg_frame h); [done|]; intros a Ha; apply F1; by apply D1).
  destruct (link_before_spec h1 (last_of l2 (last_or None m) L) l1 (first_or m None) _ Hb1 N1) as (h2 & -> & S2 & F2). rewrite Ec. exists h2. split; [done|]. assert (Hmm : forall d, last_or d m = last_or None m) by (by destruct m). assert (Hff : forall d, first_or m d = first_or m None) by (by destruct m).
  split; [apply joined; try done|intros b Hb'; rewrite elem_of_app in Hb'; rewrite F2, F1; tauto]; [by rewrite Hff| |rewrite Hmm].
  - apply (seg_frame h); [done|]. intros a Ha. rewrite F2, F1; [done|by apply D2|intros Hx; by apply (proj1 (D1 a Hx))].
  - apply (seg_frame h1); [done|]. intros a Ha. apply F2. intros Hx. by apply (D1 a Hx).
Qed.

(** A node that was prepared for its place. *)
Lemma prepared h L l1 l2 e x : holds (h, L) (l1 ++ l2) -> e ∉ l1 ++ l2 -> x = mk_node (last_or None l1) (first_or l2 None) -> waiting (<[e := x]> h) L l1 [e] l2.
Proof.
  intros H He ->. pose proof H as [_ Hf Hl Hn]. destruct (pieces _ _ _ H) as (S1 & S2 & N1 & N2 & D). rewrite not_elem_of_app in He. destruct He as [He1 He2]. split; try done; [by apply seg_insert|cbn; by rewrite lookup_insert_eq|by apply seg_insert|].
  apply NoDup_app. split_and!; [done| |]; [intros a Ha; cbn; rewrite not_elem_of_cons; split; [by intros ->|by apply D]|]. cbn. by apply NoDup_cons.
Qed.

Lemma two_sets h e x a b : h !! e = Some x -> (h' ← set_p e a h; set_n e b h') = Some (<[e := mk_node a b]> h).
Proof. intros Hx. unfold set_p, set_n. rewrite Hx. cbn. rewrite lookup_insert_eq. cbn. by rewrite insert_insert_eq. Qed.

(** ** The operations on lists *)

Lemma prepend_ok h L l e : holds (h, L) l -> e ∉ l -> is_Some (h !! e) -> exists s, LinkedList1_Prepend e (h, L) = Some s /\ holds s (e :: l) /\ forall b, b ∉ (e :: l) -> s.1 !! b = h !! b.
Proof.
  intros H He [x Hx]. pose proof (prepared h L [] l e _ H He eq_refl) as W. destruct (insert_between' _ _ _ _ _ W) as (h' & E & H' & Fr). unfold LinkedList1_Prepend. pose proof (ho_first _ _ H) as Hf. cbn [snd] in Hf. rewrite Hf. pose proof (two_sets h e x None (first_or l None) Hx) as E2. cbn [last_or] in E.
  destruct (set_p e None h) as [h1|]; [|done]. cbn [mbind option_bind] in E2 |- *. rewrite E2. cbn [mbind option_bind]. change (Some e) with (last_or None [e]) at 1. destruct (link_behind _ _ _) as [[h2 L2]|]; [|done]. cbn in E |- *. eexists. split; [exact E|]. split; [exact H'|]. intros b Hb. cbn. rewrite Fr, lookup_insert_ne; [done|set_solver|set_solver].
Qed.

Lemma append_ok h L l e : holds (h, L) l -> e ∉ l -> is_Some (h !! e) -> exists s, LinkedList1_Append e (h, L) = Some s /\ holds s (l ++ [e]) /\ forall b, b ∉ (l ++ [e]) -> s.1 !! b = h !! b.
Proof.
  intros H He [x Hx]. rewrite <- (app_nil_r l) in H, He. pose proof (prepared h L l [] e _ H He eq_refl) as W. destruct (insert_between _ _ _ _ _ W) as (h' & E & H' & Fr). unfold LinkedList1_Append. pose proof (ho_last _ _ H) as Hl. cbn [snd] in Hl. rewrite app_nil_r in Hl. rewrite Hl. pose proof (two_sets h e x (last_or None l) None Hx) as E2. cbn [first_or] in E.
  destruct (set_p e (last_or None l) h) as [h1|]; [|done]. cbn [mbind option_bind] in E2 |- *. rewrite E2. cbn [mbind option_bind]. destruct (link_before _ _ _) as [[h2 L2]|]; [|done]. cbn in E |- *. eexists. split; [exact E|]. split; [exact H'|]. intros b Hb. cbn. rewrite Fr, lookup_insert_ne; [done|set_solver|set_solver].
Qed.

Lemma node_at s l1 a l2 : holds s (l1 ++ a :: l2) -> s.1 !! a = Some (mk_node (last_or None l1) (first_or l2 None)).
Proof. intros [H _ _ _]. apply seg_cat in H as [_ [H _]]. done. Qed.

Lemma insert_before_ok h L l1 t l2 e : holds (h, L) (l1 ++ t :: l2) -> e ∉ l1 ++ t :: l2 -> is_Some (h !! e) -> exists s, LinkedList1_InsertBefore e t (h, L) = Some s /\ holds s (l1 ++ e :: t :: l2) /\ forall b, b ∉ (l1 ++ e :: t :: l2) -> s.1 !! b = h !! b.
Proof.
  intros H He [x Hx]. pose proof (prepared h L l1 (t :: l2) e _ H He eq_refl) as W. destruct (insert_between _ _ _ _ _ W) as (h' & E & H' & Fr). assert (Hte : t <> e) by (intros ->; apply He; set_solver). pose proof (node_at _ _ _ _ H) as Ht. cbn [fst] in Ht. pose proof (two_sets h e x (last_or None l1) (Some t) Hx) as E2.
  unfold LinkedList1_InsertBefore, LinkedList1Node_Prev. rewrite Ht. cbn [fmap option_fmap option_map mbind option_bind p]. destruct (set_p e (last_or None l1) h) as [h1|]; [|done]. cbn [mbind option_bind] in E2 |- *. rewrite E2. cbn [mbind option_bind]. rewrite lookup_insert_ne, Ht by auto. cbn [fmap option_fmap option_map mbind option_bind p].
  cbn [first_or last_or] in E. destruct (link_before _ _ _) as [[h2 L2]|]; [|done]. cbn [mbind option_bind link_behind fst snd] in E |- *. destruct (set_p t (Some e) h2) as [h3|]; [|done]. cbn [mbind option_bind] in E |- *. eexists. split; [exact E|]. split; [exact H'|]. intros b Hb. cbn. rewrite Fr, lookup_insert_ne; [done|set_solver|set_solver].
Qed.

Lemma insert_after_ok h L l1 t l2 e : holds (h, L) (l1 ++ t :: l2) -> e ∉ l1 ++ t :: l2 -> is_Some (h !! e) -> exists s, LinkedList1_InsertAfter e t (h, L) = Some s /\ holds s (l1 ++ t :: e :: l2) /\ forall b, b ∉ (l1 ++ t :: e :: l2) -> s.1 !! b = h !! b.
Proof.
  intros H He [x Hx]. pose proof (node_at _ _ _ _ H) as Ht. cbn [fst] in Ht. assert (Hte : t <> e) by (intros ->; apply He; set_solver). replace (l1 ++ t :: l2) with ((l1 ++ [t]) ++ l2) in H, He by (by rewrite <- app_assoc). pose proof (prepared h L (l1 ++ [t]) l2 e _ H He eq_refl) as W. destruct (insert_between' _ _ _ _ _ W) as (h' & E & H' & Fr).
  rewrite last_or_snoc in E. unfold LinkedList1_InsertAfter, LinkedList1Node_Next. unfold set_p at 1. rewrite Hx. cbn [mbind option_bind]. rewrite lookup_insert_ne, Ht by auto. cbn [fmap option_fmap option_map mbind option_bind n]. assert (E3 : set_n e (first_or l2 None) (<[e := mk_node (Some t) (n x)]> h) = Some (<[e := mk_node (Some t) (first_or l2 None)]> h)) by (unfold set_n; rewrite lookup_insert_eq; cbn; by rewrite insert_insert_eq).
  rewrite E3. cbn [mbind option_bind]. rewrite lookup_insert_ne, Ht by auto. cbn [fmap option_fmap option_map mbind option_bind n].
  cbn [first_or last_or] in E. destruct (link_behind _ _ _) as [[h2 L2]|]; [|done]. cbn [mbind option_bind link_before fst snd] in E |- *. destruct (set_n t (Some e) h2) as [h3|]; [|done]. cbn [mbind option_bind] in E |- *. eexists. split; [exact E|]. rewrite <- app_assoc in H'. split; [exact H'|]. intros b Hb. cbn. rewrite Fr, lookup_insert_ne; [done|set_solver|set_solver].
Qed.

Lemma node_remove_ok h L l1 e l2 : holds (h, L) (l1 ++ e :: l2) -> exists s, LinkedList1_Remove e (h, L) = Some s /\ holds s (l1 ++ l2) /\ forall b, b ∉ l1 ++ l2 -> s.1 !! b = h !! b.
Proof.
  intros H. pose proof (node_at _ _ _ _ H) as He. pose proof H as [_ Hf Hl Hn]. destruct (nodup3 l1 [e] l2 Hn) as (N1 & _ & N2 & D1 & D2). destruct (pieces (h, L) l1 (e :: l2) H) as (S1 & [_ S2] & _). cbn [fst snd first_or] in *. unfold LinkedList1_Remove. cbn [fst]. rewrite He. cbn [mbind option_bind p n].
  destruct (link_before_spec h L l1 (first_or l2 None) _ S1 N1) as (h1 & -> & S1' & F1). cbn [mbind option_bind fst]. assert (Hel : e ∉ l1) by (intros Hx; apply (proj1 (D1 e Hx)); left). rewrite F1, He by done. cbn [mbind option_bind p n].
  assert (S2' : seg h1 (Some e) l2 None) by (apply (seg_frame h); [done|]; intros a Ha; apply F1; intros Hx; by apply (proj2 (D1 a Hx))). destruct (link_behind_spec h1 (first_of l1 (first_or l2 None) L) l2 (last_or None l1) _ S2' N2) as (h2 & -> & S2'' & F2). eexists. split; [reflexivity|]. split; [|intros b Hb; cbn; rewrite not_elem_of_app in Hb; rewrite F2, F1; tauto].
  change (l1 ++ l2) with (l1 ++ [] ++ l2). apply joined; cbn [first_or last_or app]; try done.
  - apply (seg_frame h1); [done|]. intros a Ha. apply F2. by apply (proj2 (D1 a Ha)).
  - apply NoDup_app. split_and!; [done| |done]. intros a Ha. by apply (proj2 (D1 a Ha)).
  - destruct l1 as [|a l1], l2 as [|b l2]; cbn in *; done.
  - rewrite !last_or_app in *. destruct l1 as [|a l1], l2 as [|b l2]; cbn in *; done.
Qed.

(** The nodes of another list, which starts with [f], are put behind [l1]. *)
Lemma insert_list_after_ok h L l1 f m l2 : holds (h, L) (l1 ++ l2) -> seg h None (f :: m) None -> NoDup (l1 ++ (f :: m) ++ l2) ->
  exists s, LinkedList1_InsertListAfter (mk_list (Some f) (last_or None (f :: m))) (last_or None l1) (h, L) = Some s /\ holds s (l1 ++ (f :: m) ++ l2).
Proof.
  intros H Hm Hn. destruct (nodup3 _ _ _ Hn) as (N1 & Nm & N2 & D1 & D2). destruct (pieces _ _ _ H) as (S1 & S2 & _). cbn [fst] in *.
  assert (Ht : (match last_or None l1 with Some t => LinkedList1Node_Next t h | None => Some (first L) end) = Some (first_or l2 None)).
  { induction l1 as [|t l _] using rev_ind; [f_equal; exact (ho_first _ _ H)|]. rewrite last_or_snoc. unfold LinkedList1Node_Next. rewrite <- app_assoc in H. pose proof (node_at _ _ _ _ H) as Hx. cbn [fst] in Hx. by rewrite Hx. }
  destruct (seg_start h None (last_or None l1) f m None Hm Nm) as (h1 & E1 & M1 & F1). assert (Hz : exists k z, f :: m = k ++ [z]) by (destruct (exists_last (l := f :: m) ltac:(done)) as (k & z & E); by exists k, z). destruct Hz as (k & z & Ez).
  rewrite Ez in M1, Nm. destruct (seg_end h1 _ k None (first_or l2 None) z M1 Nm) as (h2 & E2 & M2 & F2). rewrite <- Ez in M2. assert (Hfz : f ∈ f :: m /\ z ∈ f :: m) by (rewrite Ez at 2; set_solver).
  assert (Fr : forall b, b ∉ f :: m -> h2 !! b = h !! b) by (intros b Hb; rewrite F2, F1; [done|set_solver|set_solver]).
  assert (W : waiting h2 L l1 (f :: m) l2).
  { split; [done|apply (seg_frame h); [done|]; intros a Ha; apply Fr; by apply D1|exact M2|apply (seg_frame h); [done|]; intros a Ha; apply Fr; intros Hx; by apply (D2 a Hx)|done|exact (ho_first _ _ H)|exact (ho_last _ _ H)]. }
  destruct (insert_between _ _ _ _ _ W) as (h' & E & H' & _). unfold LinkedList1_InsertListAfter. cbn [first last]. rewrite Ez, last_or_snoc in *. rewrite Ht. cbn [mbind option_bind]. rewrite E1. cbn [mbind option_bind]. rewrite E2. cbn [mbind option_bind]. rewrite <- Ez in *. eexists. split; [exact E|exact H'].
Qed.

(** ** Sequences of operations *)

Fixpoint before (e t : nat) (l : list nat) : list nat := match l with [] => [] | x :: l => if (x =? t)%nat then e :: x :: l else x :: before e t l end.
Fixpoint after (e t : nat) (l : list nat) : list nat := match l with [] => [] | x :: l => if (x =? t)%nat then x :: e :: l else x :: after e t l end.
Fixpoint next_in (t : nat) (l : list nat) : option nat := match l with [] => None | x :: l => if (x =? t)%nat then first_or l None else next_in t l end.
Fixpoint prev_in (d : option nat) (t : nat) (l : list nat) : option nat := match l with [] => None | x :: l => if (x =? t)%nat then d else prev_in (Some x) t l end.

Inductive op := op_prepend (a : nat) | op_append (a : nat) | op_before (a t : nat) | op_after (a t : nat) | op_remove (a : nat) | op_first | op_last | op_next (a : nat) | op_prev (a : nat) | op_empty.
Inductive answer := a_none | a_node (a : option nat) | a_bool (b : bool).

(** What they mean for a list of nodes, among those of [mem]; [None]: the caller must not do this. *)
Definition list_step (mem : gset nat) (o : op) (l : list nat) : option (list nat * answer) :=
  match o with
  | op_prepend a => if bool_decide (a ∈ mem /\ a ∉ l) then Some (a :: l, a_none) else None
  | op_append a => if bool_decide (a ∈ mem /\ a ∉ l) then Some (l ++ [a], a_none) else None
  | op_before a t => if bool_decide (a ∈ mem /\ (a ∉ l) /\ t ∈ l) then Some (before a t l, a_none) else None
  | op_after a t => if bool_decide (a ∈ mem /\ (a ∉ l) /\ t ∈ l) then Some (after a t l, a_none) else None
  | op_remove a => if bool_decide (a ∈ l) then Some (filter (fun x => x <> a) l, a_none) else None
  | op_first => Some (l, a_node (first_or l None))
  | op_last => Some (l, a_node (last_or None l))
  | op_next a => if bool_decide (a ∈ l) then Some (l, a_node (next_in a l)) else None
  | op_prev a => if bool_decide (a ∈ l) then Some (l, a_node (prev_in None a l)) else None
  | op_empty => Some (l, a_bool (bool_decide (l = [])))
  end.

Definition step (o : op) (s : state) : option (state * answer) :=
  match o with
  | op_prepend a => s ← LinkedList1_Prepend a s; Some (s, a_none)
  | op_append a => s ← LinkedList1_Append a s; Some (s, a_none)
  | op_before a t => s ← LinkedList1_InsertBefore a t s; Some (s, a_none)
  | op_after a t => s ← LinkedList1_InsertAfter a t s; Some (s, a_none)
  | op_remove a => s ← LinkedList1_Remove a s; Some (s, a_none)
  | op_first => Some (s, a_node (LinkedList1_GetFirst s.2))
  | op_last => Some (s, a_node (LinkedList1_GetLast s.2))
  | op_next a => r ← LinkedList1Node_Next a s.1; Some (s, a_node r)
  | op_prev a => r ← LinkedList1Node_Prev a s.1; Some (s, a_node r)
  | op_empty => Some (s, a_bool (LinkedList1_IsEmpty s.2))
  end.

Fixpoint run {S} (f : op -> S -> option (S * answer)) (ops : list op) (s : S) : option (S * list answer) :=
  match ops with
  | [] => Some (s, [])
  | o :: ops => x ← f o s; y ← run f ops x.1; Some (y.1, x.2 :: y.2)
  end.

Lemma at_target t l : t ∈ l -> NoDup l -> exists l1 l2, l = l1 ++ t :: l2 /\ (forall e, before e t l = l1 ++ e :: t :: l2) /\ (forall e, after e t l = l1 ++ t :: e :: l2) /\
  filter (fun x => x <> t) l = l1 ++ l2 /\ next_in t l = first_or l2 None /\ forall d, prev_in d t l = last_or d l1.
Proof.
  assert (Hk : forall k : list nat, t ∉ k -> filter (fun x => x <> t) k = k) by (clear; induction k as [|x k IH]; [done|]; rewrite not_elem_of_cons; intros [H1 H2]; rewrite filter_cons, decide_True by auto; by rewrite IH).
  induction l as [|x l IH]; [by intros ?%not_elem_of_nil|]. intros Ht [Hx Hn]%NoDup_cons. cbn [before after next_in prev_in]. rewrite filter_cons. destruct (Nat.eqb_spec x t) as [->|Hne].
  - exists [], l. rewrite decide_False by auto. split_and!; try done. by apply Hk.
  - apply elem_of_cons in Ht as [->|Ht]; [done|]. destruct (IH Ht Hn) as (l1 & l2 & -> & B & A & F & N & P). exists (x :: l1), l2. rewrite decide_True by done. split_and!; try done; [intros e; by rewrite B|intros e; by rewrite A|by rewrite F].
Qed.

(** The nodes of [mem] stay there. *)
Definition repr (mem : gset nat) (s : state) (l : list nat) : Prop := holds s l /\ forall a, a ∈ mem -> is_Some (s.1 !! a).

Lemma seg_node h l a : forall pr nx, seg h pr l nx -> a ∈ l -> is_Some (h !! a).
Proof. induction l as [|x l IH]; intros pr nx H Ha; [by apply not_elem_of_nil in Ha|]. destruct H as [H1 H2]. apply elem_of_cons in Ha as [->|Ha]; [by rewrite H1|by eapply IH]. Qed.

Lemma still_there mem (h : heap) (s : state) l : holds s l -> (forall b, b ∉ l -> s.1 !! b = h !! b) -> (forall a, a ∈ mem -> is_Some (h !! a)) -> repr mem s l.
Proof. intros H Hf Hm. split; [done|]. intros a Ha. destruct (decide (a ∈ l)) as [Hi|Hi]; [by apply (seg_node _ l a _ _ (ho_seg _ _ H))|]. rewrite Hf by done. by apply Hm. Qed.

Lemma op_repr mem o s l l' x : repr mem s l -> list_step mem o l = Some (l', x) -> exists s', step o s = Some (s', x) /\ repr mem s' l'.
Proof.
  intros [H Hm] E. destruct s as [h L]. pose proof (ho_nodup _ _ H) as Hn. destruct o as [a|a|a t|a t|a| | |a|a|]; cbn [list_step step] in E |- *; try (case_bool_decide as Hc; [|done]); injection E as <- <-.
  - destruct Hc as [Ha Hl]. destruct (prepend_ok h L l a H Hl (Hm a Ha)) as (s & -> & Hs & F). exists s. split; [done|]. by apply (still_there mem h).
  - destruct Hc as [Ha Hl]. destruct (append_ok h L l a H Hl (Hm a Ha)) as (s & -> & Hs & F). exists s. split; [done|]. by apply (still_there mem h).
  - destruct Hc as (Ha & Hl & Ht). destruct (at_target t l Ht Hn) as (l1 & l2 & -> & B & _). rewrite B. destruct (insert_before_ok h L l1 t l2 a H Hl (Hm a Ha)) as (s & -> & Hs & F). exists s. split; [done|]. by apply (still_there mem h).
  - destruct Hc as (Ha & Hl & Ht). destruct (at_target t l Ht Hn) as (l1 & l2 & -> & _ & A & _). rewrite A. destruct (insert_after_ok h L l1 t l2 a H Hl (Hm a Ha)) as (s & -> & Hs & F). exists s. split; [done|]. by apply (still_there mem h).
  - destruct (at_target a l Hc Hn) as (l1 & l2 & -> & _ & _ & Fl & _). rewrite Fl. destruct (node_remove_ok h L l1 a l2 H) as (s & -> & Hs & F). exists s. split; [done|]. by apply (still_there mem h).
  - exists (h, L). split; [|done]. unfold LinkedList1_GetFirst. by rewrite (ho_first _ _ H).
  - exists (h, L). split; [|done]. unfold LinkedList1_GetLast. by rewrite (ho_last _ _ H).
  - destruct (at_target a l Hc Hn) as (l1 & l2 & -> & _ & _ & _ & N & _). rewrite N. exists (h, L). split; [|done]. unfold LinkedList1Node_Next. by rewrite (node_at _ _ _ _ H).
  - destruct (at_target a l Hc Hn) as (l1 & l2 & -> & _ & _ & _ & _ & P). rewrite P. exists (h, L). split; [|done]. unfold LinkedList1Node_Prev. by rewrite (node_at _ _ _ _ H).
  - exists (h, L). split; [|done]. unfold LinkedList1_IsEmpty. rewrite (ho_first _ _ H). by destruct l.
Qed.

(** Any sequence of operations on a list of nodes that makes sense is answered by LinkedList1.h as
    by the Rocq list with the same entries, without an access to anything but its nodes. *)
Theorem linked_list_refines mem ops : forall s l l' xs, repr mem s l -> run (list_step mem) ops l = Some (l', xs) -> exists s', run step ops s = Some (s', xs) /\ repr mem s' l'.
Proof.
  induction ops as [|o ops IH]; intros s l l' xs H E; cbn [run] in E |- *; [injection E as <- <-; by exists s|]. destruct (list_step mem o l) as [[l1 x]|] eqn:E1; [|done]. cbn [mbind option_bind fst snd] in E. destruct (run (list_step mem) ops l1) as [[l2 ys]|] eqn:E2; [|done]. injection E as <- <-.
  destruct (op_repr mem o s l l1 x H E1) as (s1 & -> & H1). cbn [mbind option_bind fst snd]. destruct (IH s1 l1 l2 ys H1 E2) as (s2 & -> & H2). by exists s2.
Qed.

Lemma empty_list mem (h : heap) : (forall a, a ∈ mem -> is_Some (h !! a)) -> repr mem (h, LinkedList1_Init) [].
Proof. intros Hm. split; [|done]. split; cbn; try done. constructor. Qed.

End LinkedList1.
